(* ===== verification/_CoqProject ===== *)
-Q . S2P
Prelude.v
CmpXchg386.v
X86.v
X86Spec.v
I486Emu.v
I486EmuProofs.v
EmuTheorems.v
Msdos.v
MsdosProofs.v
MsdosTheorems.v
DropbearBuffer.v
DropbearBufferProofs.v
CircBuffer.v
Channel.v
ChannelProofs.v
ChannelLife.v
ChannelLifeProofs.v
ChannelTheorems.v
ChannelSession.v
ChannelSessionProofs.v
Slob.v
SlobProofs.v
SlobHeap.v
SlobTheorems.v
Rbtree.v
RbtreeSpec.v
RbtreeInsert.v
RbtreeErase.v
RbtreeRemove.v
RbtreeTheorems.v
Sort.v
SortProofs.v
MuslTime.v
MuslTimeProofs.v
Kstrtox.v
Vsprintf.v
Deflate.v
InfTrees.v
Canon.v
InfTreesProofs.v
InfTreesSort.v
InfTreesTheorems.v
DeflateProofs.v
InfFixed.v
InflateState.v
InflateFast.v
Inflate.v
InflateTables.v
InflateMonad.v
InflateCodes.v
InflateSim.v
InflateBlocks.v
InflateMatch.v
InflateFastCopy.v
InflateFastProofs.v
InflateDynamic.v
InflateInput.v
InflateCall.v
InflateTheorems.v
Result.v
Vsnprintf.v
VsnprintfText.v
VsnprintfSafety.v
VsnprintfSpec.v
VsnprintfDecode.v
VsnprintfPointer.v
VsnprintfRender.v
VsnprintfTheorems.v
Vsscanf.v
VsscanfProofs.v
VsscanfTheorems.v
Gunzip.v
GunzipProofs.v
GunzipTheorems.v
Initramfs.v
InitramfsSpec.v
InitramfsProofs.v
InitramfsTermination.v
InitramfsTheorems.v
