(* ===== verification/Prelude.v ===== *)
(** * gray386linux: a verification development

    gray386linux builds a Linux system for CPUs as old as the 386: a Linux 3.7.10 kernel
    with a fault-driven emulator of 486 instructions, and a user land of musl, busybox and
    the dropbear SSH server, unpacked at boot from an initramfs.  This library models parts
    of it as Rocq functions translated from the C sources under src/src and proves what they
    guarantee.

    ** The parts and their files

    The order is that of the dependencies; every [*Theorems] or [*Proofs] file names the
    statements that matter first in its own header.

    - [Prelude] (this file): machine words as integers with explicit wrap-around, tactics,
      hints and lemmas on lists, options and bits that the components share.
    - [CmpXchg386]: arch/x86/lib/cmpxchg.c.  The three fallbacks as state transformers, and
      as a step relation in which interrupt handlers run between statements.
    - [X86], [X86Spec], [I486Emu], [I486EmuProofs], [EmuTheorems]: arch/x86/kernel/i486_emu.c
      and [do_invalid_op] of traps.c.  [X86] is the machine at the trap (registers, flags,
      user memory), [X86Spec] the 486 semantics of the emulated instructions, [I486Emu] the
      decoder and the emulation, one definition per C function.
    - [Msdos], [MsdosProofs], [MsdosTheorems]: block/partitions/msdos.c, check.h and check.c,
      on a disk given as the contents of its sectors.
    - [DropbearBuffer], [DropbearBufferProofs]: buffer.c of dropbear and the libtommath
      conversions it calls; [CircBuffer]: circbuffer.c.
    - [Channel], [ChannelProofs]: data a channel of common-channel.c receives, with its flow
      control, over the circular buffers; [ChannelLife], [ChannelLifeProofs],
      [ChannelTheorems]: the rest of a channel, from the connection of its descriptors over
      sending, EOF and CLOSE to its removal, as handlers that log what they do;
      [ChannelSession], [ChannelSessionProofs]: the table of channels of a session, whose
      handlers are those of [ChannelLife].
    - [Slob], [SlobProofs], [SlobHeap], [SlobTheorems]: mm/slob.c, from the free list inside
      a page to kmalloc, kfree and the slab caches.
    - [Rbtree], [RbtreeSpec], [RbtreeInsert], [RbtreeErase], [RbtreeRemove],
      [RbtreeTheorems]: lib/rbtree.c and rbtree_augmented.h, on nodes in memory.
    - [Sort], [SortProofs]: lib/sort.c.
    - [MuslTime], [MuslTimeProofs]: the UTC calendar of musl (src/time).
    - lib/kstrtox.c and lib/vsprintf.c.  [Kstrtox]: the parsing of integers, with the
      simple_strto functions; [Vsprintf]: the printing of numbers, which [Kstrtox] reads back.
      [Vsnprintf]: formatted output, from [format_decode] over the conversions and the
      extensions of [%p] to [vsnprintf] and its wrappers; [VsnprintfSpec]: formats as data
      and what they print; [VsnprintfText], [VsnprintfSafety], [VsnprintfDecode],
      [VsnprintfPointer], [VsnprintfRender]: the proof, by texts, rounds of a directive and
      whole formats; [VsnprintfTheorems].  [Vsscanf]: formatted input, with [VsscanfProofs]
      and [VsscanfTheorems].
    - lib/zlib_inflate.  [Deflate] is the specification: the formats of RFC 1951 and 1950 as
      a function on bits, with [DeflateProofs] about it.
      [InfTrees] is inftrees.c, with [Canon], [InfTreesProofs], [InfTreesSort] and
      [InfTreesTheorems]; [InfFixed] the tables of inffixed.h.  [InflateState] is inflate.h
      and the macros of inflate.c, [InflateFast] inffast.c, [Inflate] inflate.c: one
      definition per case of the [switch].  The other [Inflate*] files are the proof, by
      weakest preconditions ([InflateMonad]): the invariant, the checksum and the window ([InflateSim]), the cases
      ([InflateBlocks], [InflateMatch], [InflateDynamic]), the fast decoder
      ([InflateFastCopy], [InflateFastProofs]), the input ([InflateInput]) and a whole call
      ([InflateCall]); [InflateTheorems] is about all calls for a stream.
    - [Gunzip], [GunzipProofs], [GunzipTheorems]: lib/decompress_inflate.c and infutil.c, which
      call [zlib_inflate]; [Result]: the results of this and the next component and of [Vsnprintf].
    - [Initramfs], [InitramfsSpec], [InitramfsProofs], [InitramfsTermination],
      [InitramfsTheorems]: init/initramfs.c and lib/decompress.c, with [gunzip] for gzipped
      images.

    ** How the code is represented

    Integers are values of [Z]; where C truncates, [u8] to [u64] and [s8] to [s64] are
    written out, and where signed overflow is undefined the result is an error value.  A
    struct is a record, an enum an inductive type, static variables one record that is passed
    along.  Code that can go wrong returns [option] or a result type of the component whose
    error values stand for a wild access, a failed assertion or BUG_ON, or an exit; so "the
    result is [Some]" or "is [Ok]" is a statement of memory safety.  Memory is kept at the
    level the code works at: bytes for the emulator and the sort, units of a page for the
    allocator, a map from addresses to nodes for the trees, a list of bytes for buffers.

    Loops that are not structural take fuel, and running out of it is an error value, so
    that a theorem about a result includes termination.  The bounds: 100 tables in a chain of
    extended partitions (the limit of the code), the number of elements for the sort, the
    logarithm of the number of nodes for the trees, the number of free blocks of a page for
    the allocator, the number of input bytes for the archive reader, four times the bits of
    input and the bytes of output space for a call of [zlib_inflate], 2065 rounds for every
    byte of input for [gunzip], since a byte expands to at most 2064, two rounds for every
    character of a format of [vsnprintf] and one for [vsscanf].  Formats that [%pV] nests in
    one another are as deep as a parameter says; the text of a directive is specified for
    field widths and precisions up to 10000.

    Code that is not in the sources is a parameter: the disk, the page allocator, malloc, the
    answers of read, write and select, what the functions of a channel type decide, the
    file system calls of the archive reader, and the memory the pointer arguments of
    [vsnprintf] lead to, which neither its buffer nor the integers of a [%n] overlap.  What is assumed of them are
    hypotheses of the theorems that need them, and each such theorem has a witness that
    instantiates them.

    ** What the theorems show

    - Emulator: on every supported form it does what a 486 does, apart from five flags of
      cmpxchg; on any failure the machine is the one at the trap; everything else is refused.
      The forms on which it departs from the architecture are theorems too.
    - cmpxchg fallbacks: atomic with respect to interrupts.
    - Partitions: on any disk the parser ends, stays inside its array and returns its pages;
      it finds exactly the partitions the tables list.
    - dropbear: buffers never touch memory outside; encoders and decoders are inverse; the
      circular buffer is a queue; a channel delivers what it receives, in order, keeps its
      window accounted for to the byte and never stalls, as long as the descriptor it writes
      to stays open; over its whole life it follows the protocol of EOF and CLOSE, keeps to
      the window of the peer, closes each descriptor once, loses no data on CLOSE and is
      removed in the end.  These hold for any peer: where the session exits, the peer or the
      application did what the code refuses, and one such case is an assertion that a peer
      can trip.  For any peer a session of such channels never faults and keeps its table
      consistent; if descriptors are given only to channels on which nothing was ended yet, every
      channel also follows the protocol.
    - SLOB: objects never overlap, are aligned and keep their contents; freeing merges and
      gives every page back; a page is a first-fit allocator.
    - Trees: insertion and removal keep order, balance and the rest of memory, in
      logarithmically many rounds; the walks follow the order.
    - Sort: a sorted permutation, for elements of every size.
    - Calendar: agreement with the Gregorian calendar for every 64-bit time, both ways, and
      with ISO 8601 weeks, without overflow but for the least day of the month; the two
      conversions are inverse.
    - Numbers: parsing and printing are exact over the whole range and inverse.
    - Formatted output and input: [vsnprintf] prints what its format says in the kernel's
      dialect, cut to the buffer, and on any format stays in its buffer, its local arrays and
      the integers a [%n] points to; [vsscanf] ends on any input and stores only through its
      pointers; integers that the one prints the other reads back.  The integers are those of
      C99 outside the cases [VsnprintfTheorems] lists; these, and the other places where the
      code departs from C99 or from its comments, are shown by evaluation.
    - inflate: the decoding tables are those of the canonical codes and fit their space; a
      stream in pieces of any sizes, into buffers of any sizes, comes out as the RFCs say, with
      the end, the errors and the rest of the input told correctly, and no access leaves the
      input, the output, the window or the tables.  The one exception is a halfword read of
      the fast decoder: a buffer at an odd address needs a readable byte before it.
    - gunzip: the pieces it hands to its callback are the contents of the file; a blob is
      unpacked within its buffer.
    - initramfs: a well-formed archive, plain or gzipped, is installed as its entries say,
      through the decompressor down to the bits and in pieces of any sizes; reading ends on
      any bytes; the initcall composes both images, and falls back to a file with the image
      when the second is not an archive.

    ** Not modelled

    The rest of the kernel (drivers, network, file systems, scheduler, memory management
    above the slab allocator), busybox, the rest of musl, dropbear's cryptography, key
    exchange and authentication, and libtommath beyond the conversions: each would need
    models of hardware, of the kernel's concurrency or of cryptographic assumptions.  The
    decompressors other than gzip are not in the shipped configuration.  Build scripts, docker files and the test programs
    have no behaviour of their own at run time.  Inside the modelled parts, printk and tracing,
    locks on the uniprocessor configuration, NUMA placement, time zones, freeing of
    dropbear's buffers, the escape characters of its client and the message texts of zlib are
    left out.  Of lib/vsprintf.c, the binary printf of the tracers and the symbol names of
    kallsyms are not in the shipped configuration; what [%ph] prints is not specified, as it
    depends on the room that is left, but its stores are. *)

From Stdlib Require Import ZArith Lia Bool.
From stdpp Require Import base numbers list gmap strings.

(** ** Machine words *)

(** Fixed-width unsigned integers are values of [Z] kept in range by an explicit
    wrap, the way the compiler truncates a store to an [u8]/[u16]/[u32] object. *)
Declare Scope word_scope.
Delimit Scope word_scope with word.

Definition u8 (z : Z) : Z := (z `mod` 256)%Z.
Definition u16 (z : Z) : Z := (z `mod` 65536)%Z.
Definition u32 (z : Z) : Z := (z `mod` 4294967296)%Z.
Definition u64 (z : Z) : Z := (z `mod` 18446744073709551616)%Z.

Open Scope Z_scope.

Notation "a .& b" := (Z.land a b) (at level 40, left associativity) : word_scope.
Notation "a .| b" := (Z.lor a b) (at level 50, left associativity) : word_scope.
Notation "a .^ b" := (Z.lxor a b) (at level 50, left associativity) : word_scope.

(** [x &= ~m] on 32-bit objects. *)
Definition clear_bits (x m : Z) : Z := Z.ldiff x m.

(** The two's complement reading of an 8/16/32/64-bit pattern. *)
Definition s8 (z : Z) : Z := if u8 z <? 128 then u8 z else u8 z - 256.
Definition s16 (z : Z) : Z := if u16 z <? 32768 then u16 z else u16 z - 65536.
Definition s32 (z : Z) : Z := if u32 z <? 2147483648 then u32 z else u32 z - 4294967296.
Definition s64 (z : Z) : Z :=
  if u64 z <? 9223372036854775808 then u64 z else u64 z - 18446744073709551616.

Definition is_u8 (z : Z) : Prop := 0 <= z < 256.
Definition is_u16 (z : Z) : Prop := 0 <= z < 65536.
Definition is_u32 (z : Z) : Prop := 0 <= z < 4294967296.

(** C booleans: a comparison used as an [int]. *)
Definition c_bool (b : bool) : Z := if b then 1 else 0.

(** Little-endian composition of bytes. *)
Definition le16 (b0 b1 : Z) : Z := b0 + 256 * b1.
Definition le32 (b0 b1 b2 b3 : Z) : Z :=
  b0 + 256 * b1 + 65536 * b2 + 16777216 * b3.

(** ** Error numbers (include/uapi/asm-generic/errno-base.h, errno.h) *)
Definition EIO : Z := 5.
Definition E2BIG : Z := 7.
Definition ENOMEM : Z := 12.
Definition EFAULT : Z := 14.
Definition EINVAL : Z := 22.
Definition ENOSPC : Z := 28.
Definition ERANGE : Z := 34.
Definition EOPNOTSUPP : Z := 95.

(** ** Tactics *)

(** Linear arithmetic with constant division and remainder. *)
Ltac zlia := Z.div_mod_to_equations; lia.

(** Evaluate closed arithmetic and comparisons on integer literals. *)
Ltac is_pos_lit p :=
  lazymatch p with
  | xH => idtac
  | xO ?q => is_pos_lit q
  | xI ?q => is_pos_lit q
  end.
Ltac is_z_lit z :=
  lazymatch z with
  | Z0 => idtac
  | Zpos ?p => is_pos_lit p
  | Zneg ?p => is_pos_lit p
  end.
Ltac z_op op :=
  lazymatch op with
  | Z.add => idtac | Z.sub => idtac | Z.mul => idtac | Z.div => idtac
  | Z.modulo => idtac | Z.pow => idtac | Z.eqb => idtac | Z.ltb => idtac
  | Z.leb => idtac | Z.land => idtac | Z.lor => idtac | Z.shiftl => idtac
  | Z.shiftr => idtac
  end.
Ltac zcalc :=
  repeat match goal with
  | |- context [?op ?a ?b] =>
      z_op op; is_z_lit a; is_z_lit b;
      let v := eval vm_compute in (op a b) in change (op a b) with v
  end.
Ltac zcalc_in H :=
  repeat match type of H with
  | context [?op ?a ?b] =>
      z_op op; is_z_lit a; is_z_lit b;
      let v := eval vm_compute in (op a b) in change (op a b) with v in H
  end.

(** Congruence down to the arithmetic that differs. *)
Ltac congr_lia := repeat first [reflexivity | lia | progress f_equal].

(** Split every [if] and [match] scrutinee on booleans in the goal, turning the
    comparison into its arithmetic meaning. *)
Ltac split_bool :=
  repeat match goal with
  | |- context [Z.eqb ?a ?b] => destruct (Z.eqb_spec a b)
  | |- context [Z.ltb ?a ?b] => destruct (Z.ltb_spec a b)
  | |- context [Z.leb ?a ?b] => destruct (Z.leb_spec a b)
  end.

(** ** Word lemmas *)

Lemma u8_range z : is_u8 (u8 z).
Proof. unfold is_u8, u8. apply Z.mod_pos_bound. lia. Qed.
Lemma u16_range z : is_u16 (u16 z).
Proof. unfold is_u16, u16. apply Z.mod_pos_bound. lia. Qed.
Lemma u32_range z : is_u32 (u32 z).
Proof. unfold is_u32, u32. apply Z.mod_pos_bound. lia. Qed.

Lemma u8_id z : is_u8 z -> u8 z = z.
Proof. apply Z.mod_small. Qed.
Lemma u16_id z : is_u16 z -> u16 z = z.
Proof. apply Z.mod_small. Qed.
Lemma u32_id z : is_u32 z -> u32 z = z.
Proof. apply Z.mod_small. Qed.

Lemma s16_id z : -32768 <= z < 32768 -> s16 z = z.
Proof. intros Hz. unfold s16, u16. destruct (Z.ltb_spec (z `mod` 65536) 32768); zlia. Qed.
Lemma s64_id z : -9223372036854775808 <= z < 9223372036854775808 -> s64 z = z.
Proof.
  intros Hz. unfold s64, u64. destruct (Z.ltb_spec (z `mod` 18446744073709551616) 9223372036854775808); zlia.
Qed.

Lemma u32_idem z : u32 (u32 z) = u32 z.
Proof. apply u32_id, u32_range. Qed.
Lemma u32_add_l a b : u32 (u32 a + b) = u32 (a + b).
Proof. unfold u32. apply Zplus_mod_idemp_l. Qed.
Lemma u32_add_r a b : u32 (a + u32 b) = u32 (a + b).
Proof. unfold u32. apply Zplus_mod_idemp_r. Qed.
Lemma u32_sub_l a b : u32 (u32 a - b) = u32 (a - b).
Proof. unfold u32. apply Zminus_mod_idemp_l. Qed.
Lemma u32_sub_r a b : u32 (a - u32 b) = u32 (a - b).
Proof. unfold u32. apply Zminus_mod_idemp_r. Qed.

Create Rewrite HintDb words.
#[export] Hint Rewrite u32_idem u32_add_l u32_add_r u32_sub_l u32_sub_r : words.
Create HintDb wordrange discriminated.
#[export] Hint Resolve u8_range u16_range u32_range : wordrange.

(** Masks and shifts of non-negative words, as division and remainder. *)
Lemma land_mask_mod x k m : 0 <= k -> m = Z.ones k -> Z.land x m = x `mod` 2 ^ k.
Proof. intros Hk ->. apply Z.land_ones; lia. Qed.

Lemma land_255 x : Z.land x 255 = x `mod` 256.
Proof. apply (land_mask_mod x 8); [lia|reflexivity]. Qed.
Lemma land_7 x : Z.land x 7 = x `mod` 8.
Proof. apply (land_mask_mod x 3); [lia|reflexivity]. Qed.
Lemma land_3 x : Z.land x 3 = x `mod` 4.
Proof. apply (land_mask_mod x 2); [lia|reflexivity]. Qed.
Lemma land_1 x : Z.land x 1 = x `mod` 2.
Proof. apply (land_mask_mod x 1); [lia|reflexivity]. Qed.

Lemma shiftr_div x k : 0 <= k -> Z.shiftr x k = x `div` 2 ^ k.
Proof. apply Z.shiftr_div_pow2. Qed.
Lemma shiftl_mul x k : 0 <= k -> Z.shiftl x k = x * 2 ^ k.
Proof. apply Z.shiftl_mul_pow2. Qed.

(** Disjoint [|] is addition: a low part below [2^k] and a multiple of [2^k]. *)
Lemma lor_low_high x y k :
  0 <= k -> 0 <= x < 2 ^ k -> Z.lor x (y * 2 ^ k) = x + y * 2 ^ k.
Proof.
  intros Hk Hx. rewrite <- Z.shiftl_mul_pow2 by lia.
  pose proof (Z.add_lor_land x (Z.shiftl y k)) as Hsum.
  replace (Z.land x (Z.shiftl y k)) with 0 in Hsum; [lia|].
  symmetry. apply Z.bits_inj'. intros i Hi. rewrite Z.bits_0, Z.land_spec.
  destruct (Z.ltb_spec i k).
  - rewrite Z.shiftl_spec_low by lia. apply andb_false_r.
  - rewrite <- (Z.mod_small x (2 ^ k)) by lia.
    rewrite Z.mod_pow2_bits_high by lia. reflexivity.
Qed.

Lemma lor_low_mul k c x y :
  c = 2 ^ k -> 0 <= k -> 0 <= x < c -> Z.lor x (y * c) = x + y * c.
Proof. intros ->. by apply lor_low_high. Qed.

Lemma le32_range b0 b1 b2 b3 :
  is_u8 b0 -> is_u8 b1 -> is_u8 b2 -> is_u8 b3 -> is_u32 (le32 b0 b1 b2 b3).
Proof. unfold is_u8, is_u32, le32. lia. Qed.

(** Bitwise operations stay within 32 bits. *)
Lemma is_u32_bits z : is_u32 z <-> 0 <= z /\ forall i, 32 <= i -> Z.testbit z i = false.
Proof.
  unfold is_u32. change 4294967296 with (2 ^ 32). split.
  - intros H. split; [lia|]. intros i Hi. rewrite <- (Z.mod_small z (2 ^ 32)) by lia.
    apply Z.mod_pow2_bits_high. lia.
  - intros [H0 H]. split; [lia|]. destruct (Z.eq_dec z 0) as [->|]; [done|].
    apply Z.log2_lt_pow2; [lia|]. destruct (Z.lt_ge_cases (Z.log2 z) 32); [done|].
    specialize (H (Z.log2 z)). rewrite Z.bit_log2 in H by lia. by specialize (H ltac:(lia)).
Qed.
Lemma lor_u32 a b : is_u32 a -> is_u32 b -> is_u32 (Z.lor a b).
Proof.
  rewrite !is_u32_bits. intros [Ha Ha'] [Hb Hb']. split; [by apply Z.lor_nonneg|].
  intros i Hi. by rewrite Z.lor_spec, Ha', Hb'.
Qed.
Lemma ldiff_u32 a b : is_u32 a -> is_u32 (Z.ldiff a b).
Proof.
  rewrite !is_u32_bits. intros [Ha Ha']. split; [by apply Z.ldiff_nonneg; left|].
  intros i Hi. by rewrite Z.ldiff_spec, Ha'.
Qed.
Lemma land_u32_r a b : is_u32 b -> is_u32 (Z.land a b).
Proof.
  rewrite !is_u32_bits. intros [Hb Hb']. split; [by apply Z.land_nonneg; right|].
  intros i Hi. by rewrite Z.land_spec, Hb', andb_false_r.
Qed.
Lemma is_u32_lit_0 : is_u32 0.
Proof. done. Qed.
#[export] Hint Resolve lor_u32 ldiff_u32 land_u32_r is_u32_lit_0 : wordrange.
