(* ===== verification/CmpXchg386.v ===== *)
(** * The compare-and-exchange fallbacks for the 386

    arch/x86/lib/cmpxchg.c: [cmpxchg_386_u8], [cmpxchg_386_u16] and
    [cmpxchg_386_u32] make a read-modify-write atomic on a uniprocessor by turning
    interrupts off.  The functions are modelled twice: as state transformers, and as
    a step relation in which an interrupt handler may run between any two
    statements whenever interrupts are on. *)

From S2P Require Import Prelude.
From Stdlib Require Import ZArith Lia Bool.
From stdpp Require Import base numbers list relations.
Open Scope Z_scope.

(** Kernel memory: a byte for every address. *)
Definition kmem := Z -> Z.

Fixpoint load_le (size : nat) (m : kmem) (a : Z) : Z :=
  match size with
  | O => 0
  | S n => m a + 256 * load_le n m (a + 1)
  end.

Fixpoint store_le (size : nat) (m : kmem) (a v : Z) : kmem :=
  match size with
  | O => m
  | S n => store_le n (fun x => if x =? a then v `mod` 256 else m x) (a + 1) (v `div` 256)
  end.

(** Reading back what was written. *)
Lemma load_store_above size : forall m a v k,
  (k < a \/ a + Z.of_nat size <= k) -> store_le size m a v k = m k.
Proof.
  induction size as [|n IH]; intros m a v k Hk; cbn [store_le]; [done|].
  rewrite IH by lia. rewrite (proj2 (Z.eqb_neq k a)) by lia. done.
Qed.

Lemma load_store_le size : forall m a v,
  0 <= v < 256 ^ Z.of_nat size -> load_le size (store_le size m a v) a = v.
Proof.
  induction size as [|n IH]; intros m a v Hv; cbn [load_le store_le].
  - change (256 ^ Z.of_nat 0) with 1 in Hv. lia.
  - rewrite Nat2Z.inj_succ, Z.pow_succ_r in Hv by lia.
    rewrite IH by (split; [apply Z.div_pos; lia|apply Z.div_lt_upper_bound; lia]).
    rewrite load_store_above by lia. rewrite Z.eqb_refl. zlia.
Qed.

Arguments load_le : simpl never.
Arguments store_le : simpl never.

Record kstate := mkK { k_mem : kmem; k_irq : bool }.

(** The body shared by the three widths. *)
Definition cmpxchg_body (size : nat) (ptr old new : Z) (s : kstate) : Z * kstate :=
  let flags := k_irq s in
  let s := mkK (k_mem s) false in
  let prev := load_le size (k_mem s) ptr in
  let s := if prev =? old then mkK (store_le size (k_mem s) ptr new) (k_irq s) else s in
  (prev, mkK (k_mem s) flags).

Definition cmpxchg_386_u8 (ptr old new : Z) (s : kstate) : Z * kstate :=
  cmpxchg_body 1 ptr old new s.
Definition cmpxchg_386_u16 (ptr old new : Z) (s : kstate) : Z * kstate :=
  cmpxchg_body 2 ptr old new s.
Definition cmpxchg_386_u32 (ptr old new : Z) (s : kstate) : Z * kstate :=
  cmpxchg_body 4 ptr old new s.

(** ** Interleaving with interrupt handlers *)

Section interleaving.
Context (size : nat) (ptr old new : Z).
(** What an interrupt handler may do to memory; it returns with interrupts on. *)
Context (handler : kmem -> kmem -> Prop).

(** Program points, with the locals that are live there. *)
Inductive point :=
| AtEntry
| AfterSave (flags : bool)
| AfterRead (flags : bool) (prev : Z)
| AfterWrite (flags : bool) (prev : Z)
| Returned (prev : Z).

Inductive step : point * kstate -> point * kstate -> Prop :=
| step_irq p m m' : handler m m' -> step (p, mkK m true) (p, mkK m' true)
| step_save m i : step (AtEntry, mkK m i) (AfterSave i, mkK m false)
| step_read f m i : step (AfterSave f, mkK m i) (AfterRead f (load_le size m ptr), mkK m i)
| step_write f prev m i :
    step (AfterRead f prev, mkK m i)
         (AfterWrite f prev, mkK (if prev =? old then store_le size m ptr new else m) i)
| step_restore f prev m i : step (AfterWrite f prev, mkK m i) (Returned prev, mkK m f).

(** A run so far, from memory [m0] and interrupt flag [i0]. *)
Definition run_inv (m0 : kmem) (i0 : bool) (c : point * kstate) : Prop :=
  let '(p, s) := c in
  match p with
  | AtEntry => k_irq s = i0 /\ rtc handler m0 (k_mem s)
  | AfterSave f => f = i0 /\ k_irq s = false /\ rtc handler m0 (k_mem s)
  | AfterRead f prev =>
      f = i0 /\ k_irq s = false /\ rtc handler m0 (k_mem s) /\
      prev = load_le size (k_mem s) ptr
  | AfterWrite f prev =>
      f = i0 /\ k_irq s = false /\
      exists m1, rtc handler m0 m1 /\
        cmpxchg_body size ptr old new (mkK m1 i0) = (prev, mkK (k_mem s) i0)
  | Returned prev =>
      k_irq s = i0 /\
      exists m1 m2, rtc handler m0 m1 /\
        cmpxchg_body size ptr old new (mkK m1 i0) = (prev, mkK m2 i0) /\
        rtc handler m2 (k_mem s)
  end.

Lemma run_inv_step m0 i0 c c' : step c c' -> run_inv m0 i0 c -> run_inv m0 i0 c'.
Proof.
  destruct 1; cbn.
  - destruct p; cbn; [|intros (_ & Hf & _); discriminate..|].
    + intros [-> Hp]. split; [done|]. by eapply rtc_r.
    + intros (-> & m1 & m2 & H1 & H2 & H3). split; [done|].
      exists m1, m2. split_and!; [done|done|]. by eapply rtc_r.
  - by intros [-> H].
  - by intros (-> & -> & H).
  - intros (-> & -> & H1 & ->). split_and!; [done..|]. exists m. split; [done|].
    unfold cmpxchg_body; cbn. destruct (_ =? old); done.
  - intros (-> & -> & m1 & H1 & H2). split; [done|]. exists m1, m. split_and!; [done|done|].
    apply rtc_refl.
Qed.

Lemma run_inv_reachable m0 i0 c :
  rtc step (AtEntry, mkK m0 i0) c -> run_inv m0 i0 c.
Proof.
  intros H. remember (AtEntry, mkK m0 i0) as c0 eqn:E.
  assert (Hinv : run_inv m0 i0 c0) by (subst c0; cbn; split; [done|apply rtc_refl]).
  clear E. induction H; eauto using run_inv_step.
Qed.
End interleaving.

(** C27: With interrupt handlers running at any point where interrupts are on, every
    completed run of the fallback is some handler activity, then one indivisible
    compare-and-exchange as the sequential function computes it, then more handler
    activity; the interrupt flag is restored. *)
Theorem cmpxchg_386_atomic (size : nat) (ptr old new : Z) (handler : kmem -> kmem -> Prop)
    (m m' : kmem) (i i' : bool) (prev : Z) :
  rtc (step size ptr old new handler) (AtEntry, mkK m i) (Returned prev, mkK m' i') ->
  i' = i /\
  exists m1 m2, rtc handler m m1 /\
    cmpxchg_body size ptr old new (mkK m1 i) = (prev, mkK m2 i) /\ rtc handler m2 m'.
Proof. intros H. by apply run_inv_reachable in H. Qed.

(** A run in which a handler increments the word at 8 before the exchange. *)
Lemma cmpxchg_386_atomic_witness :
  exists m1 m2 : kmem,
    cmpxchg_body 4 8 1 5 (mkK m1 true) = (1, mkK m2 true).
Proof.
  set (h := fun m m' : kmem => m' = store_le 4 m 8 (load_le 4 m 8 + 1)).
  set (m0 := (fun _ => 0) : kmem).
  set (m1 := store_le 4 m0 8 (load_le 4 m0 8 + 1)).
  destruct (cmpxchg_386_atomic 4 8 1 5 h m0 (store_le 4 m1 8 5) true true 1)
    as (_ & a & b & _ & H & _).
  - eapply rtc_l; [apply step_irq; reflexivity|].
    eapply rtc_l; [apply step_save|]. eapply rtc_l; [apply step_read|].
    eapply rtc_l; [apply step_write|]. eapply rtc_l; [apply step_restore|].
    apply rtc_refl.
  - exists a, b. exact H.
Defined.

(** [cmpxchg_386_u32] returns the old contents; the word becomes [new] exactly
    when it was [old], no other byte changes, and interrupts are as before. *)
Theorem cmpxchg_386_u32_spec (ptr old new : Z) (s s' : kstate) (prev : Z) :
  is_u32 new ->
  cmpxchg_386_u32 ptr old new s = (prev, s') ->
  prev = load_le 4 (k_mem s) ptr /\ k_irq s' = k_irq s /\
  load_le 4 (k_mem s') ptr = (if prev =? old then new else prev) /\
  (forall a, a < ptr \/ ptr + 4 <= a -> k_mem s' a = k_mem s a).
Proof.
  unfold cmpxchg_386_u32, cmpxchg_body. intros Hn [= <- <-]. cbn [k_mem k_irq].
  destruct (_ =? old); cbn [k_mem]; split_and!; try done.
  - by apply load_store_le.
  - intros a Ha. apply load_store_above. lia.
Qed.

Lemma cmpxchg_386_u32_spec_witness :
  exists prev s', cmpxchg_386_u32 16 0 77 (mkK (fun _ => 0) true) = (prev, s') /\
    load_le 4 (k_mem s') 16 = 77.
Proof.
  destruct (cmpxchg_386_u32 16 0 77 (mkK (fun _ => 0) true)) as [prev s'] eqn:E.
  exists prev, s'. split; [reflexivity|].
  destruct (cmpxchg_386_u32_spec 16 0 77 _ _ _ ltac:(unfold is_u32; lia) E) as (Hp & _ & H & _).
  rewrite H, Hp. reflexivity.
Defined.
