(* ===== verification/X86.v ===== *)
(** * The i386 machine seen by the trap handler

    The saved register frame ([struct pt_regs], arch/x86/include/asm/ptrace.h), the
    EFLAGS bits (arch/x86/include/uapi/asm/processor-flags.h), the user address
    space as a finite map from linear addresses to bytes, the range check of
    [access_ok] (arch/x86/include/asm/uaccess.h), and the arithmetic of the 32-bit
    [add] instruction with the six status flags it defines. *)

From S2P Require Import Prelude.
From Stdlib Require Import ZArith Lia Bool.
From stdpp Require Import base numbers list gmap.
Open Scope Z_scope.

(** ** The saved register frame *)

Record pt_regs := mkRegs {
  bx : Z; cx : Z; dx : Z; si : Z; di : Z; bp : Z; ax : Z;
  ds : Z; es : Z; fs : Z; gs : Z; orig_ax : Z;
  ip : Z; cs : Z; flags : Z; sp : Z; ss : Z
}.

(** The eight general registers, in the order of their ModR/M encoding. *)
Inductive gpr := AX | CX | DX | BX | SP | BP | SI | DI.

#[export] Instance gpr_eq_dec : EqDecision gpr.
Proof. solve_decision. Defined.

Definition get_gpr (r : pt_regs) (g : gpr) : Z :=
  match g with
  | AX => ax r | CX => cx r | DX => dx r | BX => bx r
  | SP => sp r | BP => bp r | SI => si r | DI => di r
  end.

Definition set_gpr (r : pt_regs) (g : gpr) (v : Z) : pt_regs :=
  let 'mkRegs b c d s i p a ds es fs gs o ip cs fl sp ss := r in
  match g with
  | AX => mkRegs b c d s i p v ds es fs gs o ip cs fl sp ss
  | CX => mkRegs b v d s i p a ds es fs gs o ip cs fl sp ss
  | DX => mkRegs b c v s i p a ds es fs gs o ip cs fl sp ss
  | BX => mkRegs v c d s i p a ds es fs gs o ip cs fl sp ss
  | SP => mkRegs b c d s i p a ds es fs gs o ip cs fl v ss
  | BP => mkRegs b c d s i v a ds es fs gs o ip cs fl sp ss
  | SI => mkRegs b c d v i p a ds es fs gs o ip cs fl sp ss
  | DI => mkRegs b c d s v p a ds es fs gs o ip cs fl sp ss
  end.

Definition set_ip (r : pt_regs) (v : Z) : pt_regs :=
  let 'mkRegs b c d s i p a ds es fs gs o _ cs fl sp ss := r in
  mkRegs b c d s i p a ds es fs gs o v cs fl sp ss.

Definition set_flags (r : pt_regs) (v : Z) : pt_regs :=
  let 'mkRegs b c d s i p a ds es fs gs o ip cs _ sp ss := r in
  mkRegs b c d s i p a ds es fs gs o ip cs v sp ss.

(** Byte offset of a register's slot inside [struct pt_regs]. *)
Definition gpr_offset (g : gpr) : Z :=
  match g with
  | BX => 0 | CX => 4 | DX => 8 | SI => 12 | DI => 16 | BP => 20 | AX => 24 | SP => 60
  end.

(** Every saved register holds a 32-bit value. *)
Definition regs_ok (r : pt_regs) : Prop :=
  (forall g, is_u32 (get_gpr r g)) /\ is_u32 (ip r) /\ is_u32 (flags r).

(** ** EFLAGS *)

Definition X86_EFLAGS_CF : Z := 0x1.
Definition X86_EFLAGS_PF : Z := 0x4.
Definition X86_EFLAGS_AF : Z := 0x10.
Definition X86_EFLAGS_ZF : Z := 0x40.
Definition X86_EFLAGS_SF : Z := 0x80.
Definition X86_EFLAGS_OF : Z := 0x800.

(** The status flags written by [add], [xadd] and [cmpxchg]. *)
Definition status_mask : Z :=
  Z.lor (Z.lor (Z.lor (Z.lor (Z.lor X86_EFLAGS_CF X86_EFLAGS_PF) X86_EFLAGS_SF)
                      X86_EFLAGS_ZF) X86_EFLAGS_OF) X86_EFLAGS_AF.

(** Parity of the low byte: set when the number of one bits is even. *)
Definition parity_even (x : Z) : bool :=
  negb (xorb (xorb (xorb (Z.testbit x 0) (Z.testbit x 1)) (xorb (Z.testbit x 2) (Z.testbit x 3)))
             (xorb (xorb (Z.testbit x 4) (Z.testbit x 5)) (xorb (Z.testbit x 6) (Z.testbit x 7)))).

Definition flag_if (b : bool) (f : Z) : Z := if b then f else 0.

Definition status_word (c p a z s o : bool) : Z :=
  Z.lor (flag_if c X86_EFLAGS_CF) (Z.lor (flag_if p X86_EFLAGS_PF)
  (Z.lor (flag_if a X86_EFLAGS_AF) (Z.lor (flag_if z X86_EFLAGS_ZF)
  (Z.lor (flag_if s X86_EFLAGS_SF) (flag_if o X86_EFLAGS_OF))))).

(** The status flags after adding the 32-bit values [a] and [b]. *)
Definition add_flags (a b : Z) : Z :=
  let r := u32 (a + b) in
  status_word (4294967296 <=? a + b) (parity_even r) (16 <=? a `mod` 16 + b `mod` 16)
    (r =? 0) (2147483648 <=? r) (negb (s32 a + s32 b =? s32 r)).

(** The status flags after subtracting [b] from [a] (the comparison of [cmpxchg]). *)
Definition sub_flags (a b : Z) : Z :=
  let r := u32 (a - b) in
  status_word (a <? b) (parity_even r) (a `mod` 16 <? b `mod` 16)
    (r =? 0) (2147483648 <=? r) (negb (s32 a - s32 b =? s32 r)).

(** ** The user address space *)

(** Mapped bytes only; a missing key is an address whose access faults. *)
Definition load32 (m : gmap Z Z) (a : Z) : option Z :=
  match m !! a, m !! (a + 1), m !! (a + 2), m !! (a + 3) with
  | Some b0, Some b1, Some b2, Some b3 => Some (le32 b0 b1 b2 b3)
  | _, _, _, _ => None
  end.

Definition byte_of (v k : Z) : Z := (v `div` 2 ^ (8 * k)) `mod` 256.

(** A store needs all four bytes mapped. *)
Definition store32 (m : gmap Z Z) (a v : Z) : option (gmap Z Z) :=
  match load32 m a with
  | Some _ => Some (<[a + 3 := byte_of v 3]> (<[a + 2 := byte_of v 2]>
                     (<[a + 1 := byte_of v 1]> (<[a := byte_of v 0]> m))))
  | None => None
  end.

Definition mem_ok (m : gmap Z Z) : Prop := forall a b, m !! a = Some b -> is_u8 b.

(** [access_ok(type, addr, 4)]: the carry-aware comparison of [__range_not_ok]. *)
Definition range_ok (limit addr size : Z) : bool :=
  (addr + size <? 4294967296) && (u32 (addr + size) <=? limit).

(** ** Lemmas *)

Lemma get_set_gpr r g h v :
  get_gpr (set_gpr r g v) h = if decide (g = h) then v else get_gpr r h.
Proof. destruct r, g, h; reflexivity. Qed.

Lemma get_gpr_set_ip r v g : get_gpr (set_ip r v) g = get_gpr r g.
Proof. destruct r, g; reflexivity. Qed.
Lemma get_gpr_set_flags r v g : get_gpr (set_flags r v) g = get_gpr r g.
Proof. destruct r, g; reflexivity. Qed.
Lemma ip_set_gpr r g v : ip (set_gpr r g v) = ip r.
Proof. destruct r, g; reflexivity. Qed.
Lemma flags_set_gpr r g v : flags (set_gpr r g v) = flags r.
Proof. destruct r, g; reflexivity. Qed.
Lemma ip_set_ip r v : ip (set_ip r v) = v.
Proof. destruct r; reflexivity. Qed.
Lemma ip_set_flags r v : ip (set_flags r v) = ip r.
Proof. destruct r; reflexivity. Qed.
Lemma flags_set_flags r v : flags (set_flags r v) = v.
Proof. destruct r; reflexivity. Qed.
Lemma flags_set_ip r v : flags (set_ip r v) = flags r.
Proof. destruct r; reflexivity. Qed.
Lemma set_ip_set_ip r v w : set_ip (set_ip r v) w = set_ip r w.
Proof. destruct r; reflexivity. Qed.
Lemma set_ip_id r : set_ip r (ip r) = r.
Proof. destruct r; reflexivity. Qed.
Lemma set_ip_id' r v : v = ip r -> set_ip r v = r.
Proof. intros ->. apply set_ip_id. Qed.
Lemma set_ip_set_gpr r g v w : set_ip (set_gpr r g v) w = set_gpr (set_ip r w) g v.
Proof. destruct r, g; reflexivity. Qed.
Lemma set_ip_set_flags r v w : set_ip (set_flags r v) w = set_flags (set_ip r w) v.
Proof. destruct r; reflexivity. Qed.
Lemma set_flags_set_gpr r g v w :
  set_flags (set_gpr r g v) w = set_gpr (set_flags r w) g v.
Proof. destruct r, g; reflexivity. Qed.
Lemma ax_get r : ax r = get_gpr r AX.
Proof. reflexivity. Qed.

Create Rewrite HintDb regs.
#[export] Hint Rewrite get_gpr_set_ip get_gpr_set_flags ip_set_gpr flags_set_gpr
  ip_set_ip ip_set_flags flags_set_flags flags_set_ip set_ip_set_ip : regs.

Lemma regs_ok_set_ip r v : regs_ok r -> is_u32 v -> regs_ok (set_ip r v).
Proof.
  intros (Hg & Hi & Hf) Hv. split; [|split].
  - intros g. rewrite get_gpr_set_ip. apply Hg.
  - rewrite ip_set_ip. exact Hv.
  - rewrite flags_set_ip. exact Hf.
Qed.

Lemma regs_ok_set_gpr r g v : regs_ok r -> is_u32 v -> regs_ok (set_gpr r g v).
Proof.
  intros (Hg & Hi & Hf) Hv. split; [|split].
  - intros h. rewrite get_set_gpr. case_decide; auto.
  - rewrite ip_set_gpr. exact Hi.
  - rewrite flags_set_gpr. exact Hf.
Qed.

Lemma load32_range m a v : mem_ok m -> load32 m a = Some v -> is_u32 v.
Proof.
  intros Hm. unfold load32.
  destruct (m !! a) eqn:E0; [|done]. destruct (m !! (a + 1)) eqn:E1; [|done].
  destruct (m !! (a + 2)) eqn:E2; [|done]. destruct (m !! (a + 3)) eqn:E3; [|done].
  intros [= <-]. apply le32_range; eauto.
Qed.

(** A 32-bit value is the composition of its bytes. *)
Lemma le32_bytes v :
  is_u32 v -> le32 (byte_of v 0) (byte_of v 1) (byte_of v 2) (byte_of v 3) = v.
Proof.
  unfold is_u32, le32, byte_of. intros H. change (2 ^ (8 * 0)) with 1.
  change (2 ^ (8 * 1)) with 256. change (2 ^ (8 * 2)) with 65536.
  change (2 ^ (8 * 3)) with 16777216. zlia.
Qed.

(** Reading back a successful store. *)
Lemma load32_store32 m a v m' :
  is_u32 v -> store32 m a v = Some m' -> load32 m' a = Some v.
Proof.
  intros Hv. unfold store32. destruct (load32 m a); [|done]. intros [= <-].
  unfold load32.
  rewrite !lookup_insert_ne by lia. rewrite lookup_insert_eq.
  rewrite !lookup_insert_ne by lia. rewrite lookup_insert_eq.
  rewrite !lookup_insert_ne by lia. rewrite !lookup_insert_eq.
  rewrite le32_bytes by done. reflexivity.
Qed.

Lemma set_flags_set_flags r v w : set_flags (set_flags r v) w = set_flags r w.
Proof. destruct r; reflexivity. Qed.
#[export] Hint Rewrite set_flags_set_flags set_ip_set_gpr set_ip_set_flags
  set_flags_set_gpr : regs.

(** The status flags stay inside their mask. *)
Lemma status_word_mask c p a z s o : Z.ldiff (status_word c p a z s o) status_mask = 0.
Proof. by destruct c, p, a, z, s, o. Qed.
Lemma status_word_zf c p a z s o : Z.testbit (status_word c p a z s o) 6 = z.
Proof. by destruct c, p, a, z, s, o. Qed.

Lemma add_flags_status a b : Z.ldiff (add_flags a b) status_mask = 0.
Proof. apply status_word_mask. Qed.
Lemma sub_flags_status a b : Z.ldiff (sub_flags a b) status_mask = 0.
Proof. apply status_word_mask. Qed.
Lemma sub_flags_zf a b : Z.testbit (sub_flags a b) 6 = (u32 (a - b) =? 0).
Proof. apply status_word_zf. Qed.

(** Bits of a masked-and-replaced flag word. *)
Lemma ldiff_lor_status f g s : Z.ldiff g s = 0 -> Z.ldiff (Z.lor (Z.ldiff f s) g) s = Z.ldiff f s.
Proof.
  intros H. apply Z.bits_inj'. intros i Hi.
  apply (f_equal (fun z => Z.testbit z i)) in H.
  rewrite Z.bits_0, Z.ldiff_spec in H.
  rewrite !Z.ldiff_spec, Z.lor_spec, Z.ldiff_spec.
  destruct (Z.testbit f i), (Z.testbit g i), (Z.testbit s i); done.
Qed.
Lemma land_lor_status f g s : Z.ldiff g s = 0 -> Z.land (Z.lor (Z.ldiff f s) g) s = g.
Proof.
  intros H. apply Z.bits_inj'. intros i Hi.
  apply (f_equal (fun z => Z.testbit z i)) in H.
  rewrite Z.bits_0, Z.ldiff_spec in H.
  rewrite Z.land_spec, Z.lor_spec, Z.ldiff_spec.
  destruct (Z.testbit f i), (Z.testbit g i), (Z.testbit s i); done.
Qed.

Lemma u32_sub_zero a b : is_u32 a -> is_u32 b -> (u32 (a - b) =? 0) = (a =? b).
Proof.
  unfold is_u32, u32. intros Ha Hb.
  destruct (Z.eqb_spec a b) as [->|Hne].
  - by rewrite Z.sub_diag.
  - apply Z.eqb_neq. zlia.
Qed.

Lemma status_word_u32 c p a z s o : is_u32 (status_word c p a z s o).
Proof. by destruct c, p, a, z, s, o. Qed.
