(* ===== verification/X86Spec.v ===== *)
(** * What a 486 does for the emulated instructions

    A reference semantics of [cmpxchg r/m32, r32], [xadd r/m32, r32], [bswap r32]
    and [endbr32], written over the instruction bytes with the ModR/M and SIB
    tables of the architecture manual: sign-extended 8-bit displacements, every
    base register, scaled indices, all six status flags.  It is the contract the
    emulator of [I486Emu] is compared with, and shares no definition with it but
    the register frame and the byte memory. *)

From S2P Require Import Prelude X86.
From Stdlib Require Import ZArith Lia Bool.
From stdpp Require Import base numbers list gmap.
Open Scope Z_scope.

Definition gpr_of (n : Z) : gpr :=
  match n with
  | 0 => AX | 1 => CX | 2 => DX | 3 => BX | 4 => SP | 5 => BP | 6 => SI | _ => DI
  end.

Inductive operand := OReg (g : gpr) | OMem (a : Z).

Inductive instr :=
| Endbr32
| Cmpxchg (dst : operand) (src : gpr)
| Xadd (dst : operand) (src : gpr)
| Bswap (r : gpr).

(** [code i] is the i-th byte at the instruction pointer. *)
Section decode.
Context (code : Z -> Z) (r : pt_regs).

Definition imm32 (i : Z) : Z := le32 (code i) (code (i + 1)) (code (i + 2)) (code (i + 3)).

(** Base plus scaled index of the SIB byte at [i]; the flag asks for a disp32
    that replaces the base (mod = 0, base = 5). *)
Definition sib (md i : Z) : Z * bool :=
  let b := code i in
  let scale := b `div` 64 in
  let index := (b `div` 8) `mod` 8 in
  let base := b `mod` 8 in
  let idx := if index =? 4 then 0 else get_gpr r (gpr_of index) * 2 ^ scale in
  if (md =? 0) && (base =? 5) then (idx, true)
  else (get_gpr r (gpr_of base) + idx, false).

(** Operand and length of the ModR/M byte at [i] and what follows it. *)
Definition modrm_operand (i : Z) : operand * Z :=
  let b := code i in
  let md := b `div` 64 in
  let rm := b `mod` 8 in
  if md =? 3 then (OReg (gpr_of rm), 1)
  else
    let '(base, needs32, n) :=
      if rm =? 4 then let '(a, n32) := sib md (i + 1) in (a, n32, 2)
      else if (md =? 0) && (rm =? 5) then (0, true, 1)
      else (get_gpr r (gpr_of rm), false, 1) in
    if needs32 then (OMem (u32 (base + imm32 (i + n))), n + 4)
    else if md =? 1 then (OMem (u32 (base + s8 (code (i + n)))), n + 1)
    else if md =? 2 then (OMem (u32 (base + imm32 (i + n))), n + 4)
    else (OMem (u32 base), n).

Definition modrm_reg (i : Z) : gpr := gpr_of ((code i `div` 8) `mod` 8).

(** Instruction and total length.  [lock] is an error on [bswap] and on a
    register destination. *)
Definition decode_instr : option (instr * Z) :=
  if (code 0 =? 0xf3) && (code 1 =? 0x0f) && (code 2 =? 0x1e) && (code 3 =? 0xfb)
  then Some (Endbr32, 4)
  else
    let lock := code 0 =? 0xf0 in
    let p := if lock then 1 else 0 in
    if negb (code p =? 0x0f) then None
    else
      let op := code (p + 1) in
      let locked_reg d := match d with OReg _ => lock | OMem _ => false end in
      if op =? 0xb1 then
        let '(d, n) := modrm_operand (p + 2) in
        if locked_reg d then None else Some (Cmpxchg d (modrm_reg (p + 2)), p + 2 + n)
      else if op =? 0xc1 then
        let '(d, n) := modrm_operand (p + 2) in
        if locked_reg d then None else Some (Xadd d (modrm_reg (p + 2)), p + 2 + n)
      else if (0xc8 <=? op) && (op <=? 0xcf) then
        if lock then None else Some (Bswap (gpr_of (op - 0xc8)), p + 2)
      else None.
End decode.

(** ** Execution *)

Definition read_operand (r : pt_regs) (m : gmap Z Z) (o : operand) : option Z :=
  match o with OReg g => Some (get_gpr r g) | OMem a => load32 m a end.

Definition write_operand (r : pt_regs) (m : gmap Z Z) (o : operand) (v : Z)
  : option (pt_regs * gmap Z Z) :=
  match o with
  | OReg g => Some (set_gpr r g v, m)
  | OMem a => m' ← store32 m a v; Some (r, m')
  end.

(** Replace the six status flags. *)
Definition with_status (r : pt_regs) (f : Z) : pt_regs :=
  set_flags r (Z.lor (Z.ldiff (flags r) status_mask) f).

Definition bswap_value (v : Z) : Z :=
  le32 (byte_of v 3) (byte_of v 2) (byte_of v 1) (byte_of v 0).

Definition exec (i : instr) (r : pt_regs) (m : gmap Z Z) : option (pt_regs * gmap Z Z) :=
  match i with
  | Endbr32 => Some (r, m)
  | Bswap g => Some (set_gpr r g (bswap_value (get_gpr r g)), m)
  | Cmpxchg d s =>
      v ← read_operand r m d;
      let r' := with_status r (sub_flags (get_gpr r AX) v) in
      if get_gpr r AX =? v then write_operand r' m d (get_gpr r s)
      else Some (set_gpr r' AX v, m)
  | Xadd d s =>
      v ← read_operand r m d;
      let a := get_gpr r s in
      let r' := with_status r (add_flags a v) in
      write_operand (set_gpr r' s v) m d (u32 (a + v))
  end.

(** One instruction: decode at [ip], execute, advance [ip] by its length. *)
Definition isa_step (code : Z -> Z) (r : pt_regs) (m : gmap Z Z)
  : option (pt_regs * gmap Z Z) :=
  '(i, len) ← decode_instr code r;
  '(r', m') ← exec i r m;
  Some (set_ip r' (u32 (ip r + len)), m').
