(* ===== verification/I486Emu.v ===== *)
(** * The 486 instruction emulator of the kernel

    A model of arch/x86/kernel/i486_emu.c (the decoder and the emulation of
    [cmpxchg], [xadd], [bswap] and [endbr32] for CPUs that lack them) and of its caller
    [do_invalid_op] in arch/x86/kernel/traps.c.

    C pointers of type [unsigned long *] are values of [ptr]: a slot of the saved
    register frame, or a linear address.  A read or write through a pointer that is
    not mapped, done by the kernel without an exception-table entry, is [Oops].
    The uninitialised [struct parser_state] of [parse_emu_instruction] is an argument
    holding whatever the stack contains. *)

From S2P Require Import Prelude X86.
From Stdlib Require Import ZArith Lia Bool.
From stdpp Require Import base numbers list gmap.
Open Scope Z_scope.

(** ** Effects *)

Inductive outcome (A : Type) := Ret (a : A) | Oops.
Arguments Ret {A} _.
Arguments Oops {A}.

#[export] Instance outcome_ret : MRet outcome := fun A a => Ret a.
#[export] Instance outcome_bind : MBind outcome :=
  fun A B k c => match c with Ret a => k a | Oops => Oops end.

(** ** State *)

Inductive ptr := PReg (g : gpr) | PAddr (a : Z).

(** What the handler runs in: where the frame lies on the kernel stack, the
    current [addr_limit], and the kernel's own EFLAGS. *)
Record env := mkEnv { regs_base : Z; addr_limit : Z; kernel_eflags : Z }.

Record machine := mkMachine { regs : pt_regs; mem : gmap Z Z; irq_on : bool }.

Definition with_regs (m : machine) (r : pt_regs) : machine :=
  mkMachine r (mem m) (irq_on m).
Definition with_mem (m : machine) (u : gmap Z Z) : machine :=
  mkMachine (regs m) u (irq_on m).
Definition with_irq (m : machine) (b : bool) : machine :=
  mkMachine (regs m) (mem m) b.

(** [regs->ip += n] *)
Definition ip_add (m : machine) (n : Z) : machine :=
  with_regs m (set_ip (regs m) (u32 (ip (regs m) + n))).

Record parser_state := mkPs {
  inst_src : ptr; inst_dest : ptr; orig_ip : Z; insts : Z; insts2 : Z;
  regs_only : Z; lock_prefix : Z
}.

Definition set_src (ps : parser_state) (v : ptr) : parser_state :=
  let 'mkPs _ d o i j r l := ps in mkPs v d o i j r l.
Definition set_dest (ps : parser_state) (v : ptr) : parser_state :=
  let 'mkPs s _ o i j r l := ps in mkPs s v o i j r l.
Definition set_orig_ip (ps : parser_state) (v : Z) : parser_state :=
  let 'mkPs s d _ i j r l := ps in mkPs s d v i j r l.
Definition set_insts (ps : parser_state) (v : Z) : parser_state :=
  let 'mkPs s d o _ j r l := ps in mkPs s d o v j r l.
Definition set_insts2 (ps : parser_state) (v : Z) : parser_state :=
  let 'mkPs s d o i _ r l := ps in mkPs s d o i v r l.
Definition set_regs_only (ps : parser_state) (v : Z) : parser_state :=
  let 'mkPs s d o i j _ l := ps in mkPs s d o i j v l.
Definition set_lock_prefix (ps : parser_state) (v : Z) : parser_state :=
  let 'mkPs s d o i j r _ := ps in mkPs s d o i j r v.

(** ** Memory access *)

Definition addr_of (e : env) (p : ptr) : Z :=
  match p with PReg g => regs_base e + gpr_offset g | PAddr a => a end.

Definition access_ok (e : env) (p : ptr) : bool := range_ok (addr_limit e) (addr_of e p) 4.

Definition deref (m : machine) (p : ptr) : outcome Z :=
  match p with
  | PReg g => Ret (get_gpr (regs m) g)
  | PAddr a => match load32 (mem m) a with Some v => Ret v | None => Oops end
  end.

Definition assign (m : machine) (p : ptr) (v : Z) : outcome machine :=
  match p with
  | PReg g => Ret (with_regs m (set_gpr (regs m) g v))
  | PAddr a => match store32 (mem m) a v with
               | Some u => Ret (with_mem m u)
               | None => Oops
               end
  end.

(** [get_user]: 0 and the value, or [-EFAULT] and a zero value. *)
Definition get_user (e : env) (m : machine) (p : ptr) : Z * Z :=
  if access_ok e p then
    match deref m p with Ret v => (0, v) | Oops => (- EFAULT, 0) end
  else (- EFAULT, 0).

(** [put_user] with its result ignored. *)
Definition put_user (e : env) (m : machine) (p : ptr) (v : Z) : machine :=
  if access_ok e p then
    match assign m p v with Ret m' => m' | Oops => m end
  else m.

(** ** The decoder *)

Definition MODRM_REG (b : Z) : Z := Z.land (Z.shiftr b 3) 7.
Definition MODRM_MOD (b : Z) : Z := Z.land (Z.shiftr b 6) 3.
Definition MODRM_RM (b : Z) : Z := Z.land b 7.

Definition parse_reg (reg : Z) (inst_src : ptr) : Z * ptr :=
  match reg with
  | 0 => (1, PReg AX)
  | 1 => (1, PReg CX)
  | 2 => (1, PReg DX)
  | 3 => (1, PReg BX)
  | 4 => (1, PReg SP)
  | 5 => (1, PReg BP)
  | 6 => (1, PReg SI)
  | 7 => (1, PReg DI)
  | _ => (- EOPNOTSUPP, inst_src)
  end.

(** The [switch (rm)] that picks the base register of a memory operand. *)
Definition rm_base (rm : Z) : option ptr :=
  match rm with
  | 0 => Some (PReg AX)
  | 1 => Some (PReg CX)
  | 2 => Some (PReg DX)
  | 3 => Some (PReg BX)
  | 5 => Some (PReg BP)
  | 6 => Some (PReg SI)
  | 7 => Some (PReg DI)
  | _ => None
  end.

(** The 32-bit displacement: skip to the end of it and reassemble it from what is
    left of the first word and the second word. *)
Definition take_disp32 (m : machine) (ps : parser_state) (inst_size : Z)
  : machine * parser_state :=
  let m := ip_add m (4 - inst_size) in
  if inst_size <? 4 then
    (ip_add m 3, set_insts ps (Z.lor (insts ps) (u32 (Z.shiftl (insts2 ps) 8))))
  else
    (ip_add m 4, set_insts ps (insts2 ps)).

(** The [switch (mod)] on the addressing form. *)
Definition parse_mod (mod_ rm : Z) (m : machine) (ps : parser_state)
  : outcome (Z * machine * parser_state) :=
  let inst_size := u32 (ip (regs m) - orig_ip ps) in
  match mod_ with
  | 0 =>
      if negb (rm =? 5) then Ret (1, m, ps)
      else
        let '(m, ps) := take_disp32 m ps inst_size in
        Ret (1, m, set_dest ps (PAddr (insts ps)))
  | 1 =>
      let ps := if inst_size =? 4 then set_insts ps (insts2 ps) else ps in
      let m := ip_add m 1 in
      base ← deref m (inst_dest ps);
      Ret (1, m, set_dest ps (PAddr (u32 (base + Z.land (insts ps) 0xff))))
  | 2 =>
      let '(m, ps) := take_disp32 m ps inst_size in
      base ← deref m (inst_dest ps);
      Ret (1, m, set_dest ps (PAddr (u32 (base + insts ps))))
  | _ => Ret (- EOPNOTSUPP, m, ps)
  end.

Definition parse_modrm_register (m : machine) (ps : parser_state)
  : outcome (Z * machine * parser_state) :=
  let mod_ := MODRM_MOD (insts ps) in
  let rm := MODRM_RM (insts ps) in
  let reg := MODRM_REG (insts ps) in
  let '(ret, src) := parse_reg reg (inst_src ps) in
  let ps := set_src ps src in
  if ret <? 0 then Ret (- EOPNOTSUPP, m, ps)
  else if mod_ =? 3 then
    let '(ret, dest) := parse_reg rm (inst_dest ps) in
    let ps := set_dest ps dest in
    if ret <? 0 then Ret (- EOPNOTSUPP, m, ps)
    else Ret (1, ip_add m 1, set_regs_only ps 1)
  else
    let ps := set_regs_only ps 0 in
    match rm_base rm with
    | None => Ret (- EOPNOTSUPP, m, ps)
    | Some dest =>
        let ps := set_dest ps dest in
        let ps := set_insts ps (Z.shiftr (insts ps) 8) in
        parse_mod mod_ rm (ip_add m 1) ps
    end.

(** ** The emulated instructions *)

Definition parse_emu_cmpxchg (e : env) (m : machine) (ps : parser_state)
  : outcome (Z * machine * parser_state) :=
  '(ret, m, ps) ← parse_modrm_register m ps;
  if ret <? 0 then Ret (- EOPNOTSUPP, m, ps)
  else if (regs_only ps =? 0) && negb (access_ok e (inst_dest ps)) then
    Ret (- ENOMEM, m, ps)
  else
    dest ← deref m (inst_dest ps);
    if ax (regs m) =? dest then
      let m := with_regs m (set_flags (regs m) (Z.lor (flags (regs m)) X86_EFLAGS_ZF)) in
      src ← deref m (inst_src ps);
      m ← assign m (inst_dest ps) src;
      Ret (1, m, ps)
    else
      let m := with_regs m
                 (set_flags (regs m) (clear_bits (flags (regs m)) X86_EFLAGS_ZF)) in
      dest ← deref m (inst_dest ps);
      Ret (1, with_regs m (set_gpr (regs m) AX dest), ps).

(** The inline assembly: [addl] of both operands, then the flags it leaves, read
    with [pushfl]/[popl]. *)
Definition asm_addl_flags (e : env) (dest src : Z) : Z * Z :=
  (u32 (src + dest),
   Z.lor (clear_bits (kernel_eflags e) status_mask) (add_flags src dest)).

Definition parse_emu_xadd (e : env) (m : machine) (ps : parser_state)
  : outcome (Z * machine * parser_state) :=
  '(ret, m, ps) ← parse_modrm_register m ps;
  if ret <? 0 then Ret (- EOPNOTSUPP, m, ps)
  else if (regs_only ps =? 0) && negb (access_ok e (inst_dest ps)) then
    Ret (- ENOMEM, m, ps)
  else
    dest ← (if regs_only ps =? 0 then Ret (get_user e m (inst_dest ps)).2
            else deref m (inst_dest ps));
    src ← deref m (inst_src ps);
    let '(result_dest, fl) := asm_addl_flags e dest src in
    let m := with_regs m (set_flags (regs m) (clear_bits (flags (regs m)) status_mask)) in
    let fl := Z.land fl status_mask in
    let m := with_regs m (set_flags (regs m) (Z.lor (flags (regs m)) fl)) in
    old ← deref m (inst_dest ps);
    m ← assign m (inst_src ps) old;
    if regs_only ps =? 0 then
      Ret (1, put_user e m (inst_dest ps) result_dest, ps)
    else
      m ← assign m (inst_dest ps) result_dest;
      Ret (1, m, ps).

Definition swab32 (v : Z) : Z :=
  Z.lor (Z.lor (Z.lor
    (u32 (Z.shiftl (Z.land v 0x000000FF) 24))
    (u32 (Z.shiftl (Z.land v 0x0000FF00) 8)))
    (Z.shiftr (Z.land v 0x00FF0000) 8))
    (Z.shiftr (Z.land v 0xFF000000) 24).

Definition parse_emu_bswap (m : machine) (ps : parser_state)
  : outcome (Z * machine * parser_state) :=
  if lock_prefix ps =? 1 then Ret (- EOPNOTSUPP, m, ps)
  else
    let reg := MODRM_RM (insts ps) in
    let '(ret, dest) := parse_reg reg (inst_dest ps) in
    let ps := set_dest ps dest in
    if ret <? 0 then Ret (- EOPNOTSUPP, m, ps)
    else
      let m := ip_add m 1 in
      v ← deref m (inst_dest ps);
      m ← assign m (inst_dest ps) (swab32 v);
      Ret (1, m, ps).

(** The [switch] on the opcode byte that follows [0f]. *)
Definition emu_opcode (e : env) (m : machine) (ps : parser_state)
  : outcome (Z * machine * parser_state) :=
  let op := Z.land (insts ps) 0xff in
  if op =? 0xb1 then
    parse_emu_cmpxchg e (ip_add m 1) (set_insts ps (Z.shiftr (insts ps) 8))
  else if op =? 0xc1 then
    parse_emu_xadd e (ip_add m 1) (set_insts ps (Z.shiftr (insts ps) 8))
  else if (op =? 0xc8) || (op =? 0xc9) || (op =? 0xca) || (op =? 0xcb)
          || (op =? 0xce) || (op =? 0xcf) then
    parse_emu_bswap m ps
  else Ret (- EOPNOTSUPP, m, ps).

(** Everything between [local_irq_save] and the [end] label. *)
Definition emu_body (e : env) (m : machine) (ps : parser_state)
  : outcome (Z * machine * parser_state) :=
  if insts ps =? 0xfb1e0ff3 then Ret (1, ip_add m 4, ps)
  else
    let ps := set_orig_ip ps (ip (regs m)) in
    let '(m, ps) :=
      if Z.land (insts ps) 0xff =? 0xf0 then
        (ip_add m 1, set_lock_prefix (set_insts ps (Z.shiftr (insts ps) 8)) 1)
      else (m, set_lock_prefix ps 0) in
    if negb (Z.land (insts ps) 0xff =? 0x0f) then Ret (- EOPNOTSUPP, m, ps)
    else emu_opcode e (ip_add m 1) (set_insts ps (Z.shiftr (insts ps) 8)).

Definition parse_emu_instruction (e : env) (junk : parser_state) (m : machine)
  : outcome (Z * machine) :=
  let '(err, w1) := get_user e m (PAddr (ip (regs m))) in
  if err =? - EFAULT then Ret (- ENOMEM, m)
  else
    let '(err, w2) := get_user e m (PAddr (u32 (ip (regs m) + 4))) in
    if err =? - EFAULT then Ret (- ENOMEM, m)
    else
      let ps := set_insts2 (set_insts junk w1) w2 in
      let saved := irq_on m in
      let m := with_irq m false in
      '(ret, m, ps) ← emu_body e m ps;
      let m := if ret <? 0 then with_regs m (set_ip (regs m) (orig_ip ps)) else m in
      Ret (ret, with_irq m saved).

(** ** The trap handler *)

(** How [do_invalid_op] leaves the kernel: back to the interrupted instruction
    stream, stopped by a die-notifier, or with [SIGILL] for the saved [ip]. *)
Inductive trap_result :=
| Resumed (m : machine)
| Notified (m : machine)
| Signalled (si_addr : Z) (m : machine).

Section trap.
(** The die-notifier chain: [true] for [NOTIFY_STOP]. *)
Variable notify_die : pt_regs -> bool.

Definition do_invalid_op (e : env) (junk : parser_state) (m : machine)
  : outcome trap_result :=
  let si_addr := ip (regs m) in
  '(ret, m) ← parse_emu_instruction e junk m;
  if 0 <? ret then Ret (Resumed m)
  else if notify_die (regs m) then Ret (Notified m)
  else
    (* conditional_sti: interrupts back on if the trapped context had them *)
    let m := if Z.testbit (flags (regs m)) 9 then with_irq m true else m in
    Ret (Signalled si_addr m).
End trap.

(** ** Lemmas on the state *)

Arguments ip_add : simpl never.

Lemma ip_add_add m a b : ip_add (ip_add m a) b = ip_add m (a + b).
Proof.
  unfold ip_add, with_regs; cbn. autorewrite with regs.
  rewrite u32_add_l. congr_lia.
Qed.
Lemma ip_ip_add m n : ip (regs (ip_add m n)) = u32 (ip (regs m) + n).
Proof. unfold ip_add; cbn. apply ip_set_ip. Qed.
Lemma get_gpr_ip_add m n g : get_gpr (regs (ip_add m n)) g = get_gpr (regs m) g.
Proof. apply get_gpr_set_ip. Qed.
Lemma flags_ip_add m n : flags (regs (ip_add m n)) = flags (regs m).
Proof. apply flags_set_ip. Qed.
Lemma mem_ip_add m n : mem (ip_add m n) = mem m.
Proof. reflexivity. Qed.
Lemma irq_ip_add m n : irq_on (ip_add m n) = irq_on m.
Proof. reflexivity. Qed.

Create Rewrite HintDb emu.
#[export] Hint Rewrite ip_add_add ip_ip_add get_gpr_ip_add flags_ip_add mem_ip_add
  irq_ip_add : emu.
