(* ===== verification/I486EmuProofs.v ===== *)
(** * Correctness of the 486 instruction emulator

    Refinement of the reference semantics of [X86Spec] by the decoder and the
    emulation of [I486Emu], rollback on failure, and the exact extent of the forms
    that are not emulated. *)

From S2P Require Import Prelude X86 X86Spec I486Emu.
From Stdlib Require Import ZArith Lia Bool.
From stdpp Require Import base numbers list gmap.
Open Scope Z_scope.

(** ** Decoding one ModR/M byte *)

Ltac small_cases x n :=
  let H := fresh in
  assert (H : 0 <= x < n) by zlia;
  let rec go k :=
    lazymatch k with
    | n => lia
    | _ => let k' := eval cbv in (k + 1) in
           destruct (Z.eq_dec x k) as [->|?]; [|go k']
    end in go 0.

Lemma parse_reg_gpr reg s : 0 <= reg < 8 -> parse_reg reg s = (1, PReg (gpr_of reg)).
Proof. intros. small_cases reg 8; reflexivity. Qed.

Lemma rm_base_gpr rm : 0 <= rm < 8 -> rm <> 4 -> rm_base rm = Some (PReg (gpr_of rm)).
Proof. intros. small_cases rm 8; reflexivity || lia. Qed.

(** The fields of the ModR/M byte do not depend on the bytes above it. *)
Lemma modrm_fields b k :
  is_u8 b -> 0 <= k ->
  MODRM_MOD (b + 256 * k) = b `div` 64 /\
  MODRM_RM (b + 256 * k) = b `mod` 8 /\
  MODRM_REG (b + 256 * k) = (b `div` 8) `mod` 8.
Proof.
  unfold is_u8, MODRM_MOD, MODRM_RM, MODRM_REG. intros Hb Hk.
  rewrite land_3, !land_7, !shiftr_div by lia.
  change (2 ^ 6) with 64. change (2 ^ 3) with 8. split_and!; zlia.
Qed.

Lemma shr8 b k : is_u8 b -> 0 <= k -> Z.shiftr (b + 256 * k) 8 = k.
Proof. intros Hb Hk. rewrite shiftr_div by lia. change (2 ^ 8) with 256. unfold is_u8 in *. zlia. Qed.

Lemma low8 b k : is_u8 b -> 0 <= k -> Z.land (b + 256 * k) 255 = b.
Proof. intros Hb Hk. rewrite land_255. unfold is_u8 in *. zlia. Qed.

Definition ptr_of (d : operand) : ptr :=
  match d with OReg g => PReg g | OMem a => PAddr a end.

Definition is_reg_operand (d : operand) : Z :=
  match d with OReg _ => 1 | OMem _ => 0 end.

(** The addressing forms the decoder accepts; [i] is the index of the ModR/M byte. *)
Definition modrm_accepted (code : Z -> Z) (i : Z) : bool :=
  let md := code i `div` 64 in
  let rm := code i `mod` 8 in
  (md =? 3) ||
  negb (rm =? 4) && ((md =? 2) || (md =? 1) || ((md =? 0) && (rm =? 5))).

(** The operand it computes for them: as the architecture, but with an 8-bit
    displacement that is not sign-extended. *)
Definition emu_operand (code : Z -> Z) (r : pt_regs) (i : Z) : operand * Z :=
  let md := code i `div` 64 in
  let base := get_gpr r (gpr_of (code i `mod` 8)) in
  if md =? 3 then (OReg (gpr_of (code i `mod` 8)), 1)
  else if md =? 2 then (OMem (u32 (base + imm32 code (i + 1))), 5)
  else if md =? 1 then (OMem (u32 (base + code (i + 1))), 2)
  else (OMem (imm32 code (i + 1)), 5).

Section modrm.
Context (code : Z -> Z) (Hcode : forall i, is_u8 (code i)).

(** What the two fetched words hold once prefix and opcode are shifted out. *)
Definition words_at (p : Z) (ps : parser_state) : Prop :=
  (p = 0 /\ insts ps = code 2 + 256 * code 3 \/ p = 1 /\ insts ps = code 3) /\
  insts2 ps = le32 (code 4) (code 5) (code 6) (code 7).

Lemma words_at_split p ps :
  words_at p ps ->
  exists k, 0 <= k /\ insts ps = code (p + 2) + 256 * k.
Proof.
  intros [[[-> H]|[-> H]] _]; rewrite H.
  - exists (code 3). split; [apply Hcode|reflexivity].
  - exists 0. split; [lia|]. change (1 + 2) with 3. lia.
Qed.

Lemma take_disp32_ok p m ps :
  words_at p ps ->
  take_disp32 m (set_insts ps (Z.shiftr (insts ps) 8)) (p + 3) =
  (ip_add m 4, set_insts ps (imm32 code (p + 3))).
Proof.
  intros [[[-> Hw]|[-> Hw]] H2]; unfold take_disp32; zcalc;
    rewrite !ip_add_add; zcalc.
  - rewrite Hw, shr8 by apply Hcode. f_equal.
    destruct ps; cbn in *; subst. f_equal. unfold imm32. zcalc.
    rewrite shiftl_mul by lia.
    pose proof (Hcode 3). pose proof (Hcode 4). pose proof (Hcode 5).
    pose proof (Hcode 6). pose proof (Hcode 7). unfold is_u8 in *.
    replace (u32 (le32 (code 4) (code 5) (code 6) (code 7) * 2 ^ 8))
      with ((code 4 + 256 * code 5 + 65536 * code 6) * 2 ^ 8)
      by (unfold u32, le32; change (2 ^ 8) with 256; zlia).
    rewrite lor_low_high by (change (2 ^ 8) with 256; lia).
    unfold le32. change (2 ^ 8) with 256. lia.
  - destruct ps; cbn in *; subst. reflexivity.
Qed.

Lemma disp8_byte p ps :
  words_at p ps ->
  Z.land (insts (if p + 3 =? 4
                 then set_insts (set_insts ps (Z.shiftr (insts ps) 8)) (insts2 ps)
                 else set_insts ps (Z.shiftr (insts ps) 8))) 255 = code (p + 3).
Proof.
  intros [[[-> Hw]|[-> Hw]] H2]; zcalc; destruct ps; cbn in *; subst.
  - rewrite shr8 by apply Hcode. rewrite land_255. apply Z.mod_small, Hcode.
  - unfold le32. rewrite land_255. pose proof (Hcode 4). unfold is_u8 in *. zlia.
Qed.

Lemma parse_mod_ok p m ps d n g :
  words_at p ps -> modrm_accepted code (p + 2) = true ->
  code (p + 2) `div` 64 <> 3 ->
  emu_operand code (regs m) (p + 2) = (d, n) ->
  inst_dest ps = PReg (gpr_of (code (p + 2) `mod` 8)) -> inst_src ps = g ->
  u32 (ip (regs m) - orig_ip ps) = p + 3 -> regs_only ps = 0 ->
  exists ps',
    parse_mod (code (p + 2) `div` 64) (code (p + 2) `mod` 8) m
      (set_insts ps (Z.shiftr (insts ps) 8)) = Ret (1, ip_add m (n - 1), ps') /\
    inst_src ps' = g /\ inst_dest ps' = ptr_of d /\
    regs_only ps' = is_reg_operand d /\ orig_ip ps' = orig_ip ps.
Proof.
  intros Hw Hs Hmd Hop Hd Hg Hsz Hro.
  pose proof (take_disp32_ok p m ps Hw) as Ht.
  unfold modrm_accepted in Hs. unfold emu_operand in Hop.
  replace (p + 2 + 1) with (p + 3) in Hop by lia.
  set (b := code (p + 2)) in *. assert (Hb : is_u8 b) by apply Hcode.
  unfold is_u8 in Hb.
  assert (Hcases : 0 <= b `div` 64 < 3) by zlia.
  apply Z.eqb_neq in Hmd. rewrite Hmd in Hs, Hop.
  unfold parse_mod.
  replace (orig_ip (set_insts ps (Z.shiftr (insts ps) 8))) with (orig_ip ps)
    by (destruct ps; reflexivity).
  rewrite Hsz. cbn [orb] in Hs. apply andb_prop in Hs as [_ Hs].
  remember (b `div` 64) as md eqn:Emd. clear Emd.
  small_cases md 3; zcalc_in Hs; zcalc_in Hop; cbn [andb orb negb] in Hs, Hop.
  - (* disp32 only *)
    rewrite Hs. injection Hop as <- <-. cbn [negb]. rewrite Ht.
    eexists; split; [reflexivity|]. destruct ps; cbn in *. subst. by split_and!.
  - (* disp8 *)
    injection Hop as <- <-.
    pose proof (disp8_byte p ps Hw) as Hlow.
    replace (insts2 (set_insts ps (Z.shiftr (insts ps) 8))) with (insts2 ps)
      by (destruct ps; reflexivity).
    set (ps1 := if p + 3 =? 4 then _ else _) in *.
    assert (Hkeep : inst_dest ps1 = inst_dest ps /\ inst_src ps1 = inst_src ps /\
                    regs_only ps1 = regs_only ps /\ orig_ip ps1 = orig_ip ps)
      by (subst ps1; destruct ps, (p + 3 =? 4); done).
    destruct Hkeep as (K1 & K2 & K3 & K4).
    rewrite K1, Hd. cbn [mbind outcome_bind deref].
    eexists; split; [reflexivity|]. rewrite Hlow.
    destruct ps1; cbn in *; subst. split_and!; try done. by rewrite get_gpr_ip_add.
  - (* disp32 on a base register *)
    injection Hop as <- <-. rewrite Ht.
    replace (inst_dest (set_insts ps (imm32 code (p + 3))))
      with (PReg (gpr_of (b `mod` 8))) by (destruct ps; exact (eq_sym Hd)).
    cbn [deref mbind outcome_bind].
    eexists; split; [reflexivity|]. destruct ps; cbn in *; subst. split_and!; try done.
    by autorewrite with emu.
Qed.

(** The decoder computes [emu_operand] and skips the bytes of the operand. *)
Lemma parse_modrm_ok p m ps d n :
  words_at p ps -> modrm_accepted code (p + 2) = true ->
  emu_operand code (regs m) (p + 2) = (d, n) ->
  u32 (ip (regs m) - orig_ip ps) = p + 2 ->
  exists ps',
    parse_modrm_register m ps = Ret (1, ip_add m n, ps') /\
    inst_src ps' = PReg (modrm_reg code (p + 2)) /\ inst_dest ps' = ptr_of d /\
    regs_only ps' = is_reg_operand d /\ orig_ip ps' = orig_ip ps.
Proof.
  intros Hw Hs Hop Hsz.
  destruct (words_at_split p ps Hw) as (k & Hk & Hins).
  pose proof (modrm_fields (code (p + 2)) k (Hcode _) Hk) as (Fm & Fr & Fg).
  unfold parse_modrm_register. rewrite Hins, Fm, Fr, Fg.
  rewrite parse_reg_gpr by zlia. zcalc.
  destruct (Z.eqb_spec (code (p + 2) `div` 64) 3) as [E3|E3].
  - rewrite parse_reg_gpr by zlia. zcalc.
    unfold emu_operand in Hop. rewrite E3 in Hop. zcalc_in Hop. injection Hop as <- <-.
    eexists; split; [reflexivity|]. destruct ps; done.
  - assert (Hrm : code (p + 2) `mod` 8 <> 4).
    { unfold modrm_accepted in Hs. apply Z.eqb_neq in E3. rewrite E3 in Hs.
      apply andb_prop in Hs as [Hs _]. by destruct (Z.eqb_spec (code (p + 2) `mod` 8) 4). }
    rewrite rm_base_gpr by (zlia || done).
    set (ps1 := set_dest (set_regs_only (set_src ps _) 0) _).
    destruct (parse_mod_ok p (ip_add m 1) ps1 d n (inst_src ps1)) as (ps' & H1 & H2 & H3 & H4 & H5);
      try (subst ps1; destruct ps; done).
    + rewrite <- Hop. unfold emu_operand. by rewrite !get_gpr_ip_add.
    + subst ps1. rewrite ip_ip_add.
      replace (orig_ip (set_dest _ _)) with (orig_ip ps) by (destruct ps; reflexivity).
      rewrite u32_sub_l.
      replace (ip (regs m) + 1 - orig_ip ps) with (ip (regs m) - orig_ip ps + 1) by lia.
      rewrite <- u32_add_l, Hsz. replace (p + 2 + 1) with (p + 3) by lia.
      apply u32_id. destruct Hw as [[[-> _]|[-> _]] _]; done.
    + exists ps'. rewrite ip_add_add in H1. replace (1 + (n - 1)) with n in H1 by lia.
      subst ps1. destruct ps; cbn in *. subst. rewrite H1. done.
Qed.
End modrm.

(** ** Failure rolls back *)

(** Two machines that differ at most in the saved [ip]. *)
Definition only_ip (m m' : machine) : Prop :=
  mem m' = mem m /\ irq_on m' = irq_on m /\ set_ip (regs m') 0 = set_ip (regs m) 0.

#[export] Instance only_ip_equiv : Equivalence only_ip.
Proof.
  split.
  - intros m. done.
  - intros m m' (?&?&?). unfold only_ip. by rewrite H, H0, H1.
  - intros a b c (A1&A2&A3) (B1&B2&B3). unfold only_ip. by rewrite B1, B2, B3.
Qed.

Lemma only_ip_add m n : only_ip m (ip_add m n).
Proof. unfold only_ip, ip_add, with_regs; cbn. by rewrite set_ip_set_ip. Qed.

Create HintDb emu_frame discriminated.
#[export] Hint Resolve only_ip_add : emu_frame.
#[export] Hint Extern 1 (only_ip ?m ?m) => reflexivity : emu_frame.

Lemma only_ip_restore m m' : only_ip m m' -> with_regs m' (set_ip (regs m') (ip (regs m))) = m.
Proof.
  intros (Hm & Hi & Hr). destruct m as [r u q], m' as [r' u' q']; cbn in *; subst.
  unfold with_regs; cbn. f_equal.
  apply (f_equal (fun x => set_ip x (ip r))) in Hr. rewrite !set_ip_set_ip in Hr.
  by rewrite Hr, set_ip_id.
Qed.

Lemma only_ip_add_r m m' n : only_ip m m' -> only_ip m (ip_add m' n).
Proof. intros H. etransitivity; [exact H|apply only_ip_add]. Qed.
#[export] Hint Resolve only_ip_add_r : emu_frame.

(** Every field of the parser state but the pointers and the code words. *)
Definition same_origin (ps ps' : parser_state) : Prop := orig_ip ps' = orig_ip ps.

Lemma take_disp32_frame m ps n m' ps' :
  take_disp32 m ps n = (m', ps') -> only_ip m m' /\ same_origin ps ps'.
Proof.
  unfold take_disp32, same_origin.
  destruct (n <? 4); intros [= <- <-]; destruct ps; eauto with emu_frame.
Qed.

Lemma parse_mod_frame md rm m ps ret m' ps' :
  parse_mod md rm m ps = Ret (ret, m', ps') -> only_ip m m' /\ same_origin ps ps'.
Proof.
  unfold parse_mod.
  destruct md as [|[[?|?|]|[?|?|]|]|]; try (intros [= <- <- <-]; split; reflexivity || done).
  - destruct (rm =? 5); cbn [negb]; [|intros [= <- <- <-]; split; reflexivity || done].
    destruct (take_disp32 _ _ _) as [m1 ps1] eqn:E. apply take_disp32_frame in E as [? ?].
    intros [= <- <- <-]. destruct ps1; done.
  - destruct (take_disp32 _ _ _) as [m1 ps1] eqn:E. apply take_disp32_frame in E as [? ?].
    destruct (deref m1 _); cbn; [|done]. intros [= <- <- <-]. destruct ps1; done.
  - destruct (deref _ _); cbn; [|done]. intros [= <- <- <-].
    split; [apply only_ip_add|]. unfold same_origin. destruct ps, (u32 _ =? 4); done.
Qed.

Lemma parse_modrm_frame m ps ret m' ps' :
  parse_modrm_register m ps = Ret (ret, m', ps') -> only_ip m m' /\ same_origin ps ps'.
Proof.
  unfold parse_modrm_register, same_origin.
  destruct (parse_reg _ _) as [r1 s]. destruct (r1 <? 0).
  { intros [= <- <- <-]. destruct ps; split; reflexivity || done. }
  destruct (MODRM_MOD _ =? 3).
  - destruct (parse_reg _ _) as [r2 d]. destruct (r2 <? 0); intros [= <- <- <-];
      destruct ps; split; reflexivity || auto with emu_frame.
  - destruct (rm_base _).
    + intros H. apply parse_mod_frame in H as [H1 H2]. split.
      * etransitivity; [apply only_ip_add|exact H1].
      * rewrite H2. destruct ps; reflexivity.
    + intros [= <- <- <-]. destruct ps; split; reflexivity || done.
Qed.

(** A negative result of an emulation routine is reached before any register or
    memory byte is written. *)
Definition fails_clean (m : machine) (ps : parser_state)
  (res : outcome (Z * machine * parser_state)) : Prop :=
  forall ret m' ps', res = Ret (ret, m', ps') -> ret < 0 -> only_ip m m' /\ same_origin ps ps'.

Ltac ret_positive :=
  intros; repeat match goal with
  | H : context [deref ?m ?p] |- _ => destruct (deref m p); cbn [mbind outcome_bind] in H
  | H : context [assign ?m ?p ?v] |- _ => destruct (assign m p v); cbn [mbind outcome_bind] in H
  | H : context [if ?b then _ else _] |- _ => destruct b
  | H : Ret _ = Ret _ |- _ => injection H as <- <- <-
  end; try done; try lia.

Lemma cmpxchg_fails_clean e m ps : fails_clean m ps (parse_emu_cmpxchg e m ps).
Proof.
  unfold fails_clean, parse_emu_cmpxchg. intros ret m' ps'.
  destruct (parse_modrm_register m ps) as [[[r1 m1] ps1]|] eqn:E; cbn; [|done].
  apply parse_modrm_frame in E.
  destruct (r1 <? 0); [by intros [= <- <- <-]|].
  destruct (_ && _); [by intros [= <- <- <-]|]. ret_positive.
Qed.

Lemma xadd_fails_clean e m ps : fails_clean m ps (parse_emu_xadd e m ps).
Proof.
  unfold fails_clean, parse_emu_xadd. intros ret m' ps'.
  destruct (parse_modrm_register m ps) as [[[r1 m1] ps1]|] eqn:E; cbn; [|done].
  apply parse_modrm_frame in E.
  destruct (r1 <? 0); [by intros [= <- <- <-]|].
  destruct (_ && _); [by intros [= <- <- <-]|].
  destruct (regs_only ps1 =? 0); cbn [mbind outcome_bind]; ret_positive.
Qed.

Lemma bswap_fails_clean m ps : fails_clean m ps (parse_emu_bswap m ps).
Proof.
  unfold fails_clean, parse_emu_bswap. intros ret m' ps'.
  destruct (lock_prefix ps =? 1); [intros [= <- <- <-]; split; reflexivity|].
  destruct (parse_reg _ _) as [r d].
  destruct (r <? 0); [intros [= <- <- <-]; split; [reflexivity|by destruct ps]|].
  cbn [mbind outcome_bind]. ret_positive.
Qed.

Lemma opcode_fails_clean e m ps : fails_clean m ps (emu_opcode e m ps).
Proof.
  unfold fails_clean, emu_opcode. intros ret m' ps' H Hneg.
  destruct (_ =? 177); [|destruct (_ =? 193); [|destruct (_ || _)]].
  - destruct (cmpxchg_fails_clean _ _ _ _ _ _ H Hneg) as [? H']. split; [|unfold same_origin; rewrite H'; by destruct ps].
    etransitivity; [apply only_ip_add|done].
  - destruct (xadd_fails_clean _ _ _ _ _ _ H Hneg) as [? H']. split; [|unfold same_origin; rewrite H'; by destruct ps].
    etransitivity; [apply only_ip_add|done].
  - exact (bswap_fails_clean _ _ _ _ _ H Hneg).
  - injection H as <- <- <-. split; reflexivity.
Qed.

Lemma body_fails_clean e m ps ret m' ps' :
  emu_body e m ps = Ret (ret, m', ps') -> ret < 0 ->
  only_ip m m' /\ orig_ip ps' = ip (regs m).
Proof.
  unfold emu_body. intros H Hneg.
  destruct (insts ps =? _); [injection H as <- <- <-; lia|].
  destruct (_ =? 240); destruct (negb _).
  - injection H as <- <- <-. destruct ps; eauto with emu_frame.
  - destruct (opcode_fails_clean _ _ _ _ _ _ H Hneg) as [H1 H2].
    split; [|rewrite H2; by destruct ps]. rewrite <- H1. eauto with emu_frame.
  - injection H as <- <- <-. destruct ps; eauto with emu_frame.
  - destruct (opcode_fails_clean _ _ _ _ _ _ H Hneg) as [H1 H2].
    split; [|rewrite H2; by destruct ps]. rewrite <- H1. eauto with emu_frame.
Qed.

Lemma emu_failure_unchanged e junk m ret m' :
  parse_emu_instruction e junk m = Ret (ret, m') -> ret < 0 -> m' = m.
Proof.
  unfold parse_emu_instruction. intros H Hneg.
  destruct (get_user e m _) as [e1 w1]. destruct (e1 =? _); [by injection H as <- <-|].
  destruct (get_user e m _) as [e2 w2]. destruct (e2 =? _); [by injection H as <- <-|].
  destruct (emu_body _ _ _) as [[[r1 m1] ps1]|] eqn:E; cbn in H; [|done].
  injection H as <- <-. destruct (body_fails_clean _ _ _ _ _ _ E Hneg) as [H1 H2].
  rewrite (proj2 (Z.ltb_lt r1 0)) by done. rewrite H2; cbn.
  apply only_ip_restore in H1; cbn in H1. rewrite H1. by destruct m.
Qed.

(** ** The emulated operations compute what the architecture defines *)

(** The byte swap of the C code is the reversal of the four bytes. *)
Lemma land_byte_mask v k : 0 <= k -> Z.land v (Z.shiftl 255 k) = (v `div` 2 ^ k) `mod` 256 * 2 ^ k.
Proof.
  intros Hk. rewrite <- land_255, <- shiftr_div, <- shiftl_mul by lia.
  apply Z.bits_inj'. intros i Hi. rewrite Z.land_spec.
  destruct (Z.ltb_spec i k).
  - rewrite !Z.shiftl_spec_low by lia. by rewrite andb_false_r.
  - rewrite !Z.shiftl_spec by lia. rewrite Z.land_spec, Z.shiftr_spec by lia.
    do 2 f_equal; lia.
Qed.

Lemma swab32_bytes v : is_u32 v -> swab32 v = bswap_value v.
Proof.
  intros Hv. unfold swab32.
  change 65280 with (Z.shiftl 255 8). change 16711680 with (Z.shiftl 255 16).
  change 4278190080 with (Z.shiftl 255 24).
  change (Z.land v 255) with (Z.land v (Z.shiftl 255 0)).
  rewrite !land_byte_mask, !shiftl_mul, !shiftr_div by lia.
  unfold bswap_value, le32, byte_of, is_u32, u32 in *. zcalc.
  rewrite !Z.div_1_r, !Z.mul_1_r.
  set (b0 := v `mod` 256). set (b1 := (v `div` 256) `mod` 256).
  set (b2 := (v `div` 65536) `mod` 256). set (b3 := (v `div` 16777216) `mod` 256).
  assert (0 <= b0 < 256 /\ 0 <= b1 < 256 /\ 0 <= b2 < 256 /\ 0 <= b3 < 256) as (?&?&?&?)
    by (subst b0 b1 b2 b3; split_and!; zlia).
  rewrite !(Z.mod_small _ 4294967296) by lia.
  replace (b1 * 256 * 256) with (b1 * 65536) by lia.
  rewrite (Z.lor_comm (b0 * _)).
  rewrite (lor_low_mul 24 16777216 (b1 * 65536) b0) by lia.
  replace ((b2 * 65536) `div` 256) with (b2 * 256) by zlia.
  replace ((b3 * 16777216) `div` 16777216) with b3 by zlia.
  replace (b1 * 65536 + b0 * 16777216) with ((b1 + b0 * 256) * 65536) by lia.
  rewrite (Z.lor_comm _ (b2 * 256)), (lor_low_mul 16 65536) by lia.
  replace (b2 * 256 + (b1 + b0 * 256) * 65536)
    with ((b2 + b1 * 256 + b0 * 65536) * 256) by lia.
  rewrite Z.lor_comm, (lor_low_mul 8 256) by lia. lia.
Qed.

(** The result of [cmpxchg] agrees with the architecture on every register and on
    ZF; the other five status flags keep their old value. *)
Definition regs_agree (i : instr) (r r_isa : pt_regs) : Prop :=
  match i with
  | Cmpxchg _ _ =>
      set_flags r 0 = set_flags r_isa 0 /\
      Z.testbit (flags r) 6 = Z.testbit (flags r_isa) 6 /\
      Z.ldiff (flags r) status_mask = Z.ldiff (flags r_isa) status_mask
  | _ => r = r_isa
  end.

Definition operand_in_limit (e : env) (d : operand) : Prop :=
  match d with OReg _ => True | OMem a => range_ok (addr_limit e) a 4 = true end.

(** What an emulation routine owes: success, the machine of the reference
    semantics [len] bytes further on. *)
Definition emulates (i : instr) (m : machine) (len : Z) (r' : pt_regs) (u' : gmap Z Z)
  (res : outcome (Z * machine * parser_state)) : Prop :=
  exists m' ps', res = Ret (1, m', ps') /\ mem m' = u' /\ irq_on m' = irq_on m /\
    regs_agree i (regs m') (set_ip r' (u32 (ip (regs m) + len))).

Lemma access_checked e ps d :
  inst_dest ps = ptr_of d -> regs_only ps = is_reg_operand d -> operand_in_limit e d ->
  (regs_only ps =? 0) && negb (access_ok e (inst_dest ps)) = false.
Proof.
  intros -> ->. destruct d; cbn; [done|]. unfold access_ok; cbn. by intros ->.
Qed.

Lemma flags_lor_zf f : Z.testbit (Z.lor f X86_EFLAGS_ZF) 6 = true.
Proof. rewrite Z.lor_spec. apply orb_true_r. Qed.
Lemma flags_clear_zf f : Z.testbit (clear_bits f X86_EFLAGS_ZF) 6 = false.
Proof. unfold clear_bits. rewrite Z.ldiff_spec. apply andb_false_r. Qed.
Lemma zf_in_status_lor f : Z.ldiff (Z.lor f X86_EFLAGS_ZF) status_mask = Z.ldiff f status_mask.
Proof.
  apply Z.bits_inj'. intros i Hi. rewrite !Z.ldiff_spec, Z.lor_spec.
  destruct (Z.eq_dec i 6) as [->|]; [by rewrite !andb_false_r|].
  change X86_EFLAGS_ZF with (2 ^ 6). rewrite Z.pow2_bits_false by lia. by rewrite orb_false_r.
Qed.
Lemma zf_in_status_clear f :
  Z.ldiff (clear_bits f X86_EFLAGS_ZF) status_mask = Z.ldiff f status_mask.
Proof.
  apply Z.bits_inj'. intros i Hi. unfold clear_bits. rewrite !Z.ldiff_spec.
  destruct (Z.eq_dec i 6) as [->|]; [by rewrite !andb_false_r|].
  change X86_EFLAGS_ZF with (2 ^ 6). rewrite Z.pow2_bits_false by lia. by rewrite andb_true_r.
Qed.

(** Reading an operand through the parsed pointer. *)
Lemma deref_operand m n d v :
  read_operand (regs m) (mem m) d = Some v -> deref (ip_add m n) (ptr_of d) = Ret v.
Proof.
  destruct d; cbn.
  - rewrite get_gpr_ip_add. by intros [= ->].
  - rewrite mem_ip_add. by intros ->.
Qed.

(** [deref] and [assign] see only the registers and bytes, not the flags. *)
Lemma deref_set_flags m p f : deref (with_regs m (set_flags (regs m) f)) p = deref m p.
Proof. destruct p; cbn; [by rewrite get_gpr_set_flags|done]. Qed.

Lemma regs_with_regs m r : regs (with_regs m r) = r.
Proof. reflexivity. Qed.
Lemma regs_ip_add m n : regs (ip_add m n) = set_ip (regs m) (u32 (ip (regs m) + n)).
Proof. reflexivity. Qed.
#[export] Hint Rewrite regs_with_regs regs_ip_add : regs.

Lemma regs_agree_set_gpr d s r r' g v :
  regs_agree (Cmpxchg d s) r r' -> regs_agree (Cmpxchg d s) (set_gpr r g v) (set_gpr r' g v).
Proof.
  cbn [regs_agree]. intros (H1 & H2 & H3). autorewrite with regs. by rewrite H1, H2, H3.
Qed.

Lemma cmpxchg_emulates e m ps ps' d s n r' u' :
  regs_ok (regs m) -> mem_ok (mem m) ->
  parse_modrm_register m ps = Ret (1, ip_add m n, ps') ->
  inst_src ps' = PReg s -> inst_dest ps' = ptr_of d -> regs_only ps' = is_reg_operand d ->
  operand_in_limit e d ->
  exec (Cmpxchg d s) (regs m) (mem m) = Some (r', u') ->
  emulates (Cmpxchg d s) m n r' u' (parse_emu_cmpxchg e m ps).
Proof.
  intros Hr Hm Hp Hs Hd Hro Hlim Hx. unfold emulates, parse_emu_cmpxchg.
  rewrite Hp. cbn [mbind outcome_bind]. zcalc.
  rewrite (access_checked _ _ _ Hd Hro Hlim), Hd.
  unfold exec in Hx. destruct (read_operand _ _ d) as [v|] eqn:Ev; [|done].
  cbn [mbind option_bind] in Hx.
  rewrite (deref_operand m n d v Ev). cbn [mbind outcome_bind].
  rewrite ax_get, get_gpr_ip_add.
  assert (Hv : is_u32 v).
  { destruct d; cbn in Ev; [injection Ev as <-; apply Hr|eauto using load32_range]. }
  pose proof (sub_flags_zf (get_gpr (regs m) AX) v) as Hzf.
  rewrite u32_sub_zero in Hzf by (done || apply Hr).
  destruct (get_gpr (regs m) AX =? v) eqn:Eq.
  - rewrite deref_set_flags, Hs. cbn [deref mbind outcome_bind]. rewrite get_gpr_ip_add.
    assert (Ha : regs_agree (Cmpxchg d s)
      (set_flags (regs (ip_add m n)) (Z.lor (flags (regs (ip_add m n))) X86_EFLAGS_ZF))
      (set_ip (with_status (regs m) (sub_flags (get_gpr (regs m) AX) v))
         (u32 (ip (regs m) + n)))).
    { unfold with_status. cbn [regs_agree]. autorewrite with regs. split_and!; [done|..].
      - rewrite flags_lor_zf, Z.lor_spec, Hzf. by rewrite orb_true_r.
      - by rewrite zf_in_status_lor, ldiff_lor_status by apply sub_flags_status. }
    destruct d; cbn [write_operand mbind option_bind] in Hx; cbn [ptr_of assign mem with_regs].
    + injection Hx as <- <-. do 2 eexists; split_and!; [done..|].
      rewrite set_ip_set_gpr. by apply regs_agree_set_gpr.
    + change (mem (ip_add m n)) with (mem m).
      destruct (store32 (mem m) a _); [|done]. injection Hx as <- <-.
      do 2 eexists; split_and!; done.
  - injection Hx as <- <-. rewrite deref_set_flags, (deref_operand m n d v Ev).
    cbn [mbind outcome_bind]. do 2 eexists; split_and!; [done..|].
    rewrite set_ip_set_gpr. apply (regs_agree_set_gpr d s).
    unfold with_status. cbn [regs_agree with_regs regs]. autorewrite with regs. split_and!; [done|..].
    + rewrite flags_clear_zf, ax_get, Z.lor_spec, Hzf, Z.ldiff_spec. by rewrite andb_false_r.
    + by rewrite zf_in_status_clear, ldiff_lor_status by apply sub_flags_status.
Qed.

Lemma xadd_emulates e m ps ps' d s n r' u' :
  parse_modrm_register m ps = Ret (1, ip_add m n, ps') ->
  inst_src ps' = PReg s -> inst_dest ps' = ptr_of d -> regs_only ps' = is_reg_operand d ->
  operand_in_limit e d ->
  exec (Xadd d s) (regs m) (mem m) = Some (r', u') ->
  emulates (Xadd d s) m n r' u' (parse_emu_xadd e m ps).
Proof.
  intros Hp Hs Hd Hro Hlim Hx. unfold emulates, parse_emu_xadd.
  rewrite Hp. cbn [mbind outcome_bind]. zcalc.
  rewrite (access_checked _ _ _ Hd Hro Hlim), Hd, Hs, Hro.
  unfold exec in Hx. destruct (read_operand _ _ d) as [v|] eqn:Ev; [|done].
  cbn [mbind option_bind] in Hx. pose proof (deref_operand m n d v Ev) as Hdv.
  assert (Hget : (if is_reg_operand d =? 0 then Ret (get_user e (ip_add m n) (ptr_of d)).2
                  else deref (ip_add m n) (ptr_of d)) = Ret v).
  { destruct d; [exact Hdv|]. change (is_reg_operand (OMem a)) with 0. zcalc.
    unfold get_user, access_ok. cbn [addr_of ptr_of]. cbn in Hlim. rewrite Hlim.
    cbn [ptr_of] in Hdv. by rewrite Hdv. }
  rewrite Hget. cbn [mbind outcome_bind]. unfold asm_addl_flags.
  cbn [deref]. rewrite get_gpr_ip_add. cbn [mbind outcome_bind].
  rewrite !deref_set_flags, Hdv. cbn [mbind outcome_bind assign].
  unfold clear_bits. rewrite land_lor_status by apply add_flags_status.
  destruct d; cbn [write_operand mbind option_bind] in Hx; cbn [ptr_of assign is_reg_operand].
  - injection Hx as <- <-. zcalc. cbn [assign mbind outcome_bind]. do 2 eexists; split_and!; [done..|].
    unfold with_status. cbn [regs_agree with_regs regs]. autorewrite with regs. done.
  - zcalc. unfold put_user, access_ok. cbn [addr_of]. cbn in Hlim. rewrite Hlim.
    cbn [assign mem with_regs].
    change (mem (ip_add m n)) with (mem m).
    destruct (store32 (mem m) a _); [|done]. injection Hx as <- <-.
    do 2 eexists; split_and!; [done..|].
    unfold with_status. cbn [regs_agree with_regs regs]. autorewrite with regs. done.
Qed.

Lemma bswap_emulates m ps op k r' u' :
  regs_ok (regs m) -> 0xc8 <= op <= 0xcf -> 0 <= k ->
  insts ps = op + 256 * k -> lock_prefix ps = 0 ->
  exec (Bswap (gpr_of (op - 0xc8))) (regs m) (mem m) = Some (r', u') ->
  emulates (Bswap (gpr_of (op - 0xc8))) m 1 r' u' (parse_emu_bswap m ps).
Proof.
  intros Hr Hop Hk Hi Hl [= <- <-]. unfold emulates, parse_emu_bswap.
  rewrite Hl, Hi. zcalc. unfold MODRM_RM. rewrite land_7.
  replace ((op + 256 * k) `mod` 8) with (op - 200) by zlia.
  rewrite parse_reg_gpr by lia. zcalc.
  replace (inst_dest (set_dest ps _)) with (PReg (gpr_of (op - 200))) by (by destruct ps).
  cbn [deref assign mbind outcome_bind]. rewrite get_gpr_ip_add, swab32_bytes by apply Hr.
  do 2 eexists; split_and!; [done..|]. cbn [regs_agree with_regs regs].
  autorewrite with regs. done.
Qed.

(** ** The accepted language *)

Definition prefix_len (code : Z -> Z) : Z := if code 0 =? 0xf0 then 1 else 0.

Definition is_endbr32 (code : Z -> Z) : bool :=
  (code 0 =? 0xf3) && (code 1 =? 0x0f) && (code 2 =? 0x1e) && (code 3 =? 0xfb).

(** The instruction the emulator takes the bytes for, and its length. *)
Definition emu_decode (code : Z -> Z) (r : pt_regs) : option (instr * Z) :=
  if is_endbr32 code then Some (Endbr32, 4)
  else
    let p := prefix_len code in
    if negb (code p =? 0x0f) then None
    else
      let op := code (p + 1) in
      let '(d, n) := emu_operand code r (p + 2) in
      if op =? 0xb1 then
        if modrm_accepted code (p + 2) then Some (Cmpxchg d (modrm_reg code (p + 2)), p + 2 + n)
        else None
      else if op =? 0xc1 then
        if modrm_accepted code (p + 2) then Some (Xadd d (modrm_reg code (p + 2)), p + 2 + n)
        else None
      else if (p =? 0) && (0xc8 <=? op) && (op <=? 0xcf) && negb (op =? 0xcc) && negb (op =? 0xcd)
      then Some (Bswap (gpr_of (op - 0xc8)), 2)
      else None.

(** The handler's surroundings: user address limit below the register frame, and
    the eight bytes at [ip] readable. *)
Definition env_ok (e : env) : Prop :=
  0 <= addr_limit e <= regs_base e /\ regs_base e + 68 <= 4294967296.

Definition fetchable (e : env) (m : machine) (code : Z -> Z) : Prop :=
  ip (regs m) + 8 <= addr_limit e /\
  forall i, 0 <= i < 8 -> mem m !! (ip (regs m) + i) = Some (code i).

Definition instr_operand (i : instr) : operand :=
  match i with
  | Cmpxchg d _ | Xadd d _ => d
  | Endbr32 => OReg AX
  | Bswap g => OReg g
  end.

(** The reference semantics does not read the saved [ip]. *)
Lemma emu_operand_ip_add code m k i :
  emu_operand code (regs (ip_add m k)) i = emu_operand code (regs m) i.
Proof. unfold emu_operand. by rewrite !get_gpr_ip_add. Qed.

Lemma exec_ip_add i m k r' u' :
  exec i (regs m) (mem m) = Some (r', u') ->
  exec i (regs (ip_add m k)) (mem (ip_add m k)) =
  Some (set_ip r' (u32 (ip (regs m) + k)), u').
Proof.
  rewrite mem_ip_add, regs_ip_add. set (v := u32 _).
  assert (Hrd : forall d, read_operand (set_ip (regs m) v) (mem m) d = read_operand (regs m) (mem m) d)
    by (intros []; cbn; [by rewrite get_gpr_set_ip|done]).
  destruct i; cbn [exec]; rewrite ?Hrd, ?get_gpr_set_ip.
  - by intros [= <- <-].
  - destruct (read_operand _ _ _) as [x|]; cbn [mbind option_bind]; [|done].
    unfold with_status. autorewrite with regs.
    destruct (_ =? x); [|intros [= <- <-]; by autorewrite with regs].
    destruct dst; cbn [write_operand mbind option_bind].
    + intros [= <- <-]. by autorewrite with regs.
    + destruct (store32 _ _ _); [|done]. intros [= <- <-]. by autorewrite with regs.
  - destruct (read_operand _ _ _) as [x|]; cbn [mbind option_bind]; [|done].
    unfold with_status. autorewrite with regs.
    destruct dst; cbn [write_operand mbind option_bind].
    + intros [= <- <-]. by autorewrite with regs.
    + destruct (store32 _ _ _); [|done]. intros [= <- <-]. by autorewrite with regs.
  - intros [= <- <-]. by autorewrite with regs.
Qed.

Lemma emulates_ip_add i m k n r' u' v res :
  emulates i (ip_add m k) n (set_ip r' v) u' res -> emulates i m (k + n) r' u' res.
Proof.
  intros (m' & ps' & H1 & H2 & H3 & H4). exists m', ps'. split_and!; try done.
  rewrite set_ip_set_ip, ip_ip_add, u32_add_l, <- Z.add_assoc in H4. done.
Qed.

Lemma regs_ok_ip_add m k : regs_ok (regs m) -> regs_ok (regs (ip_add m k)).
Proof. intros H. apply regs_ok_set_ip; [done|apply u32_range]. Qed.

Section refine.
Context (e : env) (m : machine) (code : Z -> Z).
Hypothesis (He : env_ok e) (Hr : regs_ok (regs m)) (Hm : mem_ok (mem m))
  (Hcode : forall i, is_u8 (code i)) (Hf : fetchable e m code).

Lemma le32_nest b0 b1 b2 b3 :
  le32 b0 b1 b2 b3 = b0 + 256 * (b1 + 256 * (b2 + 256 * b3)).
Proof. unfold le32. lia. Qed.

Lemma fetch_word k :
  k = 0 \/ k = 4 ->
  get_user e m (PAddr (u32 (ip (regs m) + k))) =
  (0, le32 (code k) (code (k + 1)) (code (k + 2)) (code (k + 3))).
Proof.
  intros Hk. destruct Hf as [Hlim Hb]. destruct He as [Ha Hb'].
  destruct Hr as (_ & Hip & _). unfold is_u32 in Hip.
  assert (Hw : u32 (ip (regs m) + k) = ip (regs m) + k)
    by (apply u32_id; unfold is_u32; lia).
  unfold get_user, access_ok. cbn [addr_of].
  replace (range_ok (addr_limit e) (u32 (ip (regs m) + k)) 4) with true.
  2:{ rewrite Hw. unfold range_ok. symmetry.
      rewrite (u32_id (ip (regs m) + k + 4)) by (unfold is_u32; lia).
      apply andb_true_intro. split; [apply Z.ltb_lt|apply Z.leb_le]; lia. }
  cbn [deref]. rewrite Hw. unfold load32.
  rewrite <- !Z.add_assoc. rewrite !Hb by lia. done.
Qed.

Lemma endbr32_word :
  (le32 (code 0) (code 1) (code 2) (code 3) =? 0xfb1e0ff3) = is_endbr32 code.
Proof.
  unfold is_endbr32, le32.
  pose proof (Hcode 0). pose proof (Hcode 1). pose proof (Hcode 2). pose proof (Hcode 3).
  unfold is_u8 in *. split_bool; cbn; lia || done.
Qed.

(** The words left when the opcode byte is at the bottom of [insts]. *)
Definition words_after_0f (p : Z) (ps : parser_state) : Prop :=
  insts ps = code (p + 1) + 256 * (code (p + 2) + 256 * (if p =? 0 then code 3 else 0)) /\
  insts2 ps = le32 (code 4) (code 5) (code 6) (code 7) /\
  lock_prefix ps = p /\ orig_ip ps = ip (regs m).

Lemma words_after_opcode p ps :
  p = 0 \/ p = 1 -> words_after_0f p ps ->
  words_at code p (set_insts ps (Z.shiftr (insts ps) 8)).
Proof.
  intros Hpc (Hi & Hi2 & Hl & Ho). pose proof (Hcode (p + 2)) as B2.
  pose proof (Hcode 3) as B3. unfold is_u8 in B2, B3.
  split; [|by destruct ps]. rewrite Hi, shr8 by (apply Hcode || destruct (p =? 0); lia).
  destruct Hpc as [-> | ->]; [left|right]; split; [done| |done|]; destruct ps; cbn; zcalc; lia.
Qed.

Lemma modrm_after_opcode p ps d n :
  p = 0 \/ p = 1 -> words_after_0f p ps -> modrm_accepted code (p + 2) = true ->
  emu_operand code (regs m) (p + 2) = (d, n) ->
  exists ps',
    parse_modrm_register (ip_add m (p + 2)) (set_insts ps (Z.shiftr (insts ps) 8)) =
      Ret (1, ip_add (ip_add m (p + 2)) n, ps') /\
    inst_src ps' = PReg (modrm_reg code (p + 2)) /\ inst_dest ps' = ptr_of d /\
    regs_only ps' = is_reg_operand d.
Proof.
  intros Hpc Hw Hs Hop. pose proof Hw as (_ & _ & _ & Ho).
  set (ps1 := set_insts ps _).
  destruct (parse_modrm_ok code Hcode p (ip_add m (p + 2)) ps1 d n) as (ps' & ?&?&?&?&?);
    [by apply words_after_opcode|done|by rewrite emu_operand_ip_add| |by exists ps'].
  replace (orig_ip ps1) with (ip (regs m)) by (by destruct ps).
  rewrite ip_ip_add, u32_sub_l. replace (_ + (p + 2) - _) with (p + 2) by lia.
  apply u32_id. unfold is_u32. lia.
Qed.

(** A form that is not accepted: the SIB byte, or a bare register-indirect operand,
    whose pointer is left on the register's own slot and fails [access_ok]. *)
Lemma modrm_rejected p ps :
  p = 0 \/ p = 1 -> words_after_0f p ps -> modrm_accepted code (p + 2) = false ->
  (exists m' ps', parse_modrm_register (ip_add m (p + 2)) (set_insts ps (Z.shiftr (insts ps) 8)) =
     Ret (- EOPNOTSUPP, m', ps')) \/
  (exists m' ps' g, parse_modrm_register (ip_add m (p + 2)) (set_insts ps (Z.shiftr (insts ps) 8)) =
     Ret (1, m', ps') /\ inst_dest ps' = PReg g /\ regs_only ps' = 0).
Proof.
  intros Hpc Hw Hs.
  set (ps1 := set_insts ps _).
  destruct (words_at_split code Hcode p ps1) as (k & Hk & Hins); [by apply words_after_opcode|].
  pose proof (modrm_fields (code (p + 2)) k (Hcode _) Hk) as (Fm & Fr & Fg).
  pose proof (Hcode (p + 2)) as B. unfold is_u8 in B.
  unfold parse_modrm_register. rewrite Hins, Fm, Fr, Fg.
  rewrite parse_reg_gpr by zlia. zcalc.
  unfold modrm_accepted in Hs. apply orb_false_iff in Hs as [H3 Hs]. rewrite H3.
  apply Z.eqb_neq in H3.
  destruct (Z.eqb_spec (code (p + 2) `mod` 8) 4) as [->|H4].
  { left. by do 2 eexists. }
  cbn [negb andb] in Hs. apply orb_false_iff in Hs as [Hs H0].
  apply orb_false_iff in Hs as [H2 H1]. apply Z.eqb_neq in H1, H2.
  right. rewrite rm_base_gpr by (zlia || done). unfold parse_mod.
  remember (code (p + 2) `div` 64) as md eqn:Emd.
  assert (md = 0 \/ md = 3) as [->| ->] by (subst md; zlia).
  - zcalc_in H0. cbn [andb] in H0. rewrite H0. cbn [negb]. do 3 eexists. by destruct ps.
  - lia.
Qed.

(** The slots of the register frame lie above the user limit. *)
Lemma slot_not_user g : access_ok e (PReg g) = false.
Proof.
  destruct He as [Ha Hb]. unfold access_ok, range_ok. cbn [addr_of].
  assert (Ho : 0 <= gpr_offset g <= 60) by (destruct g; cbn; lia).
  apply andb_false_iff. right. apply Z.leb_gt.
  rewrite u32_id by (unfold is_u32; lia). lia.
Qed.

Lemma opcode_byte p ps :
  p = 0 \/ p = 1 -> words_after_0f p ps -> Z.land (insts ps) 255 = code (p + 1).
Proof.
  intros Hpc (Hi & _). pose proof (Hcode 3). pose proof (Hcode (p + 2)). unfold is_u8 in *.
  rewrite Hi. apply low8; [apply Hcode|destruct (p =? 0); lia].
Qed.

Lemma bswap_case op :
  (op =? 200) || (op =? 201) || (op =? 202) || (op =? 203) || (op =? 206) || (op =? 207) =
  (200 <=? op) && (op <=? 207) && negb (op =? 204) && negb (op =? 205).
Proof.
  destruct (Z.leb_spec 200 op); [destruct (Z.leb_spec op 207)|].
  - assert (Hc : op = 200 + (op - 200)) by lia. remember (op - 200) as k eqn:Ek.
    assert (0 <= k < 8) by lia. rewrite Hc. clear Ek Hc. small_cases k 8; done.
  - rewrite !(proj2 (Z.eqb_neq op _)) by lia. done.
  - rewrite !(proj2 (Z.eqb_neq op _)) by lia. done.
Qed.

(** Opcode dispatch on an accepted instruction. *)
Lemma opcode_emulates p ps i len r' u' :
  p = prefix_len code -> is_endbr32 code = false -> code p = 0x0f ->
  emu_decode code (regs m) = Some (i, len) -> operand_in_limit e (instr_operand i) ->
  exec i (regs m) (mem m) = Some (r', u') -> words_after_0f p ps ->
  emulates i m len r' u' (emu_opcode e (ip_add m (p + 1)) ps).
Proof.
  intros Hp Hne Hof Hdec Hlim Hx Hw.
  assert (Hpc : p = 0 \/ p = 1) by (rewrite Hp; unfold prefix_len; destruct (code 0 =? 240); lia).
  unfold emu_decode in Hdec. rewrite Hne, <- Hp, Hof in Hdec. zcalc_in Hdec. cbn [negb] in Hdec.
  pose proof (modrm_after_opcode p ps) as Hparse. destruct (Hw) as (Hi & _ & Hl & _).
  destruct (emu_operand code (regs m) (p + 2)) as [d n] eqn:Hop.
  unfold emu_opcode. rewrite (opcode_byte p ps Hpc Hw), ip_add_add, bswap_case.
  replace (p + 1 + 1) with (p + 2) by lia.
  destruct (code (p + 1) =? 177); [|destruct (code (p + 1) =? 193)].
  - destruct (modrm_accepted code (p + 2)) eqn:Hem; [|done]. injection Hdec as <- <-.
    destruct (Hparse d n Hpc Hw eq_refl eq_refl) as (ps' & H1 & H2 & H3 & H4).
    eapply emulates_ip_add, cmpxchg_emulates; eauto using regs_ok_ip_add. by apply exec_ip_add.
  - destruct (modrm_accepted code (p + 2)) eqn:Hem; [|done]. injection Hdec as <- <-.
    destruct (Hparse d n Hpc Hw eq_refl eq_refl) as (ps' & H1 & H2 & H3 & H4).
    eapply emulates_ip_add, xadd_emulates; eauto. by apply exec_ip_add.
  - destruct (Z.eqb_spec p 0) as [Hp0|]; [|done]. cbn [andb] in Hdec.
    destruct ((200 <=? _) && _ && _ && _) eqn:Hem; [|done]. injection Hdec as <- <-.
    rewrite !andb_true_iff, !negb_true_iff, !Z.eqb_neq, !Z.leb_le in Hem.
    rewrite Hp0 in Hi, Hl, Hx, Hem |- *. zcalc. zcalc_in Hi. zcalc_in Hx. zcalc_in Hem.
    pose proof (Hcode 2). pose proof (Hcode 3). unfold is_u8 in *.
    apply (emulates_ip_add _ _ 1 1 _ _ (u32 (ip (regs m) + 1))).
    eapply (bswap_emulates _ _ _ (code 2 + 256 * code 3)); eauto using regs_ok_ip_add;
      [lia|lia|by apply exec_ip_add].
Qed.

(** Opcode dispatch on anything else. *)
Definition rejects (res : outcome (Z * machine * parser_state)) : Prop :=
  exists ret m' ps', res = Ret (ret, m', ps') /\ ret < 0.

Lemma opcode_rejects p ps :
  p = prefix_len code -> is_endbr32 code = false -> code p = 0x0f ->
  emu_decode code (regs m) = None -> words_after_0f p ps ->
  rejects (emu_opcode e (ip_add m (p + 1)) ps).
Proof.
  intros Hp Hne Hof Hdec Hw.
  assert (Hpc : p = 0 \/ p = 1) by (rewrite Hp; unfold prefix_len; destruct (code 0 =? 240); lia).
  unfold emu_decode in Hdec. rewrite Hne, <- Hp, Hof in Hdec. zcalc_in Hdec. cbn [negb] in Hdec.
  destruct (Hw) as (_ & _ & Hl & _).
  destruct (emu_operand code (regs m) (p + 2)) as [d n].
  unfold emu_opcode. rewrite (opcode_byte p ps Hpc Hw), ip_add_add, bswap_case.
  replace (p + 1 + 1) with (p + 2) by lia.
  destruct (code (p + 1) =? 177); [|destruct (code (p + 1) =? 193)].
  - destruct (modrm_accepted code (p + 2)) eqn:Hem; [done|].
    unfold parse_emu_cmpxchg.
    destruct (modrm_rejected p ps Hpc Hw Hem) as [(m1 & ps1 & ->)|(m1 & ps1 & g & -> & H1 & H2)];
      cbn [mbind outcome_bind].
    + by repeat eexists.
    + zcalc. rewrite H1, H2, slot_not_user. zcalc. by repeat eexists.
  - destruct (modrm_accepted code (p + 2)) eqn:Hem; [done|].
    unfold parse_emu_xadd.
    destruct (modrm_rejected p ps Hpc Hw Hem) as [(m1 & ps1 & ->)|(m1 & ps1 & g & -> & H1 & H2)];
      cbn [mbind outcome_bind].
    + by repeat eexists.
    + zcalc. rewrite H1, H2, slot_not_user. zcalc. by repeat eexists.
  - destruct ((200 <=? _) && _ && _ && _) eqn:Hem; [|by repeat eexists].
    unfold parse_emu_bswap. rewrite Hl.
    destruct (Z.eqb_spec p 1); [by repeat eexists|].
    replace (p =? 0) with true in Hdec by (symmetry; apply Z.eqb_eq; lia).
    cbn [andb] in Hdec. by rewrite Hem in Hdec.
Qed.

(** Prefix and escape byte: either the body stops, or the dispatch starts. *)
Lemma body_dispatch ps :
  insts ps = le32 (code 0) (code 1) (code 2) (code 3) ->
  insts2 ps = le32 (code 4) (code 5) (code 6) (code 7) ->
  is_endbr32 code = false ->
  (code (prefix_len code) <> 0x0f /\
   exists m' ps', emu_body e m ps = Ret (- EOPNOTSUPP, m', ps')) \/
  (code (prefix_len code) = 0x0f /\
   exists ps', emu_body e m ps = emu_opcode e (ip_add m (prefix_len code + 1)) ps' /\
     words_after_0f (prefix_len code) ps').
Proof.
  intros Hi Hi2 Hend. unfold emu_body. rewrite Hi, endbr32_word, Hend.
  pose proof (Hcode 0) as B0. pose proof (Hcode 1) as B1. pose proof (Hcode 2) as B2.
  pose proof (Hcode 3) as B3. unfold is_u8 in *.
  replace (insts (set_orig_ip ps _)) with (insts ps) by (by destruct ps).
  rewrite Hi, le32_nest, low8 by (done || lia). unfold prefix_len.
  destruct (code 0 =? 240).
  - rewrite shr8 by (done || lia).
    replace (insts (set_lock_prefix _ _)) with (code 1 + 256 * (code 2 + 256 * code 3))
      by (by destruct ps).
    rewrite low8 by (done || lia). rewrite ip_add_add, shr8 by (done || lia).
    destruct (Z.eqb_spec (code 1) 15); [right|left]; (split; [done|]); cbn [negb]; [|by do 2 eexists].
    eexists; split; [done|]. split_and!; destruct ps; cbn; zcalc; done || lia.
  - replace (insts (set_lock_prefix _ _)) with (le32 (code 0) (code 1) (code 2) (code 3))
      by (by destruct ps).
    rewrite le32_nest, low8 by (done || lia). rewrite shr8 by (done || lia).
    destruct (Z.eqb_spec (code 0) 15); [right|left]; (split; [done|]); cbn [negb]; [|by do 2 eexists].
    eexists; split; [done|]. split_and!; destruct ps; cbn; zcalc; done || lia.
Qed.

Lemma body_emulates ps i len r' u' :
  emu_decode code (regs m) = Some (i, len) ->
  operand_in_limit e (instr_operand i) -> exec i (regs m) (mem m) = Some (r', u') ->
  insts ps = le32 (code 0) (code 1) (code 2) (code 3) ->
  insts2 ps = le32 (code 4) (code 5) (code 6) (code 7) ->
  emulates i m len r' u' (emu_body e m ps).
Proof.
  intros Hdec Hlim Hx Hi Hi2.
  destruct (is_endbr32 code) eqn:Hend.
  { unfold emu_body. rewrite Hi, endbr32_word, Hend. unfold emu_decode in Hdec.
    rewrite Hend in Hdec. injection Hdec as <- <-. injection Hx as <- <-.
    by do 2 eexists; split_and!. }
  destruct (body_dispatch ps Hi Hi2 Hend) as [[Hno _]|[Hof (ps' & -> & Hw)]].
  - unfold emu_decode in Hdec. rewrite Hend, (proj2 (Z.eqb_neq _ _) Hno) in Hdec. done.
  - by eapply opcode_emulates.
Qed.

Lemma body_rejects ps :
  emu_decode code (regs m) = None ->
  insts ps = le32 (code 0) (code 1) (code 2) (code 3) ->
  insts2 ps = le32 (code 4) (code 5) (code 6) (code 7) ->
  rejects (emu_body e m ps).
Proof.
  intros Hdec Hi Hi2.
  destruct (is_endbr32 code) eqn:Hend.
  { unfold emu_decode in Hdec. by rewrite Hend in Hdec. }
  destruct (body_dispatch ps Hi Hi2 Hend) as [[Hno (m1 & ps1 & ->)]|[Hof (ps1 & -> & Hw)]].
  - by repeat eexists.
  - by eapply opcode_rejects.
Qed.

(** An unmapped [cmpxchg] operand below the limit is read by the kernel directly. *)
Lemma body_cmpxchg_oops ps a s len :
  emu_decode code (regs m) = Some (Cmpxchg (OMem a) s, len) ->
  range_ok (addr_limit e) a 4 = true -> load32 (mem m) a = None ->
  insts ps = le32 (code 0) (code 1) (code 2) (code 3) ->
  insts2 ps = le32 (code 4) (code 5) (code 6) (code 7) ->
  emu_body e m ps = Oops.
Proof.
  intros Hdec Hlim Hload Hi Hi2. unfold emu_decode in Hdec.
  destruct (is_endbr32 code) eqn:Hend; [done|].
  destruct (body_dispatch ps Hi Hi2 Hend) as [[Hno _]|[Hof (ps1 & -> & Hw)]].
  { by rewrite (proj2 (Z.eqb_neq _ _) Hno) in Hdec. }
  remember (prefix_len code) as p eqn:Hp.
  assert (Hpc : p = 0 \/ p = 1) by (rewrite Hp; unfold prefix_len; destruct (code 0 =? 240); lia).
  rewrite Hof in Hdec. zcalc_in Hdec. cbn [negb] in Hdec.
  destruct (emu_operand code (regs m) (p + 2)) as [d n] eqn:Hop.
  unfold emu_opcode. rewrite (opcode_byte p ps1 Hpc Hw), ip_add_add.
  replace (p + 1 + 1) with (p + 2) by lia.
  destruct (code (p + 1) =? 177); [|by repeat case_match].
  destruct (modrm_accepted code (p + 2)) eqn:Hem; [|done]. injection Hdec as -> _ _.
  destruct (modrm_after_opcode p ps1 _ _ Hpc Hw Hem Hop) as (ps' & H1 & H2 & H3 & H4).
  unfold parse_emu_cmpxchg. rewrite H1. cbn [mbind outcome_bind]. zcalc.
  rewrite (access_checked e ps' _ H3 H4 Hlim), H3. cbn [ptr_of deref].
  rewrite !mem_ip_add, Hload. done.
Qed.
End refine.

(** ** Whole instructions *)

Section instruction.
Context (e : env) (m : machine) (code : Z -> Z) (junk : parser_state).
Hypothesis (He : env_ok e) (Hr : regs_ok (regs m)) (Hm : mem_ok (mem m))
  (Hcode : forall i, is_u8 (code i)) (Hf : fetchable e m code).

(** Fetching succeeds, so the outcome is that of the body with interrupts off. *)
Lemma emu_instruction_body :
  exists ps,
    insts ps = le32 (code 0) (code 1) (code 2) (code 3) /\
    insts2 ps = le32 (code 4) (code 5) (code 6) (code 7) /\
    parse_emu_instruction e junk m =
    ('(ret, m', ps') ← emu_body e (with_irq m false) ps;
     Ret (ret, with_irq (if ret <? 0 then with_regs m' (set_ip (regs m') (orig_ip ps')) else m')
                        (irq_on m))).
Proof.
  unfold parse_emu_instruction.
  pose proof (fetch_word e m code He Hr Hf 0) as F0.
  pose proof (fetch_word e m code He Hr Hf 4) as F4.
  rewrite Z.add_0_r, u32_id in F0 by apply Hr. rewrite F0, F4 by auto. zcalc.
  change (0 =? - EFAULT) with false. cbv iota.
  eexists; split_and!; [| |reflexivity]; by destruct junk.
Qed.

Lemma emu_instruction_emulates i len r' u' :
  emu_decode code (regs m) = Some (i, len) ->
  operand_in_limit e (instr_operand i) -> exec i (regs m) (mem m) = Some (r', u') ->
  exists m', parse_emu_instruction e junk m = Ret (1, m') /\
    mem m' = u' /\ irq_on m' = irq_on m /\
    regs_agree i (regs m') (set_ip r' (u32 (ip (regs m) + len))).
Proof.
  intros Hdec Hlim Hx. destruct emu_instruction_body as (ps & Hi & Hi2 & ->).
  destruct (body_emulates e (with_irq m false) code Hr Hm Hcode ps i len r' u')
    as (m' & ps' & H1 & H2 & H3 & H4); try done.
  rewrite H1. cbn [mbind outcome_bind]. zcalc.
  eexists; split_and!; [done|done|done|]. exact H4.
Qed.

Lemma emu_instruction_rejects :
  emu_decode code (regs m) = None ->
  exists err, parse_emu_instruction e junk m = Ret (err, m) /\ err < 0.
Proof.
  intros Hdec. destruct emu_instruction_body as (ps & Hi & Hi2 & Hb).
  destruct (body_rejects e (with_irq m false) code He Hcode ps) as (ret & m' & ps' & H1 & H2); try done.
  rewrite H1 in Hb. cbn [mbind outcome_bind] in Hb. exists ret. split; [|done].
  rewrite Hb. do 2 f_equal. by apply emu_failure_unchanged in Hb.
Qed.

Lemma emu_instruction_oops a s len :
  emu_decode code (regs m) = Some (Cmpxchg (OMem a) s, len) ->
  range_ok (addr_limit e) a 4 = true -> load32 (mem m) a = None ->
  parse_emu_instruction e junk m = Oops.
Proof.
  intros Hdec Hlim Hload. destruct emu_instruction_body as (ps & Hi & Hi2 & ->).
  by rewrite (body_cmpxchg_oops e (with_irq m false) code Hcode ps a s len).
Qed.
End instruction.

(** ** The result code is 1 or an error *)

Lemma emu_result_code e junk m ret m' :
  parse_emu_instruction e junk m = Ret (ret, m') -> ret = 1 \/ ret < 0.
Proof.
  unfold parse_emu_instruction.
  destruct (get_user e m _) as [e1 w1]. destruct (e1 =? _); [intros [= <- _]; by right|].
  destruct (get_user e m _) as [e2 w2]. destruct (e2 =? _); [intros [= <- _]; by right|].
  set (m0 := with_irq m false). set (ps0 := set_insts2 _ _).
  destruct (emu_body e m0 ps0) as [[[r1 m1] ps1]|] eqn:E; cbn [mbind outcome_bind]; [|done].
  intros [= <- _]. clear m'.
  revert E. unfold emu_body, emu_opcode, parse_emu_cmpxchg, parse_emu_xadd, parse_emu_bswap.
  unfold mbind, outcome_bind.
  repeat match goal with
  | |- Ret _ = Ret _ -> _ => intros [= <- _ _]; first [by left | by right]
  | |- Oops = _ -> _ => done
  | |- (match ?x with _ => _ end) = _ -> _ => destruct x
  end.
Qed.

(** ** Well-formedness *)

Definition machine_ok (m : machine) : Prop := regs_ok (regs m) /\ mem_ok (mem m).

Lemma machine_ok_ip_add m n : machine_ok m -> machine_ok (ip_add m n).
Proof. intros [? ?]. split; [by apply regs_ok_ip_add|done]. Qed.

Lemma only_ip_ok m m' : only_ip m m' -> is_u32 (ip (regs m')) -> machine_ok m -> machine_ok m'.
Proof.
  intros (Hm & _ & Hr) Hip ((Hg & Hi & Hf) & Hmem). split; [|by rewrite Hm].
  split; [|split; [done|]].
  - intros g. rewrite <- (get_gpr_set_ip _ 0), Hr, get_gpr_set_ip. apply Hg.
  - rewrite <- (flags_set_ip _ 0), Hr, flags_set_ip. done.
Qed.

Lemma deref_u32 m p v : machine_ok m -> deref m p = Ret v -> is_u32 v.
Proof.
  intros [Hr Hm]. destruct p; cbn; [intros [= <-]; apply Hr|].
  destruct (load32 _ _) eqn:E; [|done]. intros [= <-]. by eapply load32_range.
Qed.

Lemma byte_of_u8 v k : is_u8 (byte_of v k).
Proof. apply (u8_range (v `div` 2 ^ (8 * k))). Qed.

Lemma assign_ok m p v m' : machine_ok m -> is_u32 v -> assign m p v = Ret m' -> machine_ok m'.
Proof.
  intros [Hr Hm] Hv. destruct p; cbn.
  - intros [= <-]. split; [by apply regs_ok_set_gpr|done].
  - destruct (store32 _ _ _) eqn:E; [|done]. intros [= <-]. split; [done|].
    unfold store32 in E. destruct (load32 _ _); [|done]. injection E as <-.
    intros k b. cbn. rewrite !lookup_insert.
    repeat case_decide; try (intros [= <-]; apply byte_of_u8). apply Hm.
Qed.

Create HintDb emu_ok discriminated.
#[export] Hint Resolve machine_ok_ip_add : emu_ok.

Lemma machine_ok_flags m f : machine_ok m -> is_u32 f -> machine_ok (with_regs m (set_flags (regs m) f)).
Proof.
  intros ((Hg & Hi & Hf) & Hm) Hfl. split; [|done]. cbn. split; [|split].
  - intros g. rewrite get_gpr_set_flags. apply Hg.
  - by rewrite ip_set_flags.
  - by rewrite flags_set_flags.
Qed.

Lemma machine_ok_gpr m g v : machine_ok m -> is_u32 v -> machine_ok (with_regs m (set_gpr (regs m) g v)).
Proof. intros [Hr Hm] Hv. split; [by apply regs_ok_set_gpr|done]. Qed.

Lemma parse_modrm_keeps_ok m ps ret m' ps' :
  machine_ok m -> parse_modrm_register m ps = Ret (ret, m', ps') -> machine_ok m'.
Proof.
  intros Hm. unfold parse_modrm_register, parse_mod, take_disp32, mbind, outcome_bind.
  repeat match goal with
  | |- Ret _ = Ret _ -> _ => intros [= _ <- _]; by auto with emu_ok
  | |- Oops = _ -> _ => done
  | |- (match ?x with _ => _ end) = _ -> _ =>
      lazymatch x with
      | context [if ?b then (ip_add _ _, _) else _] => destruct b
      | _ => destruct x
      end
  end.
Qed.

Lemma u32_flag_word f e a b :
  is_u32 f ->
  is_u32 (Z.lor (clear_bits f status_mask) (Z.land (asm_addl_flags e a b).2 status_mask)).
Proof.
  intros Hf. apply lor_u32; [by apply ldiff_u32|]. by apply land_u32_r.
Qed.

Lemma cmpxchg_keeps_ok e m ps ret m' ps' :
  machine_ok m -> parse_emu_cmpxchg e m ps = Ret (ret, m', ps') -> machine_ok m'.
Proof.
  intros Hm. unfold parse_emu_cmpxchg.
  destruct (parse_modrm_register m ps) as [[[r1 m1] ps1]|] eqn:E; cbn [mbind outcome_bind]; [|done].
  apply parse_modrm_keeps_ok in E as H1; [|done].
  destruct (r1 <? 0); [by intros [= _ <- _]|]. destruct (_ && _); [by intros [= _ <- _]|].
  destruct (deref m1 _) as [v|] eqn:Ev; cbn [mbind outcome_bind]; [|done].
  destruct (_ =? v).
  - assert (H2 : machine_ok (with_regs m1 (set_flags (regs m1) (Z.lor (flags (regs m1)) X86_EFLAGS_ZF))))
      by (apply machine_ok_flags; [done|]; apply lor_u32; [apply H1|done]).
    destruct (deref _ (inst_src ps1)) as [s|] eqn:Es; cbn [mbind outcome_bind]; [|done].
    destruct (assign _ _ s) as [m2|] eqn:Ea; cbn [mbind outcome_bind]; [|done].
    intros [= _ <- _]. eapply assign_ok; [exact H2| |exact Ea]. by eapply deref_u32.
  - rewrite deref_set_flags, Ev. cbn [mbind outcome_bind]. intros [= _ <- _].
    apply machine_ok_gpr; [|by eapply deref_u32].
    apply machine_ok_flags; [done|]. apply ldiff_u32, H1.
Qed.

Lemma xadd_keeps_ok e m ps ret m' ps' :
  machine_ok m -> parse_emu_xadd e m ps = Ret (ret, m', ps') -> machine_ok m'.
Proof.
  intros Hm. unfold parse_emu_xadd.
  destruct (parse_modrm_register m ps) as [[[r1 m1] ps1]|] eqn:E; cbn [mbind outcome_bind]; [|done].
  apply parse_modrm_keeps_ok in E as H1; [|done].
  destruct (r1 <? 0); [by intros [= _ <- _]|]. destruct (_ && _); [by intros [= _ <- _]|].
  destruct (if regs_only ps1 =? 0 then _ else _) as [d|]; cbn [mbind outcome_bind]; [|done].
  destruct (deref m1 (inst_src ps1)) as [s|]; cbn [mbind outcome_bind]; [|done].
  destruct (asm_addl_flags e d s) as [rd fl] eqn:Easm.
  assert (Hrd : is_u32 rd) by (injection Easm as <- _; apply u32_range).
  set (m2 := with_regs (with_regs m1 _) _).
  assert (H2 : machine_ok m2).
  { subst m2. apply machine_ok_flags; [apply machine_ok_flags; [done|apply ldiff_u32, H1]|].
    cbn. rewrite flags_set_flags. apply lor_u32; [apply ldiff_u32, H1|by apply land_u32_r]. }
  destruct (deref m2 _) as [old|] eqn:Eo; cbn [mbind outcome_bind]; [|done].
  destruct (assign m2 _ old) as [m3|] eqn:Ea; cbn [mbind outcome_bind]; [|done].
  assert (H3 : machine_ok m3) by (eapply assign_ok; [exact H2| |exact Ea]; by eapply deref_u32).
  destruct (regs_only ps1 =? 0).
  - intros [= _ <- _]. unfold put_user. destruct (access_ok _ _); [|done].
    destruct (assign m3 _ rd) eqn:Eb; [|done]. by eapply assign_ok.
  - destruct (assign m3 _ rd) as [m4|] eqn:Eb; cbn [mbind outcome_bind]; [|done].
    intros [= _ <- _]. by eapply assign_ok.
Qed.

Lemma bswap_keeps_ok m ps ret m' ps' :
  machine_ok m -> parse_emu_bswap m ps = Ret (ret, m', ps') -> machine_ok m'.
Proof.
  intros Hm. unfold parse_emu_bswap. destruct (_ =? 1); [by intros [= _ <- _]|].
  destruct (parse_reg _ _) as [r d]. destruct (r <? 0); [by intros [= _ <- _]|].
  destruct (deref _ _) as [v|] eqn:Ev; cbn [mbind outcome_bind]; [|done].
  destruct (assign _ _ _) as [m1|] eqn:Ea; cbn [mbind outcome_bind]; [|done].
  intros [= _ <- _]. eapply assign_ok; [|  |exact Ea]; [auto with emu_ok|].
  apply deref_u32 in Ev; [|auto with emu_ok]. rewrite swab32_bytes by done.
  apply le32_range; apply byte_of_u8.
Qed.

Lemma instruction_keeps_ok e junk m ret m' :
  machine_ok m -> parse_emu_instruction e junk m = Ret (ret, m') -> machine_ok m'.
Proof.
  intros Hm H. destruct (emu_result_code _ _ _ _ _ H) as [->|Hneg];
    [|by rewrite (emu_failure_unchanged _ _ _ _ _ H Hneg)].
  revert H. unfold parse_emu_instruction.
  destruct (get_user e m _) as [e1 w1]. destruct (e1 =? _); [done|].
  destruct (get_user e m _) as [e2 w2]. destruct (e2 =? _); [done|].
  set (m0 := with_irq m false). set (ps0 := set_insts2 _ _).
  assert (Hm0 : machine_ok m0) by exact Hm. clearbody m0 ps0.
  destruct (emu_body e m0 ps0) as [[[r1 m1] ps1]|] eqn:E; cbn [mbind outcome_bind]; [|done].
  intros [= -> <-]. zcalc. enough (machine_ok m1) as [? ?] by done.
  revert E. unfold emu_body, emu_opcode.
  destruct (insts ps0 =? _); [intros [= <- _]; auto with emu_ok|].
  destruct (_ =? 240); destruct (negb _); try done;
    destruct (_ =? 177); [|destruct (_ =? 193); [|destruct (_ || _); [|done]]|
                         |destruct (_ =? 193); [|destruct (_ || _); [|done]]];
    eauto 6 using cmpxchg_keeps_ok, xadd_keeps_ok, bswap_keeps_ok, machine_ok_ip_add.
Qed.
