(* ===== verification/EmuTheorems.v ===== *)
(** * What the instruction emulator guarantees

    The statements about [parse_emu_instruction] and [do_invalid_op]: refinement of
    the 486 semantics on the supported forms, rollback, the exact set of accepted
    instructions, and the forms on which it departs from the architecture. *)

From S2P Require Import Prelude X86 X86Spec I486Emu I486EmuProofs.
From Stdlib Require Import ZArith Lia Bool.
From stdpp Require Import base numbers list gmap.
Open Scope Z_scope.

(** ** The supported instructions *)

(** [cmpxchg] and [xadd] with: a register destination and no [lock]; an absolute
    address; a base register other than [esp] with a 32-bit or a non-negative 8-bit
    displacement. *)
Definition modrm_supported (code : Z -> Z) (p : Z) : bool :=
  let b := code (p + 2) in
  let md := b `div` 64 in
  let rm := b `mod` 8 in
  if md =? 3 then p =? 0
  else negb (rm =? 4) &&
       ((md =? 2) || ((md =? 1) && (code (p + 3) <? 128)) || ((md =? 0) && (rm =? 5))).

(** With [endbr32], and [bswap] of every register but [esp] and [ebp]. *)
Definition supported (code : Z -> Z) : bool :=
  is_endbr32 code ||
  let p := prefix_len code in
  (code p =? 0x0f) &&
  let op := code (p + 1) in
  (((op =? 0xb1) || (op =? 0xc1)) && modrm_supported code p ||
   (p =? 0) && (0xc8 <=? op) && (op <=? 0xcf) && negb (op =? 0xcc) && negb (op =? 0xcd)).

Section decode.
Context (code : Z -> Z) (Hcode : forall i, is_u8 (code i)) (r : pt_regs).

Lemma supported_operand p :
  p = prefix_len code -> modrm_supported code p = true ->
  modrm_accepted code (p + 2) = true /\
  emu_operand code r (p + 2) = modrm_operand code r (p + 2) /\
  match (modrm_operand code r (p + 2)).1 with OReg _ => code 0 =? 0xf0 | OMem _ => false end = false.
Proof.
  intros Hp. unfold modrm_supported, modrm_accepted, emu_operand, modrm_operand.
  pose proof (Hcode (p + 2)) as B. pose proof (Hcode (p + 3)) as B3. unfold is_u8 in B, B3.
  replace (p + 2 + 1) with (p + 3) by lia.
  assert (Hmd : 0 <= code (p + 2) `div` 64 < 4) by zlia.
  remember (code (p + 2) `div` 64) as md eqn:Emd. clear Emd.
  destruct (Z.eqb_spec md 3) as [->|Hn3].
  { intros Hp0. apply Z.eqb_eq in Hp0. split_and!; [done..|]. cbn.
    rewrite Hp0 in Hp. unfold prefix_len in Hp. by destruct (code 0 =? 240). }
  cbn [orb]. destruct (Z.eqb_spec (code (p + 2) `mod` 8) 4); [done|]. cbn [negb andb].
  small_cases md 3; zcalc; cbn [andb orb negb]; intros Hs; [rewrite Hs| |]; (split; [done|split; [|done]]).
  - do 2 f_equal. rewrite Z.add_0_l. replace (p + 2 + 1) with (p + 3) by lia.
    symmetry. apply u32_id, le32_range; apply Hcode.
  - rewrite orb_false_r in Hs. replace (p + 2 + 1) with (p + 3) by lia.
    unfold s8. rewrite u8_id by done. by rewrite Hs.
  - by replace (p + 2 + 1) with (p + 3) by lia.
Qed.

Lemma supported_decode : supported code = true -> emu_decode code r = decode_instr code r.
Proof.
  unfold supported, emu_decode, decode_instr. fold (is_endbr32 code). fold (prefix_len code).
  destruct (is_endbr32 code); [done|]. cbn [orb].
  remember (prefix_len code) as p eqn:Hp. destruct (code p =? 15); [|done]. cbn [andb negb].
  intros Hs. pose proof (supported_operand p Hp) as Hop.
  destruct (emu_operand code r (p + 2)) as [d n].
  destruct (Z.eqb_spec (code (p + 1)) 177) as [E|E];
    [|destruct (Z.eqb_spec (code (p + 1)) 193) as [E'|E']].
  - rewrite E in Hs. zcalc_in Hs. cbn [orb andb] in Hs. rewrite andb_false_r, orb_false_r in Hs.
    destruct (Hop Hs) as (-> & <- & Hl). cbn in Hl. by rewrite Hl.
  - rewrite E' in Hs. zcalc_in Hs. cbn [orb andb] in Hs. rewrite andb_false_r, orb_false_r in Hs.
    destruct (Hop Hs) as (-> & <- & Hl). cbn in Hl. by rewrite Hl.
  - cbn [orb andb] in Hs. rewrite Hs. rewrite !andb_true_iff in Hs.
    destruct Hs as ((((Hp0 & ->) & ->) & _) & _). cbn [andb]. apply Z.eqb_eq in Hp0.
    rewrite Hp0 in Hp. unfold prefix_len in Hp. destruct (code 0 =? 240); [done|].
    by rewrite Hp0.
Qed.
End decode.

(** ** A concrete machine for the witnesses *)

Definition bytes_code (l : list Z) (i : Z) : Z := default 0 (l !! Z.to_nat i).

Definition map_at (a : Z) (l : list Z) : gmap Z Z :=
  list_to_map (imap (fun k b => (a + Z.of_nat k, b)) l).

Lemma bytes_code_u8 l i : Forall is_u8 l -> is_u8 (bytes_code l i).
Proof.
  intros H. unfold bytes_code. destruct (l !! Z.to_nat i) eqn:E; cbn; [|unfold is_u8; lia].
  by eapply Forall_lookup_1 in H.
Qed.

Lemma map_at_ok a l : Forall is_u8 l -> mem_ok (map_at a l).
Proof.
  unfold mem_ok, map_at. intros H k b Hk.
  apply elem_of_list_to_map_2, list_elem_of_lookup in Hk as [j Hj].
  rewrite list_lookup_imap in Hj. destruct (l !! j) eqn:E; cbn in Hj; [|done].
  injection Hj as _ <-. by eapply Forall_lookup_1 in H.
Qed.

Definition demo_env : env := mkEnv 0xc1234f00 0xc0000000 0x246.
Definition demo_regs (pc : Z) : pt_regs :=
  mkRegs 0x11 0x08000100 7 0x33 0x44 0x55 3 0x7b 0x7b 0 0 0 pc 0x73 0x202 0xbffff000 0x7b.
Definition demo_junk : parser_state := mkPs (PAddr 5) (PAddr 6) 9 9 9 9 9.

(** Code at 0x8000000, the data word 3 at 0x80cd224 and at 0x8000180. *)
Definition demo_machine (l : list Z) : machine :=
  mkMachine (demo_regs 0x8000000)
    (map_at 0x8000000 l ∪ (map_at 0x80cd224 [3;0;0;0] ∪ map_at 0x8000180 [3;0;0;0])) true.

Ltac demo_fetch :=
  split; [vm_compute; discriminate|];
  let i := fresh in let Hi := fresh in
  intros i Hi; small_cases i 8; vm_compute; reflexivity.

Lemma demo_env_ok : env_ok demo_env.
Proof. unfold env_ok, demo_env. cbn [addr_limit regs_base]. lia. Qed.

Lemma demo_machine_ok l : Forall is_u8 l -> machine_ok (demo_machine l).
Proof.
  intros Hl. split; [split; [intros []; done|split; done]|].
  assert (Hd : Forall is_u8 [3;0;0;0]) by (repeat constructor; done).
  intros k b. unfold demo_machine. cbn [mem]. rewrite !lookup_union_Some_raw.
  intros [H|[_ [H|[_ H]]]]; revert H; by apply map_at_ok.
Qed.

(** The side conditions shared by the witnesses. *)
Ltac demo_conditions :=
  first [ exact demo_env_ok
        | apply demo_machine_ok; repeat constructor; done
        | intros ?; apply bytes_code_u8; repeat constructor; done
        | demo_fetch
        | vm_compute; reflexivity ].

(** ** Claims *)

(** C2: On every supported instruction whose bytes can be fetched and whose operand
    lies below the user limit, the emulator succeeds and leaves the memory and the
    registers that a 486 would leave, with [ip] after the instruction and the
    interrupt flag as it was; of the status flags [cmpxchg] updates only ZF. *)
Theorem emu_refines_isa (e : env) (junk : parser_state) (m : machine) (code : Z -> Z)
    (i : instr) (len : Z) (r' : pt_regs) (u' : gmap Z Z) :
  env_ok e -> machine_ok m -> (forall k, is_u8 (code k)) -> fetchable e m code ->
  supported code = true ->
  decode_instr code (regs m) = Some (i, len) ->
  operand_in_limit e (instr_operand i) ->
  exec i (regs m) (mem m) = Some (r', u') ->
  exists m', parse_emu_instruction e junk m = Ret (1, m') /\
    mem m' = u' /\ irq_on m' = irq_on m /\
    regs_agree i (regs m') (set_ip r' (u32 (ip (regs m) + len))).
Proof.
  intros He [Hr Hm] Hcode Hf Hs Hdec Hlim Hx.
  rewrite <- supported_decode in Hdec by done.
  by eapply emu_instruction_emulates.
Qed.

(** The example of the source's comment, [lock cmpxchg ds:0x80cd224, edx]. *)
Definition demo_cmpxchg : list Z := [0xf0;0x0f;0xb1;0x15;0x24;0xd2;0x0c;0x08].

Lemma demo_cmpxchg_exec :
  is_Some (exec (Cmpxchg (OMem 0x80cd224) DX) (regs (demo_machine demo_cmpxchg))
             (mem (demo_machine demo_cmpxchg))).
Proof. vm_compute. eexists. reflexivity. Qed.

Lemma emu_refines_isa_witness :
  exists m', parse_emu_instruction demo_env demo_junk (demo_machine demo_cmpxchg) = Ret (1, m') /\
    irq_on m' = true.
Proof.
  destruct demo_cmpxchg_exec as [[r' u'] Hx].
  destruct (emu_refines_isa demo_env demo_junk (demo_machine demo_cmpxchg)
    (bytes_code demo_cmpxchg) (Cmpxchg (OMem 0x80cd224) DX) 8 r' u') as (m' & H1 & _ & H3 & _);
    [demo_conditions..|exact Hx|exists m'; split; [exact H1|exact H3]].
Defined.

(** C24: When emulation fails, registers, memory and interrupt flag are exactly what
    they were at the trap: nothing is written before the failure and [ip] is rolled
    back. *)
Theorem emu_failure_rolls_back (e : env) (junk : parser_state) (m m' : machine) (ret : Z) :
  parse_emu_instruction e junk m = Ret (ret, m') -> ret < 0 -> m' = m.
Proof. apply emu_failure_unchanged. Qed.

(** [lock cmpxchg esp-based operand] (SIB byte). *)
Definition demo_sib : list Z := [0xf0;0x0f;0xb1;0x14;0x24;0x90;0x90;0x90].

Lemma emu_failure_rolls_back_witness :
  parse_emu_instruction demo_env demo_junk (demo_machine demo_sib) =
  Ret (- EOPNOTSUPP, demo_machine demo_sib).
Proof.
  destruct (parse_emu_instruction demo_env demo_junk (demo_machine demo_sib)) as [[r m']|] eqn:E;
    [|vm_compute in E; discriminate].
  assert (Hr : r = - EOPNOTSUPP) by (vm_compute in E; by injection E as <- _).
  rewrite (emu_failure_rolls_back _ _ _ _ _ E) by (rewrite Hr; reflexivity).
  by rewrite Hr.
Defined.

(** C40: The accepted language is exactly [emu_decode]: bytes outside it are refused
    with an error and an unchanged machine, never with a kernel fault. *)
Theorem emu_rejects_other_code (e : env) (junk : parser_state) (m : machine) (code : Z -> Z) :
  env_ok e -> machine_ok m -> (forall k, is_u8 (code k)) -> fetchable e m code ->
  emu_decode code (regs m) = None ->
  exists err, parse_emu_instruction e junk m = Ret (err, m) /\ err < 0.
Proof. intros He [Hr Hm] Hcode Hf Hd. by eapply emu_instruction_rejects. Qed.

(** [cpuid] is not emulated. *)
Definition demo_cpuid : list Z := [0x0f;0xa2;0x90;0x90;0x90;0x90;0x90;0x90].

Lemma emu_rejects_other_code_witness :
  exists err, parse_emu_instruction demo_env demo_junk (demo_machine demo_cpuid) =
    Ret (err, demo_machine demo_cpuid) /\ err < 0.
Proof.
  apply (emu_rejects_other_code _ _ _ (bytes_code demo_cpuid)).
  all: demo_conditions.
Defined.

(** The invalid-opcode handler is precise: if the task gets [SIGILL], the signal
    names the trapping instruction and the saved registers and memory are untouched;
    otherwise the emulator reported success or a notifier stopped the trap with
    registers and memory untouched. *)
Theorem invalid_op_precise (nd : pt_regs -> bool) (e : env) (junk : parser_state)
    (m : machine) (res : trap_result) :
  do_invalid_op nd e junk m = Ret res ->
  match res with
  | Resumed m' => parse_emu_instruction e junk m = Ret (1, m')
  | Notified m' => m' = m
  | Signalled a m' => a = ip (regs m) /\ regs m' = regs m /\ mem m' = mem m
  end.
Proof.
  unfold do_invalid_op.
  destruct (parse_emu_instruction e junk m) as [[ret m1]|] eqn:E; cbn [mbind outcome_bind]; [|done].
  destruct (emu_result_code _ _ _ _ _ E) as [->|Hneg].
  - zcalc. by intros [= <-].
  - pose proof (emu_failure_unchanged _ _ _ _ _ E Hneg) as ->.
    rewrite (proj2 (Z.ltb_ge 0 ret)) by lia.
    destruct (nd (regs m)); [by intros [= <-]|].
    destruct (Z.testbit _ 9); by intros [= <-].
Qed.

Lemma invalid_op_precise_witness :
  exists m', do_invalid_op (fun _ => false) demo_env demo_junk (demo_machine demo_sib) =
      Ret (Signalled 0x8000000 m') /\ mem m' = mem (demo_machine demo_sib).
Proof.
  destruct (do_invalid_op (fun _ => false) demo_env demo_junk (demo_machine demo_sib))
    as [res|] eqn:E; [|vm_compute in E; discriminate].
  pose proof (invalid_op_precise _ _ _ _ _ E) as H.
  destruct res as [m'|m'|a m']; [vm_compute in E; discriminate..|].
  destruct H as (H1 & _ & H2). exists m'. split; [rewrite H1; reflexivity|exact H2].
Defined.

(** [cmpxchg] or [xadd] with the given addressing mode; [p] prefix bytes. *)
Definition rmw_opcode (code : Z -> Z) (p md : Z) : Prop :=
  is_endbr32 code = false /\ code p = 0x0f /\
  (code (p + 1) = 0xb1 \/ code (p + 1) = 0xc1) /\ code (p + 2) `div` 64 = md.

(** The plain register-indirect form ([cmpxchg \[ecx\], edx], mod = 0 with any base
    register but [esp] and [ebp]) is a valid instruction that the emulator always
    refuses, because it checks the address of the register's slot in the saved frame
    instead of the address held in the register. *)
Theorem emu_refuses_register_indirect (e : env) (junk : parser_state) (m : machine)
    (code : Z -> Z) :
  env_ok e -> machine_ok m -> (forall k, is_u8 (code k)) -> fetchable e m code ->
  rmw_opcode code (prefix_len code) 0 ->
  code (prefix_len code + 2) `mod` 8 <> 4 -> code (prefix_len code + 2) `mod` 8 <> 5 ->
  is_Some (decode_instr code (regs m)) /\
  exists err, parse_emu_instruction e junk m = Ret (err, m) /\ err < 0.
Proof.
  intros He [Hr Hm] Hcode Hf (Hend & Hof & Hop & Hmd) H4 H5.
  apply Z.eqb_neq in H4, H5. remember (prefix_len code) as p eqn:Hp. split.
  - unfold decode_instr. fold (is_endbr32 code). fold (prefix_len code).
    rewrite Hend, <- Hp, Hof. zcalc. cbn [negb].
    unfold modrm_operand. rewrite Hmd, H4, H5. zcalc. cbn [andb].
    destruct Hop as [-> | ->]; zcalc; by eexists.
  - eapply emu_instruction_rejects; [done..|].
    unfold emu_decode. rewrite Hend, <- Hp, Hof. zcalc. cbn [negb].
    unfold modrm_accepted. rewrite Hmd, H4, H5. zcalc. cbn [andb orb negb].
    destruct (emu_operand code (regs m) (p + 2)). destruct Hop as [-> | ->]; zcalc; done.
Qed.

(** [lock cmpxchg \[ecx\], edx], with [ecx] pointing into the code bytes themselves. *)
Definition demo_indirect : list Z := [0xf0;0x0f;0xb1;0x11;0x90;0x90;0x90;0x90].

Lemma emu_refuses_register_indirect_witness :
  exists err, parse_emu_instruction demo_env demo_junk (demo_machine demo_indirect) =
    Ret (err, demo_machine demo_indirect) /\ err < 0.
Proof.
  apply (emu_refuses_register_indirect demo_env demo_junk (demo_machine demo_indirect)
           (bytes_code demo_indirect)); try demo_conditions.
  - split_and!; [reflexivity..|left; reflexivity|reflexivity].
  - vm_compute. discriminate.
  - vm_compute. discriminate.
Defined.

Lemma disp8_off_by_256 base d : 128 <= d < 256 -> u32 (u32 (base + s8 d) + 256) = u32 (base + d).
Proof.
  intros Hd. unfold s8. rewrite u8_id by (unfold is_u8; lia).
  rewrite (proj2 (Z.ltb_ge d 128)) by lia. rewrite u32_add_l. f_equal. lia.
Qed.

(** With an 8-bit displacement of 0x80 or more (a negative one) the emulator
    works on the address 256 bytes above the one the instruction names: it performs
    the operation the architecture defines, on the operand at [a + 256]. *)
Theorem emu_negative_disp8 (e : env) (junk : parser_state) (m : machine) (code : Z -> Z)
    (a len : Z) (s : gpr) (r' : pt_regs) (u' : gmap Z Z) :
  env_ok e -> machine_ok m -> (forall k, is_u8 (code k)) -> fetchable e m code ->
  rmw_opcode code (prefix_len code) 1 ->
  code (prefix_len code + 2) `mod` 8 <> 4 -> 128 <= code (prefix_len code + 3) ->
  decode_instr code (regs m) = Some (Cmpxchg (OMem a) s, len) ->
  range_ok (addr_limit e) (u32 (a + 256)) 4 = true ->
  exec (Cmpxchg (OMem (u32 (a + 256))) s) (regs m) (mem m) = Some (r', u') ->
  exists m', parse_emu_instruction e junk m = Ret (1, m') /\ mem m' = u' /\
    regs_agree (Cmpxchg (OMem (u32 (a + 256))) s) (regs m')
      (set_ip r' (u32 (ip (regs m) + len))).
Proof.
  intros He [Hr Hm] Hcode Hf (Hend & Hof & Hop & Hmd) H4 Hd Hdec Hlim Hx.
  apply Z.eqb_neq in H4. remember (prefix_len code) as p eqn:Hp.
  assert (Hemu : emu_decode code (regs m) = Some (Cmpxchg (OMem (u32 (a + 256))) s, len)).
  { revert Hdec. unfold decode_instr, emu_decode. fold (is_endbr32 code). fold (prefix_len code).
    rewrite Hend, <- Hp, Hof. zcalc. cbn [negb].
    unfold modrm_operand, emu_operand, modrm_accepted. rewrite Hmd, H4. zcalc. cbn [andb orb negb].
    replace (p + 2 + 1) with (p + 3) by lia. pose proof (Hcode (p + 3)) as Hb. unfold is_u8 in Hb.
    destruct Hop as [-> | ->]; zcalc; intros [= <- <- <-].
    rewrite disp8_off_by_256 by lia. done. }
  edestruct (emu_instruction_emulates e m code junk He Hr Hm Hcode Hf _ _ _ _ Hemu Hlim Hx)
    as (m' & H1 & H2 & _ & H3). by exists m'.
Qed.

(** [cmpxchg \[ecx - 0x80\], edx] reads and writes at [ecx + 0x80]. *)
Definition demo_disp8 : list Z := [0x0f;0xb1;0x51;0x80;0x90;0x90;0x90;0x90].

Lemma demo_disp8_exec :
  is_Some (exec (Cmpxchg (OMem 0x8000180) DX) (regs (demo_machine demo_disp8))
             (mem (demo_machine demo_disp8))).
Proof. vm_compute. eexists. reflexivity. Qed.

Lemma emu_negative_disp8_witness :
  exists m', parse_emu_instruction demo_env demo_junk (demo_machine demo_disp8) = Ret (1, m').
Proof.
  destruct demo_disp8_exec as [[r' u'] Hx].
  destruct (emu_negative_disp8 demo_env demo_junk (demo_machine demo_disp8)
    (bytes_code demo_disp8) 0x8000080 4 DX r' u') as (m' & H1 & _);
    [try demo_conditions..|exact Hx|exists m'; exact H1].
  - split_and!; [reflexivity..|left; reflexivity|reflexivity].
  - vm_compute. discriminate.
  - vm_compute. discriminate.
Defined.

(** A [cmpxchg] of an address below the user limit that is not mapped makes the
    kernel itself fault: the operand is dereferenced without an exception-table
    entry. *)
Theorem emu_unmapped_cmpxchg_oops (e : env) (junk : parser_state) (m : machine)
    (code : Z -> Z) (a len : Z) (s : gpr) :
  env_ok e -> machine_ok m -> (forall k, is_u8 (code k)) -> fetchable e m code ->
  emu_decode code (regs m) = Some (Cmpxchg (OMem a) s, len) ->
  range_ok (addr_limit e) a 4 = true -> load32 (mem m) a = None ->
  parse_emu_instruction e junk m = Oops.
Proof. intros He [Hr Hm] Hcode Hf. by apply emu_instruction_oops. Qed.

(** [lock cmpxchg ds:0x1000, edx] with page 1 unmapped. *)
Definition demo_unmapped : list Z := [0xf0;0x0f;0xb1;0x15;0x00;0x10;0x00;0x00].

Lemma emu_unmapped_cmpxchg_oops_witness :
  parse_emu_instruction demo_env demo_junk (demo_machine demo_unmapped) = Oops.
Proof.
  apply (emu_unmapped_cmpxchg_oops _ _ _ (bytes_code demo_unmapped) 0x1000 8 DX);
    demo_conditions.
Defined.

(** [cmpxchg] leaves CF, PF, AF, SF and OF stale: here the accumulator 3 is below
    the operand 9, the architecture sets CF, and the emulated instruction does not. *)
Theorem emu_cmpxchg_stale_carry :
  let m := mkMachine (demo_regs 0x8000000) (map_at 0x8000000 [0x0f;0xb1;0xd3;0x90;0x90;0x90;0x90;0x90])
             true in
  let m := with_regs m (set_gpr (regs m) BX 9) in
  let code := bytes_code [0x0f;0xb1;0xd3;0x90;0x90;0x90;0x90;0x90] in
  exists m' r' u',
    parse_emu_instruction demo_env demo_junk m = Ret (1, m') /\
    isa_step code (regs m) (mem m) = Some (r', u') /\
    Z.testbit (flags (regs m')) 0 = false /\ Z.testbit (flags r') 0 = true.
Proof. do 3 eexists. split_and!; vm_compute; reflexivity. Qed.
