(* ===== verification/Msdos.v ===== *)
(** * DOS partition tables

    A model of block/partitions/msdos.c with the helpers of block/partitions/check.h
    and the driver [check_partition] of block/partitions/check.c.

    [sector_t] is a 32-bit [unsigned long] ([CONFIG_LBDAF] is off in the shipped
    configuration), so sector arithmetic wraps.  The disk is a parameter: its
    capacity, its logical block size and the contents of each 512-byte sector, or
    none where the read fails.  The state keeps, besides the fields of [struct
    parsed_partitions], a count of the page references held by [Sector] objects and
    a flag that records a store outside the array [parts]. *)

From S2P Require Import Prelude.
From Stdlib Require Import ZArith Lia Bool.
From stdpp Require Import base numbers list strings pretty.
Open Scope Z_scope.

(** ** State *)

Definition DISK_MAX_PARTS : Z := 256.
Definition PAGE_SIZE : nat := Z.to_nat 4096.
Definition newline : string := String (Ascii.ascii_of_nat 10) EmptyString.
Definition ADDPART_FLAG_RAID : Z := 1.

Record part := mkPart { from : Z; size : Z; pflags : Z }.
Definition no_part : part := mkPart 0 0 0.

(** The build options that compile the sub-partition parsers in. *)
Record config := mkConfig {
  SOLARIS_X86_PARTITION_ON : bool; BSD_DISKLABEL : bool; UNIXWARE_DISKLABEL : bool;
  MINIX_SUBPARTITION : bool; EFI_PARTITION : bool
}.

(** The options of the repository's kernel .config. *)
Definition gray386_config : config := mkConfig false false false false false.

Record disk := mkDisk {
  capacity : Z;                       (* get_capacity(bd_disk) *)
  logical_block_size : Z;             (* bdev_logical_block_size(bdev) *)
  sector : Z -> option (list Z);      (* read_dev_sector *)
  cfg : config
}.

Record parsed_partitions := mkState {
  name : string;
  parts : list part;                  (* parts[DISK_MAX_PARTS] *)
  next : Z;
  limit : Z;
  access_beyond_eod : bool;
  pp_buf : string;
  held : Z;                           (* page references taken and not released *)
  oob : bool                          (* a store fell outside parts[] *)
}.

Definition with_parts (s : parsed_partitions) (v : list part) : parsed_partitions :=
  let 'mkState a _ n l e b h o := s in mkState a v n l e b h o.
Definition with_next (s : parsed_partitions) (v : Z) : parsed_partitions :=
  let 'mkState a p _ l e b h o := s in mkState a p v l e b h o.
Definition with_eod (s : parsed_partitions) (v : bool) : parsed_partitions :=
  let 'mkState a p n l _ b h o := s in mkState a p n l v b h o.
Definition with_buf (s : parsed_partitions) (v : string) : parsed_partitions :=
  let 'mkState a p n l e _ h o := s in mkState a p n l e v h o.
Definition with_held (s : parsed_partitions) (v : Z) : parsed_partitions :=
  let 'mkState a p n l e b _ o := s in mkState a p n l e b v o.
Definition with_oob (s : parsed_partitions) (v : bool) : parsed_partitions :=
  let 'mkState a p n l e b h _ := s in mkState a p n l e b h v.
Definition with_name (s : parsed_partitions) (v : string) : parsed_partitions :=
  let 'mkState _ p n l e b h o := s in mkState v p n l e b h o.

(** [strlcat(state->pp_buf, s, PAGE_SIZE)] *)
Definition strlcat (buf s : string) (count : nat) : string :=
  String.append buf (String.substring 0 (count - 1 - String.length buf) s).

Definition say (st : parsed_partitions) (s : string) : parsed_partitions :=
  with_buf st (strlcat (pp_buf st) s PAGE_SIZE).

(** A store to [parts\[n\]]. *)
Definition update_part (st : parsed_partitions) (n : Z) (f : part -> part) : parsed_partitions :=
  if (0 <=? n) && (n <? DISK_MAX_PARTS) then
    with_parts st (alter f (Z.to_nat n) (parts st))
  else with_oob st true.

(** ** check.h *)

Definition read_part_sector (d : disk) (st : parsed_partitions) (n : Z)
  : parsed_partitions * option (list Z) :=
  if capacity d <=? n then (with_eod st true, None)
  else match sector d n with
       | Some data => (with_held st (held st + 1), Some data)
       | None => (st, None)
       end.

Definition put_dev_sector (st : parsed_partitions) : parsed_partitions :=
  with_held st (held st - 1).

Definition put_partition (st : parsed_partitions) (n from_ size_ : Z) : parsed_partitions :=
  if n <? limit st then
    let st := update_part st n (fun p => mkPart from_ size_ (pflags p)) in
    say st (String.append " " (String.append (name st) (pretty n)))
  else st.

(** ** Reading on-disk structures *)

Definition byte_at (data : list Z) (i : Z) : Z := default 0 (data !! Z.to_nat i).
Definition le16_at (data : list Z) (i : Z) : Z := le16 (byte_at data i) (byte_at data (i + 1)).
Definition le32_at (data : list Z) (i : Z) : Z :=
  le32 (byte_at data i) (byte_at data (i + 1)) (byte_at data (i + 2)) (byte_at data (i + 3)).

(** A [struct partition *] is its sector and its byte offset in it. *)
Definition boot_ind (data : list Z) (p : Z) : Z := byte_at data p.
Definition SYS_IND (data : list Z) (p : Z) : Z := byte_at data (p + 4).
Definition start_sect (data : list Z) (p : Z) : Z := le32_at data (p + 8).
Definition nr_sects (data : list Z) (p : Z) : Z := le32_at data (p + 12).

(** The [slot]-th entry, from 0, of the table at 0x1be. *)
Definition entry (slot : Z) : Z := 0x1be + 16 * slot.

Definition DOS_EXTENDED_PARTITION : Z := 5.
Definition LINUX_EXTENDED_PARTITION : Z := 0x85.
Definition WIN98_EXTENDED_PARTITION : Z := 0x0f.
Definition LINUX_SWAP_PARTITION : Z := 0x82.
Definition LINUX_DATA_PARTITION : Z := 0x83.
Definition LINUX_LVM_PARTITION : Z := 0x8e.
Definition LINUX_RAID_PARTITION : Z := 0xfd.
Definition NEW_SOLARIS_X86_PARTITION : Z := 0xbf.
Definition DM6_PARTITION : Z := 0x54.
Definition EZD_PARTITION : Z := 0x55.
Definition FREEBSD_PARTITION : Z := 0xa5.
Definition OPENBSD_PARTITION : Z := 0xa6.
Definition NETBSD_PARTITION : Z := 0xa9.
Definition MINIX_PARTITION : Z := 0x81.
Definition UNIXWARE_PARTITION : Z := 0x63.
Definition EFI_PMBR_OSTYPE_EFI_GPT : Z := 0xEE.

Definition is_extended_partition (data : list Z) (p : Z) : bool :=
  (SYS_IND data p =? DOS_EXTENDED_PARTITION) ||
  (SYS_IND data p =? WIN98_EXTENDED_PARTITION) ||
  (SYS_IND data p =? LINUX_EXTENDED_PARTITION).

Definition msdos_magic_present (data : list Z) (i : Z) : bool :=
  (byte_at data i =? 0x55) && (byte_at data (i + 1) =? 0xAA).

(** The entries that make [aix_magic_present] trust the table. *)
Definition linux_entry (data : list Z) (p : Z) : bool :=
  (SYS_IND data p =? LINUX_SWAP_PARTITION) || (SYS_IND data p =? LINUX_RAID_PARTITION) ||
  (SYS_IND data p =? LINUX_DATA_PARTITION) || (SYS_IND data p =? LINUX_LVM_PARTITION) ||
  is_extended_partition data p.

Definition aix_magic_present (d : disk) (st : parsed_partitions) (p : list Z)
  : parsed_partitions * bool :=
  if negb ((byte_at p 0 =? 0xC9) && (byte_at p 1 =? 0xC2) &&
           (byte_at p 2 =? 0xD4) && (byte_at p 3 =? 0xC1)) then (st, false)
  else if existsb (fun slot => linux_entry p (entry slot)) [0; 1; 2; 3] then (st, false)
  else
    match read_part_sector d st 7 with
    | (st, None) => (st, false)
    | (st, Some b) =>
        (put_dev_sector st,
         (byte_at b 0 =? 0x5f) && (byte_at b 1 =? 0x4c) && (byte_at b 2 =? 0x56) &&
         (byte_at b 3 =? 0x4d))
    end.

(** ** Extended partitions *)

Definition sector_size (d : disk) : Z := logical_block_size d `div` 512.

(** The first inner loop, over the data partitions of one table: the state, the loop
    counter, and whether the array is full ([goto done]). *)
Fixpoint ext_data (d : disk) (data : list Z) (this_sector this_size first_sector first_size : Z)
  (idx : list Z) (st : parsed_partitions) (loopct : Z) : parsed_partitions * Z * bool :=
  match idx with
  | [] => (st, loopct, false)
  | i :: rest =>
      let p := entry i in
      let continue := ext_data d data this_sector this_size first_sector first_size rest in
      if (nr_sects data p =? 0) || is_extended_partition data p then continue st loopct
      else
        let offs := u32 (start_sect data p * sector_size d) in
        let sz := u32 (nr_sects data p * sector_size d) in
        let nxt := u32 (this_sector + offs) in
        if (2 <=? i) && ((this_size <? u32 (offs + sz)) || (nxt <? first_sector) ||
                         (u32 (first_sector + first_size) <? u32 (nxt + sz))) then
          continue st loopct
        else
          let st := put_partition st (next st) nxt sz in
          let st := if SYS_IND data p =? LINUX_RAID_PARTITION then
                      update_part st (next st) (fun q => mkPart (from q) (size q) ADDPART_FLAG_RAID)
                    else st in
          let st := with_next st (next st + 1) in
          if next st =? limit st then (st, 0, true) else continue st 0
  end.

(** The second inner loop: the first entry that links to a further table. *)
Definition ext_link (data : list Z) : option Z :=
  find (fun i => negb (nr_sects data (entry i) =? 0) && is_extended_partition data (entry i))
    [0; 1; 2; 3].

(** The outer loop; [None] when [fuel] runs out. *)
Fixpoint parse_extended_loop (fuel : nat) (d : disk) (first_sector first_size : Z)
  (st : parsed_partitions) (loopct this_sector this_size : Z) : option parsed_partitions :=
  match fuel with
  | O => None
  | S fuel =>
      let loopct := loopct + 1 in
      if 100 <? loopct then Some st
      else if next st =? limit st then Some st
      else
        match read_part_sector d st this_sector with
        | (st, None) => Some st
        | (st, Some data) =>
            if negb (msdos_magic_present data 510) then Some (put_dev_sector st)
            else
              let '(st, loopct, full) :=
                ext_data d data this_sector this_size first_sector first_size [0; 1; 2; 3]
                  st loopct in
              if full then Some (put_dev_sector st)
              else
                match ext_link data with
                | None => Some (put_dev_sector st)
                | Some i =>
                    parse_extended_loop fuel d first_sector first_size (put_dev_sector st) loopct
                      (u32 (first_sector + start_sect data (entry i) * sector_size d))
                      (u32 (nr_sects data (entry i) * sector_size d))
                end
        end
  end.

(** At most 100 tables without a data partition, and every data partition takes a
    slot of the array. *)
Definition ext_fuel (st : parsed_partitions) : nat :=
  Z.to_nat (101 * (limit st - next st + 1)).

Definition parse_extended (d : disk) (st : parsed_partitions) (first_sector first_size : Z)
  : option parsed_partitions :=
  parse_extended_loop (ext_fuel st) d first_sector first_size st 0 first_sector first_size.

(** ** Sub-partitions of foreign systems *)

Definition SOLARIS_X86_VTOC_SANE : Z := 0x600DDEEE.
Definition SOLARIS_X86_NUMSLICE : Z := 16.
Definition BSD_DISKMAGIC : Z := 0x82564557.
Definition BSD_MAXPARTITIONS : Z := 16.
Definition OPENBSD_MAXPARTITIONS : Z := 16.
Definition BSD_FS_UNUSED : Z := 0.
Definition UNIXWARE_DISKMAGIC : Z := 0xCA5E600D.
Definition UNIXWARE_DISKMAGIC2 : Z := 0x600DDEEE.
Definition UNIXWARE_NUMSLICE : Z := 16.
Definition UNIXWARE_FS_UNUSED : Z := 0.
Definition MINIX_NR_SUBPARTITIONS : Z := 4.

(** The indices [a .. b-1] of a counting loop. *)
Definition upto (a b : Z) : list Z := seqZ a (b - a).

(** [put_partition(state, state->next++, from, size)] *)
Definition put_next (st : parsed_partitions) (from_ size_ : Z) : parsed_partitions :=
  put_partition (with_next st (next st + 1)) (next st) from_ size_.

(** Field offsets of [struct solaris_x86_vtoc]: v_sanity 12, v_version 16, v_nparts 30,
    v_slice 72, twelve bytes per slice. *)
Definition parse_solaris_x86 (d : disk) (st : parsed_partitions) (offset size_ origin : Z)
  : parsed_partitions :=
  if negb (SOLARIS_X86_PARTITION_ON (cfg d)) then st
  else
    match read_part_sector d st (u32 (offset + 1)) with
    | (st, None) => st
    | (st, Some v) =>
        if negb (le32_at v 12 =? SOLARIS_X86_VTOC_SANE) then put_dev_sector st
        else
          let st := say st (String.append " " (String.append (name st)
                              (String.append (pretty origin) ": <solaris:"))) in
          if negb (le32_at v 16 =? 1) then
            put_dev_sector (say st (String.append "  cannot handle version "
              (String.append (pretty (s32 (le32_at v 16)))
                             (String.append " vtoc>" newline))))
          else
            let max_nparts := if 8 <? le16_at v 30 then SOLARIS_X86_NUMSLICE else 8 in
            let st := fold_left (fun st i =>
              if limit st <=? next st then st
              else if le32_at v (72 + 12 * i + 8) =? 0 then st
              else
                let st := say st (String.append " [s" (String.append (pretty i) "]")) in
                put_next st (u32 (le32_at v (72 + 12 * i + 4) + offset))
                            (le32_at v (72 + 12 * i + 8))) (upto 0 max_nparts) st in
            say (put_dev_sector st) (String.append " >" newline)
    end.

(** Field offsets of [struct bsd_disklabel]: d_magic 0, d_npartitions 138, d_partitions
    148, sixteen bytes per partition (p_size 0, p_offset 4, p_fstype 12). *)
Definition parse_bsd (d : disk) (st : parsed_partitions) (offset size_ origin : Z)
  (flavour : string) (max_partitions : Z) : parsed_partitions :=
  match read_part_sector d st (u32 (offset + 1)) with
  | (st, None) => st
  | (st, Some l) =>
      if negb (le32_at l 0 =? BSD_DISKMAGIC) then put_dev_sector st
      else
        let st := say st (String.append " " (String.append (name st)
                   (String.append (pretty origin) (String.append ": <"
                     (String.append flavour ":"))))) in
        let max_partitions := if le16_at l 138 <? max_partitions then le16_at l 138
                              else max_partitions in
        let st := fold_left (fun st i =>
          let q := 148 + 16 * i in
          if next st =? limit st then st
          else if byte_at l (q + 12) =? BSD_FS_UNUSED then st
          else
            let bsd_start := le32_at l (q + 4) in
            let bsd_size := le32_at l q in
            if (offset =? bsd_start) && (size_ =? bsd_size) then st
            else if (bsd_start <? offset) ||
                    (u32 (offset + size_) <? u32 (bsd_start + bsd_size)) then
              say st (String.append "bad subpartition - ignored" newline)
            else put_next st bsd_start bsd_size) (upto 0 max_partitions) st in
        let st := put_dev_sector st in
        let st := if max_partitions <? le16_at l 138 then
                    say st (String.append " (ignored "
                      (String.append (pretty (le16_at l 138 - max_partitions)) " more)"))
                  else st in
        say st (String.append " >" newline)
  end.

Definition parse_freebsd (d : disk) (st : parsed_partitions) (offset size_ origin : Z)
  : parsed_partitions :=
  if BSD_DISKLABEL (cfg d) then parse_bsd d st offset size_ origin "bsd" BSD_MAXPARTITIONS
  else st.
Definition parse_netbsd (d : disk) (st : parsed_partitions) (offset size_ origin : Z)
  : parsed_partitions :=
  if BSD_DISKLABEL (cfg d) then parse_bsd d st offset size_ origin "netbsd" BSD_MAXPARTITIONS
  else st.
Definition parse_openbsd (d : disk) (st : parsed_partitions) (offset size_ origin : Z)
  : parsed_partitions :=
  if BSD_DISKLABEL (cfg d) then parse_bsd d st offset size_ origin "openbsd" OPENBSD_MAXPARTITIONS
  else st.

(** Field offsets of [struct unixware_disklabel]: d_magic 4, vtoc.v_magic 156,
    vtoc.v_slice 216, twelve bytes per slice (s_label 0, start_sect 4, nr_sects 8). *)
Definition parse_unixware (d : disk) (st : parsed_partitions) (offset size_ origin : Z)
  : parsed_partitions :=
  if negb (UNIXWARE_DISKLABEL (cfg d)) then st
  else
    match read_part_sector d st (u32 (offset + 29)) with
    | (st, None) => st
    | (st, Some l) =>
        if negb (le32_at l 4 =? UNIXWARE_DISKMAGIC) ||
           negb (le32_at l 156 =? UNIXWARE_DISKMAGIC2) then put_dev_sector st
        else
          let st := say st (String.append " " (String.append (name st)
                              (String.append (pretty origin) ": <unixware:"))) in
          let st := fold_left (fun st i =>
            let q := 216 + 12 * i in
            if next st =? limit st then st
            else if negb (le16_at l q =? UNIXWARE_FS_UNUSED) then
              put_next st (le32_at l (q + 4)) (le32_at l (q + 8))
            else st) (upto 1 UNIXWARE_NUMSLICE) st in
          say (put_dev_sector st) (String.append " >" newline)
    end.

Definition parse_minix (d : disk) (st : parsed_partitions) (offset size_ origin : Z)
  : parsed_partitions :=
  if negb (MINIX_SUBPARTITION (cfg d)) then st
  else
    match read_part_sector d st offset with
    | (st, None) => st
    | (st, Some data) =>
        let st :=
          if msdos_magic_present data 510 && (SYS_IND data (entry 0) =? MINIX_PARTITION) then
            let st := say st (String.append " " (String.append (name st)
                                (String.append (pretty origin) ": <minix:"))) in
            let st := fold_left (fun st i =>
              if next st =? limit st then st
              else if SYS_IND data (entry i) =? MINIX_PARTITION then
                put_next st (start_sect data (entry i)) (nr_sects data (entry i))
              else st) (upto 0 MINIX_NR_SUBPARTITIONS) st in
            say st (String.append " >" newline)
          else st in
        put_dev_sector st
    end.

(** The table of sub-partition parsers. *)
Definition subtypes : list (Z * (disk -> parsed_partitions -> Z -> Z -> Z -> parsed_partitions)) :=
  [ (FREEBSD_PARTITION, parse_freebsd);
    (NETBSD_PARTITION, parse_netbsd);
    (OPENBSD_PARTITION, parse_openbsd);
    (MINIX_PARTITION, parse_minix);
    (UNIXWARE_PARTITION, parse_unixware);
    (LINUX_SWAP_PARTITION, parse_solaris_x86);
    (NEW_SOLARIS_X86_PARTITION, parse_solaris_x86) ].

(** ** The DOS partition table *)

(** [struct fat_boot_sector]: reserved at 14, fats at 16, media at 21. *)
Definition fat_valid_media (media : Z) : bool := (0xf8 <=? media) || (media =? 0xf0).

Definition fat_boot_sector_plausible (data : list Z) : bool :=
  negb (le16_at data 14 =? 0) && negb (byte_at data 16 =? 0) && fat_valid_media (byte_at data 21).

Definition bad_boot_ind (data : list Z) (slot : Z) : bool :=
  negb (boot_ind data (entry slot) =? 0) && negb (boot_ind data (entry slot) =? 0x80).

(** First pass over the four primary entries. *)
Definition primary_entry (d : disk) (data : list Z) (st : parsed_partitions) (i : Z)
  : option parsed_partitions :=
  let p := entry i in
  let slot := i + 1 in
  let start := u32 (start_sect data p * sector_size d) in
  let sz := u32 (nr_sects data p * sector_size d) in
  if sz =? 0 then Some st
  else if is_extended_partition data p then
    let n := Z.min sz (Z.max (sector_size d) 2) in
    let st := put_partition st slot start n in
    let st := say st " <" in
    st ← parse_extended d st start sz;
    Some (say st " >")
  else
    let st := put_partition st slot start sz in
    let st := if SYS_IND data p =? LINUX_RAID_PARTITION then
                update_part st slot (fun q => mkPart (from q) (size q) ADDPART_FLAG_RAID)
              else st in
    let st := if SYS_IND data p =? DM6_PARTITION then say st "[DM]" else st in
    Some (if SYS_IND data p =? EZD_PARTITION then say st "[EZD]" else st).

Fixpoint primary_pass (d : disk) (data : list Z) (idx : list Z) (st : parsed_partitions)
  : option parsed_partitions :=
  match idx with
  | [] => Some st
  | i :: rest => st ← primary_entry d data st i; primary_pass d data rest st
  end.

(** Second pass: the systems with tables of their own. *)
Definition sub_entry (d : disk) (data : list Z) (st : parsed_partitions) (i : Z)
  : parsed_partitions :=
  let p := entry i in
  if nr_sects data p =? 0 then st
  else
    match find (fun t => SYS_IND data p =? t.1) subtypes with
    | None => st
    | Some t => t.2 d st (u32 (start_sect data p * sector_size d))
                  (u32 (nr_sects data p * sector_size d)) (i + 1)
    end.

Definition msdos_partition (d : disk) (st : parsed_partitions) : option (Z * parsed_partitions) :=
  match read_part_sector d st 0 with
  | (st, None) => Some (-1, st)
  | (st, Some data) =>
      if negb (msdos_magic_present data 510) then Some (0, put_dev_sector st)
      else
        let '(st, aix) := aix_magic_present d st data in
        if aix then Some (0, say (put_dev_sector st) " [AIX]")
        else
          match find (bad_boot_ind data) [0; 1; 2; 3] with
          | Some slot =>
              if (slot =? 0) && fat_boot_sector_plausible data then
                Some (1, put_dev_sector (say st newline))
              else Some (0, put_dev_sector st)
          | None =>
              if EFI_PARTITION (cfg d) &&
                 existsb (fun i => SYS_IND data (entry i) =? EFI_PMBR_OSTYPE_EFI_GPT) [0; 1; 2; 3]
              then Some (0, put_dev_sector st)
              else
                st ← primary_pass d data [0; 1; 2; 3] (with_next st 5);
                let st := say st newline in
                let st := fold_left (sub_entry d data) [0; 1; 2; 3] st in
                Some (1, put_dev_sector st)
          end
  end.

(** ** check_partition *)

(** The [while] loop over the parsers: the result, the recorded error and the state. *)
Fixpoint run_checks (d : disk)
  (check_part : list (disk -> parsed_partitions -> option (Z * parsed_partitions)))
  (st : parsed_partitions) (err : Z) : option (Z * Z * parsed_partitions) :=
  match check_part with
  | [] => Some (0, err, st)
  | check :: rest =>
      '(res, st) ← check d (with_parts st (replicate (Z.to_nat DISK_MAX_PARTS) no_part));
      if res <? 0 then run_checks d rest st res
      else if res =? 0 then run_checks d rest st err
      else Some (res, err, st)
  end.

(** [NULL], an [ERR_PTR] (0 is again [NULL]), or the table. *)
Inductive check_result := ErrPtr (res : Z) (st : parsed_partitions) | Parsed (st : parsed_partitions) | NoMemory.

Definition ends_in_digit (s : string) : bool :=
  match String.get (String.length s - 1) s with
  | Some c => let n := Ascii.nat_of_ascii c in Nat.leb 48 n && Nat.leb n 57
  | None => false
  end.

(** [disk_max_parts] and [warn_no_part] are arguments, as are the results of the two
    allocations. *)
Definition check_partition (kzalloc_ok page_ok warn_no_part : bool) (d : disk) (disk_name : string)
  (disk_max_parts : Z)
  (check_part : list (disk -> parsed_partitions -> option (Z * parsed_partitions)))
  : option check_result :=
  if negb kzalloc_ok || negb page_ok then Some NoMemory
  else
    let buf := String.append " " (String.append disk_name ":") in
    let nm := if ends_in_digit disk_name then "p"%string else disk_name in
    let st := mkState nm (replicate (Z.to_nat DISK_MAX_PARTS) no_part) 0 disk_max_parts
                false buf 0 false in
    '(res, err, st) ← run_checks d check_part st 0;
    if 0 <? res then Some (Parsed st)
    else
      let err := if access_beyond_eod st then - ENOSPC else err in
      let res := if negb (err =? 0) then err else res in
      Some (ErrPtr res
        (if res =? 0 then say st (String.append " unknown partition table" newline)
         else if warn_no_part then say st (String.append " unable to read partition table" newline)
         else st)).

(** The parsers that the shipped configuration compiles in. *)
Definition check_part : list (disk -> parsed_partitions -> option (Z * parsed_partitions)) :=
  [ msdos_partition ].
