(* ===== verification/MsdosProofs.v ===== *)
(** * The DOS partition parser: bounds, termination, and what it finds

    An abstract reading of a partition table (the list of entries it lists, and the
    list a chain of extended tables lists) and the proof that the parser computes
    it, terminates, stays inside the array and releases every page it reads. *)

From Stdlib Require Import ZArith Lia Bool.
From stdpp Require Import base numbers list strings pretty.
From S2P Require Import Prelude Msdos.
Open Scope Z_scope.

(** ** Frames *)

(** Between two states of a parser: slots from [next st] on were filled, nothing
    else changed, every page reference taken was released. *)
Record grows (st st' : parsed_partitions) : Prop := mkGrows {
  g_limit : limit st' = limit st;
  g_name : name st' = name st;
  g_held : held st' = held st;
  g_oob : oob st' = oob st;
  g_len : length (parts st') = length (parts st);
  g_next : next st <= next st' <= limit st;
  g_parts : forall k, 0 <= k -> k < next st \/ next st' <= k ->
    parts st' !! Z.to_nat k = parts st !! Z.to_nat k
}.

(** A state the parsers may start from. *)
Definition ready (st : parsed_partitions) : Prop :=
  0 <= next st <= limit st /\ limit st <= DISK_MAX_PARTS /\
  length (parts st) = Z.to_nat DISK_MAX_PARTS.

Lemma grows_refl st : ready st -> grows st st.
Proof. intros (H & _). split; try done. lia. Qed.

Lemma grows_trans a b c : grows a b -> grows b c -> grows a c.
Proof.
  intros [] []. split; try congruence.
  - lia.
  - intros k Hk Hr. rewrite g_parts1 by lia. apply g_parts0; lia.
Qed.

Lemma grows_ready st st' : ready st -> grows st st' -> ready st'.
Proof. intros (H & H1 & H2) []. unfold ready. rewrite g_limit0, g_len0. split_and!; lia || done. Qed.

(** Operations that touch neither the slots nor the counters. *)
Lemma say_fields st s :
  limit (say st s) = limit st /\ name (say st s) = name st /\ held (say st s) = held st /\
  oob (say st s) = oob st /\ parts (say st s) = parts st /\ next (say st s) = next st /\
  access_beyond_eod (say st s) = access_beyond_eod st.
Proof. by destruct st. Qed.

Lemma grows_say_r st st' s : grows st st' -> grows st (say st' s).
Proof.
  destruct (say_fields st' s) as (E1 & E2 & E3 & E4 & E5 & E6 & _).
  intros []. split; rewrite ?E1, ?E2, ?E3, ?E4, ?E5, ?E6; done.
Qed.
Lemma grows_say st s : ready st -> grows st (say st s).
Proof. intros H. by apply grows_say_r, grows_refl. Qed.

Create HintDb grow discriminated.
#[export] Hint Resolve grows_refl grows_say grows_say_r : grow.

(** ** One slot *)

Lemma update_part_in st n f :
  0 <= n < DISK_MAX_PARTS ->
  update_part st n f = with_parts st (alter f (Z.to_nat n) (parts st)).
Proof.
  intros Hn. unfold update_part.
  rewrite (proj2 (Z.leb_le 0 n)), (proj2 (Z.ltb_lt n DISK_MAX_PARTS)) by lia. done.
Qed.

(** What the parsers record for one accepted entry. *)
Record found := mkFound { f_start : Z; f_size : Z; f_raid : bool }.

Definition place_part (e : found) (q : part) : part :=
  mkPart (f_start e) (f_size e) (if f_raid e then ADDPART_FLAG_RAID else pflags q).

(** The slot at [next] is filled and [next] moves on. *)
Definition place (st : parsed_partitions) (e : found) : parsed_partitions :=
  let st := put_partition st (next st) (f_start e) (f_size e) in
  let st := if f_raid e then
              update_part st (next st) (fun q => mkPart (from q) (size q) ADDPART_FLAG_RAID)
            else st in
  with_next st (next st + 1).

Lemma put_partition_below st n a b :
  0 <= n < limit st -> limit st <= DISK_MAX_PARTS ->
  exists buf, put_partition st n a b =
    with_buf (with_parts st (alter (fun p => mkPart a b (pflags p)) (Z.to_nat n) (parts st))) buf.
Proof.
  intros Hn Hl. unfold put_partition. rewrite (proj2 (Z.ltb_lt n (limit st))) by lia.
  rewrite update_part_in by lia. eexists. destruct st; reflexivity.
Qed.

Lemma place_fields st e :
  ready st -> next st < limit st ->
  limit (place st e) = limit st /\ name (place st e) = name st /\ held (place st e) = held st /\
  oob (place st e) = oob st /\ next (place st e) = next st + 1 /\
  access_beyond_eod (place st e) = access_beyond_eod st /\
  parts (place st e) = alter (place_part e) (Z.to_nat (next st)) (parts st).
Proof.
  intros (H1 & H2 & H3) H4. unfold place.
  destruct (put_partition_below st (next st) (f_start e) (f_size e)) as [buf ->]; [lia|lia|].
  destruct st; cbn in *. destruct e as [a b []]; cbn.
  - rewrite update_part_in by (cbn; lia). cbn. split_and!; try done.
    by rewrite list_alter_alter_eq.
  - done.
Qed.

Lemma grows_place st e : ready st -> next st < limit st -> grows st (place st e).
Proof.
  intros Hr Hn. destruct (place_fields st e Hr Hn) as (E1 & E2 & E3 & E4 & E5 & E6 & E7).
  split; try done.
  - by rewrite E7, length_alter.
  - lia.
  - intros k Hk Hk'. rewrite E7, list_lookup_alter_ne; [done|]. destruct Hr; lia.
Qed.

(** ** One extended table *)

(** The data partitions a table lists: its non-empty, non-extended entries, the third
    and fourth only if they lie in the extended partition (as the 32-bit
    comparisons see it). *)
Definition entry_found (d : disk) (data : list Z) (this_sector this_size first_sector first_size i : Z)
  : option found :=
  let p := entry i in
  let offs := u32 (start_sect data p * sector_size d) in
  let sz := u32 (nr_sects data p * sector_size d) in
  let nxt := u32 (this_sector + offs) in
  if (nr_sects data p =? 0) || is_extended_partition data p then None
  else if (2 <=? i) && ((this_size <? u32 (offs + sz)) || (nxt <? first_sector) ||
                        (u32 (first_sector + first_size) <? u32 (nxt + sz))) then None
  else Some (mkFound nxt sz (SYS_IND data p =? LINUX_RAID_PARTITION)).

Definition table_found (d : disk) (data : list Z) (ts tz fs fz : Z) (idx : list Z) : list found :=
  omap (entry_found d data ts tz fs fz) idx.

(** Placing a list of entries, until the array is full. *)
Fixpoint place_all (l : list found) (st : parsed_partitions) : parsed_partitions * bool :=
  match l with
  | [] => (st, false)
  | e :: l =>
      let st := place st e in
      if next st =? limit st then (st, true) else place_all l st
  end.

Lemma ext_data_cons d data ts tz fs fz i idx st loopct :
  ext_data d data ts tz fs fz (i :: idx) st loopct =
  match entry_found d data ts tz fs fz i with
  | None => ext_data d data ts tz fs fz idx st loopct
  | Some e =>
      if next (place st e) =? limit (place st e) then (place st e, 0, true)
      else ext_data d data ts tz fs fz idx (place st e) 0
  end.
Proof.
  unfold entry_found. cbn [ext_data]. destruct (_ || _); [done|]. destruct (_ && _); done.
Qed.

Lemma ext_data_place d data ts tz fs fz idx st loopct :
  ext_data d data ts tz fs fz idx st loopct =
  ((place_all (table_found d data ts tz fs fz idx) st).1,
   (if decide (table_found d data ts tz fs fz idx = []) then loopct else 0),
   (place_all (table_found d data ts tz fs fz idx) st).2).
Proof.
  revert st loopct. induction idx as [|i idx IH]; intros st loopct; [done|].
  rewrite ext_data_cons. unfold table_found. cbn [omap list_omap].
  destruct (entry_found d data ts tz fs fz i) as [e|]; [|apply IH].
  rewrite decide_False by done. cbn [place_all].
  destruct (_ =? _); [done|]. rewrite IH. by case_decide.
Qed.

Lemma place_all_grows l st :
  ready st -> next st < limit st -> grows st (place_all l st).1.
Proof.
  revert st. induction l as [|e l IH]; intros st Hr Hn; cbn [place_all]; [by apply grows_refl|].
  pose proof (grows_place st e Hr Hn) as Hg.
  destruct (Z.eqb_spec (next (place st e)) (limit (place st e))) as [|Hne]; [done|].
  eapply grows_trans; [exact Hg|]. apply IH; [by eapply grows_ready|].
  destruct Hg. lia.
Qed.

(** How far it gets, and what the slots hold. *)
Lemma place_all_spec l st :
  ready st -> next st < limit st ->
  let st' := (place_all l st).1 in
  let full := (place_all l st).2 in
  next st' = Z.min (next st + Z.of_nat (length l)) (limit st) /\
  (full = true <-> limit st <= next st + Z.of_nat (length l)) /\
  access_beyond_eod st' = access_beyond_eod st /\
  (forall k e q, l !! k = Some e -> next st + Z.of_nat k < limit st ->
     parts st !! Z.to_nat (next st + Z.of_nat k) = Some q ->
     parts st' !! Z.to_nat (next st + Z.of_nat k) = Some (place_part e q)).
Proof.
  revert st. induction l as [|e l IH]; intros st Hr Hn; cbn [place_all].
  { cbn. split_and!; try done; [lia|split; [done|lia]]. }
  pose proof (grows_place st e Hr Hn) as Hg.
  destruct (place_fields st e Hr Hn) as (E1 & E2 & E3 & E4 & E5 & E6 & E7).
  assert (Hhere : forall q, parts st !! Z.to_nat (next st) = Some q ->
    parts (place st e) !! Z.to_nat (next st) = Some (place_part e q)).
  { intros q Hq. by rewrite E7, list_lookup_alter_eq, Hq. }
  rewrite E5, E1. cbn [length].
  destruct (Z.eqb_spec (next st + 1) (limit st)) as [Heq|Hne]; cbn [fst snd].
  - split_and!; [lia|split; [lia|done]|done|].
    intros [|k] e' q Hk Hlt; [|lia]. injection Hk as <-. rewrite Z.add_0_r. apply Hhere.
  - assert (Hr' : ready (place st e)) by (by eapply grows_ready).
    assert (Hn' : next (place st e) < limit (place st e)) by (destruct Hr; lia).
    destruct (IH (place st e) Hr' Hn') as (I1 & I2 & I3 & I4).
    pose proof (place_all_grows l (place st e) Hr' Hn') as Hg'.
    rewrite E5, E1 in I1, I2. rewrite E5 in I4.
    split_and!; [rewrite I1; lia|rewrite I2; lia|by rewrite I3|].
    intros [|k] e' q Hk Hlt Hq.
    + injection Hk as <-. rewrite Z.add_0_r in Hq |- *.
      rewrite (g_parts _ _ Hg'); [by apply Hhere|destruct Hr; lia|lia].
    + replace (next st + Z.of_nat (S k)) with (next st + 1 + Z.of_nat k) in * by lia.
      apply I4; [done|lia|]. rewrite (g_parts _ _ Hg); [done|destruct Hr; lia|lia].
Qed.

(** ** Reading and releasing sectors *)

(** Same table: the two states differ at most in the end-of-disk flag and the pages
    held. *)
Definition same_table (st st' : parsed_partitions) : Prop :=
  limit st' = limit st /\ name st' = name st /\ oob st' = oob st /\
  parts st' = parts st /\ next st' = next st.

Lemma read_none d st n st' :
  read_part_sector d st n = (st', None) -> same_table st st' /\ held st' = held st.
Proof.
  unfold read_part_sector. destruct (_ <=? _); [intros [= <-]; by destruct st|].
  destruct (sector d n); [done|]. by intros [= <-].
Qed.

Lemma read_some d st n st' data :
  read_part_sector d st n = (st', Some data) ->
  st' = with_held st (held st + 1) /\ sector d n = Some data /\ n < capacity d.
Proof.
  unfold read_part_sector. destruct (Z.leb_spec (capacity d) n); [done|].
  destruct (sector d n) eqn:E; [|done]. by intros [= <- <-].
Qed.

Lemma same_table_ready st st' : same_table st st' -> ready st -> ready st'.
Proof. unfold same_table, ready. intros (-> & _ & _ & -> & ->). done. Qed.

Lemma same_table_grows st st' : ready st -> same_table st st' -> held st' = held st -> grows st st'.
Proof.
  intros (H & _) (E1 & E2 & E3 & E4 & E5) Eh. split; try done; rewrite ?E4, ?E5; done || lia.
Qed.

Lemma ready_with_held st h : ready st -> ready (with_held st h).
Proof. by destruct st. Qed.

(** A sector read before and released after a parser's work. *)
Lemma grows_read_put st st' :
  grows (with_held st (held st + 1)) st' -> grows st (put_dev_sector st').
Proof.
  intros []. destruct st, st'; cbn in *. split; cbn; try done. lia.
Qed.

(** ** The chain of extended tables *)

(** Work left: 101 tables for each free slot. *)
Definition ext_work (st : parsed_partitions) (loopct : Z) : Z :=
  101 * (limit st - next st) + 101 - loopct.

Lemma extended_loop_total d fs fz fuel st loopct ts tz :
  ready st -> 0 <= loopct <= 100 -> ext_work st loopct <= Z.of_nat fuel ->
  exists st', parse_extended_loop fuel d fs fz st loopct ts tz = Some st' /\ grows st st'.
Proof.
  revert st loopct ts tz. induction fuel as [|fuel IH]; intros st loopct ts tz Hr Hl Hf.
  { unfold ext_work in Hf. destruct Hr. lia. }
  cbn [parse_extended_loop].
  destruct (Z.ltb_spec 100 (loopct + 1)); [eauto with grow|].
  destruct (Z.eqb_spec (next st) (limit st)); [eauto with grow|].
  destruct (read_part_sector d st ts) as [st1 [data|]] eqn:Erd.
  2:{ apply read_none in Erd as [? ?]. eauto using same_table_grows. }
  apply read_some in Erd as (-> & _ & _).
  assert (Hr1 : ready (with_held st (held st + 1))) by by apply ready_with_held.
  destruct (negb _); [eauto using grows_read_put, grows_refl|].
  rewrite ext_data_place. set (l := table_found d data ts tz fs fz _).
  assert (Hn1 : next (with_held st (held st + 1)) < limit (with_held st (held st + 1)))
    by (destruct Hr, st; cbn in *; lia).
  pose proof (place_all_grows l _ Hr1 Hn1) as Hg.
  destruct (place_all_spec l _ Hr1 Hn1) as (P1 & P2 & _ & _).
  destruct (place_all l _) as [st2 full]. cbn [fst snd] in *.
  apply grows_read_put in Hg as Hg'.
  destruct full; [eauto|]. destruct (ext_link data) as [i|]; [|eauto].
  destruct (IH (put_dev_sector st2) (if decide (l = []) then loopct + 1 else 0)
              (u32 (fs + start_sect data (entry i) * sector_size d))
              (u32 (nr_sects data (entry i) * sector_size d))) as (st' & H1 & H2).
  - exact (grows_ready _ _ Hr Hg').
  - case_decide; lia.
  - unfold ext_work in *. destruct Hr as [Hr _].
    replace (next (put_dev_sector st2)) with (next st2) by by destruct st2.
    replace (limit (put_dev_sector st2)) with (limit st) by (symmetry; apply Hg').
    replace (next (with_held st (held st + 1))) with (next st) in P1 by by destruct st.
    replace (limit (with_held st (held st + 1))) with (limit st) in P1 by by destruct st.
    case_decide as Hl0; [rewrite Hl0 in P1; cbn in P1; lia|].
    destruct l; [done|]. cbn [length] in P1. lia.
  - exists st'. split; [done|]. exact (grows_trans _ _ _ Hg' H2).
Qed.

Lemma parse_extended_total d st fs fz :
  ready st -> exists st', parse_extended d st fs fz = Some st' /\ grows st st'.
Proof.
  intros Hr. apply extended_loop_total; [done|lia|]. unfold ext_work, ext_fuel.
  destruct Hr. lia.
Qed.

(** An entry that refers to a further table. *)
Definition links (data : list Z) (i : Z) : Prop :=
  nr_sects data (entry i) <> 0 /\ is_extended_partition data (entry i) = true.

#[export] Instance links_dec data i : Decision (links data i).
Proof. unfold links. apply _. Defined.

Lemma links_test data i :
  negb (nr_sects data (entry i) =? 0) && is_extended_partition data (entry i) = bool_decide (links data i).
Proof.
  apply eq_true_iff_eq. rewrite bool_decide_eq_true. unfold links. by rewrite andb_true_iff, negb_true_iff, Z.eqb_neq.
Qed.

Lemma ext_link_none data : (forall i, 0 <= i < 4 -> ~ links data i) -> ext_link data = None.
Proof.
  intros H. unfold ext_link. cbn [find]. rewrite !links_test. by rewrite !bool_decide_eq_false_2 by (apply H; lia).
Qed.
Lemma ext_link_first data i : 0 <= i < 4 -> links data i -> (forall j, 0 <= j < i -> ~ links data j) -> ext_link data = Some i.
Proof.
  intros Hi Hl Hf. unfold ext_link. cbn [find]. rewrite !links_test.
  assert (Hc : i = 0 \/ i = 1 \/ i = 2 \/ i = 3) by lia.
  destruct Hc as [->|[->|[->| ->]]]; rewrite ?(bool_decide_eq_false_2 (links data _)) by (apply Hf; lia); by rewrite bool_decide_eq_true_2.
Qed.

(** The chain an extended partition holds, as the sequence of the data partitions of
    its tables; [n] counts the tables. *)
Inductive chain (d : disk) (fs fz : Z) : nat -> Z -> Z -> list found -> Prop :=
| chain_last ts tz data :
    ts < capacity d -> sector d ts = Some data -> msdos_magic_present data 510 = true ->
    (forall i, 0 <= i < 4 -> ~ links data i) ->
    chain d fs fz 1 ts tz (table_found d data ts tz fs fz [0; 1; 2; 3])
| chain_link n ts tz data i l :
    ts < capacity d -> sector d ts = Some data -> msdos_magic_present data 510 = true ->
    0 <= i < 4 -> links data i -> (forall j, 0 <= j < i -> ~ links data j) ->
    chain d fs fz n (u32 (fs + start_sect data (entry i) * sector_size d))
      (u32 (nr_sects data (entry i) * sector_size d)) l ->
    chain d fs fz (S n) ts tz (table_found d data ts tz fs fz [0; 1; 2; 3] ++ l).

Lemma place_all_app l1 l2 st :
  place_all (l1 ++ l2) st =
  (if (place_all l1 st).2 then place_all l1 st else place_all l2 (place_all l1 st).1).
Proof.
  revert st. induction l1 as [|e l1 IH]; intros st; cbn [app place_all]; [done|].
  destruct (_ =? _); [done|]. apply IH.
Qed.

(** Placing does not look at the held pages. *)
Lemma update_part_with_held st n f h :
  update_part (with_held st h) n f = with_held (update_part st n f) h.
Proof. unfold update_part. destruct st, (_ && _); done. Qed.
Lemma put_partition_with_held st n a b h :
  put_partition (with_held st h) n a b = with_held (put_partition st n a b) h.
Proof.
  unfold put_partition.
  replace (limit (with_held st h)) with (limit st) by by destruct st.
  destruct (_ <? _); [|done]. rewrite update_part_with_held.
  by destruct (update_part st n _).
Qed.
Lemma place_with_held st e h : place (with_held st h) e = with_held (place st e) h.
Proof.
  unfold place. replace (next (with_held st h)) with (next st) by by destruct st.
  rewrite put_partition_with_held. set (s1 := put_partition st _ _ _).
  replace (next (with_held s1 h)) with (next s1) by by destruct s1.
  destruct (f_raid e); [|by destruct s1]. rewrite update_part_with_held.
  by destruct (update_part s1 _ _).
Qed.
Lemma place_all_with_held l st h :
  place_all l (with_held st h) = (with_held (place_all l st).1 h, (place_all l st).2).
Proof.
  revert st. induction l as [|e l IH]; intros st; cbn [place_all]; [done|].
  rewrite place_with_held.
  replace (next (with_held (place st e) h)) with (next (place st e)) by (by destruct (place st e)).
  replace (limit (with_held (place st e) h)) with (limit (place st e)) by (by destruct (place st e)).
  destruct (_ =? _); [done|]. apply IH.
Qed.

(** The parser follows a chain of at most 100 tables to its end, or until the array
    is full. *)
Lemma extended_loop_chain d fs fz n ts tz l :
  chain d fs fz n ts tz l ->
  forall fuel st loopct,
  ready st -> next st < limit st -> 0 <= loopct -> loopct + Z.of_nat n <= 100 ->
  (n <= fuel)%nat ->
  parse_extended_loop fuel d fs fz st loopct ts tz = Some (place_all l st).1.
Proof.
  induction 1 as [ts tz data Hc Hs Hm Hk%ext_link_none|n ts tz data i l Hc Hs Hm Hi Hl1 Hl2 Hch IH]; [|pose proof (ext_link_first _ _ Hi Hl1 Hl2) as Hk];
    intros fuel st loopct Hr Hn Hl0 Hl Hf; (destruct fuel as [|fuel]; [lia|]);
    cbn [parse_extended_loop].
  all: rewrite (proj2 (Z.ltb_ge 100 (loopct + 1))), (proj2 (Z.eqb_neq (next st) (limit st))) by lia.
  all: unfold read_part_sector; rewrite (proj2 (Z.leb_gt (capacity d) ts)), Hs, Hm by done.
  all: cbn [negb]; rewrite ext_data_place, place_all_with_held, Hk; cbn [fst snd].
  all: set (t := table_found d data ts tz fs fz [0; 1; 2; 3]).
  all: pose proof (place_all_grows t st Hr Hn) as Hg.
  all: assert (Hput : put_dev_sector (with_held (place_all t st).1 (held st + 1)) = (place_all t st).1)
    by (pose proof (g_held _ _ Hg); destruct (place_all t st).1; cbn in *; unfold put_dev_sector; cbn;
        f_equal; lia).
  - rewrite Hput. by destruct (place_all t st).2.
  - rewrite Hput, place_all_app.
    destruct (place_all_spec t st Hr Hn) as (P1 & P2 & _ & _).
    destruct (place_all t st).2 eqn:Ef; [done|].
    assert (Hlt : ~ limit st <= next st + Z.of_nat (length t)) by (intros Hx; by apply P2 in Hx).
    apply IH; [by eapply grows_ready| |case_decide; lia|case_decide; lia|lia].
    rewrite P1, (g_limit _ _ Hg). lia.
Qed.

Lemma ext_fuel_enough st : ready st -> next st < limit st -> (100 <= ext_fuel st)%nat.
Proof. intros (H & _) Hn. unfold ext_fuel. lia. Qed.

(** ** Sub-partition parsers *)

Lemma grows_put_next st a b : ready st -> next st < limit st -> grows st (put_next st a b).
Proof.
  intros (H1 & H2 & H3) Hn. unfold put_next.
  destruct (put_partition_below (with_next st (next st + 1)) (next st) a b) as [buf ->];
    [destruct st; cbn in *; lia..|].
  destruct st; cbn in *. split; cbn; try done.
  - by rewrite length_alter.
  - lia.
  - intros k Hk Hk'. rewrite list_lookup_alter_ne; [done|]. lia.
Qed.

Lemma grows_fold {A} (f : parsed_partitions -> A -> parsed_partitions) l st :
  (forall st i, ready st -> grows st (f st i)) -> ready st -> grows st (fold_left f l st).
Proof.
  intros Hf. revert st. induction l as [|i l IH]; intros st Hr; cbn; [by apply grows_refl|].
  pose proof (Hf st i Hr) as Hg. eapply grows_trans; [exact Hg|].
  apply IH. exact (grows_ready _ _ Hr Hg).
Qed.

(** A parser that reads a sector and releases it at the end. *)
Lemma grows_sector_none d st n st1 :
  read_part_sector d st n = (st1, None) -> ready st -> grows st st1.
Proof. intros [? ?]%read_none ?. by apply same_table_grows. Qed.

Lemma grows_sector_some d st n st1 data st' :
  read_part_sector d st n = (st1, Some data) -> ready st ->
  (ready st1 -> exists st2, grows st1 st2 /\ st' = put_dev_sector st2) -> grows st st'.
Proof.
  intros E Hr Hk. apply read_some in E as (-> & _ & _).
  destruct Hk as (st2 & Hg & ->); [by apply ready_with_held|]. by apply grows_read_put.
Qed.

Ltac with_sector :=
  match goal with
  | |- context [read_part_sector ?d ?st ?n] =>
      let E := fresh "Eread" in
      destruct (read_part_sector d st n) as [? [?|]] eqn:E;
      [eapply (grows_sector_some _ _ _ _ _ _ E); [done|]; intros ?Hr1
      |by apply (grows_sector_none _ _ _ _ E)]
  end.

Lemma put_say st s : say (put_dev_sector st) s = put_dev_sector (say st s).
Proof. by destruct st. Qed.

Lemma grows_say_l st s st' : ready st -> grows (say st s) st' -> grows st st'.
Proof. intros Hr Hg. eapply grows_trans; [by apply grows_say|exact Hg]. Qed.
Lemma ready_say st s : ready st -> ready (say st s).
Proof. by destruct st. Qed.
#[export] Hint Resolve ready_say : grow.

Lemma not_full st : ready st -> (next st =? limit st) = false -> next st < limit st.
Proof. intros (H & _) E%Z.eqb_neq. lia. Qed.

Lemma parse_minix_grows d st offset sz origin : ready st -> grows st (parse_minix d st offset sz origin).
Proof.
  intros Hr. unfold parse_minix. destruct (negb _); [by apply grows_refl|].
  with_sector. eexists; split; [|reflexivity].
  destruct (_ && _); [|by apply grows_refl].
  apply grows_say_r. eapply grows_say_l; [done|]. apply grows_fold; [|auto with grow].
  intros s i Hs. destruct (next s =? limit s) eqn:E; [by apply grows_refl|].
  destruct (_ =? MINIX_PARTITION); [|by apply grows_refl]. apply grows_put_next; [done|by apply not_full].
Qed.

Lemma parse_unixware_grows d st offset sz origin :
  ready st -> grows st (parse_unixware d st offset sz origin).
Proof.
  intros Hr. unfold parse_unixware. destruct (negb _); [by apply grows_refl|].
  with_sector. destruct (_ || _).
  { eexists. split; [by apply grows_refl|done]. }
  rewrite put_say. eexists; split; [|reflexivity].
  apply grows_say_r. eapply grows_say_l; [done|]. apply grows_fold; [|auto with grow].
  intros s i Hs. destruct (next s =? limit s) eqn:E; [by apply grows_refl|].
  destruct (negb _); [|by apply grows_refl]. apply grows_put_next; [done|by apply not_full].
Qed.

Lemma parse_solaris_grows d st offset sz origin :
  ready st -> grows st (parse_solaris_x86 d st offset sz origin).
Proof.
  intros Hr. unfold parse_solaris_x86. destruct (negb _); [by apply grows_refl|].
  with_sector. destruct (negb _).
  { eexists. split; [by apply grows_refl|done]. }
  destruct (negb _).
  { eexists; split; [|reflexivity]. auto with grow. }
  rewrite put_say. eexists; split; [|reflexivity].
  apply grows_say_r. eapply grows_say_l; [done|]. apply grows_fold; [|auto with grow].
  intros s i Hs. destruct (Z.leb_spec (limit s) (next s)); [by apply grows_refl|].
  destruct (_ =? 0); [by apply grows_refl|].
  eapply grows_say_l; [done|]. apply grows_put_next; [by apply ready_say|by destruct s].
Qed.

Lemma parse_bsd_grows d st offset sz origin fl mx :
  ready st -> grows st (parse_bsd d st offset sz origin fl mx).
Proof.
  intros Hr. unfold parse_bsd.
  with_sector. destruct (negb _).
  { eexists. split; [by apply grows_refl|done]. }
  set (body := fold_left _ _ _).
  match goal with |- exists st2, grows ?s1 _ /\ _ => assert (Hg : grows s1 body) end.
  { subst body. eapply grows_say_l; [done|]. apply grows_fold; [|auto with grow].
    intros s i Hs. destruct (next s =? limit s) eqn:E; [by apply grows_refl|].
    destruct (_ =? BSD_FS_UNUSED); [by apply grows_refl|].
    destruct (_ && _); [by apply grows_refl|]. destruct (_ || _); [auto with grow|].
    apply grows_put_next; [done|by apply not_full]. }
  destruct (_ <? le16_at l 138); rewrite !put_say; eexists; (split; [|reflexivity]);
    auto with grow.
Qed.

Lemma sub_entry_grows d data st i : ready st -> grows st (sub_entry d data st i).
Proof.
  intros Hr. unfold sub_entry. destruct (_ =? 0); [by apply grows_refl|].
  destruct (find _ subtypes) as [t|] eqn:Ef; [|by apply grows_refl].
  apply find_some in Ef as [Hin _].
  repeat (destruct Hin as [<-|Hin]; [cbn [snd]|]); [..|done];
    unfold parse_freebsd, parse_netbsd, parse_openbsd;
    try (destruct (BSD_DISKLABEL _); [by apply parse_bsd_grows|by apply grows_refl]);
    auto using parse_minix_grows, parse_unixware_grows, parse_solaris_grows.
Qed.

(** ** The primary entries *)

(** Like [grows], except that the slots in [W] may change too. *)
Record touches (W : Z -> Prop) (st st' : parsed_partitions) : Prop := mkTouches {
  t_limit : limit st' = limit st;
  t_name : name st' = name st;
  t_held : held st' = held st;
  t_oob : oob st' = oob st;
  t_len : length (parts st') = length (parts st);
  t_next : next st <= next st' <= limit st;
  t_parts : forall k, 0 <= k -> k < next st \/ next st' <= k -> ~ W k ->
    parts st' !! Z.to_nat k = parts st !! Z.to_nat k
}.

Lemma grows_touches W st st' : grows st st' -> touches W st st'.
Proof. intros []. split; auto. Qed.

Lemma touches_mono (W W' : Z -> Prop) st st' :
  (forall k, W k -> W' k) -> touches W st st' -> touches W' st st'.
Proof. intros HW []. split; auto. Qed.

Lemma touches_trans W a b c : touches W a b -> touches W b c -> touches W a c.
Proof.
  intros [] []. split; try congruence.
  - lia.
  - intros k Hk Hr Hw. rewrite t_parts1 by (lia || done). apply t_parts0; lia || done.
Qed.

Lemma touches_ready W st st' : ready st -> touches W st st' -> ready st'.
Proof. intros (H & H1 & H2) []. unfold ready. rewrite t_limit0, t_len0. split_and!; lia || done. Qed.

Lemma touches_update W st n f :
  ready st -> 0 <= n < DISK_MAX_PARTS -> W n -> touches W st (update_part st n f).
Proof.
  intros (H & _) Hn HW. rewrite update_part_in by done. destruct st; cbn in *. split; cbn; try done.
  - by rewrite length_alter.
  - lia.
  - intros k Hk _ Hw. rewrite list_lookup_alter_ne; [done|].
    intros E. apply Hw. by replace k with n by lia.
Qed.

Lemma touches_say W st s : ready st -> touches W st (say st s).
Proof. intros. by apply grows_touches, grows_say. Qed.

Lemma touches_put W st n a b :
  ready st -> 0 <= n < limit st -> W n -> touches W st (put_partition st n a b).
Proof.
  intros Hr Hn HW. unfold put_partition. rewrite (proj2 (Z.ltb_lt n (limit st))) by lia.
  assert (Hu : touches W st (update_part st n (fun p => mkPart a b (pflags p))))
    by (apply touches_update; [done|destruct Hr; lia|done]).
  eapply touches_trans; [exact Hu|]. apply touches_say. exact (touches_ready _ _ _ Hr Hu).
Qed.

(** What the first pass makes of one entry. *)
Definition primary_part (d : disk) (data : list Z) (i : Z) (q : part) : part :=
  let p := entry i in
  let start := u32 (start_sect data p * sector_size d) in
  let sz := u32 (nr_sects data p * sector_size d) in
  if sz =? 0 then q
  else if is_extended_partition data p then
    mkPart start (Z.min sz (Z.max (sector_size d) 2)) (pflags q)
  else mkPart start sz
         (if SYS_IND data p =? LINUX_RAID_PARTITION then ADDPART_FLAG_RAID else pflags q).

Lemma parts_put st n a b q :
  0 <= n < limit st -> limit st <= DISK_MAX_PARTS -> parts st !! Z.to_nat n = Some q ->
  parts (put_partition st n a b) !! Z.to_nat n = Some (mkPart a b (pflags q)).
Proof.
  intros Hn Hl Hq. destruct (put_partition_below st n a b Hn Hl) as [buf ->].
  destruct st; cbn in *. by rewrite list_lookup_alter_eq, Hq.
Qed.

Lemma parts_update st n f q :
  0 <= n < DISK_MAX_PARTS -> parts st !! Z.to_nat n = Some q ->
  parts (update_part st n f) !! Z.to_nat n = Some (f q).
Proof.
  intros Hn Hq. rewrite update_part_in by done. destruct st; cbn in *.
  by rewrite list_lookup_alter_eq, Hq.
Qed.

Lemma parts_say st s : parts (say st s) = parts st.
Proof. by destruct st. Qed.

Lemma primary_extended_spec d st slot start sz n q :
  ready st -> 5 <= next st -> 1 <= slot <= 4 -> parts st !! Z.to_nat slot = Some q ->
  exists st', parse_extended d (say (put_partition st slot start n) " <") start sz = Some st' /\
    touches (eq slot) st (say st' " >") /\
    parts (say st' " >") !! Z.to_nat slot = Some (mkPart start n (pflags q)).
Proof.
  intros Hr Hnx Hi Hq.
  assert (Hlim : 0 <= slot < limit st /\ limit st <= DISK_MAX_PARTS) by (destruct Hr; lia).
  pose proof (touches_put (eq slot) st slot start n Hr (proj1 Hlim) eq_refl) as Ht.
  pose proof (parts_put st slot start n q (proj1 Hlim) (proj2 Hlim) Hq) as Hp.
  set (s1 := put_partition _ _ _ _) in *.
  pose proof (touches_ready _ _ _ Hr Ht) as Hr1.
  destruct (parse_extended_total d (say s1 " <") start sz) as (s2 & -> & Hg); [by apply ready_say|].
  exists s2. split; [done|]. split.
  - eapply touches_trans; [exact Ht|]. apply grows_touches, grows_say_r.
    eapply grows_say_l; [done|exact Hg].
  - rewrite parts_say, (g_parts _ _ Hg), parts_say; [exact Hp|lia|].
    left. destruct (say_fields s1 " <") as (_ & _ & _ & _ & _ & -> & _). destruct Ht; lia.
Qed.

Lemma primary_plain_spec st slot start sz q (raid dm ezd : bool) :
  ready st -> 5 <= next st -> 1 <= slot <= 4 -> parts st !! Z.to_nat slot = Some q ->
  let s1 := put_partition st slot start sz in
  let s2 := if raid then update_part s1 slot (fun q => mkPart (from q) (size q) ADDPART_FLAG_RAID)
            else s1 in
  let s3 := if dm then say s2 "[DM]" else s2 in
  let s4 := if ezd then say s3 "[EZD]" else s3 in
  touches (eq slot) st s4 /\
  parts s4 !! Z.to_nat slot =
    Some (mkPart start sz (if raid then ADDPART_FLAG_RAID else pflags q)).
Proof.
  intros Hr Hnx Hi Hq s1 s2 s3 s4.
  assert (Hlim : 0 <= slot < limit st /\ limit st <= DISK_MAX_PARTS) by (destruct Hr; lia).
  pose proof (touches_put (eq slot) st slot start sz Hr (proj1 Hlim) eq_refl) as Ht.
  pose proof (parts_put st slot start sz q (proj1 Hlim) (proj2 Hlim) Hq) as Hp.
  fold s1 in Ht, Hp.
  assert (H2 : touches (eq slot) st s2 /\ parts s2 !! Z.to_nat slot =
    Some (mkPart start sz (if raid then ADDPART_FLAG_RAID else pflags q))).
  { unfold s2. destruct raid; [|done]. split.
    - eapply touches_trans; [exact Ht|]. apply touches_update; [|lia|done].
      exact (touches_ready _ _ _ Hr Ht).
    - assert (Hd : 0 <= slot < DISK_MAX_PARTS) by lia. exact (parts_update s1 slot _ _ Hd Hp). }
  destruct H2 as [Ht2 Hp2]. unfold s4, s3.
  destruct dm, ezd; rewrite ?parts_say; (split; [|exact Hp2]);
    repeat first [exact Ht2 | eapply touches_trans; [|apply touches_say]];
    eauto using touches_ready, ready_say.
Qed.

Lemma primary_entry_spec d data st i q :
  ready st -> 5 <= next st -> 0 <= i <= 3 -> parts st !! Z.to_nat (i + 1) = Some q ->
  exists st', primary_entry d data st i = Some st' /\ touches (eq (i + 1)) st st' /\
    parts st' !! Z.to_nat (i + 1) = Some (primary_part d data i q).
Proof.
  intros Hr Hnx Hi Hq. unfold primary_entry, primary_part. cbv zeta.
  destruct (Z.eqb_spec (u32 (nr_sects data (entry i) * sector_size d)) 0) as [|Hsz].
  { exists st. split_and!; [done| |done]. by apply grows_touches, grows_refl. }
  destruct (is_extended_partition data (entry i)).
  - edestruct (primary_extended_spec d st (i + 1)) as (st' & -> & Ht & Hp);
      [done..|lia|exact Hq|]. cbn. eauto.
  - eexists; split; [reflexivity|]. apply primary_plain_spec; done || lia.
Qed.

Lemma primary_pass_spec d data idx st :
  ready st -> 5 <= next st -> NoDup idx -> Forall (fun i => 0 <= i <= 3) idx ->
  exists st', primary_pass d data idx st = Some st' /\
    touches (fun k => In (k - 1) idx) st st' /\
    (forall i q, In i idx -> parts st !! Z.to_nat (i + 1) = Some q ->
       parts st' !! Z.to_nat (i + 1) = Some (primary_part d data i q)).
Proof.
  revert st. induction idx as [|i idx IH]; intros st Hr Hnx Hnd Hin; cbn [primary_pass].
  { exists st. split; [done|]. split; [by apply grows_touches, grows_refl|done]. }
  apply NoDup_cons in Hnd as [Hni Hnd]. apply Forall_cons in Hin as [Hi Hin].
  destruct (lookup_lt_is_Some_2 (parts st) (Z.to_nat (i + 1))) as [q Hq].
  { destruct Hr as (_ & _ & ->). unfold DISK_MAX_PARTS. lia. }
  destruct (primary_entry_spec d data st i q Hr Hnx Hi Hq) as (s1 & -> & Ht & Hp).
  pose proof (touches_ready _ _ _ Hr Ht) as Hr1. cbn.
  destruct (IH s1 Hr1 ltac:(destruct Ht; lia) Hnd Hin) as (s2 & -> & Ht2 & Hp2).
  exists s2. split; [done|]. split.
  - eapply touches_trans; (eapply touches_mono; [|eassumption]); cbn; intros k Hk; [|by right].
    left. lia.
  - rewrite Forall_forall in Hin. intros j qj [<-|Hj] Hqj.
    + rewrite (t_parts _ _ _ Ht2); [congruence|lia|destruct Ht; lia|].
      intros Hc. apply Hni. apply list_elem_of_In. by replace i with (i + 1 - 1) by lia.
    + assert (Hjr := Hin j (proj2 (list_elem_of_In _ _) Hj)).
      apply Hp2; [done|]. rewrite (t_parts _ _ _ Ht); [done|lia|lia|].
      intros Hc. apply Hni, list_elem_of_In. by replace i with j by lia.
Qed.

(** ** The whole table *)

(** What a parser leaves alone whatever the disk holds: the limit, the name, the
    page balance, and every slot that is not a partition number below the limit. *)
Record framed (st st' : parsed_partitions) : Prop := mkFramed {
  fr_limit : limit st' = limit st;
  fr_name : name st' = name st;
  fr_held : held st' = held st;
  fr_oob : oob st' = oob st;
  fr_len : length (parts st') = length (parts st);
  fr_next : 0 <= next st' <= limit st;
  fr_parts : forall k, k = 0 \/ limit st <= k ->
    parts st' !! Z.to_nat k = parts st !! Z.to_nat k
}.

Lemma grows_framed st st' : ready st -> 0 < next st \/ next st' = next st -> grows st st' -> framed st st'.
Proof.
  intros (H & _) Hn []. split; try done; [lia|].
  intros k Hk. apply g_parts0; lia.
Qed.

Lemma touches_framed st st' :
  ready st -> 5 <= limit st -> touches (fun k => In (k - 1) [0; 1; 2; 3]) (with_next st 5) st' ->
  framed st st'.
Proof.
  intros Hr H5 []. destruct st; cbn in *. split; cbn; try done; [lia|].
  intros k Hk. apply t_parts0; lia.
Qed.

Lemma aix_grows d st data st' b :
  aix_magic_present d st data = (st', b) -> ready st ->
  grows st st' /\ next st' = next st /\ parts st' = parts st.
Proof.
  unfold aix_magic_present. intros E Hr.
  destruct (negb _); [injection E as <- _; auto using grows_refl|].
  destruct (existsb _ _); [injection E as <- _; auto using grows_refl|].
  destruct (read_part_sector d st 7) as [s1 [bb|]] eqn:Er; injection E as <- _.
  - apply read_some in Er as (-> & _). split; [|by destruct st].
    by apply grows_read_put, grows_refl, ready_with_held.
  - pose proof (grows_sector_none _ _ _ _ Er Hr). by apply read_none in Er as [(_ & _ & _ & -> & ->) _].
Qed.

(** The part of [msdos_partition] after the table was accepted. *)
Lemma table_accepted d data st :
  ready st -> 5 <= limit st ->
  exists s1,
    primary_pass d data [0; 1; 2; 3] (with_next st 5) = Some s1 /\
    touches (fun k => In (k - 1) [0; 1; 2; 3]) (with_next st 5)
      (fold_left (sub_entry d data) [0; 1; 2; 3] (say s1 newline)) /\
    (forall i q, 0 <= i <= 3 -> parts st !! Z.to_nat (i + 1) = Some q ->
       parts (fold_left (sub_entry d data) [0; 1; 2; 3]
                (say s1 newline)) !! Z.to_nat (i + 1)
       = Some (primary_part d data i q)).
Proof.
  intros Hr H5.
  assert (Hr5 : ready (with_next st 5)) by (destruct Hr as (? & ? & ?), st; cbn in *; done).
  destruct (primary_pass_spec d data [0; 1; 2; 3] (with_next st 5)) as (s1 & -> & Ht & Hp);
    [done|destruct st; cbn; lia|by apply (bool_decide_unpack (NoDup [0; 1; 2; 3]))|repeat constructor; lia|].
  exists s1. split; [done|].
  set (s2 := say s1 _). assert (Hr2 : ready s2) by (eapply ready_say, touches_ready; eauto).
  pose proof (grows_fold (sub_entry d data) [0; 1; 2; 3] s2 ltac:(auto using sub_entry_grows) Hr2) as Hg.
  split.
  - eapply touches_trans; [exact Ht|]. eapply touches_trans; [apply touches_say|].
    + exact (touches_ready _ _ _ Hr5 Ht).
    + apply grows_touches, Hg.
  - intros i q Hi Hq. rewrite (g_parts _ _ Hg); [|lia|].
    + unfold s2. rewrite parts_say. apply Hp; [cbn; lia|]. by destruct st.
    + left. unfold s2. destruct (say_fields s1 newline)
        as (_ & _ & _ & _ & _ & -> & _). destruct Ht, st; cbn in *. lia.
Qed.

Lemma framed_trans a b c : framed a b -> framed b c -> framed a c.
Proof.
  intros [] []. split; try congruence.
  intros k Hk. rewrite fr_parts1 by lia. by apply fr_parts0.
Qed.

Lemma framed_read_put st st' :
  framed (with_held st (held st + 1)) st' -> framed st (put_dev_sector st').
Proof.
  intros []. destruct st, st'; cbn in *. split; cbn; try done. lia.
Qed.

Lemma framed_refl st : ready st -> framed st st.
Proof. intros Hr. apply grows_framed; auto using grows_refl. Qed.

Lemma framed_say st st' s : framed st st' -> framed st (say st' s).
Proof. intros []. destruct st'; cbn in *. by split. Qed.

Lemma msdos_partition_total d st :
  ready st -> 5 <= limit st ->
  exists res st', msdos_partition d st = Some (res, st') /\ framed st st' /\
    (res = -1 \/ res = 0 \/ res = 1).
Proof.
  intros Hr H5. unfold msdos_partition.
  destruct (read_part_sector d st 0) as [s1 [data|]] eqn:Er.
  2:{ eexists _, _. split; [reflexivity|]. split; [|auto].
      pose proof (grows_sector_none _ _ _ _ Er Hr). apply read_none in Er as [(_ & _ & _ & _ & E) _].
      apply grows_framed; auto. }
  apply read_some in Er as (-> & _ & _).
  set (h := with_held st (held st + 1)).
  assert (Hrh : ready h) by by apply ready_with_held.
  destruct (negb _).
  { eexists _, _. split; [reflexivity|]. split; [|auto]. by apply framed_read_put, framed_refl. }
  destruct (aix_magic_present d h data) as [s2 aix] eqn:Ea.
  destruct (aix_grows _ _ _ _ _ Ea Hrh) as (Hg & Hn & _).
  assert (Hf : framed h s2) by (apply grows_framed; auto).
  pose proof (grows_ready _ _ Hrh Hg) as Hr2.
  destruct aix.
  { eexists _, _. split; [reflexivity|]. split; [|auto]. by apply framed_say, framed_read_put. }
  destruct (find _ _) as [slot|].
  { destruct (_ && _); eexists _, _; (split; [reflexivity|]); (split; [|auto]);
      auto using framed_read_put, framed_say. }
  destruct (_ && _).
  { eexists _, _. split; [reflexivity|]. split; [|auto]. by apply framed_read_put. }
  destruct (table_accepted d data s2 Hr2) as (s3 & -> & Ht & _).
  { rewrite (fr_limit _ _ Hf). by destruct st. }
  cbn. eexists _, _. split; [reflexivity|]. split; [|auto].
  apply framed_read_put. eapply framed_trans; [exact Hf|]. apply touches_framed; [done| |done].
  rewrite (fr_limit _ _ Hf). by destruct st.
Qed.
