(* ===== verification/MsdosTheorems.v ===== *)
(** * What the DOS partition parser guarantees

    The properties of [msdos_partition], [parse_extended] and [check_partition], with
    concrete disks on which their hypotheses hold. *)

From Stdlib Require Import ZArith Lia Bool.
From stdpp Require Import base numbers list strings pretty.
From S2P Require Import Prelude Msdos MsdosProofs.
Open Scope Z_scope.

(** ** Concrete disks *)

(** A boot sector from (boot indicator, type, start, size) quadruples. *)
Definition bytes32 (v : Z) : list Z :=
  [v mod 256; v / 256 mod 256; v / 65536 mod 256; v / 16777216 mod 256].
Definition entry_bytes (e : Z * Z * Z * Z) : list Z :=
  let '(b, t, s, n) := e in [b; 0; 0; 0; t; 0; 0; 0] ++ bytes32 s ++ bytes32 n.
Definition boot_sector (l : list (Z * Z * Z * Z)) : list Z :=
  let es := concat (map entry_bytes l) in
  replicate (Z.to_nat 446) 0 ++ es ++ replicate (Z.to_nat 64 - length es) 0 ++ [0x55; 0xaa].

(** Two primary partitions, one of them RAID, and an extended one at sector 100 with
    two logical partitions in a chain of two tables. *)
Definition demo_disk : disk :=
  mkDisk 1000 512 (fun n =>
    if n =? 0 then Some (boot_sector [(0x80, 0x83, 1, 40); (0, 0xfd, 41, 50); (0, 5, 100, 800)])
    else if n =? 100 then Some (boot_sector [(0, 0x83, 1, 99); (0, 5, 100, 200)])
    else if n =? 200 then Some (boot_sector [(0, 0x82, 1, 199)])
    else None) gray386_config.

Definition demo_state (lim : Z) : parsed_partitions :=
  mkState "hda" (replicate (Z.to_nat DISK_MAX_PARTS) no_part) 0 lim false " hda:" 0 false.

Lemma demo_ready lim : 0 <= lim <= DISK_MAX_PARTS -> ready (demo_state lim).
Proof. intros H. unfold ready. cbn [next limit parts demo_state]. rewrite length_replicate. lia. Qed.

(** ** The table as a whole *)

(** C13: on every disk and with a limit of at least five slots, [msdos_partition]
    terminates with one of its three result codes, stores only in slots of [parts\[\]] below the limit, leaves slot 0 alone, and
    releases every page it read.  With a limit of two to four it may store beyond the
    limit, see [extended_overflows_small_limit]. *)
Theorem msdos_partition_safe (d : disk) (st : parsed_partitions) :
  ready st -> 5 <= limit st ->
  exists res st', msdos_partition d st = Some (res, st') /\
    (res = -1 \/ res = 0 \/ res = 1) /\
    oob st' = oob st /\ held st' = held st /\
    limit st' = limit st /\ length (parts st') = length (parts st) /\
    0 <= next st' <= limit st /\
    (forall k, k = 0 \/ limit st <= k -> parts st' !! Z.to_nat k = parts st !! Z.to_nat k).
Proof.
  intros Hr H5. destruct (msdos_partition_total d st Hr H5) as (res & st' & E & [] & Hres).
  exists res, st'. split_and!; done || lia.
Qed.

Lemma msdos_partition_safe_witness :
  exists res st', msdos_partition demo_disk (demo_state 16) = Some (res, st') /\ oob st' = false.
Proof.
  destruct (msdos_partition_safe demo_disk (demo_state 16)) as (res & st' & E & _ & Ho & _);
    [by apply demo_ready|done|].
  exists res, st'. split; [exact E|exact Ho].
Defined.

Lemma msdos_partition_result d st res st' :
  msdos_partition d st = Some (res, st') ->
  (res = -1 /\ (capacity d <= 0 \/ sector d 0 = None)) \/
  (exists data, 0 < capacity d /\ sector d 0 = Some data /\ (res = 0 \/ res = 1) /\
     (res = 1 -> msdos_magic_present data 510 = true)).
Proof.
  unfold msdos_partition, read_part_sector. intros E.
  destruct (Z.leb_spec (capacity d) 0); [injection E as <- _; auto|].
  destruct (sector d 0) as [data|] eqn:Es; [|injection E as <- _; auto].
  right. exists data. destruct (msdos_magic_present data 510) eqn:Em; cbn [negb] in E;
    [|injection E as <- _; split_and!; auto; done].
  cut (res = 0 \/ res = 1); [auto|].
  destruct (aix_magic_present _ _ _) as [s1 []]; [injection E as <- _; auto|].
  destruct (find _ _); [destruct (_ && _); injection E as <- _; auto|].
  destruct (_ && _); [injection E as <- _; auto|].
  destruct (primary_pass _ _ _ _); [|done]. injection E as <- _; auto.
Qed.

(** when a table is accepted, slots 1 to 4 describe its four entries: start
    and size in 512-byte units (modulo 2^32), the RAID flag for a RAID entry, at
    most two 512-byte sectors (or one logical block) of an extended partition, and
    an empty entry leaves its slot untouched. *)
Theorem msdos_primary_slots (d : disk) (st st' : parsed_partitions) (data : list Z) (i : Z) (q : part) :
  ready st -> 5 <= limit st -> sector d 0 = Some data ->
  find (bad_boot_ind data) [0; 1; 2; 3] = None ->
  msdos_partition d st = Some (1, st') ->
  0 <= i <= 3 -> parts st !! Z.to_nat (i + 1) = Some q ->
  parts st' !! Z.to_nat (i + 1) = Some (primary_part d data i q).
Proof.
  intros Hr H5 Hs Hb E Hi Hq. unfold msdos_partition, read_part_sector in E.
  destruct (capacity d <=? 0); [done|]. rewrite Hs in E. cbn zeta in E.
  destruct (negb _); [done|].
  set (h := with_held st (held st + 1)) in *.
  assert (Hrh : ready h) by by apply ready_with_held.
  destruct (aix_magic_present d h data) as [s2 aix] eqn:Ea.
  destruct (aix_grows _ _ _ _ _ Ea Hrh) as (Hg & _ & Hp).
  destruct aix; [done|]. rewrite Hb in E. destruct (_ && _); [done|].
  destruct (table_accepted d data s2) as (s3 & Ep & _ & Hsl);
    [exact (grows_ready _ _ Hrh Hg)|rewrite (g_limit _ _ Hg); by destruct st|].
  rewrite Ep in E. cbn in E. injection E as <-.
  rewrite <- (Hsl i q Hi); [|rewrite Hp; by destruct st].
  cbn [fold_left]. by destruct (sub_entry _ _ _ 3).
Qed.

Lemma demo_accepted :
  option_map fst (msdos_partition demo_disk (demo_state 16)) = Some 1 /\
  option_map (fun data => find (bad_boot_ind data) [0; 1; 2; 3]) (sector demo_disk 0) = Some None.
Proof. split; vm_compute; reflexivity. Qed.

Lemma demo_slots (data : list Z) :
  sector demo_disk 0 = Some data ->
  map (fun i => primary_part demo_disk data i no_part) [0; 1; 2; 3] =
  [mkPart 1 40 0; mkPart 41 50 ADDPART_FLAG_RAID; mkPart 100 2 0; no_part].
Proof. intros E. vm_compute in E. injection E as <-. vm_compute. reflexivity. Qed.

Lemma msdos_primary_slots_witness :
  exists st', msdos_partition demo_disk (demo_state 16) = Some (1, st') /\
    map (fun i => parts st' !! Z.to_nat (i + 1)) [0; 1; 2; 3] =
    map Some [mkPart 1 40 0; mkPart 41 50 ADDPART_FLAG_RAID; mkPart 100 2 0; no_part].
Proof.
  destruct demo_accepted as [E1 E2].
  destruct (msdos_partition demo_disk (demo_state 16)) as [[res st']|] eqn:E; [|discriminate E1].
  destruct (sector demo_disk 0) as [data|] eqn:Es; [|discriminate E2].
  injection E1 as ->. injection E2 as E2. exists st'. split; [reflexivity|].
  rewrite <- (demo_slots data Es), map_map. apply map_ext_in. intros i Hi.
  apply (msdos_primary_slots demo_disk (demo_state 16) st' data i no_part); try assumption.
  - apply demo_ready. vm_compute. split; discriminate.
  - vm_compute. discriminate.
  - cbn in Hi. lia.
  - apply lookup_replicate. split; [reflexivity|]. cbn in Hi. unfold DISK_MAX_PARTS. lia.
Defined.

(** ** Extended partitions *)

(** C34: an extended partition whose tables form a chain of at most 100 gives its
    data partitions, in the order of the chain, to the slots from [next] on, as many
    as fit below the limit; every other slot keeps its contents. *)
Theorem parse_extended_chain (d : disk) (st : parsed_partitions) (fs fz : Z) (n : nat) (l : list found) :
  ready st -> next st < limit st -> chain d fs fz n fs fz l -> (n <= 100)%nat ->
  exists st', parse_extended d st fs fz = Some st' /\ grows st st' /\
    next st' = Z.min (next st + Z.of_nat (length l)) (limit st) /\
    (forall k e q, l !! k = Some e -> next st + Z.of_nat k < limit st ->
       parts st !! Z.to_nat (next st + Z.of_nat k) = Some q ->
       parts st' !! Z.to_nat (next st + Z.of_nat k) = Some (place_part e q)).
Proof.
  intros Hr Hn Hc Hlen. pose proof (ext_fuel_enough st Hr Hn) as Hf.
  destruct (place_all_spec l st Hr Hn) as (P1 & _ & _ & P2).
  exists (place_all l st).1. unfold parse_extended.
  rewrite (extended_loop_chain d fs fz n fs fz l Hc (ext_fuel st) st 0) by (done || lia).
  split_and!; [done|by apply place_all_grows|done|done].
Qed.

Lemma demo_chain :
  chain demo_disk 100 800 2 100 800 [mkFound 101 99 false; mkFound 201 199 false].
Proof.
  set (t1 := boot_sector [(0, 0x83, 1, 99); (0, 5, 100, 200)]).
  set (t2 := boot_sector [(0, 0x82, 1, 199)]).
  replace [mkFound 101 99 false; mkFound 201 199 false] with
    (table_found demo_disk t1 100 800 100 800 [0; 1; 2; 3] ++
     table_found demo_disk t2 200 200 100 800 [0; 1; 2; 3]) by (vm_compute; reflexivity).
  apply (chain_link demo_disk 100 800 1 100 800 t1 1); [vm_compute; reflexivity..|lia| | |].
  { apply (bool_decide_unpack _). vm_compute. exact I. }
  { intros j Hj. assert (j = 0) as -> by lia. apply (bool_decide_unpack _). vm_compute. exact I. }
  replace (u32 (100 + _)) with 200 by (vm_compute; reflexivity).
  replace (u32 _) with 200 by (vm_compute; reflexivity).
  apply (chain_last demo_disk 100 800 200 200 t2); [vm_compute; reflexivity..|].
  intros i Hi. assert (Hc : i = 0 \/ i = 1 \/ i = 2 \/ i = 3) by lia.
  destruct Hc as [->|[->|[->| ->]]]; apply (bool_decide_unpack _); vm_compute; exact I.
Qed.

Lemma parse_extended_chain_witness :
  exists st', parse_extended demo_disk (with_next (demo_state 16) 5) 100 800 = Some st' /\
    next st' = 7 /\ parts st' !! 6%nat = Some (mkPart 201 199 0).
Proof.
  destruct (parse_extended_chain demo_disk (with_next (demo_state 16) 5) 100 800 2
    [mkFound 101 99 false; mkFound 201 199 false]) as (st' & E & _ & Hn & Hp).
  - vm_compute. split_and!; discriminate || reflexivity.
  - vm_compute. reflexivity.
  - exact demo_chain.
  - lia.
  - exists st'. split; [exact E|]. split; [exact Hn|].
    apply (Hp 1%nat (mkFound 201 199 false) no_part); vm_compute; reflexivity.
Defined.

(** The chain may be cyclic or of any length: with a limit below five the parser never
    notices that [parts\[\]] is full, because [next] starts at five and is only
    compared for equality.  Here are 252 linked tables, each with a RAID partition. *)
Definition long_chain : disk :=
  mkDisk 100000 512 (fun n =>
    if (1 <=? n) && (n <=? 252) then Some (boot_sector [(0, 0xfd, 1, 1); (0, 5, n, 1)])
    else None) gray386_config.

(** with a disk that has four minors, a crafted chain of extended tables makes
    the parser store a flag beyond the end of [parts\[\]]. *)
Theorem extended_overflows_small_limit :
  option_map oob
    (parse_extended_loop 300 long_chain 1 10 (with_next (demo_state 4) 5) 0 1 10) = Some true.
Proof. vm_compute. reflexivity. Qed.

(** the range check on the third and fourth entries of an extended table wraps: a
    garbage entry of 2^32 - 100 sectors at offset 200 is taken for one inside an
    extended partition of 800 sectors at sector 100, and recorded. *)
Theorem extended_range_check_wraps :
  let data := boot_sector [(0, 0, 0, 0); (0, 0, 0, 0); (0, 0x83, 200, 0xffffff9c)] in
  let '(st', _, _) :=
    ext_data demo_disk data 100 800 100 800 [0; 1; 2; 3] (with_next (demo_state 16) 5) 0 in
  next st' = 6 /\ parts st' !! 5%nat = Some (mkPart 300 0xffffff9c 0).
Proof. vm_compute. split; reflexivity. Qed.

(** ** check_partition *)

Lemma check_part_run (d : disk) (st : parsed_partitions) :
  ready (with_parts st (replicate (Z.to_nat DISK_MAX_PARTS) no_part)) -> 5 <= limit st ->
  exists res st', run_checks d check_part st 0 = Some (if res =? 1 then (1, 0, st') else (0, res, st'))
    /\ framed (with_parts st (replicate (Z.to_nat DISK_MAX_PARTS) no_part)) st' /\
    msdos_partition d (with_parts st (replicate (Z.to_nat DISK_MAX_PARTS) no_part)) = Some (res, st').
Proof.
  intros Hr H5. destruct (msdos_partition_total d _ Hr) as (res & st' & E & Hf & Hres);
    [by destruct st|].
  exists res, st'. cbn [run_checks check_part]. rewrite E. cbn.
  destruct Hres as [->|[->| ->]]; done.
Qed.

(** the outcome of [check_partition] with the shipped list of parsers: it always
    returns; a table comes from a readable sector 0 with the 55 AA mark; the error is
    -ENOSPC exactly if a read went beyond the end of the disk, and otherwise -1 exactly
    if sector 0 is unreadable; no page stays held and no store left [parts\[\]]. *)
Theorem check_partition_outcome (warn : bool) (d : disk) (disk_name : string) (lim : Z) :
  5 <= lim <= DISK_MAX_PARTS ->
  exists r, check_partition true true warn d disk_name lim check_part = Some r /\
  match r with
  | NoMemory => False
  | Parsed st => held st = 0 /\ oob st = false /\ limit st = lim /\
      exists data, sector d 0 = Some data /\ msdos_magic_present data 510 = true
  | ErrPtr res st => held st = 0 /\ oob st = false /\
      (res = - ENOSPC <-> access_beyond_eod st = true) /\
      (access_beyond_eod st = false -> (res = -1 /\ sector d 0 = None) \/
         (res = 0 /\ is_Some (sector d 0)))
  end.
Proof.
  intros Hl. unfold check_partition. cbn [negb orb].
  set (st := mkState _ _ _ _ _ _ _ _).
  destruct (check_part_run d st) as (res & st' & -> & Hf & Em); [|cbn; lia|].
  { unfold ready. cbn [st with_parts next limit parts]. rewrite length_replicate. lia. }
  destruct Hf as [Hlim _ Hheld Hoob _ _ _]. cbn in Hlim, Hheld, Hoob.
  assert (Heod : access_beyond_eod st' = false -> res = -1 -> 0 < capacity d).
  { intros Ha ->. unfold msdos_partition, read_part_sector in Em.
    destruct (Z.leb_spec (capacity d) 0); [|done]. injection Em as <-. done. }
  apply msdos_partition_result in Em.
  destruct (Z.eqb_spec res 1) as [->|Hres1]; cbn [Z.ltb Z.compare mbind option_bind].
  - eexists; split; [reflexivity|]. destruct Em as [[? _]|(data & _ & Hs & _ & Hm)]; [done|].
    split_and!; eauto.
  - eexists; split; [reflexivity|].
    cbv iota beta zeta. match goal with |- held ?s = 0 /\ _ =>
      assert (held s = held st' /\ oob s = oob st' /\ access_beyond_eod s = access_beyond_eod st')
        as (-> & -> & ->) end.
    { destruct (_ =? 0), warn; by destruct st'. }
    split_and!; [done|done| |].
    + destruct (access_beyond_eod st'); [done|].
      destruct Em as [[-> _]|(data & _ & _ & [->| ->] & _)]; done.
    + intros Ha. rewrite Ha. destruct Em as [[-> [?|?]]|(data & _ & Hs & [->| ->] & _)];
        [specialize (Heod Ha eq_refl); lia|auto|right; eauto|done].
Qed.

Lemma check_partition_outcome_witness :
  exists r, check_partition true true true demo_disk "hda" 16 check_part = Some r /\ r <> NoMemory.
Proof.
  destruct (check_partition_outcome true demo_disk "hda" 16) as (r & E & H).
  - vm_compute. split; discriminate.
  - exists r. split; [exact E|]. intros ->. exact H.
Defined.
