(* ===== verification/DropbearBuffer.v ===== *)
(** * Dropbear's byte buffers

    A model of dropbear-2022.83/buffer.c, the buffer every SSH packet and key is read
    from and written to, with the SSH encodings of integers, strings and multiple
    precision integers.

    An operation takes the buffer and returns a result and the buffer, or exits
    ([dropbear_exit], with its message), or faults: a byte outside the allocation
    was read or written.  Positions are 32-bit unsigned.  An [mp_int] is the integer
    it represents, and the four libtommath functions that buffer.c calls are
    modelled on that integer; [mp_count_bits] walks its digits of 28 bits. *)

From Stdlib Require Import ZArith Lia Bool.
From stdpp Require Import base numbers list strings.
From S2P Require Import Prelude.
Open Scope Z_scope.

(** ** Results *)

Inductive res (A : Type) := Ok (a : A) | Exit (msg : string) | Fault.
Arguments Ok {A} _.
Arguments Exit {A} _.
Arguments Fault {A}.

#[export] Instance res_ret : MRet res := fun A a => Ok a.
#[export] Instance res_bind : MBind res := fun A B f r =>
  match r with Ok a => f a | Exit m => Exit m | Fault => Fault end.

Record buffer := mkBuf { data : list Z; len : Z; pos : Z; size : Z }.

(** Operations on a buffer. *)
Definition M (A : Type) : Type := buffer -> res (A * buffer).
#[export] Instance M_ret : MRet M := fun A a b => Ok (a, b).
#[export] Instance M_bind : MBind M := fun A B f m b =>
  match m b with Ok (a, b') => f a b' | Exit s => Exit s | Fault => Fault end.
Definition get : M buffer := fun b => Ok (b, b).
Definition put (b : buffer) : M unit := fun _ => Ok (tt, b).
Definition exit_ {A} (msg : string) : M A := fun _ => Exit msg.
Definition lift {A} (r : res A) : M A := fun b => a ← r; Ok (a, b).

Definition set_len (b : buffer) (l : Z) : buffer := mkBuf (data b) l (pos b) (size b).
Definition set_pos (b : buffer) (p : Z) : buffer := mkBuf (data b) (len b) p (size b).

(** ** Memory *)

Definition load (d : list Z) (p n : Z) : res (list Z) :=
  if (0 <=? p) && (p + n <=? Z.of_nat (length d)) then
    Ok (take (Z.to_nat n) (drop (Z.to_nat p) d))
  else Fault.

Definition store (d : list Z) (p : Z) (bs : list Z) : res (list Z) :=
  if (0 <=? p) && (p + Z.of_nat (length bs) <=? Z.of_nat (length d)) then
    Ok (list_inserts (Z.to_nat p) bs d)
  else Fault.

Definition read (p n : Z) : M (list Z) := b ← get; lift (load (data b) p n).
Definition write (p : Z) (bs : list Z) : M unit :=
  b ← get;
  d ← lift (store (data b) p bs);
  put (mkBuf d (len b) (pos b) (size b)).

Definition BUF_MAX_INCR : Z := 1000000000.
Definition BUF_MAX_SIZE : Z := 1000000000.
Definition BUF_MAX_MPINT : Z := 8240 `div` 8.
Definition MAX_STRING_LEN : Z := 9000.
Definition sizeof_buffer : Z := 16.

(** ** Multiple precision integers *)

Definition MP_DIGIT_BIT : Z := 28.

(** The digits [dp] of a magnitude that is not zero, the lowest first. *)
Fixpoint mp_digits (fuel : nat) (a : Z) : list Z :=
  match fuel with
  | O => []
  | S fuel => if a <? 2 ^ MP_DIGIT_BIT then [a] else a `mod` 2 ^ MP_DIGIT_BIT :: mp_digits fuel (a `div` 2 ^ MP_DIGIT_BIT)
  end.

(** [while (q > 0u)]; a digit has at most 28 bits. *)
Fixpoint digit_bits (fuel : nat) (q r : Z) : Z :=
  match fuel with
  | O => r
  | S fuel => if 0 <? q then digit_bits fuel (Z.shiftr q 1) (r + 1) else r
  end.

Definition mp_count_bits (a : Z) : Z :=
  if a =? 0 then 0
  else
    let dp := mp_digits (S (Z.to_nat (Z.log2 (Z.abs a)))) (Z.abs a) in
    let used := Z.of_nat (length dp) in
    digit_bits 28 (nth (Z.to_nat (used - 1)) dp 0) ((used - 1) * MP_DIGIT_BIT).

Definition mp_ubin_size (a : Z) : Z :=
  mp_count_bits a `div` 8 + (if Z.land (mp_count_bits a) 7 =? 0 then 0 else 1).

(** The loop of [mp_to_ubin], from the last of [count] bytes to the first. *)
Fixpoint ubin_loop (count : nat) (t : Z) (acc : list Z) : list Z :=
  match count with
  | O => acc
  | S n => ubin_loop n (Z.shiftr t 8) (Z.land t 255 :: acc)
  end.

(** The bytes, or none for [MP_BUF]. *)
Definition mp_to_ubin (a maxlen : Z) : option (list Z) :=
  if maxlen <? mp_ubin_size a then None
  else Some (ubin_loop (Z.to_nat (mp_ubin_size a)) (Z.abs a) []).

Definition mp_from_ubin (bs : list Z) : Z :=
  fold_left (fun a b => Z.lor (Z.shiftl a 8) b) bs 0.

(** ** Creating and freeing *)

Section allocation.
(** Whether an allocation of so many bytes succeeds, and what a grown allocation
    holds in its new part. *)
Variable malloc_ok : Z -> bool.
Variable junk : Z -> Z.

Definition m_malloc (n : Z) : res (list Z) :=
  if n =? 0 then Exit "m_malloc failed"
  else if malloc_ok n then Ok (replicate (Z.to_nat n) 0)
  else Exit "m_malloc failed".

(** The header is not part of [data]. *)
Definition buf_new (sz : Z) : res buffer :=
  if BUF_MAX_SIZE <? sz then Exit "buf->size too big"
  else
    mem ← m_malloc (sizeof_buffer + sz);
    Ok (mkBuf (drop (Z.to_nat sizeof_buffer) mem) 0 0 sz).

Definition m_realloc (d : list Z) (n : Z) : res (list Z) :=
  if sizeof_buffer + n =? 0 then Exit "m_realloc failed"
  else if malloc_ok (sizeof_buffer + n) then
    Ok (take (Z.to_nat n) d ++
        map junk (seqZ (Z.of_nat (length d)) (n - Z.of_nat (length d))))
  else Exit "m_realloc failed".

Definition buf_resize (newsize : Z) : M unit :=
  b ← get;
  if BUF_MAX_SIZE <? newsize then exit_ "buf->size too big"
  else
    d ← lift (m_realloc (data b) newsize);
    put (mkBuf d (Z.min newsize (len b)) (Z.min newsize (pos b)) newsize).

(** [m_burn] of the whole allocation, before it is freed. *)
Definition buf_burn_free : M unit :=
  b ← get; write 0 (replicate (Z.to_nat (size b)) 0).

Definition buf_newcopy : M buffer :=
  b ← get;
  ret ← lift (buf_new (len b));
  let ret := set_len ret (len b) in
  if 0 <? len b then
    bs ← read 0 (len b);
    d ← lift (store (data ret) 0 bs);
    mret (mkBuf d (len ret) (pos ret) (size ret))
  else mret ret.

(** ** Length and position *)

Definition buf_setlen (l : Z) : M unit :=
  b ← get;
  if size b <? l then exit_ "Bad buf_setlen"
  else put (mkBuf (data b) l (Z.min (pos b) l) (size b)).

Definition buf_incrlen (incr : Z) : M unit :=
  b ← get;
  if (BUF_MAX_INCR <? incr) || (size b <? u32 (len b + incr)) then exit_ "Bad buf_incrlen"
  else put (set_len b (u32 (len b + incr))).

Definition buf_setpos (p : Z) : M unit :=
  b ← get;
  if len b <? p then exit_ "Bad buf_setpos" else put (set_pos b p).

Definition buf_incrwritepos (incr : Z) : M unit :=
  b ← get;
  if (BUF_MAX_INCR <? incr) || (size b <? u32 (pos b + incr)) then exit_ "Bad buf_incrwritepos"
  else
    let b := set_pos b (u32 (pos b + incr)) in
    put (if len b <? pos b then set_len b (pos b) else b).

Definition buf_incrpos (incr : Z) : M unit :=
  b ← get;
  if (BUF_MAX_INCR <? incr) || (len b <? u32 (pos b + incr)) then exit_ "Bad buf_incrpos"
  else put (set_pos b (u32 (pos b + incr))).

Definition buf_decrpos (decr : Z) : M unit :=
  b ← get;
  if pos b <? decr then exit_ "Bad buf_decrpos" else put (set_pos b (u32 (pos b - decr))).

(** ** Bytes *)

Definition buf_getbyte : M Z :=
  b ← get;
  if len b <=? pos b then exit_ "Bad buf_getbyte"
  else
    bs ← read (pos b) 1;
    _ ← put (set_pos b (u32 (pos b + 1)));
    mret (default 0 (head bs)).

Definition buf_getbool : M Z :=
  b ← buf_getbyte; mret (if negb (b =? 0) then 1 else b).

Definition buf_putbyte (val : Z) : M unit :=
  b ← get;
  _ ← (if len b <=? pos b then buf_incrlen 1 else mret tt);
  _ ← write (pos b) [val];
  b ← get;
  put (set_pos b (u32 (pos b + 1))).

(** The pointers are offsets into [data]. *)
Definition buf_getptr (n : Z) : M Z :=
  b ← get;
  if (BUF_MAX_INCR <? n) || (len b <? u32 (pos b + n)) then exit_ "Bad buf_getptr"
  else mret (pos b).

Definition buf_getwriteptr (n : Z) : M Z :=
  b ← get;
  if (BUF_MAX_INCR <? n) || (size b <? u32 (pos b + n)) then exit_ "Bad buf_getwriteptr"
  else mret (pos b).

(** ** SSH integers and strings *)

Definition LOAD32H (bs : list Z) : Z :=
  match bs with
  | [b0; b1; b2; b3] =>
      Z.lor (Z.lor (Z.lor (Z.shiftl (Z.land b0 255) 24) (Z.shiftl (Z.land b1 255) 16))
               (Z.shiftl (Z.land b2 255) 8)) (Z.land b3 255)
  | _ => 0
  end.

Definition STORE32H (x : Z) : list Z :=
  [Z.land (Z.shiftr x 24) 255; Z.land (Z.shiftr x 16) 255; Z.land (Z.shiftr x 8) 255;
   Z.land x 255].

Definition buf_getint : M Z :=
  p ← buf_getptr 4;
  bs ← read p 4;
  _ ← buf_incrpos 4;
  mret (LOAD32H bs).

Definition buf_putint (val : Z) : M unit :=
  p ← buf_getwriteptr 4;
  _ ← write p (STORE32H val);
  buf_incrwritepos 4.

Definition buf_putbytes (bytes : list Z) : M unit :=
  p ← buf_getwriteptr (Z.of_nat (length bytes));
  _ ← write p bytes;
  buf_incrwritepos (Z.of_nat (length bytes)).

Definition buf_putstring (str : list Z) : M unit :=
  _ ← buf_putint (Z.of_nat (length str));
  buf_putbytes str.

Definition buf_putbufstring (buf_str : buffer) : M unit :=
  str ← lift (load (data buf_str) 0 (len buf_str));
  buf_putstring str.

(** The allocated copy, with its terminating NUL, and the length. *)
Definition buf_getstring : M (list Z * Z) :=
  n ← buf_getint;
  if MAX_STRING_LEN <? n then exit_ "String too long"
  else
    src ← buf_getptr n;
    ret ← lift (m_malloc (u32 (n + 1)));
    bs ← read src n;
    ret ← lift (store ret 0 bs);
    _ ← buf_incrpos n;
    ret ← lift (store ret n [0]);
    mret (ret, n).

(** Run an operation on another buffer. *)
Definition on (b : buffer) {A} (m : M A) : M (A * buffer) := lift (m b).

Definition buf_getstringbuf_int (incllen : bool) : M buffer :=
  n ← buf_getint;
  if MAX_STRING_LEN <? n then exit_ "String too long"
  else
    ret ← lift (buf_new (u32 (n + (if incllen then 4 else 0))));
    r ← (if incllen then on ret (buf_putint n) else mret (tt, ret));
    w ← on r.2 (buf_getwriteptr n);
    p ← buf_getptr n;
    bs ← read p n;
    r ← on w.2 (write w.1 bs);
    _ ← buf_incrpos n;
    r ← on r.2 (buf_incrlen n);
    r ← on r.2 (buf_setpos 0);
    mret r.2.

Definition buf_getstringbuf : M buffer := buf_getstringbuf_int false.
Definition buf_getbuf : M buffer := buf_getstringbuf_int true.

Definition buf_eatstring : M unit := n ← buf_getint; buf_incrpos n.

(** ** SSH multiple precision integers *)

Definition buf_putmpint (mp : Z) : M unit :=
  if mp <? 0 then exit_ "negative bignum"
  else
    let bits := mp_count_bits mp in
    let pad := if mp =? 0 then 0 else if bits `mod` 8 =? 0 then 1 else 0 in
    let n := if mp =? 0 then 0 else bits `div` 8 + 1 in
    _ ← buf_putint n;
    if 0 <? n then
      _ ← (if negb (pad =? 0) then buf_putbyte 0 else mret tt);
      p ← buf_getwriteptr (n - pad);
      match mp_to_ubin mp (n - pad) with
      | None => exit_ "mpint error"
      | Some bs =>
          _ ← write p bs;
          buf_incrwritepos (Z.of_nat (length bs))
      end
    else mret tt.

(** The integer, or none for [DROPBEAR_FAILURE]. *)
Definition buf_getmpint : M (option Z) :=
  n ← buf_getint;
  if n =? 0 then mret (Some 0)
  else if BUF_MAX_MPINT <? n then mret None
  else
    p ← buf_getptr 1;
    b ← read p 1;
    if negb (Z.land (default 0 (head b)) 128 =? 0) then mret None
    else
      p ← buf_getptr n;
      bs ← read p n;
      _ ← buf_incrpos n;
      mret (Some (mp_from_ubin bs)).

(** ** Sequences of operations *)

Inductive op :=
| OpResize (n : Z) | OpNewcopy | OpSetlen (n : Z) | OpIncrlen (n : Z) | OpSetpos (n : Z)
| OpIncrwritepos (n : Z) | OpIncrpos (n : Z) | OpDecrpos (n : Z) | OpGetbyte | OpGetbool
| OpPutbyte (v : Z) | OpGetptr (n : Z) | OpGetwriteptr (n : Z) | OpGetstring
| OpGetstringbuf | OpGetbuf | OpEatstring | OpGetint | OpPutint (v : Z)
| OpPutstring (s : list Z) | OpPutbytes (s : list Z) | OpPutmpint (n : Z) | OpGetmpint.

Definition ignore {A} (m : M A) : M unit := _ ← m; mret tt.

Definition run_op (o : op) : M unit :=
  match o with
  | OpResize n => buf_resize n | OpNewcopy => ignore buf_newcopy
  | OpSetlen n => buf_setlen n | OpIncrlen n => buf_incrlen n | OpSetpos n => buf_setpos n
  | OpIncrwritepos n => buf_incrwritepos n | OpIncrpos n => buf_incrpos n
  | OpDecrpos n => buf_decrpos n | OpGetbyte => ignore buf_getbyte
  | OpGetbool => ignore buf_getbool | OpPutbyte v => buf_putbyte v
  | OpGetptr n => ignore (buf_getptr n) | OpGetwriteptr n => ignore (buf_getwriteptr n)
  | OpGetstring => ignore buf_getstring | OpGetstringbuf => ignore buf_getstringbuf
  | OpGetbuf => ignore buf_getbuf | OpEatstring => buf_eatstring
  | OpGetint => ignore buf_getint | OpPutint v => buf_putint v
  | OpPutstring s => buf_putstring s | OpPutbytes s => buf_putbytes s
  | OpPutmpint n => buf_putmpint n | OpGetmpint => ignore buf_getmpint
  end.

Fixpoint run_ops (l : list op) : M unit :=
  match l with
  | [] => mret tt
  | o :: l => _ ← run_op o; run_ops l
  end.

(** The arguments C types can carry: 32-bit lengths, bytes. *)
Definition op_args (o : op) : Prop :=
  match o with
  | OpResize n | OpSetlen n | OpIncrlen n | OpSetpos n | OpIncrwritepos n | OpIncrpos n
  | OpDecrpos n | OpGetptr n | OpGetwriteptr n | OpPutint n => is_u32 n
  | OpPutbyte v => is_u8 v
  | OpPutstring s | OpPutbytes s => Forall is_u8 s /\ is_u32 (Z.of_nat (length s))
  | OpPutmpint n => mp_count_bits n < 2147483648
  | _ => True
  end.
End allocation.
