(* ===== verification/DropbearBufferProofs.v ===== *)
(** * Dropbear's byte buffers: safety and round trips

    Weakest preconditions for the operations of [DropbearBuffer], the invariant of a
    buffer and the proof that no sequence of operations leaves it or touches a byte
    outside the allocation; and that what the SSH encoders write, the decoders read
    back. *)

From Stdlib Require Import ZArith Lia Bool.
From stdpp Require Import base numbers list strings.
From S2P Require Import Prelude DropbearBuffer.
Open Scope Z_scope.

(** ** Weakest preconditions *)

(** Never a fault; in [Total] mode the operation does not exit either. *)
Inductive mode := Partial | Total.
Definition may_exit (t : mode) : Prop := match t with Partial => True | Total => False end.

Definition rwp {A} (t : mode) (r : res A) (Q : A -> Prop) : Prop :=
  match r with Ok a => Q a | Exit _ => may_exit t | Fault => False end.
Definition wp {A} (t : mode) (m : M A) (Q : A -> buffer -> Prop) (b : buffer) : Prop :=
  rwp t (m b) (fun r => Q r.1 r.2).

Lemma wp_bind {A B} t (m : M A) (f : A -> M B) Q b :
  wp t m (fun a => wp t (f a) Q) b -> wp t (m ≫= f) Q b.
Proof. unfold wp, mbind, M_bind. by destruct (m b) as [[a b']| |]. Qed.
Lemma wp_ret {A} t (a : A) (Q : A -> buffer -> Prop) b : Q a b -> wp t (mret a) Q b.
Proof. done. Qed.
Lemma wp_get t Q b : Q b b -> wp t get Q b.
Proof. done. Qed.
Lemma wp_put t Q b b' : Q tt b' -> wp t (put b') Q b.
Proof. done. Qed.
Lemma wp_exit {A} t s (Q : A -> buffer -> Prop) b : may_exit t -> wp t (exit_ s) Q b.
Proof. done. Qed.
Lemma wp_mono {A} t (m : M A) (Q R : A -> buffer -> Prop) b :
  wp t m Q b -> (forall a b', Q a b' -> R a b') -> wp t m R b.
Proof. unfold wp. destruct (m b) as [[a b']| |]; cbn; auto. Qed.
Lemma wp_lift {A} t (r : res A) (Q : A -> buffer -> Prop) b :
  rwp t r (fun a => Q a b) -> wp t (lift r) Q b.
Proof. unfold wp, lift, rwp. by destruct r. Qed.
Lemma wp_on {A} t b0 (m : M A) (Q : A * buffer -> buffer -> Prop) b :
  wp t m (fun a b' => Q (a, b') b) b0 -> wp t (on b0 m) Q b.
Proof. unfold on. intros H. apply wp_lift. unfold wp in H. by destruct (m b0) as [[]| |]. Qed.

(** What a total triple says. *)
Lemma wp_total {A} (m : M A) (Q : A -> buffer -> Prop) b :
  wp Total m Q b -> exists a b', m b = Ok (a, b') /\ Q a b'.
Proof. unfold wp. destruct (m b) as [[a b']| |]; cbn; [eauto|done|done]. Qed.

Lemma rwp_load t d p n (Q : list Z -> Prop) :
  0 <= p -> p + n <= Z.of_nat (length d) ->
  Q (take (Z.to_nat n) (drop (Z.to_nat p) d)) -> rwp t (load d p n) Q.
Proof.
  intros H1 H2 HQ. unfold load.
  rewrite (proj2 (Z.leb_le 0 p)), (proj2 (Z.leb_le (p + n) _)) by lia. done.
Qed.

Lemma rwp_store t d p bs (Q : list Z -> Prop) :
  0 <= p -> p + Z.of_nat (length bs) <= Z.of_nat (length d) ->
  Q (list_inserts (Z.to_nat p) bs d) -> rwp t (store d p bs) Q.
Proof.
  intros H1 H2 HQ. unfold store.
  rewrite (proj2 (Z.leb_le 0 p)), (proj2 (Z.leb_le (p + _) _)) by lia. done.
Qed.

Lemma wp_read t p n Q b :
  0 <= p -> p + n <= Z.of_nat (length (data b)) ->
  Q (take (Z.to_nat n) (drop (Z.to_nat p) (data b))) b -> wp t (read p n) Q b.
Proof. intros. apply wp_bind, wp_get, wp_lift. by apply rwp_load. Qed.

(** The buffer with bytes stored from offset [p] on. *)
Definition wrote (b : buffer) (p : Z) (bs : list Z) : buffer :=
  mkBuf (list_inserts (Z.to_nat p) bs (data b)) (len b) (pos b) (size b).

Lemma wp_write t p bs (Q : unit -> buffer -> Prop) b :
  0 <= p -> p + Z.of_nat (length bs) <= Z.of_nat (length (data b)) ->
  Q tt (wrote b p bs) -> wp t (write p bs) Q b.
Proof. intros. apply wp_bind, wp_get, wp_bind, wp_lift. by apply rwp_store. Qed.

(** One step of symbolic execution. *)
Ltac wpstep :=
  lazymatch goal with
  | |- wp _ (mbind _ _) _ _ => apply wp_bind
  | |- wp _ get _ _ => apply wp_get
  | |- wp _ (put _) _ _ => apply wp_put
  | |- wp _ (mret _) _ _ => apply wp_ret
  | |- wp _ (exit_ _) _ _ => apply wp_exit
  end; cbv beta.
Ltac wpsteps := repeat wpstep.

(** ** The invariant *)

Record wf (b : buffer) : Prop := mkWf {
  wf_pos : 0 <= pos b <= len b;
  wf_len : len b <= size b;
  wf_size : size b <= BUF_MAX_SIZE;
  wf_data : Z.of_nat (length (data b)) = size b;
  wf_bytes : Forall is_u8 (data b)
}.

Lemma wf_u32 b n : wf b -> 0 <= n <= BUF_MAX_INCR -> u32 (pos b + n) = pos b + n.
Proof.
  intros [] Hn. apply u32_id. unfold is_u32, BUF_MAX_SIZE, BUF_MAX_INCR in *. lia.
Qed.
Lemma wf_u32_len b n : wf b -> 0 <= n <= BUF_MAX_INCR -> u32 (len b + n) = len b + n.
Proof.
  intros [] Hn. apply u32_id. unfold is_u32, BUF_MAX_SIZE, BUF_MAX_INCR in *. lia.
Qed.

Lemma Forall_inserts (P : Z -> Prop) i bs d :
  Forall P bs -> Forall P d -> Forall P (list_inserts i bs d).
Proof.
  intros Hb Hd. revert i. induction Hb as [|x bs Hx Hb IH]; intros i; cbn; [done|].
  by apply Forall_insert.
Qed.

Lemma wf_wrote b p bs : wf b -> Forall is_u8 bs -> wf (wrote b p bs).
Proof.
  intros [] Hbs. split; cbn; try done.
  - by rewrite length_inserts.
  - by apply Forall_inserts.
Qed.

Lemma wf_set_pos b p : wf b -> 0 <= p <= len b -> wf (set_pos b p).
Proof. intros [] ?. split; cbn; done || lia. Qed.
Lemma wf_set_len b l : wf b -> pos b <= l <= size b -> wf (set_len b l).
Proof. intros [] ?. split; cbn; done || lia. Qed.

(** The position moves on, taking the length along. *)
Definition advance (b : buffer) (n : Z) : buffer :=
  mkBuf (data b) (Z.max (len b) (pos b + n)) (pos b + n) (size b).

Lemma wf_advance b n : wf b -> 0 <= n -> pos b + n <= size b -> wf (advance b n).
Proof. intros [] ??. split; cbn; done || lia. Qed.

Create HintDb buf discriminated.
#[export] Hint Resolve wf_wrote wf_set_pos wf_set_len wf_advance : buf.

(** ** Positions *)

(** An exit is allowed when the condition a total triple asks for fails. *)
Ltac exits :=
  try apply wp_exit;
  match goal with
  | t : mode, H : ?t = Total -> _ |- may_exit ?t =>
      destruct t; [done|exfalso; specialize (H eq_refl); lia]
  end.

Section positions.
Context (t : mode) (b : buffer) (Hwf : wf b) (n : Z).

Lemma wp_incrpos (Q : unit -> buffer -> Prop) :
  is_u32 n -> (t = Total -> n <= BUF_MAX_INCR /\ pos b + n <= len b) ->
  (n <= BUF_MAX_INCR -> pos b + n <= len b -> Q tt (set_pos b (pos b + n))) ->
  wp t (buf_incrpos n) Q b.
Proof.
  intros Hn HT HQ. unfold buf_incrpos. wpsteps.
  destruct (Z.ltb_spec BUF_MAX_INCR n); [exits|]. destruct Hn.
  rewrite wf_u32 by (done || lia). cbn [orb].
  destruct (Z.ltb_spec (len b) (pos b + n)); [exits|]. by apply HQ.
Qed.

Lemma wp_getptr (Q : Z -> buffer -> Prop) :
  is_u32 n -> (t = Total -> n <= BUF_MAX_INCR /\ pos b + n <= len b) ->
  (n <= BUF_MAX_INCR -> pos b + n <= len b -> Q (pos b) b) -> wp t (buf_getptr n) Q b.
Proof.
  intros Hn HT HQ. unfold buf_getptr. wpsteps.
  destruct (Z.ltb_spec BUF_MAX_INCR n); [exits|]. destruct Hn.
  rewrite wf_u32 by (done || lia). cbn [orb].
  destruct (Z.ltb_spec (len b) (pos b + n)); [exits|]. by apply HQ.
Qed.

Lemma wp_getwriteptr (Q : Z -> buffer -> Prop) :
  is_u32 n -> (t = Total -> n <= BUF_MAX_INCR /\ pos b + n <= size b) ->
  (n <= BUF_MAX_INCR -> pos b + n <= size b -> Q (pos b) b) -> wp t (buf_getwriteptr n) Q b.
Proof.
  intros Hn HT HQ. unfold buf_getwriteptr. wpsteps.
  destruct (Z.ltb_spec BUF_MAX_INCR n); [exits|]. destruct Hn.
  rewrite wf_u32 by (done || lia). cbn [orb].
  destruct (Z.ltb_spec (size b) (pos b + n)); [exits|]. by apply HQ.
Qed.

Lemma wp_incrwritepos (Q : unit -> buffer -> Prop) :
  is_u32 n -> (t = Total -> n <= BUF_MAX_INCR /\ pos b + n <= size b) ->
  (n <= BUF_MAX_INCR -> pos b + n <= size b -> Q tt (advance b n)) ->
  wp t (buf_incrwritepos n) Q b.
Proof.
  intros Hn HT HQ. unfold buf_incrwritepos. wpsteps.
  destruct (Z.ltb_spec BUF_MAX_INCR n); [exits|]. destruct Hn.
  rewrite wf_u32 by (done || lia). cbn [orb].
  destruct (Z.ltb_spec (size b) (pos b + n)); [exits|]. wpsteps.
  specialize (HQ ltac:(lia) ltac:(lia)). unfold advance in HQ.
  cbn [len pos set_pos]. destruct (Z.ltb_spec (len b) (pos b + n)).
  - by rewrite Z.max_r in HQ by lia.
  - by rewrite Z.max_l in HQ by lia.
Qed.

Lemma wp_incrlen (Q : unit -> buffer -> Prop) :
  is_u32 n -> (t = Total -> n <= BUF_MAX_INCR /\ len b + n <= size b) ->
  (n <= BUF_MAX_INCR -> len b + n <= size b -> Q tt (set_len b (len b + n))) ->
  wp t (buf_incrlen n) Q b.
Proof.
  intros Hn HT HQ. unfold buf_incrlen. wpsteps.
  destruct (Z.ltb_spec BUF_MAX_INCR n); [exits|]. destruct Hn.
  rewrite wf_u32_len by (done || lia). cbn [orb].
  destruct (Z.ltb_spec (size b) (len b + n)); [exits|]. by apply HQ.
Qed.

Lemma wp_setpos (Q : unit -> buffer -> Prop) :
  (t = Total -> n <= len b) -> (n <= len b -> Q tt (set_pos b n)) -> wp t (buf_setpos n) Q b.
Proof.
  intros HT HQ. unfold buf_setpos. wpsteps. destruct (Z.ltb_spec (len b) n); [exits|]. by apply HQ.
Qed.

Lemma wp_setlen (Q : unit -> buffer -> Prop) :
  is_u32 n -> (t = Total -> n <= size b) ->
  (n <= size b -> Q tt (mkBuf (data b) n (Z.min (pos b) n) (size b))) -> wp t (buf_setlen n) Q b.
Proof.
  intros Hn HT HQ. unfold buf_setlen. wpsteps.
  destruct (Z.ltb_spec (size b) n); [exits|]. by apply HQ.
Qed.

Lemma wp_decrpos (Q : unit -> buffer -> Prop) :
  is_u32 n -> (t = Total -> n <= pos b) -> (n <= pos b -> Q tt (set_pos b (pos b - n))) ->
  wp t (buf_decrpos n) Q b.
Proof.
  intros [Hn _] HT HQ. unfold buf_decrpos. wpsteps.
  destruct (Z.ltb_spec (pos b) n); [exits|]. rewrite u32_id; [by apply HQ|].
  destruct Hwf. unfold is_u32, BUF_MAX_SIZE in *. lia.
Qed.
End positions.

(** ** Bytes *)

Lemma inserts_split (p : nat) (bs d : list Z) :
  (p + length bs <= length d)%nat ->
  list_inserts p bs d = take p d ++ bs ++ drop (p + length bs) d.
Proof.
  intros Hl. rewrite <- (take_drop p d) at 1.
  replace p with (length (take p d) + 0)%nat at 1 by (rewrite length_take; lia).
  rewrite list_inserts_app_r. f_equal.
  rewrite <- (take_drop (length bs) (drop p d)) at 1.
  rewrite list_inserts_0_r by (rewrite length_take, length_drop; lia). by rewrite drop_drop.
Qed.

(** A window of the bytes just written. *)
Lemma window_wrote (p i k : nat) (bs d : list Z) :
  (p + length bs <= length d)%nat -> (i + k <= length bs)%nat ->
  take k (drop (p + i) (list_inserts p bs d)) = take k (drop i bs).
Proof.
  intros Hl Hk. rewrite inserts_split by done.
  rewrite drop_app_ge by (rewrite length_take; lia).
  replace (p + i - length (take p d))%nat with i by (rewrite length_take; lia).
  rewrite drop_app_le by lia. by rewrite take_app_le by (rewrite length_drop; lia).
Qed.

Lemma wf_read b p n :
  wf b -> 0 <= p -> Forall is_u8 (take n (drop (Z.to_nat p) (data b))).
Proof. intros [] ?. by apply Forall_take, Forall_drop. Qed.

Lemma STORE32H_bytes v : Forall is_u8 (STORE32H v).
Proof.
  unfold STORE32H. rewrite !land_255. repeat constructor; apply Z.mod_pos_bound; lia.
Qed.

Lemma lor_high_low x y k : 0 <= k -> 0 <= y < 2 ^ k -> Z.lor (x * 2 ^ k) y = x * 2 ^ k + y.
Proof. intros Hk Hy. rewrite Z.lor_comm, lor_low_high by done. lia. Qed.

Lemma LOAD32H_value b0 b1 b2 b3 :
  is_u8 b0 -> is_u8 b1 -> is_u8 b2 -> is_u8 b3 ->
  LOAD32H [b0; b1; b2; b3] = 16777216 * b0 + 65536 * b1 + 256 * b2 + b3.
Proof.
  unfold is_u8, LOAD32H. intros H0 H1 H2 H3.
  rewrite !land_255, !Z.mod_small, !shiftl_mul by lia.
  rewrite (lor_high_low b0 (b1 * 2 ^ 16) 24) by lia.
  replace (b0 * 2 ^ 24 + b1 * 2 ^ 16) with ((b0 * 2 ^ 8 + b1) * 2 ^ 16) by lia.
  rewrite (lor_high_low _ (b2 * 2 ^ 8) 16) by lia.
  replace ((b0 * 2 ^ 8 + b1) * 2 ^ 16 + b2 * 2 ^ 8) with
    ((b0 * 2 ^ 16 + b1 * 2 ^ 8 + b2) * 2 ^ 8) by lia.
  rewrite lor_high_low by lia. lia.
Qed.

Lemma LOAD32H_u32 bs : Forall is_u8 bs -> is_u32 (LOAD32H bs).
Proof.
  intros H. destruct bs as [|b0 [|b1 [|b2 [|b3 [|]]]]]; try done.
  rewrite !Forall_cons in H. destruct H as (H0 & H1 & H2 & H3 & _).
  rewrite LOAD32H_value by done. unfold is_u8, is_u32 in *. lia.
Qed.

Lemma LOAD32H_STORE32H v : is_u32 v -> LOAD32H (STORE32H v) = v.
Proof.
  intros Hv. pose proof (STORE32H_bytes v) as H. unfold STORE32H in *.
  rewrite !Forall_cons in H. destruct H as (H0 & H1 & H2 & H3 & _).
  rewrite LOAD32H_value by done. rewrite !land_255, !shiftr_div by lia. unfold is_u32 in Hv. zlia.
Qed.

Lemma wp_putbytes t bs b (Q : unit -> buffer -> Prop) :
  wf b -> Forall is_u8 bs -> is_u32 (Z.of_nat (length bs)) ->
  (t = Total -> Z.of_nat (length bs) <= BUF_MAX_INCR /\ pos b + Z.of_nat (length bs) <= size b) ->
  (pos b + Z.of_nat (length bs) <= size b ->
   Q tt (advance (wrote b (pos b) bs) (Z.of_nat (length bs)))) ->
  wp t (buf_putbytes bs) Q b.
Proof.
  intros Hwf Hbs Hn HT HQ. unfold buf_putbytes. wpsteps.
  apply wp_getwriteptr; [done..|]. intros H1 H2. wpsteps.
  pose proof (wf_pos _ Hwf). pose proof (wf_data _ Hwf).
  apply wp_write; [lia|lia|]. apply wp_incrwritepos; [by apply wf_wrote|done|done|auto].
Qed.

Lemma wp_putint t v b (Q : unit -> buffer -> Prop) :
  wf b -> (t = Total -> pos b + 4 <= size b) ->
  (pos b + 4 <= size b -> Q tt (advance (wrote b (pos b) (STORE32H v)) 4)) ->
  wp t (buf_putint v) Q b.
Proof.
  intros Hwf HT HQ.
  apply (wp_putbytes t (STORE32H v) b Q); cbn [length STORE32H]; auto using STORE32H_bytes; [done|].
  intros Ht. specialize (HT Ht). split; [done|]. lia.
Qed.

Lemma wp_putbyte t v b (Q : unit -> buffer -> Prop) :
  wf b -> is_u8 v -> (t = Total -> pos b + 1 <= size b) ->
  (pos b + 1 <= size b -> Q tt (advance (wrote b (pos b) [v]) 1)) ->
  wp t (buf_putbyte v) Q b.
Proof.
  intros Hwf Hv HT HQ. unfold buf_putbyte. wpsteps.
  pose proof (wf_pos _ Hwf). pose proof (wf_len _ Hwf). pose proof (wf_data _ Hwf).
  assert (Hu : u32 (pos b + 1) = pos b + 1) by by apply wf_u32.
  destruct (Z.leb_spec (len b) (pos b)).
  - apply wp_incrlen; [done|done| |].
    + intros Ht. specialize (HT Ht). split; [done|]. lia.
    + intros _ H3. wpsteps. apply wp_write; [cbn; lia|cbn; lia|]. wpsteps.
      cbn [pos wrote set_len]. rewrite Hu. unfold advance in HQ. cbn [len pos size data wrote] in HQ.
      rewrite Z.max_r in HQ by lia. replace (len b + 1) with (pos b + 1) by lia.
      apply HQ. lia.
  - wpsteps. apply wp_write; [lia|cbn; lia|]. wpsteps. cbn [pos wrote]. rewrite Hu.
    unfold advance in HQ. cbn [len pos size data wrote] in HQ. rewrite Z.max_l in HQ by lia.
    apply HQ. lia.
Qed.

Lemma wp_getbyte t b (Q : Z -> buffer -> Prop) :
  wf b -> (t = Total -> pos b < len b) ->
  (pos b < len b -> forall v, is_u8 v -> data b !! Z.to_nat (pos b) = Some v ->
     Q v (set_pos b (pos b + 1))) ->
  wp t buf_getbyte Q b.
Proof.
  intros Hwf HT HQ. unfold buf_getbyte. wpsteps.
  pose proof (wf_pos _ Hwf). pose proof (wf_len _ Hwf). pose proof (wf_data _ Hwf).
  destruct (Z.leb_spec (len b) (pos b)); [exits|]. wpsteps.
  apply wp_read; [lia|lia|]. wpsteps. rewrite wf_u32 by done.
  destruct (lookup_lt_is_Some_2 (data b) (Z.to_nat (pos b))) as [v Hv]; [lia|].
  rewrite (drop_S _ v) by done. apply HQ; [done| |done].
  by eapply Forall_lookup_1; [apply Hwf|].
Qed.

Lemma wp_getint t b (Q : Z -> buffer -> Prop) :
  wf b -> (t = Total -> pos b + 4 <= len b) ->
  (pos b + 4 <= len b -> forall v, is_u32 v ->
     v = LOAD32H (take 4 (drop (Z.to_nat (pos b)) (data b))) -> Q v (set_pos b (pos b + 4))) ->
  wp t buf_getint Q b.
Proof.
  intros Hwf HT HQ. unfold buf_getint. wpsteps.
  pose proof (wf_pos _ Hwf). pose proof (wf_len _ Hwf). pose proof (wf_data _ Hwf).
  assert (HT4 : t = Total -> 4 <= BUF_MAX_INCR /\ pos b + 4 <= len b) by (intros; split; auto; done).
  apply wp_getptr; [done..|]. intros _ H3. wpsteps.
  apply wp_read; [lia|lia|]. wpsteps. apply wp_incrpos; [done..|]. intros _ _. wpsteps.
  apply HQ; [done| |done]. apply LOAD32H_u32, wf_read; [done|lia].
Qed.

(** ** Strings *)

Abbreviation zlen l := (Z.of_nat (length l)).

(** Appending bytes at the position. *)
Definition appended (b : buffer) (bs : list Z) : buffer := advance (wrote b (pos b) bs) (zlen bs).

Lemma appended_app b x y : 0 <= pos b -> appended (appended b x) y = appended b (x ++ y).
Proof.
  intros Hp. unfold appended, advance, wrote. cbn [data len pos size].
  rewrite length_app, list_inserts_app_l.
  replace (Z.to_nat (pos b + zlen x)) with (length x + Z.to_nat (pos b))%nat by lia.
  f_equal; lia.
Qed.

Lemma appended_nil b : wf b -> appended b [] = b.
Proof.
  intros []. destruct b as [d l p sz]. unfold appended, advance, wrote. cbn in *.
  f_equal; lia.
Qed.

Lemma wf_appended b bs :
  wf b -> Forall is_u8 bs -> pos b + zlen bs <= size b -> wf (appended b bs).
Proof. intros Hwf Hbs Hl. apply wf_advance; [by apply wf_wrote|lia|done]. Qed.

Lemma wp_putstring t s b (Q : unit -> buffer -> Prop) :
  wf b -> Forall is_u8 s -> is_u32 (zlen s) -> (t = Total -> pos b + 4 + zlen s <= size b) ->
  (pos b + 4 + zlen s <= size b -> Q tt (appended b (STORE32H (zlen s) ++ s))) ->
  wp t (buf_putstring s) Q b.
Proof.
  intros Hwf Hs Hu HT HQ. unfold buf_putstring. wpsteps.
  pose proof (wf_pos _ Hwf). pose proof (wf_size _ Hwf).
  apply wp_putint; [done| |].
  { intros Ht. specialize (HT Ht). lia. }
  intros H4. change (advance _ 4) with (appended b (STORE32H (zlen s))).
  apply wp_putbytes; [|done|done| |].
  - apply wf_appended; [done|apply STORE32H_bytes|done].
  - intros Ht. specialize (HT Ht). cbn. unfold BUF_MAX_INCR, BUF_MAX_SIZE in *. lia.
  - intros H5. cbn in H5. rewrite <- appended_app in HQ by lia. apply HQ. lia.
Qed.

Section allocating.
Context (t : mode) (malloc_ok : Z -> bool).

Lemma rwp_m_malloc n (Q : list Z -> Prop) :
  0 < n -> (t = Total -> malloc_ok n = true) ->
  Q (replicate (Z.to_nat n) 0) -> rwp t (m_malloc malloc_ok n) Q.
Proof.
  intros Hn HT HQ. unfold m_malloc. destruct (Z.eqb_spec n 0); [lia|].
  destruct (malloc_ok n); [done|]. destruct t; [done|]. by discriminate HT.
Qed.

Lemma rwp_buf_new n (Q : buffer -> Prop) :
  0 <= n -> (t = Total -> n <= BUF_MAX_SIZE /\ malloc_ok (16 + n) = true) ->
  (n <= BUF_MAX_SIZE -> Q (mkBuf (replicate (Z.to_nat n) 0) 0 0 n)) ->
  rwp t (buf_new malloc_ok n) Q.
Proof.
  intros Hn HT HQ. unfold buf_new. destruct (Z.ltb_spec BUF_MAX_SIZE n).
  { cbn. exits. }
  unfold m_malloc, sizeof_buffer. destruct (Z.eqb_spec (16 + n) 0); [lia|].
  destruct (malloc_ok _).
  - cbn. rewrite drop_replicate.
    replace (Z.to_nat (16 + n) - Z.to_nat 16)%nat with (Z.to_nat n) by lia. by apply HQ.
  - destruct t; [done|]. by destruct HT.
Qed.

Lemma wf_new n : 0 <= n <= BUF_MAX_SIZE -> wf (mkBuf (replicate (Z.to_nat n) 0) 0 0 n).
Proof.
  intros Hn. split; cbn; try lia.
  - rewrite length_replicate. lia.
  - apply Forall_replicate. done.
Qed.

Lemma wp_getstring b (Q : list Z * Z -> buffer -> Prop) :
  wf b ->
  let n := LOAD32H (take 4 (drop (Z.to_nat (pos b)) (data b))) in
  (t = Total -> pos b + 4 <= len b /\ n <= MAX_STRING_LEN /\ pos b + 4 + n <= len b /\
     malloc_ok (n + 1) = true) ->
  (is_u32 n -> n <= MAX_STRING_LEN -> pos b + 4 + n <= len b ->
   Q (take (Z.to_nat n) (drop (Z.to_nat (pos b + 4)) (data b)) ++ [0], n)
     (set_pos b (pos b + 4 + n))) ->
  wp t (buf_getstring malloc_ok) Q b.
Proof.
  intros Hwf n HT HQ. unfold buf_getstring. wpsteps.
  pose proof (wf_pos _ Hwf). pose proof (wf_len _ Hwf). pose proof (wf_data _ Hwf).
  apply wp_getint; [done|by intros Ht; apply HT|]. intros H4 v Hv ->. fold n in Hv |- *.
  pose proof Hv as [Hn0 Hn1]. destruct (Z.ltb_spec MAX_STRING_LEN n); [exits|].
  set (b1 := set_pos b (pos b + 4)). unfold MAX_STRING_LEN in *.
  assert (Hwf1 : wf b1) by (apply wf_set_pos; [done|lia]).
  assert (HT1 : t = Total -> n <= BUF_MAX_INCR /\ pos b1 + n <= len b1).
  { intros Ht. destruct (HT Ht) as (_ & _ & H5 & _). cbn. unfold BUF_MAX_INCR. lia. }
  wpsteps. apply wp_getptr; [done..|]. intros _ H6. cbn in H6.
  wpsteps. apply wp_lift. rewrite u32_id by (unfold is_u32; lia).
  apply rwp_m_malloc; [lia|by intros Ht; apply HT|].
  wpsteps. apply wp_read; [cbn; lia|cbn; lia|]. cbn [data pos b1 set_pos].
  set (bs := take _ _). assert (Hbs : length bs = Z.to_nat n).
  { unfold bs. rewrite length_take, length_drop. lia. }
  wpsteps. apply wp_lift, rwp_store; [lia|rewrite length_replicate; lia|].
  wpsteps. apply wp_incrpos; [done..|]. intros _ _.
  wpsteps. apply wp_lift, rwp_store; [lia|rewrite length_inserts, length_replicate; cbn; lia|].
  wpsteps. replace (Z.to_nat (n + 1)) with (length bs + 1)%nat by lia.
  rewrite replicate_add, list_inserts_0_r by by rewrite length_replicate.
  replace (Z.to_nat n) with (length bs + 0)%nat by lia. rewrite list_inserts_app_r.
  apply HQ; [done|done|lia].
Qed.

End allocating.

Lemma wp_eatstring b (Q : unit -> buffer -> Prop) :
  wf b ->
  (forall n, 0 <= n -> pos b + 4 + n <= len b -> Q tt (set_pos b (pos b + 4 + n))) ->
  wp Partial buf_eatstring Q b.
Proof.
  intros Hwf HQ. unfold buf_eatstring. wpsteps. pose proof (wf_pos _ Hwf).
  apply wp_getint; [done|done|]. intros H4 v Hv _.
  apply wp_incrpos; [apply wf_set_pos; [done|lia]|done|done|].
  intros _ H5. destruct Hv. apply HQ; done.
Qed.

(** Any well-formed buffer is produced, and the source only moves on. *)
Lemma wp_getstringbuf malloc_ok incl b (Q : buffer -> buffer -> Prop) :
  wf b ->
  (forall n ret, wf ret -> 0 <= n -> pos b + 4 + n <= len b -> Q ret (set_pos b (pos b + 4 + n))) ->
  wp Partial (buf_getstringbuf_int malloc_ok incl) Q b.
Proof.
  intros Hwf HQ. unfold buf_getstringbuf_int. wpsteps.
  pose proof (wf_pos _ Hwf). pose proof (wf_len _ Hwf). pose proof (wf_data _ Hwf).
  apply wp_getint; [done|done|]. intros H4 n Hn _.
  destruct (Z.ltb_spec MAX_STRING_LEN n); [done|]. unfold MAX_STRING_LEN in *. pose proof Hn as [Hn0 _].
  wpsteps. apply wp_lift. rewrite u32_id by (unfold is_u32; destruct incl; lia).
  apply rwp_buf_new; [destruct incl; lia|done|]. intros Hsz.
  set (ret := mkBuf _ 0 0 _). assert (Hret : wf ret) by (apply wf_new; destruct incl; lia).
  assert (Hfirst : forall (R : unit * buffer -> buffer -> Prop) s,
    (forall r, wf r -> size r = size ret -> R (tt, r) s) ->
    wp Partial (if incl then on ret (buf_putint n) else mret (tt, ret)) R s).
  { intros R s HR. destruct incl; [|by apply wp_ret, HR].
    apply wp_on, wp_putint; [done|done|]. intros H5. apply HR; [|done].
    apply wf_appended; [done|apply STORE32H_bytes|done]. }
  wpsteps. apply Hfirst. intros r Hr Hrs. cbn [snd].
  wpsteps. apply wp_on, wp_getwriteptr; [done..|]. intros _ H6.
  assert (Hwf1 : wf (set_pos b (pos b + 4))) by (apply wf_set_pos; [done|lia]).
  wpsteps. apply wp_getptr; [done..|]. intros _ H7. cbn in H7. cbn [fst snd].
  wpsteps. apply wp_read; [cbn; lia|cbn; lia|]. cbn [data pos set_pos].
  set (bs := take _ _). assert (Hbs : length bs = Z.to_nat n).
  { unfold bs. rewrite length_take, length_drop. lia. }
  assert (Hbytes : Forall is_u8 bs) by (apply wf_read; [done|lia]).
  wpsteps. pose proof (wf_pos _ Hr). pose proof (wf_data _ Hr).
  apply wp_on, wp_write; [lia|lia|]. cbn [snd].
  wpsteps. apply wp_incrpos; [done..|]. intros _ _.
  wpsteps. apply wp_on, wp_incrlen; [by apply wf_wrote|done|done|]. intros _ H9.
  wpsteps. apply wp_on, wp_setpos; [done|]. intros _. cbn [snd]. wpsteps.
  apply HQ; [|done|done].
  apply wf_set_pos; [apply wf_set_len; [by apply wf_wrote|]|]; cbn in *; lia.
Qed.

(** ** Multiple precision integers *)

Lemma from_ubin_acc bs a :
  Forall is_u8 bs -> 0 <= a ->
  fold_left (fun a b => Z.lor (Z.shiftl a 8) b) bs a = a * 256 ^ zlen bs + mp_from_ubin bs.
Proof.
  intros Hbs. unfold mp_from_ubin. revert a.
  induction Hbs as [|x bs Hx Hbs IH]; intros a Ha; cbn [fold_left]; [cbn; lia|].
  unfold is_u8 in Hx.
  rewrite shiftl_mul, lor_high_low by lia. rewrite (IH (Z.lor _ _)).
  2:{ rewrite Z.shiftl_0_l, Z.lor_0_l. lia. }
  rewrite IH by lia. rewrite Z.shiftl_0_l, Z.lor_0_l.
  cbn [length]. rewrite Nat2Z.inj_succ, Z.pow_succ_r by lia. lia.
Qed.

Lemma ubin_loop_acc n t acc : ubin_loop n t acc = ubin_loop n t [] ++ acc.
Proof.
  revert t acc. induction n as [|n IH]; intros t acc; cbn [ubin_loop]; [done|].
  rewrite (IH _ [_]), (IH _ (_ :: acc)), <- app_assoc. done.
Qed.

Lemma ubin_loop_S n t : ubin_loop (S n) t [] = ubin_loop n (t `div` 256) [] ++ [t `mod` 256].
Proof. cbn [ubin_loop]. rewrite ubin_loop_acc, shiftr_div, land_255 by lia. done. Qed.

Lemma ubin_loop_spec n t :
  0 <= t -> length (ubin_loop n t []) = n /\ Forall is_u8 (ubin_loop n t []) /\
  mp_from_ubin (ubin_loop n t []) = t `mod` 256 ^ Z.of_nat n.
Proof.
  revert t. induction n as [|n IH]; intros t Ht.
  { split_and!; [done|constructor|]. cbn. by rewrite Z.mod_1_r. }
  rewrite ubin_loop_S. destruct (IH (t `div` 256)) as (H1 & H2 & H3); [zlia|].
  assert (Hb : is_u8 (t `mod` 256)) by (unfold is_u8; zlia).
  split_and!.
  - rewrite length_app, H1. cbn. lia.
  - apply Forall_app. auto.
  - unfold mp_from_ubin in *. rewrite fold_left_app. cbn [fold_left]. rewrite H3.
    rewrite shiftl_mul, lor_high_low by (unfold is_u8 in Hb; lia).
    rewrite Nat2Z.inj_succ, Z.pow_succ_r, Z.rem_mul_r by lia. lia.
Qed.

Lemma digit_bits_log2 fuel q r : 0 < q < 2 ^ Z.of_nat fuel -> digit_bits fuel q r = r + Z.log2 q + 1.
Proof.
  revert q r. induction fuel as [|fuel IH]; intros q r Hq; [cbn in Hq; lia|]. cbn [digit_bits]. rewrite (proj2 (Z.ltb_lt 0 q)) by lia.
  rewrite Nat2Z.inj_succ, Z.pow_succ_r in Hq by lia. rewrite Z.shiftr_div_pow2 by lia. change (2 ^ 1) with 2.
  destruct (Z.eq_dec q 1) as [->|Hne]; [change (1 `div` 2) with 0; change (Z.log2 1) with 0; destruct fuel; cbn [digit_bits Z.ltb Z.compare]; lia|]. rewrite IH by (split; [apply Z.div_str_pos; lia|apply Z.div_lt_upper_bound; lia]).
  change 2 with (2 ^ 1) at 1. rewrite <- Z.shiftr_div_pow2, Z.log2_shiftr by lia. pose proof (Z.log2_le_mono 2 q ltac:(lia)). change (Z.log2 2) with 1 in *. lia.
Qed.

(** The last digit, and the digits below it. *)
Lemma mp_digits_last fuel a : 0 < a -> Z.log2 a < Z.of_nat fuel ->
  exists l q, mp_digits fuel a = l ++ [q] /\ 0 < q < 2 ^ 28 /\ Z.log2 a = 28 * Z.of_nat (length l) + Z.log2 q.
Proof.
  revert a. induction fuel as [|fuel IH]; intros a Ha Hf; [pose proof (Z.log2_nonneg a); lia|]. cbn [mp_digits]. unfold MP_DIGIT_BIT.
  destruct (Z.ltb_spec a (2 ^ 28)) as [Hlt|Hge]; [exists [], a; by split_and!; try lia|].
  assert (Hd : 0 < a `div` 2 ^ 28) by (apply Z.div_str_pos; lia).
  assert (El : Z.log2 (a `div` 2 ^ 28) = Z.log2 a - 28).
  { pose proof (Z.log2_le_mono _ _ Hge) as H28. rewrite Z.log2_pow2 in H28 by lia. rewrite <- Z.shiftr_div_pow2, Z.log2_shiftr by lia. lia. }
  destruct (IH _ Hd ltac:(lia)) as (l & q & E & Hq & Hl). exists (a `mod` 2 ^ 28 :: l), q. rewrite E. split_and!; [done|lia|lia|cbn [length]; lia].
Qed.

Lemma mp_count_bits_log2 a : mp_count_bits a = if a =? 0 then 0 else Z.log2 (Z.abs a) + 1.
Proof.
  unfold mp_count_bits. destruct (Z.eqb_spec a 0) as [|Hne]; [done|].
  destruct (mp_digits_last (S (Z.to_nat (Z.log2 (Z.abs a)))) (Z.abs a)) as (l & q & E & Hq & Hl); [lia|pose proof (Z.log2_nonneg (Z.abs a)); lia|].
  rewrite E, length_app. cbn [length]. replace (Z.to_nat (Z.of_nat (length l + 1) - 1)) with (length l) by lia.
  rewrite nth_middle, digit_bits_log2 by exact Hq. unfold MP_DIGIT_BIT. lia.
Qed.

Lemma count_bits_bound a : 0 < a -> 0 < mp_count_bits a /\ 2 ^ (mp_count_bits a - 1) <= a < 2 ^ mp_count_bits a.
Proof.
  intros Ha. rewrite mp_count_bits_log2, (proj2 (Z.eqb_neq a 0)), Z.abs_eq by lia.
  pose proof (Z.log2_nonneg a). pose proof (Z.log2_spec a Ha) as H2.
  rewrite Z.add_simpl_r, <- Z.add_1_r in *. lia.
Qed.

Lemma ubin_size_value a :
  0 < a -> let k := mp_count_bits a in
  mp_ubin_size a = k `div` 8 + (if k `mod` 8 =? 0 then 0 else 1) /\
  0 < mp_ubin_size a /\ k <= 8 * mp_ubin_size a /\
  a < 256 ^ mp_ubin_size a.
Proof.
  intros Ha k. destruct (count_bits_bound a Ha) as (Hk & Hlo & Hhi). fold k in Hk, Hlo, Hhi.
  assert (E : mp_ubin_size a = k `div` 8 + (if k `mod` 8 =? 0 then 0 else 1)).
  { unfold mp_ubin_size. fold k. by rewrite land_7. }
  assert (Hle : k <= 8 * mp_ubin_size a) by (rewrite E; destruct (Z.eqb_spec (k `mod` 8) 0); zlia).
  split_and!; [done|lia|done|].
  change 256 with (2 ^ 8). rewrite <- Z.pow_mul_r by lia.
  eapply Z.lt_le_trans; [exact Hhi|]. apply Z.pow_le_mono_r; lia.
Qed.

(** The bytes of an SSH mpint, after its length. *)
Definition mp_bytes (a : Z) : list Z :=
  if a =? 0 then []
  else (if mp_count_bits a `mod` 8 =? 0 then [0] else []) ++
       ubin_loop (Z.to_nat (mp_ubin_size a)) a [].

Lemma mp_bytes_spec a :
  0 <= a ->
  zlen (mp_bytes a) = (if a =? 0 then 0 else mp_count_bits a `div` 8 + 1) /\
  Forall is_u8 (mp_bytes a) /\ mp_from_ubin (mp_bytes a) = a.
Proof.
  intros Ha. unfold mp_bytes. destruct (Z.eqb_spec a 0) as [->|Hne]; [done|].
  destruct (ubin_size_value a) as (E & Hpos & Hle & Hhi); [lia|].
  destruct (ubin_loop_spec (Z.to_nat (mp_ubin_size a)) a Ha) as (L1 & L2 & L3).
  rewrite Z2Nat.id, Z.mod_small in L3 by lia.
  rewrite length_app, L1. destruct (mp_count_bits a `mod` 8 =? 0); cbn [length app].
  - split_and!; [lia| |done]. constructor; [done|exact L2].
  - split_and!; [lia|exact L2|exact L3].
Qed.

(** The first byte has its top bit clear: the number reads as non-negative. *)
Lemma ubin_head n t :
  0 <= t < 256 ^ Z.of_nat (S n) -> head (ubin_loop (S n) t []) = Some (t `div` 256 ^ Z.of_nat n).
Proof.
  revert t. induction n as [|n IH]; intros t Ht; rewrite ubin_loop_S.
  { cbn [ubin_loop app head]. cbn [Z.of_nat]. rewrite Z.div_1_r. f_equal.
    apply Z.mod_small. cbn in Ht. lia. }
  rewrite Nat2Z.inj_succ, Z.pow_succ_r in Ht by lia.
  assert (Hd : 0 <= t `div` 256 < 256 ^ Z.of_nat (S n)) by (split; [zlia|apply Z.div_lt_upper_bound; lia]).
  specialize (IH _ Hd). destruct (ubin_loop (S n) (t `div` 256) []); [done|]. cbn [app head] in IH |- *.
  rewrite IH, Z.div_div by lia. by rewrite Nat2Z.inj_succ, Z.pow_succ_r by lia.
Qed.

Lemma mp_bytes_head a :
  0 < a -> exists x rest, mp_bytes a = x :: rest /\ 0 <= x < 128.
Proof.
  intros Ha. unfold mp_bytes. rewrite (proj2 (Z.eqb_neq a 0)) by lia.
  destruct (ubin_size_value a Ha) as (E & Hpos & Hle & Hhi).
  destruct (count_bits_bound a Ha) as (Hk & Hlo & Hhi2).
  set (k := mp_count_bits a) in *.
  destruct (Z.eqb_spec (k `mod` 8) 0) as [|Hm]; cbn [app].
  { do 2 eexists. split; [reflexivity|lia]. }
  replace (Z.to_nat (mp_ubin_size a)) with (S (Z.to_nat (k `div` 8))) by zlia.
  assert (H := ubin_head (Z.to_nat (k `div` 8)) a).
  replace (Z.of_nat (S (Z.to_nat (k `div` 8)))) with (mp_ubin_size a) in H by zlia.
  rewrite Z2Nat.id in H by zlia. specialize (H ltac:(lia)).
  destruct (ubin_loop _ a []) as [|x rest]; [done|]. injection H as ->.
  do 2 eexists. split; [reflexivity|]. split; [apply Z.div_pos; lia|].
  apply Z.div_lt_upper_bound; [lia|]. eapply Z.lt_le_trans; [exact Hhi2|].
  change 256 with (2 ^ 8). change 128 with (2 ^ 7).
  rewrite <- Z.pow_mul_r, <- Z.pow_add_r by zlia. apply Z.pow_le_mono_r; [lia|]. zlia.
Qed.

Lemma mp_to_ubin_ok a :
  0 <= a -> mp_to_ubin a (mp_ubin_size a) = Some (ubin_loop (Z.to_nat (mp_ubin_size a)) a []).
Proof. intros Ha. unfold mp_to_ubin. by rewrite Z.ltb_irrefl, Z.abs_eq. Qed.

(** The part of [buf_putmpint] after the length, for a positive number. *)
Lemma wp_put_ubin t a pad b (Q : unit -> buffer -> Prop) :
  wf b -> 0 < a -> mp_count_bits a < 2147483648 ->
  pad = (if mp_count_bits a `mod` 8 =? 0 then 1 else 0) ->
  (t = Total -> pos b + zlen (mp_bytes a) <= size b) ->
  (pos b + zlen (mp_bytes a) <= size b -> Q tt (appended b (mp_bytes a))) ->
  wp t (_ ← (if negb (pad =? 0) then buf_putbyte 0 else mret tt);
        p ← buf_getwriteptr (zlen (mp_bytes a) - pad);
        match mp_to_ubin a (zlen (mp_bytes a) - pad) with
        | None => exit_ "mpint error"
        | Some bs => _ ← write p bs; buf_incrwritepos (zlen bs)
        end) Q b.
Proof.
  intros Hwf Ha Hbits Hpad HT HQ.
  destruct (ubin_size_value a Ha) as (E & Hpos & _ & _).
  destruct (ubin_loop_spec (Z.to_nat (mp_ubin_size a)) a) as (L1 & L2 & _); [lia|].
  destruct (mp_bytes_spec a) as (Hlen & _ & _); [lia|].
  rewrite (proj2 (Z.eqb_neq a 0)) in Hlen by lia.
  set (ub := ubin_loop (Z.to_nat (mp_ubin_size a)) a []) in *.
  assert (Hsz : zlen (mp_bytes a) - pad = zlen ub).
  { rewrite Hlen, L1, Hpad, Z2Nat.id by lia. rewrite E. destruct (_ =? 0); lia. }
  assert (Hbs : mp_bytes a = (if negb (pad =? 0) then [0] else []) ++ ub).
  { unfold mp_bytes. rewrite (proj2 (Z.eqb_neq a 0)), Hpad by lia. by destruct (_ =? 0). }
  assert (Hto : mp_to_ubin a (zlen ub) = Some ub).
  { rewrite L1, Z2Nat.id by lia. apply mp_to_ubin_ok. lia. }
  assert (Hu : 0 <= zlen ub <= 300000000) by (rewrite L1, Z2Nat.id by lia; rewrite E; destruct (_ =? 0); zlia).
  rewrite Hsz, Hto.
  assert (Hrest : forall b' : buffer, wf b' -> (t = Total -> pos b' + zlen ub <= size b') ->
    (pos b' + zlen ub <= size b' -> Q tt (appended b' ub)) -> wp t (buf_putbytes ub) Q b').
  { intros b' Hwf' HT' HQ'. apply wp_putbytes; auto; [unfold is_u32; lia|].
    intros Ht. split; [unfold BUF_MAX_INCR; lia|auto]. }
  apply wp_bind. destruct (negb (pad =? 0)).
  - rewrite Hbs, length_app in HT, HQ. cbn [length] in HT, HQ. pose proof (wf_pos _ Hwf).
    apply wp_putbyte; [done|done|intros Ht; specialize (HT Ht); lia|]. intros H1.
    change (advance _ 1) with (appended b [0]). apply Hrest.
    + apply wf_appended; [done|by repeat constructor|done].
    + intros Ht. specialize (HT Ht). cbn. lia.
    + intros H2. cbn in H2. rewrite <- appended_app in HQ by lia. apply HQ. lia.
  - apply wp_ret. rewrite Hbs in HT, HQ. by apply Hrest.
Qed.

Lemma wp_putmpint t a b (Q : unit -> buffer -> Prop) :
  wf b -> mp_count_bits a < 2147483648 ->
  (t = Total -> 0 <= a /\ pos b + 4 + zlen (mp_bytes a) <= size b) ->
  (0 <= a -> pos b + 4 + zlen (mp_bytes a) <= size b ->
   Q tt (appended b (STORE32H (zlen (mp_bytes a)) ++ mp_bytes a))) ->
  wp t (buf_putmpint a) Q b.
Proof.
  intros Hwf Hbits HT HQ. unfold buf_putmpint.
  destruct (Z.ltb_spec a 0); [apply wp_exit; exits|].
  destruct (mp_bytes_spec a) as (Hlen & Hbytes & _); [done|].
  rewrite <- Hlen. pose proof (wf_pos _ Hwf). pose proof (wf_size _ Hwf).
  wpsteps. apply wp_putint; [done|intros Ht; specialize (HT Ht); lia|].
  intros H4. change (advance _ 4) with (appended b (STORE32H (zlen (mp_bytes a)))).
  rewrite <- appended_app in HQ by lia. set (b1 := appended b _) in *.
  assert (Hwf1 : wf b1) by (apply wf_appended; [done|apply STORE32H_bytes|done]).
  destruct (Z.eqb_spec a 0) as [->|Hne].
  { apply wp_ret. rewrite <- (appended_nil b1 Hwf1). apply HQ; cbn; lia. }
  assert (Hpos : 0 < zlen (mp_bytes a)) by (rewrite Hlen; destruct (count_bits_bound a); zlia).
  rewrite (proj2 (Z.ltb_lt 0 _)) by done.
  apply wp_put_ubin; [done|lia|done|done| |]; cbn.
  - intros Ht. specialize (HT Ht). lia.
  - intros H5. apply HQ; [done|lia].
Qed.

Lemma wp_getmpint t b (Q : option Z -> buffer -> Prop) :
  wf b ->
  let n := LOAD32H (take 4 (drop (Z.to_nat (pos b)) (data b))) in
  let bs := take (Z.to_nat n) (drop (Z.to_nat (pos b + 4)) (data b)) in
  (t = Total -> pos b + 4 + n <= len b) ->
  (pos b + 4 <= len b -> BUF_MAX_MPINT < n \/ Z.land (default 0 (head bs)) 128 <> 0 ->
   Q None (set_pos b (pos b + 4))) ->
  (n <= BUF_MAX_MPINT -> 0 <= n -> pos b + 4 + n <= len b ->
   Q (Some (mp_from_ubin bs)) (set_pos b (pos b + 4 + n))) ->
  wp t buf_getmpint Q b.
Proof.
  intros Hwf n bs HT HNone HSome. unfold buf_getmpint. wpsteps.
  pose proof (wf_pos _ Hwf). pose proof (wf_len _ Hwf). pose proof (wf_data _ Hwf).
  assert (Hn : is_u32 n) by (apply LOAD32H_u32, wf_read; [done|lia]). destruct Hn as [Hn0 Hn1].
  apply wp_getint; [done|intros Ht; specialize (HT Ht); lia|].
  intros H4 v _ ->. fold n. set (b1 := set_pos b (pos b + 4)).
  assert (Hwf1 : wf b1) by (apply wf_set_pos; [done|lia]).
  destruct (Z.eqb_spec n 0) as [En|En].
  { apply wp_ret. specialize (HSome ltac:(rewrite En; done) ltac:(lia) ltac:(lia)).
    unfold bs in HSome. rewrite En in HSome. rewrite Z.add_0_r in HSome. exact HSome. }
  destruct (Z.ltb_spec BUF_MAX_MPINT n) as [Hbig|Hsmall].
  { apply wp_ret. apply HNone; [done|by left]. }
  wpsteps. apply wp_getptr; [done|done|intros Ht; specialize (HT Ht); split; [done|cbn; lia]|].
  intros _ H5. cbn in H5. wpsteps. apply wp_read; [cbn; lia|cbn; lia|]. cbn [data pos b1 set_pos].
  assert (Hhead : head (take (Z.to_nat 1) (drop (Z.to_nat (pos b + 4)) (data b))) = head bs).
  { unfold bs. replace (Z.to_nat n) with (S (Z.to_nat (n - 1))) by lia. by destruct (drop (Z.to_nat (pos b + 4)) (data b)). }
  rewrite Hhead. destruct (Z.eqb_spec (Z.land (default 0 (head bs)) 128) 0) as [Hl|Hl]; cbn [negb].
  2:{ apply wp_ret. apply HNone; [done|by right]. }
  assert (HT1 : t = Total -> n <= BUF_MAX_INCR /\ pos b1 + n <= len b1).
  { intros Ht. specialize (HT Ht). cbn. unfold BUF_MAX_INCR. change BUF_MAX_MPINT with 1030 in Hsmall. lia. }
  wpsteps. apply wp_getptr; [done|done|done|]. intros _ H6. cbn in H6.
  wpsteps. apply wp_read; [cbn; lia|cbn; lia|]. wpsteps.
  apply wp_incrpos; [done|done|done|]. intros _ _. wpsteps. apply HSome; [done|done|lia].
Qed.

(** ** Every operation *)

Section every_operation.
Variable malloc_ok : Z -> bool.
Variable junk : Z -> Z.
Hypothesis junk_byte : forall k, is_u8 (junk k).

Lemma wp_resize n b (Q : unit -> buffer -> Prop) :
  wf b -> is_u32 n -> (forall b', wf b' -> Q tt b') -> wp Partial (buf_resize malloc_ok junk n) Q b.
Proof.
  intros Hwf [Hn _] HQ. unfold buf_resize. wpsteps.
  destruct (Z.ltb_spec BUF_MAX_SIZE n); [done|]. wpsteps. apply wp_lift.
  unfold m_realloc. destruct (_ =? 0); [done|]. destruct (malloc_ok _); [|done]. cbn.
  apply HQ. destruct Hwf. split; cbn; try lia.
  - rewrite length_app, length_take, length_map, length_seqZ. lia.
  - apply Forall_app. split; [by apply Forall_take|]. apply Forall_map, Forall_true. intros k. apply junk_byte.
Qed.

Lemma wp_newcopy b (Q : buffer -> buffer -> Prop) :
  wf b -> (forall ret, wf ret -> Q ret b) -> wp Partial (buf_newcopy malloc_ok) Q b.
Proof.
  intros Hwf HQ. unfold buf_newcopy. wpsteps. apply wp_lift.
  pose proof (wf_pos _ Hwf). pose proof (wf_len _ Hwf). pose proof (wf_data _ Hwf).
  apply rwp_buf_new; [lia|done|]. intros Hsz.
  assert (Hret : wf (set_len (mkBuf (replicate (Z.to_nat (len b)) 0) 0 0 (len b)) (len b))).
  { apply wf_set_len; [apply wf_new; lia|cbn; lia]. }
  destruct (0 <? len b); [|by apply wp_ret, HQ].
  wpsteps. apply wp_read; [lia|lia|]. wpsteps. apply wp_lift, rwp_store; [lia| |].
  { cbn. rewrite length_replicate, length_take, drop_0. lia. }
  wpsteps. apply HQ. apply (wf_wrote _ 0 _ Hret), wf_read; [done|lia].
Qed.

Lemma run_op_safe o b :
  wf b -> op_args o -> wp Partial (run_op malloc_ok junk o) (fun _ => wf) b.
Proof.
  intros Hwf Ho. pose proof (wf_pos _ Hwf).
  destruct o; cbn [run_op op_args] in *; unfold ignore, buf_getstringbuf, buf_getbuf.
  all: try wpstep.
  - by apply wp_resize.
  - apply wp_newcopy; [done|]. intros. by apply wp_ret.
  - apply wp_setlen; [done|done|]. intros. destruct Hwf, Ho. split; cbn; done || lia.
  - apply wp_incrlen; [done..|]. intros. destruct Ho. apply wf_set_len; [done|lia].
  - apply wp_setpos; [done|]. intros. destruct Ho. apply wf_set_pos; [done|lia].
  - apply wp_incrwritepos; [done..|]. intros. destruct Ho. by apply wf_advance.
  - apply wp_incrpos; [done..|]. intros. destruct Ho. apply wf_set_pos; [done|lia].
  - apply wp_decrpos; [done..|]. intros. destruct Ho. apply wf_set_pos; [done|lia].
  - apply wp_getbyte; [done..|]. intros. apply wp_ret. apply wf_set_pos; [done|lia].
  - unfold buf_getbool. apply wp_bind, wp_getbyte; [done..|]. intros. apply wp_ret, wp_ret.
    apply wf_set_pos; [done|lia].
  - apply wp_putbyte; [done..|]. intros. apply wf_appended; [done|by apply Forall_singleton|done].
  - apply wp_getptr; [done..|]. intros. by apply wp_ret.
  - apply wp_getwriteptr; [done..|]. intros. by apply wp_ret.
  - apply wp_getstring; [done..|]. intros [] **. apply wp_ret. apply wf_set_pos; [done|lia].
  - apply wp_getstringbuf; [done|]. intros. apply wp_ret. apply wf_set_pos; [done|lia].
  - apply wp_getstringbuf; [done|]. intros. apply wp_ret. apply wf_set_pos; [done|lia].
  - apply wp_eatstring; [done|]. intros. apply wf_set_pos; [done|lia].
  - apply wp_getint; [done..|]. intros. apply wp_ret. apply wf_set_pos; [done|lia].
  - apply wp_putint; [done..|]. intros. apply wf_appended; [done|apply STORE32H_bytes|done].
  - apply wp_putstring; [done|apply Ho|apply Ho|done|]. intros.
    apply wf_appended; [done|apply Forall_app; split; [apply STORE32H_bytes|apply Ho]|].
    rewrite length_app. cbn [length STORE32H]. lia.
  - apply wp_putbytes; [done|apply Ho|apply Ho|done|]. intros. by apply wf_appended; [|apply Ho|].
  - apply wp_putmpint; [done..|]. intros Hn Hl. apply wf_appended; [done| |].
    + apply Forall_app. split; [apply STORE32H_bytes|by apply mp_bytes_spec].
    + rewrite length_app. cbn [length STORE32H]. lia.
  - apply wp_getmpint; [done..| |]; intros; apply wp_ret; apply wf_set_pos; done || lia.
Qed.

Lemma run_ops_safe l b :
  wf b -> Forall op_args l -> wp Partial (run_ops malloc_ok junk l) (fun _ => wf) b.
Proof.
  intros Hwf Hl. revert b Hwf. induction Hl as [|o l Ho Hl IH]; intros b Hwf; [by apply wp_ret|].
  cbn [run_ops]. apply wp_bind. eapply wp_mono; [by apply run_op_safe|]. cbn. auto.
Qed.
End every_operation.

(** ** Reading back *)

(** What a reader positioned at the start sees of a length-prefixed encoding. *)
Record encoded (b b1 : buffer) (x : list Z) : Prop := mkEncoded {
  e_wf : wf b1;
  e_pos : pos b1 = pos b + 4 + zlen x;
  e_len : pos b1 <= len b1;
  e_int : LOAD32H (take 4 (drop (Z.to_nat (pos b)) (data b1))) = zlen x;
  e_body : take (length x) (drop (Z.to_nat (pos b + 4)) (data b1)) = x;
  e_frame : forall k, (k < Z.to_nat (pos b) \/ Z.to_nat (pos b1) <= k)%nat ->
    data b1 !! k = data b !! k
}.

Lemma appended_encoded b x :
  wf b -> Forall is_u8 x -> is_u32 (zlen x) -> pos b + 4 + zlen x <= size b ->
  encoded b (appended b (STORE32H (zlen x) ++ x)) x.
Proof.
  intros Hwf Hx Hu Hfit. set (enc := STORE32H (zlen x) ++ x).
  pose proof (wf_pos _ Hwf). pose proof (wf_data _ Hwf).
  assert (Henc : length enc = (4 + length x)%nat) by reflexivity.
  assert (Hpos : pos (appended b enc) = pos b + 4 + zlen x).
  { change (pos b + zlen enc = pos b + 4 + zlen x). rewrite Henc. lia. }
  assert (Hdata : data (appended b enc) = list_inserts (Z.to_nat (pos b)) enc (data b)) by done.
  split; rewrite ?Hdata.
  - apply wf_appended; [done|apply Forall_app; split; [apply STORE32H_bytes|done]|lia].
  - done.
  - cbn. lia.
  - rewrite <- (Nat.add_0_r (Z.to_nat (pos b))) at 1.
    rewrite window_wrote by lia. by apply LOAD32H_STORE32H.
  - replace (Z.to_nat (pos b + 4)) with (Z.to_nat (pos b) + 4)%nat by lia.
    rewrite window_wrote by lia. unfold enc. rewrite drop_app_length' by done. by rewrite firstn_all.
  - rewrite Hpos. intros k Hk.
    destruct Hk; [apply list_lookup_inserts_lt; lia|apply list_lookup_inserts_ge; lia].
Qed.

Lemma top_bit_clear x : 0 <= x < 128 -> Z.land x 128 = 0.
Proof.
  intros Hx. apply Z.bits_inj'. intros i Hi. rewrite Z.land_spec, Z.bits_0.
  change 128 with (2 ^ 7). rewrite Z.pow2_bits_eqb by lia.
  destruct (Z.eqb_spec 7 i) as [<-|]; [|apply andb_false_r]. rewrite andb_true_r.
  destruct (Z.eq_dec x 0) as [->|]; [done|]. apply Z.bits_above_log2; [lia|].
  apply Z.log2_lt_pow2; lia.
Qed.

(** ** Properties *)

(** C29: starting from a well-formed buffer, no sequence of buffer operations with
    arguments of their C types reads or writes outside the allocation; the program
    exits or leaves a well-formed buffer (position within length within size, bytes
    in range). *)
Theorem buf_ops_safe (malloc_ok : Z -> bool) (junk : Z -> Z) (l : list op) (b : buffer) :
  (forall k, is_u8 (junk k)) -> wf b -> Forall op_args l ->
  match run_ops malloc_ok junk l b with
  | Ok (_, b') => wf b'
  | Exit _ => True
  | Fault => False
  end.
Proof.
  intros Hj Hwf Hl. pose proof (run_ops_safe malloc_ok junk Hj l b Hwf Hl) as H.
  unfold wp, rwp in H. by destruct (run_ops malloc_ok junk l b) as [[]| |].
Qed.

Lemma zero_u8 : is_u8 0.
Proof. done. Qed.

Definition demo_buf : buffer := mkBuf (replicate 64 0) 0 0 64.
Lemma demo_buf_wf : wf demo_buf.
Proof. apply (wf_new 64). unfold BUF_MAX_SIZE. lia. Qed.

Lemma buf_ops_safe_witness :
  exists b', run_ops (fun _ => true) (fun _ => 0)
    [OpPutstring [104; 105]; OpPutmpint 40000; OpSetpos 0; OpGetstring; OpGetmpint; OpResize 20]
    demo_buf = Ok (tt, b') /\ wf b'.
Proof.
  pose proof (buf_ops_safe (fun _ => true) (fun _ => 0)
    [OpPutstring [104; 105]; OpPutmpint 40000; OpSetpos 0; OpGetstring; OpGetmpint; OpResize 20]
    demo_buf) as H.
  destruct (run_ops _ _ _ _) as [[[] b']|m|] eqn:E; [|vm_compute in E; discriminate E..].
  exists b'. split; [reflexivity|]. apply H; [|apply demo_buf_wf|].
  - intros _. apply zero_u8.
  - repeat constructor; vm_compute; intuition discriminate.
Defined.

(** an SSH string written by [buf_putstring] is read back unchanged by
    [buf_getstring], which ends where the writer ended; the writer leaves the bytes
    before and after it alone. *)
Theorem buf_string_roundtrip (malloc_ok : Z -> bool) (s : list Z) (b : buffer) :
  (forall n, malloc_ok n = true) -> wf b -> Forall is_u8 s -> zlen s <= MAX_STRING_LEN ->
  pos b + 4 + zlen s <= size b ->
  exists b1, buf_putstring s b = Ok (tt, b1) /\ wf b1 /\ pos b1 = pos b + 4 + zlen s /\
    (forall k, (k < Z.to_nat (pos b) \/ Z.to_nat (pos b1) <= k)%nat -> data b1 !! k = data b !! k) /\
    buf_getstring malloc_ok (set_pos b1 (pos b)) = Ok ((s ++ [0], zlen s), b1).
Proof.
  intros Hm Hwf Hs Hmax Hfit. pose proof (wf_pos _ Hwf). pose proof (wf_data _ Hwf).
  assert (Hu : is_u32 (zlen s)) by (unfold is_u32, MAX_STRING_LEN in *; lia).
  pose proof (appended_encoded b s Hwf Hs Hu Hfit) as [].
  destruct (wp_total (buf_putstring s) (fun _ b1 => b1 = appended b (STORE32H (zlen s) ++ s)) b)
    as ([] & b1 & Eput & ->); [by apply wp_putstring|].
  set (b1 := appended b _) in *. exists b1. split_and!; try done.
  destruct (wp_total (buf_getstring malloc_ok)
    (fun r b2 => r = (s ++ [0], zlen s) /\ b2 = b1) (set_pos b1 (pos b))) as (r & b2 & E & -> & ->);
    [|done].
  apply wp_getstring; [apply wf_set_pos; [done|lia]| |]; cbn [pos data len set_pos]; rewrite e_int0.
  - intros _. split_and!; [lia|done|lia|apply Hm].
  - intros _ _ Hl. rewrite Nat2Z.id, e_body0, <- e_pos0. by destruct b1.
Qed.

Lemma buf_string_roundtrip_witness :
  exists b1, buf_putstring [115; 115; 104] demo_buf = Ok (tt, b1) /\
    buf_getstring (fun _ => true) (set_pos b1 0) = Ok (([115; 115; 104; 0], 3), b1).
Proof.
  destruct (buf_string_roundtrip (fun _ => true) [115; 115; 104] demo_buf)
    as (b1 & H1 & _ & _ & _ & H2); [done|apply demo_buf_wf| | | |].
  - repeat constructor; vm_compute; discriminate.
  - vm_compute. discriminate.
  - vm_compute. discriminate.
  - exists b1. split; [exact H1|exact H2].
Defined.

(** C38: a non-negative integer of at most 1030 bytes written by [buf_putmpint] is
    read back by [buf_getmpint] with the same value: the padding keeps the sign bit
    clear, so a value with its top bit set is not taken for a negative one. *)
Theorem buf_mpint_roundtrip (a : Z) (b : buffer) :
  wf b -> 0 <= a -> zlen (mp_bytes a) <= BUF_MAX_MPINT -> mp_count_bits a < 2147483648 ->
  pos b + 4 + zlen (mp_bytes a) <= size b ->
  exists b1, buf_putmpint a b = Ok (tt, b1) /\ wf b1 /\ pos b1 = pos b + 4 + zlen (mp_bytes a) /\
    buf_getmpint (set_pos b1 (pos b)) = Ok (Some a, b1).
Proof.
  intros Hwf Ha Hmax Hbits Hfit. pose proof (wf_pos _ Hwf). pose proof (wf_data _ Hwf).
  destruct (mp_bytes_spec a Ha) as (_ & Hbytes & Hval).
  assert (Hu : is_u32 (zlen (mp_bytes a))) by (change BUF_MAX_MPINT with 1030 in Hmax; unfold is_u32; lia).
  pose proof (appended_encoded b _ Hwf Hbytes Hu Hfit) as [].
  destruct (wp_total (buf_putmpint a)
    (fun _ b1 => b1 = appended b (STORE32H (zlen (mp_bytes a)) ++ mp_bytes a)) b)
    as ([] & b1 & Eput & ->); [by apply wp_putmpint|].
  set (b1 := appended b _) in *. exists b1. split_and!; try done.
  destruct (wp_total buf_getmpint (fun r b2 => r = Some a /\ b2 = b1) (set_pos b1 (pos b)))
    as (r & b2 & E & -> & ->); [|done].
  apply wp_getmpint; [apply wf_set_pos; [done|lia]| | |]; cbn [pos data len set_pos];
    rewrite ?e_int0, ?Nat2Z.id, ?e_body0.
  - lia.
  - intros _ [Hbig|Hneg]; [lia|exfalso]. destruct (Z.eq_dec a 0) as [->|]; [by apply Hneg|].
    destruct (mp_bytes_head a) as (x & rest & E & Hx); [lia|].
    rewrite E in Hneg. by apply Hneg, top_bit_clear.
  - intros _ _ _. rewrite Hval, <- e_pos0. by destruct b1.
Qed.

Lemma buf_mpint_roundtrip_witness :
  exists b1, buf_putmpint 0xff01 demo_buf = Ok (tt, b1) /\
    buf_getmpint (set_pos b1 0) = Ok (Some 0xff01, b1).
Proof.
  destruct (buf_mpint_roundtrip 0xff01 demo_buf) as (b1 & H1 & _ & _ & H2);
    [apply demo_buf_wf|vm_compute; discriminate..|vm_compute; reflexivity|vm_compute; discriminate|].
  exists b1. split; [exact H1|exact H2].
Defined.
