(* ===== verification/CircBuffer.v ===== *)
(** * Dropbear's circular buffers

    A model of dropbear-2022.83/circbuffer.c, the buffer of every SSH channel, and the
    proof that it is a bounded first-in first-out queue of bytes. *)

From Stdlib Require Import ZArith Lia Bool.
From stdpp Require Import base numbers list strings.
From S2P Require Import Prelude DropbearBuffer DropbearBufferProofs.
Open Scope Z_scope.

Module Circ.

(** [struct circbuf]; [data] is allocated by the first write. *)
Record circbuffer := mkCirc {
  size : Z; readpos : Z; writepos : Z; used : Z; data : option (list Z)
}.

Definition MAX_CBUF_SIZE : Z := 100000000.

Section circbuffer.
(** Whether an allocation of so many bytes succeeds. *)
Variable malloc_ok : Z -> bool.

Definition cbuf_new (sz : Z) : res circbuffer :=
  if MAX_CBUF_SIZE <? sz then Exit "Bad cbuf size"
  else if malloc_ok 20 then Ok (mkCirc sz 0 0 0 None)
  else Exit "m_malloc failed".

Definition cbuf_getused (c : circbuffer) : Z := used c.
Definition cbuf_getavail (c : circbuffer) : Z := u32 (size c - used c).

Definition dropbear_assert (b : bool) : res unit :=
  if b then Ok tt else Exit "Failed assertion".

(** [a % b] of unsigned integers; dividing by zero traps. *)
Definition umod (a b : Z) : res Z := if b =? 0 then Fault else Ok (a `mod` b).

Definition cbuf_writelen (c : circbuffer) : res Z :=
  _ ← dropbear_assert (used c <=? size c);
  a ← umod (u32 (2 * size c + writepos c - readpos c)) (size c);
  b ← umod (used c) (size c);
  _ ← dropbear_assert (a =? b);
  a ← umod (u32 (2 * size c + readpos c - writepos c)) (size c);
  b ← umod (u32 (size c - used c)) (size c);
  _ ← dropbear_assert (a =? b);
  if used c =? size c then Ok 0
  else if writepos c <? readpos c then Ok (u32 (readpos c - writepos c))
  else Ok (u32 (size c - writepos c)).

(** The two readable spans, as offset and length; the second may be absent. *)
Definition cbuf_readptrs (c : circbuffer) : Z * Z * option Z * Z :=
  let len1 := Z.min (used c) (u32 (size c - readpos c)) in
  if len1 <? used c then (readpos c, len1, Some 0, u32 (used c - len1))
  else (readpos c, len1, None, 0).

Definition cbuf_writeptr (c : circbuffer) (len : Z) : res (Z * circbuffer) :=
  w ← cbuf_writelen c;
  if w <? len then Exit "Bad cbuf write"
  else
    match data c with
    | Some _ => Ok (writepos c, c)
    | None =>
        d ← m_malloc malloc_ok (size c);
        Ok (writepos c, mkCirc (size c) (readpos c) (writepos c) (used c) (Some d))
    end.

Definition cbuf_incrwrite (c : circbuffer) (len : Z) : res circbuffer :=
  w ← cbuf_writelen c;
  if w <? len then Exit "Bad cbuf write"
  else
    let u := u32 (used c + len) in
    _ ← dropbear_assert (u <=? size c);
    p ← umod (u32 (writepos c + len)) (size c);
    Ok (mkCirc (size c) (readpos c) p u (data c)).

Definition cbuf_incrread (c : circbuffer) (len : Z) : res circbuffer :=
  _ ← dropbear_assert (len <=? used c);
  p ← umod (u32 (readpos c + len)) (size c);
  Ok (mkCirc (size c) p (writepos c) (u32 (used c - len)) (data c)).

(** *** How the channels use it *)

(** Bytes copied to the write pointer, then [cbuf_incrwrite]. *)
Definition put (c : circbuffer) (bs : list Z) : res circbuffer :=
  '(p, c) ← cbuf_writeptr c (Z.of_nat (length bs));
  match data c with
  | None => Fault
  | Some d =>
      d ← store d p bs;
      cbuf_incrwrite (mkCirc (size c) (readpos c) (writepos c) (used c) (Some d))
        (Z.of_nat (length bs))
  end.

(** The first [n] bytes of the readable spans, then [cbuf_incrread]. *)
Definition fetch (c : circbuffer) (n : Z) : res (list Z * circbuffer) :=
  let '(p1, len1, p2, len2) := cbuf_readptrs c in
  let n1 := Z.min n len1 in
  bs ← (if n =? 0 then Ok [] else
        match data c with
        | None => if used c <? n then Ok [] else Fault
        | Some d =>
            b1 ← load d p1 n1;
            b2 ← (match p2 with Some p2 => load d p2 (Z.min (n - n1) len2) | None => Ok [] end);
            Ok (b1 ++ b2)
        end);
  c ← cbuf_incrread c n;
  Ok (bs, c).

Inductive cop := Put (bs : list Z) | Get (n : Z).

Definition cop_args (o : cop) : Prop :=
  match o with Put bs => is_u32 (Z.of_nat (length bs)) | Get n => is_u32 n end.

(** A sequence of uses, with the bytes read. *)
Fixpoint run (l : list cop) (c : circbuffer) : res (list (list Z) * circbuffer) :=
  match l with
  | [] => Ok ([], c)
  | Put bs :: l => c ← put c bs; run l c
  | Get n :: l =>
      '(bs, c) ← fetch c n;
      '(outs, c) ← run l c;
      Ok (bs :: outs, c)
  end.
End circbuffer.

(** ** The abstract queue *)

(** A bounded queue refuses to overflow or to hand out bytes it does not have. *)
Fixpoint queue_run (cap : Z) (l : list cop) (q : list Z) : option (list (list Z) * list Z) :=
  match l with
  | [] => Some ([], q)
  | Put bs :: l =>
      if decide (zlen q + zlen bs <= cap) then queue_run cap l (q ++ bs) else None
  | Get n :: l =>
      if decide (n <= zlen q) then
        '(outs, q') ← queue_run cap l (drop (Z.to_nat n) q);
        Some (take (Z.to_nat n) q :: outs, q')
      else None
  end.

(** The bytes a buffer holds, oldest first. *)
Definition contents (c : circbuffer) : list Z :=
  match data c with
  | None => []
  | Some d => take (Z.to_nat (used c)) (drop (Z.to_nat (readpos c)) (d ++ d))
  end.

Record inv (c : circbuffer) : Prop := mkInv {
  i_size : 0 < size c <= MAX_CBUF_SIZE;
  i_used : 0 <= used c <= size c;
  i_read : 0 <= readpos c < size c;
  i_write : writepos c = (readpos c + used c) `mod` size c;
  i_data : match data c with Some d => zlen d = size c | None => used c = 0 end
}.

Lemma wrap_mod a n : 0 < n -> 0 <= a < 2 * n -> a `mod` n = if a <? n then a else a - n.
Proof.
  intros Hn Ha. destruct (Z.ltb_spec a n); [apply Z.mod_small; lia|].
  symmetry. apply (Z.mod_unique _ _ 1); lia.
Qed.

Lemma inv_write c :
  inv c -> writepos c = if readpos c + used c <? size c then readpos c + used c
                        else readpos c + used c - size c.
Proof. intros []. rewrite i_write0. apply wrap_mod; lia. Qed.

Lemma inv_small c : inv c -> size c <= 100000000.
Proof. intros []. unfold MAX_CBUF_SIZE in *. lia. Qed.

Lemma contents_length c : inv c -> zlen (contents c) = used c.
Proof.
  intros []. unfold contents. destruct (data c) as [d|].
  - rewrite length_take, length_drop, length_app. lia.
  - cbn. lia.
Qed.

(** The linear room for a write. *)
Definition room (c : circbuffer) : Z :=
  if used c =? size c then 0
  else if writepos c <? readpos c then readpos c - writepos c
  else size c - writepos c.

Lemma writelen_room c : inv c -> cbuf_writelen c = Ok (room c).
Proof.
  intros Hi. pose proof (inv_write c Hi) as Hw. pose proof (inv_small c Hi).
  destruct Hi. unfold cbuf_writelen, umod, dropbear_assert.
  rewrite (proj2 (Z.leb_le _ _)), (proj2 (Z.eqb_neq (size c) 0)) by lia. cbn.
  assert (E1 : (2 * size c + writepos c - readpos c) `mod` size c = used c `mod` size c).
  { rewrite Hw. destruct (_ <? _).
    - replace (2 * size c + (readpos c + used c) - readpos c) with (used c + 2 * size c) by lia.
      apply Z_mod_plus_full.
    - replace (2 * size c + (readpos c + used c - size c) - readpos c) with (used c + 1 * size c) by lia.
      apply Z_mod_plus_full. }
  assert (E2 : (2 * size c + readpos c - writepos c) `mod` size c = (size c - used c) `mod` size c).
  { rewrite Hw. destruct (_ <? _).
    - replace (2 * size c + readpos c - (readpos c + used c)) with (size c - used c + 1 * size c) by lia.
      apply Z_mod_plus_full.
    - replace (2 * size c + readpos c - (readpos c + used c - size c)) with (size c - used c + 2 * size c) by lia.
      apply Z_mod_plus_full. }
  assert (Hwr : 0 <= writepos c < size c) by (rewrite Hw; destruct (Z.ltb_spec (readpos c + used c) (size c)); lia).
  rewrite (u32_id (2 * size c + writepos c - readpos c)), (u32_id (2 * size c + readpos c - writepos c)),
    (u32_id (size c - used c)) by (unfold is_u32; lia).
  rewrite E1, E2, !Z.eqb_refl. cbn.
  unfold room. destruct (_ =? size c); [done|].
  destruct (Z.ltb_spec (writepos c) (readpos c)); rewrite ?u32_id by (unfold is_u32; lia); done.
Qed.

Lemma room_bound c : inv c -> 0 <= room c <= size c - used c.
Proof.
  intros Hi. pose proof (inv_write c Hi) as Hw. destruct Hi. unfold room.
  destruct (Z.eqb_spec (used c) (size c)); [lia|].
  revert Hw. destruct (Z.ltb_spec (readpos c + used c) (size c)), (Z.ltb_spec (writepos c) (readpos c)); lia.
Qed.

(** ** Contents, byte by byte *)

Lemma contents_lookup c d i :
  inv c -> data c = Some d -> (i < Z.to_nat (used c))%nat ->
  contents c !! i =
  d !! Z.to_nat (if readpos c + Z.of_nat i <? size c then readpos c + Z.of_nat i
                 else readpos c + Z.of_nat i - size c).
Proof.
  intros [] Hd Hi. unfold contents. rewrite Hd in i_data0 |- *.
  rewrite lookup_take_lt, lookup_drop by done.
  destruct (Z.ltb_spec (readpos c + Z.of_nat i) (size c)).
  - rewrite lookup_app_l by lia. f_equal. lia.
  - rewrite lookup_app_r by lia. f_equal. lia.
Qed.

(** The buffer after [bs] was stored at the write position and counted. *)
Definition pushed (c : circbuffer) (d bs : list Z) : circbuffer :=
  mkCirc (size c) (readpos c) ((writepos c + zlen bs) `mod` size c) (used c + zlen bs)
    (Some (list_inserts (Z.to_nat (writepos c)) bs d)).

Lemma pushed_inv c d bs :
  inv c -> data c = Some d -> zlen bs <= room c -> inv (pushed c d bs).
Proof.
  intros Hi Hd Hn. pose proof (room_bound c Hi). destruct Hi. rewrite Hd in i_data0.
  split; cbn; try lia.
  - rewrite i_write0, Z.add_mod_idemp_l by lia. f_equal. lia.
  - by rewrite length_inserts.
Qed.

Lemma pushed_contents c d bs :
  inv c -> data c = Some d -> zlen bs <= room c -> contents (pushed c d bs) = contents c ++ bs.
Proof.
  intros Hi Hd Hn. pose proof (pushed_inv c d bs Hi Hd Hn) as Hi'.
  pose proof (inv_write c Hi) as Hw. pose proof (room_bound c Hi) as Hr.
  pose proof (contents_length c Hi) as Hl.
  assert (Hl' : zlen (contents (pushed c d bs)) = used c + zlen bs) by apply (contents_length _ Hi').
  apply list_eq_same_length with (length (contents c ++ bs)).
  { done. }
  { rewrite length_app. lia. }
  intros i x y Hlt Hx Hy. rewrite length_app in Hlt.
  rewrite (contents_lookup _ _ _ Hi' eq_refl) in Hx by (cbn; lia). cbn in Hx.
  pose proof Hi as [Hs1 Hs2 Hs3 _ Hs5]. rewrite Hd in Hs5. unfold room in Hn.
  destruct (decide (i < length (contents c))%nat) as [Hlow|Hhigh].
  - rewrite lookup_app_l, (contents_lookup _ _ _ Hi Hd) in Hy by lia.
    destruct (Z.eqb_spec (used c) (size c)) as [Hfull|Hfull].
    + assert (bs = []) as -> by (destruct bs; cbn in Hn; [done|lia]). cbn in Hx. congruence.
    + revert Hw Hn Hx Hy.
      destruct (Z.ltb_spec (readpos c + Z.of_nat i) (size c)), (Z.ltb_spec (writepos c) (readpos c)),
        (Z.ltb_spec (readpos c + used c) (size c)); intros Hw Hn Hx Hy; try lia;
        first [ rewrite list_lookup_inserts_lt in Hx by lia | rewrite list_lookup_inserts_ge in Hx by lia ];
        congruence.
  - rewrite lookup_app_r in Hy by lia.
    destruct (Z.eqb_spec (used c) (size c)) as [Hfull|Hfull]; [lia|].
    revert Hw Hn Hx.
    destruct (Z.ltb_spec (readpos c + Z.of_nat i) (size c)), (Z.ltb_spec (writepos c) (readpos c)),
      (Z.ltb_spec (readpos c + used c) (size c)); intros Hw Hn Hx; try lia;
      rewrite list_lookup_inserts in Hx by lia;
      match type of Hx with bs !! ?k = _ => replace k with (i - length (contents c))%nat in Hx by lia end;
      congruence.
Qed.

Section operations.
Variable malloc_ok : Z -> bool.

Lemma rwp_bind {A B} t (r : res A) (f : A -> res B) Q :
  rwp t r (fun a => rwp t (f a) Q) -> rwp t (r ≫= f) Q.
Proof. by destruct r. Qed.
Lemma rwp_mono {A} t (r : res A) (Q R : A -> Prop) :
  rwp t r Q -> (forall a, Q a -> R a) -> rwp t r R.
Proof. destruct r; cbn; auto. Qed.

(** Allocating the data changes nothing a reader sees. *)
Lemma inv_allocated c d :
  inv c -> data c = None -> zlen d = size c ->
  inv (mkCirc (size c) (readpos c) (writepos c) (used c) (Some d)) /\
  contents (mkCirc (size c) (readpos c) (writepos c) (used c) (Some d)) = contents c.
Proof.
  intros [] Hd Hl. rewrite Hd in i_data0. split; [by split|].
  unfold contents. rewrite Hd. cbn. by rewrite i_data0.
Qed.

Lemma rwp_writeptr t c n (Q : Z * circbuffer -> Prop) :
  inv c -> 0 <= n -> (t = Total -> n <= room c /\ malloc_ok (size c) = true) ->
  (forall c' d, inv c' -> data c' = Some d -> contents c' = contents c -> size c' = size c ->
     used c' = used c -> room c' = room c -> n <= room c -> Q (writepos c', c')) ->
  rwp t (cbuf_writeptr malloc_ok c n) Q.
Proof.
  intros Hi Hn HT HQ. unfold cbuf_writeptr. rewrite (writelen_room c Hi). cbn.
  destruct (Z.ltb_spec (room c) n).
  { destruct t; [done|]. destruct (HT eq_refl); lia. }
  destruct (data c) as [d|] eqn:Hd; [by apply (HQ c d)|].
  apply rwp_bind, rwp_m_malloc; [destruct Hi; lia|by intros Ht; apply HT|]. cbn.
  pose proof (i_size c Hi).
  destruct (inv_allocated c (replicate (Z.to_nat (size c)) 0) Hi Hd) as [H1 H2].
  { rewrite length_replicate. lia. }
  by eapply (HQ (mkCirc (size c) (readpos c) (writepos c) (used c) _)).
Qed.

Lemma rwp_incrwrite t c n (Q : circbuffer -> Prop) :
  inv c -> 0 <= n -> (t = Total -> n <= room c) ->
  (n <= room c ->
   Q (mkCirc (size c) (readpos c) ((writepos c + n) `mod` size c) (used c + n) (data c))) ->
  rwp t (cbuf_incrwrite c n) Q.
Proof.
  intros Hi Hn HT HQ. unfold cbuf_incrwrite. rewrite (writelen_room c Hi). cbn.
  pose proof (room_bound c Hi). pose proof (inv_small c Hi). pose proof (inv_write c Hi) as Hw.
  destruct (Z.ltb_spec (room c) n).
  { destruct t; [done|]. specialize (HT eq_refl). lia. }
  destruct Hi. assert (Hwr : 0 <= writepos c < size c).
  { rewrite i_write0. apply Z.mod_pos_bound. lia. }
  unfold umod, dropbear_assert. rewrite !u32_id by (unfold is_u32; lia).
  rewrite (proj2 (Z.leb_le _ _)), (proj2 (Z.eqb_neq (size c) 0)) by lia. cbn. apply HQ. lia.
Qed.

Lemma rwp_put t c bs (Q : circbuffer -> Prop) :
  inv c -> (t = Total -> zlen bs <= room c /\ malloc_ok (size c) = true) ->
  (forall c', inv c' -> contents c' = contents c ++ bs -> size c' = size c ->
     used c' = used c + zlen bs -> zlen bs <= room c -> Q c') ->
  rwp t (put malloc_ok c bs) Q.
Proof.
  intros Hi HT HQ. unfold put. apply rwp_bind.
  apply rwp_writeptr; [done|lia|done|]. intros c' d Hi' Hd Hc Hsz Hus Hroom Hn. cbv beta iota.
  rewrite Hd. apply rwp_bind. pose proof (room_bound c' Hi'). pose proof (inv_write c' Hi') as Hw.
  pose proof Hi' as [H1 H2 H3 H4 H5]. rewrite Hd in H5. rewrite <- Hroom in Hn.
  assert (Hfit : 0 <= writepos c' /\ writepos c' + zlen bs <= size c').
  { rewrite H4. pose proof (Z.mod_pos_bound (readpos c' + used c') (size c')).
    rewrite <- H4. unfold room in Hn. rewrite H4 in *.
    destruct (_ =? _), (Z.ltb_spec ((readpos c' + used c') `mod` size c') (readpos c')); lia. }
  apply rwp_store; [lia|lia|].
  set (c1 := mkCirc _ _ _ _ _).
  assert (Hi1 : inv c1) by (split; cbn; try done; by rewrite length_inserts).
  apply rwp_incrwrite; [done|lia|done|]. intros _.
  pose proof (pushed_inv c' d bs Hi' Hd Hn). pose proof (pushed_contents c' d bs Hi' Hd Hn).
  apply HQ; [done|by rewrite <- Hc|done|cbn; lia|lia].
Qed.

Lemma rwp_incrread t c n (Q : circbuffer -> Prop) :
  inv c -> 0 <= n -> (t = Total -> n <= used c) ->
  (n <= used c -> forall c', inv c' -> contents c' = drop (Z.to_nat n) (contents c) ->
     size c' = size c -> used c' = used c - n -> Q c') ->
  rwp t (cbuf_incrread c n) Q.
Proof.
  intros Hi Hn HT HQ. unfold cbuf_incrread, dropbear_assert, umod. pose proof (inv_small c Hi).
  pose proof Hi as [H1 H2 H3 H4 H5].
  destruct (Z.leb_spec n (used c)); cbn.
  2:{ destruct t; [done|]. specialize (HT eq_refl). lia. }
  rewrite (proj2 (Z.eqb_neq (size c) 0)) by lia. cbn.
  rewrite !u32_id by (unfold is_u32; lia).
  set (c' := mkCirc _ _ _ _ _).
  assert (Hr' : readpos c' = if readpos c + n <? size c then readpos c + n else readpos c + n - size c)
    by (cbn; apply wrap_mod; lia).
  assert (Hi' : inv c').
  { split; [done|cbn; lia| | |].
    - cbn. apply Z.mod_pos_bound. lia.
    - cbn. rewrite H4, Z.add_mod_idemp_l by lia. f_equal. lia.
    - cbn. destruct (data c); [done|lia]. }
  apply HQ; [done|done| |done|done].
  destruct (data c) as [d|] eqn:Hd.
  2:{ unfold contents. cbn. rewrite Hd. by destruct (Z.to_nat n). }
  pose proof (contents_length c Hi). 
  assert (Hl' : zlen (contents c') = used c - n) by apply (contents_length _ Hi').
  apply list_eq_same_length with (length (contents c')); [rewrite length_drop; lia|done|].
  intros i x y Hlt Hx Hy. rewrite lookup_drop in Hy.
  rewrite (contents_lookup c' d) in Hx by (done || (cbn; lia)).
  rewrite (contents_lookup c d) in Hy by (done || lia).
  rewrite Hr' in Hx. cbn [size c'] in Hx. revert Hx Hy.
  destruct (Z.ltb_spec (readpos c + n) (size c)), (Z.ltb_spec (readpos c + Z.of_nat (Z.to_nat n + i)) (size c));
    intros Hx Hy; revert Hx;
    match goal with |- context [?a <? ?b] => destruct (Z.ltb_spec a b) end; intros Hx; try lia;
    match type of Hx with _ !! ?k = _ => match type of Hy with _ !! ?k' = _ =>
      replace k with k' in Hx by lia end end; congruence.
Qed.

(** The readable spans hold the contents. *)
Definition spans (c : circbuffer) (d : list Z) : list Z * list Z :=
  let '(p1, len1, p2, len2) := cbuf_readptrs c in
  (take (Z.to_nat len1) (drop (Z.to_nat p1) d),
   match p2 with Some p2 => take (Z.to_nat len2) (drop (Z.to_nat p2) d) | None => [] end).

Lemma readptrs_spec c d :
  inv c -> data c = Some d ->
  exists p2 len2, cbuf_readptrs c = (readpos c, Z.min (used c) (size c - readpos c), p2, len2) /\
    len2 = used c - Z.min (used c) (size c - readpos c) /\
    (p2 = None /\ len2 = 0 \/ p2 = Some 0) /\
    contents c = take (Z.to_nat (Z.min (used c) (size c - readpos c))) (drop (Z.to_nat (readpos c)) d)
                 ++ take (Z.to_nat len2) d.
Proof.
  intros Hi Hd. pose proof (inv_small c Hi). destruct Hi. rewrite Hd in i_data0.
  unfold cbuf_readptrs, contents. rewrite Hd, u32_id by (unfold is_u32; lia).
  destruct (Z.ltb_spec (Z.min (used c) (size c - readpos c)) (used c));
    rewrite ?u32_id by (unfold is_u32; lia); do 2 eexists; (split; [reflexivity|]).
  - split_and!; [lia|by right|]. rewrite drop_app_le by lia. rewrite take_app.
    rewrite length_drop. f_equal; [|f_equal; lia].
    rewrite (firstn_all2 (n := Z.to_nat (used c))) by (rewrite length_drop; lia).
    symmetry. apply firstn_all2. rewrite length_drop. lia.
  - split_and!; [lia|left; split; [done|lia]|]. rewrite app_nil_r.
    rewrite drop_app_le, take_app_le by (rewrite ?length_drop; lia). f_equal. lia.
Qed.

Lemma rwp_fetch t c n (Q : list Z * circbuffer -> Prop) :
  inv c -> 0 <= n -> (t = Total -> n <= used c) ->
  (n <= used c -> forall c', inv c' -> contents c' = drop (Z.to_nat n) (contents c) ->
     size c' = size c -> Q (take (Z.to_nat n) (contents c), c')) ->
  rwp t (fetch c n) Q.
Proof.
  intros Hi Hn HT HQ. unfold fetch.
  assert (Hend : forall bs, (n <= used c -> bs = take (Z.to_nat n) (contents c)) ->
    rwp t (c' ← cbuf_incrread c n; Ok (bs, c')) Q).
  { intros bs Hbs. apply rwp_bind, rwp_incrread; [done..|]. intros Hle c' H1 H2 H3 _. cbn.
    rewrite (Hbs Hle). by apply HQ. }
  destruct (data c) as [d|] eqn:Hd.
  2:{ pose proof (i_data c Hi) as Hu. rewrite Hd in Hu.
      destruct (cbuf_readptrs c) as [[[? ?] ?] ?]. destruct (Z.eqb_spec n 0) as [->|Hnz]; cbn.
      - by apply Hend.
      - rewrite (proj2 (Z.ltb_lt _ _)) by lia. cbn. apply Hend. lia. }
  destruct (readptrs_spec c d Hi Hd) as (p2 & len2 & -> & Hl2 & Hp2 & Hc).
  destruct (Z.eqb_spec n 0) as [->|Hnz]; cbn; [by apply Hend|].
  pose proof Hi as [H1 H2 H3 _ H5]. rewrite Hd in H5.
  set (l1 := Z.min (used c) (size c - readpos c)) in *.
  apply rwp_bind, rwp_bind, rwp_load; [lia|lia|].
  assert (Htake : forall b2, b2 = take (Z.to_nat (Z.min (n - Z.min n l1) len2)) d ->
    n <= used c -> take (Z.to_nat (Z.min n l1)) (drop (Z.to_nat (readpos c)) d) ++ b2 =
    take (Z.to_nat n) (contents c)).
  { intros b2 -> Hle. rewrite Hc, take_app, take_take, take_take, length_take, length_drop.
    f_equal; f_equal; lia. }
  destruct Hp2 as [[-> E2]| ->].
  - cbn. apply Hend. intros Hle. rewrite <- (Htake [] ltac:(rewrite E2; by replace (Z.to_nat _) with 0%nat by lia) Hle).
    done.
  - apply rwp_bind, rwp_load; [lia|lia|]. cbn. apply Hend. intros Hle. rewrite drop_0. by apply Htake.
Qed.

Lemma run_refines l c :
  inv c -> Forall cop_args l ->
  match run malloc_ok l c with
  | Ok (outs, c') => inv c' /\ size c' = size c /\
      queue_run (size c) l (contents c) = Some (outs, contents c')
  | Exit _ => True
  | Fault => False
  end.
Proof.
  intros Hi Hl. revert c Hi. induction Hl as [|o l Ho Hl IH]; intros c Hi; cbn [run queue_run]; [done|].
  pose proof (contents_length c Hi) as Hlen. destruct o as [bs|n].
  - assert (H := rwp_put Partial c bs (fun c' => inv c' /\ contents c' = contents c ++ bs /\
      size c' = size c /\ zlen bs <= room c) Hi ltac:(done) ltac:(done)).
    destruct (put malloc_ok c bs) as [c'| |]; cbn in *; [|done|done].
    destruct H as (H1 & H2 & H3 & H4). specialize (IH c' H1). pose proof (room_bound c Hi).
    destruct (run malloc_ok l c') as [[outs c2]| |]; [|done|done].
    rewrite decide_True by lia. rewrite <- H2, <- H3. destruct IH as (? & ? & ?).
    split_and!; congruence.
  - destruct Ho as [Hn _].
    assert (H := rwp_fetch Partial c n (fun r => n <= used c /\ inv r.2 /\
      contents r.2 = drop (Z.to_nat n) (contents c) /\ size r.2 = size c /\
      r.1 = take (Z.to_nat n) (contents c)) Hi Hn ltac:(done) ltac:(done)).
    destruct (fetch c n) as [[bs c']| |]; cbn in *; [|done|done].
    destruct H as (H1 & H2 & H3 & H4 & ->). specialize (IH c' H2).
    destruct (run malloc_ok l c') as [[outs c2]| |]; cbn; [|done|done].
    rewrite decide_True by lia. rewrite <- H3, <- H4. destruct IH as (? & ? & ->).
    split_and!; [done|congruence|done].
Qed.
End operations.

(** ** Properties *)

(** C19: from any valid state, whatever sequence of writes and reads is made through
    the buffer's pointers, nothing outside the allocation is touched, and if the
    program does not exit, the bytes read and the bytes left are those of a
    first-in first-out queue of the buffer's size. *)
Theorem cbuf_refines_queue (malloc_ok : Z -> bool) (l : list cop) (c : circbuffer) :
  inv c -> Forall cop_args l ->
  match run malloc_ok l c with
  | Ok (outs, c') => inv c' /\ size c' = size c /\
      queue_run (size c) l (contents c) = Some (outs, contents c')
  | Exit _ => True
  | Fault => False
  end.
Proof. apply run_refines. Qed.

Lemma new_inv n : 0 < n <= MAX_CBUF_SIZE -> inv (mkCirc n 0 0 0 None).
Proof. intros Hn. split; cbn; [done|lia|lia|by rewrite Z.mod_0_l by lia|done]. Qed.

Lemma cbuf_refines_queue_witness :
  exists c', run (fun _ => true) [Put [1; 2; 3]; Get 2; Put [4]; Put [5; 6]; Get 3] (mkCirc 4 0 0 0 None)
    = Ok ([[1; 2]; [3; 4; 5]], c') /\ contents c' = [6].
Proof.
  pose proof (cbuf_refines_queue (fun _ => true) [Put [1; 2; 3]; Get 2; Put [4]; Put [5; 6]; Get 3]
    (mkCirc 4 0 0 0 None)) as H.
  destruct (run _ _ _) as [[outs c']|m|] eqn:E; [|vm_compute in E; discriminate E..].
  destruct H as (_ & _ & Hq).
  - apply new_inv. vm_compute. split; [reflexivity|discriminate].
  - repeat constructor; vm_compute; intuition discriminate.
  - exists c'. vm_compute in Hq. injection Hq as <- Hc. split; [reflexivity|exact (eq_sym Hc)].
Defined.
End Circ.
