(* ===== verification/Channel.v ===== *)
(** * Channel data in Dropbear

    A model of the receiving side of an SSH channel in
    dropbear-2022.83/common-channel.c: [common_recv_msg_channel_data], [writechannel]
    with both of its variants, [close_chan_fd], the flow-control window, and the part of
    [setchannelfds] and [channelio] that writes out what is buffered.

    The answer of [writev]/[write] is an argument; what a call sends to a file
    descriptor or to the peer is recorded as events. *)

From Stdlib Require Import ZArith Lia Bool.
From stdpp Require Import base numbers list strings relations.
From S2P Require Import Prelude DropbearBuffer DropbearBufferProofs CircBuffer.
Open Scope Z_scope.
Import Circ.

Record channel := mkChan {
  recvwindow : Z; recvdonelen : Z;
  writefd : Z; readfd : Z; errfd : Z; bidir_fd : bool;
  writebuf : option circbuffer; extrabuf : option circbuffer;
  recv_eof : bool
}.

Inductive event :=
| EWrite (fd : Z) (bs : list Z)
| EShutdown (fd how : Z)
| EClose (fd : Z)
| EAdjust (incr : Z).

(** What [write] and [writev] answer: a count, an error that is retried, another. *)
Inductive answer := Wrote (n : Z) | Again | Failed.

(** The two buffers of a channel. *)
Inductive which := Write | Extra.
Definition get_buf (w : which) (ch : channel) : option circbuffer :=
  match w with Write => writebuf ch | Extra => extrabuf ch end.
Definition set_buf (w : which) (ch : channel) (c : circbuffer) : channel :=
  match w with
  | Write => mkChan (recvwindow ch) (recvdonelen ch) (writefd ch) (readfd ch) (errfd ch)
               (bidir_fd ch) (Some c) (extrabuf ch) (recv_eof ch)
  | Extra => mkChan (recvwindow ch) (recvdonelen ch) (writefd ch) (readfd ch) (errfd ch)
               (bidir_fd ch) (writebuf ch) (Some c) (recv_eof ch)
  end.
Definition set_fds (ch : channel) (w r e : Z) : channel :=
  mkChan (recvwindow ch) (recvdonelen ch) w r e (bidir_fd ch) (writebuf ch) (extrabuf ch) (recv_eof ch).
Definition set_window (ch : channel) (rw rd : Z) : channel :=
  mkChan rw rd (writefd ch) (readfd ch) (errfd ch) (bidir_fd ch) (writebuf ch) (extrabuf ch)
    (recv_eof ch).
Definition set_recv_eof (c : channel) : channel :=
  mkChan (recvwindow c) (recvdonelen c) (writefd c) (readfd c) (errfd c) (bidir_fd c) (writebuf c) (extrabuf c) true.

Definition FD_CLOSED : Z := -1.
Definition SHUT_WR : Z := 1.

Definition ERRFD_IS_READ (ch : channel) : bool :=
  match extrabuf ch with None => true | Some _ => false end.

Definition close_chan_fd (ch : channel) (fd how : Z) : channel * list event :=
  let '(evs, closein, closeout) :=
    if bidir_fd ch then
      if how =? 0 then ([EShutdown fd how], false, true) else ([EShutdown fd how], true, false)
    else ([EClose fd], true, true) in
  let r := if closeout && (fd =? readfd ch) then FD_CLOSED else readfd ch in
  let e := if closeout && ERRFD_IS_READ ch && (fd =? errfd ch) then FD_CLOSED else errfd ch in
  let w := if closein && (fd =? writefd ch) then FD_CLOSED else writefd ch in
  let e := if closein && negb (ERRFD_IS_READ ch) && (fd =? e) then FD_CLOSED else e in
  let last := bidir_fd ch && (r =? FD_CLOSED) && (w =? FD_CLOSED) && (e =? FD_CLOSED) in
  (set_fds ch w r e, evs ++ (if last then [EClose fd] else [])).

(** The bytes of a span of a circular buffer; an empty span needs no storage. *)
Definition span (c : circbuffer) (p n : Z) : res (list Z) :=
  match data c with
  | Some d => load d p n
  | None => if n =? 0 then Ok [] else Fault
  end.

(** [true] for [DROPBEAR_SUCCESS]; the second component is what [*morelen] becomes. *)
Definition writechannel_fallback (ch : channel) (fd : Z) (w : which) (c : circbuffer)
  (ans : answer) : res (bool * Z * channel * list event) :=
  let '(p1, len1, p2, len2) := cbuf_readptrs c in
  s1 ← span c p1 len1;
  match ans with
  | Failed => let '(ch, evs) := close_chan_fd ch fd SHUT_WR in Ok (false, 0, ch, evs)
  | Again => Ok (true, 0, ch, [])
  | Wrote n =>
      c ← cbuf_incrread c n;
      let ch := set_buf w ch c in
      Ok (true, 0, set_window ch (recvwindow ch) (u32 (recvdonelen ch + n)),
          [EWrite fd (take (Z.to_nat n) s1)])
  end.

Definition writechannel_writev (ch : channel) (fd : Z) (w : which) (c : circbuffer)
  (moredata : option (list Z)) (ans : answer) : res (bool * Z * channel * list event) :=
  let '(p1, len1, p2, len2) := cbuf_readptrs c in
  s1 ← span c p1 len1;
  s2 ← (match p2 with Some p2 => span c p2 len2 | None => Ok [] end);
  let iov := s1 ++ s2 ++ default [] moredata in
  if (len1 =? 0) && (len2 =? 0) && (match moredata with None => true | Some _ => false end)
  then Ok (true, 0, ch, [])
  else
    match ans with
    | Failed => let '(ch, evs) := close_chan_fd ch fd SHUT_WR in Ok (false, 0, ch, evs)
    | Again => Ok (true, 0, ch, [])
    | Wrote written =>
        let cbuf_written := Z.min (u32 (len1 + len2)) written in
        c ← cbuf_incrread c cbuf_written;
        let ch := set_buf w ch c in
        Ok (true, (match moredata with Some _ => u32 (written - cbuf_written) | None => 0 end),
            set_window ch (recvwindow ch) (u32 (recvdonelen ch + written)),
            [EWrite fd (take (Z.to_nat written) iov)])
    end.

Section session.
(** [opts.recv_window], whether writev is there, whether an allocation succeeds. *)
Variable recv_window : Z.
Variable HAVE_WRITEV : bool.
Variable malloc_ok : Z -> bool.

Definition RECV_WINDOWEXTEND : Z := recv_window `div` 3.

Definition assert_avail (ch : channel) (c : option circbuffer) (null_ok : bool) : res unit :=
  match c with
  | None => if null_ok then Ok tt else Fault
  | Some c => dropbear_assert (recvwindow ch <=? cbuf_getavail c)
  end.

Definition writechannel (ch : channel) (fd : Z) (w : which) (c : circbuffer)
  (moredata : option (list Z)) (ans : answer) : res (bool * Z * channel * list event) :=
  '(ret, more, ch, evs) ← (if HAVE_WRITEV then writechannel_writev ch fd w c moredata ans
                           else writechannel_fallback ch fd w c ans);
  let '(ch, evs) :=
    if RECV_WINDOWEXTEND <=? recvdonelen ch then
      (set_window ch (u32 (recvwindow ch + recvdonelen ch)) 0, evs ++ [EAdjust (recvdonelen ch)])
    else (ch, evs) in
  _ ← dropbear_assert (recvwindow ch <=? recv_window);
  _ ← assert_avail ch (writebuf ch) false;
  _ ← assert_avail ch (extrabuf ch) true;
  Ok (ret, more, ch, evs).

(** The loop that stores what was not written, in up to two linear pieces. *)
Fixpoint store_loop (fuel : nat) (len : Z) (c : circbuffer) (payload : buffer)
  : res (circbuffer * buffer) :=
  if 0 <? len then
    match fuel with
    | O => Fault
    | S fuel =>
        buflen ← cbuf_writelen c;
        let buflen := Z.min buflen len in
        '(p, c) ← cbuf_writeptr malloc_ok c buflen;
        '(src, payload) ← buf_getptr buflen payload;
        bs ← load (DropbearBuffer.data payload) src buflen;
        match data c with
        | None => Fault
        | Some d =>
            d ← store d p bs;
            c ← cbuf_incrwrite (mkCirc (size c) (readpos c) (writepos c) (used c) (Some d)) buflen;
            '(_, payload) ← buf_incrpos buflen payload;
            store_loop fuel (u32 (len - buflen)) c payload
        end
    end
  else Ok (c, payload).

(** After the write attempt: skip what was consumed, store the rest. *)
Definition store_rest (w : which) (payload : buffer) (datalen : Z) (ok : bool) (consumed : Z)
  (ch : channel) (evs : list event) : res (channel * buffer * list event) :=
  let datalen := u32 (datalen - consumed) in
  '(_, payload) ← buf_incrpos consumed payload;
  if ok : bool then
    match get_buf w ch with
    | None => Fault
    | Some c =>
        '(c, payload) ← store_loop (Z.to_nat datalen) datalen c payload;
        Ok (set_buf w ch c, payload, evs)
    end
  else Ok (ch, payload, evs).

Definition common_recv_msg_channel_data (ch : channel) (fd : Z) (w : which) (payload : buffer)
  (ans : answer) : res (channel * buffer * list event) :=
  if recv_eof ch then Exit "Received data after eof"
  else
    match get_buf w ch with
    | None => Ok (ch, payload, [])
    | Some c =>
        if fd <? 0 then Ok (ch, payload, [])
        else
          '(datalen, payload) ← buf_getint payload;
          if cbuf_getavail c <? datalen then Exit "Oversized packet"
          else
            _ ← dropbear_assert (datalen <=? recvwindow ch);
            let ch := set_window ch (u32 (recvwindow ch - datalen)) (recvdonelen ch) in
            _ ← dropbear_assert (recvwindow ch <=? recv_window);
            '(src, payload) ← buf_getptr datalen payload;
            moredata ← load (DropbearBuffer.data payload) src datalen;
            '(ok, consumed, ch, evs) ← writechannel ch fd w c (Some moredata) ans;
            store_rest w payload datalen ok consumed ch evs
    end.

(** [setchannelfds]: is the select of the main loop to wait for the descriptor? *)
Definition wants_write (ch : channel) : bool :=
  match writebuf ch with Some c => (0 <=? writefd ch) && (0 <? cbuf_getused c) | None => false end.
(** [channelio], on a descriptor that was waited for and is ready. *)
Definition channelio_write (ch : channel) (ans : answer) : res (channel * list event) :=
  match writebuf ch with
  | Some c =>
      if (0 <=? writefd ch) && wants_write ch then
        '(_, _, ch, evs) ← writechannel ch (writefd ch) Write c None ans;
        Ok (ch, evs)
      else Ok (ch, [])
  | None => Fault
  end.
End session.
