(* ===== verification/ChannelProofs.v ===== *)
(** * Channel data in Dropbear: delivery and flow control

    The invariant of a channel: the advertised window, the bytes not yet reported to
    the peer and the bytes buffered are the window size together.  Every
    packet of a peer that keeps to its window is accepted, no assertion fails, and
    the bytes written followed by the bytes buffered are the bytes received; and what is
    buffered is written out in the end. *)

From Stdlib Require Import ZArith Lia Bool.
From stdpp Require Import base numbers list strings relations.
From S2P Require Import Prelude DropbearBuffer DropbearBufferProofs CircBuffer Channel.
Open Scope Z_scope.
Import Circ.

(** The bytes an execution wrote to a descriptor. *)
Definition written_to (fd : Z) (e : event) : list Z :=
  match e with EWrite fd' bs => if fd =? fd' then bs else [] | _ => [] end.
Definition delivered (fd : Z) (evs : list event) : list Z := concat (map (written_to fd) evs).

Lemma delivered_app fd a b : delivered fd (a ++ b) = delivered fd a ++ delivered fd b.
Proof. unfold delivered. by rewrite map_app, concat_app. Qed.

Definition held (o : option circbuffer) : Z := match o with Some c => used c | None => 0 end.
(** The part of the window in use. *)
Definition owed (ch : channel) : Z :=
  recvwindow ch + recvdonelen ch + held (writebuf ch) + held (extrabuf ch).

Record chan_ok (W : Z) (ch : channel) : Prop := mkOk {
  ok_W : 0 < W <= MAX_CBUF_SIZE;
  ok_window : 0 <= recvwindow ch;
  ok_done : 0 <= recvdonelen ch;
  ok_write : is_Some (writebuf ch);
  ok_bufs : forall w c, get_buf w ch = Some c -> inv c /\ size c = W
}.

Lemma held_nonneg W ch w : chan_ok W ch -> 0 <= held (get_buf w ch) <= W.
Proof.
  intros Hok. destruct (get_buf w ch) as [c|] eqn:E; cbn; [|destruct Hok; lia].
  destruct (ok_bufs _ _ Hok w c E) as [[] <-]. lia.
Qed.

Lemma get_set_buf w ch c : get_buf w (set_buf w ch c) = Some c.
Proof. by destruct w. Qed.

Lemma owed_set_buf w ch c c' :
  get_buf w ch = Some c -> owed (set_buf w ch c') = owed ch + used c' - used c.
Proof. unfold owed. destruct w; cbn; intros ->; cbn; lia. Qed.

Lemma ok_set_buf W w ch c :
  chan_ok W ch -> inv c -> size c = W -> chan_ok W (set_buf w ch c).
Proof.
  intros [] Hi Hs. split; try (by destruct w).
  intros w' c' H. destruct w, w'; cbn in *; first [by injection H as <- | by eapply (ok_bufs0 Write)
    | by eapply (ok_bufs0 Extra)].
Qed.

Lemma ok_set_window W ch a b : chan_ok W ch -> 0 <= a -> 0 <= b -> chan_ok W (set_window ch a b).
Proof. intros [] ??. by split. Qed.

Lemma ok_set_fds W ch a b c : chan_ok W ch -> chan_ok W (set_fds ch a b c).
Proof. intros []. by split. Qed.

(** Closing a descriptor writes nothing and touches neither buffers nor windows. *)
Lemma close_chan_fd_spec ch fd how :
  exists w r e evs, close_chan_fd ch fd how = (set_fds ch w r e, evs) /\
    forall fd', delivered fd' evs = [].
Proof.
  unfold close_chan_fd. destruct (bidir_fd ch); [destruct (how =? 0)|]; cbn;
    do 4 eexists; (split; [reflexivity|]); intros fd'; rewrite ?delivered_app; by repeat case_match.
Qed.

(** ** One write attempt *)

(** The number of bytes an answer claims fits what it was given. *)
Definition answer_ok (ans : answer) (n : Z) : Prop :=
  match ans with Wrote k => 0 <= k <= n | _ => True end.

(** The descriptors of a channel, and what is done to them: only data for [fd] and window
    adjustments, or [fd] is closed because of an error. *)
Definition fds (c : channel) : Z * Z * Z * bool := (writefd c, readfd c, errfd c, bidir_fd c).
Definition is_adjust (e : event) : Prop := match e with EAdjust _ => True | _ => False end.
Definition sends (fd : Z) (e : event) : Prop := match e with EWrite fd' _ => fd' = fd | EAdjust _ => True | _ => False end.
Definition shape (fd : Z) (ch : channel) (ok : bool) (evs : list event) (ch' : channel) : Prop :=
  if ok then fds ch' = fds ch /\ Forall (sends fd) evs
  else exists tail, evs = (close_chan_fd ch fd SHUT_WR).2 ++ tail /\ fds ch' = fds (close_chan_fd ch fd SHUT_WR).1 /\
    Forall is_adjust tail.

(** What a write attempt with further data [md] guarantees: [more] bytes of it went
    out. *)
Record attempt (W fd : Z) (w : which) (c : circbuffer) (md : list Z) (ans : answer) (ch : channel)
  (ok : bool) (more : Z) (ch' : channel) (evs : list event) : Prop := mkAttempt {
  a_ok : chan_ok W ch';
  a_more : 0 <= more <= zlen md;
  a_stream : exists c', get_buf w ch' = Some c' /\
    delivered fd evs ++ contents c' ++ drop (Z.to_nat more) md = contents c ++ md;
  a_owed : owed ch' = owed ch + more;
  a_progress : forall n c', ans = Wrote n -> get_buf w ch' = Some c' -> used c' = used c - Z.min (used c) n;
  a_shape : shape fd ch ok evs ch';
  a_failed : ok = false -> more = 0 /\ ans = Failed;
  a_eof : recv_eof ch' = recv_eof ch;
  a_other : forall w', w' <> w -> get_buf w' ch' = get_buf w' ch
}.

Lemma load_ok d p n :
  0 <= p -> p + n <= zlen d -> load d p n = Ok (take (Z.to_nat n) (drop (Z.to_nat p) d)).
Proof.
  intros H1 H2. unfold load. by rewrite (proj2 (Z.leb_le 0 p)), (proj2 (Z.leb_le (p + n) _)) by lia.
Qed.

(** The spans [cbuf_readptrs] gives, read out. *)
Lemma spans_ok c :
  inv c ->
  let '(p1, len1, p2, len2) := cbuf_readptrs c in
  exists s1 s2, span c p1 len1 = Ok s1 /\
    (match p2 with Some p2 => span c p2 len2 | None => Ok [] end) = Ok s2 /\
    s1 ++ s2 = contents c /\ zlen s1 = len1 /\ zlen s2 = len2.
Proof.
  intros Hi. pose proof (contents_length c Hi) as Hl. destruct (data c) as [d|] eqn:Hd.
  - destruct (readptrs_spec c d Hi Hd) as (p2 & len2 & -> & Hl2 & Hp2 & Hc).
    destruct Hi. rewrite Hd in i_data0. unfold span. rewrite Hd.
    eexists _, _. rewrite load_ok by lia. split; [reflexivity|].
    assert (Hs2 : match p2 with Some p2 => load d p2 len2 | None => Ok [] end =
      Ok (take (Z.to_nat len2) d)).
    { destruct Hp2 as [[-> ->]| ->]; [done|]. rewrite load_ok by lia. by rewrite drop_0. }
    split; [exact Hs2|]. rewrite <- Hc, !length_take, length_drop. split; [done|]. lia.
  - pose proof Hi as [? ? ? ? Hu]. rewrite Hd in Hu. pose proof (inv_small c Hi).
    unfold cbuf_readptrs. rewrite Hu, u32_id by (unfold is_u32; lia).
    rewrite Z.min_l by lia. cbn. unfold span, contents. rewrite Hd. cbn.
    exists [], []. done.
Qed.

Section attempts.
Context (W fd : Z) (w : which) (ch : channel) (c : circbuffer).
Hypothesis Hok : chan_ok W ch.
Hypothesis Hget : get_buf w ch = Some c.

(** Leaving the channel alone, or closing the descriptor. *)
Lemma attempt_nothing md ans : (forall n, ans = Wrote n -> Z.min (used c) n = 0) -> attempt W fd w c md ans ch true 0 ch [].
Proof.
  intros Hn. split; try done; [lia|by exists c|lia|..].
  - intros n c' En E. rewrite Hget in E. injection E as <-. rewrite (Hn n En). lia.
Qed.

Lemma attempt_failed md :
  exists ch' evs, close_chan_fd ch fd SHUT_WR = (ch', evs) /\ attempt W fd w c md Failed ch false 0 ch' evs.
Proof.
  destruct (close_chan_fd_spec ch fd SHUT_WR) as (x & y & z & evs & Ec & Hd). rewrite Ec.
  do 2 eexists. split; [reflexivity|]. split; try done.
  - by apply ok_set_fds.
  - lia.
  - exists c. rewrite Hd. split; [by destruct w|done].
  - unfold owed. cbn. lia.
  - exists []. rewrite Ec, app_nil_r. by split_and!.
Qed.

(** [n] bytes written, [k] of them from the buffer. *)
Lemma attempt_wrote md n k bs :
  0 <= k <= n -> n <= used c + zlen md -> k = Z.min (used c) n ->
  recvdonelen ch + n < 4294967296 ->
  bs = take (Z.to_nat n) (contents c ++ md) ->
  exists c', cbuf_incrread c k = Ok c' /\
    attempt W fd w c md (Wrote n) ch true (n - k)
      (set_window (set_buf w ch c') (recvwindow ch) (u32 (recvdonelen ch + n))) [EWrite fd bs].
Proof.
  intros Hk Hn Hmin Hdone ->. destruct (ok_bufs _ _ Hok w c Hget) as [Hi Hs].
  destruct (cbuf_incrread c k) as [c'| |] eqn:E.
  2,3: pose proof (rwp_incrread Total c k (fun _ => True) Hi ltac:(lia) ltac:(lia) ltac:(done)) as H;
       rewrite E in H; done.
  exists c'. split; [done|].
  pose proof (rwp_incrread Total c k (fun c' => inv c' /\ contents c' = drop (Z.to_nat k) (contents c) /\
    size c' = size c /\ used c' = used c - k) Hi ltac:(lia) ltac:(lia) ltac:(done)) as H.
  rewrite E in H. destruct H as (H1 & H2 & H3 & H4).
  pose proof (ok_done _ _ Hok). pose proof (contents_length c Hi) as Hl.
  rewrite u32_id by (unfold is_u32; lia).
  split; try done.
  - apply ok_set_window; [by apply ok_set_buf; [| |congruence]|apply Hok|lia].
  - lia.
  - exists c'. split; [by destruct w|]. unfold delivered. cbn. rewrite Z.eqb_refl, app_nil_r, H2.
    rewrite take_app. rewrite <- app_assoc.
    destruct (Z.le_ge_cases n (used c)) as [Hle|Hge].
    + replace (Z.to_nat n - length (contents c))%nat with 0%nat by lia.
      replace k with n by lia. rewrite take_0, Z.sub_diag, drop_0. cbn. by rewrite app_assoc, take_drop.
    + rewrite (firstn_all2 (n := Z.to_nat n)), (drop_ge (contents c)) by lia. cbn. f_equal.
      replace (Z.to_nat n - length (contents c))%nat with (Z.to_nat (n - k)) by lia. apply take_drop.
  - pose proof (owed_set_buf w ch c c' Hget) as Ho. unfold owed in *. destruct w; cbn in *; lia.
  - intros n' c'' [= <-] E'. assert (c'' = c') as -> by (destruct w; cbn in E'; by injection E'). lia.
  - split; [by destruct w|by repeat constructor].
  - by destruct w.
  - intros w' Hw. destruct w, w'; done.
Qed.
End attempts.

Lemma writev_spec W fd w ch c md ans :
  chan_ok W ch -> get_buf w ch = Some c -> owed ch + zlen (default [] md) <= W ->
  answer_ok ans (used c + zlen (default [] md)) ->
  exists ok more ch' evs, writechannel_writev ch fd w c md ans = Ok (ok, more, ch', evs) /\
    attempt W fd w c (default [] md) ans ch ok more ch' evs.
Proof.
  intros Hok Hget Howed Hans. destruct (ok_bufs _ _ Hok w c Hget) as [Hi Hs].
  pose proof (spans_ok c Hi) as Hsp. pose proof (inv_small c Hi). pose proof (contents_length c Hi) as Hl.
  unfold writechannel_writev. destruct (cbuf_readptrs c) as [[[p1 len1] p2] len2].
  destruct Hsp as (s1 & s2 & -> & -> & Hcat & Hl1 & Hl2). cbn [mbind res_bind].
  assert (Hsum : len1 + len2 = used c) by (rewrite <- Hl, <- Hcat, length_app; lia).
  destruct (_ && _) eqn:Eempty.
  { do 4 eexists. split; [reflexivity|]. apply attempt_nothing; [done|done|]. intros n ->. cbn in Hans.
    apply andb_true_iff in Eempty as [[E1%Z.eqb_eq E2%Z.eqb_eq]%andb_true_iff E3]. destruct md; [done|]. cbn in Hans. lia. }
  destruct ans as [n| |].
  - cbn in Hans. pose proof (i_used c Hi). rewrite (u32_id (len1 + len2)) by (unfold is_u32; lia).
    rewrite Hsum.
    assert (Hdone : recvdonelen ch + n < 4294967296 /\ 0 <= n - Z.min (used c) n < 4294967296).
    { pose proof (held_nonneg W ch Write Hok). pose proof (held_nonneg W ch Extra Hok).
      destruct Hok. unfold owed in Howed. unfold MAX_CBUF_SIZE in *.
      assert (used c <= W) by lia. cbn in *. lia. }
    destruct Hdone as [Hdone Hmore].
    destruct (attempt_wrote W fd w ch c Hok Hget (default [] md) n (Z.min (used c) n)
      (take (Z.to_nat n) (contents c ++ default [] md))) as (c' & -> & Ha); try done; try lia.
    cbn. do 4 eexists. split; [reflexivity|]. rewrite <- Hcat, <- app_assoc in Ha.
    destruct md as [md|]; cbn in *.
    + rewrite (u32_id (n - _)) by done. by destruct w.
    + replace 0 with (n - Z.min (used c) n) by lia. by destruct w.
  - by do 4 eexists; split; [reflexivity|]; apply attempt_nothing.
  - destruct (attempt_failed W fd w ch c Hok Hget (default [] md)) as (ch' & evs & -> & Ha).
    by do 4 eexists.
Qed.

(** How many bytes one attempt may send. *)
Definition write_limit (have_writev : bool) (c : circbuffer) (md : list Z) : Z :=
  if have_writev then used c + zlen md else Z.min (used c) (size c - readpos c).

Lemma fallback_spec W fd w ch c md ans :
  chan_ok W ch -> get_buf w ch = Some c -> owed ch <= W ->
  answer_ok ans (write_limit false c md) ->
  exists ok more ch' evs, writechannel_fallback ch fd w c ans = Ok (ok, more, ch', evs) /\
    attempt W fd w c md ans ch ok more ch' evs.
Proof.
  intros Hok Hget Howed Hans. destruct (ok_bufs _ _ Hok w c Hget) as [Hi Hs].
  pose proof (spans_ok c Hi) as Hsp. pose proof (inv_small c Hi). pose proof (i_used c Hi).
  assert (Hlen1 : (cbuf_readptrs c).1.1.2 = Z.min (used c) (size c - readpos c)).
  { unfold cbuf_readptrs. destruct Hi. rewrite u32_id by (unfold is_u32; lia). by destruct (_ <? _). }
  unfold writechannel_fallback. destruct (cbuf_readptrs c) as [[[p1 len1] p2] len2]. cbn in Hlen1.
  destruct Hsp as (s1 & s2 & -> & _ & Hcat & Hl1 & _). cbn [mbind res_bind].
  destruct ans as [n| |].
  - cbn in Hans.
    assert (Hdone : recvdonelen ch + n < 4294967296).
    { pose proof (held_nonneg W ch Write Hok). pose proof (held_nonneg W ch Extra Hok).
      destruct Hok. unfold owed in Howed. unfold MAX_CBUF_SIZE in *. cbn in *. lia. }
    destruct (attempt_wrote W fd w ch c Hok Hget md n n (take (Z.to_nat n) s1))
      as (c' & -> & Ha); try done; try lia.
    { rewrite <- Hcat, <- app_assoc, take_app_le by lia. done. }
    cbn. do 4 eexists. split; [reflexivity|]. rewrite Z.sub_diag in Ha. by destruct w.
  - by do 4 eexists; split; [reflexivity|]; apply attempt_nothing.
  - destruct (attempt_failed W fd w ch c Hok Hget md) as (ch' & evs & -> & Ha). by do 4 eexists.
Qed.

(** ** Window adjustment and the assertions *)

Lemma avail_ok W ch w c :
  chan_ok W ch -> owed ch <= W -> get_buf w ch = Some c ->
  dropbear_assert (recvwindow ch <=? cbuf_getavail c) = Ok tt.
Proof.
  intros Hok Ho Hg. destruct (ok_bufs _ _ Hok w c Hg) as [Hi Hs]. pose proof (inv_small c Hi).
  pose proof (held_nonneg W ch Write Hok). pose proof (held_nonneg W ch Extra Hok).
  pose proof (i_used c Hi). pose proof (ok_done _ _ Hok).
  unfold cbuf_getavail, dropbear_assert. rewrite u32_id by (unfold is_u32; lia).
  rewrite (proj2 (Z.leb_le _ _)); [done|]. unfold owed in Ho. destruct w; cbn in *; rewrite Hg in *; cbn in *; lia.
Qed.

Lemma shape_tail fd ch ok evs ch1 ch2 evs2 : shape fd ch ok evs ch1 ->
  fds ch2 = fds ch1 /\ (exists tail, evs2 = evs ++ tail /\ Forall is_adjust tail) -> shape fd ch ok evs2 ch2.
Proof.
  intros Hs [Ef (tail & -> & Ht)]. unfold shape in *. destruct ok.
  - destruct Hs as [E1 Hs]. split; [congruence|]. apply Forall_app. split; [done|]. eapply Forall_impl; [exact Ht|]. by intros [].
  - destruct Hs as (t0 & -> & Hf & H0). exists (t0 ++ tail). rewrite app_assoc, Ef. split_and!; try done. by apply Forall_app.
Qed.

Lemma shape_window fd ch a b ok evs ch' : shape fd (set_window ch a b) ok evs ch' -> shape fd ch ok evs ch'.
Proof. unfold shape, close_chan_fd. cbn. destruct ok; [done|]. by destruct (bidir_fd ch). Qed.

Lemma writechannel_spec W hv fd w ch c md ans :
  chan_ok W ch -> get_buf w ch = Some c -> owed ch + zlen (default [] md) <= W ->
  answer_ok ans (write_limit hv c (default [] md)) ->
  exists ok more ch' evs, writechannel W hv ch fd w c md ans = Ok (ok, more, ch', evs) /\
    attempt W fd w c (default [] md) ans ch ok more ch' evs /\ recvdonelen ch' < Z.max 1 (W `div` 3).
Proof.
  intros Hok Hget Howed Hans. unfold writechannel.
  assert (Hinner : exists ok more ch' evs,
    (if hv then writechannel_writev ch fd w c md ans else writechannel_fallback ch fd w c ans) =
    Ok (ok, more, ch', evs) /\ attempt W fd w c (default [] md) ans ch ok more ch' evs).
  { destruct hv; [by apply writev_spec|]. eapply fallback_spec; try done. lia. }
  destruct Hinner as (ok & more & ch1 & evs & -> & [H1 H2 (c1 & Hg1 & Hst) H4 Hp Hfd' H5 H6 H7]). cbn [mbind res_bind].
  pose proof (held_nonneg W ch1 Write H1). pose proof (held_nonneg W ch1 Extra H1).
  assert (Hrange : 0 <= recvwindow ch1 + recvdonelen ch1 <= W) by (destruct H1; unfold owed in *; cbn in *; lia).
  set (r := if _ <=? _ then _ else _).
  assert (Hr : exists ch2 evs2, r = (ch2, evs2) /\ chan_ok W ch2 /\ owed ch2 = owed ch1 /\
    recv_eof ch2 = recv_eof ch1 /\ (forall w, get_buf w ch2 = get_buf w ch1) /\
    delivered fd evs2 = delivered fd evs /\ (fds ch2 = fds ch1 /\ exists tail, evs2 = evs ++ tail /\ Forall is_adjust tail) /\ recvdonelen ch2 < Z.max 1 (W `div` 3)).
  { unfold r. unfold RECV_WINDOWEXTEND. destruct (Z.leb_spec (W `div` 3) (recvdonelen ch1)).
    - do 2 eexists. split; [reflexivity|]. destruct H1. unfold MAX_CBUF_SIZE in *.
      rewrite u32_id by (unfold is_u32; lia). split_and!.
      + by apply ok_set_window; [|lia|lia].
      + unfold owed. cbn. lia.
      + done.
      + by intros [].
      + rewrite delivered_app. cbn. apply app_nil_r.
      + done.
      + eexists. split; [reflexivity|by repeat constructor].
      + cbn. lia.
    - do 2 eexists. split_and!; try done; [|lia]. exists []. by rewrite app_nil_r. }
  destruct Hr as (ch2 & evs2 & -> & K1 & K2 & K3 & K4 & K5 & K6 & K7).
  assert (Ho2 : owed ch2 <= W) by lia.
  assert (Hw2 : recvwindow ch2 <= W).
  { pose proof (held_nonneg W ch2 Write K1). pose proof (held_nonneg W ch2 Extra K1).
    destruct K1. unfold owed in Ho2. cbn in *. lia. }
  unfold dropbear_assert at 1. rewrite (proj2 (Z.leb_le _ _)) by done. cbn [mbind res_bind].
  destruct (ok_write _ _ K1) as [cw Hcw]. rewrite Hcw. cbn [assert_avail].
  rewrite (avail_ok W ch2 Write cw K1 Ho2 Hcw). cbn [mbind res_bind].
  assert (He : assert_avail ch2 (extrabuf ch2) true = Ok tt).
  { destruct (extrabuf ch2) as [ce|] eqn:Ee; [|done]. by apply (avail_ok W ch2 Extra ce K1 Ho2). }
  rewrite He. cbn [mbind res_bind]. do 4 eexists. split; [reflexivity|].
  split; [|done].
  split; try done; [exists c1; by rewrite K4, K5|lia|intros n c' En; rewrite K4; by apply Hp|by eapply shape_tail|congruence|intros; rewrite K4; auto].
Qed.

(** ** Storing the rest *)

Lemma getptr_ok n b :
  wf b -> 0 <= n <= BUF_MAX_INCR -> pos b + n <= DropbearBuffer.len b ->
  buf_getptr n b = Ok (pos b, b).
Proof.
  intros Hwf Hn Hl. destruct (wp_total (buf_getptr n) (fun p b' => p = pos b /\ b' = b) b)
    as (? & ? & E & -> & ->); [|done].
  apply wp_getptr; [done|unfold is_u32, BUF_MAX_INCR in *; lia|lia|done].
Qed.
Lemma incrpos_ok n b :
  wf b -> 0 <= n <= BUF_MAX_INCR -> pos b + n <= DropbearBuffer.len b ->
  buf_incrpos n b = Ok (tt, set_pos b (pos b + n)).
Proof.
  intros Hwf Hn Hl. destruct (wp_total (buf_incrpos n) (fun _ b' => b' = set_pos b (pos b + n)) b)
    as ([] & ? & E & ->); [|done].
  apply wp_incrpos; [done|unfold is_u32, BUF_MAX_INCR in *; lia|lia|done].
Qed.

Lemma room_positive c : inv c -> used c < size c -> 0 < room c.
Proof.
  intros Hi Hlt. pose proof (inv_write c Hi) as Hw. destruct Hi. unfold room.
  rewrite (proj2 (Z.eqb_neq _ _)) by lia. revert Hw.
  destruct (Z.ltb_spec (readpos c + used c) (size c)), (Z.ltb_spec (writepos c) (readpos c)); lia.
Qed.

Lemma store_loop_spec malloc_ok fuel len c payload :
  inv c -> wf payload -> 0 <= len -> len <= Z.of_nat fuel -> used c + len <= size c ->
  pos payload + len <= DropbearBuffer.len payload -> malloc_ok (size c) = true ->
  exists c', store_loop malloc_ok fuel len c payload = Ok (c', set_pos payload (pos payload + len)) /\
    inv c' /\ size c' = size c /\ used c' = used c + len /\
    contents c' = contents c ++ take (Z.to_nat len) (drop (Z.to_nat (pos payload)) (DropbearBuffer.data payload)).
Proof.
  revert len c payload. induction fuel as [|fuel IH]; intros len c payload Hi Hwf Hlen Hf Hfit Hpay Hm;
    cbn [store_loop]; destruct (Z.ltb_spec 0 len); try lia.
  1,3: exists c; replace len with 0 by lia; rewrite !Z.add_0_r, app_nil_r; destruct payload; by split_and!.
  pose proof (room_positive c Hi ltac:(lia)) as Hroom. pose proof (inv_small c Hi) as Hsmall.
  rewrite (writelen_room c Hi). cbn [mbind res_bind]. set (n := Z.min (room c) len).
  pose proof (room_bound c Hi). pose proof (i_used c Hi).
  pose proof (wf_pos _ Hwf). pose proof (wf_len _ Hwf). pose proof (wf_data _ Hwf).
  set (bs := take (Z.to_nat n) (drop (Z.to_nat (pos payload)) (DropbearBuffer.data payload))).
  assert (Hbs : zlen bs = n) by (unfold bs; rewrite length_take, length_drop; lia).
  assert (Hgp : buf_getptr n payload = Ok (pos payload, payload))
    by (apply getptr_ok; unfold BUF_MAX_INCR; done || lia).
  assert (Hip : buf_incrpos n payload = Ok (tt, set_pos payload (pos payload + n)))
    by (apply incrpos_ok; unfold BUF_MAX_INCR; done || lia).
  destruct (put malloc_ok c bs) as [c1| |] eqn:Eput.
  2,3: pose proof (rwp_put malloc_ok Total c bs (fun _ => True) Hi ltac:(split; [lia|done]) ltac:(done)) as Hx;
       rewrite Eput in Hx; done.
  pose proof (rwp_put malloc_ok Total c bs (fun c' => inv c' /\ contents c' = contents c ++ bs /\
    size c' = size c /\ used c' = used c + n) Hi ltac:(split; [lia|done])
    ltac:(intros; rewrite <- Hbs; by split_and!)) as Hp.
  rewrite Eput in Hp. destruct Hp as (P1 & P2 & P3 & P4).
  unfold put in Eput. rewrite Hbs in Eput.
  destruct (cbuf_writeptr malloc_ok c n) as [[p c0]| |]; cbn [mbind res_bind] in Eput |- *; try done.
  rewrite Hgp. cbn [mbind res_bind]. rewrite load_ok by lia. cbn [mbind res_bind]. fold bs.
  destruct (data c0) as [d|]; [|done].
  destruct (store d p bs) as [d'| |]; cbn [mbind res_bind] in Eput |- *; try done.
  rewrite Eput. cbn [mbind res_bind]. rewrite Hip. cbn [mbind res_bind].
  rewrite u32_id by (unfold is_u32; lia).
  destruct (IH (len - n) c1 (set_pos payload (pos payload + n))) as (c' & -> & Q1 & Q2 & Q3 & Q4);
    [done|apply wf_set_pos; [done|lia]|lia|lia|lia|cbn; lia|congruence|].
  exists c'. cbn [pos DropbearBuffer.data set_pos] in *.
  split_and!; [|done|congruence|lia|].
  - do 2 f_equal. unfold set_pos. cbn. f_equal. lia.
  - rewrite Q4, P2, <- app_assoc. f_equal. unfold bs.
    replace (Z.to_nat (pos payload + n)) with (Z.to_nat (pos payload) + Z.to_nat n)%nat by lia.
    rewrite <- drop_drop. set (x := drop (Z.to_nat (pos payload)) _).
    rewrite <- (take_drop (Z.to_nat n) (take (Z.to_nat len) x)), take_take, skipn_firstn_comm.
    f_equal; f_equal; lia.
Qed.

(** ** Receiving a packet *)

(** A payload positioned at an SSH string. *)
Record holds (payload : buffer) (d : list Z) : Prop := mkHolds {
  h_wf : wf payload;
  h_int : LOAD32H (take 4 (drop (Z.to_nat (pos payload)) (DropbearBuffer.data payload))) = zlen d;
  h_fit : pos payload + 4 + zlen d <= DropbearBuffer.len payload;
  h_body : take (length d) (drop (Z.to_nat (pos payload + 4)) (DropbearBuffer.data payload)) = d
}.

Lemma getint_ok payload d :
  holds payload d -> buf_getint payload = Ok (zlen d, set_pos payload (pos payload + 4)).
Proof.
  intros []. destruct (wp_total buf_getint (fun v b => v = zlen d /\ b = set_pos payload (pos payload + 4)) payload)
    as (? & ? & E & -> & ->); [|done].
  apply wp_getint; [done|lia|]. intros _ v _ ->. by rewrite h_int0.
Qed.

Lemma store_rest_spec W fd malloc_ok w ch c d ans pl more ch1 evs ok :
  attempt W fd w c d ans ch ok more ch1 evs -> owed ch + zlen d <= W -> malloc_ok W = true ->
  wf pl -> pos pl + zlen d <= DropbearBuffer.len pl ->
  take (length d) (drop (Z.to_nat (pos pl)) (DropbearBuffer.data pl)) = d ->
  exists ch' payload' c',
    store_rest malloc_ok w pl (zlen d) ok more ch1 evs = Ok (ch', payload', evs) /\
    chan_ok W ch' /\ owed ch' <= W /\ recv_eof ch' = recv_eof ch /\ get_buf w ch' = Some c' /\
    (forall w', w' <> w -> get_buf w' ch' = get_buf w' ch) /\
    recvdonelen ch' = recvdonelen ch1 /\ fds ch' = fds ch1 /\
    if ok then delivered fd evs ++ contents c' = contents c ++ d /\
               payload' = set_pos pl (pos pl + zlen d) /\ owed ch' = owed ch + zlen d
    else delivered fd evs ++ contents c' = contents c /\ ans = Failed.
Proof.
  intros [A1 A2 (c1 & Hg1 & Hst) A4 _ _ A5 A6 A7] Ho Hm Hwf Hfit Hbody. unfold store_rest.
  pose proof (wf_pos _ Hwf). pose proof (wf_len _ Hwf). pose proof (wf_size _ Hwf).
  unfold BUF_MAX_SIZE in *.
  rewrite (incrpos_ok more pl) by (done || (unfold BUF_MAX_INCR; lia)). cbn [mbind res_bind].
  destruct ok.
  2:{ destruct A5 as [-> ->]; [done|]. rewrite drop_0, app_assoc in Hst.
      apply app_inv_tail in Hst. exists ch1, (set_pos pl (pos pl + 0)), c1.
      split_and!; try done. lia. }
  rewrite Hg1, u32_id by (unfold is_u32; lia).
  destruct (ok_bufs _ _ A1 w c1 Hg1) as [Hi1 Hs1].
  assert (Hroom1 : used c1 + (zlen d - more) <= size c1).
  { pose proof (held_nonneg W ch1 Write A1). pose proof (held_nonneg W ch1 Extra A1). destruct A1.
    unfold owed in *. destruct w; cbn in *; rewrite Hg1 in *; cbn in *; lia. }
  destruct (store_loop_spec malloc_ok (Z.to_nat (zlen d - more)) (zlen d - more) c1 (set_pos pl (pos pl + more)))
    as (c' & -> & Q1 & Q2 & Q3 & Q4);
    [done|apply wf_set_pos; [done|cbn; lia]|lia|lia|lia|cbn; lia|congruence|].
  cbn [mbind res_bind]. exists (set_buf w ch1 c'). eexists. exists c'. split; [reflexivity|].
  split_and!.
  - apply ok_set_buf; [done|done|congruence].
  - rewrite (owed_set_buf w ch1 c1 c' Hg1). lia.
  - rewrite <- A6. by destruct w.
  - apply get_set_buf.
  - intros w' Hw. rewrite <- (A7 w' Hw). destruct w, w'; done.
  - by destruct w.
  - by destruct w.
  - rewrite Q4, <- Hst. cbn [pos DropbearBuffer.data set_pos]. do 2 f_equal.
    rewrite <- Hbody at 2. rewrite skipn_firstn_comm, drop_drop. f_equal; [lia|]. f_equal. lia.
  - unfold set_pos. cbn. f_equal. lia.
  - rewrite (owed_set_buf w ch1 c1 c' Hg1). lia.
Qed.

Lemma recv_spec W hv malloc_ok ch fd w c payload d ans :
  chan_ok W ch -> owed ch <= W -> recv_eof ch = false -> get_buf w ch = Some c -> 0 <= fd ->
  holds payload d -> zlen d <= recvwindow ch -> answer_ok ans (write_limit hv c d) ->
  malloc_ok W = true ->
  exists ch' payload' evs c' ok,
    common_recv_msg_channel_data W hv malloc_ok ch fd w payload ans = Ok (ch', payload', evs) /\
    chan_ok W ch' /\ owed ch' <= W /\ recv_eof ch' = false /\ get_buf w ch' = Some c' /\
    (forall w', w' <> w -> get_buf w' ch' = get_buf w' ch) /\
    recvdonelen ch' < Z.max 1 (W `div` 3) /\ shape fd ch ok evs ch' /\
    if ok : bool then delivered fd evs ++ contents c' = contents c ++ d /\
                      payload' = set_pos payload (pos payload + 4 + zlen d) /\ owed ch' = owed ch
    else delivered fd evs ++ contents c' = contents c /\ ans = Failed.
Proof.
  intros Hok Ho Heof Hget Hfd Hh Hwin Hans Hm. unfold common_recv_msg_channel_data.
  rewrite Heof, Hget, (proj2 (Z.ltb_ge fd 0)), (getint_ok _ _ Hh) by lia. cbn [mbind res_bind].
  destruct (ok_bufs _ _ Hok w c Hget) as [Hi Hs]. pose proof (inv_small c Hi). pose proof (i_used c Hi).
  destruct Hh as [Hwf Hint Hfit Hbody]. pose proof (wf_pos _ Hwf). pose proof (wf_len _ Hwf).
  pose proof (wf_data _ Hwf). pose proof (wf_size _ Hwf).
  pose proof (held_nonneg W ch Write Hok). pose proof (held_nonneg W ch Extra Hok).
  assert (Hroom : used c + recvwindow ch <= W).
  { destruct Hok. unfold owed in Ho. destruct w; cbn in *; rewrite Hget in *; cbn in *; lia. }
  unfold cbuf_getavail. rewrite (u32_id (size c - used c)) by (unfold is_u32; lia).
  rewrite (proj2 (Z.ltb_ge (size c - used c) (zlen d))) by lia.
  unfold dropbear_assert at 1. rewrite (proj2 (Z.leb_le (zlen d) (recvwindow ch))) by done.
  cbn [mbind res_bind]. rewrite u32_id by (unfold is_u32; lia).
  set (ch0 := set_window ch (recvwindow ch - zlen d) (recvdonelen ch)).
  assert (Hok0 : chan_ok W ch0) by (apply ok_set_window; [done|lia|apply Hok]).
  assert (Ho0 : owed ch0 + zlen d = owed ch) by (unfold owed; cbn; lia).
  unfold dropbear_assert at 1. rewrite (proj2 (Z.leb_le (recvwindow ch0) W)) by (cbn; lia).
  cbn [mbind res_bind]. set (pl := set_pos payload (pos payload + 4)).
  assert (Hwfl : wf pl) by (apply wf_set_pos; [done|lia]).
  rewrite (getptr_ok (zlen d) pl) by (done || (unfold BUF_MAX_INCR, BUF_MAX_SIZE in *; cbn; lia)).
  cbn [mbind res_bind]. rewrite load_ok by (cbn; lia). cbn [mbind res_bind].
  change (pos pl) with (pos payload + 4) at 1. change (DropbearBuffer.data pl) with (DropbearBuffer.data payload).
  rewrite Nat2Z.id, Hbody.
  destruct (writechannel_spec W hv fd w ch0 c (Some d) ans) as (ok & more & ch1 & evs & -> & Ha & Hrd);
    [done|by destruct w|cbn; lia|done|]. cbn [mbind res_bind].
  destruct (store_rest_spec W fd malloc_ok w ch0 c d ans pl more ch1 evs ok)
    as (ch' & payload' & c' & -> & B1 & B2 & B3 & B4 & B5 & B7 & B8 & B6);
    [done|lia|done|done|cbn; lia|done|].
  exists ch', payload', evs, c', ok. split_and!; try done; [by rewrite B3|by rewrite B7| |].
  - pose proof (shape_window _ _ _ _ _ _ _ (a_shape _ _ _ _ _ _ _ _ _ _ _ Ha)) as Hsh. eapply shape_tail; [exact Hsh|].
    split; [done|]. exists []. by rewrite app_nil_r.
  - destruct ok; [|done]. destruct B6 as (? & ? & ->). by split_and!.
Qed.

(** ** Properties *)

(** a data packet of a peer that keeps to the advertised window is always
    accepted: no assertion fails and nothing exits, whatever [writev] (or [write])
    answers; the bytes sent to the descriptor followed by the bytes buffered are
    those buffered before followed by the packet's data, the window stays covered by
    buffer space, and the other buffer of the channel is untouched. *)
Theorem recv_data_accepted (W : Z) (hv : bool) (malloc_ok : Z -> bool) (ch : channel) (fd : Z)
    (w : which) (c : circbuffer) (payload : buffer) (d : list Z) (ans : answer) :
  chan_ok W ch -> owed ch <= W -> recv_eof ch = false -> get_buf w ch = Some c -> 0 <= fd ->
  holds payload d -> zlen d <= recvwindow ch -> malloc_ok W = true ->
  answer_ok ans (write_limit hv c d) -> ans <> Failed ->
  exists ch' payload' evs c',
    common_recv_msg_channel_data W hv malloc_ok ch fd w payload ans = Ok (ch', payload', evs) /\
    chan_ok W ch' /\ owed ch' = owed ch /\ get_buf w ch' = Some c' /\
    (forall w', w' <> w -> get_buf w' ch' = get_buf w' ch) /\
    delivered fd evs ++ contents c' = contents c ++ d /\
    pos payload' = pos payload + 4 + zlen d.
Proof.
  intros Hok Ho Heof Hget Hfd Hh Hwin Hm Hans Hnf.
  destruct (recv_spec W hv malloc_ok ch fd w c payload d ans)
    as (ch' & payload' & evs & c' & ok & E & H1 & _ & _ & H4 & H5 & _ & _ & H6); try done.
  exists ch', payload', evs, c'. destruct ok; [|by destruct H6 as [_ ?]].
  destruct H6 as (H6 & -> & ?). by split_and!.
Qed.

(** A fresh channel with a window of [W] bytes. *)
Definition fresh_channel (W fd : Z) : channel :=
  mkChan W 0 fd (-2) (-1) false (Some (mkCirc W 0 0 0 None)) None false.

Lemma fresh_ok W fd : 0 < W <= MAX_CBUF_SIZE -> chan_ok W (fresh_channel W fd) /\ owed (fresh_channel W fd) = W.
Proof.
  intros HW. split; [|unfold owed; cbn; lia].
  split; cbn; [done|lia|done|by eexists|].
  intros [] c; cbn; [|done]. intros [= <-]. split; [by apply new_inv|done].
Qed.

(** A payload with the string [hi]. *)
Definition demo_payload : buffer := mkBuf [0; 0; 0; 2; 104; 105] 6 0 6.

Lemma demo_holds : holds demo_payload [104; 105].
Proof.
  split; [|vm_compute; done|vm_compute; discriminate|vm_compute; reflexivity].
  split; try (vm_compute; intuition discriminate).
  repeat constructor; vm_compute; discriminate.
Qed.

Lemma recv_data_accepted_witness :
  exists ch' payload' evs c',
    common_recv_msg_channel_data 8 true (fun _ => true) (fresh_channel 8 3) 3 Write demo_payload (Wrote 1)
      = Ok (ch', payload', evs) /\
    get_buf Write ch' = Some c' /\ delivered 3 evs ++ contents c' = [104; 105].
Proof.
  destruct (fresh_ok 8 3) as [Hok Ho]; [vm_compute; split; [reflexivity|discriminate]|].
  destruct (recv_data_accepted 8 true (fun _ => true) (fresh_channel 8 3) 3 Write (mkCirc 8 0 0 0 None)
    demo_payload [104; 105] (Wrote 1)) as (ch' & payload' & evs & c' & E & _ & _ & H1 & _ & H2 & _).
  - exact Hok.
  - rewrite Ho. apply Z.le_refl.
  - reflexivity.
  - reflexivity.
  - vm_compute. discriminate.
  - exact demo_holds.
  - vm_compute. discriminate.
  - reflexivity.
  - vm_compute. split; discriminate.
  - discriminate.
  - exists ch', payload', evs, c'. split; [exact E|]. split; [exact H1|exact H2].
Defined.

(** A run of a channel: packets arrive, the main loop drains the buffer when the
    descriptor is writable, the peer ends its data, and the descriptor is closed.  Writes
    may fail, which closes the descriptor too.  The state is the channel with all bytes
    received and all bytes delivered so far. *)
Section runs.
Context (W : Z) (hv : bool) (malloc_ok : Z -> bool) (fd : Z).

Inductive chan_step : channel * list Z * list Z -> channel * list Z * list Z -> Prop :=
| step_packet ch rcvd out c payload d ans ch' payload' evs :
    get_buf Write ch = Some c -> holds payload d -> zlen d <= recvwindow ch ->
    answer_ok ans (write_limit hv c d) ->
    common_recv_msg_channel_data W hv malloc_ok ch (writefd ch) Write payload ans = Ok (ch', payload', evs) ->
    chan_step (ch, rcvd, out) (ch', rcvd ++ d, out ++ delivered fd evs)
| step_drain ch rcvd out c ans ok more ch' evs :
    get_buf Write ch = Some c -> 0 <= writefd ch -> answer_ok ans (write_limit hv c []) ->
    writechannel W hv ch (writefd ch) Write c None ans = Ok (ok, more, ch', evs) ->
    chan_step (ch, rcvd, out) (ch', rcvd, out ++ delivered fd evs)
| step_eof ch rcvd out : chan_step (ch, rcvd, out) (set_recv_eof ch, rcvd, out)
| step_close ch rcvd out ch' evs : close_chan_fd ch (writefd ch) SHUT_WR = (ch', evs) ->
    chan_step (ch, rcvd, out) (ch', rcvd, out ++ delivered fd evs).

(** All that was received was delivered or is buffered, in order. *)
Definition stream_inv (s : channel * list Z * list Z) : Prop :=
  let '(ch, rcvd, out) := s in
  chan_ok W ch /\ owed ch = W /\ extrabuf ch = None /\ writefd ch = fd /\
  recvdonelen ch < Z.max 1 (W `div` 3) /\
  exists c, get_buf Write ch = Some c /\ out ++ contents c = rcvd.
(** The descriptor is closed: what is missing is lost. *)
Definition ended_inv (s : channel * list Z * list Z) : Prop :=
  let '(ch, rcvd, out) := s in
  chan_ok W ch /\ owed ch <= W /\ extrabuf ch = None /\ writefd ch < 0 /\
  exists c, get_buf Write ch = Some c /\ out ++ contents c `prefix_of` rcvd.

Lemma shape_failed ch evs ch' : shape (writefd ch) ch false evs ch' -> writefd ch' < 0.
Proof.
  intros (tail & _ & Ef & _). injection Ef as Ew _ _ _. rewrite Ew. unfold close_chan_fd. destruct (bidir_fd ch); cbn; by rewrite Z.eqb_refl.
Qed.

Lemma packet_step ch rcvd out c payload d ans ch' payload' evs : 0 <= fd -> malloc_ok W = true -> stream_inv (ch, rcvd, out) ->
  get_buf Write ch = Some c -> holds payload d -> zlen d <= recvwindow ch -> answer_ok ans (write_limit hv c d) ->
  common_recv_msg_channel_data W hv malloc_ok ch (writefd ch) Write payload ans = Ok (ch', payload', evs) ->
  stream_inv (ch', rcvd ++ d, out ++ delivered fd evs) \/ ended_inv (ch', rcvd ++ d, out ++ delivered fd evs).
Proof.
  intros Hfd Hm (H1 & H2 & Hx & Hwfd & Hrd & c0 & Hc0 & Hout) Hg Hh Hw Ha E. rewrite Hg in Hc0. injection Hc0 as <-.
  destruct (recv_eof ch) eqn:H3; [unfold common_recv_msg_channel_data in E; by rewrite H3 in E|].
  destruct (recv_spec W hv malloc_ok ch (writefd ch) Write c payload d ans)
    as (ch1 & pl1 & evs1 & c1 & ok & E1 & K1 & K2 & K3 & K4 & K5 & K7 & Ksh & K6); try done; [lia|lia|].
  rewrite E in E1. injection E1 as <- <- <-. assert (Hx' : extrabuf ch' = None) by (rewrite <- Hx; by apply (K5 Extra)).
  rewrite Hwfd in K6. destruct ok.
  - left. destruct K6 as (K6 & _ & K8). destruct Ksh as [[= K9 _ _ _] _]. split_and!; try done; [lia|congruence|].
    exists c1. split; [done|]. by rewrite <- Hout, <- !app_assoc, K6.
  - right. split_and!; try done; [by eapply shape_failed|]. exists c1. split; [done|]. rewrite <- app_assoc, (proj1 K6), Hout. by apply prefix_app_r.
Qed.

Lemma drain_step ch rcvd out c ans ok more ch' evs : stream_inv (ch, rcvd, out) ->
  get_buf Write ch = Some c -> answer_ok ans (write_limit hv c []) ->
  writechannel W hv ch (writefd ch) Write c None ans = Ok (ok, more, ch', evs) ->
  stream_inv (ch', rcvd, out ++ delivered fd evs) /\ ok = true \/ ended_inv (ch', rcvd, out ++ delivered fd evs) /\ ok = false.
Proof.
  intros (H1 & H2 & Hx & Hwfd & Hrd & c0 & Hc0 & Hout) Hg Ha E. rewrite Hg in Hc0. injection Hc0 as <-.
  destruct (writechannel_spec W hv (writefd ch) Write ch c None ans) as (ok1 & more1 & ch1 & evs1 & E1 & Hatt & Hrd1);
    [done|done|cbn; lia|done|]. rewrite E in E1. injection E1 as <- <- <- <-.
  destruct Hatt as [A1 A2 (c1 & Hg1 & Hst) A4 _ A9 A5 A6 A7]. cbn in A2, A4, Hst. rewrite Hwfd, drop_nil, !app_nil_r in Hst.
  assert (Hx' : extrabuf ch' = None) by (rewrite <- Hx; by apply (A7 Extra)).
  assert (Hall : out ++ delivered fd evs ++ contents c1 = rcvd) by by rewrite Hst.
  destruct ok; [left|right]; (split; [|done]).
  - split_and!; try done; [lia|destruct A9 as [[= -> _ _ _] _]; done|]. exists c1. by rewrite <- app_assoc.
  - split_and!; try done; [lia|by eapply shape_failed|]. exists c1. rewrite <- app_assoc, Hall. done.
Qed.

(** Closing takes nothing from the buffer. *)
Lemma close_step ch ch' evs : chan_ok W ch -> close_chan_fd ch (writefd ch) SHUT_WR = (ch', evs) ->
  chan_ok W ch' /\ owed ch' = owed ch /\ extrabuf ch' = extrabuf ch /\ writefd ch' < 0 /\ writebuf ch' = writebuf ch /\ delivered fd evs = [].
Proof.
  intros Hok E. assert (Hw : writefd ch' < 0).
  { change ch' with (ch', evs).1. rewrite <- E. unfold close_chan_fd. destruct (bidir_fd ch); cbn; by rewrite Z.eqb_refl. }
  destruct (close_chan_fd_spec ch (writefd ch) SHUT_WR) as (w & r & e & evs' & E' & Hd). rewrite E in E'. injection E' as -> ->.
  split_and!; try done. by apply ok_set_fds.
Qed.

Lemma stream_step s s' : 0 <= fd -> malloc_ok W = true -> stream_inv s \/ ended_inv s -> chan_step s s' -> stream_inv s' \/ ended_inv s'.
Proof.
  intros Hfd Hm Hinv Hstep. destruct Hstep as [ch rcvd out c payload d ans ch' payload' evs Hg Hh Hw Ha E
    |ch rcvd out c ans ok more ch' evs Hg H0 Ha E|ch rcvd out|ch rcvd out ch' evs E].
  - destruct Hinv as [Hinv|(H1 & H2 & H3 & H4 & c0 & Hc0 & Hp)]; [by eapply packet_step|right].
    revert E. unfold common_recv_msg_channel_data. destruct (recv_eof ch); [done|]. rewrite Hg, (proj2 (Z.ltb_lt _ 0)) by done.
    intros [= <- _ <-]. cbn. rewrite app_nil_r. split_and!; try done. exists c0. split; [done|]. by apply prefix_app_r.
  - destruct Hinv as [Hinv|(H1 & H2 & H3 & H4 & _)]; [|lia]. destruct (drain_step _ _ _ _ _ _ _ _ _ Hinv Hg Ha E) as [[? _]|[? _]]; auto.
  - destruct Hinv as [(H1 & H2)|(H1 & H2)]; [left|right]; (split; [destruct H1; by split|exact H2]).
  - assert (Hok : chan_ok W ch) by (destruct Hinv as [[? _]|[? _]]; done).
    destruct (close_step ch ch' evs Hok E) as (C1 & C2 & C3 & C4 & C5 & ->). rewrite app_nil_r. right. unfold ended_inv. cbn [get_buf].
    rewrite C2, C3, C5. destruct Hinv as [(H1 & H2 & Hx & _ & _ & c & Hc & <-)|(H1 & H2 & Hx & _ & c & Hc & Hp)]; split_and!; try done; [lia| |]; by exists c.
Qed.

Lemma stream_run ch rcvd out : 0 < W <= MAX_CBUF_SIZE -> 0 <= fd -> malloc_ok W = true ->
  rtc chan_step (fresh_channel W fd, [], []) (ch, rcvd, out) -> stream_inv (ch, rcvd, out) \/ ended_inv (ch, rcvd, out).
Proof.
  intros HW Hfd Hm Hrtc. destruct (fresh_ok W fd HW) as [Hok Ho].
  remember (fresh_channel W fd, [], []) as s0 eqn:Es. remember (ch, rcvd, out) as s1 eqn:E1.
  assert (H0 : stream_inv s0 \/ ended_inv s0) by (left; subst s0; split_and!; try done; [cbn; lia|by eexists]).
  clear Es E1. induction Hrtc as [|x y z Hxy Hyz IH]; [done|]. apply IH. by eapply stream_step.
Qed.
End runs.

(** C18: in every run of a fresh channel whose peer keeps to its window, of any length and
    with any partial and failing writes, an EOF of the peer and the closing of the
    descriptor included, the bytes delivered to the descriptor followed by those in the
    circular buffer are a prefix of the bytes received.  While the descriptor is open they
    are all of them, and the window the peer may use, what is not acknowledged yet and what
    is buffered add up to the configured window. *)
Theorem channel_stream_fifo (W : Z) (hv : bool) (malloc_ok : Z -> bool) (fd : Z)
    (ch : channel) (rcvd out : list Z) :
  0 < W <= MAX_CBUF_SIZE -> 0 <= fd -> malloc_ok W = true ->
  rtc (chan_step W hv malloc_ok fd) (fresh_channel W fd, [], []) (ch, rcvd, out) ->
  exists c, writebuf ch = Some c /\ out ++ contents c `prefix_of` rcvd /\
    (0 <= writefd ch -> out ++ contents c = rcvd /\ recvwindow ch + recvdonelen ch + used c = W).
Proof.
  intros HW Hfd Hm [(H1 & H2 & Hx & _ & _ & c & Hc & Hs)|(H1 & H2 & Hx & Hw & c & Hc & Hp)]%stream_run; try done; exists c; cbn in Hc.
  - split_and!; [done|by rewrite Hs|]. intros _. split; [done|]. unfold owed in H2. rewrite Hc, Hx in H2. cbn in H2. lia.
  - split_and!; [done|done|lia].
Qed.

(** A run of one packet, of which the descriptor takes a byte. *)
Lemma demo_run : exists ch out, writefd ch = 3 /\
  rtc (chan_step 8 true (fun _ => true) 3) (fresh_channel 8 3, [], []) (ch, [104; 105], out).
Proof.
  destruct (common_recv_msg_channel_data 8 true (fun _ => true) (fresh_channel 8 3) 3 Write
    demo_payload (Wrote 1)) as [[[ch' payload'] evs]|m|] eqn:E; [|vm_compute in E; discriminate E..].
  exists ch', (delivered 3 evs). split; [vm_compute in E; injection E as <- _ _; reflexivity|]. apply rtc_once.
  apply (step_packet 8 true (fun _ => true) 3 (fresh_channel 8 3) [] []
    (mkCirc 8 0 0 0 None) demo_payload [104; 105] (Wrote 1) ch' payload' evs); try done. exact demo_holds.
Qed.

Lemma channel_stream_fifo_witness :
  exists ch out c,
    rtc (chan_step 8 true (fun _ => true) 3) (fresh_channel 8 3, [], []) (ch, [104; 105], out) /\
    writebuf ch = Some c /\ out ++ contents c = [104; 105] /\ recvwindow ch + recvdonelen ch + used c = 8.
Proof.
  destruct demo_run as (ch & out & Hfd & Hrtc). exists ch, out.
  destruct (channel_stream_fifo 8 true (fun _ => true) 3 _ _ _
    ltac:(vm_compute; split; [reflexivity|discriminate]) ltac:(vm_compute; discriminate) eq_refl Hrtc)
    as (c & Hc & _ & Hw).
  exists c. split; [exact Hrtc|]. split; [exact Hc|]. apply Hw. rewrite Hfd. vm_compute. discriminate.
Defined.

(** ** Draining *)

(** What the descriptor does in one round of the main loop: it is not ready, or it takes a
    number of bytes that may depend on the buffer. *)
Definition poll : Type := option (circbuffer -> Z).
Definition poll_ok (hv : bool) (p : poll) : Prop :=
  match p with None => True | Some f => forall c, 0 < used c -> 1 <= f c <= write_limit hv c [] end.
Definition poll_answer (p : poll) (ch : channel) : answer :=
  match p, writebuf ch with Some f, Some c => Wrote (f c) | _, _ => Again end.
Fixpoint drain (W : Z) (hv : bool) (ps : list poll) (ch : channel) : res (channel * list event) :=
  match ps with
  | [] => Ok (ch, [])
  | p :: ps =>
      '(ch, evs) ← channelio_write W hv ch (poll_answer p ch);
      '(ch, evs') ← drain W hv ps ch;
      Ok (ch, evs ++ evs')
  end.
Definition ready (ps : list poll) : Z := zlen (omap id ps).

Section drain.
Context (W : Z) (hv : bool) (malloc_ok : Z -> bool) (fd : Z) (Hfd : 0 <= fd) (Hm : malloc_ok W = true).

(** One round, as a step of a run. *)
Lemma channelio_step ch rcvd out c p : stream_inv W fd (ch, rcvd, out) -> writebuf ch = Some c -> 0 < used c -> poll_ok hv p ->
  exists ch' evs c', channelio_write W hv ch (poll_answer p ch) = Ok (ch', evs) /\
    stream_inv W fd (ch', rcvd, out ++ delivered fd evs) /\ writebuf ch' = Some c' /\
    used c' <= used c - match p with None => 0 | Some _ => 1 end.
Proof using Hfd Hm.
  intros Hinv Hc Hu Hp. pose proof Hinv as (H1 & H2 & _ & Hwfd & _ & c0 & Hc0 & _).
  cbn [get_buf] in Hc0. rewrite Hc in Hc0. injection Hc0 as <-.
  assert (Ha : answer_ok (poll_answer p ch) (write_limit hv c []) /\ poll_answer p ch <> Failed).
  { unfold poll_answer. rewrite Hc. destruct p as [f|]; [|done]. cbn. specialize (Hp c Hu). split; [lia|done]. }
  destruct Ha as [Ha Hnf].
  destruct (writechannel_spec W hv fd Write ch c None (poll_answer p ch)) as (ok & more & ch' & evs & E & Hatt & _); [done|done|cbn; lia|done|].
  destruct (a_stream _ _ _ _ _ _ _ _ _ _ _ Hatt) as (c' & Hc' & _). exists ch', evs, c'. split_and!.
  - unfold channelio_write, wants_write, cbuf_getused. rewrite Hc, Hwfd, (proj2 (Z.leb_le 0 fd)), (proj2 (Z.ltb_lt 0 _)) by done.
    cbn [andb]. by rewrite E.
  - rewrite <- Hwfd in E. destruct (drain_step W hv fd ch rcvd out c _ _ _ _ _ Hinv Hc Ha E) as [[? _]|[_ ->]]; [done|].
    by destruct (a_failed _ _ _ _ _ _ _ _ _ _ _ Hatt eq_refl).
  - exact Hc'.
  - destruct p as [f|]; cbn [poll_answer] in *.
    + rewrite Hc in *. specialize (Hp c Hu). rewrite (a_progress _ _ _ _ _ _ _ _ _ _ _ Hatt (f c) c' eq_refl Hc'). lia.
    + destruct (a_stream _ _ _ _ _ _ _ _ _ _ _ Hatt) as (c'' & Hc'' & Hst). rewrite Hc' in Hc''. injection Hc'' as <-.
      cbn in Hst. rewrite drop_nil, !app_nil_r in Hst. apply (f_equal (@length Z)) in Hst. rewrite length_app in Hst.
      pose proof (contents_length c (proj1 (ok_bufs _ _ H1 Write c Hc))) as L1.
      pose proof (contents_length c' (proj1 (ok_bufs _ _ (a_ok _ _ _ _ _ _ _ _ _ _ _ Hatt) Write c' Hc'))) as L2. lia.
Qed.

(** The buffer is empty after as many ready rounds as it held bytes. *)
Lemma drain_spec ps ch rcvd out c : stream_inv W fd (ch, rcvd, out) -> writebuf ch = Some c -> Forall (poll_ok hv) ps ->
  exists ch' evs c', drain W hv ps ch = Ok (ch', evs) /\ stream_inv W fd (ch', rcvd, out ++ delivered fd evs) /\
    writebuf ch' = Some c' /\ used c' <= Z.max 0 (used c - ready ps).
Proof using Hfd Hm.
  intros Hinv Hc Hps. revert ch out c Hinv Hc. induction Hps as [|p ps Hp Hps IH]; intros ch out c Hinv Hc; cbn [drain].
  - exists ch, [], c. rewrite app_nil_r. split_and!; try done. unfold ready. cbn. lia.
  - pose proof Hinv as (H1 & _). pose proof (i_used c (proj1 (ok_bufs _ _ H1 Write c Hc))) as Hu.
    destruct (Z.eq_dec (used c) 0) as [E0|E0].
    + assert (E : channelio_write W hv ch (poll_answer p ch) = Ok (ch, [])).
      { unfold channelio_write, wants_write, cbuf_getused. rewrite Hc, E0. cbn [Z.ltb Z.compare]. by rewrite !andb_false_r. }
      rewrite E. cbn [mbind res_bind]. destruct (IH ch out c Hinv Hc) as (ch' & evs & c' & -> & ? & ? & ?).
      exists ch', evs, c'. split_and!; try done. unfold ready in *. cbn [mbind res_bind]. lia.
    + destruct (channelio_step ch rcvd out c p) as (ch1 & evs1 & c1 & -> & I1 & Hc1 & Hu1); [done|done|lia|done|].
      cbn [mbind res_bind]. destruct (IH ch1 _ c1 I1 Hc1) as (ch' & evs & c' & -> & I' & ? & ?).
      exists ch', (evs1 ++ evs), c'. split_and!; try done; [by rewrite delivered_app, app_assoc|].
      unfold ready in *. destruct p; cbn [omap list_omap id] in *; cbn [length] in *; lia.
Qed.
End drain.

(** C28: A channel never stalls: from any state a run reaches with the descriptor still open,
    after any packets, partial writes and an EOF of the peer, the rounds of the main loop
    (wait for the descriptor, write when it is ready) send every byte received so far,
    however few bytes the descriptor takes at a time and however often it is not ready, in
    at most as many ready rounds as bytes were buffered; and then at least two thirds of the
    window are open to the peer again. *)
Theorem channel_drains (W : Z) (hv : bool) (malloc_ok : Z -> bool) (fd : Z)
    (ch : channel) (rcvd out : list Z) (ps : list poll) :
  0 < W <= MAX_CBUF_SIZE -> 0 <= fd -> malloc_ok W = true ->
  rtc (chan_step W hv malloc_ok fd) (fresh_channel W fd, [], []) (ch, rcvd, out) -> 0 <= writefd ch ->
  Forall (poll_ok hv) ps -> zlen rcvd - zlen out <= ready ps ->
  exists ch' evs c', drain W hv ps ch = Ok (ch', evs) /\
    out ++ delivered fd evs = rcvd /\
    writebuf ch' = Some c' /\ used c' = 0 /\ 2 * W <= 3 * recvwindow ch'.
Proof.
  intros HW Hfd Hm Hrtc Hopen Hps Hn.
  destruct (stream_run W hv malloc_ok fd ch rcvd out HW Hfd Hm Hrtc) as [Hinv|(_ & _ & _ & Hcl & _)]; [|lia].
  pose proof Hinv as (H1 & _ & _ & _ & _ & c & Hc & Hs).
  destruct (drain_spec W hv malloc_ok fd Hfd Hm ps ch rcvd out c Hinv Hc Hps) as (ch' & evs & c' & E & Hinv' & Hc' & Hu).
  exists ch', evs, c'. destruct Hinv' as (K1 & K2 & K4 & _ & K6 & c0 & Hc0 & Hs').
  cbn [get_buf] in *. rewrite Hc' in Hc0. injection Hc0 as <-.
  pose proof (contents_length c (proj1 (ok_bufs _ _ H1 Write c Hc))) as L1.
  destruct (ok_bufs _ _ K1 Write c' Hc') as [Hi' _].
  pose proof (contents_length c' Hi') as L2. pose proof (i_used c' Hi') as Hu'.
  assert (Hl : zlen out + used c = zlen rcvd) by (rewrite <- Hs, length_app; lia).
  assert (E0 : used c' = 0) by lia. split_and!; try done.
  - assert (length (contents c') = 0%nat) as Hz%nil_length_inv by lia. by rewrite <- Hs', Hz, app_nil_r.
  - unfold owed in K2. rewrite Hc', K4 in K2. cbn [held] in K2. pose proof (ok_done _ _ K1). zlia.
Qed.

Lemma channel_drains_witness :
  exists ch out ch' evs c', rtc (chan_step 8 true (fun _ => true) 3) (fresh_channel 8 3, [], []) (ch, [104; 105], out) /\
    drain 8 true [None; Some (fun _ => 1); Some (fun _ => 1)] ch = Ok (ch', evs) /\
    out ++ delivered 3 evs = [104; 105] /\ writebuf ch' = Some c' /\ used c' = 0 /\ 2 * 8 <= 3 * recvwindow ch'.
Proof.
  destruct demo_run as (ch & out & Hfd & Hrtc). exists ch, out.
  destruct (channel_drains 8 true (fun _ => true) 3 ch [104; 105] out [None; Some (fun _ => 1); Some (fun _ => 1)])
    as (ch' & evs & c' & H); [| |reflexivity|exact Hrtc| | | |exists ch', evs, c'; split; [exact Hrtc|exact H]].
  - vm_compute. split; [reflexivity|discriminate].
  - vm_compute. discriminate.
  - rewrite Hfd. vm_compute. discriminate.
  - repeat constructor; cbn [write_limit]; cbn; lia.
  - change (ready _) with 2. cbn [length]. lia.
Defined.
