(* ===== verification/ChannelLife.v ===== *)
(** * The life of a channel in Dropbear

    A model of the rest of a channel in dropbear-2022.83/common-channel.c, over the data
    path of [Channel]: sending data, EOF and CLOSE in both directions, the tests of
    [check_close], the rounds of [channelio], window adjustments, the table of channels.

    A handler is a function of the channel and of the packet under construction
    ([ses.writepayload]); it logs what it sends to the peer and does to descriptors.
    Answers of [read], [write] and [select], and those of the functions of a channel type,
    are arguments. *)

From Stdlib Require Import ZArith Lia Bool.
From stdpp Require Import base numbers list strings.
From S2P Require Import Prelude DropbearBuffer DropbearBufferProofs CircBuffer Channel.
Open Scope Z_scope.

(** ** State *)

(** The part of [struct Channel] that [Channel.channel] leaves out. *)
Record chan := mkLife {
  io : channel;
  remotechan : Z; transwindow : Z; transmaxpacket : Z;
  sent_eof : bool; sent_close : bool; recv_close : bool; flushing : bool; await_open : bool
}.
Definition set_io (x : chan) (c : channel) : chan :=
  mkLife c (remotechan x) (transwindow x) (transmaxpacket x) (sent_eof x) (sent_close x) (recv_close x) (flushing x) (await_open x).
Definition set_transwindow (x : chan) (w : Z) : chan :=
  mkLife (io x) (remotechan x) w (transmaxpacket x) (sent_eof x) (sent_close x) (recv_close x) (flushing x) (await_open x).
Definition set_sent (x : chan) (eof close : bool) : chan :=
  mkLife (io x) (remotechan x) (transwindow x) (transmaxpacket x) eof close (recv_close x) (flushing x) (await_open x).
Definition set_recv_close (x : chan) : chan :=
  mkLife (io x) (remotechan x) (transwindow x) (transmaxpacket x) (sent_eof x) (sent_close x) true (flushing x) (await_open x).
Definition set_flushing (x : chan) (f : bool) : chan :=
  mkLife (io x) (remotechan x) (transwindow x) (transmaxpacket x) (sent_eof x) (sent_close x) (recv_close x) f (await_open x).
(** The answer to an open request. *)
Definition set_opened (x : chan) (rc tw tm : Z) : chan :=
  mkLife (io x) rc tw tm (sent_eof x) (sent_close x) (recv_close x) (flushing x) false.
Definition set_await_open (x : chan) : chan :=
  mkLife (io x) (remotechan x) (transwindow x) (transmaxpacket x) (sent_eof x) (sent_close x) (recv_close x) (flushing x) true.

(** What a handler does: an event of the data path, a packet for the peer, a call of the
    close handler of the channel type.  A window adjustment of the data path is a packet. *)
Inductive act := Io (e : event) | Packet (bs : list Z) | Handler.

(** A handler changes the channel and the packet under construction and logs. *)
Definition L (A : Type) : Type := chan * buffer -> res (A * (chan * buffer) * list act).
#[export] Instance L_ret : MRet L := fun A a s => Ok (a, s, []).
#[export] Instance L_bind : MBind L := fun A B f m s =>
  match m s with
  | Ok (a, s, l) => match f a s with Ok (b, s, l') => Ok (b, s, l ++ l') | Exit e => Exit e | Fault => Fault end
  | Exit e => Exit e
  | Fault => Fault
  end.
Definition the_chan : L chan := fun s => Ok (s.1, s, []).
Definition modify (f : chan -> chan) : L unit := fun s => Ok (tt, (f s.1, s.2), []).
Definition log (l : list act) : L unit := fun s => Ok (tt, s, l).
Definition on_payload {A} (m : M A) : L A := fun s => '(a, b) ← m s.2; Ok (a, (s.1, b), []).
Definition assert (b : bool) : L unit := fun s => _ ← Circ.dropbear_assert b; Ok (tt, s, []).

Definition SHUT_RD : Z := 0.
Definition SHUT_RDWR : Z := 2.
Definition FD_UNINIT : Z := -2.

(** ** Sending *)

(** The payload goes out (or is queued during a key exchange) and the buffer is cleared. *)
Definition take_packet : M (list Z) :=
  _ ← buf_setpos 0; _ ← buf_getbyte; _ ← buf_setpos 0;
  b ← get; bs ← read 0 (len b); _ ← buf_setpos 0; _ ← buf_setlen 0; mret bs.
Definition encrypt_packet : L unit := bs ← on_payload take_packet; log [Packet bs].

Definition SSH_MSG_CHANNEL_WINDOW_ADJUST : Z := 93.
Definition SSH_MSG_CHANNEL_DATA : Z := 94.
Definition SSH_MSG_CHANNEL_EXTENDED_DATA : Z := 95.
Definition SSH_MSG_CHANNEL_EOF : Z := 96.
Definition SSH_MSG_CHANNEL_CLOSE : Z := 97.
Definition SSH_MSG_CHANNEL_SUCCESS : Z := 99.
Definition SSH_MSG_CHANNEL_FAILURE : Z := 100.
Definition SSH_EXTENDED_DATA_STDERR : Z := 1.

Definition send_msg_channel_window_adjust (incr : Z) : L unit :=
  _ ← on_payload (buf_putbyte SSH_MSG_CHANNEL_WINDOW_ADJUST);
  x ← the_chan;
  _ ← on_payload (buf_putint (remotechan x));
  _ ← on_payload (buf_putint incr);
  encrypt_packet.

(** An operation of the data path, with the messages it sends. *)
Fixpoint send_events (evs : list event) : L unit :=
  match evs with
  | [] => mret tt
  | EAdjust incr :: evs => _ ← send_msg_channel_window_adjust incr; send_events evs
  | e :: evs => _ ← log [Io e]; send_events evs
  end.
Definition on_io {A} (f : channel -> res (A * channel * list event)) : L A :=
  fun s => '(a, c, evs) ← f (io s.1); (_ ← send_events evs; mret a) (set_io s.1 c, s.2).

Definition close_fd (fd how : Z) : L unit :=
  on_io (fun c => let '(c, evs) := close_chan_fd c fd how in Ok (tt, c, evs)).

Definition send_msg_channel_eof : L unit :=
  _ ← on_payload (buf_putbyte SSH_MSG_CHANNEL_EOF);
  x ← the_chan;
  _ ← on_payload (buf_putint (remotechan x));
  _ ← encrypt_packet;
  modify (fun x => set_sent x true (sent_close x)).

(** The answers to a request. *)
Definition send_msg_channel_failure : L unit :=
  x ← the_chan;
  if sent_close x then mret tt
  else
    _ ← on_payload (buf_putbyte SSH_MSG_CHANNEL_FAILURE);
    x ← the_chan;
    _ ← on_payload (buf_putint (remotechan x));
    encrypt_packet.
Definition send_msg_channel_success : L unit :=
  x ← the_chan;
  if sent_close x then mret tt
  else
    _ ← on_payload (buf_putbyte SSH_MSG_CHANNEL_SUCCESS);
    x ← the_chan;
    _ ← on_payload (buf_putint (remotechan x));
    encrypt_packet.

(** What [read] answers: bytes, end of file, an error other than EINTR, EINTR. *)
Inductive read_answer := Got (bs : list Z) | ReadEof | ReadError | ReadIntr.

(** The most [read] is asked for. *)
Definition data_maxlen (isextended : bool) (x : chan) (size : Z) : Z :=
  Z.min (Z.min (transwindow x) (transmaxpacket x)) (u32 (size - 1 - 4 - 4 - (if isextended then 4 else 0))).

(** [rd] answers a [read] of at most so many bytes. *)
Definition send_msg_channel_data (isextended : bool) (rd : Z -> read_answer) : L unit :=
  x ← the_chan;
  _ ← assert (negb (sent_close x));
  let fd := if isextended then errfd (io x) else readfd (io x) in
  _ ← assert (0 <=? fd);
  b ← on_payload get;
  let maxlen := data_maxlen isextended x (size b) in
  if maxlen =? 0 then mret tt
  else
    _ ← on_payload (buf_putbyte (if isextended then SSH_MSG_CHANNEL_EXTENDED_DATA else SSH_MSG_CHANNEL_DATA));
    _ ← on_payload (buf_putint (remotechan x));
    _ ← (if isextended then on_payload (buf_putint SSH_EXTENDED_DATA_STDERR) else mret tt);
    b ← on_payload get;
    let size_pos := pos b in
    _ ← on_payload (buf_putint 0);
    p ← on_payload (buf_getwriteptr maxlen);
    let ans := rd maxlen in
    match ans with
    | Got bs =>
        let len := Z.of_nat (length bs) in
        _ ← on_payload (write p bs);
        _ ← on_payload (buf_incrwritepos len);
        _ ← on_payload (buf_setpos size_pos);
        _ ← on_payload (buf_putint len);
        _ ← modify (fun x => set_transwindow x (u32 (transwindow x - len)));
        encrypt_packet
    | _ =>
        _ ← (match ans with ReadIntr => mret tt | _ => close_fd fd SHUT_RD end);
        _ ← on_payload (buf_setpos 0);
        on_payload (buf_setlen 0)
    end.

(** ** Closing *)

Definition write_pending (c : channel) : res bool :=
  match writebuf c with
  | None => Fault
  | Some w =>
      if (0 <=? writefd c) && (0 <? Circ.cbuf_getused w) then Ok true
      else Ok (match extrabuf c with Some e => (0 <=? errfd c) && (0 <? Circ.cbuf_getused e) | None => false end)
  end.
Definition pending : L bool := fun s => p ← write_pending (io s.1); Ok (p, s, []).
Definition ERRFD_IS_WRITE (c : channel) : bool := negb (ERRFD_IS_READ c).

Section types.
(** Whether this is the server, and which functions the channel type has. *)
Context (is_server has_check_close has_closehandler : bool).

Definition send_msg_channel_close : L unit :=
  _ ← (if has_closehandler then log [Handler] else mret tt);
  _ ← on_payload (buf_putbyte SSH_MSG_CHANNEL_CLOSE);
  x ← the_chan;
  _ ← on_payload (buf_putint (remotechan x));
  _ ← encrypt_packet;
  _ ← modify (fun x => set_sent x true true);
  x ← the_chan; _ ← close_fd (readfd (io x)) SHUT_RD;
  x ← the_chan; _ ← close_fd (errfd (io x)) SHUT_RDWR;
  x ← the_chan; close_fd (writefd (io x)) SHUT_WR.

Definition STDOUT_FILENO : Z := 1.
(** [remove_channel]: the buffers are freed and the descriptors closed. *)
Definition remove_channel : L unit :=
  x ← the_chan;
  if is_server || negb (writefd (io x) =? STDOUT_FILENO)
  then log [Io (EClose (writefd (io x))); Io (EClose (readfd (io x))); Io (EClose (errfd (io x)))]
  else mret tt.

(** What [channel->type->check_close] answers, and whether it sets [flushing]. *)
Record verdict := mkVerdict { v_closed : bool; v_flush : bool }.

Definition close_allowed (v : verdict) : L bool :=
  x ← the_chan;
  if negb has_check_close || sent_close x then mret true
  else _ ← modify (fun x => set_flushing x (flushing x || v_flush v)); mret (v_closed v).

(** [fd_read_pending] is an argument.  The result tells whether the channel was removed. *)
Definition check_close (v : verdict) (fd_read_pending : Z -> bool) : L bool :=
  allowed ← close_allowed v;
  x ← the_chan;
  _ ← (if flushing x then
         _ ← (if (0 <=? readfd (io x)) && negb (fd_read_pending (readfd (io x)))
              then close_fd (readfd (io x)) SHUT_RD else mret tt);
         x ← the_chan;
         if ERRFD_IS_READ (io x) && (0 <=? errfd (io x)) && negb (fd_read_pending (errfd (io x)))
         then close_fd (errfd (io x)) SHUT_RD else mret tt
       else mret tt);
  x ← the_chan;
  p ← pending;
  if recv_close x && negb p && allowed then
    _ ← (if negb (sent_close x) then send_msg_channel_close else mret tt);
    _ ← remove_channel;
    mret true
  else
    _ ← (if (recv_eof (io x) && negb p) || (has_check_close && allowed)
         then close_fd (writefd (io x)) SHUT_WR else mret tt);
    x ← the_chan;
    _ ← (if negb (sent_eof x) && (readfd (io x) =? FD_CLOSED) && (ERRFD_IS_WRITE (io x) || (errfd (io x) =? FD_CLOSED))
         then send_msg_channel_eof else mret tt);
    x ← the_chan;
    p ← pending;
    _ ← (if (readfd (io x) =? FD_CLOSED) && (writefd (io x) =? FD_CLOSED) &&
            (ERRFD_IS_WRITE (io x) || (errfd (io x) =? FD_CLOSED)) && negb (sent_close x) && allowed && negb p
         then send_msg_channel_close else mret tt);
    mret false.

(** ** Messages of the peer *)

Definition recv_msg_channel_eof (v : verdict) (rp : Z -> bool) : L bool :=
  _ ← modify (fun x => set_io x (set_recv_eof (io x)));
  check_close v rp.
Definition recv_msg_channel_close (v : verdict) (rp : Z -> bool) : L bool :=
  _ ← modify (fun x => set_recv_close (set_io x (set_recv_eof (io x))));
  check_close v rp.

Definition TRANS_MAX_WINDOW : Z := 500000000.
Definition TRANS_MAX_WIN_INCR : Z := 500000000.
Definition recv_msg_channel_window_adjust (incr : Z) : L unit :=
  let incr := Z.min incr TRANS_MAX_WIN_INCR in
  _ ← modify (fun x => set_transwindow x (u32 (transwindow x + incr)));
  modify (fun x => set_transwindow x (Z.min (transwindow x) TRANS_MAX_WINDOW)).

(** ** Rounds of the main loop *)

Context (recv_window : Z) (HAVE_WRITEV : bool) (malloc_ok : Z -> bool).

(** Data, for the input of the program or, on a client, for its error output. *)
Definition recv_msg_channel_data (w : which) (payload : buffer) (ans : answer) : L unit :=
  on_io (fun c => '(c, _, evs) ←
    common_recv_msg_channel_data recv_window HAVE_WRITEV malloc_ok c
      (match w with Write => writefd c | Extra => errfd c end) w payload ans; Ok (tt, c, evs)).

(** [ans] answers the write of a buffer. *)
Definition write_out (w : which) (ans : Circ.circbuffer -> answer) : L unit :=
  on_io (fun c =>
    match get_buf w c with
    | None => Fault
    | Some cb =>
        '(_, _, c, evs) ← writechannel recv_window HAVE_WRITEV c
          (match w with Write => writefd c | Extra => errfd c end) w cb None (ans cb); Ok (tt, c, evs)
    end).

(** What the world answers in one round: the descriptor sets of [select], the reads and the
    writes, [ses.channel_signal_pending], the type's verdict. *)
Record round := mkRound {
  readfds : Z -> bool; writefds : Z -> bool;
  read_out : Z -> read_answer; read_err : Z -> read_answer;
  write_in : Circ.circbuffer -> answer; write_err : Circ.circbuffer -> answer;
  signal_pending : bool; the_verdict : verdict; read_pending : Z -> bool
}.

Definition channelio (r : round) : L bool :=
  x ← the_chan;
  d1 ← (if (0 <=? readfd (io x)) && readfds r (readfd (io x))
        then _ ← send_msg_channel_data false (read_out r); mret true else mret false);
  x ← the_chan;
  d2 ← (if ERRFD_IS_READ (io x) && (0 <=? errfd (io x)) && readfds r (errfd (io x))
        then _ ← send_msg_channel_data true (read_err r); mret true else mret false);
  x ← the_chan;
  d3 ← (if (0 <=? writefd (io x)) && writefds r (writefd (io x))
        then _ ← write_out Write (write_in r); mret true else mret false);
  x ← the_chan;
  d4 ← (if ERRFD_IS_WRITE (io x) && (0 <=? errfd (io x)) && writefds r (errfd (io x))
        then _ ← write_out Extra (write_err r); mret true else mret false);
  if d1 || d2 || d3 || d4 || signal_pending r then check_close (the_verdict r) (read_pending r) else mret false.

(** What happens to a channel: a round of the main loop, or a message of the peer.  The
    handler of a request may ask for an answer. *)
Inductive input :=
| Round (r : round)
| PeerData (w : which) (payload : buffer) (ans : answer)
| PeerAdjust (incr : Z)
| PeerRequest (reply : option bool)
| PeerEof (v : verdict) (rp : Z -> bool)
| PeerClose (v : verdict) (rp : Z -> bool).
(** The result tells whether the channel was removed. *)
Definition handle (i : input) : L bool :=
  match i with
  | Round r => channelio r
  | PeerData w payload ans => _ ← recv_msg_channel_data w payload ans; mret false
  | PeerAdjust incr => _ ← recv_msg_channel_window_adjust incr; mret false
  | PeerRequest reply =>
      _ ← (match reply with
           | Some true => send_msg_channel_success
           | Some false => send_msg_channel_failure
           | None => mret tt
           end); mret false
  | PeerEof v rp => recv_msg_channel_eof v rp
  | PeerClose v rp => recv_msg_channel_close v rp
  end.
(** Everything that happens to a channel until it is removed. *)
Fixpoint life (ins : list input) : L bool :=
  match ins with
  | [] => mret false
  | i :: ins => removed ← handle i; if removed : bool then mret true else life ins
  end.
End types.

(** The descriptors [setchannelfds] waits for: to read from, to write to. *)
Definition setchannelfds (dataallowed allow_reads : bool) (x : chan) : list Z * list Z :=
  let c := io x in
  ((if (0 <? transwindow x) && (dataallowed && allow_reads) then
      (if 0 <=? readfd c then [readfd c] else []) ++
      (if ERRFD_IS_READ c && (0 <=? errfd c) then [errfd c] else [])
    else []),
   (match writebuf c with Some w => if (0 <=? writefd c) && (0 <? Circ.cbuf_getused w) then [writefd c] else [] | None => [] end) ++
   (match extrabuf c with Some e => if (0 <=? errfd c) && (0 <? Circ.cbuf_getused e) then [errfd c] else [] | None => [] end)).

(** ** New channels *)

Section opening.
(** [opts.recv_window], and whether an allocation succeeds. *)
Context (recv_window : Z) (malloc_ok : Z -> bool).

(** The fields [newchannel] sets; [m_malloc] clears the others. *)
Definition new_chan (remotechan transwindow transmaxpacket : Z) : res chan :=
  w ← Circ.cbuf_new malloc_ok recv_window;
  Ok (mkLife (mkChan recv_window 0 FD_UNINIT FD_UNINIT FD_CLOSED false (Some w) None false)
        remotechan transwindow transmaxpacket false false false false false).

(** What a channel is connected to: the pipes of a command, standard input and output of a
    client, or one descriptor for both directions. *)
Inductive endpoint := Pipes (infd outfd errfd : Z) | Stdpipe | Twoway (fd : Z).
Definition connect (c : channel) (w r e : Z) (bidir : bool) (extra : option Circ.circbuffer) : channel :=
  mkChan (recvwindow c) (recvdonelen c) w r e bidir (writebuf c) extra (recv_eof c).
Definition noptycommand (infd outfd errfd : Z) (x : chan) : chan :=
  set_io x (connect (io x) infd outfd errfd false (extrabuf (io x))).
Definition cli_init_stdpipe_sess (x : chan) : res chan :=
  e ← Circ.cbuf_new malloc_ok recv_window; Ok (set_io x (connect (io x) STDOUT_FILENO 0 2 false (Some e))).
Definition ptycommand (master : Z) (x : chan) : chan :=
  set_io x (connect (io x) master master (errfd (io x)) true (extrabuf (io x))).
Definition attach (ep : endpoint) (x : chan) : res chan :=
  match ep with
  | Pipes infd outfd errfd => Ok (noptycommand infd outfd errfd x)
  | Stdpipe => cli_init_stdpipe_sess x
  | Twoway fd => Ok (ptycommand fd x)
  end.
End opening.
