(* ===== verification/ChannelLifeProofs.v ===== *)
(** * The life of a channel: protocol, descriptors, delivery

    Whatever the peer sends and the system calls answer, the handlers of [ChannelLife] keep
    their assertions, send EOF and CLOSE at most once and in order, close every descriptor
    exactly once, and deliver what was received before the channel goes away. *)

From Stdlib Require Import ZArith Lia Bool.
From stdpp Require Import base numbers list strings relations.
From S2P Require Import Prelude DropbearBuffer DropbearBufferProofs CircBuffer Channel ChannelProofs ChannelLife.
Open Scope Z_scope.

(** ** Running handlers *)

Definition lwp {A} (m : L A) (Q : A -> chan -> buffer -> list act -> Prop) (x : chan) (b : buffer) : Prop :=
  exists a x' b' l, m (x, b) = Ok (a, (x', b'), l) /\ Q a x' b' l.

Lemma lwp_ret {A} (a : A) (Q : A -> chan -> buffer -> list act -> Prop) x b : Q a x b [] -> lwp (mret a) Q x b.
Proof. intros H. by exists a, x, b, []. Qed.
Lemma lwp_bind {A B} (m : L A) (f : A -> L B) Q x b :
  lwp m (fun a x b l => lwp (f a) (fun c x b l' => Q c x b (l ++ l')) x b) x b -> lwp (m ≫= f) Q x b.
Proof.
  intros (a & x1 & b1 & l1 & E1 & c & x2 & b2 & l2 & E2 & H). exists c, x2, b2, (l1 ++ l2). split; [|done].
  unfold mbind, L_bind. by rewrite E1, E2.
Qed.
Lemma lwp_mono {A} (m : L A) (Q R : A -> chan -> buffer -> list act -> Prop) x b :
  lwp m Q x b -> (forall a x b l, Q a x b l -> R a x b l) -> lwp m R x b.
Proof. intros (a & x1 & b1 & l1 & E1 & H) HR. exists a, x1, b1, l1. auto. Qed.
Lemma lwp_chan (Q : chan -> chan -> buffer -> list act -> Prop) x b : Q x x b [] -> lwp the_chan Q x b.
Proof. intros H. by exists x, x, b, []. Qed.
Lemma lwp_modify f (Q : unit -> chan -> buffer -> list act -> Prop) x b : Q tt (f x) b [] -> lwp (modify f) Q x b.
Proof. intros H. by exists tt, (f x), b, []. Qed.
Lemma lwp_log l (Q : unit -> chan -> buffer -> list act -> Prop) x b : Q tt x b l -> lwp (log l) Q x b.
Proof. intros H. by exists tt, x, b, l. Qed.
Lemma lwp_payload {A} (m : M A) (Q : A -> chan -> buffer -> list act -> Prop) x b :
  wp Total m (fun a b => Q a x b []) b -> lwp (on_payload m) Q x b.
Proof. intros (a & b' & E & H)%wp_total. exists a, x, b', []. split; [|done]. unfold on_payload. cbn. by rewrite E. Qed.
Lemma lwp_assert c (Q : unit -> chan -> buffer -> list act -> Prop) x b : c = true -> Q tt x b [] -> lwp (assert c) Q x b.
Proof. intros -> H. by exists tt, x, b, []. Qed.

Ltac lstep :=
  lazymatch goal with
  | |- lwp (mbind _ _) _ _ _ => apply lwp_bind
  | |- lwp (mret _) _ _ _ => apply lwp_ret
  | |- lwp the_chan _ _ _ => apply lwp_chan
  | |- lwp (modify _) _ _ _ => apply lwp_modify
  | |- lwp (log _) _ _ _ => apply lwp_log
  | |- lwp (on_payload _) _ _ _ => apply lwp_payload
  end; cbv beta zeta.
Ltac lsteps := repeat first [lstep|wpstep].

(** ** Packets *)

(** The buffer holds the packet [bs]. *)
Record carries (N : Z) (b : buffer) (bs : list Z) : Prop := mkCarries {
  c_wf : wf b; c_size : size b = N; c_len : len b = zlen bs; c_data : take (length bs) (data b) = bs
}.
Definition ready_at (N : Z) (b : buffer) (bs : list Z) : Prop := carries N b bs /\ pos b = zlen bs.

Lemma ready_append N b bs ys : ready_at N b bs -> Forall is_u8 ys -> zlen bs + zlen ys <= N ->
  ready_at N (appended b ys) (bs ++ ys).
Proof.
  intros [[Hwf Hsz Hl Hd] Hp] Hy Hfit. pose proof (wf_data _ Hwf). split; [split|].
  - apply wf_appended; [done|done|lia].
  - done.
  - cbn. rewrite length_app. lia.
  - cbn. rewrite Hp, Nat2Z.id, inserts_split by lia. rewrite Hd, app_assoc, <- length_app. by rewrite take_app_length.
  - cbn. rewrite length_app. lia.
Qed.
Lemma wp_put1 N b bs v (Q : unit -> buffer -> Prop) : ready_at N b bs -> is_u8 v -> zlen bs + 1 <= N ->
  (forall b', ready_at N b' (bs ++ [v]) -> Q tt b') -> wp Total (buf_putbyte v) Q b.
Proof.
  intros Hb Hv Hfit HQ. pose proof Hb as [[Hwf Hsz _ _] Hp]. apply wp_putbyte; [done|done|lia|]. intros _.
  change (advance _ 1) with (appended b [v]). apply HQ, ready_append; [done|by constructor|cbn; lia].
Qed.
Lemma wp_put4 N b bs v (Q : unit -> buffer -> Prop) : ready_at N b bs -> zlen bs + 4 <= N ->
  (forall b', ready_at N b' (bs ++ STORE32H v) -> Q tt b') -> wp Total (buf_putint v) Q b.
Proof.
  intros Hb Hfit HQ. pose proof Hb as [[Hwf Hsz _ _] Hp]. apply wp_putint; [done|lia|]. intros _.
  change (advance _ 4) with (appended b (STORE32H v)). apply HQ, ready_append; [done|apply STORE32H_bytes|cbn; lia].
Qed.

Lemma wp_take N b v bs (Q : list Z -> buffer -> Prop) : carries N b (v :: bs) ->
  (forall b', ready_at N b' [] -> Q (v :: bs) b') -> wp Total take_packet Q b.
Proof.
  intros [Hwf Hsz Hl Hd] HQ. unfold take_packet. wpsteps. pose proof (wf_len _ Hwf). pose proof (wf_data _ Hwf). cbn in Hl.
  apply wp_setpos; [lia|]. intros _. wpsteps. apply wp_getbyte; [apply wf_set_pos; [done|lia]|cbn; lia|].
  intros _ v' _ _. wpsteps. apply wp_setpos; [cbn; lia|]. intros _. wpsteps. cbn [len set_pos].
  apply wp_read; [lia|cbn; lia|]. wpsteps. apply wp_setpos; [cbn; lia|]. intros _. wpsteps.
  apply wp_setlen; [done|cbn; lia|]. intros _. wpsteps. cbn [len set_pos data pos size].
  change (Z.to_nat 0) with 0%nat. rewrite drop_0, Hl.
  rewrite Nat2Z.id. cbn [length] in Hd. rewrite Hd. apply HQ. split; [|done]. split; try done. destruct Hwf. split; cbn; try done. lia.
Qed.
Lemma lwp_encrypt N b v bs (Q : unit -> chan -> buffer -> list act -> Prop) x : carries N b (v :: bs) ->
  (forall b', ready_at N b' [] -> Q tt x b' [Packet (v :: bs)]) -> lwp encrypt_packet Q x b.
Proof. intros Hc HQ. unfold encrypt_packet. lsteps. apply (wp_take N b v bs); [done|]. intros b' Hb'. lsteps. by apply HQ. Qed.

(** The messages and the other events of the data path. *)
Definition act_of (rc : Z) (e : event) : act :=
  match e with EAdjust n => Packet (SSH_MSG_CHANNEL_WINDOW_ADJUST :: STORE32H rc ++ STORE32H n) | e => Io e end.
Lemma lwp_emit N evs b x (Q : unit -> chan -> buffer -> list act -> Prop) : ready_at N b [] -> 13 <= N ->
  (forall b', ready_at N b' [] -> Q tt x b' (map (act_of (remotechan x)) evs)) -> lwp (send_events evs) Q x b.
Proof.
  intros Hb HN. revert b Q Hb. induction evs as [|e evs IH]; intros b Q Hb HQ; [by apply lwp_ret, HQ|].
  assert (Hio : act_of (remotechan x) e = Io e -> lwp (_ ← log [Io e]; send_events evs) Q x b).
  { intros Ee. lsteps. apply IH; [done|]. intros b' Hb'. specialize (HQ b' Hb'). cbn [map] in HQ. by rewrite Ee in HQ. }
  destruct e as [| | |n]; try by apply Hio. cbn [send_events]. unfold send_msg_channel_window_adjust. lsteps.
  apply (wp_put1 N b []); [done|done|cbn; lia|]. intros b1 H1. lsteps.
  apply (wp_put4 N b1 _ _ _ H1); [cbn; lia|]. intros b2 H2. lsteps.
  apply (wp_put4 N b2 _ _ _ H2); [cbn; lia|]. intros b3 [H3 _]. cbn [app] in H3.
  eapply lwp_encrypt; [exact H3|]. intros b4 H4. apply IH; [done|]. intros b' Hb'. exact (HQ b' Hb').
Qed.
Lemma lwp_io {A} N (f : channel -> res (A * channel * list event)) a c evs b x (Q : A -> chan -> buffer -> list act -> Prop) :
  ready_at N b [] -> 13 <= N -> f (io x) = Ok (a, c, evs) ->
  (forall b', ready_at N b' [] -> Q a (set_io x c) b' (map (act_of (remotechan x)) evs)) -> lwp (on_io f) Q x b.
Proof.
  intros Hb HN E HQ. unfold lwp, on_io. cbn [fst snd]. rewrite E. cbn [mbind res_bind].
  apply lwp_bind. eapply lwp_emit; [done..|]. intros b' Hb'. apply lwp_ret. rewrite app_nil_r. by apply HQ.
Qed.
(** Closing a descriptor sends nothing. *)
Lemma close_events c fd how s : send_events (close_chan_fd c fd how).2 s = Ok (tt, s, map Io (close_chan_fd c fd how).2).
Proof.
  unfold close_chan_fd.
  destruct (bidir_fd c); [destruct (how =? 0)|]; cbn; repeat case_match; done.
Qed.
Lemma lwp_close fd how x b (Q : unit -> chan -> buffer -> list act -> Prop) :
  (let '(c, evs) := close_chan_fd (io x) fd how in Q tt (set_io x c) b (map Io evs)) -> lwp (close_fd fd how) Q x b.
Proof.
  unfold lwp, close_fd, on_io. cbn [fst snd]. pose proof (close_events (io x) fd how) as He.
  destruct (close_chan_fd (io x) fd how) as [c evs]. cbn [snd] in He. intros H. cbn [mbind res_bind].
  do 4 eexists. split; [|exact H]. unfold mbind, L_bind. rewrite He. cbn. by rewrite app_nil_r.
Qed.

(** A message of a type and a channel number, and what follows. *)
Lemma lwp_short {A} N b v x (k : L A) (Q : A -> chan -> buffer -> list act -> Prop) : ready_at N b [] -> is_u8 v -> 13 <= N ->
  (forall b', ready_at N b' [] -> lwp k (fun a x' b' l => Q a x' b' (Packet (v :: STORE32H (remotechan x)) :: l)) x b') ->
  lwp (_ ← on_payload (buf_putbyte v); x ← the_chan; _ ← on_payload (buf_putint (remotechan x)); _ ← encrypt_packet; k) Q x b.
Proof.
  intros Hb Hv HN HQ. lsteps. apply (wp_put1 N b []); [done|done|cbn; lia|]. intros b1 H1. lsteps.
  apply (wp_put4 N b1 [v]); [done|cbn; lia|]. intros b2 [H2 _]. cbn [app] in H2. apply lwp_bind.
  eapply lwp_encrypt; [exact H2|]. intros b3 H3. cbn [app]. by apply HQ.
Qed.

(** Filling in the length of a string afterwards. *)
Lemma carries_patch N b h z t y : ready_at N b (h ++ z ++ t) -> length z = 4%nat -> length y = 4%nat -> Forall is_u8 y ->
  carries N (advance (wrote (set_pos b (zlen h)) (zlen h) y) 4) (h ++ y ++ t).
Proof.
  intros [[Hwf Hsz Hl Hd] Hp] Hz Hy Hb. pose proof (wf_len _ Hwf). pose proof (wf_data _ Hwf). rewrite !length_app in Hl. split; cbn.
  - apply wf_advance; [apply wf_wrote; [apply wf_set_pos; [done|lia]|done]|lia|cbn; lia].
  - done.
  - rewrite !length_app. lia.
  - rewrite Nat2Z.id, inserts_split by lia.
    assert (E1 : take (length h) (data b) = h).
    { rewrite <- (take_app_length h (z ++ t)) at 2. rewrite <- Hd, take_take, length_app. f_equal. lia. }
    assert (E2 : take (length t) (drop (length h + 4) (data b)) = t).
    { rewrite <- (drop_app_length' (h ++ z) t (length h + 4)) at 2 by (rewrite length_app; lia).
      rewrite <- app_assoc, <- Hd, skipn_firstn_comm. f_equal. rewrite !length_app. lia. }
    rewrite E1, Hy. rewrite !take_app, !length_app, Hy. rewrite (take_ge h), (take_ge y) by lia.
    replace (length h + (4 + length t) - length h - 4)%nat with (length t) by lia. by rewrite E2.
Qed.

(** A data message. *)
Definition data_msg (ext : bool) (rc : Z) (bs : list Z) : list Z :=
  ((if ext then SSH_MSG_CHANNEL_EXTENDED_DATA else SSH_MSG_CHANNEL_DATA) :: STORE32H rc ++
   (if ext then STORE32H SSH_EXTENDED_DATA_STDERR else [])) ++ STORE32H (zlen bs) ++ bs.

(** The end of a packet: the data, or nothing. *)
Lemma lwp_fill N b4 x hdr sp bs (Q : unit -> chan -> buffer -> list act -> Prop) v t :
  hdr = v :: t -> sp = zlen hdr -> ready_at N b4 (hdr ++ STORE32H 0) -> Forall is_u8 bs -> zlen hdr + 4 + zlen bs <= N ->
  0 <= transwindow x - zlen bs < 4294967296 ->
  (forall b', ready_at N b' [] -> Q tt (set_transwindow x (transwindow x - zlen bs)) b' [Packet (hdr ++ STORE32H (zlen bs) ++ bs)]) ->
  lwp (_ ← on_payload (write (pos b4) bs);
       _ ← on_payload (buf_incrwritepos (zlen bs));
       _ ← on_payload (buf_setpos sp);
       _ ← on_payload (buf_putint (zlen bs));
       _ ← modify (fun x => set_transwindow x (u32 (transwindow x - zlen bs)));
       encrypt_packet) Q x b4.
Proof.
  intros Eh -> H4 Hbs Hn Htw HQ. pose proof H4 as [[Hwf4 Hsz4 _ _] Hp4]. pose proof (wf_data _ Hwf4). pose proof (wf_size _ Hwf4) as Hbig.
  unfold BUF_MAX_SIZE in Hbig. rewrite length_app in Hp4. cbn [length STORE32H] in Hp4.
  lsteps. apply wp_write; [lia|lia|]. lsteps.
  apply wp_incrwritepos; [by apply wf_wrote|unfold is_u32; lia|unfold BUF_MAX_INCR; cbn; lia|]. intros _ _.
  change (advance (wrote b4 (pos b4) bs) (zlen bs)) with (appended b4 bs).
  assert (H5 : ready_at N (appended b4 bs) (hdr ++ STORE32H 0 ++ bs)).
  { rewrite app_assoc. apply ready_append; [done|done|]. rewrite length_app. cbn [length STORE32H]. lia. }
  lsteps. pose proof H5 as [[Hwf5 Hsz5 Hl5 _] _]. rewrite !length_app in Hl5.
  apply wp_setpos; [lia|]. intros _. lsteps. apply wp_putint; [apply wf_set_pos; [done|lia]|cbn [pos set_pos size]; lia|]. intros _.
  pose proof (carries_patch N _ hdr (STORE32H 0) bs (STORE32H (zlen bs)) H5 eq_refl eq_refl (STORE32H_bytes _)) as H6.
  lsteps. rewrite u32_id by done. rewrite Eh in *. eapply lwp_encrypt; [exact H6|]. intros b' Hb'. by apply (HQ b').
Qed.
Lemma lwp_reset N b bs x (Q : unit -> chan -> buffer -> list act -> Prop) : ready_at N b bs ->
  (forall b', ready_at N b' [] -> Q tt x b' []) -> lwp (_ ← on_payload (buf_setpos 0); on_payload (buf_setlen 0)) Q x b.
Proof.
  intros [[Hwf Hsz Hl _] _] HQ. pose proof (wf_len _ Hwf). lsteps. apply wp_setpos; [lia|]. intros _. lsteps.
  apply wp_setlen; [done|cbn; lia|]. intros _. apply HQ. split; [|done]. split; try done. destruct Hwf. split; cbn; try done. lia.
Qed.

Lemma lwp_send_data N b x (ext : bool) rd (Q : unit -> chan -> buffer -> list act -> Prop) :
  let fd := if ext then errfd (io x) else readfd (io x) in
  let maxlen := data_maxlen ext x N in
  ready_at N b [] -> 13 <= N -> sent_close x = false -> 0 <= fd ->
  is_u32 (transwindow x) -> is_u32 (transmaxpacket x) ->
  match rd maxlen with Got bs => Forall is_u8 bs /\ zlen bs <= maxlen | _ => True end ->
  (maxlen = 0 -> Q tt x b []) ->
  (forall b', maxlen <> 0 -> ready_at N b' [] ->
     match rd maxlen with
     | Got bs => Q tt (set_transwindow x (transwindow x - zlen bs)) b' [Packet (data_msg ext (remotechan x) bs)]
     | ReadIntr => Q tt x b' []
     | _ => let '(c, evs) := close_chan_fd (io x) fd SHUT_RD in Q tt (set_io x c) b' (map Io evs)
     end) ->
  lwp (send_msg_channel_data ext rd) Q x b.
Proof.
  intros fd maxlen Hb HN Hc Hfd Htw Htm Hans H0 HQ. unfold send_msg_channel_data. lsteps.
  apply lwp_assert; [by rewrite Hc|]. lsteps. apply lwp_assert; [by apply Z.leb_le|]. lsteps.
  pose proof Hb as [[Hwf Hsz _ _] _]. pose proof (wf_size _ Hwf) as Hbig. unfold BUF_MAX_SIZE in Hbig. rewrite Hsz. fold maxlen.
  destruct (Z.eqb_spec maxlen 0) as [E|E]; [by apply lwp_ret, H0|].
  set (hdr := (if ext then SSH_MSG_CHANNEL_EXTENDED_DATA else SSH_MSG_CHANNEL_DATA) :: STORE32H (remotechan x) ++
    (if ext then STORE32H SSH_EXTENDED_DATA_STDERR else [])).
  assert (Hlen : zlen hdr = if ext then 9 else 5) by (unfold hdr; by destruct ext).
  assert (Hmax : 0 <= maxlen <= transwindow x /\ zlen hdr + 4 + maxlen <= N).
  { unfold maxlen, data_maxlen, is_u32 in *. rewrite u32_id by (unfold is_u32; destruct ext; lia). destruct ext; lia. }
  lsteps. apply (wp_put1 N b []); [done|by destruct ext|cbn; lia|]. intros b1 H1. lsteps.
  apply (wp_put4 N b1 _ _ _ H1); [cbn; lia|]. intros b2 H2. lsteps.
  assert (Hext : forall Q : unit -> chan -> buffer -> list act -> Prop, (forall b3, ready_at N b3 hdr -> Q tt x b3 []) ->
    lwp (if ext then on_payload (buf_putint SSH_EXTENDED_DATA_STDERR) else mret tt) Q x b2).
  { intros R HR. unfold hdr in HR. destruct ext; lsteps; [|apply HR; by rewrite app_nil_r].
    apply (wp_put4 N b2 _ _ _ H2); [cbn; lia|]. intros b3 H3. apply HR. by rewrite app_comm_cons. }
  apply Hext. clear Hext. intros b3 H3. lsteps. apply (wp_put4 N b3 _ _ _ H3); [lia|]. intros b4 H4. lsteps.
  pose proof H4 as [[Hwf4 Hsz4 _ _] Hp4]. rewrite length_app in Hp4. cbn [length STORE32H] in Hp4.
  apply wp_getwriteptr; [done|unfold is_u32; lia|unfold BUF_MAX_INCR; lia|]. intros _ _.
  destruct (rd maxlen) as [bs| | |].
  - destruct Hans as [Hbs Hn]. unfold is_u32 in Htw.
    apply (lwp_fill N b4 x hdr (pos b3) bs _ _ _ eq_refl); [apply H3|done|done|lia|lia|]. intros b' Hb'. by apply (HQ b').
  - apply lwp_bind, lwp_close. fold fd. destruct (close_chan_fd (io x) fd SHUT_RD) as [c evs].
    eapply lwp_reset; [exact H4|]. intros b' Hb'. rewrite app_nil_r. by apply (HQ b').
  - apply lwp_bind, lwp_close. fold fd. destruct (close_chan_fd (io x) fd SHUT_RD) as [c evs].
    eapply lwp_reset; [exact H4|]. intros b' Hb'. rewrite app_nil_r. by apply (HQ b').
  - apply lwp_bind, lwp_ret. eapply lwp_reset; [exact H4|]. intros b' Hb'. by apply (HQ b').
Qed.

(** ** The protocol *)

(** What has been sent last. *)
Inductive phase := Open | EofSent | Closed.
(** EOF and CLOSE at most once and in this order, no data after EOF, nothing at all after
    CLOSE. *)
Definition step_act (p : phase) (a : act) : option phase :=
  match a with
  | Handler => match p with Closed => None | _ => Some p end
  | Io _ => Some p
  | Packet (t :: _) =>
      if (t =? SSH_MSG_CHANNEL_DATA) || (t =? SSH_MSG_CHANNEL_EXTENDED_DATA)
      then match p with Open => Some Open | _ => None end
      else if t =? SSH_MSG_CHANNEL_EOF then match p with Open => Some EofSent | _ => None end
      else if t =? SSH_MSG_CHANNEL_CLOSE then match p with Closed => None | _ => Some Closed end
      else if (t =? SSH_MSG_CHANNEL_WINDOW_ADJUST) || (t =? SSH_MSG_CHANNEL_SUCCESS) || (t =? SSH_MSG_CHANNEL_FAILURE) then match p with Closed => None | _ => Some p end
      else None
  | Packet [] => None
  end.
Fixpoint follows (p : phase) (l : list act) : option phase :=
  match l with [] => Some p | a :: l => p ← step_act p a; follows p l end.
Lemma follows_app p l l' q : follows p l = Some q -> follows p (l ++ l') = follows q l'.
Proof.
  revert p. induction l as [|a l IH]; intros p; cbn; [by intros [= ->]|]. destruct (step_act p a); cbn; [apply IH|done].
Qed.
Definition phase_of (x : chan) : phase := if sent_close x then Closed else if sent_eof x then EofSent else Open.

(** ** Descriptors *)

Definition has_fd (c : channel) (z : Z) : Prop := 0 <= z /\ (z = writefd c \/ z = readfd c \/ z = errfd c).
(** The descriptors closed; [m_close] does nothing with a negative one. *)
Definition closes_event (e : event) : list Z := match e with EClose fd => if 0 <=? fd then [fd] else [] | _ => [] end.
Definition closes_act (a : act) : list Z := match a with Io e => closes_event e | _ => [] end.
Definition closes (l : list act) : list Z := concat (map closes_act l).
Lemma closes_app l l' : closes (l ++ l') = closes l ++ closes l'.
Proof. unfold closes. by rewrite map_app, concat_app. Qed.
Lemma closes_io evs : closes (map Io evs) = concat (map closes_event evs).
Proof. unfold closes. rewrite map_map. done. Qed.
Lemma closes_acts rc evs : closes (map (act_of rc) evs) = concat (map closes_event evs).
Proof. unfold closes. rewrite map_map. f_equal. apply map_ext. by intros []. Qed.

(** A descriptor is closed once, when the channel lets go of it. *)
Record ledger (c : channel) (l : list Z) (c' : channel) : Prop := mkLedger {
  g_nodup : NoDup l;
  g_split : forall z, has_fd c z <-> z ∈ l \/ has_fd c' z;
  g_gone : forall z, z ∈ l -> ~ has_fd c' z
}.
Lemma ledger_refl c : ledger c [] c.
Proof. split; [constructor|set_solver|set_solver]. Qed.
Lemma ledger_set_fds c : ledger c [] (set_fds c (writefd c) (readfd c) (errfd c)).
Proof. split; [constructor| |by intros z ?%elem_of_nil]. intros z. rewrite elem_of_nil. unfold has_fd. cbn. tauto. Qed.
Lemma ledger_trans c1 l1 c2 l2 c3 : ledger c1 l1 c2 -> ledger c2 l2 c3 -> ledger c1 (l1 ++ l2) c3.
Proof.
  intros [N1 S1 G1] [N2 S2 G2]. split.
  - apply NoDup_app. split_and!; [done| |done]. intros z Hz Hz2. apply (G1 z Hz). apply S2. by left.
  - intros z. rewrite S1, S2, elem_of_app. tauto.
  - intros z [Hz|Hz]%elem_of_app; [|by apply G2]. intros H3. apply (G1 z Hz). apply S2. by right.
Qed.

(** Two-way descriptors have no separate error descriptor. *)
Record fds_ok (c : channel) : Prop := mkFds {
  f_bidir : bidir_fd c = true -> errfd c = FD_CLOSED /\ extrabuf c = None /\ -1 <= readfd c /\ -1 <= writefd c /\
    (readfd c = FD_CLOSED \/ writefd c = FD_CLOSED \/ readfd c = writefd c)
}.

(** Closing one of the three descriptors. *)
Definition closable (c : channel) (fd how : Z) : Prop :=
  (fd = readfd c /\ how = SHUT_RD) \/ (fd = writefd c /\ how = SHUT_WR) \/
  (fd = errfd c /\ (how = SHUT_RDWR \/ how = SHUT_RD \/ how = SHUT_WR)).
Definition kept_or_closed (a b : Z) : Prop := b = a \/ b = FD_CLOSED.

(** A list of at most one descriptor, and what the channel keeps. *)
Lemma ledger_one c fd (last : bool) c' :
  (forall z, has_fd c z <-> (last = true /\ 0 <= fd /\ z = fd) \/ has_fd c' z) ->
  (last = true -> 0 <= fd -> ~ has_fd c' fd) ->
  ledger c (if last then (if 0 <=? fd then [fd] else []) else []) c'.
Proof.
  intros H1 H2. destruct last; [destruct (Z.leb_spec 0 fd)|].
  - split; [apply NoDup_singleton| |].
    + intros z. rewrite H1, list_elem_of_singleton. intuition.
    + intros z ->%list_elem_of_singleton. auto.
  - split; [constructor| |by intros z ?%elem_of_nil]. intros z. rewrite H1, elem_of_nil. intuition lia.
  - split; [constructor| |by intros z ?%elem_of_nil]. intros z. rewrite H1, elem_of_nil. intuition done.
Qed.
Lemma closes_one (last : bool) fd : concat (map closes_event (if last then [EClose fd] else [])) = if last then (if 0 <=? fd then [fd] else []) else [].
Proof. destruct last; [|done]. cbn. by rewrite app_nil_r. Qed.

(** Only one direction of a two-way descriptor. *)
Lemma close_bidir c fd (o i : bool) : fds_ok c -> bidir_fd c = true -> o = negb i ->
  (o = true -> fd = readfd c \/ fd = FD_CLOSED) -> (i = true -> fd = writefd c \/ fd = FD_CLOSED) ->
  let r := if o && (fd =? readfd c) then FD_CLOSED else readfd c in
  let w := if i && (fd =? writefd c) then FD_CLOSED else writefd c in
  ledger c (concat (map closes_event (if (r =? FD_CLOSED) && (w =? FD_CLOSED) then [EClose fd] else []))) (set_fds c w r FD_CLOSED) /\
  fds_ok (set_fds c w r FD_CLOSED) /\ kept_or_closed (writefd c) w /\ kept_or_closed (readfd c) r.
Proof.
  intros Hok Eb Eo Ho Hi r w. destruct (f_bidir c Hok Eb) as (He & Hx & Hr & Hw & Hrw). rewrite closes_one.
  unfold FD_CLOSED, kept_or_closed in *.
  assert (Hcases : (o = true /\ i = false) \/ (o = false /\ i = true)) by (destruct i; subst o; cbn; auto).
  assert (Hr' : r = if o && (fd =? readfd c) then -1 else readfd c) by done.
  assert (Hw' : w = if i && (fd =? writefd c) then -1 else writefd c) by done.
  clearbody r w. revert Hr' Hw'.
  destruct Hcases as [[-> ->]|[-> ->]]; cbn [andb]; destruct (Z.eqb_spec fd (readfd c)), (Z.eqb_spec fd (writefd c)); intros -> ->; clear Eo;
    (split_and!; [apply ledger_one; [intros z|]; unfold has_fd; cbn|split; cbn; intros _; split_and!; try done|..]);
    repeat match goal with |- context [(?a =? -1) && _] => destruct (Z.eqb_spec a (-1)); cbn [andb] | |- context [?a =? -1] => destruct (Z.eqb_spec a (-1)) end; unfold FD_CLOSED; lia.
Qed.

(** A one-way descriptor, wherever the channel uses it. *)
Lemma close_oneway c fd : bidir_fd c = false -> fd = writefd c \/ fd = readfd c \/ fd = errfd c ->
  let drop a := if fd =? a then FD_CLOSED else a in
  ledger c (concat (map closes_event [EClose fd])) (set_fds c (drop (writefd c)) (drop (readfd c)) (drop (errfd c))) /\
  fds_ok (set_fds c (drop (writefd c)) (drop (readfd c)) (drop (errfd c))).
Proof.
  intros Eb Hfd drop. change [EClose fd] with (if true then [EClose fd] else []). rewrite closes_one. unfold drop. split.
  - apply (ledger_one c fd true); [intros z|]; unfold has_fd, FD_CLOSED; cbn;
      destruct (Z.eqb_spec fd (writefd c)), (Z.eqb_spec fd (readfd c)), (Z.eqb_spec fd (errfd c)); lia.
  - split. cbn. congruence.
Qed.

(** Events that concern only the descriptors. *)
Definition quiet (e : event) : Prop := match e with EShutdown _ _ | EClose _ => True | _ => False end.
Lemma quiet_follows evs p : Forall quiet evs -> follows p (map Io evs) = Some p.
Proof. induction 1 as [|e evs He _ IH]; [done|]. by destruct e. Qed.
Lemma quiet_delivered evs fd : Forall quiet evs -> delivered fd evs = [].
Proof. induction 1 as [|e evs He _ IH]; [done|]. by destruct e. Qed.

Record closing (c : channel) (w r e : Z) (evs : list event) : Prop := mkClosing {
  k_ok : fds_ok (set_fds c w r e);
  k_ledger : ledger c (concat (map closes_event evs)) (set_fds c w r e);
  k_quiet : Forall quiet evs;
  k_write : kept_or_closed (writefd c) w; k_read : kept_or_closed (readfd c) r; k_err : kept_or_closed (errfd c) e
}.

Lemma close_chan_fd_ok c fd how : fds_ok c -> closable c fd how ->
  exists w r e evs, close_chan_fd c fd how = (set_fds c w r e, evs) /\ closing c w r e evs.
Proof.
  intros Hok Hfd. unfold close_chan_fd. destruct (bidir_fd c) eqn:Eb.
  - destruct (f_bidir c Hok Eb) as (He & Hx & _). unfold ERRFD_IS_READ. rewrite Hx, He.
    assert (Hhow : (how =? 0 = true -> fd = readfd c \/ fd = FD_CLOSED) /\ (how =? 0 = false -> fd = writefd c \/ fd = FD_CLOSED)).
    { rewrite <- He. unfold closable, SHUT_RD, SHUT_WR, SHUT_RDWR in Hfd. destruct (Z.eqb_spec how 0); split; intros; try done; lia. }
    destruct Hhow as [H1 H2].
    assert (Hee : (if fd =? FD_CLOSED then FD_CLOSED else FD_CLOSED) = FD_CLOSED) by by destruct (fd =? _).
    destruct (how =? 0); cbn [negb andb].
    + destruct (close_bidir c fd true false Hok Eb eq_refl (fun _ => H1 eq_refl) ltac:(done)) as (K1 & K2 & K3 & K4). cbn [andb] in *.
      do 4 eexists. split; [reflexivity|]. rewrite Hee, Z.eqb_refl, andb_true_r. split; try done; [|by right].
      constructor; [done|]. destruct (_ && _); by repeat constructor.
    + destruct (close_bidir c fd false true Hok Eb eq_refl ltac:(done) (fun _ => H2 eq_refl)) as (K1 & K2 & K3 & K4). cbn [andb] in *.
      do 4 eexists. split; [reflexivity|]. rewrite Z.eqb_refl, andb_true_r. split; try done; [|by right].
      constructor; [done|]. destruct (_ && _); by repeat constructor.
  - assert (Hone : fd = writefd c \/ fd = readfd c \/ fd = errfd c) by (unfold closable in Hfd; lia).
    destruct (close_oneway c fd Eb Hone) as [K1 K2]. cbn [andb].
    assert (Hd : forall a, kept_or_closed a (if fd =? a then FD_CLOSED else a)) by (intros a; unfold kept_or_closed; destruct (fd =? a); auto).
    exists (if fd =? writefd c then FD_CLOSED else writefd c), (if fd =? readfd c then FD_CLOSED else readfd c), (if fd =? errfd c then FD_CLOSED else errfd c), [EClose fd].
    split; [|split; auto; by repeat constructor].
    f_equal. f_equal. destruct (ERRFD_IS_READ c); cbn [andb negb]; done.
Qed.

(** ** What is sent *)

(** The bytes of data in an action. *)
Definition sent_act (a : act) : Z :=
  match a with
  | Packet (t :: bs) => if t =? SSH_MSG_CHANNEL_DATA then zlen bs - 8 else if t =? SSH_MSG_CHANNEL_EXTENDED_DATA then zlen bs - 12 else 0
  | _ => 0
  end.
Fixpoint sent (l : list act) : Z := match l with [] => 0 | a :: l => sent_act a + sent l end.
(** A message for channel [rc], with at most [max] bytes of data; a window adjustment is
    never sent otherwise. *)
Definition fits (rc max : Z) (a : act) : Prop :=
  match a with
  | Io (EAdjust _) => False
  | Packet bs => (exists n, bs = SSH_MSG_CHANNEL_WINDOW_ADJUST :: STORE32H rc ++ STORE32H n) \/
      bs = SSH_MSG_CHANNEL_EOF :: STORE32H rc \/ bs = SSH_MSG_CHANNEL_CLOSE :: STORE32H rc \/
      bs = SSH_MSG_CHANNEL_SUCCESS :: STORE32H rc \/ bs = SSH_MSG_CHANNEL_FAILURE :: STORE32H rc \/
      exists ext d, bs = data_msg ext rc d /\ 1 <= zlen d <= max
  | _ => True
  end.
(** The messages [l] of a channel that becomes [x'], paid for by the window. *)
Record spent (x x' : chan) (l : list act) : Prop := mkSpent {
  n_window : transwindow x' = transwindow x - sent l;
  n_max : transmaxpacket x' = transmaxpacket x; n_remote : remotechan x' = remotechan x;
  n_fits : Forall (fits (remotechan x) (transmaxpacket x)) l
}.
Lemma sent_app l l' : sent (l ++ l') = sent l + sent l'.
Proof. induction l as [|a l IH]; cbn [sent app]; lia. Qed.
Lemma sent_io evs : sent (map Io evs) = 0.
Proof. induction evs as [|e evs IH]; cbn [sent map sent_act]; lia. Qed.
Lemma fits_io rc max evs : Forall quiet evs -> Forall (fits rc max) (map Io evs).
Proof. induction 1 as [|e evs He _ IH]; constructor; [by destruct e|done]. Qed.
Lemma spent_io x c evs : Forall quiet evs -> spent x (set_io x c) (map Io evs).
Proof. intros Hq. split; cbn; try done; [rewrite sent_io; lia|by apply fits_io]. Qed.
Lemma sent_acts rc evs : sent (map (act_of rc) evs) = 0.
Proof. induction evs as [|e evs IH]; [done|]. destruct e; cbn [sent map sent_act act_of]; cbn; lia. Qed.
Lemma fits_acts rc max evs : Forall (fits rc max) (map (act_of rc) evs).
Proof. induction evs as [|e evs IH]; constructor; [|done]. destruct e; try done. left. by eexists. Qed.
Lemma spent_acts x c evs : spent x (set_io x c) (map (act_of (remotechan x)) evs).
Proof. split; cbn; try done; [rewrite sent_acts; lia|apply fits_acts]. Qed.
Lemma spent_trans x x1 l1 x2 l2 : spent x x1 l1 -> spent x1 x2 l2 -> spent x x2 (l1 ++ l2).
Proof.
  intros [A1 A2 A3 A4] [B1 B2 B3 B4]. rewrite A2, A3 in B4. split; [rewrite sent_app; lia|congruence|congruence|by apply Forall_app].
Qed.
Lemma spent_data x (ext : bool) d : 1 <= zlen d <= transmaxpacket x ->
  spent x (set_transwindow x (transwindow x - zlen d)) [Packet (data_msg ext (remotechan x) d)].
Proof.
  intros Hd. split; try done.
  - unfold data_msg. destruct ext; cbn [sent sent_act app STORE32H transwindow set_transwindow Z.eqb SSH_MSG_CHANNEL_DATA SSH_MSG_CHANNEL_EXTENDED_DATA SSH_EXTENDED_DATA_STDERR Pos.eqb length]; lia.
  - constructor; [|done]. do 5 right. by exists ext, d.
Qed.

(** ** The invariant and its preservation *)

Definition ios (l : list act) : list event := omap (fun a => match a with Io e => Some e | _ => None end) l.
Lemma ios_app l l' : ios (l ++ l') = ios l ++ ios l'.
Proof. apply omap_app. Qed.
Lemma ios_io evs : ios (map Io evs) = evs.
Proof. induction evs as [|e evs IH]; [done|]. cbn. f_equal. exact IH. Qed.
Lemma delivered_acts fd rc evs : delivered fd (ios (map (act_of rc) evs)) = delivered fd evs.
Proof.
  induction evs as [|e evs IH]; [done|]. change (e :: evs) with ([e] ++ evs). rewrite map_app, ios_app, !delivered_app, IH. by destruct e.
Qed.

Section life.
(** The window, the size of the payload buffer; [gentle] stands for the assumptions under
    which no data may be lost. *)
Context (W N : Z) (gentle : Prop).

(** Under them the descriptor written to is used for nothing else. *)
Definition separate (c : channel) : Prop :=
  0 <= writefd c -> bidir_fd c = true \/ (writefd c <> readfd c /\ writefd c <> errfd c).

Record life_ok (x : chan) : Prop := mkLifeOk {
  l_ok : chan_ok W (io x); l_owed : owed (io x) <= W; l_fds : fds_ok (io x);
  l_window : is_u32 (transwindow x); l_max : is_u32 (transmaxpacket x);
  l_eof : sent_eof x = true -> readfd (io x) = FD_CLOSED /\ (extrabuf (io x) <> None \/ errfd (io x) = FD_CLOSED);
  l_close : sent_close x = true ->
    sent_eof x = true /\ readfd (io x) = FD_CLOSED /\ writefd (io x) = FD_CLOSED /\ errfd (io x) = FD_CLOSED;
  l_recv : recv_close x = true -> recv_eof (io x) = true;
  l_separate : gentle -> separate (io x)
}.

(** [fd] is where the data of the channel goes, and nothing else does. *)
Definition target (fd : Z) (c : channel) : Prop :=
  0 <= fd /\ (writefd c = fd \/ writefd c < 0) /\ (extrabuf c = None \/ errfd c <> fd).

(** The buffered data after a step, and what was written in it. *)
Definition flows (c : channel) (evs : list event) (c' : channel) : Prop :=
  held (extrabuf c') <= held (extrabuf c) /\
  exists w w', writebuf c = Some w /\ writebuf c' = Some w' /\ Circ.used w' <= Circ.used w /\
    forall fd, target fd c -> delivered fd evs ++ Circ.contents w' = Circ.contents w.

Record same_channel (x x' : chan) : Prop := mkSame {
  e_eof : recv_eof (io x') = recv_eof (io x); e_close : recv_close x' = recv_close x;
  e_extra : extrabuf (io x') = None <-> extrabuf (io x) = None; e_bidir : bidir_fd (io x') = bidir_fd (io x);
  e_write : kept_or_closed (writefd (io x)) (writefd (io x'));
  e_read : kept_or_closed (readfd (io x)) (readfd (io x'));
  e_err : kept_or_closed (errfd (io x)) (errfd (io x'))
}.

(** What one handler, or a part of it, does. *)
Record step_ok (x x' : chan) (b' : buffer) (l : list act) : Prop := mkStep {
  o_life : life_ok x'; o_buf : ready_at N b' [];
  o_follows : follows (phase_of x) l = Some (phase_of x');
  o_ledger : ledger (io x) (closes l) (io x');
  o_same : same_channel x x';
  o_flows : flows (io x) (ios l) (io x');
  o_spent : spent x x' l;
  o_keep : gentle -> 0 <= writefd (io x) -> writefd (io x') = writefd (io x) \/
    (held (writebuf (io x')) = 0 /\ recv_eof (io x') = true)
}.

Lemma kept_trans a b c : kept_or_closed a b -> kept_or_closed b c -> kept_or_closed a c.
Proof. unfold kept_or_closed, FD_CLOSED. lia. Qed.
Lemma target_kept fd c c' : (extrabuf c' = None <-> extrabuf c = None) -> kept_or_closed (writefd c) (writefd c') ->
  kept_or_closed (errfd c) (errfd c') -> target fd c -> target fd c'.
Proof.
  intros Hx Hw He (H0 & H1 & H2). unfold target, kept_or_closed, FD_CLOSED in *.
  split; [done|]. split; [lia|]. destruct H2 as [H2|H2]; [left; by apply Hx|right; lia].
Qed.

Lemma step_refl x b : life_ok x -> ready_at N b [] -> step_ok x x b [].
Proof.
  intros Hl Hb. split; try done; [apply ledger_refl| | | |by left].
  - split; try done; by left.
  - destruct (ok_write _ _ (l_ok _ Hl)) as [w Hw]. split; [done|]. exists w, w. split_and!; try done.
  - split; try done. cbn. lia.
Qed.
Lemma step_trans x x1 b1 l1 x2 b2 l2 : step_ok x x1 b1 l1 -> step_ok x1 x2 b2 l2 -> step_ok x x2 b2 (l1 ++ l2).
Proof.
  intros [A1 A2 A3 A4 A5 A6 AS A7] [B1 B2 B3 B4 B5 B6 BS B7]. split; try done.
  - by rewrite (follows_app _ _ _ _ A3).
  - rewrite closes_app. by eapply ledger_trans.
  - destruct A5, B5. split; try congruence; [tauto|by eapply kept_trans..].
  - destruct A6 as (X1 & w & w1 & E1 & E2 & U1 & F1), B6 as (X2 & w1' & w2 & E3 & E4 & U2 & F2).
    rewrite E2 in E3. injection E3 as <-. split; [lia|]. exists w, w2. split_and!; try done; [lia|]. intros fd Hfd.
    rewrite ios_app, delivered_app, <- app_assoc, F2 by (eapply (target_kept fd (io x)); [apply A5..|done]). by apply F1.
  - by eapply spent_trans.
  - intros Hg Hw. specialize (A7 Hg Hw). destruct B6 as (_ & w1 & w2 & E1 & E2 & U & _). rewrite E2. cbn [held].
    destruct (ok_bufs _ _ (l_ok _ B1) Write w2 E2) as [Hi _]. pose proof (Circ.i_used _ Hi).
    destruct A7 as [A7|[A7 A8]].
    + rewrite <- A7. rewrite E2 in B7. apply B7; [done|lia].
    + right. rewrite E1 in A7. cbn in A7. split; [lia|]. by rewrite (e_eof _ _ B5).
Qed.

(** Handlers that are steps. *)
Definition steps {A} (m : L A) (R : A -> chan -> Prop) (x : chan) (b : buffer) : Prop :=
  lwp m (fun a x' b' l => step_ok x x' b' l /\ R a x') x b.
Lemma steps_bind_ok {A B} (m : L A) (f : A -> L B) R S x b : steps m R x b ->
  (forall a x' b' l, step_ok x x' b' l -> R a x' -> steps (f a) S x' b') -> steps (m ≫= f) S x b.
Proof.
  intros Hm Hf. apply lwp_bind. eapply lwp_mono; [exact Hm|]. intros a x' b' l [Hs HR]. cbv beta.
  eapply lwp_mono; [by eapply Hf|]. intros c x2 b2 l2 [Hs2 HS]. split; [by eapply step_trans|done].
Qed.
Lemma steps_bind {A B} (m : L A) (f : A -> L B) R S x b : steps m R x b ->
  (forall a x' b', life_ok x' -> ready_at N b' [] -> same_channel x x' -> R a x' -> steps (f a) S x' b') -> steps (m ≫= f) S x b.
Proof. intros Hm Hf. eapply steps_bind_ok; [exact Hm|]. intros a x' b' l [] HR. auto. Qed.
Lemma steps_ret {A} (a : A) (R : A -> chan -> Prop) x b : life_ok x -> ready_at N b [] -> R a x -> steps (mret a) R x b.
Proof. intros Hl Hb HR. apply lwp_ret. split; [by apply step_refl|done]. Qed.
Lemma steps_chan (R : chan -> chan -> Prop) x b : life_ok x -> ready_at N b [] -> R x x -> steps the_chan R x b.
Proof. intros Hl Hb HR. apply lwp_chan. split; [by apply step_refl|done]. Qed.
Lemma steps_mono {A} (m : L A) (R S : A -> chan -> Prop) x b : steps m R x b -> (forall a x, R a x -> S a x) -> steps m S x b.
Proof. intros Hm HRS. eapply lwp_mono; [exact Hm|]. intros a x' b' l [? ?]. auto. Qed.

Lemma steps_if {A} (c : bool) (m1 m2 : L A) R x b : (c = true -> steps m1 R x b) -> (c = false -> steps m2 R x b) ->
  steps (if c then m1 else m2) R x b.
Proof. destruct c; auto. Qed.

(** ** Closing a descriptor *)

Lemma close_read_closed c : readfd (close_chan_fd c (readfd c) SHUT_RD).1 = FD_CLOSED.
Proof. unfold close_chan_fd. destruct (bidir_fd c); cbn; by rewrite Z.eqb_refl. Qed.
Lemma close_write_closed c : writefd (close_chan_fd c (writefd c) SHUT_WR).1 = FD_CLOSED.
Proof. unfold close_chan_fd. destruct (bidir_fd c); cbn; by rewrite Z.eqb_refl. Qed.
Lemma close_err_closed c how : fds_ok c -> errfd (close_chan_fd c (errfd c) how).1 = FD_CLOSED.
Proof.
  intros Hok. unfold close_chan_fd. destruct (bidir_fd c) eqn:Eb.
  - destruct (f_bidir c Hok Eb) as (He & Hx & _). rewrite He. by destruct (how =? 0); cbn; repeat case_match.
  - cbn. rewrite Z.eqb_refl. destruct (ERRFD_IS_READ c); cbn; [by repeat case_match|by rewrite Z.eqb_refl].
Qed.
(** Closing the other two leaves the descriptor written to. *)
Lemma close_keeps_write c fd how : fds_ok c -> separate c -> 0 <= writefd c ->
  (fd = readfd c /\ how = SHUT_RD) \/ fd = errfd c -> writefd (close_chan_fd c fd how).1 = writefd c.
Proof.
  intros Hok Hs Hw Hfd. unfold close_chan_fd. destruct (bidir_fd c) eqn:Eb.
  - destruct (f_bidir c Hok Eb) as (He & _). destruct (Z.eqb_spec how 0); cbn; [done|].
    rewrite (proj2 (Z.eqb_neq _ _)); [done|]. unfold SHUT_RD, FD_CLOSED in *. lia.
  - cbn. rewrite (proj2 (Z.eqb_neq _ _)); [done|]. destruct (Hs Hw); [congruence|lia].
Qed.

Lemma life_set_fds x w r e evs : life_ok x -> closing (io x) w r e evs -> life_ok (set_io x (set_fds (io x) w r e)).
Proof.
  intros [] [K1 _ _ K4 K5 K6]. split; cbn; try done.
  - by apply ok_set_fds.
  - intros H. specialize (l_eof0 H). destruct l_eof0 as [? [?|?]]; (split; [destruct K5; congruence|]); [by left|right; destruct K6; congruence].
  - intros H. destruct (l_close0 H) as (? & ? & ? & ?). split_and!; [done|destruct K5; congruence|destruct K4; congruence|destruct K6; congruence].
  - intros Hg. specialize (l_separate0 Hg). unfold separate, kept_or_closed, FD_CLOSED in *. cbn. intros Hw.
    destruct l_separate0 as [?|?]; [lia|by left|right; lia].
Qed.

(** Not the descriptor data is written to, or nothing is left to write. *)
Definition spares (c : channel) (fd how : Z) : Prop :=
  gentle -> 0 <= writefd c -> ((fd = readfd c /\ how = SHUT_RD) \/ fd = errfd c) \/ (held (writebuf c) = 0 /\ recv_eof c = true).
Lemma step_close x b fd how : life_ok x -> ready_at N b [] -> closable (io x) fd how -> spares (io x) fd how ->
  step_ok x (set_io x (close_chan_fd (io x) fd how).1) b (map Io (close_chan_fd (io x) fd how).2).
Proof.
  intros Hl Hb Hc Hg. destruct (close_chan_fd_ok _ _ _ (l_fds _ Hl) Hc) as (w & r & e & evs & E & K).
  pose proof (fun Hs Hw Ho => close_keeps_write (io x) fd how (l_fds _ Hl) Hs Hw Ho) as Hkeep. rewrite E in *. cbn [fst snd] in *.
  pose proof K as [K1 K2 K3 K4 K5 K6]. split; try done.
  - by eapply life_set_fds.
  - by apply quiet_follows.
  - by rewrite closes_io.
  - split; [done|]. destruct (ok_write _ _ (l_ok _ Hl)) as [wb Hw]. exists wb, wb. cbn. split_and!; try done. intros fd' _.
    rewrite ios_io. by rewrite quiet_delivered.
  - by apply spent_io.
  - intros Hge Hw. destruct (Hg Hge Hw) as [Hother|Hz]; [left|by right]. exact (Hkeep (l_separate _ Hl Hge) Hw Hother).
Qed.
Lemma steps_close x b fd how (R : unit -> chan -> Prop) : life_ok x -> ready_at N b [] -> closable (io x) fd how ->
  spares (io x) fd how -> R tt (set_io x (close_chan_fd (io x) fd how).1) -> steps (close_fd fd how) R x b.
Proof.
  intros Hl Hb Hc Hg HR. pose proof (step_close x b fd how Hl Hb Hc Hg) as Hs. apply lwp_close.
  destruct (close_chan_fd (io x) fd how) as [c evs]. by split.
Qed.

(** ** EOF and CLOSE *)

Context (HN : 13 <= N).

(** A change of the flags of a channel while its descriptors and buffers stay. *)
Lemma step_flags x x' b' l : life_ok x' -> ready_at N b' [] -> io x' = io x -> recv_close x' = recv_close x ->
  follows (phase_of x) l = Some (phase_of x') -> closes l = [] -> ios l = [] -> spent x x' l -> step_ok x x' b' l.
Proof.
  intros Hl Hb Eio Erc Hf Hc Hi Hsp. split; try done; rewrite ?Hc, ?Hi, ?Eio.
  - apply ledger_refl.
  - split; rewrite ?Eio; try done; by left.
  - destruct (ok_write _ _ (l_ok _ Hl)) as [w Hw]. rewrite Eio in Hw. split; [done|]. by exists w, w.
  - by left.
Qed.

Lemma not_closed x : life_ok x -> sent_eof x = false -> sent_close x = false.
Proof. intros Hl He. destruct (sent_close x) eqn:E; [|done]. destruct (l_close _ Hl E). congruence. Qed.
Lemma steps_eof x b : life_ok x -> ready_at N b [] -> sent_eof x = false ->
  readfd (io x) = FD_CLOSED -> ERRFD_IS_WRITE (io x) || (errfd (io x) =? FD_CLOSED) = true ->
  steps send_msg_channel_eof (fun _ x' => io x' = io x) x b.
Proof using HN.
  intros Hl Hb He Hr Herr. unfold send_msg_channel_eof. pose proof (not_closed x Hl He) as Hc.
  apply (lwp_short N); [done|done|done|]. intros b' Hb'. lsteps. split; [|done].
  apply step_flags; try done.
  - destruct Hl. split; try done; cbn; [|congruence]. intros _. split; [done|].
    unfold ERRFD_IS_WRITE, ERRFD_IS_READ in Herr. destruct (extrabuf (io x)); [by left|right]. by apply Z.eqb_eq.
  - unfold phase_of. cbn. by rewrite Hc, He.
  - split; try done; [cbn; lia|]. constructor; [right; by left|done].
Qed.

Lemma steps_reply x b t : life_ok x -> ready_at N b [] -> t = SSH_MSG_CHANNEL_SUCCESS \/ t = SSH_MSG_CHANNEL_FAILURE ->
  steps (x ← the_chan;
         if sent_close x then mret tt
         else
           _ ← on_payload (buf_putbyte t);
           x ← the_chan;
           _ ← on_payload (buf_putint (remotechan x));
           encrypt_packet) (fun _ _ => True) x b.
Proof using HN.
  intros Hl Hb Ht. eapply steps_bind; [by apply (steps_chan (fun y z => y = x /\ z = x))|]. intros y x' b1 _ Hb1 _ [-> ->].
  apply steps_if; intros Hc; [by apply steps_ret|].
  unfold steps. lsteps. apply (wp_put1 N b1 []); [done|by destruct Ht as [-> | ->]|cbn; lia|]. intros b2 H2. lsteps.
  apply (wp_put4 N b2 _ _ _ H2); [cbn; lia|]. intros b3 [H3 _]. cbn [app] in H3.
  eapply lwp_encrypt; [exact H3|]. intros b4 H4. cbn [app]. split; [|done].
  apply step_flags; try done; [|split; try done; [destruct Ht as [-> | ->]; cbn; lia|]].
  - unfold phase_of. rewrite Hc. by destruct Ht as [-> | ->], (sent_eof x).
  - constructor; [|done]. destruct Ht as [-> | ->]; [do 3 right; by left|do 4 right; by left].
Qed.

(** After CLOSE every descriptor is closed. *)
Lemma closing_trans c w r e evs w' r' e' evs' : closing c w r e evs -> closing (set_fds c w r e) w' r' e' evs' ->
  closing c w' r' e' (evs ++ evs').
Proof.
  intros [A1 A2 A3 A4 A5 A6] [B1 B2 B3 B4 B5 B6]. cbn in *. split; try done; [|by apply Forall_app|by eapply kept_trans..].
  rewrite map_app, concat_app. by eapply ledger_trans.
Qed.
Lemma close_all c : fds_ok c ->
  let '(c1, e1) := close_chan_fd c (readfd c) SHUT_RD in
  let '(c2, e2) := close_chan_fd c1 (errfd c1) SHUT_RDWR in
  let '(c3, e3) := close_chan_fd c2 (writefd c2) SHUT_WR in
  c3 = set_fds c FD_CLOSED FD_CLOSED FD_CLOSED /\ closing c FD_CLOSED FD_CLOSED FD_CLOSED (e1 ++ e2 ++ e3).
Proof.
  intros Hok. pose proof (close_read_closed c) as R1.
  destruct (close_chan_fd_ok c (readfd c) SHUT_RD Hok) as (w1 & r1 & x1 & e1 & E1 & K1); [left; done|]. rewrite E1 in R1 |- *. cbn in R1. subst r1. cbv iota.
  pose proof (close_err_closed (set_fds c w1 FD_CLOSED x1) SHUT_RDWR (k_ok _ _ _ _ _ K1)) as R2.
  destruct (close_chan_fd_ok _ (errfd (set_fds c w1 FD_CLOSED x1)) SHUT_RDWR (k_ok _ _ _ _ _ K1)) as (w2 & r2 & x2 & e2 & E2 & K2); [right; right; auto|].
  rewrite E2 in R2 |- *. cbn in R2. subst x2. cbv iota.
  pose proof (closing_trans _ _ _ _ _ _ _ _ _ K1 K2) as K12.
  assert (r2 = FD_CLOSED) as -> by (destruct (k_read _ _ _ _ _ K2) as [->| ->]; done).
  change (set_fds (set_fds c w1 FD_CLOSED x1) w2 FD_CLOSED FD_CLOSED) with (set_fds c w2 FD_CLOSED FD_CLOSED) in *.
  pose proof (close_write_closed (set_fds c w2 FD_CLOSED FD_CLOSED)) as R3.
  destruct (close_chan_fd_ok (set_fds c w2 FD_CLOSED FD_CLOSED) (writefd (set_fds c w2 FD_CLOSED FD_CLOSED)) SHUT_WR (k_ok _ _ _ _ _ K2)) as (w3 & r3 & x3 & e3 & E3 & K3); [right; left; done|].
  rewrite E3 in R3 |- *. cbn in R3. subst w3. cbv iota. pose proof (closing_trans _ _ _ _ _ _ _ _ _ K12 K3) as K. rewrite <- app_assoc in K.
  assert (r3 = FD_CLOSED) as -> by (destruct (k_read _ _ _ _ _ K3) as [->| ->]; done).
  assert (x3 = FD_CLOSED) as -> by (destruct (k_err _ _ _ _ _ K3) as [->| ->]; done). done.
Qed.

Lemma steps_send_close has_handler x b : life_ok x -> ready_at N b [] -> sent_close x = false ->
  (gentle -> 0 <= writefd (io x) -> held (writebuf (io x)) = 0 /\ recv_eof (io x) = true) ->
  steps (send_msg_channel_close has_handler) (fun _ x' => sent_close x' = true) x b.
Proof using HN.
  intros Hl Hb Hc Hg. unfold send_msg_channel_close. pose proof (close_all (io x) (l_fds _ Hl)) as Hall.
  assert (Hh : forall l, follows (phase_of x) l = follows (phase_of x) ((if has_handler then [Handler] else []) ++ l)).
  { intros l. destruct has_handler; [|done]. unfold phase_of. rewrite Hc. by destruct (sent_eof x). }
  apply lwp_bind.
  assert (Hlog : forall Q : unit -> chan -> buffer -> list act -> Prop, Q tt x b (if has_handler then [Handler] else []) ->
    lwp (if has_handler then log [Handler] else mret tt) Q x b) by (intros Q HQ; destruct has_handler; by lsteps).
  apply Hlog. clear Hlog. apply (lwp_short N); [done|done|done|]. intros b' Hb'. lsteps. cbn [io set_sent].
  apply lwp_close. cbn [io set_sent]. destruct (close_chan_fd (io x) (readfd (io x)) SHUT_RD) as [c1 e1]. lsteps. apply lwp_close. cbn [io set_io].
  destruct (close_chan_fd c1 (errfd c1) SHUT_RDWR) as [c2 e2]. lsteps. apply lwp_close. cbn [io set_io].
  destruct (close_chan_fd c2 (writefd c2) SHUT_WR) as [c3 e3]. destruct Hall as [-> K].
  split; [|done]. cbn [app]. rewrite <- !map_app. set (evs := e1 ++ e2 ++ e3) in *. pose proof K as [K1 K2 K3 K4 K5 K6].
  change (set_io (set_io (set_io (set_sent x true true) c1) c2) (set_fds (io x) FD_CLOSED FD_CLOSED FD_CLOSED))
    with (set_sent (set_io x (set_fds (io x) FD_CLOSED FD_CLOSED FD_CLOSED)) true true).
  set (x' := set_sent _ true true). set (hd := if has_handler then [Handler] else []).
  set (pk := Packet (SSH_MSG_CHANNEL_CLOSE :: STORE32H (remotechan x))).
  assert (Hcl : closes (hd ++ pk :: map Io evs) = concat (map closes_event evs)).
  { rewrite closes_app. unfold hd. destruct has_handler; cbn [app]; (unfold closes; cbn [map concat closes_act app]; fold (closes (map Io evs)); by rewrite closes_io). }
  assert (Hio : ios (hd ++ pk :: map Io evs) = evs).
  { rewrite ios_app. unfold hd. by destruct has_handler; cbn; rewrite ios_io. }
  pose proof (life_set_fds _ _ _ _ _ Hl K) as Hl'. split; rewrite ?Hcl, ?Hio; try done.
  - destruct Hl'. split; try done. cbn in *. intros _. split; [done|by right].
  - unfold hd. rewrite <- Hh. cbn [follows]. unfold phase_of at 1. rewrite Hc. cbn [mbind option_bind].
    destruct (sent_eof x); cbn; by apply quiet_follows.
  - split; [done|]. destruct (ok_write _ _ (l_ok _ Hl)) as [wb Hw]. exists wb, wb. cbn. split_and!; try done. intros fd' _. by rewrite quiet_delivered.
  - change (pk :: map Io evs) with ([pk] ++ map Io evs). split; try done; [rewrite !sent_app, sent_io; unfold hd; destruct has_handler; cbn; lia|].
    apply Forall_app. split; [unfold hd; destruct has_handler; by repeat constructor|].
    constructor; [do 2 right; by left|by apply fits_io].
  - intros Hge Hw. right. exact (Hg Hge Hw).
Qed.

(** ** Data *)

Lemma steps_data x b (ext : bool) rd : life_ok x -> ready_at N b [] ->
  (if ext then 0 <= errfd (io x) /\ extrabuf (io x) = None else 0 <= readfd (io x)) ->
  match rd (data_maxlen ext x N) with Got bs => Forall is_u8 bs /\ 1 <= zlen bs <= data_maxlen ext x N | _ => True end ->
  steps (send_msg_channel_data ext rd) (fun _ _ => True) x b.
Proof using HN.
  intros Hl Hb Hfd Hans. set (fd := if ext then errfd (io x) else readfd (io x)).
  assert (Hfd0 : 0 <= fd) by (unfold fd; destruct ext; [apply Hfd|done]).
  assert (He : sent_eof x = false).
  { destruct (sent_eof x) eqn:E; [|done]. destruct (l_eof _ Hl E) as [Hr He]. unfold FD_CLOSED in *. destruct ext; [|lia].
    destruct Hfd as [H1 H2]. destruct He; [congruence|lia]. }
  pose proof (not_closed x Hl He) as Hc.
  apply (lwp_send_data N); try done; [apply Hl|apply Hl|case_match; [by destruct Hans as [? [? ?]]|done..]| |].
  - intros _. split; [by apply step_refl|done].
  - intros b' _ Hb'.
    assert (Hcl : let '(c, evs) := close_chan_fd (io x) fd SHUT_RD in step_ok x (set_io x c) b' (map Io evs) /\ True).
    { assert (Hclo : closable (io x) fd SHUT_RD) by (unfold fd, closable; destruct ext; auto 7).
      assert (Hsp : spares (io x) fd SHUT_RD) by (intros _ _; left; unfold fd; destruct ext; auto).
      pose proof (step_close x b' fd SHUT_RD Hl Hb' Hclo Hsp) as Hs. by destruct (close_chan_fd (io x) fd SHUT_RD). }
    destruct (rd (data_maxlen ext x N)) as [bs| | |]; [|exact Hcl|exact Hcl|split; [by apply step_refl|done]]. clear Hcl.
    destruct Hans as [Hbs Hn]. split; [|done]. apply step_flags; try done.
    + pose proof (l_window _ Hl). unfold data_maxlen, is_u32 in *. destruct Hl. split; try done. cbn. unfold is_u32. lia.
    + unfold phase_of. cbn. rewrite He, Hc. by destruct ext.
    + apply spent_data. unfold data_maxlen in Hn. lia.
Qed.

(** ** Writing to the descriptors *)

Lemma sends_follows rc fd evs p : p <> Closed -> Forall (sends fd) evs -> follows p (map (act_of rc) evs) = Some p.
Proof. intros Hp. induction 1 as [|e evs He _ IH]; [done|]. destruct e, p; try done. Qed.
Lemma quiet_acts rc evs : Forall quiet evs -> map (act_of rc) evs = map Io evs.
Proof. induction 1 as [|e evs He _ IH]; [done|]. cbn. rewrite IH. by destruct e. Qed.
Lemma sends_closes fd evs : Forall (sends fd) evs -> concat (map closes_event evs) = [].
Proof. induction 1 as [|e evs He _ IH]; [done|]. by destruct e. Qed.
Lemma adjust_sends fd evs : Forall is_adjust evs -> Forall (sends fd) evs.
Proof. intros H. eapply Forall_impl; [exact H|]. by intros []. Qed.

(** A channel whose data went to [fd] as [shape] allows, apart from the data itself. *)
Record shaped (x : chan) (c' : channel) (evs : list event) : Prop := mkShaped {
  p_life : life_ok (set_io x c');
  p_follows : follows (phase_of x) (map (act_of (remotechan x)) evs) = Some (phase_of x);
  p_ledger : ledger (io x) (closes (map (act_of (remotechan x)) evs)) c';
  p_same : same_channel x (set_io x c');
  p_keep : gentle -> 0 <= writefd (io x) -> writefd c' = writefd (io x)
}.
Lemma shape_ok x c' evs ok fd : life_ok x -> 0 <= fd ->
  fd = writefd (io x) \/ (fd = errfd (io x) /\ extrabuf (io x) <> None) ->
  shape fd (io x) ok evs c' -> chan_ok W c' -> owed c' <= W -> recv_eof c' = recv_eof (io x) ->
  (extrabuf c' = None <-> extrabuf (io x) = None) -> (gentle -> ok = true) -> shaped x c' evs.
Proof.
  intros Hl Hfd0 Hfd Hsh Hok Ho Heof Hex Hg.
  assert (Hph : phase_of x <> Closed).
  { unfold phase_of. destruct (sent_close x) eqn:E; [|by destruct (sent_eof x)]. destruct (l_close _ Hl E) as (_ & Hr & Hw & He).
    unfold FD_CLOSED in *. lia. }
  assert (Hfds : exists w r e evs0 tail, evs = evs0 ++ tail /\ Forall (sends fd) tail /\ closing (io x) w r e evs0 /\
    fds c' = fds (set_fds (io x) w r e) /\ (ok = true -> w = writefd (io x))).
  { destruct ok; cbn in Hsh.
    - destruct Hsh as [Ef Hs]. exists (writefd (io x)), (readfd (io x)), (errfd (io x)), [], evs. split_and!; try done.
      split; [destruct (l_fds _ Hl); by split|apply ledger_set_fds|constructor|by left..].
    - destruct Hsh as (tail & -> & Ef & Ht).
      destruct (close_chan_fd_ok (io x) fd SHUT_WR (l_fds _ Hl)) as (w & r & e & evs0 & E & K).
      { unfold closable. destruct Hfd as [->|[-> _]]; auto 6. }
      rewrite E in *. cbn [fst snd] in *. exists w, r, e, evs0, tail. split_and!; try done. by apply adjust_sends. }
  destruct Hfds as (w & r & e & evs0 & tail & -> & Ht & K & Ef & Hw). injection Ef as Ew Er Ee Eb. cbn in Ew, Er, Ee, Eb.
  pose proof (life_set_fds _ _ _ _ _ Hl K) as Hl'. pose proof K as [K1 K2 K3 K4 K5 K6].
  split.
  - destruct Hl'. split; cbn in *; try done; rewrite ?Ew, ?Er, ?Ee; try done.
    + split. intros H. rewrite Ee, Er, Ew. rewrite Eb in H. rewrite Hex. by apply (f_bidir _ K1).
    + intros H. rewrite Hex. auto.
    + intros H. rewrite Heof. auto.
    + intros H. specialize (l_separate0 H). unfold separate in *. cbn in *. by rewrite Ew, Er, Ee, Eb.
  - rewrite map_app, (quiet_acts _ _ K3). rewrite (follows_app _ _ _ _ (quiet_follows _ _ K3)). by rewrite (sends_follows _ fd).
  - rewrite closes_acts, map_app, concat_app, (sends_closes fd tail Ht), app_nil_r.
    destruct K2 as [N2 S2 G2]. unfold has_fd in *. cbn in *. split; [done|..]; intros z; unfold has_fd; cbn; rewrite Ew, Er, Ee; [apply S2|apply G2].
  - split; cbn; rewrite ?Ew, ?Er, ?Ee; done.
  - intros Hge Hw0. by rewrite Ew, Hw by auto.
Qed.
Lemma step_shaped x c' evs b : shaped x c' evs -> ready_at N b [] -> flows (io x) evs c' ->
  step_ok x (set_io x c') b (map (act_of (remotechan x)) evs).
Proof.
  intros [] Hb (Hx & w & w' & E & E' & Hu & Hf). split; try done; [|apply spent_acts|intros Hg Hw; left; by apply p_keep0].
  split; [done|]. exists w, w'. split_and!; try done. intros fd Hfd. rewrite delivered_acts. by apply Hf.
Qed.

Lemma other_delivered fd fd' evs : Forall (sends fd) evs -> fd <> fd' -> delivered fd' evs = [].
Proof.
  intros H Hne. induction H as [|e evs He _ IH]; [done|]. unfold delivered in *. cbn. rewrite IH, app_nil_r.
  destruct e; try done. cbn in *. subst. by rewrite (proj2 (Z.eqb_neq _ _)).
Qed.
Lemma shape_delivered c fd fd' ok evs c' : fds_ok c -> fd = writefd c \/ fd = errfd c -> shape fd c ok evs c' -> fd <> fd' -> delivered fd' evs = [].
Proof.
  intros Hok Hfd Hs Hne. destruct ok; cbn in Hs; [destruct Hs; by eapply other_delivered|].
  destruct Hs as (tail & -> & _ & Ht). rewrite delivered_app, (other_delivered fd fd' tail); [|by apply adjust_sends|done].
  destruct (close_chan_fd_ok c fd SHUT_WR Hok) as (w & r & e & evs & -> & K); [unfold closable; destruct Hfd; auto 7|].
  by rewrite quiet_delivered by apply K.
Qed.

Section session.
Context (hv : bool) (malloc_ok : Z -> bool).

Lemma steps_write x b w ans cb : life_ok x -> ready_at N b [] -> get_buf w (io x) = Some cb ->
  0 <= match w with Write => writefd (io x) | Extra => errfd (io x) end ->
  answer_ok (ans cb) (write_limit hv cb []) -> (gentle -> ans cb <> Failed) ->
  steps (write_out W hv w ans) (fun _ x' => forall n c', ans cb = Wrote n -> get_buf w (io x') = Some c' ->
    Circ.used c' = Circ.used cb - Z.min (Circ.used cb) n) x b.
Proof.
  intros Hl Hb Hcb Hfd Hans Hg. set (fd := match w with Write => writefd (io x) | Extra => errfd (io x) end) in *.
  destruct (writechannel_spec W hv fd w (io x) cb None (ans cb)) as (ok & more & c' & evs & E & Ha & _);
    [apply Hl|done|cbn; pose proof (l_owed _ Hl); lia|done|].
  eapply (lwp_io N _ tt c' evs); [done|done|by rewrite Hcb; fold fd; rewrite E|]. intros b' Hb'.
  destruct Ha as [A1 A2 (cb' & Hcb' & Hst) A4 A5 A6 A7 A8 A9]. split; [|exact A5]. cbn in A2, Hst. rewrite drop_nil, !app_nil_r in Hst.
  assert (Hex : extrabuf c' = None <-> extrabuf (io x) = None).
  { destruct w; [pose proof (A9 Extra ltac:(done)) as Hx; cbn in Hx; by rewrite Hx|]. cbn in Hcb, Hcb'. by rewrite Hcb, Hcb'. }
  assert (Hfd' : fd = writefd (io x) \/ (fd = errfd (io x) /\ extrabuf (io x) <> None)).
  { unfold fd. destruct w; [by left|right]. split; [done|]. cbn in Hcb. by rewrite Hcb. }
  apply step_shaped; [|done|].
  - eapply (shape_ok x c' evs ok fd); try done; [cbn in A4; pose proof (l_owed _ Hl); lia|].
    intros Hge. destruct ok; [done|]. by destruct (A7 eq_refl), (Hg Hge).
  - split.
    { destruct w; [pose proof (A9 Extra ltac:(done)) as Hx; cbn in Hx; by rewrite Hx|]. cbn in Hcb, Hcb'. rewrite Hcb, Hcb'. cbn [held].
      apply (f_equal (@length Z)) in Hst. rewrite length_app in Hst.
      pose proof (Circ.contents_length cb (proj1 (ok_bufs _ _ (l_ok _ Hl) Extra cb Hcb))).
      pose proof (Circ.contents_length cb' (proj1 (ok_bufs _ _ A1 Extra cb' Hcb'))). lia. }
    destruct w; cbn in Hcb, Hcb'.
    + exists cb, cb'. split_and!; try done.
      * apply (f_equal (@length Z)) in Hst. rewrite length_app in Hst.
        pose proof (Circ.contents_length cb (proj1 (ok_bufs _ _ (l_ok _ Hl) Write cb Hcb))).
        pose proof (Circ.contents_length cb' (proj1 (ok_bufs _ _ A1 Write cb' Hcb'))). lia.
      * intros fd' (H0 & H1 & _). assert (fd' = fd) as -> by (unfold fd in *; lia). done.
    + destruct (ok_write _ _ (l_ok _ Hl)) as [wb Hwb]. exists wb, wb. split_and!; try done.
      * rewrite <- Hwb. by apply (A9 Write).
      * intros fd' (H0 & _ & H2). assert (fd <> fd') by (destruct H2 as [H2|H2]; [congruence|exact H2]).
        rewrite (shape_delivered (io x) fd fd' ok evs c'); try done; [apply Hl|]. unfold fd. auto.
Qed.

(** ** check_close *)

Context (is_server has_check has_handler : bool) (Hgentle : gentle -> has_check = false).

Lemma steps_nop (R : unit -> chan -> Prop) x b : life_ok x -> ready_at N b [] -> R tt x -> steps (mret tt) R x b.
Proof. apply steps_ret. Qed.

Lemma steps_allowed v x b : life_ok x -> ready_at N b [] ->
  steps (close_allowed has_check v) (fun a _ => has_check = false -> a = true) x b.
Proof.
  intros Hl Hb. unfold close_allowed. eapply steps_bind; [by apply (steps_chan (fun y z => y = x /\ z = x))|].
  intros y x' b' Hl' Hb' _ [-> ->]. apply steps_if; intros Hc; [by apply steps_ret|].
  apply lwp_bind, lwp_modify, lwp_ret. split; [|by intros Hh; rewrite Hh in Hc]. apply step_flags; try done; [destruct Hl; by split|]. split; try done. cbn. lia.
Qed.

Lemma steps_pending x b : life_ok x -> ready_at N b [] ->
  steps pending (fun p x' => x' = x /\ write_pending (io x) = Ok p /\ (p = false -> 0 <= writefd (io x) -> held (writebuf (io x)) = 0)) x b.
Proof.
  intros Hl Hb. destruct (ok_write _ _ (l_ok _ Hl)) as [w Hw]. destruct (ok_bufs _ _ (l_ok _ Hl) Write w Hw) as [Hi _].
  pose proof (Circ.i_used _ Hi).
  assert (Hp : exists p, write_pending (io x) = Ok p /\ (p = false -> 0 <= writefd (io x) -> held (writebuf (io x)) = 0)).
  { unfold write_pending. rewrite Hw. unfold Circ.cbuf_getused. cbn [held].
    destruct (Z.leb_spec 0 (writefd (io x))), (Z.ltb_spec 0 (Circ.used w)); cbn [andb]; eexists; (split; [reflexivity|]); intros; try done; lia. }
  destruct Hp as (p & E & Hp). exists p, x, b, []. unfold pending. cbn [fst]. rewrite E. split; [done|]. split; [by apply step_refl|done].
Qed.

Lemma steps_flush x b rp : life_ok x -> ready_at N b [] ->
  steps (if flushing x then
         _ ← (if (0 <=? readfd (io x)) && negb (rp (readfd (io x))) then close_fd (readfd (io x)) SHUT_RD else mret tt);
         x ← the_chan;
         if ERRFD_IS_READ (io x) && (0 <=? errfd (io x)) && negb (rp (errfd (io x)))
         then close_fd (errfd (io x)) SHUT_RD else mret tt
       else mret tt) (fun _ _ => True) x b.
Proof.
  intros Hl Hb. apply steps_if; intros _; [|by apply steps_ret].
  eapply (steps_bind _ _ (fun _ _ => True)).
  - apply steps_if; intros _; [|by apply steps_ret]. apply steps_close; try done; [by left|]. intros _ _. left. by left.
  - intros _ x1 b1 Hl1 Hb1 _ _. eapply steps_bind; [by apply (steps_chan (fun y z => y = x1 /\ z = x1))|].
    intros y x2 b2 Hl2 Hb2 _ [-> ->]. apply steps_if; intros _; [|by apply steps_ret].
    apply steps_close; try done; [right; right; auto|]. intros _ _. left. by right.
Qed.

(** Removing a channel: its descriptors are closed already. *)
Lemma steps_remove x b : life_ok x -> ready_at N b [] -> sent_close x = true ->
  steps (remove_channel is_server) (fun _ x' => x' = x) x b.
Proof.
  intros Hl Hb Hc. destruct (l_close _ Hl Hc) as (_ & Hr & Hw & He). unfold remove_channel.
  eapply steps_bind; [by apply (steps_chan (fun y z => y = x /\ z = x))|]. intros y x' b' Hl' Hb' _ [-> ->].
  apply steps_if; intros _; [|by apply steps_ret]. apply lwp_log. rewrite Hr, Hw, He. split; [|done].
  pose proof (step_refl x b' Hl' Hb') as [S1 S2 S3 S4 S5 S6 S7 S8]. split; try done. split; try done; [cbn; lia|by repeat constructor].
Qed.

(** The channel goes away, or something is left to write. *)
Definition settled (removed : bool) (x : chan) : Prop :=
  if removed then sent_close x = true /\ recv_close x = true
  else has_check = false -> recv_close x = true -> write_pending (io x) = Ok true.

(** The part of [check_close] after the test for removal. *)
Lemma steps_winding (allowed p : bool) x b : life_ok x -> ready_at N b [] -> write_pending (io x) = Ok p ->
  (p = false -> 0 <= writefd (io x) -> held (writebuf (io x)) = 0) -> (has_check = false -> allowed = true) ->
  recv_close x && negb p && allowed = false ->
  steps (_ ← (if (recv_eof (io x) && negb p) || (has_check && allowed)
         then close_fd (writefd (io x)) SHUT_WR else mret tt);
    x ← the_chan;
    _ ← (if negb (sent_eof x) && (readfd (io x) =? FD_CLOSED) && (ERRFD_IS_WRITE (io x) || (errfd (io x) =? FD_CLOSED))
         then send_msg_channel_eof else mret tt);
    x ← the_chan;
    p ← pending;
    _ ← (if (readfd (io x) =? FD_CLOSED) && (writefd (io x) =? FD_CLOSED) &&
            (ERRFD_IS_WRITE (io x) || (errfd (io x) =? FD_CLOSED)) && negb (sent_close x) && allowed && negb p
         then send_msg_channel_close has_handler else mret tt);
    mret false) settled x b.
Proof using HN Hgentle.
  intros Hl Hb Ep Hp Hal Hno. set (stays := has_check = false -> recv_close x = true -> p = true).
  assert (Hst : stays).
  { intros Hh Hr. rewrite Hr, (Hal Hh) in Hno. by destruct p. }
  eapply (steps_bind _ _ (fun _ x' => has_check = false -> recv_close x = true -> io x' = io x)).
  - apply steps_if; [|intros _; by apply steps_ret]. intros Hc. apply steps_close; try done; [right; by left| |].
    + intros Hg Hw. right. rewrite (Hgentle Hg) in Hc. cbn [andb orb] in Hc. rewrite orb_false_r in Hc.
      apply andb_true_iff in Hc as [He Hnp%negb_true_iff]. split; [by apply Hp|done].
    + intros Hh Hr. rewrite (Hst Hh Hr), Hh in Hc. by rewrite andb_false_r in Hc.
  - intros _ x4 b4 Hl4 Hb4 Hs4 Hk4. eapply steps_bind; [by apply (steps_chan (fun y z => y = x4 /\ z = x4))|].
    intros y x4' b4' Hl4' Hb4' _ [-> ->]. eapply (steps_bind _ _ (fun _ x' => io x' = io x4)).
    { apply steps_if; [|intros _; by apply steps_ret].
      intros [[He%negb_true_iff Hr%Z.eqb_eq]%andb_true_iff Herr]%andb_true_iff. by apply steps_eof. }
    intros _ x5 b5 Hl5 Hb5 Hs5 Hk5. eapply steps_bind; [by apply (steps_chan (fun y z => y = x5 /\ z = x5))|].
    intros y x5' b5' Hl5' Hb5' _ [-> ->]. eapply steps_bind; [by apply steps_pending|].
    intros p' x6 b6 Hl6 Hb6 _ (-> & Ep' & Hp').
    eapply (steps_bind _ _ (fun _ x' => has_check = false -> recv_close x = true -> io x' = io x)).
    { apply steps_if; [|intros _; apply steps_ret; try done; intros; rewrite Hk5; auto].
      intros [[[[[Hr%Z.eqb_eq Hw%Z.eqb_eq]%andb_true_iff _]%andb_true_iff Hc%negb_true_iff]%andb_true_iff _]%andb_true_iff Hnp%negb_true_iff]%andb_true_iff.
      eapply steps_mono; [apply steps_send_close; try done|]; [intros _ H0; by rewrite Hw in H0|].
      intros ? ? _ Hh Hrc. rewrite Hk5, (Hk4 Hh Hrc), Ep, (Hst Hh Hrc) in Ep'. congruence. }
    intros _ x7 b7 Hl7 Hb7 Hs7 Hk7. apply steps_ret; try done. intros Hh Hrc.
    rewrite (e_close _ _ Hs7), (e_close _ _ Hs5), (e_close _ _ Hs4) in Hrc. rewrite (Hk7 Hh Hrc), Ep. by rewrite (Hst Hh Hrc).
Qed.

Lemma steps_check_close v rp x b : life_ok x -> ready_at N b [] ->
  steps (check_close is_server has_check has_handler v rp) settled x b.
Proof using HN Hgentle.
  intros Hl Hb. unfold check_close. eapply steps_bind; [by apply steps_allowed|].
  intros allowed x1 b1 Hl1 Hb1 _ Hal. eapply steps_bind; [by apply (steps_chan (fun y z => y = x1 /\ z = x1))|].
  intros y x1' b1' Hl1' Hb1' _ [-> ->]. eapply steps_bind; [by apply steps_flush|].
  intros _ x2 b2 Hl2 Hb2 _ _. eapply steps_bind; [by apply (steps_chan (fun y z => y = x2 /\ z = x2))|].
  intros y x2' b2' Hl2' Hb2' _ [-> ->]. eapply steps_bind; [by apply steps_pending|].
  intros p x3 b3 Hl3 Hb3 _ (-> & Ep & Hp). apply steps_if; [|intros Hno; by apply steps_winding].
  intros [[Hrc Hnp%negb_true_iff]%andb_true_iff _]%andb_true_iff.
  eapply (steps_bind _ _ (fun _ x => sent_close x = true)).
  - apply steps_if; [|intros ?%negb_false_iff; by apply steps_ret].
    intros ?%negb_true_iff. apply steps_send_close; try done. intros Hg Hw. split; [by apply Hp|by apply Hl2].
  - intros _ x4 b4 Hl4 Hb4 Hs4 Hc4. eapply steps_bind; [by apply steps_remove|]. intros _ x5 b5 Hl5 Hb5 Hs5 ->.
    apply steps_ret; try done. split; [done|]. by rewrite (e_close _ _ Hs4).
Qed.

(** ** Rounds *)

Definition reads_ok (rd : Z -> read_answer) : Prop :=
  forall n, match rd n with Got bs => Forall is_u8 bs /\ 1 <= zlen bs <= n | _ => True end.
Definition writes_ok (ans : Circ.circbuffer -> answer) : Prop :=
  forall cb, answer_ok (ans cb) (write_limit hv cb []) /\ (gentle -> ans cb <> Failed).
Record round_ok (r : round) : Prop := mkRoundOk {
  r_out : reads_ok (read_out r); r_err : reads_ok (read_err r);
  r_in : writes_ok (write_in r); r_extra : writes_ok (write_err r)
}.

(** One of the four descriptors. *)
Lemma steps_part (c : bool) (m : L unit) (R : bool -> chan -> Prop) x b : life_ok x -> ready_at N b [] ->
  (c = true -> steps m (fun _ x' => R true x') x b) -> (c = false -> R false x) ->
  steps (if c then _ ← m; mret true else mret false) R x b.
Proof.
  intros Hl Hb H1 H2. apply steps_if; intros Hc; [|by apply steps_ret; auto].
  eapply steps_bind; [by apply H1|]. intros u x' b' Hl' Hb' _ HR. by apply steps_ret.
Qed.

(** What is buffered for a descriptor that is open. *)
Definition due (fd : Z) (b : option Circ.circbuffer) : Z := if 0 <=? fd then held b else 0.
Definition backlog (x : chan) : Z := due (writefd (io x)) (writebuf (io x)) + due (errfd (io x)) (extrabuf (io x)).
Lemma due_bounds w x fd : life_ok x -> 0 <= due fd (get_buf w (io x)) <= held (get_buf w (io x)).
Proof. intros Hl. pose proof (held_nonneg W (io x) w (l_ok _ Hl)). unfold due. destruct (0 <=? fd); lia. Qed.
Lemma due_mono fd fd' b b' : kept_or_closed fd fd' -> 0 <= held b -> 0 <= held b' <= held b -> due fd' b' <= due fd b.
Proof. intros [-> | ->] H0 H1; unfold due; [destruct (0 <=? fd); lia|]. unfold FD_CLOSED. cbn. destruct (0 <=? fd); lia. Qed.
(** A smaller buffer, if the descriptor is open before. *)
Lemma due_less fd fd' b b' : kept_or_closed fd fd' -> 0 <= fd -> 0 <= held b' < held b -> due fd' b' < due fd b.
Proof. intros [-> | ->] H0 H1; unfold due; rewrite (proj2 (Z.leb_le 0 fd)) by done; [lia|]. unfold FD_CLOSED. cbn. lia. Qed.
Lemma due_pos fd b : 0 < due fd b -> 0 <= fd /\ exists c, b = Some c /\ 0 < Circ.used c.
Proof.
  unfold due. destruct (Z.leb_spec 0 fd); [|lia]. intros Hu. split; [done|]. destruct b as [c|]; [by exists c|cbn in Hu; lia].
Qed.

Lemma step_dues x x' b l : life_ok x -> step_ok x x' b l ->
  due (writefd (io x')) (writebuf (io x')) <= due (writefd (io x)) (writebuf (io x)) /\
  due (errfd (io x')) (extrabuf (io x')) <= due (errfd (io x)) (extrabuf (io x)).
Proof.
  intros Hl Hs. pose proof (held_nonneg W (io x') Write (l_ok _ (o_life _ _ _ _ Hs))). pose proof (held_nonneg W (io x') Extra (l_ok _ (o_life _ _ _ _ Hs))).
  pose proof (held_nonneg W (io x) Write (l_ok _ Hl)). pose proof (held_nonneg W (io x) Extra (l_ok _ Hl)). cbn [get_buf] in *.
  destruct (o_flows _ _ _ _ Hs) as (Hx & w & w' & E & E' & Hu & _).
  split; (apply due_mono; [apply Hs|lia|]); [|lia]. rewrite E, E' in *. cbn [held] in *. lia.
Qed.
Lemma step_backlog x x' b l : life_ok x -> step_ok x x' b l -> backlog x' <= backlog x.
Proof. intros Hl Hs. destruct (step_dues x x' b l Hl Hs). unfold backlog. lia. Qed.

(** What [write_pending] tests. *)
Lemma pending_backlog x : life_ok x -> write_pending (io x) = Ok (0 <? backlog x).
Proof.
  intros Hl. destruct (ok_write _ _ (l_ok _ Hl)) as [w Hw]. pose proof (due_bounds Write x (writefd (io x)) Hl). pose proof (due_bounds Extra x (errfd (io x)) Hl).
  cbn [get_buf] in *. unfold write_pending, backlog, due, Circ.cbuf_getused in *. rewrite Hw in *. cbn [held] in *.
  destruct (Z.leb_spec 0 (writefd (io x))), (Z.ltb_spec 0 (Circ.used w)); cbn [andb];
    try (rewrite (proj2 (Z.ltb_lt _ _)); [done|destruct (0 <=? errfd (io x)); lia]);
    (destruct (extrabuf (io x)) as [e|]; cbn [held] in *; [destruct (0 <=? errfd (io x)), (Z.ltb_spec 0 (Circ.used e))|destruct (0 <=? errfd (io x))]; cbn [andb];
       first [rewrite (proj2 (Z.ltb_lt _ _)); [done|lia]|rewrite (proj2 (Z.ltb_ge _ _)); [done|lia]]).
Qed.

(** The descriptors are ready and take some of what is buffered. *)
Definition takes (ans : Circ.circbuffer -> answer) : Prop := forall cb, 0 < Circ.used cb -> exists n, ans cb = Wrote n /\ 1 <= n.
Definition pushes (r : round) : Prop := (forall fd, writefds r fd = true) /\ takes (write_in r) /\ takes (write_err r).

(** Writing to one of them. *)
Lemma steps_push w x b ready ans cb : life_ok x -> ready_at N b [] -> get_buf w (io x) = Some cb -> writes_ok ans ->
  steps (if (0 <=? match w with Write => writefd (io x) | Extra => errfd (io x) end) && ready
         then _ ← write_out W hv w ans; mret true else mret false)
    (fun d x' => (d = false -> x' = x) /\ (ready = true -> takes ans ->
       0 < due (match w with Write => writefd (io x) | Extra => errfd (io x) end) (get_buf w (io x)) -> d = true /\ backlog x' < backlog x)) x b.
Proof using HN.
  intros Hl Hb Hcb Hans. set (fd := match w with Write => writefd (io x) | Extra => errfd (io x) end). apply steps_part; try done.
  - intros [Hfd%Z.leb_le _]%andb_true_iff. eapply lwp_mono; [by eapply (steps_write x b w ans cb); [..|apply Hans|apply Hans]|].
    intros _ x' b' l [Hs HR]. split; [done|]. split; [done|]. intros _ Ht Hd. split; [done|].
    destruct (step_dues x x' b' l Hl Hs) as [D1 D2]. destruct (due_pos _ _ Hd) as (_ & c & Ec & Hu). rewrite Hcb in Ec. injection Ec as <-.
    destruct (Ht cb Hu) as (n & En & Hn). pose proof (held_nonneg W (io x') w (l_ok _ (o_life _ _ _ _ Hs))) as H0.
    assert (Hc' : exists c', get_buf w (io x') = Some c').
    { destruct w; [apply (ok_write _ _ (l_ok _ (o_life _ _ _ _ Hs)))|]. cbn in *. destruct (extrabuf (io x')) as [c'|] eqn:E; [by exists c'|].
      apply (e_extra _ _ (o_same _ _ _ _ Hs)) in E. congruence. }
    destruct Hc' as [c' Hc']. pose proof (HR n c' En Hc') as Hlt. rewrite Hc' in H0. cbn [held] in H0. unfold backlog.
    destruct w; cbn [get_buf] in *.
    + assert (due (writefd (io x')) (writebuf (io x')) < due (writefd (io x)) (writebuf (io x))); [|lia].
      apply due_less; [apply Hs|done|]. rewrite Hcb, Hc'. cbn [held]. lia.
    + assert (due (errfd (io x')) (extrabuf (io x')) < due (errfd (io x)) (extrabuf (io x))); [|lia].
      apply due_less; [apply Hs|done|]. rewrite Hcb, Hc'. cbn [held]. lia.
  - intros Hc. split; [done|]. intros -> _ [Hfd _]%due_pos. rewrite andb_true_r in Hc. apply Z.leb_gt in Hc. lia.
Qed.

Lemma steps_round r x b : life_ok x -> ready_at N b [] -> round_ok r ->
  steps (channelio is_server has_check has_handler W hv r)
    (fun removed x' => (removed = true -> sent_close x' = true /\ recv_close x' = true) /\
       (settled removed x' \/ (removed = false /\ x' = x)) /\
       (pushes r -> 0 < backlog x -> settled removed x' /\ backlog x' < backlog x)) x b.
Proof using HN Hgentle.
  intros Hl Hb [Ho He Hi Hx]. unfold channelio.
  eapply steps_bind; [by apply (steps_chan (fun y z => y = x /\ z = x))|]. intros y x0 b0 _ Hb0 _ [-> ->].
  eapply (steps_bind_ok _ _ (fun d x' => d = false -> x' = x)).
  { apply steps_part; try done. intros [Hr%Z.leb_le _]%andb_true_iff. eapply steps_mono; [apply steps_data; try done; apply Ho|done]. }
  intros d1 x1 b1 l1 S1 F1. pose proof (o_life _ _ _ _ S1) as Hl1.
  eapply steps_bind; [apply (steps_chan (fun y z => y = x1 /\ z = x1)); [done|apply S1|done]|]. intros y x1' b1' _ Hb1 _ [-> ->].
  eapply (steps_bind_ok _ _ (fun d x' => d = false -> x' = x1)).
  { apply steps_part; try done. intros [[Hr1 Hr2%Z.leb_le]%andb_true_iff _]%andb_true_iff.
    eapply steps_mono; [apply steps_data; try done; [|apply He]|done]. split; [done|]. unfold ERRFD_IS_READ in Hr1. by destruct (extrabuf (io x1)). }
  intros d2 x2 b2 l2 S2 F2. pose proof (step_trans _ _ _ _ _ _ _ S1 S2) as S12. pose proof (o_life _ _ _ _ S2) as Hl2.
  eapply steps_bind; [apply (steps_chan (fun y z => y = x2 /\ z = x2)); [done|apply S2|done]|]. intros y x2' b2' _ Hb2 _ [-> ->].
  destruct (ok_write _ _ (l_ok _ Hl2)) as [w2 Hw2].
  eapply steps_bind_ok; [by apply (steps_push Write x2 b2' (writefds r (writefd (io x2))) (write_in r) w2)|].
  intros d3 x3 b3 l3 S3 [F3 P3]. pose proof (o_life _ _ _ _ S3) as Hl3.
  eapply steps_bind; [apply (steps_chan (fun y z => y = x3 /\ z = x3)); [done|apply S3|done]|]. intros y x3' b3' _ Hb3 _ [-> ->].
  eapply (steps_bind_ok _ _ (fun d x' => (d = false -> x' = x3) /\ (writefds r (errfd (io x3)) = true -> takes (write_err r) ->
    0 < due (errfd (io x3)) (extrabuf (io x3)) -> d = true /\ backlog x' < backlog x3))).
  { unfold ERRFD_IS_WRITE, ERRFD_IS_READ. destruct (extrabuf (io x3)) as [cb|] eqn:Ecb; cbn [negb andb].
    - rewrite <- Ecb. by apply (steps_push Extra x3 b3' (writefds r (errfd (io x3))) (write_err r) cb).
    - apply steps_ret; try done. split; [done|]. intros _ _ (_ & c & ? & _)%due_pos. done. }
  intros d4 x4 b4 l4 S4 [F4 P4].
  assert (Hprog : pushes r -> 0 < backlog x -> d1 || d2 || d3 || d4 = true /\ backlog x4 < backlog x).
  { intros (R1 & R2 & R3) Hpos. pose proof (step_backlog _ _ _ _ Hl S12) as L2. pose proof (step_backlog _ _ _ _ Hl2 S3) as L3.
    pose proof (step_backlog _ _ _ _ Hl3 S4) as L4. destruct (step_dues _ _ _ _ Hl2 S3) as [D3 _].
    specialize (P3 (R1 _) R2). specialize (P4 (R1 _) R3). cbn [get_buf] in P3.
    destruct (Z.lt_ge_cases (backlog x2) (backlog x)) as [Hlt|Hge].
    { split; [|lia]. destruct d1, d2; try done. rewrite (F2 eq_refl), (F1 eq_refl) in Hlt. lia. }
    destruct (Z.lt_ge_cases 0 (due (writefd (io x2)) (writebuf (io x2)))) as [Hw|Hw].
    { destruct (P3 Hw) as [-> ?]. split; [by rewrite orb_true_r|lia]. }
    destruct (Z.lt_ge_cases (backlog x3) (backlog x2)) as [Hlt|Hge3].
    { split; [|lia]. destruct d3; [by rewrite orb_true_r|]. rewrite (F3 eq_refl) in Hlt. lia. }
    destruct P4 as [-> ?]; [unfold backlog in *; lia|]. split; [by rewrite orb_true_r|lia]. }
  apply steps_if.
  - intros _. eapply lwp_mono; [apply steps_check_close; apply S4|]. intros removed x5 b5 l5 [S5 Hset]. split; [done|]. split_and!; [by intros ->|by left|].
    intros Hp Hpos. split; [done|]. pose proof (step_backlog _ _ _ _ (o_life _ _ _ _ S4) S5). destruct (Hprog Hp Hpos). lia.
  - intros Hno. apply steps_ret; [apply S4|apply S4|]. split_and!; [done| |].
    + right. split; [done|]. destruct d1, d2, d3, d4; try done. rewrite F4, F3, F2, F1; done.
    + intros Hp Hpos. destruct (Hprog Hp Hpos) as [Ht _]. by rewrite Ht in Hno.
Qed.
End session.
End life.
