(* ===== verification/ChannelTheorems.v ===== *)
(** * Lives of channels

    What holds of every channel of [ChannelLife], for any sequence of rounds of the main
    loop and of messages of the peer: the protocol of EOF and CLOSE, the window of the peer,
    each descriptor closed once, delivery before removal, removal once both sides closed. *)

From Stdlib Require Import ZArith Lia Bool.
From stdpp Require Import base numbers list strings relations.
From S2P Require Import Prelude DropbearBuffer DropbearBufferProofs CircBuffer Channel ChannelProofs ChannelLife ChannelLifeProofs.
Open Scope Z_scope.

(** ** Inputs *)

(** The data of a message. *)
Definition payload_data (payload : buffer) : list Z :=
  let rest := drop (Z.to_nat (pos payload)) (data payload) in
  take (Z.to_nat (LOAD32H (take 4 rest))) (drop 4 rest).
Lemma holds_data payload d : holds payload d -> payload_data payload = d.
Proof.
  intros [Hwf Hint _ Hbody]. unfold payload_data. rewrite Hint, Nat2Z.id, drop_drop. pose proof (wf_pos _ Hwf).
  replace (Z.to_nat (pos payload) + 4)%nat with (Z.to_nat (pos payload + 4)) by lia. exact Hbody.
Qed.

Lemma rwp_wp {A} t (m : M A) b (Q : A * buffer -> Prop) : wp t m (fun a b => Q (a, b)) b -> rwp t (m b) Q.
Proof. unfold wp. by destruct (m b) as [[a b']| |]. Qed.

(** What a channel receives for its program, and the window the peer grants. *)
Definition received_of (i : input) : list Z := match i with PeerData Write payload _ => payload_data payload | _ => [] end.
Definition received (ins : list input) : list Z := concat (map received_of ins).
Definition granted_of (i : input) : Z := match i with PeerAdjust incr => incr | _ => 0 end.
Fixpoint granted (ins : list input) : Z := match ins with [] => 0 | i :: ins => granted_of i + granted ins end.

Section runs.
Context (W N : Z) (gentle : Prop) (HN : 13 <= N).
Context (hv : bool) (malloc_ok : Z -> bool) (Hm : malloc_ok W = true).
Context (is_server has_check has_handler : bool) (Hgentle : gentle -> has_check = false).

(** System calls answer what they may, the peer keeps to the window and to its EOF; no write
    fails in a [gentle] run. *)
Definition input_ok (i : input) (x : chan) : Prop :=
  match i with
  | Round r => round_ok gentle hv r
  | PeerData w payload ans =>
      recv_eof (io x) = false /\ holds payload (payload_data payload) /\ zlen (payload_data payload) <= recvwindow (io x) /\
      (forall cb, get_buf w (io x) = Some cb -> answer_ok ans (write_limit hv cb (payload_data payload))) /\ (gentle -> ans <> Failed)
  | PeerAdjust incr => is_u32 incr
  | _ => True
  end.

(** Inputs that come one after the other, none after the removal. *)
Fixpoint inputs_ok (ins : list input) (s : chan * buffer) : Prop :=
  match ins with
  | [] => True
  | i :: ins => input_ok i s.1 /\
      match handle is_server has_check has_handler W hv malloc_ok i s with
      | Ok (removed, s, _) => if removed : bool then ins = [] else inputs_ok ins s
      | _ => True
      end
  end.

(** A payload that is long enough for the data it announces. *)
Lemma holds_intro payload : wf payload ->
  pos payload + 4 + LOAD32H (take 4 (drop (Z.to_nat (pos payload)) (data payload))) <= len payload ->
  holds payload (payload_data payload).
Proof.
  intros Hwf Hlen. pose proof (wf_pos _ Hwf). pose proof (wf_len _ Hwf). pose proof (wf_data _ Hwf).
  assert (Hu : is_u32 (LOAD32H (take 4 (drop (Z.to_nat (pos payload)) (data payload))))) by (apply LOAD32H_u32, wf_read; [done|lia]).
  assert (Hn : zlen (payload_data payload) = LOAD32H (take 4 (drop (Z.to_nat (pos payload)) (data payload)))).
  { unfold payload_data. rewrite length_take, !length_drop. unfold is_u32 in Hu. lia. }
  split; [done|by rewrite Hn|lia|]. unfold payload_data at 2. rewrite drop_drop.
  replace (Z.to_nat (pos payload) + 4)%nat with (Z.to_nat (pos payload + 4)) by lia. f_equal. lia.
Qed.

(** Data that is not as announced, or outside of the window, ends the session. *)
Lemma bad_data c fd w cb payload ans : wf payload -> recv_eof c = false -> get_buf w c = Some cb -> 0 <= fd ->
  let n := LOAD32H (take 4 (drop (Z.to_nat (pos payload)) (data payload))) in
  ~ (pos payload + 4 + n <= len payload /\ n <= recvwindow c) ->
  exists msg, common_recv_msg_channel_data W hv malloc_ok c fd w payload ans = Exit msg.
Proof.
  intros Hwf He Hcb Hfd n Hbad. unfold common_recv_msg_channel_data. rewrite He, Hcb, (proj2 (Z.ltb_ge fd 0)) by done.
  assert (Hi : rwp Partial (buf_getint payload) (fun r => r = (n, set_pos payload (pos payload + 4)) /\ pos payload + 4 <= len payload)).
  { apply rwp_wp, wp_getint; [done|done|]. intros ? v _ ->. done. }
  destruct (buf_getint payload) as [r|m|]; [|by exists m|done]. destruct Hi as [-> H4]. cbn [mbind res_bind].
  destruct (_ <? _); [by eexists|]. unfold Circ.dropbear_assert at 1. destruct (Z.leb_spec n (recvwindow c)); [|by eexists].
  cbn [mbind res_bind]. unfold Circ.dropbear_assert at 1. destruct (_ <=? _); [|by eexists]. cbn [mbind res_bind].
  assert (Hp : rwp Partial (buf_getptr n (set_pos payload (pos payload + 4))) (fun _ => False)).
  { apply rwp_wp. pose proof (wf_pos _ Hwf). pose proof (wf_len _ Hwf).
    assert (Hn : is_u32 n) by (apply LOAD32H_u32, wf_read; [done|lia]).
    apply wp_getptr; [apply wf_set_pos; [done|lia]|done|done|]. cbn. lia. }
  destruct (buf_getptr _ _) as [r|m|]; [done|by exists m|done].
Qed.

(** The same for a peer that may send anything: only what the system calls answer is
    assumed, and that messages are buffers of bytes. *)
Definition input_sys (i : input) (x : chan) : Prop :=
  match i with
  | Round r => round_ok gentle hv r
  | PeerData w payload ans =>
      wf payload /\ (forall cb, get_buf w (io x) = Some cb -> answer_ok ans (write_limit hv cb (payload_data payload))) /\ (gentle -> ans <> Failed)
  | PeerAdjust incr => is_u32 incr
  | _ => True
  end.
Fixpoint inputs_sys (ins : list input) (s : chan * buffer) : Prop :=
  match ins with
  | [] => True
  | i :: ins => input_sys i s.1 /\
      match handle is_server has_check has_handler W hv malloc_ok i s with
      | Ok (removed, s, _) => if removed : bool then ins = [] else inputs_sys ins s
      | _ => True
      end
  end.

(** ** The invariant of runs *)

Definition steady (x : chan) : Prop := 0 <= writefd (io x) \/ (held (writebuf (io x)) = 0 /\ recv_eof (io x) = true).

(** The channel [x0] became [x], having done [l], received [d] and been granted [credit];
    of the data it took [acc], and all of it while its descriptor is open. *)
Record run_ok (x0 x : chan) (b : buffer) (l : list act) (d : list Z) (credit : Z) : Prop := mkRun {
  v_life : life_ok W gentle x; v_buf : ready_at N b [];
  v_follows : follows (phase_of x0) l = Some (phase_of x);
  v_ledger : ledger (io x0) (closes l) (io x);
  v_extra : extrabuf (io x) = None <-> extrabuf (io x0) = None;
  v_write : kept_or_closed (writefd (io x0)) (writefd (io x)); v_err : kept_or_closed (errfd (io x0)) (errfd (io x));
  v_stream : exists w0 w acc, writebuf (io x0) = Some w0 /\ writebuf (io x) = Some w /\
    acc `prefix_of` d /\ (0 <= writefd (io x) -> acc = d) /\ (gentle -> steady x /\ acc = d) /\
    forall fd, target fd (io x0) -> delivered fd (ios l) ++ Circ.contents w = Circ.contents w0 ++ acc;
  v_window : transwindow x + sent l <= transwindow x0 + credit;
  v_max : transmaxpacket x = transmaxpacket x0; v_remote : remotechan x = remotechan x0;
  v_fits : Forall (fits (remotechan x0) (transmaxpacket x0)) l
}.

Lemma run_start x b : life_ok W gentle x -> ready_at N b [] -> (gentle -> steady x) -> run_ok x x b [] [] 0.
Proof.
  intros Hl Hb Hs. destruct (ok_write _ _ (l_ok _ _ _ Hl)) as [w Hw].
  split; try done; [apply ledger_refl|by left|by left|]. exists w, w, []. split_and!; try done; [auto|].
  intros fd _. cbn. by rewrite app_nil_r.
Qed.
Lemma run_target x0 x b l d c fd : run_ok x0 x b l d c -> target fd (io x0) -> target fd (io x).
Proof. intros []. by apply target_kept. Qed.

(** A part of a handler. *)
Lemma run_step x0 x b l d c x' b' l' : run_ok x0 x b l d c -> step_ok W N gentle x x' b' l' -> run_ok x0 x' b' (l ++ l') d c.
Proof.
  intros Hr [B1 B2 B3 B4 B5 B6 [] B7]. pose proof (fun fd => run_target _ _ _ _ _ _ fd Hr) as Ht.
  destruct Hr as [A1 A2 A3 A4 A5 A6 A7 A8 A9 A10 A11 A12]. split; try done.
  - by rewrite (follows_app _ _ _ _ A3).
  - rewrite closes_app. by eapply ledger_trans.
  - rewrite (e_extra _ _ B5). done.
  - eapply kept_trans; [done|]. apply B5.
  - eapply kept_trans; [done|]. apply B5.
  - destruct A8 as (w0 & w & acc & E0 & E & Hpre & Hopen & Hst & S2), B6 as (_ & w' & w1 & E' & E1 & U & F). rewrite E in E'. injection E' as <-.
    exists w0, w1, acc. split_and!; try done.
    + intros H0. apply Hopen. pose proof (e_write _ _ B5). unfold kept_or_closed, FD_CLOSED in *. lia.
    + intros Hg. destruct (Hst Hg) as [S1 Sd]. split; [|done]. unfold steady in *. rewrite E1. cbn. rewrite (e_eof _ _ B5). destruct S1 as [S1|[S1 S3]].
      * destruct (B7 Hg S1) as [->|[Hh He]]; [by left|right]. rewrite E1 in Hh. by rewrite (e_eof _ _ B5) in He.
      * right. split; [|done]. rewrite E in S1. cbn in S1. pose proof (Circ.i_used _ (proj1 (ok_bufs _ _ (l_ok _ _ _ B1) Write w1 E1))). lia.
    + intros fd Hfd. by rewrite ios_app, delivered_app, <- app_assoc, F, S2 by auto.
  - rewrite sent_app. lia.
  - congruence.
  - congruence.
  - apply Forall_app. split; [done|]. by rewrite <- A11, <- A10.
Qed.
Lemma run_steps {A} (m : L A) R x0 x b l d c : run_ok x0 x b l d c -> steps W N gentle m R x b ->
  exists a x' b' l', m (x, b) = Ok (a, (x', b'), l') /\ run_ok x0 x' b' (l ++ l') d c /\ R a x'.
Proof.
  intros Hr (a & x' & b' & l' & E & Hs & HR). exists a, x', b', l'. split_and!; try done. by eapply run_step.
Qed.

(** A flag of the peer, a larger window. *)
Lemma run_flags x0 x b l d c x' credit : run_ok x0 x b l d c -> life_ok W gentle x' -> phase_of x' = phase_of x ->
  io x' = io x \/ io x' = set_recv_eof (io x) ->
  transwindow x' <= transwindow x + credit -> transmaxpacket x' = transmaxpacket x -> remotechan x' = remotechan x ->
  run_ok x0 x' b l d (c + credit).
Proof.
  intros [A1 A2 A3 A4 A5 A6 A7 A8 A9 A10 A11 A12] Hl Hp Hio Hw Hmx Hrm.
  assert (Ho : writefd (io x') = writefd (io x) /\ readfd (io x') = readfd (io x) /\ errfd (io x') = errfd (io x) /\
    extrabuf (io x') = extrabuf (io x) /\ writebuf (io x') = writebuf (io x) /\ (recv_eof (io x) = true -> recv_eof (io x') = true))
    by (destruct Hio as [-> | ->]; split_and!; done).
  destruct Ho as (O1 & O2 & O3 & O4 & O5 & O6).
  split; rewrite ?O1, ?O3, ?O4, ?O5, ?Hp; try done; try congruence; try lia.
  - destruct A4 as [G1 G2 G3]. split; [done|..]; intros z; unfold has_fd in *; rewrite O1, O2, O3; [apply G2|apply G3].
  - destruct A8 as (w0 & w & acc & E0 & E & Hpre & Hopen & Hst & S2). exists w0, w, acc. split_and!; try done. intros Hg. destruct (Hst Hg) as [S1 Sd]. split; [|done].
    unfold steady in *. rewrite O1, O5. destruct S1 as [?|[? ?]]; auto.
Qed.

(** ** Handlers *)

Definition fd_of (w : which) (c : channel) : Z := match w with Write => writefd c | Extra => errfd c end.

(** Data that was written and stored as [recv_spec] says. *)
Lemma run_shaped x0 x b b' l d c c' evs d' : run_ok x0 x b l d c -> ready_at N b' [] -> shaped W gentle x c' evs ->
  (exists w w' acc', writebuf (io x) = Some w /\ writebuf c' = Some w' /\
     acc' `prefix_of` d' /\ (0 <= writefd c' -> acc' = d') /\ (gentle -> acc' = d') /\
     forall fd, target fd (io x) -> delivered fd evs ++ Circ.contents w' = Circ.contents w ++ acc') ->
  0 <= writefd (io x) \/ d' = [] -> (gentle -> 0 <= writefd (io x)) ->
  run_ok x0 (set_io x c') b' (l ++ map (act_of (remotechan x)) evs) (d ++ d') c.
Proof.
  intros Hr Hb' Hsh (wx & wx' & acc' & Ex & Ex' & Hp' & Ho' & Hs' & F) Hcase Hg0. pose proof (fun fd => run_target _ _ _ _ _ _ fd Hr) as Ht.
  destruct Hr as [A1 A2 A3 A4 A5 A6 A7 A8 A9 A10 A11 A12], Hsh as [P1 P2 P3 P4 P5]. split; try done.
  - by rewrite (follows_app _ _ _ _ A3).
  - rewrite closes_app. by eapply ledger_trans.
  - pose proof (e_extra _ _ P4). cbn in *. tauto.
  - eapply kept_trans; [done|]. apply (e_write _ _ P4).
  - eapply kept_trans; [done|]. apply (e_err _ _ P4).
  - destruct A8 as (w0 & w & acc & E0 & E & Hpre & Hopen & Hst & S2). rewrite E in Ex. injection Ex as <-.
    assert (Hacc : acc = d \/ acc' = []) by (destruct Hcase as [?| ->]; [left; auto|right; by apply prefix_nil_inv]).
    exists w0, wx', (acc ++ acc'). split_and!; try done.
    + destruct Hacc as [-> | ->]; [by apply prefix_app|]. rewrite app_nil_r. by apply prefix_app_r.
    + cbn. intros H0. rewrite (Ho' H0), Hopen; [done|]. pose proof (e_write _ _ P4) as Hk. cbn in Hk. unfold kept_or_closed, FD_CLOSED in *. lia.
    + intros Hg. destruct (Hst Hg) as [S1 ->]. split; [left; cbn; rewrite (P5 Hg); auto|by rewrite Hs'].
    + intros fd Hfd. by rewrite ios_app, delivered_app, delivered_acts, <- app_assoc, F, app_assoc, S2, app_assoc by auto.
  - rewrite sent_app, sent_acts. cbn. lia.
  - apply Forall_app. split; [done|]. rewrite <- A11, <- A10. cbn. apply fits_acts.
Qed.

(** Data that the channel does not take: it has no descriptor for it. *)
Lemma run_ignored x0 x b l d c d' : run_ok x0 x b l d c -> writefd (io x) < 0 \/ d' = [] -> (gentle -> d' = []) -> run_ok x0 x b l (d ++ d') c.
Proof.
  intros [A1 A2 A3 A4 A5 A6 A7 (w0 & w & acc & E0 & E & Hpre & Hopen & Hst & S2) A9 A10 A11 A12] Hcase Hg. split; try done.
  exists w0, w, acc. split_and!; try done; [by apply prefix_app_r| |].
  - intros H0. destruct Hcase as [?| ->]; [lia|]. rewrite app_nil_r. auto.
  - intros Hge. rewrite (Hg Hge), app_nil_r. auto.
Qed.
Lemma ignored_data w payload ans x b : recv_eof (io x) = false -> get_buf w (io x) = None \/ fd_of w (io x) < 0 ->
  recv_msg_channel_data W hv malloc_ok w payload ans (x, b) = Ok (tt, (x, b), []).
Proof.
  intros Heof Hno. unfold recv_msg_channel_data, on_io. cbn [fst snd]. fold (fd_of w (io x)). unfold common_recv_msg_channel_data.
  rewrite Heof. assert (Hx : set_io x (io x) = x) by by destruct x.
  destruct (get_buf w (io x)) as [cb|]; [|by cbn; rewrite Hx]. destruct Hno as [?|Hno]; [done|]. rewrite (proj2 (Z.ltb_lt _ 0)) by done. cbn. by rewrite Hx.
Qed.

Lemma gentle_open x0 x b l d c : run_ok x0 x b l d c -> recv_eof (io x) = false -> gentle -> 0 <= writefd (io x).
Proof.
  intros Hr Heof Hge. destruct (v_stream _ _ _ _ _ _ Hr) as (? & ? & ? & _ & _ & _ & _ & Hs & _). destruct (Hs Hge) as [[?|[_ ?]] _]; [done|congruence].
Qed.

Lemma run_data x0 x b l d c w payload ans : run_ok x0 x b l d c -> input_ok (PeerData w payload ans) x ->
  exists x' b' l', recv_msg_channel_data W hv malloc_ok w payload ans (x, b) = Ok (tt, (x', b'), l') /\
    run_ok x0 x' b' (l ++ l') (d ++ received_of (PeerData w payload ans)) c.
Proof using Hm HN.
  intros Hr (Heof & Hh & Hwin & Hans & Hg). pose proof (v_life _ _ _ _ _ _ Hr) as Hl.
  pose proof (gentle_open _ _ _ _ _ _ Hr Heof) as Hst.
  destruct (decide (get_buf w (io x) = None \/ fd_of w (io x) < 0)) as [Hno|Hyes].
  { exists x, b, []. split; [by apply ignored_data|]. rewrite app_nil_r. apply run_ignored; [done|..].
    - destruct w; [|by right]. destruct Hno as [Hno|Hno]; [|by left]. destruct (ok_write _ _ (l_ok _ _ _ Hl)) as [wb Hwb]. cbn in Hno. congruence.
    - intros Hge. destruct w; [|done]. specialize (Hst Hge). destruct Hno as [Hno|Hno]; cbn in Hno; [|lia].
      destruct (ok_write _ _ (l_ok _ _ _ Hl)) as [wb Hwb]. congruence. }
  destruct (get_buf w (io x)) as [cb|] eqn:Hcb; [|by destruct Hyes; left]. assert (Hfd : 0 <= fd_of w (io x)) by lia. clear Hyes.
  destruct (recv_spec W hv malloc_ok (io x) (fd_of w (io x)) w cb payload (payload_data payload) ans)
    as (c' & pl & evs & cb' & ok & E & K1 & K2 & K3 & K4 & K5 & _ & Ksh & K6); try done; [apply Hl|apply Hl|by apply Hans|].
  assert (Hrun : lwp (recv_msg_channel_data W hv malloc_ok w payload ans)
    (fun _ x' b' l' => x' = set_io x c' /\ ready_at N b' [] /\ l' = map (act_of (remotechan x)) evs) x b).
  { eapply (lwp_io N _ tt c' evs); [apply Hr|done| |by intros]. fold (fd_of w (io x)). by rewrite E. }
  destruct Hrun as ([] & x' & b' & l' & E' & -> & Hb' & ->). exists (set_io x c'), b', (map (act_of (remotechan x)) evs). split; [done|].
  assert (Hok : gentle -> ok = true) by (intros Hge; destruct ok; [done|]; destruct K6 as [_ Ef]; by destruct (Hg Hge)).
  apply (run_shaped x0 x b); try done.
  - apply (shape_ok W gentle x c' evs ok (fd_of w (io x))); try done.
    + destruct w; [by left|right]. cbn in Hcb. by rewrite Hcb.
    + by rewrite K3, Heof.
    + destruct w; [pose proof (K5 Extra ltac:(done)) as Hx; cbn in Hx; by rewrite Hx|]. cbn in Hcb, K4. by rewrite Hcb, K4.
  - destruct w; cbn [get_buf received_of] in *.
    + exists cb, cb', (if ok then payload_data payload else []). split_and!; try done.
      * destruct ok; [done|apply prefix_nil].
      * destruct ok; [done|]. destruct Ksh as (tail & _ & Ef & _). injection Ef as Ew _ _ _. cbn [fd_of] in Ew.
        rewrite close_write_closed in Ew. rewrite Ew. by unfold FD_CLOSED.
      * intros Hge. by rewrite (Hok Hge).
      * intros fd (H0 & H1 & _). assert (fd = fd_of Write (io x)) as -> by (cbn in *; lia). destruct ok; [apply K6|]. rewrite app_nil_r. apply K6.
    + destruct (ok_write _ _ (l_ok _ _ _ Hl)) as [wb Hwb]. exists wb, wb, []. split_and!; try done; [rewrite <- Hwb; by apply (K5 Write)|].
      intros fd (H0 & _ & H2). rewrite app_nil_r, (shape_delivered (io x) (errfd (io x)) fd ok evs c'); try done; [apply Hl|by right|].
      destruct H2 as [H2|H2]; [congruence|exact H2].
  - destruct w; [by left|by right].
Qed.

Lemma bind_modify {A} f (k : L A) s : (_ ← modify f; k) s = k (f s.1, s.2).
Proof. unfold mbind, L_bind, modify. destruct (k (f s.1, s.2)) as [[[a s'] l]| |]; done. Qed.
Lemma life_recv_eof x : life_ok W gentle x -> life_ok W gentle (set_io x (set_recv_eof (io x))).
Proof. intros []. split; cbn; try done; [destruct l_ok; by split|destruct l_fds; by split]. Qed.
Lemma life_recv_close x : life_ok W gentle x -> life_ok W gentle (set_recv_close (set_io x (set_recv_eof (io x)))).
Proof. intros []. split; cbn; try done; [destruct l_ok; by split|destruct l_fds; by split]. Qed.
Lemma life_transwindow x w : life_ok W gentle x -> is_u32 w -> life_ok W gentle (set_transwindow x w).
Proof. intros [] Hw. by split. Qed.

Definition closed_both (removed : bool) (x : chan) : Prop := removed = true -> sent_close x = true /\ recv_close x = true.
Lemma settled_closed removed x : settled has_check removed x -> closed_both removed x.
Proof. unfold settled, closed_both. by intros H ->. Qed.

Lemma run_check x0 x b l d c v rp x' : run_ok x0 x b l d c -> life_ok W gentle x' -> phase_of x' = phase_of x ->
  io x' = set_recv_eof (io x) -> transwindow x' = transwindow x -> transmaxpacket x' = transmaxpacket x -> remotechan x' = remotechan x ->
  exists removed x2 b2 l2, check_close is_server has_check has_handler v rp (x', b) = Ok (removed, (x2, b2), l2) /\
    run_ok x0 x2 b2 (l ++ l2) d c /\ settled has_check removed x2.
Proof using HN Hgentle.
  intros Hr Hl' Hp Hio Hw Hmx Hrm. assert (Hr' : run_ok x0 x' b l d (c + 0)) by (eapply run_flags; try done; [by right|lia]).
  rewrite Z.add_0_r in Hr'. eapply run_steps; [exact Hr'|]. apply steps_check_close; try done. apply Hr.
Qed.

Lemma steps_request reply x b : life_ok W gentle x -> ready_at N b [] ->
  steps W N gentle (match reply with Some true => send_msg_channel_success | Some false => send_msg_channel_failure | None => mret tt end)
    (fun _ _ => True) x b.
Proof using HN. intros Hl Hb. destruct reply as [[]|]; [apply steps_reply; auto..|by apply steps_ret]. Qed.

Lemma run_handle x0 x b l d c i : run_ok x0 x b l d c -> input_ok i x ->
  exists removed x' b' l', handle is_server has_check has_handler W hv malloc_ok i (x, b) = Ok (removed, (x', b'), l') /\
    run_ok x0 x' b' (l ++ l') (d ++ received_of i) (c + granted_of i) /\ closed_both removed x'.
Proof using HN Hgentle Hm.
  intros Hr Hi. pose proof (v_life _ _ _ _ _ _ Hr) as Hl. destruct i as [r|w payload ans|incr|reply|v rp|v rp].
  - destruct (run_steps _ _ x0 x b l d c Hr
      (steps_round W N gentle HN hv is_server has_check has_handler Hgentle r x b Hl (v_buf _ _ _ _ _ _ Hr) Hi))
      as (removed & x' & b' & l' & E & Hr' & Hrem & _). exists removed, x', b', l'. cbn. by rewrite app_nil_r, Z.add_0_r.
  - destruct (run_data x0 x b l d c w payload ans Hr Hi) as (x' & b' & l' & E & Hr'). exists false, x', b', l'. cbn [handle granted_of].
    unfold mbind, L_bind. rewrite E. unfold mret, L_ret. by rewrite app_nil_r, Z.add_0_r.
  - cbn [handle received_of granted_of]. cbn in Hi. unfold recv_msg_channel_window_adjust.
    set (w := Z.min (u32 (transwindow x + Z.min incr TRANS_MAX_WIN_INCR)) TRANS_MAX_WINDOW).
    exists false, (set_transwindow x w), b, []. split; [done|]. rewrite !app_nil_r. split; [|done].
    pose proof (l_window _ _ _ Hl). assert (Hw : 0 <= w <= transwindow x + incr).
    { unfold w, TRANS_MAX_WINDOW, TRANS_MAX_WIN_INCR, u32, is_u32 in *.
      clear w. assert (Hsum : 0 <= transwindow x + Z.min incr 500000000) by lia.
      pose proof (Z.mod_pos_bound (transwindow x + Z.min incr 500000000) 4294967296 ltac:(lia)).
      pose proof (Z.mod_le (transwindow x + Z.min incr 500000000) 4294967296 Hsum ltac:(lia)). lia. }
    eapply run_flags; try done; [|by left|cbn; lia]. apply life_transwindow; [done|]. unfold is_u32, w, TRANS_MAX_WINDOW in *. lia.
  - destruct (run_steps _ (fun _ _ => True) x0 x b l d c Hr (steps_request reply x b Hl (v_buf _ _ _ _ _ _ Hr))) as (u & x' & b' & l' & E & Hr' & _).
    exists false, x', b', l'. cbn [handle received_of granted_of]. rewrite app_nil_r, Z.add_0_r. unfold mbind at 1, L_bind at 1. rewrite E.
    unfold mret, L_ret. by rewrite app_nil_r.
  - cbn [handle received_of granted_of]. unfold recv_msg_channel_eof. rewrite bind_modify. cbn [fst snd].
    destruct (run_check x0 x b l d c v rp _ Hr (life_recv_eof x Hl)) as (removed & x2 & b2 & l2 & E & Hr2 & Hs); try done.
    exists removed, x2, b2, l2. rewrite app_nil_r, Z.add_0_r. split_and!; try done. by apply settled_closed.
  - cbn [handle received_of granted_of]. unfold recv_msg_channel_close. rewrite bind_modify. cbn [fst snd].
    destruct (run_check x0 x b l d c v rp _ Hr (life_recv_close x Hl)) as (removed & x2 & b2 & l2 & E & Hr2 & Hs); try done.
    exists removed, x2, b2, l2. rewrite app_nil_r, Z.add_0_r. split_and!; try done. by apply settled_closed.
Qed.

Lemma run_life x0 ins x b l d c : run_ok x0 x b l d c -> inputs_ok ins (x, b) ->
  exists removed x' b' l', life is_server has_check has_handler W hv malloc_ok ins (x, b) = Ok (removed, (x', b'), l') /\
    run_ok x0 x' b' (l ++ l') (d ++ received ins) (c + granted ins) /\ closed_both removed x'.
Proof using HN Hgentle Hm.
  revert x b l d c. induction ins as [|i ins IH]; intros x b l d c Hr Hi; cbn [life].
  - exists false, x, b, []. cbn. by rewrite !app_nil_r, Z.add_0_r.
  - destruct Hi as [Hi Hins]. destruct (run_handle x0 x b l d c i Hr Hi) as (removed & x1 & b1 & l1 & E & Hr1 & Hc1).
    rewrite E in Hins. unfold mbind at 1, L_bind at 1. rewrite E. unfold received. cbn [map concat granted]. fold (received ins).
    rewrite app_assoc, Z.add_assoc. destruct removed.
    + subst ins. exists true, x1, b1, l1. cbn. by rewrite !app_nil_r, Z.add_0_r.
    + destruct (IH x1 b1 _ _ _ Hr1 Hins) as (removed & x2 & b2 & l2 & E2 & Hr2 & Hc2).
      exists removed, x2, b2, (l1 ++ l2). rewrite E2, app_assoc. done.
Qed.

(** ** The end of a channel *)

Lemma life_app ins js s : life is_server has_check has_handler W hv malloc_ok (ins ++ js) s =
  (removed ← life is_server has_check has_handler W hv malloc_ok ins;
   if removed : bool then mret true else life is_server has_check has_handler W hv malloc_ok js) s.
Proof.
  revert s. induction ins as [|i ins IH]; intros s; cbn [life app].
  - unfold mbind, L_bind, mret, L_ret. by destruct (life _ _ _ _ _ _ js s) as [[[? ?] ?]| |].
  - unfold mbind, L_bind. destruct (handle _ _ _ _ _ _ i s) as [[[removed s1] l1]| |]; [|done..].
    destruct removed; [unfold mret, L_ret; by rewrite !app_nil_r|]. rewrite IH. unfold mbind, L_bind.
    destruct (life _ _ _ _ _ _ ins s1) as [[[removed s2] l2]| |]; [|done..].
    destruct removed; [unfold mret, L_ret; by rewrite !app_nil_r|].
    destruct (life _ _ _ _ _ _ js s2) as [[[? ?] ?]| |]; [|done..]. by rewrite app_assoc.
Qed.

(** The peer has closed, and something is left to write. *)
Lemma life_drains ps rs x b : has_check = false -> sublist ps rs -> Forall pushes ps -> Forall (round_ok gentle hv) rs ->
  life_ok W gentle x -> ready_at N b [] -> recv_close x = true -> 0 < backlog x <= zlen ps ->
  exists x' b' l, life is_server has_check has_handler W hv malloc_ok (map Round rs) (x, b) = Ok (true, (x', b'), l).
Proof using HN Hgentle.
  intros Hh Hsub. revert x b. induction Hsub as [|r ps rs Hsub IH|r ps rs Hsub IH]; intros x b Hps Hrs Hl Hb Hd Hlen;
    [cbn in Hlen; lia|apply Forall_cons in Hps as [Hp Hps]|];
    apply Forall_cons in Hrs as [Hr Hrs]; cbn [map life handle];
    destruct (steps_round W N gentle HN hv is_server has_check has_handler Hgentle r x b Hl Hb Hr)
      as (removed & x1 & b1 & l1 & E1 & S1 & _ & Hset & Hpush); unfold mbind, L_bind; rewrite E1;
    (destruct removed; [by eexists x1, b1, _|]);
    assert (Hrc : recv_close x1 = true) by (by rewrite (e_close _ _ (o_same _ _ _ _ _ _ _ S1)));
    assert (Hd1 : settled has_check false x1 -> 0 < backlog x1) by
      (intros Hs; specialize (Hs Hh Hrc); rewrite (pending_backlog _ _ _ (o_life _ _ _ _ _ _ _ S1)) in Hs; injection Hs as Hs%Z.ltb_lt; done).
  - destruct (Hpush Hp) as [Hs Hlt]; [lia|]. cbn [length] in Hlen. specialize (Hd1 Hs).
    destruct (IH x1 b1 Hps Hrs (o_life _ _ _ _ _ _ _ S1) (o_buf _ _ _ _ _ _ _ S1) Hrc) as (x' & b' & l & E); [lia|].
    rewrite E. by eexists x', b', _.
  - pose proof (step_backlog _ _ _ _ _ _ _ Hl S1) as Hle.
    assert (Hdr : 0 < backlog x1) by (destruct Hset as [Hs|[_ ->]]; [auto|lia]).
    destruct (IH x1 b1 Hps Hrs (o_life _ _ _ _ _ _ _ S1) (o_buf _ _ _ _ _ _ _ S1) Hrc) as (x' & b' & l & E); [lia|].
    rewrite E. by eexists x', b', _.
Qed.

(** Once the peer has closed and the descriptors take what is left the channel goes away. *)
Lemma close_removes x b v rp ps rs : has_check = false -> life_ok W gentle x -> ready_at N b [] ->
  sublist ps rs -> Forall pushes ps -> Forall (round_ok gentle hv) rs -> W <= zlen ps ->
  exists x' b' l, life is_server has_check has_handler W hv malloc_ok (PeerClose v rp :: map Round rs) (x, b) = Ok (true, (x', b'), l).
Proof using HN Hgentle.
  intros Hh Hl Hb Hsub Hps Hrs Hlen.
  cbn [life handle]. unfold recv_msg_channel_close. unfold mbind at 1, L_bind at 1. rewrite bind_modify. cbn [fst snd].
  set (x2 := set_recv_close (set_io x (set_recv_eof (io x)))).
  assert (Hl2 : life_ok W gentle x2) by by apply life_recv_close.
  destruct (steps_check_close W N gentle HN is_server has_check has_handler Hgentle v rp x2 b Hl2 Hb)
    as (removed & x3 & b3 & l3 & E3 & S3 & Hs).
  rewrite E3. destruct removed; [by eexists x3, b3, _|].
  assert (Hrc : recv_close x3 = true) by by rewrite (e_close _ _ (o_same _ _ _ _ _ _ _ S3)).
  pose proof (o_life _ _ _ _ _ _ _ S3) as Hl3. specialize (Hs Hh Hrc). rewrite (pending_backlog _ _ _ Hl3) in Hs. injection Hs as Hs%Z.ltb_lt.
  pose proof (due_bounds W gentle Write x3 (writefd (io x3)) Hl3). pose proof (due_bounds W gentle Extra x3 (errfd (io x3)) Hl3).
  pose proof (l_owed _ _ _ Hl3). pose proof (l_ok _ _ _ Hl3) as [_ ? ? _ _].
  destruct (life_drains ps rs x3 b3 Hh Hsub Hps Hrs Hl3 (o_buf _ _ _ _ _ _ _ S3) Hrc) as (x' & b' & l & E);
    [unfold backlog, owed in *; cbn in *; lia|].
  rewrite E. by eexists x', b', _.
Qed.

(** ** A peer that sends anything *)

Lemma handle_any x0 x b l d c i : run_ok x0 x b l d c -> input_sys i x ->
  (exists removed x' b' l', handle is_server has_check has_handler W hv malloc_ok i (x, b) = Ok (removed, (x', b'), l') /\
    run_ok x0 x' b' (l ++ l') (d ++ received_of i) (c + granted_of i) /\ closed_both removed x') \/
  exists msg, handle is_server has_check has_handler W hv malloc_ok i (x, b) = Exit msg.
Proof using HN Hgentle Hm.
  intros Hr Hi. destruct i as [r|w payload ans|incr|reply|v rp|v rp]; try (left; by apply run_handle).
  destruct Hi as (Hwf & Hans & Hg). cbn [handle].
  assert (Hexit : forall msg, common_recv_msg_channel_data W hv malloc_ok (io x) (fd_of w (io x)) w payload ans = Exit msg ->
    exists msg, (_ ← recv_msg_channel_data W hv malloc_ok w payload ans; mret false : L bool) (x, b) = Exit msg).
  { intros msg E. exists msg. unfold recv_msg_channel_data, on_io, mbind, L_bind. cbn [fst]. fold (fd_of w (io x)). by rewrite E. }
  destruct (recv_eof (io x)) eqn:He; [right; eapply Hexit; unfold common_recv_msg_channel_data; by rewrite He|].
  destruct (decide (get_buf w (io x) = None \/ fd_of w (io x) < 0)) as [Hno|Hyes].
  { left. exists false, x, b, []. unfold mbind, L_bind. rewrite ignored_data by done. split; [done|]. cbn [granted_of]. rewrite app_nil_r, Z.add_0_r.
    pose proof (v_life _ _ _ _ _ _ Hr) as Hl. destruct (ok_write _ _ (l_ok _ _ _ Hl)) as [wb Hwb].
    split; [|done]. apply run_ignored; [done|..].
    - destruct w; [|by right]. left. destruct Hno as [Hno|Hno]; [cbn in Hno; congruence|done].
    - intros Hge. pose proof (gentle_open _ _ _ _ _ _ Hr He Hge). destruct w; [|done]. destruct Hno as [Hno|Hno]; cbn in Hno; [congruence|lia]. }
  destruct (get_buf w (io x)) as [cb|] eqn:Hcb; [|by destruct Hyes; left].
  set (n := LOAD32H (take 4 (drop (Z.to_nat (pos payload)) (data payload)))).
  destruct (decide (pos payload + 4 + n <= len payload /\ n <= recvwindow (io x))) as [[Hfit Hwin]|Hbad].
  - left. apply (run_handle x0 x b l d c (PeerData w payload ans) Hr). pose proof (holds_intro payload Hwf Hfit) as Hh. split_and!; try done.
    + destruct Hh as [_ Hint _ _]. unfold n in Hwin. lia.
    + by rewrite Hcb.
  - right. destruct (bad_data (io x) (fd_of w (io x)) w cb payload ans) as [msg E]; try done; [lia|]. by eapply Hexit.
Qed.

Lemma life_any x0 ins x b l d c : run_ok x0 x b l d c -> inputs_sys ins (x, b) ->
  (exists removed x' b' l', life is_server has_check has_handler W hv malloc_ok ins (x, b) = Ok (removed, (x', b'), l') /\
    run_ok x0 x' b' (l ++ l') (d ++ received ins) (c + granted ins) /\ closed_both removed x') \/
  exists msg, life is_server has_check has_handler W hv malloc_ok ins (x, b) = Exit msg.
Proof using HN Hgentle Hm.
  revert x b l d c. induction ins as [|i ins IH]; intros x b l d c Hr Hi; cbn [life].
  - left. exists false, x, b, []. cbn. by rewrite !app_nil_r, Z.add_0_r.
  - destruct Hi as [Hi Hins]. destruct (handle_any x0 x b l d c i Hr Hi) as [(removed & x1 & b1 & l1 & E & Hr1 & Hc1)|[msg E]];
      [|right; exists msg; unfold mbind, L_bind; by rewrite E].
    rewrite E in Hins. unfold received. cbn [map concat granted]. fold (received ins).
    rewrite app_assoc, Z.add_assoc. destruct removed.
    + left. subst ins. exists true, x1, b1, l1. unfold mbind, L_bind. rewrite E. cbn. by rewrite !app_nil_r, Z.add_0_r.
    + destruct (IH x1 b1 _ _ _ Hr1 Hins) as [(removed & x2 & b2 & l2 & E2 & Hr2 & Hc2)|[msg E2]];
        [left|right; exists msg; unfold mbind, L_bind; by rewrite E, E2].
      exists removed, x2, b2, (l1 ++ l2). unfold mbind, L_bind. rewrite E, E2, app_assoc. done.
Qed.
End runs.

(** ** Channels as they are opened *)

Definition descriptors (ep : endpoint) : list Z :=
  match ep with Pipes w r e => [w; r; e] | Stdpipe => [STDOUT_FILENO; 0; 2] | Twoway fd => [fd] end.
Definition input_fd (ep : endpoint) : Z := match ep with Pipes w _ _ => w | Stdpipe => STDOUT_FILENO | Twoway fd => fd end.
Definition endpoint_ok (ep : endpoint) : Prop := NoDup (descriptors ep) /\ Forall (Z.le 0) (descriptors ep).
Definition opened (W : Z) (malloc_ok : Z -> bool) (rc tw tm : Z) (ep : endpoint) : res chan :=
  x ← new_chan W malloc_ok rc tw tm; attach W malloc_ok ep x.

Record setup (W N : Z) (malloc_ok : Z -> bool) (rc tw tm : Z) (ep : endpoint) (x : chan) (b : buffer) : Prop := mkSetup {
  t_window : 0 < W <= Circ.MAX_CBUF_SIZE; t_malloc : malloc_ok W = true;
  t_size : 13 <= N; t_payload : ready_at N b [];
  t_endpoint : endpoint_ok ep; t_trans : is_u32 tw; t_max : is_u32 tm;
  t_opened : opened W malloc_ok rc tw tm ep = Ok x
}.

(** The fields of an opened channel. *)
Definition opened_io (W : Z) (ep : endpoint) : channel :=
  let c := Circ.mkCirc W 0 0 0 None in
  match ep with
  | Pipes w r e => mkChan W 0 w r e false (Some c) None false
  | Stdpipe => mkChan W 0 STDOUT_FILENO 0 2 false (Some c) (Some c) false
  | Twoway fd => mkChan W 0 fd fd FD_CLOSED true (Some c) None false
  end.
Lemma opened_inv W malloc_ok rc tw tm ep x : opened W malloc_ok rc tw tm ep = Ok x ->
  x = mkLife (opened_io W ep) rc tw tm false false false false false.
Proof.
  unfold opened, new_chan, attach, cli_init_stdpipe_sess, Circ.cbuf_new. destruct (_ <? _); [done|]. destruct (malloc_ok 20); [|done].
  destruct ep; cbn; by intros [= <-].
Qed.

Lemma opened_ok W N malloc_ok rc tw tm ep x b gentle : setup W N malloc_ok rc tw tm ep x b ->
  life_ok W gentle x /\ steady x /\ target (input_fd ep) (io x).
Proof.
  intros [HW Hm HN Hb [Hnd Hpos] Htw Htm Ho]. apply opened_inv in Ho as ->.
  destruct (fresh_ok W 0 HW) as [[_ _ _ _ Hbuf] _]. specialize (Hbuf Write _ eq_refl). cbn in Hbuf.
  assert (Hok : chan_ok W (opened_io W ep)).
  { destruct ep; split; cbn; try done; try lia; try (by eexists); intros [] c [= <-]; exact Hbuf. }
  split; [|split].
  - split; try done; destruct ep; cbn in *; unfold owed; cbn; try lia; try (split; done); unfold separate; cbn; auto.
    + split. cbn. intros _. apply Forall_cons in Hpos as [Hpos _]. split_and!; try done; lia || auto.
    + rewrite !NoDup_cons, !not_elem_of_cons in Hnd. tauto.
  - left. destruct ep; cbn in *; [apply Forall_cons in Hpos; tauto|done|apply Forall_cons in Hpos; tauto].
  - destruct ep; cbn in *; (split; [|split; [by left|]]); cbn; auto; try (apply Forall_cons in Hpos; tauto); by try right.
Qed.

Section theorems.
Context (W N : Z) (hv : bool) (malloc_ok : Z -> bool) (rc tw tm : Z) (ep : endpoint) (x : chan) (b : buffer).
Context (is_server has_check has_handler : bool).

Lemma opened_run gentle ins : setup W N malloc_ok rc tw tm ep x b -> (gentle -> has_check = false) ->
  inputs_ok W gentle hv malloc_ok is_server has_check has_handler ins (x, b) ->
  exists removed x' b' l, life is_server has_check has_handler W hv malloc_ok ins (x, b) = Ok (removed, (x', b'), l) /\
    run_ok W N gentle x x' b' l (received ins) (granted ins) /\ closed_both removed x'.
Proof.
  intros Hs Hg Hi. destruct (opened_ok _ _ _ _ _ _ _ _ _ gentle Hs) as (Hl & Hst & _). destruct Hs.
  apply (run_life W N gentle t_size0 hv malloc_ok t_malloc0 is_server has_check has_handler Hg x ins x b [] [] 0); [|done].
  by apply run_start.
Qed.
(** With any peer. *)
Lemma opened_any gentle ins : setup W N malloc_ok rc tw tm ep x b -> (gentle -> has_check = false) ->
  inputs_sys W gentle hv malloc_ok is_server has_check has_handler ins (x, b) ->
  (exists removed x' b' l, life is_server has_check has_handler W hv malloc_ok ins (x, b) = Ok (removed, (x', b'), l) /\
    run_ok W N gentle x x' b' l (received ins) (granted ins) /\ closed_both removed x') \/
  exists msg, life is_server has_check has_handler W hv malloc_ok ins (x, b) = Exit msg /\
    ~ inputs_ok W gentle hv malloc_ok is_server has_check has_handler ins (x, b).
Proof.
  intros Hs Hg Hi. destruct (opened_ok _ _ _ _ _ _ _ _ _ gentle Hs) as (Hl & Hst & _).
  destruct (life_any W N gentle (t_size _ _ _ _ _ _ _ _ _ Hs) hv malloc_ok (t_malloc _ _ _ _ _ _ _ _ _ Hs) is_server has_check has_handler Hg x ins x b [] [] 0)
    as [H|[msg E]]; [apply run_start; [done|apply Hs|done]|done|by left|right].
  exists msg. split; [done|]. intros Hok. destruct (opened_run gentle ins Hs Hg Hok) as (? & ? & ? & ? & E' & _). congruence.
Qed.
Lemma opened_empty w0 : setup W N malloc_ok rc tw tm ep x b -> writebuf (io x) = Some w0 -> Circ.contents w0 = [].
Proof.
  intros Hs E0. rewrite (opened_inv _ _ _ _ _ _ _ (t_opened _ _ _ _ _ _ _ _ _ Hs)) in E0. destruct ep; injection E0 as <-; done.
Qed.
Lemma opened_prefix gentle x' b' l d c : setup W N malloc_ok rc tw tm ep x b -> run_ok W N gentle x x' b' l d c ->
  delivered (input_fd ep) (ios l) `prefix_of` d.
Proof.
  intros Hs Hr. destruct (opened_ok _ _ _ _ _ _ _ _ _ gentle Hs) as (_ & _ & Ht).
  destruct (v_stream _ _ _ _ _ _ _ _ _ Hr) as (w0 & w & acc & E0 & Ew & Hpre & _ & _ & Hd). specialize (Hd _ Ht).
  rewrite (opened_empty w0 Hs E0) in Hd. cbn [app] in Hd. etrans; [|exact Hpre]. by exists (Circ.contents w).
Qed.
(** A channel that has closed gently has nothing left. *)
Lemma opened_all (gentle : Prop) x' b' l d c : setup W N malloc_ok rc tw tm ep x b -> run_ok W N gentle x x' b' l d c -> gentle ->
  sent_close x' = true -> delivered (input_fd ep) (ios l) = d.
Proof.
  intros Hs Hr Hg Hc. destruct (opened_ok _ _ _ _ _ _ _ _ _ gentle Hs) as (_ & _ & Ht).
  destruct (v_stream _ _ _ _ _ _ _ _ _ Hr) as (w0 & w & acc & E0 & Ew & _ & _ & Hst & Hd). specialize (Hd _ Ht).
  destruct (Hst Hg) as [Hsteady ->]. rewrite (opened_empty w0 Hs E0) in Hd. cbn [app] in Hd.
  destruct (l_close _ _ _ (v_life _ _ _ _ _ _ _ _ _ Hr) Hc) as (_ & _ & Hwr & _).
  destruct Hsteady as [Hw|[Hh _]]; [rewrite Hwr in Hw; by unfold FD_CLOSED in Hw|].
  rewrite Ew in Hh. cbn in Hh. pose proof (Circ.contents_length w (proj1 (ok_bufs _ _ (l_ok _ _ _ (v_life _ _ _ _ _ _ _ _ _ Hr)) Write w Ew))) as Hlen.
  destruct (Circ.contents w) as [|z zs]; [by rewrite app_nil_r in Hd|]. cbn in Hlen. lia.
Qed.
End theorems.

(** No write fails. *)
Definition unfailing (i : input) : Prop :=
  match i with
  | Round r => forall cb, write_in r cb <> Failed /\ write_err r cb <> Failed
  | PeerData _ _ ans => ans <> Failed
  | _ => True
  end.
Lemma sys_gentle W hv malloc_ok is_server has_check has_handler ins s : Forall unfailing ins ->
  inputs_sys W False hv malloc_ok is_server has_check has_handler ins s -> inputs_sys W True hv malloc_ok is_server has_check has_handler ins s.
Proof.
  intros Hu. revert s. induction Hu as [|i ins Hi _ IH]; intros s; [done|]. cbn [inputs_sys]. intros [Hs Hins]. split.
  - destruct i as [r|w payload ans| | | |]; try done.
    + destruct Hs as [R1 R2 R3 R4]. split; try done; intros cb; [destruct (R3 cb)|destruct (R4 cb)]; (split; [done|]); intros _; apply Hi.
    + destruct Hs as (S1 & S2 & _). done.
  - destruct (handle _ _ _ _ _ _ i s) as [[[removed s1] l1]| |]; [|done..]. destruct removed; auto.
Qed.
Lemma ok_sys W gentle hv malloc_ok is_server has_check has_handler ins s :
  inputs_ok W gentle hv malloc_ok is_server has_check has_handler ins s -> inputs_sys W gentle hv malloc_ok is_server has_check has_handler ins s.
Proof.
  revert s. induction ins as [|i ins IH]; intros s; [done|]. cbn [inputs_ok inputs_sys]. intros [Hs Hins]. split.
  - destruct i as [r|w payload ans| | | |]; try done. destruct Hs as (_ & [Hwf _ _ _] & _ & H1 & H2). done.
  - destruct (handle _ _ _ _ _ _ i s) as [[[removed s1] l1]| |]; [|done..]. destruct removed; auto.
Qed.

(** ** A small run *)

(** Two bytes arrive of which one is written, the peer closes, and in one round a byte is
    sent and the other one written. *)
Definition demo_b : buffer := mkBuf (replicate 32 0) 0 0 32.
Definition demo_x : chan := mkLife (opened_io 8 (Twoway 5)) 7 100 50 false false false false false.
Definition demo_round : round :=
  mkRound (fun _ => true) (fun _ => true) (fun n => if 1 <=? n then Got [97] else ReadIntr) (fun _ => ReadIntr)
    (fun cb => if 1 <=? Circ.used cb then Wrote 1 else Again) (fun cb => if 1 <=? Circ.used cb then Wrote 1 else Again) false (mkVerdict true false) (fun _ => false).
Definition demo_inputs : list input :=
  [PeerData Write demo_payload (Wrote 1); PeerClose (mkVerdict true false) (fun _ => false); Round demo_round].

Lemma demo_setup : setup 8 32 (fun _ => true) 7 100 50 (Twoway 5) demo_x demo_b.
Proof.
  split; try done.
  - split; [|done]. split; try done. split; cbn; try done; try lia. by apply (Forall_replicate is_u8 32).
  - split; [apply NoDup_singleton|by apply Forall_singleton].
Qed.
Lemma demo_round_ok gentle : round_ok gentle true demo_round.
Proof.
  split.
  - intros n. cbn. destruct (Z.leb_spec 1 n); [|done]. split; [by apply Forall_singleton|cbn; lia].
  - intros n. done.
  - intros cb. cbn. destruct (Z.leb_spec 1 (Circ.used cb)); [|done]. cbn. split; [lia|done].
  - intros cb. cbn. destruct (Z.leb_spec 1 (Circ.used cb)); [|done]. cbn. split; [lia|done].
Qed.
Lemma demo_pushes : pushes demo_round.
Proof. split; [done|]. split; intros cb Hu; exists 1; cbn; rewrite (proj2 (Z.leb_le 1 _)) by lia; done. Qed.
Lemma demo_ok gentle : inputs_ok 8 gentle true (fun _ => true) true false false demo_inputs (demo_x, demo_b).
Proof.
  split.
  - cbn [input_ok fst]. change (payload_data demo_payload) with [104; 105]. split; [done|]. split; [exact demo_holds|]. split; [done|].
    split; [|done]. intros cb Hcb. injection Hcb as <-. done.
  - destruct (handle _ _ _ _ _ _ (PeerData _ _ _) _) as [[[removed s] l]| |] eqn:E; [|done..].
    vm_compute in E. injection E as <- <- <-. split; [done|].
    destruct (handle _ _ _ _ _ _ (PeerClose _ _) _) as [[[removed s] l]| |] eqn:E; [|done..].
    vm_compute in E. injection E as <- <- <-. split; [apply demo_round_ok|].
    destruct (handle _ _ _ _ _ _ (Round _) _) as [[[removed s] l]| |]; [|done..]. by destruct removed.
Qed.

Lemma demo_sys gentle : inputs_sys 8 gentle true (fun _ => true) true false false demo_inputs (demo_x, demo_b).
Proof. apply ok_sys, demo_ok. Qed.
Lemma demo_unfailing : Forall unfailing demo_inputs.
Proof. repeat constructor; cbn; try discriminate; by destruct (1 <=? _). Qed.

(** ** Theorems *)

(** C12: whatever the peer sends and the system calls answer, no handler of a channel
    faults; EOF and CLOSE are sent at most once and in this order, no data after EOF and
    nothing after CLOSE; and a channel that is removed has sent and received CLOSE.  The
    session ends with a message only when the peer sends data after its EOF, beyond the
    window it was granted, or less than it announces ([inputs_ok] excludes these): no
    assertion of the handlers fails otherwise. *)
Theorem channel_protocol (W N : Z) (hv : bool) (malloc_ok : Z -> bool) (rc tw tm : Z) (ep : endpoint)
    (is_server has_check has_handler : bool) (x : chan) (b : buffer) (ins : list input) :
  setup W N malloc_ok rc tw tm ep x b ->
  inputs_sys W False hv malloc_ok is_server has_check has_handler ins (x, b) ->
  match life is_server has_check has_handler W hv malloc_ok ins (x, b) with
  | Ok (removed, (x', b'), l) =>
      follows Open l = Some (phase_of x') /\ (removed = true -> phase_of x' = Closed /\ recv_close x' = true)
  | Exit _ => ~ inputs_ok W False hv malloc_ok is_server has_check has_handler ins (x, b)
  | Fault => False
  end.
Proof.
  intros Hs Hi. destruct (opened_any _ _ _ _ _ _ _ _ _ _ is_server has_check has_handler False ins Hs ltac:(done) Hi)
    as [(removed & x' & b' & l & -> & Hr & Hc)|[msg [-> Hno]]]; [|exact Hno].
  pose proof (v_follows _ _ _ _ _ _ _ _ _ Hr) as Hf.
  rewrite (opened_inv _ _ _ _ _ _ _ (t_opened _ _ _ _ _ _ _ _ _ Hs)) in Hf. split; [exact Hf|].
  intros H. destruct (Hc H) as [H1 H2]. unfold phase_of. by rewrite H1.
Qed.
Lemma channel_protocol_witness :
  exists removed x' b' l,
    life true false false 8 true (fun _ => true) demo_inputs (demo_x, demo_b) = Ok (removed, (x', b'), l) /\
    follows Open l = Some (phase_of x') /\ (removed = true -> phase_of x' = Closed /\ recv_close x' = true).
Proof.
  assert (H := channel_protocol 8 32 true (fun _ => true) 7 100 50 (Twoway 5) true false false demo_x demo_b demo_inputs
    demo_setup (demo_sys False)).
  destruct (life true false false 8 true (fun _ => true) demo_inputs (demo_x, demo_b)) as [[[removed [x' b']] l]|msg|] eqn:E.
  - exists removed, x', b', l. split; [reflexivity|exact H].
  - vm_compute in E. discriminate E.
  - destruct H.
Defined.

(** C17: while the session goes on, every message a channel sends is a well-formed data,
    window adjustment, EOF, CLOSE, success or failure message for the channel number of the
    peer, with at most its maximum of data in it, and all the data sent fits the window the
    peer opened with and has granted since.  The peer may send anything. *)
Theorem channel_respects_window (W N : Z) (hv : bool) (malloc_ok : Z -> bool) (rc tw tm : Z) (ep : endpoint)
    (is_server has_check has_handler : bool) (x : chan) (b : buffer) (ins : list input) :
  setup W N malloc_ok rc tw tm ep x b ->
  inputs_sys W False hv malloc_ok is_server has_check has_handler ins (x, b) ->
  match life is_server has_check has_handler W hv malloc_ok ins (x, b) with
  | Ok (_, _, l) => Forall (fits rc tm) l /\ sent l <= tw + granted ins
  | Exit _ => ~ inputs_ok W False hv malloc_ok is_server has_check has_handler ins (x, b)
  | Fault => False
  end.
Proof.
  intros Hs Hi. destruct (opened_any _ _ _ _ _ _ _ _ _ _ is_server has_check has_handler False ins Hs ltac:(done) Hi)
    as [(removed & x' & b' & l & -> & Hr & _)|[msg [-> Hno]]]; [|exact Hno].
  pose proof (l_window _ _ _ (v_life _ _ _ _ _ _ _ _ _ Hr)) as Hw.
  pose proof (v_window _ _ _ _ _ _ _ _ _ Hr) as Hle. pose proof (v_fits _ _ _ _ _ _ _ _ _ Hr) as Hf.
  rewrite (opened_inv _ _ _ _ _ _ _ (t_opened _ _ _ _ _ _ _ _ _ Hs)) in Hle, Hf. cbn in Hle. unfold is_u32 in Hw. split; [exact Hf|lia].
Qed.
Lemma channel_respects_window_witness :
  exists removed s l,
    life true false false 8 true (fun _ => true) demo_inputs (demo_x, demo_b) = Ok (removed, s, l) /\
    Forall (fits 7 50) l /\ sent l <= 100 + granted demo_inputs.
Proof.
  assert (H := channel_respects_window 8 32 true (fun _ => true) 7 100 50 (Twoway 5) true false false demo_x demo_b demo_inputs
    demo_setup (demo_sys False)).
  destruct (life true false false 8 true (fun _ => true) demo_inputs (demo_x, demo_b)) as [[[removed s] l]|msg|] eqn:E.
  - exists removed, s, l. split; [reflexivity|exact H].
  - vm_compute in E. discriminate E.
  - destruct H.
Defined.


(** C14: what is written to the program is a prefix of what was received, for every type of
    channel and whatever the peer sends, also when writes fail.  On a channel whose type has
    no check of its own (all types but the sessions of a server) and on which no write fails,
    it is all of it once the channel is removed: CLOSE loses no data. *)
Theorem channel_delivers (W N : Z) (hv : bool) (malloc_ok : Z -> bool) (rc tw tm : Z) (ep : endpoint)
    (is_server has_check has_handler : bool) (x : chan) (b : buffer) (ins : list input) :
  setup W N malloc_ok rc tw tm ep x b ->
  inputs_sys W False hv malloc_ok is_server has_check has_handler ins (x, b) ->
  match life is_server has_check has_handler W hv malloc_ok ins (x, b) with
  | Ok (removed, _, l) =>
      delivered (input_fd ep) (ios l) `prefix_of` received ins /\
      (has_check = false -> Forall unfailing ins -> removed = true -> delivered (input_fd ep) (ios l) = received ins)
  | Exit _ => ~ inputs_ok W False hv malloc_ok is_server has_check has_handler ins (x, b)
  | Fault => False
  end.
Proof.
  intros Hs Hi. destruct (opened_any _ _ _ _ _ _ _ _ _ _ is_server has_check has_handler False ins Hs ltac:(done) Hi)
    as [(removed & x' & b' & l & E & Hr & _)|[msg [-> Hno]]]; [rewrite E|exact Hno]. split; [by eapply opened_prefix|].
  intros -> Hu ->. pose proof (sys_gentle _ _ _ _ _ _ _ _ Hu Hi) as Hi'.
  destruct (opened_any _ _ _ _ _ _ _ _ _ _ is_server false has_handler True ins Hs ltac:(done) Hi')
    as [(removed & x1 & b1 & l1 & E1 & Hr1 & Hc)|[msg [E1 _]]]; rewrite E in E1; [|discriminate E1].
  injection E1 as <- <- <- <-. destruct (Hc eq_refl) as [H1 _]. by eapply opened_all.
Qed.
Lemma channel_delivers_witness :
  exists s l,
    life true false false 8 true (fun _ => true) demo_inputs (demo_x, demo_b) = Ok (true, s, l) /\
    delivered (input_fd (Twoway 5)) (ios l) = received demo_inputs.
Proof.
  assert (H := channel_delivers 8 32 true (fun _ => true) 7 100 50 (Twoway 5) true false false demo_x demo_b demo_inputs
    demo_setup (demo_sys False)).
  destruct (life true false false 8 true (fun _ => true) demo_inputs (demo_x, demo_b)) as [[[removed s] l]|msg|] eqn:E.
  - assert (removed = true) as -> by (vm_compute in E; injection E as <- _ _; reflexivity).
    exists s, l. split; [reflexivity|]. apply H; [reflexivity|exact demo_unfailing|reflexivity].
  - vm_compute in E. discriminate E.
  - destruct H.
Defined.

(** C16: on a channel whose type has no check of its own, whatever the peer sent and the
    system calls answered before, once the peer closes it and its descriptors take a byte in
    as many rounds as the window has bytes, with any rounds between them, the channel is
    removed, unless the session had ended for data of the peer that is excluded by
    [inputs_ok]. *)
Theorem channel_is_removed (W N : Z) (hv : bool) (malloc_ok : Z -> bool) (rc tw tm : Z) (ep : endpoint)
    (is_server has_handler : bool) (x : chan) (b : buffer) (ins : list input) (v : verdict) (rp : Z -> bool) (ps rs : list round) :
  setup W N malloc_ok rc tw tm ep x b ->
  inputs_sys W False hv malloc_ok is_server false has_handler ins (x, b) ->
  Forall (round_ok False hv) rs -> sublist ps rs -> Forall pushes ps -> W <= zlen ps ->
  match life is_server false has_handler W hv malloc_ok (ins ++ PeerClose v rp :: map Round rs) (x, b) with
  | Ok (removed, _, _) => removed = true
  | Exit _ => ~ inputs_ok W False hv malloc_ok is_server false has_handler ins (x, b)
  | Fault => False
  end.
Proof.
  intros Hs Hi Hrs Hsub Hps Hlen. rewrite life_app. unfold mbind, L_bind.
  destruct (opened_any _ _ _ _ _ _ _ _ _ _ is_server false has_handler False ins Hs ltac:(done) Hi)
    as [(removed & x1 & b1 & l1 & -> & Hr & _)|[msg [-> Hno]]]; [|exact Hno].
  destruct removed; [done|].
  destruct (close_removes W N False (t_size _ _ _ _ _ _ _ _ _ Hs) hv malloc_ok is_server false has_handler ltac:(done) x1 b1 v rp ps rs)
    as (x2 & b2 & l2 & ->); try done; apply Hr.
Qed.
Lemma channel_is_removed_witness :
  exists s l, life true false false 8 true (fun _ => true)
    ([] ++ PeerClose (mkVerdict true false) (fun _ => false) :: map Round (replicate 8 demo_round)) (demo_x, demo_b) = Ok (true, s, l).
Proof.
  assert (H := channel_is_removed 8 32 true (fun _ => true) 7 100 50 (Twoway 5) true false demo_x demo_b []
    (mkVerdict true false) (fun _ => false) (replicate 8 demo_round) (replicate 8 demo_round) demo_setup I).
  destruct (life true false false 8 true (fun _ => true) ([] ++ _) (demo_x, demo_b)) as [[[removed s] l]|msg|].
  - exists s, l. rewrite H; [reflexivity| | | |].
    + apply Forall_replicate, demo_round_ok.
    + reflexivity.
    + apply Forall_replicate, demo_pushes.
    + vm_compute. discriminate.
  - destruct H; [| | | |exact I].
    + apply Forall_replicate, demo_round_ok.
    + reflexivity.
    + apply Forall_replicate, demo_pushes.
    + vm_compute. discriminate.
  - destruct H.
    + apply Forall_replicate, demo_round_ok.
    + reflexivity.
    + apply Forall_replicate, demo_pushes.
    + vm_compute. discriminate.
Defined.

(** a peer that sends more than its window, but no more than the buffer has room for, makes
    an assertion fail instead of getting the message for oversized packets. *)
Definition one_byte : buffer := mkBuf [0; 0; 0; 1; 104] 5 0 5.
Definition eight_bytes : buffer := mkBuf [0; 0; 0; 8; 1; 2; 3; 4; 5; 6; 7; 8] 12 0 12.
Example window_excess_asserts :
  life true false false 8 true (fun _ => true) [PeerData Write one_byte (Wrote 1); PeerData Write eight_bytes Again] (demo_x, demo_b) =
  Exit "Failed assertion".
Proof. vm_compute. reflexivity. Qed.
