(* ===== verification/ChannelSession.v ===== *)
(** * The channels of a Dropbear session

    The table of channels in dropbear-2022.83/common-channel.c: opening a channel, finding
    the one a message is for, the loop of [channelio] over all of them, removal.  The
    handlers of one channel are those of [ChannelLife].

    A session is the table and the packet under construction.  Every operation logs what it
    does to which channel; the functions of a channel type and connections in progress are
    arguments. *)

From Stdlib Require Import ZArith Lia Bool.
From stdpp Require Import base numbers list strings.
From S2P Require Import Prelude DropbearBuffer DropbearBufferProofs CircBuffer Channel ChannelLife.
Open Scope Z_scope.

(** ** The table *)

(** [struct ChanType]: its name, which of its functions it has, whether it is the session
    of a client. *)
Record kind := mkKind { k_name : list Z; k_init : bool; k_check : bool; k_req : bool; k_close : bool; k_client : bool }.

(** [ses.channels], an array of [ses.chansize] pointers, and [ses.chancount]. *)
Record table := mkTable { channels : list (option (kind * chan)); chancount : Z }.
Definition MAX_CHANNELS : Z := 1000.
Definition CHAN_EXTEND_SIZE : nat := 3.
Definition chansize (t : table) : Z := Z.of_nat (length (channels t)).

Definition chaninitialise : table := mkTable [None] 0.

(** What happens: to a channel of the table, or a packet that belongs to none. *)
Inductive sact := Born (i : nat) | At (i : nat) (a : act) | Gone (i : nat) | Reply (bs : list Z).

(** ** Opening messages *)

Definition SSH_MSG_CHANNEL_OPEN : Z := 90.
Definition SSH_MSG_CHANNEL_OPEN_CONFIRMATION : Z := 91.
Definition SSH_MSG_CHANNEL_OPEN_FAILURE : Z := 92.
Definition SSH_OPEN_CONNECT_FAILED : Z := 2.
Definition SSH_OPEN_UNKNOWN_CHANNEL_TYPE : Z := 3.
Definition SSH_OPEN_RESOURCE_SHORTAGE : Z := 4.
Definition SSH_OPEN_IN_PROGRESS : Z := 99.
Definition RECV_MAX_PAYLOAD_LEN : Z := 32768.
Definition RECV_MAX_CHANNEL_DATA_LEN : Z := RECV_MAX_PAYLOAD_LEN - (1 + 4 + 4).
Definition TRANS_MAX_PAYLOAD_LEN : Z := 16384.
Definition MAX_NAME_LEN : Z := 64.

Definition send_msg_channel_open_failure (remotechan reason : Z) (text lang : list Z) : M (list Z) :=
  _ ← buf_putbyte SSH_MSG_CHANNEL_OPEN_FAILURE;
  _ ← buf_putint remotechan;
  _ ← buf_putint reason;
  _ ← buf_putstring text;
  _ ← buf_putstring lang;
  take_packet.
Definition send_msg_channel_open_confirmation (x : chan) (index recvwindow recvmaxpacket : Z) : M (list Z) :=
  _ ← buf_putbyte SSH_MSG_CHANNEL_OPEN_CONFIRMATION;
  _ ← buf_putint (remotechan x);
  _ ← buf_putint index;
  _ ← buf_putint recvwindow;
  _ ← buf_putint recvmaxpacket;
  take_packet.

(** [strcmp] of a C string with a name. *)
Fixpoint strcmp_equal (s name : list Z) : bool :=
  match s, name with
  | [], _ => false
  | c :: s, [] => c =? 0
  | c :: s, n :: name => (c =? n) && negb (c =? 0) && strcmp_equal s name
  end.

Section session.
Context (is_server : bool) (recv_window : Z) (HAVE_WRITEV : bool) (malloc_ok : Z -> bool).

Fixpoint first_free (l : list (option (kind * chan))) : nat :=
  match l with Some _ :: l => S (first_free l) | _ => O end.
(** [None] when there are too many channels. *)
Definition newchannel (t : table) (k : kind) (remotechan transwindow transmaxpacket : Z) : res (option nat * table) :=
  let i := first_free (channels t) in
  if (Z.of_nat i =? chansize t) && (MAX_CHANNELS <=? chansize t) then Ok (None, t)
  else
    let slots := if Z.of_nat i =? chansize t then channels t ++ replicate CHAN_EXTEND_SIZE None else channels t in
    x ← new_chan recv_window malloc_ok remotechan transwindow transmaxpacket;
    Ok (Some i, mkTable (<[i := Some (k, x)]> slots) (u32 (chancount t + 1))).

(** A handler at a channel of the table; its result tells whether the channel was removed. *)
Definition at_channel (i : nat) (m : kind -> L bool) (t : table) (b : buffer) : res (table * buffer * list sact) :=
  match channels t !! i with
  | Some (Some (k, x)) =>
      '(removed, (x, b), l) ← m k (x, b);
      if removed : bool
      then Ok (mkTable (<[i := None]> (channels t)) (u32 (chancount t - 1)), b, map (At i) l ++ [Gone i])
      else Ok (mkTable (<[i := Some (k, x)]> (channels t)) (chancount t), b, map (At i) l)
  | _ => Ok (t, b, [])
  end.

(** Removing a channel that was not closed. *)
Definition drop_channel (i : nat) (t : table) (b : buffer) : res (table * buffer * list sact) :=
  at_channel i (fun _ => _ ← remove_channel is_server; mret true) t b.
(** Connecting a channel to descriptors. *)
Definition attach_channel (i : nat) (ep : endpoint) (t : table) (b : buffer) : res (table * buffer * list sact) :=
  at_channel i (fun _ s => x ← attach recv_window malloc_ok ep s.1; Ok (false, (x, s.2), [])) t b.

(** [init] is what the [inithandler] of the type returns, and what it connects the channel to. *)
Definition recv_msg_channel_open (chantypes : list kind) (init : kind -> Z * option endpoint) (payload : buffer)
  (t : table) (b : buffer) : res (table * buffer * list sact) :=
  '(type, typelen, payload) ← buf_getstring malloc_ok payload;
  '(remotechan, payload) ← buf_getint payload;
  '(transwindow, payload) ← buf_getint payload;
  let transwindow := Z.min transwindow TRANS_MAX_WINDOW in
  '(transmaxpacket, payload) ← buf_getint payload;
  let transmaxpacket := Z.min transmaxpacket TRANS_MAX_PAYLOAD_LEN in
  let failure errtype t b l :=
    '(bs, b) ← send_msg_channel_open_failure remotechan errtype [] [] b; Ok (t, b, l ++ [Reply bs]) in
  if MAX_NAME_LEN <? typelen then failure SSH_OPEN_UNKNOWN_CHANNEL_TYPE t b []
  else
    match List.find (fun k => strcmp_equal type (k_name k)) chantypes with
    | None => failure SSH_OPEN_UNKNOWN_CHANNEL_TYPE t b []
    | Some k =>
        '(r, t) ← newchannel t k remotechan transwindow transmaxpacket;
        match r with
        | None => failure SSH_OPEN_RESOURCE_SHORTAGE t b []
        | Some i =>
            let '(ret, ep) := if k_init k then init k else (0, None) in
            '(t, b, l) ← (match ep with Some ep => attach_channel i ep t b | None => Ok (t, b, []) end);
            if ret =? SSH_OPEN_IN_PROGRESS then Ok (t, b, Born i :: l)
            else if 0 <? ret then
              '(t, b, l') ← drop_channel i t b;
              failure ret t b (Born i :: l ++ l')
            else
              match channels t !! i with
              | Some (Some (_, x)) =>
                  '(bs, b) ← send_msg_channel_open_confirmation x (Z.of_nat i) (recvwindow (io x)) RECV_MAX_CHANNEL_DATA_LEN b;
                  Ok (t, b, Born i :: l ++ [Reply bs])
              | _ => Fault
              end
        end
    end.

(** Opening a channel from this side.  The caller adds [more] to the message and sends it;
    with too many channels nothing is sent. *)
Definition open_message (k : kind) (index : Z) (more : list Z) : M (list Z) :=
  _ ← buf_putbyte SSH_MSG_CHANNEL_OPEN;
  _ ← buf_putstring (k_name k);
  _ ← buf_putint index;
  _ ← buf_putint recv_window;
  _ ← buf_putint RECV_MAX_CHANNEL_DATA_LEN;
  _ ← buf_putbytes more;
  take_packet.
Definition send_msg_channel_open_init (fd : Z) (k : kind) (more : list Z) (t : table) (b : buffer) : res (table * buffer * list sact) :=
  '(r, t) ← newchannel t k 0 0 0;
  match r with
  | None => Ok (t, b, [])
  | Some i =>
      '(t, b, l) ← at_channel i (fun _ s => Ok (false, (set_await_open (ptycommand fd s.1), s.2), [])) t b;
      '(bs, b) ← open_message k (Z.of_nat i) more b;
      Ok (t, b, (Born i :: l) ++ [Reply bs])
  end.

(** A connection in progress has succeeded, with its socket, or failed with a message. *)
Definition channel_connect_done (i : nat) (result : Z + list Z) (t : table) (b : buffer) : res (table * buffer * list sact) :=
  match result with
  | inl sock =>
      '(t, b, l) ← attach_channel i (Twoway sock) t b;
      match channels t !! i with
      | Some (Some (_, x)) =>
          '(bs, b) ← send_msg_channel_open_confirmation x (Z.of_nat i) (recvwindow (io x)) RECV_MAX_CHANNEL_DATA_LEN b;
          Ok (t, b, l ++ [Reply bs])
      | _ => Fault
      end
  | inr errstring =>
      match channels t !! i with
      | Some (Some (_, x)) =>
          '(bs, b) ← send_msg_channel_open_failure (remotechan x) SSH_OPEN_CONNECT_FAILED errstring [] b;
          '(t, b, l) ← drop_channel i t b;
          Ok (t, b, Reply bs :: l)
      | _ => Fault
      end
  end.

(** ** Messages for a channel *)

(** With what the functions of the channel's type answer. *)
Inductive message :=
| OpenConfirmation (init : kind -> Z * option endpoint) | OpenFailure | ChannelRequest (reply : option bool)
| ChannelData (ans : answer) | ExtendedData (ans : answer) | WindowAdjust
| ChannelEof (v : verdict) (rp : Z -> bool) | ChannelClose (v : verdict) (rp : Z -> bool).

(** The channel number of a message, with what is said of an unknown one. *)
Definition getchannel_msg (msg : option string) (t : table) (payload : buffer) : res (nat * kind * buffer) :=
  '(chan, payload) ← buf_getint payload;
  match channels t !! Z.to_nat chan with
  | Some (Some (k, _)) => Ok (Z.to_nat chan, k, payload)
  | _ => Exit (match msg with Some s => String.append s " for unknown channel" | None => "Unknown channel" end)
  end.

(** The channel waits for the answer to its open request. *)
Definition awaited (i : nat) (t : table) : res unit :=
  match channels t !! i with
  | Some (Some (_, x)) => if await_open x then Ok tt else Exit "Unexpected channel reply"
  | _ => Fault
  end.

(** The rest of the handlers of messages, for channel [i] of type [k]. *)
Definition recv_msg_channel_open_confirmation (init : kind -> Z * option endpoint) (i : nat) (k : kind) (payload : buffer)
  (t : table) (b : buffer) : res (table * buffer * list sact) :=
  _ ← awaited i t;
  '(rc, payload) ← buf_getint payload;
  '(tw, payload) ← buf_getint payload;
  '(tm, payload) ← buf_getint payload;
  '(t, b, l) ← at_channel i (fun _ s => Ok (false, (set_opened s.1 rc tw tm, s.2), [])) t b;
  let '(ret, ep) := if k_init k then init k else (0, None) in
  '(t, b, l') ← (match ep with Some ep => attach_channel i ep t b | None => Ok (t, b, []) end);
  if 0 <? ret then '(t, b, l'') ← drop_channel i t b; Ok (t, b, (l ++ l') ++ l'')
  else Ok (t, b, l ++ l').
Definition recv_msg_channel_open_failure (i : nat) (t : table) (b : buffer) : res (table * buffer * list sact) :=
  _ ← awaited i t; drop_channel i t b.
(** A handler of [ChannelLife]. *)
Definition at_input (i : nat) (inp : input) (t : table) (b : buffer) : res (table * buffer * list sact) :=
  at_channel i (fun k => handle is_server (k_check k) (k_close k) recv_window HAVE_WRITEV malloc_ok inp) t b.
(** [reply] is what the [reqhandler] of the type answers. *)
Definition recv_msg_channel_request (reply : option bool) (i : nat) (k : kind) (payload : buffer)
  (t : table) (b : buffer) : res (table * buffer * list sact) :=
  if k_req k then at_input i (PeerRequest reply) t b
  else
    '(_, payload) ← buf_eatstring payload;
    '(wantreply, payload) ← buf_getbool payload;
    at_input i (PeerRequest (if wantreply =? 0 then None else Some false)) t b.
Definition recv_msg_channel_extended_data (ans : answer) (i : nat) (k : kind) (payload : buffer)
  (t : table) (b : buffer) : res (table * buffer * list sact) :=
  if negb (k_client k) then Ok (t, b, [])
  else
    '(datatype, payload) ← buf_getint payload;
    if negb (datatype =? SSH_EXTENDED_DATA_STDERR) then Ok (t, b, [])
    else at_input i (PeerData Extra payload ans) t b.

Definition recv_message (m : message) (payload : buffer) (t : table) (b : buffer) : res (table * buffer * list sact) :=
  '(i, k, payload) ← getchannel_msg (match m with ChannelEof _ _ => Some "EOF" | ChannelClose _ _ => Some "Close" | _ => None end) t payload;
  match m with
  | OpenConfirmation init => recv_msg_channel_open_confirmation init i k payload t b
  | OpenFailure => recv_msg_channel_open_failure i t b
  | ChannelRequest reply => recv_msg_channel_request reply i k payload t b
  | ChannelData ans => at_input i (PeerData Write payload ans) t b
  | ExtendedData ans => recv_msg_channel_extended_data ans i k payload t b
  | WindowAdjust => '(incr, _) ← buf_getint payload; at_input i (PeerAdjust incr) t b
  | ChannelEof v rp => at_input i (PeerEof v rp) t b
  | ChannelClose v rp => at_input i (PeerClose v rp) t b
  end.

(** The loop of [channelio] over [n] slots from [i]. *)
Fixpoint channelio_loop (rs : nat -> round) (n i : nat) (t : table) (b : buffer) : res (table * buffer * list sact) :=
  match n with
  | O => Ok (t, b, [])
  | S n =>
      '(t, b, l) ← at_channel i (fun k => channelio is_server (k_check k) (k_close k) recv_window HAVE_WRITEV (rs i)) t b;
      '(t, b, l') ← channelio_loop rs n (S i) t b;
      Ok (t, b, l ++ l')
  end.

(** ** What happens to a session *)

Inductive sop :=
| PeerOpen (chantypes : list kind) (init : kind -> Z * option endpoint) (payload : buffer)
| OpenInit (fd : Z) (k : kind) (more : list Z)
| Message (m : message) (payload : buffer)
| Attach (i : nat) (ep : endpoint)
| ConnectDone (i : nat) (result : Z + list Z)
| Loop (rs : nat -> round).
Definition exec (o : sop) (t : table) (b : buffer) : res (table * buffer * list sact) :=
  match o with
  | PeerOpen chantypes init payload => recv_msg_channel_open chantypes init payload t b
  | OpenInit fd k more => send_msg_channel_open_init fd k more t b
  | Message m payload => recv_message m payload t b
  | Attach i ep => attach_channel i ep t b
  | ConnectDone i result => channel_connect_done i result t b
  | Loop rs => channelio_loop rs (length (channels t)) 0 t b
  end.
Fixpoint session (os : list sop) (t : table) (b : buffer) : res (table * buffer * list sact) :=
  match os with
  | [] => Ok (t, b, [])
  | o :: os =>
      '(t, b, l) ← exec o t b;
      '(t, b, l') ← session os t b;
      Ok (t, b, l ++ l')
  end.
End session.
