(* ===== verification/ChannelSessionProofs.v ===== *)
(** * Sessions of many channels

    For any peer, whatever bytes it sends, no operation on the table of channels faults, the
    table stays consistent, and every channel in it follows the protocol from the moment it
    is opened until it is removed. *)

From Stdlib Require Import ZArith Lia Bool.
From stdpp Require Import base numbers list strings relations.
From S2P Require Import Prelude DropbearBuffer DropbearBufferProofs CircBuffer Channel ChannelProofs ChannelLife ChannelLifeProofs ChannelTheorems ChannelSession.
Open Scope Z_scope.

Lemma wp_relax {A} (m : M A) Q b : wp Total m Q b -> wp Partial m Q b.
Proof. unfold wp. by destruct (m b) as [[a b']| |]. Qed.

(** ** Counting *)

Definition live {A} (l : list (option A)) : Z := zlen (omap id l).
Definition one {A} (o : option A) : Z := match o with Some _ => 1 | None => 0 end.
Lemma live_app {A} (l l' : list (option A)) : live (l ++ l') = live l + live l'.
Proof. unfold live. rewrite omap_app, length_app. lia. Qed.
Lemma live_insert {A} (l : list (option A)) i o o' : l !! i = Some o -> live (<[i := o']> l) = live l - one o + one o'.
Proof.
  intros Hi. pose proof (lookup_lt_Some _ _ _ Hi). rewrite insert_take_drop by done.
  rewrite <- (take_drop_middle l i o Hi) at 3. rewrite !live_app.
  assert (H1 : forall (o : option A) l, live (o :: l) = one o + live l) by (intros [] ?; unfold live, one; cbn [omap list_omap id length]; lia).
  rewrite !H1. lia.
Qed.
Lemma live_none {A} n : live (replicate n (@None A)) = 0.
Proof. induction n as [|n IH]; [done|]. unfold live in *. cbn. exact IH. Qed.
Lemma live_bound {A} (l : list (option A)) : 0 <= live l <= zlen l.
Proof. unfold live. induction l as [|[] l IH]; cbn [omap list_omap id length] in *; lia. Qed.
Lemma live_pos {A} (l : list (option A)) i a : l !! i = Some (Some a) -> 1 <= live l.
Proof. intros Hi. pose proof (live_insert l i (Some a) None Hi) as H. pose proof (live_bound (<[i := None]> l)). unfold one in H. lia. Qed.

(** ** Watching a slot *)

(** Free, or used by a channel in some phase. *)
Definition watch1 (i : nat) (s : option phase) (a : sact) : option (option phase) :=
  match a with
  | Born j => if decide (j = i) then match s with None => Some (Some Open) | Some _ => None end else Some s
  | Gone j => if decide (j = i) then match s with Some _ => Some None | None => None end else Some s
  | At j a => if decide (j = i) then match s with Some p => Some <$> step_act p a | None => None end else Some s
  | Reply _ => Some s
  end.
Fixpoint watch (i : nat) (s : option phase) (l : list sact) : option (option phase) :=
  match l with [] => Some s | a :: l => s ← watch1 i s a; watch i s l end.
Lemma watch_app i s l l' s' : watch i s l = Some s' -> watch i s (l ++ l') = watch i s' l'.
Proof.
  revert s. induction l as [|a l IH]; intros s; cbn; [by intros [= ->]|]. destruct (watch1 i s a); cbn; [apply IH|done].
Qed.
Lemma watch_at i p l q : follows p l = Some q -> watch i (Some p) (map (At i) l) = Some (Some q).
Proof.
  revert p. induction l as [|a l IH]; intros p; cbn; [by intros [= ->]|]. rewrite decide_True by done.
  destruct (step_act p a); cbn; [apply IH|done].
Qed.
Lemma watch_other i j s l : i <> j -> watch j s (map (At i) l) = Some s.
Proof. intros Hne. induction l as [|a l IH]; cbn; [done|]. by rewrite decide_False. Qed.

Definition slot_phase (t : table) (i : nat) : option phase :=
  match channels t !! i with Some (Some (_, x)) => Some (phase_of x) | _ => None end.

(** ** Memory safety alone *)

(** What a channel has even when it was connected after its end: buffers that cover its
    windows.  With it no handler faults; assertions about the protocol may fail. *)
Section memory.
Context (W N : Z) (hv : bool) (malloc_ok : Z -> bool) (is_server has_check has_handler : bool).
Context (HN : 13 <= N) (Hm : malloc_ok W = true).

Record mem_ok (x : chan) : Prop := mkMemOk {
  h_ok : chan_ok W (io x); h_owed : owed (io x) <= W; h_window : is_u32 (transwindow x); h_max : is_u32 (transmaxpacket x)
}.
Lemma life_mem gentle x : life_ok W gentle x -> mem_ok x.
Proof. by intros []. Qed.
Lemma mem_set_io x c : mem_ok x -> chan_ok W c -> owed c <= W -> mem_ok (set_io x c).
Proof. by intros [] ??. Qed.
Lemma mem_close x fd how : mem_ok x -> mem_ok (set_io x (close_chan_fd (io x) fd how).1).
Proof.
  intros [H1 H2 H3 H4]. destruct (close_chan_fd_spec (io x) fd how) as (w & r & e & evs & -> & _). split; try done. by apply ok_set_fds.
Qed.

Definition lsafe {A} (m : L A) (R : A -> chan -> Prop) (x : chan) (b : buffer) : Prop :=
  rwp Partial (m (x, b)) (fun r => mem_ok r.1.2.1 /\ ready_at N r.1.2.2 [] /\ R r.1.1 r.1.2.1).
Lemma lsafe_bind {A B} (m : L A) (f : A -> L B) R S x b : lsafe m R x b ->
  (forall a x' b', mem_ok x' -> ready_at N b' [] -> R a x' -> lsafe (f a) S x' b') -> lsafe (m ≫= f) S x b.
Proof.
  unfold lsafe, mbind, L_bind. intros Hx Hf. destruct (m (x, b)) as [[[a [x' b']] l]| |]; cbn in *; [|done..].
  destruct Hx as (H1 & H2 & H3). specialize (Hf a x' b' H1 H2 H3). by destruct (f a (x', b')) as [[[c s] l']| |].
Qed.
Lemma lsafe_ret {A} (a : A) (R : A -> chan -> Prop) x b : mem_ok x -> ready_at N b [] -> R a x -> lsafe (mret a) R x b.
Proof. done. Qed.
Lemma lsafe_chan x b : mem_ok x -> ready_at N b [] -> lsafe the_chan (fun y z => y = x /\ z = x) x b.
Proof. done. Qed.
Lemma lsafe_if {A} (c : bool) (m1 m2 : L A) R x b : (c = true -> lsafe m1 R x b) -> (c = false -> lsafe m2 R x b) ->
  lsafe (if c then m1 else m2) R x b.
Proof. destruct c; auto. Qed.
Lemma lsafe_lwp {A} (m : L A) (R : A -> chan -> Prop) x b :
  lwp m (fun a x' b' _ => mem_ok x' /\ ready_at N b' [] /\ R a x') x b -> lsafe m R x b.
Proof. intros (a & x' & b' & l & E & H). unfold lsafe. by rewrite E. Qed.
Lemma lsafe_close fd how x b : mem_ok x -> ready_at N b [] -> lsafe (close_fd fd how) (fun _ _ => True) x b.
Proof.
  intros Hx Hb. apply lsafe_lwp, lwp_close. pose proof (mem_close x fd how Hx). by destruct (close_chan_fd (io x) fd how).
Qed.
Lemma lsafe_modify f x b : mem_ok (f x) -> ready_at N b [] -> lsafe (modify f) (fun _ _ => True) x b.
Proof. done. Qed.
Lemma lsafe_log l x b : mem_ok x -> ready_at N b [] -> lsafe (log l) (fun _ _ => True) x b.
Proof. done. Qed.
Lemma lsafe_pending x b : mem_ok x -> ready_at N b [] -> lsafe pending (fun _ _ => True) x b.
Proof.
  intros Hx Hb. unfold lsafe, pending, write_pending. cbn [fst]. destruct (ok_write _ _ (h_ok _ Hx)) as [w ->]. by destruct (_ && _).
Qed.

(** A message of a type and the channel number. *)
Lemma lsafe_short {A} v (k : L A) R x b : mem_ok x -> ready_at N b [] -> is_u8 v ->
  (forall b', ready_at N b' [] -> lsafe k R x b') ->
  lsafe (_ ← on_payload (buf_putbyte v); x ← the_chan; _ ← on_payload (buf_putint (remotechan x)); _ ← encrypt_packet; k) R x b.
Proof using HN.
  intros Hx Hb Hv Hk.
  assert (Hp : lwp (_ ← on_payload (buf_putbyte v); x ← the_chan; _ ← on_payload (buf_putint (remotechan x)); _ ← encrypt_packet; mret tt)
    (fun _ x' b' _ => x' = x /\ ready_at N b' []) x b).
  { apply (lwp_short N); [done|done|done|]. intros b' Hb'. by apply lwp_ret. }
  destruct Hp as ([] & x' & b' & l & E & -> & Hb'). specialize (Hk b' Hb'). unfold lsafe in *. revert E.
  unfold mbind, L_bind, mret, L_ret. destruct (on_payload (buf_putbyte v) (x, b)) as [[[u1 s1] l1]| |]; [|done..].
  destruct (the_chan s1) as [[[x2 s2] l2]| |]; [|done..]. destruct (on_payload _ s2) as [[[u3 s3] l3]| |]; [|done..].
  destruct (encrypt_packet s3) as [[[u4 s4] l4]| |]; [|done..]. intros [= -> _]. by destruct (k (x, b')) as [[[a s] l5]| |].
Qed.

Ltac lmem := repeat first
  [eassumption | exact I
  |lazymatch goal with
   | |- lsafe (mbind _ _) _ _ _ => eapply lsafe_bind; [|intros ? ? ? ? ? ?]
   | |- lsafe (if _ then _ else _) _ _ _ => apply lsafe_if; intros ?
   | |- lsafe (mret _) _ _ _ => apply lsafe_ret
   | |- lsafe the_chan _ _ _ => apply lsafe_chan
   | |- lsafe (close_fd _ _) _ _ _ => apply lsafe_close
   | |- lsafe (log _) _ _ _ => apply lsafe_log
   | |- lsafe pending _ _ _ => apply lsafe_pending
   | H : ?y = ?x /\ ?z = ?x |- _ => destruct H as [-> ->]
   end].

Lemma lsafe_eof x b : mem_ok x -> ready_at N b [] -> lsafe send_msg_channel_eof (fun _ _ => True) x b.
Proof using HN. intros Hx Hb. apply lsafe_short; [done|done|done|]. intros b' Hb'. apply lsafe_modify; [by destruct Hx|done]. Qed.
Lemma lsafe_send_close x b : mem_ok x -> ready_at N b [] -> lsafe (send_msg_channel_close has_handler) (fun _ _ => True) x b.
Proof using HN.
  intros Hx Hb. unfold send_msg_channel_close. eapply (lsafe_bind _ _ (fun _ _ => True)); [lmem|].
  intros _ x1 b1 H1 Hb1 _. apply lsafe_short; [done|done|done|]. intros b2 Hb2.
  eapply (lsafe_bind _ _ (fun _ _ => True)); [apply lsafe_modify; [by destruct H1|done]|]. intros _ x3 b3 H3 Hb3 _. lmem.
Qed.
Lemma lsafe_reply t x b : mem_ok x -> ready_at N b [] -> is_u8 t ->
  lsafe (x ← the_chan; if sent_close x then mret tt
         else _ ← on_payload (buf_putbyte t); x ← the_chan; _ ← on_payload (buf_putint (remotechan x)); encrypt_packet) (fun _ _ => True) x b.
Proof using HN.
  intros Hx Hb Ht. eapply lsafe_bind; [by apply lsafe_chan|]. intros y x1 b1 H1 Hb1 [-> ->]. apply lsafe_if; intros _; [by apply lsafe_ret|].
  pose proof (lsafe_short t (mret tt) (fun _ _ => True) x b1 H1 Hb1 Ht (fun b' Hb' => lsafe_ret tt _ x b' H1 Hb' I)) as H.
  unfold lsafe in *. revert H. unfold mbind, L_bind, mret, L_ret. destruct (on_payload (buf_putbyte t) (x, b1)) as [[[u1 s1] l1]| |]; [|done..].
  destruct (the_chan s1) as [[[x2 s2] l2]| |]; [|done..]. destruct (on_payload _ s2) as [[[u3 s3] l3]| |]; [|done..].
  by destruct (encrypt_packet s3) as [[[u4 s4] l4]| |].
Qed.

Lemma lsafe_data (ext : bool) rd x b : mem_ok x -> ready_at N b [] ->
  match rd (data_maxlen ext x N) with Got bs => Forall is_u8 bs /\ 1 <= zlen bs <= data_maxlen ext x N | _ => True end ->
  lsafe (send_msg_channel_data ext rd) (fun _ _ => True) x b.
Proof using HN.
  intros Hx Hb Hans. destruct (sent_close x) eqn:Hc.
  { unfold lsafe, send_msg_channel_data, mbind, L_bind, the_chan, assert. cbn. by rewrite Hc. }
  set (fd := if ext then errfd (io x) else readfd (io x)). destruct (Z.le_gt_cases 0 fd) as [Hfd|Hfd].
  2:{ unfold lsafe, send_msg_channel_data, mbind, L_bind, the_chan, assert. cbn. rewrite Hc. cbn. fold fd. by rewrite (proj2 (Z.leb_gt 0 fd)). }
  apply lsafe_lwp. apply (lwp_send_data N); try done; [apply Hx|apply Hx|case_match; [by destruct Hans as [? [? ?]]|done..]|].
  intros b' _ Hb'. fold fd. pose proof (mem_close x fd SHUT_RD Hx) as Hcl. pose proof (h_window _ Hx) as Htw. unfold data_maxlen, is_u32 in *.
  destruct (rd _) as [bs| | |]; [|by destruct (close_chan_fd (io x) fd SHUT_RD)..|done].
  split; [|done]. destruct Hx. split; try done. cbn. unfold is_u32 in *. lia.
Qed.
Lemma lsafe_write w ans cb x b : mem_ok x -> ready_at N b [] -> get_buf w (io x) = Some cb -> answer_ok (ans cb) (write_limit hv cb []) ->
  lsafe (write_out W hv w ans) (fun _ _ => True) x b.
Proof using HN.
  intros Hx Hb Hcb Hans. pose proof (h_owed _ Hx) as Ho.
  destruct (writechannel_spec W hv (match w with Write => writefd (io x) | Extra => errfd (io x) end) w (io x) cb None (ans cb))
    as (ok & more & c' & evs & E & Ha & _); [apply Hx|done|cbn; lia|done|].
  apply lsafe_lwp. eapply (lwp_io N _ tt c' evs); [done|done|by rewrite Hcb, E|]. intros b' Hb'. split; [|done].
  apply mem_set_io; [done|apply Ha|]. rewrite (a_owed _ _ _ _ _ _ _ _ _ _ _ Ha). pose proof (a_more _ _ _ _ _ _ _ _ _ _ _ Ha) as H0. cbn in H0. lia.
Qed.

Lemma lsafe_check v rp x b : mem_ok x -> ready_at N b [] -> lsafe (check_close is_server has_check has_handler v rp) (fun _ _ => True) x b.
Proof using HN.
  intros Hx Hb. unfold check_close, close_allowed, remove_channel.
  eapply (lsafe_bind _ _ (fun _ _ => True)).
  { eapply lsafe_bind; [by apply lsafe_chan|]. intros y x1 b1 H1 Hb1 [-> ->]. apply lsafe_if; intros _; [by apply lsafe_ret|].
    eapply (lsafe_bind _ _ (fun _ _ => True)); [apply lsafe_modify; [by destruct H1|done]|]. intros _ x2 b2 H2 Hb2 _. by apply lsafe_ret. }
  intros allowed x1 b1 H1 Hb1 _. eapply lsafe_bind; [by apply lsafe_chan|]. intros y x2 b2 H2 Hb2 [-> ->].
  eapply (lsafe_bind _ _ (fun _ _ => True)); [lmem|].
  intros _ x3 b3 H3 Hb3 _. eapply lsafe_bind; [by apply lsafe_chan|]. intros y x4 b4 H4 Hb4 [-> ->].
  eapply lsafe_bind; [by apply lsafe_pending|]. intros p x5 b5 H5 Hb5 _. apply lsafe_if; intros _.
  - eapply (lsafe_bind _ _ (fun _ _ => True)); [apply lsafe_if; intros _; [by apply lsafe_send_close|by apply lsafe_ret]|].
    intros _ x6 b6 H6 Hb6 _. lmem.
  - eapply (lsafe_bind _ _ (fun _ _ => True)); [lmem|]. intros _ x6 b6 H6 Hb6 _.
    eapply lsafe_bind; [by apply lsafe_chan|]. intros y x7 b7 H7 Hb7 [-> ->].
    eapply (lsafe_bind _ _ (fun _ _ => True)); [apply lsafe_if; intros _; [by apply lsafe_eof|by apply lsafe_ret]|].
    intros _ x8 b8 H8 Hb8 _. eapply lsafe_bind; [by apply lsafe_chan|]. intros y x9 b9 H9 Hb9 [-> ->].
    eapply lsafe_bind; [by apply lsafe_pending|]. intros p' x10 b10 H10 Hb10 _.
    eapply (lsafe_bind _ _ (fun _ _ => True)); [apply lsafe_if; intros _; [by apply lsafe_send_close|by apply lsafe_ret]|].
    intros _ x11 b11 H11 Hb11 _. by apply lsafe_ret.
Qed.

Lemma lsafe_part (c : bool) (m : L unit) x b : mem_ok x -> ready_at N b [] -> (c = true -> lsafe m (fun _ _ => True) x b) ->
  lsafe (if c then _ ← m; mret true else mret false) (fun _ _ => True) x b.
Proof.
  intros Hx Hb H. apply lsafe_if; intros Hc; [|by apply lsafe_ret]. eapply lsafe_bind; [by apply H|]. intros _ x' b' ? ? _. by apply lsafe_ret.
Qed.
Lemma lsafe_round r x b : mem_ok x -> ready_at N b [] -> round_ok False hv r ->
  lsafe (channelio is_server has_check has_handler W hv r) (fun _ _ => True) x b.
Proof using HN.
  intros Hx Hb [Ro Re Ri Rx]. unfold channelio. eapply lsafe_bind; [by apply lsafe_chan|]. intros y x1 b1 H1 Hb1 [-> ->].
  eapply lsafe_bind; [apply lsafe_part; [done|done|]; intros _; apply lsafe_data; [done|done|apply Ro]|]. intros d1 x2 b2 H2 Hb2 _.
  eapply lsafe_bind; [by apply lsafe_chan|]. intros y x3 b3 H3 Hb3 [-> ->].
  eapply lsafe_bind; [apply lsafe_part; [done|done|]; intros _; apply lsafe_data; [done|done|apply Re]|]. intros d2 x4 b4 H4 Hb4 _.
  eapply lsafe_bind; [by apply lsafe_chan|]. intros y x5 b5 H5 Hb5 [-> ->]. destruct (ok_write _ _ (h_ok _ H5)) as [wb Hwb].
  eapply lsafe_bind; [apply lsafe_part; [done|done|]; intros _; by apply (lsafe_write Write (write_in r) wb); [..|apply Ri]|]. intros d3 x6 b6 H6 Hb6 _.
  eapply lsafe_bind; [by apply lsafe_chan|]. intros y x7 b7 H7 Hb7 [-> ->].
  eapply lsafe_bind.
  { apply lsafe_part; [done|done|]. intros [[Hr _]%andb_true_iff _]%andb_true_iff. unfold ERRFD_IS_WRITE, ERRFD_IS_READ in Hr.
    destruct (extrabuf (io x6)) as [e|] eqn:Ee; [|done]. by apply (lsafe_write Extra (write_err r) e); [..|apply Rx]. }
  intros d4 x8 b8 H8 Hb8 _. apply lsafe_if; intros _; [by apply lsafe_check|by apply lsafe_ret].
Qed.

Lemma lsafe_recv w payload ans x b : mem_ok x -> ready_at N b [] -> wf payload ->
  (forall cb, get_buf w (io x) = Some cb -> answer_ok ans (write_limit hv cb (payload_data payload))) ->
  lsafe (recv_msg_channel_data W hv malloc_ok w payload ans) (fun _ _ => True) x b.
Proof using HN Hm.
  intros Hx Hb Hwf Hans.
  assert (Hexit : forall msg, common_recv_msg_channel_data W hv malloc_ok (io x) (fd_of w (io x)) w payload ans = Exit msg ->
    lsafe (recv_msg_channel_data W hv malloc_ok w payload ans) (fun _ _ => True) x b).
  { intros msg E. unfold lsafe, recv_msg_channel_data, on_io. cbn [fst]. fold (fd_of w (io x)). by rewrite E. }
  destruct (recv_eof (io x)) eqn:He; [eapply Hexit; unfold common_recv_msg_channel_data; by rewrite He|].
  destruct (decide (get_buf w (io x) = None \/ fd_of w (io x) < 0)) as [Hno|Hyes]; [unfold lsafe; by rewrite ignored_data|].
  destruct (get_buf w (io x)) as [cb|] eqn:Hcb; [|by destruct Hyes; left]. assert (Hfd : 0 <= fd_of w (io x)) by lia.
  set (n := LOAD32H (take 4 (drop (Z.to_nat (pos payload)) (data payload)))).
  destruct (decide (pos payload + 4 + n <= len payload /\ n <= recvwindow (io x))) as [[Hfit Hwin]|Hbad].
  - pose proof (holds_intro payload Hwf Hfit) as Hh. pose proof Hh as [_ Hint _ _]. fold n in Hint.
    destruct (recv_spec W hv malloc_ok (io x) (fd_of w (io x)) w cb payload (payload_data payload) ans)
      as (c' & pl & evs & cb' & ok & E & K1 & K2 & _); try done; [apply Hx|apply Hx|lia|by apply Hans|].
    apply lsafe_lwp. eapply (lwp_io N _ tt c' evs); [done|done|fold (fd_of w (io x)); by rewrite E|]. intros b' Hb'. split; [|done]. by apply mem_set_io.
  - destruct (bad_data W hv malloc_ok (io x) (fd_of w (io x)) w cb payload ans) as [msg E]; try done. by eapply Hexit.
Qed.

(** Every handler, for any peer. *)
Lemma lsafe_handle i x b : mem_ok x -> ready_at N b [] -> input_sys False hv i x ->
  lsafe (handle is_server has_check has_handler W hv malloc_ok i) (fun _ _ => True) x b.
Proof using HN Hm.
  intros Hx Hb Hi. destruct i as [r|w payload ans|incr|reply|v rp|v rp]; cbn [handle].
  - by apply lsafe_round.
  - destruct Hi as (Hwf & Hans & _). eapply lsafe_bind; [by apply lsafe_recv|]. intros _ x1 b1 H1 Hb1 _. by apply lsafe_ret.
  - eapply (lsafe_bind _ _ (fun _ _ => True)); [|intros _ x1 b1 H1 Hb1 _; by apply lsafe_ret]. unfold recv_msg_channel_window_adjust.
    eapply (lsafe_bind _ _ (fun _ _ => True)).
    + apply lsafe_modify; [|done]. destruct Hx. split; try done. cbn. apply u32_range.
    + intros _ x1 b1 H1 Hb1 _. apply lsafe_modify; [|done]. destruct H1. split; try done. cbn. unfold is_u32, TRANS_MAX_WINDOW in *. lia.
  - eapply (lsafe_bind _ _ (fun _ _ => True)); [|intros _ x1 b1 H1 Hb1 _; by apply lsafe_ret].
    destruct reply as [[]|]; [by apply lsafe_reply..|by apply lsafe_ret].
  - unfold recv_msg_channel_eof. eapply (lsafe_bind _ _ (fun _ _ => True)); [apply lsafe_modify; [|done]|intros _ x1 b1 H1 Hb1 _; by apply lsafe_check].
    destruct Hx as [[] ? ? ?]. by split.
  - unfold recv_msg_channel_close. eapply (lsafe_bind _ _ (fun _ _ => True)); [apply lsafe_modify; [|done]|intros _ x1 b1 H1 Hb1 _; by apply lsafe_check].
    destruct Hx as [[] ? ? ?]. by split.
Qed.

Lemma attach_mem ep x : mem_ok x -> rwp Partial (attach W malloc_ok ep x) mem_ok.
Proof.
  intros Hx. pose proof Hx as [H1 H2 H3 H4].
  assert (Hc : forall w r e bd ex, (forall cb, ex = Some cb -> Circ.inv cb /\ Circ.size cb = W) -> held ex <= held (extrabuf (io x)) ->
    mem_ok (set_io x (connect (io x) w r e bd ex))).
  { intros w r e bd ex Hex Hle. apply mem_set_io; [done| |unfold owed in *; cbn; lia].
    destruct H1. split; try done. intros [] cb Hcb; [by apply (ok_bufs Write)|by apply Hex]. }
  assert (Hold : forall cb, extrabuf (io x) = Some cb -> Circ.inv cb /\ Circ.size cb = W) by (intros cb; apply (ok_bufs _ _ H1 Extra)).
  destruct ep as [w r e| |fd]; cbn [attach]; [by apply Hc| |by apply Hc].
  unfold cli_init_stdpipe_sess, Circ.cbuf_new. destruct (_ <? _); [done|]. destruct (malloc_ok 20); [|done]. cbn. apply Hc.
  - intros cb [= <-]. destruct (fresh_ok W 0 (ok_W _ _ H1)) as [[_ _ _ _ Hbuf] _]. by apply (Hbuf Write).
  - pose proof (held_nonneg W (io x) Extra H1). cbn in *. lia.
Qed.
End memory.

Section session.
Context (W N : Z) (hv : bool) (malloc_ok : Z -> bool) (is_server : bool).
Context (HW : 0 < W <= Circ.MAX_CBUF_SIZE) (HN : 17 <= N) (Hm : malloc_ok W = true).
(** Whether the protocol is watched, or memory safety alone. *)
Context (tracked : bool).
Definition chan_inv (x : chan) : Prop := if tracked then life_ok W False x else mem_ok W x.
Lemma life_inv x : life_ok W False x -> chan_inv x.
Proof. intros Hl. unfold chan_inv. destruct tracked; [done|by eapply life_mem]. Qed.
Lemma inv_mem x : chan_inv x -> mem_ok W x.
Proof. unfold chan_inv. destruct tracked; [apply life_mem|done]. Qed.

Record session_ok (t : table) (b : buffer) : Prop := mkSessionOk {
  s_life : forall i k x, channels t !! i = Some (Some (k, x)) -> chan_inv x;
  s_count : chancount t = live (channels t);
  s_size : 1 <= chansize t < MAX_CHANNELS + Z.of_nat CHAN_EXTEND_SIZE;
  s_buf : ready_at N b []
}.

(** What an operation does to a session. *)
Definition evolves (t : table) (r : table * buffer * list sact) : Prop :=
  let '(t', b', l) := r in session_ok t' b' /\ (tracked = true -> forall i, watch i (slot_phase t i) l = Some (slot_phase t' i)).
Lemma evolves_refl t b : session_ok t b -> evolves t (t, b, []).
Proof. by split. Qed.
Lemma evolves_trans t t1 b1 l1 t2 b2 l2 : evolves t (t1, b1, l1) -> evolves t1 (t2, b2, l2) -> evolves t (t2, b2, l1 ++ l2).
Proof. intros [A1 A2] [B1 B2]. split; [done|]. intros Ht i. rewrite (watch_app _ _ _ _ _ (A2 Ht i)). auto. Qed.

(** ** A handler at a channel *)

Definition behaves (x : chan) (r : bool * (chan * buffer) * list act) : Prop :=
  let '(removed, (x', b'), l) := r in
  chan_inv x' /\ ready_at N b' [] /\ (tracked = true -> exists p, follows (phase_of x) l = Some p /\ (removed = false -> p = phase_of x')).

Lemma at_evolves i m t b : session_ok t b ->
  (forall k x, channels t !! i = Some (Some (k, x)) -> rwp Partial (m k (x, b)) (behaves x)) ->
  rwp Partial (at_channel i m t b) (evolves t).
Proof.
  intros Ht Hb. unfold at_channel. destruct (channels t !! i) as [[[k x]|]|] eqn:Ei; [|by apply evolves_refl..].
  apply Circ.rwp_bind. eapply Circ.rwp_mono; [by apply Hb|]. intros [[removed [x' b']] l] (Hl & Hb' & Hfol).
  destruct Ht as [T1 T2 T3 T4]. pose proof (live_pos _ _ _ Ei). pose proof (lookup_lt_Some _ _ _ Ei) as Hlt.
  pose proof (live_bound (channels t)). unfold chansize, MAX_CHANNELS, CHAN_EXTEND_SIZE in T3.
  assert (Hother : forall o c j, i <> j -> slot_phase (mkTable (<[i := o]> (channels t)) c) j = slot_phase t j)
    by (intros o c j Hne; unfold slot_phase; cbn; by rewrite list_lookup_insert_ne).
  assert (Hlife : forall o c j k x1, (forall k x1, o = Some (k, x1) -> chan_inv x1) ->
    channels (mkTable (<[i := o]> (channels t)) c) !! j = Some (Some (k, x1)) -> chan_inv x1).
  { intros o c j k1 x1 Ho Hj. cbn in Hj. destruct (decide (i = j)) as [->|Hne]; [rewrite list_lookup_insert_eq in Hj by done|rewrite list_lookup_insert_ne in Hj by done; eauto].
    injection Hj as Hj. eauto. }
  destruct removed; (split; [split; cbn [chancount channels]; [intros j k1 x1; apply (Hlife _ 0)| | |done]|]).
  - done.
  - rewrite (live_insert _ _ _ None Ei), T2. unfold u32. cbn [one]. rewrite Z.mod_small; lia.
  - unfold chansize. cbn. rewrite length_insert. unfold MAX_CHANNELS, CHAN_EXTEND_SIZE. lia.
  - intros Htr j. destruct (Hfol Htr) as (p & Hf & Hp). destruct (decide (i = j)) as [<-|Hne].
    + unfold slot_phase at 1. rewrite Ei. erewrite watch_app by by apply watch_at. cbn. rewrite decide_True by done. cbn.
      unfold slot_phase. cbn. by rewrite list_lookup_insert_eq.
    + erewrite watch_app by by apply watch_other. cbn. rewrite decide_False by done. cbn. by rewrite Hother.
  - by intros ? ? [= _ <-].
  - rewrite (live_insert _ _ _ _ Ei), T2. cbn [one]. lia.
  - unfold chansize. cbn. rewrite length_insert. unfold MAX_CHANNELS, CHAN_EXTEND_SIZE. lia.
  - intros Htr j. destruct (Hfol Htr) as (p & Hf & Hp). destruct (decide (i = j)) as [<-|Hne].
    + unfold slot_phase at 1. rewrite Ei. erewrite watch_at by done. unfold slot_phase. cbn. rewrite list_lookup_insert_eq by done. by rewrite (Hp eq_refl).
    + rewrite watch_other by done. by rewrite Hother.
Qed.

(** ** Handlers, whatever the peer sends *)

(** The answer of the system fits the data of the message. *)
Definition answers (w : which) (payload : buffer) (ans : answer) (x : chan) : Prop :=
  forall cb, get_buf w (io x) = Some cb -> answer_ok ans (write_limit hv cb (payload_data payload)).

Lemma run_behaves kc kh i x b : chan_inv x -> ready_at N b [] -> input_sys False hv i x ->
  rwp Partial (handle is_server kc kh W hv malloc_ok i (x, b)) (behaves x).
Proof using HN Hm.
  intros Hl Hb Hi. unfold behaves, chan_inv in *. destruct tracked.
  - assert (Hr : run_ok W N False x x b [] [] 0) by by apply run_start.
    destruct (handle_any W N False ltac:(lia) hv malloc_ok Hm is_server kc kh ltac:(done) x x b [] [] 0 i Hr Hi)
      as [(removed & x' & b' & l & -> & [] & _)|[msg ->]]; [|done]. cbn. split_and!; try done. intros _. by exists (phase_of x').
  - eapply Circ.rwp_mono; [apply (lsafe_handle W N hv malloc_ok is_server kc kh ltac:(lia) Hm i x b Hl Hb Hi)|].
    intros [[removed [x' b']] l] (H1 & H2 & _). done.
Qed.

(** ** Operations on the table *)

Lemma loop_evolves rs n i t b : (forall j, round_ok False hv (rs j)) -> session_ok t b ->
  rwp Partial (channelio_loop is_server W hv rs n i t b) (evolves t).
Proof using HN Hm.
  intros Hrs. revert i t b. induction n as [|n IH]; intros i t b Ht; cbn [channelio_loop]; [by apply evolves_refl|].
  apply Circ.rwp_bind. eapply Circ.rwp_mono.
  { apply at_evolves; [done|]. intros k x Hx.
    apply (run_behaves (k_check k) (k_close k) (Round (rs i)) x b); [by eapply s_life|apply Ht|apply Hrs]. }
  intros [[t1 b1] l1] E1. apply Circ.rwp_bind. eapply Circ.rwp_mono; [apply IH, E1|]. intros [[t2 b2] l2] E2. by eapply evolves_trans.
Qed.

(** A channel whose descriptors may be set: nothing was ended on it yet. *)
Definition attachable (x : chan) : Prop :=
  sent_eof x = false /\ sent_close x = false /\ errfd (io x) = FD_CLOSED /\ extrabuf (io x) = None.

Lemma attach_life ep x : life_ok W False x -> attachable x -> endpoint_ok ep ->
  rwp Partial (attach W malloc_ok ep x) (fun x' => life_ok W False x' /\ phase_of x' = phase_of x /\ remotechan x' = remotechan x).
Proof using HW.
  intros [L1 L2 L3 L4 L5 L6 L7 L8 L9] (Heof & Hcl & U3 & U4) [_ Hep].
  assert (Hok : forall c w r e bd ex, io x = c -> (forall cb, ex = Some cb -> Circ.inv cb /\ Circ.size cb = W) -> chan_ok W (connect c w r e bd ex)).
  { intros c w r e bd ex <- Hex. destruct L1. split; try done. intros [] cb Hcb; [by apply (ok_bufs Write)|by apply Hex]. }
  assert (Hfds : forall w r e bd ex, owed (connect (io x) w r e bd ex) <= W -> (forall cb, ex = Some cb -> Circ.inv cb /\ Circ.size cb = W) ->
    fds_ok (connect (io x) w r e bd ex) ->
    life_ok W False (set_io x (connect (io x) w r e bd ex)) /\ phase_of (set_io x (connect (io x) w r e bd ex)) = phase_of x /\
    remotechan (set_io x (connect (io x) w r e bd ex)) = remotechan x).
  { intros w r e bd ex Ho Hex Hf. split; [|done]. split; cbn; try done; [by apply Hok|congruence|congruence]. }
  assert (Howed : forall w r e bd ex, held ex = 0 -> owed (connect (io x) w r e bd ex) <= W).
  { intros w r e bd ex Hh. unfold owed in *. cbn in *. rewrite U4 in L2. cbn in L2. lia. }
  destruct ep as [w r e| |fd]; cbn [attach]; unfold noptycommand, cli_init_stdpipe_sess, ptycommand; rewrite ?U3, ?U4.
  - apply Hfds; [by apply Howed|done|by split].
  - unfold Circ.cbuf_new. destruct (_ <? _); [done|]. destruct (malloc_ok 20); [|done]. cbn. apply Hfds; [by apply Howed| |by split].
    intros cb [= <-]. destruct (fresh_ok W 0 HW) as [[_ _ _ _ Hbuf] _]. by apply (Hbuf Write).
  - cbn. apply Hfds; [by apply Howed|done|]. split. cbn. intros _. cbn in Hep. apply Forall_cons in Hep as [Hep _].
    split_and!; try done; lia.
Qed.

Lemma attach_inv ep x : chan_inv x -> (tracked = true -> attachable x) -> endpoint_ok ep ->
  rwp Partial (attach W malloc_ok ep x) (fun x' => chan_inv x' /\ (tracked = true -> phase_of x' = phase_of x)).
Proof using HW.
  unfold chan_inv. destruct tracked; intros Hl Hu Hep.
  - eapply Circ.rwp_mono; [apply attach_life; auto|]. by intros x' (H1 & H2 & _).
  - eapply Circ.rwp_mono; [by apply attach_mem|]. done.
Qed.

Lemma attach_evolves i ep t b : session_ok t b -> endpoint_ok ep ->
  (forall k x, channels t !! i = Some (Some (k, x)) -> tracked = true -> attachable x) ->
  rwp Partial (attach_channel W malloc_ok i ep t b) (evolves t).
Proof using HW.
  intros Ht Hep Hu. apply at_evolves; [done|]. intros k x Hx. cbn [fst snd]. apply Circ.rwp_bind.
  eapply Circ.rwp_mono; [apply attach_inv; [by eapply s_life|by eapply Hu|done]|].
  intros x' [Hl Hp]. cbn. split_and!; [done|apply Ht|]. intros Htr. exists (phase_of x). split; [done|]. intros _. symmetry. auto.
Qed.

Lemma drop_evolves i t b : session_ok t b -> rwp Partial (drop_channel is_server i t b) (evolves t).
Proof.
  intros Ht. apply at_evolves; [done|]. intros k x Hx. unfold remove_channel, the_chan, log, mbind, L_bind. cbn.
  pose proof (s_life _ _ Ht _ _ _ Hx). pose proof (s_buf _ _ Ht).
  destruct (is_server || _); cbn; (split_and!; [done|done|by eexists]).
Qed.

(** ** Opening *)

Lemma first_free_spec l : l !! first_free l = Some None \/ first_free l = length l.
Proof. induction l as [|[s|] l IH]; cbn; [by right| |by left]. destruct IH as [?|?]; [by left|right; by f_equal]. Qed.

Lemma new_chan_life rc tw tm : is_u32 tw -> is_u32 tm ->
  rwp Partial (new_chan W malloc_ok rc tw tm) (fun x => life_ok W False x /\ phase_of x = Open /\ attachable x).
Proof using HW.
  intros Htw Htm. unfold new_chan, Circ.cbuf_new. destruct (_ <? _); [done|]. destruct (malloc_ok 20); [|done]. cbn.
  destruct (fresh_ok W 0 HW) as [[_ _ _ _ Hbuf] _]. split; [|split; [done|by split_and!]].
  split; cbn; try done; [|unfold owed; cbn; lia]. split; cbn; try done; lia.
Qed.

(** A slot that was free gets a channel. *)
Lemma born_evolves t b slots i k x : session_ok t b -> (exists n, slots = channels t ++ replicate n None) ->
  1 <= zlen slots < MAX_CHANNELS + Z.of_nat CHAN_EXTEND_SIZE -> slots !! i = Some None -> chan_inv x -> phase_of x = Open ->
  evolves t (mkTable (<[i := Some (k, x)]> slots) (u32 (chancount t + 1)), b, [Born i]).
Proof.
  intros [T1 T2 T3 T4] [n ->] Hsz Hi Hl Hp. pose proof (lookup_lt_Some _ _ _ Hi) as Hlt.
  assert (Hold : forall j, slot_phase t j = match (channels t ++ replicate n None) !! j with Some (Some (_, y)) => Some (phase_of y) | _ => None end).
  { intros j. unfold slot_phase. destruct (channels t !! j) eqn:Ej; [by rewrite (lookup_app_l_Some _ _ _ _ Ej)|].
    apply lookup_ge_None in Ej. rewrite lookup_app_r by done. destruct (replicate n None !! _) eqn:Er; [|done].
    apply lookup_replicate in Er as [-> _]. done. }
  split; [split; cbn [channels chancount]|].
  - intros j k1 x1 Hj. destruct (decide (i = j)) as [->|Hne].
    + rewrite list_lookup_insert_eq in Hj by done. by injection Hj as _ <-.
    + rewrite list_lookup_insert_ne in Hj by done. apply lookup_app_Some in Hj as [Hj|[_ Hj]]; [eauto|].
      apply lookup_replicate in Hj as [? _]. done.
  - pose proof (live_bound (channels t)). rewrite (live_insert _ _ _ _ Hi), live_app, live_none, T2. cbn [one].
    unfold chansize, MAX_CHANNELS, CHAN_EXTEND_SIZE in T3. unfold u32. rewrite Z.mod_small; lia.
  - unfold chansize. cbn. by rewrite length_insert.
  - done.
  - intros _ j. rewrite Hold. cbn. unfold slot_phase. cbn. destruct (decide (i = j)) as [<-|Hne].
    + rewrite Hi, list_lookup_insert_eq by done. cbn. by rewrite Hp.
    + by rewrite list_lookup_insert_ne.
Qed.

Definition opens (t : table) (b : buffer) (k : kind) (r : option nat * table) : Prop :=
  match r with
  | (None, t') => t' = t
  | (Some i, t') => evolves t (t', b, [Born i]) /\ exists x, channels t' !! i = Some (Some (k, x)) /\ attachable x
  end.
Lemma newchannel_opens t b k rc tw tm : session_ok t b -> is_u32 tw -> is_u32 tm ->
  rwp Partial (newchannel W malloc_ok t k rc tw tm) (opens t b k).
Proof using HW.
  intros Ht Htw Htm. unfold newchannel. set (i := first_free (channels t)).
  destruct (_ && _) eqn:Efull; [done|]. apply Circ.rwp_bind. eapply Circ.rwp_mono; [by apply new_chan_life|].
  intros x (Hl & Hp & Hu). cbn.
  set (slots := if Z.of_nat i =? chansize t then _ else _).
  assert (Hs : (exists n, slots = channels t ++ replicate n None) /\ 1 <= zlen slots < MAX_CHANNELS + Z.of_nat CHAN_EXTEND_SIZE /\ slots !! i = Some None).
  { pose proof (s_size _ _ Ht) as Hsz. unfold slots. destruct (Z.eqb_spec (Z.of_nat i) (chansize t)) as [E|E].
    - cbn [andb] in Efull. apply Z.leb_gt in Efull. unfold chansize in *. split; [by exists CHAN_EXTEND_SIZE|]. split.
      + rewrite length_app. unfold CHAN_EXTEND_SIZE in *. cbn [length replicate]. lia.
      + rewrite lookup_app_r by lia. by replace (i - length (channels t))%nat with 0%nat by lia.
    - split; [exists 0%nat; by rewrite app_nil_r|]. split; [done|]. destruct (first_free_spec (channels t)) as [Hf|Hf]; [done|].
      exfalso. apply E. unfold i, chansize. by rewrite Hf. }
  destruct Hs as (H1 & H2 & H3). split; [by apply born_evolves; try done; apply life_inv|]. exists x. split; [|done].
  apply list_lookup_insert_eq. by eapply lookup_lt_Some.
Qed.

Lemma wp_puts b bs s (R : unit -> buffer -> Prop) : ready_at N b bs -> Forall is_u8 s -> zlen bs + 4 + zlen s <= N ->
  (forall b', ready_at N b' (bs ++ STORE32H (zlen s) ++ s) -> R tt b') -> wp Total (buf_putstring s) R b.
Proof.
  intros Hb Hs Hfit HR. pose proof Hb as [[Hwf Hsz _ _] Hp]. pose proof (wf_size _ Hwf) as Hbig. unfold BUF_MAX_SIZE in Hbig.
  apply wp_putstring; [done|done|unfold is_u32; lia|lia|].
  intros _. apply HR, ready_append; [done|apply Forall_app; split; [apply STORE32H_bytes|done]|rewrite length_app; cbn [length STORE32H]; lia].
Qed.
Lemma wp_failure rc reason text b (Q : list Z -> buffer -> Prop) : ready_at N b [] -> Forall is_u8 text -> 17 + zlen text <= N ->
  (forall bs b', ready_at N b' [] -> Q bs b') -> wp Total (send_msg_channel_open_failure rc reason text []) Q b.
Proof.
  intros Hb Ht Hn HQ. unfold send_msg_channel_open_failure. wpsteps.
  pose proof Hb as [[Hwf0 Hsz0 _ _] _]. pose proof (wf_size _ Hwf0) as Hbig. unfold BUF_MAX_SIZE in Hbig.
  apply (wp_put1 N b []); [done|done|cbn; lia|]. intros b1 H1. wpsteps.
  apply (wp_put4 N b1 _ _ _ H1); [cbn; lia|]. intros b2 H2. wpsteps.
  apply (wp_put4 N b2 _ _ _ H2); [cbn; lia|]. intros b3 H3. wpsteps.
  apply (wp_puts b3 _ text _ H3); [done|cbn; lia|]. intros b4 H4. wpsteps.
  apply (wp_puts b4 _ [] _ H4); [done|rewrite !length_app; cbn [length STORE32H app]; lia|]. intros b5 [H5 _]. cbn [app] in H5. wpsteps.
  eapply wp_take; [exact H5|]. auto.
Qed.
Lemma wp_confirmation x i w m b (Q : list Z -> buffer -> Prop) : ready_at N b [] ->
  (forall bs b', ready_at N b' [] -> Q bs b') -> wp Total (send_msg_channel_open_confirmation x i w m) Q b.
Proof using HN.
  intros Hb HQ. unfold send_msg_channel_open_confirmation. wpsteps.
  apply (wp_put1 N b []); [done|done|cbn; lia|]. intros b1 H1. wpsteps.
  apply (wp_put4 N b1 _ _ _ H1); [cbn; lia|]. intros b2 H2. wpsteps.
  apply (wp_put4 N b2 _ _ _ H2); [cbn; lia|]. intros b3 H3. wpsteps.
  apply (wp_put4 N b3 _ _ _ H3); [cbn; lia|]. intros b4 H4. wpsteps.
  apply (wp_put4 N b4 _ _ _ H4); [cbn; lia|]. intros b5 [H5 _]. cbn [app] in H5. wpsteps.
  eapply wp_take; [exact H5|]. auto.
Qed.

(** A reply that leaves the table alone. *)
Lemma reply_evolves t r b' l bs : evolves t (r, b', l) -> evolves t (r, b', l ++ [Reply bs]).
Proof. intros [E1 E2]. split; [done|]. intros Ht i. by rewrite (watch_app _ _ _ _ _ (E2 Ht i)). Qed.
Lemma evolves_buf t r b1 b2 l : evolves t (r, b1, l) -> ready_at N b2 [] -> evolves t (r, b2, l).
Proof. intros [[] E2] Hb. by split. Qed.

Definition init_ok (init : kind -> Z * option endpoint) : Prop :=
  forall k, match (init k).2 with Some ep => endpoint_ok ep | None => True end.

Lemma failure_evolves rc reason t r b l : evolves t (r, b, l) ->
  rwp Partial ('(bs, b) ← send_msg_channel_open_failure rc reason [] [] b; Ok (r, b, l ++ [Reply bs])) (evolves t).
Proof using HN.
  intros He. apply Circ.rwp_bind, rwp_wp, wp_relax. apply wp_failure; [apply He|done|cbn; lia|].
  intros bs b' Hb'. by eapply reply_evolves, evolves_buf.
Qed.
Lemma confirmation_evolves x i w m t r b l : evolves t (r, b, l) ->
  rwp Partial ('(bs, b) ← send_msg_channel_open_confirmation x i w m b; Ok (r, b, l ++ [Reply bs])) (evolves t).
Proof using HN.
  intros He. apply Circ.rwp_bind, rwp_wp, wp_relax. apply wp_confirmation; [apply He|].
  intros bs b' Hb'. by eapply reply_evolves, evolves_buf.
Qed.

(** After [newchannel]: the handler of the type, and the answer to the peer. *)
Lemma attach_keeps i ep t b t' b' l k x : channels t !! i = Some (Some (k, x)) ->
  attach_channel W malloc_ok i ep t b = Ok (t', b', l) -> exists x', channels t' !! i = Some (Some (k, x')).
Proof.
  intros Hi. unfold attach_channel, at_channel. rewrite Hi. cbn [mbind res_bind fst snd].
  destruct (attach W malloc_ok ep x) as [x'| |]; cbn; [|done..]. intros [= <- _ _]. exists x'. cbn.
  apply list_lookup_insert_eq. by eapply lookup_lt_Some.
Qed.

Lemma open_evolves types init payload t b : session_ok t b -> wf payload -> init_ok init ->
  rwp Partial (recv_msg_channel_open is_server W malloc_ok types init payload t b) (evolves t).
Proof using HW HN.
  intros Ht Hwf Hinit. unfold recv_msg_channel_open. pose proof (wf_pos _ Hwf).
  apply Circ.rwp_bind, rwp_wp. apply wp_getstring; [done|done|]. intros Hn _ Hfit.
  set (n := LOAD32H _) in *. unfold is_u32 in Hn. set (p1 := set_pos payload (pos payload + 4 + n)).
  assert (W1 : wf p1) by (apply wf_set_pos; [done|lia]).
  apply Circ.rwp_bind, rwp_wp. apply wp_getint; [done|done|]. intros F2 rc _ _. set (p2 := set_pos p1 _).
  assert (Hnext : forall p, wf p -> pos p + 4 <= len p -> wf (set_pos p (pos p + 4))) by (intros p Hp ?; pose proof (wf_pos _ Hp); apply wf_set_pos; [done|lia]).
  assert (W2 : wf p2) by by apply Hnext.
  apply Circ.rwp_bind, rwp_wp. apply wp_getint; [done|done|]. intros F3 tw Htw _. set (p3 := set_pos p2 _).
  assert (W3 : wf p3) by by apply Hnext.
  apply Circ.rwp_bind, rwp_wp. apply wp_getint; [done|done|]. intros F4 tm Htm _. cbv zeta.
  destruct (MAX_NAME_LEN <? n); [by apply failure_evolves, evolves_refl|].
  destruct (List.find _ types) as [k|]; [|by apply failure_evolves, evolves_refl].
  apply Circ.rwp_bind. eapply Circ.rwp_mono.
  { apply (newchannel_opens t b k rc); [done|unfold is_u32, TRANS_MAX_WINDOW in *; lia|unfold is_u32, TRANS_MAX_PAYLOAD_LEN in *; lia]. }
  intros [[i|] t1] Ho; unfold opens in Ho; [|subst t1; by apply failure_evolves, evolves_refl]. destruct Ho as (E1 & x & Hx & Hu).
  set (ie := if k_init k then init k else (0, None)).
  assert (Hie : match ie.2 with Some ep => endpoint_ok ep | None => True end) by (unfold ie; destruct (k_init k); [apply Hinit|done]).
  destruct ie as [ret ep]. cbn [snd] in Hie. apply Circ.rwp_bind.
  assert (Ha : rwp Partial (match ep with Some ep => attach_channel W malloc_ok i ep t1 b | None => Ok (t1, b, []) end)
    (fun r => evolves t1 r /\ exists x, channels r.1.1 !! i = Some (Some (k, x)))).
  { destruct ep as [ep|]; [|split; [apply evolves_refl, E1|by exists x]].
    assert (Hev : rwp Partial (attach_channel W malloc_ok i ep t1 b) (evolves t1)).
    { apply attach_evolves; [apply E1|done|]. intros k1 x1 Hx1. rewrite Hx in Hx1. by injection Hx1 as _ <-. }
    destruct (attach_channel W malloc_ok i ep t1 b) as [[[t2 b2] l2]| |] eqn:Ea; [|done..]. split; [done|]. by eapply attach_keeps. }
  eapply Circ.rwp_mono; [exact Ha|]. clear Ha. intros [[t2 b2] l2] [E2 [x2 Hx2]]. cbn [fst] in Hx2.
  pose proof (evolves_trans _ _ _ _ _ _ _ E1 E2) as E12. cbn [app] in E12.
  destruct (ret =? SSH_OPEN_IN_PROGRESS); [exact E12|]. destruct (0 <? ret).
  - apply Circ.rwp_bind. eapply Circ.rwp_mono; [apply drop_evolves, E2|]. intros [[t3 b3] l3] E3.
    pose proof (evolves_trans _ _ _ _ _ _ _ E12 E3) as E123. by apply failure_evolves.
  - rewrite Hx2. by apply (confirmation_evolves _ _ _ _ t t2 b2 (Born i :: l2)).
Qed.

(** The answer to an open request, and what the handler of the type does with it. *)
Lemma confirmed_evolves i k x rc tw tm (ie : Z * option endpoint) t b : session_ok t b -> channels t !! i = Some (Some (k, x)) -> (tracked = true -> attachable x) ->
  is_u32 tw -> is_u32 tm -> match ie.2 with Some ep => endpoint_ok ep | None => True end ->
  rwp Partial (
      '(t, b, l) ← at_channel i (fun _ s => Ok (false, (set_opened s.1 rc tw tm, s.2), [])) t b;
      let '(ret, ep) := ie in
      '(t, b, l') ← (match ep with Some ep => attach_channel W malloc_ok i ep t b | None => Ok (t, b, []) end);
      if 0 <? ret then '(t, b, l'') ← drop_channel is_server i t b; Ok (t, b, (l ++ l') ++ l'')
      else Ok (t, b, l ++ l')) (evolves t).
Proof using HW.
  intros Ht Hx Hatt Htw Htm Hep. destruct ie as [ret ep]. cbn [snd] in Hep. apply Circ.rwp_bind.
  assert (H1 : rwp Partial (at_channel i (fun _ s => Ok (false, (set_opened s.1 rc tw tm, s.2), [])) t b)
    (fun r => evolves t r /\ channels r.1.1 !! i = Some (Some (k, set_opened x rc tw tm)))).
  { assert (Hev : rwp Partial (at_channel i (fun _ s => Ok (false, (set_opened s.1 rc tw tm, s.2), [])) t b) (evolves t)).
    { apply at_evolves; [done|]. intros k1 x1 E1. cbn. split_and!; [|apply Ht|by eexists].
      pose proof (s_life _ _ Ht _ _ _ E1) as Hl. unfold chan_inv in *. destruct tracked; destruct Hl; by split. }
    unfold at_channel in *. rewrite Hx in *. cbn in *. split; [done|]. apply list_lookup_insert_eq. by eapply lookup_lt_Some. }
  eapply Circ.rwp_mono; [exact H1|]. clear H1. intros [[t1 b1] l1] [E1 Hx1]. cbn [fst] in Hx1. apply Circ.rwp_bind.
  eapply (Circ.rwp_mono _ _ (evolves t1)).
  { destruct ep as [ep|]; [|apply evolves_refl, E1]. apply attach_evolves; [apply E1|done|]. intros k2 x2 E2 Htr. rewrite Hx1 in E2. injection E2 as _ <-. exact (Hatt Htr). }
  intros [[t2 b2] l2] E2. pose proof (evolves_trans _ _ _ _ _ _ _ E1 E2) as E12. destruct (0 <? ret); [|exact E12].
  apply Circ.rwp_bind. eapply Circ.rwp_mono; [apply drop_evolves, E2|]. intros [[t3 b3] l3] E3. by eapply evolves_trans.
Qed.

Lemma wp_open_message k i more b (Q : list Z -> buffer -> Prop) : ready_at N b [] -> Forall is_u8 (k_name k) -> Forall is_u8 more ->
  17 + zlen (k_name k) + zlen more <= N -> (forall bs b', ready_at N b' [] -> Q bs b') -> wp Total (open_message W k i more) Q b.
Proof.
  intros Hb Hk Hmore Hn HQ. unfold open_message. wpsteps. pose proof Hb as [[Hwf0 Hsz0 _ _] _]. pose proof (wf_size _ Hwf0) as Hbig. unfold BUF_MAX_SIZE in Hbig.
  apply (wp_put1 N b []); [done|done|cbn; lia|]. intros b1 H1. wpsteps.
  eapply (wp_puts b1 _ (k_name k) _ H1); [done|cbn; lia|]. intros b2 H2. wpsteps.
  apply (wp_put4 N b2 _ _ _ H2); [cbn; lia|]. intros b3 H3. wpsteps.
  apply (wp_put4 N b3 _ _ _ H3); [rewrite !length_app; cbn; lia|]. intros b4 H4. wpsteps.
  apply (wp_put4 N b4 _ _ _ H4); [rewrite !length_app; cbn; lia|]. intros b5 H5. wpsteps.
  pose proof H5 as [[Hwf5 Hsz5 _ _] Hp5]. rewrite !length_app in Hp5. cbn [length STORE32H] in Hp5.
  apply wp_putbytes; [done|done|unfold is_u32; lia|unfold BUF_MAX_INCR; lia|]. intros _.
  assert (H6 : ready_at N (appended b5 more) _) by (apply ready_append; [exact H5|done|rewrite !length_app; cbn [length STORE32H]; lia]).
  destruct H6 as [H6 _]. cbn [app] in H6. wpsteps. eapply wp_take; [exact H6|]. auto.
Qed.
Lemma open_init_evolves fd k more t b : session_ok t b -> 0 <= fd -> Forall is_u8 (k_name k) -> Forall is_u8 more ->
  17 + zlen (k_name k) + zlen more <= N -> rwp Partial (send_msg_channel_open_init W malloc_ok fd k more t b) (evolves t).
Proof using HW HN.
  intros Ht Hfd Hk Hmore Hn. unfold send_msg_channel_open_init. apply Circ.rwp_bind. eapply Circ.rwp_mono; [by apply (newchannel_opens t b k 0)|].
  intros [[i|] t1] Ho; unfold opens in Ho; [|subst t1; by apply evolves_refl]. destruct Ho as (E1 & x & Hx & Hu).
  apply Circ.rwp_bind. eapply Circ.rwp_mono.
  { apply at_evolves; [apply E1|]. intros k1 x1 Ex1. rewrite Hx in Ex1. injection Ex1 as _ <-. cbn [fst snd rwp].
    assert (Hl : rwp Partial (attach W malloc_ok (Twoway fd) x) (fun x' => chan_inv x' /\ (tracked = true -> phase_of x' = phase_of x))).
    { apply attach_inv; [|done|split; [apply NoDup_singleton|by apply Forall_singleton]]. destruct E1 as [E1 _]. by eapply s_life. }
    cbn in Hl. destruct Hl as (Hl & Hp). split_and!; [unfold chan_inv in *; destruct tracked; destruct Hl; by split|apply E1|].
    intros Htr. by exists (phase_of x). }
  intros [[t2 b2] l2] E2. pose proof (evolves_trans _ _ _ _ _ _ _ E1 E2) as E12. cbn [app] in E12.
  apply Circ.rwp_bind, rwp_wp, wp_relax. apply wp_open_message; [apply E2|done..|]. intros bs b' Hb'. by eapply reply_evolves, evolves_buf.
Qed.

(** What the system answers when the data of a message is written, and what the type of an
    opened channel connects it to. *)
Definition message_ok (m : message) (payload : buffer) (t : table) : Prop :=
  wf payload /\
  match m with
  | OpenConfirmation init => init_ok init /\ (tracked = true -> forall i k x, channels t !! i = Some (Some (k, x)) -> await_open x = true -> attachable x)
  | ChannelData ans => forall i k x, channels t !! i = Some (Some (k, x)) -> answers Write (set_pos payload (pos payload + 4)) ans x
  | ExtendedData ans => forall i k x, channels t !! i = Some (Some (k, x)) -> answers Extra (set_pos payload (pos payload + 8)) ans x
  | _ => True
  end.

Lemma message_evolves m payload t b : session_ok t b -> message_ok m payload t ->
  rwp Partial (recv_message is_server W hv malloc_ok m payload t b) (evolves t).
Proof using HW HN Hm.
  intros Ht [Hwf Hans]. unfold recv_message. apply Circ.rwp_bind. unfold getchannel_msg. apply Circ.rwp_bind, rwp_wp.
  pose proof (wf_pos _ Hwf). apply wp_getint; [done|done|]. intros H4 v Hv _.
  destruct (channels t !! Z.to_nat v) as [[[k x]|]|] eqn:Ev; [|done..]. cbn [rwp].
  assert (Hwf4 : wf (set_pos payload (pos payload + 4))) by (apply wf_set_pos; [done|lia]).
  assert (Hat : forall inp, (forall k x b, channels t !! Z.to_nat v = Some (Some (k, x)) -> ready_at N b [] -> chan_inv x ->
      rwp Partial (handle is_server (k_check k) (k_close k) W hv malloc_ok inp (x, b)) (behaves x)) ->
    rwp Partial (at_input is_server W hv malloc_ok (Z.to_nat v) inp t b) (evolves t)).
  { intros inp Hinp. apply at_evolves; [done|]. intros k1 x1 E1. apply Hinp; [done|apply Ht|by eapply s_life]. }
  assert (Hnext : forall p, wf p -> pos p + 4 <= len p -> wf (set_pos p (pos p + 4))) by (intros p Hp ?; pose proof (wf_pos _ Hp); apply wf_set_pos; [done|lia]).
  destruct m as [init| |reply|ans|ans| |vd rp|vd rp]; cbn [message_ok] in Hans.
  - destruct Hans as [Hinit Hatt]. unfold recv_msg_channel_open_confirmation, awaited. rewrite Ev. destruct (await_open x) eqn:Ew; [|done]. cbn [mbind res_bind].
    apply Circ.rwp_bind, rwp_wp. apply wp_getint; [done|done|]. intros F2 rc _ _. apply Circ.rwp_bind, rwp_wp. apply wp_getint; [by apply Hnext|done|].
    intros F3 tw Htw _. apply Circ.rwp_bind, rwp_wp. apply wp_getint; [by apply Hnext; [apply Hnext|]|done|]. intros _ tm Htm _.
    apply (confirmed_evolves (Z.to_nat v) k x); try done; [intros Htr; by eapply (Hatt Htr)|]. destruct (k_init k); [apply Hinit|done].
  - unfold recv_msg_channel_open_failure, awaited. rewrite Ev. destruct (await_open x); [|done]. by apply drop_evolves.
  - unfold recv_msg_channel_request. destruct (k_req k).
    + apply Hat. intros k1 x1 b1 E1 Hb1 Hl1. by apply run_behaves.
    + apply Circ.rwp_bind, rwp_wp. apply wp_eatstring; [done|]. intros n Hn Hfit. cbn [pos len set_pos] in Hfit |- *.
      apply Circ.rwp_bind, rwp_wp. unfold buf_getbool. wpsteps. apply wp_getbyte; [apply wf_set_pos; [done|cbn; lia]|done|].
      intros _ v1 _ _. wpsteps. apply Hat. intros k1 x1 b1 E1 Hb1 Hl1. by apply run_behaves.
  - apply Hat. intros k1 x1 b1 E1 Hb1 Hl1. apply run_behaves; try done. split_and!; try done. by eapply Hans.
  - unfold recv_msg_channel_extended_data. destruct (negb (k_client k)); [by apply evolves_refl|]. apply Circ.rwp_bind, rwp_wp.
    apply wp_getint; [done|done|]. intros H8 d _ _. cbn [pos len set_pos] in H8 |- *. destruct (negb (d =? _)); [by apply evolves_refl|].
    apply Hat. intros k1 x1 b1 E1 Hb1 Hl1.
    change (set_pos (set_pos payload (pos payload + 4)) (pos payload + 4 + 4)) with (set_pos payload (pos payload + 4 + 4)).
    replace (pos payload + 4 + 4) with (pos payload + 8) by lia. apply run_behaves; try done. split_and!; try done; [apply wf_set_pos; [done|lia]|by eapply Hans].
  - apply Circ.rwp_bind, rwp_wp. apply wp_getint; [done|done|]. intros _ incr Hincr _. apply Hat. intros k1 x1 b1 E1 Hb1 Hl1. by apply run_behaves.
  - apply Hat. intros k1 x1 b1 E1 Hb1 Hl1. by apply run_behaves.
  - apply Hat. intros k1 x1 b1 E1 Hb1 Hl1. by apply run_behaves.
Qed.

Lemma connect_evolves i result t b k x : session_ok t b -> channels t !! i = Some (Some (k, x)) -> (tracked = true -> attachable x) ->
  match result with inl sock => 0 <= sock | inr text => Forall is_u8 text /\ 17 + zlen text <= N end ->
  rwp Partial (channel_connect_done is_server W malloc_ok i result t b) (evolves t).
Proof using HW HN.
  intros Ht Hx Hu Hr. unfold channel_connect_done. destruct result as [sock|text].
  - apply Circ.rwp_bind. assert (Hev : rwp Partial (attach_channel W malloc_ok i (Twoway sock) t b) (evolves t)).
    { apply attach_evolves; [done| |]; [split; [apply NoDup_singleton|by apply Forall_singleton]|].
      intros k1 x1 Hx1 Htr. rewrite Hx in Hx1. injection Hx1 as _ <-. exact (Hu Htr). }
    destruct (attach_channel W malloc_ok i (Twoway sock) t b) as [[[t2 b2] l2]| |] eqn:Ea; [|done..].
    cbn [rwp]. destruct (attach_keeps _ _ _ _ _ _ _ _ _ Hx Ea) as [x' ->]. by apply confirmation_evolves.
  - rewrite Hx. destruct Hr as [Htext Hlen]. apply Circ.rwp_bind, rwp_wp, wp_relax. apply wp_failure; [apply Ht|done|done|].
    intros bs b' Hb'. apply Circ.rwp_bind.
    assert (Ht' : session_ok t b') by (destruct Ht; by split).
    eapply Circ.rwp_mono; [by apply drop_evolves|]. intros [[t2 b2] l2] [E1 E2]. split; [done|]. intros Htr j. cbn. by apply E2.
Qed.

(** ** Sessions *)

(** What is assumed of an operation: that the buffers hold bytes and the system calls answer
    what they may.  A connection that finishes has its channel in the table, since
    [remove_channel] cancels a pending one.  When the protocol is watched, also that
    descriptors are given only to channels on which nothing was ended yet. *)
Definition sop_ok (o : sop) (t : table) : Prop :=
  match o with
  | PeerOpen _ init payload => wf payload /\ init_ok init
  | OpenInit fd k more => 0 <= fd /\ Forall is_u8 (k_name k) /\ Forall is_u8 more /\ 17 + zlen (k_name k) + zlen more <= N
  | Message m payload => message_ok m payload t
  | Attach i ep => endpoint_ok ep /\ forall k x, channels t !! i = Some (Some (k, x)) -> tracked = true -> attachable x
  | ConnectDone i result =>
      (exists k x, channels t !! i = Some (Some (k, x)) /\ (tracked = true -> attachable x)) /\
      match result with inl sock => 0 <= sock | inr text => Forall is_u8 text /\ 17 + zlen text <= N end
  | Loop rs => forall i, round_ok False hv (rs i)
  end.
Lemma exec_evolves o t b : session_ok t b -> sop_ok o t -> rwp Partial (exec is_server W hv malloc_ok o t b) (evolves t).
Proof using HW HN Hm.
  intros Ht Ho. destruct o as [types init payload|fd k more|m payload|i ep|i result|rs]; cbn [exec sop_ok] in *.
  - destruct Ho. by apply open_evolves.
  - destruct Ho as (? & ? & ? & ?). by apply open_init_evolves.
  - by apply message_evolves.
  - destruct Ho. by apply attach_evolves.
  - destruct Ho as [(k & x & Hx & Hu) Hr]. by eapply connect_evolves.
  - by apply loop_evolves.
Qed.

Fixpoint session_inputs (os : list sop) (t : table) (b : buffer) : Prop :=
  match os with
  | [] => True
  | o :: os => sop_ok o t /\
      match exec is_server W hv malloc_ok o t b with Ok (t, b, _) => session_inputs os t b | _ => True end
  end.
Lemma session_evolves os t b : session_ok t b -> session_inputs os t b -> rwp Partial (session is_server W hv malloc_ok os t b) (evolves t).
Proof using HW HN Hm.
  revert t b. induction os as [|o os IH]; intros t b Ht Hi; cbn [session]; [by apply evolves_refl|]. destruct Hi as [Ho Hi].
  apply Circ.rwp_bind. pose proof (exec_evolves o t b Ht Ho) as He.
  destruct (exec is_server W hv malloc_ok o t b) as [[[t1 b1] l1]| |]; [|done..]. cbn [rwp] in *. apply Circ.rwp_bind.
  eapply Circ.rwp_mono; [apply IH; [apply He|done]|]. intros [[t2 b2] l2] E2. by eapply evolves_trans.
Qed.
End session.

(** ** Small sessions *)

Definition demo_kind : kind := mkKind [115] true true true false false.
Definition packet (bs : list Z) : buffer := mkBuf bs (zlen bs) 0 (zlen bs).
Definition open_packet : buffer := packet [0; 0; 0; 1; 115; 0; 0; 0; 7; 0; 0; 0; 100; 0; 0; 0; 50].
Definition eof_packet : buffer := packet [0; 0; 0; 0].
Definition adjust_packet : buffer := packet [0; 0; 0; 0; 0; 0; 0; 9].
(** A channel is opened and connected, its window grows, and the peer closes it. *)
Definition demo_session : list sop :=
  [PeerOpen [demo_kind] (fun _ => (0, Some (Twoway 5))) open_packet;
   Message WindowAdjust adjust_packet; Loop (fun _ => demo_round);
   Message (ChannelClose (mkVerdict true false) (fun _ => false)) eof_packet].

Lemma packet_wf bs : Forall is_u8 bs -> zlen bs <= BUF_MAX_SIZE -> wf (packet bs).
Proof. intros Hb Hn. split; cbn; try done; lia. Qed.
Ltac next_op := match goal with |- match ?e with _ => _ end =>
  let E := fresh in destruct e as [[[t1 b1] l1]| |] eqn:E; [|done..]; vm_compute in E; injection E as <- <- <- end.
Lemma demo_session_inputs tracked : session_inputs 8 32 true (fun _ => true) true tracked demo_session chaninitialise demo_b.
Proof.
  split; [split; [by apply packet_wf; [repeat (constructor; [done|])|done]|]|next_op].
  { intros k. split; [apply NoDup_singleton|by apply Forall_singleton]. }
  split; [split; [by apply packet_wf; [repeat (constructor; [done|])|done]|done]|next_op].
  split; [intros i; apply demo_round_ok|next_op].
  split; [split; [by apply packet_wf; [repeat (constructor; [done|])|done]|done]|by next_op].
Qed.

(** ** Theorems *)

(** C9: for every peer, whatever bytes its messages hold, and whatever channels descriptors
    are given to, no operation on the channels of a session faults: the session goes on or
    ends with a message.  While it goes on, the number of channels is the one counted and the
    table stays below its limit.  If moreover descriptors are given only to channels on which
    no EOF or CLOSE was sent, every slot of the table sees a channel opened, the protocol of
    EOF and CLOSE followed, and the channel removed, again and again. *)
Theorem session_safe (W N : Z) (hv : bool) (malloc_ok : Z -> bool) (is_server : bool) (os : list sop) (b : buffer) :
  0 < W <= Circ.MAX_CBUF_SIZE -> 17 <= N -> malloc_ok W = true -> ready_at N b [] ->
  session_inputs W N hv malloc_ok is_server false os chaninitialise b ->
  match session is_server W hv malloc_ok os chaninitialise b with
  | Ok (t, b', l) => chancount t = live (channels t) /\ chansize t < MAX_CHANNELS + Z.of_nat CHAN_EXTEND_SIZE /\
      (session_inputs W N hv malloc_ok is_server true os chaninitialise b -> forall i, watch i None l = Some (slot_phase t i))
  | Exit _ => True
  | Fault => False
  end.
Proof.
  intros HW HN Hm Hb Hi.
  assert (H0 : forall tracked, session_ok W N tracked chaninitialise b) by (intros tracked; split; try done; by intros [|[]] k x).
  pose proof (session_evolves W N hv malloc_ok is_server HW HN Hm false os chaninitialise b (H0 false) Hi) as H.
  pose proof (session_evolves W N hv malloc_ok is_server HW HN Hm true os chaninitialise b (H0 true)) as H'.
  destruct (session _ _ _ _ os chaninitialise b) as [[[t b'] l]| |]; [|done..]. destruct H as [[_ H1 H2 _] _].
  split; [done|]. split; [apply H2|]. intros Hi' i. destruct (H' Hi') as [_ H3]. rewrite <- (H3 eq_refl i). by destruct i as [|[]].
Qed.
Lemma session_safe_witness : exists t b l,
  session true 8 true (fun _ => true) demo_session chaninitialise demo_b = Ok (t, b, l) /\
  chancount t = live (channels t) /\ chansize t < MAX_CHANNELS + Z.of_nat CHAN_EXTEND_SIZE /\
  forall i, watch i None l = Some (slot_phase t i).
Proof.
  assert (H := session_safe 8 32 true (fun _ => true) true demo_session demo_b ltac:(vm_compute; split; [reflexivity|discriminate])
    ltac:(vm_compute; discriminate) eq_refl (t_payload _ _ _ _ _ _ _ _ _ demo_setup) (demo_session_inputs false)).
  destruct (session true 8 true (fun _ => true) demo_session chaninitialise demo_b) as [[[t b] l]|m|] eqn:E.
  - exists t, b, l. split; [reflexivity|]. destruct H as (H1 & H2 & H3). split; [exact H1|]. split; [exact H2|].
    apply H3. exact (demo_session_inputs true).
  - vm_compute in E. discriminate E.
  - destruct H.
Defined.

(** A server answers an EOF for a session that runs no command yet with EOF and CLOSE, for
    its check allows closing then.  It still starts a command in it afterwards, and the first
    output of the command fails the assertion that CLOSE was not sent: the whole connection
    ends. *)
Theorem command_after_eof_aborts :
  let eof := Message (ChannelEof (mkVerdict true false) (fun _ => false)) eof_packet in
  let opened := [PeerOpen [demo_kind] (fun _ => (0, None)) open_packet; eof] in
  (exists t b l, session true 8 true (fun _ => true) opened chaninitialise demo_b = Ok (t, b, l) /\
     In (At 0 (Packet (SSH_MSG_CHANNEL_CLOSE :: STORE32H 7))) l) /\
  session true 8 true (fun _ => true) (opened ++ [Attach 0 (Pipes 3 4 5); Loop (fun _ => demo_round)]) chaninitialise demo_b =
    Exit "Failed assertion".
Proof.
  split; [|vm_compute; reflexivity].
  do 3 eexists. split; [vm_compute; reflexivity|]. cbn. tauto.
Qed.
