(* ===== verification/Slob.v ===== *)
(** * The SLOB allocator

    A model of mm/slob.c, the kernel allocator of the shipped configuration
    ([CONFIG_SLOB], no NUMA, no SMP): the free list inside a page, the heap of
    partially free pages, [kmalloc]/[kfree]/[ksize] and the slab caches on top.

    A page is 2048 units of two bytes; a block is named by the index of its first
    unit, and a pointer to a block is a page number with such an index.  [next - base]
    of the end of a page is 2048.  The page allocator is a parameter: each call that
    may take pages is given its answer.  [None] stands for a [BUG_ON] that fires, a
    wild access, or a loop that does not end. *)

From Stdlib Require Import ZArith Lia Bool.
From stdpp Require Import base numbers list gmap.
From S2P Require Import Prelude.
Open Scope Z_scope.

Definition PAGE_SIZE : Z := 4096.
Definition SLOB_UNIT : Z := 2.
Definition SLOB_UNITS (size : Z) : Z := (size + SLOB_UNIT - 1) `div` SLOB_UNIT.
Definition PAGE_UNITS : Z := SLOB_UNITS PAGE_SIZE.
Definition SLOB_BREAK1 : Z := 256.
Definition SLOB_BREAK2 : Z := 1024.
Definition ARCH_KMALLOC_MINALIGN : Z := 8.
Definition ARCH_SLAB_MINALIGN : Z := 8.
Definition SLOB_ALIGN : Z := 16.

Definition ALIGN (x a : Z) : Z := Z.land (x + (a - 1)) (Z.lnot (a - 1)).

(** ** Blocks in a page *)

(** The contents of a page, by unit. *)
Definition memory : Type := Z -> Z.
Definition upd (m : memory) (i v : Z) : memory := fun k => if k =? i then v else m k.

Definition set_slob (m : memory) (s size next : Z) : memory :=
  let offset := s16 next in
  if 1 <? size then upd (upd m s size) (s + 1) offset else upd m s (s16 (- offset)).

Definition slob_units (m : memory) (s : Z) : Z := if 0 <? m s then m s else 1.

Definition slob_next (m : memory) (s : Z) : Z := if m s <? 0 then - m s else m (s + 1).

Definition slob_last (m : memory) (s : Z) : bool := slob_next m s `mod` PAGE_UNITS =? 0.

(** ** Pages *)

(** The fields of [struct page] that slob.c uses, and the page's contents. *)
Record page := mkPage {
  mem : memory;
  units : Z;
  freelist : Z;
  PageSlobFree : bool;
  PageSlab : bool;
  private : Z
}.

Definition with_mem (sp : page) (m : memory) : page :=
  mkPage m (units sp) (freelist sp) (PageSlobFree sp) (PageSlab sp) (private sp).
Definition with_freelist (sp : page) (f : Z) : page :=
  mkPage (mem sp) (units sp) f (PageSlobFree sp) (PageSlab sp) (private sp).

(** [sp->units -= units; if (!sp->units) clear_slob_page_free(sp);] (the page's flag;
    its place on a list is kept by the heap). *)
Definition take_units (sp : page) (n : Z) : page :=
  mkPage (mem sp) (units sp - n) (freelist sp) (PageSlobFree sp && negb (units sp - n =? 0))
    (PageSlab sp) (private sp).

(** Relink the predecessor of a block, or the head of the list. *)
Definition relink (sp : page) (prev : option Z) (next : Z) : page :=
  match prev with
  | Some p => with_mem sp (set_slob (mem sp) p (slob_units (mem sp) p) next)
  | None => with_freelist sp next
  end.

(** Unlink the first [units] units of the block at [cur]. *)
Definition unlink (sp : page) (units : Z) (prev : option Z) (cur avail : Z) : page :=
  let next := slob_next (mem sp) cur in
  let sp :=
    if avail =? units then relink sp prev next
    else
      let sp := relink sp prev (cur + units) in
      with_mem sp (set_slob (mem sp) (cur + units) (s16 (avail - units)) next) in
  take_units sp units.

(** The block [cur] fits: split its head off to align, unlink what is taken. *)
Definition carve (sp : page) (units delta : Z) (prev : option Z) (cur : Z) : Z * page :=
  let avail := slob_units (mem sp) cur in
  if negb (delta =? 0) then
    let aligned := cur + delta in
    let next := slob_next (mem sp) cur in
    let m := set_slob (mem sp) aligned (s16 (avail - delta)) next in
    let m := set_slob m cur (s16 delta) aligned in
    (aligned, unlink (with_mem sp m) units (Some cur) aligned (slob_units m aligned))
  else (cur, unlink sp units prev cur avail).

Fixpoint page_alloc_loop (fuel : nat) (sp : page) (units align : Z) (prev : option Z) (cur : Z)
  : option (option Z * page) :=
  match fuel with
  | O => None
  | S fuel =>
      let avail := slob_units (mem sp) cur in
      let delta := if align =? 0 then 0 else (ALIGN (SLOB_UNIT * cur) align - SLOB_UNIT * cur) `div` SLOB_UNIT in
      if units + delta <=? avail then
        let '(b, sp) := carve sp units delta prev cur in Some (Some b, sp)
      else if slob_last (mem sp) cur then Some (None, sp)
      else page_alloc_loop fuel sp units align (Some cur) (slob_next (mem sp) cur)
  end.

(** A page has at most as many free blocks as units. *)
Definition page_fuel : nat := Z.to_nat PAGE_UNITS.

Definition slob_page_alloc (sp : page) (size align : Z) : option (option Z * page) :=
  page_alloc_loop page_fuel sp (SLOB_UNITS size) align None (freelist sp).

(** [while (b > next) { prev = next; next = slob_next(prev); }] *)
Fixpoint find_slot (fuel : nat) (m : memory) (b prev next : Z) : option (Z * Z) :=
  if next <? b then
    match fuel with
    | O => None
    | S fuel => find_slot fuel m b next (slob_next m next)
    end
  else Some (prev, next).

(** Reinsert a block into the free list of a partially free page. *)
Definition reinsert (sp : page) (b n : Z) : option page :=
  let sp := mkPage (mem sp) (units sp + n) (freelist sp) (PageSlobFree sp) (PageSlab sp) (private sp) in
  if b <? freelist sp then
    let '(n, fl) :=
      if b + n =? freelist sp then
        (n + slob_units (mem sp) (freelist sp), slob_next (mem sp) (freelist sp))
      else (n, freelist sp) in
    Some (with_freelist (with_mem sp (set_slob (mem sp) b (s16 n) fl)) b)
  else
    '(prev, next) ← find_slot page_fuel (mem sp) b (freelist sp) (slob_next (mem sp) (freelist sp));
    let m := mem sp in
    let m :=
      if negb (slob_last m prev) && (b + n =? next) then
        set_slob m b (s16 (n + slob_units m next)) (slob_next m next)
      else set_slob m b (s16 n) next in
    let m :=
      if prev + slob_units m prev =? b then
        set_slob m prev (s16 (slob_units m b + slob_units m prev)) (slob_next m b)
      else set_slob m prev (slob_units m prev) b in
    Some (with_mem sp m).

(** ** The heap *)

Inductive slob_list := Small | Medium | Large.

(** Pages by number; the three lists of partially free pages. *)
Record heap := mkHeap {
  pages : gmap Z page;
  free_slob : slob_list -> list Z
}.

Definition set_list (h : heap) (c : slob_list) (l : list Z) : heap :=
  mkHeap (pages h) (fun c' => match c, c' with
                              | Small, Small | Medium, Medium | Large, Large => l
                              | _, _ => free_slob h c'
                              end).
Definition set_page (h : heap) (p : Z) (sp : page) : heap :=
  mkHeap (<[p := sp]> (pages h)) (free_slob h).
(** [list_del] takes a page off whichever list it is on. *)
Definition list_del (h : heap) (p : Z) : heap :=
  mkHeap (pages h) (fun c => filter (fun q => q <> p) (free_slob h c)).

Definition size_class (size : Z) : slob_list :=
  if size <? SLOB_BREAK1 then Small else if size <? SLOB_BREAK2 then Medium else Large.

(** [list_for_each_entry]: the page and block found, and the list afterwards.  The
    pages before it go behind those from it on, and a page that got full is
    dropped. *)
Fixpoint try_pages (pgs : gmap Z page) (before l : list Z) (size align : Z)
  : option (option (Z * Z * page * list Z)) :=
  match l with
  | [] => Some None
  | p :: rest =>
      sp ← pgs !! p;
      if units sp <? SLOB_UNITS size then try_pages pgs (before ++ [p]) rest size align
      else
        '(b, sp) ← slob_page_alloc sp size align;
        match b with
        | None => try_pages pgs (before ++ [p]) rest size align
        | Some b =>
            Some (Some (p, b, sp, (if PageSlobFree sp then p :: rest else rest) ++ before))
        end
  end.

(** [memset(b, 0, size)] on a little-endian machine: an odd last byte is the low half
    of its unit. *)
Definition memset0 (m : memory) (b size : Z) : memory := fun k =>
  if (b <=? k) && (k <? b + size `div` 2) then 0
  else if (k =? b + size `div` 2) && (size `mod` 2 =? 1) then s16 (u16 (m k) - u8 (m k))
  else m k.

(** What [alloc_pages] answers: a page number and the contents found there. *)
Definition new_page : Type := option (Z * memory).

Definition slob_alloc (h : heap) (size : Z) (zero : bool) (align : Z) (fresh : new_page)
  : option (option (Z * Z) * heap) :=
  let c := size_class size in
  found ← try_pages (pages h) [] (free_slob h c) size align;
  r ← (match found with
       | Some (p, b, sp, l) => Some (Some (p, b), set_list (set_page h p sp) c l)
       | None =>
           match fresh with
           | None => Some (None, h)
           | Some (p, junk) =>
               let sp := mkPage (set_slob junk 0 (s16 PAGE_UNITS) PAGE_UNITS) PAGE_UNITS 0 true true 0 in
               '(b, sp) ← slob_page_alloc sp size align;
               b ← b;
               let l := if PageSlobFree sp then p :: free_slob h c else free_slob h c in
               Some (Some (p, b), set_list (set_page h p sp) c l)
           end
       end);
  let '(b, h) := r in
  match b with
  | Some (p, b) =>
      if zero then
        sp ← pages h !! p;
        Some (Some (p, b), set_page h p (with_mem sp (memset0 (mem sp) b size)))
      else Some (Some (p, b), h)
  | None => Some (None, h)
  end.

(** [slob_free] of a block that is neither NULL nor [ZERO_SIZE_PTR]. *)
Definition slob_free (h : heap) (p b size : Z) : option heap :=
  if size =? 0 then None
  else
    sp ← pages h !! p;
    let n := s16 (SLOB_UNITS size) in
    if units sp + n =? PAGE_UNITS then
      let h := if PageSlobFree sp then list_del h p else h in
      Some (mkHeap (delete p (pages h)) (free_slob h))
    else if negb (PageSlobFree sp) then
      let sp := mkPage (set_slob (mem sp) b n PAGE_UNITS) n b true (PageSlab sp) (private sp) in
      let c := size_class size in
      Some (set_list (set_page h p sp) c (p :: free_slob h c))
    else
      sp ← reinsert sp b n;
      Some (set_page h p sp).

(** ** kmalloc *)

Inductive ptr := NULL | ZERO_SIZE_PTR | Ptr (p off : Z).

(** A 32-bit store of [v] at unit [i], and its load. *)
Definition store_uint (m : memory) (i v : Z) : memory :=
  upd (upd m i (s16 v)) (i + 1) (s16 (v `div` 65536)).
Definition load_uint (m : memory) (i : Z) : Z := u16 (m i) + 65536 * u16 (m (i + 1)).

Definition kmalloc_align : Z := Z.max ARCH_KMALLOC_MINALIGN ARCH_SLAB_MINALIGN.

(** [ptr - align], [ptr + align] with pointers counted in units. *)
Definition align_units : Z := kmalloc_align `div` SLOB_UNIT.

Definition kmalloc (h : heap) (size : Z) (zero : bool) (fresh : new_page) : option (ptr * heap) :=
  if size <? PAGE_SIZE - kmalloc_align then
    if size =? 0 then Some (ZERO_SIZE_PTR, h)
    else
      '(b, h) ← slob_alloc h (size + kmalloc_align) zero kmalloc_align fresh;
      match b with
      | None => Some (NULL, h)
      | Some (p, b) =>
          sp ← pages h !! p;
          Some (Ptr p (b + align_units), set_page h p (with_mem sp (store_uint (mem sp) b size)))
      end
  else
    match fresh with
    | None => Some (NULL, h)
    | Some (p, junk) =>
        Some (Ptr p 0, set_page h p (mkPage junk 0 0 false false size))
    end.

Definition kfree (h : heap) (block : ptr) : option heap :=
  match block with
  | NULL | ZERO_SIZE_PTR => Some h
  | Ptr p off =>
      sp ← pages h !! p;
      if PageSlab sp then
        let m := off - align_units in
        slob_free h p m (load_uint (mem sp) m + kmalloc_align)
      else Some (mkHeap (delete p (pages h)) (free_slob h))
  end.

Definition ksize (h : heap) (block : ptr) : option Z :=
  match block with
  | NULL => None
  | ZERO_SIZE_PTR => Some 0
  | Ptr p off =>
      sp ← pages h !! p;
      if PageSlab sp then
        Some (SLOB_UNITS (load_uint (mem sp) (off - align_units)) * SLOB_UNIT)
      else Some (private sp)
  end.

(** ** Slab caches *)

Record kmem_cache := mkCache { csize : Z; calign : Z; by_rcu : bool }.

(** [sizeof(struct slob_rcu)]: a callback head of two words and an [int]. *)
Definition sizeof_slob_rcu : Z := 12.

Definition kmem_cache_create_ (size : Z) (rcu hwcache_align : bool) : kmem_cache :=
  let align := size in
  let sz := if rcu then size + sizeof_slob_rcu else size in
  let a := if hwcache_align then SLOB_ALIGN else 0 in
  let a := if a <? ARCH_SLAB_MINALIGN then ARCH_SLAB_MINALIGN else a in
  let a := if a <? align then align else a in
  mkCache sz a rcu.

(** The constructor is the cache's user; it is not modelled. *)
Definition kmem_cache_alloc_node (h : heap) (c : kmem_cache) (zero : bool) (fresh : new_page)
  : option (ptr * heap) :=
  if csize c <? PAGE_SIZE then
    '(b, h) ← slob_alloc h (csize c) zero (calign c) fresh;
    match b with
    | None => Some (NULL, h)
    | Some (p, b) => Some (Ptr p b, h)
    end
  else
    match fresh with
    | None => Some (NULL, h)
    | Some (p, junk) => Some (Ptr p 0, set_page h p (mkPage junk 0 0 false false 0))
    end.

(** [__kmem_cache_free]; with [SLAB_DESTROY_BY_RCU] it runs after a grace period. *)
Definition kmem_cache_free_ (h : heap) (p b size : Z) : option heap :=
  if size <? PAGE_SIZE then slob_free h p b size
  else Some (mkHeap (delete p (pages h)) (free_slob h)).
