(* ===== verification/SlobProofs.v ===== *)
(** * The SLOB allocator: the free list of a page

    The abstract free list of a page is the list of its free blocks, sorted by address
    and never adjacent.  [slob_page_alloc] is an aligned first fit on it, [slob_free]
    inserts and coalesces, and neither writes outside the free blocks. *)

From Stdlib Require Import ZArith Lia Bool.
From stdpp Require Import base numbers list gmap.
From S2P Require Import Prelude Slob.
Open Scope Z_scope.

Lemma PAGE_UNITS_value : PAGE_UNITS = 2048.
Proof. reflexivity. Qed.

Lemma upd_eq m i v : upd m i v i = v.
Proof. unfold upd. by rewrite Z.eqb_refl. Qed.
Lemma upd_ne m i v k : k <> i -> upd m i v k = m k.
Proof. unfold upd. intros H. by rewrite (proj2 (Z.eqb_neq k i)). Qed.

(** ** Encoded blocks *)

(** A free block of [n] units at [i] whose successor is at [nx]. *)
Definition block_at (m : memory) (i n nx : Z) : Prop :=
  (n = 1 /\ m i = - nx /\ 0 < nx) \/ (1 < n /\ m i = n /\ m (i + 1) = nx).

Lemma block_units m i n nx : block_at m i n nx -> slob_units m i = n.
Proof.
  unfold slob_units. intros [(-> & E & H)|(H & E & _)]; rewrite E.
  - by rewrite (proj2 (Z.ltb_ge 0 (- nx))) by lia.
  - by rewrite (proj2 (Z.ltb_lt 0 n)) by lia.
Qed.

Lemma block_next m i n nx : block_at m i n nx -> slob_next m i = nx.
Proof.
  unfold slob_next. intros [(-> & E & H)|(H & E & E')]; rewrite E.
  - rewrite (proj2 (Z.ltb_lt (- nx) 0)) by lia. lia.
  - by rewrite (proj2 (Z.ltb_ge n 0)) by lia.
Qed.

Lemma block_last m i n nx : block_at m i n nx -> 0 < nx <= 2048 -> slob_last m i = (nx =? 2048).
Proof.
  intros H Hn. unfold slob_last. rewrite (block_next _ _ _ _ H), PAGE_UNITS_value.
  destruct (Z.eqb_spec nx 2048) as [->|Hne]; [done|]. rewrite Z.mod_small by lia.
  apply Z.eqb_neq. lia.
Qed.

Lemma set_slob_block m i n nx : 1 <= n -> 0 < nx <= 2048 -> block_at (set_slob m i n nx) i n nx.
Proof.
  intros Hn Hx. unfold set_slob. destruct (Z.ltb_spec 1 n); [right|left].
  - rewrite upd_ne, upd_eq by lia. rewrite upd_eq, s16_id by lia. done.
  - rewrite upd_eq, !s16_id by (rewrite ?s16_id; lia). lia.
Qed.

(** [set_slob] writes inside the block. *)
Lemma set_slob_frame m i n nx k : k < i \/ i + Z.max 1 n <= k -> set_slob m i n nx k = m k.
Proof.
  intros Hk. unfold set_slob. destruct (Z.ltb_spec 1 n); rewrite !upd_ne by lia; done.
Qed.

Lemma block_frame m m' i n nx :
  1 <= n -> (forall k, i <= k < i + n -> m' k = m k) -> block_at m i n nx -> block_at m' i n nx.
Proof.
  intros Hn Hf [(-> & E & H)|(H & E & E')]; [left|right]; rewrite !Hf by lia; done.
Qed.

(** ** Free lists *)

(** The free blocks of a page from the one at [s] on, all at [lo] or above. *)
Fixpoint repr (m : memory) (lo s : Z) (bl : list (Z * Z)) : Prop :=
  match bl with
  | [] => s = 2048
  | (i, n) :: r =>
      s = i /\ lo <= i /\ 1 <= n /\ i + n <= 2048 /\
      exists nx, block_at m i n nx /\ repr m (i + n + 1) nx r
  end.

Definition covered (bl : list (Z * Z)) (k : Z) : Prop :=
  Exists (fun b => b.1 <= k < b.1 + b.2) bl.

Lemma covered_cons i n r k : covered ((i, n) :: r) k <-> i <= k < i + n \/ covered r k.
Proof. unfold covered. by rewrite Exists_cons. Qed.
Lemma covered_nil k : ~ covered [] k.
Proof. unfold covered. rewrite Exists_nil. auto. Qed.
Lemma covered_app a b k : covered (a ++ b) k <-> covered a k \/ covered b k.
Proof. unfold covered. by rewrite Exists_app. Qed.

#[export] Instance covered_dec bl k : Decision (covered bl k).
Proof. unfold covered. apply _. Defined.

(** Coverage as an arithmetic atom, for [lia]. *)
Lemma covered_atom bl k : exists z, covered bl k <-> z = 1.
Proof. destruct (decide (covered bl k)); [exists 1|exists 0]; intuition lia. Qed.
Ltac cov_lia :=
  repeat match goal with
  | |- context [covered ?bl ?k] =>
      let z := fresh "z" in let Hz := fresh "Hz" in
      destruct (covered_atom bl k) as [z Hz]; rewrite ?Hz in *
  | H : context [covered ?bl ?k] |- _ =>
      lazymatch type of H with _ <-> _ = 1 => fail | _ => idtac end;
      let z := fresh "z" in let Hz := fresh "Hz" in
      destruct (covered_atom bl k) as [z Hz]; rewrite ?Hz in *
  end; lia.

Definition total (bl : list (Z * Z)) : Z := foldr (fun b acc => b.2 + acc) 0 bl.

Lemma total_cons i n r : total ((i, n) :: r) = n + total r.
Proof. done. Qed.
Lemma total_app a b : total (a ++ b) = total a + total b.
Proof. induction a as [|[i n] a IH]; [done|]. cbn [app]. rewrite !total_cons, IH. lia. Qed.

Lemma repr_range m lo s bl k : repr m lo s bl -> covered bl k -> lo <= k < 2048.
Proof.
  revert lo s. induction bl as [|[i n] r IH]; intros lo s H Hk; [by apply covered_nil in Hk|].
  destruct H as (-> & H1 & H2 & H3 & nx & _ & Hr). apply covered_cons in Hk as [Hk|Hk]; [lia|].
  specialize (IH _ _ Hr Hk). lia.
Qed.

Lemma repr_head m lo s bl : repr m lo s bl -> lo <= 2048 -> lo <= s <= 2048.
Proof. destruct bl as [|[i n] r]; cbn; [lia|]. intros (-> & H1 & H2 & H3 & _). lia. Qed.

Lemma repr_lower m lo lo' s bl : repr m lo s bl -> lo' <= lo -> repr m lo' s bl.
Proof.
  destruct bl as [|[i n] r]; cbn; [done|]. intros (? & ? & ? & ? & H) ?. split_and!; try done. lia.
Qed.

Lemma repr_frame m m' lo s bl :
  (forall k, covered bl k -> m' k = m k) -> repr m lo s bl -> repr m' lo s bl.
Proof.
  revert lo s. induction bl as [|[i n] r IH]; intros lo s Hf H; [done|].
  destruct H as (-> & H1 & H2 & H3 & nx & Hb & Hr). cbn. split_and!; try done.
  exists nx. split.
  - eapply block_frame; [done| |exact Hb]. intros k Hk. apply Hf, covered_cons. by left.
  - apply IH; [|done]. intros k Hk. apply Hf, covered_cons. by right.
Qed.

Lemma repr_length m lo s bl : repr m lo s bl -> lo <= 2048 -> 2 * Z.of_nat (length bl) <= 2049 - lo.
Proof.
  revert lo s. induction bl as [|[i n] r IH]; intros lo s H Hlo; [cbn; lia|].
  destruct H as (-> & H1 & H2 & H3 & nx & _ & Hr). cbn [length].
  destruct r as [|[j q] r]; [cbn; lia|].
  assert (i + n + 1 <= 2048). { destruct Hr as (? & ? & ? & ? & _). lia. }
  specialize (IH _ _ Hr ltac:(lia)). lia.
Qed.

(** ** Allocation *)

(** Units skipped at [i] to reach the alignment. *)
Definition delta (align i : Z) : Z :=
  if align =? 0 then 0 else (ALIGN (SLOB_UNIT * i) align - SLOB_UNIT * i) `div` SLOB_UNIT.

Lemma ldiff_land_sum a b : Z.ldiff a b + Z.land a b = a.
Proof.
  rewrite Z.add_nocarry_lxor; apply Z.bits_inj'; intros k Hk;
    rewrite ?Z.lxor_spec, ?Z.land_spec, ?Z.ldiff_spec, ?Z.land_spec, ?Z.bits_0;
    by destruct (Z.testbit a k), (Z.testbit b k).
Qed.

Lemma ALIGN_ge x a : 1 <= a -> x <= ALIGN x a.
Proof.
  intros Ha. unfold ALIGN. rewrite <- Z.ldiff_land.
  pose proof (ldiff_land_sum (x + (a - 1)) (a - 1)) as E1.
  pose proof (ldiff_land_sum (a - 1) (x + (a - 1))) as E2. rewrite Z.land_comm in E2.
  assert (0 <= Z.ldiff (a - 1) (x + (a - 1))) by (apply Z.ldiff_nonneg; left; lia). lia.
Qed.

(** The aligned address of an even address is even, so it is a whole unit. *)
Lemma ALIGN_even i a : ALIGN (SLOB_UNIT * i) a `mod` 2 = 0.
Proof.
  unfold ALIGN, SLOB_UNIT. rewrite <- Z.ldiff_land, <- Z.bit0_mod, Z.ldiff_spec.
  rewrite !Z.bit0_odd, Z.odd_add, Z.odd_mul. by destruct (Z.odd (a - 1)).
Qed.

Lemma delta_nonneg align i : 0 <= align -> 0 <= delta align i.
Proof.
  intros Ha. unfold delta. destruct (Z.eqb_spec align 0); [lia|].
  pose proof (ALIGN_ge (SLOB_UNIT * i) align ltac:(lia)). unfold SLOB_UNIT in *. zlia.
Qed.

Lemma delta_aligned align i : 0 < align -> SLOB_UNIT * (i + delta align i) = ALIGN (SLOB_UNIT * i) align.
Proof.
  intros Ha. unfold delta. rewrite (proj2 (Z.eqb_neq align 0)) by lia.
  pose proof (ALIGN_even i align). unfold SLOB_UNIT in *. zlia.
Qed.

Lemma ALIGN_multiple x k : 0 <= k -> (2 ^ k | ALIGN x (2 ^ k)).
Proof.
  intros Hk. unfold ALIGN. rewrite <- Z.ldiff_land.
  replace (2 ^ k - 1) with (Z.ones k) by (rewrite Z.ones_equiv; lia).
  rewrite Z.ldiff_ones_r, Z.shiftl_mul_pow2 by done. apply Z.divide_factor_r.
Qed.

(** First fit. *)
Fixpoint take_fit (units align : Z) (bl : list (Z * Z)) : option (Z * list (Z * Z)) :=
  match bl with
  | [] => None
  | (i, n) :: r =>
      let d := delta align i in
      if units + d <=? n then
        Some (i + d,
          (if d =? 0 then [] else [(i, d)]) ++
          (if n - d =? units then [] else [(i + d + units, n - d - units)]) ++ r)
      else
        '(x, r') ← take_fit units align r; Some (x, (i, n) :: r')
  end.

Lemma repr_start m lo s bl : repr m lo s bl -> 0 < lo -> 0 < s <= 2048.
Proof. destruct bl as [|[i n] r]; cbn; [lia|]. intros (-> & H1 & H2 & H3 & _). lia. Qed.

Lemma repr_app m lo s l1 l2 : repr m lo s (l1 ++ l2) -> exists lo' s', repr m lo' s' l2.
Proof.
  revert lo s. induction l1 as [|[i n] r IH]; intros lo s H; [by exists lo, s|].
  destruct H as (_ & _ & _ & _ & nx & _ & H). by eapply IH.
Qed.

(** The block before a position, or the head of the list. *)
Definition prev_ok (sp : page) (prev : option Z) (pn cur : Z) : Prop :=
  match prev with
  | Some p => block_at (mem sp) p pn cur /\ 1 <= pn /\ 0 <= p /\ p + pn <= cur
  | None => freelist sp = cur
  end.

(** The pointer that led to a position now leads to [nh]. *)
Definition relinked (sp sp' : page) (prev : option Z) (pn nh : Z) : Prop :=
  match prev with
  | Some p => block_at (mem sp') p pn nh /\ freelist sp' = freelist sp
  | None => freelist sp' = nh
  end.

Definition in_prev (prev : option Z) (pn k : Z) : Prop :=
  match prev with Some p => p <= k < p + pn | None => False end.

Definition same_flags (sp sp' : page) : Prop :=
  units sp' = units sp /\ PageSlobFree sp' = PageSlobFree sp /\ PageSlab sp' = PageSlab sp /\
  private sp' = private sp.

Lemma relink_spec sp prev pn cur nh :
  prev_ok sp prev pn cur -> 0 < nh <= 2048 ->
  relinked sp (relink sp prev nh) prev pn nh /\ same_flags sp (relink sp prev nh) /\
  (forall k, ~ in_prev prev pn k -> mem (relink sp prev nh) k = mem sp k).
Proof.
  intros Hp Hn. destruct prev as [p|]; cbn in *; [|done].
  destruct Hp as (Hb & H1 & H2 & H3). rewrite (block_units _ _ _ _ Hb).
  split_and!; try done; [by apply set_slob_block|].
  intros k Hk. apply set_slob_frame. lia.
Qed.

Lemma unlink_spec sp u prev pn c a nx r :
  block_at (mem sp) c a nx -> repr (mem sp) (c + a + 1) nx r -> 1 <= u <= a -> 0 <= c ->
  c + a <= 2048 -> prev_ok sp prev pn c ->
  exists sp1 nh, unlink sp u prev c a = take_units sp1 u /\
    same_flags sp sp1 /\ relinked sp sp1 prev pn nh /\ 0 < nh <= 2048 /\
    repr (mem sp1) (c + u) nh ((if a =? u then [] else [(c + u, a - u)]) ++ r) /\
    (forall k, ~ in_prev prev pn k -> ~ c <= k < c + a -> mem sp1 k = mem sp k).
Proof.
  intros Hb Hr Hu Hc Hca Hp. unfold unlink. rewrite (block_next _ _ _ _ Hb).
  pose proof (repr_start _ _ _ _ Hr ltac:(lia)) as Hnx.
  assert (Hout : forall k, covered r k -> ~ in_prev prev pn k /\ ~ c <= k < c + a).
  { intros k Hk. apply (repr_range _ _ _ _ _ Hr) in Hk. split; [|lia].
    destruct prev as [p|]; cbn in *; [|unfold same_flags; cbn; auto 10]. lia. }
  destruct (Z.eqb_spec a u) as [->|Hne].
  - destruct (relink_spec sp prev pn c nx Hp Hnx) as (H1 & H2 & H3).
    exists (relink sp prev nx), nx. split_and!; try done; try lia; try apply H2.
    + cbn [app]. apply (repr_lower _ (c + u + 1)); [|lia].
      eapply repr_frame; [|exact Hr]. intros k Hk. apply H3. by apply Hout.
    + intros k Hk _. by apply H3.
  - destruct (relink_spec sp prev pn c (c + u) Hp ltac:(lia)) as (H1 & H2 & H3).
    set (sp0 := relink sp prev (c + u)) in *.
    rewrite s16_id by lia.
    set (m' := set_slob (mem sp0) (c + u) (a - u) nx).
    assert (Hm' : forall k, ~ c + u <= k < c + a -> m' k = mem sp0 k).
    { intros k Hk. apply set_slob_frame. lia. }
    exists (with_mem sp0 m'), (c + u). split_and!; try done; try lia; try apply H2.
    + destruct prev as [p|]; cbn in *; [|done]. destruct H1 as [H1 H1']. split; [|done].
      destruct Hp as (_ & Hp1 & Hp2 & Hp3).
      eapply block_frame; [done| |exact H1]. intros k Hk. apply Hm'. lia.
    + cbn [app repr mem with_mem]. split_and!; try lia. exists nx.
      replace (c + u + (a - u) + 1) with (c + a + 1) by lia. split; [apply set_slob_block; lia|].
      eapply repr_frame; [|exact Hr]. intros k Hk. destruct (Hout k Hk).
      rewrite Hm' by lia. by apply H3.
    + intros k Hk1 Hk2. cbn. rewrite Hm' by lia. by apply H3.
Qed.

(** What [carve] does to the block [(i, n)] at the head of a free list. *)
Definition carved (u d i n : Z) (r : list (Z * Z)) : list (Z * Z) :=
  (if d =? 0 then [] else [(i, d)]) ++
  (if n - d =? u then [] else [(i + d + u, n - d - u)]) ++ r.

Lemma carve_spec sp u d prev pn i n nx r :
  block_at (mem sp) i n nx -> repr (mem sp) (i + n + 1) nx r -> 1 <= u -> 0 <= d -> u + d <= n ->
  0 <= i -> i + n <= 2048 -> prev_ok sp prev pn i ->
  exists sp1 nh, carve sp u d prev i = (i + d, take_units sp1 u) /\
    same_flags sp sp1 /\ relinked sp sp1 prev pn nh /\
    repr (mem sp1) i nh (carved u d i n r) /\
    (forall k, ~ in_prev prev pn k -> ~ i <= k < i + n -> mem sp1 k = mem sp k).
Proof.
  intros Hb Hr Hu Hd Hfit Hi Hin Hp. unfold carve, carved.
  rewrite (block_units _ _ _ _ Hb), (block_next _ _ _ _ Hb).
  pose proof (repr_start _ _ _ _ Hr ltac:(lia)) as Hnx.
  destruct (Z.eqb_spec d 0) as [->|Hdz]; cbn [negb].
  - destruct (unlink_spec sp u prev pn i n nx r) as (sp1 & nh & -> & H1 & H2 & H3 & H4 & H5); try done; try lia.
    exists sp1, nh. rewrite !Z.add_0_r, !Z.sub_0_r in *. split_and!; try done; try apply H1.
    cbn [app]. apply (repr_lower _ (i + u)); [done|lia].
  - rewrite !s16_id by lia.
    set (m1 := set_slob (mem sp) (i + d) (n - d) nx). set (m2 := set_slob m1 i d (i + d)).
    assert (Hm2 : forall k, ~ i <= k < i + n -> m2 k = mem sp k).
    { intros k Hk. unfold m2. rewrite set_slob_frame by lia. apply set_slob_frame. lia. }
    assert (Hb2 : block_at m2 (i + d) (n - d) nx).
    { eapply (block_frame m1); [lia| |apply set_slob_block; lia].
      intros k Hk. apply set_slob_frame. lia. }
    rewrite (block_units _ _ _ _ Hb2).
    destruct (unlink_spec (with_mem sp m2) u (Some i) d (i + d) (n - d) nx r)
      as (sp1 & nh & -> & H1 & H2 & H3 & H4 & H5); cbn [mem with_mem]; try done; try lia.
    { replace (i + d + (n - d) + 1) with (i + n + 1) by lia. eapply repr_frame; [|exact Hr].
      intros k Hk. apply (repr_range _ _ _ _ _ Hr) in Hk. apply Hm2. lia. }
    { split_and!; try lia. apply set_slob_block; lia. }
    cbn [mem with_mem relinked] in *. destruct H2 as [H2 H2'].
    exists sp1, i. split_and!; try done; try apply H1.
    + assert (Hrest : forall k, ~ i <= k < i + n -> mem sp1 k = mem sp k).
      { intros k Hk. rewrite H5 by (cbn; lia). by apply Hm2. }
      destruct prev as [p|]; cbn in *; [|congruence]. destruct Hp as (Hp & Hp1 & Hp2 & Hp3).
      split; [|done]. eapply block_frame; [done| |exact Hp]. intros k Hk. apply Hrest. lia.
    + cbn [app repr]. split_and!; try lia. exists nh. split; [done|].
      apply (repr_lower _ (i + d + u)); [done|lia].
    + intros k Hk1 Hk2. rewrite H5 by (cbn; lia). by apply Hm2.
Qed.

Lemma page_alloc_loop_spec bl fuel sp u align prev pn lo cur :
  repr (mem sp) lo cur bl -> bl <> [] -> 0 <= lo -> 1 <= u -> 0 <= align ->
  prev_ok sp prev pn cur -> (length bl <= fuel)%nat ->
  match take_fit u align bl with
  | None => page_alloc_loop fuel sp u align prev cur = Some (None, sp)
  | Some (x, bl') => exists sp1 nh,
      page_alloc_loop fuel sp u align prev cur = Some (Some x, take_units sp1 u) /\
      same_flags sp sp1 /\ relinked sp sp1 prev pn nh /\ repr (mem sp1) lo nh bl' /\
      (forall k, ~ in_prev prev pn k -> ~ covered bl k -> mem sp1 k = mem sp k)
  end.
Proof.
  intros Hr Hne Hlo Hu Ha. revert fuel sp prev pn lo cur Hr Hlo.
  induction bl as [|[i n] r IH]; intros fuel sp prev pn lo cur Hr Hlo Hp Hf; [done|].
  destruct Hr as (-> & H1 & H2 & H3 & nx & Hb & Hr). cbn [length] in Hf.
  destruct fuel as [|fuel]; [lia|]. cbn [page_alloc_loop take_fit].
  rewrite (block_units _ _ _ _ Hb). fold (delta align i).
  pose proof (delta_nonneg align i Ha) as Hd. pose proof (repr_start _ _ _ _ Hr ltac:(lia)) as Hnx.
  destruct (Z.leb_spec (u + delta align i) n).
  - destruct (carve_spec sp u (delta align i) prev pn i n nx r) as (sp1 & nh & -> & K1 & K2 & K3 & K4);
      try done; try lia.
    exists sp1, nh. split_and!; try done; try apply K1.
    + apply (repr_lower _ i); [done|lia].
    + intros k Hk1 Hk2. apply K4; [done|]. intros Hk. apply Hk2, covered_cons. by left.
  - rewrite (block_last _ _ _ _ Hb Hnx), (block_next _ _ _ _ Hb).
    destruct r as [|[j q] r].
    { cbn in Hr. subst nx. done. }
    assert (Hj : nx = j /\ j < 2048) by (destruct Hr as (-> & ? & ? & ? & _); lia).
    rewrite (proj2 (Z.eqb_neq nx 2048)) by lia.
    assert (Hp' : prev_ok sp (Some i) n nx).
    { cbn. split_and!; try done; [lia|]. destruct Hr as (-> & ? & _). lia. }
    specialize (IH ltac:(done) fuel sp (Some i) n (i + n + 1) nx Hr ltac:(lia) Hp' ltac:(lia)).
    destruct (take_fit u align ((j, q) :: r)) as [[x r']|]; cbn [mbind option_bind]; [|done].
    destruct IH as (sp1 & nh & E & K1 & K2 & K3 & K4). cbn [relinked in_prev] in *.
    destruct K2 as [K2 K2'].
    assert (Hframe : forall k, ~ covered ((i, n) :: (j, q) :: r) k -> mem sp1 k = mem sp k).
    { intros k Hk. rewrite covered_cons in Hk. apply K4; tauto. }
    exists sp1, i. split_and!; try done; try apply K1.
    + destruct prev as [p|]; cbn [relinked prev_ok] in *; [|congruence]. destruct Hp as (Hp & Hp1 & Hp2 & Hp3).
      split; [|done]. eapply block_frame; [done| |exact Hp]. intros k Hk. apply Hframe.
      intros Hc. apply covered_cons in Hc as [Hc|Hc]; [lia|].
      apply (repr_range _ _ _ _ _ Hr) in Hc. lia.
    + cbn [repr]. split_and!; try done. exists nh. done.
    + intros k _ Hk. by apply Hframe.
Qed.

(** ** Pages *)

(** A page with free blocks [bl]. *)
Record page_ok (sp : page) (bl : list (Z * Z)) : Prop := mkPageOk {
  pg_repr : bl <> [] -> repr (mem sp) 0 (freelist sp) bl;
  pg_units : units sp = total bl;
  pg_free : PageSlobFree sp = bool_decide (bl <> []);
  pg_slab : PageSlab sp = true
}.

(** What a first fit takes. *)
Lemma take_fit_spec u align m lo s bl x bl' :
  0 <= align -> 1 <= u -> repr m lo s bl -> take_fit u align bl = Some (x, bl') ->
  total bl' = total bl - u /\ lo <= x /\ x + u <= 2048 /\
  (0 < align -> exists i, SLOB_UNIT * x = ALIGN (SLOB_UNIT * i) align) /\
  (forall k, covered bl' k <-> covered bl k /\ ~ x <= k < x + u) /\
  (forall k, x <= k < x + u -> covered bl k).
Proof.
  intros Ha Hu. revert lo s bl'. induction bl as [|[i n] r IH]; intros lo s bl' Hr E; [done|].
  destruct Hr as (-> & H1 & H2 & H3 & nx & _ & Hr). cbn [take_fit] in E.
  pose proof (delta_nonneg align i Ha) as Hd.
  assert (Hro : forall k, covered r k -> i + n < k) by (intros k Hk; apply (repr_range _ _ _ _ _ Hr) in Hk; lia).
  destruct (Z.leb_spec (u + delta align i) n).
  - injection E as <- <-. set (d := delta align i) in *. split_and!; try lia.
    + rewrite !total_app, !total_cons. destruct (Z.eqb_spec d 0), (Z.eqb_spec (n - d) u); cbn; lia.
    + intros Ha'. exists i. by apply delta_aligned.
    + intros k. destruct (Z.eqb_spec d 0), (Z.eqb_spec (n - d) u); cbn [app]; rewrite ?covered_cons;
        specialize (Hro k); cov_lia.
    + intros k Hk. rewrite covered_cons. left. lia.
  - destruct (take_fit u align r) as [[y r']|]; [|done]. cbn in E. injection E as <- <-.
    destruct (IH _ _ r' Hr eq_refl) as (I1 & I2 & I3 & I4 & I5 & I6).
    rewrite !total_cons. split_and!; try lia; [done| |].
    + intros k. rewrite !covered_cons, I5. specialize (Hro k). specialize (I6 k). cov_lia.
    + intros k Hk. rewrite covered_cons. right. by apply I6.
Qed.

Lemma total_pos m lo s bl : repr m lo s bl -> 0 <= total bl /\ (bl <> [] -> 0 < total bl) /\ total bl <= 2048 - Z.min lo 2048.
Proof.
  revert lo s. induction bl as [|[i n] r IH]; intros lo s Hr; [cbn; split_and!; [lia|done|lia]|].
  destruct Hr as (-> & H1 & H2 & H3 & nx & _ & Hr). destruct (IH _ _ Hr) as (I1 & _ & I3).
  rewrite total_cons. split_and!; intros; lia.
Qed.

Lemma slob_page_alloc_spec sp bl size align :
  page_ok sp bl -> bl <> [] -> 1 <= size -> 0 <= align ->
  match take_fit (SLOB_UNITS size) align bl with
  | None => slob_page_alloc sp size align = Some (None, sp)
  | Some (x, bl') => exists sp', slob_page_alloc sp size align = Some (Some x, sp') /\
      page_ok sp' bl' /\ private sp' = private sp /\
      (forall k, ~ covered bl k -> mem sp' k = mem sp k)
  end.
Proof.
  intros [Hr Hun Hfree Hslab] Hne Hs Ha. specialize (Hr Hne).
  assert (Hu : 1 <= SLOB_UNITS size) by (unfold SLOB_UNITS, SLOB_UNIT; zlia).
  pose proof (repr_length _ _ _ _ Hr ltac:(lia)) as Hlen.
  pose proof (page_alloc_loop_spec bl page_fuel sp (SLOB_UNITS size) align None 0 0 (freelist sp)
    Hr Hne ltac:(lia) Hu Ha eq_refl ltac:(unfold page_fuel; rewrite PAGE_UNITS_value; lia)) as H.
  unfold slob_page_alloc. destruct (take_fit (SLOB_UNITS size) align bl) as [[x bl']|] eqn:Et; [|done].
  destruct H as (sp1 & nh & E & (F1 & F2 & F3 & F4) & Hl & Hr' & Hf). cbn in Hl.
  destruct (take_fit_spec _ _ _ _ _ _ _ _ Ha Hu Hr Et) as (Ht & _).
  destruct (total_pos _ _ _ _ Hr') as (T1 & T2 & _).
  exists (take_units sp1 (SLOB_UNITS size)). split_and!; try done.
  - split; cbn.
    + intros _. by rewrite Hl.
    + lia.
    + rewrite F2, F1, Hun, Hfree, (bool_decide_eq_true_2 (bl <> [])) by done. cbn.
      destruct (Z.eqb_spec (total bl - SLOB_UNITS size) 0) as [E0|E0]; cbn.
      * symmetry. apply bool_decide_eq_false_2. intros Hne'. specialize (T2 Hne'). lia.
      * symmetry. apply bool_decide_eq_true_2. intros ->. cbn in Ht. lia.
    + by rewrite F3.
  - intros k Hk. cbn. apply Hf; [auto|done].
Qed.

(** ** Freeing *)

(** Replacing the blocks from the one at [p] on. *)
Lemma repr_replace m m' lo s pre p pn rest bl2 :
  repr m lo s (pre ++ (p, pn) :: rest) ->
  (forall k, covered pre k -> m' k = m k) ->
  (forall lo', lo' <= p -> repr m' lo' p bl2) -> repr m' lo s (pre ++ bl2).
Proof.
  revert lo s. induction pre as [|[i n] pre IH]; intros lo s Hr Hf H2.
  - destruct Hr as (-> & ? & _). by apply H2.
  - destruct Hr as (-> & H1 & H3 & H4 & nx & Hb & Hr). cbn. split_and!; try done.
    exists nx. split.
    + eapply block_frame; [done| |exact Hb]. intros k Hk. apply Hf, covered_cons. by left.
    + apply IH; [done| |done]. intros k Hk. apply Hf, covered_cons. by right.
Qed.

(** Where the search for the place of [b] ends. *)
Lemma find_slot_spec m lo s bl b fuel :
  repr m lo s bl -> bl <> [] -> s < b < 2048 -> (length bl <= fuel)%nat ->
  exists pre p pn nx rest, bl = pre ++ (p, pn) :: rest /\
    find_slot fuel m b s (slob_next m s) = Some (p, nx) /\
    block_at m p pn nx /\ repr m (p + pn + 1) nx rest /\ lo <= p /\ 1 <= pn /\ p < b <= nx /\
    (forall k, covered pre k -> k < p).
Proof.
  revert lo s fuel. induction bl as [|[i n] r IH]; intros lo s fuel Hr Hne Hb Hf; [done|].
  pose proof Hr as Hr0. destruct Hr as (-> & H1 & H2 & H3 & nx & Hblk & Hr).
  rewrite (block_next _ _ _ _ Hblk). cbn [length] in Hf. destruct fuel as [|fuel]; [lia|].
  cbn [find_slot]. destruct (Z.ltb_spec nx b).
  - destruct r as [|[j q] r]; [cbn in Hr; lia|].
    destruct (IH _ _ fuel Hr ltac:(done) ltac:(lia) ltac:(lia))
      as (pre & p & pn & nx' & rest & E & Hfs & K1 & K2 & K3 & K4 & K5 & K6).
    exists ((i, n) :: pre), p, pn, nx', rest. rewrite E. split_and!; try done; try lia.
    intros k Hk. apply covered_cons in Hk as [Hk|Hk]; [lia|by apply K6].
  - exists [], i, n, nx, r. split_and!; try done; try lia.
    intros k Hk. by apply covered_nil in Hk.
Qed.

(** The freed block together with the block after it, if they touch. *)
Lemma merge_next m b n p pn nx rest :
  block_at m p pn nx -> repr m (p + pn + 1) nx rest -> 0 <= p -> 1 <= pn -> 1 <= n -> p + pn <= b -> b + n <= nx ->
  (nx = 2048 -> rest = []) ->
  let m1 := if negb (slob_last m p) && (b + n =? nx)
            then set_slob m b (s16 (n + slob_units m nx)) (slob_next m nx)
            else set_slob m b (s16 n) nx in
  exists N NX rest', block_at m1 b N NX /\ repr m1 (b + N + 1) NX rest' /\ 0 < NX <= 2048 /\
    1 <= N /\ b + N <= 2048 /\ total rest' + N = total rest + n /\
    (forall k, (b <= k < b + N \/ covered rest' k) <-> (b <= k < b + n \/ covered rest k)) /\
    (forall k, ~ b <= k < b + N -> m1 k = m k).
Proof.
  intros Hb Hr Hp Hpn Hn Hpb Hbn Hend m1. unfold m1.
  pose proof (repr_start _ _ _ _ Hr ltac:(lia)) as Hnx.
  rewrite (block_last _ _ _ _ Hb Hnx).
  destruct (Z.eqb_spec nx 2048) as [->|Hlast]; cbn [negb andb].
  - rewrite s16_id, (Hend eq_refl) by lia. exists n, 2048, []. split_and!; try done; try lia.
    + apply set_slob_block; lia.
    + intros k Hk. apply set_slob_frame. lia.
  - destruct rest as [|[j q] rest]; [cbn in Hr; lia|].
    pose proof Hr as Hr0. destruct Hr as (-> & H1 & H2 & H3 & nj & Hj & Hrest).
    pose proof (repr_start _ _ _ _ Hrest ltac:(lia)) as Hnj.
    assert (Hro : forall k, covered rest k -> j + q < k)
      by (intros k Hk; apply (repr_range _ _ _ _ _ Hrest) in Hk; lia).
    destruct (Z.eqb_spec (b + n) j) as [Ej|Ej].
    + rewrite (block_units _ _ _ _ Hj), (block_next _ _ _ _ Hj), s16_id by lia.
      exists (n + q), nj, rest. rewrite total_cons. split_and!; try lia.
      * apply set_slob_block; lia.
      * replace (b + (n + q) + 1) with (j + q + 1) by lia. eapply repr_frame; [|exact Hrest].
        intros k Hk. apply Hro in Hk. apply set_slob_frame. lia.
      * intros k. rewrite covered_cons. specialize (Hro k). cov_lia.
      * intros k Hk. apply set_slob_frame. lia.
    + rewrite s16_id by lia. exists n, j, ((j, q) :: rest). split_and!; try done; try lia.
      * apply set_slob_block; lia.
      * apply (repr_frame m).
        { intros k Hk. apply covered_cons in Hk as [Hk|Hk]; apply set_slob_frame; [lia|].
          apply Hro in Hk. lia. }
        { cbn. split_and!; [done|lia|done|done|by exists nj]. }
      * intros k Hk. apply set_slob_frame. lia.
Qed.

(** ... and with the block before it. *)
Lemma merge_prev m1 p pn nx b N NX rest' :
  block_at m1 p pn nx -> block_at m1 b N NX -> repr m1 (b + N + 1) NX rest' ->
  0 <= p -> 1 <= pn -> 1 <= N -> p + pn <= b -> b + N <= 2048 -> 0 < NX <= 2048 ->
  let m2 := if p + slob_units m1 p =? b
            then set_slob m1 p (s16 (slob_units m1 b + slob_units m1 p)) (slob_next m1 b)
            else set_slob m1 p (slob_units m1 p) b in
  exists bl2, bl2 <> [] /\ (forall lo', lo' <= p -> repr m2 lo' p bl2) /\
    total bl2 = pn + N + total rest' /\
    (forall k, covered bl2 k <-> p <= k < p + pn \/ b <= k < b + N \/ covered rest' k) /\
    (forall k, ~ p <= k < p + pn -> ~ b <= k < b + N -> m2 k = m1 k).
Proof.
  intros Hp Hb Hr H1 H2 H3 H4 H5 H6 m2. unfold m2.
  rewrite (block_units _ _ _ _ Hp), (block_units _ _ _ _ Hb), (block_next _ _ _ _ Hb).
  assert (Hro : forall k, covered rest' k -> b + N < k)
    by (intros k Hk; apply (repr_range _ _ _ _ _ Hr) in Hk; lia).
  destruct (Z.eqb_spec (p + pn) b) as [E|E].
  - rewrite s16_id by lia. exists ((p, N + pn) :: rest'). rewrite total_cons. split_and!; try done; try lia.
    + intros lo' Hlo. cbn. split_and!; try lia. exists NX. split; [apply set_slob_block; lia|].
      replace (p + (N + pn) + 1) with (b + N + 1) by lia. eapply repr_frame; [|exact Hr].
      intros k Hk. apply Hro in Hk. apply set_slob_frame. lia.
    + intros k. rewrite covered_cons. cov_lia.
    + intros k Hk1 Hk2. apply set_slob_frame. lia.
  - exists ((p, pn) :: (b, N) :: rest'). rewrite !total_cons. split_and!; try done; try lia.
    + intros lo' Hlo. cbn. split_and!; try lia. exists b. split; [apply set_slob_block; lia|].
      split_and!; try lia. exists NX. split.
      * eapply block_frame; [done| |exact Hb]. intros k Hk. apply set_slob_frame. lia.
      * eapply repr_frame; [|exact Hr]. intros k Hk. apply Hro in Hk. apply set_slob_frame. lia.
    + intros k. rewrite !covered_cons. cov_lia.
    + intros k Hk1 Hk2. apply set_slob_frame. lia.
Qed.

(** The free units of a page after a free. *)
Definition freed (bl bl' : list (Z * Z)) (b n : Z) : Prop :=
  total bl' = total bl + n /\ (forall k, covered bl' k <-> covered bl k \/ b <= k < b + n).

Lemma reinsert_first sp bl b n :
  repr (mem sp) 0 (freelist sp) bl -> bl <> [] -> 0 <= b -> 1 <= n ->
  (forall k, b <= k < b + n -> ~ covered bl k) -> b < freelist sp ->
  let '(n', fl) := if b + n =? freelist sp
                   then (n + slob_units (mem sp) (freelist sp), slob_next (mem sp) (freelist sp))
                   else (n, freelist sp) in
  exists bl', bl' <> [] /\ repr (set_slob (mem sp) b (s16 n') fl) 0 b bl' /\ freed bl bl' b n /\
    (forall k, ~ covered bl' k -> set_slob (mem sp) b (s16 n') fl k = mem sp k).
Proof.
  intros Hr Hne Hb Hn Hdis Hlt. destruct bl as [|[i q] r]; [done|].
  destruct Hr as (Efl & H1 & H2 & H3 & nx & Hblk & Hr). rewrite Efl in *.
  pose proof (repr_start _ _ _ _ Hr ltac:(lia)) as Hnx.
  assert (Hbn : b + n <= i).
  { destruct (Z.le_gt_cases (b + n) i); [done|]. exfalso. apply (Hdis i); [lia|].
    apply covered_cons. left. lia. }
  assert (Hro : forall k, covered r k -> i + q < k)
    by (intros k Hk; apply (repr_range _ _ _ _ _ Hr) in Hk; lia).
  destruct (Z.eqb_spec (b + n) i) as [E|E].
  - rewrite (block_units _ _ _ _ Hblk), (block_next _ _ _ _ Hblk), s16_id by lia.
    exists ((b, n + q) :: r). split_and!; try done.
    + cbn. split_and!; try lia. exists nx. split; [apply set_slob_block; lia|].
      replace (b + (n + q) + 1) with (i + q + 1) by lia. eapply repr_frame; [|exact Hr].
      intros k Hk. apply Hro in Hk. apply set_slob_frame. lia.
    + split; [rewrite !total_cons; lia|]. intros k. rewrite !covered_cons. cov_lia.
    + intros k Hk. rewrite covered_cons in Hk. apply set_slob_frame. cov_lia.
  - rewrite s16_id by lia. exists ((b, n) :: (i, q) :: r). split_and!; try done.
    + cbn [repr]. split_and!; try lia. exists i. split; [apply set_slob_block; lia|].
      split_and!; try lia. exists nx. split.
      * eapply block_frame; [done| |exact Hblk]. intros k Hk. apply set_slob_frame. lia.
      * eapply repr_frame; [|exact Hr]. intros k Hk. apply Hro in Hk. apply set_slob_frame. lia.
    + split; [rewrite !total_cons; lia|]. intros k. rewrite !covered_cons. cov_lia.
    + intros k Hk. rewrite covered_cons in Hk. apply set_slob_frame. cov_lia.
Qed.

Lemma reinsert_spec sp bl b n :
  repr (mem sp) 0 (freelist sp) bl -> bl <> [] -> 0 <= b -> 1 <= n -> b + n <= 2048 ->
  (forall k, b <= k < b + n -> ~ covered bl k) ->
  exists m' fl' bl', bl' <> [] /\
    reinsert sp b n = Some (mkPage m' (units sp + n) fl' (PageSlobFree sp) (PageSlab sp) (private sp)) /\
    repr m' 0 fl' bl' /\ freed bl bl' b n /\ (forall k, ~ covered bl' k -> m' k = mem sp k).
Proof.
  intros Hr Hne Hb Hn Hbn Hdis. unfold reinsert. cbn [freelist mem units].
  pose proof (repr_length _ _ _ _ Hr ltac:(lia)) as Hlen.
  destruct (Z.ltb_spec b (freelist sp)).
  { pose proof (reinsert_first sp bl b n Hr Hne Hb Hn Hdis ltac:(lia)) as Hfirst.
    destruct (b + n =? freelist sp); destruct Hfirst as (bl' & K1 & K2 & K3 & K4);
      do 2 eexists; exists bl'; (split; [done|]); (split; [reflexivity|]); done. }
  assert (Hs : freelist sp < b).
  { destruct bl as [|[i q] r]; [done|]. destruct Hr as (E & ? & ? & _). rewrite E in *.
    destruct (Z.eq_dec i b) as [->|]; [|lia]. exfalso. apply (Hdis b); [lia|]. apply covered_cons. left. lia. }
  destruct (find_slot_spec _ _ _ _ b page_fuel Hr Hne ltac:(lia)
    ltac:(unfold page_fuel; rewrite PAGE_UNITS_value; lia))
    as (pre & p & pn & nx & rest & -> & -> & Hp & Hrest & P1 & P2 & P3 & P4).
  cbn [mbind option_bind].
  pose proof (repr_start _ _ _ _ Hrest ltac:(lia)) as Hnx.
  assert (Hpb : p + pn <= b).
  { destruct (Z.le_gt_cases (p + pn) b); [done|]. exfalso. apply (Hdis b); [lia|].
    apply covered_app. right. apply covered_cons. left. lia. }
  assert (Hend : nx = 2048 -> rest = []).
  { destruct rest as [|[j q] rest]; [done|]. destruct Hrest as (-> & ? & ? & ? & _). lia. }
  assert (Hbx : b + n <= nx).
  { destruct rest as [|[j q] rest]; [cbn in Hrest; lia|]. pose proof Hrest as (-> & ? & ? & _).
    destruct (Z.le_gt_cases (b + n) j); [done|]. exfalso. apply (Hdis j); [lia|].
    apply covered_app. right. rewrite !covered_cons. right. left. lia. }
  destruct (merge_next (mem sp) b n p pn nx rest Hp Hrest ltac:(lia) P2 Hn Hpb Hbx Hend)
    as (N & NX & rest' & M1 & M2 & M3 & M4 & M5 & M6 & M7 & M8).
  set (m1 := if negb _ && _ then _ else _) in *.
  assert (Hp1 : block_at m1 p pn nx).
  { eapply block_frame; [done| |exact Hp]. intros k Hk. apply M8. lia. }
  destruct (merge_prev m1 p pn nx b N NX rest' Hp1 M1 M2 ltac:(lia) P2 M4 Hpb M5 M3)
    as (bl2 & Q1 & Q2 & Q3 & Q4 & Q5).
  set (m2 := if _ =? b then _ else _) in *.
  assert (Hm2 : forall k, ~ p <= k < p + pn -> ~ b <= k < b + N -> m2 k = mem sp k).
  { intros k Hk1 Hk2. rewrite Q5, M8 by done. done. }
  exists m2, (freelist sp), (pre ++ bl2). split_and!; try done.
  - by destruct pre, bl2.
  - eapply repr_replace; [exact Hr| |exact Q2]. intros k Hk. apply P4 in Hk. apply Hm2; lia.
  - split; [rewrite !total_app, total_cons; lia|].
    intros k. rewrite !covered_app, covered_cons, Q4. specialize (M7 k). cov_lia.
  - intros k Hk. rewrite covered_app, Q4 in Hk. apply Hm2; cov_lia.
Qed.
