(* ===== verification/SlobHeap.v ===== *)
(** * The SLOB allocator: the heap

    The invariant of the heap relative to the objects that are allocated: every unit of
    a slab page is free or belongs to exactly one object, and a page is on exactly
    one list while it has free units.  Allocation hands out a new object, freeing
    takes it back, and neither changes a unit of any other object. *)

From Stdlib Require Import ZArith Lia Bool.
From stdpp Require Import base numbers list gmap.
From S2P Require Import Prelude Slob SlobProofs.
Open Scope Z_scope.

(** An allocated object: page, first unit, number of units. *)
Record object := mkObj { o_page : Z; o_start : Z; o_units : Z }.

Definition covers (o : object) (p k : Z) : bool :=
  (o_page o =? p) && (o_start o <=? k) && (k <? o_start o + o_units o).

(** How many objects hold a unit, and how many units of a page are held. *)
Definition holders (live : list object) (p k : Z) : Z :=
  foldr (fun o acc => (if covers o p k then 1 else 0) + acc) 0 live.
Definition held_units (live : list object) (p : Z) : Z :=
  foldr (fun o acc => (if o_page o =? p then o_units o else 0) + acc) 0 live.

Definition well_placed (o : object) : Prop :=
  0 <= o_start o /\ 1 <= o_units o /\ o_start o + o_units o <= 2048.

(** A slab page with free blocks [bl] next to the objects [live]. *)
Record page_split (p : Z) (sp : page) (live : list object) (bl : list (Z * Z)) : Prop := mkSplit {
  sl_page : page_ok sp bl;
  sl_units : forall k, 0 <= k < 2048 -> holders live p k = if decide (covered bl k) then 0 else 1;
  sl_total : total bl + held_units live p = 2048
}.

Record heap_ok (h : heap) (live : list object) : Prop := mkHeapOk {
  hk_pages : forall p sp, pages h !! p = Some sp -> PageSlab sp = true ->
    exists bl, page_split p sp live bl;
  hk_live : forall o, o ∈ live -> well_placed o /\
    exists sp, pages h !! o_page o = Some sp /\ PageSlab sp = true;
  hk_free : forall p sp, pages h !! p = Some sp -> PageSlab sp = true -> PageSlobFree sp = true ->
    exists c, p ∈ free_slob h c;
  hk_listed : forall c p, p ∈ free_slob h c -> exists sp, pages h !! p = Some sp /\
    PageSlab sp = true /\ PageSlobFree sp = true;
  hk_nodup : forall c, NoDup (free_slob h c);
  hk_once : forall c c' p, p ∈ free_slob h c -> p ∈ free_slob h c' -> c = c'
}.

(** ** Counting *)

Lemma holders_cons o live p k : holders (o :: live) p k = (if covers o p k then 1 else 0) + holders live p k.
Proof. done. Qed.
Lemma held_units_cons o live p :
  held_units (o :: live) p = (if o_page o =? p then o_units o else 0) + held_units live p.
Proof. done. Qed.

Lemma holders_nonneg live p k : 0 <= holders live p k.
Proof. induction live as [|o live IH]; [done|]. rewrite holders_cons. destruct (covers o p k); lia. Qed.

Lemma holders_perm l l' p k : l ≡ₚ l' -> holders l p k = holders l' p k.
Proof. induction 1; rewrite ?holders_cons; lia. Qed.
Lemma held_units_perm l l' p : l ≡ₚ l' -> held_units l p = held_units l' p.
Proof. induction 1; rewrite ?held_units_cons; lia. Qed.

Lemma covers_spec o p k : covers o p k = true <-> o_page o = p /\ o_start o <= k < o_start o + o_units o.
Proof. unfold covers. rewrite !andb_true_iff, Z.eqb_eq, Z.leb_le, Z.ltb_lt. lia. Qed.

Lemma holders_member live o p k : o ∈ live -> covers o p k = true -> 1 <= holders live p k.
Proof.
  induction 1 as [o live|o o' live H IH]; intros Hc; rewrite holders_cons.
  - rewrite Hc. pose proof (holders_nonneg live p k). lia.
  - specialize (IH Hc). destruct (covers o' p k); lia.
Qed.

Lemma held_units_nonneg live p : Forall well_placed live -> 0 <= held_units live p.
Proof.
  induction 1 as [|o live Ho Hl IH]; [done|]. rewrite held_units_cons.
  destruct Ho. destruct (_ =? _); lia.
Qed.

Lemma held_units_zero live p o :
  Forall well_placed live -> held_units live p = 0 -> o ∈ live -> o_page o <> p.
Proof.
  intros Hw H0 Ho. induction Ho as [o live|o o' live Hin IH]; rewrite held_units_cons in H0;
    apply Forall_cons in Hw as [Hw Hl]; pose proof (held_units_nonneg live p Hl).
  - intros E. rewrite (proj2 (Z.eqb_eq _ _) E) in H0. destruct Hw. lia.
  - apply IH; [done|]. destruct Hw. destruct (o_page o' =? p); lia.
Qed.

Lemma held_units_member live p o :
  Forall well_placed live -> o ∈ live -> o_page o = p -> 1 <= held_units live p.
Proof.
  intros Hw Ho Hp. pose proof (held_units_nonneg live p Hw).
  destruct (Z.eq_dec (held_units live p) 0) as [E|]; [|lia].
  by destruct (held_units_zero live p o Hw E Ho).
Qed.

Lemma held_units_exists live p : held_units live p <> 0 -> exists o, o ∈ live /\ o_page o = p.
Proof.
  induction live as [|o live IH]; [done|]. rewrite held_units_cons. destruct (Z.eqb_spec (o_page o) p) as [E|].
  - intros _. exists o. split; [apply list_elem_of_here|done].
  - intros H. destruct IH as (o' & Hin & E); [lia|]. exists o'. split; [by apply list_elem_of_further|done].
Qed.

Lemma live_placed h live : heap_ok h live -> Forall well_placed live.
Proof. intros H. apply Forall_forall. intros o Ho. by apply (hk_live _ _ H). Qed.

(** The units of the live objects of a page are not free. *)
Lemma live_not_free p sp live bl o k :
  page_split p sp live bl -> o ∈ live -> covers o p k = true -> 0 <= k < 2048 -> ~ covered bl k.
Proof.
  intros [_ Hu _] Ho Hc Hk Hcov. specialize (Hu k Hk). rewrite decide_True in Hu by done.
  pose proof (holders_member live o p k Ho Hc). lia.
Qed.

(** Two objects never share a unit. *)
Lemma heap_ok_disjoint h live o1 o2 rest p k :
  heap_ok h live -> live ≡ₚ o1 :: o2 :: rest -> covers o1 p k = true -> covers o2 p k = true -> False.
Proof.
  intros Hh Hp H1 H2.
  assert (Ho1 : o1 ∈ live) by (rewrite Hp; apply list_elem_of_here).
  destruct (hk_live _ _ Hh o1 Ho1) as [[W1 [W2 W3]] (sp & Hsp & Hs)].
  apply covers_spec in H1 as E1. destruct E1 as [E1 E1'].
  rewrite E1 in Hsp. destruct (hk_pages _ _ Hh p sp Hsp Hs) as [bl [_ Hu _]].
  specialize (Hu k ltac:(lia)). rewrite (holders_perm _ _ _ _ Hp), !holders_cons, H1, H2 in Hu.
  pose proof (holders_nonneg rest p k). destruct (decide _); lia.
Qed.

(** Client writes inside an object do not disturb the heap. *)
Lemma page_ok_frame sp bl m :
  page_ok sp bl -> (forall k, covered bl k -> m k = mem sp k) -> page_ok (with_mem sp m) bl.
Proof.
  intros [H1 H2 H3 H4] Hf. split; cbn; try done. intros Hne. eapply repr_frame; [|by apply H1].
  intros k Hk. by rewrite Hf.
Qed.

Lemma page_split_mem p sp live bl m :
  page_split p sp live bl -> (forall k, covered bl k -> m k = mem sp k) ->
  page_split p (with_mem sp m) live bl.
Proof. intros [H1 H2 H3] Hf. split; [by apply page_ok_frame|done|done]. Qed.

Lemma heap_ok_set_mem h live p sp m :
  heap_ok h live -> pages h !! p = Some sp ->
  (forall bl, page_split p sp live bl -> forall k, covered bl k -> m k = mem sp k) ->
  heap_ok (set_page h p (with_mem sp m)) live.
Proof.
  intros [H1 H2 H3 H4 H5 H6] Hp Hm.
  assert (Hlk : forall q sq, <[p := with_mem sp m]> (pages h) !! q = Some sq ->
    exists sq0, pages h !! q = Some sq0 /\ PageSlab sq = PageSlab sq0 /\
      PageSlobFree sq = PageSlobFree sq0 /\ (sq = sq0 \/ (q = p /\ sq = with_mem sp m /\ sq0 = sp))).
  { intros q sq Hq. apply lookup_insert_Some in Hq as [[<- <-]|[Hne Hq]]; [exists sp|exists sq];
      split_and!; auto. }
  assert (Hback : forall q sq, pages h !! q = Some sq -> exists sq', <[p := with_mem sp m]> (pages h) !! q = Some sq' /\
    PageSlab sq' = PageSlab sq /\ PageSlobFree sq' = PageSlobFree sq).
  { intros q sq Hq. destruct (decide (q = p)) as [->|Hne].
    - exists (with_mem sp m). rewrite lookup_insert_eq. split; [done|]. rewrite Hp in Hq. by injection Hq as <-.
    - exists sq. by rewrite lookup_insert_ne. }
  split; cbn; try done.
  - intros q sq Hq Hs. apply Hlk in Hq as (sq0 & Hq & E1 & _ & [->|(-> & -> & ->)]); [by apply H1|].
    rewrite E1 in Hs. destruct (H1 p sp Hp Hs) as [bl Hbl]. exists bl. apply page_split_mem; [done|by apply Hm].
  - intros o Ho. destruct (H2 o Ho) as [Hw (sq & Hq & Hs)]. split; [done|].
    destruct (Hback _ _ Hq) as (sq' & Hq' & E & _). exists sq'. by rewrite E.
  - intros q sq Hq Hs Hf. apply Hlk in Hq as (sq0 & Hq & E1 & E2 & _). apply (H3 q sq0); congruence.
  - intros c q Hq. destruct (H4 c q Hq) as (sq & Hsq & Hs & Hf).
    destruct (Hback _ _ Hsq) as (sq' & Hq' & E1 & E2). exists sq'. by rewrite E1, E2.
Qed.

(** ** Updating one page *)

#[export] Instance slob_list_eq_dec : EqDecision slob_list.
Proof. solve_decision. Defined.

Lemma set_list_lookup h c l c' :
  free_slob (set_list h c l) c' = if decide (c = c') then l else free_slob h c'.
Proof. by destruct c, c'. Qed.

Lemma heap_ok_update h live live' p sp' bl' F :
  heap_ok h live -> page_split p sp' live' bl' ->
  (forall q k, q <> p -> holders live' q k = holders live q k) ->
  (forall q, q <> p -> held_units live' q = held_units live q) ->
  (forall o, o ∈ live' -> well_placed o /\ (o_page o = p \/ o ∈ live)) ->
  (forall c q, q <> p -> (q ∈ F c <-> q ∈ free_slob h c)) -> (forall c, NoDup (F c)) ->
  (forall c, p ∈ F c -> PageSlobFree sp' = true) ->
  (PageSlobFree sp' = true -> exists c, p ∈ F c) ->
  (forall c c', p ∈ F c -> p ∈ F c' -> c = c') ->
  heap_ok (mkHeap (<[p := sp']> (pages h)) F) live'.
Proof.
  intros [H1 H2 H3 H4 H5 H6] Hsp Hh Hu Hl Ho Hn Hp1 Hp2 Hp3.
  pose proof (pg_slab _ _ (sl_page _ _ _ _ Hsp)) as Hslab.
  split; cbn; try done.
  - intros q sq Hq Hs. apply lookup_insert_Some in Hq as [[<- <-]|[Hne Hq]]; [by exists bl'|].
    destruct (H1 q sq Hq Hs) as [bl [B1 B2 B3]]. exists bl. split; [done| |].
    + intros k Hk. rewrite Hh by done. by apply B2.
    + by rewrite Hu by done.
  - intros o Hin. destruct (Hl o Hin) as [Hw [Hpg|Hold]]; (split; [done|]).
    + exists sp'. by rewrite Hpg, lookup_insert_eq.
    + destruct (decide (o_page o = p)) as [->|Hne]; [exists sp'; by rewrite lookup_insert_eq|].
      rewrite lookup_insert_ne by done. by apply H2.
  - intros q sq Hq Hs Hf. apply lookup_insert_Some in Hq as [[<- <-]|[Hne Hq]]; [by apply Hp2|].
    destruct (H3 q sq Hq Hs Hf) as [c Hc]. exists c. by apply Ho.
  - intros c q Hq. destruct (decide (q = p)) as [->|Hne].
    + exists sp'. rewrite lookup_insert_eq. split_and!; try done. by apply (Hp1 c).
    + rewrite lookup_insert_ne by done. apply (H4 c q). by apply Ho.
  - intros c c' q Hc Hc'. destruct (decide (q = p)) as [->|Hne]; [by eapply Hp3|].
    apply (H6 c c' q); by apply Ho.
Qed.

Lemma holders_other o live q k : o_page o <> q -> holders (o :: live) q k = holders live q k.
Proof.
  intros Hne. rewrite holders_cons. destruct (covers o q k) eqn:E; [|done].
  apply covers_spec in E as [? _]. done.
Qed.
Lemma held_units_other o live q : o_page o <> q -> held_units (o :: live) q = held_units live q.
Proof. intros Hne. rewrite held_units_cons. by rewrite (proj2 (Z.eqb_neq _ _)) by done. Qed.

(** ** Allocation *)

(** Carving an object out of a page's free blocks. *)
Lemma page_split_alloc p sp sp' live bl bl' u align x :
  page_split p sp live bl -> bl <> [] -> 1 <= u -> 0 <= align ->
  take_fit u align bl = Some (x, bl') -> page_ok sp' bl' ->
  page_split p sp' (mkObj p x u :: live) bl' /\ well_placed (mkObj p x u).
Proof.
  intros [[Hr _ _ _] Hu Ht] Hne Hu1 Ha Et Hok.
  destruct (take_fit_spec _ _ _ _ _ _ _ _ Ha Hu1 (Hr Hne) Et) as (T1 & T2 & T3 & _ & T5 & T6).
  split; [split; [done| |]|].
  - intros k Hk. rewrite holders_cons, Hu by done. specialize (T5 k). specialize (T6 k).
    destruct (covers (mkObj p x u) p k) eqn:Ec.
    + apply covers_spec in Ec as [_ Ec]. cbn in Ec.
      rewrite (decide_True (P := covered bl k)), (decide_False (P := covered bl' k)) by (tauto || lia). lia.
    + assert (Hout : ~ x <= k < x + u).
      { intros Hin. cut (covers (mkObj p x u) p k = true); [congruence|]. by apply covers_spec. }
      destruct (decide (covered bl k)), (decide (covered bl' k)); tauto || lia.
  - rewrite held_units_cons. cbn. rewrite Z.eqb_refl. lia.
  - split; cbn; lia.
Qed.

Section allocation.
Context (h : heap) (live : list object) (Hok : heap_ok h live).
Context (size align : Z) (Hsize : 1 <= size) (Halign : 0 <= align).

(** What a successful search found. *)
Record picked (p b : Z) (sp' : page) (bl' : list (Z * Z)) : Prop := mkPicked {
  pk_split : page_split p sp' (mkObj p b (SLOB_UNITS size) :: live) bl';
  pk_placed : well_placed (mkObj p b (SLOB_UNITS size));
  pk_aligned : 0 < align -> exists i, SLOB_UNIT * b = ALIGN (SLOB_UNIT * i) align
}.

Lemma units_pos : 1 <= SLOB_UNITS size.
Proof. clear -Hsize. unfold SLOB_UNITS, SLOB_UNIT. zlia. Qed.

Lemma page_pick p sp bl :
  page_split p sp live bl -> bl <> [] ->
  slob_page_alloc sp size align = Some (None, sp) \/
  exists b sp' bl', slob_page_alloc sp size align = Some (Some b, sp') /\ picked p b sp' bl' /\
    (forall o k, o ∈ live -> covers o p k = true -> 0 <= k < 2048 -> mem sp' k = mem sp k).
Proof.
  intros Hs Hne. pose proof (slob_page_alloc_spec sp bl size align (sl_page _ _ _ _ Hs) Hne Hsize Halign) as H.
  destruct (take_fit (SLOB_UNITS size) align bl) as [[x bl']|] eqn:Et; [right|by left].
  destruct H as (sp' & E & Hpok & _ & Hf). exists x, sp', bl'. split; [done|].
  destruct (page_split_alloc p sp sp' live bl bl' _ align x Hs Hne units_pos Halign Et Hpok) as [S1 S2].
  split; [split; [done|done|]|].
  - pose proof (pg_repr _ _ (sl_page _ _ _ _ Hs) Hne) as Hr.
    apply (take_fit_spec _ _ _ _ _ _ _ _ Halign units_pos Hr Et).
  - intros o k Ho Hc Hk. apply Hf. by eapply live_not_free.
Qed.

Lemma try_pages_spec c before l :
  before ++ l = free_slob h c ->
  try_pages (pages h) before l size align = Some None \/
  exists p b sp sp' bl' pre post,
    try_pages (pages h) before l size align =
      Some (Some (p, b, sp', (if PageSlobFree sp' then p :: post else post) ++ pre)) /\
    free_slob h c = pre ++ p :: post /\ pages h !! p = Some sp /\ picked p b sp' bl' /\
    (forall o k, o ∈ live -> covers o p k = true -> 0 <= k < 2048 -> mem sp' k = mem sp k).
Proof.
  revert before. induction l as [|p rest IH]; intros before E; cbn [try_pages]; [by left|].
  assert (Hin : p ∈ free_slob h c) by (rewrite <- E; apply elem_of_app; right; apply list_elem_of_here).
  destruct (hk_listed _ _ Hok c p Hin) as (sp & Hsp & Hslab & Hfree). rewrite Hsp. cbn.
  specialize (IH (before ++ [p])). rewrite <- app_assoc in IH. specialize (IH E).
  destruct (units sp <? SLOB_UNITS size); [exact IH|].
  destruct (hk_pages _ _ Hok p sp Hsp Hslab) as [bl Hbl].
  assert (Hne : bl <> []).
  { pose proof (pg_free _ _ (sl_page _ _ _ _ Hbl)) as Hf. rewrite Hfree in Hf. symmetry in Hf.
    by apply bool_decide_eq_true in Hf. }
  destruct (page_pick p sp bl Hbl Hne) as [->|(b & sp' & bl' & -> & Hpk & Hfr)]; cbn; [exact IH|].
  right. exists p, b, sp, sp', bl', before, rest. done.
Qed.

(** The heap with the object added, and the other objects' units as before. *)
Definition allocated (p b : Z) (h' : heap) : Prop :=
  heap_ok h' (mkObj p b (SLOB_UNITS size) :: live) /\
  (0 < align -> exists i, SLOB_UNIT * b = ALIGN (SLOB_UNIT * i) align) /\
  (forall o, o ∈ live -> forall sp k, pages h !! o_page o = Some sp ->
     covers o (o_page o) k = true ->
     exists sp', pages h' !! o_page o = Some sp' /\ mem sp' k = mem sp k).

Lemma picked_allocated c p b sp' bl' l' :
  picked p b sp' bl' ->
  (forall q, q <> p -> (q ∈ l' <-> q ∈ free_slob h c)) -> NoDup l' ->
  (p ∈ l' <-> PageSlobFree sp' = true) ->
  (forall c', c' <> c -> p ∉ free_slob h c') ->
  (forall sp o k, pages h !! p = Some sp -> o ∈ live -> covers o p k = true -> 0 <= k < 2048 ->
     mem sp' k = mem sp k) ->
  allocated p b (set_list (set_page h p sp') c l').
Proof.
  intros [P1 P2 P3] Hl Hnd Hp Hother Hfr. split_and!; [|done|].
  - apply (heap_ok_update h live _ p sp' bl' (free_slob (set_list (set_page h p sp') c l'))); try done.
    + intros q k Hq. apply holders_other. cbn. congruence.
    + intros q Hq. apply held_units_other. cbn. congruence.
    + intros o Ho. apply elem_of_cons in Ho as [->|Ho]; [auto|].
      split; [|by right]. by apply (hk_live _ _ Hok).
    + intros c' q Hq. rewrite set_list_lookup. destruct (decide (c = c')) as [<-|]; [by apply Hl|done].
    + intros c'. rewrite set_list_lookup. destruct (decide (c = c')); [done|]. by apply (hk_nodup _ _ Hok).
    + intros c'. rewrite set_list_lookup. destruct (decide (c = c')); [by apply Hp|].
      intros Hin. by destruct (Hother c' ltac:(congruence)).
    + intros Hf. exists c. rewrite set_list_lookup, decide_True by done. by apply Hp.
    + intros c1 c2. rewrite !set_list_lookup.
      destruct (decide (c = c1)) as [<-|H1], (decide (c = c2)) as [<-|H2]; try done; intros K1 K2;
        exfalso; eapply Hother; [|eassumption| |eassumption|..]; try (by intros ->); try done.
  - intros o Ho sp k Hsp Hc. cbn. destruct (decide (o_page o = p)) as [E|Hne].
    + rewrite E, lookup_insert_eq. exists sp'. split; [done|]. rewrite E in *.
      apply (Hfr sp o k); try done. apply covers_spec in Hc.
      destruct (hk_live _ _ Hok o Ho) as [[? [? ?]] _]. lia.
    + rewrite lookup_insert_ne by done. by exists sp.
Qed.

Lemma no_holders p k : pages h !! p = None -> holders live p k = 0.
Proof.
  intros Hp. assert (Hall : forall o, o ∈ live -> o_page o <> p).
  { intros o Ho E. destruct (hk_live _ _ Hok o Ho) as [_ (sp & Hsp & _)]. congruence. }
  clear Hok. induction live as [|o l IH]; [done|].
  rewrite holders_other by (apply Hall, list_elem_of_here).
  apply IH. intros o' Ho'. apply Hall. by apply list_elem_of_further.
Qed.
Lemma no_units p : pages h !! p = None -> held_units live p = 0.
Proof.
  intros Hp. assert (Hall : forall o, o ∈ live -> o_page o <> p).
  { intros o Ho E. destruct (hk_live _ _ Hok o Ho) as [_ (sp & Hsp & _)]. congruence. }
  clear Hok. induction live as [|o l IH]; [done|].
  rewrite held_units_other by (apply Hall, list_elem_of_here).
  apply IH. intros o' Ho'. apply Hall. by apply list_elem_of_further.
Qed.

(** A page fresh from the page allocator. *)
Lemma fresh_split p junk :
  pages h !! p = None ->
  page_split p (mkPage (set_slob junk 0 (s16 PAGE_UNITS) PAGE_UNITS) PAGE_UNITS 0 true true 0) live [(0, 2048)].
Proof.
  intros Hp. split.
  - split; try done. intros _. cbn [repr mem freelist]. split_and!; try done; try lia.
    exists 2048. split; [|done]. apply (set_slob_block junk 0 2048 2048); lia.
  - intros k Hk. rewrite no_holders by done. rewrite decide_True; [done|]. apply covered_cons. left. lia.
  - rewrite no_units by done. done.
Qed.

Lemma fresh_fit : SLOB_UNITS size <= 2048 -> take_fit (SLOB_UNITS size) align [(0, 2048)] <> None.
Proof.
  intros Hu. cbn [take_fit]. assert (E : delta align 0 = 0).
  { unfold delta, ALIGN, SLOB_UNIT. destruct (_ =? 0); [done|].
    rewrite Z.mul_0_r, Z.add_0_l, Z.land_lnot_diag. done. }
  rewrite E, (proj2 (Z.leb_le _ _)) by lia. done.
Qed.

Definition fresh_ok (fresh : new_page) : Prop :=
  match fresh with Some (p, _) => pages h !! p = None | None => True end.

(** The two ways to find room. *)
Lemma find_room (fresh : new_page) :
  SLOB_UNITS size <= 2048 -> fresh_ok fresh ->
  exists r h', slob_alloc h size false align fresh = Some (r, h') /\
    match r with
    | Some (p, b) => allocated p b h'
    | None => fresh = None /\ h' = h
    end.
Proof.
  intros Hu Hfresh. unfold slob_alloc. set (c := size_class size).
  destruct (try_pages_spec c [] (free_slob h c) eq_refl)
    as [->|(p & b & sp & sp' & bl' & pre & post & -> & El & Hsp & Hpk & Hfr)]; cbn [mbind option_bind].
  - destruct fresh as [[p junk]|]; [|by do 2 eexists]. cbn in Hfresh.
    assert (Hnot : forall c', p ∉ free_slob h c').
    { intros c' Hin. destruct (hk_listed _ _ Hok c' p Hin) as (sp & Hsp & _). congruence. }
    pose proof (fresh_split p junk Hfresh) as Hs.
    destruct (page_pick p _ _ Hs ltac:(done)) as [E|(b & sp' & bl' & -> & Hpk & _)].
    { exfalso. pose proof (slob_page_alloc_spec _ _ size align (sl_page _ _ _ _ Hs) ltac:(done) Hsize Halign) as H.
      destruct (take_fit _ _ _) as [[x bl']|] eqn:Et; [|by apply fresh_fit in Et].
      destruct H as (sp' & H & _). rewrite E in H. done. }
    cbn [mbind option_bind]. do 2 eexists. split; [reflexivity|]. cbn beta iota.
    apply (picked_allocated c p b sp' bl'); try done.
    + intros q Hq. destruct (PageSlobFree sp'); [|done]. rewrite elem_of_cons. naive_solver.
    + destruct (PageSlobFree sp'); [|apply (hk_nodup _ _ Hok)]. apply NoDup_cons.
      split; [done|apply (hk_nodup _ _ Hok)].
    + destruct (PageSlobFree sp'); [|by split; [intros ?; by destruct (Hnot c)|]].
      split; [done|]. intros _. apply list_elem_of_here.
    + intros sp o k Hsp. congruence.
  - do 2 eexists. split; [reflexivity|]. cbn beta iota.
    pose proof (hk_nodup _ _ Hok c) as Hnd. rewrite El in Hnd.
    apply NoDup_app in Hnd as (N1 & N2 & N3). apply NoDup_cons in N3 as [N3 N4].
    assert (Hpre : p ∉ pre). { intros Hin. destruct (N2 p Hin). apply list_elem_of_here. }
    assert (Hpost : NoDup (post ++ pre)).
    { apply NoDup_app. split_and!; try done. intros x Hx Hx'. apply (N2 x Hx'). by apply list_elem_of_further. }
    apply (picked_allocated c p b sp' bl'); try done.
    + intros q Hq. rewrite El. destruct (PageSlobFree sp'); rewrite ?elem_of_app, ?elem_of_cons, ?elem_of_app; naive_solver.
    + destruct (PageSlobFree sp'); [|done]. cbn. apply NoDup_cons. split; [|done].
      rewrite elem_of_app. tauto.
    + destruct (PageSlobFree sp').
      * split; [done|]. intros _. apply list_elem_of_here.
      * split; [|done]. rewrite elem_of_app. tauto.
    + intros c' Hc' Hin. apply Hc'. eapply (hk_once _ _ Hok); [exact Hin|]. rewrite El.
      apply elem_of_app. right. apply list_elem_of_here.
    + intros sp0 o k Hsp0. rewrite Hsp in Hsp0. injection Hsp0 as <-. apply Hfr.
Qed.
End allocation.

(** ** Writing inside an object *)

(** Units of the objects in [live] are the same in two heaps. *)
Definition preserved (h h' : heap) (live : list object) : Prop :=
  forall o, o ∈ live -> forall sp k, pages h !! o_page o = Some sp -> covers o (o_page o) k = true ->
  exists sp', pages h' !! o_page o = Some sp' /\ mem sp' k = mem sp k.

Lemma preserved_refl h live : preserved h h live.
Proof. intros o Ho sp k Hsp Hc. by exists sp. Qed.
Lemma preserved_trans h1 h2 h3 live :
  preserved h1 h2 live -> preserved h2 h3 live -> preserved h1 h3 live.
Proof.
  intros H12 H23 o Ho sp k Hsp Hc. destruct (H12 o Ho sp k Hsp Hc) as (sp2 & Hsp2 & E2).
  destruct (H23 o Ho sp2 k Hsp2 Hc) as (sp3 & Hsp3 & E3). exists sp3. split; congruence.
Qed.
Lemma preserved_sub h h' live live' : (forall o, o ∈ live' -> o ∈ live) -> preserved h h' live -> preserved h h' live'.
Proof. intros Hs Hp o Ho. apply Hp. by apply Hs. Qed.

Lemma object_write h live rest o sp m :
  heap_ok h live -> live ≡ₚ o :: rest -> pages h !! o_page o = Some sp ->
  (forall k, ~ o_start o <= k < o_start o + o_units o -> m k = mem sp k) ->
  heap_ok (set_page h (o_page o) (with_mem sp m)) live /\
  preserved h (set_page h (o_page o) (with_mem sp m)) rest.
Proof.
  intros Hok Hperm Hsp Hm.
  assert (Ho : o ∈ live) by (rewrite Hperm; apply list_elem_of_here). split.
  - apply heap_ok_set_mem; [done|done|]. intros bl Hs k Hc. apply Hm. intros Hin.
    destruct (hk_live _ _ Hok o Ho) as [(? & ? & ?) _].
    eapply (live_not_free (o_page o) sp live bl o k); try done; [|lia]. by apply covers_spec.
  - intros o' Ho' sp' k Hsp' Hc. cbn. destruct (decide (o_page o' = o_page o)) as [E|Hne].
    + rewrite E, lookup_insert_eq. rewrite E, Hsp in Hsp'. injection Hsp' as <-.
      exists (with_mem sp m). split; [done|]. cbn. apply Hm. intros Hin.
      destruct (list_elem_of_split _ _ Ho') as (l1 & l2 & ->).
      apply (heap_ok_disjoint h live o o' (l1 ++ l2) (o_page o) k Hok); [|by apply covers_spec|by rewrite <- E].
      rewrite Hperm. constructor. symmetry. apply Permutation_middle.
    + rewrite lookup_insert_ne by done. by exists sp'.
Qed.

Lemma allocated_preserved h live size align p b h' :
  allocated h live size align p b h' -> preserved h h' live.
Proof. intros (_ & _ & H). exact H. Qed.

Lemma slob_alloc_zero h size align fresh :
  slob_alloc h size true align fresh =
  ('(r, h') ← slob_alloc h size false align fresh;
   match r with
   | Some (p, b) => sp ← pages h' !! p;
       Some (Some (p, b), set_page h' p (with_mem sp (memset0 (mem sp) b size)))
   | None => Some (None, h')
   end).
Proof.
  unfold slob_alloc. destruct (try_pages _ _ _ _ _) as [[[[[p b] sp] l]|]|]; cbn; [done| |done].
  destruct fresh as [[p junk]|]; cbn; [|done].
  destruct (slob_page_alloc _ _ _) as [[[b|] sp]|]; done.
Qed.

Lemma memset0_frame m b size k :
  0 <= size -> ~ b <= k < b + SLOB_UNITS size -> memset0 m b size k = m k.
Proof.
  unfold memset0, SLOB_UNITS, SLOB_UNIT. intros Hs Hk.
  destruct (Z.leb_spec b k), (Z.ltb_spec k (b + size `div` 2)); cbn; try zlia.
  all: destruct (Z.eqb_spec k (b + size `div` 2)), (Z.eqb_spec (size `mod` 2) 1); cbn; try done; zlia.
Qed.

Lemma slob_alloc_spec h live size zero align fresh :
  heap_ok h live -> 1 <= size -> SLOB_UNITS size <= 2048 -> 0 <= align -> fresh_ok h fresh ->
  exists r h', slob_alloc h size zero align fresh = Some (r, h') /\
    match r with
    | Some (p, b) => allocated h live size align p b h' /\
        (zero = true -> exists sp, pages h' !! p = Some sp /\
           forall k, b <= k < b + size `div` 2 -> mem sp k = 0)
    | None => fresh = None /\ h' = h
    end.
Proof.
  intros Hok Hs Hu Ha Hf.
  destruct (find_room h live Hok size align Hs Ha fresh Hu Hf) as (r & h1 & E & Hr).
  destruct zero; [|exists r, h1; split; [done|]; by destruct r as [[p b]|]].
  rewrite slob_alloc_zero, E. cbn [mbind option_bind].
  destruct r as [[p b]|]; [|by do 2 eexists]. destruct Hr as (H1 & H2 & H3).
  destruct (hk_live _ _ H1 _ (list_elem_of_here _ _)) as [_ (sp & Hsp & _)]. cbn in Hsp.
  rewrite Hsp. cbn. do 2 eexists. split; [reflexivity|]. cbn beta iota.
  destruct (object_write h1 _ live (mkObj p b (SLOB_UNITS size)) sp (memset0 (mem sp) b size) H1 (reflexivity _) Hsp) as [W1 W2].
  { cbn. intros k Hk. apply memset0_frame; [lia|done]. }
  split.
  - split_and!; [exact W1|done|]. by eapply preserved_trans.
  - intros _. eexists. cbn. rewrite lookup_insert_eq. split; [done|]. intros k Hk. cbn. unfold memset0.
    by rewrite (proj2 (Z.leb_le b k)), (proj2 (Z.ltb_lt k _)) by lia.
Qed.

(** ** Freeing *)

Lemma heap_ok_perm h l l' : l ≡ₚ l' -> heap_ok h l -> heap_ok h l'.
Proof.
  intros Hp [H1 H2 H3 H4 H5 H6]. split; try done.
  - intros p sp Hsp Hs. destruct (H1 p sp Hsp Hs) as [bl [S1 S2 S3]]. exists bl. split; [done| |].
    + intros k Hk. rewrite <- (holders_perm _ _ _ _ Hp). by apply S2.
    + by rewrite <- (held_units_perm _ _ _ Hp).
  - intros o Ho. apply H2. by rewrite Hp.
Qed.

(** The free blocks of a page after one of its objects is freed. *)
Lemma page_split_free p sp sp' live' o bl bl' :
  page_split p sp (o :: live') bl -> o_page o = p -> well_placed o -> page_ok sp' bl' ->
  freed bl bl' (o_start o) (o_units o) -> page_split p sp' live' bl'.
Proof.
  intros [S1 S2 S3] Hp (W1 & W2 & W3) Hok [F1 F2]. split; [done| |].
  - intros k Hk. specialize (S2 k Hk). rewrite holders_cons in S2. specialize (F2 k).
    pose proof (holders_nonneg live' p k).
    destruct (covers o p k) eqn:Ec.
    + apply covers_spec in Ec as [_ Ec]. rewrite (decide_True (P := covered bl' k)) by tauto.
      destruct (decide (covered bl k)); lia.
    + assert (Hout : ~ o_start o <= k < o_start o + o_units o).
      { intros Hin. cut (covers o p k = true); [congruence|]. by apply covers_spec. }
      destruct (decide (covered bl k)), (decide (covered bl' k)); tauto || lia.
  - rewrite held_units_cons, (proj2 (Z.eqb_eq _ _) Hp) in S3. lia.
Qed.

(** The units of a freed object were not free. *)
Lemma object_not_free p sp live' o bl k :
  page_split p sp (o :: live') bl -> o_page o = p -> well_placed o ->
  o_start o <= k < o_start o + o_units o -> ~ covered bl k.
Proof.
  intros Hs Hp (W1 & W2 & W3) Hk. eapply live_not_free; [done|apply list_elem_of_here| |lia].
  by apply covers_spec.
Qed.

Section freeing.
Context (h : heap) (live : list object) (o : object) (sp : page) (bl : list (Z * Z)).
Context (Hok : heap_ok h (o :: live)) (Hsp : pages h !! o_page o = Some sp).
Context (Hbl : page_split (o_page o) sp (o :: live) bl).

Lemma freed_placed : well_placed o.
Proof. apply (hk_live _ _ Hok). apply list_elem_of_here. Qed.

Lemma rest_placed : Forall well_placed live.
Proof. by apply live_placed in Hok as [_ H]%Forall_cons. Qed.

(** The object's page keeps other objects or free blocks. *)
Lemma freed_update sp' bl' F :
  page_ok sp' bl' -> freed bl bl' (o_start o) (o_units o) ->
  (forall k, ~ covered bl' k -> mem sp' k = mem sp k) ->
  (forall c q, q <> o_page o -> (q ∈ F c <-> q ∈ free_slob h c)) -> (forall c, NoDup (F c)) ->
  PageSlobFree sp' = true -> (exists c, o_page o ∈ F c) ->
  (forall c c', o_page o ∈ F c -> o_page o ∈ F c' -> c = c') ->
  heap_ok (mkHeap (<[o_page o := sp']> (pages h)) F) live /\
  preserved h (mkHeap (<[o_page o := sp']> (pages h)) F) live.
Proof.
  intros Hp Hf Hm H1 H2 H3 H4 H5.
  pose proof (page_split_free _ _ sp' live o bl bl' Hbl eq_refl freed_placed Hp Hf) as Hs. split.
  - eapply heap_ok_update; try done.
    + intros q k Hq. symmetry. by apply holders_other.
    + intros q Hq. symmetry. by apply held_units_other.
    + intros o' Ho'. split; [|right; by apply list_elem_of_further].
      apply (hk_live _ _ Hok). by apply list_elem_of_further.
  - intros o' Ho' sq k Hsq Hc. cbn. destruct (decide (o_page o' = o_page o)) as [E|Hne].
    + rewrite E, lookup_insert_eq. rewrite E, Hsp in Hsq. injection Hsq as <-. exists sp'.
      split; [done|]. apply Hm. rewrite E in Hc. eapply live_not_free; try done.
      apply covers_spec in Hc as [_ Hc].
      destruct (hk_live _ _ Hok o' ltac:(by apply list_elem_of_further)) as [(? & ? & ?) _]. lia.
    + rewrite lookup_insert_ne by done. by exists sq.
Qed.

(** Nothing else was on the page: it goes back to the page allocator. *)
Lemma freed_delete F :
  held_units live (o_page o) = 0 ->
  (forall c q, q ∈ F c <-> q <> o_page o /\ q ∈ free_slob h c) -> (forall c, NoDup (F c)) ->
  heap_ok (mkHeap (delete (o_page o) (pages h)) F) live /\
  preserved h (mkHeap (delete (o_page o) (pages h)) F) live.
Proof.
  intros H0 HF Hnd.
  assert (Hoff : forall o', o' ∈ live -> o_page o' <> o_page o).
  { intros o' Ho'. eapply held_units_zero; [apply rest_placed|done|done]. }
  split; [|intros o' Ho' sq k Hsq Hc; exists sq; cbn; by rewrite lookup_delete_ne by (symmetry; auto)].
  destruct Hok as [H1 H2 H3 H4 H5 H6]. split; cbn; try done.
  - intros q sq [Hne Hq]%lookup_delete_Some Hs. destruct (H1 q sq Hq Hs) as [bl0 [B1 B2 B3]].
    exists bl0. split; [done| |].
    + intros k Hk. rewrite <- (holders_other o) by done. by apply B2.
    + by rewrite <- (held_units_other o) by done.
  - intros o' Ho'. destruct (H2 o' ltac:(by apply list_elem_of_further)) as [Hw (sq & Hq & Hs)].
    split; [done|]. exists sq. rewrite lookup_delete_ne by (symmetry; auto). done.
  - intros q sq [Hne Hq]%lookup_delete_Some Hs Hf. destruct (H3 q sq Hq Hs Hf) as [c Hc].
    exists c. apply HF. auto.
  - intros c q [Hne Hq]%HF. destruct (H4 c q Hq) as (sq & Hsq & ?). exists sq.
    by rewrite lookup_delete_ne by done.
  - intros c c' q Hc Hc'. apply HF in Hc as [_ Hc], Hc' as [_ Hc']. by eapply H6.
Qed.

Lemma listed_iff c q : q ∈ filter (fun q => q <> o_page o) (free_slob h c) <-> q <> o_page o /\ q ∈ free_slob h c.
Proof. by rewrite list_elem_of_filter. Qed.

Lemma unlisted c : PageSlobFree sp = false -> o_page o ∉ free_slob h c.
Proof. intros Hf Hin. destruct (hk_listed _ _ Hok c _ Hin) as (sq & Hsq & _ & Hf'). congruence. Qed.

Lemma slob_free_spec size :
  1 <= size -> SLOB_UNITS size = o_units o ->
  exists h', slob_free h (o_page o) (o_start o) size = Some h' /\ heap_ok h' live /\ preserved h h' live.
Proof.
  intros Hs Hu. destruct freed_placed as (W1 & W2 & W3). unfold slob_free.
  rewrite (proj2 (Z.eqb_neq size 0)), Hsp by lia. cbn [mbind option_bind].
  rewrite Hu, s16_id, PAGE_UNITS_value by lia. pose proof (sl_page _ _ _ _ Hbl) as [Hr Hun Hfree Hslab].
  pose proof (sl_total _ _ _ _ Hbl) as Htot. rewrite held_units_cons, Z.eqb_refl in Htot.
  destruct (Z.eqb_spec (units sp + o_units o) 2048).
  { eexists. split; [reflexivity|]. destruct (PageSlobFree sp) eqn:Ef; cbn; apply freed_delete; try lia.
    - intros c q. apply listed_iff.
    - intros c. apply NoDup_filter, (hk_nodup _ _ Hok).
    - intros c q. split; [|tauto]. intros Hq. split; [|done]. intros ->. by apply unlisted in Hq.
    - apply (hk_nodup _ _ Hok). }
  pose proof (fun k => object_not_free _ _ _ _ _ k Hbl eq_refl freed_placed) as Hnot.
  destruct (PageSlobFree sp) eqn:Ef; cbn [negb].
  - destruct (reinsert_spec sp bl (o_start o) (o_units o)) as (m' & fl' & bl' & K1 & E & K2 & K3 & K4); try done.
    { apply Hr. symmetry in Hfree. by apply bool_decide_eq_true in Hfree. }
    { symmetry in Hfree; by apply bool_decide_eq_true in Hfree. }
    rewrite E. cbn. eexists. split; [reflexivity|]. destruct K3 as [T1 T2].
    apply (freed_update _ bl'); try done.
    + split; cbn; [done|lia| |done]. rewrite Ef. symmetry. by apply bool_decide_eq_true_2.
    + apply (hk_nodup _ _ Hok).
    + by apply (hk_free _ _ Hok _ _ Hsp).
    + intros c c'. apply (hk_once _ _ Hok).
  - assert (Ebl : bl = []) by (apply dec_stable; symmetry in Hfree; by apply bool_decide_eq_false in Hfree).
    eexists. split; [reflexivity|].
    apply (freed_update _ [(o_start o, o_units o)] (free_slob (set_list (set_page h _ _) _ _))); try done.
    + split; cbn; [|lia|done|done]. intros _. split_and!; try lia. exists 2048.
      split; [|done]. apply set_slob_block; lia.
    + split; [cbn; rewrite Ebl; cbn; lia|]. intros k. rewrite covered_cons, Ebl. pose proof (covered_nil k). tauto.
    + intros k Hk. rewrite covered_cons in Hk. apply set_slob_frame. lia.
    + intros c q Hq. rewrite set_list_lookup. destruct (decide _) as [<-|]; [|done].
      cbn. rewrite elem_of_cons. tauto.
    + intros c. rewrite set_list_lookup. destruct (decide _); [|apply (hk_nodup _ _ Hok)].
      apply NoDup_cons. split; [by apply unlisted|apply (hk_nodup _ _ Hok)].
    + exists (size_class size). rewrite set_list_lookup, decide_True by done. apply list_elem_of_here.
    + intros c c'. rewrite !set_list_lookup.
      destruct (decide (size_class size = c)), (decide (size_class size = c')); try congruence;
        intros; exfalso; by eapply unlisted.
Qed.

(** A page that stays has another object. *)
Lemma slob_free_pages size h' q sq :
  1 <= size -> SLOB_UNITS size = o_units o ->
  slob_free h (o_page o) (o_start o) size = Some h' -> pages h' !! q = Some sq ->
  (q <> o_page o /\ pages h !! q = Some sq) \/ exists o', o' ∈ live /\ o_page o' = q.
Proof.
  intros Hs Hu. destruct freed_placed as (W1 & W2 & W3). unfold slob_free.
  rewrite (proj2 (Z.eqb_neq size 0)), Hsp by lia. cbn [mbind option_bind].
  rewrite Hu, s16_id, PAGE_UNITS_value by lia.
  pose proof (pg_units _ _ (sl_page _ _ _ _ Hbl)) as Hun.
  pose proof (sl_total _ _ _ _ Hbl) as Htot. rewrite held_units_cons, Z.eqb_refl in Htot.
  destruct (Z.eqb_spec (units sp + o_units o) 2048) as [|Hne].
  { intros [= <-] Hq. left. destruct (PageSlobFree sp); cbn in Hq;
      apply lookup_delete_Some in Hq as [? ?]; auto. }
  assert (Hins : forall sp', <[o_page o := sp']> (pages h) !! q = Some sq ->
    (q <> o_page o /\ pages h !! q = Some sq) \/ exists o', o' ∈ live /\ o_page o' = q).
  { intros sp' Hq. destruct (decide (q = o_page o)) as [->|Hq'].
    - right. apply held_units_exists. lia.
    - left. rewrite lookup_insert_ne in Hq by done. done. }
  destruct (PageSlobFree sp); cbn [negb].
  - destruct (reinsert _ _ _); cbn; [|done]. intros [= <-] Hq. exact (Hins _ Hq).
  - intros [= <-] Hq. exact (Hins _ Hq).
Qed.
End freeing.
