(* ===== verification/SlobTheorems.v ===== *)
(** * The kmalloc interface of the SLOB allocator

    [kmalloc], [kfree] and [ksize] of mm/slob.c over the heap invariant of
    [SlobHeap]: a client that frees only what it was given and writes only inside
    its objects never makes the allocator fail, and its objects never overlap. *)

From Stdlib Require Import ZArith Lia Bool.
From stdpp Require Import base numbers list gmap.
From S2P Require Import Prelude Slob SlobProofs SlobHeap.
Open Scope Z_scope.

(** A block handed out by [kmalloc]: its address and the size asked for. *)
Record kobj := mkK { k_page : Z; k_off : Z; k_size : Z }.

(** Below this size a block lives in a slab page behind a header with its size. *)
Definition is_small (k : kobj) : bool := k_size k <? PAGE_SIZE - kmalloc_align.

(** The block with its header, as the page allocator sees it. *)
Definition backing (k : kobj) : object :=
  mkObj (k_page k) (k_off k - align_units) (SLOB_UNITS (k_size k + kmalloc_align)).
Definition backings (ks : list kobj) : list object := backing <$> filter (fun k => is_small k = true) ks.

(** The units the client may use. *)
Definition k_covers (k : kobj) (p u : Z) : Prop :=
  k_page k = p /\
  if is_small k then k_off k <= u < k_off k + SLOB_UNITS (k_size k) else 0 <= u.

Definition small_ok (h : heap) (k : kobj) : Prop :=
  exists sp, pages h !! k_page k = Some sp /\ 1 <= k_size k /\
    load_uint (mem sp) (k_off k - align_units) = k_size k /\
    (kmalloc_align | SLOB_UNIT * k_off k).
Definition big_ok (h : heap) (k : kobj) : Prop :=
  exists sp, pages h !! k_page k = Some sp /\ PageSlab sp = false /\ private sp = k_size k /\ k_off k = 0.

Record kheap_ok (h : heap) (ks : list kobj) : Prop := mkKheap {
  kh_heap : heap_ok h (backings ks);
  kh_small : forall k, k ∈ ks -> is_small k = true -> small_ok h k;
  kh_big : forall k, k ∈ ks -> is_small k = false -> big_ok h k;
  kh_distinct : NoDup (k_page <$> filter (fun k => is_small k = false) ks);
  kh_used : forall p sp, pages h !! p = Some sp -> exists k, k ∈ ks /\ k_page k = p
}.

(** ** Clients *)

(** A client's store through its pointer: anything inside the block. *)
Definition client_write (h : heap) (k : kobj) (m : memory) : option heap :=
  sp ← pages h !! k_page k; Some (set_page h (k_page k) (with_mem sp m)).

Inductive kstep : heap * list kobj -> heap * list kobj -> Prop :=
| kstep_alloc h ks size zero fresh p off h' :
    0 <= size -> fresh_ok h fresh -> kmalloc h size zero fresh = Some (Ptr p off, h') ->
    kstep (h, ks) (h', mkK p off size :: ks)
| kstep_none h ks size zero fresh r h' :
    0 <= size -> fresh_ok h fresh -> kmalloc h size zero fresh = Some (r, h') ->
    r = NULL \/ r = ZERO_SIZE_PTR -> kstep (h, ks) (h', ks)
| kstep_free h ks k ks' h' :
    ks ≡ₚ k :: ks' -> kfree h (Ptr (k_page k) (k_off k)) = Some h' -> kstep (h, ks) (h', ks')
| kstep_write h ks k sp m h' :
    k ∈ ks -> pages h !! k_page k = Some sp ->
    (forall u, ~ k_covers k (k_page k) u -> m u = mem sp u) ->
    client_write h k m = Some h' -> kstep (h, ks) (h', ks).

Definition empty_heap : heap := mkHeap ∅ (fun _ => []).

(** ** Arithmetic of headers *)

Lemma load_store m i v : 0 <= v < 2 ^ 32 -> load_uint (store_uint m i v) i = v.
Proof.
  intros Hv. unfold load_uint, store_uint. rewrite upd_eq, upd_ne, upd_eq by lia.
  assert (Hu : forall z, u16 (s16 z) = u16 z).
  { intros z. unfold s16. destruct (u16 z <? 32768) eqn:E; unfold u16 in *; zlia. }
  rewrite !Hu. unfold u16. zlia.
Qed.

Lemma load_frame m m' i : m' i = m i -> m' (i + 1) = m (i + 1) -> load_uint m' i = load_uint m i.
Proof. unfold load_uint. by intros -> ->. Qed.

Lemma store_frame m i v k : k <> i -> k <> i + 1 -> store_uint m i v k = m k.
Proof. intros H1 H2. unfold store_uint. by rewrite !upd_ne. Qed.

Lemma align_units_value : align_units = 4.
Proof. done. Qed.
Lemma kmalloc_align_value : kmalloc_align = 8.
Proof. done. Qed.
Lemma header_units size : 0 <= size -> SLOB_UNITS (size + kmalloc_align) = SLOB_UNITS size + 4.
Proof. intros H. unfold SLOB_UNITS, SLOB_UNIT. rewrite kmalloc_align_value. zlia. Qed.
Lemma units_positive size : 1 <= size -> 1 <= SLOB_UNITS size.
Proof. intros H. unfold SLOB_UNITS, SLOB_UNIT. zlia. Qed.
Lemma small_fits k : is_small k = true -> k_size k < 4088.
Proof. unfold is_small, PAGE_SIZE. rewrite kmalloc_align_value. intros H%Z.ltb_lt. lia. Qed.

Lemma aligned_offset b i :
  SLOB_UNIT * b = ALIGN (SLOB_UNIT * i) kmalloc_align -> (kmalloc_align | SLOB_UNIT * (b + align_units)).
Proof.
  intros E. rewrite align_units_value, kmalloc_align_value in *. change 8 with (2 ^ 3) in *.
  replace (SLOB_UNIT * (b + 4)) with (SLOB_UNIT * b + 2 ^ 3) by (unfold SLOB_UNIT; lia).
  rewrite E. apply Z.divide_add_r; [by apply ALIGN_multiple|apply Z.divide_refl].
Qed.

(** ** Frames *)

Lemma backing_elem ks k : k ∈ ks -> is_small k = true -> backing k ∈ backings ks.
Proof. intros Hk Hs. apply list_elem_of_fmap_2. by apply list_elem_of_filter. Qed.

Lemma backings_perm ks ks' : ks ≡ₚ ks' -> backings ks ≡ₚ backings ks'.
Proof. intros H. unfold backings. by rewrite H. Qed.
Lemma backings_small k ks : is_small k = true -> backings (k :: ks) = backing k :: backings ks.
Proof. intros H. unfold backings. by rewrite filter_cons_True. Qed.
Lemma backings_big k ks : is_small k = false -> backings (k :: ks) = backings ks.
Proof. intros H. unfold backings. rewrite filter_cons_False; [done|]. by rewrite H. Qed.

(** Headers survive what preserves the units of their objects. *)
Lemma small_ok_preserved h h' ks k :
  preserved h h' (backings ks) -> k ∈ ks -> is_small k = true -> small_ok h k -> small_ok h' k.
Proof.
  intros Hp Hk Hs (sp & Hsp & H1 & H2 & H3).
  assert (Hc : forall u, k_off k - align_units <= u < k_off k - align_units + 4 ->
    exists sp', pages h' !! k_page k = Some sp' /\ mem sp' u = mem sp u).
  { intros u Hu. apply (Hp (backing k)); [by apply backing_elem|done|].
    apply covers_spec. cbn. rewrite header_units by lia.
    pose proof (units_positive (k_size k) H1). split; [done|lia]. }
  destruct (Hc (k_off k - align_units) ltac:(lia)) as (sp' & Hsp' & E1).
  destruct (Hc (k_off k - align_units + 1) ltac:(lia)) as (sp2 & Hsp2 & E2).
  rewrite Hsp' in Hsp2. injection Hsp2 as <-. exists sp'. split_and!; try done.
  by rewrite (load_frame _ _ _ E1 E2).
Qed.

(** Pages that are not slab pages are left alone. *)
Definition outside_kept (h h' : heap) : Prop :=
  forall q sq, pages h !! q = Some sq -> PageSlab sq = false -> pages h' !! q = Some sq.

Lemma big_ok_kept h h' k : outside_kept h h' -> big_ok h k -> big_ok h' k.
Proof. intros Ho (sp & Hsp & H1 & H2). exists sp. split_and!; try apply H2; [by apply Ho|done]. Qed.

Lemma kept_page h h' p sp' :
  (forall sq, pages h !! p = Some sq -> PageSlab sq = true) ->
  pages h' = <[p := sp']> (pages h) -> outside_kept h h'.
Proof.
  intros Hp E q sq Hq Hs. rewrite E. rewrite lookup_insert_ne; [done|].
  intros ->. rewrite (Hp sq Hq) in Hs. done.
Qed.

(** Allocation changes one page: a slab page, or one that is new. *)
Lemma slob_alloc_pages h live size zero align fresh p b h' :
  heap_ok h live -> 1 <= size -> 0 <= align -> fresh_ok h fresh ->
  slob_alloc h size zero align fresh = Some (Some (p, b), h') ->
  (forall sq, pages h !! p = Some sq -> PageSlab sq = true) /\ exists sp', pages h' = <[p := sp']> (pages h).
Proof.
  intros Hok Hs Ha Hf.
  assert (Hgo : forall p' b' sp0 l (z : bool), (forall sq, pages h !! p' = Some sq -> PageSlab sq = true) ->
    (if z then sp ← pages (set_list (set_page h p' sp0) (size_class size) l) !! p';
       Some (Some (p', b'), set_page (set_list (set_page h p' sp0) (size_class size) l) p'
         (with_mem sp (memset0 (mem sp) b' size)))
     else Some (Some (p', b'), set_list (set_page h p' sp0) (size_class size) l)) = Some (Some (p, b), h') ->
    (forall sq, pages h !! p = Some sq -> PageSlab sq = true) /\ exists sp', pages h' = <[p := sp']> (pages h)).
  { intros p' b' sp0 l z Hslab E. cbn in E. rewrite lookup_insert_eq in E. cbn in E.
    destruct z; injection E as <- <- <-; (split; [done|]); eexists; cbn; [|done].
    by rewrite insert_insert_eq. }
  unfold slob_alloc.
  destruct (try_pages_spec h live Hok size align Hs Ha (size_class size) [] (free_slob h (size_class size)) eq_refl)
    as [->|(p' & b' & sp & sp' & bl' & pre & post & -> & El & Hsp & _)]; cbn [mbind option_bind].
  - destruct fresh as [[p' junk]|]; [|done]. cbn in Hf.
    destruct (slob_page_alloc _ _ _) as [[[b'|] sp]|]; cbn [mbind option_bind]; try done.
    apply Hgo. congruence.
  - apply Hgo. intros sq Hsq.
    destruct (hk_listed _ _ Hok (size_class size) p') as (sq' & Hsq' & H & _); [|congruence].
    rewrite El. apply elem_of_app. right. apply list_elem_of_here.
Qed.

Lemma slob_free_kept h p b size h' sp :
  slob_free h p b size = Some h' -> pages h !! p = Some sp -> PageSlab sp = true -> outside_kept h h'.
Proof.
  unfold slob_free. intros E Hsp Hs q sq Hq Hn.
  assert (Hne : p <> q) by congruence.
  destruct (size =? 0); [done|]. rewrite Hsp in E. cbn in E.
  destruct (_ =? PAGE_UNITS).
  { injection E as <-. cbn. rewrite lookup_delete_ne by done. by destruct (PageSlobFree sp). }
  destruct (PageSlobFree sp); cbn in E.
  - destruct (reinsert _ _ _); [|done]. injection E as <-. cbn. by rewrite lookup_insert_ne.
  - injection E as <-. cbn. by rewrite lookup_insert_ne.
Qed.

(** The heap invariant speaks of slab pages only. *)
Lemma heap_ok_outside h h' live :
  free_slob h' = free_slob h ->
  (forall q sq, PageSlab sq = true -> (pages h' !! q = Some sq <-> pages h !! q = Some sq)) ->
  heap_ok h live -> heap_ok h' live.
Proof.
  intros EF HE [H1 H2 H3 H4 H5 H6]. split; rewrite ?EF; try done.
  - intros q sq Hq Hs. apply HE in Hq; [|done]. by apply H1.
  - intros o Ho. destruct (H2 o Ho) as [Hw (sq & Hq & Hs)]. split; [done|]. exists sq. by rewrite HE.
  - intros q sq Hq Hs Hf. apply HE in Hq; [|done]. by eapply H3.
  - intros c q Hq. destruct (H4 c q Hq) as (sq & Hsq & Hs & Hf). exists sq. by rewrite HE.
Qed.

Lemma preserved_outside h h' live :
  heap_ok h live -> (forall q sq, PageSlab sq = true -> (pages h' !! q = Some sq <-> pages h !! q = Some sq)) ->
  preserved h h' live.
Proof.
  intros Hok HE o Ho sp k Hsp Hc. exists sp. split; [|done]. apply HE; [|done].
  destruct (hk_live _ _ Hok o Ho) as [_ (sq & Hq & Hs)]. congruence.
Qed.

(** ** kmalloc *)

(** The whole units of a block are zero. *)
Definition zeroed (h : heap) (k : kobj) : Prop :=
  exists sp, pages h !! k_page k = Some sp /\
    forall u, k_off k <= u < k_off k + k_size k `div` 2 -> mem sp u = 0.

Lemma zeroed_header h p b size sp v :
  pages h !! p = Some sp -> (forall u, b <= u < b + (size + kmalloc_align) `div` 2 -> mem sp u = 0) ->
  zeroed (set_page h p (with_mem sp (store_uint (mem sp) b v))) (mkK p (b + align_units) size).
Proof.
  intros Hsp Hz. eexists. cbn. rewrite lookup_insert_eq. split; [done|].
  rewrite align_units_value, kmalloc_align_value in *. intros u Hu. cbn. rewrite store_frame by lia.
  apply Hz. zlia.
Qed.

Lemma used_insert h h' ks k sp' :
  (forall p sp, pages h !! p = Some sp -> exists k, k ∈ ks /\ k_page k = p) ->
  pages h' = <[k_page k := sp']> (pages h) ->
  forall p sp, pages h' !! p = Some sp -> exists k', k' ∈ k :: ks /\ k_page k' = p.
Proof.
  intros Hu E p sp Hp. rewrite E in Hp. apply lookup_insert_Some in Hp as [[<- _]|[_ Hp]].
  - exists k. split; [apply list_elem_of_here|done].
  - destruct (Hu p sp Hp) as (k' & Hin & Hk'). exists k'. split; [by apply list_elem_of_further|done].
Qed.

Lemma kheap_small h ks h' k :
  kheap_ok h ks -> is_small k = true -> heap_ok h' (backings (k :: ks)) -> small_ok h' k ->
  preserved h h' (backings ks) -> outside_kept h h' ->
  (exists sp', pages h' = <[k_page k := sp']> (pages h)) -> kheap_ok h' (k :: ks).
Proof.
  intros [K1 K2 K3 K4 K5] Hs Hh Hk Hp Ho [sp' Hpg]. split; [done| | | |by eapply used_insert].
  - intros k' Hin Hs'. apply elem_of_cons in Hin as [->|Hin]; [done|].
    eapply small_ok_preserved; eauto.
  - intros k' Hin Hs'. apply elem_of_cons in Hin as [->|Hin]; [congruence|].
    eapply big_ok_kept; eauto.
  - rewrite filter_cons_False by (by rewrite Hs). done.
Qed.

Lemma kmalloc_small h ks size zero fresh :
  kheap_ok h ks -> 1 <= size < 4088 -> fresh_ok h fresh ->
  exists r h', kmalloc h size zero fresh = Some (r, h') /\
    match r with
    | Ptr p off => kheap_ok h' (mkK p off size :: ks) /\ preserved h h' (backings ks) /\
        outside_kept h h' /\ (zero = true -> zeroed h' (mkK p off size))
    | NULL => fresh = None /\ h' = h
    | ZERO_SIZE_PTR => False
    end.
Proof.
  intros Hk Hs Hf. unfold kmalloc. pose proof (kh_heap _ _ Hk) as Hok.
  rewrite (proj2 (Z.ltb_lt _ _)) by (pose proof kmalloc_align_value; unfold PAGE_SIZE; lia).
  rewrite (proj2 (Z.eqb_neq size 0)) by lia.
  destruct (slob_alloc_spec h (backings ks) (size + kmalloc_align) zero kmalloc_align fresh)
    as (r & h1 & E & Hr); try done.
  { pose proof kmalloc_align_value. lia. }
  { rewrite header_units by lia. unfold SLOB_UNITS, SLOB_UNIT. zlia. }
  rewrite E. cbn [mbind option_bind]. destruct r as [[p b]|]; [|do 2 eexists; split; [reflexivity|done]].
  destruct Hr as [(A1 & A2 & A3) Hzero].
  destruct (slob_alloc_pages h (backings ks) (size + kmalloc_align) zero kmalloc_align fresh p b h1)
    as [Hold [sp1 Hpg]]; try done.
  { pose proof kmalloc_align_value. lia. }
  pose proof (kept_page h h1 p sp1 Hold Hpg) as Hkept.
  set (k := mkK p (b + align_units) size).
  assert (Hsm : is_small k = true).
  { apply Z.ltb_lt. pose proof kmalloc_align_value. unfold PAGE_SIZE. cbn. lia. }
  assert (Eb : backings (k :: ks) = mkObj p b (SLOB_UNITS (size + kmalloc_align)) :: backings ks).
  { rewrite backings_small by done. unfold backing. cbn. do 2 f_equal. lia. }
  destruct (hk_live _ _ A1 _ (list_elem_of_here _ _)) as [_ (sp & Hsp & Hslab)]. cbn in Hsp.
  rewrite Hsp. cbn [mbind option_bind]. do 2 eexists. split; [reflexivity|]. cbn beta iota.
  destruct (object_write h1 _ (backings ks) (mkObj p b (SLOB_UNITS (size + kmalloc_align))) sp
    (store_uint (mem sp) b size) A1 (reflexivity _) Hsp) as [W1 W2].
  { cbn. intros u Hu. rewrite header_units in Hu by lia. pose proof (units_positive size ltac:(lia)).
    apply store_frame; lia. }
  cbn in W1, W2. assert (Hpres : preserved h (set_page h1 p (with_mem sp (store_uint (mem sp) b size))) (backings ks))
    by (eapply preserved_trans; [exact A3|exact W2]).
  assert (Hout : outside_kept h (set_page h1 p (with_mem sp (store_uint (mem sp) b size)))).
  { intros q sq Hq Hn. pose proof (Hkept q sq Hq Hn) as H1. cbn.
    rewrite lookup_insert_ne; [done|]. intros ->. congruence. }
  split; [|split_and!; try done]; cycle 1.
  { intros Hz. destruct (Hzero Hz) as (sp0 & Hsp0 & Hz0).
    rewrite Hsp in Hsp0. injection Hsp0 as <-. by apply zeroed_header. }
  apply (kheap_small h ks _ k); try done; [by rewrite Eb| |].
  2: { cbn. rewrite Hpg. eexists. by rewrite insert_insert_eq. }
  exists (with_mem sp (store_uint (mem sp) b size)). cbn. rewrite lookup_insert_eq.
  replace (b + align_units - align_units) with b by lia. split_and!; [done|lia|apply load_store; lia|].
  destruct (A2 ltac:(done)) as [i Ei]. by eapply aligned_offset.
Qed.

Lemma not_listed_big h ks k p :
  kheap_ok h ks -> pages h !! p = None -> k ∈ ks -> is_small k = false -> k_page k <> p.
Proof. intros Hk Hp Hin Hb <-. destruct (kh_big _ _ Hk k Hin Hb) as (sp & Hsp & _). congruence. Qed.

Lemma kmalloc_big h ks size p junk :
  kheap_ok h ks -> 4088 <= size -> pages h !! p = None ->
  let h' := set_page h p (mkPage junk 0 0 false false size) in
  kheap_ok h' (mkK p 0 size :: ks) /\ preserved h h' (backings ks) /\ outside_kept h h'.
Proof.
  intros Hk Hs Hp h'. set (k := mkK p 0 size).
  assert (Hbig : is_small k = false).
  { apply Z.ltb_ge. pose proof kmalloc_align_value. unfold PAGE_SIZE. cbn. lia. }
  assert (HE : forall q sq, PageSlab sq = true -> (pages h' !! q = Some sq <-> pages h !! q = Some sq)).
  { intros q sq Hq. cbn. destruct (decide (p = q)) as [<-|Hne].
    - rewrite lookup_insert_eq, Hp. split; [|done]. intros [= <-]. done.
    - by rewrite lookup_insert_ne. }
  assert (Ho : outside_kept h h').
  { intros q sq Hq Hn. cbn. rewrite lookup_insert_ne; [done|]. congruence. }
  pose proof (preserved_outside h h' _ (kh_heap _ _ Hk) HE) as Hpres.
  split; [|done]. pose proof Hk as [K1 K2 K3 K4 K5]. split; [| | | |by eapply used_insert].
  - rewrite backings_big by done. by apply (heap_ok_outside h h').
  - intros k' Hin Hs'. apply elem_of_cons in Hin as [->|Hin]; [congruence|].
    eapply small_ok_preserved; eauto.
  - intros k' Hin Hs'. apply elem_of_cons in Hin as [->|Hin]; [|eapply big_ok_kept; eauto].
    eexists. cbn. by rewrite lookup_insert_eq.
  - rewrite filter_cons_True by done. cbn. apply NoDup_cons. split; [|done].
    intros (k' & E & [Hb Hin]%list_elem_of_filter)%list_elem_of_fmap. by eapply not_listed_big.
Qed.

Lemma kmalloc_total h ks size zero fresh :
  kheap_ok h ks -> 0 <= size -> fresh_ok h fresh ->
  exists r h', kmalloc h size zero fresh = Some (r, h') /\
    match r with
    | Ptr p off => kheap_ok h' (mkK p off size :: ks) /\ preserved h h' (backings ks) /\ outside_kept h h'
    | NULL => fresh = None /\ h' = h
    | ZERO_SIZE_PTR => size = 0 /\ h' = h
    end.
Proof.
  intros Hk Hs Hf. pose proof kmalloc_align_value as Ka.
  destruct (decide (1 <= size < 4088)) as [Hr|Hr].
  { destruct (kmalloc_small h ks size zero fresh Hk Hr Hf) as (r & h' & E & H).
    exists r, h'. split; [done|]. destruct r; [done..|]. tauto. }
  unfold kmalloc. destruct (Z.ltb_spec size (PAGE_SIZE - kmalloc_align)); unfold PAGE_SIZE in *.
  - rewrite (proj2 (Z.eqb_eq size 0)) by lia. do 2 eexists. split; [reflexivity|]. lia || (split; [lia|done]).
  - destruct fresh as [[p junk]|]; do 2 eexists; (split; [reflexivity|]); [|done].
    apply kmalloc_big; [done|lia|done].
Qed.

(** ** kfree *)

Lemma kheap_rest h k ks : kheap_ok h (k :: ks) ->
  (forall k', k' ∈ ks -> is_small k' = true -> small_ok h k') /\
  (forall k', k' ∈ ks -> is_small k' = false -> big_ok h k') /\
  NoDup (k_page <$> filter (fun k => is_small k = false) ks).
Proof.
  intros [K1 K2 K3 K4 K5]. split_and!.
  - intros k' Hin. apply K2. by apply list_elem_of_further.
  - intros k' Hin. apply K3. by apply list_elem_of_further.
  - rewrite filter_cons in K4. destruct (decide _); [by apply NoDup_cons in K4 as [_ K4]|done].
Qed.

Lemma kheap_ok_perm h ks ks' : ks ≡ₚ ks' -> kheap_ok h ks -> kheap_ok h ks'.
Proof.
  intros Hp [K1 K2 K3 K4 K5]. split.
  - eapply heap_ok_perm; [by apply backings_perm|done].
  - intros k Hk. apply K2. by rewrite Hp.
  - intros k Hk. apply K3. by rewrite Hp.
  - by rewrite <- Hp.
  - intros p sp Hsp. destruct (K5 p sp Hsp) as (k & Hin & E). exists k. by rewrite <- Hp.
Qed.

Lemma used_rest h k ks q sq :
  kheap_ok h (k :: ks) -> q <> k_page k -> pages h !! q = Some sq -> exists k', k' ∈ ks /\ k_page k' = q.
Proof.
  intros Hk Hne Hq. destruct (kh_used _ _ Hk q sq Hq) as (k' & Hin & E).
  apply elem_of_cons in Hin as [->|Hin]; [congruence|]. by exists k'.
Qed.

Lemma kfree_small h k ks :
  kheap_ok h (k :: ks) -> is_small k = true ->
  exists h', kfree h (Ptr (k_page k) (k_off k)) = Some h' /\ kheap_ok h' ks /\
    preserved h h' (backings ks) /\ outside_kept h h'.
Proof.
  intros Hk Hs. pose proof (kh_heap _ _ Hk) as Hok. rewrite backings_small in Hok by done.
  destruct (hk_live _ _ Hok _ (list_elem_of_here _ _)) as [_ (sp & Hsp & Hslab)]. cbn in Hsp.
  destruct (kh_small _ _ Hk k (list_elem_of_here _ _) Hs) as (sp0 & Hsp0 & H1 & H2 & H3).
  rewrite Hsp in Hsp0. injection Hsp0 as <-.
  unfold kfree. rewrite Hsp. cbn [mbind option_bind]. rewrite Hslab, H2.
  destruct (hk_pages _ _ Hok (k_page k) sp Hsp Hslab) as [bl Hbl].
  destruct (slob_free_spec h (backings ks) (backing k) sp bl Hok Hsp Hbl (k_size k + kmalloc_align))
    as (h' & E & F1 & F2); [pose proof kmalloc_align_value; lia|done|].
  cbn in E. exists h'. split; [done|].
  pose proof (slob_free_kept _ _ _ _ _ _ E Hsp Hslab) as Ho. split; [|done].
  destruct (kheap_rest h k ks Hk) as (R1 & R2 & R3). split; [done| | |done|].
  - intros k' Hin Hs'. eapply small_ok_preserved; eauto.
  - intros k' Hin Hs'. eapply big_ok_kept; eauto.
  - intros q sq Hq.
    destruct (slob_free_pages h (backings ks) (backing k) sp bl Hok Hsp Hbl (k_size k + kmalloc_align) h' q sq)
      as [[Hne Hq0]|(o' & Ho' & E')]; try done; [pose proof kmalloc_align_value; lia| |].
    + by eapply used_rest.
    + apply list_elem_of_fmap in Ho' as (k' & -> & [_ Hin]%list_elem_of_filter). by exists k'.
Qed.

Lemma kfree_big h k ks :
  kheap_ok h (k :: ks) -> is_small k = false ->
  exists h', kfree h (Ptr (k_page k) (k_off k)) = Some h' /\ kheap_ok h' ks /\ preserved h h' (backings ks).
Proof.
  intros Hk Hs. pose proof (kh_heap _ _ Hk) as Hok. rewrite backings_big in Hok by done.
  destruct (kh_big _ _ Hk k (list_elem_of_here _ _) Hs) as (sp & Hsp & H1 & H2 & H3).
  unfold kfree. rewrite Hsp. cbn [mbind option_bind]. rewrite H1. eexists. split; [reflexivity|].
  set (h' := mkHeap _ _).
  assert (HE : forall q sq, PageSlab sq = true -> (pages h' !! q = Some sq <-> pages h !! q = Some sq)).
  { intros q sq Hq. cbn. rewrite lookup_delete_Some. split; [tauto|]. intros Hq'. split; [|done]. congruence. }
  pose proof (preserved_outside h h' _ Hok HE) as Hpres. split; [|done].
  pose proof (kh_distinct _ _ Hk) as Hd. rewrite filter_cons_True in Hd by done. cbn in Hd.
  apply NoDup_cons in Hd as [Hd _].
  destruct (kheap_rest h k ks Hk) as (R1 & R2 & R3). split; [by apply (heap_ok_outside h h')| | |done|].
  - intros k' Hin Hs'. eapply small_ok_preserved; eauto.
  - intros k' Hin Hs'. destruct (R2 k' Hin Hs') as (sq & Hsq & H). exists sq. split; [|done].
    cbn. rewrite lookup_delete_ne; [done|]. intros E. apply Hd. rewrite E.
    apply list_elem_of_fmap_2, list_elem_of_filter. done.
  - intros q sq Hq. cbn in Hq. apply lookup_delete_Some in Hq as [Hne Hq]. by eapply used_rest.
Qed.

Lemma kfree_total h ks k ks' :
  kheap_ok h ks -> ks ≡ₚ k :: ks' ->
  exists h', kfree h (Ptr (k_page k) (k_off k)) = Some h' /\ kheap_ok h' ks' /\ preserved h h' (backings ks').
Proof.
  intros Hk Hp. apply (kheap_ok_perm _ _ _ Hp) in Hk.
  destruct (is_small k) eqn:Hs; [|by apply kfree_big].
  destruct (kfree_small h k ks' Hk Hs) as (h' & ? & ? & ? & _). by exists h'.
Qed.

(** ** Client writes *)

Lemma used_write h ks p sp sp' :
  kheap_ok h ks -> pages h !! p = Some sp ->
  forall q sq, <[p := sp']> (pages h) !! q = Some sq -> exists k, k ∈ ks /\ k_page k = q.
Proof.
  intros Hk Hp q sq [[<- _]|[_ Hq]]%lookup_insert_Some; by eapply (kh_used _ _ Hk).
Qed.

Lemma write_small h ks k sp m :
  kheap_ok h ks -> k ∈ ks -> is_small k = true -> pages h !! k_page k = Some sp ->
  (forall u, ~ k_covers k (k_page k) u -> m u = mem sp u) ->
  kheap_ok (set_page h (k_page k) (with_mem sp m)) ks.
Proof.
  intros Hk Hin Hs Hsp Hm. destruct (list_elem_of_split _ _ Hin) as (l1 & l2 & ->).
  assert (Hp : l1 ++ k :: l2 ≡ₚ k :: l1 ++ l2) by (symmetry; apply Permutation_middle).
  apply (kheap_ok_perm _ _ _ Hp) in Hk. apply (kheap_ok_perm _ _ _ (symmetry Hp)).
  pose proof Hk as [K1 K2 K3 K4 K5]. rewrite backings_small in K1 by done.
  destruct (K2 k (list_elem_of_here _ _) Hs) as (sp0 & Hsp0 & H1 & H2 & H3).
  rewrite Hsp in Hsp0. injection Hsp0 as <-.
  assert (Hout : forall u, ~ k_off k <= u < k_off k + SLOB_UNITS (k_size k) -> m u = mem sp u).
  { intros u Hu. apply Hm. unfold k_covers. rewrite Hs. tauto. }
  destruct (object_write h _ (backings (l1 ++ l2)) (backing k) sp m K1 (reflexivity _) Hsp) as [W1 W2].
  { cbn. intros u Hu. apply Hout. rewrite header_units, align_units_value in Hu by lia. lia. }
  cbn in W1, W2. destruct (hk_live _ _ K1 _ (list_elem_of_here _ _)) as [_ (sq & Hq & Hslab)].
  cbn in Hq. rewrite Hsp in Hq. injection Hq as <-.
  destruct (kheap_rest h k _ Hk) as (R1 & R2 & R3). split; [by rewrite backings_small| | |done|by eapply used_write].
  - intros k' [->|Hin']%elem_of_cons Hs'; [|eapply small_ok_preserved; eauto].
    exists (with_mem sp m). cbn. rewrite lookup_insert_eq. split_and!; try done.
    rewrite <- H2. rewrite align_units_value. apply load_frame; apply Hout; lia.
  - intros k' [->|Hin']%elem_of_cons Hs'; [congruence|]. destruct (R2 k' Hin' Hs') as (sq & Hsq & Hn & H).
    exists sq. split; [|done]. cbn. rewrite lookup_insert_ne; [done|]. congruence.
Qed.

Lemma write_big h ks k sp m :
  kheap_ok h ks -> k ∈ ks -> is_small k = false -> pages h !! k_page k = Some sp ->
  kheap_ok (set_page h (k_page k) (with_mem sp m)) ks.
Proof.
  intros Hk Hin Hs Hsp. pose proof Hk as [K1 K2 K3 K4 K5].
  destruct (K3 k Hin Hs) as (sp0 & Hsp0 & H1 & H2 & H3). rewrite Hsp in Hsp0. injection Hsp0 as <-.
  set (h' := set_page _ _ _).
  assert (HE : forall q sq, PageSlab sq = true -> (pages h' !! q = Some sq <-> pages h !! q = Some sq)).
  { intros q sq Hq. cbn. destruct (decide (k_page k = q)) as [<-|Hne].
    - rewrite lookup_insert_eq, Hsp. split; intros [= <-]; cbn in *; congruence.
    - by rewrite lookup_insert_ne. }
  split; [by apply (heap_ok_outside h h')| | |done|by eapply used_write].
  - intros k' Hin' Hs'. eapply small_ok_preserved; eauto. by apply preserved_outside.
  - intros k' Hin' Hs'. destruct (K3 k' Hin' Hs') as (sq & Hsq & H). cbn.
    destruct (decide (k_page k = k_page k')) as [E|Hne].
    + exists (with_mem sp m). cbn. rewrite <- E, lookup_insert_eq. rewrite <- E, Hsp in Hsq.
      by injection Hsq as <-.
    + exists sq. cbn. by rewrite lookup_insert_ne.
Qed.

Lemma kstep_ok s s' : kstep s s' -> kheap_ok s.1 s.2 -> kheap_ok s'.1 s'.2.
Proof.
  destruct 1 as [h ks size zero fresh p off h' Hs Hf E|h ks size zero fresh r h' Hs Hf E Hr
                |h ks k ks' h' Hp E|h ks k sp m h' Hin Hsp Hm E]; cbn; intros Hk.
  - destruct (kmalloc_total h ks size zero fresh Hk Hs Hf) as (r' & h1 & E' & H).
    rewrite E in E'. injection E' as <- <-. apply H.
  - destruct (kmalloc_total h ks size zero fresh Hk Hs Hf) as (r' & h1 & E' & H).
    rewrite E in E'. injection E' as <- <-. destruct Hr as [->| ->]; destruct H as [_ ->]; done.
  - destruct (kfree_total h ks k ks' Hk Hp) as (h1 & E' & H). rewrite E in E'. injection E' as <-. apply H.
  - unfold client_write in E. rewrite Hsp in E. injection E as <-.
    destruct (is_small k) eqn:Hs; [by apply write_small|by apply write_big].
Qed.

Lemma empty_ok : kheap_ok empty_heap [].
Proof.
  split; cbn; [split; cbn| | |apply NoDup_nil_2|]; try done; intros;
    try match goal with H : _ ∈ [] |- _ => by apply not_elem_of_nil in H end.
  apply NoDup_nil_2.
Qed.

Lemma reachable_ok h ks : rtc kstep (empty_heap, []) (h, ks) -> kheap_ok h ks.
Proof.
  intros Hr. change (kheap_ok (h, ks).1 (h, ks).2).
  refine (rtc_ind_l (fun s => kheap_ok s.1 s.2 -> kheap_ok (h, ks).1 (h, ks).2) _ _ _ _ Hr empty_ok); [done|].
  intros x y Hxy _ IH Hx. apply IH. by eapply kstep_ok.
Qed.

(** ** What clients can rely on *)

Lemma small_covers h k p u :
  small_ok h k -> is_small k = true -> k_covers k p u -> covers (backing k) p u = true.
Proof.
  intros (sp & _ & H1 & _) Hs [Hp Hu]. rewrite Hs in Hu. apply covers_spec. cbn. split; [done|].
  rewrite header_units, align_units_value by lia. lia.
Qed.

Lemma small_slab h ks k :
  kheap_ok h ks -> k ∈ ks -> is_small k = true ->
  exists sp, pages h !! k_page k = Some sp /\ PageSlab sp = true.
Proof.
  intros Hk Hin Hs.
  by destruct (hk_live _ _ (kh_heap _ _ Hk) (backing k) (backing_elem _ _ Hin Hs)) as [_ H].
Qed.

Lemma kobjs_disjoint h k1 k2 rest p u :
  kheap_ok h (k1 :: k2 :: rest) -> k_covers k1 p u -> k_covers k2 p u -> False.
Proof.
  intros Hk C1 C2.
  assert (I1 : k1 ∈ k1 :: k2 :: rest) by apply list_elem_of_here.
  assert (I2 : k2 ∈ k1 :: k2 :: rest) by (apply list_elem_of_further, list_elem_of_here).
  pose proof (proj1 C1) as P1. pose proof (proj1 C2) as P2.
  destruct (is_small k1) eqn:S1, (is_small k2) eqn:S2.
  - apply (heap_ok_disjoint h (backings (k1 :: k2 :: rest)) (backing k1) (backing k2) (backings rest) p u).
    + apply (kh_heap _ _ Hk).
    + by rewrite !backings_small.
    + eapply small_covers; [|done..]. by apply (kh_small _ _ Hk).
    + eapply small_covers; [|done..]. by apply (kh_small _ _ Hk).
  - destruct (small_slab _ _ _ Hk I1 S1) as (s1 & E1 & F1).
    destruct (kh_big _ _ Hk k2 I2 S2) as (s2 & E2 & F2 & _). congruence.
  - destruct (small_slab _ _ _ Hk I2 S2) as (s2 & E2 & F2).
    destruct (kh_big _ _ Hk k1 I1 S1) as (s1 & E1 & F1 & _). congruence.
  - pose proof (kh_distinct _ _ Hk) as Hd. rewrite !filter_cons_True in Hd by done. cbn in Hd.
    apply NoDup_cons in Hd as [Hd _]. apply Hd. rewrite P1, P2. apply list_elem_of_here.
Qed.

Lemma kobj_placed h ks k u :
  kheap_ok h ks -> k ∈ ks -> is_small k = true -> k_covers k (k_page k) u -> 4 <= u < 2048.
Proof.
  intros Hk Hin Hs Hc. pose proof (kh_small _ _ Hk k Hin Hs) as Hsm.
  destruct (hk_live _ _ (kh_heap _ _ Hk) (backing k) (backing_elem _ _ Hin Hs)) as [(W1 & _ & W3) _].
  destruct Hsm as (sp & _ & H1 & _). destruct Hc as [_ Hc]. rewrite Hs in Hc. cbn in W1, W3.
  rewrite header_units, align_units_value in * by lia. lia.
Qed.

Definition heap_of (r : option (ptr * heap)) : heap :=
  match r with Some (_, h) => h | None => empty_heap end.
Lemma heap_of_spec r x : fst <$> r = Some x -> r = Some (x, heap_of r).
Proof. destruct r as [[y h]|]; cbn; [|done]. by intros [= ->]. Qed.

(** Two blocks, of 10 and of 20 bytes, on a page fresh from the page allocator. *)
Definition demo1 : heap := heap_of (kmalloc empty_heap 10 false (Some (7, fun _ => 0))).
Definition demo2 : heap := heap_of (kmalloc demo1 20 true None).
Definition demo_blocks : list kobj := [mkK 7 16 20; mkK 7 4 10].

Lemma demo_reachable : rtc kstep (empty_heap, []) (demo2, demo_blocks).
Proof.
  eapply rtc_l; [apply (kstep_alloc empty_heap [] 10 false (Some (7, fun _ => 0)) 7 4 demo1); [done|done|]|].
  { by apply heap_of_spec. }
  eapply rtc_l; [apply (kstep_alloc demo1 [mkK 7 4 10] 20 true None 7 16 demo2); [done|done|]|apply rtc_refl].
  by apply heap_of_spec.
Qed.

(** C3: clients that free only live blocks, once, and write only inside their blocks
    keep the allocator safe.  After any sequence of [kmalloc], [kfree] and client
    writes from the empty heap, two different live blocks have no unit in common, the
    units of a small block lie inside its page behind the header and its address is
    a multiple of 8, freeing any live block succeeds, and so does allocating any size. *)
Theorem kmalloc_clients_safe h ks :
  rtc kstep (empty_heap, []) (h, ks) ->
  (forall k1 k2 rest p u, ks ≡ₚ k1 :: k2 :: rest -> ~ (k_covers k1 p u /\ k_covers k2 p u)) /\
  (forall k u, k ∈ ks -> is_small k = true -> k_covers k (k_page k) u ->
     4 <= u < 2048 /\ (8 | SLOB_UNIT * k_off k)) /\
  (forall k, k ∈ ks -> exists h', kfree h (Ptr (k_page k) (k_off k)) = Some h') /\
  (forall size zero fresh, 0 <= size -> fresh_ok h fresh ->
     exists r h', kmalloc h size zero fresh = Some (r, h')).
Proof.
  intros Hk%reachable_ok. split_and!.
  - intros k1 k2 rest p u Hp [C1 C2]. apply (kheap_ok_perm _ _ _ Hp) in Hk. by eapply kobjs_disjoint.
  - intros k u Hin Hs Hc. split; [by eapply kobj_placed|].
    destruct (kh_small _ _ Hk k Hin Hs) as (sp & _ & _ & _ & H). exact H.
  - intros k Hin. destruct (list_elem_of_split _ _ Hin) as (l1 & l2 & ->).
    destruct (kfree_total h _ k (l1 ++ l2) Hk) as (h' & E & _); [symmetry; apply Permutation_middle|].
    by exists h'.
  - intros size zero fresh Hs Hf. destruct (kmalloc_total h ks size zero fresh Hk Hs Hf) as (r & h' & E & _).
    by exists r, h'.
Qed.

Lemma kmalloc_clients_safe_witness :
  ~ (k_covers (mkK 7 16 20) 7 16 /\ k_covers (mkK 7 4 10) 7 16).
Proof.
  apply (proj1 (kmalloc_clients_safe demo2 demo_blocks demo_reachable) (mkK 7 16 20) (mkK 7 4 10) [] 7 16).
  reflexivity.
Defined.



Definition demo3 : heap := default empty_heap (kfree demo1 (Ptr 7 4)).

(** C35: nothing leaks.  When a client has freed all its blocks, in whatever order,
    every page it caused to be allocated has gone back to the page allocator and
    none is left on the partial lists. *)
Theorem kfree_returns_pages h :
  rtc kstep (empty_heap, []) (h, []) -> pages h = ∅ /\ forall c, free_slob h c = [].
Proof.
  intros Hk%reachable_ok.
  assert (Hnone : forall p, pages h !! p = None).
  { intros p. destruct (pages h !! p) as [sp|] eqn:E; [|done].
    destruct (kh_used _ _ Hk p sp E) as (k & []%not_elem_of_nil & _). }
  split; [by apply map_empty|]. intros c. destruct (free_slob h c) as [|p l] eqn:E; [done|].
  destruct (hk_listed _ _ (kh_heap _ _ Hk) c p) as (sp & Hsp & _).
  - rewrite E. apply list_elem_of_here.
  - by rewrite Hnone in Hsp.
Qed.

Lemma kfree_returns_pages_witness : pages demo3 = ∅ /\ forall c, free_slob demo3 c = [].
Proof.
  apply kfree_returns_pages.
  eapply rtc_l; [apply (kstep_alloc empty_heap [] 10 false (Some (7, fun _ => 0)) 7 4 demo1); [done|done|]|].
  { by apply heap_of_spec. }
  eapply rtc_l; [|apply rtc_refl].
  apply (kstep_free demo1 [mkK 7 4 10] (mkK 7 4 10) [] demo3); [reflexivity|].
  unfold demo3. by destruct (kfree demo1 (Ptr 7 4)) eqn:E; [|vm_compute in E].
Defined.

(** within a page the in-place encoding of the free list implements first fit.
    If the units of the page encode the free blocks [bl], allocation takes the first
    block with room for the aligned request, leaves an encoding of what remains,
    writes no unit outside the free blocks, and reports failure with the page
    unchanged exactly when no block has room. *)
Theorem page_alloc_first_fit sp bl size align :
  page_ok sp bl -> bl <> [] -> 1 <= size -> 0 <= align ->
  match take_fit (SLOB_UNITS size) align bl with
  | None => slob_page_alloc sp size align = Some (None, sp)
  | Some (x, bl') => exists sp', slob_page_alloc sp size align = Some (Some x, sp') /\
      page_ok sp' bl' /\ total bl' = total bl - SLOB_UNITS size /\
      (forall k, covered bl' k <-> covered bl k /\ ~ x <= k < x + SLOB_UNITS size) /\
      (forall k, ~ covered bl k -> mem sp' k = mem sp k)
  end.
Proof.
  intros Hok Hne Hs Ha. pose proof (slob_page_alloc_spec sp bl size align Hok Hne Hs Ha) as H.
  destruct (take_fit _ _ _) as [[x bl']|] eqn:Et; [|done].
  destruct H as (sp' & E & Hok' & _ & Hm). exists sp'.
  destruct (take_fit_spec _ _ _ _ _ _ _ _ Ha (units_positive _ Hs) (pg_repr _ _ Hok Hne) Et)
    as (T1 & _ & _ & _ & T2 & _). split_and!; done.
Qed.

(** A page with two free blocks, of 3 units at 8 and of one unit at 100. *)
Definition demo_page : page :=
  mkPage (set_slob (set_slob (fun _ => 0) 100 1 PAGE_UNITS) 8 3 100) 4 8 true true 0.
Lemma demo_page_ok : page_ok demo_page [(8, 3); (100, 1)].
Proof.
  split; try done. intros _. cbn. split_and!; try lia. exists 100. split; [right; done|].
  split_and!; try lia. exists 2048. split; [left; done|done].
Qed.

Lemma page_alloc_first_fit_witness :
  take_fit (SLOB_UNITS 5) 8 [(8, 3); (100, 1)] = Some (8, [(100, 1)]) /\
  exists sp', slob_page_alloc demo_page 5 8 = Some (Some 8, sp') /\ page_ok sp' [(100, 1)].
Proof.
  split; [reflexivity|].
  destruct (page_alloc_first_fit demo_page [(8, 3); (100, 1)] 5 8 demo_page_ok) as (sp' & E & H & _);
    [discriminate|lia|lia|]. by exists sp'.
Defined.

(** giving units back to a page that has other free blocks.  The new encoding
    covers exactly the old free units and the returned ones, its blocks are in
    address order with a gap between any two, so that neighbours have been merged,
    and no unit that is still in use is written. *)
Theorem page_free_coalesces sp bl b n :
  page_ok sp bl -> bl <> [] -> 0 <= b -> 1 <= n -> b + n <= 2048 ->
  (forall k, b <= k < b + n -> ~ covered bl k) ->
  exists sp' bl', reinsert sp b n = Some sp' /\ page_ok sp' bl' /\
    (forall k, covered bl' k <-> covered bl k \/ b <= k < b + n) /\
    (forall i x y r, bl' = i ++ x :: y :: r -> x.1 + x.2 < y.1) /\
    (forall k, ~ covered bl' k -> mem sp' k = mem sp k).
Proof.
  intros [Hr Hun Hfree Hslab] Hne Hb Hn Hbn Hdis.
  destruct (reinsert_spec sp bl b n (Hr Hne) Hne Hb Hn Hbn Hdis)
    as (m' & fl' & bl' & K1 & E & K2 & [T1 T2] & K4).
  eexists _, bl'. split_and!; [exact E| |done| |done].
  - split; cbn; [done|lia| |done]. rewrite Hfree, !bool_decide_eq_true_2; done.
  - intros i x y r ->. apply repr_app in K2 as (lo' & s' & K2). destruct x as [x xn], y as [y yn].
    cbn in K2. destruct K2 as (_ & _ & _ & _ & nx & _ & _ & Hgap & _). cbn. lia.
Qed.

Lemma page_free_coalesces_witness :
  exists sp' bl', reinsert demo_page 11 89 = Some sp' /\ page_ok sp' bl' /\
    (forall k, covered bl' k <-> covered [(8, 3); (100, 1)] k \/ 11 <= k < 11 + 89).
Proof.
  destruct (page_free_coalesces demo_page [(8, 3); (100, 1)] 11 89 demo_page_ok)
    as (sp' & bl' & H1 & H2 & H3 & _); try lia; [discriminate| |by exists sp', bl'].
  intros k Hk [H|[H|[]%covered_nil]%covered_cons]%covered_cons; lia.
Defined.

(** ** Caches *)

Definition cache12 : kmem_cache := kmem_cache_create_ 12 false false.
Definition cache_heap : heap :=
  heap_of (kmem_cache_alloc_node empty_heap cache12 false (Some (7, fun _ => 0))).

(** a cache uses its object size as the alignment, whatever alignment was asked
    for, and passes it to a rounding macro that is right for powers of two only.  The
    first two objects of a cache of 12-byte objects are at byte offsets 0 and 20 of
    their page: the second is not on a multiple of the architecture's minimal slab
    alignment. *)
Theorem cache_alignment_lost :
  calign cache12 = 12 /\
  fst <$> kmem_cache_alloc_node empty_heap cache12 false (Some (7, fun _ => 0)) = Some (Ptr 7 0) /\
  fst <$> kmem_cache_alloc_node cache_heap cache12 false None = Some (Ptr 7 10) /\
  ~ (ARCH_SLAB_MINALIGN | SLOB_UNIT * 10).
Proof.
  split_and!; try (vm_compute; reflexivity). intros [z Hz]. unfold ARCH_SLAB_MINALIGN, SLOB_UNIT in Hz. lia.
Qed.
