(* ===== verification/Rbtree.v ===== *)
(** * Red-black trees: lib/rbtree.c and include/linux/rbtree_augmented.h

    Nodes in memory, as the code has them: the parent pointer and the colour in one
    word, and two child pointers.  Memory is a finite map from addresses to nodes, NULL
    is address 0, and [None] is an access to something that is not a node or a loop that
    ran out of fuel.  The functions are those of [rb_insert_color] and [rb_erase], whose
    augmentation callbacks are the empty ones. *)

From Stdlib Require Import ZArith Lia Bool.
From stdpp Require Import base numbers gmap.
From S2P Require Import Prelude.
Open Scope Z_scope.

(** ** Nodes *)

Record rb_node := mkNode { parent_color : Z; rb_right : Z; rb_left : Z }.
Abbreviation mem := (gmap Z rb_node).
(** Memory and [root->rb_node]. *)
Definition rb_state : Type := mem * Z.

Definition RB_RED : Z := 0.
Definition RB_BLACK : Z := 1.
Definition rb_parent (n : rb_node) : Z := Z.land (parent_color n) (Z.lnot 3).
Definition rb_color (n : rb_node) : Z := Z.land (parent_color n) 1.
Definition rb_is_black (n : rb_node) : bool := negb (rb_color n =? 0).
Definition rb_is_red (n : rb_node) : bool := negb (rb_is_black n).
Definition rb_red_parent (n : rb_node) : Z := parent_color n.

Definition set_pc (h : mem) (p w : Z) : option mem :=
  n ← h !! p; Some (<[p := mkNode w (rb_right n) (rb_left n)]> h).
Definition set_right (h : mem) (p x : Z) : option mem :=
  n ← h !! p; Some (<[p := mkNode (parent_color n) x (rb_left n)]> h).
Definition set_left (h : mem) (p x : Z) : option mem :=
  n ← h !! p; Some (<[p := mkNode (parent_color n) (rb_right n) x]> h).

Definition rb_set_parent (h : mem) (rb p : Z) : option mem := n ← h !! rb; set_pc h rb (Z.lor (rb_color n) p).
Definition rb_set_parent_color (h : mem) (rb p color : Z) : option mem := set_pc h rb (Z.lor p color).
Definition rb_set_black (h : mem) (rb : Z) : option mem := n ← h !! rb; set_pc h rb (Z.lor (parent_color n) RB_BLACK).

(** [if (p) rb_set_parent_color(p, parent, color)] *)
Definition set_if (h : mem) (p parent color : Z) : option mem :=
  if p =? 0 then Some h else rb_set_parent_color h p parent color.
(** [p && rb_is_red(p)] *)
Definition is_red (h : mem) (p : Z) : option bool := if p =? 0 then Some false else n ← h !! p; Some (rb_is_red n).

Definition rb_change_child (old new parent : Z) (s : rb_state) : option rb_state :=
  let '(h, root) := s in
  if negb (parent =? 0) then
    n ← h !! parent;
    h ← (if rb_left n =? old then set_left h parent new else set_right h parent new);
    Some (h, root)
  else Some (h, new).

Definition rb_rotate_set_parents (old new color : Z) (s : rb_state) : option rb_state :=
  let '(h, root) := s in
  n ← h !! old;
  let parent := rb_parent n in
  h ← set_pc h new (parent_color n);
  h ← rb_set_parent_color h old new color;
  rb_change_child old new parent (h, root).

(** ** Insertion *)

(** Case 2 when the parent is a left child: rotate left at it.  The result is the new
    [parent] and [tmp]. *)
Definition insert_case2_left (h : mem) (node parent : Z) : option (mem * Z * Z) :=
  pn ← h !! parent;
  let tmp := rb_right pn in
  if node =? tmp then
    nn ← h !! node;
    let tmp := rb_left nn in
    h ← set_right h parent tmp;
    h ← set_left h node parent;
    h ← set_if h tmp parent RB_BLACK;
    h ← rb_set_parent_color h parent node RB_RED;
    nn ← h !! node;
    Some (h, node, rb_right nn)
  else Some (h, parent, tmp).
Definition insert_case2_right (h : mem) (node parent : Z) : option (mem * Z * Z) :=
  pn ← h !! parent;
  let tmp := rb_left pn in
  if node =? tmp then
    nn ← h !! node;
    let tmp := rb_right nn in
    h ← set_left h parent tmp;
    h ← set_right h node parent;
    h ← set_if h tmp parent RB_BLACK;
    h ← rb_set_parent_color h parent node RB_RED;
    nn ← h !! node;
    Some (h, node, rb_left nn)
  else Some (h, parent, tmp).

(** Case 3: rotate at the grandparent. *)
Definition insert_case3_left (h : mem) (root parent gparent tmp : Z) : option rb_state :=
  h ← set_left h gparent tmp;
  h ← set_right h parent gparent;
  h ← set_if h tmp gparent RB_BLACK;
  rb_rotate_set_parents gparent parent RB_RED (h, root).
Definition insert_case3_right (h : mem) (root parent gparent tmp : Z) : option rb_state :=
  h ← set_right h gparent tmp;
  h ← set_left h parent gparent;
  h ← set_if h tmp gparent RB_BLACK;
  rb_rotate_set_parents gparent parent RB_RED (h, root).

(** Case 1: flip the colours; the new [node] and [parent]. *)
Definition insert_case1 (h : mem) (uncle parent gparent : Z) : option (mem * Z * Z) :=
  h ← rb_set_parent_color h uncle gparent RB_BLACK;
  h ← rb_set_parent_color h parent gparent RB_BLACK;
  let node := gparent in
  n ← h !! node;
  let parent := rb_parent n in
  h ← rb_set_parent_color h node parent RB_RED;
  Some (h, node, parent).

Fixpoint rb_insert_loop (fuel : nat) (s : rb_state) (node parent : Z) : option rb_state :=
  let '(h, root) := s in
  if parent =? 0 then h ← rb_set_parent_color h node 0 RB_BLACK; Some (h, root)
  else
    pn ← h !! parent;
    if rb_is_black pn then Some (h, root)
    else
      let gparent := rb_red_parent pn in
      gn ← h !! gparent;
      let tmp := rb_right gn in
      if negb (parent =? tmp) then
        red ← is_red h tmp;
        if red : bool then
          '(h, node, parent) ← insert_case1 h tmp parent gparent;
          match fuel with O => None | S fuel => rb_insert_loop fuel (h, root) node parent end
        else
          '(h, parent, tmp) ← insert_case2_left h node parent;
          insert_case3_left h root parent gparent tmp
      else
        let tmp := rb_left gn in
        red ← is_red h tmp;
        if red : bool then
          '(h, node, parent) ← insert_case1 h tmp parent gparent;
          match fuel with O => None | S fuel => rb_insert_loop fuel (h, root) node parent end
        else
          '(h, parent, tmp) ← insert_case2_right h node parent;
          insert_case3_right h root parent gparent tmp.

Definition rb_insert_color (fuel : nat) (node : Z) (s : rb_state) : option rb_state :=
  n ← s.1 !! node;
  rb_insert_loop fuel s node (rb_red_parent n).

(** The link a new node is stored to: the root, or a child of its parent. *)
Inductive rb_link := LinkRoot | LinkLeft (p : Z) | LinkRight (p : Z).
Definition rb_link_node (node parent : Z) (link : rb_link) (s : rb_state) : option rb_state :=
  let '(h, root) := s in
  let h := <[node := mkNode parent 0 0]> h in
  match link with
  | LinkRoot => Some (h, node)
  | LinkLeft p => h ← set_left h p node; Some (h, root)
  | LinkRight p => h ← set_right h p node; Some (h, root)
  end.

(** ** Removal *)

(** Case 1: a red sibling; rotate at the parent.  The new [sibling]. *)
Definition erase_case1_left (s : rb_state) (parent sibling : Z) : option (rb_state * Z) :=
  let '(h, root) := s in
  sn ← h !! sibling;
  if rb_is_red sn then
    let tmp1 := rb_left sn in
    h ← set_right h parent tmp1;
    h ← set_left h sibling parent;
    h ← rb_set_parent_color h tmp1 parent RB_BLACK;
    s ← rb_rotate_set_parents parent sibling RB_RED (h, root);
    Some (s, tmp1)
  else Some (s, sibling).
Definition erase_case1_right (s : rb_state) (parent sibling : Z) : option (rb_state * Z) :=
  let '(h, root) := s in
  sn ← h !! sibling;
  if rb_is_red sn then
    let tmp1 := rb_right sn in
    h ← set_left h parent tmp1;
    h ← set_right h sibling parent;
    h ← rb_set_parent_color h tmp1 parent RB_BLACK;
    s ← rb_rotate_set_parents parent sibling RB_RED (h, root);
    Some (s, tmp1)
  else Some (s, sibling).

(** Case 2: flip the sibling.  The [parent] to go on with is 0 when the loop ends. *)
Definition erase_case2 (h : mem) (parent sibling : Z) : option (mem * Z * Z) :=
  h ← rb_set_parent_color h sibling parent RB_RED;
  pn ← h !! parent;
  if rb_is_red pn then h ← rb_set_black h parent; Some (h, 0, 0)
  else Some (h, parent, rb_parent pn).

(** Case 3: rotate at the sibling. *)
Definition erase_case3_left (h : mem) (parent sibling tmp2 : Z) : option mem :=
  n2 ← h !! tmp2;
  let tmp1 := rb_right n2 in
  h ← set_left h sibling tmp1;
  h ← set_right h tmp2 sibling;
  h ← set_right h parent tmp2;
  set_if h tmp1 sibling RB_BLACK.
Definition erase_case3_right (h : mem) (parent sibling tmp2 : Z) : option mem :=
  n2 ← h !! tmp2;
  let tmp1 := rb_left n2 in
  h ← set_right h sibling tmp1;
  h ← set_left h tmp2 sibling;
  h ← set_left h parent tmp2;
  set_if h tmp1 sibling RB_BLACK.

(** Case 4: rotate at the parent and flip colours. *)
Definition erase_case4_left (h : mem) (root parent sibling tmp1 : Z) : option rb_state :=
  sn ← h !! sibling;
  let tmp2 := rb_left sn in
  h ← set_right h parent tmp2;
  h ← set_left h sibling parent;
  h ← rb_set_parent_color h tmp1 sibling RB_BLACK;
  h ← (if tmp2 =? 0 then Some h else rb_set_parent h tmp2 parent);
  rb_rotate_set_parents parent sibling RB_BLACK (h, root).
Definition erase_case4_right (h : mem) (root parent sibling tmp1 : Z) : option rb_state :=
  sn ← h !! sibling;
  let tmp2 := rb_right sn in
  h ← set_left h parent tmp2;
  h ← set_right h sibling parent;
  h ← rb_set_parent_color h tmp1 sibling RB_BLACK;
  h ← (if tmp2 =? 0 then Some h else rb_set_parent h tmp2 parent);
  rb_rotate_set_parents parent sibling RB_BLACK (h, root).

Fixpoint rb_erase_loop (fuel : nat) (s : rb_state) (node parent : Z) : option rb_state :=
  pn ← s.1 !! parent;
  let sibling := rb_right pn in
  if negb (node =? sibling) then
    '(h, root, sibling) ← erase_case1_left s parent sibling;
    sn ← h !! sibling;
    let tmp1 := rb_right sn in
    red1 ← is_red h tmp1;
    if negb red1 then
      let tmp2 := rb_left sn in
      red2 ← is_red h tmp2;
      if negb red2 then
        '(h, node, parent) ← erase_case2 h parent sibling;
        if negb (parent =? 0)
        then match fuel with O => None | S fuel => rb_erase_loop fuel (h, root) node parent end
        else Some (h, root)
      else
        h ← erase_case3_left h parent sibling tmp2;
        erase_case4_left h root parent tmp2 sibling
    else erase_case4_left h root parent sibling tmp1
  else
    let sibling := rb_left pn in
    '(h, root, sibling) ← erase_case1_right s parent sibling;
    sn ← h !! sibling;
    let tmp1 := rb_left sn in
    red1 ← is_red h tmp1;
    if negb red1 then
      let tmp2 := rb_right sn in
      red2 ← is_red h tmp2;
      if negb red2 then
        '(h, node, parent) ← erase_case2 h parent sibling;
        if negb (parent =? 0)
        then match fuel with O => None | S fuel => rb_erase_loop fuel (h, root) node parent end
        else Some (h, root)
      else
        h ← erase_case3_right h parent sibling tmp2;
        erase_case4_right h root parent tmp2 sibling
    else erase_case4_right h root parent sibling tmp1.

Definition rb_erase_color (fuel : nat) (parent : Z) (s : rb_state) : option rb_state := rb_erase_loop fuel s 0 parent.

(** [do { parent = successor; successor = tmp; tmp = tmp->rb_left; } while (tmp)] *)
Fixpoint find_successor (fuel : nat) (h : mem) (successor tmp : Z) : option (Z * Z) :=
  n ← h !! tmp;
  let parent := successor in
  let successor := tmp in
  let tmp := rb_left n in
  if negb (tmp =? 0)
  then match fuel with O => None | S fuel => find_successor fuel h successor tmp end
  else Some (parent, successor).

(** At most one child: the node to rebalance from. *)
Definition erase_one (node child : Z) (s : rb_state) : option (rb_state * Z) :=
  n ← s.1 !! node;
  let pc := parent_color n in
  let parent := rb_parent n in
  '(h, root) ← rb_change_child node child parent s;
  if negb (child =? 0) then h ← set_pc h child pc; Some (h, root, 0)
  else Some (h, root, if rb_is_black n then parent else 0).
(** The only child is the left one. *)
Definition erase_left_only (node tmp : Z) (s : rb_state) : option (rb_state * Z) :=
  let '(h, root) := s in
  n ← h !! node;
  let pc := parent_color n in
  h ← set_pc h tmp pc;
  s ← rb_change_child node tmp (rb_parent n) (h, root);
  Some (s, 0).
(** Two children: the successor leaves its place to its right child. *)
Definition unlink_successor (fuel : nat) (child : Z) (h : mem) : option (mem * Z * Z * Z) :=
  cn ← h !! child;
  let tmp := rb_left cn in
  if tmp =? 0 then Some (h, child, child, rb_right cn)
  else
    '(parent, successor) ← find_successor fuel h child tmp;
    sn ← h !! successor;
    let child2 := rb_right sn in
    h ← set_left h parent child2;
    h ← set_right h successor child;
    h ← rb_set_parent h child successor;
    Some (h, successor, parent, child2).
(** ... and takes the place of the node. *)
Definition erase_two (fuel : nat) (node child : Z) (s : rb_state) : option (rb_state * Z) :=
  let '(h, root) := s in
  '(h, successor, parent, child2) ← unlink_successor fuel child h;
  n ← h !! node;
  let tmp := rb_left n in
  h ← set_left h successor tmp;
  h ← rb_set_parent h tmp successor;
  n ← h !! node;
  let pc := parent_color n in
  '(h, root) ← rb_change_child node successor (rb_parent n) (h, root);
  if negb (child2 =? 0) then
    h ← set_pc h successor pc;
    h ← rb_set_parent_color h child2 parent RB_BLACK;
    Some (h, root, 0)
  else
    sn ← h !! successor;
    h ← set_pc h successor pc;
    Some (h, root, if rb_is_black sn then parent else 0).

Definition rb_erase (fuel : nat) (node : Z) (s : rb_state) : option rb_state :=
  n ← s.1 !! node;
  let child := rb_right n in
  let tmp := rb_left n in
  '(s, rebalance) ←
    (if tmp =? 0 then erase_one node child s
     else if child =? 0 then erase_left_only node tmp s
     else erase_two fuel node child s);
  if negb (rebalance =? 0) then rb_erase_color fuel rebalance s else Some s.

(** ** Walking *)

(** [while (n->rb_left) n = n->rb_left] *)
Fixpoint leftmost (fuel : nat) (h : mem) (p : Z) : option Z :=
  n ← h !! p;
  if negb (rb_left n =? 0) then match fuel with O => None | S fuel => leftmost fuel h (rb_left n) end else Some p.
Fixpoint rightmost (fuel : nat) (h : mem) (p : Z) : option Z :=
  n ← h !! p;
  if negb (rb_right n =? 0) then match fuel with O => None | S fuel => rightmost fuel h (rb_right n) end else Some p.

Definition rb_first (fuel : nat) (s : rb_state) : option Z := if s.2 =? 0 then Some 0 else leftmost fuel s.1 s.2.
Definition rb_last (fuel : nat) (s : rb_state) : option Z := if s.2 =? 0 then Some 0 else rightmost fuel s.1 s.2.

(** [while ((parent = rb_parent(node)) && node == parent->rb_right) node = parent] *)
Fixpoint climb_right (fuel : nat) (h : mem) (node : Z) : option Z :=
  n ← h !! node;
  let parent := rb_parent n in
  if parent =? 0 then Some 0
  else
    pn ← h !! parent;
    if node =? rb_right pn then match fuel with O => None | S fuel => climb_right fuel h parent end else Some parent.
Fixpoint climb_left (fuel : nat) (h : mem) (node : Z) : option Z :=
  n ← h !! node;
  let parent := rb_parent n in
  if parent =? 0 then Some 0
  else
    pn ← h !! parent;
    if node =? rb_left pn then match fuel with O => None | S fuel => climb_left fuel h parent end else Some parent.

Definition rb_next (fuel : nat) (h : mem) (node : Z) : option Z :=
  n ← h !! node;
  if parent_color n =? node then Some 0
  else if negb (rb_right n =? 0) then leftmost fuel h (rb_right n)
  else climb_right fuel h node.
Definition rb_prev (fuel : nat) (h : mem) (node : Z) : option Z :=
  n ← h !! node;
  if parent_color n =? node then Some 0
  else if negb (rb_left n =? 0) then rightmost fuel h (rb_left n)
  else climb_left fuel h node.

Definition rb_replace_node (victim new : Z) (s : rb_state) : option rb_state :=
  n ← s.1 !! victim;
  '(h, root) ← rb_change_child victim new (rb_parent n) s;
  n ← h !! victim;
  h ← (if rb_left n =? 0 then Some h else rb_set_parent h (rb_left n) new);
  n ← h !! victim;
  h ← (if rb_right n =? 0 then Some h else rb_set_parent h (rb_right n) new);
  n ← h !! victim;
  Some (<[new := n]> h, root).
