(* ===== verification/RbtreeSpec.v ===== *)
(** * Red-black trees: what the memory represents

    Abstract trees whose nodes are labelled with their addresses, paths from the root
    to a place in a tree, the nodes in memory a tree stands for, and the balance
    invariant with the operations on it that rebalancing uses. *)

From Stdlib Require Import ZArith Lia Bool.
From stdpp Require Import base numbers gmap list.
From S2P Require Import Prelude Rbtree.
Open Scope Z_scope.

(** ** Trees and paths *)

Inductive color := Red | Black.
Inductive tree := E | T (c : color) (l : tree) (a : Z) (r : tree).
#[export] Instance color_eq_dec : EqDecision color.
Proof. solve_decision. Defined.
#[export] Instance tree_eq_dec : EqDecision tree.
Proof. solve_decision. Defined.
(** A step of a path, from below: the hole is the left or the right child. *)
Inductive frame := FL (c : color) (a : Z) (r : tree) | FR (c : color) (l : tree) (a : Z).
Definition path : Type := list frame.

Definition ptr_of (t : tree) : Z := match t with E => 0 | T _ _ a _ => a end.
Definition col (t : tree) : color := match t with E => Black | T c _ _ _ => c end.
Definition frame_addr (f : frame) : Z := match f with FL _ a _ | FR _ _ a => a end.
Definition frame_col (f : frame) : color := match f with FL c _ _ | FR c _ _ => c end.
Definition up (k : path) : Z := match k with [] => 0 | f :: _ => frame_addr f end.

Definition fill (f : frame) (t : tree) : tree :=
  match f with FL c a r => T c t a r | FR c l a => T c l a t end.
Fixpoint plug (t : tree) (k : path) : tree := match k with [] => t | f :: k => plug (fill f t) k end.

(** The addresses in order. *)
Fixpoint inorder (t : tree) : list Z := match t with E => [] | T _ l a r => inorder l ++ a :: inorder r end.
Fixpoint before (k : path) : list Z :=
  match k with [] => [] | FL _ _ _ :: k => before k | FR _ l a :: k => before k ++ inorder l ++ [a] end.
Fixpoint after (k : path) : list Z :=
  match k with [] => [] | FL _ a r :: k => a :: inorder r ++ after k | FR _ _ _ :: k => after k end.

Lemma inorder_plug t k : inorder (plug t k) = before k ++ inorder t ++ after k.
Proof.
  revert t. induction k as [|[c a r|c l a] k IH]; intros t; cbn; [by rewrite app_nil_r|..];
    rewrite IH; cbn; by rewrite <- !app_assoc.
Qed.
Lemma plug_app t k1 k2 : plug t (k1 ++ k2) = plug (plug t k1) k2.
Proof. revert t. induction k1 as [|f k1 IH]; intros t; cbn; [done|apply IH]. Qed.

(** ** Memory *)

Definition word (p : Z) (c : color) : Z := Z.lor p (match c with Red => RB_RED | Black => RB_BLACK end).
Definition node_of (p : Z) (c : color) (l r : Z) : rb_node := mkNode (word p c) r l.

(** The nodes of a tree whose root has parent [p], and of a path whose hole holds the
    pointer [x]. *)
Fixpoint cells (p : Z) (t : tree) : list (Z * rb_node) :=
  match t with
  | E => []
  | T c l a r => (a, node_of p c (ptr_of l) (ptr_of r)) :: cells a l ++ cells a r
  end.
Fixpoint path_cells (x : Z) (k : path) : list (Z * rb_node) :=
  match k with
  | [] => []
  | FL c a r :: k => (a, node_of (up k) c x (ptr_of r)) :: cells a r ++ path_cells a k
  | FR c l a :: k => (a, node_of (up k) c (ptr_of l) x) :: cells a l ++ path_cells a k
  end.

Lemma cells_plug t k : cells 0 (plug t k) ≡ₚ cells (up k) t ++ path_cells (ptr_of t) k.
Proof.
  revert t. induction k as [|[c a r|c l a] k IH]; intros t; cbn; [by rewrite app_nil_r|..]; rewrite IH; cbn.
  - rewrite <- !app_assoc. by rewrite Permutation_middle.
  - rewrite <- !app_assoc. rewrite (Permutation_app_swap_app (cells a l)). by rewrite Permutation_middle.
Qed.
Definition root_after (x : Z) (k : path) : Z := match last k with Some f => frame_addr f | None => x end.
Lemma ptr_plug t k : ptr_of (plug t k) = root_after (ptr_of t) k.
Proof.
  induction k as [|f k _] using rev_ind; [done|]. rewrite plug_app. unfold root_after. rewrite last_snoc.
  by destruct f.
Qed.

(** Nodes are at multiples of four. *)
Definition aligned (a : Z) : Prop := Z.land a 3 = 0.
Definition good_addr (a : Z) : Prop := a <> 0 /\ aligned a.

(** The memory holds these nodes. *)
Record owns (h : mem) (cs : list (Z * rb_node)) : Prop := mkOwns {
  own_nodup : NoDup cs.*1;
  own_good : Forall good_addr cs.*1;
  own_cells : forall a n, (a, n) ∈ cs -> h !! a = Some n
}.

Lemma owns_perm h cs cs' : cs ≡ₚ cs' -> owns h cs -> owns h cs'.
Proof.
  intros E [H1 H2 H3]. assert (E1 : cs.*1 ≡ₚ cs'.*1) by by apply fmap_Permutation. split.
  - by rewrite <- E1.
  - by rewrite <- E1.
  - intros a n Hin. apply H3. by rewrite E.
Qed.
Lemma owns_load h cs i a n : owns h cs -> cs !! i = Some (a, n) -> h !! a = Some n.
Proof. intros H Hi. apply (own_cells _ _ H). by eapply list_elem_of_lookup_2. Qed.
Lemma owns_store h cs i a n n' : owns h cs -> cs !! i = Some (a, n) -> owns (<[a := n']> h) (<[i := (a, n')]> cs).
Proof.
  intros [H1 H2 H3] Hi. assert (E : (<[i := (a, n')]> cs).*1 = cs.*1).
  { rewrite list_fmap_insert. cbn. apply list_insert_id. by rewrite list_lookup_fmap, Hi. }
  split; [by rewrite E|by rewrite E|]. intros b m Hin. apply list_elem_of_lookup in Hin as [j Hj].
  destruct (decide (i = j)) as [<-|Hne].
  - rewrite list_lookup_insert_eq in Hj by (by eapply lookup_lt_Some). simplify_eq. apply lookup_insert_eq.
  - rewrite list_lookup_insert_ne in Hj by done. rewrite lookup_insert_ne; [apply H3; by eapply list_elem_of_lookup_2|].
    intros <-. apply Hne. eapply NoDup_lookup; [exact H1|..]; rewrite list_lookup_fmap, ?Hi, ?Hj; done.
Qed.
Lemma owns_good h cs i a n : owns h cs -> cs !! i = Some (a, n) -> good_addr a.
Proof. intros H Hi. eapply Forall_lookup_1; [apply (own_good _ _ H)|]. by rewrite list_lookup_fmap, Hi. Qed.
Lemma owns_distinct h cs i j a b n m : owns h cs -> cs !! i = Some (a, n) -> cs !! j = Some (b, m) -> i <> j -> a <> b.
Proof.
  intros H Hi Hj Hne <-. apply Hne. eapply NoDup_lookup; [apply (own_nodup _ _ H)|..]; rewrite list_lookup_fmap, ?Hi, ?Hj; done.
Qed.

(** Parent and colour of a word. *)
Lemma word_parent p c l r : aligned p -> rb_parent (node_of p c l r) = p.
Proof.
  intros H. unfold rb_parent, node_of, word. cbn. apply Z.bits_inj'. intros i Hi.
  assert (Hb : Z.testbit p i && Z.testbit 3 i = false).
  { rewrite <- Z.land_spec. unfold aligned in H. rewrite H. apply Z.bits_0. }
  rewrite Z.land_spec, Z.lor_spec, Z.lnot_spec by done.
  assert (Hc : Z.testbit (match c with Red => RB_RED | Black => RB_BLACK end) i && negb (Z.testbit 3 i) = false).
  { destruct c; [unfold RB_RED; by rewrite Z.bits_0|]. unfold RB_BLACK. destruct (decide (i = 0)) as [->|]; [done|].
    rewrite (Z.bits_above_log2 1) by (cbn; lia). done. }
  destruct (Z.testbit p i), (Z.testbit 3 i), (Z.testbit (match c with Red => RB_RED | Black => RB_BLACK end) i); done.
Qed.
Lemma word_color p c l r : aligned p -> rb_color (node_of p c l r) = match c with Red => RB_RED | Black => RB_BLACK end.
Proof.
  intros H. unfold rb_color, node_of, word. cbn. rewrite Z.land_lor_distr_l.
  assert (Hp : Z.land p 1 = 0).
  { change 1 with (Z.land 3 1). rewrite Z.land_assoc. unfold aligned in H. by rewrite H. }
  rewrite Hp. by destruct c.
Qed.
Lemma word_black p c l r : aligned p -> rb_is_black (node_of p c l r) = match c with Red => false | Black => true end.
Proof. intros H. unfold rb_is_black. rewrite word_color by done. by destruct c. Qed.
Lemma word_red p c l r : aligned p -> rb_is_red (node_of p c l r) = match c with Red => true | Black => false end.
Proof. intros H. unfold rb_is_red. rewrite word_black by done. by destruct c. Qed.
Lemma word_Red p : word p Red = p.
Proof. unfold word, RB_RED. apply Z.lor_0_r. Qed.

(** ** Permutations of lists of nodes *)

Section pull.
Context {A : Type}.
Implicit Types (x y : A) (l r s : list A).
Lemma pull_here x l : x :: l ≡ₚ x :: l. Proof. done. Qed.
Lemma pull_cons x y l r : l ≡ₚ x :: r -> y :: l ≡ₚ x :: y :: r.
Proof. intros ->. apply perm_swap. Qed.
Lemma pull_app x s l r : l ≡ₚ x :: r -> s ++ l ≡ₚ x :: s ++ r.
Proof. intros ->. by rewrite Permutation_middle. Qed.
Lemma pull_seg s l : s ++ l ≡ₚ s ++ l. Proof. done. Qed.
Lemma pull_last s : s ≡ₚ s ++ []. Proof. by rewrite app_nil_r. Qed.
Lemma pull_seg_cons s y l r : l ≡ₚ s ++ r -> y :: l ≡ₚ s ++ y :: r.
Proof. intros ->. by rewrite Permutation_middle. Qed.
Lemma pull_seg_app s s' l r : l ≡ₚ s ++ r -> s' ++ l ≡ₚ s ++ s' ++ r.
Proof. intros ->. by rewrite Permutation_app_swap_app. Qed.
Lemma perm_step x l r r' : r ≡ₚ x :: r' -> l ≡ₚ r' -> x :: l ≡ₚ r.
Proof. by intros -> ->. Qed.
Lemma perm_seg s l r r' : r ≡ₚ s ++ r' -> l ≡ₚ r' -> s ++ l ≡ₚ r.
Proof. by intros -> ->. Qed.
Lemma perm_last s r : r ≡ₚ s ++ [] -> s ≡ₚ r.
Proof. rewrite app_nil_r. by intros ->. Qed.
End pull.

Ltac pull := first [apply pull_here|eapply pull_cons; pull|eapply pull_app; pull].
Ltac pull_seg := first [apply pull_seg|eapply pull_last|eapply pull_seg_cons; pull_seg|eapply pull_seg_app; pull_seg].
Ltac perm_steps :=
  lazymatch goal with
  | |- [] ≡ₚ _ => reflexivity
  | |- _ :: _ ≡ₚ _ => eapply perm_step; [pull|perm_steps]
  | |- _ ++ _ ≡ₚ _ => eapply perm_seg; [pull_seg|perm_steps]
  | |- _ => apply perm_last; pull_seg
  end.
Ltac solve_perm :=
  repeat (progress (cbn [cells path_cells app up frame_addr ptr_of]; rewrite <- ?app_assoc, ?app_nil_r)); perm_steps.

Ltac solve_order :=
  cbn [plug fill]; rewrite ?inorder_plug; cbn [inorder];
  repeat (progress (rewrite <- ?app_assoc; cbn [app])); reflexivity.

(** ** Stores on a list of nodes *)

Section stores.
Context (h : mem) (cs : list (Z * rb_node)) (Hown : owns h cs).

Lemma set_pc_owns i a p c l r w : cs !! i = Some (a, node_of p c l r) ->
  exists h', set_pc h a w = Some h' /\ owns h' (<[i := (a, mkNode w r l)]> cs).
Proof.
  intros Hi. unfold set_pc. rewrite (owns_load h cs i _ _ Hown Hi). eexists. split; [reflexivity|].
  by eapply owns_store.
Qed.
Lemma set_parent_color_owns i a p c l r p' c' : cs !! i = Some (a, node_of p c l r) ->
  exists h', rb_set_parent_color h a p' (match c' with Red => RB_RED | Black => RB_BLACK end) = Some h' /\
    owns h' (<[i := (a, node_of p' c' l r)]> cs).
Proof. intros Hi. unfold rb_set_parent_color. by apply (set_pc_owns i a p c l r). Qed.
Lemma set_parent_owns i a p c l r p' : aligned p -> cs !! i = Some (a, node_of p c l r) ->
  exists h', rb_set_parent h a p' = Some h' /\ owns h' (<[i := (a, node_of p' c l r)]> cs).
Proof.
  intros Hp Hi. unfold rb_set_parent. rewrite (owns_load h cs i _ _ Hown Hi). cbn [mbind option_bind].
  rewrite word_color by done. rewrite Z.lor_comm. by apply (set_pc_owns i a p c l r).
Qed.
Lemma set_black_owns i a p l r : cs !! i = Some (a, node_of p Red l r) ->
  exists h', rb_set_black h a = Some h' /\ owns h' (<[i := (a, node_of p Black l r)]> cs).
Proof.
  intros Hi. unfold rb_set_black. rewrite (owns_load h cs i _ _ Hown Hi). cbn [mbind option_bind parent_color node_of].
  rewrite word_Red. by apply (set_pc_owns i a p Red l r).
Qed.
Lemma set_right_owns i a p c l r x : cs !! i = Some (a, node_of p c l r) ->
  exists h', set_right h a x = Some h' /\ owns h' (<[i := (a, node_of p c l x)]> cs).
Proof.
  intros Hi. unfold set_right. rewrite (owns_load h cs i _ _ Hown Hi). eexists. split; [reflexivity|]. by eapply owns_store.
Qed.
Lemma set_left_owns i a p c l r x : cs !! i = Some (a, node_of p c l r) ->
  exists h', set_left h a x = Some h' /\ owns h' (<[i := (a, node_of p c x r)]> cs).
Proof.
  intros Hi. unfold set_left. rewrite (owns_load h cs i _ _ Hown Hi). eexists. split; [reflexivity|]. by eapply owns_store.
Qed.
End stores.

(** ** Changing pointers of whole subtrees and paths *)

Lemma aligned_up h k x cs : owns h (path_cells x k ++ cs) -> aligned (up k).
Proof.
  intros H. destruct k as [|[c a r|c l a] k]; [done|..]; by apply (owns_good _ _ 0 _ _ H eq_refl).
Qed.
Lemma ptr_nonzero h p t cs : owns h (cells p t ++ cs) -> t <> E -> ptr_of t <> 0.
Proof. intros H Ht. destruct t; [done|]. apply (owns_good _ _ 0 _ _ H eq_refl). Qed.
Lemma ptr_eqb_0 h p t cs : owns h (cells p t ++ cs) -> (ptr_of t =? 0) = match t with E => true | _ => false end.
Proof.
  intros H. destruct t; [done|]. apply Z.eqb_neq. eapply (ptr_nonzero h p); [exact H|done].
Qed.

Lemma set_if_owns h p t p' cs : owns h (cells p t ++ cs) -> col t = Black ->
  exists h', set_if h (ptr_of t) p' RB_BLACK = Some h' /\ owns h' (cells p' t ++ cs).
Proof.
  intros H Hc. unfold set_if. rewrite (ptr_eqb_0 h p) with (cs := cs) by done. destruct t as [|c l a r]; [by exists h|].
  cbn in Hc. subst c. exact (set_parent_color_owns h _ H 0 a p Black (ptr_of l) (ptr_of r) p' Black eq_refl).
Qed.
Lemma set_parent_if_owns h p t p' cs : owns h (cells p t ++ cs) -> aligned p ->
  exists h', (if ptr_of t =? 0 then Some h else rb_set_parent h (ptr_of t) p') = Some h' /\ owns h' (cells p' t ++ cs).
Proof.
  intros H Hp. rewrite (ptr_eqb_0 h p) with (cs := cs) by done. destruct t as [|c l a r]; [by exists h|].
  exact (set_parent_owns h _ H 0 a p c (ptr_of l) (ptr_of r) p' Hp eq_refl).
Qed.
Lemma is_red_owns h p t cs : owns h (cells p t ++ cs) -> aligned p ->
  is_red h (ptr_of t) = Some (match col t with Red => true | Black => false end).
Proof.
  intros H Hp. unfold is_red. rewrite (ptr_eqb_0 h p) with (cs := cs) by done. destruct t as [|c l a r]; [done|].
  cbn [ptr_of]. rewrite (owns_load h _ 0 a _ H eq_refl). cbn [mbind option_bind]. by rewrite word_red.
Qed.

Lemma change_child_owns h old new k cs : owns h (path_cells old k ++ cs) -> old <> 0 -> old ∈ cs.*1 ->
  exists h', rb_change_child old new (up k) (h, root_after old k) = Some (h', root_after new k) /\
    owns h' (path_cells new k ++ cs).
Proof.
  intros H H0 Hold. unfold rb_change_child.
  assert (Hroot : k <> [] -> root_after old k = root_after new k).
  { intros Hk. unfold root_after. destruct (last k) eqn:E; [done|]. by apply last_None in E. }
  destruct k as [|[c a r|c l a] k]; [by exists h|..]; cbn [up frame_addr path_cells] in *;
    (rewrite (proj2 (Z.eqb_neq a 0)) by apply (owns_good _ _ 0 _ _ H eq_refl)); cbn [negb];
    rewrite (owns_load h _ 0 a _ H eq_refl); cbn [mbind option_bind node_of rb_left].
  - rewrite Z.eqb_refl.
    destruct (set_left_owns h _ H 0 a (up k) c old (ptr_of r) new eq_refl) as (h' & -> & H'). exists h'. cbn. split; [|exact H'].
    by rewrite Hroot.
  - rewrite (proj2 (Z.eqb_neq (ptr_of l) old)).
    + destruct (set_right_owns h _ H 0 a (up k) c (ptr_of l) old new eq_refl) as (h' & -> & H'). exists h'. cbn. split; [|exact H'].
      by rewrite Hroot.
    + destruct l as [|cl ll al rl]; [done|]. cbn. intros ->. pose proof (own_nodup _ _ H) as Hnd.
      cbn in Hnd. rewrite !fmap_app in Hnd. apply NoDup_cons in Hnd as [_ Hnd]. apply NoDup_cons in Hnd as [Hnd _].
      apply Hnd. rewrite !elem_of_app. auto.
Qed.

Lemma rotate_owns h old new k c l r p2 c2 l2 r2 c' cs :
  owns h ((old, node_of (up k) c l r) :: (new, node_of p2 c2 l2 r2) :: path_cells old k ++ cs) ->
  exists h', rb_rotate_set_parents old new (match c' with Red => RB_RED | Black => RB_BLACK end) (h, root_after old k)
      = Some (h', root_after new k) /\
    owns h' ((old, node_of new c' l r) :: (new, node_of (up k) c l2 r2) :: path_cells new k ++ cs).
Proof.
  intros H. unfold rb_rotate_set_parents. rewrite (owns_load h _ 0 old _ H eq_refl). cbn [mbind option_bind].
  assert (Hup : aligned (up k)).
  { eapply (aligned_up h k old). eapply owns_perm; [|exact H]. instantiate (1 := _ :: _ :: cs). solve_perm. }
  rewrite word_parent by done.
  destruct (set_pc_owns h _ H 1 new p2 c2 l2 r2 (parent_color (node_of (up k) c l r)) eq_refl) as (h1 & -> & H1).
  cbn [mbind option_bind].
  destruct (set_parent_color_owns h1 _ H1 0 old (up k) c l r new c' eq_refl) as (h2 & -> & H2). cbn [mbind option_bind].
  destruct (change_child_owns h2 old new k ((old, node_of new c' l r) :: (new, node_of (up k) c l2 r2) :: cs)) as (h3 & E & H3).
  - eapply owns_perm; [|exact H2]. cbn [insert list_insert]. solve_perm.
  - apply (owns_good _ _ 0 _ _ H eq_refl).
  - cbn. apply elem_of_cons. by left.
  - exists h3. split; [exact E|]. eapply owns_perm; [|exact H3]. solve_perm.
Qed.

(** ** Balance *)

(** No red node has a red child, and [n] black nodes are on every way down. *)
Inductive bal : nat -> tree -> Prop :=
| bal_E : bal 0 E
| bal_R n l a r : bal n l -> bal n r -> col l = Black -> col r = Black -> bal n (T Red l a r)
| bal_B n l a r : bal n l -> bal n r -> bal (S n) (T Black l a r).
Definition rbtree (t : tree) : Prop := col t = Black /\ exists n, bal n t.

Definition sibling (f : frame) : tree := match f with FL _ _ r => r | FR _ l _ => l end.
(** The colour above the hole; the root has to be black, as below a red node. *)
Definition top_col (k : path) : color := match k with [] => Red | f :: _ => frame_col f end.
(** A path whose hole takes a balanced tree of black height [n]. *)
Inductive cok : nat -> path -> Prop :=
| cok_nil n : cok n []
| cok_B n f k : bal n (sibling f) -> frame_col f = Black -> cok (S n) k -> cok n (f :: k)
| cok_R n f k : bal n (sibling f) -> col (sibling f) = Black -> frame_col f = Red -> top_col k = Black -> cok n k ->
    cok n (f :: k).

Lemma fill_bal n f t : bal n t -> bal n (sibling f) ->
  (frame_col f = Red -> col t = Black /\ col (sibling f) = Black) ->
  bal (match frame_col f with Red => n | Black => S n end) (fill f t).
Proof. intros H1 H2 H3. destruct f as [[] a r|[] l a]; cbn in *; constructor; try done; by apply H3. Qed.

Lemma plug_rb n t k : bal n t -> cok n k -> col t = Black \/ top_col k = Black -> rbtree (plug t k).
Proof.
  intros Ht Hk. revert t Ht. induction Hk as [n|n f k Hs Hf Hk IH|n f k Hs Hsb Hf Htop Hk IH]; intros t Ht Hc; cbn [plug].
  - destruct Hc as [Hc|]; [|done]. split; [done|by exists n].
  - apply IH; [|left; by destruct f]. pose proof (fill_bal n f t Ht Hs) as H. rewrite Hf in H. by apply H.
  - apply IH; [|by right]. pose proof (fill_bal n f t Ht Hs) as H. rewrite Hf in H. apply H. intros _. split; [|done].
    destruct Hc as [|Hc]; [done|]. cbn in Hc. congruence.
Qed.

Lemma fill_col f t : col (fill f t) = frame_col f.
Proof. by destruct f. Qed.
Lemma bal_fill n f t : bal n (fill f t) ->
  exists m, n = (match frame_col f with Red => m | Black => S m end) /\ bal m t /\ bal m (sibling f) /\
    (frame_col f = Red -> col t = Black /\ col (sibling f) = Black).
Proof. destruct f as [[] a r|[] l a]; inversion 1; subst; eexists; by split_and!. Qed.

Ltac solve_bal := solve [repeat first [assumption|reflexivity|constructor]].

(** Every place of a red-black tree. *)
Lemma unplug t k : rbtree (plug t k) -> exists n, bal n t /\ cok n k /\ (col t = Black \/ top_col k = Black).
Proof.
  revert t. induction k as [|f k IH]; intros t; cbn [plug].
  - intros [Hc [n Hn]]. exists n. split; [done|]. split; [constructor|by left].
  - intros (n & Hn & Hk & Hc)%IH. apply bal_fill in Hn as (m & -> & Ht & Hs & Hr). exists m. rewrite fill_col in Hc.
    split; [done|]. cbn [top_col]. destruct (frame_col f) eqn:Ef.
    + destruct (Hr eq_refl). split; [|by left]. apply cok_R; try done. by destruct Hc.
    + split; [by apply cok_B|by right].
Qed.

Lemma ptr_distinct h a n p t cs : owns h ((a, n) :: cells p t ++ cs) -> a <> ptr_of t.
Proof.
  intros H. destruct t as [|c l b r]; [apply (owns_good _ _ 0 _ _ H eq_refl)|].
  exact (owns_distinct _ _ 0 1 _ _ _ _ H eq_refl eq_refl ltac:(done)).
Qed.

Lemma owns_app_r h cs1 cs2 : owns h (cs1 ++ cs2) -> owns h cs2.
Proof.
  intros [H1 H2 H3]. rewrite fmap_app in H1, H2. apply NoDup_app in H1 as (_ & _ & H1). apply Forall_app in H2 as [_ H2].
  split; [done|done|]. intros a n Hin. apply H3. apply elem_of_app. by right.
Qed.
Lemma path_cells_tail h x f k fr : owns h (path_cells x (f :: k) ++ fr) -> owns h (path_cells (frame_addr f) k ++ fr).
Proof.
  intros H. destruct f as [c a r|c l a]; cbn [path_cells app] in H; rewrite <- app_assoc in H;
    by apply (owns_app_r _ [_]), owns_app_r in H.
Qed.
Lemma aligned_above h cs x f g k fr : owns h (cs ++ path_cells x (f :: g :: k) ++ fr) -> aligned (up k).
Proof. intros H%owns_app_r%path_cells_tail%path_cells_tail. by eapply aligned_up. Qed.
Lemma up_good h k x cs : owns h (path_cells x k ++ cs) -> aligned (up k) /\ (up k = 0 -> k = []).
Proof.
  intros H. destruct k as [|[c a r|c l a] k]; [done|..];
    destruct (owns_good _ _ 0 _ _ H eq_refl); by split.
Qed.
