(* ===== verification/RbtreeInsert.v ===== *)
(** * Insertion into red-black trees

    [rb_insert_color] restores the balance after a node was linked in, on the nodes in
    memory, and keeps the order. *)

From Stdlib Require Import ZArith Lia Bool.
From stdpp Require Import base numbers gmap list.
From S2P Require Import Prelude Rbtree RbtreeSpec.
Open Scope Z_scope.


(** ** Rotations *)

Lemma case3_left h p g p0 x y z k t cs :
  owns h ((p, node_of p0 Red x (ptr_of t)) :: (g, node_of (up k) Black z y) :: cells p t ++ path_cells g k ++ cs) ->
  col t = Black ->
  exists h', insert_case3_left h (root_after g k) p g (ptr_of t) = Some (h', root_after p k) /\
    owns h' ((p, node_of (up k) Black x g) :: (g, node_of p Red (ptr_of t) y) :: cells g t ++ path_cells p k ++ cs).
Proof.
  intros H Hc. unfold insert_case3_left.
  destruct (set_left_owns _ _ H 1 g _ _ _ _ (ptr_of t) eq_refl) as (h1 & -> & H1). cbn [mbind option_bind].
  destruct (set_right_owns _ _ H1 0 p _ _ _ _ g eq_refl) as (h2 & -> & H2). cbn [mbind option_bind insert list_insert] in *.
  eapply owns_perm with (cs' := cells p t ++ _ :: _ :: path_cells g k ++ cs) in H2; [|solve_perm].
  destruct (set_if_owns _ _ _ g _ H2 Hc) as (h3 & -> & H3). cbn [mbind option_bind].
  eapply owns_perm with (cs' := (g, _) :: (p, _) :: path_cells g k ++ cells g t ++ cs) in H3; [|solve_perm].
  destruct (rotate_owns _ _ _ _ _ _ _ _ _ _ _ Red _ H3) as (h4 & E & H4). exists h4. split; [exact E|].
  eapply owns_perm; [|exact H4]. solve_perm.
Qed.

Lemma case3_right h p g p0 x y z k t cs :
  owns h ((p, node_of p0 Red (ptr_of t) x) :: (g, node_of (up k) Black y z) :: cells p t ++ path_cells g k ++ cs) ->
  col t = Black ->
  exists h', insert_case3_right h (root_after g k) p g (ptr_of t) = Some (h', root_after p k) /\
    owns h' ((p, node_of (up k) Black g x) :: (g, node_of p Red y (ptr_of t)) :: cells g t ++ path_cells p k ++ cs).
Proof.
  intros H Hc. unfold insert_case3_right.
  destruct (set_right_owns _ _ H 1 g _ _ _ _ (ptr_of t) eq_refl) as (h1 & -> & H1). cbn [mbind option_bind].
  destruct (set_left_owns _ _ H1 0 p _ _ _ _ g eq_refl) as (h2 & -> & H2). cbn [mbind option_bind insert list_insert] in *.
  eapply owns_perm with (cs' := cells p t ++ _ :: _ :: path_cells g k ++ cs) in H2; [|solve_perm].
  destruct (set_if_owns _ _ _ g _ H2 Hc) as (h3 & -> & H3). cbn [mbind option_bind].
  eapply owns_perm with (cs' := (g, _) :: (p, _) :: path_cells g k ++ cells g t ++ cs) in H3; [|solve_perm].
  destruct (rotate_owns _ _ _ _ _ _ _ _ _ _ _ Red _ H3) as (h4 & E & H4). exists h4. split; [exact E|].
  eapply owns_perm; [|exact H4]. solve_perm.
Qed.

Lemma case2_left h a p g x r t cs :
  owns h ((a, node_of p Red (ptr_of t) r) :: (p, node_of g Red x a) :: cells a t ++ cs) -> col t = Black ->
  exists h', insert_case2_left h a p = Some (h', a, r) /\
    owns h' ((a, node_of p Red p r) :: (p, node_of a Red x (ptr_of t)) :: cells p t ++ cs).
Proof.
  intros H Hc. unfold insert_case2_left. rewrite (owns_load _ _ 1 _ _ H eq_refl). cbn [mbind option_bind node_of rb_right].
  rewrite Z.eqb_refl, (owns_load _ _ 0 _ _ H eq_refl). cbn [mbind option_bind node_of rb_left].
  destruct (set_right_owns _ _ H 1 p _ _ _ _ (ptr_of t) eq_refl) as (h1 & -> & H1). cbn [mbind option_bind].
  destruct (set_left_owns _ _ H1 0 a _ _ _ _ p eq_refl) as (h2 & -> & H2). cbn [mbind option_bind insert list_insert] in *.
  eapply owns_perm with (cs' := cells a t ++ _ :: _ :: cs) in H2; [|solve_perm].
  destruct (set_if_owns _ _ _ p _ H2 Hc) as (h3 & -> & H3). cbn [mbind option_bind].
  eapply owns_perm with (cs' := (a, _) :: (p, _) :: cells p t ++ cs) in H3; [|solve_perm].
  destruct (set_parent_color_owns _ _ H3 1 p _ _ _ _ a Red eq_refl) as (h4 & E & H4).
  rewrite E. cbn [mbind option_bind]. rewrite (owns_load _ _ 0 _ _ H4 eq_refl). by exists h4.
Qed.
Lemma case2_right h a p g x r t cs :
  owns h ((a, node_of p Red r (ptr_of t)) :: (p, node_of g Red a x) :: cells a t ++ cs) -> col t = Black ->
  exists h', insert_case2_right h a p = Some (h', a, r) /\
    owns h' ((a, node_of p Red r p) :: (p, node_of a Red (ptr_of t) x) :: cells p t ++ cs).
Proof.
  intros H Hc. unfold insert_case2_right. rewrite (owns_load _ _ 1 _ _ H eq_refl). cbn [mbind option_bind node_of rb_left].
  rewrite Z.eqb_refl, (owns_load _ _ 0 _ _ H eq_refl). cbn [mbind option_bind node_of rb_right].
  destruct (set_left_owns _ _ H 1 p _ _ _ _ (ptr_of t) eq_refl) as (h1 & -> & H1). cbn [mbind option_bind].
  destruct (set_right_owns _ _ H1 0 a _ _ _ _ p eq_refl) as (h2 & -> & H2). cbn [mbind option_bind insert list_insert] in *.
  eapply owns_perm with (cs' := cells a t ++ _ :: _ :: cs) in H2; [|solve_perm].
  destruct (set_if_owns _ _ _ p _ H2 Hc) as (h3 & -> & H3). cbn [mbind option_bind].
  eapply owns_perm with (cs' := (a, _) :: (p, _) :: cells p t ++ cs) in H3; [|solve_perm].
  destruct (set_parent_color_owns _ _ H3 1 p _ _ _ _ a Red eq_refl) as (h4 & E & H4).
  rewrite E. cbn [mbind option_bind]. rewrite (owns_load _ _ 0 _ _ H4 eq_refl). by exists h4.
Qed.

Lemma case1_flip h u p g pu cu lu ru pp cp lp rp pg cg lg rg cs :
  owns h ((u, node_of pu cu lu ru) :: (p, node_of pp cp lp rp) :: (g, node_of pg cg lg rg) :: cs) -> aligned pg ->
  exists h', insert_case1 h u p g = Some (h', g, pg) /\
    owns h' ((u, node_of g Black lu ru) :: (p, node_of g Black lp rp) :: (g, node_of pg Red lg rg) :: cs).
Proof.
  intros H Hp. unfold insert_case1.
  destruct (set_parent_color_owns _ _ H 0 u _ _ _ _ g Black eq_refl) as (h1 & -> & H1). cbn [mbind option_bind].
  destruct (set_parent_color_owns _ _ H1 1 p _ _ _ _ g Black eq_refl) as (h2 & -> & H2). cbn [mbind option_bind].
  rewrite (owns_load _ _ 2 _ _ H2 eq_refl). cbn [mbind option_bind]. rewrite word_parent by done.
  destruct (set_parent_color_owns _ _ H2 2 g _ _ _ _ pg Red eq_refl) as (h3 & -> & H3). by exists h3.
Qed.

(** ** The loop *)

(** What it leaves: a red-black tree with the nodes in this order. *)
Definition balanced (fr : list (Z * rb_node)) (order : list Z) (r : option rb_state) : Prop :=
  exists h t, r = Some (h, ptr_of t) /\ owns h (cells 0 t ++ fr) /\ rbtree t /\ inorder t = order.

Lemma balanced_plug n t k fr h order :
  owns h (cells (up k) t ++ path_cells (ptr_of t) k ++ fr) -> bal n t -> cok n k -> col t = Black \/ top_col k = Black ->
  order = inorder (plug t k) -> balanced fr order (Some (h, root_after (ptr_of t) k)).
Proof.
  intros H Ht Hk Hc ->. exists h, (plug t k). rewrite ptr_plug. split_and!; try done; [|by eapply plug_rb].
  eapply owns_perm; [|exact H]. rewrite cells_plug. by rewrite app_assoc.
Qed.

(** A red node below a red left child, with a black uncle. *)
Lemma rotate_left_side h n f p g l a r u k fr :
  frame_addr f = p -> frame_col f = Red -> bal n (sibling f) -> col (sibling f) = Black ->
  owns h (cells p (T Red l a r) ++ path_cells a (f :: FL Black g u :: k) ++ fr) ->
  bal n (T Red l a r) -> bal n u -> col u = Black -> cok (S n) k ->
  balanced fr (inorder (plug (T Red l a r) (f :: FL Black g u :: k)))
    ('(h, parent, tmp) ← insert_case2_left h a p; insert_case3_left h (root_after g k) parent g tmp).
Proof.
  intros Hp Hf Hs Hsb H Ht Hu Hub Hk. inversion Ht as [|? ? ? ? Hl Hr Hlb Hrb|]; subst.
  destruct f as [c p s|c s p]; cbn in Hf, Hs, Hsb; subst c; cbn [frame_addr] in *.
  - unfold insert_case2_left.
    eapply owns_perm with (cs' := (a, _) :: cells p s ++ (p, _) :: (g, _) :: _ ) in H; [|solve_perm].
    pose proof (ptr_distinct _ _ _ _ _ _ H) as Hne.
    eapply owns_perm with (cs' := (p, _) :: (g, _) :: cells p s ++ path_cells g k ++ (a, _) :: cells a l ++ cells a r ++ cells g u ++ fr) in H; [|solve_perm].
    rewrite (owns_load _ _ 0 _ _ H eq_refl). cbn [mbind option_bind node_of rb_right].
    rewrite (proj2 (Z.eqb_neq _ _)) by done. cbn [mbind option_bind].
    destruct (case3_left _ _ _ _ _ _ _ _ _ _ H Hsb) as (h' & -> & H').
    apply (balanced_plug (S n) (T Black (T Red l a r) p (T Red s g u))).
    + eapply owns_perm; [|exact H']. solve_perm.
    + solve_bal.
    + done.
    + by left.
    + solve_order.
  - eapply owns_perm with (cs' := (a, _) :: (p, _) :: cells a l ++ (g, _) :: cells a r ++ path_cells g k ++ cells p s ++ cells g u ++ fr) in H; [|solve_perm].
    destruct (case2_left _ _ _ _ _ _ _ _ H Hlb) as (h1 & -> & H1). cbn [mbind option_bind].
    eapply owns_perm with (cs' := (a, _) :: (g, _) :: cells a r ++ path_cells g k ++ (p, _) :: cells p l ++ cells p s ++ cells g u ++ fr) in H1; [|solve_perm].
    destruct (case3_left _ _ _ _ _ _ _ _ _ _ H1 Hrb) as (h' & -> & H').
    apply (balanced_plug (S n) (T Black (T Red s p l) a (T Red r g u))).
    + eapply owns_perm; [|exact H']. solve_perm.
    + solve_bal.
    + done.
    + by left.
    + solve_order.
Qed.

(** The mirror image. *)
Lemma rotate_right_side h n f p g l a r u k fr :
  frame_addr f = p -> frame_col f = Red -> bal n (sibling f) -> col (sibling f) = Black ->
  owns h (cells p (T Red l a r) ++ path_cells a (f :: FR Black u g :: k) ++ fr) ->
  bal n (T Red l a r) -> bal n u -> col u = Black -> cok (S n) k ->
  balanced fr (inorder (plug (T Red l a r) (f :: FR Black u g :: k)))
    ('(h, parent, tmp) ← insert_case2_right h a p; insert_case3_right h (root_after g k) parent g tmp).
Proof.
  intros Hp Hf Hs Hsb H Ht Hu Hub Hk. inversion Ht as [|? ? ? ? Hl Hr Hlb Hrb|]; subst.
  destruct f as [c p s|c s p]; cbn in Hf, Hs, Hsb; subst c; cbn [frame_addr] in *.
  - eapply owns_perm with (cs' := (a, _) :: (p, _) :: cells a r ++ (g, _) :: cells a l ++ path_cells g k ++ cells p s ++ cells g u ++ fr) in H; [|solve_perm].
    destruct (case2_right _ _ _ _ _ _ _ _ H Hrb) as (h1 & -> & H1). cbn [mbind option_bind].
    eapply owns_perm with (cs' := (a, _) :: (g, _) :: cells a l ++ path_cells g k ++ (p, _) :: cells p r ++ cells p s ++ cells g u ++ fr) in H1; [|solve_perm].
    destruct (case3_right _ _ _ _ _ _ _ _ _ _ H1 Hlb) as (h' & -> & H').
    apply (balanced_plug (S n) (T Black (T Red u g l) a (T Red r p s))).
    + eapply owns_perm; [|exact H']. solve_perm.
    + solve_bal.
    + done.
    + by left.
    + solve_order.
  - unfold insert_case2_right.
    eapply owns_perm with (cs' := (a, _) :: cells p s ++ (p, _) :: (g, _) :: _ ) in H; [|solve_perm].
    pose proof (ptr_distinct _ _ _ _ _ _ H) as Hne.
    eapply owns_perm with (cs' := (p, _) :: (g, _) :: cells p s ++ path_cells g k ++ (a, _) :: cells a l ++ cells a r ++ cells g u ++ fr) in H; [|solve_perm].
    rewrite (owns_load _ _ 0 _ _ H eq_refl). cbn [mbind option_bind node_of rb_left].
    rewrite (proj2 (Z.eqb_neq _ _)) by done. cbn [mbind option_bind].
    destruct (case3_right _ _ _ _ _ _ _ _ _ _ H Hsb) as (h' & -> & H').
    apply (balanced_plug (S n) (T Black (T Red u g s) p (T Red l a r))).
    + eapply owns_perm; [|exact H']. solve_perm.
    + solve_bal.
    + done.
    + by left.
    + solve_order.
Qed.

(** A red uncle: the colours change and the red node is now the grandparent. *)
Lemma flip_colors h n f g p l a r ul ua ur k fr :
  frame_addr f = p -> frame_col f = Red -> bal n (sibling f) -> bal n (T Red l a r) -> bal n (T Red ul ua ur) ->
  frame_col g = Black -> sibling g = T Red ul ua ur ->
  owns h (cells p (T Red l a r) ++ path_cells a (f :: g :: k) ++ fr) ->
  exists h' l' r', insert_case1 h ua p (frame_addr g) = Some (h', frame_addr g, up k) /\
    owns h' (cells (up k) (T Red l' (frame_addr g) r') ++ path_cells (frame_addr g) k ++ fr) /\
    bal (S n) (T Red l' (frame_addr g) r') /\
    inorder (plug (T Red l a r) (f :: g :: k)) = inorder (plug (T Red l' (frame_addr g) r') k).
Proof.
  intros Hp Hf Hs Ht Hu Hg Hgs H. subst p.
  pose proof (aligned_above _ _ _ _ _ _ _ H) as Hup.
  inversion Hu; subst.
  destruct f as [c p s|c s p]; cbn in Hf, Hs; subst c; destruct g as [c g u|c u g]; cbn in Hgs, Hg; subst u c; cbn [frame_addr] in *.
  - eapply owns_perm with (cs' := (ua, _) :: (p, _) :: (g, _) :: cells p (T Red l a r) ++ cells p s ++ cells ua ul ++ cells ua ur ++ path_cells g k ++ fr) in H; [|solve_perm].
    destruct (case1_flip _ _ _ _ _ _ _ _ _ _ _ _ _ _ _ _ _ H Hup) as (h' & E & H').
    exists h', (T Black (T Red l a r) p s), (T Black ul ua ur). split_and!; [exact E| |solve_bal|solve_order].
    eapply owns_perm; [|exact H']. solve_perm.
  - eapply owns_perm with (cs' := (ua, _) :: (p, _) :: (g, _) :: cells p (T Red l a r) ++ cells p s ++ cells ua ul ++ cells ua ur ++ path_cells g k ++ fr) in H; [|solve_perm].
    destruct (case1_flip _ _ _ _ _ _ _ _ _ _ _ _ _ _ _ _ _ H Hup) as (h' & E & H').
    exists h', (T Black ul ua ur), (T Black (T Red l a r) p s). split_and!; [exact E| |solve_bal|solve_order].
    eapply owns_perm; [|exact H']. solve_perm.
  - eapply owns_perm with (cs' := (ua, _) :: (p, _) :: (g, _) :: cells p (T Red l a r) ++ cells p s ++ cells ua ul ++ cells ua ur ++ path_cells g k ++ fr) in H; [|solve_perm].
    destruct (case1_flip _ _ _ _ _ _ _ _ _ _ _ _ _ _ _ _ _ H Hup) as (h' & E & H').
    exists h', (T Black s p (T Red l a r)), (T Black ul ua ur). split_and!; [exact E| |solve_bal|solve_order].
    eapply owns_perm; [|exact H']. solve_perm.
  - eapply owns_perm with (cs' := (ua, _) :: (p, _) :: (g, _) :: cells p (T Red l a r) ++ cells p s ++ cells ua ul ++ cells ua ur ++ path_cells g k ++ fr) in H; [|solve_perm].
    destruct (case1_flip _ _ _ _ _ _ _ _ _ _ _ _ _ _ _ _ _ H Hup) as (h' & E & H').
    exists h', (T Black ul ua ur), (T Black s p (T Red l a r)). split_and!; [exact E| |solve_bal|solve_order].
    eapply owns_perm; [|exact H']. solve_perm.
Qed.

Lemma root_after_cons x f k : root_after x (f :: k) = root_after (frame_addr f) k.
Proof.
  unfold root_after. destruct k as [|f' k]; [done|]. cbn [last]. destruct (last (f' :: k)) eqn:E; [done|].
  by apply last_None in E.
Qed.

(** The loop, one round unfolded. *)
Lemma insert_step h n l a r f g k fr next :
  owns h (cells (frame_addr f) (T Red l a r) ++ path_cells a (f :: g :: k) ++ fr) ->
  bal n (T Red l a r) -> frame_col f = Red -> bal n (sibling f) -> col (sibling f) = Black ->
  frame_col g = Black -> bal n (sibling g) -> cok (S n) k ->
  (forall h' l' r', owns h' (cells (up k) (T Red l' (frame_addr g) r') ++ path_cells (frame_addr g) k ++ fr) ->
     bal (S n) (T Red l' (frame_addr g) r') ->
     balanced fr (inorder (plug (T Red l' (frame_addr g) r') k)) (next h' (frame_addr g) (up k))) ->
  balanced fr (inorder (plug (T Red l a r) (f :: g :: k)))
    (let parent := frame_addr f in let gparent := frame_addr g in
     gn ← h !! gparent;
     let tmp := rb_right gn in
     if negb (parent =? tmp) then
       red ← is_red h tmp;
       if red : bool then '(h, node, parent) ← insert_case1 h tmp parent gparent; next h node parent
       else '(h, parent, tmp) ← insert_case2_left h a parent;
            insert_case3_left h (root_after (frame_addr g) k) parent gparent tmp
     else
       let tmp := rb_left gn in
       red ← is_red h tmp;
       if red : bool then '(h, node, parent) ← insert_case1 h tmp parent gparent; next h node parent
       else '(h, parent, tmp) ← insert_case2_right h a parent;
            insert_case3_right h (root_after (frame_addr g) k) parent gparent tmp).
Proof.
  intros H Ht Hf Hs Hsb Hg Hu Hk Hnext. cbv zeta.
  assert (Hcase1 : forall ul ua ur, sibling g = T Red ul ua ur ->
    balanced fr (inorder (plug (T Red l a r) (f :: g :: k)))
      ('(h, node, parent) ← insert_case1 h ua (frame_addr f) (frame_addr g); next h node parent)).
  { intros ul ua ur Eu. rewrite Eu in Hu. destruct (flip_colors h n f g _ l a r ul ua ur k fr eq_refl Hf Hs Ht Hu Hg Eu H)
      as (h' & l' & r' & -> & H' & Hb & ->). cbn [mbind option_bind]. by apply Hnext. }
  assert (Hload : exists n, owns h ((frame_addr g, n) :: cells (frame_addr g) (sibling g) ++ (frame_addr f, match f with FL c p s => node_of (up (g :: k)) c a (ptr_of s) | FR c s p => node_of (up (g :: k)) c (ptr_of s) a end) ::
      cells (frame_addr f) (T Red l a r) ++ cells (frame_addr f) (sibling f) ++ path_cells (frame_addr g) k ++ fr) /\
    n = match g with FL c g' u => node_of (up k) c (frame_addr f) (ptr_of u) | FR c u g' => node_of (up k) c (ptr_of u) (frame_addr f) end).
  { eexists. split; [|reflexivity]. eapply owns_perm; [|exact H]. destruct f, g; cbn [sibling frame_addr]; solve_perm. }
  destruct Hload as (gn & H' & Egn). rewrite (owns_load _ _ 0 _ _ H' eq_refl). cbn [mbind option_bind].
  pose proof (owns_good _ _ 0 _ _ H' eq_refl) as [_ Hga].
  pose proof (owns_app_r _ [_] _ H') as H2.
  pose proof (is_red_owns _ _ _ _ H2 Hga) as Hred.
  assert (Hne : frame_addr f <> ptr_of (sibling g)).
  { eapply ptr_distinct. eapply owns_perm; [|exact H2]. symmetry. apply Permutation_middle. }
  destruct g as [c g u|c u g]; cbn [frame_addr sibling frame_col] in *; subst c gn; cbn [node_of rb_right rb_left].
  - rewrite (proj2 (Z.eqb_neq _ _)) by done. cbn [negb]. rewrite Hred. cbn [mbind option_bind].
    destruct (col u) eqn:Ecu; [destruct u as [|[] ul ua ur]; try done; by eapply Hcase1|].
    by eapply rotate_left_side.
  - rewrite Z.eqb_refl. cbn [negb]. rewrite Hred. cbn [mbind option_bind].
    destruct (col u) eqn:Ecu; [destruct u as [|[] ul ua ur]; try done; by eapply Hcase1|].
    by eapply rotate_right_side.
Qed.

(** A red frame is below a black one. *)
Lemma cok_red n f k : cok n (f :: k) -> frame_col f = Red -> bal n (sibling f) /\ col (sibling f) = Black /\
  exists g k', k = g :: k' /\ frame_col g = Black /\ bal n (sibling g) /\ cok (S n) k'.
Proof.
  intros H Hf. inversion H as [|? ? ? Hs Hb Hk|? ? ? Hs Hsb _ Htop Hk]; subst; [congruence|]. split_and!; try done.
  destruct k as [|g k]; [done|]. exists g, k. cbn in Htop. inversion Hk; subst; [by split_and!|congruence].
Qed.

Lemma insert_loop_spec fuel h n l a r k fr :
  owns h (cells (up k) (T Red l a r) ++ path_cells a k ++ fr) -> bal n (T Red l a r) -> cok n k ->
  (length k <= 2 * fuel + 1)%nat ->
  balanced fr (inorder (plug (T Red l a r) k)) (rb_insert_loop fuel (h, root_after a k) a (up k)).
Proof.
  revert h n l a r k. induction fuel as [|fuel IH]; intros h n l a r k H Ht Hk Hfuel;
    (destruct k as [|f k];
     [inversion Ht; subst; cbn [rb_insert_loop up];
      destruct (set_parent_color_owns _ _ H 0 a _ _ _ _ 0 Black eq_refl) as (h' & E & H'); change RB_BLACK with (match Black with Red => RB_RED | Black => RB_BLACK end);
      cbn [Z.eqb]; rewrite E; cbn [mbind option_bind];
      apply (balanced_plug (S n) (T Black l a r) []); [exact H'|solve_bal|constructor|by left|done]|]);
    cbn [rb_insert_loop up];
    (assert (Hpar : exists n0, h !! frame_addr f = Some n0 /\ n0 = node_of (up k) (frame_col f) (rb_left n0) (rb_right n0) /\ frame_addr f <> 0)
      by (apply owns_app_r in H; destruct f; (eexists; split; [exact (owns_load _ _ 0 _ _ H eq_refl)|]; split; [done|apply (owns_good _ _ 0 _ _ H eq_refl)])));
    destruct Hpar as (n0 & -> & En0 & Hnz); rewrite (proj2 (Z.eqb_neq _ 0)) by done; cbn [mbind option_bind];
    (assert (Hup : aligned (up k)) by (apply owns_app_r, path_cells_tail, aligned_up in H; done));
    rewrite En0, word_black by done; (destruct (frame_col f) eqn:Ef;
      [|apply (balanced_plug n (T Red l a r) (f :: k)); [exact H|done|done|by right|done]]);
    destruct (cok_red _ _ _ Hk Ef) as (Hs & Hsb & g & k' & -> & Eg & Hu & Hk');
    unfold rb_red_parent; cbn [node_of parent_color up]; rewrite word_Red, root_after_cons, root_after_cons.
  - cbn in Hfuel. lia.
  - apply (insert_step h n l a r f g k' fr (fun h node parent => rb_insert_loop fuel (h, root_after (frame_addr g) k') node parent)); try done.
    intros h' l' r' H' Hb. apply (IH _ (S n)); try done. cbn in Hfuel. lia.
Qed.

(** ** Linking a new node *)

Definition link_of (k : path) : rb_link :=
  match k with [] => LinkRoot | FL _ p _ :: _ => LinkLeft p | FR _ _ p :: _ => LinkRight p end.

Lemma link_spec h node k fr :
  owns h (cells 0 (plug E k) ++ fr) -> good_addr node -> node ∉ (cells 0 (plug E k) ++ fr).*1 ->
  exists h', rb_link_node node (up k) (link_of k) (h, ptr_of (plug E k)) = Some (h', root_after node k) /\
    owns h' (cells (up k) (T Red E node E) ++ path_cells node k ++ fr).
Proof.
  intros H Hg Hnew. rewrite ptr_plug.
  assert (H1 : owns (<[node := mkNode (up k) 0 0]> h) ((node, node_of (up k) Red 0 0) :: path_cells 0 k ++ fr)).
  { assert (Ep : cells 0 (plug E k) ++ fr ≡ₚ path_cells 0 k ++ fr) by (by rewrite cells_plug).
    assert (Hn' : node ∉ (path_cells 0 k ++ fr).*1) by (by rewrite <- Ep).
    eapply owns_perm in H; [|exact Ep]. destruct H as [O1 O2 O3]. split.
    - cbn. by constructor.
    - cbn. by constructor.
    - intros a n [[= -> ->]|Hin]%elem_of_cons; [rewrite lookup_insert_eq; unfold node_of; by rewrite word_Red|].
      rewrite lookup_insert_ne; [by apply O3|]. intros <-. apply Hn'. by apply (list_elem_of_fmap_2 fst) in Hin. }
  unfold rb_link_node. destruct k as [|[c a r|c l a] k]; cbn [link_of up frame_addr path_cells app] in *.
  - eexists. split; [reflexivity|]. exact H1.
  - destruct (set_left_owns _ _ H1 1 a _ _ _ _ node eq_refl) as (h' & -> & H'). exists h'.
    rewrite !root_after_cons. split; [done|exact H'].
  - destruct (set_right_owns _ _ H1 1 a _ _ _ _ node eq_refl) as (h' & -> & H'). exists h'.
    rewrite !root_after_cons. split; [done|exact H'].
Qed.

(** Link a node at a hole and rebalance, as every user of the trees does. *)
Definition rb_insert (fuel : nat) (node : Z) (k : path) (s : rb_state) : option rb_state :=
  s ← rb_link_node node (up k) (link_of k) s; rb_insert_color fuel node s.

Lemma rb_insert_spec fuel h node k fr :
  owns h (cells 0 (plug E k) ++ fr) -> rbtree (plug E k) -> good_addr node -> node ∉ (cells 0 (plug E k) ++ fr).*1 ->
  (length k <= 2 * fuel + 1)%nat ->
  balanced fr (before k ++ node :: after k) (rb_insert fuel node k (h, ptr_of (plug E k))).
Proof.
  intros H Hrb Hg Hnew Hf. unfold rb_insert. destruct (link_spec h node k fr H Hg Hnew) as (h' & -> & H'). cbn [mbind option_bind].
  unfold rb_insert_color. cbn [fst]. rewrite (owns_load _ _ 0 _ _ H' eq_refl). cbn [mbind option_bind].
  unfold rb_red_parent. cbn [node_of parent_color]. rewrite word_Red.
  destruct (unplug _ _ Hrb) as (n & Hn & Hk & _). inversion Hn; subst.
  pose proof (insert_loop_spec fuel h' 0 E node E k fr H') as Hi. rewrite inorder_plug in Hi. apply Hi; [solve_bal|done|done].
Qed.
