(* ===== verification/RbtreeErase.v ===== *)
(** * Removal from red-black trees

    [rb_erase] takes a node out of the tree and [rb_erase_loop] restores the balance
    where a black node is missing, on the nodes in memory. *)

From Stdlib Require Import ZArith Lia Bool.
From stdpp Require Import base numbers gmap list.
From S2P Require Import Prelude Rbtree RbtreeSpec RbtreeInsert.
Open Scope Z_scope.

(** ** Rotations *)

Lemma erase1_left h p s pp x y k t cs :
  owns h ((p, node_of (up k) Black x pp) :: (s, node_of p Red (ptr_of t) y) :: cells s t ++ path_cells p k ++ cs) ->
  t <> E -> col t = Black ->
  exists h', erase_case1_left (h, root_after p k) p s = Some (h', root_after s k, ptr_of t) /\
    owns h' ((p, node_of s Red x (ptr_of t)) :: (s, node_of (up k) Black p y) :: cells p t ++ path_cells s k ++ cs).
Proof.
  intros H Ht Hc. unfold erase_case1_left. rewrite (owns_load _ _ 1 _ _ H eq_refl). cbn [mbind option_bind].
  rewrite word_red by apply (owns_good _ _ 0 _ _ H eq_refl). cbn [node_of rb_left].
  destruct (set_right_owns _ _ H 0 p _ _ _ _ (ptr_of t) eq_refl) as (h1 & -> & H1). cbn [mbind option_bind].
  destruct (set_left_owns _ _ H1 1 s _ _ _ _ p eq_refl) as (h2 & -> & H2). cbn [mbind option_bind insert list_insert] in *.
  destruct t as [|c tl ta tr]; [done|]. cbn in Hc. subst c. cbn [ptr_of cells app] in *.
  destruct (set_parent_color_owns _ _ H2 2 ta _ _ _ _ p Black eq_refl) as (h3 & E & H3). cbn [insert list_insert] in *.
  rewrite E. cbn [mbind option_bind]. clear E.
  eapply owns_perm with (cs' := (p, _) :: (s, _) :: path_cells p k ++ cells p (T Black tl ta tr) ++ cs) in H3; [|solve_perm].
  destruct (rotate_owns _ _ _ _ _ _ _ _ _ _ _ Red _ H3) as (h4 & E & H4). rewrite E. exists h4. split; [done|].
  eapply owns_perm; [|exact H4]. solve_perm.
Qed.
Lemma erase1_right h p s pp x y k t cs :
  owns h ((p, node_of (up k) Black pp x) :: (s, node_of p Red y (ptr_of t)) :: cells s t ++ path_cells p k ++ cs) ->
  t <> E -> col t = Black ->
  exists h', erase_case1_right (h, root_after p k) p s = Some (h', root_after s k, ptr_of t) /\
    owns h' ((p, node_of s Red (ptr_of t) x) :: (s, node_of (up k) Black y p) :: cells p t ++ path_cells s k ++ cs).
Proof.
  intros H Ht Hc. unfold erase_case1_right. rewrite (owns_load _ _ 1 _ _ H eq_refl). cbn [mbind option_bind].
  rewrite word_red by apply (owns_good _ _ 0 _ _ H eq_refl). cbn [node_of rb_right].
  destruct (set_left_owns _ _ H 0 p _ _ _ _ (ptr_of t) eq_refl) as (h1 & -> & H1). cbn [mbind option_bind].
  destruct (set_right_owns _ _ H1 1 s _ _ _ _ p eq_refl) as (h2 & -> & H2). cbn [mbind option_bind insert list_insert] in *.
  destruct t as [|c tl ta tr]; [done|]. cbn in Hc. subst c. cbn [ptr_of cells app] in *.
  destruct (set_parent_color_owns _ _ H2 2 ta _ _ _ _ p Black eq_refl) as (h3 & E & H3). cbn [insert list_insert] in *.
  rewrite E. cbn [mbind option_bind]. clear E.
  eapply owns_perm with (cs' := (p, _) :: (s, _) :: path_cells p k ++ cells p (T Black tl ta tr) ++ cs) in H3; [|solve_perm].
  destruct (rotate_owns _ _ _ _ _ _ _ _ _ _ _ Red _ H3) as (h4 & E & H4). rewrite E. exists h4. split; [done|].
  eapply owns_perm; [|exact H4]. solve_perm.
Qed.

Lemma erase3_left h p s b pp c x y l t cs :
  owns h ((p, node_of pp c x s) :: (s, node_of p Black b y) :: (b, node_of s Red l (ptr_of t)) :: cells b t ++ cs) ->
  col t = Black ->
  exists h', erase_case3_left h p s b = Some h' /\
    owns h' ((p, node_of pp c x b) :: (s, node_of p Black (ptr_of t) y) :: (b, node_of s Red l s) :: cells s t ++ cs).
Proof.
  intros H Hc. unfold erase_case3_left. rewrite (owns_load _ _ 2 _ _ H eq_refl). cbn [mbind option_bind node_of rb_right].
  destruct (set_left_owns _ _ H 1 s _ _ _ _ (ptr_of t) eq_refl) as (h1 & -> & H1). cbn [mbind option_bind].
  destruct (set_right_owns _ _ H1 2 b _ _ _ _ s eq_refl) as (h2 & -> & H2). cbn [mbind option_bind].
  destruct (set_right_owns _ _ H2 0 p _ _ _ _ b eq_refl) as (h3 & -> & H3). cbn [mbind option_bind insert list_insert] in *.
  eapply owns_perm with (cs' := cells b t ++ (p, _) :: (s, _) :: (b, _) :: cs) in H3; [|solve_perm].
  destruct (set_if_owns _ _ _ s _ H3 Hc) as (h4 & E & H4). exists h4. split; [exact E|].
  eapply owns_perm; [|exact H4]. solve_perm.
Qed.
Lemma erase3_right h p s b pp c x y l t cs :
  owns h ((p, node_of pp c s x) :: (s, node_of p Black y b) :: (b, node_of s Red (ptr_of t) l) :: cells b t ++ cs) ->
  col t = Black ->
  exists h', erase_case3_right h p s b = Some h' /\
    owns h' ((p, node_of pp c b x) :: (s, node_of p Black y (ptr_of t)) :: (b, node_of s Red s l) :: cells s t ++ cs).
Proof.
  intros H Hc. unfold erase_case3_right. rewrite (owns_load _ _ 2 _ _ H eq_refl). cbn [mbind option_bind node_of rb_left].
  destruct (set_right_owns _ _ H 1 s _ _ _ _ (ptr_of t) eq_refl) as (h1 & -> & H1). cbn [mbind option_bind].
  destruct (set_left_owns _ _ H1 2 b _ _ _ _ s eq_refl) as (h2 & -> & H2). cbn [mbind option_bind].
  destruct (set_left_owns _ _ H2 0 p _ _ _ _ b eq_refl) as (h3 & -> & H3). cbn [mbind option_bind insert list_insert] in *.
  eapply owns_perm with (cs' := cells b t ++ (p, _) :: (s, _) :: (b, _) :: cs) in H3; [|solve_perm].
  destruct (set_if_owns _ _ _ s _ H3 Hc) as (h4 & E & H4). exists h4. split; [exact E|].
  eapply owns_perm; [|exact H4]. solve_perm.
Qed.

Lemma erase4_left h p s z c x r ps c2 y pz cz lz rz k t cs :
  owns h ((p, node_of (up k) c x r) :: (s, node_of ps c2 (ptr_of t) y) :: (z, node_of pz cz lz rz) ::
    cells s t ++ path_cells p k ++ cs) ->
  exists h', erase_case4_left h (root_after p k) p s z = Some (h', root_after s k) /\
    owns h' ((p, node_of s Black x (ptr_of t)) :: (s, node_of (up k) c p y) :: (z, node_of s Black lz rz) ::
      cells p t ++ path_cells s k ++ cs).
Proof.
  intros H. unfold erase_case4_left. rewrite (owns_load _ _ 1 _ _ H eq_refl). cbn [mbind option_bind node_of rb_left].
  pose proof (owns_good _ _ 1 _ _ H eq_refl) as [_ Hs].
  destruct (set_right_owns _ _ H 0 p _ _ _ _ (ptr_of t) eq_refl) as (h1 & -> & H1). cbn [mbind option_bind].
  destruct (set_left_owns _ _ H1 1 s _ _ _ _ p eq_refl) as (h2 & -> & H2). cbn [mbind option_bind].
  destruct (set_parent_color_owns _ _ H2 2 z _ _ _ _ s Black eq_refl) as (h3 & E & H3). cbn [insert list_insert] in *.
  rewrite E. cbn [mbind option_bind]. clear E.
  eapply owns_perm with (cs' := cells s t ++ (p, _) :: (s, _) :: (z, _) :: path_cells p k ++ cs) in H3; [|solve_perm].
  destruct (set_parent_if_owns _ _ _ p _ H3 Hs) as (h4 & -> & H4). cbn [mbind option_bind].
  eapply owns_perm with (cs' := (p, _) :: (s, _) :: path_cells p k ++ (z, _) :: cells p t ++ cs) in H4; [|solve_perm].
  destruct (rotate_owns _ _ _ _ _ _ _ _ _ _ _ Black _ H4) as (h5 & E & H5). exists h5. split; [exact E|].
  eapply owns_perm; [|exact H5]. solve_perm.
Qed.
Lemma erase4_right h p s z c x r ps c2 y pz cz lz rz k t cs :
  owns h ((p, node_of (up k) c r x) :: (s, node_of ps c2 y (ptr_of t)) :: (z, node_of pz cz lz rz) ::
    cells s t ++ path_cells p k ++ cs) ->
  exists h', erase_case4_right h (root_after p k) p s z = Some (h', root_after s k) /\
    owns h' ((p, node_of s Black (ptr_of t) x) :: (s, node_of (up k) c y p) :: (z, node_of s Black lz rz) ::
      cells p t ++ path_cells s k ++ cs).
Proof.
  intros H. unfold erase_case4_right. rewrite (owns_load _ _ 1 _ _ H eq_refl). cbn [mbind option_bind node_of rb_right].
  pose proof (owns_good _ _ 1 _ _ H eq_refl) as [_ Hs].
  destruct (set_left_owns _ _ H 0 p _ _ _ _ (ptr_of t) eq_refl) as (h1 & -> & H1). cbn [mbind option_bind].
  destruct (set_right_owns _ _ H1 1 s _ _ _ _ p eq_refl) as (h2 & -> & H2). cbn [mbind option_bind].
  destruct (set_parent_color_owns _ _ H2 2 z _ _ _ _ s Black eq_refl) as (h3 & E & H3). cbn [insert list_insert] in *.
  rewrite E. cbn [mbind option_bind]. clear E.
  eapply owns_perm with (cs' := cells s t ++ (p, _) :: (s, _) :: (z, _) :: path_cells p k ++ cs) in H3; [|solve_perm].
  destruct (set_parent_if_owns _ _ _ p _ H3 Hs) as (h4 & -> & H4). cbn [mbind option_bind].
  eapply owns_perm with (cs' := (p, _) :: (s, _) :: path_cells p k ++ (z, _) :: cells p t ++ cs) in H4; [|solve_perm].
  destruct (rotate_owns _ _ _ _ _ _ _ _ _ _ _ Black _ H4) as (h5 & E & H5). exists h5. split; [exact E|].
  eapply owns_perm; [|exact H5]. solve_perm.
Qed.

(** ** A black sibling *)

(** Trees of full height that take the place of a frame. *)
Lemma cok_replace n f k A b B : cok (S n) (f :: k) -> bal (S n) A -> bal (S n) B -> col A = Black -> col B = Black ->
  exists m, bal m (T (frame_col f) A b B) /\ cok m k /\ (col (T (frame_col f) A b B) = Black \/ top_col k = Black).
Proof.
  intros Hk HA HB HcA HcB. inversion Hk as [|? ? ? Hs Hf Hk'|? ? ? Hs Hsb Hf Htop Hk']; subst; rewrite Hf.
  - exists (S (S n)). split_and!; [solve_bal|done|by left].
  - exists (S n). split_and!; [solve_bal|done|by right].
Qed.

Lemma erase2_red h p s pp lp rp ls rs ps cs :
  owns h ((p, node_of pp Red lp rp) :: (s, node_of ps Black ls rs) :: cs) -> aligned pp ->
  exists h', erase_case2 h p s = Some (h', 0, 0) /\
    owns h' ((p, node_of pp Black lp rp) :: (s, node_of p Red ls rs) :: cs).
Proof.
  intros H Hp. unfold erase_case2.
  destruct (set_parent_color_owns _ _ H 1 s _ _ _ _ p Red eq_refl) as (h1 & E & H1). rewrite E. cbn [mbind option_bind]. clear E.
  rewrite (owns_load _ _ 0 _ _ H1 eq_refl). cbn [mbind option_bind]. rewrite word_red by done.
  destruct (set_black_owns _ _ H1 0 p _ _ _ eq_refl) as (h2 & -> & H2). by exists h2.
Qed.
Lemma erase2_black h p s pp lp rp ls rs ps cs :
  owns h ((p, node_of pp Black lp rp) :: (s, node_of ps Black ls rs) :: cs) -> aligned pp ->
  exists h', erase_case2 h p s = Some (h', p, pp) /\
    owns h' ((p, node_of pp Black lp rp) :: (s, node_of p Red ls rs) :: cs).
Proof.
  intros H Hp. unfold erase_case2.
  destruct (set_parent_color_owns _ _ H 1 s _ _ _ _ p Red eq_refl) as (h1 & E & H1). rewrite E. cbn [mbind option_bind]. clear E.
  rewrite (owns_load _ _ 0 _ _ H1 eq_refl). cbn [mbind option_bind]. rewrite word_red, word_parent by done. by exists h1.
Qed.

(** Case 2 on either side: the subtree at the parent is one black node short. *)
Lemma flip_sibling h n p s c lp rp ls rs ps k cs t fr order next :
  owns h ((p, node_of (up k) c lp rp) :: (s, node_of ps Black ls rs) :: path_cells p k ++ cs) ->
  (forall c', (p, node_of (up k) c' lp rp) :: (s, node_of p Red ls rs) :: path_cells p k ++ cs ≡ₚ
     cells (up k) (t c') ++ path_cells p k ++ fr) ->
  (forall c', ptr_of (t c') = p) -> bal (S n) (t Black) -> col (t Black) = Black ->
  match c with Red => cok (S n) k | Black => cok (S (S n)) k end ->
  (forall h', c = Black -> k <> [] -> owns h' (cells (up k) (t Black) ++ path_cells p k ++ fr) ->
     balanced fr order (next h' p (up k))) ->
  order = inorder (plug (t Black) k) ->
  balanced fr order
    ('(h, node, parent) ← erase_case2 h p s;
     if negb (parent =? 0) then next h node parent else Some (h, root_after p k)).
Proof.
  intros H Ht Hptr Hb Hc Hk Hnext Ho.
  assert (Hup : aligned (up k) /\ (up k = 0 -> k = [])).
  { eapply (up_good h k p). apply (owns_app_r _ [_; _]) in H. exact H. }
  destruct Hup as [Hal Hnil]. destruct c.
  - destruct (erase2_red _ _ _ _ _ _ _ _ _ _ H Hal) as (h' & -> & H'). cbn [mbind option_bind Z.eqb negb].
    rewrite <- (Hptr Black). apply (balanced_plug (S n)); try done; [|by left].
    rewrite Hptr. eapply owns_perm; [apply Ht|exact H'].
  - destruct (erase2_black _ _ _ _ _ _ _ _ _ _ H Hal) as (h' & -> & H'). cbn [mbind option_bind].
    eapply owns_perm in H'; [|apply Ht]. destruct (Z.eqb_spec (up k) 0) as [E|E]; cbn [negb].
    + rewrite (Hnil E) in *. rewrite <- (Hptr Black). apply (balanced_plug (S n)); try done; [constructor|by left].
    + apply Hnext; try done. by intros ->.
Qed.

(** Case 1 leaves a black sibling alone. *)
Lemma erase1_left_black h root p s pp l r i cs : owns h cs -> cs !! i = Some (s, node_of pp Black l r) -> aligned pp ->
  erase_case1_left (h, root) p s = Some (h, root, s).
Proof. intros H Hi Hp. unfold erase_case1_left. rewrite (owns_load _ _ _ _ _ H Hi). cbn [mbind option_bind]. by rewrite word_red. Qed.
Lemma erase1_right_black h root p s pp l r i cs : owns h cs -> cs !! i = Some (s, node_of pp Black l r) -> aligned pp ->
  erase_case1_right (h, root) p s = Some (h, root, s).
Proof. intros H Hi Hp. unfold erase_case1_right. rewrite (owns_load _ _ _ _ _ H Hi). cbn [mbind option_bind]. by rewrite word_red. Qed.

Section sides.
Context (n : nat) (x : tree) (fr : list (Z * rb_node)) (Hx : bal n x).

(** The rest of a round when the sibling [s] of the short subtree [x] is black. *)
Lemma black_sibling_left h c p sl s sr k next :
  owns h (cells p x ++ path_cells (ptr_of x) (FL c p (T Black sl s sr) :: k) ++ fr) ->
  cok (S n) (FL c p (T Black sl s sr) :: k) ->
  (forall h' t, c = Black -> k <> [] -> owns h' (cells (up k) t ++ path_cells p k ++ fr) -> ptr_of t = p ->
     bal (S n) t -> col t = Black -> cok (S (S n)) k ->
     balanced fr (inorder (plug t k)) (next h' p (up k))) ->
  balanced fr (inorder (plug x (FL c p (T Black sl s sr) :: k)))
    (sn ← h !! s;
     let tmp1 := rb_right sn in
     red1 ← is_red h tmp1;
     if negb red1 then
       let tmp2 := rb_left sn in
       red2 ← is_red h tmp2;
       if negb red2 then
         '(h, node, parent) ← erase_case2 h p s;
         if negb (parent =? 0) then next h node parent else Some (h, root_after p k)
       else
         h ← erase_case3_left h p s tmp2;
         erase_case4_left h (root_after p k) p tmp2 s
     else erase_case4_left h (root_after p k) p s tmp1).
Proof.
  intros H Hk Hnext.
  assert (Hs : bal n sl /\ bal n sr).
  { inversion Hk as [|? ? ? Hs _ _|? ? ? Hs _ _ _ _]; subst; cbn in Hs; inversion Hs; by subst. }
  destruct Hs as [Hsl Hsr].
  eapply owns_perm with (cs' := (s, _) :: cells s sr ++ cells s sl ++ (p, _) :: cells p x ++ path_cells p k ++ fr) in H; [|solve_perm].
  rewrite (owns_load _ _ 0 _ _ H eq_refl). cbn [mbind option_bind node_of rb_right rb_left].
  pose proof (owns_good _ _ 0 _ _ H eq_refl) as [_ Hal].
  rewrite (is_red_owns _ _ _ _ (owns_app_r _ [_] _ H) Hal). cbn [mbind option_bind].
  rewrite (is_red_owns _ _ _ _ (owns_app_r _ _ _ (owns_app_r _ [_] _ H)) Hal). cbn [mbind option_bind].
  destruct (col sr) eqn:Ecr; cbn [negb].
  - (* case 4 *)
    destruct sr as [|[] sr1 z sr2]; try done. inversion Hsr; subst. cbn [ptr_of].
    eapply owns_perm with (cs' := (p, _) :: (s, _) :: (z, _) :: cells s sl ++ path_cells p k ++ cells z sr1 ++ cells z sr2 ++ cells p x ++ fr) in H; [|solve_perm].
    destruct (erase4_left _ _ _ _ _ _ _ _ _ _ _ _ _ _ _ _ _ H) as (h' & -> & H').
    destruct (cok_replace n _ k (T Black x p sl) s (T Black sr1 z sr2) Hk) as (m & Hb & Hm & Hc); [solve_bal..|].
    eapply (balanced_plug m (T c (T Black x p sl) s (T Black sr1 z sr2))); try done; [|solve_order].
    eapply owns_perm; [|exact H']. solve_perm.
  - destruct (col sl) eqn:Ecl; cbn [negb].
    + (* case 3 *)
      destruct sl as [|[] sl1 b sl2]; try done. inversion Hsl; subst. cbn [ptr_of].
      eapply owns_perm with (cs' := (p, _) :: (s, _) :: (b, _) :: cells b sl2 ++ cells b sl1 ++ path_cells p k ++ cells s sr ++ cells p x ++ fr) in H; [|solve_perm].
      destruct (erase3_left _ _ _ _ _ _ _ _ _ _ _ H) as (h1 & -> & H1); [done|]. cbn [mbind option_bind].
      eapply owns_perm with (cs' := (p, _) :: (b, _) :: (s, _) :: cells b sl1 ++ path_cells p k ++ cells s sl2 ++ cells s sr ++ cells p x ++ fr) in H1; [|solve_perm].
      destruct (erase4_left _ _ _ _ _ _ _ _ _ _ _ _ _ _ _ _ _ H1) as (h' & -> & H').
      destruct (cok_replace n _ k (T Black x p sl1) b (T Black sl2 s sr) Hk) as (m & Hb & Hm & Hc); [solve_bal..|].
      eapply (balanced_plug m (T c (T Black x p sl1) b (T Black sl2 s sr))); try done; [|solve_order].
      eapply owns_perm; [|exact H']. solve_perm.
    + (* case 2 *)
      eapply owns_perm with (cs' := (p, _) :: (s, _) :: path_cells p k ++ cells p x ++ cells s sl ++ cells s sr ++ fr) in H; [|solve_perm].
      eapply (flip_sibling h n p s c _ _ _ _ _ k _ (fun c => T c x p (T Red sl s sr)) fr); [exact H| | | | | | |].
      * intros c'. solve_perm.
      * done.
      * solve_bal.
      * done.
      * inversion Hk as [|? ? ? _ Hf Hk'|? ? ? _ _ Hf _ Hk']; subst; cbn in Hf; by subst c.
      * intros h' -> Hne H'.
        assert (Eo : inorder (plug x (FL Black p (T Black sl s sr) :: k)) = inorder (plug (T Black x p (T Red sl s sr)) k)) by solve_order.
        rewrite Eo. apply Hnext; try done; [solve_bal|]. inversion Hk; subst; [done|]. done.
      * solve_order.
Qed.

(** The mirror image. *)
Lemma black_sibling_right h c p sl s sr k next :
  owns h (cells p x ++ path_cells (ptr_of x) (FR c (T Black sl s sr) p :: k) ++ fr) ->
  cok (S n) (FR c (T Black sl s sr) p :: k) ->
  (forall h' t, c = Black -> k <> [] -> owns h' (cells (up k) t ++ path_cells p k ++ fr) -> ptr_of t = p ->
     bal (S n) t -> col t = Black -> cok (S (S n)) k ->
     balanced fr (inorder (plug t k)) (next h' p (up k))) ->
  balanced fr (inorder (plug x (FR c (T Black sl s sr) p :: k)))
    (sn ← h !! s;
     let tmp1 := rb_left sn in
     red1 ← is_red h tmp1;
     if negb red1 then
       let tmp2 := rb_right sn in
       red2 ← is_red h tmp2;
       if negb red2 then
         '(h, node, parent) ← erase_case2 h p s;
         if negb (parent =? 0) then next h node parent else Some (h, root_after p k)
       else
         h ← erase_case3_right h p s tmp2;
         erase_case4_right h (root_after p k) p tmp2 s
     else erase_case4_right h (root_after p k) p s tmp1).
Proof.
  intros H Hk Hnext.
  assert (Hs : bal n sl /\ bal n sr).
  { inversion Hk as [|? ? ? Hs _ _|? ? ? Hs _ _ _ _]; subst; cbn in Hs; inversion Hs; by subst. }
  destruct Hs as [Hsl Hsr].
  eapply owns_perm with (cs' := (s, _) :: cells s sl ++ cells s sr ++ (p, _) :: cells p x ++ path_cells p k ++ fr) in H; [|solve_perm].
  rewrite (owns_load _ _ 0 _ _ H eq_refl). cbn [mbind option_bind node_of rb_right rb_left].
  pose proof (owns_good _ _ 0 _ _ H eq_refl) as [_ Hal].
  rewrite (is_red_owns _ _ _ _ (owns_app_r _ [_] _ H) Hal). cbn [mbind option_bind].
  rewrite (is_red_owns _ _ _ _ (owns_app_r _ _ _ (owns_app_r _ [_] _ H)) Hal). cbn [mbind option_bind].
  destruct (col sl) eqn:Ecl; cbn [negb].
  - (* case 4 *)
    destruct sl as [|[] sl1 z sl2]; try done. inversion Hsl; subst. cbn [ptr_of].
    eapply owns_perm with (cs' := (p, _) :: (s, _) :: (z, _) :: cells s sr ++ path_cells p k ++ cells z sl1 ++ cells z sl2 ++ cells p x ++ fr) in H; [|solve_perm].
    destruct (erase4_right _ _ _ _ _ _ _ _ _ _ _ _ _ _ _ _ _ H) as (h' & -> & H').
    destruct (cok_replace n _ k (T Black sl1 z sl2) s (T Black sr p x) Hk) as (m & Hb & Hm & Hc); [solve_bal..|].
    eapply (balanced_plug m (T c (T Black sl1 z sl2) s (T Black sr p x))); try done; [|solve_order].
    eapply owns_perm; [|exact H']. solve_perm.
  - destruct (col sr) eqn:Ecr; cbn [negb].
    + (* case 3 *)
      destruct sr as [|[] sr1 b sr2]; try done. inversion Hsr; subst. cbn [ptr_of].
      eapply owns_perm with (cs' := (p, _) :: (s, _) :: (b, _) :: cells b sr1 ++ cells b sr2 ++ path_cells p k ++ cells s sl ++ cells p x ++ fr) in H; [|solve_perm].
      destruct (erase3_right _ _ _ _ _ _ _ _ _ _ _ H) as (h1 & -> & H1); [done|]. cbn [mbind option_bind].
      eapply owns_perm with (cs' := (p, _) :: (b, _) :: (s, _) :: cells b sr2 ++ path_cells p k ++ cells s sr1 ++ cells s sl ++ cells p x ++ fr) in H1; [|solve_perm].
      destruct (erase4_right _ _ _ _ _ _ _ _ _ _ _ _ _ _ _ _ _ H1) as (h' & -> & H').
      destruct (cok_replace n _ k (T Black sl s sr1) b (T Black sr2 p x) Hk) as (m & Hb & Hm & Hc); [solve_bal..|].
      eapply (balanced_plug m (T c (T Black sl s sr1) b (T Black sr2 p x))); try done; [|solve_order].
      eapply owns_perm; [|exact H']. solve_perm.
    + (* case 2 *)
      eapply owns_perm with (cs' := (p, _) :: (s, _) :: path_cells p k ++ cells p x ++ cells s sl ++ cells s sr ++ fr) in H; [|solve_perm].
      eapply (flip_sibling h n p s c _ _ _ _ _ k _ (fun c => T c (T Red sl s sr) p x) fr); [exact H| | | | | | |].
      * intros c'. solve_perm.
      * done.
      * solve_bal.
      * done.
      * inversion Hk as [|? ? ? _ Hf Hk'|? ? ? _ _ Hf _ Hk']; subst; cbn in Hf; by subst c.
      * intros h' -> Hne H'.
        assert (Eo : inorder (plug x (FR Black (T Black sl s sr) p :: k)) = inorder (plug (T Black (T Red sl s sr) p x) k)) by solve_order.
        rewrite Eo. apply Hnext; try done; [solve_bal|]. inversion Hk; subst; [done|]. done.
      * solve_order.
Qed.

(** Case 1, a red sibling: the rotation brings a black one. *)
Lemma rotate_red_left h p sl s sr k :
  owns h (cells p x ++ path_cells (ptr_of x) (FL Black p (T Red sl s sr) :: k) ++ fr) ->
  cok (S n) (FL Black p (T Red sl s sr) :: k) ->
  exists h' l a r, sl = T Black l a r /\
    erase_case1_left (h, root_after p k) p s = Some (h', root_after s k, a) /\
    owns h' (cells p x ++ path_cells (ptr_of x) (FL Red p sl :: FL Black s sr :: k) ++ fr) /\
    cok (S n) (FL Red p sl :: FL Black s sr :: k).
Proof.
  intros H Hk. inversion Hk as [|? ? ? Hs _ Hk'|? ? ? _ Hc _ _ _]; subst; [cbn in Hs|done].
  inversion Hs as [|? ? ? ? Hl Hr Hcl Hcr|]; subst.
  destruct sl as [|[] l a r]; [inversion Hl|done|].
  eapply owns_perm with (cs' := (p, _) :: (s, _) :: cells s (T Black l a r) ++ path_cells p k ++ cells p x ++ cells s sr ++ fr) in H; [|solve_perm].
  destruct (erase1_left _ _ _ _ _ _ _ (T Black l a r) _ H) as (h' & E & H'); [done..|].
  exists h', l, a, r. split_and!; [done|exact E| |].
  - eapply owns_perm; [|exact H']. solve_perm.
  - apply cok_R; try done. by apply cok_B.
Qed.
Lemma rotate_red_right h p sl s sr k :
  owns h (cells p x ++ path_cells (ptr_of x) (FR Black (T Red sl s sr) p :: k) ++ fr) ->
  cok (S n) (FR Black (T Red sl s sr) p :: k) ->
  exists h' l a r, sr = T Black l a r /\
    erase_case1_right (h, root_after p k) p s = Some (h', root_after s k, a) /\
    owns h' (cells p x ++ path_cells (ptr_of x) (FR Red sr p :: FR Black sl s :: k) ++ fr) /\
    cok (S n) (FR Red sr p :: FR Black sl s :: k).
Proof.
  intros H Hk. inversion Hk as [|? ? ? Hs _ Hk'|? ? ? _ Hc _ _ _]; subst; [cbn in Hs|done].
  inversion Hs as [|? ? ? ? Hl Hr Hcl Hcr|]; subst.
  destruct sr as [|[] l a r]; [inversion Hr|done|].
  eapply owns_perm with (cs' := (p, _) :: (s, _) :: cells s (T Black l a r) ++ path_cells p k ++ cells p x ++ cells s sl ++ fr) in H; [|solve_perm].
  destruct (erase1_right _ _ _ _ _ _ _ (T Black l a r) _ H) as (h' & E & H'); [done..|].
  exists h', l, a, r. split_and!; [done|exact E| |].
  - eapply owns_perm; [|exact H']. solve_perm.
  - apply cok_R; try done. by apply cok_B.
Qed.
(** One round of the loop on this side. *)
Lemma erase_step_left h c p sb k next :
  owns h (cells p x ++ path_cells (ptr_of x) (FL c p sb :: k) ++ fr) -> cok (S n) (FL c p sb :: k) ->
  (forall h' t, c = Black -> k <> [] -> owns h' (cells (up k) t ++ path_cells p k ++ fr) -> ptr_of t = p ->
     bal (S n) t -> col t = Black -> cok (S (S n)) k ->
     balanced fr (inorder (plug t k)) (next (h', root_after p k) p (up k))) ->
  balanced fr (inorder (plug x (FL c p sb :: k)))
    ('(h, root, sibling) ← erase_case1_left (h, root_after p k) p (ptr_of sb);
     sn ← h !! sibling;
     let tmp1 := rb_right sn in
     red1 ← is_red h tmp1;
     if negb red1 then
       let tmp2 := rb_left sn in
       red2 ← is_red h tmp2;
       if negb red2 then
         '(h, node, parent) ← erase_case2 h p sibling;
         if negb (parent =? 0) then next (h, root) node parent else Some (h, root)
       else
         h ← erase_case3_left h p sibling tmp2;
         erase_case4_left h root p tmp2 sibling
     else erase_case4_left h root p sibling tmp1).
Proof.
  intros H Hk Hnext.
  destruct sb as [|[] sl s sr]; [inversion Hk as [|? ? ? Hs _ _|? ? ? Hs _ _ _ _]; subst; inversion Hs|..]; cbn [ptr_of].
  - assert (c = Black) as -> by (inversion Hk; subst; done).
    destruct (rotate_red_left h p sl s sr k H Hk) as (h' & l & a & r & -> & E & H' & Hk').
    rewrite E. cbn [mbind option_bind].
    replace (inorder _) with (inorder (plug x (FL Red p (T Black l a r) :: FL Black s sr :: k))) by solve_order.
    replace (root_after s k) with (root_after p (FL Black s sr :: k)) by apply root_after_cons.
    apply (black_sibling_left h' Red p l a r _ (fun h => next (h, _))); done.
  - pose proof H as H0.
    eapply owns_perm with (cs' := (p, _) :: (s, _) :: cells s sl ++ cells s sr ++ cells p x ++ path_cells p k ++ fr) in H0; [|solve_perm].
    erewrite (erase1_left_black _ _ _ _ _ _ _ 1 _ H0 eq_refl) by apply (owns_good _ _ 0 _ _ H0 eq_refl). cbn [mbind option_bind].
    apply (black_sibling_left h c p sl s sr k (fun h => next (h, _))); done.
Qed.

(** One round of the loop on this side. *)
Lemma erase_step_right h c p sb k next :
  owns h (cells p x ++ path_cells (ptr_of x) (FR c sb p :: k) ++ fr) -> cok (S n) (FR c sb p :: k) ->
  (forall h' t, c = Black -> k <> [] -> owns h' (cells (up k) t ++ path_cells p k ++ fr) -> ptr_of t = p ->
     bal (S n) t -> col t = Black -> cok (S (S n)) k ->
     balanced fr (inorder (plug t k)) (next (h', root_after p k) p (up k))) ->
  balanced fr (inorder (plug x (FR c sb p :: k)))
    ('(h, root, sibling) ← erase_case1_right (h, root_after p k) p (ptr_of sb);
     sn ← h !! sibling;
     let tmp1 := rb_left sn in
     red1 ← is_red h tmp1;
     if negb red1 then
       let tmp2 := rb_right sn in
       red2 ← is_red h tmp2;
       if negb red2 then
         '(h, node, parent) ← erase_case2 h p sibling;
         if negb (parent =? 0) then next (h, root) node parent else Some (h, root)
       else
         h ← erase_case3_right h p sibling tmp2;
         erase_case4_right h root p tmp2 sibling
     else erase_case4_right h root p sibling tmp1).
Proof.
  intros H Hk Hnext.
  destruct sb as [|[] sl s sr]; [inversion Hk as [|? ? ? Hs _ _|? ? ? Hs _ _ _ _]; subst; inversion Hs|..]; cbn [ptr_of].
  - assert (c = Black) as -> by (inversion Hk; subst; done).
    destruct (rotate_red_right h p sl s sr k H Hk) as (h' & l & a & r & -> & E & H' & Hk').
    rewrite E. cbn [mbind option_bind].
    replace (inorder _) with (inorder (plug x (FR Red (T Black l a r) p :: FR Black sl s :: k))) by solve_order.
    replace (root_after s k) with (root_after p (FR Black sl s :: k)) by apply root_after_cons.
    apply (black_sibling_right h' Red p l a r _ (fun h => next (h, _))); done.
  - pose proof H as H0.
    eapply owns_perm with (cs' := (p, _) :: (s, _) :: cells s sl ++ cells s sr ++ cells p x ++ path_cells p k ++ fr) in H0; [|solve_perm].
    erewrite (erase1_right_black _ _ _ _ _ _ _ 1 _ H0 eq_refl) by apply (owns_good _ _ 0 _ _ H0 eq_refl). cbn [mbind option_bind].
    apply (black_sibling_right h c p sl s sr k (fun h => next (h, _))); done.
Qed.
End sides.

(** ** The loop *)

Lemma sibling_distinct h n p x q t k f cs : owns h (cells p x ++ cells q t ++ cs) -> cok (S n) (f :: k) -> sibling f = t ->
  (ptr_of x =? ptr_of t) = false.
Proof.
  intros H Hk <-. destruct (sibling f) as [|c l a r] eqn:E.
  - inversion Hk as [|? ? ? Hs _ _|? ? ? Hs _ _ _ _]; subst; rewrite E in Hs; inversion Hs.
  - apply Z.eqb_neq, not_eq_sym. eapply owns_perm with (cs' := (a, _) :: cells p x ++ cells a l ++ cells a r ++ cs) in H; [|solve_perm].
    by apply ptr_distinct in H.
Qed.

(** Started on a subtree [x] one black node short of its sibling, it restores the balance. *)
Lemma erase_loop_spec fuel n x f k h fr : (length k <= fuel)%nat -> bal n x -> cok (S n) (f :: k) ->
  owns h (cells (frame_addr f) x ++ path_cells (ptr_of x) (f :: k) ++ fr) ->
  balanced fr (inorder (plug x (f :: k))) (rb_erase_loop fuel (h, root_after (ptr_of x) (f :: k)) (ptr_of x) (frame_addr f)).
Proof.
  revert n x f k h. induction fuel as [|fuel IH]; intros n x f k h Hlen Hx Hk H.
  all: rewrite root_after_cons; destruct f as [c p sb|c sb p]; cbn [frame_addr] in *.
  all: pose proof H as H0; eapply owns_perm with (cs' := (p, _) :: cells p x ++ cells p sb ++ path_cells p k ++ fr) in H0; [|solve_perm].
  all: cbn [rb_erase_loop fst]; rewrite (owns_load _ _ 0 _ _ H0 eq_refl); cbn [mbind option_bind node_of rb_right rb_left].
  all: apply (owns_app_r _ [_]) in H0.
  all: rewrite ?Z.eqb_refl, ?(sibling_distinct _ _ _ _ _ _ _ _ _ H0 Hk eq_refl); cbn [negb].
  - apply (erase_step_left n x fr Hx _ _ _ _ _ (fun _ _ _ => None)); [done..|]. intros ? ? _ Hne. destruct k; [done|cbn in Hlen; lia].
  - apply (erase_step_right n x fr Hx _ _ _ _ _ (fun _ _ _ => None)); [done..|]. intros ? ? _ Hne. destruct k; [done|cbn in Hlen; lia].
  - apply (erase_step_left n x fr Hx _ _ _ _ _ (rb_erase_loop fuel)); [done..|].
    intros h' t _ Hne Ht <- Hb Hc Hk'. destruct k as [|f k]; [done|]. apply (IH (S n)); try done. cbn in Hlen; lia.
  - apply (erase_step_right n x fr Hx _ _ _ _ _ (rb_erase_loop fuel)); [done..|].
    intros h' t _ Hne Ht <- Hb Hc Hk'. destruct k as [|f k]; [done|]. apply (IH (S n)); try done. cbn in Hlen; lia.
Qed.
