(* ===== verification/RbtreeRemove.v ===== *)
(** * Taking a node out of a red-black tree

    The first half of [rb_erase]: the node, or its successor when it has two children, is
    unlinked, and [RbtreeErase] restores the balance if a black node went missing. *)

From Stdlib Require Import ZArith Lia Bool.
From stdpp Require Import base numbers gmap list.
From S2P Require Import Prelude Rbtree RbtreeSpec RbtreeInsert RbtreeErase.
Open Scope Z_scope.

(** ** The unlinked node *)

(** A node with at most one child is red and childless or black, and the child is red. *)
Lemma right_only n c a r : bal n (T c E a r) ->
  (r = E /\ n = match c with Red => 0%nat | Black => 1%nat end) \/ (exists d, r = T Red E d E /\ c = Black /\ n = 1%nat).
Proof.
  inversion 1 as [|? ? ? ? Hl Hr _ Hcr|? ? ? ? Hl Hr]; subst; inversion Hl; subst.
  - left. inversion Hr; subst; done.
  - inversion Hr as [|? l d r' Hl' Hr' Hc1 Hc2|]; subst; [by left|]. right.
    inversion Hl'; subst; [|done]. inversion Hr'; subst; [|done]. by exists d.
Qed.
Lemma left_only n c l a : bal n (T c l a E) -> l <> E -> exists d, l = T Red E d E /\ c = Black /\ n = 1%nat.
Proof.
  intros H Hne. inversion H as [|? ? ? ? Hl Hr Hcl _|? ? ? ? Hl Hr]; subst; inversion Hr; subst.
  - inversion Hl; subst; done.
  - inversion Hl as [|? l' d r' Hl' Hr' Hc1 Hc2|]; subst; [done|].
    inversion Hl'; subst; [|done]. inversion Hr'; subst; [|done]. by exists d.
Qed.

(** The child takes the place and the colour of the node. *)
Lemma child_fills h d K fr : owns h (cells (up K) (T Black E d E) ++ path_cells d K ++ fr) -> cok 1 K ->
  balanced fr (before K ++ d :: after K) (Some (h, root_after d K)).
Proof.
  intros H HK. apply (balanced_plug 1 (T Black E d E) K); try done; [solve_bal|by left|]. by rewrite inorder_plug.
Qed.
(** There is no child: a black node has gone missing. *)
Lemma hole_left h fuel c K fr : owns h (path_cells 0 K ++ fr) -> cok (match c with Red => 0%nat | Black => 1%nat end) K ->
  (length K <= S fuel)%nat ->
  let rebalance := match c with Red => 0 | Black => up K end in
  balanced fr (before K ++ after K)
    (if negb (rebalance =? 0) then rb_erase_color fuel rebalance (h, root_after 0 K) else Some (h, root_after 0 K)).
Proof.
  intros H HK Hlen. pose proof (up_good _ _ _ _ H) as [_ Hup]. destruct c; cbn zeta.
  - cbn [Z.eqb negb]. apply (balanced_plug 0 E K); try done; [constructor|by left|by rewrite inorder_plug].
  - destruct K as [|f K]; cbn [up].
    + apply (balanced_plug 0 E []); try done; [constructor|constructor|by left].
    + rewrite (proj2 (Z.eqb_neq _ 0)) by (intros E0; by apply Hup in E0). cbn [negb].
      replace (before (f :: K) ++ after (f :: K)) with (inorder (plug E (f :: K))) by by rewrite inorder_plug.
      apply (erase_loop_spec fuel 0 E f K); try done; [cbn in Hlen; lia|constructor].
Qed.

(** ** No left child *)

Lemma erase_one_spec h fuel n c a r k fr :
  owns h (cells (up k) (T c E a r) ++ path_cells a k ++ fr) -> bal n (T c E a r) -> cok n k -> (length k <= S fuel)%nat ->
  balanced ((a, node_of (up k) c 0 (ptr_of r)) :: fr) (before k ++ inorder r ++ after k)
    ('(s, rebalance) ← erase_one a (ptr_of r) (h, root_after a k);
     if negb (rebalance =? 0) then rb_erase_color fuel rebalance s else Some s).
Proof.
  intros H Hb Hk Hlen. unfold erase_one. cbn [fst].
  eapply owns_perm with (cs' := path_cells a k ++ (a, _) :: cells a r ++ fr) in H; [|solve_perm].
  pose proof (aligned_up _ _ _ _ H) as Hup.
  assert (Ha : h !! a = Some (node_of (up k) c 0 (ptr_of r)) /\ good_addr a).
  { apply owns_app_r in H. split; [exact (owns_load _ _ 0 _ _ H eq_refl)|exact (owns_good _ _ 0 _ _ H eq_refl)]. }
  destruct Ha as [Hload [Hnz _]]. rewrite Hload. cbn [mbind option_bind]. rewrite word_parent, word_black by done.
  destruct (change_child_owns h a (ptr_of r) k _ H Hnz) as (h1 & -> & H1); [cbn; apply elem_of_cons; by left|].
  cbn [mbind option_bind]. destruct (right_only _ _ _ _ Hb) as [[-> ->]|(d & -> & -> & ->)]; cbn [ptr_of cells app] in *.
  - cbn [Z.eqb negb mbind option_bind]. pose proof (hole_left h1 fuel c k _ H1 Hk Hlen) as Hh. by destruct c.
  - eapply owns_perm with (cs' := (d, _) :: (a, _) :: path_cells d k ++ fr) in H1; [|solve_perm].
    rewrite (proj2 (Z.eqb_neq d 0)) by apply (owns_good _ _ 0 _ _ H1 eq_refl). cbn [negb].
    destruct (set_pc_owns _ _ H1 0 d _ _ _ _ (parent_color (node_of (up k) Black 0 d)) eq_refl) as (h2 & -> & H2).
    cbn [mbind option_bind Z.eqb negb]. apply child_fills; [|done]. eapply owns_perm; [|exact H2]. cbn [insert list_insert]. solve_perm.
Qed.

(** ** No right child *)

Lemma erase_left_only_spec h fuel n c l a k fr :
  owns h (cells (up k) (T c l a E) ++ path_cells a k ++ fr) -> bal n (T c l a E) -> cok n k -> l <> E ->
  balanced ((a, node_of (up k) c (ptr_of l) 0) :: fr) (before k ++ inorder l ++ after k)
    ('(s, rebalance) ← erase_left_only a (ptr_of l) (h, root_after a k);
     if negb (rebalance =? 0) then rb_erase_color fuel rebalance s else Some s).
Proof.
  intros H Hb Hk Hne. unfold erase_left_only. destruct (left_only _ _ _ _ Hb Hne) as (d & -> & -> & ->). cbn [ptr_of].
  eapply owns_perm with (cs' := (a, _) :: (d, _) :: path_cells a k ++ fr) in H; [|solve_perm].
  pose proof (owns_good _ _ 0 _ _ H eq_refl) as [Hnz _]. rewrite (owns_load _ _ 0 _ _ H eq_refl). cbn [mbind option_bind].
  destruct (set_pc_owns _ _ H 1 d _ _ _ _ (parent_color (node_of (up k) Black d 0)) eq_refl) as (h1 & -> & H1).
  cbn [mbind option_bind insert list_insert] in *.
  eapply owns_perm with (cs' := path_cells a k ++ (a, _) :: (d, node_of (up k) Black 0 0) :: fr) in H1; [|solve_perm].
  rewrite word_parent by by eapply aligned_up.
  destruct (change_child_owns h1 a d k _ H1 Hnz) as (h2 & -> & H2); [cbn; apply elem_of_cons; by left|].
  cbn [mbind option_bind Z.eqb negb]. apply child_fills; [|done]. eapply owns_perm; [|exact H2]. solve_perm.
Qed.

(** ** Two children *)

(** The way from the right child down to the successor: left turns only.  [above top kk] is
    the node at the lower end when the upper one hangs below [top], and [seg x kk top] the
    nodes of the way when its hole holds [x]. *)
Definition above (top : Z) (kk : path) : Z := match kk with [] => top | f :: _ => frame_addr f end.
Fixpoint seg (x : Z) (kk : path) (top : Z) : list (Z * rb_node) :=
  match kk with
  | [] => []
  | FL c a r :: kk => (a, node_of (above top kk) c x (ptr_of r)) :: cells a r ++ seg a kk top
  | FR c l a :: kk => (a, node_of (above top kk) c (ptr_of l) x) :: cells a l ++ seg a kk top
  end.
Definition turns_left (kk : path) : Prop := Forall (fun f => match f with FL _ _ _ => True | FR _ _ _ => False end) kk.

Lemma cells_seg p t kk : cells p (plug t kk) ≡ₚ cells (above p kk) t ++ seg (ptr_of t) kk p.
Proof.
  revert t. induction kk as [|[c a r|c l a] kk IH]; intros t; cbn [plug above seg frame_addr]; [by rewrite app_nil_r|..]; rewrite IH; cbn [fill cells ptr_of]; solve_perm.
Qed.
Lemma path_cells_app x kk f k :
  path_cells x (kk ++ f :: k) = seg x kk (frame_addr f) ++ path_cells (root_after x kk) (f :: k).
Proof.
  revert x. induction kk as [|g kk IH]; intros x; [done|]. rewrite root_after_cons.
  destruct g as [c a r|c l a]; cbn [app path_cells seg frame_addr]; rewrite IH, <- app_assoc; by destruct kk.
Qed.
Lemma above_app top kk f : above top (kk ++ [f]) = above (frame_addr f) kk.
Proof. by destruct kk. Qed.
Lemma up_app kk f k : up (kk ++ f :: k) = above (frame_addr f) kk.
Proof. by destruct kk. Qed.

Lemma successor_path t : t <> E -> exists kk c s r, t = plug (T c E s r) kk /\ turns_left kk.
Proof.
  induction t as [|c l IHl a r _]; [done|]. intros _. destruct (decide (l = E)) as [->|Hl].
  - exists [], c, a, r. split; [done|constructor].
  - destruct (IHl Hl) as (kk & c' & s & r' & -> & Hkk). exists (kk ++ [FL c a r]), c', s, r'. rewrite plug_app.
    split; [done|]. apply Forall_app. split; [done|]. by constructor.
Qed.

Lemma plug_nonzero h p c l s r kk cs : owns h (cells p (plug (T c l s r) kk) ++ cs) ->
  (ptr_of (plug (T c l s r) kk) =? 0) = false.
Proof.
  intros H. apply Z.eqb_neq. eapply ptr_nonzero; [exact H|]. destruct kk as [|g kk _] using rev_ind; [done|].
  rewrite plug_app. by destruct g.
Qed.
Lemma find_successor_spec h fuel p c s r kk cs : turns_left kk -> (length kk <= fuel)%nat ->
  owns h (cells p (plug (T c E s r) kk) ++ cs) ->
  find_successor fuel h p (ptr_of (plug (T c E s r) kk)) = Some (above p kk, s).
Proof.
  revert fuel p cs. induction kk as [|f kk IH] using rev_ind; intros fuel p cs Hkk Hlen H.
  - destruct fuel; cbn [find_successor plug ptr_of]; by rewrite (owns_load _ _ 0 _ _ H eq_refl).
  - apply Forall_app in Hkk as [Hkk Hf]. inversion Hf as [|? ? Hf' _]; subst. destruct f as [c0 a r0|]; [|done].
    rewrite plug_app in *. rewrite above_app. rewrite length_app in Hlen. cbn [plug fill ptr_of frame_addr] in *. cbn in Hlen.
    destruct fuel as [|fuel]; [lia|]. cbn [find_successor]. rewrite (owns_load _ _ 0 _ _ H eq_refl).
    cbn [mbind option_bind node_of rb_left].
    eapply owns_perm with (cs' := (a, _) :: cells a (plug (T c E s r) kk) ++ cells a r0 ++ cs) in H; [|solve_perm].
    apply (owns_app_r _ [_]) in H.
    rewrite (plug_nonzero _ _ _ _ _ _ _ _ H). cbn [negb]. eapply IH; [done|lia|exact H].
Qed.

Lemma seg_set_bottom h x y kk top cs : owns h (seg x kk top ++ cs) -> turns_left kk -> kk <> [] ->
  exists h', set_left h (above top kk) y = Some h' /\ owns h' (seg y kk top ++ cs).
Proof.
  intros H Hkk Hne. destruct kk as [|f kk]; [done|]. inversion Hkk; subst. destruct f as [c a r|]; [|done].
  exact (set_left_owns _ _ H 0 a _ _ _ _ y eq_refl).
Qed.
Lemma seg_set_top h x kk top top' cs : owns h (seg x kk top ++ cs) -> turns_left kk -> kk <> [] -> aligned top ->
  exists h', rb_set_parent h (root_after x kk) top' = Some h' /\ owns h' (seg x kk top' ++ cs).
Proof.
  revert x cs. induction kk as [|f kk IH]; intros x cs H Hkk Hne Htop; [done|]. rewrite root_after_cons.
  inversion Hkk; subst. destruct f as [c a r|]; [|done]. cbn [frame_addr seg] in *. destruct (decide (kk = [])) as [->|Hne'].
  - exact (set_parent_owns _ _ H 0 a _ _ _ _ top' Htop eq_refl).
  - destruct (IH a ((a, node_of (above top kk) c x (ptr_of r)) :: cells a r ++ cs)) as (h' & E & H'); [|done..|].
    + eapply owns_perm; [|exact H]. solve_perm.
    + exists h'. split; [done|]. eapply owns_perm; [|exact H']. destruct kk; [done|]. solve_perm.
Qed.

Lemma unlink_successor_spec h fuel p c s r kk cs : turns_left kk -> (length kk <= fuel)%nat -> aligned p ->
  owns h (cells p (plug (T c E s r) kk) ++ cs) ->
  exists h' q l', unlink_successor fuel (root_after s kk) h = Some (h', s, above s kk, ptr_of r) /\ aligned q /\
    owns h' ((s, node_of q c l' (root_after (ptr_of r) kk)) :: cells s r ++ seg (ptr_of r) kk s ++ cs).
Proof.
  intros Hkk Hlen Hp H. unfold unlink_successor. destruct kk as [|f kk _] using rev_ind.
  - cbn [root_after last plug] in *. rewrite (owns_load _ _ 0 _ _ H eq_refl). cbn [mbind option_bind node_of rb_left rb_right Z.eqb].
    exists h, p, 0. split_and!; [done..|]. eapply owns_perm; [|exact H]. cbn [seg]. solve_perm.
  - pose proof Hkk as Hkk0. apply Forall_app in Hkk as [Hkk Hf]. inversion Hf as [|? ? Hf' _]; subst. destruct f as [c0 a r0|]; [|done].
    assert (Ea : forall x, root_after x (kk ++ [FL c0 a r0]) = a) by (intros x; unfold root_after; by rewrite last_snoc).
    rewrite !Ea. pose proof H as H0. rewrite plug_app in H0. cbn [plug fill] in H0.
    rewrite (owns_load _ _ 0 _ _ H0 eq_refl). cbn [mbind option_bind node_of rb_left].
    eapply owns_perm with (cs' := (a, _) :: cells a (plug (T c E s r) kk) ++ cells a r0 ++ cs) in H0; [|solve_perm].
    pose proof (owns_good _ _ 0 _ _ H0 eq_refl) as [_ Hal]. apply (owns_app_r _ [_]) in H0.
    assert (Hlen' : (length kk <= fuel)%nat) by (rewrite length_app in Hlen; cbn in Hlen; lia).
    rewrite (find_successor_spec _ _ _ _ _ _ _ _ Hkk Hlen' H0).
    rewrite (plug_nonzero _ _ _ _ _ _ _ _ H0). clear H0. cbn [mbind option_bind].
    replace (above a kk) with (above p (kk ++ [FL c0 a r0])) by apply above_app.
    set (K := kk ++ [FL c0 a r0]) in *. assert (HK : K <> []) by (by destruct kk). clearbody K.
    eapply owns_perm in H; [|by rewrite cells_seg]. cbn [ptr_of] in H.
    eapply owns_perm with (cs' := (s, _) :: seg s K p ++ cells s r ++ cs) in H; [|solve_perm].
    pose proof (owns_good _ _ 0 _ _ H eq_refl) as [_ Hs].
    rewrite (owns_load _ _ 0 _ _ H eq_refl). cbn [mbind option_bind node_of rb_right].
    eapply owns_perm with (cs' := seg s K p ++ (s, _) :: cells s r ++ cs) in H; [|solve_perm].
    assert (Hab : aligned (above p K) /\ above p K = above s K).
    { destruct K as [|[]]; [done|..]; split; try done; apply (owns_good _ _ 0 _ _ H eq_refl). }
    destruct (seg_set_bottom _ _ (ptr_of r) _ _ _ H Hkk0 HK) as (h1 & -> & H1). cbn [mbind option_bind].
    eapply owns_perm with (cs' := (s, _) :: seg (ptr_of r) K p ++ cells s r ++ cs) in H1; [|solve_perm].
    destruct (set_right_owns _ _ H1 0 s _ _ _ _ a eq_refl) as (h2 & -> & H2). cbn [mbind option_bind insert list_insert] in *.
    eapply owns_perm with (cs' := seg (ptr_of r) K p ++ (s, _) :: cells s r ++ cs) in H2; [|solve_perm].
    destruct (seg_set_top _ _ _ _ s _ H2 Hkk0 HK Hp) as (h3 & E & H3). rewrite Ea in E. rewrite E. cbn [mbind option_bind].
    exists h3, (above p K), 0. destruct Hab as [? <-]. split_and!; [done..|]. eapply owns_perm; [|exact H3]. solve_perm.
Qed.

(** Only the colours of a path matter to its balance. *)
Lemma cok_rename n kk c l a s k : cok n (kk ++ FR c l a :: k) -> cok n (kk ++ FR c l s :: k).
Proof.
  revert n. induction kk as [|f kk IH]; intros n H; cbn [app] in *.
  - inversion H; subst; [by apply cok_B|by apply cok_R].
  - inversion H; subst; [apply cok_B; auto|apply cok_R; auto]. by destruct kk.
Qed.

Lemma root_after_app x kk f k : root_after x (kk ++ f :: k) = root_after (frame_addr f) k.
Proof. revert x. induction kk as [|g kk IH]; intros x; cbn [app]; rewrite root_after_cons; [done|apply IH]. Qed.
Lemma before_left kk : turns_left kk -> before kk = [].
Proof. induction 1 as [|f kk Hf _ IH]; [done|]. destruct f; [|done]. cbn. by rewrite IH. Qed.
Lemma order_left t kk c l s k : turns_left kk ->
  inorder (plug t (kk ++ FR c l s :: k)) = before k ++ inorder l ++ s :: inorder t ++ after kk ++ after k.
Proof.
  intros Hkk. rewrite plug_app. cbn [plug fill]. rewrite inorder_plug. cbn [inorder]. rewrite inorder_plug, (before_left kk) by done.
  by repeat (progress (rewrite <- ?app_assoc; cbn [app])).
Qed.

(** The last stores: the successor gets the colour and the parent of the node, and its
    right child, or the hole it left, is what may be short. *)
Lemma settle_successor h fuel n c l a w q c' s r2 kk k fr :
  owns h (path_cells s k ++ (a, w) :: (s, node_of q c' (ptr_of l) (root_after (ptr_of r2) kk)) ::
    cells s l ++ cells s r2 ++ seg (ptr_of r2) kk s ++ fr) -> aligned q ->
  turns_left kk -> bal n (T c' E s r2) -> cok n (kk ++ FR c l s :: k) -> (length (kk ++ FR c l s :: k) <= S fuel)%nat ->
  balanced ((a, w) :: fr) (inorder (plug r2 (kk ++ FR c l s :: k)))
    ('(s, rebalance) ←
       (if negb (ptr_of r2 =? 0) then
          h ← set_pc h s (word (up k) c);
          h ← rb_set_parent_color h (ptr_of r2) (above s kk) RB_BLACK;
          Some (h, root_after s k, 0)
        else
          sn ← h !! s;
          h ← set_pc h s (word (up k) c);
          Some (h, root_after s k, if rb_is_black sn then above s kk else 0));
     if negb (rebalance =? 0) then rb_erase_color fuel rebalance s else Some s).
Proof.
  intros H Hq Hkk Hb HK Hlen. rewrite inorder_plug. set (K := kk ++ FR c l s :: k) in *.
  assert (Eroot : forall x, root_after s k = root_after x K) by (intros x; unfold K; by rewrite root_after_app).
  assert (Eup : above s kk = up K) by (unfold K; by rewrite up_app).
  assert (HpK : forall x, path_cells x K = seg x kk s ++ path_cells (root_after x kk) (FR c l s :: k)) by (intros; apply path_cells_app).
  destruct (right_only _ _ _ _ Hb) as [[-> ->]|(d & -> & -> & ->)]; cbn [ptr_of Z.eqb negb] in *.
  - eapply owns_perm with (cs' := (s, _) :: (a, w) :: path_cells s k ++ cells s l ++ seg 0 kk s ++ fr) in H; [|solve_perm].
    rewrite (owns_load _ _ 0 _ _ H eq_refl). cbn [mbind option_bind]. rewrite word_black by done.
    destruct (set_pc_owns _ _ H 0 s _ _ _ _ (word (up k) c) eq_refl) as (h1 & -> & H1). cbn [mbind option_bind insert list_insert] in *.
    rewrite (Eroot 0), Eup. pose proof (hole_left h1 fuel c' K ((a, w) :: fr)) as Hh. cbn zeta in Hh.
    assert (Hm : (if match c' with Red => false | Black => true end then up K else 0) = match c' with Red => 0 | Black => up K end) by by destruct c'.
    rewrite Hm. apply Hh; [|done..]. eapply owns_perm; [|exact H1]. rewrite HpK. solve_perm.
  - eapply owns_perm with (cs' := (s, _) :: (d, _) :: (a, w) :: path_cells s k ++ cells s l ++ seg d kk s ++ fr) in H; [|solve_perm].
    rewrite (proj2 (Z.eqb_neq d 0)) by apply (owns_good _ _ 1 _ _ H eq_refl). cbn [negb].
    destruct (set_pc_owns _ _ H 0 s _ _ _ _ (word (up k) c) eq_refl) as (h1 & -> & H1). cbn [mbind option_bind insert list_insert] in *.
    destruct (set_parent_color_owns _ _ H1 1 d _ _ _ _ (above s kk) Black eq_refl) as (h2 & E2 & H2). cbn [insert list_insert] in *.
    rewrite E2. cbn [mbind option_bind Z.eqb negb]. rewrite (Eroot d). apply child_fills; [|done].
    eapply owns_perm; [|exact H2]. rewrite HpK, <- Eup. solve_perm.
Qed.

(** The successor moves to the place of the node. *)
Lemma erase_two_spec h fuel c l a c' s r2 kk n k fr :
  let r := plug (T c' E s r2) kk in
  owns h (cells (up k) (T c l a r) ++ path_cells a k ++ fr) -> turns_left kk -> l <> E ->
  bal n (T c' E s r2) -> cok n (kk ++ FR c l a :: k) -> (length (kk ++ FR c l a :: k) <= S fuel)%nat ->
  balanced ((a, node_of (up k) c (ptr_of l) (ptr_of r)) :: fr) (before k ++ inorder l ++ inorder r ++ after k)
    ('(s, rebalance) ← erase_two fuel a (ptr_of r) (h, root_after a k);
     if negb (rebalance =? 0) then rb_erase_color fuel rebalance s else Some s).
Proof.
  intros r H Hkk Hl Hb Hk Hlen. unfold erase_two. rewrite length_app in Hlen. cbn [length] in Hlen.
  assert (Hgood : good_addr a) by apply (owns_good _ _ 0 _ _ H eq_refl). destruct Hgood as [Hnz Hal].
  eapply owns_perm with (cs' := cells a r ++ (a, _) :: cells a l ++ path_cells a k ++ fr) in H; [|solve_perm].
  destruct (unlink_successor_spec _ fuel _ _ _ _ _ _ Hkk ltac:(lia) Hal H) as (h1 & q & l' & E1 & Hq & H1).
  assert (Er : ptr_of r = root_after s kk) by apply (ptr_plug (T c' E s r2)). rewrite <- Er in E1. rewrite E1. cbn [mbind option_bind].
  eapply owns_perm with (cs' := (a, _) :: (s, _) :: cells a l ++ cells s r2 ++ seg (ptr_of r2) kk s ++ path_cells a k ++ fr) in H1; [|solve_perm].
  rewrite (owns_load _ _ 0 _ _ H1 eq_refl). cbn [mbind option_bind node_of rb_left].
  destruct (set_left_owns _ _ H1 1 s _ _ _ _ (ptr_of l) eq_refl) as (h2 & -> & H2). cbn [mbind option_bind insert list_insert] in *.
  eapply owns_perm with (cs' := cells a l ++ (a, _) :: (s, _) :: cells s r2 ++ seg (ptr_of r2) kk s ++ path_cells a k ++ fr) in H2; [|solve_perm].
  destruct (set_parent_if_owns _ _ _ s _ H2 Hal) as (h3 & E3 & H3).
  rewrite (proj2 (Z.eqb_neq _ _)) in E3 by (by eapply ptr_nonzero). rewrite E3. cbn [mbind option_bind]. clear E3.
  eapply owns_perm with (cs' := (a, _) :: path_cells a k ++ (s, _) :: cells s l ++ cells s r2 ++ seg (ptr_of r2) kk s ++ fr) in H3; [|solve_perm].
  rewrite (owns_load _ _ 0 _ _ H3 eq_refl). cbn [mbind option_bind].
  eapply owns_perm with (cs' := path_cells a k ++ (a, _) :: (s, _) :: cells s l ++ cells s r2 ++ seg (ptr_of r2) kk s ++ fr) in H3; [|solve_perm].
  rewrite word_parent by by eapply aligned_up.
  destruct (change_child_owns _ a s k _ H3 Hnz) as (h4 & -> & H4); [cbn; apply elem_of_cons; by left|]. cbn [mbind option_bind].
  assert (Eo : before k ++ inorder l ++ inorder r ++ after k = inorder (plug r2 (kk ++ FR c l s :: k))).
  { rewrite order_left by done. unfold r. rewrite inorder_plug, (before_left kk) by done. cbn [inorder]. by repeat (progress (rewrite <- ?app_assoc; cbn [app])). }
  rewrite Eo. eapply (settle_successor h4 fuel n c l a _ q c' s r2 kk k); try done.
  - by eapply cok_rename.
  - rewrite length_app. cbn [length]. lia.
Qed.

(** ** All cases *)

Fixpoint height (t : tree) : nat := match t with E => 0 | T _ l _ r => S (max (height l) (height r)) end.
Lemma height_plug t k : (height t + length k <= height (plug t k))%nat.
Proof.
  revert t. induction k as [|f k IH]; intros t; cbn [plug length]; [lia|]. specialize (IH (fill f t)).
  destruct f; cbn [fill height] in *; lia.
Qed.

Lemma rb_erase_spec fuel h c l a r k fr :
  owns h (cells 0 (plug (T c l a r) k) ++ fr) -> rbtree (plug (T c l a r) k) ->
  (height (plug (T c l a r) k) <= S fuel)%nat ->
  balanced ((a, node_of (up k) c (ptr_of l) (ptr_of r)) :: fr) (before k ++ inorder l ++ inorder r ++ after k)
    (rb_erase fuel a (h, ptr_of (plug (T c l a r) k))).
Proof.
  intros H Hrb Hlen. rewrite ptr_plug. cbn [ptr_of].
  eapply owns_perm in H; [|rewrite cells_plug, <- app_assoc; reflexivity]. cbn [ptr_of] in H.
  pose proof (height_plug (T c l a r) k) as Hh. cbn [height] in Hh.
  unfold rb_erase. cbn [fst]. rewrite (owns_load _ _ 0 _ _ H eq_refl). cbn [mbind option_bind node_of rb_left rb_right].
  pose proof H as Hl. eapply owns_perm with (cs' := cells a l ++ cells a r ++ (a, _) :: path_cells a k ++ fr) in Hl; [|solve_perm].
  rewrite (ptr_eqb_0 _ _ _ _ Hl). apply owns_app_r in Hl. rewrite (ptr_eqb_0 _ _ _ _ Hl). clear Hl.
  destruct (decide (l = E)) as [->|Hl].
  - destruct (unplug _ _ Hrb) as (n & Hn & Hk & _). eapply erase_one_spec; try done. lia.
  - replace (match l with E => true | _ => false end) with false by by destruct l. destruct (decide (r = E)) as [->|Hr].
    + destruct (unplug _ _ Hrb) as (n & Hn & Hk & _). cbn [inorder app]. by eapply erase_left_only_spec.
    + replace (match r with E => true | _ => false end) with false by by destruct r.
      destruct (successor_path r Hr) as (kk & c' & s & r2 & -> & Hkk).
      change (plug (T c l a (plug (T c' E s r2) kk)) k) with (plug (plug (T c' E s r2) kk) (FR c l a :: k)) in Hrb, Hlen.
      rewrite <- plug_app in Hrb, Hlen. destruct (unplug _ _ Hrb) as (n & Hn & Hk & _).
      eapply erase_two_spec; try done. pose proof (height_plug (T c' E s r2) (kk ++ FR c l a :: k)) as Hh2. cbn [height] in Hh2. lia.
Qed.
