(* ===== verification/RbtreeTheorems.v ===== *)
(** * Red-black trees: the theorems

    The interface of [lib/rbtree.c] against the in-order sequence of the nodes: insertion at
    a place and removal keep a red-black tree, the walks go to the neighbours, and the loops
    run at most twice the logarithm of the number of nodes. *)

From Stdlib Require Import ZArith Lia Bool.
From stdpp Require Import base numbers gmap list.
From S2P Require Import Prelude Rbtree RbtreeSpec RbtreeInsert RbtreeErase RbtreeRemove.
Open Scope Z_scope.

(** ** Height *)

Fixpoint nodes (t : tree) : nat := match t with E => 0 | T _ l _ r => S (nodes l + nodes r) end.

Lemma bal_size n t : bal n t -> (2 ^ n <= S (nodes t))%nat.
Proof. induction 1; cbn [nodes]; rewrite ?Nat.pow_succ_r'; cbn; lia. Qed.
Lemma bal_height n t : bal n t -> (height t <= 2 * n + match col t with Red => 1 | Black => 0 end)%nat.
Proof.
  induction 1 as [|n l a r _ IHl _ IHr Hl Hr|n l a r _ IHl _ IHr]; cbn [height col]; [lia|rewrite Hl in IHl; rewrite Hr in IHr; lia|].
  destruct (col l), (col r); lia.
Qed.
(** The longest way down is at most [2 log2 (n + 1)]. *)
Definition max_height (t : tree) : nat := 2 * Nat.log2 (S (nodes t)).
Lemma rb_height t : rbtree t -> (height t <= max_height t)%nat.
Proof.
  intros [Hc [n Hn]]. pose proof (bal_height _ _ Hn) as H. rewrite Hc in H. pose proof (bal_size _ _ Hn) as Hs.
  apply Nat.log2_le_mono in Hs. rewrite Nat.log2_pow2 in Hs by lia. unfold max_height. lia.
Qed.

(** ** Places *)

Lemma before_app k1 k2 : before (k1 ++ k2) = before k2 ++ before k1.
Proof. induction k1 as [|[] k1 IH]; cbn; [by rewrite app_nil_r|done|by rewrite IH, <- app_assoc]. Qed.
Lemma after_app k1 k2 : after (k1 ++ k2) = after k1 ++ after k2.
Proof. induction k1 as [|[] k1 IH]; cbn; [done|by rewrite IH, <- app_assoc|done]. Qed.
Lemma split_place t xs a ys : inorder t = xs ++ a :: ys ->
  exists c l r k, t = plug (T c l a r) k /\ xs = before k ++ inorder l /\ ys = inorder r ++ after k.
Proof.
  revert xs ys. induction t as [|c l IHl b r IHr]; intros xs ys H; cbn in H; [by destruct xs|].
  assert (Hhere : inorder l = xs -> b :: inorder r = a :: ys ->
    exists c' l' r' k, T c l b r = plug (T c' l' a r') k /\ xs = before k ++ inorder l' /\ ys = inorder r' ++ after k).
  { intros Hl [= Hb Hr]. subst. exists c, l, r, []. cbn. by rewrite app_nil_r. }
  apply app_eq_app in H as ([|z zs] & [[Hl Hr]|[Hl Hr]]).
  - apply Hhere; [by rewrite Hl, app_nil_r|done].
  - apply Hhere; [by rewrite Hl, app_nil_r|done].
  - cbn in Hr. injection Hr as -> ->. destruct (IHl _ _ Hl) as (c' & l' & r' & k & -> & -> & ->).
    exists c', l', r', (k ++ [FL c b r]). rewrite plug_app, before_app, after_app. cbn. split; [done|]. split; [done|].
    by rewrite <- app_assoc, app_nil_r.
  - cbn in Hr. injection Hr as -> Hr. destruct (IHr _ _ Hr) as (c' & l' & r' & k & -> & -> & ->). subst xs.
    exists c', l', r', (k ++ [FR c l z]). rewrite plug_app, before_app, after_app. cbn.
    split; [done|]. by rewrite app_nil_r, <- !app_assoc.
Qed.

(** ** Walks *)

Lemma leftmost_spec h fuel p t cs : owns h (cells p t ++ cs) -> t <> E -> (height t <= S fuel)%nat ->
  exists x xs, inorder t = x :: xs /\ leftmost fuel h (ptr_of t) = Some x.
Proof.
  revert p t cs. induction fuel as [|fuel IH]; intros p t cs H Ht Hh; destruct t as [|c l a r]; try done; cbn [height] in Hh;
    cbn [leftmost ptr_of]; rewrite (owns_load _ _ 0 _ _ H eq_refl); cbn [mbind option_bind node_of rb_left];
    (eapply owns_perm with (cs' := cells a l ++ (a, _) :: cells a r ++ cs) in H; [|solve_perm]);
    rewrite (ptr_eqb_0 _ _ _ _ H); destruct l as [|cl ll la lr]; try (by exists a, (inorder r)).
  - cbn in Hh. lia.
  - destruct (IH _ _ _ H) as (x & xs & Hx & E); [done|lia|]. exists x, (xs ++ a :: inorder r). split; [|exact E].
    cbn [inorder] in *. by rewrite Hx.
Qed.
Lemma rightmost_spec h fuel p t cs : owns h (cells p t ++ cs) -> t <> E -> (height t <= S fuel)%nat ->
  exists x xs, inorder t = xs ++ [x] /\ rightmost fuel h (ptr_of t) = Some x.
Proof.
  revert p t cs. induction fuel as [|fuel IH]; intros p t cs H Ht Hh; destruct t as [|c l a r]; try done; cbn [height] in Hh;
    cbn [rightmost ptr_of]; rewrite (owns_load _ _ 0 _ _ H eq_refl); cbn [mbind option_bind node_of rb_right];
    (eapply owns_perm with (cs' := cells a r ++ (a, _) :: cells a l ++ cs) in H; [|solve_perm]);
    rewrite (ptr_eqb_0 _ _ _ _ H); destruct r as [|cr rl ra rr]; try (by exists a, (inorder l)).
  - cbn in Hh. lia.
  - destruct (IH _ _ _ H) as (x & xs & Hx & E); [done|lia|]. exists x, (inorder l ++ a :: xs). split; [|exact E].
    cbn [inorder] in *. by rewrite Hx, <- app_assoc.
Qed.

Lemma climb_right_spec h fuel c l a r k fr : owns h (cells (up k) (T c l a r) ++ path_cells a k ++ fr) ->
  (length k <= fuel)%nat -> climb_right fuel h a = Some (default 0 (head (after k))).
Proof.
  revert c l a r fuel. induction k as [|f k IH]; intros c l a r fuel H Hlen.
  - destruct fuel; cbn [climb_right]; rewrite (owns_load _ _ 0 _ _ H eq_refl); cbn [mbind option_bind]; by rewrite word_parent.
  - destruct (up_good _ _ _ _ (owns_app_r _ _ _ H)) as [Hal Hnil]. cbn [length] in Hlen. destruct fuel as [|fuel]; [lia|].
    cbn [climb_right]. rewrite (owns_load _ _ 0 _ _ H eq_refl). cbn [mbind option_bind]. rewrite word_parent by done.
    rewrite (proj2 (Z.eqb_neq _ 0)) by (intros E0; by apply Hnil in E0).
    destruct f as [c' p t|c' t p]; cbn [up frame_addr] in *;
      (eapply owns_perm with (cs' := (p, _) :: (a, _) :: cells p t ++ cells a l ++ cells a r ++ path_cells p k ++ fr) in H; [|solve_perm]);
      rewrite (owns_load _ _ 0 _ _ H eq_refl); cbn [mbind option_bind node_of rb_right rb_left].
    + rewrite (proj2 (Z.eqb_neq _ _)); [done|]. apply (owns_app_r _ [_]) in H. by apply ptr_distinct in H.
    + rewrite Z.eqb_refl. apply (IH c' t p (T c l a r)); [|lia]. eapply owns_perm; [|exact H]. solve_perm.
Qed.
Lemma climb_left_spec h fuel c l a r k fr : owns h (cells (up k) (T c l a r) ++ path_cells a k ++ fr) ->
  (length k <= fuel)%nat -> climb_left fuel h a = Some (default 0 (last (before k))).
Proof.
  revert c l a r fuel. induction k as [|f k IH]; intros c l a r fuel H Hlen.
  - destruct fuel; cbn [climb_left]; rewrite (owns_load _ _ 0 _ _ H eq_refl); cbn [mbind option_bind]; by rewrite word_parent.
  - destruct (up_good _ _ _ _ (owns_app_r _ _ _ H)) as [Hal Hnil]. cbn [length] in Hlen. destruct fuel as [|fuel]; [lia|].
    cbn [climb_left]. rewrite (owns_load _ _ 0 _ _ H eq_refl). cbn [mbind option_bind]. rewrite word_parent by done.
    rewrite (proj2 (Z.eqb_neq _ 0)) by (intros E0; by apply Hnil in E0).
    destruct f as [c' p t|c' t p]; cbn [up frame_addr] in *;
      (eapply owns_perm with (cs' := (p, _) :: (a, _) :: cells p t ++ cells a l ++ cells a r ++ path_cells p k ++ fr) in H; [|solve_perm]);
      rewrite (owns_load _ _ 0 _ _ H eq_refl); cbn [mbind option_bind node_of rb_right rb_left].
    + rewrite Z.eqb_refl. apply (IH c' (T c l a r) p t); [|lia]. eapply owns_perm; [|exact H]. solve_perm.
    + rewrite (proj2 (Z.eqb_neq _ _)); [cbn [before]; by rewrite app_assoc, last_snoc|]. apply (owns_app_r _ [_]) in H. by apply ptr_distinct in H.
Qed.

(** A node of a tree is not marked as outside of every tree. *)
Lemma not_cleared h c l a r k fr : owns h (cells (up k) (T c l a r) ++ path_cells a k ++ fr) ->
  (word (up k) c =? a) = false.
Proof.
  intros H. apply Z.eqb_neq. pose proof (owns_good _ _ 0 _ _ H eq_refl) as [Hnz Hal].
  destruct (up_good _ _ _ _ (owns_app_r _ _ _ H)) as [Hup Hnil]. destruct c.
  - rewrite word_Red. destruct k as [|[c' p t|c' t p] k]; cbn [up frame_addr] in *; [done|..];
      (eapply owns_perm with (cs' := (p, _) :: (a, _) :: cells p t ++ cells a l ++ cells a r ++ path_cells p k ++ fr) in H; [|solve_perm]);
      exact (owns_distinct _ _ 0 1 _ _ _ _ H eq_refl eq_refl ltac:(done)).
  - intros E. pose proof (word_color (up k) Black 0 0 Hup) as Hc. unfold rb_color in Hc. cbn [node_of parent_color] in Hc.
    rewrite E in Hc. unfold aligned in Hal. change RB_BLACK with 1 in Hc.
    assert (Hb : Z.testbit (Z.land a 3) 0 = Z.testbit (Z.land a 1) 0) by (rewrite !Z.land_spec; done).
    rewrite Hal, Hc in Hb. done.
Qed.

Section walk.
Context (h : mem) (fuel : nat) (t : tree) (fr : list (Z * rb_node)).
Context (H : owns h (cells 0 t ++ fr)) (Hfuel : (height t <= fuel)%nat).

Lemma rb_first_spec : rb_first fuel (h, ptr_of t) = Some (default 0 (head (inorder t))).
Proof using All.
  unfold rb_first. cbn [fst snd]. rewrite (ptr_eqb_0 _ _ _ _ H). destruct (decide (t = E)) as [->|Ht]; [done|].
  destruct (leftmost_spec h fuel 0 t fr H Ht) as (x & xs & -> & E); [lia|]. by destruct t.
Qed.
Lemma rb_last_spec : rb_last fuel (h, ptr_of t) = Some (default 0 (last (inorder t))).
Proof using All.
  unfold rb_last. cbn [fst snd]. rewrite (ptr_eqb_0 _ _ _ _ H). destruct (decide (t = E)) as [->|Ht]; [done|].
  destruct (rightmost_spec h fuel 0 t fr H Ht) as (x & xs & -> & E); [lia|]. rewrite last_snoc. by destruct t.
Qed.
Lemma rb_next_spec xs a ys : inorder t = xs ++ a :: ys -> rb_next fuel h a = Some (default 0 (head ys)).
Proof using All.
  intros (c & l & r & k & Et & _ & ->)%split_place. pose proof (height_plug (T c l a r) k) as Hh. rewrite <- Et in Hh.
  cbn [height] in Hh. pose proof H as H1. rewrite Et in H1.
  eapply owns_perm in H1; [|rewrite cells_plug, <- app_assoc; reflexivity]. cbn [ptr_of] in H1.
  unfold rb_next. rewrite (owns_load _ _ 0 _ _ H1 eq_refl). cbn [mbind option_bind node_of parent_color rb_right].
  rewrite (not_cleared _ _ _ _ _ _ _ H1).
  pose proof H1 as H2. eapply owns_perm with (cs' := cells a r ++ cells a l ++ (a, _) :: path_cells a k ++ fr) in H2; [|solve_perm].
  rewrite (ptr_eqb_0 _ _ _ _ H2). destruct (decide (r = E)) as [->|Hr].
  - apply (climb_right_spec h fuel c l a E k fr H1). lia.
  - destruct (leftmost_spec h fuel _ r _ H2 Hr) as (x & zs & -> & E); [lia|]. by destruct r.
Qed.
Lemma rb_prev_spec xs a ys : inorder t = xs ++ a :: ys -> rb_prev fuel h a = Some (default 0 (last xs)).
Proof using All.
  intros (c & l & r & k & Et & -> & _)%split_place. pose proof (height_plug (T c l a r) k) as Hh. rewrite <- Et in Hh.
  cbn [height] in Hh. pose proof H as H1. rewrite Et in H1.
  eapply owns_perm in H1; [|rewrite cells_plug, <- app_assoc; reflexivity]. cbn [ptr_of] in H1.
  unfold rb_prev. rewrite (owns_load _ _ 0 _ _ H1 eq_refl). cbn [mbind option_bind node_of parent_color rb_left].
  rewrite (not_cleared _ _ _ _ _ _ _ H1).
  pose proof H1 as H2. eapply owns_perm with (cs' := cells a l ++ cells a r ++ (a, _) :: path_cells a k ++ fr) in H2; [|solve_perm].
  rewrite (ptr_eqb_0 _ _ _ _ H2). destruct (decide (l = E)) as [->|Hl].
  - rewrite app_nil_r. apply (climb_left_spec h fuel c E a r k fr H1). lia.
  - destruct (rightmost_spec h fuel _ l _ H2 Hl) as (x & zs & -> & E); [lia|]. rewrite app_assoc, last_snoc. by destruct l.
Qed.
End walk.

(** ** Replacing a node *)

Lemma owns_new h cs a n : owns h cs -> good_addr a -> a ∉ cs.*1 -> owns (<[a := n]> h) ((a, n) :: cs).
Proof.
  intros [O1 O2 O3] Hg Hn. split; [cbn; by constructor|cbn; by constructor|].
  intros b m [[= -> ->]|Hin]%elem_of_cons; [by rewrite lookup_insert_eq|].
  rewrite lookup_insert_ne; [by apply O3|]. intros <-. apply Hn. by apply (list_elem_of_fmap_2 fst) in Hin.
Qed.
Lemma fst_path_cells x y k : (path_cells x k).*1 = (path_cells y k).*1.
Proof. destruct k as [|[c a r|c l a] k]; done. Qed.
Lemma fst_cells p q t : (cells p t).*1 = (cells q t).*1.
Proof. by destruct t. Qed.

Lemma rb_replace_spec h c l a r k b fr :
  owns h (cells 0 (plug (T c l a r) k) ++ fr) -> rbtree (plug (T c l a r) k) ->
  good_addr b -> b ∉ (cells 0 (plug (T c l a r) k) ++ fr).*1 ->
  balanced ((a, node_of (up k) c (ptr_of l) (ptr_of r)) :: fr) (before k ++ inorder l ++ b :: inorder r ++ after k)
    (rb_replace_node a b (h, ptr_of (plug (T c l a r) k))).
Proof.
  intros H Hrb Hg Hnew. rewrite ptr_plug. cbn [ptr_of]. destruct (unplug _ _ Hrb) as (n & Hn & Hk & Hc).
  assert (Ep : cells 0 (plug (T c l a r) k) ++ fr ≡ₚ path_cells a k ++ (a, node_of (up k) c (ptr_of l) (ptr_of r)) :: cells a l ++ cells a r ++ fr)
    by (rewrite cells_plug; solve_perm).
  eapply owns_perm in H; [|exact Ep]. rewrite Ep in Hnew. clear Ep.
  pose proof (aligned_up _ _ _ _ H) as Hup.
  assert (Ha : h !! a = Some (node_of (up k) c (ptr_of l) (ptr_of r)) /\ good_addr a).
  { apply owns_app_r in H. split; [exact (owns_load _ _ 0 _ _ H eq_refl)|exact (owns_good _ _ 0 _ _ H eq_refl)]. }
  destruct Ha as [Hload [Hnz Hal]]. unfold rb_replace_node. cbn [fst]. rewrite Hload. cbn [mbind option_bind]. rewrite word_parent by done.
  destruct (change_child_owns h a b k _ H Hnz) as (h1 & -> & H1); [cbn; apply elem_of_cons; by left|]. cbn [mbind option_bind].
  eapply owns_perm with (cs' := (a, _) :: cells a l ++ cells a r ++ path_cells b k ++ fr) in H1; [|solve_perm].
  rewrite (owns_load _ _ 0 _ _ H1 eq_refl). cbn [mbind option_bind node_of rb_left].
  eapply owns_perm with (cs' := cells a l ++ (a, _) :: cells a r ++ path_cells b k ++ fr) in H1; [|solve_perm].
  destruct (set_parent_if_owns _ _ _ b _ H1 Hal) as (h2 & -> & H2). cbn [mbind option_bind].
  eapply owns_perm with (cs' := (a, _) :: cells a r ++ cells b l ++ path_cells b k ++ fr) in H2; [|solve_perm].
  rewrite (owns_load _ _ 0 _ _ H2 eq_refl). cbn [mbind option_bind node_of rb_right].
  eapply owns_perm with (cs' := cells a r ++ (a, _) :: cells b l ++ path_cells b k ++ fr) in H2; [|solve_perm].
  destruct (set_parent_if_owns _ _ _ b _ H2 Hal) as (h3 & -> & H3). cbn [mbind option_bind].
  eapply owns_perm with (cs' := (a, _) :: cells b l ++ cells b r ++ path_cells b k ++ fr) in H3; [|solve_perm].
  rewrite (owns_load _ _ 0 _ _ H3 eq_refl). cbn [mbind option_bind].
  eapply (balanced_plug n (T c l b r)); [| |done|done|].
  - eapply owns_perm; [|apply (owns_new _ _ b (node_of (up k) c (ptr_of l) (ptr_of r)) H3 Hg)]; [solve_perm|].
    intros Hin. apply Hnew. revert Hin. cbn. rewrite !fmap_app. cbn. rewrite !fmap_app.
    rewrite (fst_cells b a l), (fst_cells b a r), (fst_path_cells b a k). set_solver.
  - inversion Hn; subst; by constructor.
  - solve_order.
Qed.

(** ** The interface *)

(** C22: A tree of [lib/rbtree.c] of [n] nodes is never higher than [2 log2 (n + 1)], and
    [rb_link_node] at any of its empty places followed by [rb_insert_color] puts the new node
    between the nodes before and after that place, leaves a red-black tree and every node
    outside of the tree as it was; the loop of [__rb_insert] runs at most [log2 (n + 1)]
    times. *)
Theorem rb_insert_correct fuel h node k fr : let t := plug E k in
  owns h (cells 0 t ++ fr) -> rbtree t -> good_addr node -> node ∉ (cells 0 t ++ fr).*1 ->
  (Nat.log2 (S (nodes t)) <= fuel)%nat ->
  (height t <= max_height t)%nat /\
  balanced fr (before k ++ node :: after k) (rb_insert fuel node k (h, ptr_of t)).
Proof.
  intros t H Hrb Hg Hn Hf. pose proof (rb_height t Hrb) as Hh. split; [done|]. apply rb_insert_spec; try done.
  pose proof (height_plug E k) as Hp. fold t in Hp. unfold max_height in Hh. cbn [height] in Hp. lia.
Qed.

(** C5: [rb_erase] takes the node out of the in-order sequence and leaves a red-black tree
    of the others: it follows no dangling pointer, changes no node outside of the tree, leaves
    the removed node as it was, and its loops (the search of the successor and
    [__rb_erase_color]) run at most [2 log2 (n + 1)] times. *)
Theorem rb_erase_correct fuel h t fr xs a ys :
  owns h (cells 0 t ++ fr) -> rbtree t -> inorder t = xs ++ a :: ys -> (max_height t <= S fuel)%nat ->
  exists n, h !! a = Some n /\ balanced ((a, n) :: fr) (xs ++ ys) (rb_erase fuel a (h, ptr_of t)).
Proof.
  intros H Hrb Ho Hf. pose proof (rb_height t Hrb) as Hh.
  destruct (split_place _ _ _ _ Ho) as (c & l & r & k & -> & -> & ->). eexists. split; [|rewrite <- app_assoc; apply rb_erase_spec; try done; lia].
  eapply owns_perm in H; [|rewrite cells_plug, <- app_assoc; reflexivity]. exact (owns_load _ _ 0 _ _ H eq_refl).
Qed.

(** C32: [rb_first] and [rb_last] return the ends of the in-order sequence, and [rb_next] and
    [rb_prev] the neighbours of a node in it, NULL where there is none; each follows at most
    [2 log2 (n + 1)] pointers. *)
Theorem rb_walk_correct fuel h t fr xs a ys :
  owns h (cells 0 t ++ fr) -> rbtree t -> inorder t = xs ++ a :: ys -> (max_height t <= fuel)%nat ->
  rb_first fuel (h, ptr_of t) = Some (default 0 (head (xs ++ [a]))) /\
  rb_last fuel (h, ptr_of t) = Some (default 0 (last (a :: ys))) /\
  rb_next fuel h a = Some (default 0 (head ys)) /\
  rb_prev fuel h a = Some (default 0 (last xs)).
Proof.
  intros H Hrb Ho Hf. pose proof (rb_height t Hrb) as Hh. assert (Hfuel : (height t <= fuel)%nat) by lia. split_and!.
  - rewrite (rb_first_spec h fuel t fr H Hfuel), Ho. by destruct xs.
  - rewrite (rb_last_spec h fuel t fr H Hfuel), Ho, last_app. by destruct (last (a :: ys)) eqn:E; [|apply last_None in E].
  - by eapply rb_next_spec.
  - by eapply rb_prev_spec.
Qed.

(** [rb_replace_node] puts the new node in the place of the victim. *)
Theorem rb_replace_correct h t fr xs a ys b :
  owns h (cells 0 t ++ fr) -> rbtree t -> inorder t = xs ++ a :: ys -> good_addr b -> b ∉ (cells 0 t ++ fr).*1 ->
  exists n, h !! a = Some n /\ balanced ((a, n) :: fr) (xs ++ b :: ys) (rb_replace_node a b (h, ptr_of t)).
Proof.
  intros H Hrb Ho Hg Hn. destruct (split_place _ _ _ _ Ho) as (c & l & r & k & -> & -> & ->).
  eexists. split; [|rewrite <- app_assoc; by apply rb_replace_spec].
  eapply owns_perm in H; [|rewrite cells_plug, <- app_assoc; reflexivity]. exact (owns_load _ _ 0 _ _ H eq_refl).
Qed.

(** ** An example *)

#[export] Instance good_addr_dec a : Decision (good_addr a).
Proof. unfold good_addr, aligned. apply _. Defined.
Lemma owns_list cs : bool_decide (NoDup cs.*1 /\ Forall good_addr cs.*1) = true -> owns (list_to_map cs) cs.
Proof.
  intros [H1 H2]%bool_decide_eq_true. split; [done|done|]. intros a n Hin. by apply elem_of_list_to_map_1.
Qed.

Definition sample_tree : tree :=
  T Black (T Black E 4 E) 8 (T Red (T Black E 12 E) 16 (T Black (T Red E 20 E) 24 E)).
Definition sample_rest : list (Z * rb_node) := [(32, node_of 0 Red 0 0)].
Definition sample_mem : mem := list_to_map (cells 0 sample_tree ++ sample_rest).
Definition sample_hole : path :=
  [FL Red 20 E; FL Black 24 E; FR Red (T Black E 12 E) 16; FR Black (T Black E 4 E) 8].

Lemma sample_owns : owns sample_mem (cells 0 sample_tree ++ sample_rest).
Proof. by apply owns_list. Qed.
Lemma sample_rb : rbtree sample_tree.
Proof. split; [done|]. exists 2%nat. solve_bal. Qed.

Lemma rb_insert_correct_witness :
  plug E sample_hole = sample_tree /\
  ((height (plug E sample_hole) <= max_height (plug E sample_hole))%nat /\
   balanced sample_rest (before sample_hole ++ 28 :: after sample_hole) (rb_insert 2 28 sample_hole (sample_mem, 8))).
Proof.
  split; [reflexivity|].
  apply (rb_insert_correct 2 sample_mem 28 sample_hole sample_rest sample_owns sample_rb);
    [by apply (bool_decide_unpack _)|by apply (bool_decide_unpack _)|vm_compute; lia].
Defined.

Lemma rb_erase_correct_witness :
  inorder sample_tree = [4] ++ 8 :: [12; 16; 20; 24] /\
  exists n, sample_mem !! 8 = Some n /\
    balanced ((8, n) :: sample_rest) ([4] ++ [12; 16; 20; 24]) (rb_erase 3 8 (sample_mem, ptr_of sample_tree)).
Proof.
  split; [reflexivity|].
  apply (rb_erase_correct 3 sample_mem sample_tree sample_rest [4] 8 [12; 16; 20; 24] sample_owns sample_rb);
    [reflexivity|vm_compute; lia].
Defined.

Lemma rb_walk_correct_witness :
  rb_first 4 (sample_mem, ptr_of sample_tree) = Some 4 /\ rb_last 4 (sample_mem, ptr_of sample_tree) = Some 24 /\
  rb_next 4 sample_mem 16 = Some 20 /\ rb_prev 4 sample_mem 16 = Some 12.
Proof.
  apply (rb_walk_correct 4 sample_mem sample_tree sample_rest [4; 8; 12] 16 [20; 24] sample_owns sample_rb);
    [reflexivity|vm_compute; lia].
Defined.

Lemma rb_replace_correct_witness :
  exists n, sample_mem !! 16 = Some n /\
    balanced ((16, n) :: sample_rest) ([4; 8; 12] ++ 28 :: [20; 24]) (rb_replace_node 16 28 (sample_mem, ptr_of sample_tree)).
Proof.
  apply (rb_replace_correct sample_mem sample_tree sample_rest [4; 8; 12] 16 [20; 24] 28 sample_owns sample_rb);
    [reflexivity|by apply (bool_decide_unpack _)|by apply (bool_decide_unpack _)].
Defined.
