(* ===== verification/Sort.v ===== *)
(** * The heap sort of the kernel: lib/sort.c

    [sort] on an array of bytes that holds elements of any size, with the comparison
    function as an argument and the two swap functions of the file.  Counters are
    offsets in bytes, 32-bit as in the code.  [None] is an access outside the array or
    a loop that ran out of fuel. *)

From Stdlib Require Import ZArith Lia Bool.
From stdpp Require Import base numbers list sorting.
From S2P Require Import Prelude.
Open Scope Z_scope.

(** ** Memory *)

Definition get_bytes (m : list Z) (off n : Z) : option (list Z) :=
  if (0 <=? off) && (0 <=? n) && (off + n <=? Z.of_nat (length m))
  then Some (take (Z.to_nat n) (drop (Z.to_nat off) m)) else None.
Definition put_bytes (m : list Z) (off : Z) (x : list Z) : option (list Z) :=
  if (0 <=? off) && (off + Z.of_nat (length x) <=? Z.of_nat (length m))
  then Some (take (Z.to_nat off) m ++ x ++ drop (Z.to_nat off + length x) m) else None.

(** ** The functions *)

Definition u32_swap (m : list Z) (a b : Z) : option (list Z) :=
  t ← get_bytes m a 4;
  x ← get_bytes m b 4;
  m ← put_bytes m a x;
  put_bytes m b t.

(** [do ... while (--size > 0)] *)
Fixpoint generic_swap (size : nat) (m : list Z) (a b : Z) : option (list Z) :=
  t ← get_bytes m a 1;
  x ← get_bytes m b 1;
  m ← put_bytes m a x;
  m ← put_bytes m b t;
  match size with
  | S (S _ as size) => generic_swap size m (a + 1) (b + 1)
  | _ => Some m
  end.

Section sort.
(** The comparison function, on the contents of two elements. *)
Variable cmp_func : list Z -> list Z -> Z.
(** [swap_func], if it is not NULL. *)
Variable swap_func : option (list Z -> Z -> Z -> Z -> option (list Z)).

Definition swap (m : list Z) (a b size : Z) : option (list Z) :=
  match swap_func with
  | Some f => f m a b size
  | None => if size =? 4 then u32_swap m a b else generic_swap (Z.to_nat size) m a b
  end.
Definition cmp (m : list Z) (a b size : Z) : option Z :=
  x ← get_bytes m a size;
  y ← get_bytes m b size;
  Some (cmp_func x y).

(** The inner loop: the element at [r] goes down the heap of the first [n] bytes. *)
Fixpoint sift_down (fuel : nat) (m : list Z) (size n r : Z) : option (list Z) :=
  if u32 (r * 2 + size) <? u32 n then
    let c := s32 (r * 2 + size) in
    right ← (if u32 c <? u32 (n - size) then v ← cmp m c (c + size) size; Some (v <? 0) else Some false);
    let c := if right : bool then s32 (c + size) else c in
    v ← cmp m r c size;
    if 0 <=? v then Some m
    else
      match fuel with
      | O => None
      | S fuel => m ← swap m r c size; sift_down fuel m size n c
      end
  else Some m.

(** [for ( ; i >= 0; i -= size)] *)
Fixpoint heapify (fuel : nat) (num : nat) (m : list Z) (size n i : Z) : option (list Z) :=
  if 0 <=? i then
    match fuel with
    | O => None
    | S fuel => m ← sift_down num m size n i; heapify fuel num m size n (s32 (i - size))
    end
  else Some m.

(** [for (i = n - size; i > 0; i -= size)] *)
Fixpoint extract (fuel : nat) (num : nat) (m : list Z) (size i : Z) : option (list Z) :=
  if 0 <? i then
    match fuel with
    | O => None
    | S fuel =>
        m ← swap m 0 i size;
        m ← sift_down num m size i 0;
        extract fuel num m size (s32 (i - size))
    end
  else Some m.

(** No loop makes more rounds than there are elements. *)
Definition sort (m : list Z) (num size : Z) : option (list Z) :=
  let i := s32 (u32 (num / 2 - 1) * size) in
  let n := s32 (num * size) in
  m ← heapify (Z.to_nat num) (Z.to_nat num) m size n i;
  extract (Z.to_nat num) (Z.to_nat num) m size (s32 (n - size)).
End sort.
