(* ===== verification/SortProofs.v ===== *)
(** * The kernel's heap sort sorts

    An array is the concatenation of its elements.  The inner loop restores the heap
    below an element, the first loop builds a heap and the second one moves its largest
    element behind it, so the result is a sorted permutation of the elements, for every
    comparison function that is a total preorder. *)

From Stdlib Require Import ZArith Lia Bool.
From stdpp Require Import base numbers list sorting.
From S2P Require Import Prelude Sort.
Open Scope Z_scope.

Local Notation zlen l := (Z.of_nat (length l)).

(** ** Bytes of a part of the array *)

Lemma get_bytes_mid p x r : get_bytes (p ++ x ++ r) (zlen p) (zlen x) = Some x.
Proof.
  unfold get_bytes. rewrite !length_app, !(proj2 (Z.leb_le _ _)) by lia. cbn [andb].
  by rewrite !Nat2Z.id, drop_app_length, take_app_length.
Qed.
Lemma put_bytes_mid p x y r : length x = length y -> put_bytes (p ++ x ++ r) (zlen p) y = Some (p ++ y ++ r).
Proof.
  intros E. unfold put_bytes. rewrite !length_app, !(proj2 (Z.leb_le _ _)) by lia. cbn [andb].
  rewrite Nat2Z.id, take_app_length, <- drop_drop, drop_app_length, <- E, drop_app_length. done.
Qed.

(** ** Swapping two parts *)

Definition swaps (f : list Z -> Z -> Z -> Z -> option (list Z)) (size : Z) : Prop :=
  forall p x q y r, zlen x = size -> zlen y = size ->
    f (p ++ x ++ q ++ y ++ r) (zlen p) (zlen (p ++ x ++ q)) size = Some (p ++ y ++ q ++ x ++ r).

Lemma swap_parts p x q y r :
  length x = length y ->
  (t ← get_bytes (p ++ x ++ q ++ y ++ r) (zlen p) (zlen x);
   z ← get_bytes (p ++ x ++ q ++ y ++ r) (zlen (p ++ x ++ q)) (zlen x);
   m ← put_bytes (p ++ x ++ q ++ y ++ r) (zlen p) z;
   put_bytes m (zlen (p ++ x ++ q)) t) = Some (p ++ y ++ q ++ x ++ r).
Proof.
  intros E. rewrite get_bytes_mid. cbn [mbind option_bind].
  replace (p ++ x ++ q ++ y ++ r) with ((p ++ x ++ q) ++ y ++ r) at 1 by (by rewrite <- !app_assoc).
  rewrite E, get_bytes_mid. cbn [mbind option_bind]. rewrite put_bytes_mid by done. cbn [mbind option_bind].
  replace (p ++ y ++ q ++ y ++ r) with ((p ++ y ++ q) ++ y ++ r) by (by rewrite <- !app_assoc).
  replace (zlen (p ++ x ++ q)) with (zlen (p ++ y ++ q)) by (rewrite !length_app; lia).
  rewrite put_bytes_mid by done. by rewrite <- !app_assoc.
Qed.

Lemma u32_swap_swaps : swaps (fun m a b _ => u32_swap m a b) 4.
Proof. intros p x q y r Hx Hy. unfold u32_swap. rewrite <- Hx. apply swap_parts. lia. Qed.

Lemma generic_swap_eq n m a b :
  generic_swap n m a b =
    m ← (t ← get_bytes m a 1; x ← get_bytes m b 1; m ← put_bytes m a x; put_bytes m b t);
    match n with S (S k) => generic_swap (S k) m (a + 1) (b + 1) | _ => Some m end.
Proof.
  destruct n as [|[|k]]; cbn [generic_swap];
    (destruct (get_bytes m a 1); [|done]); cbn [mbind option_bind];
    (destruct (get_bytes m b 1); [|done]); cbn [mbind option_bind];
    by destruct (put_bytes m a _).
Qed.

Lemma generic_swap_swaps n p x q y r :
  length x = S n -> length y = S n ->
  generic_swap (S n) (p ++ x ++ q ++ y ++ r) (zlen p) (zlen (p ++ x ++ q)) = Some (p ++ y ++ q ++ x ++ r).
Proof.
  revert p x q y. induction n as [|n IH]; intros p [|a x] q [|b y] Hx Hy; try done; rewrite generic_swap_eq.
  - destruct x; [|done]. destruct y; [|done]. pose proof (swap_parts p [a] q [b] r eq_refl) as E.
    change (zlen [a]) with 1 in E. by rewrite E.
  - pose proof (swap_parts p [a] (x ++ q) [b] (y ++ r) eq_refl) as E. change (zlen [a]) with 1 in E.
    replace (p ++ (a :: x) ++ q ++ (b :: y) ++ r) with (p ++ [a] ++ (x ++ q) ++ [b] ++ y ++ r) by (by rewrite <- !app_assoc).
    replace (p ++ (a :: x) ++ q) with (p ++ [a] ++ x ++ q) by done. rewrite E. cbn [mbind option_bind].
    specialize (IH (p ++ [b]) x (q ++ [a]) y). rewrite <- !app_assoc in *.
    replace (zlen (p ++ [b])) with (zlen p + 1) in IH by (rewrite length_app; cbn; lia).
    replace (zlen (p ++ [b] ++ x ++ q ++ [a])) with (zlen (p ++ [a] ++ x ++ q) + 1) in IH by (rewrite !length_app; cbn; lia).
    apply IH; cbn in *; lia.
Qed.

(** ** The array of elements *)

Section elements.
Variable size : Z.
Hypothesis size_pos : 1 <= size.
Definition elements (L : list (list Z)) : Prop := Forall (fun x => zlen x = size) L.

Lemma concat_length L : elements L -> zlen (concat L) = zlen L * size.
Proof. induction 1 as [|x L Hx _ IH]; cbn; [done|]. rewrite length_app. lia. Qed.

Lemma elements_app L1 L2 : elements (L1 ++ L2) <-> elements L1 /\ elements L2.
Proof. apply Forall_app. Qed.
Lemma elements_perm L1 L2 : L1 ≡ₚ L2 -> elements L1 -> elements L2.
Proof. intros E. unfold elements. by rewrite E. Qed.

Lemma get_element L k x : elements L -> L !! k = Some x -> get_bytes (concat L) (Z.of_nat k * size) size = Some x.
Proof.
  intros HL Hk. rewrite <- (take_drop_middle _ _ _ Hk) in HL |- *. apply elements_app in HL as [H1 H2].
  apply Forall_cons in H2 as [Hx H2]. rewrite concat_app. cbn [concat].
  replace (Z.of_nat k * size) with (zlen (concat (take k L))).
  - rewrite <- Hx. apply get_bytes_mid.
  - rewrite concat_length by done. rewrite length_take. apply lookup_lt_Some in Hk. f_equal. lia.
Qed.
End elements.

Definition swapped {A} (L : list A) (i j : nat) (x y : A) : list A := <[i := y]> (<[j := x]> L).

Lemma swapped_split {A} (L : list A) i j x y : (i < j)%nat -> L !! i = Some x -> L !! j = Some y ->
  exists p q r, L = p ++ x :: q ++ y :: r /\ length p = i /\ length q = (j - i - 1)%nat /\
    swapped L i j x y = p ++ y :: q ++ x :: r.
Proof.
  intros Hij Hi Hj. exists (take i L), (take (j - i - 1) (drop (S i) L)), (drop (S j) L).
  pose proof (lookup_lt_Some _ _ _ Hj) as Hl.
  assert (E : drop (S i) L = take (j - i - 1) (drop (S i) L) ++ y :: drop (S j) L).
  { rewrite <- (take_drop (j - i - 1) (drop (S i) L)) at 1. f_equal. rewrite drop_drop.
    replace (S i + (j - i - 1))%nat with j by lia. by apply drop_S. }
  assert (E0 : L = take i L ++ x :: take (j - i - 1) (drop (S i) L) ++ y :: drop (S j) L).
  { rewrite <- E. symmetry. by apply take_drop_middle. }
  assert (L1 : length (take i L) = i) by (rewrite length_take; lia).
  assert (L2 : length (take (j - i - 1) (drop (S i) L)) = (j - i - 1)%nat) by (rewrite length_take, length_drop; lia).
  split_and!; try done. revert E0 L1 L2. generalize (take i L) (take (j - i - 1) (drop (S i) L)) (drop (S j) L).
  intros p q r -> L1 L2. unfold swapped.
  replace j with (length p + S (length q + 0))%nat by lia. rewrite insert_app_r.
  change (<[S (length q + 0) := x]> (x :: q ++ y :: r)) with (x :: <[(length q + 0)%nat := x]> (q ++ y :: r)).
  rewrite insert_app_r. replace i with (length p + 0)%nat by lia. by rewrite insert_app_r.
Qed.

Lemma swapped_perm {A} (L : list A) i j x y : (i < j)%nat -> L !! i = Some x -> L !! j = Some y -> swapped L i j x y ≡ₚ L.
Proof.
  intros Hij Hi Hj. destruct (swapped_split L i j x y Hij Hi Hj) as (p & q & r & -> & _ & _ & ->).
  apply Permutation_app_head. rewrite !(Permutation_app_comm q). cbn. rewrite perm_swap. done.
Qed.
Lemma swapped_lookup {A} (L : list A) i j x y k : (i < j)%nat -> L !! i = Some x -> L !! j = Some y ->
  swapped L i j x y !! k = if decide (k = i) then Some y else if decide (k = j) then Some x else L !! k.
Proof.
  intros Hij Hi Hj. apply lookup_lt_Some in Hi as H1. apply lookup_lt_Some in Hj as H2. unfold swapped.
  destruct (decide (k = i)) as [->|]; [apply list_lookup_insert_eq; rewrite length_insert; lia|].
  rewrite list_lookup_insert_ne by done. destruct (decide (k = j)) as [->|]; [by apply list_lookup_insert_eq|].
  by apply list_lookup_insert_ne.
Qed.

(** ** Heaps *)

Section heap.
Variable cmp_func : list Z -> list Z -> Z.
Definition le (x y : list Z) : Prop := cmp_func x y <= 0.
(** What the sort needs of its comparison function. *)
Record preorder : Prop := mkPreorder {
  cmp_total : forall x y, 0 <= cmp_func x y -> le y x;
  cmp_trans : forall x y z, le x y -> le y z -> le x z
}.
Hypothesis Hcmp : preorder.

Lemma le_refl x : le x x.
Proof. unfold le. destruct (Z.le_gt_cases 0 (cmp_func x x)); [by apply cmp_total|lia]. Qed.

Implicit Types L : list (list Z).
Definition child (k p : nat) : Prop := k = (2 * p + 1)%nat \/ k = (2 * p + 2)%nat.
Definition below L (k p : nat) : Prop := forall x y, L !! p = Some x -> L !! k = Some y -> le y x.

(** A heap among the nodes from [lo] to [n], and one that may fail at [r]. *)
Definition heap (lo n : nat) L : Prop := forall p k, (lo <= p)%nat -> child k p -> (k < n)%nat -> below L k p.
Definition heap_but (r lo n : nat) L : Prop :=
  (forall p k, (lo <= p)%nat -> p <> r -> child k p -> (k < n)%nat -> below L k p) /\
  (forall g k, (lo <= g)%nat -> child r g -> child k r -> (k < n)%nat -> below L k g).

Lemma heap_root lo n L k : heap lo n L -> lo = 0%nat -> (k < n)%nat -> below L k 0.
Proof.
  intros Hh ->. induction (lt_wf k) as [k _ IH]. intros Hk x y Hx Hy.
  destruct (decide (k = 0)%nat) as [->|]; [simplify_eq; apply le_refl|].
  set (p := ((k - 1) / 2)%nat). assert (Hc : child k p).
  { unfold child, p. pose proof (Nat.div_mod (k - 1) 2 ltac:(lia)). pose proof (Nat.mod_upper_bound (k - 1) 2 ltac:(lia)). lia. }
  assert (p < k)%nat by (unfold child in Hc; lia).
  destruct (lookup_lt_is_Some_2 L p) as [z Hz]; [apply lookup_lt_Some in Hy; lia|].
  eapply cmp_trans; [done|by apply (Hh p k); [lia|..]|]. by apply (IH p); [lia|lia|..].
Qed.

(** Moving the larger child [c] up leaves the place to repair at [c]. *)
Lemma heap_but_swap r c lo n L x y :
  (lo <= r)%nat -> child c r -> (c < n)%nat -> L !! r = Some x -> L !! c = Some y -> le x y ->
  (forall k, child k r -> (k < n)%nat -> below L k c) -> heap_but r lo n L ->
  heap_but c lo n (swapped L r c x y).
Proof.
  intros Hlo Hc Hn Hx Hy Hxy Hsib [H1 H2]. assert (Hrc : (r < c)%nat) by (unfold child in Hc; lia).
  split.
  - intros p k Hp Hpc Hk Hkn a b. rewrite !swapped_lookup by done. unfold child in *.
    destruct (decide (p = r)) as [->|].
    + rewrite decide_False by lia. intros [= <-]. destruct (decide (k = c)) as [->|]; [by intros [= <-]|]. intros Hb.
      by eapply (Hsib k).
    + rewrite decide_False by done. intros Ha. destruct (decide (k = r)) as [->|].
      * intros [= <-]. by eapply (H2 p c).
      * rewrite decide_False by lia. by apply (H1 p k).
  - intros g k Hg Hcg Hk Hkn a b. rewrite !swapped_lookup by done. unfold child in *.
    assert (g = r) as -> by lia. rewrite decide_True by done. intros [= <-].
    rewrite !decide_False by lia. intros Hb. by eapply (H1 c k); [lia..|done|done].
Qed.

(** Nothing to repair when [r] is not below its largest child, or has none. *)
Lemma heap_but_done r lo n L :
  heap_but r lo n L -> (forall k, child k r -> (k < n)%nat -> below L k r) -> heap lo n L.
Proof. intros [H1 _] Hr p k Hp Hc Hk. destruct (decide (p = r)) as [->|]; [by apply Hr|by apply H1]. Qed.
End heap.

(** ** The loops *)

Section loops.
Variable cmp_func : list Z -> list Z -> Z.
Variable swap_func : option (list Z -> Z -> Z -> Z -> option (list Z)).
Variable size : Z.
Hypothesis Hcmp : preorder cmp_func.
Hypothesis size_pos : 1 <= size.
Hypothesis swap_ok : forall f, swap_func = Some f -> swaps f size.
Implicit Types L : list (list Z).
Local Notation le := (le cmp_func).
Local Notation heap := (heap cmp_func).
Local Notation heap_but := (heap_but cmp_func).
Local Notation at_ k := (Z.of_nat k * size).

Lemma swap_swaps : swaps (swap swap_func) size.
Proof.
  unfold swap. destruct swap_func as [f|]; [by apply swap_ok|]. intros p x q y r Hx Hy.
  destruct (Z.eqb_spec size 4) as [E|_]; [rewrite E in Hx, Hy; by apply u32_swap_swaps|].
  destruct (Z.to_nat size) as [|n] eqn:E; [lia|]. apply generic_swap_swaps; lia.
Qed.

Lemma swap_elements L i j x y : (i < j)%nat -> L !! i = Some x -> L !! j = Some y -> elements size L ->
  swap swap_func (concat L) (at_ i) (at_ j) size = Some (concat (swapped L i j x y)).
Proof.
  intros Hij Hi Hj HL. destruct (swapped_split L i j x y Hij Hi Hj) as (p & q & r & -> & Lp & Lq & ->).
  apply elements_app in HL as [HP HL]. apply Forall_cons in HL as [Hx HL]. apply elements_app in HL as [HQ HL].
  apply Forall_cons in HL as [Hy HR]. rewrite !concat_app. cbn [concat]. rewrite !concat_app. cbn [concat].
  replace (at_ i) with (zlen (concat p)) by (rewrite (concat_length size) by done; lia).
  replace (at_ j) with (zlen (concat p ++ x ++ concat q)); [by apply swap_swaps|].
  rewrite !length_app, !Nat2Z.inj_add, !(concat_length size), Hx by done. nia.
Qed.

Lemma cmp_elements L i j x y : L !! i = Some x -> L !! j = Some y -> elements size L ->
  cmp cmp_func (concat L) (at_ i) (at_ j) size = Some (cmp_func x y).
Proof. intros Hi Hj HL. unfold cmp. by rewrite (get_element size L i x), (get_element size L j y). Qed.

(** Offsets stay below 2 GiB. *)
Definition small (n : nat) : Prop := at_ n < 2147483648.
Lemma small_u32 n k : small n -> (k <= n)%nat -> u32 (at_ k) = at_ k /\ s32 (at_ k) = at_ k.
Proof.
  unfold small. intros Hn Hk. assert (0 <= at_ k < 2147483648) by nia. unfold s32.
  rewrite u32_id by (unfold is_u32; lia). rewrite (proj2 (Z.ltb_lt _ _)) by lia. lia.
Qed.
Lemma scale_ltb a b : (Z.of_nat a * size <? Z.of_nat b * size) = (a <? b)%nat.
Proof. apply eq_true_iff_eq. rewrite Z.ltb_lt, Nat.ltb_lt. nia. Qed.

(** The child the loop compares with: the larger of the two. *)
Lemma pick_child L n r x : elements size L -> small n -> (n <= length L)%nat -> L !! r = Some x -> (2 * r + 1 < n)%nat ->
  exists c y, child c r /\ (c < n)%nat /\ L !! c = Some y /\
    (forall k, child k r -> (k < n)%nat -> below cmp_func L k c) /\
    (right ← (if u32 (at_ (2 * r + 1)) <? u32 (at_ n - size)
              then v ← cmp cmp_func (concat L) (at_ (2 * r + 1)) (at_ (2 * r + 1) + size) size; Some (v <? 0) else Some false);
     Some (if right : bool then s32 (at_ (2 * r + 1) + size) else at_ (2 * r + 1))) = Some (at_ c).
Proof.
  intros HL Hn Hnl Hr Hc. destruct (small_u32 n (2 * r + 1) Hn) as [E1 _]; [lia|]. rewrite E1.
  replace (at_ n - size) with (at_ (n - 1)) by lia. destruct (small_u32 n (n - 1) Hn) as [E2 _]; [lia|]. rewrite E2, scale_ltb.
  destruct (lookup_lt_is_Some_2 L (2 * r + 1)) as [y Hy]; [lia|].
  replace (at_ (2 * r + 1) + size) with (at_ (2 * r + 2)) by lia.
  destruct (Nat.ltb_spec (2 * r + 1) (n - 1)).
  - destruct (lookup_lt_is_Some_2 L (2 * r + 2)) as [z Hz]; [lia|].
    rewrite (cmp_elements L _ _ y z) by done. cbn [mbind option_bind].
    destruct (Z.ltb_spec (cmp_func y z) 0).
    + exists (2 * r + 2)%nat, z. destruct (small_u32 n (2 * r + 2) Hn) as [_ ->]; [lia|].
      split_and!; try done; [by right|lia|]. intros k [->| ->] _ a b Ha Hb; simplify_eq.
      * unfold SortProofs.le. lia.
      * by apply le_refl.
    + exists (2 * r + 1)%nat, y. split_and!; try done; [by left|]. intros k [->| ->] _ a b Ha Hb; simplify_eq.
      * by apply le_refl.
      * by apply cmp_total.
  - cbn [mbind option_bind]. exists (2 * r + 1)%nat, y. split_and!; try done; [by left|].
    intros k [->| ->] Hk a b Ha Hb; simplify_eq; [by apply le_refl|lia].
Qed.

Lemma sift_down_spec fuel lo n r L :
  elements size L -> small n -> (n <= length L)%nat -> (lo <= r < n)%nat -> (n <= fuel + r + 1)%nat -> heap_but r lo n L ->
  exists L', sift_down cmp_func swap_func fuel (concat L) size (at_ n) (at_ r) = Some (concat L') /\ L' ≡ₚ L /\
    heap lo n L' /\ drop n L' = drop n L.
Proof.
  revert r L. induction fuel as [|fuel IH]; intros r L HL Hn Hnl Hr Hfuel Hh; cbn [sift_down];
    (replace (at_ r * 2 + size) with (at_ (2 * r + 1)) by lia);
    (rewrite (u32_id (at_ (2 * r + 1))) by (unfold is_u32, small in *; nia));
    destruct (small_u32 n n Hn) as [-> _]; [done| |done|]; rewrite scale_ltb;
    (destruct (Nat.ltb_spec (2 * r + 1) n) as [Hc|Hc];
      [|exists L; split_and!; try done; apply (heap_but_done _ r); [done|]; unfold child; lia]); [lia|].
  destruct (lookup_lt_is_Some_2 L r) as [x Hx]; [lia|].
  destruct (small_u32 n (2 * r + 1) Hn) as [_ ->]; [lia|].
  destruct (pick_child L n r x HL Hn Hnl Hx Hc) as (c & y & Hcr & Hcn & Hy & Hmax & Ec).
  destruct (if u32 (at_ (2 * r + 1)) <? u32 (at_ n - size) then _ else _) as [right|]; [|done].
  cbn [mbind option_bind] in Ec |- *. apply (inj Some) in Ec. rewrite Ec. rewrite (cmp_elements L r c x y) by done. cbn [mbind option_bind].
  destruct (Z.leb_spec 0 (cmp_func x y)) as [Hle|Hle].
  - exists L. split_and!; try done. apply (heap_but_done _ r); [done|]. intros k Hk Hkn a b Ha Hb. simplify_eq.
    eapply cmp_trans; [done|by apply (Hmax k)|by apply cmp_total].
  - rewrite (swap_elements L r c x y) by (unfold child in *; first [done|lia]). cbn [mbind option_bind].
    assert (Hrc : (r < c)%nat) by (unfold child in *; lia).
    pose proof (swapped_perm L r c x y Hrc Hx Hy) as Hp.
    destruct (IH c (swapped L r c x y)) as (L' & E & Hperm & Hheap & Hd); try lia.
    + by eapply elements_perm.
    + done.
    + unfold swapped. by rewrite !length_insert.
    + apply heap_but_swap; try done; [lia|]. unfold SortProofs.le. lia.
    + exists L'. split_and!; try done; [by rewrite Hperm|]. rewrite Hd. unfold swapped.
      by rewrite !drop_insert_lt by lia.
Qed.

(** The loops over the elements go down to an offset below zero. *)
Lemma step_down k : size < 2147483648 -> small k ->
  (k = 0%nat -> s32 (at_ k - size) < 0) /\ (k <> 0%nat -> s32 (at_ k - size) = at_ (k - 1)).
Proof.
  intros Hs Hk. unfold small in Hk. split.
  - intros ->. unfold s32, u32. destruct (Z.ltb_spec ((Z.of_nat 0 * size - size) `mod` 4294967296) 2147483648); zlia.
  - intros. replace (at_ k - size) with (at_ (k - 1)) by nia. apply (small_u32 k); [done|lia].
Qed.

Lemma heapify_spec fuel i L :
  size < 2147483648 -> elements size L -> small (length L) -> (S i <= fuel)%nat -> (i < length L)%nat ->
  heap (S i) (length L) L ->
  exists L', heapify cmp_func swap_func fuel (length L) (concat L) size (at_ (length L)) (at_ i) = Some (concat L') /\
    L' ≡ₚ L /\ heap 0 (length L) L'.
Proof.
  intros Hs. revert i L. induction fuel as [|fuel IH]; intros i L HL Hn Hf Hi Hh; [lia|]. cbn [heapify].
  rewrite (proj2 (Z.leb_le _ _)) by lia.
  destruct (sift_down_spec (length L) i (length L) i L) as (L1 & -> & Hp & Hh1 & _); try done; try lia.
  { split; [|unfold child; lia]. intros p k Hp Hpi. apply Hh. lia. }
  cbn [mbind option_bind]. destruct (step_down i Hs) as [H0 H1]; [unfold small in *; nia|].
  pose proof (Permutation_length Hp) as El. destruct i as [|i].
  - exists L1. split_and!; try done. specialize (H0 eq_refl). destruct fuel; cbn [heapify];
    by rewrite (proj2 (Z.leb_gt _ _)).
  - rewrite H1 by lia. replace (S i - 1)%nat with i by lia. rewrite <- El.
    destruct (IH i L1) as (L2 & E & Hp2 & Hh2); rewrite ?El; try done; try lia; [by eapply elements_perm|].
    rewrite El in E, Hh2. exists L2. split_and!; try done. by rewrite Hp2.
Qed.

(** The part behind the heap is sorted, and not below the heap. *)
Definition sorted_from (n : nat) L : Prop :=
  StronglySorted le (drop n L) /\ forall x y, x ∈ take n L -> y ∈ drop n L -> le x y.

Lemma take_perm L1 L2 n : L1 ≡ₚ L2 -> drop n L1 = drop n L2 -> take n L1 ≡ₚ take n L2.
Proof.
  intros Hp Hd. rewrite <- (take_drop n L1), <- (take_drop n L2), Hd in Hp. by apply Permutation_app_inv_r in Hp.
Qed.

(** One round: the largest element goes behind the heap. *)
Lemma extract_round i L x y L2 :
  (0 < i < length L)%nat -> L !! 0%nat = Some x -> L !! i = Some y -> heap 0 (S i) L -> sorted_from (S i) L ->
  L2 ≡ₚ swapped L 0 i x y -> drop i L2 = drop i (swapped L 0 i x y) -> sorted_from i L2.
Proof.
  intros Hi Hx Hy Hh [Hs Hle] Hp Hd. set (L1 := swapped L 0 i x y) in *.
  assert (Hlook : forall k, L1 !! k = if decide (k = 0%nat) then Some y else if decide (k = i) then Some x else L !! k)
    by (intros k; apply swapped_lookup; [lia|done..]).
  assert (Ed : drop i L1 = x :: drop (S i) L).
  { rewrite (drop_S L1 x i) by (rewrite Hlook, decide_False, decide_True by lia; done).
    f_equal. unfold L1, swapped. by rewrite !drop_insert_lt by lia. }
  assert (Hx_in : x ∈ take (S i) L) by (apply list_elem_of_lookup; exists 0%nat; rewrite lookup_take_lt by lia; done).
  assert (Hmax : forall a, a ∈ take i L1 -> a ∈ take (S i) L /\ le a x).
  { intros a (k & Hk)%list_elem_of_lookup. assert (k < i)%nat.
    { apply lookup_lt_Some in Hk. rewrite length_take in Hk. lia. }
    rewrite lookup_take_lt, Hlook in Hk by done.
    assert (Hj : exists j, (j < S i)%nat /\ L !! j = Some a).
    { destruct (decide (k = 0%nat)); [exists i; simplify_eq; split; [lia|done]|]. rewrite decide_False in Hk by lia. exists k. split; [lia|done]. }
    destruct Hj as (j & Hj & Ha). split.
    - apply list_elem_of_lookup. exists j. by rewrite lookup_take_lt.
    - by eapply (heap_root _ Hcmp 0 (S i) L j). }
  split.
  - rewrite Hd, Ed. constructor; [done|]. apply Forall_forall. intros z Hz. by apply Hle.
  - intros a b Ha. rewrite Hd, Ed. rewrite (take_perm L2 L1 i Hp Hd) in Ha. apply Hmax in Ha as [Ha1 Ha2].
    intros [->|Hb]%elem_of_cons; [done|]. by apply Hle.
Qed.

Lemma extract_spec fuel i L :
  size < 2147483648 -> elements size L -> small (length L) -> (i <= fuel)%nat -> (i < length L)%nat ->
  heap 0 (S i) L -> sorted_from (S i) L ->
  exists L', extract cmp_func swap_func fuel (length L) (concat L) size (at_ i) = Some (concat L') /\
    L' ≡ₚ L /\ StronglySorted le L'.
Proof.
  intros Hsz. revert fuel L. induction i as [|i IH]; intros fuel L HL Hn Hf Hi Hh Hs.
  - exists L. destruct L as [|x L]; [cbn in Hi; lia|]. split_and!; [by destruct fuel|done|].
    destruct Hs as [Hs Hle]. constructor; [done|]. apply Forall_forall. intros y Hy. apply Hle; [|done]. by apply elem_of_cons; left.
  - destruct fuel as [|fuel]; [lia|]. cbn [extract]. rewrite (proj2 (Z.ltb_lt _ _)) by lia.
    destruct (lookup_lt_is_Some_2 L 0) as [x Hx]; [lia|]. destruct (lookup_lt_is_Some_2 L (S i)) as [y Hy]; [lia|].
    change (swap swap_func (concat L) 0) with (swap swap_func (concat L) (at_ 0)). rewrite (swap_elements L 0 (S i) x y) by (done || lia). cbn [mbind option_bind].
    pose proof (swapped_perm L 0 (S i) x y ltac:(lia) Hx Hy) as Hp. set (L1 := swapped L 0 (S i) x y) in *.
    pose proof (Permutation_length Hp) as El.
    assert (HL1 : elements size L1) by by eapply elements_perm.
    destruct (sift_down_spec (length L) 0 (S i) 0 L1) as (L2 & E2 & Hp2 & Hh2 & Hd2); try done; try lia.
    { unfold small in *. nia. }
    { split; [|unfold child; lia]. intros p k _ Hp0 Hk Hki a b. unfold L1. rewrite !swapped_lookup by (done || lia).
      unfold child in Hk. rewrite !decide_False by lia. apply Hh; unfold child; lia. }
    change (at_ 0) with 0 in E2. rewrite E2. cbn [mbind option_bind].
    destruct (step_down (S i) Hsz) as [_ E]; [unfold small in *; nia|]. rewrite E by lia. replace (S i - 1)%nat with i by lia.
    pose proof (Permutation_length Hp2) as El2. replace (length L) with (length L2) by lia.
    destruct (IH fuel L2) as (L' & E' & Hp' & Hs'); try lia; try done.
    + by eapply elements_perm.
    + by rewrite El2, El.
    + eapply (extract_round (S i) L x y); try done; lia.
    + exists L'. split_and!; try done. by rewrite Hp', Hp2, Hp.
Qed.
End loops.

(** The first loop. *)
Lemma heapify_all cmp_func swap_func size L :
  preorder cmp_func -> (forall f, swap_func = Some f -> swaps f size) -> 1 <= size < 2147483648 ->
  elements size L -> zlen L * size < 2147483648 ->
  exists L1, heapify cmp_func swap_func (length L) (length L) (concat L) size (zlen L * size)
    (s32 (u32 (zlen L / 2 - 1) * size)) = Some (concat L1) /\ L1 ≡ₚ L /\ heap cmp_func 0 (length L) L1.
Proof.
  intros Hc Hsw Hs HL Hn. destruct (decide (length L < 2)%nat) as [Hlt|Hge].
  - exists L. split_and!; [|done|unfold heap, child; lia].
    assert (E : s32 (u32 (zlen L / 2 - 1) * size) < 0).
    { replace (zlen L / 2 - 1) with (-1) by zlia. change (u32 (-1)) with 4294967295.
      unfold s32, u32. destruct (Z.ltb_spec ((4294967295 * size) `mod` 4294967296) 2147483648); zlia. }
    destruct (length L); cbn [heapify]; by rewrite (proj2 (Z.leb_gt _ _)).
  - set (i := (length L / 2 - 1)%nat).
    assert (Hi : zlen L / 2 - 1 = Z.of_nat i /\ (i < length L)%nat /\ (length L <= 2 * (S i) + 1)%nat).
    { unfold i. rewrite Nat2Z.inj_sub, Nat2Z.inj_div by (apply Nat.div_le_lower_bound; lia).
      pose proof (Nat.div_mod (length L) 2 ltac:(lia)). pose proof (Nat.mod_upper_bound (length L) 2 ltac:(lia)).
      split; [lia|]. lia. }
    destruct Hi as (Ei & Hi & Hh). rewrite Ei.
    rewrite u32_id by (unfold is_u32; nia). destruct (small_u32 size ltac:(lia) (length L) i) as [_ ->]; [done|lia|].
    apply heapify_spec; try done; try lia. unfold heap, child. lia.
Qed.

(** ** The theorem *)

(** C21: [sort] terminates without an access outside the array and leaves a sorted
    permutation of the elements, for every element size, every comparison function that
    is a total preorder, and the built-in swap functions or any other that swaps. *)
Theorem sort_correct cmp_func swap_func size L :
  preorder cmp_func -> (forall f, swap_func = Some f -> swaps f size) -> 1 <= size < 2147483648 ->
  Forall (fun x => zlen x = size) L -> zlen L * size < 2147483648 ->
  exists L', sort cmp_func swap_func (concat L) (zlen L) size = Some (concat L') /\ L' ≡ₚ L /\
    StronglySorted (le cmp_func) L'.
Proof.
  intros Hc Hsw Hs HL Hn. unfold sort. rewrite Nat2Z.id.
  destruct (small_u32 size (proj1 Hs) (length L) (length L)) as [_ ->]; [done..|].
  assert (H1 : exists L1, heapify cmp_func swap_func (length L) (length L) (concat L) size (zlen L * size)
    (s32 (u32 (zlen L / 2 - 1) * size)) = Some (concat L1) /\ L1 ≡ₚ L /\ heap cmp_func 0 (length L) L1).
  { by apply heapify_all. }
  destruct H1 as (L1 & -> & Hp & Hh). cbn [mbind option_bind]. pose proof (Permutation_length Hp) as El.
  destruct (step_down size ltac:(lia) (length L) ltac:(lia) Hn) as [H0 H1].
  destruct (decide (length L = 0)%nat) as [E0|].
  - exists L1. assert (L1 = []) as -> by (apply nil_length_inv; lia). split_and!; [|done|constructor].
    specialize (H0 E0). destruct (length L); cbn [extract]; by rewrite (proj2 (Z.ltb_ge _ _)) by lia.
  - rewrite H1 by done. rewrite <- El in *.
    destruct (extract_spec cmp_func swap_func size Hc ltac:(lia) Hsw (length L1) (length L1 - 1) L1) as (L' & E & Hp' & Hs'); try lia; try done.
    + by eapply elements_perm.
    + by replace (S (length L1 - 1)) with (length L1) by lia.
    + replace (S (length L1 - 1)) with (length L1) by lia. unfold sorted_from. rewrite drop_all. split; [constructor|]. intros a b _ Hb%elem_of_nil. done.
    + exists L'. split_and!; try done. by rewrite Hp', Hp.
Qed.

(** Elements compared as unsigned little-endian numbers. *)
Definition le_value (x : list Z) : Z := foldr (fun b v => b + 256 * v) 0 x.
Definition compare_le (x y : list Z) : Z := le_value x - le_value y.

Lemma sort_correct_witness :
  let L := [[5; 1]; [0; 2]; [9; 0]; [5; 1]; [1; 0]] in
  exists L', sort compare_le None [5; 1; 0; 2; 9; 0; 5; 1; 1; 0] 5 2 = Some (concat L') /\ L' ≡ₚ L /\
    StronglySorted (le compare_le) L'.
Proof.
  apply (sort_correct compare_le None 2 [[5; 1]; [0; 2]; [9; 0]; [5; 1]; [1; 0]]).
  - split; unfold le, compare_le; lia.
  - discriminate.
  - lia.
  - by repeat constructor.
  - cbn. lia.
Defined.
