(* ===== verification/MuslTime.v ===== *)
(** * Calendar time in musl

    A model of musl-1.2.5/src/time: [__secs_to_tm] and [__tm_to_secs] with the helpers
    [__year_to_secs] and [__month_to_secs], their callers [gmtime_r] and [timegm], and
    the week number of [strftime].  Signed arithmetic that overflows, and a read
    outside a table, is [None]. *)

From Stdlib Require Import ZArith Lia Bool.
From stdpp Require Import base numbers list.
From S2P Require Import Prelude.
Open Scope Z_scope.

(** ** C arithmetic *)

Definition INT_MIN : Z := -2147483648.
Definition INT_MAX : Z := 2147483647.
(** The value of a signed expression of type [int], and of type [long long]. *)
Definition int (z : Z) : option Z := if (INT_MIN <=? z) && (z <=? INT_MAX) then Some z else None.
Definition llong (z : Z) : option Z :=
  if (-9223372036854775808 <=? z) && (z <=? 9223372036854775807) then Some z else None.

(** [struct tm]; the zone name, which is always that of UTC here, is left out. *)
Record tm := mkTm {
  tm_sec : Z; tm_min : Z; tm_hour : Z; tm_mday : Z; tm_mon : Z; tm_year : Z; tm_wday : Z; tm_yday : Z;
  tm_isdst : Z; tm_gmtoff : Z
}.

(** ** Seconds to broken-down time *)

Definition LEAPOCH : Z := 946684800 + 86400 * (31 + 29).
Definition DAYS_PER_400Y : Z := 365 * 400 + 97.
Definition DAYS_PER_100Y : Z := 365 * 100 + 24.
Definition DAYS_PER_4Y : Z := 365 * 4 + 1.

(** From March on. *)
Definition days_in_month : list Z := [31; 30; 31; 30; 31; 31; 30; 31; 30; 31; 31; 29].

(** [for (months=0; days_in_month[months] <= remdays; months++) ...] *)
Fixpoint month_loop (table : list Z) (months remdays : Z) : option (Z * Z) :=
  match table with
  | [] => None
  | d :: table => if d <=? remdays then month_loop table (months + 1) (remdays - d) else Some (months, remdays)
  end.

(** [None] inside: -1 is returned. *)
Definition secs_to_tm (t : Z) (tm0 : tm) : option (option tm) :=
  if (t <? INT_MIN * 31622400) || (INT_MAX * 31622400 <? t) then Some None
  else
    secs ← llong (t - LEAPOCH);
    let days := Z.quot secs 86400 in
    let remsecs := s32 (Z.rem secs 86400) in
    '(remsecs, days) ← (if remsecs <? 0 then r ← int (remsecs + 86400); d ← llong (days - 1); Some (r, d)
                        else Some (remsecs, days));
    w ← llong (3 + days);
    let wday := s32 (Z.rem w 7) in
    wday ← (if wday <? 0 then int (wday + 7) else Some wday);
    let qc_cycles := s32 (Z.quot days DAYS_PER_400Y) in
    let remdays := s32 (Z.rem days DAYS_PER_400Y) in
    '(remdays, qc_cycles) ←
      (if remdays <? 0 then r ← int (remdays + DAYS_PER_400Y); q ← int (qc_cycles - 1); Some (r, q)
       else Some (remdays, qc_cycles));
    let c_cycles := Z.quot remdays DAYS_PER_100Y in
    let c_cycles := if c_cycles =? 4 then c_cycles - 1 else c_cycles in
    remdays ← int (remdays - c_cycles * DAYS_PER_100Y);
    let q_cycles := Z.quot remdays DAYS_PER_4Y in
    let q_cycles := if q_cycles =? 25 then q_cycles - 1 else q_cycles in
    remdays ← int (remdays - q_cycles * DAYS_PER_4Y);
    let remyears := Z.quot remdays 365 in
    let remyears := if remyears =? 4 then remyears - 1 else remyears in
    remdays ← int (remdays - remyears * 365);
    let leap := if (remyears =? 0) && (negb (q_cycles =? 0) || (c_cycles =? 0)) then 1 else 0 in
    yday ← int (remdays + 31 + 28 + leap);
    yday ← (if 365 + leap <=? yday then int (yday - (365 + leap)) else Some yday);
    years ← llong (remyears + 4 * q_cycles + 100 * c_cycles + 400 * qc_cycles);
    '(months, remdays) ← month_loop days_in_month 0 remdays;
    let '(months, years) := if 10 <=? months then (months - 12, years + 1) else (months, years) in
    if (INT_MAX <? years + 100) || (years + 100 <? INT_MIN) then Some None
    else Some (Some (mkTm (Z.rem remsecs 60) (Z.rem (Z.quot remsecs 60) 60) (Z.quot remsecs 3600)
                       (remdays + 1) (months + 2) (s32 (years + 100)) wday yday (tm_isdst tm0) (tm_gmtoff tm0))).

(** ** Broken-down time to seconds *)

(** [*is_leap], [centuries] and [leaps] for the year [rem] of the 400-year cycle. *)
Definition leap_parts (rem : Z) : Z * Z * Z :=
  if rem =? 0 then (1, 0, 0)
  else
    let '(centuries, rem) :=
      if 200 <=? rem then (if 300 <=? rem then (3, rem - 300) else (2, rem - 200))
      else (if 100 <=? rem then (1, rem - 100) else (0, rem)) in
    if rem =? 0 then (0, centuries, 0)
    else
      let leaps := Z.quot (u32 rem) 4 in
      let rem := Z.rem (u32 rem) 4 in
      (if rem =? 0 then 1 else 0, centuries, leaps).

(** The seconds and [*is_leap]. *)
Definition year_to_secs (year : Z) : option (Z * Z) :=
  if u64 (year - 2) <=? 136 then
    let y := s32 year in
    let leaps := Z.shiftr (y - 68) 2 in
    let '(leaps, is_leap) := if Z.land (y - 68) 3 =? 0 then (leaps - 1, 1) else (leaps, 0) in
    a ← int (31536000 * (y - 70));
    b ← int (86400 * leaps);
    r ← int (a + b);
    Some (r, is_leap)
  else
    y ← llong (year - 100);
    let cycles := s32 (Z.quot y 400) in
    let rem := s32 (Z.rem y 400) in
    let '(cycles, rem) := if rem <? 0 then (cycles - 1, rem + 400) else (cycles, rem) in
    let '(is_leap, centuries, leaps) := leap_parts rem in
    c ← int (97 * cycles);
    leaps ← int (leaps + (c + 24 * centuries - is_leap));
    a ← llong (y * 31536000);
    b ← llong (a + leaps * 86400);
    r ← llong (b + 946684800 + 86400);
    Some (r, is_leap).

Definition secs_through_month : list Z :=
  [0; 31 * 86400; 59 * 86400; 90 * 86400; 120 * 86400; 151 * 86400; 181 * 86400; 212 * 86400;
   243 * 86400; 273 * 86400; 304 * 86400; 334 * 86400].
Definition month_to_secs (month is_leap : Z) : option Z :=
  if month <? 0 then None
  else
    t ← secs_through_month !! Z.to_nat month;
    Some (if negb (is_leap =? 0) && (2 <=? month) then t + 86400 else t).

Definition tm_to_secs (x : tm) : option Z :=
  let year := tm_year x in
  let month := tm_mon x in
  let '(year, month) :=
    if (12 <=? month) || (month <? 0) then
      let adj := Z.quot month 12 in
      let month := Z.rem month 12 in
      let '(adj, month) := if month <? 0 then (adj - 1, month + 12) else (adj, month) in
      (year + adj, month)
    else (year, month) in
  '(t, is_leap) ← year_to_secs year;
  m ← month_to_secs month is_leap;
  t ← llong (t + m);
  d ← int (tm_mday x - 1);
  t ← llong (t + 86400 * d);
  t ← llong (t + 3600 * tm_hour x);
  t ← llong (t + 60 * tm_min x);
  llong (t + tm_sec x).

(** ** The callers *)

Definition set_utc (x : tm) : tm :=
  mkTm (tm_sec x) (tm_min x) (tm_hour x) (tm_mday x) (tm_mon x) (tm_year x) (tm_wday x) (tm_yday x) 0 0.

(** [None] inside: a null pointer, and [errno] is EOVERFLOW. *)
Definition gmtime_r (t : Z) (tm0 : tm) : option (option tm) :=
  r ← secs_to_tm t tm0;
  Some (match r with None => None | Some x => Some (set_utc x) end).

(** The seconds and the normalised [*tm], or [errno]. *)
Definition timegm (x junk : tm) : option (option (Z * tm)) :=
  t ← tm_to_secs x;
  r ← secs_to_tm t junk;
  Some (match r with None => None | Some new => Some (t, set_utc new) end).

(** ** Week numbers (strftime.c) *)

Definition is_leap (y : Z) : bool :=
  let y := if INT_MAX - 1900 <? y then y - 2000 else y in
  let y := y + 1900 in
  (Z.rem y 4 =? 0) && (negb (Z.rem y 100 =? 0) || (Z.rem y 400 =? 0)).

Definition week_num (x : tm) : Z :=
  let val := s32 (u32 (tm_yday x + 7 - u32 (tm_wday x + 6) `mod` 7) / 7) in
  let val := if (u32 (tm_wday x + 371 - tm_yday x - 2)) `mod` 7 <=? 2 then val + 1 else val in
  if val =? 0 then
    let dec31 := s32 (u32 (tm_wday x + 7 - tm_yday x - 1) `mod` 7) in
    if (dec31 =? 4) || ((dec31 =? 5) && is_leap (Z.rem (tm_year x) 400 - 1)) then 53 else 52
  else if val =? 53 then
    let jan1 := s32 (u32 (tm_wday x + 371 - tm_yday x) `mod` 7) in
    if negb (jan1 =? 4) && (negb (jan1 =? 3) || negb (is_leap (tm_year x))) then 1 else val
  else val.

(** The conversion %G. *)
Definition week_year (x : tm) : Z :=
  let val := tm_year x + 1900 in
  if (tm_yday x <? 3) && negb (week_num x =? 1) then val - 1
  else if (360 <? tm_yday x) && (week_num x =? 1) then val + 1
  else val.
