(* ===== verification/MuslTimeProofs.v ===== *)
(** * Calendar time in musl: agreement with the Gregorian calendar

    The proleptic Gregorian calendar as a count of days, and the proofs that both
    conversions of [MuslTime] agree with it, that each undoes the other, and that the
    week number of [strftime] is the ISO 8601 week. *)

From Stdlib Require Import ZArith Lia Bool.
From stdpp Require Import base numbers list.
From S2P Require Import Prelude MuslTime.
Open Scope Z_scope.

(** ** The calendar *)

Definition leap_year (y : Z) : bool := (y `mod` 4 =? 0) && (negb (y `mod` 100 =? 0) || (y `mod` 400 =? 0)).
Definition year_length (y : Z) : Z := if leap_year y then 366 else 365.
(** Months count from 0. *)
Definition length_of (leap : bool) (m : Z) : Z :=
  if m =? 1 then (if leap then 29 else 28)
  else if (m =? 3) || (m =? 5) || (m =? 8) || (m =? 10) then 30 else 31.
Definition days_up_to (leap : bool) (m : Z) : Z :=
  foldr Z.add 0 (map (fun i => length_of leap (Z.of_nat i)) (seq 0 (Z.to_nat m))).
Definition month_length (y m : Z) : Z := length_of (leap_year y) m.

(** Days from 1 January of year 1 to that of year [y], and from there to month [m]. *)
Definition days_before_year (y : Z) : Z := 365 * (y - 1) + (y - 1) `div` 4 - (y - 1) `div` 100 + (y - 1) `div` 400.
Definition days_before_month (y m : Z) : Z := days_up_to (leap_year y) m.

(** Days since 1 January 1970 of a date; [y] is the year, [m] counts from 0. *)
Definition date_days (y m d : Z) : Z := days_before_year y - days_before_year 1970 + days_before_month y m + (d - 1).
Definition date_secs (x : tm) : Z :=
  86400 * date_days (tm_year x + 1900) (tm_mon x) (tm_mday x) + 3600 * tm_hour x + 60 * tm_min x + tm_sec x.

Lemma days_before_year_succ y : days_before_year (y + 1) = days_before_year y + year_length y.
Proof.
  unfold days_before_year, year_length, leap_year. replace (y + 1 - 1) with (y - 1 + 1) by lia.
  destruct (Z.eqb_spec (y `mod` 4) 0), (Z.eqb_spec (y `mod` 100) 0), (Z.eqb_spec (y `mod` 400) 0); cbn; zlia.
Qed.
Lemma days_before_month_12 y : days_before_month y 12 = year_length y.
Proof. unfold days_before_month, year_length. by destruct (leap_year y). Qed.

Lemma int_ok z : INT_MIN <= z <= INT_MAX -> int z = Some z.
Proof. intros H. unfold int. by rewrite (proj2 (Z.leb_le _ _)), (proj2 (Z.leb_le _ _)) by lia. Qed.
Lemma llong_ok z : -9223372036854775808 <= z <= 9223372036854775807 -> llong z = Some z.
Proof. intros H. unfold llong. by rewrite (proj2 (Z.leb_le _ _)), (proj2 (Z.leb_le _ _)) by lia. Qed.

(** *** Cycles of the calendar *)

(** The day [r] of the four hundred years from 1 March 2000: centuries, four-year
    cycles and years before it, and the day of the year that starts in March. *)
Record cycles := mkCycles { cy_c : Z; cy_q : Z; cy_y : Z; cy_day : Z }.
Definition split_day (r : Z) : cycles :=
  let c := Z.min (r `div` DAYS_PER_100Y) 3 in
  let r := r - c * DAYS_PER_100Y in
  let q := Z.min (r `div` DAYS_PER_4Y) 24 in
  let r := r - q * DAYS_PER_4Y in
  let y := Z.min (r `div` 365) 3 in
  mkCycles c q y (r - y * 365).

Lemma split_day_spec r : 0 <= r < DAYS_PER_400Y ->
  let x := split_day r in
  0 <= cy_c x <= 3 /\ 0 <= cy_q x <= 24 /\ 0 <= cy_y x <= 3 /\ 0 <= cy_day x <= 365 /\
  r = cy_c x * DAYS_PER_100Y + cy_q x * DAYS_PER_4Y + cy_y x * 365 + cy_day x /\
  (cy_day x = 365 -> cy_y x = 3 /\ (cy_q x <> 24 \/ cy_c x = 3)).
Proof.
  unfold split_day, DAYS_PER_400Y, DAYS_PER_100Y, DAYS_PER_4Y. cbn [cy_c cy_q cy_y cy_day]. intros Hr.
  set (c := Z.min (r `div` (365 * 100 + 24)) 3). set (r1 := r - c * (365 * 100 + 24)).
  assert (H1 : 0 <= c <= 3 /\ 0 <= r1 <= 36524 /\ (c <> 3 -> r1 < 36524)) by (subst r1 c; zlia).
  assert (E1 : r = c * 36524 + r1) by (subst r1; lia). clearbody c r1.
  set (q := Z.min (r1 `div` (365 * 4 + 1)) 24). set (r2 := r1 - q * (365 * 4 + 1)).
  assert (H2 : 0 <= q <= 24 /\ 0 <= r2 <= 1460 /\ (q = 24 -> c <> 3 -> r2 < 1460)) by (subst r2 q; zlia).
  assert (E2 : r1 = q * 1461 + r2) by (subst r2; lia). clearbody q r2.
  set (y := Z.min (r2 `div` 365) 3).
  assert (H3 : 0 <= y <= 3 /\ 0 <= r2 - y * 365 <= 365 /\ (r2 - y * 365 = 365 -> y = 3 /\ r2 = 1460)) by (subst y; zlia).
  clearbody y. lia.
Qed.

(** 1 March of a year. *)
Lemma march_first n c q y :
  0 <= c <= 3 -> 0 <= q <= 24 -> 0 <= y <= 3 ->
  let Y := 2000 + 400 * n + 100 * c + 4 * q + y in
  let l := if (y =? 0) && (negb (q =? 0) || (c =? 0)) then 1 else 0 in
  (if leap_year Y then 1 else 0) = l /\
  days_before_year Y + 59 + l =
    days_before_year 2000 + 60 + n * DAYS_PER_400Y + c * DAYS_PER_100Y + q * DAYS_PER_4Y + y * 365.
Proof.
  intros Hc Hq Hy Y l. unfold days_before_year, DAYS_PER_400Y, DAYS_PER_100Y, DAYS_PER_4Y.
  assert (H : (if leap_year Y then 1 else 0) = l).
  { unfold leap_year, l. destruct (Z.eqb_spec (Y `mod` 4) 0), (Z.eqb_spec (Y `mod` 100) 0), (Z.eqb_spec (Y `mod` 400) 0),
      (Z.eqb_spec y 0), (Z.eqb_spec q 0), (Z.eqb_spec c 0); cbn; try lia; exfalso; subst Y; zlia. }
  split; [done|]. subst l Y. clear H.
  destruct (Z.eqb_spec y 0), (Z.eqb_spec q 0), (Z.eqb_spec c 0); cbn [andb orb negb]; zlia.
Qed.

(** Days before the [m]th month from March on. *)
Definition month_start (m : Z) : Z := foldr Z.add 0 (take (Z.to_nat m) days_in_month).

Local Ltac eval_nat :=
  repeat match goal with |- context [Z.to_nat ?z] =>
    let n := eval vm_compute in (Z.to_nat z) in change (Z.to_nat z) with n end.

Lemma month_loop_spec r : 0 <= r <= 365 ->
  exists m d, month_loop days_in_month 0 r = Some (m, d) /\ 0 <= m <= 11 /\ r = month_start m + d /\
    0 <= d < default 0 (days_in_month !! Z.to_nat m).
Proof.
  intros Hr. unfold days_in_month. cbn [month_loop].
  do 12 (match goal with |- context [if ?a <=? ?b then _ else Some (_, ?b)] => destruct (Z.leb_spec a b) end;
    [|do 2 eexists; split; [reflexivity|]; split; [lia|]; unfold month_start; eval_nat; cbn; lia]).
  lia.
Qed.

Lemma upto_11 (P : Z -> Prop) :
  P 0 -> P 1 -> P 2 -> P 3 -> P 4 -> P 5 -> P 6 -> P 7 -> P 8 -> P 9 -> P 10 -> P 11 -> forall m, 0 <= m <= 11 -> P m.
Proof.
  intros. assert (m = 0 \/ m = 1 \/ m = 2 \/ m = 3 \/ m = 4 \/ m = 5 \/ m = 6 \/ m = 7 \/ m = 8 \/ m = 9 \/ m = 10 \/ m = 11) by lia.
  by repeat match goal with H : _ \/ _ |- _ => destruct H end; subst.
Qed.

Local Ltac eval_month :=
  repeat match goal with
  | |- context [days_up_to ?b ?z] => let v := eval vm_compute in (days_up_to b z) in change (days_up_to b z) with v
  | |- context [length_of ?b ?z] => let v := eval vm_compute in (length_of b z) in change (length_of b z) with v
  | |- context [month_start ?z] => let v := eval vm_compute in (month_start z) in change (month_start z) with v
  | |- context [default 0 (days_in_month !! Z.to_nat ?z)] =>
      let v := eval vm_compute in (default 0 (days_in_month !! Z.to_nat z)) in
      change (default 0 (days_in_month !! Z.to_nat z)) with v
  end.

(** The calendar month and year of the [m]th month from March of [Y] on. *)
Lemma march_month Y m d :
  0 <= m <= 11 ->
  let Y' := if 10 <=? m then Y + 1 else Y in
  let m' := if 10 <=? m then m - 12 + 2 else m + 2 in
  0 <= m' <= 11 /\
  date_days Y' m' (d + 1) =
    days_before_year Y + 59 + (if leap_year Y then 1 else 0) + month_start m + d - days_before_year 1970 /\
  (m <> 11 -> month_length Y' m' = default 0 (days_in_month !! Z.to_nat m)) /\
  days_before_month Y' m' =
    (if 10 <=? m then month_start m - 306 else month_start m + 59 + (if leap_year Y then 1 else 0)) /\
  (m = 11 -> month_length Y' m' = if leap_year Y' then 29 else 28).
Proof.
  intros Hm. unfold date_days, days_before_month, month_length. pattern m. revert m Hm.
  apply upto_11; cbn zeta;
    match goal with |- context [10 <=? ?z] => let b := eval vm_compute in (10 <=? z) in change (10 <=? z) with b end;
    cbn match; rewrite ?days_before_year_succ; unfold year_length;
    generalize (days_before_year Y) (days_before_year 1970) (leap_year (Y + 1)); intros a b l';
    destruct (leap_year Y), l'; eval_month; clear; lia.
Qed.

Lemma s32_small z : INT_MIN <= z <= INT_MAX -> s32 z = z.
Proof. unfold s32, u32, INT_MIN, INT_MAX. intros H. destruct (Z.ltb_spec (z `mod` 4294967296) 2147483648); zlia. Qed.

Ltac qlia := Z.to_euclidean_division_equations; lia.

(** Truncating division with the correction for negative numbers is floor division. *)
Lemma fix_days secs (A : Type) (k : Z -> Z -> option A) :
  -100000000000000000 <= secs <= 100000000000000000 ->
  ('(r, d) ← (let remsecs := s32 (Z.rem secs 86400) in
     if remsecs <? 0 then r ← int (remsecs + 86400); d ← llong (Z.quot secs 86400 - 1); Some (r, d)
     else Some (remsecs, Z.quot secs 86400)); k r d) = k (secs `mod` 86400) (secs `div` 86400).
Proof.
  intros H. cbv zeta. rewrite s32_small by (unfold INT_MIN, INT_MAX; qlia).
  destruct (Z.ltb_spec (Z.rem secs 86400) 0).
  - rewrite int_ok, llong_ok by (unfold INT_MIN, INT_MAX; qlia). cbn. f_equal; qlia.
  - cbn. f_equal; qlia.
Qed.
Lemma fix_wday days : -1000000000000 <= days <= 1000000000000 ->
  (let wday := s32 (Z.rem (3 + days) 7) in if wday <? 0 then int (wday + 7) else Some wday) = Some ((3 + days) `mod` 7).
Proof.
  intros H. cbv zeta. rewrite s32_small by (unfold INT_MIN, INT_MAX; qlia).
  destruct (Z.ltb_spec (Z.rem (3 + days) 7) 0); [rewrite int_ok by (unfold INT_MIN, INT_MAX; qlia)|]; f_equal; qlia.
Qed.
Lemma fix_cycles days (A : Type) (k : Z -> Z -> option A) :
  -1000000000000 <= days <= 1000000000000 ->
  ('(r, q) ← (let qc_cycles := s32 (Z.quot days DAYS_PER_400Y) in let remdays := s32 (Z.rem days DAYS_PER_400Y) in
     if remdays <? 0 then r ← int (remdays + DAYS_PER_400Y); q ← int (qc_cycles - 1); Some (r, q)
     else Some (remdays, qc_cycles)); k r q) = k (days `mod` DAYS_PER_400Y) (days `div` DAYS_PER_400Y).
Proof.
  unfold DAYS_PER_400Y. intros H. cbv zeta. rewrite !s32_small by (unfold INT_MIN, INT_MAX; qlia).
  destruct (Z.ltb_spec (Z.rem days (365 * 400 + 97)) 0).
  - rewrite !int_ok by (unfold INT_MIN, INT_MAX; qlia). cbn. f_equal; qlia.
  - cbn. f_equal; qlia.
Qed.

Lemma fix_split r (A : Type) (k : Z -> Z -> Z -> Z -> option A) :
  0 <= r < DAYS_PER_400Y ->
  (let c_cycles := Z.quot r DAYS_PER_100Y in
   let c_cycles := if c_cycles =? 4 then c_cycles - 1 else c_cycles in
   remdays ← int (r - c_cycles * DAYS_PER_100Y);
   let q_cycles := Z.quot remdays DAYS_PER_4Y in
   let q_cycles := if q_cycles =? 25 then q_cycles - 1 else q_cycles in
   remdays ← int (remdays - q_cycles * DAYS_PER_4Y);
   let remyears := Z.quot remdays 365 in
   let remyears := if remyears =? 4 then remyears - 1 else remyears in
   remdays ← int (remdays - remyears * 365);
   k c_cycles q_cycles remyears remdays) =
  (let x := split_day r in k (cy_c x) (cy_q x) (cy_y x) (cy_day x)).
Proof.
  unfold split_day, DAYS_PER_400Y, DAYS_PER_100Y, DAYS_PER_4Y. cbn [cy_c cy_q cy_y cy_day]. intros Hr. cbv zeta.
  assert (Ec : (if Z.quot r (365 * 100 + 24) =? 4 then Z.quot r (365 * 100 + 24) - 1 else Z.quot r (365 * 100 + 24))
    = Z.min (r `div` (365 * 100 + 24)) 3).
  { destruct (Z.eqb_spec (Z.quot r (365 * 100 + 24)) 4); qlia. }
  rewrite Ec. set (c := Z.min (r `div` (365 * 100 + 24)) 3). set (r1 := r - c * (365 * 100 + 24)).
  assert (H1 : 0 <= r1 <= 36524) by (subst r1 c; zlia). clearbody r1. clear Ec.
  rewrite int_ok by (unfold INT_MIN, INT_MAX; lia). cbn [mbind option_bind].
  assert (Eq : (if Z.quot r1 (365 * 4 + 1) =? 25 then Z.quot r1 (365 * 4 + 1) - 1 else Z.quot r1 (365 * 4 + 1))
    = Z.min (r1 `div` (365 * 4 + 1)) 24).
  { destruct (Z.eqb_spec (Z.quot r1 (365 * 4 + 1)) 25); qlia. }
  rewrite Eq. set (q := Z.min (r1 `div` (365 * 4 + 1)) 24). set (r2 := r1 - q * (365 * 4 + 1)).
  assert (H2 : 0 <= r2 <= 1460) by (subst r2 q; zlia). clearbody r2. clear Eq.
  rewrite int_ok by (unfold INT_MIN, INT_MAX; lia). cbn [mbind option_bind].
  assert (Ey : (if Z.quot r2 365 =? 4 then Z.quot r2 365 - 1 else Z.quot r2 365) = Z.min (r2 `div` 365) 3).
  { destruct (Z.eqb_spec (Z.quot r2 365) 4); qlia. }
  rewrite Ey. rewrite int_ok by (unfold INT_MIN, INT_MAX; zlia). done.
Qed.

Definition in_range (t : Z) : Prop := INT_MIN * 31622400 <= t <= INT_MAX * 31622400.

(** The rest of [__secs_to_tm] once the cycles are known. *)
Definition from_cycles (tm0 : tm) (remsecs wday qc_cycles c_cycles q_cycles remyears remdays : Z) : option (option tm) :=
  let leap := if (remyears =? 0) && (negb (q_cycles =? 0) || (c_cycles =? 0)) then 1 else 0 in
  yday ← int (remdays + 31 + 28 + leap);
  yday ← (if 365 + leap <=? yday then int (yday - (365 + leap)) else Some yday);
  years ← llong (remyears + 4 * q_cycles + 100 * c_cycles + 400 * qc_cycles);
  '(months, remdays) ← month_loop days_in_month 0 remdays;
  let '(months, years) := if 10 <=? months then (months - 12, years + 1) else (months, years) in
  if (INT_MAX <? years + 100) || (years + 100 <? INT_MIN) then Some None
  else Some (Some (mkTm (Z.rem remsecs 60) (Z.rem (Z.quot remsecs 60) 60) (Z.quot remsecs 3600)
                     (remdays + 1) (months + 2) (s32 (years + 100)) wday yday (tm_isdst tm0) (tm_gmtoff tm0))).

Lemma secs_to_tm_split t tm0 : in_range t ->
  let days := (t - LEAPOCH) `div` 86400 in
  let x := split_day (days `mod` DAYS_PER_400Y) in
  secs_to_tm t tm0 = from_cycles tm0 ((t - LEAPOCH) `mod` 86400) ((3 + days) `mod` 7) (days `div` DAYS_PER_400Y)
    (cy_c x) (cy_q x) (cy_y x) (cy_day x).
Proof.
  intros Ht days x. unfold secs_to_tm, in_range, INT_MIN, INT_MAX in *.
  rewrite (proj2 (Z.ltb_ge _ _)), (proj2 (Z.ltb_ge _ _)) by lia. cbn [orb].
  rewrite llong_ok by (unfold LEAPOCH; lia). cbn [mbind option_bind].
  assert (Hd : -1000000000000 <= days <= 1000000000000) by (unfold days, LEAPOCH; zlia).
  rewrite fix_days by (unfold LEAPOCH; lia). fold days.
  rewrite llong_ok by lia. cbn [mbind option_bind]. pose proof (fix_wday days Hd) as Hw. cbv zeta in Hw |- *. rewrite Hw.
  cbn [mbind option_bind]. pose proof (fix_cycles days) as Hc. cbv zeta in Hc. rewrite Hc by done. clear Hc Hw.
  assert (Hr : 0 <= days `mod` DAYS_PER_400Y < DAYS_PER_400Y) by (apply Z.mod_pos_bound; done).
  exact (fix_split _ _ (from_cycles tm0 ((t - LEAPOCH) `mod` 86400) ((3 + days) `mod` 7) (days `div` DAYS_PER_400Y)) Hr).
Qed.

(** [__secs_to_tm] in terms of the cycles. *)
Lemma secs_to_tm_cycles t tm0 : in_range t ->
  let days := (t - LEAPOCH) `div` 86400 in
  let s := (t - LEAPOCH) `mod` 86400 in
  let x := split_day (days `mod` DAYS_PER_400Y) in
  let n := days `div` DAYS_PER_400Y in
  let l := if (cy_y x =? 0) && (negb (cy_q x =? 0) || (cy_c x =? 0)) then 1 else 0 in
  let yday := cy_day x + 59 + l in
  secs_to_tm t tm0 =
    '(months, remdays) ← month_loop days_in_month 0 (cy_day x);
    let Y := 2000 + 400 * n + 100 * cy_c x + 4 * cy_q x + cy_y x in
    let Y' := if 10 <=? months then Y + 1 else Y in
    let m' := if 10 <=? months then months - 12 + 2 else months + 2 in
    if (INT_MAX <? Y' - 1900) || (Y' - 1900 <? INT_MIN) then Some None
    else Some (Some (mkTm (s `mod` 60) ((s `div` 60) `mod` 60) (s `div` 3600) (remdays + 1) m' (Y' - 1900)
      ((3 + days) `mod` 7) (if 365 + l <=? yday then yday - (365 + l) else yday) (tm_isdst tm0) (tm_gmtoff tm0))).
Proof.
  intros Ht days s x n l yday. rewrite secs_to_tm_split by done. cbv zeta. fold days s n x.
  unfold in_range, INT_MIN, INT_MAX in *.
  assert (Hd : -1000000000000 <= days <= 1000000000000) by (unfold days, LEAPOCH; zlia).
  assert (Hr : 0 <= days `mod` DAYS_PER_400Y < DAYS_PER_400Y) by (apply Z.mod_pos_bound; done).
  assert (Hn : -10000000 <= n <= 10000000) by (unfold n, DAYS_PER_400Y; zlia).
  pose proof (split_day_spec _ Hr) as Hx. fold x in Hx. cbv zeta in Hx. unfold from_cycles, INT_MIN, INT_MAX.
  destruct Hx as (X1 & X2 & X3 & X4 & _). fold l.
  assert (Hl : 0 <= l <= 1) by (unfold l; by destruct (_ && _)).
  rewrite int_ok by (unfold INT_MIN, INT_MAX; lia). cbn [mbind option_bind].
  replace (cy_day x + 31 + 28 + l) with yday by (unfold yday; lia).
  set (yd := if 365 + l <=? yday then yday - (365 + l) else yday).
  replace (if 365 + l <=? yday then int (yday - (365 + l)) else Some yday) with (Some yd).
  2: { unfold yd. destruct (Z.leb_spec (365 + l) yday); [|done]. rewrite int_ok; [done|]. unfold yday, INT_MIN, INT_MAX in *. lia. }
  cbn [mbind option_bind]. rewrite llong_ok by lia. cbn [mbind option_bind].
  destruct (month_loop days_in_month 0 (cy_day x)) as [[m d]|]; [|done]. cbn [mbind option_bind].
  set (Y := 2000 + 400 * n + 100 * cy_c x + 4 * cy_q x + cy_y x).
  assert (Hs : 0 <= s < 86400) by (unfold s; apply Z.mod_pos_bound; lia).
  assert (HY : cy_y x + 4 * cy_q x + 100 * cy_c x + 400 * n = Y - 2000) by (unfold Y; lia). rewrite HY.
  assert (Eh : Z.quot s 3600 = s `div` 3600 /\ Z.rem (Z.quot s 60) 60 = (s `div` 60) `mod` 60 /\ Z.rem s 60 = s `mod` 60) by qlia.
  destruct Eh as (-> & -> & ->).
  destruct (10 <=? m).
  - replace (Y - 2000 + 1 + 100) with (Y + 1 - 1900) by lia.
    destruct (Z.ltb_spec 2147483647 (Y + 1 - 1900)), (Z.ltb_spec (Y + 1 - 1900) (-2147483648)); try done.
    cbn [orb]. rewrite s32_small by (unfold INT_MIN, INT_MAX; lia). done.
  - replace (Y - 2000 + 100) with (Y - 1900) by lia.
    destruct (Z.ltb_spec 2147483647 (Y - 1900)), (Z.ltb_spec (Y - 1900) (-2147483648)); try done.
    cbn [orb]. rewrite s32_small by (unfold INT_MIN, INT_MAX; lia). done.
Qed.

(** *** Broken-down times *)

Definition valid_date (x : tm) : Prop :=
  0 <= tm_sec x < 60 /\ 0 <= tm_min x < 60 /\ 0 <= tm_hour x < 24 /\ 0 <= tm_mon x <= 11 /\
  1 <= tm_mday x <= month_length (tm_year x + 1900) (tm_mon x).
(** 1 January 1970 was a Thursday. *)
Definition derived_fields (x : tm) : Prop :=
  tm_wday x = (4 + date_days (tm_year x + 1900) (tm_mon x) (tm_mday x)) `mod` 7 /\
  tm_yday x = days_before_month (tm_year x + 1900) (tm_mon x) + tm_mday x - 1.
Definition year_fits (x : tm) : bool := (INT_MIN <=? tm_year x) && (tm_year x <=? INT_MAX).

Lemma last_day_leap n c q :
  q <> 24 \/ c = 3 -> 0 <= c <= 3 -> 0 <= q <= 24 -> leap_year (2000 + 400 * n + 100 * c + 4 * q + 3 + 1) = true.
Proof.
  intros H Hc Hq. unfold leap_year. rewrite (proj2 (Z.eqb_eq _ _)) by zlia. cbn [andb].
  set (Y := 2000 + 400 * n + 100 * c + 4 * q + 3 + 1).
  destruct (Z.eqb_spec (Y `mod` 100) 0) as [E|]; [|done]. cbn [negb orb]. apply Z.eqb_eq. subst Y. zlia.
Qed.

(** The date of a day [days] after 1 March 2000. *)
Lemma cycles_date days m d :
  let x := split_day (days `mod` DAYS_PER_400Y) in
  let l := if (cy_y x =? 0) && (negb (cy_q x =? 0) || (cy_c x =? 0)) then 1 else 0 in
  let Y := 2000 + 400 * (days `div` DAYS_PER_400Y) + 100 * cy_c x + 4 * cy_q x + cy_y x in
  month_loop days_in_month 0 (cy_day x) = Some (m, d) ->
  let Y' := if 10 <=? m then Y + 1 else Y in
  let m' := if 10 <=? m then m - 12 + 2 else m + 2 in
  let yday := cy_day x + 59 + l in
  0 <= m' <= 11 /\ 1 <= d + 1 <= month_length Y' m' /\ date_days Y' m' (d + 1) = days + 11017 /\
  (if 365 + l <=? yday then yday - (365 + l) else yday) = days_before_month Y' m' + d.
Proof.
  intros x l Y Em Y' m' yday.
  assert (Hr : 0 <= days `mod` DAYS_PER_400Y < DAYS_PER_400Y) by (apply Z.mod_pos_bound; done).
  destruct (split_day_spec _ Hr) as (X1 & X2 & X3 & X4 & X5 & X6). fold x in X1, X2, X3, X4, X5, X6.
  destruct (march_first (days `div` DAYS_PER_400Y) _ _ _ X1 X2 X3) as [Hl HY]. cbv zeta in Hl, HY. fold Y l in Hl, HY.
  destruct (month_loop_spec (cy_day x) X4) as (m1 & d1 & Em1 & Hm & Ed & Hd). rewrite Em in Em1. injection Em1 as <- <-.
  destruct (march_month Y m d Hm) as (M1 & M2 & M3 & M4 & M5). cbv zeta in M1, M2, M3, M4, M5. rewrite Hl in M2, M4.
  fold Y' m' in M1, M2, M3, M4, M5. split_and!; try lia.
  - destruct (Z.eq_dec m 11) as [->|Hne].
    + rewrite M5 by done. change (days_in_month !! Z.to_nat 11) with (Some 29) in Hd. cbn in Hd.
      destruct (leap_year Y') eqn:El; [lia|]. change (month_start 11) with 337 in Ed.
      destruct (Z.eq_dec d 28) as [->|]; [|lia]. destruct X6 as [Hy Hqc]; [lia|].
      unfold Y', Y in El. rewrite Hy in El. cbn in El. by rewrite last_day_leap in El.
    + rewrite M3 by done. lia.
  - rewrite M2. change (days_before_year 1970) with 719162. change (days_before_year 2000) with 730119 in HY.
    unfold DAYS_PER_400Y in *. zlia.
  - rewrite M4. unfold yday. assert (0 <= l <= 1) by (unfold l; by destruct (_ && _)).
    assert (Hms : month_start m + d < 306 <-> m < 10).
    { clear -Hm Hd. revert Hd. pattern m. revert m Hm. apply upto_11; intros Hd; eval_month;
        match type of Hd with context [days_in_month !! ?i] => let v := eval vm_compute in (days_in_month !! i) in
          change (days_in_month !! i) with v in Hd end; cbn in Hd; lia. }
    destruct (Z.leb_spec (365 + l) (cy_day x + 59 + l)), (Z.leb_spec 10 m); lia.
Qed.

Lemma secs_to_tm_date t tm0 : in_range t ->
  exists x, valid_date x /\ derived_fields x /\ date_secs x = t /\ tm_isdst x = tm_isdst tm0 /\
    tm_gmtoff x = tm_gmtoff tm0 /\ secs_to_tm t tm0 = Some (if year_fits x then Some x else None).
Proof.
  intros Ht. pose proof (secs_to_tm_cycles t tm0 Ht) as E. cbv zeta in E.
  set (days := (t - LEAPOCH) `div` 86400) in *. set (s := (t - LEAPOCH) `mod` 86400) in *.
  assert (Es : t = 86400 * (days + 11017) + s) by (unfold days, s, LEAPOCH; zlia).
  assert (Hs : 0 <= s < 86400) by (unfold s; apply Z.mod_pos_bound; lia). clearbody days s.
  assert (Hd : 0 <= cy_day (split_day (days `mod` DAYS_PER_400Y)) <= 365).
  { apply split_day_spec. apply Z.mod_pos_bound. done. }
  destruct (month_loop_spec _ Hd) as (m & d & Em & _ & _ & _). rewrite Em in E. cbn [mbind option_bind] in E.
  destruct (cycles_date days m d Em) as (C1 & C2 & C3 & C4). cbv zeta in C1, C2, C3, C4. rewrite C4 in E.
  set (Y' := if 10 <=? m then _ else _) in *. set (m' := if 10 <=? m then m - 12 + 2 else m + 2) in *. clearbody Y' m'.
  match type of E with _ = if _ then _ else Some (Some ?r) => exists r end.
  unfold valid_date, derived_fields, date_secs, year_fits. cbn [tm_sec tm_min tm_hour tm_mon tm_mday tm_year tm_wday tm_yday tm_isdst tm_gmtoff].
  replace (Y' - 1900 + 1900) with Y' by lia. rewrite C3. split_and!; try lia; try zlia. rewrite E.
  destruct (Z.ltb_spec INT_MAX (Y' - 1900)), (Z.ltb_spec (Y' - 1900) INT_MIN), (Z.leb_spec INT_MIN (Y' - 1900)),
    (Z.leb_spec (Y' - 1900) INT_MAX); try lia; done.
Qed.

(** *** Broken-down time to seconds *)

Lemma leap_parts_spec rem cy : 0 <= rem < 400 ->
  let '(is_leap, centuries, leaps) := leap_parts rem in
  let y := 2000 + 400 * cy + rem in
  is_leap = (if leap_year y then 1 else 0) /\ 0 <= centuries <= 3 /\ 0 <= leaps <= 24 /\
  days_before_year y = 730119 + 365 * (400 * cy + rem) + leaps + 97 * cy + 24 * centuries - is_leap + 1.
Proof.
  intros Hr. unfold leap_parts, leap_year, days_before_year.
  destruct (Z.eqb_spec rem 0) as [->|H0].
  { rewrite !(proj2 (Z.eqb_eq _ _)) by zlia. cbn. split_and!; try lia. zlia. }
  assert (Hc : exists c r, (if 200 <=? rem then (if 300 <=? rem then (3, rem - 300) else (2, rem - 200))
    else (if 100 <=? rem then (1, rem - 100) else (0, rem))) = (c, r) /\ rem = 100 * c + r /\ 0 <= c <= 3 /\ 0 <= r < 100).
  { destruct (Z.leb_spec 200 rem), (Z.leb_spec 300 rem), (Z.leb_spec 100 rem); try lia;
      (do 2 eexists; split; [reflexivity|lia]). }
  destruct Hc as (c & r & -> & -> & Hc & Hr'). set (y := 2000 + 400 * cy + (100 * c + r)).
  destruct (Z.eqb_spec r 0) as [->|Hr0].
  - rewrite (proj2 (Z.eqb_eq (y `mod` 4) 0)), (proj2 (Z.eqb_eq (y `mod` 100) 0)), (proj2 (Z.eqb_neq (y `mod` 400) 0))
      by (subst y; zlia). cbn [andb orb negb]. split_and!; try lia. subst y. zlia.
  - rewrite u32_id by (unfold is_u32; lia). rewrite (proj2 (Z.eqb_neq (y `mod` 100) 0)) by (subst y; zlia).
    cbn [negb orb]. rewrite andb_true_r. rewrite Z.quot_div_nonneg, Z.rem_mod_nonneg by lia.
    assert (E4 : y `mod` 4 = r `mod` 4) by (subst y; zlia). rewrite E4.
    destruct (Z.eqb_spec (r `mod` 4) 0); (split_and!; try zlia); subst y; zlia.
Qed.

Lemma year_to_secs_spec year : -3000000000 <= year <= 3000000000 ->
  year_to_secs year = Some (86400 * (days_before_year (year + 1900) - days_before_year 1970),
                            if leap_year (year + 1900) then 1 else 0).
Proof.
  intros Hy. unfold year_to_secs. change (days_before_year 1970) with 719162.
  destruct (Z.leb_spec (u64 (year - 2)) 136) as [H|H].
  - unfold days_before_year, leap_year. assert (Hr : 2 <= year <= 138) by (unfold u64 in H; zlia). clear H.
    rewrite s32_small by (unfold INT_MIN, INT_MAX; lia). rewrite Z.shiftr_div_pow2 by lia.
    change (2 ^ 2) with 4. change 3 with (Z.ones 2). rewrite Z.land_ones by lia. change (2 ^ 2) with 4.
    destruct (Z.eqb_spec ((year - 68) `mod` 4) 0).
    + do 3 (rewrite int_ok by (unfold INT_MIN, INT_MAX; zlia); cbn [mbind option_bind]).
      destruct (Z.eqb_spec ((year + 1900) `mod` 4) 0), (Z.eqb_spec ((year + 1900) `mod` 100) 0),
        (Z.eqb_spec ((year + 1900) `mod` 400) 0); cbn [andb orb negb]; try (do 2 f_equal; zlia); exfalso; zlia.
    + do 3 (rewrite int_ok by (unfold INT_MIN, INT_MAX; zlia); cbn [mbind option_bind]).
      destruct (Z.eqb_spec ((year + 1900) `mod` 4) 0); cbn [andb]; [exfalso; zlia|]. do 2 f_equal. zlia.
  - clear H. rewrite llong_ok by lia. cbn [mbind option_bind].
    rewrite !s32_small by (unfold INT_MIN, INT_MAX; qlia).
    set (cy := (year - 100) `div` 400). set (rem := (year - 100) `mod` 400).
    assert (E : (if Z.rem (year - 100) 400 <? 0 then (Z.quot (year - 100) 400 - 1, Z.rem (year - 100) 400 + 400)
      else (Z.quot (year - 100) 400, Z.rem (year - 100) 400)) = (cy, rem)).
    { subst cy rem. destruct (Z.ltb_spec (Z.rem (year - 100) 400) 0); f_equal; qlia. }
    rewrite E. assert (Hd : year = 100 + 400 * cy + rem /\ 0 <= rem < 400) by (subst cy rem; zlia).
    clear E. clearbody cy rem. destruct Hd as [-> Hrem].
    replace (100 + 400 * cy + rem + 1900) with (2000 + 400 * cy + rem) by lia.
    pose proof (leap_parts_spec rem cy Hrem) as Hp. destruct (leap_parts rem) as [[lp c] ls].
    destruct Hp as (-> & Hc & Hl & Hdays). unfold days_before_year, leap_year in Hdays |- *. rewrite Hdays.
    set (b := if _ && _ then 1 else 0) in *. assert (0 <= b <= 1) by (unfold b; by destruct (_ && _)). clearbody b.
    do 2 (rewrite int_ok by (unfold INT_MIN, INT_MAX; lia); cbn [mbind option_bind]).
    do 3 (rewrite llong_ok by lia; cbn [mbind option_bind]). do 2 f_equal. lia.
Qed.

(** Seconds of a date whose fields need not be in their usual ranges. *)
Definition normal_secs (x : tm) : Z :=
  86400 * date_days (tm_year x + 1900 + tm_mon x `div` 12) (tm_mon x `mod` 12) (tm_mday x) +
  3600 * tm_hour x + 60 * tm_min x + tm_sec x.
Definition is_int (z : Z) : Prop := INT_MIN <= z <= INT_MAX.
Definition int_fields (x : tm) : Prop :=
  is_int (tm_sec x) /\ is_int (tm_min x) /\ is_int (tm_hour x) /\ INT_MIN < tm_mday x <= INT_MAX /\
  is_int (tm_mon x) /\ is_int (tm_year x).

Lemma normal_secs_valid x : valid_date x -> normal_secs x = date_secs x.
Proof.
  intros (_ & _ & _ & Hm & _). unfold normal_secs, date_secs.
  by rewrite Z.div_small, Z.mod_small, Z.add_0_r by lia.
Qed.

Lemma month_to_secs_spec m (leap : bool) : 0 <= m <= 11 ->
  month_to_secs m (if leap then 1 else 0) = Some (86400 * days_up_to leap m).
Proof. intros Hm. pattern m. revert m Hm. by apply upto_11; destruct leap. Qed.

Lemma valid_int_fields x : valid_date x -> is_int (tm_year x) -> int_fields x.
Proof.
  intros (H1 & H2 & H3 & H4 & H5) Hy. unfold int_fields, is_int, month_length, length_of, INT_MIN, INT_MAX in *.
  repeat case_match; lia.
Qed.

Lemma days_up_to_range leap m : 0 <= m <= 11 -> 0 <= days_up_to leap m <= 335.
Proof. intros Hm. pattern m. revert m Hm. by apply upto_11; destruct leap; eval_month. Qed.

Lemma dby_range y : -3000000000 <= y <= 3000000000 -> -1200000000000 <= days_before_year y <= 1200000000000.
Proof. intros. unfold days_before_year. zlia. Qed.

Lemma tm_to_secs_spec x : int_fields x -> tm_to_secs x = Some (normal_secs x).
Proof.
  intros (H1 & H2 & H3 & H4 & H5 & H6). unfold is_int, INT_MIN, INT_MAX in *. unfold tm_to_secs.
  set (Y := tm_year x + tm_mon x `div` 12). set (m := tm_mon x `mod` 12).
  assert (E : (if (12 <=? tm_mon x) || (tm_mon x <? 0) then
      let adj := Z.quot (tm_mon x) 12 in let month := Z.rem (tm_mon x) 12 in
      let '(adj, month) := if month <? 0 then (adj - 1, month + 12) else (adj, month) in
      (tm_year x + adj, month) else (tm_year x, tm_mon x)) = (Y, m)).
  { subst Y m. cbv zeta. destruct (Z.leb_spec 12 (tm_mon x)), (Z.ltb_spec (tm_mon x) 0); cbn [orb];
      [lia|destruct (Z.ltb_spec (Z.rem (tm_mon x) 12) 0)..|]; f_equal; qlia. }
  cbv zeta in E |- *. rewrite E. assert (Hm : 0 <= m <= 11) by (subst m; zlia).
  assert (HY : -2500000000 <= Y <= 2500000000) by (subst Y; zlia).
  rewrite year_to_secs_spec by lia. cbn [mbind option_bind]. rewrite month_to_secs_spec by done. cbn [mbind option_bind].
  pose proof (days_up_to_range (leap_year (Y + 1900)) m Hm). pose proof (dby_range (Y + 1900) ltac:(lia)).
  change (days_before_year 1970) with 719162.
  rewrite llong_ok by lia. cbn [mbind option_bind]. rewrite int_ok by (unfold INT_MIN, INT_MAX; lia). cbn [mbind option_bind].
  do 3 (rewrite llong_ok by lia; cbn [mbind option_bind]). rewrite llong_ok by lia.
  unfold normal_secs, date_days, days_before_month. fold m. change (days_before_year 1970) with 719162.
  replace (tm_year x + 1900 + tm_mon x `div` 12) with (Y + 1900) by (subst Y; lia). f_equal. lia.
Qed.

(** *** A date determines its seconds and conversely *)

Lemma days_up_to_succ leap m : 0 <= m -> days_up_to leap (m + 1) = days_up_to leap m + length_of leap m.
Proof.
  intros Hm. unfold days_up_to. rewrite Z2Nat.inj_add by lia. change (Z.to_nat 1) with 1%nat.
  rewrite seq_app, map_app, foldr_app. cbn. rewrite Z2Nat.id by lia.
  generalize (length_of leap m). intros a. rewrite Z.add_0_r. induction (map _ _) as [|b l IH]; cbn; lia.
Qed.
Lemma length_of_pos leap m : 0 < length_of leap m.
Proof. unfold length_of. repeat case_match; lia. Qed.
Lemma days_up_to_mono leap m1 m2 : 0 <= m1 -> m1 < m2 -> days_up_to leap m1 + length_of leap m1 <= days_up_to leap m2.
Proof.
  intros H0 H. rewrite <- days_up_to_succ by done. replace m2 with (m1 + 1 + Z.of_nat (Z.to_nat (m2 - m1 - 1))) by lia.
  induction (Z.to_nat (m2 - m1 - 1)) as [|k IH]; [by rewrite Z.add_0_r|].
  replace (m1 + 1 + Z.of_nat (S k)) with (m1 + 1 + Z.of_nat k + 1) by lia. rewrite (days_up_to_succ leap (m1 + 1 + Z.of_nat k)) by lia.
  pose proof (length_of_pos leap (m1 + 1 + Z.of_nat k)). lia.
Qed.

Lemma day_of_year y m d : 0 <= m <= 11 -> 1 <= d <= month_length y m ->
  0 <= days_before_month y m + d - 1 < year_length y.
Proof.
  intros Hm Hd. rewrite <- days_before_month_12. unfold days_before_month, month_length in *.
  pose proof (days_up_to_mono (leap_year y) m 12 ltac:(lia) ltac:(lia)). pose proof (days_up_to_range (leap_year y) m Hm). lia.
Qed.
Lemma dby_mono y1 y2 : y1 < y2 -> days_before_year y1 + year_length y1 <= days_before_year y2.
Proof. intros H. rewrite <- days_before_year_succ. unfold days_before_year. zlia. Qed.
Lemma dby_le y1 y2 : y1 <= y2 -> days_before_year y1 <= days_before_year y2.
Proof. intros H. unfold days_before_year. zlia. Qed.

Lemma date_days_inj y1 m1 d1 y2 m2 d2 :
  0 <= m1 <= 11 -> 1 <= d1 <= month_length y1 m1 -> 0 <= m2 <= 11 -> 1 <= d2 <= month_length y2 m2 ->
  date_days y1 m1 d1 = date_days y2 m2 d2 -> y1 = y2 /\ m1 = m2 /\ d1 = d2.
Proof.
  intros Hm1 Hd1 Hm2 Hd2 E. unfold date_days in E.
  pose proof (day_of_year _ _ _ Hm1 Hd1). pose proof (day_of_year _ _ _ Hm2 Hd2).
  assert (y1 = y2) as ->.
  { destruct (Z.lt_trichotomy y1 y2) as [L|[L|L]]; [|done|]; apply dby_mono in L; lia. }
  unfold days_before_month, month_length in *. split; [done|].
  destruct (Z.lt_trichotomy m1 m2) as [L|[L|L]].
  - pose proof (days_up_to_mono (leap_year y2) m1 m2). lia.
  - subst. lia.
  - pose proof (days_up_to_mono (leap_year y2) m2 m1). lia.
Qed.

Lemma date_secs_inj x y : valid_date x -> valid_date y -> date_secs x = date_secs y ->
  tm_sec x = tm_sec y /\ tm_min x = tm_min y /\ tm_hour x = tm_hour y /\ tm_mday x = tm_mday y /\ tm_mon x = tm_mon y /\
  tm_year x = tm_year y.
Proof.
  intros (X1 & X2 & X3 & X4 & X5) (Y1 & Y2 & Y3 & Y4 & Y5) E. unfold date_secs in E.
  set (a := date_days _ _ _) in E. set (b := date_days (tm_year y + 1900) _ _) in E.
  assert (Hab : a = b) by lia. subst a b. apply date_days_inj in Hab; try done. lia.
Qed.

(** The first and the last second whose year fits in an [int]. *)
Definition first_time : Z := date_secs (mkTm 0 0 0 1 0 INT_MIN 0 0 0 0).
Definition last_time : Z := date_secs (mkTm 59 59 23 31 11 INT_MAX 0 0 0 0).

Lemma year_fits_range x : valid_date x -> year_fits x = true <-> first_time <= date_secs x <= last_time.
Proof.
  intros (X1 & X2 & X3 & X4 & X5). pose proof (day_of_year _ _ _ X4 X5) as Hd. set (y := tm_year x + 1900) in *.
  assert (E1 : first_time = 86400 * (days_before_year (INT_MIN + 1900) - days_before_year 1970)) by (vm_compute; reflexivity).
  assert (E2 : last_time = 86400 * (days_before_year (INT_MAX + 1901) - days_before_year 1970) - 1) by (vm_compute; reflexivity).
  assert (E : date_secs x = 86400 * (days_before_year y - days_before_year 1970 + (days_before_month y (tm_mon x) + tm_mday x - 1))
    + 3600 * tm_hour x + 60 * tm_min x + tm_sec x) by (unfold date_secs, date_days; fold y; lia).
  rewrite E1, E2, E. clear E1 E2 E. unfold year_fits.
  assert (Hlo : INT_MIN <= tm_year x -> days_before_year (INT_MIN + 1900) <= days_before_year y) by (intros; apply dby_le; lia).
  assert (Hlo' : tm_year x < INT_MIN -> days_before_year y + year_length y <= days_before_year (INT_MIN + 1900))
    by (intros; apply dby_mono; lia).
  assert (Hhi : tm_year x <= INT_MAX -> days_before_year y + year_length y <= days_before_year (INT_MAX + 1901))
    by (intros; apply dby_mono; lia).
  assert (Hhi' : INT_MAX < tm_year x -> days_before_year (INT_MAX + 1901) <= days_before_year y) by (intros; apply dby_le; lia).
  rewrite andb_true_iff, !Z.leb_le. lia.
Qed.

Lemma time_in_range t : first_time <= t <= last_time -> in_range t.
Proof.
  change first_time with (-67768040609740800). change last_time with 67768036191676799.
  unfold in_range, INT_MIN, INT_MAX. lia.
Qed.

(** What a successful conversion leaves. *)
Definition utc_date (t : Z) (x : tm) : Prop :=
  valid_date x /\ derived_fields x /\ date_secs x = t /\ tm_isdst x = 0 /\ tm_gmtoff x = 0.

Lemma secs_to_utc t tm0 :
  if bool_decide (first_time <= t <= last_time)
  then exists x, secs_to_tm t tm0 = Some (Some x) /\ utc_date t (set_utc x)
  else secs_to_tm t tm0 = Some None.
Proof.
  case_bool_decide as Ht.
  - destruct (secs_to_tm_date t tm0 (time_in_range t Ht)) as (x & H1 & H2 & H3 & _ & _ & E).
    rewrite (proj2 (year_fits_range x H1)) in E by (by rewrite H3). by exists x.
  - unfold secs_to_tm. destruct (Z.ltb_spec t (INT_MIN * 31622400)); [done|].
    destruct (Z.ltb_spec (INT_MAX * 31622400) t); [done|].
    destruct (secs_to_tm_date t tm0) as (x & H1 & H2 & H3 & _ & _ & E); [done|].
    destruct (year_fits x) eqn:Ey; [apply year_fits_range in Ey; [|done]; by rewrite H3 in Ey|].
    unfold secs_to_tm in E. rewrite (proj2 (Z.ltb_ge _ _)), (proj2 (Z.ltb_ge _ _)) in E by done. exact E.
Qed.

(** *** Weeks *)

Lemma mod_0_rem a b : 0 < b -> (Z.rem a b =? 0) = (a `mod` b =? 0).
Proof.
  intros Hb. apply eq_true_iff_eq. rewrite !Z.eqb_eq. rewrite Z.mod_divide, Z.rem_divide by lia. done.
Qed.
Lemma is_leap_spec y : INT_MIN <= y <= INT_MAX -> is_leap y = leap_year (y + 1900).
Proof.
  intros Hy. unfold is_leap, leap_year. rewrite !mod_0_rem by lia. destruct (INT_MAX - 1900 <? y); [|done].
  replace (y - 2000 + 1900) with (y + 1900 + (-5) * 400) by lia. rewrite Z_mod_plus_full.
  replace (y + 1900 + -5 * 400) with (y + 1900 + (-20) * 100) at 2 by lia. rewrite Z_mod_plus_full.
  replace (y + 1900 + -5 * 400) with (y + 1900 + (-500) * 4) by lia. by rewrite Z_mod_plus_full.
Qed.
Lemma leap_year_period y k : leap_year (y + 400 * k) = leap_year y.
Proof.
  unfold leap_year. replace (y + 400 * k) with (y + (100 * k) * 4) at 1 by lia. rewrite Z_mod_plus_full.
  replace (y + 400 * k) with (y + (4 * k) * 100) at 1 by lia. rewrite Z_mod_plus_full.
  replace (y + 400 * k) with (y + k * 400) by lia. by rewrite Z_mod_plus_full.
Qed.
Lemma is_leap_before y : is_int y -> is_leap (Z.rem y 400 - 1) = leap_year (y + 1899).
Proof.
  unfold is_int, INT_MIN, INT_MAX. intros Hy. rewrite is_leap_spec by (unfold INT_MIN, INT_MAX; qlia).
  replace (y + 1899) with (Z.rem y 400 - 1 + 1900 + 400 * Z.quot y 400) by qlia. by rewrite leap_year_period.
Qed.

(** ISO 8601: a week starts on Monday and belongs to the year of its Thursday. *)
Definition week_thursday (day : Z) : Z := day - (day + 3) `mod` 7 + 3.
Definition iso_week (day year week : Z) : Prop :=
  let day_in_year := week_thursday day - (days_before_year year - days_before_year 1970) in
  0 <= day_in_year < year_length year /\ week = day_in_year `div` 7 + 1.

(** [week_num] and the year of the week, on the day of the year, the day of the week and
    whether this year and the one before it are leap years. *)
Definition week_core (yday wday : Z) (leap before : bool) : Z * Z :=
  let val := (yday + 7 - (wday + 6) `mod` 7) `div` 7 in
  let val := if (wday + 371 - yday - 2) `mod` 7 <=? 2 then val + 1 else val in
  let val :=
    if val =? 0 then
      let dec31 := (wday + 7 - yday - 1) `mod` 7 in
      if (dec31 =? 4) || ((dec31 =? 5) && before) then 53 else 52
    else if val =? 53 then
      let jan1 := (wday + 371 - yday) `mod` 7 in
      if negb (jan1 =? 4) && (negb (jan1 =? 3) || negb leap) then 1 else val
    else val in
  (val, if (yday <? 3) && negb (val =? 1) then -1 else if (360 <? yday) && (val =? 1) then 1 else 0).

Definition core_ok (yday wday : Z) (leap before : bool) : bool :=
  let '(week, dy) := week_core yday wday leap before in
  let th := yday - (wday + 6) `mod` 7 + 3 in
  let len := if leap then 366 else 365 in
  let '(dy', d) := if th <? 0 then (-1, th + (if before then 366 else 365)) else if len <=? th then (1, th - len) else (0, th) in
  (dy =? dy') && (week =? d `div` 7 + 1).

Lemma week_core_ok : forall wday, 0 <= wday < 7 -> forall yday (leap : bool), 0 <= yday < (if leap then 366 else 365) ->
  forall before, core_ok yday wday leap before = true.
Proof.
  assert (H : forallb (fun w => forallb (fun y => core_ok y w true true && core_ok y w true false)
      (map Z.of_nat (seq 0 366)) && forallb (fun y => core_ok y w false true && core_ok y w false false)
      (map Z.of_nat (seq 0 365))) (map Z.of_nat (seq 0 7)) = true) by (vm_compute; reflexivity).
  intros wday Hw yday leap Hy before. rewrite forallb_forall in H.
  specialize (H wday). rewrite andb_true_iff, !forallb_forall in H. destruct H as [H1 H2].
  { apply in_map_iff. exists (Z.to_nat wday). rewrite in_seq. lia. }
  destruct leap; [specialize (H1 yday)|specialize (H2 yday)].
  - destruct (andb_prop _ _ (H1 ltac:(apply in_map_iff; exists (Z.to_nat yday); rewrite in_seq; lia))). by destruct before.
  - destruct (andb_prop _ _ (H2 ltac:(apply in_map_iff; exists (Z.to_nat yday); rewrite in_seq; lia))). by destruct before.
Qed.

Lemma week_num_core x : 0 <= tm_wday x < 7 -> 0 <= tm_yday x <= 365 -> is_int (tm_year x) ->
  let r := week_core (tm_yday x) (tm_wday x) (leap_year (tm_year x + 1900)) (leap_year (tm_year x + 1899)) in
  week_num x = r.1 /\ week_year x = tm_year x + 1900 + r.2.
Proof.
  intros Hw Hy Hyr. set (yd := tm_yday x) in *. set (wd := tm_wday x) in *.
  assert (E : week_num x = (week_core yd wd (leap_year (tm_year x + 1900)) (leap_year (tm_year x + 1899))).1).
  { unfold week_num, week_core. fold yd wd. cbv zeta. rewrite is_leap_before, is_leap_spec by done.
    rewrite (u32_id (wd + 6)) by (unfold is_u32; lia).
    rewrite (u32_id (yd + 7 - (wd + 6) `mod` 7)) by (unfold is_u32; zlia).
    rewrite (s32_small (_ / 7)) by (unfold INT_MIN, INT_MAX; zlia).
    rewrite (u32_id (wd + 371 - yd - 2)), (u32_id (wd + 371 - yd)) by (unfold is_u32; lia).
    rewrite (s32_small ((wd + 371 - yd) `mod` 7)) by (unfold INT_MIN, INT_MAX; zlia).
    set (v := (yd + 7 - (wd + 6) `mod` 7) / 7). cbn [fst].
    destruct ((wd + 371 - yd - 2) `mod` 7 <=? 2); [destruct (Z.eqb_spec (v + 1) 0)|destruct (Z.eqb_spec v 0)]; try done.
    - exfalso. subst v. zlia.
    - rewrite (u32_id (wd + 7 - yd - 1)) by (unfold is_u32; subst v; zlia).
      by rewrite s32_small by (unfold INT_MIN, INT_MAX; zlia). }
  cbv zeta. split; [done|]. unfold week_year. rewrite E. fold yd. unfold week_core. cbn [fst snd].
  destruct (_ && _); [lia|]. destruct (_ && _); lia.
Qed.

Lemma week_num_iso x : valid_date x -> derived_fields x -> is_int (tm_year x) ->
  iso_week (date_days (tm_year x + 1900) (tm_mon x) (tm_mday x)) (week_year x) (week_num x).
Proof.
  intros (_ & _ & _ & Hm & Hd) [Ew Ey] Hyr. set (y := tm_year x + 1900) in *. set (N := date_days y (tm_mon x) (tm_mday x)) in *.
  pose proof (day_of_year _ _ _ Hm Hd) as Hyd. rewrite <- Ey in Hyd.
  assert (EN : N = days_before_year y - days_before_year 1970 + tm_yday x) by (unfold N, date_days; lia).
  assert (Hw : 0 <= tm_wday x < 7) by (rewrite Ew; apply Z.mod_pos_bound; lia).
  destruct (week_num_core x Hw) as [E1 E2]; [unfold year_length in Hyd; case_match; lia|done|]. fold y in E1, E2.
  pose proof (week_core_ok (tm_wday x) Hw (tm_yday x) (leap_year y) Hyd (leap_year (tm_year x + 1899))) as Hc.
  unfold core_ok in Hc. destruct (week_core _ _ _ _) as [w dy]. cbn [fst snd] in E1, E2. rewrite E1, E2. clear E1 E2.
  unfold iso_week, week_thursday.
  assert (Eth : N - (N + 3) `mod` 7 + 3 = days_before_year y - days_before_year 1970 + (tm_yday x - (tm_wday x + 6) `mod` 7 + 3)).
  { rewrite Ew, EN. zlia. }
  rewrite Eth. set (th := tm_yday x - (tm_wday x + 6) `mod` 7 + 3) in *. cbv zeta in Hc |- *.
  assert (Hth : -3 <= th <= tm_yday x + 3) by (unfold th; zlia).
  pose proof (days_before_year_succ y) as S1. pose proof (days_before_year_succ (y - 1)) as S2.
  replace (y - 1 + 1) with y in S2 by lia. replace (tm_year x + 1899) with (y - 1) in Hc by (unfold y; lia).
  unfold year_length in *.
  destruct (Z.ltb_spec th 0); [|destruct (Z.leb_spec (if leap_year y then 366 else 365) th)];
    apply andb_prop in Hc as [->%Z.eqb_eq ->%Z.eqb_eq].
  - replace (y + -1) with (y - 1) by lia. destruct (leap_year (y - 1)), (leap_year y); split; try lia; f_equal; f_equal; lia.
  - destruct (leap_year y), (leap_year (y + 1)); split; try lia; f_equal; f_equal; lia.
  - rewrite Z.add_0_r. split; [lia|]. f_equal; f_equal; lia.
Qed.

(** ** Theorems *)

(** C20: [gmtime_r] fills in the proleptic Gregorian date, the day of the week and the day
    of the year of every time whose year fits in an [int], answers EOVERFLOW for every
    other one, and never overflows on the way. *)
Theorem gmtime_r_exact t tm0 :
  if bool_decide (first_time <= t <= last_time)
  then exists x, gmtime_r t tm0 = Some (Some x) /\ utc_date t x
  else gmtime_r t tm0 = Some None.
Proof.
  unfold gmtime_r. pose proof (secs_to_utc t tm0) as H. case_bool_decide.
  - destruct H as (x & -> & Hx). by exists (set_utc x).
  - by rewrite H.
Qed.

(** C30: [timegm] accepts broken-down times with fields outside their usual ranges, of any
    values but the least of [int] as the day (see [least_mday_overflows]): it answers the seconds of the date they mean, months counted across years and days, hours,
    minutes and seconds added up, and normalises the structure to that date; it fails
    exactly when the year of that date does not fit in an [int]. *)
Theorem timegm_normalises x junk :
  int_fields x ->
  if bool_decide (first_time <= normal_secs x <= last_time)
  then exists y, timegm x junk = Some (Some (normal_secs x, y)) /\ utc_date (normal_secs x) y
  else timegm x junk = Some None.
Proof.
  intros Hx. unfold timegm. rewrite (tm_to_secs_spec x Hx). cbn [mbind option_bind].
  pose proof (secs_to_utc (normal_secs x) junk) as H. case_bool_decide.
  - destruct H as (y & -> & Hy). by exists (set_utc y).
  - by rewrite H.
Qed.

(** 32 January 2024, 25 hours: 2 February, 1 o'clock. *)
Lemma timegm_normalises_witness :
  exists y, timegm (mkTm 0 0 25 32 0 124 0 0 0 0) (mkTm 0 0 0 0 0 0 0 0 0 0) = Some (Some (1706835600, y)) /\
    utc_date 1706835600 y.
Proof.
  apply (timegm_normalises (mkTm 0 0 25 32 0 124 0 0 0 0) (mkTm 0 0 0 0 0 0 0 0 0 0)).
  repeat split; vm_compute; discriminate.
Defined.

(** The date of a time is unique. *)
Lemma utc_date_inj t x y : utc_date t x -> utc_date t y -> x = y.
Proof.
  intros (X1 & [X2 X3] & X4 & X5 & X6) (Y1 & [Y2 Y3] & Y4 & Y5 & Y6).
  destruct (date_secs_inj x y X1 Y1) as (E1 & E2 & E3 & E4 & E5 & E6); [congruence|].
  rewrite E4, E5, E6 in X2, X3. destruct x, y; cbn in *; congruence.
Qed.

(** C31: the two conversions are inverse to each other.  For every time that [gmtime_r]
    accepts, [timegm] of the broken-down time gives the time back and leaves the structure
    as it is; and the fields of a valid date come back from the seconds [timegm] gives. *)
Theorem calendar_roundtrip t x y junk :
  gmtime_r t junk = Some (Some y) -> valid_date x -> is_int (tm_year x) ->
  timegm y junk = Some (Some (t, y)) /\
  exists z, timegm x junk = Some (Some (date_secs x, z)) /\ gmtime_r (date_secs x) junk = Some (Some z) /\
    tm_sec z = tm_sec x /\ tm_min z = tm_min x /\ tm_hour z = tm_hour x /\ tm_mday z = tm_mday x /\
    tm_mon z = tm_mon x /\ tm_year z = tm_year x.
Proof.
  intros Ht Hv Hy. unfold timegm, gmtime_r in *. split.
  - pose proof (secs_to_utc t junk) as H. case_bool_decide as Hr; [|by rewrite H in Ht]. destruct H as (y0 & E & Hd).
    rewrite E in Ht. injection Ht as <-. pose proof Hd as (V & _ & D & _).
    assert (Hyear : is_int (tm_year (set_utc y0))).
    { pose proof (proj2 (year_fits_range _ V)) as Hf. rewrite D in Hf. specialize (Hf Hr). unfold year_fits in Hf.
      apply andb_true_iff in Hf as [?%Z.leb_le ?%Z.leb_le]. done. }
    rewrite tm_to_secs_spec, normal_secs_valid, D by auto using valid_int_fields. cbn [mbind option_bind]. by rewrite E.
  - assert (Hfit : first_time <= date_secs x <= last_time).
    { apply year_fits_range; [done|]. unfold year_fits. by rewrite !(proj2 (Z.leb_le _ _)) by apply Hy. }
    rewrite tm_to_secs_spec, normal_secs_valid by auto using valid_int_fields. cbn [mbind option_bind].
    pose proof (secs_to_utc (date_secs x) junk) as H. rewrite bool_decide_eq_true_2 in H by done.
    destruct H as (z & E & Hd & _ & Hs & _). rewrite E. exists (set_utc z). split; [done|]. split; [done|]. by apply date_secs_inj.
Qed.

(** The last second of 29 February 2000, from both sides. *)
Lemma calendar_roundtrip_witness :
  let x := mkTm 59 59 23 29 1 100 0 0 0 0 in
  let y := mkTm 59 59 23 29 1 100 2 59 0 0 in
  timegm y x = Some (Some (951868799, y)) /\
  exists z, timegm x x = Some (Some (951868799, z)) /\ gmtime_r 951868799 x = Some (Some z) /\
    tm_sec z = 59 /\ tm_min z = 59 /\ tm_hour z = 23 /\ tm_mday z = 29 /\ tm_mon z = 1 /\ tm_year z = 100.
Proof.
  apply (calendar_roundtrip 951868799 (mkTm 59 59 23 29 1 100 0 0 0 0) (mkTm 59 59 23 29 1 100 2 59 0 0) (mkTm 59 59 23 29 1 100 0 0 0 0)).
  - vm_compute. reflexivity.
  - repeat split; vm_compute; solve [discriminate|reflexivity].
  - split; vm_compute; discriminate.
Defined.

(** the subtraction [tm->tm_mday-1] overflows for the least day, which no date of the
    calendar needs but which [timegm] does not refuse. *)
Example least_mday_overflows junk : timegm (mkTm 0 0 0 INT_MIN 0 70 0 0 0 0) junk = None.
Proof. vm_compute. reflexivity. Qed.

(** C33: the conversions %V and %G of [strftime] give the ISO 8601 week and its year for
    every date: the week and the year of the Thursday of the date's week. *)
Theorem week_num_correct x :
  valid_date x -> derived_fields x -> is_int (tm_year x) ->
  iso_week (date_days (tm_year x + 1900) (tm_mon x) (tm_mday x)) (week_year x) (week_num x).
Proof. apply week_num_iso. Qed.

(** 1 January 2021, a Friday, is in week 53 of 2020. *)
Lemma week_num_correct_witness : iso_week 18628 2020 53.
Proof. apply (week_num_correct (mkTm 0 0 0 1 0 121 5 0 0 0)); repeat split; vm_compute; solve [discriminate|reflexivity]. Defined.
