(* ===== verification/Kstrtox.v ===== *)
(** * Reading numbers: lib/kstrtox.c and the simple_strto family

    The string-to-integer conversions of the kernel.  A C string is the list of its
    bytes before the terminating NUL; reading at its end gives 0.  Proved: the digit
    loop with its cheap overflow test agrees with unbounded evaluation of the numeral,
    and what each conversion answers on every string. *)

From Stdlib Require Import ZArith Lia Bool.
From stdpp Require Import base numbers list.
From S2P Require Import Prelude.
Open Scope Z_scope.

(** ** Characters (include/linux/ctype.h) *)

Definition cstring (s : list Z) : Prop := Forall (fun c => 1 <= c < 256) s.

(** [s[i]], the terminator included. *)
Definition ch (s : list Z) (i : nat) : Z := nth i s 0.
Definition tolower_ (c : Z) : Z := Z.lor c 32.
Definition isxdigit (c : Z) : bool :=
  (48 <=? c) && (c <=? 57) || (65 <=? c) && (c <=? 70) || (97 <=? c) && (c <=? 102).

(** ** Conversions *)

(** Results: the value stored through [res], or a negative error number. *)
Inductive kres := Kok (v : Z) | Kerr (e : Z).

Definition KSTRTOX_OVERFLOW : Z := 2147483648.
Definition ULLONG_MAX : Z := 18446744073709551615.

Definition parse_integer_fixup_radix (s : list Z) (base : Z) : list Z * Z :=
  let base :=
    if base =? 0 then
      if ch s 0 =? 48 then
        if (tolower_ (ch s 1) =? 120) && isxdigit (ch s 2) then 16 else 8
      else 10
    else base in
  if (base =? 16) && (ch s 0 =? 48) && (tolower_ (ch s 1) =? 120) then (drop 2 s, base) else (s, base).

(** The digit a character stands for. *)
Definition digit_val (c : Z) : option Z :=
  if (48 <=? c) && (c <=? 57) then Some (c - 48)
  else if (97 <=? tolower_ c) && (tolower_ c <=? 102) then Some (tolower_ c - 97 + 10)
  else None.

Fixpoint parse_loop (s : list Z) (base res rv : Z) (overflow : bool) : Z * Z * bool :=
  match s with
  | [] => (res, rv, overflow)
  | c :: s' =>
      match digit_val c with
      | None => (res, rv, overflow)
      | Some val =>
          if base <=? val then (res, rv, overflow)
          else
            let overflow :=
              if negb (Z.land res (u64 (Z.shiftl ULLONG_MAX 60)) =? 0) && ((ULLONG_MAX - val) `div` base <? res)
              then true else overflow in
            parse_loop s' base (u64 (res * base + val)) (u32 (rv + 1)) overflow
      end
  end.

(** [_parse_integer]: the value stored through [p] and the characters consumed, maybe
    or-ed with the overflow bit. *)
Definition parse_integer (s : list Z) (base : Z) : Z * Z :=
  let '(res, rv, overflow) := parse_loop s base 0 0 false in
  (res, if overflow then Z.lor rv KSTRTOX_OVERFLOW else rv).

Definition kstrtoull_ (s : list Z) (base : Z) : kres :=
  let '(s, base) := parse_integer_fixup_radix s base in
  let '(res, rv) := parse_integer s base in
  if negb (Z.land rv KSTRTOX_OVERFLOW =? 0) then Kerr (- ERANGE)
  else
    let rv := Z.ldiff rv KSTRTOX_OVERFLOW in
    if rv =? 0 then Kerr (- EINVAL)
    else
      let s := drop (Z.to_nat rv) s in
      let s := if ch s 0 =? 10 then drop 1 s else s in
      if negb (ch s 0 =? 0) then Kerr (- EINVAL) else Kok res.

Definition kstrtoull (s : list Z) (base : Z) : kres :=
  let s := if ch s 0 =? 43 then drop 1 s else s in
  kstrtoull_ s base.

Definition kstrtoll (s : list Z) (base : Z) : kres :=
  if ch s 0 =? 45 then
    match kstrtoull_ (drop 1 s) base with
    | Kerr e => Kerr e
    | Kok tmp => if 0 <=? s64 (- tmp) then Kerr (- ERANGE) else Kok (s64 (- tmp))
    end
  else
    match kstrtoull s base with
    | Kerr e => Kerr e
    | Kok tmp => if s64 tmp <? 0 then Kerr (- ERANGE) else Kok (s64 tmp)
    end.

(** The narrow conversions differ in the truncation [cast] of the wide value. *)
Definition narrow (cast : Z -> Z) (r : kres) : kres :=
  match r with
  | Kerr e => Kerr e
  | Kok tmp => if negb (tmp =? cast tmp) then Kerr (- ERANGE) else Kok (cast tmp)
  end.
Definition kstrtoul_ (s : list Z) (base : Z) : kres := narrow u32 (kstrtoull s base).
Definition kstrtol_ (s : list Z) (base : Z) : kres := narrow s32 (kstrtoll s base).
Definition kstrtouint (s : list Z) (base : Z) : kres := narrow u32 (kstrtoull s base).
Definition kstrtoint (s : list Z) (base : Z) : kres := narrow s32 (kstrtoll s base).
Definition kstrtou16 (s : list Z) (base : Z) : kres := narrow u16 (kstrtoull s base).
Definition kstrtos16 (s : list Z) (base : Z) : kres := narrow s16 (kstrtoll s base).
Definition kstrtou8 (s : list Z) (base : Z) : kres := narrow u8 (kstrtoull s base).
Definition kstrtos8 (s : list Z) (base : Z) : kres := narrow s8 (kstrtoll s base).

(** [kstrto_from_user]: [user] are the bytes at the user's address, as many as
    [copy_from_user] can read.  [bits] is the width of the result type. *)
Fixpoint to_nul (s : list Z) : list Z :=
  match s with [] => [] | c :: s' => if c =? 0 then [] else c :: to_nul s' end.
Definition kstrto_from_user (g : list Z -> Z -> kres) (bits : Z) (user : list Z) (count base : Z) : kres :=
  let count := Z.min count (1 + bits + 1) in
  if Z.of_nat (length user) <? count then Kerr (- EFAULT)
  else g (to_nul (take (Z.to_nat count) user)) base.

(** ** The older interface (lib/vsprintf.c) *)

(** The value and what is left of the string. *)
Definition simple_strtoull (cp : list Z) (base : Z) : Z * list Z :=
  let '(cp, base) := parse_integer_fixup_radix cp base in
  let '(result, rv) := parse_integer cp base in
  (result, drop (Z.to_nat (Z.ldiff rv KSTRTOX_OVERFLOW)) cp).
Definition simple_strtoul (cp : list Z) (base : Z) : Z * list Z :=
  let '(v, r) := simple_strtoull cp base in (u32 v, r).
Definition simple_strtol (cp : list Z) (base : Z) : Z * list Z :=
  if ch cp 0 =? 45 then let '(v, r) := simple_strtoul (drop 1 cp) base in (s32 (- v), r)
  else let '(v, r) := simple_strtoul cp base in (s32 v, r).
Definition simple_strtoll (cp : list Z) (base : Z) : Z * list Z :=
  if ch cp 0 =? 45 then let '(v, r) := simple_strtoull (drop 1 cp) base in (s64 (- v), r)
  else let '(v, r) := simple_strtoull cp base in (s64 v, r).

(** ** Reference: unbounded evaluation *)

(** The digits at the start of a string, and what follows them. *)
Fixpoint span_digits (base : Z) (s : list Z) : list Z * list Z :=
  match s with
  | [] => ([], [])
  | c :: s' =>
      match digit_val c with
      | Some d => if d <? base then let '(ds, r) := span_digits base s' in (d :: ds, r) else ([], s)
      | None => ([], s)
      end
  end.

Definition eval_from (base v : Z) (ds : list Z) : Z := fold_left (fun v d => v * base + d) ds v.
Definition eval (base : Z) (ds : list Z) : Z := eval_from base 0 ds.

(** The digits without their radix prefix, and the radix: [0x] or [0X] in radix 16; in radix 0
    also where a hexadecimal digit follows it, else a leading [0] is octal, and anything else
    decimal. *)
Definition strip_prefix (s : list Z) (base : Z) : list Z * Z :=
  match s with
  | c :: s' =>
      if bool_decide (c = 48) then
        match s' with
        | x :: s'' =>
            if bool_decide (x = 120 \/ x = 88) && (bool_decide (base = 16) || bool_decide (base = 0) && isxdigit (ch s'' 0)) then (s'', 16)
            else (s, if bool_decide (base = 0) then 8 else base)
        | [] => (s, if bool_decide (base = 0) then 8 else base)
        end
      else (s, if bool_decide (base = 0) then 10 else base)
  | [] => (s, if bool_decide (base = 0) then 10 else base)
  end.

(** What the conversion of a string without sign should answer. *)
Definition convert (s : list Z) (base : Z) : kres :=
  let '(s, base) := strip_prefix s base in
  let '(ds, r) := span_digits base s in
  let v := eval base ds in
  if 18446744073709551616 <=? v then Kerr (- ERANGE)
  else if bool_decide (ds = []) then Kerr (- EINVAL)
  else if bool_decide (r = [] \/ r = [10]) then Kok v else Kerr (- EINVAL).

(** ** The digit loop *)

Lemma eval_from_ge base v ds : 1 <= base -> 0 <= v -> Forall (fun d => 0 <= d) ds -> v <= eval_from base v ds.
Proof.
  intros Hb Hv Hds. revert v Hv. induction Hds as [|d ds Hd _ IH]; intros v Hv; cbn; [lia|].
  specialize (IH (v * base + d)). unfold eval_from in IH. nia.
Qed.

Lemma digit_val_nonneg c d : digit_val c = Some d -> 0 <= d.
Proof.
  unfold digit_val. intros H.
  destruct ((48 <=? c) && (c <=? 57)) eqn:E1.
  { injection H as <-. apply andb_true_iff in E1 as [?%Z.leb_le ?]. lia. }
  destruct ((97 <=? tolower_ c) && _) eqn:E2; [|done]. injection H as <-. apply andb_true_iff in E2 as [?%Z.leb_le ?]. lia.
Qed.

(** The mask test holds exactly on values with one of the upper four bits set. *)
Lemma mask_test x : 0 <= x < 18446744073709551616 ->
  (Z.land x (u64 (Z.shiftl ULLONG_MAX 60)) =? 0) = (x <? 1152921504606846976).
Proof.
  intros Hx. change (u64 (Z.shiftl ULLONG_MAX 60)) with (Z.shiftl 15 60).
  assert (Hs : Z.shiftr (Z.land x (Z.shiftl 15 60)) 60 = x `div` 2 ^ 60).
  { rewrite Z.shiftr_land, Z.shiftr_shiftl_l, Z.shiftl_0_r, Z.shiftr_div_pow2 by lia.
    change 15 with (Z.ones 4). rewrite Z.land_ones by lia. apply Z.mod_small. zcalc. zlia. }
  change (2 ^ 60) with 1152921504606846976 in Hs.
  destruct (Z.eqb_spec (Z.land x (Z.shiftl 15 60)) 0) as [E|E], (Z.ltb_spec x 1152921504606846976); try done.
  - rewrite E in Hs. change (Z.shiftr 0 60) with 0 in Hs. zlia.
  - destruct E. apply Z.bits_inj'. intros i Hi. rewrite Z.bits_0, Z.land_spec.
    destruct (Z.ltb_spec i 60).
    + rewrite Z.shiftl_spec_low by lia. apply andb_false_r.
    + rewrite <- (Z.mod_small x (2 ^ 60)) by (zcalc; lia). by rewrite Z.mod_pow2_bits_high by lia.
Qed.

(** One digit: the test finds exactly the overflows. *)
Lemma overflow_step v base val :
  0 <= v -> 2 <= base <= 16 -> 0 <= val < base ->
  (if negb (Z.land (u64 v) (u64 (Z.shiftl ULLONG_MAX 60)) =? 0) && ((ULLONG_MAX - val) `div` base <? u64 v)
   then true else (18446744073709551616 <=? v)) = (18446744073709551616 <=? v * base + val).
Proof.
  intros Hv Hb Hval. assert (Hr : 0 <= u64 v < 18446744073709551616) by (apply Z.mod_pos_bound; lia).
  rewrite mask_test by done. destruct (Z.leb_spec 18446744073709551616 v).
  { rewrite (proj2 (Z.leb_le _ _)) by nia. by destruct (_ && _). }
  assert (u64 v = v) as -> by (apply Z.mod_small; lia).
  assert (Hdiv : (ULLONG_MAX - val) `div` base < v <-> 18446744073709551616 <= v * base + val).
  { unfold ULLONG_MAX.
    pose proof (Z.div_mod (18446744073709551615 - val) base ltac:(lia)).
    pose proof (Z.mod_pos_bound (18446744073709551615 - val) base ltac:(lia)). split; intros; nia. }
  destruct (Z.ltb_spec v 1152921504606846976); cbn [negb andb].
  - symmetry. apply Z.leb_gt. nia.
  - destruct (Z.ltb_spec ((ULLONG_MAX - val) `div` base) v), (Z.leb_spec 18446744073709551616 (v * base + val)); lia || done.
Qed.

Lemma u64_step v base val : u64 (u64 v * base + val) = u64 (v * base + val).
Proof. unfold u64. rewrite <- Zplus_mod_idemp_l, Zmult_mod_idemp_l, Zplus_mod_idemp_l. done. Qed.

Lemma parse_loop_spec s base v rv :
  2 <= base <= 16 -> 0 <= v ->
  let '(ds, _) := span_digits base s in
  parse_loop s base (u64 v) (u32 rv) (18446744073709551616 <=? v) =
  (u64 (eval_from base v ds), u32 (rv + Z.of_nat (length ds)), 18446744073709551616 <=? eval_from base v ds).
Proof.
  intros Hb. revert v rv. induction s as [|c s IH]; intros v rv Hv; cbn [span_digits parse_loop].
  { cbn. by rewrite Z.add_0_r. }
  destruct (digit_val c) as [d|] eqn:Ed; [|cbn; by rewrite Z.add_0_r].
  pose proof (digit_val_nonneg _ _ Ed). destruct (Z.ltb_spec d base).
  - rewrite (proj2 (Z.leb_gt base d)) by lia. rewrite overflow_step, u64_step, u32_add_l by lia.
    specialize (IH (v * base + d) (rv + 1) ltac:(nia)).
    destruct (span_digits base s) as [ds r]. rewrite IH. cbn [eval_from fold_left length].
    by replace (rv + 1 + Z.of_nat (length ds)) with (rv + Z.of_nat (S (length ds))) by lia.
  - rewrite (proj2 (Z.leb_le base d)) by lia. cbn. by rewrite Z.add_0_r.
Qed.

Lemma span_digits_split base s ds r :
  span_digits base s = (ds, r) -> s = take (length ds) s ++ r /\ r = drop (length ds) s.
Proof.
  revert ds r. induction s as [|c s IH]; cbn; intros ds r H; [by injection H as <- <-|].
  destruct (digit_val c) as [d|]; [|by injection H as <- <-].
  destruct (d <? base); [|by injection H as <- <-].
  destruct (span_digits base s) as [ds' r']. injection H as <- <-.
  destruct (IH ds' r' eq_refl) as [E1 E2]. cbn. split; [by f_equal|done].
Qed.

Lemma span_digits_digits base s ds r :
  span_digits base s = (ds, r) -> (length ds <= length s)%nat /\ Forall (fun d => 0 <= d) ds.
Proof.
  revert ds r. induction s as [|c s IH]; cbn; intros ds r H.
  { injection H as <- <-. by split. }
  destruct (digit_val c) as [d|] eqn:Ed; [|injection H as <- <-; split; [cbn; lia|done]].
  destruct (d <? base); [|injection H as <- <-; split; [cbn; lia|done]].
  destruct (span_digits base s) as [ds' r']. injection H as <- <-. destruct (IH ds' r' eq_refl) as [H1 H2].
  split; [cbn; lia|]. constructor; [by eapply digit_val_nonneg|done].
Qed.

(** ** The overflow bit *)

Lemma bit31_clear rv : 0 <= rv < 2147483648 -> Z.testbit rv 31 = false.
Proof.
  intros H. rewrite <- (Z.mod_small rv (2 ^ 31)) by (zcalc; lia). by apply Z.mod_pow2_bits_high.
Qed.
Lemma overflow_bit i : 0 <= i -> Z.testbit KSTRTOX_OVERFLOW i = (31 =? i).
Proof. intros Hi. change KSTRTOX_OVERFLOW with (2 ^ 31). by apply Z.pow2_bits_eqb. Qed.

Lemma no_overflow_bit rv : 0 <= rv < 2147483648 -> Z.land rv KSTRTOX_OVERFLOW = 0.
Proof.
  intros H. apply Z.bits_inj'. intros i Hi. rewrite Z.land_spec, overflow_bit, Z.bits_0 by done.
  destruct (Z.eqb_spec 31 i) as [<-|]; [by rewrite bit31_clear|apply andb_false_r].
Qed.
Lemma with_overflow_bit rv : Z.land (Z.lor rv KSTRTOX_OVERFLOW) KSTRTOX_OVERFLOW <> 0.
Proof.
  intros E. assert (H : Z.testbit (Z.land (Z.lor rv KSTRTOX_OVERFLOW) KSTRTOX_OVERFLOW) 31 = true).
  { by rewrite Z.land_spec, Z.lor_spec, overflow_bit, orb_true_r by lia. }
  by rewrite E in H.
Qed.
Lemma strip_overflow_bit rv (b : bool) : 0 <= rv < 2147483648 ->
  Z.ldiff (if b then Z.lor rv KSTRTOX_OVERFLOW else rv) KSTRTOX_OVERFLOW = rv.
Proof.
  intros H. apply Z.bits_inj'. intros i Hi. rewrite Z.ldiff_spec, overflow_bit by done.
  destruct b; rewrite ?Z.lor_spec, ?overflow_bit by done;
    (destruct (Z.eqb_spec 31 i) as [<-|]; [rewrite bit31_clear by done|]; cbn [negb];
     rewrite ?orb_false_r, ?andb_true_r, ?andb_false_r; done).
Qed.

(** ** Exactness *)

Definition radix_ok (base : Z) : Prop := base = 0 \/ 2 <= base <= 16.

(** [_parse_integer] on strings that fit in memory. *)
Lemma parse_integer_spec s base ds r :
  2 <= base <= 16 -> Z.of_nat (length s) < 2147483648 -> span_digits base s = (ds, r) ->
  parse_integer s base =
    (u64 (eval base ds), if 18446744073709551616 <=? eval base ds
                         then Z.lor (Z.of_nat (length ds)) KSTRTOX_OVERFLOW else Z.of_nat (length ds)) /\
  0 <= Z.of_nat (length ds) < 2147483648 /\ 0 <= eval base ds.
Proof.
  intros Hb Hl Es. pose proof (parse_loop_spec s base 0 0 Hb ltac:(lia)) as H. rewrite Es in H.
  destruct (span_digits_digits _ _ _ _ Es) as [Hlen Hds].
  unfold parse_integer. change (parse_loop s base 0 0 false) with
    (parse_loop s base (u64 0) (u32 0) (18446744073709551616 <=? 0)). rewrite H. cbn [fst snd].
  rewrite u32_id by (unfold is_u32; lia). split_and!; try lia; [done|].
  by apply eval_from_ge; [lia|lia|].
Qed.

Lemma ch_zero s : cstring s -> (ch s 0 =? 0) = bool_decide (s = []).
Proof. intros [|c t Hc Ht]; [done|]. cbn. apply Z.eqb_neq. lia. Qed.

Lemma fixup_radix_spec s base s' base' :
  radix_ok base -> cstring s -> parse_integer_fixup_radix s base = (s', base') ->
  2 <= base' <= 16 /\ cstring s' /\ (length s' <= length s)%nat.
Proof.
  intros Hb Hs. unfold parse_integer_fixup_radix. set (b := if base =? 0 then _ else base).
  assert (Hb' : 2 <= b <= 16).
  { subst b. destruct Hb as [->|Hb]; [|rewrite (proj2 (Z.eqb_neq base 0)) by lia; done].
    cbn. destruct (ch s 0 =? 48); [|lia]. destruct (_ && _); lia. }
  destruct (_ && _ && _); intros [= <- <-].
  - split_and!; [lia..|by apply Forall_drop|]. rewrite length_drop. lia.
  - split_and!; [lia..|done|done].
Qed.

Lemma tolower_x c : 1 <= c < 256 -> (tolower_ c =? 120) = bool_decide (c = 120 \/ c = 88).
Proof.
  intros Hc. assert (Ha : Forall (fun c => (tolower_ c =? 120) = bool_decide (c = 120 \/ c = 88)) (seqZ 1 255)) by (apply (bool_decide_unpack _); by vm_compute).
  rewrite Forall_forall in Ha. apply Ha, elem_of_seqZ. lia.
Qed.

Lemma strip_prefix_fixup s base : cstring s -> strip_prefix s base = parse_integer_fixup_radix s base.
Proof.
  intros Hs. unfold strip_prefix, parse_integer_fixup_radix. destruct Hs as [|c s Hc Hs]; cbn [ch nth].
  { cbn [Z.eqb]. rewrite andb_false_r. by destruct (Z.eqb_spec base 0), (bool_decide_reflect (base = 0)). }
  destruct (Z.eqb_spec c 48) as [->|Hne].
  2:{ rewrite bool_decide_eq_false_2, andb_false_r by done. by destruct (Z.eqb_spec base 0), (bool_decide_reflect (base = 0)). }
  rewrite bool_decide_eq_true_2, andb_true_r by done. destruct Hs as [|x s Hx Hs]; cbn [nth].
  { change (tolower_ 0 =? 120) with false. rewrite andb_false_r. by destruct (Z.eqb_spec base 0), (bool_decide_reflect (base = 0)). }
  rewrite (tolower_x x Hx). destruct (bool_decide (x = 120 \/ x = 88)); cbn [andb].
  2:{ rewrite andb_false_r. by destruct (Z.eqb_spec base 0), (bool_decide_reflect (base = 0)). }
  rewrite andb_true_r. change (nth 0 s 0) with (ch s 0). destruct (bool_decide_reflect (base = 0)) as [->|H0]; [by destruct (isxdigit _)|].
  rewrite (proj2 (Z.eqb_neq base 0)) by done. destruct (Z.eqb_spec base 16) as [->|H16]; [done|]. by rewrite bool_decide_eq_false_2.
Qed.

(** The tail of a conversion: an optional newline and the end. *)
Lemma tail_test r : cstring r ->
  negb (ch (if ch r 0 =? 10 then drop 1 r else r) 0 =? 0) = negb (bool_decide (r = [] \/ r = [10])).
Proof.
  intros Hr. f_equal. rewrite ch_zero; [|destruct (_ =? _); [by apply Forall_drop|done]].
  apply bool_decide_ext. destruct r as [|c t]; [cbn; tauto|]. cbn.
  destruct (Z.eqb_spec c 10) as [->|Hne]; cbn; [rewrite drop_0|]; split; try naive_solver.
Qed.

Lemma kstrtoull_convert s base :
  radix_ok base -> cstring s -> Z.of_nat (length s) < 2147483648 -> kstrtoull_ s base = convert s base.
Proof.
  intros Hb Hs Hl. unfold kstrtoull_, convert. rewrite strip_prefix_fixup by done.
  destruct (parse_integer_fixup_radix s base) as [s' base'] eqn:Ef.
  destruct (fixup_radix_spec _ _ _ _ Hb Hs Ef) as (Hb' & Hs' & Hl').
  destruct (span_digits base' s') as [ds r] eqn:Es.
  destruct (parse_integer_spec s' base' ds r Hb' ltac:(lia) Es) as (-> & Hlen & Hpos).
  destruct (Z.leb_spec 18446744073709551616 (eval base' ds)).
  { by rewrite (proj2 (Z.eqb_neq _ _) (with_overflow_bit _)). }
  rewrite no_overflow_bit, (strip_overflow_bit _ false) by done. cbn [negb Z.eqb].
  destruct (span_digits_split _ _ _ _ Es) as [_ Hr].
  destruct ds as [|d ds]; [done|]. rewrite bool_decide_eq_false_2 by done.
  rewrite (proj2 (Z.eqb_neq _ _)) by (cbn; lia). rewrite Nat2Z.id, <- Hr.
  rewrite tail_test by (rewrite Hr; by apply Forall_drop).
  unfold u64. rewrite Z.mod_small by lia.
  by destruct (bool_decide _).
Qed.

Definition strip_plus (s : list Z) : list Z := if ch s 0 =? 43 then drop 1 s else s.

Lemma kstrtoull_plus s base :
  radix_ok base -> cstring s -> Z.of_nat (length s) < 2147483648 ->
  kstrtoull s base = convert (strip_plus s) base.
Proof.
  intros Hb Hs Hl. unfold kstrtoull, strip_plus. destruct (ch s 0 =? 43); [|by apply kstrtoull_convert].
  apply kstrtoull_convert; [done|by apply Forall_drop|]. rewrite length_drop. lia.
Qed.

Lemma convert_range s base v : radix_ok base -> cstring s -> convert s base = Kok v -> 0 <= v < 18446744073709551616.
Proof.
  intros Hb Hs. unfold convert. rewrite strip_prefix_fixup by done. destruct (parse_integer_fixup_radix s base) as [s' base'] eqn:Ef.
  destruct (fixup_radix_spec _ _ _ _ Hb Hs Ef) as (Hb' & _ & _).
  destruct (span_digits base' s') as [ds r] eqn:Es. destruct (span_digits_digits _ _ _ _ Es) as [_ Hd].
  pose proof (eval_from_ge base' 0 ds ltac:(lia) ltac:(lia) Hd). unfold eval.
  destruct (Z.leb_spec 18446744073709551616 (eval_from base' 0 ds)); [done|].
  destruct (bool_decide _); [done|]. destruct (bool_decide _); [|done]. intros [= <-]. lia.
Qed.

(** C26: [kstrtoull] on every C string and radix: an optional plus sign and radix
    prefix, then the longest run of digits, at least one, then at most a newline.  The
    answer is the value of the digits when it fits in 64 bits and [-ERANGE] when it
    does not; any other string gives [-EINVAL].  The test on the upper four bits,
    which skips the division for small values, never misses an overflow. *)
Theorem kstrtoull_exact s base :
  radix_ok base -> cstring s -> Z.of_nat (length s) < 2147483648 ->
  kstrtoull s base = convert (strip_plus s) base.
Proof. apply kstrtoull_plus. Qed.

(** "0xffffffffffffffff\n" and one digit more. *)
Definition all_ones : list Z := [48; 120] ++ repeat 102 16 ++ [10].
Lemma kstrtoull_exact_witness :
  kstrtoull all_ones 0 = Kok 18446744073709551615 /\ kstrtoull (48 :: 120 :: 102 :: drop 2 all_ones) 0 = Kerr (-34).
Proof.
  split; (rewrite kstrtoull_exact; [vm_compute; reflexivity|by left| |cbn; lia]);
    repeat constructor; lia.
Defined.

(** The values a signed conversion accepts, and zero with a minus sign, which it does
    not. *)
Definition signed_convert (s : list Z) (base : Z) : kres :=
  if ch s 0 =? 45 then
    match convert (drop 1 s) base with
    | Kok v => if (1 <=? v) && (v <=? 9223372036854775808) then Kok (- v) else Kerr (- ERANGE)
    | Kerr e => Kerr e
    end
  else
    match convert (strip_plus s) base with
    | Kok v => if v <? 9223372036854775808 then Kok v else Kerr (- ERANGE)
    | Kerr e => Kerr e
    end.

(** [kstrtoll] on every C string and radix.  A value is accepted exactly when it
    is in the range of a 64-bit signed integer, except that zero written with a minus
    sign is refused with [-ERANGE]. *)
Theorem kstrtoll_exact s base :
  radix_ok base -> cstring s -> Z.of_nat (length s) < 2147483648 ->
  kstrtoll s base = signed_convert s base.
Proof.
  intros Hb Hs Hl. unfold kstrtoll, signed_convert. destruct (ch s 0 =? 45).
  - assert (Hd : cstring (drop 1 s)) by by apply Forall_drop.
    rewrite kstrtoull_convert by (try done; rewrite length_drop; lia).
    destruct (convert (drop 1 s) base) as [v|e] eqn:E; [|done]. apply convert_range in E; [|done|done].
    unfold s64, u64. destruct (Z.ltb_spec ((- v) `mod` 18446744073709551616) 9223372036854775808);
      destruct (Z.leb_spec 1 v), (Z.leb_spec v 9223372036854775808); cbn [andb];
      match goal with |- context [0 <=? ?x] => destruct (Z.leb_spec 0 x) end; try zlia; f_equal; zlia.
  - rewrite kstrtoull_plus by done. destruct (convert _ base) as [v|e] eqn:E; [|done].
    apply convert_range in E; [|done|unfold strip_plus; destruct (_ =? _); [by apply Forall_drop|done]].
    unfold s64, u64. rewrite Z.mod_small by lia.
    destruct (Z.ltb_spec v 9223372036854775808);
      match goal with |- context [?x <? 0] => destruct (Z.ltb_spec x 0) end; lia || done.
Qed.

(** "-0" and "-9223372036854775808" *)
Lemma kstrtoll_exact_witness :
  kstrtoll [45; 48] 10 = Kerr (-34) /\
  kstrtoll [45; 57; 50; 50; 51; 51; 55; 50; 48; 51; 54; 56; 53; 52; 55; 55; 53; 56; 48; 56] 10 =
    Kok (-9223372036854775808).
Proof.
  split; (rewrite kstrtoll_exact; [vm_compute; reflexivity|right; lia| |cbn; lia]); repeat constructor; lia.
Defined.

Lemma narrow_exact cast (inr : Z -> Prop) r v :
  (forall z, cast z = z <-> inr z) -> (narrow cast r = Kok v <-> r = Kok v /\ inr v).
Proof.
  intros Hc. destruct r as [z|e]; cbn; [|split; [done|by intros [? _]]].
  destruct (Z.eqb_spec z (cast z)) as [E|E]; cbn.
  - rewrite <- E. symmetry in E. apply Hc in E. split; [intros [= <-]; done|]. by intros [[= <-] _].
  - split; [done|]. intros [[= <-] H]. by apply Hc in H.
Qed.

Lemma u_fixed m z : 0 < m -> z `mod` m = z <-> 0 <= z < m.
Proof.
  intros Hm. split; [|apply Z.mod_small]. intros E. rewrite <- E. by apply Z.mod_pos_bound.
Qed.

(** each narrow conversion accepts exactly what the 64-bit conversion of its
    signedness accepts within the range of its own type, with the same value. *)
Theorem narrow_conversions_exact s base v :
  (kstrtou8 s base = Kok v <-> kstrtoull s base = Kok v /\ 0 <= v < 256) /\
  (kstrtou16 s base = Kok v <-> kstrtoull s base = Kok v /\ 0 <= v < 65536) /\
  (kstrtouint s base = Kok v <-> kstrtoull s base = Kok v /\ 0 <= v < 4294967296) /\
  (kstrtoul_ s base = Kok v <-> kstrtoull s base = Kok v /\ 0 <= v < 4294967296) /\
  (kstrtos8 s base = Kok v <-> kstrtoll s base = Kok v /\ -128 <= v < 128) /\
  (kstrtos16 s base = Kok v <-> kstrtoll s base = Kok v /\ -32768 <= v < 32768) /\
  (kstrtoint s base = Kok v <-> kstrtoll s base = Kok v /\ -2147483648 <= v < 2147483648) /\
  (kstrtol_ s base = Kok v <-> kstrtoll s base = Kok v /\ -2147483648 <= v < 2147483648).
Proof.
  refine (conj _ (conj _ (conj _ (conj _ (conj _ (conj _ (conj _ _)))))));
    [apply (narrow_exact u8 (fun v => 0 <= v < 256))|apply (narrow_exact u16 (fun v => 0 <= v < 65536))
    |apply (narrow_exact u32 (fun v => 0 <= v < 4294967296))|apply (narrow_exact u32 (fun v => 0 <= v < 4294967296))
    |apply (narrow_exact s8 (fun v => -128 <= v < 128))|apply (narrow_exact s16 (fun v => -32768 <= v < 32768))
    |apply (narrow_exact s32 (fun v => -2147483648 <= v < 2147483648))
    |apply (narrow_exact s32 (fun v => -2147483648 <= v < 2147483648))]; intros z;
    try (unfold u8, u16, u32; apply u_fixed; lia);
    unfold s8, s16, s32, u8, u16, u32; match goal with |- context [?a <? ?b] => destruct (Z.ltb_spec a b) end; zlia.
Qed.
