(* ===== verification/Vsprintf.v ===== *)
(** * Printing numbers: put_dec, num_to_str and number of lib/vsprintf.c

    The variants a 32-bit kernel compiles: decimal conversion without 64-bit division,
    by multiplication with rounded reciprocals and by splitting the number into 16-bit
    pieces.  Text is a list of character codes, in the order it is stored. *)

From Stdlib Require Import ZArith Lia Bool.
From stdpp Require Import base numbers list.
From S2P Require Import Prelude Kstrtox.
Open Scope Z_scope.

(** ** Decimal digits, least significant first *)

(** The first loop of [put_dec_trunc8]: the digits stored and what is left. *)
Fixpoint trunc8_loop (fuel : nat) (r : Z) : option (list Z * Z) :=
  if 10000 <=? r then
    match fuel with
    | O => None
    | S fuel =>
        let q := u32 (r + 48) in
        let r := u32 (Z.shiftr (u64 (r * 0x1999999a)) 32) in
        '(l, r') ← trunc8_loop fuel r;
        Some (u8 (q - 10 * r) :: l, r')
    end
  else Some ([], r).

Definition put_dec_trunc8 (r : Z) : option (list Z) :=
  '(l, r) ← trunc8_loop 6 r;
  let q := Z.shiftr (u32 (r * 0x199a)) 16 in
  let c1 := u8 (r - 10 * q + 48) in
  if q =? 0 then Some (l ++ [c1])
  else
    let r := Z.shiftr (u32 (q * 0xcd)) 11 in
    let c2 := u8 (q - 10 * r + 48) in
    if r =? 0 then Some (l ++ [c1; c2])
    else
      let q := Z.shiftr (u32 (r * 0xcd)) 11 in
      let c3 := u8 (r - 10 * q + 48) in
      if q =? 0 then Some (l ++ [c1; c2; c3])
      else Some (l ++ [c1; c2; c3; u8 (q + 48)]).

Definition put_dec_full4 (q : Z) : list Z :=
  let r := Z.shiftr (u32 (q * 0xccd)) 15 in
  let c0 := u8 (q - 10 * r + 48) in
  let q := Z.shiftr (u32 (r * 0xcd)) 11 in
  let c1 := u8 (r - 10 * q + 48) in
  let r := Z.shiftr (u32 (q * 0xcd)) 11 in
  let c2 := u8 (q - 10 * r + 48) in
  [c0; c1; c2; u8 (r + 48)].

(** The four digits stored and the quotient. *)
Definition put_dec_helper4 (x : Z) : list Z * Z :=
  let q := u32 (Z.shiftr (u64 (x * 0x346DC5D7)) 43) in
  (put_dec_full4 (u32 (x - q * 10000)), q).

(** [while (buf[-1] == '0') --buf], on the reversed text; reading before the buffer
    is [None]. *)
Fixpoint strip_zeros (rl : list Z) : option (list Z) :=
  match rl with
  | [] => None
  | c :: rl' => if c =? 48 then strip_zeros rl' else Some rl
  end.

Definition put_dec (n : Z) : option (list Z) :=
  if n <? 100 * 1000 * 1000 then put_dec_trunc8 (u32 n)
  else
    let d1 := Z.shiftr (u32 n) 16 in
    let h := u32 (Z.shiftr n 32) in
    let d2 := Z.land h 0xffff in
    let d3 := Z.shiftr h 16 in
    let q := u32 (656 * d3 + 7296 * d2 + 5536 * d1 + Z.land (u32 n) 0xffff) in
    let '(b0, q) := put_dec_helper4 q in
    let q := u32 (q + (7671 * d3 + 9496 * d2 + 6 * d1)) in
    let '(b1, q) := put_dec_helper4 q in
    let q := u32 (q + (4749 * d3 + 42 * d2)) in
    let '(b2, q) := put_dec_helper4 q in
    let q := u32 (q + 281 * d3) in
    let l := b0 ++ b1 ++ b2 in
    if negb (q =? 0) then
      l' ← put_dec_trunc8 q; Some (l ++ l')
    else rl ← strip_zeros (rev l); Some (rev rl).

(** The text stored to [buf] and the length returned; [buf] holds [size] bytes. *)
Definition num_to_str (size num : Z) : option (list Z * Z) :=
  tmp ← (if num <=? 9 then Some [u8 (48 + num)] else put_dec num);
  let len := Z.of_nat (length tmp) in
  if size <? len then Some ([], 0) else Some (rev tmp, len).

(** ** Reference *)

(** The number little-endian digits stand for. *)
Definition le_value (l : list Z) : Z := foldr (fun c v => c - 48 + 10 * v) 0 l.
Definition all_digits (l : list Z) : Prop := Forall (fun c => 48 <= c <= 57) l.

(** The decimal text of [n], reversed: digits, without superfluous zeros. *)
Definition decimal (n : Z) (l : list Z) : Prop :=
  all_digits l /\ le_value l = n /\ (n = 0 -> l = [48]) /\ (n <> 0 -> exists l' c, l = l' ++ [c] /\ c <> 48).

Lemma le_value_cons c l : le_value (c :: l) = c - 48 + 10 * le_value l.
Proof. done. Qed.
Lemma le_value_app l1 l2 : le_value (l1 ++ l2) = le_value l1 + 10 ^ Z.of_nat (length l1) * le_value l2.
Proof.
  induction l1 as [|c l IH]; [change (le_value l2 = 0 + 1 * le_value l2); lia|].
  cbn [app length]. rewrite Nat2Z.inj_succ, Z.pow_succ_r, !le_value_cons, IH by lia. lia.
Qed.

Lemma le_value_nonneg l : all_digits l -> 0 <= le_value l.
Proof. induction 1 as [|c l Hc _ IH]; cbn; [lia|]. unfold le_value in *. lia. Qed.

(** ** Reciprocal multiplication *)

Lemma div10_32 r : 0 <= r < 1000000000 -> u32 (Z.shiftr (u64 (r * 0x1999999a)) 32) = r `div` 10.
Proof. intros Hr. rewrite shiftr_div by lia. zcalc. unfold u32, u64. zlia. Qed.
Lemma div10_16 r : 0 <= r < 10000 -> Z.shiftr (u32 (r * 0x199a)) 16 = r `div` 10.
Proof. intros Hr. rewrite shiftr_div by lia. zcalc. unfold u32. zlia. Qed.
Lemma div10_15 r : 0 <= r < 10000 -> Z.shiftr (u32 (r * 0xccd)) 15 = r `div` 10.
Proof. intros Hr. rewrite shiftr_div by lia. zcalc. unfold u32. zlia. Qed.
Lemma div10_11 r : 0 <= r < 1000 -> Z.shiftr (u32 (r * 0xcd)) 11 = r `div` 10.
Proof. intros Hr. rewrite shiftr_div by lia. zcalc. unfold u32. zlia. Qed.
Lemma div10000_43 x : 0 <= x < 1128869999 -> u32 (Z.shiftr (u64 (x * 0x346DC5D7)) 43) = x `div` 10000.
Proof. intros Hr. rewrite shiftr_div by lia. zcalc. unfold u32, u64. zlia. Qed.

Lemma digit_char d : 0 <= d < 10 -> u8 (d + 48) = d + 48.
Proof. intros H. apply u8_id. unfold is_u8. lia. Qed.
Lemma digit_char' r : 0 <= r -> u8 (r - 10 * (r `div` 10) + 48) = r `mod` 10 + 48.
Proof. intros H. replace (r - 10 * (r `div` 10)) with (r `mod` 10) by zlia. apply digit_char. zlia. Qed.

Lemma trunc8_loop_spec fuel r :
  0 <= r < 1000000000 -> r < 10 ^ (4 + Z.of_nat fuel) ->
  exists l r', trunc8_loop fuel r = Some (l, r') /\ all_digits l /\ 0 <= r' < 10000 /\
    r = le_value l + 10 ^ Z.of_nat (length l) * r' /\ (l <> [] -> 0 < r').
Proof.
  revert r. induction fuel as [|fuel IH]; intros r Hr Hf; cbn [trunc8_loop].
  { destruct (Z.leb_spec 10000 r); [zcalc_in Hf; change (4 + Z.of_nat 0) with 4 in Hf; zcalc_in Hf; lia|].
    exists [], r. split_and!; try done; cbn; zcalc; try lia. constructor. }
  destruct (Z.leb_spec 10000 r); cycle 1.
  { exists [], r. split_and!; try done; cbn; zcalc; try lia. constructor. }
  rewrite div10_32 by done.
  destruct (IH (r `div` 10)) as (l & r' & E & Hl & Hr' & Hv & Hne).
  { zlia. }
  { rewrite Nat2Z.inj_succ in Hf. replace (4 + Z.succ (Z.of_nat fuel)) with (Z.succ (4 + Z.of_nat fuel)) in Hf by lia.
    rewrite Z.pow_succ_r in Hf by lia. zlia. }
  rewrite E. cbn [mbind option_bind]. eexists _, r'. split; [reflexivity|].
  assert (Hc : u8 (u32 (r + 48) - 10 * (r `div` 10)) = r `mod` 10 + 48).
  { rewrite u32_id by (unfold is_u32; lia). replace (r + 48 - 10 * (r `div` 10)) with (r `mod` 10 + 48) by zlia.
    apply digit_char. zlia. }
  rewrite Hc. split_and!; try lia.
  - constructor; [zlia|done].
  - cbn [length]. rewrite Nat2Z.inj_succ, Z.pow_succ_r by lia.
    change (le_value (r `mod` 10 + 48 :: l)) with (r `mod` 10 + 48 - 48 + 10 * le_value l). zlia.
  - intros _. destruct l; [|by apply Hne]. change (10 ^ Z.of_nat (length [])) with 1 in Hv. cbn in Hv. zlia.
Qed.

(** A text of digits that ends in a nonzero one. *)
Lemma decimal_tail l t c n :
  all_digits l -> all_digits t -> 48 < c <= 57 ->
  n = le_value l + 10 ^ Z.of_nat (length l) * le_value (t ++ [c]) -> decimal n (l ++ t ++ [c]).
Proof.
  intros Hl Ht Hc ->.
  assert (Hd : all_digits (t ++ [c])) by (apply Forall_app; split; [done|apply Forall_singleton; lia]).
  split_and!.
  - by apply Forall_app.
  - by rewrite le_value_app.
  - intros E. pose proof (le_value_nonneg l Hl). pose proof (le_value_nonneg t Ht).
    rewrite le_value_app, le_value_cons in E. change (le_value []) with 0 in E.
    pose proof (Z.pow_pos_nonneg 10 (Z.of_nat (length l)) ltac:(lia) ltac:(lia)).
    pose proof (Z.pow_pos_nonneg 10 (Z.of_nat (length t)) ltac:(lia) ltac:(lia)). nia.
  - intros _. exists (l ++ t), c. split; [by rewrite app_assoc|lia].
Qed.

Lemma put_dec_trunc8_spec r :
  0 <= r < 100000000 -> exists l, put_dec_trunc8 r = Some l /\ decimal r l.
Proof.
  intros Hr. unfold put_dec_trunc8.
  destruct (trunc8_loop_spec 6 r ltac:(lia) ltac:(change (4 + Z.of_nat 6) with 10; zcalc; lia))
    as (l & r' & -> & Hl & Hr' & Hv & Hne). cbn [mbind option_bind].
  rewrite div10_16, digit_char' by lia.
  destruct (Z.eqb_spec (r' `div` 10) 0) as [E1|E1].
  { eexists. split; [reflexivity|]. destruct (Z.eq_dec r' 0) as [->|Hnz].
    - assert (l = []) as -> by (destruct l; [done|]; by specialize (Hne ltac:(done))).
      change (10 ^ Z.of_nat (length [])) with 1 in Hv. cbn in Hv. subst r. cbn. split_and!; try done.
      apply Forall_singleton. zlia.
    - apply (decimal_tail l []); [done|constructor|zlia|]. rewrite Hv. do 2 f_equal. cbn. zlia. }
  rewrite div10_11, digit_char' by zlia.
  destruct (Z.eqb_spec (r' `div` 10 `div` 10) 0) as [E2|E2].
  { eexists. split; [reflexivity|]. apply (decimal_tail l [_]); [done|repeat constructor; zlia|zlia|].
    rewrite Hv. do 2 f_equal. cbn. zlia. }
  rewrite div10_11, digit_char' by zlia.
  destruct (Z.eqb_spec (r' `div` 10 `div` 10 `div` 10) 0) as [E3|E3].
  { eexists. split; [reflexivity|]. apply (decimal_tail l [_; _]); [done|repeat constructor; zlia|zlia|].
    rewrite Hv. do 2 f_equal. cbn. zlia. }
  eexists. split; [reflexivity|]. rewrite digit_char by zlia.
  apply (decimal_tail l [_; _; _]); [done|repeat constructor; zlia|zlia|].
  rewrite Hv. do 2 f_equal. cbn. zlia.
Qed.

(** A group of four digits, leading zeros included. *)
Lemma put_dec_full4_spec q :
  0 <= q < 10000 -> all_digits (put_dec_full4 q) /\ le_value (put_dec_full4 q) = q /\
    length (put_dec_full4 q) = 4%nat.
Proof.
  intros Hq. unfold put_dec_full4. rewrite div10_15 by lia.
  rewrite (div10_11 (q `div` 10)), (div10_11 (q `div` 10 `div` 10)) by zlia.
  rewrite !digit_char', digit_char by zlia. split_and!; [|cbn; zlia|done].
  repeat (apply Forall_cons; split; [zlia|]). constructor.
Qed.

Lemma put_dec_helper4_spec x :
  0 <= x < 1128869999 -> exists b, put_dec_helper4 x = (b, x `div` 10000) /\
    all_digits b /\ le_value b = x `mod` 10000 /\ length b = 4%nat.
Proof.
  intros Hx. unfold put_dec_helper4. rewrite div10000_43 by done.
  replace (x - x `div` 10000 * 10000) with (x `mod` 10000) by zlia.
  rewrite u32_id by (unfold is_u32; zlia). eexists. split; [reflexivity|]. apply put_dec_full4_spec. zlia.
Qed.

(** Stripping keeps the value and leaves a nonzero digit at the end. *)
Lemma strip_zeros_spec l :
  all_digits l -> 0 < le_value l -> exists rl, strip_zeros (rev l) = Some rl /\ decimal (le_value l) (rev rl).
Proof.
  induction l as [|c l IH] using rev_ind; intros Hl Hv; [by cbn in Hv|].
  apply Forall_app in Hl as [Hl [Hc _]%Forall_cons]. rewrite rev_app_distr. cbn [rev app strip_zeros].
  rewrite le_value_app, le_value_cons in *. change (le_value []) with 0 in *.
  destruct (Z.eqb_spec c 48) as [->|Hne].
  - replace (le_value l + 10 ^ Z.of_nat (length l) * (48 - 48 + 10 * 0)) with (le_value l) in * by lia.
    by apply IH.
  - eexists. split; [reflexivity|]. cbn [rev]. rewrite rev_involutive.
    apply (decimal_tail l []); [done|constructor|lia|]. cbn [app]. by rewrite le_value_cons.
Qed.

(** The 16-bit pieces of a number. *)
Lemma pieces n : 0 <= n < 18446744073709551616 ->
  let d1 := Z.shiftr (u32 n) 16 in let h := u32 (Z.shiftr n 32) in
  let d2 := Z.land h 0xffff in let d3 := Z.shiftr h 16 in let d0 := Z.land (u32 n) 0xffff in
  0 <= d0 < 65536 /\ 0 <= d1 < 65536 /\ 0 <= d2 < 65536 /\ 0 <= d3 < 65536 /\
  n = d0 + 65536 * d1 + 4294967296 * d2 + 281474976710656 * d3.
Proof.
  intros Hn. cbv zeta. rewrite !shiftr_div, !(land_mask_mod _ 16 0xffff) by done.
  zcalc. unfold u32. zlia.
Qed.

Lemma put_dec_spec n :
  0 <= n < 18446744073709551616 -> exists l, put_dec n = Some l /\ decimal n l.
Proof.
  intros Hn. unfold put_dec. change (100 * 1000 * 1000) with 100000000.
  destruct (Z.ltb_spec n 100000000).
  { rewrite u32_id by (unfold is_u32; lia). apply put_dec_trunc8_spec. lia. }
  destruct (pieces n Hn) as (H0 & H1 & H2 & H3 & Hsum). cbv zeta in *.
  set (d0 := Z.land (u32 n) 0xffff) in *. set (d1 := Z.shiftr (u32 n) 16) in *.
  set (h := u32 (Z.shiftr n 32)) in *. set (d2 := Z.land h 0xffff) in *. set (d3 := Z.shiftr h 16) in *.
  clearbody d0 d1 d2 d3. clear h.
  rewrite (u32_id (656 * d3 + 7296 * d2 + 5536 * d1 + d0)) by (unfold is_u32; lia).
  set (x0 := 656 * d3 + 7296 * d2 + 5536 * d1 + d0) in *.
  destruct (put_dec_helper4_spec x0 ltac:(lia)) as (b0 & -> & D0 & V0 & L0).
  assert (Hx0 : 0 <= x0 `div` 10000 <= 112886) by zlia.
  rewrite (u32_id (x0 `div` 10000 + _)) by (unfold is_u32; lia).
  set (x1 := x0 `div` 10000 + (7671 * d3 + 9496 * d2 + 6 * d1)) in *.
  destruct (put_dec_helper4_spec x1 ltac:(zlia)) as (b1 & -> & D1 & V1 & L1).
  assert (Hx1 : 0 <= x1 `div` 10000 <= 112886) by zlia.
  rewrite (u32_id (x1 `div` 10000 + _)) by (unfold is_u32; lia).
  set (x2 := x1 `div` 10000 + (4749 * d3 + 42 * d2)) in *.
  destruct (put_dec_helper4_spec x2 ltac:(lia)) as (b2 & -> & D2 & V2 & L2).
  assert (Hx2 : 0 <= x2 `div` 10000 <= 112886) by zlia.
  rewrite (u32_id (x2 `div` 10000 + 281 * d3)) by (unfold is_u32; lia).
  set (x3 := x2 `div` 10000 + 281 * d3) in *.
  assert (Hval : n = x0 `mod` 10000 + 10000 * (x1 `mod` 10000) + 100000000 * (x2 `mod` 10000) + 1000000000000 * x3).
  { subst x0 x1 x2 x3. zlia. }
  assert (Hlow : le_value (b0 ++ b1 ++ b2) = n - 1000000000000 * x3).
  { rewrite !le_value_app, V0, V1, V2, L0, L1. change (10 ^ Z.of_nat 4) with 10000. lia. }
  assert (Hdig : all_digits (b0 ++ b1 ++ b2)) by (unfold all_digits in *; rewrite !Forall_app; done).
  destruct (Z.eqb_spec x3 0) as [E|E]; cbn [negb].
  - destruct (strip_zeros_spec _ Hdig ltac:(lia)) as (rl & -> & Hrl). cbn.
    eexists. split; [reflexivity|]. replace n with (le_value (b0 ++ b1 ++ b2)) by lia. done.
  - destruct (put_dec_trunc8_spec x3 ltac:(zlia)) as (l & -> & Hd & Hl & _ & Hnz). cbn [mbind option_bind].
    eexists. split; [reflexivity|]. destruct (Hnz E) as (l' & c & -> & Hc).
    apply Forall_app in Hd as [Hd1 [Hd2 _]%Forall_cons]. apply decimal_tail; [done|done|lia|].
    rewrite Hl, Hlow, !length_app, L0, L1, L2. change (10 ^ Z.of_nat (4 + (4 + 4))) with 1000000000000. lia.
Qed.

(** ** Numerals *)

(** [D] is the numeral of [v] in a radix: most significant digit first, no leading
    zeros. *)
Definition numeral (base v : Z) (D : list Z) : Prop :=
  exists ds, digit_val <$> D = Some <$> ds /\ Forall (fun d => 0 <= d < base) ds /\ eval base ds = v /\
    (v = 0 -> ds = [0]) /\ (v <> 0 -> exists d r, ds = d :: r /\ d <> 0).

Lemma digit_val_dec c : 48 <= c <= 57 -> digit_val c = Some (c - 48).
Proof. intros H. unfold digit_val. by rewrite (proj2 (Z.leb_le 48 c)), (proj2 (Z.leb_le c 57)) by lia. Qed.

Lemma eval_snoc base ds d : eval base (ds ++ [d]) = eval base ds * base + d.
Proof. unfold eval, eval_from. by rewrite fold_left_app. Qed.

Lemma decimal_numeral n l : decimal n l -> numeral 10 n (rev l).
Proof.
  intros (Hd & Hv & H0 & Hn). exists (rev ((fun c => c - 48) <$> l)). split_and!.
  - clear Hv H0 Hn. induction Hd as [|c l Hc _ IH]; [done|].
    cbn [rev fmap list_fmap]. rewrite !fmap_app, IH. cbn. by rewrite digit_val_dec.
  - apply Forall_rev. apply Forall_fmap. eapply Forall_impl; [exact Hd|]. cbn. lia.
  - rewrite <- Hv. clear. induction l as [|c l IH]; [done|]. cbn [rev fmap list_fmap].
    rewrite eval_snoc, IH, le_value_cons. lia.
  - intros E. by rewrite (H0 E).
  - intros E. destruct (Hn E) as (l' & c & -> & Hc). rewrite fmap_app, rev_app_distr. cbn.
    eexists _, _. split; [reflexivity|]. lia.
Qed.

Lemma span_digits_all base D ds :
  digit_val <$> D = Some <$> ds -> Forall (fun d => 0 <= d < base) ds -> span_digits base D = (ds, []).
Proof.
  revert ds. induction D as [|c D IH]; intros [|d ds]; cbn; try done. intros [= Ed ED] Hd.
  apply Forall_cons in Hd as [Hd Hds]. rewrite Ed, (proj2 (Z.ltb_lt d base)), (IH ds) by (done || lia). done.
Qed.

(** A numeral does not look like a radix prefix. *)
Lemma numeral_no_prefix base v D : numeral base v D -> ch D 0 = 48 -> D = [48] /\ v = 0.
Proof.
  intros (ds & ED & Hd & Hv & H0 & Hn) Hc. destruct (Z.eq_dec v 0) as [E|E].
  - rewrite (H0 E) in ED. destruct D as [|c [|c' D]]; try done. cbn in Hc. by subst c.
  - destruct (Hn E) as (d & r & -> & Hne). destruct D as [|c D]; [done|]. cbn in Hc. subst c.
    rewrite !fmap_cons in ED.
    apply (f_equal head) in ED. cbn [head] in ED. rewrite digit_val_dec in ED by lia. injection ED. lia.
Qed.

Lemma numeral_converts base v D :
  2 <= base <= 16 -> v < 18446744073709551616 -> numeral base v D -> convert D base = Kok v.
Proof.
  intros Hb Hv HD. assert (Hfix : strip_prefix D base = (D, base)).
  { unfold strip_prefix. rewrite (bool_decide_eq_false_2 (base = 0)) by lia. destruct D as [|c D]; [done|].
    destruct (bool_decide_reflect (c = 48)) as [->|E]; [|done]. by destruct (numeral_no_prefix _ _ _ HD eq_refl) as [[= ->] _]. }
  unfold convert. rewrite Hfix. destruct HD as (ds & ED & Hd & He & H0 & Hn).
  rewrite (span_digits_all base D ds ED Hd), He. rewrite (proj2 (Z.leb_gt _ _)) by lia.
  rewrite (bool_decide_eq_true_2 (_ \/ _)) by auto. destruct ds as [|d ds].
  - destruct (Z.eq_dec v 0) as [E|E]; [by specialize (H0 E)|by destruct (Hn E) as (? & ? & ? & ?)].
  - done.
Qed.

(** Radix 0 finds the radix of a decimal numeral. *)
Lemma numeral_converts_auto v D :
  v < 18446744073709551616 -> numeral 10 v D -> convert D 0 = Kok v.
Proof.
  intros Hv HD. destruct (Z.eq_dec (ch D 0) 48) as [E|E].
  { by destruct (numeral_no_prefix _ _ _ HD E) as [-> ->]. }
  rewrite <- (numeral_converts 10 v D) by (done || lia). unfold convert, strip_prefix.
  destruct D as [|c D]; [done|]. by rewrite (bool_decide_eq_false_2 (c = 48)) by exact E.
Qed.

Lemma decimal_length n l k : decimal n l -> 0 < k -> n < 10 ^ k -> Z.of_nat (length l) <= k.
Proof.
  intros (Hd & Hv & H0 & Hn) Hk Hlt. destruct (Z.eq_dec n 0) as [E|E]; [rewrite (H0 E); cbn; lia|].
  destruct (Hn E) as (l' & c & -> & Hc). apply Forall_app in Hd as [Hd [Hc' _]%Forall_cons].
  rewrite le_value_app, le_value_cons in Hv. change (le_value []) with 0 in Hv.
  pose proof (le_value_nonneg l' Hd). rewrite length_app. cbn [length].
  assert (10 ^ Z.of_nat (length l') < 10 ^ k) by nia.
  apply Z.pow_lt_mono_r_iff in H1; lia.
Qed.

(** C25: [put_dec], which divides by multiplying and never by a 64-bit division,
    stores the decimal digits of any 64-bit number, zero included, least significant first
    and without superfluous zeros, and reads no byte before its buffer. *)
Theorem put_dec_correct n :
  0 <= n < 18446744073709551616 -> exists l, put_dec n = Some l /\ decimal n l.
Proof. apply put_dec_spec. Qed.

Lemma put_dec_correct_witness :
  exists l, put_dec 18446744073709551615 = Some l /\ decimal 18446744073709551615 l.
Proof. apply put_dec_correct. lia. Defined.

(** zero is no exception, although a comment in [num_to_str] expects one. *)
Example put_dec_zero : put_dec 0 = Some [48].
Proof. vm_compute. reflexivity. Qed.

(** [num_to_str] prints what [kstrtoull] reads.  With room for 20 characters it
    always succeeds; when it succeeds it stores at most [size] characters and reading
    them back, in radix 10 or with the radix found automatically, gives the number. *)
Theorem num_to_str_roundtrip size n :
  0 <= n < 18446744073709551616 ->
  exists s len, num_to_str size n = Some (s, len) /\ len = Z.of_nat (length s) /\
    (20 <= size -> 0 < len) /\
    (0 < len -> len <= size /\ kstrtoull s 10 = Kok n /\ kstrtoull s 0 = Kok n).
Proof.
  intros Hn. assert (Htmp : exists l, (if n <=? 9 then Some [u8 (48 + n)] else put_dec n) = Some l /\ decimal n l).
  { destruct (Z.leb_spec n 9); [|by apply put_dec_spec]. eexists. split; [reflexivity|].
    rewrite u8_id by (unfold is_u8; lia). split_and!; [apply Forall_singleton; lia|cbn; lia|by intros ->|].
    intros Hne. exists [], (48 + n). split; [done|lia]. }
  destruct Htmp as (l & E & Hl). unfold num_to_str. rewrite E. cbn [mbind option_bind].
  pose proof (decimal_length n l 20 Hl ltac:(lia) ltac:(zcalc; lia)) as Hlen.
  pose proof (decimal_numeral n l Hl) as HD.
  assert (Hpos : 0 < Z.of_nat (length l)).
  { destruct l; [|cbn; lia]. destruct Hl as (_ & Hv & H0 & H1). cbn in Hv. subst n. by specialize (H0 eq_refl). }
  destruct (Z.ltb_spec size (Z.of_nat (length l))).
  { eexists _, _. split; [reflexivity|]. split_and!; [done|lia|lia]. }
  eexists _, _. split; [reflexivity|]. rewrite length_rev. split_and!; [done|lia|]. intros _.
  assert (Hc : cstring (rev l) /\ ch (rev l) 0 <> 43 /\ Z.of_nat (length (rev l)) < 2147483648).
  { destruct Hl as [Hd _]. rewrite length_rev. split_and!; [|  |lia].
    - apply Forall_rev. eapply Forall_impl; [exact Hd|]. cbn. lia.
    - apply Forall_rev in Hd. destruct (rev l) as [|c r]; [done|]. apply Forall_cons in Hd as [Hc _]. cbn. lia. }
  destruct Hc as (Hc1 & Hc2 & Hc3). split; [lia|].
  rewrite !kstrtoull_plus by (done || (by left) || right; lia). unfold strip_plus.
  rewrite (proj2 (Z.eqb_neq _ _) Hc2).
  split; [apply numeral_converts|apply numeral_converts_auto]; done || lia.
Qed.

Lemma num_to_str_roundtrip_witness :
  exists s len, num_to_str 20 18446744073709551615 = Some (s, len) /\ len = Z.of_nat (length s) /\
    (20 <= 20 -> 0 < len) /\
    (0 < len -> len <= 20 /\ kstrtoull s 10 = Kok 18446744073709551615 /\
       kstrtoull s 0 = Kok 18446744073709551615).
Proof. apply num_to_str_roundtrip. lia. Defined.

(** ** number *)

Definition ZEROPAD : Z := 1.
Definition SIGN : Z := 2.
Definition PLUS : Z := 4.
Definition SPACE : Z := 8.
Definition LEFT : Z := 16.
Definition SMALL : Z := 32.
Definition SPECIAL : Z := 64.

Inductive format_type :=
  | FORMAT_TYPE_NONE | FORMAT_TYPE_WIDTH | FORMAT_TYPE_PRECISION | FORMAT_TYPE_CHAR | FORMAT_TYPE_STR | FORMAT_TYPE_PTR
  | FORMAT_TYPE_PERCENT_CHAR | FORMAT_TYPE_INVALID | FORMAT_TYPE_LONG_LONG | FORMAT_TYPE_ULONG | FORMAT_TYPE_LONG
  | FORMAT_TYPE_UBYTE | FORMAT_TYPE_BYTE | FORMAT_TYPE_USHORT | FORMAT_TYPE_SHORT | FORMAT_TYPE_UINT | FORMAT_TYPE_INT
  | FORMAT_TYPE_NRCHARS | FORMAT_TYPE_SIZE_T | FORMAT_TYPE_PTRDIFF.

(** [field_width] and [precision] are [s16], the others [u8]. *)
Record printf_spec := mkSpec {
  type : format_type;
  flags : Z;
  base : Z;
  qualifier : Z;
  field_width : Z;
  precision : Z
}.

Definition has (f x : Z) : bool := negb (Z.land f x =? 0).

(** The output: memory, and the position of [buf] in it.  [if (buf < end) *buf = c;
    ++buf]. *)
Record out := mkOut { omem : Z -> Z; pos : Z }.
Definition put (e : Z) (o : out) (c : Z) : out :=
  mkOut (if pos o <? e then fun k => if k =? pos o then c else omem o k else omem o) (pos o + 1).

(** [while (--w >= low) put c]: the output and the final [w], an [s16]. *)
Fixpoint pad_loop (fuel : nat) (e : Z) (o : out) (low w c : Z) : option (out * Z) :=
  let w := s16 (w - 1) in
  if low <=? w then
    match fuel with O => None | S fuel => pad_loop fuel e (put e o c) low w c end
  else Some (o, w).
(** The loop runs [w - low] times, but from the least [s16] it wraps around. *)
Definition pad_fuel (low w : Z) : nat := Z.to_nat (if w =? -32768 then 32768 else w - low).
Definition pad (e : Z) (o : out) (low w c : Z) : option (out * Z) := pad_loop (pad_fuel low w) e o low w c.

(** "0123456789ABCDEF" *)
Definition digits : list Z := [48; 49; 50; 51; 52; 53; 54; 55; 56; 57; 65; 66; 67; 68; 69; 70].
Definition digit_char_of (d locase : Z) : Z := Z.lor (nth (Z.to_nat d) digits 0) locase.

(** The [do]-[while] loop for octal and hexadecimal; 22 digits are enough for both. *)
Fixpoint radix_loop (fuel : nat) (num mask shift locase : Z) : option (list Z) :=
  match fuel with
  | O => None
  | S fuel =>
      let c := digit_char_of (Z.land (u8 num) mask) locase in
      let num := Z.shiftr num shift in
      if num =? 0 then Some [c] else l ← radix_loop fuel num mask shift locase; Some (c :: l)
  end.

(** The sign character, the magnitude and the field width left for it. *)
Definition sign_of (fl num w : Z) : option Z * Z * Z :=
  if has fl SIGN then
    if s64 num <? 0 then (Some 45, u64 (- s64 num), s16 (w - 1))
    else if has fl PLUS then (Some 43, num, s16 (w - 1))
    else if has fl SPACE then (Some 32, num, s16 (w - 1))
    else (None, num, w)
  else (None, num, w).

Definition digits_of (num bs locase : Z) : option (list Z) :=
  if num <? bs then Some [digit_char_of num locase]
  else if negb (bs =? 10) then radix_loop 22 num (bs - 1) (if bs =? 16 then 4 else 3) locase
  else put_dec num.

Definition put_list (e : Z) (o : out) (l : list Z) : out := fold_left (put e) l o.

Definition number (e : Z) (o : out) (num : Z) (sp : printf_spec) : option out :=
  let need_pfx := has (flags sp) SPECIAL && negb (base sp =? 10) in
  let is_zero := num =? 0 in
  let locase := Z.land (flags sp) SMALL in
  let fl := if has (flags sp) LEFT then Z.ldiff (flags sp) ZEROPAD else flags sp in
  let '(sign, num, w) := sign_of fl num (field_width sp) in
  let w :=
    if need_pfx then
      if base sp =? 16 then s16 (w - 2) else if negb is_zero then s16 (w - 1) else w
    else w in
  tmp ← digits_of num (base sp) locase;
  let i := Z.of_nat (length tmp) in
  let prec := if precision sp <? i then s16 i else precision sp in
  let w := s16 (w - prec) in
  '(o, w) ← (if negb (has fl (ZEROPAD + LEFT)) then pad e o 0 w 32 else Some (o, w));
  let o := match sign with Some c => put e o c | None => o end in
  let o :=
    if need_pfx then
      let o := if (base sp =? 16) || negb is_zero then put e o 48 else o in
      if base sp =? 16 then put e o (Z.lor 88 locase) else o
    else o in
  '(o, w) ← (if negb (has fl LEFT) then pad e o 0 w (if has fl ZEROPAD then 48 else 32) else Some (o, w));
  '(o, _) ← pad e o i prec 48;
  let o := put_list e o (rev tmp) in
  '(o, _) ← pad e o 0 w 32;
  Some o.

(** ** Flags *)

Lemma has_bit f k : 0 <= k -> has f (2 ^ k) = Z.testbit f k.
Proof.
  intros Hk. unfold has. destruct (Z.testbit f k) eqn:E.
  - apply negb_true_iff, Z.eqb_neq. intros H. apply (f_equal (fun z => Z.testbit z k)) in H.
    by rewrite Z.land_spec, E, Z.pow2_bits_true, Z.bits_0 in H by done.
  - apply negb_false_iff, Z.eqb_eq. apply Z.bits_inj'. intros i Hi.
    rewrite Z.land_spec, Z.pow2_bits_eqb, Z.bits_0 by done.
    destruct (Z.eqb_spec k i) as [<-|]; [by rewrite E|apply andb_false_r].
Qed.
Lemma has_left fl : has (if has fl LEFT then Z.ldiff fl ZEROPAD else fl) LEFT = has fl LEFT.
Proof.
  destruct (has fl LEFT) eqn:E; [|done]. change LEFT with (2 ^ 4) in *. rewrite has_bit in * by lia.
  by rewrite Z.ldiff_spec, E.
Qed.
Lemma has_zeropad fl : has fl LEFT = false ->
  has fl (ZEROPAD + LEFT) = has fl ZEROPAD.
Proof.
  unfold has, ZEROPAD, LEFT. change (1 + 16) with (Z.lor 1 16). rewrite Z.land_lor_distr_r.
  intros H%negb_false_iff%Z.eqb_eq. by rewrite H, Z.lor_0_r.
Qed.
Lemma has_left_any fl : has fl LEFT = true -> has fl (ZEROPAD + LEFT) = true.
Proof.
  unfold has, ZEROPAD, LEFT. change (1 + 16) with (Z.lor 1 16). rewrite Z.land_lor_distr_r.
  intros H%negb_true_iff%Z.eqb_neq. apply negb_true_iff, Z.eqb_neq. rewrite Z.lor_eq_0_iff. tauto.
Qed.
Lemma has_kept fl k : 0 < k ->
  has (if has fl LEFT then Z.ldiff fl ZEROPAD else fl) (2 ^ k) = has fl (2 ^ k).
Proof.
  intros Hk. rewrite !has_bit by lia. destruct (has fl LEFT); [|done].
  rewrite Z.ldiff_spec. change ZEROPAD with (2 ^ 0). rewrite Z.pow2_bits_false by lia. apply andb_true_r.
Qed.

Lemma locase_cases fl : Z.land fl SMALL = 0 \/ Z.land fl SMALL = 32.
Proof.
  destruct (Z.testbit fl 5) eqn:E; [right|left]; apply Z.bits_inj'; intros i Hi;
    change SMALL with (2 ^ 5); change 32 with (2 ^ 5); rewrite Z.land_spec, Z.pow2_bits_eqb, ?Z.bits_0 by lia;
    (destruct (Z.eqb_spec 5 i) as [<-|]; [by rewrite E|by rewrite andb_false_r]).
Qed.

(** ** Digits *)

Lemma digit_char_of_val d lc : 0 <= d < 16 -> lc = 0 \/ lc = 32 -> digit_val (digit_char_of d lc) = Some d.
Proof.
  intros Hd Hl.
  assert (Ht : Forall (fun d => digit_val (digit_char_of d 0) = Some d /\ digit_val (digit_char_of d 32) = Some d)
                 (seqZ 0 16)) by (apply (bool_decide_unpack _); vm_compute; exact I).
  rewrite Forall_forall in Ht. specialize (Ht d). rewrite elem_of_seqZ in Ht.
  destruct (Ht ltac:(lia)) as [H0 H1]. by destruct Hl as [->| ->].
Qed.

Lemma radix_digit num k : 3 <= k <= 4 -> Z.land (u8 num) (2 ^ k - 1) = num `mod` 2 ^ k.
Proof.
  intros Hk. rewrite (land_mask_mod _ k) by (lia || (rewrite Z.ones_equiv; lia)).
  unfold u8. assert (k = 3 \/ k = 4) as [->| ->] by lia; zcalc; zlia.
Qed.

Lemma radix_loop_spec fuel num k lc :
  3 <= k <= 4 -> lc = 0 \/ lc = 32 -> 0 < num < 2 ^ (k * Z.of_nat fuel) ->
  exists l, radix_loop fuel num (2 ^ k - 1) k lc = Some l /\ numeral (2 ^ k) num (rev l).
Proof.
  intros Hk Hl. assert (H2k : 8 <= 2 ^ k <= 16) by (assert (k = 3 \/ k = 4) as [->| ->] by lia; zcalc; lia).
  revert num. induction fuel as [|fuel IH]; intros num Hn.
  { rewrite Z.mul_0_r, Z.pow_0_r in Hn. lia. }
  cbn [radix_loop]. rewrite radix_digit, shiftr_div by lia.
  pose proof (Z.mod_pos_bound num (2 ^ k) ltac:(lia)) as Hm.
  pose proof (Z.div_mod num (2 ^ k) ltac:(lia)) as Hdm.
  pose proof (Z.div_pos num (2 ^ k) ltac:(lia) ltac:(lia)) as Hdp.
  destruct (Z.eqb_spec (num `div` 2 ^ k) 0) as [E|E].
  - eexists. split; [reflexivity|]. exists [num `mod` 2 ^ k]. cbn [rev app fmap list_fmap].
    rewrite digit_char_of_val by (done || lia). split_and!; [done|by apply Forall_singleton| |lia|].
    + unfold eval, eval_from. cbn [fold_left]. lia.
    + intros _. eexists _, _. split; [done|]. lia.
  - destruct (IH (num `div` 2 ^ k)) as (l & -> & ds & H1 & H2 & H3 & H4 & H5).
    { split; [lia|]. apply Z.div_lt_upper_bound; [lia|]. rewrite <- Z.pow_add_r by lia.
      replace (k + k * Z.of_nat fuel) with (k * Z.of_nat (S fuel)) by lia. lia. }
    cbn [mbind option_bind]. eexists. split; [reflexivity|]. exists (ds ++ [num `mod` 2 ^ k]).
    cbn [rev]. rewrite !fmap_app, H1. cbn [fmap list_fmap]. rewrite digit_char_of_val by (done || lia).
    split_and!; [done|apply Forall_app; split; [done|by apply Forall_singleton]|rewrite eval_snoc; lia|lia|].
    intros _. destruct (H5 E) as (d & r & -> & Hd). by exists d, (r ++ [num `mod` 2 ^ k]).
Qed.

(** No more digits than the radix needs. *)
Lemma radix_loop_length fuel num mask shift lc l :
  radix_loop fuel num mask shift lc = Some l -> (1 <= length l <= fuel)%nat.
Proof.
  revert num l. induction fuel as [|fuel IH]; intros num l; cbn [radix_loop]; [done|].
  destruct (_ =? 0); [intros [= <-]; cbn; lia|].
  destruct (radix_loop fuel _ _ _ _) as [l'|] eqn:E; cbn; [|done]. intros [= <-].
  apply IH in E. cbn. lia.
Qed.

Lemma digits_of_spec num bs lc :
  bs = 8 \/ bs = 10 \/ bs = 16 -> lc = 0 \/ lc = 32 -> 0 <= num < 18446744073709551616 ->
  exists l, digits_of num bs lc = Some l /\ numeral bs num (rev l) /\ 1 <= Z.of_nat (length l) <= 22.
Proof.
  intros Hb Hl Hn. unfold digits_of. destruct (Z.ltb_spec num bs).
  { eexists. split; [reflexivity|]. split; [|cbn; lia]. exists [num]. cbn [rev app fmap list_fmap].
    rewrite digit_char_of_val by (done || lia).
    split_and!; [done|apply Forall_singleton; lia|done|by intros ->|]. intros Hne. by eexists _, _. }
  destruct (Z.eqb_spec bs 10) as [->|Hne]; cbn [negb].
  { destruct (put_dec_spec num Hn) as (l & E & Hd). exists l. split_and!; [done|by apply decimal_numeral| |].
    - destruct l; [|cbn; lia]. destruct Hd as (_ & Hv & _). cbn in Hv. lia.
    - pose proof (decimal_length num l 20 Hd ltac:(lia) ltac:(zcalc; lia)). lia. }
  assert (Hk : exists k, 3 <= k <= 4 /\ bs = 2 ^ k /\ (if bs =? 16 then 4 else 3) = k).
  { destruct Hb as [->|[->| ->]]; [by exists 3|done|by exists 4]. }
  destruct Hk as (k & Hk & -> & ->). destruct (radix_loop_spec 22 num k lc Hk Hl) as (l & E & HD).
  { split; [lia|]. assert (k = 3 \/ k = 4) as [->| ->] by lia; change (2 ^ (_ * _)) with (2 ^ 66) ||
      change (2 ^ (_ * _)) with (2 ^ 88); zcalc; lia. }
  exists l. split_and!; try done; apply radix_loop_length in E; lia.
Qed.

(** ** Padding and layout *)

Lemma put_list_app e o l1 l2 : put_list e o (l1 ++ l2) = put_list e (put_list e o l1) l2.
Proof. apply fold_left_app. Qed.

Lemma pad_loop_spec fuel e o low w c :
  0 <= low -> -32767 <= w <= 32767 -> w - low <= Z.of_nat fuel ->
  exists w', pad_loop fuel e o low w c = Some (put_list e o (repeat c (Z.to_nat (w - low))), w') /\
    (w' = w - 1 /\ w <= low \/ w' = low - 1 /\ low < w).
Proof.
  intros Hlow. revert o w. induction fuel as [|fuel IH]; intros o w Hw Hf; cbn [pad_loop];
    rewrite s16_id by lia; destruct (Z.leb_spec low (w - 1)); try lia.
  - replace (Z.to_nat (w - low)) with 0%nat by lia. exists (w - 1). split; [done|lia].
  - destruct (IH (put e o c) (w - 1) ltac:(lia) ltac:(lia)) as (w' & -> & Hw').
    replace (Z.to_nat (w - low)) with (S (Z.to_nat (w - 1 - low))) by lia. exists w'. split; [done|lia].
  - replace (Z.to_nat (w - low)) with 0%nat by lia. exists (w - 1). split; [done|lia].
Qed.

Lemma pad_spec e o low w c :
  0 <= low -> -32767 <= w <= 32767 ->
  exists w', pad e o low w c = Some (put_list e o (repeat c (Z.to_nat (w - low))), w') /\
    (w' = w - 1 /\ w <= low \/ w' = low - 1 /\ low < w).
Proof. intros. apply pad_loop_spec; [lia|lia|]. unfold pad_fuel. rewrite (proj2 (Z.eqb_neq w _)); lia. Qed.

(** The text [number] should print: sign, prefix and digits [D], with at least [prec]
    digits in a field of at least [w] characters. *)
Definition layout (sgn pfx D : list Z) (fl w prec : Z) : list Z :=
  let core := Z.of_nat (length sgn + length pfx) + Z.max prec (Z.of_nat (length D)) in
  let extra := Z.to_nat (w - core) in
  let zeros := repeat 48 (Z.to_nat (prec - Z.of_nat (length D))) in
  if has fl LEFT then sgn ++ pfx ++ zeros ++ D ++ repeat 32 extra
  else if has fl ZEROPAD then sgn ++ pfx ++ repeat 48 extra ++ zeros ++ D
  else repeat 32 extra ++ sgn ++ pfx ++ zeros ++ D.

(** The sign shown and the magnitude. *)
Definition signed_text (fl num : Z) : list Z * Z :=
  if has fl SIGN then
    if s64 num <? 0 then ([45], - s64 num)
    else if has fl PLUS then ([43], num) else if has fl SPACE then ([32], num) else ([], num)
  else ([], num).
Definition prefix_text (fl bs num : Z) : list Z :=
  if has fl SPECIAL then
    if bs =? 16 then [48; Z.lor 88 (Z.land fl SMALL)]
    else if (bs =? 8) && negb (num =? 0) then [48] else []
  else [].

Lemma sign_of_spec fl0 num w :
  0 <= num < 18446744073709551616 -> -20000 <= w <= 20000 ->
  let fl := if has fl0 LEFT then Z.ldiff fl0 ZEROPAD else fl0 in
  exists sign, sign_of fl num w =
    (sign, (signed_text fl0 num).2, w - Z.of_nat (length (signed_text fl0 num).1)) /\
    (signed_text fl0 num).1 = option_list sign /\ 0 <= (signed_text fl0 num).2 < 18446744073709551616.
Proof.
  intros Hn Hw fl. unfold sign_of, signed_text.
  assert (Hk : has fl SIGN = has fl0 SIGN /\ has fl PLUS = has fl0 PLUS /\ has fl SPACE = has fl0 SPACE).
  { split_and!; [apply (has_kept fl0 1)|apply (has_kept fl0 2)|apply (has_kept fl0 3)]; lia. }
  destruct Hk as (-> & -> & ->). pose proof (s16_id (w - 1) ltac:(lia)) as Hs.
  destruct (has fl0 SIGN); [|exists None; cbn; rewrite Z.sub_0_r; done].
  destruct (Z.ltb_spec (s64 num) 0) as [Hneg|_].
  { exists (Some 45). cbn. rewrite Hs. assert (Hr : 0 <= - s64 num < 18446744073709551616).
    { unfold s64, u64 in *. rewrite Z.mod_small in * by lia.
      destruct (Z.ltb_spec num 9223372036854775808); lia. }
    split_and!; try done; try lia. unfold u64. by rewrite Z.mod_small. }
  destruct (has fl0 PLUS); [exists (Some 43); cbn; by rewrite Hs|].
  destruct (has fl0 SPACE); [exists (Some 32); cbn; by rewrite Hs|].
  exists None. cbn. by rewrite Z.sub_0_r.
Qed.

(** Sign and prefix, as [number] stores them. *)
Lemma put_sign e o sign : match sign with Some c => put e o c | None => o end = put_list e o (option_list sign).
Proof. by destruct sign. Qed.
Lemma put_prefix e o fl bs num :
  bs = 8 \/ bs = 10 \/ bs = 16 ->
  (if has fl SPECIAL && negb (bs =? 10) then
     let o := if (bs =? 16) || negb (num =? 0) then put e o 48 else o in
     if bs =? 16 then put e o (Z.lor 88 (Z.land fl SMALL)) else o
   else o) = put_list e o (prefix_text fl bs num).
Proof.
  intros Hb. unfold prefix_text. destruct (has fl SPECIAL); [|done].
  destruct Hb as [->|[->| ->]]; cbn; try done. by destruct (num =? 0).
Qed.
Lemma prefix_width fl bs num w :
  bs = 8 \/ bs = 10 \/ bs = 16 -> -30000 <= w <= 30000 ->
  (if has fl SPECIAL && negb (bs =? 10) then
     if bs =? 16 then s16 (w - 2) else if negb (num =? 0) then s16 (w - 1) else w
   else w) = w - Z.of_nat (length (prefix_text fl bs num)).
Proof.
  intros Hb Hw. unfold prefix_text. destruct (has fl SPECIAL); cbn [andb length]; [|lia].
  destruct Hb as [->|[->| ->]]; cbn [negb Z.eqb Pos.eqb andb length]; rewrite ?s16_id by lia; try lia.
  destruct (num =? 0); cbn [negb andb length]; rewrite ?s16_id by lia; lia.
Qed.
Lemma prefix_short fl bs num : (length (prefix_text fl bs num) <= 2)%nat.
Proof.
  unfold prefix_text. destruct (has _ _); [|cbn; lia]. destruct (bs =? 16); [cbn; lia|].
  destruct (_ && _); cbn; lia.
Qed.
Lemma sign_short fl num : (length (signed_text fl num).1 <= 1)%nat.
Proof.
  unfold signed_text. destruct (has _ _); [|cbn; lia]. destruct (_ <? _); [cbn; lia|].
  destruct (has _ _); [cbn; lia|]. destruct (has _ _); cbn; lia.
Qed.

(** A second padding loop finds nothing to do. *)
Lemma pad_done e o w c : -32767 <= w <= 0 -> exists w', pad e o 0 w c = Some (o, w') /\ w' = w - 1.
Proof.
  intros Hw. destruct (pad_spec e o 0 w c ltac:(lia) ltac:(lia)) as (w' & E & H).
  replace (Z.to_nat (w - 0)) with 0%nat in E by lia. exists w'. split; [done|lia].
Qed.

(** From the first padding loop on. *)
Lemma tail_text e o fl fl0 sign bs num tmp w prec :
  bs = 8 \/ bs = 10 \/ bs = 16 -> fl = (if has fl0 LEFT then Z.ldiff fl0 ZEROPAD else fl0) ->
  -32000 <= w <= 32000 -> 0 <= prec <= 32000 -> 
  ('(o, w) ← (if negb (has fl (ZEROPAD + LEFT)) then pad e o 0 w 32 else Some (o, w));
   let o := match sign with Some c => put e o c | None => o end in
   let o :=
     if has fl0 SPECIAL && negb (bs =? 10) then
       let o := if (bs =? 16) || negb (num =? 0) then put e o 48 else o in
       if bs =? 16 then put e o (Z.lor 88 (Z.land fl0 SMALL)) else o
     else o in
   '(o, w) ← (if negb (has fl LEFT) then pad e o 0 w (if has fl ZEROPAD then 48 else 32) else Some (o, w));
   '(o, _) ← pad e o (Z.of_nat (length tmp)) prec 48;
   let o := put_list e o (rev tmp) in
   '(o, _) ← pad e o 0 w 32;
   Some o) =
  Some (put_list e o
    (let zeros := repeat 48 (Z.to_nat (prec - Z.of_nat (length tmp))) in
     let pfx := prefix_text fl0 bs num in
     if has fl0 LEFT then option_list sign ++ pfx ++ zeros ++ rev tmp ++ repeat 32 (Z.to_nat w)
     else if has fl0 ZEROPAD then option_list sign ++ pfx ++ repeat 48 (Z.to_nat w) ++ zeros ++ rev tmp
     else repeat 32 (Z.to_nat w) ++ option_list sign ++ pfx ++ zeros ++ rev tmp)).
Proof.
  intros Hb Hfl Hw Hp. pose proof (has_left fl0) as HL. rewrite <- Hfl in HL. cbv zeta.
  destruct (pad_spec e o 0 w 32 ltac:(lia) ltac:(lia)) as (w1 & E1 & Hw1).
  rewrite Z.sub_0_r in E1. rewrite HL.
  destruct (has fl0 LEFT) eqn:EL; cbn [negb].
  - rewrite (has_left_any fl HL). cbn [negb mbind option_bind]. rewrite put_sign, (put_prefix e _ fl0 bs num Hb).
    edestruct (pad_spec e (put_list e (put_list e o (option_list sign)) (prefix_text fl0 bs num))
      (Z.of_nat (length tmp)) prec 48) as (w2 & -> & _); [lia..|]. cbn [mbind option_bind].
    rewrite <- !put_list_app. edestruct pad_spec as (w3 & -> & _); [| |]; [lia..|].
    cbn [mbind option_bind]. rewrite <- put_list_app, Z.sub_0_r, <- !app_assoc. done.
  - subst fl. rewrite (has_zeropad fl0 EL). destruct (has fl0 ZEROPAD); cbn [negb mbind option_bind].
    + rewrite put_sign, (put_prefix e _ fl0 bs num Hb).
      edestruct (pad_spec e (put_list e (put_list e o (option_list sign)) (prefix_text fl0 bs num)) 0 w 48)
        as (w2 & -> & Hw2); [lia..|]. cbn [mbind option_bind].
      rewrite <- !put_list_app. edestruct pad_spec as (w3 & -> & _); [| |]; [lia..|]. cbn [mbind option_bind].
      rewrite <- !put_list_app. edestruct (pad_done e) as (w4 & -> & _); [|]; [lia|].
      cbn [mbind option_bind]. rewrite Z.sub_0_r, <- !app_assoc. done.
    + rewrite E1. cbn [mbind option_bind]. rewrite put_sign, (put_prefix e _ fl0 bs num Hb).
      edestruct (pad_done e) as (w2 & -> & Hw2); [|]; [lia|]. cbn [mbind option_bind].
      rewrite <- !put_list_app. edestruct pad_spec as (w3 & -> & _); [| |]; [lia..|]. cbn [mbind option_bind].
      rewrite <- !put_list_app. edestruct (pad_done e) as (w4 & -> & _); [|]; [lia|].
      cbn [mbind option_bind]. rewrite <- !app_assoc. done.
Qed.

Lemma number_text e o num sp :
  base sp = 8 \/ base sp = 10 \/ base sp = 16 -> 0 <= num < 18446744073709551616 ->
  -10000 <= field_width sp <= 10000 -> -10000 <= precision sp <= 10000 ->
  exists tmp, digits_of (signed_text (flags sp) num).2 (base sp) (Z.land (flags sp) SMALL) = Some tmp /\
    numeral (base sp) (signed_text (flags sp) num).2 (rev tmp) /\
    number e o num sp = Some (put_list e o
      (layout (signed_text (flags sp) num).1 (prefix_text (flags sp) (base sp) num) (rev tmp)
         (flags sp) (field_width sp) (precision sp))).
Proof.
  intros Hb Hn Hw Hp. unfold number.
  destruct (sign_of_spec (flags sp) num (field_width sp) Hn ltac:(lia)) as (sign & -> & Hs & Hm).
  pose proof (sign_short (flags sp) num) as Hs1. pose proof (prefix_short (flags sp) (base sp) num) as Hp1.
  set (sgn := (signed_text (flags sp) num).1) in *. set (pfx := prefix_text (flags sp) (base sp) num) in *.
  destruct (digits_of_spec _ (base sp) _ Hb (locase_cases (flags sp)) Hm) as (tmp & E & HD & Hlen).
  exists tmp. split; [done|]. split; [done|]. rewrite E. cbn [mbind option_bind].
  rewrite prefix_width by (done || lia). fold pfx.
  set (prec := if precision sp <? Z.of_nat (length tmp) then s16 (Z.of_nat (length tmp)) else precision sp).
  assert (Hprec : prec = Z.max (precision sp) (Z.of_nat (length tmp))).
  { unfold prec. destruct (Z.ltb_spec (precision sp) (Z.of_nat (length tmp))); rewrite ?s16_id by lia; lia. }
  rewrite s16_id by lia.
  set (w := field_width sp - Z.of_nat (length sgn) - Z.of_nat (length pfx) - prec).
  set (fl := if has (flags sp) LEFT then Z.ldiff (flags sp) ZEROPAD else flags sp).
  etransitivity; [exact (tail_text e o fl (flags sp) sign (base sp) num tmp w prec Hb eq_refl ltac:(lia) ltac:(lia))|].
  fold pfx. do 2 f_equal. unfold layout. rewrite <- Hs, length_rev.
  replace (Z.to_nat (prec - Z.of_nat (length tmp))) with (Z.to_nat (precision sp - Z.of_nat (length tmp))) by lia.
  replace (Z.to_nat (field_width sp - _)) with (Z.to_nat w) by lia. done.
Qed.

(** What a sequence of guarded stores leaves behind. *)
Lemma put_list_mem e o l :
  pos (put_list e o l) = pos o + Z.of_nat (length l) /\
  forall k, omem (put_list e o l) k =
    if (pos o <=? k) && (k <? Z.min e (pos o + Z.of_nat (length l)))
    then nth (Z.to_nat (k - pos o)) l 0 else omem o k.
Proof.
  revert o. induction l as [|c l IH]; intros o.
  { split; [cbn; lia|]. intros k. cbn. destruct (Z.leb_spec (pos o) k); [|done].
    by rewrite (proj2 (Z.ltb_ge _ _)) by lia. }
  destruct (IH (put e o c)) as [H1 H2].
  change (put_list e o (c :: l)) with (put_list e (put e o c) l).
  split; [rewrite H1; cbn [pos put length]; lia|]. intros k. rewrite H2. cbn [pos put length].
  destruct (Z.eq_dec k (pos o)) as [->|Hk].
  - rewrite (proj2 (Z.leb_gt (pos o + 1) (pos o))), (proj2 (Z.leb_le (pos o) (pos o))) by lia.
    cbn [andb omem put]. replace (Z.to_nat (pos o - pos o)) with 0%nat by lia. cbn [nth].
    destruct (Z.ltb_spec (pos o) e).
    + rewrite Z.eqb_refl. by rewrite (proj2 (Z.ltb_lt _ _)) by lia.
    + by rewrite (proj2 (Z.ltb_ge _ _)) by lia.
  - replace (pos o + 1 + Z.of_nat (length l)) with (pos o + Z.of_nat (S (length l))) by lia.
    destruct (Z.leb_spec (pos o + 1) k), (Z.leb_spec (pos o) k); try lia; cbn [andb].
    + replace (Z.to_nat (k - pos o)) with (S (Z.to_nat (k - (pos o + 1)))) by lia. cbn [nth].
      destruct (k <? _); [done|]. cbn. destruct (pos o <? e); [|done]. by rewrite (proj2 (Z.eqb_neq _ _)).
    + cbn. destruct (pos o <? e); [|done]. by rewrite (proj2 (Z.eqb_neq _ _)).
Qed.

(** [number] prints the numeral of the magnitude in radix 8, 10 or 16, with the
    sign and the radix prefix its flags ask for, at least [precision] digits, padded on
    the side and with the character the flags choose to at least the field width.  It
    stores that text from [buf] on, only below [end], and advances [buf] by its full
    length even when it does not fit; read back with [kstrtoull] the digits give the
    magnitude. *)
Theorem number_prints e o num sp :
  base sp = 8 \/ base sp = 10 \/ base sp = 16 -> 0 <= num < 18446744073709551616 ->
  -10000 <= field_width sp <= 10000 -> -10000 <= precision sp <= 10000 ->
  exists D o', number e o num sp = Some o' /\
    convert D (base sp) = Kok (signed_text (flags sp) num).2 /\
    let text := layout (signed_text (flags sp) num).1 (prefix_text (flags sp) (base sp) num) D
                  (flags sp) (field_width sp) (precision sp) in
    pos o' = pos o + Z.of_nat (length text) /\
    forall k, omem o' k =
      if (pos o <=? k) && (k <? Z.min e (pos o + Z.of_nat (length text)))
      then nth (Z.to_nat (k - pos o)) text 0 else omem o k.
Proof.
  intros Hb Hn Hw Hp. destruct (number_text e o num sp Hb Hn Hw Hp) as (tmp & _ & HD & E).
  eexists (rev tmp), _. split; [exact E|]. split; [|apply put_list_mem].
  apply numeral_converts; [lia| |done].
  destruct (sign_of_spec (flags sp) num 0 Hn ltac:(lia)) as (sign & _ & _ & H). lia.
Qed.

(** [%+08d] of -42 into a buffer of five characters. *)
Lemma number_prints_witness :
  exists D o', number 5 (mkOut (fun _ => 0) 0) (u64 (-42)) (mkSpec FORMAT_TYPE_INT (SIGN + PLUS + ZEROPAD) 10 255 8 (-1)) = Some o' /\
    convert D 10 = Kok 42 /\
    let text := layout [45] [] D (SIGN + PLUS + ZEROPAD) 8 (-1) in
    pos o' = 0 + Z.of_nat (length text) /\
    forall k, omem o' k =
      if (0 <=? k) && (k <? Z.min 5 (0 + Z.of_nat (length text)))
      then nth (Z.to_nat (k - 0)) text 0 else 0.
Proof.
  apply (number_prints 5 (mkOut (fun _ => 0) 0) (u64 (-42)) (mkSpec FORMAT_TYPE_INT (SIGN + PLUS + ZEROPAD) 10 255 8 (-1))).
  - right. left. reflexivity.
  - vm_compute. split; [discriminate|reflexivity].
  - cbn. lia.
  - cbn. lia.
Defined.
