(* ===== verification/Deflate.v ===== *)
(** * The deflate format

    A specification of the compressed data format of RFC 1951 as a function on lists of
    bits, against which lib/zlib_inflate is verified: canonical Huffman codes, the three
    kinds of block, and the matches that copy earlier output.  No definition here follows
    the structure of the decompressor: there are no tables, no bit buffer and no window. *)

From Stdlib Require Import ZArith Lia Bool.
From stdpp Require Import base numbers list option.
From S2P Require Import Prelude.
Open Scope Z_scope.

(** ** Bits *)

(** The value of a list of bits, least significant first. *)
Fixpoint lsb (bs : list bool) : Z := match bs with [] => 0 | b :: bs => c_bool b + 2 * lsb bs end.
(** The [n] low bits of a number, least significant first, and most significant first. *)
Fixpoint to_lsb (n : nat) (v : Z) : list bool :=
  match n with O => [] | S n => Z.odd v :: to_lsb n (Z.div2 v) end.
Fixpoint to_msb (n : nat) (v : Z) : list bool :=
  match n with O => [] | S n => Z.testbit v (Z.of_nat n) :: to_msb n v end.

(** Bytes are packed starting with the least significant bit. *)
Definition bits_of_bytes (l : list Z) : list bool := mjoin (to_lsb 8 <$> l).

(** What reading from a stream gives: a value and the rest, an error, or that the stream is
    too short to tell. *)
Inductive read (A : Type) := Got (a : A) (rest : list bool) | Bad | More.
Arguments Got {A}. Arguments Bad {A}. Arguments More {A}.

Definition rbind {A B} (r : read A) (f : A -> list bool -> read B) : read B :=
  match r with Got a bs => f a bs | Bad => Bad | More => More end.

Definition getbits (n : nat) (bs : list bool) : read Z :=
  if decide (n <= length bs)%nat then Got (lsb (take n bs)) (drop n bs) else More.

(** ** Canonical Huffman codes *)

Section huffman.
(** The length of the codeword of every symbol, 0 for a symbol that does not occur. *)
Context (lens : list Z).

Definition bl_count (l : Z) : Z := Z.of_nat (length (filter (eq l) lens)).

(** The code of the first symbol of every length: section 3.2.2, step 2. *)
Fixpoint next_code (l : nat) : Z :=
  match l with
  | O => 0
  | S k => 2 * (next_code k + match k with O => 0 | _ => bl_count (Z.of_nat k) end)
  end.
Definition code_length (s : nat) : Z := default 0 (lens !! s).
(** Symbols of the same length have consecutive codes: step 3. *)
Definition code_of (s : nat) : Z :=
  next_code (Z.to_nat (code_length s)) + Z.of_nat (length (filter (eq (code_length s)) (take s lens))).
Definition codeword (s : nat) : list bool := to_msb (Z.to_nat (code_length s)) (code_of s).

Definition has_code (s : nat) : Prop := 0 < code_length s.
Definition starts_with (bs : list bool) (s : nat) : Prop := has_code s /\ codeword s `prefix_of` bs.
Definition may_become (bs : list bool) (s : nat) : Prop := has_code s /\ bs `prefix_of` codeword s.
#[global] Instance starts_with_dec bs s : Decision (starts_with bs s).
Proof. unfold starts_with, has_code. apply _. Defined.
#[global] Instance may_become_dec bs s : Decision (may_become bs s).
Proof. unfold may_become, has_code. apply _. Defined.

Definition symbols : list nat := seq 0 (length lens).

(** The next symbol of a stream. *)
Definition decode (bs : list bool) : read nat :=
  match filter (starts_with bs) symbols with
  | s :: _ => Got s (drop (length (codeword s)) bs)
  | [] => if decide (bs = [] \/ Exists (may_become bs) symbols) then More else Bad
  end.

(** The share of all bit strings that the codewords take, in units of 2^-15. *)
Definition kraft : Z := foldr (fun l a => (if 0 <? l then 2 ^ (15 - l) else 0) + a) 0 lens.
(** A set of lengths that leaves no bit string over, and one with too many codewords. *)
Definition complete : Prop := kraft = 2 ^ 15.
Definition unused : Prop := Forall (eq 0) lens.
Definition single : Prop := kraft = 2 ^ 14 /\ Forall (fun l => l = 0 \/ l = 1) lens.
#[global] Instance complete_dec : Decision complete.
Proof. unfold complete. apply _. Defined.
#[global] Instance unused_dec : Decision unused.
Proof. unfold unused. apply _. Defined.
#[global] Instance single_dec : Decision single.
Proof. unfold single. apply _. Defined.
End huffman.

(** ** The compressed data *)

(** Extra bits and base of the symbols for lengths and distances: section 3.2.5. *)
Definition length_base : list (nat * Z) :=
  [(0%nat, 3); (0%nat, 4); (0%nat, 5); (0%nat, 6); (0%nat, 7); (0%nat, 8); (0%nat, 9); (0%nat, 10);
   (1%nat, 11); (1%nat, 13); (1%nat, 15); (1%nat, 17); (2%nat, 19); (2%nat, 23); (2%nat, 27); (2%nat, 31);
   (3%nat, 35); (3%nat, 43); (3%nat, 51); (3%nat, 59); (4%nat, 67); (4%nat, 83); (4%nat, 99); (4%nat, 115);
   (5%nat, 131); (5%nat, 163); (5%nat, 195); (5%nat, 227); (0%nat, 258)].
Definition dist_base : list (nat * Z) :=
  [(0%nat, 1); (0%nat, 2); (0%nat, 3); (0%nat, 4); (1%nat, 5); (1%nat, 7); (2%nat, 9); (2%nat, 13);
   (3%nat, 17); (3%nat, 25); (4%nat, 33); (4%nat, 49); (5%nat, 65); (5%nat, 97); (6%nat, 129); (6%nat, 193);
   (7%nat, 257); (7%nat, 385); (8%nat, 513); (8%nat, 769); (9%nat, 1025); (9%nat, 1537); (10%nat, 2049);
   (10%nat, 3073); (11%nat, 4097); (11%nat, 6145); (12%nat, 8193); (12%nat, 12289); (13%nat, 16385); (13%nat, 24577)].

Definition get_extra (e : nat) (b : Z) (bs : list bool) : read Z :=
  rbind (getbits e bs) (fun x bs => Got (b + x) bs).

(** What a compressed block is a sequence of. *)
Inductive item := Literal (b : Z) | Match (len dist : Z) | EndOfBlock.

Definition read_dist (dists : list Z) (len : Z) (bs : list bool) : read item :=
  rbind (decode dists bs) (fun s bs =>
    match dist_base !! s with
    | None => Bad
    | Some (e, b) => rbind (get_extra e b bs) (fun d bs => Got (Match len d) bs)
    end).
Definition read_item (lits dists : list Z) (bs : list bool) : read item :=
  rbind (decode lits bs) (fun s bs =>
    if (s <? 256)%nat then Got (Literal (Z.of_nat s)) bs
    else if (s =? 256)%nat then Got EndOfBlock bs
    else
      match length_base !! (s - 257)%nat with
      | None => Bad
      | Some (e, b) => rbind (get_extra e b bs) (fun len bs => read_dist dists len bs)
      end).

(** Copying earlier output, which may overlap what is being written. *)
Fixpoint copy_match (n : nat) (dist : nat) (out : list Z) : list Z :=
  match n with
  | O => out
  | S n => copy_match n dist (out ++ [default 0 (out !! (length out - dist)%nat)])
  end.

(** ** Dynamic codes: section 3.2.7 *)

Definition code_acceptable (clen : bool) (lens : list Z) : Prop :=
  unused lens \/ complete lens \/ (clen = false /\ single lens).
#[export] Instance code_acceptable_dec clen lens : Decision (code_acceptable clen lens).
Proof. unfold code_acceptable. apply _. Defined.

Definition length_order : list nat := [16; 17; 18; 0; 8; 7; 9; 6; 10; 5; 11; 4; 12; 3; 13; 2; 14; 1; 15]%nat.

(** The lengths of the code length code, of the symbols [syms] in turn. *)
Fixpoint read_code_lengths (syms : list nat) (cl : list Z) (bs : list bool) : read (list Z) :=
  match syms with
  | [] => Got cl bs
  | s :: syms => rbind (getbits 3 bs) (fun l bs => read_code_lengths syms (<[s := l]> cl) bs)
  end.

(** A code length code without codewords, which the format does not have, reads as lengths
    of zero, of one bit each; the block then has no codewords either. *)
Definition decode_length (cl : list Z) (bs : list bool) : read nat :=
  if decide (unused cl) then rbind (getbits 1 bs) (fun _ bs => Got 0%nat bs) else decode cl bs.

Definition repeat_length (total : nat) (acc : list Z) (l : Z) (n : Z) (bs : list bool) : read (list Z) :=
  if (total <? length acc + Z.to_nat n)%nat then Bad else Got (acc ++ replicate (Z.to_nat n) l) bs.
(** The next lengths, after those in [acc]. *)
Definition next_lengths (cl : list Z) (total : nat) (acc : list Z) (bs : list bool) : read (list Z) :=
  rbind (decode_length cl bs) (fun s bs =>
    if (s <? 16)%nat then Got (acc ++ [Z.of_nat s]) bs
    else if (s =? 16)%nat then
      rbind (getbits 2 bs) (fun x bs =>
        match acc !! pred (length acc) with None => Bad | Some l => repeat_length total acc l (3 + x) bs end)
    else if (s =? 17)%nat then rbind (getbits 3 bs) (fun x bs => repeat_length total acc 0 (3 + x) bs)
    else rbind (getbits 7 bs) (fun x bs => repeat_length total acc 0 (11 + x) bs)).
Fixpoint read_lengths (fuel : nat) (cl : list Z) (total : nat) (acc : list Z) (bs : list bool) : read (list Z) :=
  match fuel with
  | O => Got acc bs
  | S fuel =>
      if (length acc <? total)%nat
      then rbind (next_lengths cl total acc bs) (fun acc bs => read_lengths fuel cl total acc bs)
      else Got acc bs
  end.

Definition make_codes (nlen : nat) (lens : list Z) (bs : list bool) : read (list Z * list Z) :=
  let lits := take nlen lens in
  let dists := drop nlen lens in
  if decide (code_acceptable false lits /\ code_acceptable false dists) then Got (lits, dists) bs else Bad.
Definition read_codes (nlen ndist : nat) (cl : list Z) (bs : list bool) : read (list Z * list Z) :=
  if decide (code_acceptable true cl) then
    rbind (read_lengths (nlen + ndist) cl (nlen + ndist) [] bs) (make_codes nlen)
  else Bad.
Definition read_dynamic (bs : list bool) : read (list Z * list Z) :=
  rbind (getbits 14 bs) (fun x bs =>
    let nlen := Z.to_nat (x `mod` 32 + 257) in
    let ndist := Z.to_nat ((x / 32) `mod` 32 + 1) in
    let ncode := Z.to_nat (x / 1024 + 4) in
    if (286 <? nlen)%nat || (30 <? ndist)%nat then Bad
    else rbind (read_code_lengths (take ncode length_order) (replicate 19 0) bs) (read_codes nlen ndist)).

(** ** Fixed codes: section 3.2.6 *)

Definition fixed_lits : list Z := replicate 144 8 ++ replicate 112 9 ++ replicate 24 7 ++ replicate 8 8.
Definition fixed_dists : list Z := replicate 32 5.

(** ** Streams *)

(** The check value of the wrapper, RFC 1950. *)
Definition adler_step (s : Z * Z) (b : Z) : Z * Z :=
  let a := (s.1 + b) `mod` 65521 in (a, (s.2 + a) `mod` 65521).
Definition adler32 (l : list Z) : Z := let s := fold_left adler_step l (1, 0) in s.2 * 65536 + s.1.

(** The rest of a stream from the next byte boundary on. *)
Definition align (bs : list bool) : list bool := drop (length bs `mod` 8) bs.

Inductive phase := WrapHeader | Header | Stored (n : Z) | Codes (lits dists : list Z).
Record conf := mkConf { c_last : bool; c_phase : phase; c_bits : list bool; c_out : list Z }.

(** How a stream ends: complete, with what follows it; with an error; by asking for a
    dictionary; or too early. *)
Inductive verdict := Complete (rest : list bool) | Invalid | Dictionary | Starved.
Inductive outcome := Go (c : conf) | Stop (v : verdict).

Definition after {A} (r : read A) (k : A -> list bool -> outcome) : outcome :=
  match r with Got a bs => k a bs | Bad => Stop Invalid | More => Stop Starved end.

Section stream.
(** Whether the stream has the wrapper of RFC 1950, and the size of the window. *)
Context (zlib : bool) (wbits : Z).

Definition reverse32 (v : Z) : Z :=
  (v / 16777216) `mod` 256 + ((v / 65536) `mod` 256) * 256 + ((v / 256) `mod` 256) * 65536 + (v `mod` 256) * 16777216.

Definition step_header (bs : list bool) (out : list Z) : outcome :=
  after (getbits 16 bs) (fun v bs =>
    let cmf := v `mod` 256 in
    let flg := v / 256 in
    if negb ((cmf * 256 + flg) `mod` 31 =? 0) then Stop Invalid
    else if negb (cmf `mod` 16 =? 8) then Stop Invalid
    else if wbits <? cmf / 16 + 8 then Stop Invalid
    else if Z.odd (flg / 32) then after (getbits 32 bs) (fun _ _ => Stop Dictionary)
    else Go (mkConf false Header bs out)).

Definition step_stored (last : bool) (out : list Z) (bs : list bool) : outcome :=
  after (getbits 32 (align bs)) (fun v bs =>
    if v `mod` 65536 =? 65535 - v / 65536
    then Go (mkConf last (if v `mod` 65536 =? 0 then Header else Stored (v `mod` 65536)) bs out)
    else Stop Invalid).

Definition step_end (out : list Z) (bs : list bool) : outcome :=
  if zlib then after (getbits 32 bs) (fun v bs => if reverse32 v =? adler32 out then Stop (Complete bs) else Stop Invalid)
  else Stop (Complete bs).

Definition step_match (last : bool) (lits dists : list Z) (out : list Z) (len dist : Z) (bs : list bool) : outcome :=
  if Z.of_nat (length out) <? dist then Stop Invalid
  else Go (mkConf last (Codes lits dists) bs (copy_match (Z.to_nat len) (Z.to_nat dist) out)).

Definition step_item (last : bool) (lits dists out : list Z) (i : item) (bs : list bool) : outcome :=
  match i with
  | Literal b => Go (mkConf last (Codes lits dists) bs (out ++ [b]))
  | EndOfBlock => Go (mkConf last Header bs out)
  | Match len dist => step_match last lits dists out len dist bs
  end.

Definition step (c : conf) : outcome :=
  let last := c_last c in
  let out := c_out c in
  match c_phase c with
  | WrapHeader => step_header (c_bits c) out
  | Header =>
      if last then step_end out (align (c_bits c))
      else
        after (getbits 3 (c_bits c)) (fun v bs =>
          let last := Z.odd v in
          if v / 2 =? 0 then step_stored last out bs
          else if v / 2 =? 1 then Go (mkConf last (Codes fixed_lits fixed_dists) bs out)
          else if v / 2 =? 2 then after (read_dynamic bs) (fun '(lits, dists) bs => Go (mkConf last (Codes lits dists) bs out))
          else Stop Invalid)
  | Stored n =>
      after (getbits 8 (c_bits c)) (fun b bs =>
        Go (mkConf last (if n =? 1 then Header else Stored (n - 1)) bs (out ++ [b])))
  | Codes lits dists => after (read_item lits dists (c_bits c)) (step_item last lits dists out)
  end.

(** Every step takes at least one bit. *)
Fixpoint run (fuel : nat) (c : conf) : verdict * list Z :=
  match step c with
  | Stop v => (v, c_out c)
  | Go c' => match fuel with O => (Starved, c_out c) | S fuel => run fuel c' end
  end.
Definition result (c : conf) : verdict * list Z := run (length (c_bits c)) c.

(** What a stream of bytes decompresses to. *)
Definition inflated (bytes : list Z) : verdict * list Z :=
  result (mkConf false (if zlib then WrapHeader else Header) (bits_of_bytes bytes) []).
End stream.
