(* ===== verification/InfTrees.v ===== *)
(** * Huffman decoding tables

    A model of [zlib_inflate_table] in lib/zlib_inflate/inftrees.c, which builds the tables
    that decode a canonical Huffman code, a root table and sub-tables for long codes, in
    the array [codes] of the decompressor.

    [None] stands for an access outside of an array.  Loops that are not structural take
    fuel, and running out of it is [None] too. *)

From Stdlib Require Import ZArith Lia Bool.
From stdpp Require Import base numbers list option.
From S2P Require Import Prelude.
Open Scope Z_scope.

(** ** Arrays *)

Definition rd {A} (l : list A) (i : Z) : option A := if 0 <=? i then l !! Z.to_nat i else None.
Definition wr {A} (l : list A) (i : Z) (v : A) : option (list A) :=
  if (0 <=? i) && (i <? Z.of_nat (length l)) then Some (<[Z.to_nat i := v]> l) else None.

(** ** Table entries *)

(** [code]: what to do, how many bits it takes, and a value. *)
Record code := mkCode { op : Z; bits : Z; val : Z }.
Inductive codetype := CODES | LENS | DISTS.
#[export] Instance codetype_eq_dec : EqDecision codetype.
Proof. solve_decision. Defined.

Definition MAXBITS : Z := 15.
Definition ENOUGH : Z := 2048.
Definition MAXD : Z := 592.

Definition lbase : list Z :=
  [3; 4; 5; 6; 7; 8; 9; 10; 11; 13; 15; 17; 19; 23; 27; 31;
   35; 43; 51; 59; 67; 83; 99; 115; 131; 163; 195; 227; 258; 0; 0].
Definition lext : list Z :=
  [16; 16; 16; 16; 16; 16; 16; 16; 17; 17; 17; 17; 18; 18; 18; 18;
   19; 19; 19; 19; 20; 20; 20; 20; 21; 21; 21; 21; 16; 201; 196].
Definition dbase : list Z :=
  [1; 2; 3; 4; 5; 7; 9; 13; 17; 25; 33; 49; 65; 97; 129; 193;
   257; 385; 513; 769; 1025; 1537; 2049; 3073; 4097; 6145;
   8193; 12289; 16385; 24577; 0; 0].
Definition dext : list Z :=
  [16; 16; 16; 16; 17; 17; 18; 18; 19; 19; 20; 20; 21; 21; 22; 22;
   23; 23; 24; 24; 25; 25; 26; 26; 27; 27;
   28; 28; 29; 29; 64; 64].

(** The last symbol that stands for itself, and the values of those above. *)
Definition code_end (type : codetype) : Z := match type with CODES => 19 | LENS => 256 | DISTS => -1 end.
Definition code_value (type : codetype) (sym : Z) : option (Z * Z) :=
  match type with
  | CODES => None
  | LENS => e ← rd lext (sym - 257); b ← rd lbase (sym - 257); Some (e, b)
  | DISTS => e ← rd dext sym; b ← rd dbase sym; Some (e, b)
  end.
(** The entry for a symbol, all but the number of bits. *)
Definition symbol_entry (type : codetype) (sym : Z) : option (Z * Z) :=
  if sym <? code_end type then Some (0, sym)
  else if code_end type <? sym then '(e, b) ← code_value type sym; Some (u8 e, b)
  else Some (96, 0).

(** ** Counting and sorting *)

Fixpoint count_loop (lens : list Z) (codes : nat) (sym : Z) (count : list Z) : option (list Z) :=
  match codes with
  | O => Some count
  | S n =>
      len ← rd lens sym;
      c ← rd count len;
      count ← wr count len (u16 (c + 1));
      count_loop lens n (sym + 1) count
  end.

(** [for (max = MAXBITS; max >= 1; max--) if (count[max] != 0) break;] *)
Fixpoint find_max (max : nat) (count : list Z) : option Z :=
  match max with
  | O => Some 0
  | S m => c ← rd count (Z.of_nat max); if c =? 0 then find_max m count else Some (Z.of_nat max)
  end.
(** [for (min = 1; min <= MAXBITS; min++) if (count[min] != 0) break;] *)
Fixpoint find_min (fuel : nat) (min : Z) (count : list Z) : option Z :=
  match fuel with
  | O => Some min
  | S fuel => c ← rd count min; if c =? 0 then find_min fuel (min + 1) count else Some min
  end.

(** The codes left over after the lengths from [len], negative when there are not enough. *)
Fixpoint left_loop (fuel : nat) (len left : Z) (count : list Z) : option Z :=
  match fuel with
  | O => Some left
  | S fuel =>
      c ← rd count len;
      let left := left * 2 - c in
      if left <? 0 then Some left else left_loop fuel (len + 1) left count
  end.

Fixpoint offs_loop (fuel : nat) (len : Z) (count offs : list Z) : option (list Z) :=
  match fuel with
  | O => Some offs
  | S fuel =>
      o ← rd offs len;
      c ← rd count len;
      offs ← wr offs (len + 1) (u16 (o + c));
      offs_loop fuel (len + 1) count offs
  end.

Fixpoint sort_loop (lens : list Z) (codes : nat) (sym : Z) (offs work : list Z) : option (list Z) :=
  match codes with
  | O => Some work
  | S n =>
      len ← rd lens sym;
      if len =? 0 then sort_loop lens n (sym + 1) offs work
      else
        o ← rd offs len;
        work ← wr work o (u16 sym);
        offs ← wr offs len (u16 (o + 1));
        sort_loop lens n (sym + 1) offs work
  end.

(** ** Filling the tables *)

(** [do { fill -= incr; next[(huff >> drop) + fill] = this; } while (fill != 0);] *)
Fixpoint fill_loop (fuel : nat) (at_ incr fill : Z) (this : code) (tab : list code) : option (list code) :=
  match fuel with
  | O => None
  | S fuel =>
      let fill := u32 (fill - incr) in
      tab ← wr tab (at_ + fill) this;
      if fill =? 0 then Some tab else fill_loop fuel at_ incr fill this tab
  end.

(** [while (huff & incr) incr >>= 1;] *)
Fixpoint find_incr (fuel : nat) (huff incr : Z) : option Z :=
  if Z.land huff incr =? 0 then Some incr
  else match fuel with O => None | S fuel => find_incr fuel huff (Z.shiftr incr 1) end.
(** The code [huff] of [len] bits incremented backwards. *)
Definition next_huff (len huff : Z) : option Z :=
  incr ← find_incr 32 huff (Z.shiftl 1 (len - 1));
  Some (if incr =? 0 then 0 else Z.land huff (incr - 1) + incr).

(** The size of the next sub-table. *)
Fixpoint curr_loop (fuel : nat) (curr drop max left : Z) (count : list Z) : option Z :=
  if curr + drop <? max then
    match fuel with
    | O => None
    | S fuel =>
        c ← rd count (curr + drop);
        let left := left - c in
        if left <=? 0 then Some curr else curr_loop fuel (curr + 1) drop max (left * 2) count
    end
  else Some curr.

Section table.
(** The type of the code, the lengths and symbols in order, the bounds of the lengths, the
    start of the table. *)
Context (type : codetype) (lens work : list Z) (max root table : Z).

(** The local variables of the loops over the codes. *)
Record fillst := mkFill {
  f_codes : list code; f_count : list Z; f_huff : Z; f_sym : Z; f_len : Z; f_next : Z;
  f_curr : Z; f_drop : Z; f_low : Z; f_used : Z
}.

(** [mask], the bits of [huff] that index the root table. *)
Definition low_bits (huff : Z) : Z := Z.land huff (Z.shiftl 1 root - 1).
(** Whether a table for lengths leaves too little for the distances. *)
Definition no_room (used : Z) : bool := bool_decide (type = LENS) && (ENOUGH - MAXD <=? used).

(** The entries of a symbol: every index whose low [len] bits are [huff]. *)
Definition enter_symbol (s : fillst) : option (list code) :=
  w ← rd work (f_sym s);
  '(o, v) ← symbol_entry type w;
  let this := mkCode o (u8 (f_len s - f_drop s)) v in
  let incr := Z.shiftl 1 (f_len s - f_drop s) in
  let fill := Z.shiftl 1 (f_curr s) in
  fill_loop (Z.to_nat fill) (f_next s + Z.shiftr (f_huff s) (f_drop s)) incr fill this (f_codes s).

(** A new sub-table, if needed; [inr 1] when there is no room for it. *)
Definition new_subtable (s : fillst) : option (fillst + Z) :=
  if (root <? f_len s) && negb (low_bits (f_huff s) =? f_low s) then
    let drop := if f_drop s =? 0 then root else f_drop s in
    let next := f_next s + Z.shiftl 1 (f_curr s) in
    curr ← curr_loop 16 (f_len s - drop) drop max (Z.shiftl 1 (f_len s - drop)) (f_count s);
    let used := f_used s + Z.shiftl 1 curr in
    if no_room used then Some (inr 1)
    else
      let low := low_bits (f_huff s) in
      codes ← wr (f_codes s) (table + low) (mkCode (u8 curr) (u8 root) (u16 (next - table)));
      Some (inl (mkFill codes (f_count s) (f_huff s) (f_sym s) (f_len s) next curr drop low used))
  else Some (inl s).

(** The loop over all codes, left after the last code of length [max]. *)
Fixpoint codes_loop (fuel : nat) (s : fillst) : option (fillst + Z) :=
  match fuel with
  | O => None
  | S fuel =>
      codes ← enter_symbol s;
      huff ← next_huff (f_len s) (f_huff s);
      c ← rd (f_count s) (f_len s);
      let c := u16 (c - 1) in
      count ← wr (f_count s) (f_len s) c;
      let s' len := mkFill codes count huff (f_sym s + 1) len (f_next s) (f_curr s) (f_drop s) (f_low s) (f_used s) in
      if (c =? 0) && (f_len s =? max) then Some (inl (s' (f_len s)))
      else
        len ← (if c =? 0 then w ← rd work (f_sym s + 1); rd lens w else Some (f_len s));
        r ← new_subtable (s' len);
        match r with inl s => codes_loop fuel s | inr e => Some (inr e) end
  end.

(** No more rounds than there are codes of 15 bits. *)
Definition rest_fuel : nat := Z.to_nat (2 ^ 15).

(** The rest of the table of an incomplete code holds invalid code markers. *)
Fixpoint rest_loop (fuel : nat) (s : fillst) : option (list code) :=
  if f_huff s =? 0 then Some (f_codes s)
  else
    match fuel with
    | O => None
    | S fuel =>
        let back := negb (f_drop s =? 0) && negb (low_bits (f_huff s) =? f_low s) in
        let drop := if back then 0 else f_drop s in
        let len := if back then root else f_len s in
        let next := if back then table else f_next s in
        codes ← wr (f_codes s) (next + Z.shiftr (f_huff s) drop) (mkCode 64 (u8 (len - drop)) 0);
        huff ← next_huff len (f_huff s);
        rest_loop fuel (mkFill codes (f_count s) huff (f_sym s) len next (f_curr s) drop (f_low s) (f_used s))
    end.
End table.

(** ** The function *)

(** The return value; on 0 also the arrays, the end of the space used and the bits of the
    root table.  On a refusal the caller gives up, and the arrays do not matter. *)
Inductive made := Made (codes : list code) (table bits : Z) (work : list Z) | Refused (r : Z).

Definition zlib_inflate_table (type : codetype) (lens : list Z) (codes : Z)
    (array : list code) (table bits : Z) (work : list Z) : option made :=
  count ← count_loop lens (Z.to_nat codes) 0 (replicate 16 0);
  max ← find_max 15 count;
  let root := if max <? bits then max else bits in
  if max =? 0 then
    let this := mkCode 64 1 0 in
    array ← wr array table this;
    array ← wr array (table + 1) this;
    Some (Made array (table + 2) 1 work)
  else
    min ← find_min 15 1 count;
    let root := if root <? min then min else root in
    left ← left_loop 15 1 1 count;
    if left <? 0 then Some (Refused (-1))
    else if (0 <? left) && (bool_decide (type = CODES) || negb (max =? 1)) then Some (Refused (-1))
    else
      offs ← offs_loop 14 1 count (replicate 16 0);
      work ← sort_loop lens (Z.to_nat codes) 0 offs work;
      let used := Z.shiftl 1 root in
      if no_room type used then Some (Refused 1)
      else
        r ← codes_loop type lens work max root table (Z.to_nat codes)
              (mkFill array count 0 0 min table root 0 (u32 (-1)) used);
        match r with
        | inr e => Some (Refused e)
        | inl s =>
            array ← rest_loop root table rest_fuel s;
            Some (Made array (table + f_used s) root work)
        end.
