(* ===== verification/Canon.v ===== *)
(** * Canonical codes as intervals

    The codewords of a canonical code, in order, divide an initial part of the 15-bit
    numbers into intervals: the codeword of length [l] at position [i] takes the numbers
    from [start i] to [start i + 2 ^ (15 - l)].  The decompressor handles codewords with
    their bits reversed, [rev 15] of such a number. *)

From Stdlib Require Import ZArith Lia Bool.
From stdpp Require Import base numbers list option.
From S2P Require Import Prelude Deflate InfTrees.
Open Scope Z_scope.

(** ** Bit reversal *)

(** The [k] low bits of [v] in reverse order. *)
Fixpoint rev (k : nat) (v : Z) : Z :=
  match k with O => 0 | S k => (v `mod` 2) * 2 ^ Z.of_nat k + rev k (v / 2) end.

Lemma rev_range k v : 0 <= rev k v < 2 ^ Z.of_nat k.
Proof.
  revert v. induction k as [|k IH]; intros v; [simpl; lia|].
  cbn [rev]. specialize (IH (v / 2)). rewrite Nat2Z.inj_succ, Z.pow_succ_r by lia.
  pose proof (Z.mod_pos_bound v 2). nia.
Qed.

Lemma testbit_above v k i : 0 <= v < 2 ^ k -> 0 <= k <= i -> Z.testbit v i = false.
Proof. intros H1 H2. rewrite <- (Z.mod_small v (2 ^ k)) by lia. apply Z.mod_pow2_bits_high. lia. Qed.

Lemma rev_bits k v i :
  0 <= i -> Z.testbit (rev k v) i = (i <? Z.of_nat k) && Z.testbit v (Z.of_nat k - 1 - i).
Proof.
  intros Hi. revert v i Hi. induction k as [|k IH]; intros v i Hi.
  { cbn [rev]. rewrite Z.bits_0. split_bool; [lia|done]. }
  destruct (Z.ltb_spec i (Z.of_nat (S k))) as [Hl|Hl]; cbn [andb].
  2:{ eapply testbit_above; [apply rev_range|lia]. }
  cbn [rev]. rewrite Z.add_comm.
  rewrite <- (lor_low_high _ _ (Z.of_nat k)) by (lia || apply rev_range).
  rewrite Z.lor_spec, IH by lia. destruct (Z.ltb_spec i (Z.of_nat k)).
  - rewrite Z.mul_pow2_bits_low by lia. rewrite orb_false_r. cbn [andb].
    change (v / 2) with (v / 2 ^ 1). rewrite Z.div_pow2_bits by lia. f_equal. lia.
  - replace i with (Z.of_nat k) by lia. rewrite Z.mul_pow2_bits by lia.
    replace (Z.of_nat k - Z.of_nat k) with 0 by lia. cbn [andb orb].
    change 2 with (2 ^ 1) at 1. rewrite Z.mod_pow2_bits_low by lia. f_equal. lia.
Qed.

(** Equality of numbers bit by bit. *)
Ltac bitwise i := apply Z.bits_inj'; intros i ?Hi; rewrite ?rev_bits by lia.

Lemma rev_mod k v : rev k (v `mod` 2 ^ Z.of_nat k) = rev k v.
Proof.
  bitwise i. destruct (Z.ltb_spec i (Z.of_nat k)); [|done]. cbn [andb].
  rewrite Z.mod_pow2_bits_low by lia. done.
Qed.
Lemma rev_rev k v : rev k (rev k v) = v `mod` 2 ^ Z.of_nat k.
Proof.
  bitwise i. destruct (Z.ltb_spec i (Z.of_nat k)); cbn [andb].
  - rewrite rev_bits by lia. rewrite Z.mod_pow2_bits_low by lia.
    destruct (Z.ltb_spec (Z.of_nat k - 1 - i) (Z.of_nat k)); [|lia]. cbn [andb]. f_equal. lia.
  - rewrite Z.mod_pow2_bits_high by lia. done.
Qed.
Lemma rev_inj k v w :
  0 <= v < 2 ^ Z.of_nat k -> 0 <= w < 2 ^ Z.of_nat k -> rev k v = rev k w -> v = w.
Proof.
  intros Hv Hw H. rewrite <- (Z.mod_small v (2 ^ Z.of_nat k)), <- (Z.mod_small w (2 ^ Z.of_nat k)) by lia.
  by rewrite <- !rev_rev, H.
Qed.
(** The low bits of a reversal are the reversal of the high bits, and conversely. *)
Lemma rev_low k r v : (r <= k)%nat ->
  rev k v `mod` 2 ^ Z.of_nat r = rev r (v / 2 ^ (Z.of_nat k - Z.of_nat r)).
Proof.
  intros Hr. bitwise i. destruct (Z.ltb_spec i (Z.of_nat r)); cbn [andb].
  - rewrite Z.mod_pow2_bits_low, rev_bits, Z.div_pow2_bits by lia.
    destruct (Z.ltb_spec i (Z.of_nat k)); [|lia]. cbn [andb]. f_equal. lia.
  - rewrite Z.mod_pow2_bits_high by lia. done.
Qed.
Lemma rev_high k r v : (r <= k)%nat ->
  rev k v / 2 ^ Z.of_nat r = rev (k - r) (v `mod` 2 ^ (Z.of_nat k - Z.of_nat r)).
Proof.
  intros Hr. bitwise i. rewrite Z.div_pow2_bits, rev_bits by lia.
  destruct (Z.ltb_spec i (Z.of_nat (k - r))), (Z.ltb_spec (i + Z.of_nat r) (Z.of_nat k)); try lia; cbn [andb]; try done.
  rewrite Z.mod_pow2_bits_low by lia. f_equal. lia.
Qed.
(** Zeros below become zeros above, which are not seen. *)
Lemma rev_shift k j v : (j <= k)%nat -> rev k (v * 2 ^ (Z.of_nat k - Z.of_nat j)) = rev j v.
Proof.
  intros Hj. bitwise i. destruct (Z.ltb_spec i (Z.of_nat k)), (Z.ltb_spec i (Z.of_nat j)); try lia; cbn [andb]; try done.
  - rewrite Z.mul_pow2_bits by lia. f_equal. lia.
  - apply Z.mul_pow2_bits_low. lia.
Qed.

(** A number whose low [l] bits are the codeword that starts at [p] lies in its interval
    when reversed. *)
Definition rev15 : Z -> Z := rev 15.
Lemma rev15_range v : 0 <= rev15 v < 32768.
Proof. apply (rev_range 15). Qed.

Lemma rev15_rev15 p : 0 <= p < 32768 -> rev15 (rev15 p) = p.
Proof. intros H. unfold rev15. rewrite rev_rev. apply Z.mod_small. exact H. Qed.

Lemma rev15_match h p l :
  0 <= l <= 15 -> (2 ^ (15 - l) | p) -> 0 <= p < 32768 ->
  h `mod` 2 ^ l = rev15 p <-> p <= rev15 h < p + 2 ^ (15 - l).
Proof.
  intros Hl [q ->] Hp. assert (Hpow : 2 ^ l * 2 ^ (15 - l) = 32768).
  { rewrite <- Z.pow_add_r by lia. by replace (l + (15 - l)) with 15 by lia. }
  assert (H0 : 0 < 2 ^ (15 - l)) by lia.
  assert (Hq : 0 <= q < 2 ^ l) by nia.
  set (k := Z.to_nat l). assert (Hk : l = Z.of_nat k) by lia.
  assert (E1 : rev15 (q * 2 ^ (15 - l)) = rev k q).
  { rewrite Hk. apply (rev_shift 15). lia. }
  assert (E2 : rev15 h / 2 ^ (15 - l) = rev k (h `mod` 2 ^ l)).
  { unfold rev15. replace (15 - l) with (Z.of_nat (15 - k)) by lia.
    rewrite rev_high by lia. replace (15 - (15 - k))%nat with k by lia.
    by replace (Z.of_nat 15 - Z.of_nat (15 - k)) with l by lia. }
  rewrite E1. split.
  - intros E. rewrite E, rev_rev, Z.mod_small in E2 by (rewrite <- Hk; lia).
    pose proof (Z.div_mod (rev15 h) (2 ^ (15 - l))). pose proof (Z.mod_pos_bound (rev15 h) (2 ^ (15 - l))). nia.
  - intros E. assert (rev15 h / 2 ^ (15 - l) = q) as E3.
    { symmetry. apply (Z.div_unique_pos _ _ _ (rev15 h - q * 2 ^ (15 - l))); lia. }
    rewrite E3 in E2. rewrite E2, rev_rev, <- Hk, Z.mod_mod by lia. done.
Qed.

(** ** The backwards increment *)

Lemma land_pow2 h m : 0 <= m -> Z.land h (2 ^ m) = if Z.testbit h m then 2 ^ m else 0.
Proof.
  intros Hm. apply Z.bits_inj'. intros i Hi. rewrite Z.land_spec, Z.pow2_bits_eqb by lia.
  destruct (Z.eqb_spec m i) as [<-|].
  - rewrite andb_true_r. destruct (Z.testbit h m); [by rewrite Z.pow2_bits_true|by rewrite Z.bits_0].
  - rewrite andb_false_r. destruct (Z.testbit h m); [by rewrite Z.pow2_bits_false by lia|by rewrite Z.bits_0].
Qed.

Lemma rev15_bit p m : 0 <= m <= 14 -> Z.testbit (rev15 p) m = Z.odd (p / 2 ^ (14 - m)).
Proof.
  intros Hm. unfold rev15. rewrite rev_bits by lia. rewrite <- Z.bit0_odd, Z.div_pow2_bits by lia.
  by destruct (Z.ltb_spec m (Z.of_nat 15)); [|lia].
Qed.

Lemma increment_from m fuel p :
  (m <= 14)%nat -> (m < fuel)%nat ->
  (incr ← find_incr fuel (rev15 p) (2 ^ Z.of_nat m);
   Some (if incr =? 0 then 0 else Z.land (rev15 p) (incr - 1) + incr)) =
  Some (rev (S m) (p / 2 ^ (14 - Z.of_nat m) + 1)).
Proof.
  revert fuel. induction m as [|m IH]; intros fuel Hm Hf; (destruct fuel as [|fuel]; [lia|]);
    cbn [find_incr]; rewrite land_pow2, rev15_bit by lia;
    set (q := p / 2 ^ (14 - _)); pose proof (Zmod_odd (q + 1)) as Hq1; rewrite Z.odd_add in Hq1;
    cbn [rev]; rewrite Hq1; cbn [Z.odd xorb]; destruct (Z.odd q) eqn:Eq; cbn [xorb].
  - cbn. destruct fuel; cbn; rewrite Z.land_0_r; done.
  - cbn -[rev15]. rewrite Z.land_0_r. done.
  - destruct (Z.eqb_spec (2 ^ Z.of_nat (S m)) 0); [lia|].
    rewrite shiftr_div by lia. rewrite (Nat2Z.inj_succ m), Z.pow_succ_r by lia.
    rewrite (Z.mul_comm 2), Z.div_mul by lia. rewrite IH by lia. cbn [rev].
    assert (E : p / 2 ^ (14 - Z.of_nat m) = q / 2).
    { subst q. rewrite Zdiv.Zdiv_Zdiv by lia. f_equal. change 2 with (2 ^ 1) at 3.
      rewrite <- Z.pow_add_r by lia. f_equal. lia. }
    rewrite E. pose proof (Zmod_odd q) as Hq. rewrite Eq in Hq.
    replace ((q + 1) / 2) with (q / 2 + 1) by zlia. done.
  - change (0 =? 0) with true. cbv beta iota. cbn [mbind option_bind].
    destruct (Z.eqb_spec (2 ^ Z.of_nat (S m)) 0); [lia|].
    f_equal. rewrite (land_mask_mod _ (Z.of_nat (S m))) by (lia || (rewrite Z.ones_equiv; lia)).
    unfold rev15. rewrite rev_low by lia.
    assert (E : p / 2 ^ (Z.of_nat 15 - Z.of_nat (S m)) = (q + 1) / 2).
    { pose proof (Zmod_odd q) as Hq. rewrite Eq in Hq. replace ((q + 1) / 2) with (q / 2) by zlia.
      subst q. rewrite Zdiv.Zdiv_Zdiv by lia. f_equal. change 2 with (2 ^ 1) at 3.
      rewrite <- Z.pow_add_r by lia. f_equal. lia. }
    rewrite E. cbn [rev]. lia.
Qed.

(** Adding one to a codeword of length [len], in reversed form. *)
Lemma next_huff_rev len p :
  1 <= len <= 15 -> (2 ^ (15 - len) | p) ->
  next_huff len (rev15 p) = Some (rev15 (p + 2 ^ (15 - len))).
Proof.
  intros Hl [q ->]. unfold next_huff. rewrite shiftl_mul by lia.
  set (m := Z.to_nat (len - 1)). replace (1 * 2 ^ (len - 1)) with (2 ^ Z.of_nat m)
    by (unfold m; rewrite Z2Nat.id by lia; lia).
  rewrite increment_from by lia. f_equal.
  replace (14 - Z.of_nat m) with (15 - len) by lia. rewrite Z.div_mul by lia.
  replace (q * 2 ^ (15 - len) + 2 ^ (15 - len)) with ((q + 1) * 2 ^ (Z.of_nat 15 - Z.of_nat (S m))).
  - symmetry. apply (rev_shift 15). lia.
  - replace (Z.of_nat 15 - Z.of_nat (S m)) with (15 - len) by lia. ring.
Qed.

(** ** Sums of interval lengths *)

Definition weight (l : Z) : Z := 2 ^ (15 - l).
Fixpoint total (ls : list Z) : Z := match ls with [] => 0 | l :: ls => weight l + total ls end.
(** The intervals of the codewords shorter than [m]. *)
Fixpoint below (m : Z) (ls : list Z) : Z :=
  match ls with [] => 0 | l :: ls => (if l <? m then weight l else 0) + below m ls end.
Definition how_many (l : Z) (ls : list Z) : Z := Z.of_nat (length (filter (eq l) ls)).

Lemma weight_half m : m < 15 -> weight m = 2 * weight (m + 1).
Proof. intros H. unfold weight. rewrite <- Z.pow_succ_r by lia. f_equal. lia. Qed.
Lemma pow_weight a b : 0 <= b -> a + b <= 15 -> 2 ^ b * weight (a + b) = weight a.
Proof. intros Hb Hab. unfold weight. rewrite <- Z.pow_add_r by lia. f_equal. lia. Qed.
Lemma weight_nonneg l : 0 <= weight l.
Proof. unfold weight. lia. Qed.
Lemma weight_pos l : l <= 15 -> 0 < weight l.
Proof. intros. unfold weight. lia. Qed.
Lemma weight_divides a b : a <= b <= 15 -> (weight b | weight a).
Proof.
  intros H. exists (2 ^ (b - a)). unfold weight. rewrite <- Z.pow_add_r by lia. f_equal. lia.
Qed.
Lemma weights_app a b : total (a ++ b) = total a + total b.
Proof. induction a as [|x a IH]; [done|]. cbn [app total]. lia. Qed.
Lemma below_app m a b : below m (a ++ b) = below m a + below m b.
Proof. induction a as [|x a IH]; [done|]. cbn [app below]. lia. Qed.
Lemma below_nonneg m a : 0 <= below m a.
Proof. induction a as [|x a IH]; [done|]. cbn [below]. pose proof (weight_nonneg x). split_bool; lia. Qed.
Lemma total_nonneg a : 0 <= total a.
Proof. induction a as [|x a IH]; [done|]. cbn [total]. pose proof (weight_nonneg x). lia. Qed.
Lemma below_le_total m a : below m a <= total a.
Proof. induction a as [|x a IH]; [done|]. cbn [below total]. pose proof (weight_nonneg x). split_bool; lia. Qed.
Lemma below_all m a : Forall (fun l => l < m) a -> below m a = total a.
Proof. induction 1 as [|x a Hx Ha IH]; [done|]. cbn [below total]. split_bool; lia. Qed.
Lemma below_none m a : Forall (fun l => m <= l) a -> below m a = 0.
Proof. induction 1 as [|x a Hx Ha IH]; [done|]. cbn [below]. split_bool; lia. Qed.
Lemma how_many_cons l x ls : how_many l (x :: ls) = (if l =? x then 1 else 0) + how_many l ls.
Proof.
  unfold how_many. rewrite filter_cons. destruct (Z.eqb_spec l x); destruct (decide (l = x)); try done.
  cbn [length]. lia.
Qed.
Lemma how_many_app l a b : how_many l (a ++ b) = how_many l a + how_many l b.
Proof. unfold how_many. rewrite list.filter_app, length_app. lia. Qed.
Lemma how_many_nonneg l a : 0 <= how_many l a.
Proof. unfold how_many. lia. Qed.
Lemma how_many_le l a : how_many l a <= Z.of_nat (length a).
Proof. unfold how_many. pose proof (length_filter (eq l) a). lia. Qed.
Lemma below_succ m a : below (m + 1) a = below m a + how_many m a * weight m.
Proof.
  induction a as [|x a IH]; [done|]. cbn [below]. rewrite how_many_cons, IH.
  destruct (Z.eqb_spec m x) as [<-|]; split_bool; lia.
Qed.
(** Codewords of at least [m] bits need many to fill an interval. *)
Lemma total_le_count m a :
  Forall (fun l => m <= l <= 15) a -> total a <= Z.of_nat (length a) * weight m.
Proof.
  induction 1 as [|x a Hx Ha IH]; [done|]. cbn [total length].
  assert (weight x <= weight m) by (apply Z.pow_le_mono_r; lia). lia.
Qed.

(** ** A sequence of codewords *)

Section canon.
Context (Ls : list Z).
Definition start (i : nat) : Z := total (take i Ls).
Definition remaining (j : nat) : list Z := drop j Ls.

Definition well_formed : Prop :=
  Forall (fun l => 1 <= l <= 15) Ls /\
  (forall i j a b, (i <= j)%nat -> Ls !! i = Some a -> Ls !! j = Some b -> a <= b) /\
  total Ls <= 32768.

Context (Hwf : well_formed).

Lemma length_range i l : Ls !! i = Some l -> 1 <= l <= 15.
Proof. intros H. destruct Hwf as [Hr _]. eapply Forall_lookup_1 in Hr; eauto. Qed.

Lemma start_S i l : Ls !! i = Some l -> start (S i) = start i + weight l.
Proof. intros H. unfold start. rewrite (take_S_r _ _ _ H), weights_app. cbn [total]. lia. Qed.
Lemma start_split i : start i + total (remaining i) = total Ls.
Proof. unfold start, remaining. rewrite <- weights_app, take_drop. done. Qed.
Lemma start_le i j : (i <= j)%nat -> start i <= start j.
Proof.
  intros H. unfold start. replace j with (i + (j - i))%nat by lia.
  rewrite <- take_take_drop, weights_app. pose proof (total_nonneg (take (j - i) (drop i Ls))). lia.
Qed.
Lemma start_nonneg i : 0 <= start i.
Proof. apply total_nonneg. Qed.
Lemma start_bound i : start i <= total Ls.
Proof. pose proof (start_split i). pose proof (total_nonneg (remaining i)). lia. Qed.
Lemma start_lt i l : Ls !! i = Some l -> start i + weight l <= 32768.
Proof.
  intros H. rewrite <- (start_S _ _ H). pose proof (start_bound (S i)). destruct Hwf as (_ & _ & ?). lia.
Qed.
Lemma start_divides i l : Ls !! i = Some l -> (weight l | start i).
Proof.
  intros Hi. pose proof (length_range _ _ Hi) as Hl. destruct Hwf as (Hr & Hs & _).
  assert (H : Forall (fun x => x <= l) (take i Ls)).
  { apply Forall_lookup. intros k x Hk. apply lookup_take_Some in Hk as [Hk Hki].
    apply (Hs k i x l); auto; lia. }
  unfold start. induction H as [|x a Hx Ha IH]; [apply Z.divide_0_r|].
  cbn [total]. apply Z.divide_add_r; [|done]. apply weight_divides. lia.
Qed.

(** ** Which codeword a number starts with *)

Definition matches (i : nat) (h : Z) : Prop := start i <= rev15 h < start (S i).

Lemma matches_mod i l h : Ls !! i = Some l -> matches i h <-> h `mod` 2 ^ l = rev15 (start i).
Proof.
  intros Hi. unfold matches. rewrite (start_S _ _ Hi). pose proof (length_range _ _ Hi).
  pose proof (start_lt _ _ Hi). pose proof (weight_pos l ltac:(lia)). pose proof (start_nonneg i).
  symmetry. apply rev15_match; [lia|by apply start_divides|lia].
Qed.
Lemma matches_self i l : Ls !! i = Some l -> matches i (rev15 (start i)).
Proof.
  intros Hi. unfold matches. rewrite (start_S _ _ Hi). pose proof (length_range _ _ Hi).
  pose proof (start_lt _ _ Hi). pose proof (weight_pos l ltac:(lia)). pose proof (start_nonneg i).
  unfold rev15. rewrite rev_rev, Z.mod_small by (change (2 ^ Z.of_nat 15) with 32768; lia). lia.
Qed.
Lemma matches_unique i j h : matches i h -> matches j h -> i = j.
Proof.
  unfold matches. intros Hi Hj. destruct (Nat.lt_trichotomy i j) as [H|[H|H]]; [|done|].
  - pose proof (start_le (S i) j ltac:(lia)). lia.
  - pose proof (start_le (S j) i ltac:(lia)). lia.
Qed.
Lemma matches_exists h : rev15 h < total Ls -> exists i, (i < length Ls)%nat /\ matches i h.
Proof.
  intros H. assert (Hn : start (length Ls) = total Ls) by (unfold start; by rewrite firstn_all).
  rewrite <- Hn in H. clear Hn. induction (length Ls) as [|n IH].
  - change (start 0) with 0 in H. pose proof (rev15_range h). lia.
  - destruct (Z.lt_ge_cases (rev15 h) (start n)) as [Hlt|Hge].
    + destruct (IH Hlt) as (i & ? & ?). exists i. split; [lia|done].
    + exists n. split; [lia|]. unfold matches. lia.
Qed.

(** ** What is left from a position on *)

Lemma remaining_cons j l : Ls !! j = Some l -> remaining j = l :: remaining (S j).
Proof. intros H. unfold remaining. by apply drop_S. Qed.

Lemma long_after j m i l :
  (j <= i)%nat -> Ls !! i = Some l -> m <= l -> start j + below m (remaining j) <= start i.
Proof.
  intros Hji Hi Hm. unfold remaining. rewrite <- (take_drop (i - j) (drop j Ls)), drop_drop, below_app.
  replace (j + (i - j))%nat with i by lia. rewrite (below_none m (drop i Ls)).
  - pose proof (below_le_total m (take (i - j) (drop j Ls))) as H.
    unfold start. replace (take i Ls) with (take (j + (i - j)) Ls) by (f_equal; lia).
    rewrite <- take_take_drop, weights_app. lia.
  - apply Forall_lookup. intros k x Hk. rewrite lookup_drop in Hk. destruct Hwf as (_ & Hs & _).
    pose proof (Hs i (i + k)%nat l x ltac:(lia) Hi Hk). lia.
Qed.
Lemma short_before j m i l :
  (j <= i)%nat -> Ls !! i = Some l -> l < m -> start (S i) <= start j + below m (remaining j).
Proof.
  intros Hji Hi Hm. unfold remaining. rewrite <- (take_drop (S i - j) (drop j Ls)), below_app.
  rewrite (below_all m (take (S i - j) (drop j Ls))).
  - pose proof (below_nonneg m (drop (S i - j) (drop j Ls))) as H.
    unfold start. replace (take (S i) Ls) with (take (j + (S i - j)) Ls) by (f_equal; lia).
    rewrite <- take_take_drop, weights_app. lia.
  - apply Forall_lookup. intros k x Hk. apply lookup_take_Some in Hk as [Hk ?]. rewrite lookup_drop in Hk.
    destruct Hwf as (_ & Hs & _). pose proof (Hs (j + k)%nat i x l ltac:(lia) Hk Hi). lia.
Qed.
(** From [j] on to [i] there are enough codewords to fill the interval between. *)
Lemma fill_count j i m :
  (j <= i <= length Ls)%nat -> (forall k l, (j <= k)%nat -> Ls !! k = Some l -> m <= l) ->
  start i - start j <= Z.of_nat (i - j) * weight m.
Proof.
  intros Hji Hm. unfold start at 1. replace (take i Ls) with (take (j + (i - j)) Ls) by (f_equal; lia).
  rewrite <- take_take_drop, weights_app. pose proof (total_le_count m (take (i - j) (drop j Ls))) as H.
  rewrite length_take, length_drop in H. replace ((i - j) `min` (length Ls - j))%nat with (i - j)%nat in H by lia.
  enough (total (take (i - j) (drop j Ls)) <= Z.of_nat (i - j) * weight m) by (unfold start; lia).
  apply H. apply Forall_lookup. intros k x Hk. apply lookup_take_Some in Hk as [Hk ?]. rewrite lookup_drop in Hk.
  pose proof (length_range _ _ Hk). pose proof (Hm (j + k)%nat x ltac:(lia) Hk). lia.
Qed.
End canon.

(** ** Lemmas on bit lists and codewords *)

Lemma c_bool_range b : 0 <= c_bool b <= 1.
Proof. destruct b; cbn; lia. Qed.
Lemma lsb_range bs : 0 <= lsb bs < 2 ^ Z.of_nat (length bs).
Proof.
  induction bs as [|b bs IH]; [cbn; lia|]. cbn [lsb length]. pose proof (c_bool_range b).
  rewrite Nat2Z.inj_succ, Z.pow_succ_r by lia. lia.
Qed.
Lemma lsb_app a b : lsb (a ++ b) = lsb a + 2 ^ Z.of_nat (length a) * lsb b.
Proof.
  induction a as [|x a IH]; [cbn [lsb length app]; lia|]. cbn [lsb length app].
  rewrite IH, Nat2Z.inj_succ, Z.pow_succ_r by lia. lia.
Qed.
Lemma lsb_take k bs : lsb (take k bs) = lsb bs `mod` 2 ^ Z.of_nat k.
Proof.
  destruct (decide (k <= length bs)%nat) as [Hk|Hk].
  - rewrite <- (take_drop k bs) at 2. rewrite lsb_app, length_take_le by done.
    rewrite (Z.mul_comm (2 ^ _)), Z.mod_add by lia. symmetry. apply Z.mod_small.
    pose proof (lsb_range (take k bs)) as H. rewrite length_take_le in H by done. done.
  - rewrite take_ge by lia. symmetry. apply Z.mod_small. pose proof (lsb_range bs).
    assert (2 ^ Z.of_nat (length bs) <= 2 ^ Z.of_nat k) by (apply Z.pow_le_mono_r; lia). lia.
Qed.
Lemma lsb_drop k bs : lsb (drop k bs) = lsb bs / 2 ^ Z.of_nat k.
Proof.
  destruct (decide (k <= length bs)%nat) as [Hk|Hk].
  - rewrite <- (take_drop k bs) at 2. rewrite lsb_app, length_take_le by done.
    rewrite Z.add_comm, (Z.mul_comm (2 ^ _)), Z.div_add_l by lia.
    rewrite Z.div_small; [lia|]. pose proof (lsb_range (take k bs)) as H. rewrite length_take_le in H by done. done.
  - rewrite drop_ge by lia. symmetry. apply Z.div_small. pose proof (lsb_range bs).
    assert (2 ^ Z.of_nat (length bs) <= 2 ^ Z.of_nat k) by (apply Z.pow_le_mono_r; lia). lia.
Qed.
Lemma lsb_inj a b : length a = length b -> lsb a = lsb b -> a = b.
Proof.
  revert b. induction a as [|x a IH]; intros [|y b] Hl E; [done..|]. cbn [lsb length] in *.
  pose proof (c_bool_range x). pose proof (c_bool_range y).
  rewrite (IH b) by lia. f_equal. destruct x, y; cbn in *; lia || done.
Qed.
Lemma length_to_lsb n v : length (to_lsb n v) = n.
Proof. revert v. induction n as [|n IH]; intros v; [done|]. cbn [to_lsb length]. by rewrite IH. Qed.
Lemma length_to_msb n v : length (to_msb n v) = n.
Proof. induction n as [|n IH]; [done|]. cbn [to_msb length]. by rewrite IH. Qed.
Lemma lsb_to_lsb n v : lsb (to_lsb n v) = v `mod` 2 ^ Z.of_nat n.
Proof.
  revert v. induction n as [|n IH]; intros v; [cbn [to_lsb lsb]; by rewrite Z.mod_1_r|]. cbn [to_lsb lsb].
  rewrite IH, Nat2Z.inj_succ, Z.pow_succ_r, Z.rem_mul_r, <- Z.div2_div by lia.
  rewrite Zmod_odd. destruct (Z.odd v); done.
Qed.
Lemma to_lsb_lsb bs : to_lsb (length bs) (lsb bs) = bs.
Proof.
  apply lsb_inj; [by rewrite length_to_lsb|]. rewrite lsb_to_lsb. apply Z.mod_small, lsb_range.
Qed.

(** The reversal of a code is the value of its codeword. *)
Lemma testbit_cons b v i : 0 <= i -> Z.testbit (c_bool b + 2 * v) i = if i =? 0 then b else Z.testbit v (i - 1).
Proof.
  intros Hi. replace (c_bool b + 2 * v) with (2 * v + Z.b2z b) by (destruct b; cbn; lia).
  destruct (Z.eqb_spec i 0) as [->|Hne]; [apply Z.testbit_0_r|].
  replace i with (Z.succ (i - 1)) at 1 by lia. rewrite Z.testbit_succ_r by lia. done.
Qed.
Lemma lsb_to_msb n v : lsb (to_msb n v) = rev n v.
Proof.
  apply Z.bits_inj'. intros i Hi. rewrite rev_bits by lia. revert i Hi. induction n as [|n IH]; intros i Hi.
  { cbn [to_msb lsb]. rewrite Z.bits_0. destruct (Z.ltb_spec i (Z.of_nat 0)); [lia|done]. }
  cbn [to_msb lsb]. rewrite testbit_cons by lia. destruct (Z.eqb_spec i 0) as [->|Hne].
  - rewrite (proj2 (Z.ltb_lt 0 (Z.of_nat (S n)))) by lia. cbn [andb]. f_equal. lia.
  - rewrite IH by lia. f_equal; [split_bool; lia|f_equal; lia].
Qed.

(** A codeword is a prefix when the low bits agree. *)
Lemma prefix_lsb a bs :
  a `prefix_of` bs <-> (length a <= length bs)%nat /\ lsb bs `mod` 2 ^ Z.of_nat (length a) = lsb a.
Proof.
  split.
  - intros [k ->]. rewrite length_app. split; [lia|]. rewrite <- lsb_take, take_app_length. done.
  - intros [Hl E]. rewrite <- lsb_take in E. apply lsb_inj in E; [|rewrite length_take_le; lia].
    exists (drop (length a) bs). rewrite <- E at 1. by rewrite take_drop.
Qed.
Lemma length_codeword lens s : length (codeword lens s) = Z.to_nat (code_length lens s).
Proof. apply length_to_msb. Qed.
Lemma lsb_codeword lens s : lsb (codeword lens s) = rev (Z.to_nat (code_length lens s)) (code_of lens s).
Proof. apply lsb_to_msb. Qed.

(** ** Reading from a stream *)

Lemma getbits_ok n bs : (n <= length bs)%nat -> getbits n bs = Got (lsb bs `mod` 2 ^ Z.of_nat n) (drop n bs).
Proof. intros H. unfold getbits. rewrite decide_True by done. by rewrite lsb_take. Qed.
Lemma getbits_more n bs : (length bs < n)%nat -> getbits n bs = More.
Proof. intros H. unfold getbits. rewrite decide_False by lia. done. Qed.
Lemma bits_of_bytes_cons b l : bits_of_bytes (b :: l) = to_lsb 8 b ++ bits_of_bytes l.
Proof. done. Qed.
Lemma bits_of_bytes_app a b : bits_of_bytes (a ++ b) = bits_of_bytes a ++ bits_of_bytes b.
Proof. unfold bits_of_bytes. by rewrite fmap_app, join_app. Qed.
Lemma length_bits_of_bytes l : length (bits_of_bytes l) = (8 * length l)%nat.
Proof. induction l as [|b l IH]; [done|]. rewrite bits_of_bytes_cons, length_app, IH, length_to_lsb. cbn [length]. lia. Qed.
