(* ===== verification/InfTreesProofs.v ===== *)
(** * The loops that fill the decoding tables

    The invariant of the main loop of [zlib_inflate_table]: looking up any number that
    starts with one of the codewords entered so far gives the entry of its symbol, in the
    root table or through a link in a sub-table.  The look-ahead finds the exact depth of
    every sub-table, so the space taken is bounded. *)

From Stdlib Require Import ZArith Lia Bool.
From stdpp Require Import base numbers list option.
From S2P Require Import Prelude InfTrees Canon.
Open Scope Z_scope.

(** ** Arrays *)

Lemma rd_Some {A} (l : list A) i v : rd l i = Some v -> 0 <= i < Z.of_nat (length l).
Proof. unfold rd. intros H. destruct (Z.leb_spec 0 i); [|done]. apply lookup_lt_Some in H. lia. Qed.
Lemma rd_is_Some {A} (l : list A) i : 0 <= i < Z.of_nat (length l) -> is_Some (rd l i).
Proof. intros H. unfold rd. destruct (Z.leb_spec 0 i); [|lia]. apply lookup_lt_is_Some. lia. Qed.
Lemma wr_ok {A} (l : list A) i v :
  0 <= i < Z.of_nat (length l) -> exists l', wr l i v = Some l' /\ length l' = length l /\
    forall k, rd l' k = if k =? i then Some v else rd l k.
Proof.
  intros H. unfold wr. replace ((0 <=? i) && (i <? Z.of_nat (length l))) with true by (split_bool; lia || done).
  eexists. split; [done|]. split; [apply length_insert|]. intros k. unfold rd.
  destruct (Z.eqb_spec k i) as [->|Hk].
  - destruct (Z.leb_spec 0 i); [|lia]. apply list_lookup_insert_eq. lia.
  - destruct (Z.leb_spec 0 k); [|done]. apply list_lookup_insert_ne. lia.
Qed.

Lemma mod_mod_pow h a b : 0 <= a <= b -> (h `mod` 2 ^ b) `mod` 2 ^ a = h `mod` 2 ^ a.
Proof. intros H. apply Z.mod_mod_divide. exists (2 ^ (b - a)). rewrite <- Z.pow_add_r by lia. f_equal. lia. Qed.
Lemma div_mod_pow h a b : 0 <= a -> 0 <= b ->
  h `mod` 2 ^ (a + b) = h `mod` 2 ^ a + 2 ^ a * ((h / 2 ^ a) `mod` 2 ^ b).
Proof. intros Ha Hb. rewrite Z.pow_add_r by lia. apply Z.rem_mul_r; lia. Qed.

Lemma mod_div_pow h a b : 0 <= a -> 0 <= b -> (h `mod` 2 ^ (a + b)) / 2 ^ a = (h / 2 ^ a) `mod` 2 ^ b.
Proof.
  intros Ha Hb. rewrite div_mod_pow by lia. rewrite Z.add_comm, Z.mul_comm, Z.div_add_l by lia.
  rewrite (Z.div_small (h `mod` 2 ^ a)) by (apply Z.mod_pos_bound; lia). lia.
Qed.

(** ** Replicating an entry *)

Lemma fill_loop_ok fuel at_ incr k this (tab : list code) :
  (Z.to_nat k <= fuel)%nat -> 1 <= k -> 0 < incr -> k * incr < 2 ^ 32 -> 0 <= at_ ->
  at_ + (k - 1) * incr < Z.of_nat (length tab) ->
  exists tab', fill_loop fuel at_ incr (k * incr) this tab = Some tab' /\ length tab' = length tab /\
    (forall m, 0 <= m < k -> rd tab' (at_ + m * incr) = Some this) /\
    (forall a, rd tab' a = rd tab a \/ exists m, 0 <= m < k /\ a = at_ + m * incr).
Proof.
  revert k tab. induction fuel as [|fuel IH]; intros k tab Hf Hk Hi Hb Ha Hr; [lia|].
  cbn [fill_loop]. rewrite u32_id by (unfold is_u32; nia).
  replace (k * incr - incr) with ((k - 1) * incr) by ring.
  destruct (wr_ok tab (at_ + (k - 1) * incr) this) as (t1 & E1 & L1 & R1); [nia|].
  rewrite E1. cbn [mbind option_bind]. destruct (Z.eqb_spec ((k - 1) * incr) 0) as [E0|E0].
  - assert (k = 1) by nia. subst k. exists t1. split; [done|]. split; [done|]. split.
    + intros m Hm. replace m with 0 by lia. rewrite R1. by rewrite Z.eqb_refl.
    + intros a. rewrite R1. destruct (Z.eqb_spec a (at_ + (1 - 1) * incr)); [right; exists 0; lia|by left].
  - assert (k <> 1) by nia.
    destruct (IH (k - 1) t1) as (t2 & E2 & L2 & R2 & R3); [lia|lia|lia|nia|lia|nia|].
    exists t2. split; [done|]. split; [lia|]. split.
    + intros m Hm. destruct (Z.eq_dec m (k - 1)) as [->|]; [|apply R2; lia].
      destruct (R3 (at_ + (k - 1) * incr)) as [->|(m & ? & ?)]; [|nia]. rewrite R1. by rewrite Z.eqb_refl.
    + intros a. destruct (R3 a) as [->|(m & ? & ?)]; [|right; exists m; lia].
      rewrite R1. destruct (Z.eqb_spec a (at_ + (k - 1) * incr)); [right; exists (k - 1); lia|by left].
Qed.

(** ** The invariant *)

Section fill.
(** The symbols in order, [syms], and the lengths of their codewords, [Ls]. *)
Context (type : codetype) (lens work : list Z) (max root table : Z) (Ls syms : list Z).
Context (Hwf : well_formed Ls).
Context (Hsyms : length syms = length Ls).
Context (Hwork : forall i s, syms !! i = Some s -> rd work (Z.of_nat i) = Some s).
Context (Hlens : forall i s l, syms !! i = Some s -> Ls !! i = Some l -> rd lens s = Some l).
Context (Hent : forall i s, syms !! i = Some s -> is_Some (symbol_entry type s)).
Context (Hroot : 1 <= root <= max) (Hmax : max <= 15) (Hlast : Ls !! (length Ls - 1)%nat = Some max).
Context (Htable : 0 <= table) (array : list code).

(** The entry of the symbol at a position, with [b] bits. *)
Definition leaf (i : nat) (b : Z) : option code :=
  s ← syms !! i; '(o, v) ← symbol_entry type s; Some (mkCode o b v).

(** The entry for [h], which starts with the codeword at [i], in the tables below [next]
    and the one that the root entry [low] points to. *)
Definition covered (tab : list code) (next low : Z) (i : nat) (h : Z) : Prop :=
  exists l, Ls !! i = Some l /\
  (l <= root -> rd tab (table + h `mod` 2 ^ root) = leaf i l) /\
  (root < l -> exists off c,
     rd tab (table + h `mod` 2 ^ root) = Some (mkCode c root (off - table)) /\
     l - root <= c <= max - root /\ table + 2 ^ root <= off /\
     (h `mod` 2 ^ root <> low -> off + 2 ^ c <= next) /\
     rd tab (off + (h / 2 ^ root) `mod` 2 ^ c) = leaf i (l - root)).

(** Filling the root table, while the codewords fit it. *)
Record at_root (j : nat) (s : fillst) : Prop := {
  ar_len : f_len s <= root;
  ar_drop : f_drop s = 0;
  ar_next : f_next s = table;
  ar_curr : f_curr s = root;
  ar_low : f_low s = u32 (-1);
  ar_used : f_used s = 2 ^ root
}.

(** The position [j0] where the current sub-table starts.  The tables before it, without
    the last of [sp] entries, take no more entries than there are codewords before [j0];
    and every codeword from [j0] on is long enough for [sp] of them to make a sub-table. *)
Definition spaced (next : Z) (j0 : nat) : Prop :=
  exists A sp, next - table = 2 ^ root + A + sp /\ 0 <= A <= Z.of_nat j0 /\
    (sp = 0 \/ exists cp, sp = 2 ^ cp /\ 0 <= cp <= 15 - root /\
       forall i l, (j0 <= i)%nat -> Ls !! i = Some l -> root + cp <= l).

(** Filling a sub-table, of exactly the depth that its codewords need. *)
Record at_sub (j : nat) (s : fillst) : Prop := {
  as_len : root < f_len s;
  as_drop : f_drop s = root;
  as_low : f_low s = rev15 (start Ls j) `mod` 2 ^ root;
  as_link : rd (f_codes s) (table + f_low s) = Some (mkCode (f_curr s) root (f_next s - table));
  as_curr : 0 < f_curr s <= max - root;
  as_used : f_used s = f_next s - table + 2 ^ f_curr s;
  as_next : table + 2 ^ root <= f_next s;
  as_start : exists j0, (j0 <= j)%nat /\ start Ls j0 <= start Ls j < start Ls j0 + weight root /\
    (weight root | start Ls j0) /\ spaced (f_next s) j0 /\
    (forall i l, (j0 <= i)%nat -> Ls !! i = Some l -> start Ls i < start Ls j0 + weight root -> l <= root + f_curr s) /\
    (forall i l, (j0 <= i)%nat -> Ls !! i = Some l -> start Ls j0 + weight root <= start Ls i -> root + f_curr s <= l)
}.

(** Every position before [j] has been entered. *)
Record entered (N j : nat) (s : fillst) : Prop := {
  en_length : length (f_codes s) = N;
  en_sym : f_sym s = Z.of_nat j;
  en_huff : f_huff s = rev15 (start Ls j);
  en_count : length (f_count s) = 16%nat /\
    forall l, 1 <= l <= 15 -> rd (f_count s) l = Some (how_many l (remaining Ls j));
  en_covered : forall i h, (i < j)%nat -> matches Ls i h -> covered (f_codes s) (f_next s) (f_low s) i h;
  en_frame : forall a, a < table -> rd (f_codes s) a = rd array a
}.

Definition inv (N j : nat) (s : fillst) : Prop :=
  entered N j s /\ Ls !! j = Some (f_len s) /\ (at_root j s \/ at_sub j s).

(** Entering a symbol writes exactly where the numbers that start with its codeword look. *)
Lemma enter_writes N j s l d :
  entered N j s -> Ls !! j = Some l -> f_len s = l -> f_drop s = d ->
  0 <= d <= l -> l <= d + f_curr s -> 0 <= f_curr s <= 15 -> 0 <= f_next s ->
  f_next s + 2 ^ f_curr s <= Z.of_nat N ->
  exists tab, enter_symbol type work s = Some tab /\ length tab = N /\
    (forall h, matches Ls j h -> rd tab (f_next s + (h / 2 ^ d) `mod` 2 ^ f_curr s) = leaf j (l - d)) /\
    (forall a, rd tab a = rd (f_codes s) a \/
       exists h, matches Ls j h /\ a = f_next s + (h / 2 ^ d) `mod` 2 ^ f_curr s).
Proof.
  intros [HN Hs Hh _ _ _] Hj El Ed Hd Hc Hc15 Hn Hroom.
  pose proof (length_range _ Hwf _ _ Hj) as Hl.
  assert (is_Some (syms !! j)) as [w Hw]. { apply lookup_lt_is_Some. rewrite Hsyms. apply lookup_lt_Some in Hj. done. }
  destruct (Hent _ _ Hw) as [[o v] He]. unfold enter_symbol. rewrite Hs, (Hwork _ _ Hw). cbn [mbind option_bind].
  rewrite He, Hh, El, Ed. set (huff := rev15 (start Ls j)).
  set (c := f_curr s) in *. set (k := 2 ^ (c - (l - d))). rewrite !shiftl_mul, shiftr_div by lia.
  assert (Hk : 1 * 2 ^ c = k * 2 ^ (l - d)). { unfold k. rewrite <- Z.pow_add_r by lia. rewrite Z.mul_1_l. f_equal. lia. }
  assert (Hlc : 2 ^ c <= 2 ^ 15) by (apply Z.pow_le_mono_r; lia).
  assert (Hhuff : 0 <= huff < 2 ^ l).
  { unfold huff. pose proof (matches_self _ Hwf _ _ Hj) as Hm. rewrite (matches_mod _ Hwf _ _ _ Hj) in Hm.
    rewrite <- Hm. apply Z.mod_pos_bound. lia. }
  assert (Hq : 0 <= huff / 2 ^ d < 2 ^ (l - d)).
  { split; [apply Z.div_pos; lia|]. apply Z.div_lt_upper_bound; [lia|]. rewrite <- Z.pow_add_r by lia.
    replace (d + (l - d)) with l by lia. lia. }
  destruct (fill_loop_ok (Z.to_nat (k * 2 ^ (l - d))) (f_next s + huff / 2 ^ d) (2 ^ (l - d)) k
    (mkCode o (u8 (l - d)) v) (f_codes s)) as (tab & Et & Lt & R1 & R2); try nia.
  rewrite Hk, Z.mul_1_l. exists tab. split; [exact Et|]. split; [lia|].
  rewrite u8_id in R1 by (unfold is_u8; lia). split.
  - intros h Hm. apply (matches_mod _ Hwf _ _ _ Hj) in Hm. fold huff in Hm.
    set (x := (h / 2 ^ d) `mod` 2 ^ c). assert (Hx : 0 <= x < 2 ^ c) by (apply Z.mod_pos_bound; lia).
    assert (Ex : x `mod` 2 ^ (l - d) = huff / 2 ^ d).
    { unfold x. rewrite mod_mod_pow by lia. rewrite <- mod_div_pow by lia. replace (d + (l - d)) with l by lia. by rewrite Hm. }
    pose proof (Z.div_mod x (2 ^ (l - d)) ltac:(lia)) as Hdm. rewrite Ex in Hdm.
    replace (f_next s + x) with (f_next s + huff / 2 ^ d + x / 2 ^ (l - d) * 2 ^ (l - d)) by lia.
    rewrite R1; [unfold leaf; rewrite Hw; cbn [mbind option_bind]; by rewrite He|].
    split; [apply Z.div_pos; lia|]. apply Z.div_lt_upper_bound; lia.
  - intros a. destruct (R2 a) as [?|(m & Hm & ->)]; [by left|]. right. exists (huff + m * 2 ^ l).
    assert (Hp : 2 ^ l = 2 ^ (l - d) * 2 ^ d). { rewrite <- Z.pow_add_r by lia. f_equal. lia. }
    split.
    + apply (matches_mod _ Hwf _ _ _ Hj). rewrite Z.mod_add by lia. apply Z.mod_small. lia.
    + rewrite Hp, Z.mul_assoc, Z.div_add by lia. rewrite Z.mod_small by nia. lia.
Qed.

Lemma matches_low i l h h' b :
  Ls !! i = Some l -> l <= b -> h `mod` 2 ^ b = h' `mod` 2 ^ b -> matches Ls i h' -> matches Ls i h.
Proof.
  clear - Hwf. intros Hi Hb E. pose proof (length_range _ Hwf _ _ Hi). rewrite !(matches_mod _ Hwf _ _ _ Hi).
  intros <-. rewrite <- (mod_mod_pow h l b), <- (mod_mod_pow h' l b) by lia. by rewrite E.
Qed.
Lemma matches_slot i l h r :
  Ls !! i = Some l -> 0 <= r <= l -> matches Ls i h -> h `mod` 2 ^ r = rev15 (start Ls i) `mod` 2 ^ r.
Proof.
  clear - Hwf. intros Hi Hr. rewrite (matches_mod _ Hwf _ _ _ Hi). intros <-. rewrite mod_mod_pow by lia. done.
Qed.
Lemma sorted_le i j a b : (i <= j)%nat -> Ls !! i = Some a -> Ls !! j = Some b -> a <= b.
Proof. destruct Hwf as (_ & Hs & _). apply Hs. Qed.

(** What entering a symbol achieves. *)
Definition all_entered (N j : nat) (s : fillst) (tab : list code) : Prop :=
  length tab = N /\
  (forall i h, (i <= j)%nat -> matches Ls i h -> covered tab (f_next s) (f_low s) i h) /\
  (root < f_len s -> rd tab (table + f_low s) = rd (f_codes s) (table + f_low s)) /\
  (forall a, a < table -> rd tab a = rd array a).

Lemma enter_root N j s :
  entered N j s -> Ls !! j = Some (f_len s) -> at_root j s -> table + 2 ^ root <= Z.of_nat N ->
  exists tab, enter_symbol type work s = Some tab /\ all_entered N j s tab.
Proof.
  intros He Hj Hr Hroom. destruct Hr as [Hl Hd Hn Hc Hlow _]. pose proof (length_range _ Hwf _ _ Hj) as Hl1.
  destruct (enter_writes N j s (f_len s) 0) as (tab & Et & HN & R1 & R2); rewrite ?Hc, ?Hn; try lia; auto.
  rewrite Hc, Hn, Z.sub_0_r in R1. rewrite Hc, Hn in R2. exists tab. split; [done|]. split; [done|]. split; [|split; [lia|]].
  2:{ intros a Ha. rewrite <- (en_frame _ _ _ He a Ha). destruct (R2 a) as [->|(h & _ & E)]; [done|].
      pose proof (Z.mod_pos_bound (h / 2 ^ 0) (2 ^ root)). lia. }
  assert (Hdiv : forall h, (h / 2 ^ 0) `mod` 2 ^ root = h `mod` 2 ^ root) by (intros; by rewrite Z.div_1_r).
  intros i h Hi Hm. destruct (decide (i = j)) as [->|Hne].
  - exists (f_len s). split; [done|]. split; [|lia]. intros _. rewrite <- Hdiv. by apply R1.
  - destruct (en_covered _ _ _ He i h ltac:(lia) Hm) as (l & El & Hcov & _). exists l. split; [done|].
    pose proof (sorted_le i j l (f_len s) ltac:(lia) El Hj). split; [|lia]. intros Hlr. rewrite <- Hcov by done.
    destruct (R2 (table + h `mod` 2 ^ root)) as [->|(h' & Hm' & E)]; [done|]. exfalso. apply Hne.
    rewrite Hdiv in E. apply (matches_unique Ls i j h); [done|]. apply (matches_low j (f_len s) h h' root); auto. lia.
Qed.

Lemma enter_sub N j s :
  entered N j s -> Ls !! j = Some (f_len s) -> at_sub j s -> f_next s + 2 ^ f_curr s <= Z.of_nat N ->
  exists tab, enter_symbol type work s = Some tab /\ all_entered N j s tab.
Proof.
  intros He Hj Hs Hroom. destruct Hs as [Hl Hd Hlow Hlink Hc _ Hn (j0 & Hj0 & Hst & _ & _ & Hfit & _)].
  assert (Hf : f_len s <= root + f_curr s) by (eapply Hfit; eauto; lia).
  destruct (enter_writes N j s (f_len s) root) as (tab & Et & HN & R1 & R2); try lia; auto.
  exists tab. split; [done|]. split; [done|].
  assert (Hroot_same : forall h, rd tab (table + h `mod` 2 ^ root) = rd (f_codes s) (table + h `mod` 2 ^ root)).
  { intros h. destruct (R2 (table + h `mod` 2 ^ root)) as [->|(h' & _ & E)]; [done|].
    pose proof (Z.mod_pos_bound h (2 ^ root)). pose proof (Z.mod_pos_bound (h' / 2 ^ root) (2 ^ f_curr s)). lia. }
  split; [|split; [intros _; rewrite Hlow; apply Hroot_same|]].
  2:{ intros a Ha. rewrite <- (en_frame _ _ _ He a Ha). destruct (R2 a) as [->|(h & _ & E)]; [done|].
      pose proof (Z.mod_pos_bound (h / 2 ^ root) (2 ^ f_curr s)). lia. }
  intros i h Hi Hm. destruct (decide (i = j)) as [->|Hne].
  - exists (f_len s). split; [done|]. split; [lia|]. intros _. exists (f_next s), (f_curr s).
    assert (E : h `mod` 2 ^ root = f_low s) by (rewrite Hlow; eapply matches_slot; eauto; lia).
    rewrite Hroot_same, E. split; [done|]. split; [lia|]. split; [lia|]. split; [done|]. by apply R1.
  - destruct (en_covered _ _ _ He i h ltac:(lia) Hm) as (l & El & Hcov1 & Hcov2). exists l. split; [done|].
    rewrite Hroot_same. split; [done|]. intros Hlr. destruct (Hcov2 Hlr) as (off & c & E1 & Hcl & Hoff & Hbelow & E2).
    exists off, c. split; [done|]. split; [done|]. split; [done|]. split; [done|]. rewrite <- E2.
    destruct (R2 (off + (h / 2 ^ root) `mod` 2 ^ c)) as [->|(h' & Hm' & E)]; [done|]. exfalso.
    pose proof (Z.mod_pos_bound (h / 2 ^ root) (2 ^ c)). pose proof (Z.mod_pos_bound (h' / 2 ^ root) (2 ^ f_curr s)).
    destruct (decide (h `mod` 2 ^ root = f_low s)) as [Es|]; [|specialize (Hbelow ltac:(done)); lia].
    rewrite Es, Hlink in E1. injection E1 as Ec E1. assert (off = f_next s) as -> by lia. subst c. apply Hne.
    apply (matches_unique Ls i j h); [done|]. apply (matches_low j (f_len s) h h' (root + f_curr s)); auto.
    rewrite !div_mod_pow by lia. rewrite Es, Hlow. f_equal; [|f_equal; lia].
    symmetry. eapply matches_slot; eauto. lia.
Qed.

(** ** The depth of a sub-table *)

(** Codewords in the interval of a root entry that starts at [j] are at most [root + c] bits
    long, and those after it at least that. *)
Definition depth (j : nat) (c : Z) : Prop :=
  (forall i l, (j <= i)%nat -> Ls !! i = Some l -> start Ls i < start Ls j + weight root -> l <= root + c) /\
  (forall i l, (j <= i)%nat -> Ls !! i = Some l -> start Ls j + weight root <= start Ls i -> root + c <= l).

Lemma max_length i l : Ls !! i = Some l -> l <= max.
Proof.
  intros Hi. apply (sorted_le i (length Ls - 1)); auto. apply lookup_lt_Some in Hi. lia.
Qed.

(** Not all of the interval is taken by codewords shorter than [root + c]. *)
Lemma depth_after j c :
  below (root + c) (remaining Ls j) < weight root ->
  forall i l, (j <= i)%nat -> Ls !! i = Some l -> start Ls j + weight root <= start Ls i -> root + c <= l.
Proof.
  intros Hb i l Hi El Hs. destruct (Z.le_gt_cases (root + c) l) as [|Hlt]; [done|].
  pose proof (short_before Ls Hwf j (root + c) i l Hi El Hlt).
  pose proof (start_le Ls i (S i) ltac:(lia)). lia.
Qed.

Lemma curr_loop_ok j fuel c left count :
  (forall l, 1 <= l <= 15 -> rd count l = Some (how_many l (remaining Ls j))) ->
  left * weight (root + c) = weight root - below (root + c) (remaining Ls j) -> 0 < left ->
  0 <= c <= max - root -> max - root - c <= Z.of_nat fuel ->
  exists c', curr_loop fuel c root max left count = Some c' /\ c <= c' <= max - root /\ depth j c'.
Proof.
  intros Hcount. revert c left. induction fuel as [|fuel IH]; intros c left Hleft Hpos Hc Hf;
    cbn [curr_loop]; pose proof (weight_pos (root + c) ltac:(lia)) as Hwp.
  { destruct (Z.ltb_spec (c + root) max); [lia|]. exists c. split; [done|]. split; [lia|]. split.
    - intros i l _ Hi _. apply max_length in Hi. lia.
    - apply depth_after. nia. }
  destruct (Z.ltb_spec (c + root) max) as [Hlt|].
  2:{ exists c. split; [done|]. split; [lia|]. split.
    - intros i l _ Hi _. apply max_length in Hi. lia.
    - apply depth_after. nia. }
  rewrite Hcount by lia. cbn [mbind option_bind]. replace (c + root) with (root + c) by lia.
  pose proof (below_succ (root + c) (remaining Ls j)) as Hbs.
  destruct (Z.leb_spec (left - how_many (root + c) (remaining Ls j)) 0) as [Hdone|Hmore].
  - exists c. split; [done|]. split; [lia|]. split; [|apply depth_after; nia].
    intros i l Hi El Hs. destruct (Z.le_gt_cases l (root + c)) as [|Hgt]; [done|].
    pose proof (long_after Ls Hwf j (root + c + 1) i l Hi El ltac:(lia)). nia.
  - destruct (IH (c + 1) ((left - how_many (root + c) (remaining Ls j)) * 2)) as (c' & E & Hc' & Hd).
    + rewrite Z.add_assoc. pose proof (weight_half (root + c) ltac:(lia)). nia.
    + lia.
    + lia.
    + lia.
    + exists c'. split; [done|]. split; [lia|done].
Qed.

(** ** Starting a sub-table *)

Lemma low_slot v : rev15 v `mod` 2 ^ root = rev (Z.to_nat root) (v / weight root).
Proof.
  replace (weight root) with (2 ^ (Z.of_nat 15 - Z.of_nat (Z.to_nat root))) by (unfold weight; f_equal; lia).
  replace root with (Z.of_nat (Z.to_nat root)) at 1 by lia. apply rev_low. lia.
Qed.

(** Numbers with the same low [root] bits are in the interval of the same root entry. *)
Lemma same_slot h p :
  0 <= p < 32768 -> h `mod` 2 ^ root = rev15 p `mod` 2 ^ root -> rev15 h / weight root = p / weight root.
Proof.
  intros Hp E. pose proof (rev15_range h). set (r := Z.to_nat root).
  assert (Hw : weight root = 2 ^ (Z.of_nat 15 - Z.of_nat r)) by (unfold weight; f_equal; lia).
  pose proof low_slot as Hlow. fold r in Hlow.
  assert (Hh : h `mod` 2 ^ root = rev r (rev15 h / weight root)).
  { rewrite <- Hlow. unfold rev15. rewrite rev_rev, mod_mod_pow by lia. done. }
  rewrite Hh, Hlow in E. apply rev_inj in E; [done|..].
  all: split; [apply Z.div_pos; [lia|apply weight_pos; lia]|].
  all: apply Z.div_lt_upper_bound; [apply weight_pos; lia|].
  all: rewrite Hw, <- Z.pow_add_r by lia; replace (Z.of_nat 15 - Z.of_nat r + Z.of_nat r) with 15 by lia; lia.
Qed.

(** A full interval from [j0] on has at least [sp] codewords. *)
Lemma spaced_count j0 i cp :
  (j0 <= i <= length Ls)%nat -> 0 <= cp <= 15 - root ->
  (forall k l, (j0 <= k)%nat -> Ls !! k = Some l -> root + cp <= l) ->
  start Ls j0 + weight root <= start Ls i -> 2 ^ cp <= Z.of_nat i - Z.of_nat j0.
Proof.
  intros Hi Hcp Hall Hs. pose proof (fill_count Ls Hwf j0 i (root + cp) Hi Hall) as H.
  pose proof (pow_weight root cp ltac:(lia) ltac:(lia)) as Hp.
  pose proof (weight_pos (root + cp) ltac:(lia)). nia.
Qed.

Context (Hcomplete : total Ls = 32768 \/ max = root).
Definition room : Z := 2 ^ root + Z.of_nat (length Ls) + 2 ^ (max - root).
Context (N : nat) (Hroom : table + room <= Z.of_nat N) (Hsmall : room < 65536).
Context (Hspace : type = LENS -> room < ENOUGH - MAXD).

(** The space before a sub-table. *)
Lemma spaced_room next j l :
  spaced next j -> Ls !! j = Some l -> root < max -> (weight root | start Ls j) -> next - table <= 2 ^ root + Z.of_nat (length Ls).
Proof.
  intros (A & sp & -> & HA & Hsp) Hj Hl Hdiv.
  apply lookup_lt_Some in Hj as Hjn. destruct Hsp as [->|(cp & -> & Hcp & Hall)]; [lia|].
  enough (2 ^ cp <= Z.of_nat (length Ls) - Z.of_nat j) by lia.
  apply spaced_count; auto; [lia|].
  assert (Hn : start Ls (length Ls) = 32768) by (unfold start; rewrite firstn_all; destruct Hcomplete; [done|lia]).
  rewrite Hn. pose proof (start_lt Ls Hwf _ _ Hj). pose proof (weight_pos l).
  pose proof (length_range _ Hwf _ _ Hj).
  assert (Hd : (weight root | 32768 - start Ls j)).
  { apply Z.divide_sub_r; [|done]. exists (2 ^ root). unfold weight. rewrite <- Z.pow_add_r by lia.
    by replace (root + (15 - root)) with 15 by lia. }
  apply Z.divide_pos_le in Hd; lia.
Qed.

Lemma no_room_false used : used <= room -> no_room type used = false.
Proof.
  intros H. unfold no_room. destruct (bool_decide_reflect (type = LENS)) as [Et|]; [|done]. cbn [andb].
  specialize (Hspace Et). lia.
Qed.

Lemma low_bits_mod v : low_bits root v = v `mod` 2 ^ root.
Proof.
  unfold low_bits. apply land_mask_mod; [lia|]. rewrite Z.ones_equiv, shiftl_mul by lia. lia.
Qed.

(** No number seen so far looks at the root entry of a new sub-table. *)
Lemma new_slot i j l h :
  (i < j)%nat -> Ls !! j = Some l -> (weight root | start Ls j) -> matches Ls i h ->
  h `mod` 2 ^ root <> rev15 (start Ls j) `mod` 2 ^ root.
Proof.
  intros Hij Hj [q Hq] [_ Hm] E. pose proof (start_lt Ls Hwf _ _ Hj). pose proof (start_nonneg Ls j).
  pose proof (length_range _ Hwf _ _ Hj). pose proof (weight_pos l ltac:(lia)).
  pose proof (start_le Ls (S i) j ltac:(lia)). pose proof (weight_pos root ltac:(lia)).
  apply same_slot in E; [|lia]. rewrite Hq, Z.div_mul in E by lia.
  pose proof (Z.mul_div_le (rev15 h) (weight root)). nia.
Qed.

(** Writing the link to it keeps what the others see. *)
Lemma covered_link tab tab' next low i h this :
  (forall k, rd tab' k = if k =? table + low then this else rd tab k) ->
  0 <= low < 2 ^ root -> h `mod` 2 ^ root <> low -> covered tab next low i h -> covered tab' next low i h.
Proof.
  intros R Hlow Hne (l & El & H1 & H2). exists l. split; [done|]. rewrite R.
  destruct (Z.eqb_spec (table + h `mod` 2 ^ root) (table + low)); [lia|]. split; [done|].
  intros Hl. destruct (H2 Hl) as (off & c & E1 & Hc & Hoff & Hb & E2). exists off, c.
  repeat (split; [done|]). rewrite R. pose proof (Z.mod_pos_bound (h / 2 ^ root) (2 ^ c)).
  destruct (Z.eqb_spec (off + (h / 2 ^ root) `mod` 2 ^ c) (table + low)); [lia|done].
Qed.

Lemma start_table j s :
  entered N j s -> Ls !! j = Some (f_len s) -> root < f_len s -> (weight root | start Ls j) ->
  (f_drop s = 0 \/ f_drop s = root) -> f_used s = f_next s - table + 2 ^ f_curr s -> 0 <= f_curr s ->
  table <= f_next s -> table + 2 ^ root <= f_next s + 2 ^ f_curr s -> spaced (f_next s + 2 ^ f_curr s) j ->
  rev15 (start Ls j) `mod` 2 ^ root <> f_low s ->
  (forall i h, (i < j)%nat -> matches Ls i h ->
     covered (f_codes s) (f_next s + 2 ^ f_curr s) (rev15 (start Ls j) `mod` 2 ^ root) i h) ->
  exists s', new_subtable type max root table s = Some (inl s') /\ inv N j s'.
Proof.
  intros [HN Hs Hh [Hc16 Hcount] _ Hfr] Hj Hl Hdiv Hd Hu Hc0 Hn0 Hn Hsp Hne Hcov.
  pose proof (max_length _ _ Hj) as Hlm. set (low := rev15 (start Ls j) `mod` 2 ^ root) in *.
  assert (Hlow : 0 <= low < 2 ^ root) by (apply Z.mod_pos_bound; lia).
  unfold new_subtable. rewrite low_bits_mod, Hh. fold low.
  destruct (Z.ltb_spec root (f_len s)); [|lia]. destruct (Z.eqb_spec low (f_low s)); [done|]. cbn [andb negb].
  replace (if f_drop s =? 0 then root else f_drop s) with root by (destruct Hd as [->| ->]; [done|split_bool; lia]).
  rewrite !shiftl_mul, !Z.mul_1_l by lia.
  destruct (curr_loop_ok j 16 (f_len s - root) (2 ^ (f_len s - root)) (f_count s)) as (c & -> & Hc & Hdep); auto; try lia.
  { replace (root + (f_len s - root)) with (f_len s) by lia. rewrite below_none.
    - replace (f_len s) with (root + (f_len s - root)) at 2 by lia. rewrite pow_weight; lia.
    - apply Forall_lookup. intros k x Hk. unfold remaining in Hk. rewrite lookup_drop in Hk.
      apply (sorted_le j (j + k)); auto. lia. }
  cbn [mbind option_bind]. pose proof (spaced_room _ _ _ Hsp Hj ltac:(lia) Hdiv) as Hroom2.
  assert (2 ^ c <= 2 ^ (max - root)) by (apply Z.pow_le_mono_r; lia).
  rewrite shiftl_mul, Z.mul_1_l by lia. rewrite no_room_false by (unfold room; lia).
  destruct (wr_ok (f_codes s) (table + low)
    (mkCode (u8 c) (u8 root) (u16 (f_next s + 2 ^ f_curr s - table)))) as (tab & -> & Lt & R).
  { unfold room in Hroom. lia. }
  cbn [mbind option_bind]. eexists. split; [done|].
  rewrite u16_id, !u8_id in R by (unfold is_u16, is_u8, room in *; lia).
  split; [|split; [done|right]].
  - split; cbn [f_codes f_sym f_huff f_count f_next f_low]; auto; [lia|..].
    + intros i h Hi Hm. eapply covered_link; eauto. eapply new_slot; eauto.
    + intros a Ha. rewrite R. split_bool; [lia|by apply Hfr].
  - split; cbn [f_len f_drop f_low f_codes f_curr f_next f_used]; auto; try lia.
    + rewrite R, Z.eqb_refl. done.
    + pose proof (weight_pos root ltac:(lia)). destruct Hdep. exists j. repeat split; auto; lia.
Qed.

(** ** One round of the loop *)

(** The variables after a symbol has been entered, with the length of the next. *)
Definition advance (s : fillst) (tab : list code) (count : list Z) (j : nat) (l : Z) : fillst :=
  mkFill tab count (rev15 (start Ls (S j))) (f_sym s + 1) l (f_next s) (f_curr s) (f_drop s) (f_low s) (f_used s).

Lemma covered_more tab next low low' next' i h :
  (h `mod` 2 ^ root = low -> h `mod` 2 ^ root <> low' -> forall off c,
     rd tab (table + h `mod` 2 ^ root) = Some (mkCode c root (off - table)) -> off + 2 ^ c <= next') ->
  next <= next' -> covered tab next low i h -> covered tab next' low' i h.
Proof.
  intros Hsame Hn (l & El & H1 & H2). exists l. split; [done|]. split; [done|]. intros Hl.
  destruct (H2 Hl) as (off & c & E1 & Hc & Hoff & Hb & E2). exists off, c. repeat (split; [done|]).
  split; [|done]. intros Hne. destruct (decide (h `mod` 2 ^ root = low)) as [E|E].
  - by apply Hsame.
  - specialize (Hb E). lia.
Qed.

Lemma entered_advance j s tab count l :
  entered N j s -> all_entered N j s tab -> length count = 16%nat ->
  (forall l, 1 <= l <= 15 -> rd count l = Some (how_many l (remaining Ls (S j)))) ->
  entered N (S j) (advance s tab count j l).
Proof.
  intros He (HN & Hcov & _ & Hfr) H16 Hcount. split; cbn [advance f_codes f_sym f_huff f_count f_next f_low]; auto.
  - rewrite (en_sym _ _ _ He). lia.
  - intros i h Hi. apply Hcov. lia.
Qed.

Lemma next_from_root j s tab count l :
  entered N j s -> Ls !! j = Some (f_len s) -> at_root j s -> all_entered N j s tab ->
  Ls !! S j = Some l -> entered N (S j) (advance s tab count j l) ->
  exists s', new_subtable type max root table (advance s tab count j l) = Some (inl s') /\ inv N (S j) s'.
Proof.
  intros He Hj [Hlr Hd Hn Hc Hlow Hu] Ha Hl He'. destruct (Z.le_gt_cases l root) as [Hle|Hgt].
  - exists (advance s tab count j l). split.
    + unfold new_subtable. cbn [advance f_len]. destruct (Z.ltb_spec root l); [lia|done].
    + split; [done|]. split; [done|]. left. by split.
  - pose proof (length_range _ Hwf _ _ Hj). assert (Hdiv : (weight root | start Ls (S j))).
    { rewrite (start_S _ _ _ Hj). apply Z.divide_add_r; [|apply weight_divides; lia].
      eapply Z.divide_trans; [|by apply start_divides]. apply weight_divides. lia. }
    pose proof (Z.mod_pos_bound (rev15 (start Ls (S j))) (2 ^ root)).
    assert (2 ^ root <= 2 ^ 15) by (apply Z.pow_le_mono_r; lia).
    apply start_table; auto; cbn [advance f_len f_drop f_next f_curr f_used f_low f_codes];
      rewrite ?Hd, ?Hn, ?Hc, ?Hu, ?Hlow; auto; try lia.
    + exists 0, 0. split; [lia|]. split; [lia|]. by left.
    + change (u32 (-1)) with 4294967295. lia.
    + intros i h Hi Hm. destruct Ha as (_ & Hcov & _). destruct (Hcov i h ltac:(lia) Hm) as (li & Eli & Hli & _).
      exists li. split; [done|]. split; [done|]. pose proof (sorted_le i j li (f_len s) ltac:(lia) Eli Hj). lia.
Qed.

(** A codeword does not reach beyond the interval of its root entry. *)
Lemma inside_slot j l b :
  Ls !! j = Some l -> root <= l -> (weight root | b) -> start Ls j < b + weight root ->
  start Ls (S j) <= b + weight root.
Proof.
  intros Hj Hl Hb Hs. rewrite (start_S _ _ _ Hj). pose proof (length_range _ Hwf _ _ Hj).
  assert (Hd : (weight l | b + weight root - start Ls j)).
  { apply Z.divide_sub_r; [|by apply start_divides].
    eapply Z.divide_trans; [apply (weight_divides root); lia|]. apply Z.divide_add_r; [done|apply Z.divide_refl]. }
  apply Z.divide_pos_le in Hd; lia.
Qed.

Lemma next_from_sub j s tab count l :
  entered N j s -> Ls !! j = Some (f_len s) -> at_sub j s -> all_entered N j s tab ->
  Ls !! S j = Some l -> entered N (S j) (advance s tab count j l) ->
  exists s', new_subtable type max root table (advance s tab count j l) = Some (inl s') /\ inv N (S j) s'.
Proof.
  intros He Hj Hs (_ & Hcov & Hlink & _) Hl He'. pose proof (sorted_le j (S j) _ _ ltac:(lia) Hj Hl) as Hmono.
  destruct Hs as [Hlr Hd Hlow Hlk Hc Hu Hn (j0 & Hj0 & Hst & Hdiv & Hsp & Hfit & Hafter)].
  specialize (Hlink Hlr). rewrite Hlk in Hlink. pose proof (start_lt Ls Hwf _ _ Hl). pose proof (start_nonneg Ls (S j)).
  pose proof (length_range _ Hwf _ _ Hl). pose proof (weight_pos l ltac:(lia)). pose proof (weight_pos root ltac:(lia)) as Hw.
  pose proof (start_le Ls j (S j) ltac:(lia)). pose proof (start_nonneg Ls j). destruct Hdiv as [q Hq].
  assert (Ej : start Ls j / weight root = q) by (symmetry; apply (Z.div_unique_pos _ _ _ (start Ls j - q * weight root)); lia).
  destruct (decide (rev15 (start Ls (S j)) `mod` 2 ^ root = f_low s)) as [Esame|Ediff].
  - exists (advance s tab count j l). split.
    { unfold new_subtable. rewrite low_bits_mod. cbn [advance f_len f_huff f_low]. rewrite Esame, Z.eqb_refl, andb_false_r. done. }
    split; [done|]. split; [done|]. right. rewrite Hlow in Esame. apply same_slot in Esame; [|lia].
    rewrite rev15_rev15, Ej in Esame by lia.
    split; cbn [advance f_len f_drop f_low f_codes f_curr f_next f_used]; auto; try lia.
    + rewrite Hlow, !low_slot, Esame, Ej. done.
    + exists j0. split; [lia|]. split; [|split; [by exists q|done]].
      pose proof (Z.div_mod (start Ls (S j)) (weight root)). pose proof (Z.mod_pos_bound (start Ls (S j)) (weight root)). nia.
  - assert (Enext : start Ls (S j) = start Ls j0 + weight root).
    { pose proof (inside_slot j (f_len s) (start Ls j0) Hj ltac:(lia) ltac:(by exists q) ltac:(lia)) as Hin.
      destruct (Z.eq_dec (start Ls (S j)) (start Ls j0 + weight root)) as [|Hne]; [done|]. exfalso. apply Ediff.
      rewrite Hlow, !low_slot, Ej. f_equal. symmetry. apply (Z.div_unique_pos _ _ _ (start Ls (S j) - q * weight root)); lia. }
    apply start_table; auto; cbn [advance f_len f_drop f_next f_curr f_used f_low f_codes]; try lia.
    + exists (q + 1). lia.
    + destruct Hsp as (A & sp & E & HA & Hcp). exists (A + sp), (2 ^ f_curr s). split; [lia|].
      apply lookup_lt_Some in Hl as Hlt. split.
      * destruct Hcp as [->|(cp & -> & Hcp & Hall)]; [lia|].
        pose proof (spaced_count j0 (S j) cp ltac:(lia) Hcp Hall ltac:(lia)). lia.
      * right. exists (f_curr s). split; [done|]. split; [lia|]. intros i x Hi Hx. apply (Hafter i x); auto; [lia|].
        rewrite <- Enext. apply start_le. lia.
    + intros i h Hi Hm. eapply covered_more; [..|apply Hcov; [lia|done]]; [|lia].
      intros Eh _ off c Hrd. rewrite Eh, Hlink in Hrd. injection Hrd as <- Hoff. lia.
Qed.

(** The space taken when the current table is complete. *)
Lemma used_room j s : inv N j s -> f_used s <= room /\ f_next s + 2 ^ f_curr s <= Z.of_nat N.
Proof.
  intros (_ & Hj & [[_ _ Hn Hc _ Hu]|[Hlr _ _ _ Hc Hu Hn (j0 & Hj0 & _ & Hdiv & Hsp & _)]]).
  - rewrite Hn, Hc, Hu. unfold room in *. lia.
  - apply lookup_lt_Some in Hj as Hlt. pose proof (max_length _ _ Hj).
    assert (is_Some (Ls !! j0)) as [l0 Hl0] by (apply lookup_lt_is_Some; lia).
    pose proof (spaced_room _ _ _ Hsp Hl0 ltac:(lia) Hdiv).
    assert (2 ^ f_curr s <= 2 ^ (max - root)) by (apply Z.pow_le_mono_r; lia). unfold room in *. lia.
Qed.

Lemma enter_ok j s : inv N j s -> exists tab, enter_symbol type work s = Some tab /\ all_entered N j s tab.
Proof.
  intros Hi. destruct (used_room _ _ Hi) as [_ Hn]. destruct Hi as (He & Hj & [Hr|Hs]).
  - apply enter_root; auto. destruct Hr as [_ _ En Ec _ _]. rewrite En, Ec in Hn. lia.
  - by apply enter_sub.
Qed.

(** The tables end where the current one does. *)
Lemma covered_end j s tab i h :
  inv N j s -> all_entered N j s tab -> (i <= j)%nat -> matches Ls i h -> covered tab (table + f_used s) (-1) i h.
Proof.
  intros (_ & Hj & Hpos) (_ & Hcov & Hlink & _) Hi Hm. destruct (Hcov i h Hi Hm) as (l & El & H1 & H2).
  destruct Hpos as [Hr|[Hlr _ _ Hlk _ Hu Hn _]].
  - exists l. split; [done|]. split; [done|]. pose proof (sorted_le i j _ _ Hi El Hj). pose proof (ar_len _ _ Hr). lia.
  - eapply covered_more; [..|apply Hcov; eauto]; [|lia]. intros Eh _ off c E.
    rewrite Eh, Hlink, Hlk in E by done. injection E as <- E. lia.
Qed.

(** The state in which the loop ends. *)
Definition finished (s : fillst) : Prop :=
  entered N (length Ls) s /\ f_len s = max /\ f_used s <= room /\ 2 ^ root <= f_used s /\
  (forall i h, (i < length Ls)%nat -> matches Ls i h -> covered (f_codes s) (table + f_used s) (-1) i h) /\
  (max = root -> f_drop s = 0 /\ f_next s = table).

Lemma count_after j l count :
  Ls !! j = Some l -> length count = 16%nat ->
  (forall l, 1 <= l <= 15 -> rd count l = Some (how_many l (remaining Ls j))) ->
  exists c count', rd count l = Some c /\ u16 (c - 1) = how_many l (remaining Ls (S j)) /\
    wr count l (u16 (c - 1)) = Some count' /\ length count' = 16%nat /\
    forall l, 1 <= l <= 15 -> rd count' l = Some (how_many l (remaining Ls (S j))).
Proof.
  intros Hj H16 Hc. pose proof (length_range _ Hwf _ _ Hj) as Hl. exists (how_many l (remaining Ls j)).
  pose proof (remaining_cons _ _ _ Hj) as Hrem.
  assert (Hu : u16 (how_many l (remaining Ls j) - 1) = how_many l (remaining Ls (S j))).
  { rewrite Hrem, how_many_cons, Z.eqb_refl. pose proof (how_many_nonneg l (remaining Ls (S j))).
    pose proof (how_many_le l (remaining Ls (S j))) as Hle. unfold remaining in Hle at 2. rewrite length_drop in Hle.
    rewrite u16_id; [lia|]. unfold is_u16, room in *. lia. }
  rewrite Hu. destruct (wr_ok count l (how_many l (remaining Ls (S j)))) as (count' & E & L & R); [lia|].
  exists count'. split; [by apply Hc|]. split; [done|]. split; [done|]. split; [lia|]. intros l' Hl'. rewrite R.
  destruct (Z.eqb_spec l' l) as [->|Hne]; [done|]. rewrite Hc, Hrem, how_many_cons by done. f_equal. split_bool; lia.
Qed.

Lemma last_code j l :
  Ls !! j = Some l -> (how_many l (remaining Ls (S j)) =? 0) && (l =? max) = (S j =? length Ls)%nat.
Proof.
  intros Hj. apply lookup_lt_Some in Hj as Hlt. destruct (Nat.eqb_spec (S j) (length Ls)) as [E|Hne].
  - unfold remaining. rewrite E, drop_all. cbn. apply Z.eqb_eq.
    replace (length Ls - 1)%nat with j in Hlast by lia. congruence.
  - destruct (Z.eqb_spec l max) as [->|]; [|apply andb_false_r]. rewrite andb_true_r. apply Z.eqb_neq.
    intros E. assert (Hin : max ∈ remaining Ls (S j)).
    { apply list_elem_of_lookup. exists (length Ls - 1 - S j)%nat. unfold remaining. rewrite lookup_drop.
      replace (S j + (length Ls - 1 - S j))%nat with (length Ls - 1)%nat by lia. done. }
    unfold how_many in E. assert (max ∈ filter (eq max) (remaining Ls (S j))) as Hf by (by apply list_elem_of_filter).
    destruct (filter (eq max) (remaining Ls (S j))); [by apply not_elem_of_nil in Hf|done].
Qed.

Lemma more_of_length j l l' :
  Ls !! S j = Some l' -> how_many l (remaining Ls (S j)) <> 0 -> l' <= l.
Proof.
  intros Hl' Hne. unfold how_many in Hne.
  destruct (filter (eq l) (remaining Ls (S j))) as [|x xs] eqn:E; [done|].
  assert (Hx : x ∈ filter (eq l) (remaining Ls (S j))) by (rewrite E; apply list_elem_of_here).
  apply list_elem_of_filter in Hx as [<- Hx]. apply list_elem_of_lookup in Hx as [k Hk].
  unfold remaining in Hk. rewrite lookup_drop in Hk. apply (sorted_le (S j) (S j + k)); auto. lia.
Qed.

(** ** The whole loop *)

Lemma codes_loop_ok fuel j s :
  inv N j s -> (length Ls - j <= fuel)%nat ->
  exists s', codes_loop type lens work max root table fuel s = Some (inl s') /\ finished s'.
Proof.
  revert j s. induction fuel as [|fuel IH]; intros j s Hi Hf;
    (assert (Hj : Ls !! j = Some (f_len s)) by apply Hi); apply lookup_lt_Some in Hj as Hlt; [lia|].
  pose proof Hi as (He & _ & Hpos). destruct (enter_ok _ _ Hi) as (tab & Et & Ha).
  pose proof (length_range _ Hwf _ _ Hj) as Hl.
  destruct (count_after j (f_len s) (f_count s) Hj) as (c & count' & Hc & Hu & Hw & H16 & Hcount);
    [apply He|apply (en_count _ _ _ He)|].
  cbn [codes_loop]. rewrite Et. cbn [mbind option_bind].
  rewrite (en_huff _ _ _ He), next_huff_rev by (auto; apply start_divides; auto). cbn [mbind option_bind].
  rewrite Hc. cbn [mbind option_bind]. rewrite Hw. cbn [mbind option_bind].
  fold (weight (f_len s)). rewrite <- (start_S _ _ _ Hj). rewrite Hu, last_code by done.
  destruct (Nat.eqb_spec (S j) (length Ls)) as [Elast|Hnl].
  - exists (advance s tab count' j (f_len s)). split; [done|].
    pose proof (entered_advance j s tab count' (f_len s) He Ha H16 Hcount) as He'. rewrite Elast in He'.
    destruct (used_room _ _ Hi) as [Hused _]. cbn [advance f_len f_used f_drop f_next].
    pose proof Hlast as Hlast'. replace (length Ls - 1)%nat with j in Hlast' by lia.
    split; [done|]. split; [cbn; congruence|]. split; [done|]. split.
    + destruct Hpos as [Hr|Hs]; cbn; [rewrite (ar_used _ _ Hr); lia|rewrite (as_used _ _ Hs)].
      pose proof (as_next _ _ Hs). lia.
    + split; [intros i h Hin Hm; apply (covered_end j s); auto; lia|]. intros Em. destruct Hpos as [Hr|Hs]; [split; apply Hr|].
      pose proof (as_len _ _ Hs). pose proof (max_length _ _ Hj). lia.
  - assert (is_Some (Ls !! S j)) as [l' Hl'] by (apply lookup_lt_is_Some; lia).
    assert (is_Some (syms !! S j)) as [w Hw'] by (apply lookup_lt_is_Some; rewrite Hsyms; lia).
    assert (Elen : (if how_many (f_len s) (remaining Ls (S j)) =? 0 then w ← rd work (f_sym s + 1); rd lens w
                    else Some (f_len s)) = Some l').
    { rewrite (en_sym _ _ _ He). replace (Z.of_nat j + 1) with (Z.of_nat (S j)) by lia.
      rewrite (Hwork _ _ Hw'). cbn [mbind option_bind]. rewrite (Hlens _ _ _ Hw' Hl').
      destruct (Z.eqb_spec (how_many (f_len s) (remaining Ls (S j))) 0) as [|Hne]; [done|]. f_equal.
      apply Z.le_antisymm; [apply (sorted_le j (S j)); auto|by apply (more_of_length j)]. }
    rewrite Elen. cbn [mbind option_bind].
    pose proof (entered_advance j s tab count' l' He Ha H16 Hcount) as He'.
    assert (exists s', new_subtable type max root table (advance s tab count' j l') = Some (inl s') /\ inv N (S j) s')
      as (s' & Es & Hi') by (destruct Hpos; [eapply next_from_root|eapply next_from_sub]; eauto).
    fold (advance s tab count' j l'). rewrite Es. cbn [mbind option_bind]. apply (IH (S j)); [done|lia].
Qed.

Lemma fill_inv_init count min :
  length array = N -> length count = 16%nat ->
  (forall l, 1 <= l <= 15 -> rd count l = Some (how_many l Ls)) -> Ls !! 0%nat = Some min -> min <= root ->
  inv N 0 (mkFill array count 0 0 min table root 0 (u32 (-1)) (2 ^ root)).
Proof.
  intros HN H16 Hc Hmin Hle. split; [|split; [done|left; by split]].
  split; cbn [f_codes f_sym f_huff f_count f_next f_low]; auto. intros i h Hi. lia.
Qed.

(** ** The rest of the table *)

(** What a number that starts with no codeword finds. *)
Definition invalid : code := mkCode 64 1 0.

Definition tables (tab : list code) (used : Z) : Prop :=
  length tab = N /\ 2 ^ root <= used <= room /\
  (forall i h, (i < length Ls)%nat -> matches Ls i h -> covered tab (table + used) (-1) i h) /\
  (forall h, total Ls <= rev15 h -> rd tab (table + h `mod` 2 ^ root) = Some invalid) /\
  (forall a, a < table -> rd tab a = rd array a).

Lemma rest_complete s fuel :
  total Ls = 32768 -> finished s ->
  rest_loop root table fuel s = Some (f_codes s) /\ tables (f_codes s) (f_used s).
Proof.
  intros Ht ([HN _ Hh _ _ Hfr] & _ & Hu & Hu2 & Hcov & _). split.
  - unfold start in Hh. rewrite firstn_all, Ht in Hh. change (rev15 32768) with 0 in Hh.
    destruct fuel; cbn [rest_loop]; rewrite Hh; done.
  - split; [done|]. split; [done|]. split; [done|]. split; [|done].
    intros h Hh'. pose proof (rev15_range h). lia.
Qed.

Lemma rest_single s fuel :
  total Ls = 16384 -> max = 1 -> root = 1 -> (2 <= fuel)%nat -> finished s ->
  exists tab, rest_loop root table fuel s = Some tab /\ tables tab (f_used s).
Proof.
  intros Ht Em Er Hf ([HN _ Hh _ _ Hfr] & Hl & Hu & Hu2 & Hcov & Hroot1). destruct (Hroot1 ltac:(lia)) as [Hd Hn].
  unfold start in Hh. rewrite firstn_all, Ht in Hh. change (rev15 16384) with 1 in Hh.
  destruct fuel as [|[|fuel]]; [lia..|]. cbn [rest_loop]. rewrite Hh, Hd, Hn, Hl, Em. cbn [Z.eqb negb andb].
  destruct (wr_ok (f_codes s) (table + Z.shiftr 1 0) invalid) as (tab & E & L & R).
  { change (Z.shiftr 1 0) with 1. rewrite HN. unfold room in *. rewrite Er in *. lia. }
  change (u8 (1 - 0)) with 1. fold invalid. rewrite E. cbn [mbind option_bind].
  change (next_huff 1 1) with (Some 0). cbn [mbind option_bind f_huff Z.eqb f_codes]. exists tab. split; [done|].
  change (Z.shiftr 1 0) with 1 in R. split; [lia|]. split; [done|]. split; [|split].
  - intros i h Hi Hm. destruct (Hcov i h Hi Hm) as (l & El & H1 & _). exists l. split; [done|].
    pose proof (max_length _ _ El). pose proof (length_range _ Hwf _ _ El). split; [|lia]. intros Hlr.
    rewrite R, <- H1 by done. rewrite Er. split_bool; [|done]. exfalso.
    assert (Hw : start Ls (S i) <= 16384) by (rewrite <- Ht; apply start_bound). destruct Hm as [_ Hm].
    assert (16384 <= rev15 h < 16384 + 2 ^ (15 - 1)) as Hc; [|lia].
    apply (rev15_match h 16384 1); [lia|by exists 1|lia|]. change (rev15 16384) with 1. lia.
  - intros h Hh'. pose proof (rev15_range h). rewrite R.
    assert (h `mod` 2 ^ 1 = rev15 16384) as Em2.
    { apply rev15_match; [lia|by exists 1|lia|]. change (2 ^ (15 - 1)) with 16384. lia. }
    rewrite Er, Em2. change (rev15 16384) with 1. by rewrite Z.eqb_refl.
  - intros a Ha. rewrite R. split_bool; [lia|by apply Hfr].
Qed.
End fill.
