(* ===== verification/InfTreesSort.v ===== *)
(** * Counting and sorting the lengths of a code

    The first part of [zlib_inflate_table]: the counts of the lengths, their bounds, the
    check for an over-subscribed or incomplete set, and the counting sort that puts the
    symbols in the order of their codewords. *)

From Stdlib Require Import ZArith Lia Bool.
From stdpp Require Import base numbers list option.
From S2P Require Import Prelude InfTrees Canon InfTreesProofs.
Open Scope Z_scope.

Lemma rd_take {A} (l : list A) n i : Z.of_nat i < Z.of_nat n -> rd l (Z.of_nat i) = take n l !! i.
Proof. intros H. unfold rd. destruct (Z.leb_spec 0 (Z.of_nat i)); [|lia]. rewrite Nat2Z.id, lookup_take_lt by lia. done. Qed.
Lemma rd_replicate {A} n (v : A) i : 0 <= i < Z.of_nat n -> rd (replicate n v) i = Some v.
Proof. intros H. unfold rd. destruct (Z.leb_spec 0 i); [|lia]. apply lookup_replicate. split; [done|lia]. Qed.
Lemma how_many_snoc l a x : how_many l (a ++ [x]) = how_many l a + if l =? x then 1 else 0.
Proof. rewrite how_many_app, how_many_cons. change (how_many l []) with 0. lia. Qed.

Lemma total_replicate k (l : Z) : total (replicate k l) = Z.of_nat k * weight l.
Proof. induction k as [|k IH]; [done|]. cbn [replicate total]. lia. Qed.
Lemma how_many_replicate l k x : how_many l (replicate k x) = if l =? x then Z.of_nat k else 0.
Proof. induction k as [|k IH]; [cbn; by split_bool|]. cbn [replicate]. rewrite how_many_cons, IH. split_bool; lia. Qed.

Section sort.
Context (lens : list Z) (n : nat).
Context (Hn : (n <= length lens)%nat) (Hbig : Z.of_nat n < 65536).
Context (Hrange : Forall (fun l => 0 <= l <= 15) (take n lens)).

(** The lengths that count. *)
Definition ls : list Z := take n lens.

Lemma len_at i : (i < n)%nat -> exists l, lens !! i = Some l /\ rd lens (Z.of_nat i) = Some l /\ 0 <= l <= 15 /\
  take (S i) lens = take i lens ++ [l].
Proof.
  intros Hi. assert (is_Some (lens !! i)) as [l Hl] by (apply lookup_lt_is_Some; lia).
  exists l. split; [done|]. split; [unfold rd; by rewrite (proj2 (Z.leb_le 0 _)), Nat2Z.id by lia|].
  split; [|by apply take_S_r]. apply (proj1 (Forall_lookup _ _) Hrange i). rewrite lookup_take_lt by lia. exact Hl.
Qed.
Lemma how_many_take l i : 0 <= how_many l (take i lens) /\ ((i <= n)%nat -> how_many l (take i lens) <= how_many l ls).
Proof.
  split; [apply how_many_nonneg|]. intros Hi. unfold ls. rewrite <- (take_drop i (take n lens)), take_take.
  replace (i `min` n)%nat with i by lia. rewrite how_many_app. pose proof (how_many_nonneg l (drop i (take n lens))). lia.
Qed.
Lemma how_many_ls l : 0 <= how_many l ls < 65536.
Proof.
  split; [apply how_many_nonneg|]. pose proof (how_many_le l ls) as H. unfold ls in H at 2. rewrite length_take in H. lia.
Qed.

(** ** Counting *)

Lemma count_loop_from k i count :
  (i + k = n)%nat -> length count = 16%nat ->
  (forall l, 0 <= l <= 15 -> rd count l = Some (how_many l (take i lens))) ->
  exists count', count_loop lens k (Z.of_nat i) count = Some count' /\ length count' = 16%nat /\
    forall l, 0 <= l <= 15 -> rd count' l = Some (how_many l ls).
Proof.
  revert i count. induction k as [|k IH]; intros i count Hi H16 Hc.
  { exists count. split; [done|]. split; [done|]. unfold ls. by replace n with i by lia. }
  cbn [count_loop]. destruct (len_at i) as (x & _ & Ex & Hx & Et); [lia|]. rewrite Ex. cbn [mbind option_bind].
  rewrite Hc by done. cbn [mbind option_bind]. set (c := how_many x (take i lens)).
  assert (Hc1 : how_many x (take (S i) lens) = c + 1) by (rewrite Et, how_many_snoc, Z.eqb_refl; done).
  pose proof (how_many_take x (S i)) as [_ Hle]. specialize (Hle ltac:(lia)). pose proof (how_many_ls x).
  assert (0 <= c) by apply how_many_nonneg. rewrite u16_id by (unfold is_u16; lia).
  destruct (wr_ok count x (c + 1)) as (count1 & E & L & R); [lia|]. rewrite E. cbn [mbind option_bind].
  replace (Z.of_nat i + 1) with (Z.of_nat (S i)) by lia. apply (IH (S i)); [lia|lia|].
  intros l Hl. rewrite R. destruct (Z.eqb_spec l x) as [->|Hne]; [by rewrite Hc1|].
  rewrite Hc, Et, how_many_snoc by done. f_equal. split_bool; lia.
Qed.
Lemma count_ok :
  exists count, count_loop lens n 0 (replicate 16 0) = Some count /\ length count = 16%nat /\
    forall l, 0 <= l <= 15 -> rd count l = Some (how_many l ls).
Proof. apply (count_loop_from n 0); [lia|done|]. intros l Hl. apply rd_replicate. lia. Qed.

Context (count : list Z) (Hcount : forall l, 0 <= l <= 15 -> rd count l = Some (how_many l ls)).

Lemma find_max_ok m : (m <= 15)%nat ->
  exists r, find_max m count = Some r /\ 0 <= r <= Z.of_nat m /\ (r <> 0 -> how_many r ls <> 0) /\
    forall l, r < l <= Z.of_nat m -> how_many l ls = 0.
Proof.
  induction m as [|m IH]; intros Hm; [exists 0; repeat split; [lia|lia|done|intros; lia]|]. cbn [find_max].
  rewrite Hcount by lia. cbn [mbind option_bind]. destruct (Z.eqb_spec (how_many (Z.of_nat (S m)) ls) 0) as [E|E].
  - destruct IH as (r & Er & Hr & H1 & H2); [lia|]. exists r. split; [done|]. split; [lia|]. split; [done|].
    intros l Hl. destruct (Z.eq_dec l (Z.of_nat (S m))) as [->|]; [done|]. apply H2. lia.
  - exists (Z.of_nat (S m)). split; [done|]. split; [lia|]. split; [done|]. lia.
Qed.
Lemma find_min_ok fuel min : 1 <= min -> min + Z.of_nat fuel = 16 ->
  exists r, find_min fuel min count = Some r /\ min <= r <= 16 /\ (r <= 15 -> how_many r ls <> 0) /\
    forall l, min <= l < r -> how_many l ls = 0.
Proof.
  revert min. induction fuel as [|fuel IH]; intros min H1 Hf; [exists min; repeat split; intros; lia|]. cbn [find_min].
  rewrite Hcount by lia. cbn [mbind option_bind]. destruct (Z.eqb_spec (how_many min ls) 0) as [E|E].
  - destruct (IH (min + 1)) as (r & Er & Hr & H2 & H3); [lia..|]. exists r. split; [done|]. split; [lia|]. split; [done|].
    intros l Hl. destruct (Z.eq_dec l min) as [->|]; [done|]. apply H3. lia.
  - exists min. split; [done|]. split; [lia|]. split; [done|]. lia.
Qed.

(** ** The check of the lengths *)

(** The lengths of the symbols that occur. *)
Definition used_lens : list Z := filter (fun l => 0 < l) ls.

Lemma how_many_used l : 0 < l -> how_many l used_lens = how_many l ls.
Proof.
  intros Hl. unfold how_many, used_lens. f_equal. rewrite list_filter_filter. f_equal. apply list_filter_iff.
  intros x. lia.
Qed.
Lemma below_1 : below 1 used_lens = 0.
Proof. apply below_none. apply list.Forall_forall. intros x Hx. apply list_elem_of_filter in Hx. lia. Qed.
Lemma used_range : Forall (fun l => 1 <= l <= 15) used_lens.
Proof.
  apply list.Forall_forall. intros x Hx. apply list_elem_of_filter in Hx as [H1 Hx]. unfold ls in Hx.
  apply (proj1 (list.Forall_forall _ _) Hrange) in Hx. lia.
Qed.
Lemma below_16 : below 16 used_lens = total used_lens.
Proof. apply below_all. eapply Forall_impl; [|apply used_range]. intros x Hx. simpl in Hx. lia. Qed.

Lemma left_loop_ok fuel len left :
  1 <= len -> len + Z.of_nat fuel = 16 -> 0 <= left -> left * weight (len - 1) = 32768 - below len used_lens ->
  exists r, left_loop fuel len left count = Some r /\
    ((r < 0 /\ 32768 < total used_lens) \/ (0 <= r /\ r = 32768 - total used_lens)).
Proof.
  revert len left. induction fuel as [|fuel IH]; intros len left H1 Hf H0 Hleft.
  { exists left. split; [done|]. right. split; [done|]. replace len with 16 in Hleft by lia.
    change (weight (16 - 1)) with 1 in Hleft. rewrite below_16 in Hleft. lia. }
  cbn [left_loop]. rewrite Hcount by lia. cbn [mbind option_bind].
  pose proof (below_succ len used_lens) as Hb. rewrite how_many_used in Hb by lia.
  pose proof (weight_half (len - 1) ltac:(lia)) as Hw. replace (len - 1 + 1) with len in Hw by lia.
  pose proof (weight_pos len ltac:(lia)).
  destruct (Z.ltb_spec (left * 2 - how_many len ls) 0) as [Hneg|Hpos].
  - eexists. split; [done|]. left. split; [done|]. pose proof (below_le_total (len + 1) used_lens). nia.
  - apply (IH (len + 1)); [lia..|]. replace (len + 1 - 1) with len by lia. nia.
Qed.
Lemma left_ok :
  exists r, left_loop 15 1 1 count = Some r /\
    ((r < 0 /\ 32768 < total used_lens) \/ (0 <= r /\ r = 32768 - total used_lens)).
Proof. apply left_loop_ok; try lia. rewrite below_1. done. Qed.

(** ** The order of the symbols *)

(** How many symbols have shorter codewords. *)
Fixpoint first (l : nat) : Z :=
  match l with O => 0 | S k => first k + match k with O => 0 | _ => how_many (Z.of_nat k) ls end end.
(** The symbols below [m] of a length, and all symbols of lengths below [l] in order. *)
Definition of_length (l : Z) (m : nat) : list nat := filter (fun s => lens !! s = Some l) (seq 0 m).
Fixpoint ordered (l : nat) : list nat :=
  match l with O => [] | S k => ordered k ++ match k with O => [] | _ => of_length (Z.of_nat k) n end end.

Lemma first_mono a b : (a <= b)%nat -> first a <= first b.
Proof.
  induction 1 as [|b H IH]; [done|]. cbn [first]. destruct b; [lia|].
  pose proof (how_many_nonneg (Z.of_nat (S b)) ls). lia.
Qed.
Lemma first_nonneg l : 0 <= first l.
Proof. apply (first_mono 0). lia. Qed.
Lemma first_S l : (1 <= l)%nat -> first (S l) = first l + how_many (Z.of_nat l) ls.
Proof. intros H. cbn [first]. destruct l; [lia|done]. Qed.

Lemma of_length_S l m x : lens !! m = Some x ->
  of_length l (S m) = of_length l m ++ if decide (x = l) then [m] else [].
Proof.
  intros Hm. unfold of_length. rewrite seq_S, list.filter_app. f_equal. rewrite filter_cons, filter_nil.
  cbn [Nat.add]. rewrite Hm. destruct (decide (x = l)) as [->|Hne].
  - by rewrite decide_True.
  - rewrite decide_False; [done|congruence].
Qed.
Lemma of_length_count l m : (m <= length lens)%nat -> Z.of_nat (length (of_length l m)) = how_many l (take m lens).
Proof.
  induction m as [|m IH]; intros Hm; [done|]. assert (is_Some (lens !! m)) as [x Hx] by (apply lookup_lt_is_Some; lia).
  rewrite (of_length_S l m x Hx), (take_S_r _ _ _ Hx), length_app, Nat2Z.inj_add, IH, how_many_snoc by lia.
  destruct (decide (x = l)) as [->|]; [by rewrite Z.eqb_refl|]. split_bool; [lia|done].
Qed.
Lemma of_length_Some l m k s : of_length l m !! k = Some s -> lens !! s = Some l /\ (s < m)%nat.
Proof.
  intros H. apply list_elem_of_lookup_2 in H. apply list_elem_of_filter in H as [H1 H2].
  apply elem_of_seq in H2. split; [done|lia].
Qed.
Lemma length_ordered l : Z.of_nat (length (ordered l)) = first l.
Proof.
  induction l as [|l IH]; [done|]. cbn [ordered first]. rewrite length_app, Nat2Z.inj_add, IH. destruct l; [done|].
  rewrite of_length_count by done. done.
Qed.

(** Where a symbol is in the order. *)
Lemma ordered_lookup L i s : ordered L !! i = Some s ->
  exists l : nat, (1 <= l < L)%nat /\ first l <= Z.of_nat i < first (S l) /\
    of_length (Z.of_nat l) n !! (i - Z.to_nat (first l))%nat = Some s.
Proof.
  induction L as [|L IH]; [done|]. cbn [ordered]. intros H. apply lookup_app_Some in H as [H|[Hge H]].
  - destruct (IH H) as (l & Hl & Hrest). exists l. split; [lia|done].
  - destruct L as [|L]; [done|]. exists (S L). pose proof (length_ordered (S L)) as Hlen.
    apply lookup_lt_Some in H as Hlt. pose proof (of_length_count (Z.of_nat (S L)) n Hn) as Hc. fold ls in Hc.
    pose proof (first_S (S L) ltac:(lia)). split; [lia|]. split; [lia|].
    replace (Z.to_nat (first (S L))) with (length (ordered (S L))) by lia. done.
Qed.
Lemma first_total l : first l <= Z.of_nat n.
Proof.
  set (shorter (l : nat) (xs : list Z) := Z.of_nat (length (filter (fun x => 1 <= x < Z.of_nat l) xs))).
  assert (Hs : forall l xs, (1 <= l)%nat -> shorter (S l) xs = shorter l xs + how_many (Z.of_nat l) xs).
  { intros k xs Hk. unfold shorter. induction xs as [|x xs IH]; [done|]. rewrite how_many_cons, !filter_cons.
    destruct (Z.eqb_spec (Z.of_nat k) x) as [<-|]; repeat case_decide; cbn [length]; lia. }
  assert (H01 : forall l xs, (l <= 1)%nat -> shorter l xs = 0).
  { intros k xs Hk. unfold shorter. induction xs as [|x xs IH]; [done|]. rewrite filter_cons. case_decide; [lia|done]. }
  assert (Hf : first l = shorter l ls).
  { induction l as [|[|l] IH]; [by rewrite H01 by lia..|]. rewrite first_S, Hs, IH by lia. done. }
  rewrite Hf. unfold shorter, ls. pose proof (length_filter (fun x => 1 <= x < Z.of_nat l) (take n lens)) as H.
  rewrite length_take in H. lia.
Qed.

Lemma offs_loop_ok fuel (len : nat) offs :
  (1 <= len)%nat -> (len + fuel = 15)%nat -> length offs = 16%nat ->
  (forall k : nat, (1 <= k <= len)%nat -> rd offs (Z.of_nat k) = Some (first k)) ->
  exists offs', offs_loop fuel (Z.of_nat len) count offs = Some offs' /\ length offs' = 16%nat /\
    forall k : nat, (1 <= k <= 15)%nat -> rd offs' (Z.of_nat k) = Some (first k).
Proof.
  revert len offs. induction fuel as [|fuel IH]; intros len offs H1 Hf H16 Ho.
  { exists offs. split; [done|]. split; [done|]. intros k Hk. apply Ho. lia. }
  cbn [offs_loop]. rewrite Ho, Hcount by lia. cbn [mbind option_bind].
  pose proof (first_S len ltac:(lia)) as HS. rewrite <- HS. pose proof (first_total (S len)). pose proof (first_nonneg (S len)).
  rewrite u16_id by (unfold is_u16; lia).
  destruct (wr_ok offs (Z.of_nat len + 1) (first (S len))) as (o1 & -> & L & R); [lia|]. cbn [mbind option_bind].
  replace (Z.of_nat len + 1) with (Z.of_nat (S len)) by lia. apply (IH (S len)); [lia..|].
  intros k Hk. rewrite R. destruct (Z.eqb_spec (Z.of_nat k) (Z.of_nat len + 1)); [|apply Ho; lia].
  by replace k with (S len) by lia.
Qed.

(** ** The counting sort *)

Lemma slots_distinct (a b : nat) p q :
  (1 <= a)%nat -> (1 <= b)%nat -> a <> b -> 0 <= p < how_many (Z.of_nat a) ls -> 0 <= q < how_many (Z.of_nat b) ls ->
  first a + p <> first b + q.
Proof.
  intros Ha Hb Hab Hp Hq. pose proof (first_S a Ha). pose proof (first_S b Hb). destruct (Nat.lt_total a b) as [H1|[H1|H1]]; [|done|].
  - pose proof (first_mono (S a) b ltac:(lia)). lia.
  - pose proof (first_mono (S b) a ltac:(lia)). lia.
Qed.
Lemma of_length_index l i q s : (i <= n)%nat -> of_length l i !! q = Some s -> Z.of_nat q < how_many l ls.
Proof.
  intros Hi Hq. apply lookup_lt_Some in Hq. pose proof (of_length_count l i ltac:(lia)).
  pose proof (how_many_take l i) as [_ Hle]. specialize (Hle Hi). lia.
Qed.

Lemma sort_loop_ok k i offs work :
  (i + k = n)%nat -> length offs = 16%nat -> (n <= length work)%nat ->
  (forall l : nat, (1 <= l <= 15)%nat -> rd offs (Z.of_nat l) = Some (first l + how_many (Z.of_nat l) (take i lens))) ->
  (forall (l : nat) q s, (1 <= l <= 15)%nat -> of_length (Z.of_nat l) i !! q = Some s ->
     rd work (first l + Z.of_nat q) = Some (Z.of_nat s)) ->
  exists work', sort_loop lens k (Z.of_nat i) offs work = Some work' /\ length work' = length work /\
    forall (l : nat) q s, (1 <= l <= 15)%nat -> of_length (Z.of_nat l) n !! q = Some s ->
      rd work' (first l + Z.of_nat q) = Some (Z.of_nat s).
Proof.
  revert i offs work. induction k as [|k IH]; intros i offs work Hi H16 Hwl Ho Hw.
  { exists work. split; [done|]. split; [done|]. by replace n with i by lia. }
  cbn [sort_loop]. destruct (len_at i) as (x & Hx & Ex & Hxr & Et); [lia|]. rewrite Ex. cbn [mbind option_bind].
  replace (Z.of_nat i + 1) with (Z.of_nat (S i)) by lia. destruct (Z.eqb_spec x 0) as [->|Hx0].
  - apply (IH (S i)); [lia|lia|lia|..].
    + intros l Hl. rewrite Ho, Et, how_many_snoc by done. do 2 f_equal. split_bool; lia.
    + intros l q s Hl. rewrite (of_length_S _ _ _ Hx). rewrite decide_False by lia. rewrite app_nil_r. by apply Hw.
  - set (lx := Z.to_nat x). assert (Elx : x = Z.of_nat lx) by lia. rewrite Elx, Ho by lia. cbn [mbind option_bind].
    set (c := how_many (Z.of_nat lx) (take i lens)).
    assert (Hc : c + 1 <= how_many (Z.of_nat lx) ls).
    { pose proof (how_many_take (Z.of_nat lx) (S i)) as [_ Hle]. specialize (Hle ltac:(lia)).
      rewrite Et, how_many_snoc, Elx, Z.eqb_refl in Hle. fold c in Hle. lia. }
    assert (Hc0 : 0 <= c) by apply how_many_nonneg. pose proof (first_nonneg lx) as Hf0.
    pose proof (first_S lx ltac:(lia)) as HfS. pose proof (first_total (S lx)) as Hft.
    destruct (wr_ok work (first lx + c) (u16 (Z.of_nat i))) as (w1 & -> & L1 & R1); [lia|]. cbn [mbind option_bind].
    destruct (wr_ok offs (Z.of_nat lx) (u16 (first lx + c + 1))) as (o1 & -> & L2 & R2); [lia|]. cbn [mbind option_bind].
    rewrite u16_id in R1 by (unfold is_u16; lia). rewrite u16_id in R2 by (unfold is_u16; lia).
    destruct (IH (S i) o1 w1) as (work' & E & L & H); [lia|lia|lia|..].
    + intros l Hl. rewrite R2, Et, how_many_snoc, Elx. destruct (Z.eqb_spec (Z.of_nat l) (Z.of_nat lx)) as [E|].
      * replace l with lx by lia. fold c. f_equal. lia.
      * rewrite Ho by done. f_equal. lia.
    + intros l q s Hl. rewrite (of_length_S _ _ _ Hx), Elx. intros Hq. rewrite R1.
      apply lookup_app_Some in Hq as [Hq|[Hge Hq]].
      * pose proof (of_length_index (Z.of_nat l) i q s ltac:(lia) Hq). apply lookup_lt_Some in Hq as Hlt.
        pose proof (of_length_count (Z.of_nat l) i ltac:(lia)) as Hlen.
        destruct (Z.eqb_spec (first l + Z.of_nat q) (first lx + c)) as [E|]; [exfalso|by apply Hw].
        destruct (decide (l = lx)) as [->|Hne]; [fold c in Hlen; lia|].
        apply (slots_distinct l lx (Z.of_nat q) c); auto; lia.
      * destruct (decide (Z.of_nat lx = Z.of_nat l)) as [E|]; [|done]. assert (l = lx) as -> by lia.
        pose proof (of_length_count (Z.of_nat lx) i ltac:(lia)) as Hlen. fold c in Hlen.
        apply list_lookup_singleton_Some in Hq as [Hq <-]. replace (Z.of_nat q) with c by lia. by rewrite Z.eqb_refl.
    + exists work'. split; [done|]. split; [lia|done].
Qed.

(** ** The codewords in order *)

Definition length_of (s : nat) : Z := default 0 (lens !! s).
Definition sorted_syms : list Z := Z.of_nat <$> ordered 16.
Definition lengths (L : nat) : list Z := length_of <$> ordered L.

Lemma block_lengths (k : nat) : length_of <$> of_length (Z.of_nat k) n = replicate (length (of_length (Z.of_nat k) n)) (Z.of_nat k).
Proof.
  apply list_eq. intros i. destruct (decide (i < length (of_length (Z.of_nat k) n))%nat) as [Hi|Hi].
  - apply lookup_lt_is_Some in Hi as [s Hs]. rewrite list_lookup_fmap, Hs. cbn [fmap option_fmap option_map].
    symmetry. apply lookup_replicate. split; [|by apply lookup_lt_Some in Hs].
    apply of_length_Some in Hs as [Hs _]. unfold length_of. by rewrite Hs.
  - rewrite !lookup_ge_None_2; [done|rewrite length_replicate; lia|rewrite length_fmap; lia].
Qed.
Lemma lengths_S k : (1 <= k)%nat ->
  lengths (S k) = lengths k ++ replicate (length (of_length (Z.of_nat k) n)) (Z.of_nat k).
Proof.
  intros Hk. unfold lengths. cbn [ordered]. rewrite fmap_app. f_equal. destruct k; [lia|]. apply block_lengths.
Qed.
Lemma lengths_1 : lengths 1 = [].
Proof. done. Qed.

Lemma total_lengths k : (1 <= k)%nat -> total (lengths k) = below (Z.of_nat k) used_lens.
Proof.
  induction k as [|[|k] IH]; intros Hk; [lia|symmetry; apply below_1|].
  rewrite lengths_S, weights_app, total_replicate, IH, of_length_count by lia. fold ls.
  rewrite <- how_many_used by lia. rewrite (Nat2Z.inj_succ (S k)). unfold Z.succ. rewrite below_succ. done.
Qed.
Lemma total_sorted : total (lengths 16) = total used_lens.
Proof. rewrite total_lengths by lia. apply below_16. Qed.
Lemma how_many_lengths l k : (1 <= k)%nat -> 1 <= l ->
  how_many l (lengths k) = if l <? Z.of_nat k then how_many l ls else 0.
Proof.
  induction k as [|[|k] IH]; intros Hk Hl; [lia|cbn; split_bool; [lia|done]|].
  rewrite lengths_S, how_many_app, how_many_replicate, IH, of_length_count by lia. fold ls.
  destruct (Z.eqb_spec l (Z.of_nat (S k))) as [->|]; split_bool; lia.
Qed.
Lemma length_lengths : (length (lengths 16) <= n)%nat.
Proof. unfold lengths. rewrite length_fmap. pose proof (length_ordered 16). pose proof (first_total 16). lia. Qed.

Lemma lengths_lookup i l : lengths 16 !! i = Some l ->
  exists s k : nat, l = Z.of_nat k /\ (1 <= k <= 15)%nat /\ ordered 16 !! i = Some s /\ lens !! s = Some l /\ (s < n)%nat /\
    first k <= Z.of_nat i < first (S k) /\ of_length l n !! (i - Z.to_nat (first k))%nat = Some s.
Proof.
  unfold lengths. rewrite list_lookup_fmap. intros H. destruct (ordered 16 !! i) as [s|] eqn:E; [|done].
  cbn [fmap option_fmap option_map] in H. injection H as Hl. exists s.
  destruct (ordered_lookup _ _ _ E) as (k & Hk & Hi & Ho). pose proof (of_length_Some _ _ _ _ Ho) as [Hs Hsn].
  assert (l = Z.of_nat k) as -> by (unfold length_of in Hl; rewrite Hs in Hl; done).
  exists k. repeat split; auto; lia.
Qed.

Lemma lengths_wf : total used_lens <= 32768 -> well_formed (lengths 16).
Proof.
  intros Ht. split; [|split; [|by rewrite total_sorted]].
  - apply Forall_lookup. intros i l Hi. destruct (lengths_lookup _ _ Hi) as (s & k & -> & Hk & _). lia.
  - intros i j a b Hij Ha Hb. destruct (lengths_lookup _ _ Ha) as (_ & ka & -> & Hka & _ & _ & _ & Hia & _).
    destruct (lengths_lookup _ _ Hb) as (_ & kb & -> & Hkb & _ & _ & _ & Hib & _).
    destruct (Nat.le_gt_cases ka kb); [lia|]. pose proof (first_mono (S kb) ka ltac:(lia)). lia.
Qed.

(** Every length that occurs is in the order. *)
Lemma lengths_has l : 1 <= l <= 15 -> how_many l ls <> 0 -> exists i, lengths 16 !! i = Some l.
Proof.
  intros Hl Hne. apply list_elem_of_lookup. assert (Hf : how_many l (lengths 16) <> 0).
  { rewrite how_many_lengths by lia. destruct (Z.ltb_spec l (Z.of_nat 16)); [done|lia]. }
  unfold how_many in Hf. destruct (filter (eq l) (lengths 16)) as [|x xs] eqn:E; [done|].
  assert (Hx : x ∈ filter (eq l) (lengths 16)) by (rewrite E; apply list_elem_of_here).
  by apply list_elem_of_filter in Hx as [<- Hx].
Qed.
Lemma lengths_occurs i l : lengths 16 !! i = Some l -> how_many l ls <> 0.
Proof.
  intros Hi. destruct (lengths_lookup _ _ Hi) as (s & k & -> & _ & _ & _ & _ & _ & Ho).
  apply of_length_index in Ho; [|done]. lia.
Qed.
Lemma lengths_last max : total used_lens <= 32768 -> 1 <= max <= 15 -> how_many max ls <> 0 ->
  (forall l, max < l <= 15 -> how_many l ls = 0) -> lengths 16 !! (length (lengths 16) - 1)%nat = Some max.
Proof.
  intros Ht Hm Hne Hmore. destruct (lengths_has max Hm Hne) as [i Hi]. apply lookup_lt_Some in Hi as Hlt.
  assert (is_Some (lengths 16 !! (length (lengths 16) - 1)%nat)) as [l Hl] by (apply lookup_lt_is_Some; lia).
  rewrite Hl. f_equal. pose proof (lengths_wf Ht) as Hwf. pose proof (length_range _ Hwf _ _ Hl).
  destruct Hwf as (_ & Hs & _). pose proof (Hs i (length (lengths 16) - 1)%nat max l ltac:(lia) Hi Hl).
  destruct (Z.eq_dec l max) as [|Hneq]; [done|]. exfalso. apply (lengths_occurs _ _ Hl). apply Hmore. lia.
Qed.
Lemma lengths_first min : total used_lens <= 32768 -> 1 <= min <= 15 -> how_many min ls <> 0 ->
  (forall l, 1 <= l < min -> how_many l ls = 0) -> lengths 16 !! 0%nat = Some min.
Proof.
  intros Ht Hm Hne Hless. destruct (lengths_has min Hm Hne) as [i Hi]. apply lookup_lt_Some in Hi as Hlt.
  assert (is_Some (lengths 16 !! 0%nat)) as [l Hl] by (apply lookup_lt_is_Some; lia).
  rewrite Hl. f_equal. pose proof (lengths_wf Ht) as Hwf. pose proof (length_range _ Hwf _ _ Hl).
  destruct Hwf as (_ & Hs & _). pose proof (Hs 0%nat i l min ltac:(lia) Hl Hi).
  destruct (Z.eq_dec l min) as [|Hneq]; [done|]. exfalso. apply (lengths_occurs _ _ Hl). apply Hless. lia.
Qed.
End sort.
