(* ===== verification/InfTreesTheorems.v ===== *)
(** * The decoding tables are right

    [zlib_inflate_table] accepts exactly the sets of lengths that it should, never runs out
    of table space, and looking up any bits in the tables that it makes gives the symbol
    whose codeword they start with. *)

From Stdlib Require Import ZArith Lia Bool.
From stdpp Require Import base numbers list option.
From S2P Require Import Prelude Deflate InfTrees Canon InfTreesProofs InfTreesSort.
Open Scope Z_scope.

Lemma bind_some {A B} (x : A) (f : A -> option B) : (Some x ≫= f) = f x.
Proof. done. Qed.

(** ** What the tables promise *)

(** The sets of lengths that are codes: every bit string starts with a codeword; or there
    are no codewords at all; or, except for the code length code, only one, of one bit. *)
Definition acceptable (type : codetype) (ls : list Z) : Prop :=
  unused ls \/ complete ls \/ (type <> CODES /\ single ls).

Definition entry_for (type : codetype) (s : nat) (b : Z) : option code :=
  '(o, v) ← symbol_entry type (Z.of_nat s); Some (mkCode o b v).

(** The bits of [h] start with the codeword of [s]. *)
Definition begins (ls : list Z) (h : Z) (s : nat) : Prop :=
  has_code ls s /\ (s < length ls)%nat /\ h `mod` 2 ^ code_length ls s = lsb (codeword ls s).

(** What indexing the table with [h] finds when it begins with the codeword of [s]: the
    entry of [s] in the root table, or a link to a sub-table with the entry. *)
Definition leads_to (type : codetype) (tab : list code) (base root limit h : Z) (s : nat) (l : Z) : Prop :=
  if l <=? root then rd tab (base + h `mod` 2 ^ root) = entry_for type s l
  else exists off c,
    rd tab (base + h `mod` 2 ^ root) = Some (mkCode c root (off - base)) /\
    l - root <= c <= 15 - root /\ base + 2 ^ root <= off /\ off + 2 ^ c <= limit /\
    rd tab (off + (h / 2 ^ root) `mod` 2 ^ c) = entry_for type s (l - root).

Record decodes (type : codetype) (ls : list Z) (tab : list code) (base root limit : Z) : Prop := {
  dec_root : 1 <= root <= 15 /\ base + 2 ^ root <= limit;
  dec_symbol : forall h s, begins ls h s -> leads_to type tab base root limit h s (code_length ls s);
  dec_invalid : forall h, (forall s, ~ begins ls h s) -> rd tab (base + h `mod` 2 ^ root) = Some invalid
}.

(** Changes beyond a table do not matter. *)
Lemma decodes_kept type ls tab tab' base root limit :
  decodes type ls tab base root limit -> 0 <= base -> (forall a, a < limit -> rd tab' a = rd tab a) -> decodes type ls tab' base root limit.
Proof.
  intros [[Hroot Hlim] Hs Hi] Hb Hk. assert (Hfirst : forall h, rd tab' (base + h `mod` 2 ^ root) = rd tab (base + h `mod` 2 ^ root)).
  { intros h. apply Hk. pose proof (Z.mod_pos_bound h (2 ^ root) ltac:(lia)). lia. }
  split; [done|..].
  - intros h s Hbg. specialize (Hs h s Hbg). unfold leads_to in *. rewrite Hfirst. destruct (Z.leb_spec (code_length ls s) root); [done|].
    destruct Hs as (off & c & E1 & Hc & Ho & He & E2). exists off, c. rewrite Hk; [done|].
    pose proof (Z.mod_pos_bound (h / 2 ^ root) (2 ^ c) ltac:(lia)). lia.
  - intros h Hno. rewrite Hfirst. by apply Hi.
Qed.

(** How the decompressor uses the function: at most so many symbols, with a root table of so
    many bits, which takes at most so many entries. *)
Definition max_codes (type : codetype) : nat := match type with CODES => 19 | LENS => 288 | DISTS => 32 end.
Definition root_bits (type : codetype) : Z := match type with CODES => 7 | LENS => 9 | DISTS => 6 end.
Definition space (type : codetype) : Z :=
  2 ^ root_bits type + Z.of_nat (max_codes type) + 2 ^ (15 - root_bits type).

Definition made_well (type : codetype) (lens array : list _) (n : nat) (table : Z) (work : list Z) (r : made) : Prop :=
  match r with
  | Refused e => e = -1 /\ ~ acceptable type (take n lens)
  | Made tab next root work' =>
      acceptable type (take n lens) /\ decodes type (take n lens) tab table root next /\
      length tab = length array /\ length work' = length work /\ next <= table + space type /\
      (forall a, a < table -> rd tab a = rd array a) /\
      (root = root_bits type \/ Forall (fun l => l <= root) (take n lens))
  end.

Lemma symbol_entry_total type s : (s < max_codes type)%nat -> is_Some (symbol_entry type (Z.of_nat s)).
Proof.
  intros Hs. unfold symbol_entry. destruct (Z.ltb_spec (Z.of_nat s) (code_end type)); [done|].
  destruct (Z.ltb_spec (code_end type) (Z.of_nat s)) as [Hgt|]; [|done].
  destruct type; cbn [code_end max_codes code_value] in *; [lia|..].
  - destruct (rd_is_Some lext (Z.of_nat s - 257)) as [e ->]; [cbn; lia|].
    destruct (rd_is_Some lbase (Z.of_nat s - 257)) as [b ->]; [cbn; lia|]. done.
  - destruct (rd_is_Some dext (Z.of_nat s)) as [e ->]; [cbn; lia|].
    destruct (rd_is_Some dbase (Z.of_nat s)) as [b ->]; [cbn; lia|]. done.
Qed.

Section codes.
Context (lens : list Z) (n : nat).
Context (Hn : (n <= length lens)%nat) (Hbig : Z.of_nat n < 65536).
Context (Hrange : Forall (fun l => 0 <= l <= 15) (take n lens)).
Abbreviation ls := (ls lens n).
Abbreviation lengths := (lengths lens n 16).
Abbreviation ordered := (ordered lens n).

(** ** Positions and codes *)

Lemma next_code_below (k : nat) : (1 <= k <= 15)%nat -> next_code ls k * weight (Z.of_nat k) = below (Z.of_nat k) (used_lens lens n).
Proof.
  induction k as [|[|k] IH]; intros Hk; [lia|by rewrite below_1|].
  specialize (IH ltac:(lia)). rewrite (Nat2Z.inj_succ (S k)). unfold Z.succ. rewrite below_succ, <- IH.
  rewrite how_many_used by lia. pose proof (weight_half (Z.of_nat (S k)) ltac:(lia)) as Hw.
  change (next_code ls (S (S k))) with (2 * (next_code ls (S k) + bl_count ls (Z.of_nat (S k)))).
  unfold bl_count. fold (how_many (Z.of_nat (S k)) ls). nia.
Qed.

Lemma ordered_prefix a b : (a <= b)%nat -> ordered a `prefix_of` ordered b.
Proof.
  induction 1 as [|b H IH]; [done|]. cbn [InfTreesSort.ordered]. etrans; [exact IH|]. by apply prefix_app_r.
Qed.
Lemma ordered_take k q :
  (1 <= k <= 15)%nat -> (q <= length (of_length lens (Z.of_nat k) n))%nat ->
  take (length (ordered k) + q) (ordered 16) = ordered k ++ take q (of_length lens (Z.of_nat k) n).
Proof.
  intros Hk Hq. destruct (ordered_prefix (S k) 16 ltac:(lia)) as [rest E]. rewrite E.
  cbn [InfTreesSort.ordered]. destruct k as [|k]; [lia|]. rewrite <- app_assoc, take_app_add, take_app_le by done. done.
Qed.

(** The index of a symbol among those of its length. *)
Lemma of_length_rank l s q :
  (s < n)%nat -> of_length lens l n !! q = Some s -> q = length (of_length lens l s).
Proof.
  intros Hs Hq. pose proof (of_length_Some lens n Hn _ _ _ _ Hq) as [Hl _].
  eapply (NoDup_lookup (of_length lens l n)); [|exact Hq|].
  - apply list.NoDup_filter, list.NoDup_seq.
  - unfold of_length. replace n with (s + S (n - s - 1))%nat by lia. rewrite seq_app, list.filter_app. cbn [seq Nat.add].
    rewrite filter_cons, decide_True by done. apply list_lookup_middle. done.
Qed.

Lemma start_code i l s :
  lengths !! i = Some l -> ordered 16 !! i = Some s ->
  start lengths i = code_of ls s * weight l /\ code_length ls s = l.
Proof.
  intros Hi Hs. destruct (lengths_lookup lens n Hn _ _ Hi) as (s' & k & -> & Hk & Hs' & Hl & Hsn & Hik & Hq).
  rewrite Hs in Hs'. injection Hs' as <-. pose proof (length_ordered lens n Hn k) as Hlen.
  pose proof (first_nonneg lens n Hn k) as Hf0. set (q := (i - Z.to_nat (first lens n k))%nat) in *.
  assert (Ecl : code_length ls s = Z.of_nat k).
  { unfold code_length, InfTreesSort.ls. rewrite lookup_take_lt by done. by rewrite Hl. }
  split; [|done]. apply lookup_lt_Some in Hq as Hqlt. pose proof (of_length_rank _ _ _ Hsn Hq) as Eq.
  unfold code_of. rewrite Ecl, Nat2Z.id. unfold InfTreesSort.ls at 2. rewrite take_take, Nat.min_l by lia.
  fold (how_many (Z.of_nat k) (take s lens)). rewrite <- (of_length_count lens n Hn) by lia. rewrite <- Eq, Z.mul_add_distr_r.
  rewrite next_code_below, <- (total_lengths lens n Hn) by lia. unfold start, InfTreesSort.lengths.
  rewrite <- fmap_take. replace i with (length (ordered k) + q)%nat by lia. rewrite ordered_take by lia.
  rewrite fmap_app, weights_app. f_equal. rewrite fmap_take, (block_lengths lens n Hn), take_replicate.
  rewrite Nat.min_l by lia. apply total_replicate.
Qed.

(** A number matches a position when its low bits are the codeword. *)
Lemma matches_codeword i l s h :
  total (used_lens lens n) <= 32768 -> lengths !! i = Some l -> ordered 16 !! i = Some s ->
  matches lengths i h <-> h `mod` 2 ^ l = lsb (codeword ls s).
Proof.
  intros Ht Hi Hs. pose proof (lengths_wf lens n Hn Hrange Ht) as Hwf. pose proof (length_range _ Hwf _ _ Hi) as Hl.
  destruct (start_code _ _ _ Hi Hs) as [Est Ecl]. rewrite (matches_mod _ Hwf _ _ _ Hi), Est, lsb_codeword, Ecl.
  replace (rev15 (code_of ls s * weight l)) with (rev (Z.to_nat l) (code_of ls s)); [done|].
  unfold rev15, weight. symmetry. replace (15 - l) with (Z.of_nat 15 - Z.of_nat (Z.to_nat l)) by lia. apply rev_shift. lia.
Qed.

(** ** Which sets of lengths are codes *)

Lemma kraft_total : kraft ls = total (used_lens lens n).
Proof.
  unfold kraft, used_lens. induction ls as [|x xs IH]; [done|]. cbn [foldr]. rewrite IH, filter_cons.
  destruct (Z.ltb_spec 0 x); case_decide; try lia; cbn [total]; unfold weight; lia.
Qed.
Lemma how_many_zero l : l ∉ ls -> how_many l ls = 0.
Proof.
  intros Hn'. unfold how_many. destruct (filter (eq l) ls) as [|x xs] eqn:E; [done|].
  assert (Hx : x ∈ filter (eq l) ls) by (rewrite E; apply list_elem_of_here).
  apply list_elem_of_filter in Hx as [<- Hx]. done.
Qed.
Lemma how_many_in l : how_many l ls <> 0 <-> l ∈ ls.
Proof.
  split.
  - intros H. destruct (decide (l ∈ ls)) as [|Hn']; [done|]. by apply how_many_zero in Hn'.
  - intros Hin. unfold how_many. assert (l ∈ filter (eq l) ls) as Hf by (by apply list_elem_of_filter).
    destruct (filter (eq l) ls); [by apply not_elem_of_nil in Hf|done].
Qed.
Lemma in_range l : l ∈ ls -> 0 <= l <= 15.
Proof. intros H. by apply (proj1 (list.Forall_forall _ _) Hrange). Qed.

Lemma unused_iff max :
  0 <= max <= 15 -> (max <> 0 -> how_many max ls <> 0) -> (forall l, max < l <= 15 -> how_many l ls = 0) ->
  unused ls <-> max = 0.
Proof.
  intros Hm Hne Hmore. unfold unused. rewrite list.Forall_forall. split.
  - intros H. destruct (decide (max = 0)) as [|H0]; [done|]. specialize (Hne H0). apply how_many_in in Hne.
    by rewrite <- (H _ Hne).
  - intros -> x Hx. pose proof (in_range _ Hx). destruct (Z.eq_dec x 0) as [|H0]; [done|].
    specialize (Hmore x ltac:(lia)). by apply how_many_in in Hx.
Qed.
Lemma single_iff max :
  1 <= max <= 15 -> how_many max ls <> 0 -> (forall l, max < l <= 15 -> how_many l ls = 0) ->
  total (used_lens lens n) < 32768 -> single ls <-> max = 1.
Proof.
  intros Hm Hne Hmore Ht. unfold single. rewrite kraft_total, list.Forall_forall. split.
  - intros [_ H]. apply how_many_in, H in Hne. lia.
  - intros ->. assert (Hall : forall x, x ∈ ls -> x = 0 \/ x = 1).
    { intros x Hx. pose proof (in_range _ Hx). destruct (Z.le_gt_cases x 1); [lia|].
      specialize (Hmore x ltac:(lia)). by apply how_many_in in Hx. }
    split; [|done]. pose proof (below_succ 1 (used_lens lens n)) as Hb. rewrite below_1, how_many_used in Hb by lia.
    rewrite (below_all (1 + 1)) in Hb.
    + change (weight 1) with 16384 in Hb. change (2 ^ 14) with 16384. pose proof (how_many_nonneg 1 ls). lia.
    + apply list.Forall_forall. intros x Hx. apply list_elem_of_filter in Hx as [_ Hx]. apply Hall in Hx. lia.
Qed.

(** A complete code of [n] symbols has a short codeword. *)
Lemma shortest min :
  total (used_lens lens n) = 32768 -> 1 <= min <= 15 -> (forall l, 1 <= l < min -> how_many l ls = 0) -> 2 ^ min <= Z.of_nat n.
Proof.
  intros Ht Hm Hless. pose proof (total_le_count min lengths) as H. rewrite (total_sorted lens n Hn Hrange), Ht in H.
  pose proof (length_lengths lens n Hn). assert (Hw : 2 ^ min * weight min = 32768).
  { unfold weight. rewrite <- Z.pow_add_r by lia. by replace (min + (15 - min)) with 15 by lia. }
  pose proof (weight_pos min ltac:(lia)). enough (32768 <= Z.of_nat (length lengths) * weight min) by nia.
  apply H. apply Forall_lookup. intros i l Hi.
  pose proof (length_range _ (lengths_wf lens n Hn Hrange ltac:(lia)) _ _ Hi).
  pose proof (lengths_occurs lens n Hn _ _ Hi) as Ho. split; [|lia].
  destruct (Z.le_gt_cases min l); [done|]. exfalso. apply Ho, Hless. lia.
Qed.

(** ** Looking up a symbol *)

Lemma code_length_at s : (s < n)%nat -> exists l, lens !! s = Some l /\ code_length ls s = l /\ 0 <= l <= 15.
Proof.
  intros Hs. destruct (len_at lens n Hn Hrange s Hs) as (l & Hl & _ & Hr & _). exists l.
  unfold code_length, InfTreesSort.ls. rewrite lookup_take_lt by done. rewrite Hl. done.
Qed.
Lemma length_ls : length ls = n.
Proof. unfold InfTreesSort.ls. rewrite length_take. lia. Qed.

Lemma position s : (s < n)%nat -> has_code ls s ->
  exists i, ordered 16 !! i = Some s /\ lengths !! i = Some (code_length ls s) /\ (i < length lengths)%nat.
Proof.
  intros Hs Hc. destruct (code_length_at s Hs) as (l & Hl & Ecl & Hr). unfold has_code in Hc.
  assert (Hin : s ∈ ordered 16).
  { destruct (ordered_prefix (S (Z.to_nat l)) 16 ltac:(lia)) as [rest ->]. apply elem_of_app. left.
    cbn [InfTreesSort.ordered]. apply elem_of_app. right. destruct (Z.to_nat l) as [|k] eqn:Ek; [lia|].
    apply list_elem_of_filter. split; [rewrite Hl; f_equal; lia|]. apply elem_of_seq. lia. }
  apply list_elem_of_lookup in Hin as [i Hi]. exists i. split; [done|].
  assert (Hli : lengths !! i = Some (code_length ls s)).
  { unfold InfTreesSort.lengths. rewrite list_lookup_fmap, Hi. cbn. unfold length_of. by rewrite Hl, Ecl. }
  split; [done|]. by apply lookup_lt_Some in Hli.
Qed.

Lemma tables_decode type max root table array N tab used :
  total (used_lens lens n) <= 32768 -> 1 <= root <= max -> max <= 15 ->
  tables type max root table lengths (sorted_syms lens n) array N tab used ->
  decodes type ls tab table root (table + used).
Proof.
  intros Ht Hroot Hmax (HN & Hused & Hcov & Hinv & _). split.
  - split; lia.
  - intros h s (Hc & Hs & Hb). rewrite length_ls in Hs. destruct (position s Hs Hc) as (i & Hi & Hli & Hlt).
    apply (matches_codeword i _ s h Ht Hli Hi) in Hb. destruct (Hcov i h Hlt Hb) as (l & Hl & H1 & H2).
    rewrite Hli in Hl. injection Hl as <-.
    assert (Hleaf : forall b, leaf type (sorted_syms lens n) i b = entry_for type s b).
    { intros b. unfold leaf, entry_for, sorted_syms. rewrite list_lookup_fmap, Hi. done. }
    unfold leads_to. destruct (Z.leb_spec (code_length ls s) root) as [Hle|Hgt].
    + rewrite <- Hleaf. by apply H1.
    + destruct (H2 Hgt) as (off & c & E1 & Hcr & Hoff & Hend & E2). exists off, c. rewrite <- Hleaf.
      pose proof (Z.mod_pos_bound h (2 ^ root)). split; [done|]. split; [lia|]. split; [done|].
      split; [apply Hend; lia|done].
  - intros h Hno. apply Hinv. destruct (Z.le_gt_cases (total lengths) (rev15 h)) as [|Hgt]; [done|]. exfalso.
    destruct (matches_exists lengths h Hgt) as (i & Hlt & Hm). apply lookup_lt_is_Some in Hlt as [l Hl].
    destruct (lengths_lookup lens n Hn _ _ Hl) as (s & k & -> & Hk & Hs & Hls & Hsn & _).
    apply (Hno s). pose proof (start_code _ _ _ Hl Hs) as [_ Ecl].
    split; [unfold has_code; lia|]. split; [by rewrite length_ls|]. rewrite Ecl. by apply (matches_codeword i _ s h Ht Hl Hs).
Qed.

(** Every number begins with a codeword of a complete code. *)
Lemma complete_begins h : complete ls -> exists s, begins ls h s.
Proof.
  intros Hc. unfold complete in Hc. rewrite kraft_total in Hc. pose proof (rev15_range h).
  destruct (matches_exists lengths h) as (i & Hlt & Hm).
  { rewrite (total_sorted lens n Hn Hrange), Hc. change (2 ^ 15) with 32768. lia. }
  apply lookup_lt_is_Some in Hlt as [l Hl].
  destruct (lengths_lookup lens n Hn _ _ Hl) as (s & k & -> & Hk & Hs & Hls & Hsn & _).
  exists s. pose proof (start_code _ _ _ Hl Hs) as [_ Ecl].
  split; [unfold has_code; lia|]. split; [by rewrite length_ls|]. rewrite Ecl.
  apply (matches_codeword i _ s h); auto. rewrite Hc. done.
Qed.

(** ** Making the tables *)

Context (type : codetype) (array : list code) (table : Z) (work : list Z).
Context (Hcodes : (n <= max_codes type)%nat) (Hwork : (n <= length work)%nat).
Context (Htable : 0 <= table) (Harray : table + space type <= Z.of_nat (length array)).

Lemma room_space max root :
  1 <= root <= max -> max <= 15 -> root <= root_bits type -> root = root_bits type \/ root = max ->
  room max root lengths <= space type.
Proof.
  intros Hr Hm Hb Hor. pose proof (length_lengths lens n Hn). unfold room, space.
  assert (2 ^ root <= 2 ^ root_bits type) by (apply Z.pow_le_mono_r; lia).
  assert (2 ^ (max - root) <= 2 ^ (15 - root_bits type)); [|lia].
  assert (root_bits type <= 9) by (destruct type; cbn; lia). apply Z.pow_le_mono_r; lia.
Qed.
Lemma space_small : space type < 65536 /\ (type = LENS -> space type < ENOUGH - MAXD).
Proof. destruct type; split; done. Qed.

Lemma sorted_work count :
  (forall l, 0 <= l <= 15 -> rd count l = Some (how_many l ls)) ->
  exists offs work', offs_loop 14 1 count (replicate 16 0) = Some offs /\
    sort_loop lens n 0 offs work = Some work' /\ length work' = length work /\
    forall i s, sorted_syms lens n !! i = Some s -> rd work' (Z.of_nat i) = Some s.
Proof.
  intros Hcount. destruct (offs_loop_ok lens n Hn Hbig count Hcount 14 1 (replicate 16 0)) as (offs & Eo & H16 & Ho); [lia|lia|done|..].
  { intros k Hk. replace k with 1%nat by lia. done. }
  destruct (sort_loop_ok lens n Hn Hbig Hrange n 0 offs work) as (work' & Ew & Hw & Hs); [lia|done|done|..].
  { intros l Hl. rewrite Ho by done. cbn [take]. change (how_many (Z.of_nat l) []) with 0. by rewrite Z.add_0_r. }
  { intros l q s _ Hq. done. }
  exists offs, work'. split; [done|]. split; [done|]. split; [done|]. intros i s Hi. unfold sorted_syms in Hi.
  rewrite list_lookup_fmap in Hi. destruct (ordered 16 !! i) as [s'|] eqn:E; [|done]. injection Hi as <-.
  destruct (ordered_lookup lens n Hn _ _ _ E) as (l & Hl & Hi & Hq). apply Hs in Hq; [|lia].
  replace (Z.of_nat i) with (first lens n l + Z.of_nat (i - Z.to_nat (first lens n l))); [done|].
  pose proof (first_nonneg lens n Hn l). lia.
Qed.

Lemma fill_codes count work' min max root :
  length count = 16%nat -> (forall l, 0 <= l <= 15 -> rd count l = Some (how_many l ls)) ->
  (forall i s, sorted_syms lens n !! i = Some s -> rd work' (Z.of_nat i) = Some s) ->
  total (used_lens lens n) = 32768 \/ (max = 1 /\ total (used_lens lens n) = 16384) ->
  lengths !! (length lengths - 1)%nat = Some max -> lengths !! 0%nat = Some min ->
  1 <= root <= max -> max <= 15 -> min <= root -> root <= root_bits type -> root = root_bits type \/ root = max ->
  exists s tab, codes_loop type lens work' max root table n
      (mkFill array count 0 0 min table root 0 (u32 (-1)) (2 ^ root)) = Some (inl s) /\
    rest_loop root table rest_fuel s = Some tab /\
    InfTreesProofs.tables type max root table lengths (sorted_syms lens n) array (length array) tab (f_used s).
Proof.
  intros H16 Hcount Hwork' Htot Hlast Hfirst Hr Hm Hmin Hb Hor. pose proof (room_space max root Hr Hm Hb Hor) as Hrs.
  destruct space_small as [Hsm Hsp]. pose proof (lengths_wf lens n Hn Hrange ltac:(lia)) as Hwf.
  assert (Hsl : length (sorted_syms lens n) = length lengths) by (unfold sorted_syms, InfTreesSort.lengths; by rewrite !length_fmap).
  assert (Hsyms : forall i s, sorted_syms lens n !! i = Some s -> exists s' l, s = Z.of_nat s' /\ (s' < n)%nat /\ lens !! s' = Some l /\ lengths !! i = Some l).
  { intros i s Hs. apply lookup_lt_Some in Hs as Hlt. rewrite Hsl in Hlt. apply lookup_lt_is_Some in Hlt as [l Hl].
    destruct (lengths_lookup lens n Hn _ _ Hl) as (s' & k & -> & _ & Ho & Hls & Hsn & _). unfold sorted_syms in Hs.
    rewrite list_lookup_fmap, Ho in Hs. injection Hs as <-. eauto 10. }
  assert (Hinit : inv type max root table lengths (sorted_syms lens n) array (length array) 0
    (mkFill array count 0 0 min table root 0 (u32 (-1)) (2 ^ root))).
  { apply fill_inv_init; auto. intros l Hl. rewrite Hcount by lia. rewrite (how_many_lengths lens n Hn) by lia.
    destruct (Z.ltb_spec l (Z.of_nat 16)); [done|lia]. }
  assert (Hcomp : total lengths = 32768 \/ max = root) by (rewrite (total_sorted lens n Hn Hrange); destruct Htot as [?|[? ?]]; [by left|right; lia]).
  pose proof (length_lengths lens n Hn).
  destruct (codes_loop_ok type lens work' max root table lengths (sorted_syms lens n)) with
    (array := array) (N := length array) (fuel := n) (j := 0%nat)
    (s := mkFill array count 0 0 min table root 0 (u32 (-1)) (2 ^ root)) as (s & Es & Hfin); auto; try lia.
  - intros i s l Hs Hl. destruct (Hsyms i s Hs) as (s' & l' & -> & Hs' & Hl' & E).
    rewrite Hl in E. injection E as <-. destruct (len_at lens n Hn Hrange s' Hs') as (x & Hx & Ex & _). congruence.
  - intros i s Hs. destruct (Hsyms i s Hs) as (s' & _ & -> & Hs' & _). apply symbol_entry_total. lia.
  - intros Et. specialize (Hsp Et). lia.
  - exists s. assert (Hrest : exists tab, rest_loop root table rest_fuel s = Some tab /\
      InfTreesProofs.tables type max root table lengths (sorted_syms lens n) array (length array) tab (f_used s)).
    { destruct Htot as [Ht|[-> Ht]].
      - exists (f_codes s). eapply rest_complete; eauto. by rewrite (total_sorted lens n Hn Hrange).
      - rewrite <- (total_sorted lens n Hn Hrange) in Ht. eapply rest_single; eauto; try (unfold rest_fuel; lia).
        intros Et. specialize (Hsp Et). lia. }
    destruct Hrest as (tab & Er & Htab). exists tab. split; [done|]. split; done.
Qed.

(** With no symbols at all, the two entries of the table are invalid. *)
Lemma make_unused :
  unused ls -> exists array1 tab, wr array table invalid = Some array1 /\ wr array1 (table + 1) invalid = Some tab /\
    made_well type lens array n table work (Made tab (table + 2) 1 work).
Proof.
  intros Hu. assert (2 <= space type) by (destruct type; done).
  destruct (wr_ok array table invalid) as (a1 & E1 & L1 & R1); [lia|].
  destruct (wr_ok a1 (table + 1) invalid) as (tab & E2 & L2 & R2); [lia|]. exists a1, tab. split; [done|]. split; [done|].
  split; [by left|]. split; [|split; [lia|split; [done|split; [lia|]]]].
  2:{ split; [intros a Ha; rewrite R2, R1; split_bool; (lia || done)|]. right. unfold unused in Hu. rewrite list.Forall_forall in *. intros l Hl. specialize (Hu l Hl). lia. }
  split; [change (2 ^ 1) with 2; lia|..].
  - intros h s (Hc & Hs & _). exfalso. unfold has_code, code_length in Hc.
    destruct (take n lens !! s) as [l|] eqn:E; [|cbn in Hc; lia]. apply list_elem_of_lookup_2 in E.
    unfold unused in Hu. rewrite list.Forall_forall in Hu. apply Hu in E. cbn in Hc. lia.
  - intros h _. change (2 ^ 1) with 2. pose proof (Z.mod_pos_bound h 2). rewrite R2, R1.
    destruct (Z.eqb_spec (table + h `mod` 2) (table + 1)); [done|]. split_bool; (lia || done).
Qed.

Lemma root_choice min max bits :
  min <= bits -> min <= max ->
  (if (if max <? bits then max else bits) <? min then min else if max <? bits then max else bits) = Z.min bits max.
Proof. intros H1 H2. destruct (Z.ltb_spec max bits); split_bool; lia. Qed.

(** The tables of an accepted set of lengths. *)
Lemma make_accepted count min max :
  length count = 16%nat -> (forall l, 0 <= l <= 15 -> rd count l = Some (how_many l ls)) ->
  1 <= max <= 15 -> how_many max ls <> 0 -> (forall l, max < l <= 15 -> how_many l ls = 0) ->
  1 <= min <= max -> how_many min ls <> 0 -> (forall l, 1 <= l < min -> how_many l ls = 0) ->
  total (used_lens lens n) = 32768 \/ (max = 1 /\ total (used_lens lens n) = 16384) ->
  acceptable type ls -> min <= root_bits type ->
  exists offs work' s tab, offs_loop 14 1 count (replicate 16 0) = Some offs /\
    sort_loop lens n 0 offs work = Some work' /\ no_room type (2 ^ Z.min (root_bits type) max) = false /\
    codes_loop type lens work' max (Z.min (root_bits type) max) table n
      (mkFill array count 0 0 min table (Z.min (root_bits type) max) 0 (u32 (-1)) (2 ^ Z.min (root_bits type) max)) = Some (inl s) /\
    rest_loop (Z.min (root_bits type) max) table rest_fuel s = Some tab /\
    made_well type lens array n table work (Made tab (table + f_used s) (Z.min (root_bits type) max) work').
Proof.
  intros H16 Hcount Hmax Hne Hmore Hmin Hmne Hless Htot Hacc Hbits. set (root := Z.min (root_bits type) max).
  assert (Ht : total (used_lens lens n) <= 32768) by (destruct Htot as [?|[_ ?]]; lia).
  destruct (sorted_work count Hcount) as (offs & work' & Eo & Ew & Lw & Hw).
  pose proof (lengths_last lens n Hn Hrange max Ht Hmax Hne Hmore) as Hlast.
  pose proof (lengths_first lens n Hn Hrange min Ht ltac:(lia) Hmne Hless) as Hfirst.
  assert (Hr : 1 <= root <= max) by lia.
  destruct (fill_codes count work' min max root) as (s & tab & Ec & Er & Htab); auto; try lia.
  exists offs, work', s, tab. split; [done|]. split; [done|].
  pose proof (room_space max root Hr ltac:(lia) ltac:(lia) ltac:(lia)) as Hrs. split.
  { destruct space_small as [_ Hsp]. unfold no_room. destruct (bool_decide_reflect (type = LENS)) as [Et|]; [|done].
    specialize (Hsp Et). unfold room in Hrs. cbn [andb]. apply Z.leb_gt. lia. }
  split; [done|]. split; [done|]. split; [done|]. split; [eapply tables_decode; eauto; lia|].
  destruct Htab as (HN & Hused & _ & _ & Hframe). split; [done|]. split; [done|]. split; [lia|]. split; [done|].
  destruct (Z.le_gt_cases max (root_bits type)) as [Hle|]; [right|left; unfold root; lia].
  apply list.Forall_forall. intros l Hl. destruct (Z.le_gt_cases l root) as [|Hgt]; [done|]. exfalso.
  rewrite list.Forall_forall in Hrange. specialize (Hrange l Hl). specialize (Hmore l ltac:(lia)). unfold how_many in Hmore.
  assert (Hin : l ∈ filter (eq l) ls) by (by apply list_elem_of_filter).
  destruct (filter (eq l) ls); [by apply not_elem_of_nil in Hin|cbn in Hmore; lia].
Qed.

Lemma min_bits min : total (used_lens lens n) = 32768 -> 1 <= min <= 15 ->
  (forall l, 1 <= l < min -> how_many l ls = 0) -> min <= root_bits type.
Proof.
  intros Ht Hm Hless. pose proof (shortest min Ht Hm Hless) as H. destruct (Z.le_gt_cases min (root_bits type)) as [|Hgt]; [done|].
  exfalso. assert (2 ^ (root_bits type + 1) <= 2 ^ min) by (apply Z.pow_le_mono_r; lia).
  destruct type; cbn [root_bits max_codes] in *; lia.
Qed.

Lemma inflate_table_ok :
  exists r, zlib_inflate_table type lens (Z.of_nat n) array table (root_bits type) work = Some r /\
    made_well type lens array n table work r.
Proof.
  unfold zlib_inflate_table. rewrite Nat2Z.id. cbv zeta. destruct (count_ok lens n Hn Hbig Hrange) as (count & -> & H16 & Hcount).
  rewrite bind_some. destruct (find_max_ok lens n Hn count Hcount 15 ltac:(lia)) as (max & -> & Hmax & Hne & Hmore).
  rewrite bind_some. change (Z.of_nat 15) with 15 in *.
  pose proof (unused_iff max Hmax Hne Hmore) as Hun. destruct (Z.eqb_spec max 0) as [E0|H0].
  { destruct (make_unused (proj2 Hun E0)) as (a1 & tab & E1 & E2 & Hmade). fold invalid. rewrite E1. rewrite bind_some.
    rewrite E2. rewrite bind_some. eauto. }
  specialize (Hne H0). destruct (find_min_ok lens n Hn count Hcount 15 1 ltac:(lia) ltac:(lia)) as (min & -> & Hmin & Hmin1 & Hless).
  rewrite bind_some. assert (Hmm : min <= max).
  { destruct (Z.le_gt_cases min max); [done|]. specialize (Hless max ltac:(lia)). lia. }
  destruct (left_ok lens n Hn Hbig Hrange count Hcount) as (left & -> & Hleft). rewrite bind_some.
  assert (Hnun : ~ unused ls) by (rewrite Hun; done). pose proof kraft_total as Hk.
  destruct (Z.ltb_spec left 0) as [Hneg|Hpos].
  { eexists. split; [done|]. split; [done|]. intros [Hu|[Hc|[_ [Hs _]]]]; [done|..];
      [unfold complete in Hc|]; fold (InfTreesSort.ls lens n) in *; lia. }
  destruct Hleft as [[? ?]|[_ Eleft]]; [lia|].
  destruct ((0 <? left) && (bool_decide (type = CODES) || negb (max =? 1))) eqn:Einc.
  { eexists. split; [done|]. split; [done|]. apply andb_prop in Einc as [Hl Hor]. apply Z.ltb_lt in Hl.
    intros [Hu|[Hc|[Ht Hs]]]; [done|unfold complete in Hc; fold (InfTreesSort.ls lens n) in *; lia|].
    apply (single_iff max) in Hs; auto; [|lia..]. subst max. rewrite bool_decide_eq_false_2 in Hor by done. done. }
  assert (Htot : total (used_lens lens n) = 32768 \/ (max = 1 /\ total (used_lens lens n) = 16384 /\ type <> CODES /\ single ls)).
  { destruct (Z.ltb_spec 0 left); [|left; lia]. right. cbn [andb] in Einc. apply orb_false_elim in Einc as [Et Em].
    apply bool_decide_eq_false_1 in Et. apply negb_false_iff, Z.eqb_eq in Em. pose proof (single_iff max) as Hs.
    destruct (proj2 (Hs ltac:(lia) Hne Hmore ltac:(lia)) Em) as [Hs1 Hs2]. split; [done|]. split; [rewrite <- Hk; exact Hs1|done]. }
  assert (Hbits : min <= root_bits type).
  { destruct Htot as [Ht|(E & _)]; [apply (min_bits min Ht); [lia|done]|]. destruct type; cbn; lia. }
  rewrite root_choice by lia.
  destruct (make_accepted count min max) as (offs & work' & s & tab & Eo & Ew & Enr & Ec & Er & Hmade); auto; try lia.
  { destruct Htot as [Ht|(_ & _ & Ht & Hs)]; [right; left; unfold complete; rewrite Hk; exact Ht|by right; right]. }
  rewrite Eo. rewrite bind_some. rewrite Ew. rewrite bind_some. rewrite shiftl_mul, Z.mul_1_l by lia.
  rewrite Enr, Ec. rewrite bind_some. rewrite Er. rewrite bind_some. eauto.
Qed.

End codes.

(** C6: for the sets of code lengths that the decompressor passes to it, [zlib_inflate_table]
    returns, stays within its arrays and never runs out of table space: it refuses a set with
    -1 exactly when it is neither complete, nor empty, nor (for lengths and distances) a
    single one-bit code; otherwise looking up any bits in the tables it made finds the entry of
    the symbol whose canonical codeword they begin with, directly or through one link, and an
    invalid-code entry when there is no such symbol.  What is before the tables is unchanged. *)
Theorem inflate_table_correct type lens n array table work :
  (n <= length lens)%nat -> (n <= max_codes type)%nat -> (n <= length work)%nat ->
  Forall (fun l => 0 <= l <= 15) (take n lens) -> 0 <= table -> table + space type <= Z.of_nat (length array) ->
  exists r, zlib_inflate_table type lens (Z.of_nat n) array table (root_bits type) work = Some r /\
    made_well type lens array n table work r.
Proof.
  intros Hn Hc Hw Hr Ht Ha. apply inflate_table_ok; auto. assert (max_codes type <= 288)%nat by (destruct type; cbn; lia). lia.
Qed.

Lemma inflate_table_correct_witness :
  exists r, zlib_inflate_table DISTS [2; 1; 3; 3] 4 (replicate 2048 (mkCode 0 0 0)) 864 6 (replicate 288 0) = Some r /\
    made_well DISTS [2; 1; 3; 3] (replicate 2048 (mkCode 0 0 0)) 4 864 (replicate 288 0) r.
Proof.
  apply (inflate_table_correct DISTS [2; 1; 3; 3] 4); rewrite ?length_replicate; try (cbn; lia).
  - repeat constructor; lia.
  - vm_compute. discriminate.
Defined.

(** ** Looking up what is there of a stream *)

#[export] Instance begins_dec ls h s : Decision (begins ls h s).
Proof. unfold begins, has_code. apply _. Defined.

Lemma begins_or_not ls h : (exists s, begins ls h s) \/ (forall s, ~ begins ls h s).
Proof.
  destruct (decide (Exists (begins ls h) (symbols ls))) as [H|H].
  - left. apply list.Exists_exists in H as (s & _ & Hs). eauto.
  - right. intros s Hs. apply H, list.Exists_exists. exists s. split; [|done].
    apply elem_of_seq. destruct Hs as (_ & ? & _). lia.
Qed.

Lemma code_length_in ls s : has_code ls s -> code_length ls s ∈ ls /\ (s < length ls)%nat.
Proof.
  unfold has_code, code_length. destruct (ls !! s) as [l|] eqn:E; cbn; [|lia]. intros _.
  split; [by eapply list_elem_of_lookup_2|by apply lookup_lt_Some in E].
Qed.

(** What a partial number finds: the symbol, when its codeword is there; nothing, when no
    codeword can come of it; or the entry of a codeword that is longer than what is there. *)
Lemma decode_cases ls bs type :
  acceptable type ls -> Forall (fun l => 0 <= l <= 15) ls -> Z.of_nat (length ls) < 65536 ->
  match decode ls bs with
  | Got s rest => begins ls (lsb bs) s /\ (Z.to_nat (code_length ls s) <= length bs)%nat /\ rest = drop (Z.to_nat (code_length ls s)) bs
  | Bad => (forall s, ~ begins ls (lsb bs) s) /\ bs <> []
  | More => (exists s, begins ls (lsb bs) s /\ (length bs < Z.to_nat (code_length ls s))%nat) \/
            ((forall s, ~ begins ls (lsb bs) s) /\ bs = [])
  end.
Proof.
  intros Hacc Hr Hbig. unfold decode.
  assert (Hstart : forall s, s ∈ symbols ls -> starts_with ls bs s <-> begins ls (lsb bs) s /\ (Z.to_nat (code_length ls s) <= length bs)%nat).
  { intros s Hs. unfold symbols in Hs. apply elem_of_seq in Hs. unfold starts_with, begins. rewrite prefix_lsb, length_codeword.
    unfold has_code. split.
    - intros (H1 & H2 & H3). rewrite Z2Nat.id in H3 by lia. repeat split; auto; lia.
    - intros ((H1 & H2 & H3) & H4). rewrite Z2Nat.id by lia. auto. }
  destruct (filter (starts_with ls bs) (symbols ls)) as [|s xs] eqn:E.
  2:{ assert (Hs : s ∈ filter (starts_with ls bs) (symbols ls)) by (rewrite E; apply list_elem_of_here).
      apply list_elem_of_filter in Hs as [H1 H2]. apply Hstart in H1 as [H1 H3]; [|done]. rewrite length_codeword. auto. }
  assert (Hlong : forall s, begins ls (lsb bs) s -> (length bs < Z.to_nat (code_length ls s))%nat).
  { intros s Hb. destruct (Nat.lt_ge_cases (length bs) (Z.to_nat (code_length ls s))) as [|Hge]; [done|]. exfalso.
    assert (Hs : s ∈ symbols ls) by (apply elem_of_seq; destruct Hb as (_ & ? & _); lia).
    assert (Hin : s ∈ filter (starts_with ls bs) (symbols ls)) by (apply list_elem_of_filter; split; [by apply Hstart|done]).
    rewrite E in Hin. by apply not_elem_of_nil in Hin. }
  destruct (decide (bs = [] \/ Exists (may_become ls bs) (symbols ls))) as [Hmore|Hbad].
  - destruct (begins_or_not ls (lsb bs)) as [[s Hs]|Hno]; [left; eauto|]. right. split; [done|].
    destruct (decide (bs = [])) as [|Hne]; [done|]. destruct Hmore as [|Hex]; [done|]. apply list.Exists_exists in Hex as (s & Hin & Hc & Hpre). exfalso.
    destruct (code_length_in _ _ Hc) as [Hl _]. unfold has_code in Hc. destruct Hacc as [Hu|[Hcomp|[_ [_ Hsingle]]]].
    + unfold unused in Hu. rewrite list.Forall_forall in Hu. apply Hu in Hl. lia.
    + pose proof (complete_begins ls (length ls)) as Hb. unfold InfTreesSort.ls in Hb. rewrite firstn_all in Hb.
      destruct (Hb (le_n _) Hbig Hr (lsb bs) Hcomp) as [s' Hs']. by apply (Hno s').
    + rewrite list.Forall_forall in Hsingle. apply Hsingle in Hl. destruct bs as [|b bs]; [done|]. apply (Hno s).
      apply (Hstart s Hin). split; [unfold has_code; lia|]. destruct Hpre as [k Hk].
      pose proof (length_codeword ls s) as Hlen. rewrite Hk in Hlen. cbn [length app] in Hlen. rewrite length_app in Hlen.
      exists []. rewrite Hk. destruct bs, k; cbn in *; done || lia.
  - split; [|intros ->; apply Hbad; by left]. intros s Hs. apply Hbad. right. apply list.Exists_exists. exists s.
    pose proof (Hlong s Hs) as Hlt. destruct Hs as (Hc & Hs & Hm). split; [apply elem_of_seq; lia|]. split; [done|].
    apply prefix_lsb. rewrite length_codeword. split; [lia|]. rewrite <- Hm.
    unfold has_code in Hc. pose proof (lsb_range bs).
    assert (2 ^ Z.of_nat (length bs) <= 2 ^ code_length ls s) by (apply Z.pow_le_mono_r; lia).
    rewrite (Z.mod_small (lsb bs) (2 ^ code_length ls s)) by lia. apply Z.mod_small. lia.
Qed.

