(* ===== verification/DeflateProofs.v ===== *)
(** * Properties of the format

    Every step of the specification takes a bit, so its result does not depend on the fuel;
    what has been read does not change when more of the stream is there; and every bit gives
    at most 258 bytes. *)

From Stdlib Require Import ZArith Lia Bool.
From stdpp Require Import base numbers list option.
From S2P Require Import Prelude Deflate InfTrees Canon InfTreesProofs InfTreesSort InfTreesTheorems.
Open Scope Z_scope.

(** ** Reading takes bits *)

(** A reader that takes at least [n] bits. *)
Definition takes {A} (n : nat) (bs : list bool) (r : read A) : Prop :=
  match r with Got _ rest => (length rest + n <= length bs)%nat | _ => True end.

Lemma takes_bind {A B} n m bs (r : read A) (f : A -> list bool -> read B) :
  takes n bs r -> (forall a rest, r = Got a rest -> takes m rest (f a rest)) -> takes (n + m) bs (rbind r f).
Proof.
  destruct r as [a rest| |]; cbn; auto. intros H1 H2. specialize (H2 a rest eq_refl).
  destruct (f a rest); cbn in *; auto. lia.
Qed.
Lemma takes_le {A} n m bs (r : read A) : (m <= n)%nat -> takes n bs r -> takes m bs r.
Proof. intros H. destruct r; cbn; auto. lia. Qed.
Lemma takes_getbits n bs : takes n bs (getbits n bs).
Proof. unfold getbits. case_decide; cbn; [|done]. rewrite length_drop. lia. Qed.
Lemma takes_decode lens bs : takes 1 bs (decode lens bs).
Proof.
  unfold decode. destruct (filter (starts_with lens bs) (symbols lens)) as [|s xs] eqn:E; [by case_decide|].
  assert (Hs : s ∈ filter (starts_with lens bs) (symbols lens)) by (rewrite E; apply list_elem_of_here).
  apply list_elem_of_filter in Hs as [(Hc & Hp) _]. apply prefix_length in Hp. rewrite length_codeword in *.
  unfold has_code in Hc. cbn. rewrite length_drop. lia.
Qed.
Lemma takes_get_extra e b bs : takes e bs (get_extra e b bs).
Proof.
  unfold get_extra. eapply takes_le; [|apply (takes_bind e 0); [apply takes_getbits|]]; [lia|]. intros a rest _. cbn. lia.
Qed.
Lemma takes_read_dist dists len bs : takes 1 bs (read_dist dists len bs).
Proof.
  unfold read_dist. apply (takes_bind 1 0); [apply takes_decode|]. intros s rest _.
  destruct (dist_base !! s) as [[e b]|]; [|done]. eapply takes_le; [|apply (takes_bind e 0); [apply takes_get_extra|]]; [lia|].
  intros d rest' _. cbn. lia.
Qed.
Lemma takes_read_item lits dists bs : takes 1 bs (read_item lits dists bs).
Proof.
  unfold read_item. apply (takes_bind 1 0); [apply takes_decode|]. intros s rest _.
  destruct (s <? 256)%nat; [cbn; lia|]. destruct (s =? 256)%nat; [cbn; lia|].
  destruct (length_base !! _) as [[e b]|]; [|done].
  eapply takes_le; [|apply (takes_bind e 1); [apply takes_get_extra|intros; apply takes_read_dist]]. lia.
Qed.
Lemma read_item_small lits dists bs : match read_item lits dists bs with Got (Literal b) _ => is_u8 b | _ => True end.
Proof.
  unfold read_item. destruct (decode lits bs) as [s rest| |]; cbn [rbind]; [|done|done].
  destruct (s <? 256)%nat eqn:E; [apply Nat.ltb_lt in E; unfold is_u8; lia|]. destruct (s =? 256)%nat; [done|].
  destruct (length_base !! _) as [[e b]|]; [|done]. destruct (get_extra e b rest) as [len rest'| |]; cbn [rbind]; [|done|done].
  unfold read_dist. destruct (decode dists rest') as [c r2| |]; cbn [rbind]; [|done|done].
  destruct (dist_base !! c) as [[e' b']|]; [|done]. by destruct (get_extra e' b' r2).
Qed.
Lemma takes_code_lengths syms cl bs : takes 0 bs (read_code_lengths syms cl bs).
Proof.
  revert cl bs. induction syms as [|s syms IH]; intros cl bs; cbn [read_code_lengths]; [cbn; lia|].
  eapply takes_le; [|apply (takes_bind 3 0); [apply takes_getbits|intros; apply IH]]. lia.
Qed.
Lemma takes_decode_length cl bs : takes 1 bs (decode_length cl bs).
Proof.
  unfold decode_length. case_decide; [|apply takes_decode].
  apply (takes_bind 1 0); [apply takes_getbits|]. intros; cbn; lia.
Qed.
Lemma takes_repeat total acc l n bs : takes 0 bs (repeat_length total acc l n bs).
Proof. unfold repeat_length. case_match; cbn; lia || done. Qed.
Lemma takes_next_lengths cl total acc bs : takes 1 bs (next_lengths cl total acc bs).
Proof.
  unfold next_lengths. apply (takes_bind 1 0); [apply takes_decode_length|]. intros s rest _.
  destruct (s <? 16)%nat; [cbn; lia|]. destruct (s =? 16)%nat; [|destruct (s =? 17)%nat].
  all: eapply takes_le; [|eapply takes_bind; [apply takes_getbits|intros; try case_match; try apply takes_repeat; done]]; lia.
Qed.
Lemma takes_read_lengths fuel cl total acc bs : takes 0 bs (read_lengths fuel cl total acc bs).
Proof.
  revert acc bs. induction fuel as [|fuel IH]; intros acc bs; cbn [read_lengths]; [cbn; lia|].
  destruct (length acc <? total)%nat; [|cbn; lia].
  eapply takes_le; [|eapply takes_bind; [apply takes_next_lengths|intros; apply IH]]. lia.
Qed.
Lemma takes_make_codes n lens bs : takes 0 bs (make_codes n lens bs).
Proof. unfold make_codes. case_decide; cbn; lia || done. Qed.
Lemma takes_read_codes n m cl bs : takes 0 bs (read_codes n m cl bs).
Proof.
  unfold read_codes. case_decide; [|done]. apply (takes_bind 0 0); [apply takes_read_lengths|]. intros; apply takes_make_codes.
Qed.
Lemma takes_read_dynamic bs : takes 14 bs (read_dynamic bs).
Proof.
  unfold read_dynamic. apply (takes_bind 14 0); [apply takes_getbits|]. intros x rest _. cbv zeta.
  case_match; [done|]. apply (takes_bind 0 0); [apply takes_code_lengths|]. intros; apply takes_read_codes.
Qed.

(** ** The result does not depend on the fuel *)

Section result.
Context (zlib : bool) (wbits : Z).
Abbreviation step := (step zlib wbits).
Abbreviation run := (run zlib wbits).
Abbreviation result := (result zlib wbits).

(** A step that goes on leaves fewer bits than [n]. *)
Definition shortens (n : nat) (o : outcome) : Prop := match o with Go c => (length (c_bits c) < n)%nat | Stop _ => True end.

Lemma shortens_after {A} n m bs (r : read A) k :
  takes n bs r -> (forall a rest, r = Got a rest -> shortens m (k a rest)) -> (m <= length bs)%nat -> shortens (length bs) (after r k).
Proof.
  intros H1 H2 Hm. destruct r as [a rest| |]; cbn; auto. specialize (H2 a rest eq_refl).
  destruct (k a rest) as [c|]; cbn in *; [lia|done].
Qed.
Lemma align_le bs : (length (align bs) <= length bs)%nat.
Proof. unfold align. rewrite length_drop. lia. Qed.

Lemma step_shortens c : shortens (length (c_bits c)) (step c).
Proof.
  unfold Deflate.step. destruct (c_phase c) as [| |n|lits dists].
  - unfold step_header. pose proof (takes_getbits 16 (c_bits c)) as H.
    destruct (getbits 16 (c_bits c)) as [v rest| |]; cbn in H |- *; auto.
    repeat (case_match; cbn; auto). destruct (getbits 32 rest); cbn; auto. lia.
  - destruct (c_last c).
    + unfold step_end. destruct zlib; [|done]. destruct (getbits 32 _); cbn; auto. case_match; done.
    + pose proof (takes_getbits 3 (c_bits c)) as H. destruct (getbits 3 (c_bits c)) as [v rest| |]; cbn in H |- *; auto.
      destruct (v / 2 =? 0); [|destruct (v / 2 =? 1); [cbn; lia|destruct (v / 2 =? 2); [|done]]].
      * unfold step_stored. pose proof (takes_getbits 32 (align rest)) as H2. pose proof (align_le rest) as Ha.
        revert H2 Ha. generalize (align rest). intros rest0 H2 Ha. destruct (getbits 32 rest0) as [v' rest'| |]; cbn in H2 |- *; auto.
        destruct (v' `mod` 65536 =? 65535 - v' / 65536); cbn; [lia|done].
      * pose proof (takes_read_dynamic rest) as H2. destruct (read_dynamic rest) as [[lits dists] rest'| |]; cbn in H2 |- *; auto. lia.
  - pose proof (takes_getbits 8 (c_bits c)) as H. destruct (getbits 8 (c_bits c)); cbn in H |- *; auto. lia.
  - pose proof (takes_read_item lits dists (c_bits c)) as H. destruct (read_item lits dists (c_bits c)) as [i rest| |]; cbn in H |- *; auto.
    destruct i; cbn; [lia|unfold step_match; case_match; cbn; [done|lia]|lia].
Qed.

Lemma run_enough n m c : (length (c_bits c) <= n)%nat -> (length (c_bits c) <= m)%nat -> run n c = run m c.
Proof.
  revert m c. induction n as [|n IH]; intros m c Hn Hm.
  - destruct m; [done|]. cbn [Deflate.run]. pose proof (step_shortens c) as H. destruct (step c); [|done]. cbn in H. lia.
  - destruct m as [|m]; cbn [Deflate.run]; pose proof (step_shortens c) as H; destruct (step c) as [c'|]; try done; cbn in H; [lia|].
    apply IH; lia.
Qed.

(** What is to come, from the outcome of a step. *)
Definition fin (out : list Z) (o : outcome) : verdict * list Z :=
  match o with Stop v => (v, out) | Go c => result c end.
Lemma result_step c : result c = fin (c_out c) (step c).
Proof.
  unfold Deflate.result at 1. pose proof (step_shortens c) as H. destruct (length (c_bits c)) as [|n] eqn:E; cbn [Deflate.run].
  - destruct (step c); cbn in *; [lia|done].
  - destruct (step c) as [c'|]; cbn in *; [|done]. apply run_enough; lia.
Qed.

(** Stored bytes, all at once. *)
Lemma result_stored a last n bs out :
  Forall is_u8 a -> 0 <= n -> Z.of_nat (length a) <= n ->
  result (mkConf last (if n =? 0 then Header else Stored n) (bits_of_bytes a ++ bs) out) =
  result (mkConf last (if n - Z.of_nat (length a) =? 0 then Header else Stored (n - Z.of_nat (length a))) bs (out ++ a)).
Proof.
  revert n out. induction a as [|x a IH]; intros n out Ha Hn Hle.
  { cbn [length]. rewrite Z.sub_0_r, app_nil_r. done. }
  apply Forall_cons_1 in Ha as [Hx Ha]. cbn [length] in *. rewrite (proj2 (Z.eqb_neq n 0)) by lia.
  rewrite bits_of_bytes_cons, <- app_assoc, result_step. unfold Deflate.step. cbn [c_phase c_bits c_out c_last].
  rewrite getbits_ok by (rewrite length_app, length_to_lsb; lia). cbn [after].
  rewrite lsb_app, length_to_lsb, Z.mul_comm, Z.mod_add, lsb_to_lsb, Z.mod_mod by done. change (2 ^ Z.of_nat 8) with 256.
  rewrite (Z.mod_small x) by (unfold is_u8 in Hx; lia). rewrite drop_app_length' by (by rewrite length_to_lsb).
  cbn [fin]. specialize (IH (n - 1) (out ++ [x]) Ha ltac:(lia) ltac:(lia)). rewrite <- app_assoc in IH.
  replace (n - 1 =? 0) with (n =? 1) in IH by (split_bool; lia). rewrite IH.
  replace (n - Z.of_nat (S (length a))) with (n - 1 - Z.of_nat (length a)) by lia. done.
Qed.
End result.

(** ** More of the stream *)

Lemma getbits_app n bs F v rest : getbits n bs = Got v rest -> getbits n (bs ++ F) = Got v (rest ++ F).
Proof.
  unfold getbits. case_decide as H; [|done]. intros E. injection E as <- <-.
  rewrite decide_True by (rewrite length_app; lia). by rewrite take_app_le, drop_app_le by lia.
Qed.

Section codes.
Context (type : codetype) (ls : list Z).
Context (Hacc : acceptable type ls) (Hr : Forall (fun l => 0 <= l <= 15) ls) (Hbig : Z.of_nat (length ls) < 65536).

Lemma acceptable_kraft : total (used_lens ls (length ls)) <= 32768.
Proof.
  pose proof (kraft_total ls (length ls) (le_n _)) as Hk. unfold InfTreesSort.ls in Hk. rewrite firstn_all in Hk. rewrite <- Hk.
  destruct Hacc as [Hu|[Hc|[_ [Hs _]]]].
  - clear - Hu. unfold kraft. induction ls as [|x xs IH]; [done|]. unfold unused in Hu. apply Forall_cons_1 in Hu as [<- Hu].
    cbn [foldr]. specialize (IH Hu). cbn [Z.ltb Z.compare]. lia.
  - unfold complete in Hc. rewrite Hc. done.
  - rewrite Hs. done.
Qed.

(** Codewords are prefix-free. *)
Lemma begins_unique h s s' : begins ls h s -> begins ls h s' -> s = s'.
Proof.
  assert (Hr' : Forall (fun l => 0 <= l <= 15) (take (length ls) ls)) by (by rewrite firstn_all).
  assert (Hpos : forall s, begins ls h s -> exists i, InfTreesSort.ordered ls (length ls) 16 !! i = Some s /\
    matches (InfTreesSort.lengths ls (length ls) 16) i h).
  { intros t (Hc & Ht & Hm). pose proof (position ls (length ls) (le_n _) Hr' t) as Hp.
    unfold InfTreesSort.ls in Hp. rewrite firstn_all in Hp. destruct (Hp Ht Hc) as (i & Hi & Hl & _).
    exists i. split; [done|]. pose proof (matches_codeword ls (length ls)) as Hmc. unfold InfTreesSort.ls in Hmc.
    rewrite firstn_all in Hmc. eapply Hmc; eauto using acceptable_kraft. }
  intros H1 H2. destruct (Hpos s H1) as (i & Hi & Hmi). destruct (Hpos s' H2) as (j & Hj & Hmj).
  rewrite (matches_unique _ _ _ _ Hmi Hmj), Hj in Hi. by injection Hi.
Qed.

Lemma starts_begins bs s : starts_with ls bs s -> begins ls (lsb bs) s /\ (Z.to_nat (code_length ls s) <= length bs)%nat.
Proof.
  intros [Hc Hp]. destruct (code_length_in _ _ Hc) as [_ Hs]. apply prefix_lsb in Hp as [Hl Hm]. rewrite length_codeword in *.
  unfold has_code in Hc. rewrite Z2Nat.id in Hm by lia. split; [|lia]. split; [done|]. split; [done|]. done.
Qed.

Lemma decode_got bs s : starts_with ls bs s -> decode ls bs = Got s (drop (Z.to_nat (code_length ls s)) bs).
Proof.
  intros Hs. unfold decode. assert (Hin : s ∈ filter (starts_with ls bs) (symbols ls)).
  { apply list_elem_of_filter. split; [done|]. apply elem_of_seq. destruct Hs as [Hc _]. apply code_length_in in Hc. lia. }
  destruct (filter (starts_with ls bs) (symbols ls)) as [|s' xs] eqn:E; [by apply not_elem_of_nil in Hin|].
  assert (Hin' : s' ∈ filter (starts_with ls bs) (symbols ls)) by (rewrite E; apply list_elem_of_here).
  apply list_elem_of_filter in Hin' as [Hs' _].
  assert (s' = s) as -> by (eapply begins_unique; apply starts_begins; eauto). by rewrite length_codeword.
Qed.

Lemma got_starts bs s rest : decode ls bs = Got s rest -> starts_with ls bs s.
Proof.
  unfold decode. destruct (filter (starts_with ls bs) (symbols ls)) as [|s' xs] eqn:E; [by case_decide|].
  intros H. injection H as -> _.
  assert (Hin' : s ∈ filter (starts_with ls bs) (symbols ls)) by (rewrite E; apply list_elem_of_here).
  by apply list_elem_of_filter in Hin' as [Hs' _].
Qed.

Lemma decode_app bs F s rest : decode ls bs = Got s rest -> decode ls (bs ++ F) = Got s (rest ++ F).
Proof.
  intros H. pose proof (got_starts _ _ _ H) as Hs. rewrite (decode_got _ _ Hs) in H. injection H as <-.
  pose proof (starts_begins _ _ Hs) as [_ Hl]. rewrite (decode_got _ s).
  - by rewrite drop_app_le.
  - destruct Hs as [Hc Hp]. split; [done|]. by apply prefix_app_r.
Qed.
Lemma decode_app_bad bs F : decode ls bs = Bad -> decode ls (bs ++ F) = Bad.
Proof.
  unfold decode. destruct (filter (starts_with ls bs) (symbols ls)) as [|s' xs] eqn:E; [|done].
  case_decide as Hm; [done|]. intros _.
  assert (Hno : forall s, s ∈ symbols ls -> ~ starts_with ls bs s).
  { intros s Hs Hst. assert (Hin : s ∈ filter (starts_with ls bs) (symbols ls)) by (by apply list_elem_of_filter).
    rewrite E in Hin. by apply not_elem_of_nil in Hin. }
  assert (Hno2 : forall s, s ∈ symbols ls -> has_code ls s -> ~ (bs `prefix_of` codeword ls s)).
  { intros s Hs Hc Hp. apply Hm. right. apply list.Exists_exists. exists s. done. }
  replace (filter (starts_with ls (bs ++ F)) (symbols ls)) with (@nil nat).
  - rewrite decide_False; [done|]. intros [Hnil|Hex].
    + apply app_eq_nil in Hnil as [-> _]. apply Hm. by left.
    + apply list.Exists_exists in Hex as (s & Hs & Hc & Hp). eapply Hno2; eauto. eapply prefix_app_l; eauto.
  - symmetry. destruct (filter (starts_with ls (bs ++ F)) (symbols ls)) as [|s ys] eqn:E2; [done|]. exfalso.
    assert (Hin : s ∈ filter (starts_with ls (bs ++ F)) (symbols ls)) by (rewrite E2; apply list_elem_of_here).
    apply list_elem_of_filter in Hin as [[Hc Hp] Hs].
    destruct (prefix_weak_total (codeword ls s) bs (bs ++ F)) as [H1|H1]; auto; [by apply prefix_app_r|by apply (Hno s)|by apply (Hno2 s)].
Qed.

(** What may still become a codeword does not turn out to be none. *)
Lemma more_not_bad p bs : p <> [] -> decode ls p = More -> decode ls bs <> Bad.
Proof.
  intros Hne Hm Hbad. pose proof (decode_cases ls p type Hacc Hr Hbig) as H1. rewrite Hm in H1.
  pose proof (decode_cases ls bs type Hacc Hr Hbig) as H2. rewrite Hbad in H2. destruct H2 as [Hno _].
  destruct H1 as [(s & Hs & Hlt)|[_ ?]]; [|done]. pose proof Hs as (Hc & _). destruct (code_length_in _ _ Hc) as [Hin _].
  unfold has_code in Hc. destruct Hacc as [Hu|[Hcomp|[_ [_ Hsingle]]]].
  - unfold unused in Hu. rewrite list.Forall_forall in Hu. apply Hu in Hin. lia.
  - pose proof (complete_begins ls (length ls)) as Hb. unfold InfTreesSort.ls in Hb. rewrite firstn_all in Hb.
    destruct (Hb (le_n _) Hbig Hr (lsb bs) Hcomp) as [s' Hs']. by apply (Hno s').
  - rewrite list.Forall_forall in Hsingle. apply Hsingle in Hin. destruct p; [done|]. cbn [length] in Hlt. lia.
Qed.
End codes.

Lemma get_extra_app e b bs F v rest : get_extra e b bs = Got v rest -> get_extra e b (bs ++ F) = Got v (rest ++ F).
Proof.
  unfold get_extra. destruct (getbits e bs) as [x r| |] eqn:E; cbn; [|done|done]. intros H. injection H as <- <-.
  by rewrite (getbits_app _ _ F _ _ E).
Qed.
Lemma get_extra_bad e b bs : get_extra e b bs <> Bad.
Proof. unfold get_extra, getbits. by case_decide. Qed.

Section items.
Context (lits dists : list Z).
Context (Hl : acceptable LENS lits) (Hlr : Forall (fun l => 0 <= l <= 15) lits) (Hlb : Z.of_nat (length lits) < 65536).
Context (Hd : acceptable DISTS dists) (Hdr : Forall (fun l => 0 <= l <= 15) dists) (Hdb : Z.of_nat (length dists) < 65536).

Lemma read_dist_app len bs F :
  match read_dist dists len bs with
  | Got i rest => read_dist dists len (bs ++ F) = Got i (rest ++ F)
  | Bad => read_dist dists len (bs ++ F) = Bad
  | More => True
  end.
Proof.
  unfold read_dist. destruct (decode dists bs) as [s rest| |] eqn:E; cbn [rbind]; [|by rewrite (decode_app_bad _ _ _ E)|done].
  rewrite (decode_app _ _ Hd Hdr Hdb _ _ _ _ E). cbn [rbind]. destruct (dist_base !! s) as [[e b]|]; [|done].
  destruct (get_extra e b rest) as [x r| |] eqn:Ex; cbn [rbind]; [|by apply get_extra_bad in Ex|done].
  by rewrite (get_extra_app _ _ _ _ _ _ Ex).
Qed.
Lemma read_item_app bs F :
  match read_item lits dists bs with
  | Got i rest => read_item lits dists (bs ++ F) = Got i (rest ++ F)
  | Bad => read_item lits dists (bs ++ F) = Bad
  | More => True
  end.
Proof.
  unfold read_item. destruct (decode lits bs) as [s rest| |] eqn:E; cbn [rbind]; [|by rewrite (decode_app_bad _ _ _ E)|done].
  rewrite (decode_app _ _ Hl Hlr Hlb _ _ _ _ E). cbn [rbind]. destruct (s <? 256)%nat; [done|]. destruct (s =? 256)%nat; [done|].
  destruct (length_base !! (s - 257)%nat) as [[e b]|]; [|done].
  destruct (get_extra e b rest) as [x r| |] eqn:Ex; cbn [rbind]; [|by apply get_extra_bad in Ex|done].
  rewrite (get_extra_app _ _ _ _ _ _ Ex). cbn [rbind]. apply read_dist_app.
Qed.
End items.

(** ** Code lengths *)

(** The extra bits of a symbol of the code length code, and what it stands for. *)
Definition xbits (s : nat) : nat := if (s <? 16)%nat then 0 else if (s =? 16)%nat then 2 else if (s =? 17)%nat then 3 else 7.
Definition lengths_after (total : nat) (acc : list Z) (s : nat) (x : Z) (bs : list bool) : read (list Z) :=
  if (s <? 16)%nat then Got (acc ++ [Z.of_nat s]) bs
  else if (s =? 16)%nat then
    match acc !! pred (length acc) with None => Bad | Some l => repeat_length total acc l (3 + x) bs end
  else if (s =? 17)%nat then repeat_length total acc 0 (3 + x) bs
  else repeat_length total acc 0 (11 + x) bs.
Lemma next_lengths_eq cl total acc bs :
  next_lengths cl total acc bs =
  rbind (decode_length cl bs) (fun s bs => rbind (getbits (xbits s) bs) (fun x bs => lengths_after total acc s x bs)).
Proof.
  unfold next_lengths, xbits, lengths_after. destruct (decode_length cl bs) as [s rest| |]; cbn [rbind]; [|done|done].
  destruct (s <? 16)%nat; [|by destruct (s =? 16)%nat, (s =? 17)%nat]. rewrite getbits_ok by lia. done.
Qed.
Lemma lengths_after_not_more total acc s x bs : lengths_after total acc s x bs <> More.
Proof. unfold lengths_after, repeat_length. repeat case_match; done. Qed.
Lemma decode_length_more type cl bs :
  acceptable type cl -> Forall (fun l => 0 <= l <= 15) cl -> Z.of_nat (length cl) < 65536 -> decode cl bs = More -> decode_length cl bs = More.
Proof.
  intros Hacc Hr Hb Hm. unfold decode_length. case_decide as Hu; [|done]. pose proof (decode_cases cl bs type Hacc Hr Hb) as H. rewrite Hm in H.
  destruct H as [(s & (Hc & _) & _)|[_ ->]]; [|done]. destruct (code_length_in _ _ Hc) as [Hin _]. unfold unused in Hu. rewrite list.Forall_forall in Hu.
  apply Hu in Hin. unfold has_code in Hc. lia.
Qed.
(** The repeated length and the count. *)
Definition repeated (acc : list Z) (s : nat) (x : Z) : option (Z * Z) :=
  if (s =? 16)%nat then (l ← acc !! pred (length acc); Some (l, 3 + x))
  else if (s =? 17)%nat then Some (0, 3 + x) else Some (0, 11 + x).
Lemma lengths_after_repeated total acc s x bs :
  (16 <= s)%nat ->
  lengths_after total acc s x bs = match repeated acc s x with None => Bad | Some (l, n) => repeat_length total acc l n bs end.
Proof.
  intros Hs. unfold lengths_after, repeated. rewrite (proj2 (Nat.ltb_ge s 16)) by done. destruct (s =? 16)%nat; [by destruct (acc !! _)|]. by destruct (s =? 17)%nat.
Qed.
Lemma repeated_range acc s x :
  Forall (fun l => 0 <= l <= 15) acc -> 0 <= x -> match repeated acc s x with Some (v, n) => 0 <= v <= 15 /\ 3 <= n | None => True end.
Proof.
  intros Ha Hx. unfold repeated. destruct (s =? 16)%nat; [|destruct (s =? 17)%nat; lia].
  destruct (acc !! pred (length acc)) as [v|] eqn:E; cbn; [|done]. split; [by apply (Forall_lookup_1 _ _ _ _ Ha) in E|lia].
Qed.

(** ** Bounds on what a stream expands to

    Output is only ever added to, and every bit of input gives at most 258 bytes. *)

(** ** Matches *)

Lemma copy_match_add n m d h : copy_match (n + m) d h = copy_match m d (copy_match n d h).
Proof. revert h. induction n as [|n IH]; intros h; [done|]. cbn. apply IH. Qed.
Lemma copy_match_extends n d h : exists bytes, copy_match n d h = h ++ bytes /\ length bytes = n.
Proof.
  revert h. induction n as [|n IH]; intros h; [exists []; by rewrite app_nil_r|]. cbn [copy_match].
  destruct (IH (h ++ [default 0 (h !! (length h - d)%nat)])) as (bytes & -> & Hl). eexists. rewrite <- app_assoc. split; [done|].
  cbn. by rewrite Hl.
Qed.
Lemma copy_match_bytes n d h : Forall is_u8 h -> Forall is_u8 (copy_match n d h).
Proof.
  revert h. induction n as [|n IH]; intros h Hh; [done|]. cbn [copy_match]. apply IH, Forall_app. split; [done|]. constructor; [|done].
  destruct (h !! (length h - d)%nat) as [b|] eqn:E; cbn; [|unfold is_u8; lia]. by eapply Forall_lookup_1.
Qed.

Lemma getbits_range n bs v rest : getbits n bs = Got v rest -> 0 <= v < 2 ^ Z.of_nat n.
Proof.
  unfold getbits. case_decide as H; [|done]. intros E. injection E as <- _. pose proof (lsb_range (take n bs)) as Hr.
  rewrite length_take, Nat.min_l in Hr by done. done.
Qed.
Lemma read_item_match lits dists bs : match read_item lits dists bs with Got (Match len _) _ => len <= 258 | _ => True end.
Proof.
  assert (Hb : Forall (fun x => x.2 + 2 ^ Z.of_nat x.1 <= 259) length_base).
  { unfold length_base. repeat constructor; cbn; lia. }
  unfold read_item. destruct (decode lits bs) as [s rest| |]; cbn [rbind]; [|done|done].
  destruct (s <? 256)%nat; [done|]. destruct (s =? 256)%nat; [done|].
  destruct (length_base !! _) as [[e b]|] eqn:E; [|done]. apply (Forall_lookup_1 _ _ _ _ Hb) in E. cbn in E.
  unfold get_extra. destruct (getbits e rest) as [x rest'| |] eqn:Eg; cbn [rbind]; [|done|done]. apply getbits_range in Eg.
  unfold read_dist, get_extra. destruct (decode dists rest') as [c r2| |]; cbn [rbind]; [|done|done].
  destruct (dist_base !! c) as [[e' b']|]; [|done]. destruct (getbits e' r2) as [d r3| |]; cbn [rbind]; [|done|done]. lia.
Qed.

(** ** Steps *)

Section bounds.
Context (zlib : bool) (wbits : Z).
Abbreviation step := (step zlib wbits).
Abbreviation result := (result zlib wbits).
Abbreviation fin := (fin zlib wbits).

(** What a configuration may still grow to. *)
Definition ceiling (out : list Z) (bs : list bool) : nat := (length out + 258 * length bs)%nat.
(** A step from output [out] and [n] bits to read. *)
Definition grows (out : list Z) (bs : list bool) (o : outcome) : Prop :=
  match o with
  | Go c => out `prefix_of` c_out c /\ (ceiling (c_out c) (c_bits c) <= ceiling out bs)%nat
  | Stop _ => True
  end.
Lemma grows_same out bs c : c_out c = out -> (length (c_bits c) <= length bs)%nat -> grows out bs (Go c).
Proof. intros E H. cbn. rewrite E. split; [done|]. unfold ceiling. lia. Qed.
Lemma grows_stored last out bs : grows out bs (step_stored last out bs).
Proof.
  unfold step_stored. pose proof (takes_getbits 32 (align bs)) as H. pose proof (align_le bs) as Ha. revert H Ha. generalize (align bs). intros bs' H Ha.
  destruct (getbits 32 bs') as [v rest| |]; [|done|done].
  cbn [after]. cbn in H. destruct (v `mod` 65536 =? 65535 - v / 65536); [|done]. apply grows_same; cbn; [done|lia].
Qed.
Lemma grows_item last lits dists out bs : grows out bs (after (read_item lits dists bs) (step_item last lits dists out)).
Proof.
  pose proof (takes_read_item lits dists bs) as H. pose proof (read_item_match lits dists bs) as Hm.
  destruct (read_item lits dists bs) as [i rest| |]; cbn [after]; [|done|done]. cbn in H. destruct i as [b|len dist|]; cbn [step_item].
  - cbn. split; [by exists [b]|]. unfold ceiling. rewrite length_app. cbn. lia.
  - unfold step_match. case_match; [done|]. cbn. destruct (copy_match_extends (Z.to_nat len) (Z.to_nat dist) out) as (bytes & -> & Hl).
    split; [by exists bytes|]. unfold ceiling. rewrite length_app. lia.
  - apply grows_same; cbn; [done|lia].
Qed.
Lemma step_grows c : grows (c_out c) (c_bits c) (step c).
Proof.
  unfold Deflate.step. destruct (c_phase c) as [| |n|lits dists]; [| | |apply grows_item].
  - unfold step_header. pose proof (takes_getbits 16 (c_bits c)) as H.
    destruct (getbits 16 (c_bits c)) as [v rest| |]; cbn [after]; [|done|done]. cbn in H.
    repeat (case_match; [done || by destruct (getbits 32 rest)|]). apply grows_same; cbn; [done|lia].
  - destruct (c_last c).
    + unfold step_end. destruct zlib; [|done]. destruct (getbits 32 _); cbn; auto. case_match; done.
    + pose proof (takes_getbits 3 (c_bits c)) as H. destruct (getbits 3 (c_bits c)) as [v rest| |]; cbn [after]; [|done|done]. cbn in H.
      destruct (v / 2 =? 0); [|destruct (v / 2 =? 1); [apply grows_same; cbn; [done|lia]|destruct (v / 2 =? 2); [|done]]].
      * pose proof (grows_stored (Z.odd v) (c_out c) rest) as Hs. destruct (step_stored _ _ rest) as [c'|]; [|done].
        destruct Hs as [H1 H2]. split; [done|]. unfold ceiling in *. lia.
      * pose proof (takes_read_dynamic rest) as H2. destruct (read_dynamic rest) as [[lits dists] rest'| |]; cbn [after]; [|done|done]. cbn in H2.
        apply grows_same; cbn; [done|lia].
  - pose proof (takes_getbits 8 (c_bits c)) as H. destruct (getbits 8 (c_bits c)) as [b rest| |]; cbn [after]; [|done|done]. cbn in H.
    cbn. split; [by exists [b]|]. unfold ceiling. rewrite length_app. cbn. lia.
Qed.

(** ** Results *)

Definition bounded (out : list Z) (bs : list bool) (r : verdict * list Z) : Prop :=
  out `prefix_of` r.2 /\ (length r.2 <= ceiling out bs)%nat.
Lemma result_bounded c : bounded (c_out c) (c_bits c) (result c).
Proof.
  remember (length (c_bits c)) as n eqn:En. revert c En. induction (lt_wf n) as [n _ IH]. intros c ->.
  rewrite result_step. pose proof (step_grows c) as Hg. pose proof (step_shortens zlib wbits c) as Hs. destruct (step c) as [c'|v].
  - destruct Hg as [G1 G2]. destruct (IH _ Hs c' eq_refl) as [H1 H2]. cbn [DeflateProofs.fin]. split; [by etrans|lia].
  - split; [done|]. cbn. unfold ceiling. lia.
Qed.
Lemma fin_bounded out bs o : grows out bs o -> bounded out bs (fin out o).
Proof.
  destruct o as [c|v]; cbn [grows DeflateProofs.fin].
  - intros [H1 H2]. destruct (result_bounded c) as [H3 H4]. split; [by etrans|lia].
  - intros _. split; [done|]. cbn. unfold ceiling. lia.
Qed.

(** ** What is left *)

(** What follows a stream is no longer than the bits it was read from. *)
Definition spares (bs : list bool) (o : outcome) : Prop :=
  match o with
  | Go c => (length (c_bits c) <= length bs)%nat
  | Stop (Complete rest) => (length rest <= length bs)%nat
  | Stop _ => True
  end.
Definition leaves (bs : list bool) (r : verdict * list Z) : Prop :=
  match r.1 with Complete rest => (length rest <= length bs)%nat | _ => True end.
Lemma spares_mono bs bs' o : (length bs <= length bs')%nat -> spares bs o -> spares bs' o.
Proof. intros Hl. destruct o as [c|[rest| | |]]; cbn; auto; lia. Qed.
Lemma spares_after {A} bs (r : read A) k :
  takes 0 bs r -> (forall a rest, spares rest (k a rest)) -> spares bs (after r k).
Proof.
  intros Ht Hk. destruct r as [a rest| |]; cbn [after]; [|done|done]. cbn in Ht. eapply spares_mono; [|apply Hk]. lia.
Qed.
Lemma spares_getbits n bs k : (forall v rest, spares rest (k v rest)) -> spares bs (after (getbits n bs) k).
Proof. apply spares_after. eapply takes_le; [|apply takes_getbits]. lia. Qed.
Lemma spares_end out bs : spares bs (step_end zlib out bs).
Proof. unfold step_end. destruct zlib; [|cbn; lia]. apply spares_getbits. intros v rest. destruct (_ =? _); cbn; lia || done. Qed.
Lemma spares_stored last out bs : spares bs (step_stored last out bs).
Proof.
  unfold step_stored. eapply spares_mono; [apply align_le|]. apply spares_getbits. intros v rest.
  destruct (_ =? _); cbn; [lia|done].
Qed.
Lemma spares_item last lits dists out i bs : spares bs (step_item last lits dists out i bs).
Proof. destruct i; cbn; [lia| |lia]. unfold step_match. destruct (_ <? _); cbn; [done|lia]. Qed.
Lemma step_spares c : spares (c_bits c) (step c).
Proof.
  unfold Deflate.step. destruct (c_phase c) as [| |n|lits dists].
  - apply spares_getbits. intros v rest. cbv zeta. repeat (case_match; [done || by destruct (getbits 32 rest)|]). cbn. lia.
  - destruct (c_last c); [eapply spares_mono; [apply align_le|]; apply spares_end|].
    apply spares_getbits. intros v rest. cbv zeta. destruct (v / 2 =? 0); [apply spares_stored|]. destruct (v / 2 =? 1); [cbn; lia|].
    destruct (v / 2 =? 2); [|done]. apply spares_after; [|intros [lits dists] rest'; cbn; lia].
    eapply takes_le; [|apply takes_read_dynamic]. lia.
  - apply spares_getbits. intros v rest. cbn. lia.
  - apply spares_after; [|intros; apply spares_item]. eapply takes_le; [|apply takes_read_item]. lia.
Qed.
Lemma result_leaves c : leaves (c_bits c) (result c).
Proof.
  remember (length (c_bits c)) as n eqn:En. revert c En. induction (lt_wf n) as [n _ IH]. intros c ->.
  rewrite result_step. pose proof (step_spares c) as Hg. pose proof (step_shortens zlib wbits c) as Hs. destruct (step c) as [c'|v]; [|by destruct v].
  cbn [DeflateProofs.fin]. specialize (IH _ Hs c' eq_refl). unfold leaves in *. destruct (result c').1; auto. cbn in Hg. lia.
Qed.
Lemma fin_leaves out bs o : spares bs o -> leaves bs (fin out o).
Proof.
  destruct o as [c|v]; cbn [DeflateProofs.fin]; [|by destruct v]. intros H. pose proof (result_leaves c) as Hc. unfold leaves in *.
  destruct (result c).1; auto. cbn in H. lia.
Qed.
Lemma inflated_bounded bytes : (length (inflated zlib wbits bytes).2 <= 2064 * length bytes)%nat.
Proof.
  destruct (result_bounded (mkConf false (if zlib then WrapHeader else Header) (bits_of_bytes bytes) [])) as [_ H].
  unfold ceiling in H. cbn [c_out c_bits length] in H. rewrite length_bits_of_bytes in H. unfold inflated. lia.
Qed.
End bounds.
