(* ===== verification/InfFixed.v ===== *)
(** * The tables of fixed codes

    The contents of lib/zlib_inflate/inffixed.h. *)

From Stdlib Require Import ZArith.
From stdpp Require Import base list.
From S2P Require Import Prelude InfTrees.
Open Scope Z_scope.

Definition lenfix : list code :=
  [mkCode 96 7 0; mkCode 0 8 80; mkCode 0 8 16; mkCode 20 8 115; mkCode 18 7 31; mkCode 0 8 112;
   mkCode 0 8 48; mkCode 0 9 192; mkCode 16 7 10; mkCode 0 8 96; mkCode 0 8 32; mkCode 0 9 160;
   mkCode 0 8 0; mkCode 0 8 128; mkCode 0 8 64; mkCode 0 9 224; mkCode 16 7 6; mkCode 0 8 88;
   mkCode 0 8 24; mkCode 0 9 144; mkCode 19 7 59; mkCode 0 8 120; mkCode 0 8 56; mkCode 0 9 208;
   mkCode 17 7 17; mkCode 0 8 104; mkCode 0 8 40; mkCode 0 9 176; mkCode 0 8 8; mkCode 0 8 136;
   mkCode 0 8 72; mkCode 0 9 240; mkCode 16 7 4; mkCode 0 8 84; mkCode 0 8 20; mkCode 21 8 227;
   mkCode 19 7 43; mkCode 0 8 116; mkCode 0 8 52; mkCode 0 9 200; mkCode 17 7 13; mkCode 0 8 100;
   mkCode 0 8 36; mkCode 0 9 168; mkCode 0 8 4; mkCode 0 8 132; mkCode 0 8 68; mkCode 0 9 232;
   mkCode 16 7 8; mkCode 0 8 92; mkCode 0 8 28; mkCode 0 9 152; mkCode 20 7 83; mkCode 0 8 124;
   mkCode 0 8 60; mkCode 0 9 216; mkCode 18 7 23; mkCode 0 8 108; mkCode 0 8 44; mkCode 0 9 184;
   mkCode 0 8 12; mkCode 0 8 140; mkCode 0 8 76; mkCode 0 9 248; mkCode 16 7 3; mkCode 0 8 82;
   mkCode 0 8 18; mkCode 21 8 163; mkCode 19 7 35; mkCode 0 8 114; mkCode 0 8 50; mkCode 0 9 196;
   mkCode 17 7 11; mkCode 0 8 98; mkCode 0 8 34; mkCode 0 9 164; mkCode 0 8 2; mkCode 0 8 130;
   mkCode 0 8 66; mkCode 0 9 228; mkCode 16 7 7; mkCode 0 8 90; mkCode 0 8 26; mkCode 0 9 148;
   mkCode 20 7 67; mkCode 0 8 122; mkCode 0 8 58; mkCode 0 9 212; mkCode 18 7 19; mkCode 0 8 106;
   mkCode 0 8 42; mkCode 0 9 180; mkCode 0 8 10; mkCode 0 8 138; mkCode 0 8 74; mkCode 0 9 244;
   mkCode 16 7 5; mkCode 0 8 86; mkCode 0 8 22; mkCode 64 8 0; mkCode 19 7 51; mkCode 0 8 118;
   mkCode 0 8 54; mkCode 0 9 204; mkCode 17 7 15; mkCode 0 8 102; mkCode 0 8 38; mkCode 0 9 172;
   mkCode 0 8 6; mkCode 0 8 134; mkCode 0 8 70; mkCode 0 9 236; mkCode 16 7 9; mkCode 0 8 94;
   mkCode 0 8 30; mkCode 0 9 156; mkCode 20 7 99; mkCode 0 8 126; mkCode 0 8 62; mkCode 0 9 220;
   mkCode 18 7 27; mkCode 0 8 110; mkCode 0 8 46; mkCode 0 9 188; mkCode 0 8 14; mkCode 0 8 142;
   mkCode 0 8 78; mkCode 0 9 252; mkCode 96 7 0; mkCode 0 8 81; mkCode 0 8 17; mkCode 21 8 131;
   mkCode 18 7 31; mkCode 0 8 113; mkCode 0 8 49; mkCode 0 9 194; mkCode 16 7 10; mkCode 0 8 97;
   mkCode 0 8 33; mkCode 0 9 162; mkCode 0 8 1; mkCode 0 8 129; mkCode 0 8 65; mkCode 0 9 226;
   mkCode 16 7 6; mkCode 0 8 89; mkCode 0 8 25; mkCode 0 9 146; mkCode 19 7 59; mkCode 0 8 121;
   mkCode 0 8 57; mkCode 0 9 210; mkCode 17 7 17; mkCode 0 8 105; mkCode 0 8 41; mkCode 0 9 178;
   mkCode 0 8 9; mkCode 0 8 137; mkCode 0 8 73; mkCode 0 9 242; mkCode 16 7 4; mkCode 0 8 85;
   mkCode 0 8 21; mkCode 16 8 258; mkCode 19 7 43; mkCode 0 8 117; mkCode 0 8 53; mkCode 0 9 202;
   mkCode 17 7 13; mkCode 0 8 101; mkCode 0 8 37; mkCode 0 9 170; mkCode 0 8 5; mkCode 0 8 133;
   mkCode 0 8 69; mkCode 0 9 234; mkCode 16 7 8; mkCode 0 8 93; mkCode 0 8 29; mkCode 0 9 154;
   mkCode 20 7 83; mkCode 0 8 125; mkCode 0 8 61; mkCode 0 9 218; mkCode 18 7 23; mkCode 0 8 109;
   mkCode 0 8 45; mkCode 0 9 186; mkCode 0 8 13; mkCode 0 8 141; mkCode 0 8 77; mkCode 0 9 250;
   mkCode 16 7 3; mkCode 0 8 83; mkCode 0 8 19; mkCode 21 8 195; mkCode 19 7 35; mkCode 0 8 115;
   mkCode 0 8 51; mkCode 0 9 198; mkCode 17 7 11; mkCode 0 8 99; mkCode 0 8 35; mkCode 0 9 166;
   mkCode 0 8 3; mkCode 0 8 131; mkCode 0 8 67; mkCode 0 9 230; mkCode 16 7 7; mkCode 0 8 91;
   mkCode 0 8 27; mkCode 0 9 150; mkCode 20 7 67; mkCode 0 8 123; mkCode 0 8 59; mkCode 0 9 214;
   mkCode 18 7 19; mkCode 0 8 107; mkCode 0 8 43; mkCode 0 9 182; mkCode 0 8 11; mkCode 0 8 139;
   mkCode 0 8 75; mkCode 0 9 246; mkCode 16 7 5; mkCode 0 8 87; mkCode 0 8 23; mkCode 64 8 0;
   mkCode 19 7 51; mkCode 0 8 119; mkCode 0 8 55; mkCode 0 9 206; mkCode 17 7 15; mkCode 0 8 103;
   mkCode 0 8 39; mkCode 0 9 174; mkCode 0 8 7; mkCode 0 8 135; mkCode 0 8 71; mkCode 0 9 238;
   mkCode 16 7 9; mkCode 0 8 95; mkCode 0 8 31; mkCode 0 9 158; mkCode 20 7 99; mkCode 0 8 127;
   mkCode 0 8 63; mkCode 0 9 222; mkCode 18 7 27; mkCode 0 8 111; mkCode 0 8 47; mkCode 0 9 190;
   mkCode 0 8 15; mkCode 0 8 143; mkCode 0 8 79; mkCode 0 9 254; mkCode 96 7 0; mkCode 0 8 80;
   mkCode 0 8 16; mkCode 20 8 115; mkCode 18 7 31; mkCode 0 8 112; mkCode 0 8 48; mkCode 0 9 193;
   mkCode 16 7 10; mkCode 0 8 96; mkCode 0 8 32; mkCode 0 9 161; mkCode 0 8 0; mkCode 0 8 128;
   mkCode 0 8 64; mkCode 0 9 225; mkCode 16 7 6; mkCode 0 8 88; mkCode 0 8 24; mkCode 0 9 145;
   mkCode 19 7 59; mkCode 0 8 120; mkCode 0 8 56; mkCode 0 9 209; mkCode 17 7 17; mkCode 0 8 104;
   mkCode 0 8 40; mkCode 0 9 177; mkCode 0 8 8; mkCode 0 8 136; mkCode 0 8 72; mkCode 0 9 241;
   mkCode 16 7 4; mkCode 0 8 84; mkCode 0 8 20; mkCode 21 8 227; mkCode 19 7 43; mkCode 0 8 116;
   mkCode 0 8 52; mkCode 0 9 201; mkCode 17 7 13; mkCode 0 8 100; mkCode 0 8 36; mkCode 0 9 169;
   mkCode 0 8 4; mkCode 0 8 132; mkCode 0 8 68; mkCode 0 9 233; mkCode 16 7 8; mkCode 0 8 92;
   mkCode 0 8 28; mkCode 0 9 153; mkCode 20 7 83; mkCode 0 8 124; mkCode 0 8 60; mkCode 0 9 217;
   mkCode 18 7 23; mkCode 0 8 108; mkCode 0 8 44; mkCode 0 9 185; mkCode 0 8 12; mkCode 0 8 140;
   mkCode 0 8 76; mkCode 0 9 249; mkCode 16 7 3; mkCode 0 8 82; mkCode 0 8 18; mkCode 21 8 163;
   mkCode 19 7 35; mkCode 0 8 114; mkCode 0 8 50; mkCode 0 9 197; mkCode 17 7 11; mkCode 0 8 98;
   mkCode 0 8 34; mkCode 0 9 165; mkCode 0 8 2; mkCode 0 8 130; mkCode 0 8 66; mkCode 0 9 229;
   mkCode 16 7 7; mkCode 0 8 90; mkCode 0 8 26; mkCode 0 9 149; mkCode 20 7 67; mkCode 0 8 122;
   mkCode 0 8 58; mkCode 0 9 213; mkCode 18 7 19; mkCode 0 8 106; mkCode 0 8 42; mkCode 0 9 181;
   mkCode 0 8 10; mkCode 0 8 138; mkCode 0 8 74; mkCode 0 9 245; mkCode 16 7 5; mkCode 0 8 86;
   mkCode 0 8 22; mkCode 64 8 0; mkCode 19 7 51; mkCode 0 8 118; mkCode 0 8 54; mkCode 0 9 205;
   mkCode 17 7 15; mkCode 0 8 102; mkCode 0 8 38; mkCode 0 9 173; mkCode 0 8 6; mkCode 0 8 134;
   mkCode 0 8 70; mkCode 0 9 237; mkCode 16 7 9; mkCode 0 8 94; mkCode 0 8 30; mkCode 0 9 157;
   mkCode 20 7 99; mkCode 0 8 126; mkCode 0 8 62; mkCode 0 9 221; mkCode 18 7 27; mkCode 0 8 110;
   mkCode 0 8 46; mkCode 0 9 189; mkCode 0 8 14; mkCode 0 8 142; mkCode 0 8 78; mkCode 0 9 253;
   mkCode 96 7 0; mkCode 0 8 81; mkCode 0 8 17; mkCode 21 8 131; mkCode 18 7 31; mkCode 0 8 113;
   mkCode 0 8 49; mkCode 0 9 195; mkCode 16 7 10; mkCode 0 8 97; mkCode 0 8 33; mkCode 0 9 163;
   mkCode 0 8 1; mkCode 0 8 129; mkCode 0 8 65; mkCode 0 9 227; mkCode 16 7 6; mkCode 0 8 89;
   mkCode 0 8 25; mkCode 0 9 147; mkCode 19 7 59; mkCode 0 8 121; mkCode 0 8 57; mkCode 0 9 211;
   mkCode 17 7 17; mkCode 0 8 105; mkCode 0 8 41; mkCode 0 9 179; mkCode 0 8 9; mkCode 0 8 137;
   mkCode 0 8 73; mkCode 0 9 243; mkCode 16 7 4; mkCode 0 8 85; mkCode 0 8 21; mkCode 16 8 258;
   mkCode 19 7 43; mkCode 0 8 117; mkCode 0 8 53; mkCode 0 9 203; mkCode 17 7 13; mkCode 0 8 101;
   mkCode 0 8 37; mkCode 0 9 171; mkCode 0 8 5; mkCode 0 8 133; mkCode 0 8 69; mkCode 0 9 235;
   mkCode 16 7 8; mkCode 0 8 93; mkCode 0 8 29; mkCode 0 9 155; mkCode 20 7 83; mkCode 0 8 125;
   mkCode 0 8 61; mkCode 0 9 219; mkCode 18 7 23; mkCode 0 8 109; mkCode 0 8 45; mkCode 0 9 187;
   mkCode 0 8 13; mkCode 0 8 141; mkCode 0 8 77; mkCode 0 9 251; mkCode 16 7 3; mkCode 0 8 83;
   mkCode 0 8 19; mkCode 21 8 195; mkCode 19 7 35; mkCode 0 8 115; mkCode 0 8 51; mkCode 0 9 199;
   mkCode 17 7 11; mkCode 0 8 99; mkCode 0 8 35; mkCode 0 9 167; mkCode 0 8 3; mkCode 0 8 131;
   mkCode 0 8 67; mkCode 0 9 231; mkCode 16 7 7; mkCode 0 8 91; mkCode 0 8 27; mkCode 0 9 151;
   mkCode 20 7 67; mkCode 0 8 123; mkCode 0 8 59; mkCode 0 9 215; mkCode 18 7 19; mkCode 0 8 107;
   mkCode 0 8 43; mkCode 0 9 183; mkCode 0 8 11; mkCode 0 8 139; mkCode 0 8 75; mkCode 0 9 247;
   mkCode 16 7 5; mkCode 0 8 87; mkCode 0 8 23; mkCode 64 8 0; mkCode 19 7 51; mkCode 0 8 119;
   mkCode 0 8 55; mkCode 0 9 207; mkCode 17 7 15; mkCode 0 8 103; mkCode 0 8 39; mkCode 0 9 175;
   mkCode 0 8 7; mkCode 0 8 135; mkCode 0 8 71; mkCode 0 9 239; mkCode 16 7 9; mkCode 0 8 95;
   mkCode 0 8 31; mkCode 0 9 159; mkCode 20 7 99; mkCode 0 8 127; mkCode 0 8 63; mkCode 0 9 223;
   mkCode 18 7 27; mkCode 0 8 111; mkCode 0 8 47; mkCode 0 9 191; mkCode 0 8 15; mkCode 0 8 143;
   mkCode 0 8 79; mkCode 0 9 255].

Definition distfix : list code :=
  [mkCode 16 5 1; mkCode 23 5 257; mkCode 19 5 17; mkCode 27 5 4097; mkCode 17 5 5; mkCode 25 5 1025;
   mkCode 21 5 65; mkCode 29 5 16385; mkCode 16 5 3; mkCode 24 5 513; mkCode 20 5 33; mkCode 28 5 8193;
   mkCode 18 5 9; mkCode 26 5 2049; mkCode 22 5 129; mkCode 64 5 0; mkCode 16 5 2; mkCode 23 5 385;
   mkCode 19 5 25; mkCode 27 5 6145; mkCode 17 5 7; mkCode 25 5 1537; mkCode 21 5 97; mkCode 29 5 24577;
   mkCode 16 5 4; mkCode 24 5 769; mkCode 20 5 49; mkCode 28 5 12289; mkCode 18 5 13; mkCode 26 5 3073;
   mkCode 22 5 193; mkCode 64 5 0].
