(* ===== verification/InflateState.v ===== *)
(** * The state of the decompressor

    The data of lib/zlib_inflate/inflate.h and include/linux/zlib.h, and the registers and
    macros of [zlib_inflate]: a state monad with the ways in which the code leaves a [case] of
    its [switch].

    An input or output buffer is the list of the bytes between the start of the buffer and
    its end: [next] is what is still to be read, [put] what has been written in this call. *)

From Stdlib Require Import ZArith Lia Bool.
From stdpp Require Import base numbers list option.
From S2P Require Import Prelude InfTrees.
Open Scope Z_scope.

(** ** struct inflate_state *)

Inductive inflate_mode :=
| HEAD | FLAGS | TIME | OS | EXLEN | EXTRA | NAME | COMMENT | HCRC | DICTID | DICT
| TYPE | TYPEDO | STORED | COPY | TABLE | LENLENS | CODELENS
| LEN | LENEXT | DIST | DISTEXT | MATCH | LIT
| CHECK | LENGTH | DONE | BAD | MEM | SYNC.
#[export] Instance inflate_mode_eq_dec : EqDecision inflate_mode.
Proof. solve_decision. Defined.
(** [mode < CHECK] *)
Definition before_check (m : inflate_mode) : bool :=
  match m with CHECK | LENGTH | DONE | BAD | MEM | SYNC => false | _ => true end.

(** Where a decoding table is: the tables of fixed codes, or a place in [codes]. *)
Inductive tabref := Lenfix | Distfix | Codes_at (off : Z).

(** The sliding window. *)
Record window_state := mkWindow { wbits : Z; wsize : Z; whave : Z; write : Z; window : list Z }.
(** For string and stored block copying, and for table and code decoding. *)
Record copy_state := mkCopy { length_ : Z; offset : Z; extra : Z }.
(** Fixed and dynamic code tables. *)
Record code_tables := mkTables { lencode : tabref; distcode : tabref; lenbits : Z; distbits : Z }.
(** Dynamic table building. *)
Record table_state := mkBuild {
  ncode : Z; nlen : Z; ndist : Z; have : Z; tnext : Z; lens : list Z; work : list Z; codes : list code
}.
Record inflate_state := mkState {
  mode : inflate_mode; last : Z; wrap : Z; havedict : Z; dmax : Z; check : Z; total : Z;
  win : window_state; s_hold : Z; s_bits : Z; cp : copy_state; tabs : code_tables; tb : table_state
}.

(** ** struct z_stream_s *)

(** [out_addr] is the address of the output buffer and [out_prev] the byte before
    it, [None] where nothing can be read there. *)
Record z_stream := mkStream {
  next_in : list Z; total_in : Z; next_out : list Z; avail_out : Z; total_out : Z;
  out_addr : Z; out_prev : option Z; data_type : Z; adler : Z; state : inflate_state
}.

(** An output buffer at an odd address needs a byte before it that can be read. *)
Definition before_ok (base : Z) (prev : option Z) : Prop := Z.even base = true \/ prev <> None.

Definition Z_NO_FLUSH : Z := 0.
Definition Z_PACKET_FLUSH : Z := 2.
Definition Z_FINISH : Z := 5.
Definition Z_BLOCK : Z := 6.
Definition Z_OK : Z := 0.
Definition Z_STREAM_END : Z := 1.
Definition Z_NEED_DICT : Z := 2.
Definition Z_STREAM_ERROR : Z := -2.
Definition Z_DATA_ERROR : Z := -3.
Definition Z_MEM_ERROR : Z := -4.
Definition Z_BUF_ERROR : Z := -5.
Definition Z_DEFLATED : Z := 8.

(** ** Changing a field *)

Definition set_mode (m : inflate_mode) (s : inflate_state) : inflate_state :=
  mkState m (last s) (wrap s) (havedict s) (dmax s) (check s) (total s) (win s) (s_hold s) (s_bits s) (cp s) (tabs s) (tb s).
Definition set_last (v : Z) (s : inflate_state) : inflate_state :=
  mkState (mode s) v (wrap s) (havedict s) (dmax s) (check s) (total s) (win s) (s_hold s) (s_bits s) (cp s) (tabs s) (tb s).
Definition set_dmax (v : Z) (s : inflate_state) : inflate_state :=
  mkState (mode s) (last s) (wrap s) (havedict s) v (check s) (total s) (win s) (s_hold s) (s_bits s) (cp s) (tabs s) (tb s).
Definition set_check (v : Z) (s : inflate_state) : inflate_state :=
  mkState (mode s) (last s) (wrap s) (havedict s) (dmax s) v (total s) (win s) (s_hold s) (s_bits s) (cp s) (tabs s) (tb s).
Definition set_total (v : Z) (s : inflate_state) : inflate_state :=
  mkState (mode s) (last s) (wrap s) (havedict s) (dmax s) (check s) v (win s) (s_hold s) (s_bits s) (cp s) (tabs s) (tb s).
Definition set_win (w : window_state) (s : inflate_state) : inflate_state :=
  mkState (mode s) (last s) (wrap s) (havedict s) (dmax s) (check s) (total s) w (s_hold s) (s_bits s) (cp s) (tabs s) (tb s).
Definition set_hold (h b : Z) (s : inflate_state) : inflate_state :=
  mkState (mode s) (last s) (wrap s) (havedict s) (dmax s) (check s) (total s) (win s) h b (cp s) (tabs s) (tb s).
Definition set_cp (c : copy_state) (s : inflate_state) : inflate_state :=
  mkState (mode s) (last s) (wrap s) (havedict s) (dmax s) (check s) (total s) (win s) (s_hold s) (s_bits s) c (tabs s) (tb s).
Definition set_tabs (t : code_tables) (s : inflate_state) : inflate_state :=
  mkState (mode s) (last s) (wrap s) (havedict s) (dmax s) (check s) (total s) (win s) (s_hold s) (s_bits s) (cp s) t (tb s).
Definition set_tb (t : table_state) (s : inflate_state) : inflate_state :=
  mkState (mode s) (last s) (wrap s) (havedict s) (dmax s) (check s) (total s) (win s) (s_hold s) (s_bits s) (cp s) (tabs s) t.

Definition set_length (v : Z) (c : copy_state) : copy_state := mkCopy v (offset c) (extra c).
Definition set_offset (v : Z) (c : copy_state) : copy_state := mkCopy (length_ c) v (extra c).
Definition set_extra (v : Z) (c : copy_state) : copy_state := mkCopy (length_ c) (offset c) v.
Definition set_have (v : Z) (t : table_state) : table_state :=
  mkBuild (ncode t) (nlen t) (ndist t) v (tnext t) (lens t) (work t) (codes t).
Definition set_counts (nc nl nd : Z) (t : table_state) : table_state :=
  mkBuild nc nl nd (have t) (tnext t) (lens t) (work t) (codes t).
Definition set_lens (l : list Z) (t : table_state) : table_state :=
  mkBuild (ncode t) (nlen t) (ndist t) (have t) (tnext t) l (work t) (codes t).
Definition set_built (nx : Z) (w : list Z) (c : list code) (t : table_state) : table_state :=
  mkBuild (ncode t) (nlen t) (ndist t) (have t) nx (lens t) w c.

(** ** The registers of [zlib_inflate] *)

Record regs := mkRegs { next : list Z; put : list Z; left : Z; hold : Z; bits_ : Z }.
(** What a call works on: the state, the registers, the mark [out] from which output is
    counted, and the fields of the stream that are updated on the way. *)
Record loc := mkLoc { st : inflate_state; rg : regs; out : Z; l_adler : Z; l_total : Z }.

Definition with_st (s : inflate_state) (l : loc) : loc := mkLoc s (rg l) (out l) (l_adler l) (l_total l).
Definition with_rg (r : regs) (l : loc) : loc := mkLoc (st l) r (out l) (l_adler l) (l_total l).
Definition set_acc (h b : Z) (r : regs) : regs := mkRegs (next r) (put r) (left r) h b.

(** The ways out of a piece of code: on to the next statement, [goto inf_leave], a [return],
    or an access outside of an array. *)
Inductive mres (A : Type) := Val (a : A) (l : loc) | Leave (ret : Z) (l : loc) | Return (ret : Z) (l : loc) | Fault.
Arguments Val {A}. Arguments Leave {A}. Arguments Return {A}. Arguments Fault {A}.
Definition M (A : Type) : Type := loc -> mres A.

Definition ret {A} (a : A) : M A := fun l => Val a l.
Definition bind {A B} (m : M A) (f : A -> M B) : M B := fun l =>
  match m l with Val a l' => f a l' | Leave r l' => Leave r l' | Return r l' => Return r l' | Fault => Fault end.
Declare Scope inflate_scope.
Delimit Scope inflate_scope with inflate.
Notation "x <- m ; k" := (bind m (fun x => k)) (at level 20, m at level 100, k at level 200, only parsing) : inflate_scope.
Notation "m ;; k" := (bind m (fun _ => k)) (at level 100, k at level 200, right associativity) : inflate_scope.
Open Scope inflate_scope.

Definition get : M loc := fun l => Val l l.
Definition modify (f : loc -> loc) : M unit := fun l => Val tt (f l).
Definition upd (f : inflate_state -> inflate_state) : M unit := modify (fun l => with_st (f (st l)) l).
Definition upd_rg (f : regs -> regs) : M unit := modify (fun l => with_rg (f (rg l)) l).
Definition fault {A} : M A := fun _ => Fault.
Definition leave {A} (ret : Z) : M A := fun l => Leave ret l.
Definition return_ {A} (ret : Z) : M A := fun l => Return ret l.
Definition need {A} (o : option A) : M A := fun l => match o with Some a => Val a l | None => Fault end.
Definition goto_mode (m : inflate_mode) : M unit := upd (set_mode m).

(** ** The macros *)

Definition INITBITS : M unit := upd_rg (set_acc 0 0).
Definition PULLBYTE : M unit := fun l =>
  match next (rg l) with
  | [] => Leave Z_OK l
  | b :: rest =>
      let r := rg l in
      Val tt (with_rg (mkRegs rest (put r) (left r) (u32 (hold r + Z.shiftl b (bits_ r))) (bits_ r + 8)) l)
  end.
(** No use needs more than 32 bits. *)
Fixpoint needbits_loop (fuel : nat) (n : Z) : M unit :=
  l <- get;
  if n <=? bits_ (rg l) then ret tt
  else match fuel with O => fault | S fuel => PULLBYTE;; needbits_loop fuel n end.
Definition NEEDBITS (n : Z) : M unit := needbits_loop 4 n.
Definition BITS (n : Z) : M Z := l <- get; ret (Z.land (hold (rg l)) (Z.shiftl 1 n - 1)).
Definition DROPBITS (n : Z) : M unit :=
  upd_rg (fun r => set_acc (Z.shiftr (hold r) n) (u32 (bits_ r - n)) r).
Definition BYTEBITS : M unit :=
  upd_rg (fun r => set_acc (Z.shiftr (hold r) (Z.land (bits_ r) 7)) (bits_ r - Z.land (bits_ r) 7) r).
Definition REVERSE (q : Z) : Z :=
  u32 (Z.land (Z.shiftr q 24) 255 + Z.land (Z.shiftr q 8) 65280 +
       Z.shiftl (Z.land q 65280) 8 + Z.shiftl (Z.land q 255) 24).
