(* ===== verification/InflateFast.v ===== *)
(** * The fast decoder

    A model of [inflate_fast] in lib/zlib_inflate/inffast.c, with pre-increment ([OFF] is 1)
    and efficient unaligned accesses, as on x86.  [None] stands for a read outside of the
    input, the tables, the window or the output so far. *)

From Stdlib Require Import ZArith Lia Bool.
From stdpp Require Import base numbers list option.
From S2P Require Import Prelude InfTrees InflateState.
Open Scope Z_scope.

(** The pointer [in] as an index, the output and the space for it, and the bit buffer. *)
Record fregs := mkF { ip : Z; fput : list Z; fleft : Z; fhold : Z; fbits : Z }.
(** The pointer [from]: what it reads next, in the window or in the output. *)
Inductive source := Win (i : Z) | Out (i : Z).
Definition advance_src (n : Z) (f : source) : source := match f with Win i => Win (i + n) | Out i => Out (i + n) end.
(** Whether the loop goes on, or the mode it was left in. *)
Inductive fexit := Continue | Ended (m : inflate_mode).

Section fast.
(** The input, the window, the tables and their masks, the value of [avail_out] at the start
    of [zlib_inflate], the address of its output buffer and the byte before that. *)
Context (inp : list Z) (w : window_state) (tab : tabref -> Z -> option code).
Context (lcode dcode : tabref) (lmask dmask start base : Z) (prev : option Z).

(** ** Bits *)

(** [hold += (unsigned long)(PUP(in)) << bits; bits += 8;] *)
Definition pup_in (r : fregs) : option fregs :=
  b ← rd inp (ip r);
  Some (mkF (ip r + 1) (fput r) (fleft r) (u32 (fhold r + Z.shiftl b (fbits r))) (fbits r + 8)).
Definition refill (r : fregs) : option fregs :=
  if fbits r <? 15 then r ← pup_in r; pup_in r else Some r.
(** [hold >>= op; bits -= op;] *)
Definition drop_bits (n : Z) (r : fregs) : fregs :=
  mkF (ip r) (fput r) (fleft r) (Z.shiftr (fhold r) n) (u32 (fbits r - n)).
Definition low_of (n : Z) (r : fregs) : Z := Z.land (fhold r) (Z.shiftl 1 n - 1).

(** ** Copying *)

Definition emit (b : Z) (r : fregs) : fregs := mkF (ip r) (fput r ++ [b]) (fleft r - 1) (fhold r) (fbits r).
Definition src_byte (f : source) (r : fregs) : option Z :=
  match f with Win i => rd (window w) i | Out i => rd (fput r) i end.
(** [PUP(out) = PUP(from);] *)
Definition pup (fr : source * fregs) : option (source * fregs) :=
  b ← src_byte fr.1 fr.2; Some (advance_src 1 fr.1, emit b fr.2).
Fixpoint pup_n (n : nat) (fr : source * fregs) : option (source * fregs) :=
  match n with O => Some fr | S n => fr ← pup fr; pup_n n fr end.
(** [do { PUP(out) = PUP(from); } while (--op);], which must not start with 0. *)
Definition pup_do (op : Z) (fr : source * fregs) : option (source * fregs) :=
  if op =? 0 then None else pup_n (Z.to_nat op) fr.

(** [while (len > 2)], three bytes at a time, and the rest. *)
Fixpoint pup_threes (fuel : nat) (len : Z) (fr : source * fregs) : option (source * fregs) :=
  if 2 <? len then
    match fuel with
    | O => None
    | S fuel => fr ← pup fr; fr ← pup fr; fr ← pup fr; pup_threes fuel (len - 3) fr
    end
  else if len =? 0 then Some fr
  else fr ← pup fr; if 1 <? len then pup fr else Some fr.

(** Copying from the window, and from the output what is beyond it. *)
Definition copy_window (op len dist : Z) (r : fregs) : option fregs :=
  let from_out r := Out (Z.of_nat (length (fput r)) - dist) in
  '(len, f, r) ← (
    if write w =? 0 then
      let f := Win (wsize w - op) in
      if op <? len then '(_, r) ← pup_do op (f, r); Some (len - op, from_out r, r)
      else Some (len, f, r)
    else if write w <? op then
      let f := Win (wsize w + write w - op) in
      let op := op - write w in
      if op <? len then
        '(_, r) ← pup_do op (f, r);
        let len := len - op in
        if write w <? len then '(_, r) ← pup_do (write w) (Win 0, r); Some (len - write w, from_out r, r)
        else Some (len, Win 0, r)
      else Some (len, f, r)
    else
      let f := Win (write w - op) in
      if op <? len then '(_, r) ← pup_do op (f, r); Some (len - op, from_out r, r)
      else Some (len, f, r));
  '(_, r) ← pup_threes (Z.to_nat len) len (f, r);
  Some r.

(** Two bytes at a time, both read before they are written. *)
Definition pup16 (fr : source * fregs) : option (source * fregs) :=
  b0 ← src_byte fr.1 fr.2;
  b1 ← src_byte (advance_src 1 fr.1) fr.2;
  Some (advance_src 2 fr.1, emit b1 (emit b0 fr.2)).
Fixpoint pup16_n (n : nat) (fr : source * fregs) : option (source * fregs) :=
  match n with O => Some fr | S n => fr ← pup16 fr; pup16_n n fr end.
Fixpoint pattern_n (n : nat) (b0 b1 : Z) (r : fregs) : fregs :=
  match n with O => r | S n => pattern_n n b0 b1 (emit b1 (emit b0 r)) end.
(** A byte of the output, or the one before the buffer, if that can be read. *)
Definition out_byte (r : fregs) (i : Z) : option Z := if i =? -1 then prev else rd (fput r) i.

(** Copying direct from the output, with 16-bit stores to even addresses. *)
Definition copy_output (len dist : Z) (r : fregs) : option fregs :=
  let f := Out (Z.of_nat (length (fput r)) - dist) in
  '(len, f, r) ← (
    if Z.even (base + Z.of_nat (length (fput r)) - 1) then '(f, r) ← pup (f, r); Some (len - 1, f, r)
    else Some (len, f, r));
  let loops := Z.shiftr len 1 in
  if loops =? 0 then None
  else
    '(f, r) ← (
      if 2 <? dist then pup16_n (Z.to_nat loops) (f, r)
      else
        b0 ← out_byte r (Z.of_nat (length (fput r)) - 2);
        b1 ← out_byte r (Z.of_nat (length (fput r)) - 1);
        let b0 := if dist =? 1 then b1 else b0 in
        Some (f, pattern_n (Z.to_nat loops) b0 b1 r));
    if Z.land len 1 =? 0 then Some r else '(_, r) ← pup (f, r); Some r.

Definition copy_string (len dist : Z) (r : fregs) : option (fexit * fregs) :=
  let op := start - fleft r in
  if op <? dist then
    let op := dist - op in
    if whave w <? op then Some (Ended BAD, r)
    else r ← copy_window op len dist r; Some (Continue, r)
  else r ← copy_output len dist r; Some (Continue, r).

(** ** Codes *)

(** [dodist:], with at most one link. *)
Fixpoint dodist (fuel : nat) (len : Z) (this : code) (r : fregs) : option (fexit * fregs) :=
  let r := drop_bits (bits this) r in
  let o := op this in
  if negb (Z.land o 16 =? 0) then
    let o := Z.land o 15 in
    r ← (if fbits r <? o then r ← pup_in r; if fbits r <? o then pup_in r else Some r else Some r);
    let dist := val this + low_of o r in
    copy_string len dist (drop_bits o r)
  else if Z.land o 64 =? 0 then
    match fuel with
    | O => None
    | S fuel => this ← tab dcode (val this + low_of o r); dodist fuel len this r
    end
  else Some (Ended BAD, r).

(** [dolen:] *)
Fixpoint dolen (fuel : nat) (this : code) (r : fregs) : option (fexit * fregs) :=
  let r := drop_bits (bits this) r in
  let o := op this in
  if o =? 0 then Some (Continue, emit (u8 (val this)) r)
  else if negb (Z.land o 16 =? 0) then
    let o := Z.land o 15 in
    '(len, r) ← (
      if o =? 0 then Some (val this, r)
      else
        r ← (if fbits r <? o then pup_in r else Some r);
        Some (val this + low_of o r, drop_bits o r));
    r ← refill r;
    this ← tab dcode (Z.land (fhold r) dmask);
    dodist 1 len this r
  else if Z.land o 64 =? 0 then
    match fuel with
    | O => None
    | S fuel => this ← tab lcode (val this + low_of o r); dolen fuel this r
    end
  else if negb (Z.land o 32 =? 0) then Some (Ended TYPE, r)
  else Some (Ended BAD, r).

Definition fast_body (r : fregs) : option (fexit * fregs) :=
  r ← refill r;
  this ← tab lcode (Z.land (fhold r) lmask);
  dolen 1 this r.

(** [in < last && out < end] *)
Definition enough (r : fregs) : bool :=
  (ip r <? Z.of_nat (length inp) - 5) && (257 <? fleft r).
Fixpoint fast_loop (fuel : nat) (r : fregs) : option (fexit * fregs) :=
  match fuel with
  | O => None
  | S fuel =>
      '(e, r) ← fast_body r;
      match e with
      | Ended m => Some (e, r)
      | Continue => if enough r then fast_loop fuel r else Some (Continue, r)
      end
  end.

(** Whole bytes that were not used go back to the input. *)
Definition unread (r : fregs) : fregs :=
  let len := Z.shiftr (fbits r) 3 in
  let b := fbits r - Z.shiftl len 3 in
  mkF (ip r - len) (fput r) (fleft r) (Z.land (fhold r) (Z.shiftl 1 b - 1)) b.
End fast.

(** ** The function *)

(** Every round takes at least one bit. *)
Definition fast_fuel (r : regs) : nat := S (Z.to_nat (8 * Z.of_nat (length (next r)) + bits_ r)).

(** On the registers that [RESTORE] has written to the stream. *)
Definition inflate_fast (tab : tabref -> Z -> option code) (base : Z) (prev : option Z) (start : Z) (s : inflate_state) (r : regs) :
    option (inflate_state * regs) :=
  let t := tabs s in
  '(e, f) ← fast_loop (next r) (win s) tab (lencode t) (distcode t)
              (Z.shiftl 1 (lenbits t) - 1) (Z.shiftl 1 (distbits t) - 1) start base prev (fast_fuel r)
              (mkF 0 (put r) (left r) (hold r) (bits_ r));
  let f := unread f in
  if ip f <? 0 then None
  else
    let s := match e with Ended m => set_mode m s | Continue => s end in
    Some (s, mkRegs (drop (Z.to_nat (ip f)) (next r)) (fput f) (fleft f) (fhold f) (fbits f)).
