(* ===== verification/Inflate.v ===== *)
(** * The decompressor

    A model of lib/zlib_inflate/inflate.c and of [zlib_adler32] in include/linux/zutil.h. *)

From Stdlib Require Import ZArith Lia Bool.
From stdpp Require Import base numbers list option.
From S2P Require Import Prelude InfTrees InfFixed InflateState InflateFast.
Open Scope Z_scope.
Open Scope inflate_scope.

(** ** Checksums *)

Definition BASE : Z := 65521.
Definition NMAX : nat := Z.to_nat 5552.
(** [DO1]; sums of machine words. *)
Definition adler_do1 (s : Z * Z) (b : Z) : Z * Z := let s1 := u32 (s.1 + b) in (s1, u32 (s.2 + s1)).
(** At most [NMAX] bytes between two reductions. *)
Fixpoint adler_loop (fuel : nat) (s : Z * Z) (buf : list Z) : Z * Z :=
  match fuel, buf with
  | S fuel, _ :: _ =>
      let s := fold_left adler_do1 (take NMAX buf) s in
      adler_loop fuel (s.1 `mod` BASE, s.2 `mod` BASE) (drop NMAX buf)
  | _, _ => s
  end.
(** With [buf == NULL] the initial value is returned. *)
Definition zlib_adler32 (adler : Z) (buf : option (list Z)) : Z :=
  match buf with
  | None => 1
  | Some buf =>
      let s := adler_loop (length buf) (Z.land adler 65535, Z.land (Z.shiftr adler 16) 65535) buf in
      Z.lor (Z.shiftl s.2 16) s.1
  end.

(** ** Starting *)

Definition zlib_inflateReset (strm : z_stream) : Z * z_stream :=
  let s := state strm in
  let w := win s in
  let t := tb s in
  let s := mkState HEAD 0 (wrap s) 0 32768 (check s) 0
             (mkWindow (wbits w) (Z.shiftl 1 (wbits w)) 0 0 (window w)) 0 0 (cp s)
             (mkTables (Codes_at 0) (Codes_at 0) (lenbits (tabs s)) (distbits (tabs s)))
             (set_built 0 (work t) (codes t) t) in
  (Z_OK, mkStream (next_in strm) 0 (next_out strm) (avail_out strm) 0 (out_addr strm) (out_prev strm) (data_type strm) 1 s).

(** On the workspace of the stream, whose window has room for any size. *)
Definition zlib_inflateInit2 (strm : z_stream) (windowBits : Z) : Z * z_stream :=
  let s := state strm in
  let w := win s in
  let '(wr, windowBits) := if windowBits <? 0 then (0, - windowBits) else (Z.shiftr windowBits 4 + 1, windowBits) in
  let with_state s := mkStream (next_in strm) (total_in strm) (next_out strm) (avail_out strm) (total_out strm)
                        (out_addr strm) (out_prev strm) (data_type strm) (adler strm) s in
  let s := mkState (mode s) (last s) wr (havedict s) (dmax s) (check s) (total s) w (s_hold s) (s_bits s) (cp s) (tabs s) (tb s) in
  if (windowBits <? 8) || (15 <? windowBits) then (Z_STREAM_ERROR, with_state s)
  else zlib_inflateReset (with_state (set_win (mkWindow windowBits (wsize w) (whave w) (write w) (window w)) s)).

Definition zlib_inflateEnd (strm : z_stream) : Z := Z_OK.

(** ** Tables and the window *)

Definition tab_at (s : inflate_state) (t : tabref) (i : Z) : option code :=
  match t with Lenfix => rd lenfix i | Distfix => rd distfix i | Codes_at off => rd (codes (tb s)) (off + i) end.
Definition zlib_fixedtables (s : inflate_state) : inflate_state := set_tabs (mkTables Lenfix Distfix 9 5) s.

(** [memcpy] into an array. *)
Definition blit (dst : list Z) (pos : Z) (src : list Z) : option (list Z) :=
  if (0 <=? pos) && (pos + Z.of_nat (length src) <=? Z.of_nat (length dst))
  then Some (take (Z.to_nat pos) dst ++ src ++ drop (Z.to_nat pos + length src) dst) else None.
(** The [n] bytes from [back] bytes before the end of what was written. *)
Definition written (buf : list Z) (back n : Z) : option (list Z) :=
  if (0 <=? n) && (n <=? back) && (back <=? Z.of_nat (length buf))
  then Some (take (Z.to_nat n) (drop (length buf - Z.to_nat back) buf)) else None.

(** [copy] is [out - strm->avail_out]; [buf] ends at [strm->next_out]. *)
Definition zlib_updatewindow (w : window_state) (buf : list Z) (copy : Z) : option window_state :=
  (if wsize w <=? copy then
     src ← written buf (wsize w) (wsize w);
     window ← blit (window w) 0 src;
     Some (mkWindow (wbits w) (wsize w) (wsize w) 0 window)
   else
     let dist := wsize w - write w in
     let dist := if copy <? dist then copy else dist in
     src ← written buf copy dist;
     window ← blit (window w) (write w) src;
     let copy := copy - dist in
     if negb (copy =? 0) then
       src ← written buf copy copy;
       window ← blit window 0 src;
       Some (mkWindow (wbits w) (wsize w) (wsize w) copy window)
     else
       let write := write w + dist in
       let write := if write =? wsize w then 0 else write in
       let whave := if whave w <? wsize w then whave w + dist else whave w in
       Some (mkWindow (wbits w) (wsize w) whave write window))%stdpp.

(** ** Reading a code *)

(** [for (;;) { this = code[BITS(n)]; if (this.bits <= bits) break; PULLBYTE(); }]; a code of
    at most 15 bits needs at most two bytes. *)
Fixpoint code_loop (fuel : nat) (t : tabref) (n : Z) : M code :=
  b <- BITS n;
  l <- get;
  this <- need (tab_at (st l) t b);
  if bits this <=? bits_ (rg l) then ret this
  else match fuel with O => fault | S fuel => PULLBYTE;; code_loop fuel t n end.
Fixpoint subcode_loop (fuel : nat) (t : tabref) (last : code) : M code :=
  b <- BITS (bits last + op last);
  l <- get;
  this <- need (tab_at (st l) t (val last + Z.shiftr b (bits last)));
  if bits last + bits this <=? bits_ (rg l) then ret this
  else match fuel with O => fault | S fuel => PULLBYTE;; subcode_loop fuel t last end.
Definition PULLS : nat := 2.
(** Both levels, with the bits of the code dropped; [link] tells a link to a sub-table. *)
Definition read_code (link : code -> bool) (t : tabref) (n : Z) : M code :=
  this <- code_loop PULLS t n;
  this <- (if link this then sub <- subcode_loop PULLS t this; DROPBITS (bits this);; ret sub else ret this);
  DROPBITS (bits this);;
  ret this.
Definition len_link (this : code) : bool := negb (op this =? 0) && (Z.land (op this) 240 =? 0).
Definition dist_link (this : code) : bool := Z.land (op this) 240 =? 0.

Definition upd_cp (f : copy_state -> copy_state) : M unit := upd (fun s => set_cp (f (cp s)) s).
Definition upd_tb (f : table_state -> table_state) : M unit := upd (fun s => set_tb (f (tb s)) s).

(** ** String copying *)

(** The address [put - offset], or one in the window. *)
Definition match_byte (w : window_state) (f : source) (r : regs) : option Z :=
  match f with Win i => rd (window w) i | Out i => rd (put r) i end.
Definition put_byte (b : Z) (r : regs) : regs := mkRegs (next r) (put r ++ [b]) (left r) (hold r) (bits_ r).
(** [do { *put++ = *from++; } while (--copy);] *)
Fixpoint copy_bytes (n : nat) (f : source) : M unit :=
  match n with
  | O => ret tt
  | S n =>
      l <- get;
      b <- need (match_byte (win (st l)) f (rg l));
      upd_rg (put_byte b);;
      copy_bytes n (advance_src 1 f)
  end.

Definition take_left (n : Z) (r : regs) : regs := mkRegs (next r) (put r) (left r - n) (hold r) (bits_ r).

Definition do_MATCH : M unit :=
  l <- get;
  let r := rg l in
  let w := win (st l) in
  let c := cp (st l) in
  if left r =? 0 then leave Z_OK
  else
    let copy := out l - left r in
    let '(from, copy) :=
      if copy <? offset c then
        let copy := offset c - copy in
        let '(from, copy) :=
          if write w <? copy then (Win (wsize w - (copy - write w)), copy - write w) else (Win (write w - copy), copy) in
        (from, if length_ c <? copy then length_ c else copy)
      else (Out (Z.of_nat (length (put r)) - offset c), length_ c) in
    let copy := if left r <? copy then left r else copy in
    upd_rg (take_left copy);;
    upd_cp (set_length (length_ c - copy));;
    (if copy =? 0 then fault else copy_bytes (Z.to_nat copy) from);;
    (if length_ c - copy =? 0 then goto_mode LEN else ret tt).

Definition do_LIT : M unit :=
  l <- get;
  if left (rg l) =? 0 then leave Z_OK
  else upd_rg (fun r => take_left 1 (put_byte (u8 (length_ (cp (st l)))) r));; goto_mode LEN.

Definition do_DISTEXT : M unit :=
  l <- get;
  let e := extra (cp (st l)) in
  (if e =? 0 then ret tt
   else NEEDBITS e;; b <- BITS e; upd_cp (fun c => set_offset (offset c + b) c);; DROPBITS e);;
  l <- get;
  if whave (win (st l)) + out l - left (rg l) <? offset (cp (st l)) then goto_mode BAD
  else goto_mode MATCH;; do_MATCH.

Definition do_DIST : M unit :=
  l <- get;
  let t := tabs (st l) in
  this <- read_code dist_link (distcode t) (distbits t);
  if negb (Z.land (op this) 64 =? 0) then goto_mode BAD
  else
    upd_cp (fun c => set_extra (Z.land (op this) 15) (set_offset (val this) c));;
    goto_mode DISTEXT;; do_DISTEXT.

Definition do_LENEXT : M unit :=
  l <- get;
  let e := extra (cp (st l)) in
  (if e =? 0 then ret tt
   else NEEDBITS e;; b <- BITS e; upd_cp (fun c => set_length (length_ c + b) c);; DROPBITS e);;
  goto_mode DIST;; do_DIST.

Section call.
(** The address of the output buffer and the byte before it. *)
Context (base : Z) (prev : option Z).

(** [RESTORE(); inflate_fast(strm, out); LOAD();] *)
Definition do_fast : M unit :=
  l <- get;
  sr <- need (inflate_fast (tab_at (st l)) base prev (out l) (st l) (rg l));
  modify (fun l => with_rg sr.2 (with_st sr.1 l)).

Definition do_LEN : M unit :=
  l <- get;
  if (6 <=? Z.of_nat (length (next (rg l)))) && (258 <=? left (rg l)) then do_fast
  else
    let t := tabs (st l) in
    this <- read_code len_link (lencode t) (lenbits t);
    upd_cp (set_length (val this));;
    if op this =? 0 then goto_mode LIT
    else if negb (Z.land (op this) 32 =? 0) then goto_mode TYPE
    else if negb (Z.land (op this) 64 =? 0) then goto_mode BAD
    else upd_cp (set_extra (Z.land (op this) 15));; goto_mode LENEXT;; do_LENEXT.

(** ** Dynamic codes *)

(** [state->lens[state->have++] = (unsigned short)v] *)
Definition push_len (i v : Z) : M unit :=
  l <- get;
  lens' <- need (wr (lens (tb (st l))) i (u16 v));
  upd_tb (fun t => set_have (have t + 1) (set_lens lens' t)).

(** [while (copy--) state->lens[state->have++] = (unsigned short)len;] *)
Fixpoint fill_lens (copy : nat) (v : Z) : M unit :=
  match copy with
  | O => ret tt
  | S n => l <- get; push_len (have (tb (st l))) v;; fill_lens n v
  end.

Definition table_call (type : codetype) (lens_off codes_ bits : Z) : M (option Z) :=
  l <- get;
  let t := tb (st l) in
  r <- need (zlib_inflate_table type (drop (Z.to_nat lens_off) (lens t)) codes_ (codes t) (tnext t) bits (work t));
  match r with
  | Refused _ => ret None
  | Made cs nx b wk => upd_tb (set_built nx wk cs);; ret (Some b)
  end.

(** The tables of a block from the lengths. *)
Definition build_codes : M unit :=
  upd_tb (fun t => set_built 0 (work t) (codes t) t);;
  upd (fun s => set_tabs (mkTables (Codes_at 0) (distcode (tabs s)) 9 (distbits (tabs s))) s);;
  l <- get;
  r <- table_call LENS 0 (nlen (tb (st l))) 9;
  match r with
  | None => goto_mode BAD
  | Some b =>
      upd (fun s => set_tabs (mkTables (lencode (tabs s)) (Codes_at (tnext (tb s))) b 6) s);;
      r <- table_call DISTS (nlen (tb (st l))) (ndist (tb (st l))) 6;
      match r with
      | None => goto_mode BAD
      | Some b =>
          upd (fun s => set_tabs (mkTables (lencode (tabs s)) (distcode (tabs s)) (lenbits (tabs s)) b) s);;
          goto_mode LEN;; do_LEN
      end
  end.

(** A repeat code: the bits it takes, and the length and count it gives. *)
Definition repeat_code (this : code) : M (option (Z * Z)) :=
  if val this =? 16 then
    NEEDBITS (bits this + 2);; DROPBITS (bits this);;
    l <- get;
    if have (tb (st l)) =? 0 then ret None
    else
      len <- need (rd (lens (tb (st l))) (have (tb (st l)) - 1));
      b <- BITS 2; DROPBITS 2;; ret (Some (len, 3 + b))
  else if val this =? 17 then
    NEEDBITS (bits this + 3);; DROPBITS (bits this);; b <- BITS 3; DROPBITS 3;; ret (Some (0, 3 + b))
  else
    NEEDBITS (bits this + 7);; DROPBITS (bits this);; b <- BITS 7; DROPBITS 7;; ret (Some (0, 11 + b)).

(** [while (state->have < state->nlen + state->ndist)], left early in mode [BAD]. *)
Fixpoint codelens_loop (fuel : nat) : M unit :=
  l <- get;
  let t := tb (st l) in
  if have t <? nlen t + ndist t then
    match fuel with
    | O => fault
    | S fuel =>
        this <- code_loop PULLS (lencode (tabs (st l))) (lenbits (tabs (st l)));
        if val this <? 16 then
          NEEDBITS (bits this);; DROPBITS (bits this);; push_len (have t) (val this);; codelens_loop fuel
        else
          r <- repeat_code this;
          match r with
          | None => goto_mode BAD
          | Some (len, copy) =>
              if nlen t + ndist t <? have t + copy then goto_mode BAD
              else fill_lens (Z.to_nat copy) len;; codelens_loop fuel
          end
    end
  else ret tt.

Definition do_CODELENS : M unit :=
  l <- get;
  codelens_loop (Z.to_nat (nlen (tb (st l)) + ndist (tb (st l))));;
  l <- get;
  if bool_decide (mode (st l) = BAD) then ret tt else build_codes.

Definition order : list Z := [16; 17; 18; 0; 8; 7; 9; 6; 10; 5; 11; 4; 12; 3; 13; 2; 14; 1; 15].

Fixpoint lenlens_loop (fuel : nat) : M unit :=
  l <- get;
  if have (tb (st l)) <? ncode (tb (st l)) then
    match fuel with
    | O => fault
    | S fuel =>
        NEEDBITS 3;; b <- BITS 3;
        o <- need (rd order (have (tb (st l)))); push_len o b;; DROPBITS 3;; lenlens_loop fuel
    end
  else ret tt.
Fixpoint zero_lens (fuel : nat) : M unit :=
  l <- get;
  if have (tb (st l)) <? 19 then
    match fuel with
    | O => fault
    | S fuel => o <- need (rd order (have (tb (st l)))); push_len o 0;; zero_lens fuel
    end
  else ret tt.

Definition do_LENLENS : M unit :=
  lenlens_loop 19;;
  zero_lens 19;;
  upd_tb (fun t => set_built 0 (work t) (codes t) t);;
  upd (fun s => set_tabs (mkTables (Codes_at 0) (distcode (tabs s)) 7 (distbits (tabs s))) s);;
  r <- table_call CODES 0 19 7;
  match r with
  | None => goto_mode BAD
  | Some b =>
      upd (fun s => set_tabs (mkTables (lencode (tabs s)) (distcode (tabs s)) b (distbits (tabs s))) s);;
      upd_tb (set_have 0);; goto_mode CODELENS;; do_CODELENS
  end.

Definition do_TABLE : M unit :=
  NEEDBITS 14;;
  nl <- BITS 5; DROPBITS 5;;
  nd <- BITS 5; DROPBITS 5;;
  nc <- BITS 4; DROPBITS 4;;
  upd_tb (set_counts (nc + 4) (nl + 257) (nd + 1));;
  if (286 <? nl + 257) || (30 <? nd + 1) then goto_mode BAD
  else upd_tb (set_have 0);; goto_mode LENLENS;; do_LENLENS.

(** ** Blocks *)

Definition do_COPY : M unit :=
  l <- get;
  let r := rg l in
  let len := length_ (cp (st l)) in
  if len =? 0 then goto_mode TYPE
  else
    let have := Z.of_nat (length (next r)) in
    let copy := if have <? len then have else len in
    let copy := if left r <? copy then left r else copy in
    if copy =? 0 then leave Z_OK
    else
      let n := Z.to_nat copy in
      upd_rg (fun r => mkRegs (drop n (next r)) (put r ++ take n (next r)) (left r - copy) (hold r) (bits_ r));;
      upd_cp (set_length (len - copy)).

Definition do_STORED : M unit :=
  BYTEBITS;;
  NEEDBITS 32;;
  l <- get;
  let h := hold (rg l) in
  if negb (Z.land h 65535 =? Z.lxor (Z.shiftr h 16) 65535) then goto_mode BAD
  else upd_cp (set_length (Z.land h 65535));; INITBITS;; goto_mode COPY;; do_COPY.

Definition do_TYPEDO : M unit :=
  l <- get;
  if negb (last (st l) =? 0) then BYTEBITS;; goto_mode CHECK
  else
    NEEDBITS 3;;
    b <- BITS 1; upd (set_last b);; DROPBITS 1;;
    t <- BITS 2;
    (if t =? 0 then goto_mode STORED
     else if t =? 1 then upd zlib_fixedtables;; goto_mode LEN
     else if t =? 2 then goto_mode TABLE
     else goto_mode BAD);;
    DROPBITS 2.

Definition do_TYPE (flush : Z) : M unit := if flush =? Z_BLOCK then leave Z_OK else do_TYPEDO.

(** ** The wrapper *)

Definition set_adler (v : Z) : M unit :=
  modify (fun l => mkLoc (set_check v (st l)) (rg l) (out l) v (l_total l)).

Definition do_DICT (flush : Z) : M unit :=
  l <- get;
  if havedict (st l) =? 0 then return_ Z_NEED_DICT
  else set_adler (zlib_adler32 0 None);; goto_mode TYPE;; do_TYPE flush.
Definition do_DICTID (flush : Z) : M unit :=
  NEEDBITS 32;;
  l <- get;
  set_adler (REVERSE (hold (rg l)));; INITBITS;; goto_mode DICT;; do_DICT flush.

Definition do_HEAD : M unit :=
  l <- get;
  if wrap (st l) =? 0 then goto_mode TYPEDO
  else
    NEEDBITS 16;;
    b <- BITS 8;
    l <- get;
    if negb (u32 (Z.shiftl b 8 + Z.shiftr (hold (rg l)) 8) `mod` 31 =? 0) then goto_mode BAD
    else
      b <- BITS 4;
      if negb (b =? Z_DEFLATED) then goto_mode BAD
      else
        DROPBITS 4;;
        b <- BITS 4;
        if wbits (win (st l)) <? b + 8 then goto_mode BAD
        else
          upd (set_dmax (Z.shiftl 1 (b + 8)));;
          set_adler (zlib_adler32 0 None);;
          l <- get;
          goto_mode (if Z.land (hold (rg l)) 512 =? 0 then TYPE else DICTID);; INITBITS.

Definition do_DONE : M unit := leave Z_STREAM_END.

(** The check value against that of the output; the output since the mark is added first.
    Whether they differ. *)
Definition check_trailer : M bool :=
  NEEDBITS 32;;
  l <- get;
  let n := out l - left (rg l) in
  buf <- need (written (put (rg l)) n n);
  modify (fun l => mkLoc (set_total (u32 (total (st l) + n)) (st l)) (rg l) (out l) (l_adler l) (u32 (l_total l + n)));;
  (if n =? 0 then ret tt else set_adler (zlib_adler32 (check (st l)) (Some buf)));;
  modify (fun l => mkLoc (st l) (rg l) (left (rg l)) (l_adler l) (l_total l));;
  l <- get;
  if negb (REVERSE (hold (rg l)) =? check (st l)) then ret true else INITBITS;; ret false.
Definition do_CHECK : M unit :=
  l <- get;
  bad <- (if wrap (st l) =? 0 then ret false else check_trailer);
  if (bad : bool) then goto_mode BAD else goto_mode DONE;; do_DONE.

(** ** The loop *)

Definition switch (flush : Z) : M unit :=
  l <- get;
  match mode (st l) with
  | HEAD => do_HEAD
  | DICTID => do_DICTID flush
  | DICT => do_DICT flush
  | TYPE => do_TYPE flush
  | TYPEDO => do_TYPEDO
  | STORED => do_STORED
  | COPY => do_COPY
  | TABLE => do_TABLE
  | LENLENS => do_LENLENS
  | CODELENS => do_CODELENS
  | LEN => do_LEN
  | LENEXT => do_LENEXT
  | DIST => do_DIST
  | DISTEXT => do_DISTEXT
  | MATCH => do_MATCH
  | LIT => do_LIT
  | CHECK => do_CHECK
  | DONE => do_DONE
  | BAD => leave Z_DATA_ERROR
  | MEM => return_ Z_MEM_ERROR
  | _ => return_ Z_STREAM_ERROR
  end.

Fixpoint inflate_loop (fuel : nat) (flush : Z) : M unit :=
  match fuel with
  | O => fault
  | S fuel => switch flush;; inflate_loop fuel flush
  end.
End call.

(** ** The function *)

(** No round of the loop leaves as much input, output space and states before it as it had. *)
Definition inflate_fuel (r : regs) : nat :=
  Z.to_nat (4 * (8 * Z.of_nat (length (next r)) + bits_ r + left r) + 8).

Definition zlib_inflateSyncPacket (s : inflate_state) : Z * inflate_state :=
  if bool_decide (mode s = STORED) && (s_bits s =? 0) then (Z_OK, set_mode TYPE s) else (Z_DATA_ERROR, s).

(** [RESTORE] *)
Definition restore (strm : z_stream) (l : loc) : z_stream :=
  let r := rg l in
  mkStream (next r) (total_in strm) (put r) (left r) (l_total l) (out_addr strm) (out_prev strm)
    (data_type strm) (l_adler l) (set_hold (hold r) (bits_ r) (st l)).

(** [inf_leave:] *)
Definition inf_leave (strm : z_stream) (flush ret : Z) (l : loc) : option (Z * z_stream) :=
  (let r := rg l in
   let s := set_hold (hold r) (bits_ r) (st l) in
   let w := win s in
   w ← (if negb (wsize w =? 0) || (before_check (mode s) && negb (out l =? left r))
        then zlib_updatewindow w (put r) (out l - left r) else Some w);
   let in_ := Z.of_nat (length (next_in strm)) - Z.of_nat (length (next r)) in
   let out_ := out l - left r in
   buf ← written (put r) out_ out_;
   let upd := negb (wrap s =? 0) && negb (out_ =? 0) in
   let ck := if upd then zlib_adler32 (check s) (Some buf) else check s in
   let s := set_check ck (set_total (u32 (total s + out_)) (set_win w s)) in
   let dt := bits_ r + (if last s =? 0 then 0 else 64) + (if bool_decide (mode s = TYPE) then 128 else 0) in
   let result s := mkStream (next r) (u32 (total_in strm + in_)) (put r) (left r) (u32 (l_total l + out_))
                     (out_addr strm) (out_prev strm) dt (if upd then ck else l_adler l) s in
   if (flush =? Z_PACKET_FLUSH) && (ret =? Z_OK) && negb (left r =? 0) && (Z.of_nat (length (next r)) =? 0) then
     let '(ret, s) := zlib_inflateSyncPacket s in Some (ret, result s)
   else
     let ret := if ((in_ =? 0) && (out_ =? 0) || (flush =? Z_FINISH)) && (ret =? Z_OK) then Z_BUF_ERROR else ret in
     Some (ret, result s))%stdpp.

(** [LOAD] *)
Definition load (strm : z_stream) : loc :=
  let s := state strm in
  let s := if bool_decide (mode s = TYPE) then set_mode TYPEDO s else s in
  mkLoc s (mkRegs (next_in strm) (next_out strm) (avail_out strm) (s_hold s) (s_bits s)) (avail_out strm)
    (adler strm) (total_out strm).

(** The stream and its state are not NULL, and there is input at [next_in]. *)
Definition zlib_inflate (strm : z_stream) (flush : Z) : option (Z * z_stream) :=
  let l := load strm in
  match inflate_loop (out_addr strm) (out_prev strm) (inflate_fuel (rg l)) flush l with
  | Leave ret l => inf_leave strm flush ret l
  | Return ret l => Some (ret, restore strm l)
  | _ => None
  end.

(** The data at [next_in] as output history. *)
Definition zlib_inflateIncomp (z : z_stream) : option (Z * z_stream) :=
  (let s := state z in
   if negb (bool_decide (mode s = TYPE)) && negb (bool_decide (mode s = HEAD)) then Some (Z_DATA_ERROR, z)
   else
     let n := Z.of_nat (length (next_in z)) in
     w ← zlib_updatewindow (win s) (next_in z) n;
     let ck := zlib_adler32 (check s) (Some (next_in z)) in
     Some (Z_OK, mkStream [] (u32 (total_in z + n)) (next_out z) (avail_out z) (u32 (total_out z + n)) (out_addr z)
                   (out_prev z) (data_type z) ck (set_check ck (set_total (u32 (total s + n)) (set_win w s)))))%stdpp.
