(* ===== verification/InflateTables.v ===== *)
(** * What the decompressor reads from its tables

    The tables of [zlib_inflate_table] and those of fixed codes, in the form in which the
    decompressor uses them: what an entry means for the symbol that it stands for. *)

From Stdlib Require Import ZArith Lia Bool.
From stdpp Require Import base numbers list option.
From S2P Require Import Prelude Deflate InfTrees Canon InfTreesProofs InfTreesSort InfTreesTheorems InfFixed.
Open Scope Z_scope.

(** ** Entries *)

(** An entry that ends the stream with an error. *)
Definition invalid_op (o : Z) : Prop := 0 <= o < 256 /\ Z.land o 16 = 0 /\ Z.land o 32 = 0 /\ Z.land o 64 <> 0.

(** [o] and [v] are the operation and the value of the symbol [s]. *)
Definition means (type : codetype) (s : nat) (o v : Z) : Prop :=
  match type with
  | CODES => o = 0 /\ v = Z.of_nat s
  | LENS =>
      if (s <? 256)%nat then o = 0 /\ v = Z.of_nat s
      else if (s =? 256)%nat then o = 96
      else match length_base !! (s - 257)%nat with Some (e, b) => o = 16 + Z.of_nat e /\ v = b | None => invalid_op o end
  | DISTS => match dist_base !! s with Some (e, b) => o = 16 + Z.of_nat e /\ v = b | None => invalid_op o end
  end.
#[export] Instance means_dec type s o v : Decision (means type s o v).
Proof.
  unfold means, invalid_op. destruct type; repeat case_match; apply _.
Defined.

Lemma symbol_entry_means type s o v :
  (s < max_codes type)%nat -> symbol_entry type (Z.of_nat s) = Some (o, v) -> means type s o v.
Proof.
  set (ok type s := match symbol_entry type (Z.of_nat s) with Some (o, v) => bool_decide (means type s o v) | None => false end).
  assert (H : forallb (ok type) (seq 0 (max_codes type)) = true) by (destruct type; vm_compute; done).
  intros Hs E. rewrite forallb_forall in H. specialize (H s). unfold ok in H. rewrite E in H.
  assert (Hb : bool_decide (means type s o v) = true) by (apply H, in_seq; lia). by apply bool_decide_eq_true in Hb.
Qed.

(** Links are told from everything else. *)
Lemma means_not_link type s o v : means type s o v -> o = 0 /\ type <> DISTS \/ 16 <= o < 256 /\ Z.land o 240 <> 0.
Proof.
  assert (Hinv : forall o, invalid_op o -> 16 <= o < 256 /\ Z.land o 240 <> 0).
  { intros x (Hx & _ & _ & H64). split.
    - destruct (Z.lt_ge_cases x 16) as [Hlt|]; [|lia]. exfalso. apply H64.
      change 64 with (2 ^ 6). rewrite land_pow2 by lia. rewrite (testbit_above x 4); [done|lia|lia].
    - intros H. apply H64. replace 64 with (Z.land 240 64) by done. rewrite Z.land_assoc, H. done. }
  assert (Hext : forall e : nat, (e <= 13)%nat -> 16 <= 16 + Z.of_nat e < 256 /\ Z.land (16 + Z.of_nat e) 240 <> 0).
  { intros e He. split; [lia|]. do 14 (destruct e as [|e]; [done|]). lia. }
  assert (Hle : forall i e b, length_base !! i = Some (e, b) -> (e <= 13)%nat).
  { intros i e b H. assert (Forall (fun x => (x.1 <= 13)%nat) length_base) as Hf by (repeat constructor).
    rewrite Forall_lookup in Hf. by apply Hf in H. }
  assert (Hde : forall i e b, dist_base !! i = Some (e, b) -> (e <= 13)%nat).
  { intros i e b H. assert (Forall (fun x => (x.1 <= 13)%nat) dist_base) as Hf by (repeat constructor).
    rewrite Forall_lookup in Hf. by apply Hf in H. }
  destruct type; cbn [means].
  - intros [-> _]. by left.
  - destruct (s <? 256)%nat; [intros [-> _]; by left|]. destruct (s =? 256)%nat; [intros ->; by right|].
    destruct (length_base !! _) as [[e b]|] eqn:E; [intros [-> _]|]; right; eauto.
  - destruct (dist_base !! s) as [[e b]|] eqn:E; [intros [-> _]|]; right; eauto.
Qed.

(** ** Tables *)

(** A table as a function of the index, with [root] bits for the first level. *)
Definition finds (type : codetype) (T : Z -> option code) (root h : Z) (s : nat) (l : Z) : Prop :=
  exists o v, means type s o v /\
  if l <=? root then T (h `mod` 2 ^ root) = Some (mkCode o l v)
  else exists c off, T (h `mod` 2 ^ root) = Some (mkCode c root off) /\ 1 <= c <= 14 /\ l <= root + c <= 15 /\
    T (off + (h / 2 ^ root) `mod` 2 ^ c) = Some (mkCode o (l - root) v).

Record reads (type : codetype) (ls : list Z) (T : Z -> option code) (root : Z) : Prop := {
  rd_root : 1 <= root <= 15;
  rd_range : Forall (fun l => 0 <= l <= 15) ls /\ (length ls <= max_codes type)%nat;
  rd_acc : acceptable type ls;
  rd_symbol : forall h s, begins ls h s -> finds type T root h s (code_length ls s);
  rd_invalid : forall h, (forall s, ~ begins ls h s) -> T (h `mod` 2 ^ root) = Some invalid
}.

Lemma decodes_reads type ls tab base root limit :
  acceptable type ls -> Forall (fun l => 0 <= l <= 15) ls -> (length ls <= max_codes type)%nat ->
  decodes type ls tab base root limit -> reads type ls (fun i => rd tab (base + i)) root.
Proof.
  intros Hacc Hr Hl [[Hroot _] Hs Hi]. split; auto. intros h s Hb. specialize (Hs h s Hb).
  destruct Hb as (Hc & Hlt & _). unfold leads_to, entry_for in Hs.
  destruct (symbol_entry_total type s ltac:(lia)) as [[o v] E]. rewrite E in Hs. cbn [mbind option_bind] in Hs.
  exists o, v. split; [by apply (symbol_entry_means type s o v); [lia|]|].
  destruct (code_length ls s <=? root) eqn:El; [done|]. apply Z.leb_gt in El.
  destruct Hs as (off & c & E1 & Hcr & Hoff & Hend & E2). exists c, (off - base). split; [done|].
  split; [lia|]. split; [lia|]. rewrite <- E2. f_equal. lia.
Qed.

(** Another table with the same entries, but for how an invalid code is marked. *)
Definition agree (a b : code) : bool :=
  (bits a =? bits b) && ((op a =? op b) && (val a =? val b) ||
    bool_decide (invalid_op (op a)) && bool_decide (invalid_op (op b))).

Lemma agree_means type s a b :
  agree a b = true -> means type s (op a) (val a) -> 1 <= bits a -> means type s (op b) (val b).
Proof.
  unfold agree. intros H Hm _. apply andb_prop in H as [_ H]. apply orb_prop in H as [H|H].
  { apply andb_prop in H as [H1 H2]. apply Z.eqb_eq in H1, H2. by rewrite <- H1, <- H2. }
  apply andb_prop in H as [Ha Hb]. apply bool_decide_eq_true in Ha, Hb.
  assert (Hno : op a <> 0 /\ op a <> 96 /\ forall e : nat, (e <= 15)%nat -> op a <> 16 + Z.of_nat e).
  { destruct Ha as (_ & H16 & H32 & H64). split; [by intros E; rewrite E in H64|].
    split; [by intros E; rewrite E in H32|]. intros e He E. rewrite E in H16.
    do 16 (destruct e as [|e]; [done|]). lia. }
  destruct Hno as (H0 & H96 & He).
  assert (Hlb : forall i e b', length_base !! i = Some (e, b') -> (e <= 15)%nat).
  { intros i e b' E. assert (Forall (fun x => (x.1 <= 15)%nat) length_base) as Hf by (repeat constructor; cbn; lia).
    rewrite Forall_lookup in Hf. by apply Hf in E. }
  assert (Hdb : forall i e b', dist_base !! i = Some (e, b') -> (e <= 15)%nat).
  { intros i e b' E. assert (Forall (fun x => (x.1 <= 15)%nat) dist_base) as Hf by (repeat constructor; cbn; lia).
    rewrite Forall_lookup in Hf. by apply Hf in E. }
  destruct type; cbn [means] in *.
  - tauto.
  - destruct (s <? 256)%nat; [tauto|]. destruct (s =? 256)%nat; [tauto|].
    destruct (length_base !! _) as [[e b']|] eqn:E; [|done]. exfalso. eapply He; [by eapply Hlb|tauto].
  - destruct (dist_base !! s) as [[e b']|] eqn:E; [|done]. exfalso. eapply He; [by eapply Hdb|tauto].
Qed.

Lemma reads_root type ls T T' root :
  complete ls -> Z.of_nat (length ls) < 65536 -> Forall (fun l => l <= root) ls -> reads type ls T root ->
  (forall i c, 0 <= i < 2 ^ root -> T i = Some c -> exists c', T' i = Some c' /\ agree c c' = true) ->
  reads type ls T' root.
Proof.
  intros Hc Hbig Hle [Hroot Hrange Hacc Hs Hi] Hag. split; auto.
  - intros h s Hb. pose proof Hb as (Hcode & _). destruct (Hs h s Hb) as (o & v & Hm & Hf).
    destruct (code_length_in _ _ Hcode) as [Hin _]. rewrite list.Forall_forall in Hle. specialize (Hle _ Hin).
    apply Z.leb_le in Hle. rewrite Hle in Hf. destruct (Hag (h `mod` 2 ^ root) _ ltac:(apply Z.mod_pos_bound; lia) Hf) as (c' & E' & Hg).
    pose proof Hg as Hg'. unfold agree in Hg'. apply andb_prop in Hg' as [Hb' _]. apply Z.eqb_eq in Hb'. cbn [bits] in Hb'.
    exists (op c'), (val c'). split.
    + apply (agree_means type s _ c' Hg); [done|]. cbn [bits]. unfold has_code in Hcode. lia.
    + rewrite Hle, E'. destruct c' as [o' b' v']. cbn in *. by subst.
  - intros h Hno. exfalso. destruct Hrange as [Hr _].
    pose proof (complete_begins ls (length ls)) as Hcb. unfold InfTreesSort.ls in Hcb. rewrite firstn_all in Hcb.
    destruct (Hcb (le_n _) Hbig Hr h Hc) as [s Hs']. by apply (Hno s).
Qed.

(** ** The tables of fixed codes *)

(** They are those that [zlib_inflate_table] makes of the fixed lengths. *)
Definition fixed_made (type : codetype) (lens : list Z) (fix_ : list code) (root : Z) : bool :=
  match zlib_inflate_table type lens (Z.of_nat (length lens)) (replicate 2048 (mkCode 0 0 0)) 0 (root_bits type) (replicate 288 0) with
  | Some (Made tab _ b _) =>
      (b =? root) && (Z.of_nat (length fix_) =? 2 ^ root) &&
      forallb (fun i => match rd tab (Z.of_nat i), rd fix_ (Z.of_nat i) with Some x, Some y => agree x y | _, _ => false end)
        (seq 0 (length fix_))
  | _ => false
  end.

Lemma fixed_reads type lens fix_ root :
  (length lens <= max_codes type)%nat -> Forall (fun l => 0 <= l <= 15) lens -> complete lens -> Forall (fun l => l <= root) lens ->
  fixed_made type lens fix_ root = true -> reads type lens (rd fix_) root.
Proof.
  intros Hn Hr Hc Hle Hmade. assert (max_codes type <= 288)%nat by (destruct type; cbn; lia).
  assert (Hr' : Forall (fun l => 0 <= l <= 15) (take (length lens) lens)) by (by rewrite firstn_all).
  destruct (inflate_table_ok lens (length lens) ltac:(lia) ltac:(lia) Hr' type (replicate 2048 (mkCode 0 0 0)) 0 (replicate 288 0))
    as (r & E & Hw); rewrite ?length_replicate; try lia.
  { destruct type; done. }
  unfold fixed_made in Hmade. rewrite E in Hmade. destruct r as [tab nx b wk|]; [|done].
  apply andb_prop in Hmade as [Hmade Hall]. apply andb_prop in Hmade as [Hb Hlen]. apply Z.eqb_eq in Hb, Hlen. subst b.
  destruct Hw as (Hacc & Hdec & _). rewrite firstn_all in *.
  eapply reads_root; [done|lia|done|by eapply decodes_reads|]. intros i c Hi Et. rewrite forallb_forall in Hall.
  specialize (Hall (Z.to_nat i) ltac:(apply in_seq; lia)). rewrite Z2Nat.id in Hall by lia.
  change (rd tab i = Some c) in Et. rewrite Et in Hall. destruct (rd fix_ i) as [c'|]; [|done]. by exists c'.
Qed.

Lemma lenfix_reads : reads LENS fixed_lits (rd lenfix) 9.
Proof.
  apply fixed_reads; [cbn; lia| | | |vm_compute; done].
  - apply list.Forall_forall. intros x Hx. unfold fixed_lits in Hx.
    rewrite !elem_of_app in Hx. rewrite !elem_of_replicate in Hx. lia.
  - vm_compute. done.
  - apply list.Forall_forall. intros x Hx. unfold fixed_lits in Hx.
    rewrite !elem_of_app in Hx. rewrite !elem_of_replicate in Hx. lia.
Qed.
Lemma distfix_reads : reads DISTS fixed_dists (rd distfix) 5.
Proof.
  apply fixed_reads; [cbn; lia| | | |vm_compute; done].
  - apply list.Forall_forall. intros x Hx. apply elem_of_replicate in Hx. lia.
  - vm_compute. done.
  - apply list.Forall_forall. intros x Hx. apply elem_of_replicate in Hx. lia.
Qed.

(** ** Partial numbers *)

(** What indexing with the bits that are there finds, zeros above them. *)
Lemma reads_partial type ls T root bs :
  reads type ls T root ->
  match decode ls bs with
  | Got s rest =>
      finds type T root (lsb bs) s (code_length ls s) /\ 1 <= code_length ls s <= 15 /\
      code_length ls s <= Z.of_nat (length bs) /\ rest = drop (Z.to_nat (code_length ls s)) bs
  | Bad => T (lsb bs `mod` 2 ^ root) = Some invalid /\ (1 <= length bs)%nat
  | More =>
      exists e, T (lsb bs `mod` 2 ^ root) = Some e /\ 1 <= bits e <= 15 /\
        (Z.of_nat (length bs) < bits e \/
         exists c off e2, e = mkCode c root off /\ 1 <= c <= 14 /\ root + c <= 15 /\
           T (off + (lsb bs / 2 ^ root) `mod` 2 ^ c) = Some e2 /\ Z.of_nat (length bs) < root + bits e2 <= 15)
  end.
Proof.
  intros [Hroot [Hr Hlen] Hacc Hs Hi]. assert (Hmc : (max_codes type <= 288)%nat) by (destruct type; cbn; lia).
  pose proof (decode_cases ls bs type Hacc Hr ltac:(lia)) as H.
  assert (Hcl : forall s, begins ls (lsb bs) s -> 1 <= code_length ls s <= 15).
  { intros s (Hc & _). pose proof (code_length_in _ _ Hc) as [Hin _]. rewrite list.Forall_forall in Hr.
    specialize (Hr _ Hin). unfold has_code in Hc. cbn in Hr. lia. }
  destruct (decode ls bs) as [s rest| |].
  - destruct H as (Hb & Hle & ->). specialize (Hcl s Hb). repeat split; auto; lia.
  - destruct H as [Hno Hne]. split; [by apply Hi|]. destruct bs; [done|]. cbn. lia.
  - destruct H as [(s & Hb & Hlt)|[Hno ->]].
    2:{ exists invalid. split; [by apply Hi|]. split; [done|]. left. cbn. lia. }
    specialize (Hcl s Hb). destruct (Hs _ _ Hb) as (o & v & _ & Hf).
    destruct (Z.leb_spec (code_length ls s) root) as [Hle|Hgt].
    + eexists. split; [exact Hf|]. cbn [bits]. split; [lia|]. left. lia.
    + destruct Hf as (c & off & E1 & Hc & Hl & E2). eexists. split; [exact E1|]. cbn [bits]. split; [lia|].
      right. exists c, off. eexists. split; [done|]. split; [done|]. split; [lia|]. split; [exact E2|]. cbn [bits]. lia.
Qed.

(** The same without sub-tables. *)
Lemma reads_flat type ls T root bs :
  reads type ls T root -> Forall (fun l => l <= root) ls ->
  match decode ls bs with
  | Got s rest =>
      exists o v, means type s o v /\ T (lsb bs `mod` 2 ^ root) = Some (mkCode o (code_length ls s) v) /\
      1 <= code_length ls s <= 15 /\ code_length ls s <= Z.of_nat (length bs) /\ rest = drop (Z.to_nat (code_length ls s)) bs
  | Bad => T (lsb bs `mod` 2 ^ root) = Some invalid /\ (1 <= length bs)%nat
  | More => exists e, T (lsb bs `mod` 2 ^ root) = Some e /\ 1 <= bits e <= 15 /\ Z.of_nat (length bs) < bits e
  end.
Proof.
  intros Hreads Hle. pose proof (reads_partial type ls T root bs Hreads) as H. assert (Hcl : forall s, code_length ls s <= root).
  { intros s. unfold code_length. destruct (ls !! s) as [l|] eqn:E; cbn; [|destruct Hreads; lia]. by apply (Forall_lookup_1 _ _ _ _ Hle) in E. }
  destruct Hreads as [Hroot [Hr Hlen] Hacc Hs Hi]. assert (Hmc : (max_codes type <= 288)%nat) by (destruct type; cbn; lia).
  pose proof (decode_cases ls bs type Hacc Hr ltac:(lia)) as Hd. destruct (decode ls bs) as [s rest| |].
  - destruct H as ((o & v & Hm & Hf) & H1 & H2 & H3). specialize (Hcl s). apply Z.leb_le in Hcl. rewrite Hcl in Hf. exists o, v. done.
  - done.
  - destruct Hd as [(s & Hb & Hlt)|[Hno ->]].
    + destruct (Hs _ _ Hb) as (o & v & _ & Hf). specialize (Hcl s). pose proof Hcl as Hcl'. apply Z.leb_le in Hcl'. rewrite Hcl' in Hf.
      destruct H as (e & Ee & H15 & _). rewrite Hf in Ee. injection Ee as <-. cbn [bits] in *. eexists. split; [exact Hf|]. cbn [bits]. lia.
    + exists invalid. split; [by apply Hi|]. cbn. lia.
Qed.
