(* ===== verification/InflateMonad.v ===== *)
(** * Reasoning about the decompressor

    Weakest preconditions for the code of [zlib_inflate], and the bit stream that its bit
    buffer and its input together stand for. *)

From Stdlib Require Import ZArith Lia Bool.
From stdpp Require Import base numbers list option.
From S2P Require Import Prelude Deflate InfTrees Canon InflateState.
Open Scope Z_scope.

(** ** Weakest preconditions *)

Inductive exit := ExLeave (ret : Z) | ExReturn (ret : Z).
Definition wp {A} (m : M A) (Q : A -> loc -> Prop) (E : exit -> loc -> Prop) (l : loc) : Prop :=
  match m l with
  | Val a l' => Q a l'
  | Leave r l' => E (ExLeave r) l'
  | Return r l' => E (ExReturn r) l'
  | Fault => False
  end.

Lemma wp_then {A B} (m : M A) (f : A -> M B) Q E l :
  wp m (fun a l' => wp (f a) Q E l') E l -> wp (bind m f) Q E l.
Proof. unfold wp, bind. destruct (m l); done. Qed.
Lemma wp_conseq {A} (m : M A) (Q Q' : A -> loc -> Prop) (E E' : exit -> loc -> Prop) l :
  wp m Q E l -> (forall a l', Q a l' -> Q' a l') -> (forall x l', E x l' -> E' x l') -> wp m Q' E' l.
Proof. unfold wp. destruct (m l); auto. Qed.
Lemma wp_value {A} (a : A) (Q : A -> loc -> Prop) E l : Q a l -> wp (ret a) Q E l.
Proof. done. Qed.
Lemma wp_state (Q : loc -> loc -> Prop) E l : Q l l -> wp get Q E l.
Proof. done. Qed.
Lemma wp_modify f (Q : unit -> loc -> Prop) E l : Q tt (f l) -> wp (modify f) Q E l.
Proof. done. Qed.
Lemma wp_upd f (Q : unit -> loc -> Prop) E l : Q tt (with_st (f (st l)) l) -> wp (upd f) Q E l.
Proof. done. Qed.
Lemma wp_upd_rg f (Q : unit -> loc -> Prop) E l : Q tt (with_rg (f (rg l)) l) -> wp (upd_rg f) Q E l.
Proof. done. Qed.
Lemma wp_need {A} (o : option A) a (Q : A -> loc -> Prop) E l : o = Some a -> Q a l -> wp (need o) Q E l.
Proof. intros ->. done. Qed.
Lemma wp_leave {A} r (Q : A -> loc -> Prop) (E : exit -> loc -> Prop) l : E (ExLeave r) l -> wp (leave r) Q E l.
Proof. done. Qed.
Lemma wp_return {A} r (Q : A -> loc -> Prop) (E : exit -> loc -> Prop) l : E (ExReturn r) l -> wp (return_ r) Q E l.
Proof. done. Qed.

(** One statement. *)
Ltac wp_step :=
  lazymatch goal with
  | |- wp (bind _ _) _ _ _ => apply wp_then
  | |- wp (ret _) _ _ _ => apply wp_value
  | |- wp get _ _ _ => apply wp_state
  | |- wp (modify _) _ _ _ => apply wp_modify
  | |- wp (goto_mode _) _ _ _ => apply wp_upd
  | |- wp (upd _) _ _ _ => apply wp_upd
  | |- wp (upd_rg _) _ _ _ => apply wp_upd_rg
  | |- wp (leave _) _ _ _ => apply wp_leave
  | |- wp (return_ _) _ _ _ => apply wp_return
  end; cbv beta.

(** ** The stream *)

Definition held (r : regs) : list bool := to_lsb (Z.to_nat (bits_ r)) (hold r).
Definition stream (r : regs) : list bool := held r ++ bits_of_bytes (next r).

Record reg_ok (r : regs) : Prop := {
  ro_bits : 0 <= bits_ r <= 32;
  ro_hold : 0 <= hold r < 2 ^ bits_ r;
  ro_next : Forall is_u8 (next r);
  ro_left : 0 <= left r
}.

Lemma lsb_held r : reg_ok r -> lsb (held r) = hold r.
Proof. intros [Hb Hh _ _]. unfold held. rewrite lsb_to_lsb, Z2Nat.id by lia. apply Z.mod_small. lia. Qed.
Lemma length_held r : reg_ok r -> Z.of_nat (length (held r)) = bits_ r.
Proof. intros [Hb _ _ _]. unfold held. rewrite length_to_lsb. lia. Qed.
Lemma length_stream r : reg_ok r -> Z.of_nat (length (stream r)) = bits_ r + 8 * Z.of_nat (length (next r)).
Proof. intros H. unfold stream. rewrite length_app, length_bits_of_bytes. pose proof (length_held r H). lia. Qed.

(** The state after a byte was moved into the bit buffer. *)
Definition pulled (b : Z) (rest : list Z) (r : regs) : regs :=
  mkRegs rest (put r) (left r) (u32 (hold r + Z.shiftl b (bits_ r))) (bits_ r + 8).
Lemma pull_ok b rest r :
  reg_ok r -> next r = b :: rest -> bits_ r <= 24 ->
  reg_ok (pulled b rest r) /\ stream (pulled b rest r) = stream r /\ held (pulled b rest r) = held r ++ to_lsb 8 b.
Proof.
  intros Hr En H24. pose proof Hr as [Hb Hh Hn Hl]. rewrite En in Hn. apply Forall_cons_1 in Hn as [H8 Hn].
  unfold is_u8 in H8. assert (H2 : 2 ^ (bits_ r + 8) = 256 * 2 ^ bits_ r) by (rewrite Z.pow_add_r by lia; lia).
  assert (H32 : 2 ^ (bits_ r + 8) <= 2 ^ 32) by (apply Z.pow_le_mono_r; lia).
  assert (Eh : u32 (hold r + Z.shiftl b (bits_ r)) = hold r + b * 2 ^ bits_ r).
  { rewrite shiftl_mul by lia. apply u32_id. unfold is_u32. change 4294967296 with (2 ^ 32). nia. }
  assert (Hok : reg_ok (pulled b rest r)).
  { split; cbn [pulled bits_ hold next left]; auto; [lia|]. rewrite Eh. nia. }
  assert (Hheld : held (pulled b rest r) = held r ++ to_lsb 8 b).
  { apply lsb_inj.
    - rewrite length_app, length_to_lsb. pose proof (length_held _ Hok) as H. cbn [pulled bits_] in H.
      pose proof (length_held _ Hr). lia.
    - rewrite lsb_app, !lsb_held, length_held, lsb_to_lsb by done. cbn [pulled hold]. rewrite Eh.
      rewrite (Z.mod_small b) by (change (2 ^ Z.of_nat 8) with 256; lia). lia. }
  split; [done|]. split; [|done]. unfold stream. rewrite Hheld, En, bits_of_bytes_cons, <- app_assoc. done.
Qed.

(** Only the bit buffer and the input have changed, and not the stream. *)
Record refilled (l l' : loc) : Prop := {
  rf_st : st l' = st l;
  rf_out : out l' = out l /\ l_adler l' = l_adler l /\ l_total l' = l_total l;
  rf_put : put (rg l') = put (rg l) /\ left (rg l') = left (rg l);
  rf_stream : stream (rg l') = stream (rg l);
  rf_ok : reg_ok (rg l');
  rf_held : held (rg l) `prefix_of` held (rg l');
  rf_align : (bits_ (rg l')) `mod` 8 = (bits_ (rg l)) `mod` 8
}.
Lemma refilled_refl l : reg_ok (rg l) -> refilled l l.
Proof. intros H. by split. Qed.
Lemma refilled_trans l1 l2 l3 : refilled l1 l2 -> refilled l2 l3 -> refilled l1 l3.
Proof.
  intros [H1 (H2 & H3 & H4) [H5 H6] H7 _ H8 H9] [G1 (G2 & G3 & G4) [G5 G6] G7 G8 G9 G10].
  split; [congruence|repeat split; congruence|split; congruence|congruence|done|by etrans|congruence].
Qed.
Lemma refilled_pull l b rest :
  reg_ok (rg l) -> next (rg l) = b :: rest -> bits_ (rg l) <= 24 -> refilled l (with_rg (pulled b rest (rg l)) l).
Proof.
  intros Hr En H24. destruct (pull_ok b rest (rg l) Hr En H24) as (H1 & H2 & H3).
  split; cbn [with_rg st rg out l_adler l_total]; auto.
  - rewrite H3. by apply prefix_app_r.
  - cbn [pulled bits_]. rewrite <- (Z.mod_add (bits_ (rg l)) 1 8) by lia. f_equal.
Qed.

(** ** The macros *)

Lemma wp_pullbyte Q E l :
  reg_ok (rg l) -> bits_ (rg l) <= 24 ->
  (next (rg l) = [] -> E (ExLeave Z_OK) l) ->
  (forall l', refilled l l' -> bits_ (rg l') = bits_ (rg l) + 8 -> (length (next (rg l')) < length (next (rg l)))%nat ->
     (exists b rest, next (rg l) = b :: rest /\ l' = with_rg (pulled b rest (rg l)) l) -> Q tt l') ->
  wp PULLBYTE Q E l.
Proof.
  intros Hr H24 He Hq. unfold wp, PULLBYTE. destruct (next (rg l)) as [|b rest] eqn:En; [by apply He|].
  apply Hq; [by apply refilled_pull|done|cbn; lia|by exists b, rest].
Qed.

Lemma wp_needbits n Q E l :
  reg_ok (rg l) -> 0 <= n <= 32 -> n <= 25 \/ (bits_ (rg l)) `mod` 8 = 0 ->
  (forall l', refilled l l' -> next (rg l') = [] -> bits_ (rg l') < n -> E (ExLeave Z_OK) l') ->
  (forall l', refilled l l' -> n <= bits_ (rg l') -> l' = l \/ bits_ (rg l') < n + 8 -> Q tt l') ->
  wp (NEEDBITS n) Q E l.
Proof.
  unfold NEEDBITS. assert (Hfuel : forall fuel l, reg_ok (rg l) -> n - bits_ (rg l) <= 8 * Z.of_nat fuel ->
    0 <= n <= 32 -> n <= 25 \/ (bits_ (rg l)) `mod` 8 = 0 ->
    (forall l', refilled l l' -> next (rg l') = [] -> bits_ (rg l') < n -> E (ExLeave Z_OK) l') ->
    (forall l', refilled l l' -> n <= bits_ (rg l') -> l' = l \/ bits_ (rg l') < n + 8 -> Q tt l') ->
    wp (needbits_loop fuel n) Q E l).
  { clear l. induction fuel as [|fuel IH]; intros l Hr Hf Hn Hal He Hq; cbn [needbits_loop]; wp_step; wp_step;
      destruct (Z.leb_spec n (bits_ (rg l))) as [Hle|Hgt].
    - wp_step. apply Hq; [by apply refilled_refl|done|by left].
    - lia.
    - wp_step. apply Hq; [by apply refilled_refl|done|by left].
    - wp_step. apply wp_pullbyte; [done|zlia|intros; apply He; [by apply refilled_refl|done|lia]|].
      intros l1 H1 Hb _ _. apply IH; [apply H1|lia|done|rewrite (rf_align _ _ H1); done|..].
      + intros l' H2 Hnil Hlt. apply He; [by eapply refilled_trans|done|done].
      + intros l' H2 Hge Hor. apply Hq; [by eapply refilled_trans|done|]. right.
        destruct Hor as [->|]; lia. }
  intros Hr Hn Hal He Hq. apply Hfuel; auto. destruct Hr. lia.
Qed.

(** The low bits of the bit buffer, zeros above what is there. *)
Lemma wp_bits n (Q : Z -> loc -> Prop) E l : 0 <= n -> Q (hold (rg l) `mod` 2 ^ n) l -> wp (BITS n) Q E l.
Proof.
  intros Hn H. unfold BITS. wp_step. wp_step. wp_step. rewrite (land_mask_mod _ n); [done|lia|].
  rewrite Z.ones_equiv, shiftl_mul by lia. lia.
Qed.
Lemma hold_stream n r : reg_ok r -> 0 <= n <= bits_ r -> hold r `mod` 2 ^ n = lsb (stream r) `mod` 2 ^ n.
Proof.
  intros Hr Hn. pose proof (length_held r Hr). unfold stream. rewrite lsb_app, lsb_held by done.
  replace (Z.of_nat (length (held r))) with (n + (bits_ r - n)) by lia. rewrite Z.pow_add_r by lia.
  rewrite <- Z.mul_assoc, (Z.mul_comm (2 ^ n)), Z.mod_add by lia. done.
Qed.

Definition dropped (n : Z) (r : regs) : regs := set_acc (hold r / 2 ^ n) (bits_ r - n) r.
Lemma dropped_ok n r :
  reg_ok r -> 0 <= n <= bits_ r ->
  reg_ok (dropped n r) /\ stream (dropped n r) = drop (Z.to_nat n) (stream r) /\ held (dropped n r) = drop (Z.to_nat n) (held r).
Proof.
  intros Hr Hn. pose proof Hr as [Hb Hh Hnx Hl]. assert (Hpow : 2 ^ bits_ r = 2 ^ n * 2 ^ (bits_ r - n)).
  { rewrite <- Z.pow_add_r by lia. f_equal. lia. }
  assert (Hok : reg_ok (dropped n r)).
  { split; cbn [dropped set_acc bits_ hold next left]; auto; [lia|]. split; [apply Z.div_pos; lia|].
    apply Z.div_lt_upper_bound; lia. }
  assert (Hheld : held (dropped n r) = drop (Z.to_nat n) (held r)).
  { apply lsb_inj.
    - rewrite length_drop. pose proof (length_held _ Hok) as H. cbn [dropped set_acc bits_] in H. pose proof (length_held _ Hr). lia.
    - rewrite lsb_drop, !lsb_held, Z2Nat.id by (done || lia). done. }
  split; [done|]. split; [|done]. unfold stream. rewrite Hheld. pose proof (length_held _ Hr).
  rewrite drop_app_le by lia. done.
Qed.
Lemma dropped_dropped a b r : 0 <= a -> 0 <= b -> dropped b (dropped a r) = dropped (a + b) r.
Proof.
  intros Ha Hb. unfold dropped, set_acc. cbn. rewrite Z.pow_add_r, Z.div_div by (try apply Z.pow_nonzero; lia).
  f_equal. lia.
Qed.
Lemma wp_dropbits n (Q : unit -> loc -> Prop) E l :
  reg_ok (rg l) -> 0 <= n <= bits_ (rg l) -> Q tt (with_rg (dropped n (rg l)) l) -> wp (DROPBITS n) Q E l.
Proof.
  intros Hr Hn H. unfold DROPBITS. wp_step. pose proof Hr as [Hb _ _ _].
  rewrite shiftr_div, u32_id by (unfold is_u32; lia). exact H.
Qed.

Lemma initbits_dropped r : reg_ok r -> set_acc 0 0 r = dropped (bits_ r) r.
Proof. intros [_ Hh _ _]. unfold dropped. rewrite Z.div_small by lia. f_equal. lia. Qed.
Lemma stream_mod8 r : reg_ok r -> (length (stream r) `mod` 8)%nat = Z.to_nat (bits_ r `mod` 8).
Proof.
  intros Hr. pose proof (length_stream r Hr) as H. pose proof (Nat2Z.inj_mod (length (stream r)) 8) as Hm.
  rewrite H in Hm. change (Z.of_nat 8) with 8 in Hm.
  replace (bits_ r + 8 * Z.of_nat (length (next r))) with (bits_ r + Z.of_nat (length (next r)) * 8) in Hm by lia.
  rewrite Z.mod_add in Hm by lia. rewrite <- Hm. by rewrite Nat2Z.id.
Qed.
Lemma wp_bytebits (Q : unit -> loc -> Prop) E l :
  reg_ok (rg l) -> Q tt (with_rg (dropped (bits_ (rg l) `mod` 8) (rg l)) l) -> wp BYTEBITS Q E l.
Proof.
  intros Hr H. unfold BYTEBITS. wp_step. rewrite land_7, shiftr_div; [exact H|]. apply Z.mod_pos_bound. lia.
Qed.
Lemma align_dropped r : reg_ok r -> stream (dropped (bits_ r `mod` 8) r) = align (stream r).
Proof.
  intros Hr. pose proof Hr as [Hb _ _ _]. destruct (dropped_ok (bits_ r `mod` 8) r Hr) as (_ & -> & _); [zlia|].
  unfold align. by rewrite stream_mod8.
Qed.
