(* ===== verification/InflateCodes.v ===== *)
(** * Reading a code from the stream

    The loops that look up a code, pulling bytes until it is complete, read exactly the
    symbol that the specification decodes. *)

From Stdlib Require Import ZArith Lia Bool.
From stdpp Require Import base numbers list option.
From S2P Require Import Prelude Deflate InfTrees Canon InfTreesProofs InfTreesTheorems DeflateProofs InflateState Inflate InflateTables InflateMonad.
Open Scope Z_scope.

Section code.
Context (type : codetype) (ls : list Z) (t : tabref) (root : Z) (s0 : inflate_state).
Context (Hreads : reads type ls (tab_at s0 t) root).

Lemma acc_range : acceptable type ls /\ Forall (fun l => 0 <= l <= 15) ls /\ Z.of_nat (length ls) < 65536.
Proof.
  destruct Hreads as [_ [Hr Hl] Hacc _ _]. assert (Hm : (max_codes type <= 288)%nat) by (destruct type; cbn; lia).
  split; [done|]. split; [done|]. lia.
Qed.

(** The last byte was needed: without it the code was not complete. *)
Definition needed (l l' : loc) : Prop :=
  l' = l \/ exists p, p `prefix_of` held (rg l') /\ Z.of_nat (length p) = bits_ (rg l') - 8 /\ decode ls p = More.

Lemma needed_trans l l1 l2 :
  reg_ok (rg l1) -> needed l l1 -> needed l1 l2 -> needed l l2.
Proof. intros Hr H1 [->|H2]; [done|]. by right. Qed.

Lemma needed_pull l b rest :
  reg_ok (rg l) -> next (rg l) = b :: rest -> bits_ (rg l) <= 24 -> decode ls (held (rg l)) = More ->
  needed l (with_rg (pulled b rest (rg l)) l).
Proof.
  intros Hr En H24 Hd. right. exists (held (rg l)). destruct (pull_ok b rest (rg l) Hr En H24) as (_ & _ & Hh).
  cbn [with_rg rg]. rewrite Hh. split; [by apply prefix_app_r|]. split; [|done].
  rewrite length_held by done. cbn [pulled bits_]. lia.
Qed.

(** The entry in the first-level table for what is there. *)
Lemma first_entry r : reg_ok r ->
  exists this, tab_at s0 t (hold r `mod` 2 ^ root) = Some this /\ bits this <= 15 /\
    (bits_ r < bits this -> decode ls (held r) = More).
Proof.
  intros Hr. pose proof (reads_partial _ _ _ _ (held r) Hreads) as Hp. pose proof (length_held _ Hr) as Hlen.
  rewrite lsb_held in Hp by done. rewrite Hlen in Hp. destruct Hreads as [Hroot _ _ _ _].
  destruct (decode ls (held r)) as [s rest| |].
  - destruct Hp as ((o & v & _ & Hf) & Hcl & Hle & _). destruct (Z.leb_spec (code_length ls s) root) as [Hlr|Hlr].
    + eexists. split; [exact Hf|]. cbn [bits]. lia.
    + destruct Hf as (c & off & E1 & _). eexists. split; [exact E1|]. cbn [bits]. lia.
  - destruct Hp as [E1 H1]. exists invalid. split; [exact E1|]. cbn [bits invalid]. lia.
  - destruct Hp as (e & E1 & Hb & _). exists e. split; [exact E1|]. split; [lia|done].
Qed.

Lemma wp_code_loop fuel Q E l :
  st l = s0 -> reg_ok (rg l) -> 15 <= bits_ (rg l) + 8 * Z.of_nat fuel ->
  (forall l', refilled l l' -> next (rg l') = [] -> decode ls (held (rg l')) = More -> E (ExLeave Z_OK) l') ->
  (forall this l', refilled l l' -> needed l l' -> tab_at s0 t (hold (rg l') `mod` 2 ^ root) = Some this ->
     bits this <= bits_ (rg l') -> Q this l') ->
  wp (code_loop fuel t root) Q E l.
Proof.
  revert l. induction fuel as [|fuel IH]; intros l Hst Hr Hf He Hq; cbn [code_loop]; wp_step;
    (apply wp_bits; [destruct Hreads; lia|]); wp_step; wp_step; wp_step; rewrite Hst;
    destruct (first_entry (rg l) Hr) as (this & Et & Hb15 & Hmore); (apply (wp_need _ this); [done|]);
    destruct (Z.leb_spec (bits this) (bits_ (rg l))) as [Hle|Hgt].
  1,3: wp_step; apply Hq; auto; [by apply refilled_refl|by left].
  { lia. }
  specialize (Hmore Hgt). wp_step. apply wp_pullbyte; [done|lia|intros; apply He; auto; by apply refilled_refl|].
  intros l1 H1 Hb1 _ (b & rest & Hnx & ->). pose proof H1 as [Hst1 _ _ _ Hok1 _ _].
  apply IH; [by rewrite <- Hst|done|lia|..].
  - intros l' H2 Hnil Hd. apply He; auto. by eapply refilled_trans.
  - intros this' l' H2 Hn2 Et' Hle'. apply Hq; auto; [by eapply refilled_trans|].
    eapply needed_trans; [|apply needed_pull; eauto; lia|done]. done.
Qed.

(** The entry in the table that a link leads to. *)
Lemma second_entry r c off :
  reg_ok r -> tab_at s0 t (hold r `mod` 2 ^ root) = Some (mkCode c root off) -> 0 < c < 16 -> root <= bits_ r ->
  root + c <= 15 /\ exists this, tab_at s0 t (off + (hold r / 2 ^ root) `mod` 2 ^ c) = Some this /\ root + bits this <= 15 /\
    (bits_ r < root + bits this -> decode ls (held r) = More).
Proof.
  intros Hr Elink Hc Hroot. pose proof (reads_partial _ _ _ _ (held r) Hreads) as Hp. pose proof (length_held _ Hr) as Hlen.
  rewrite lsb_held in Hp by done. rewrite Hlen in Hp. destruct (decode ls (held r)) as [s rest| |].
  - destruct Hp as ((o & v & Hm & Hf) & Hcl & Hle & _). destruct (Z.leb_spec (code_length ls s) root) as [Hlr|Hlr].
    + rewrite Hf in Elink. injection Elink as <- _ _. apply means_not_link in Hm. lia.
    + destruct Hf as (c' & off' & E1 & Hc' & Hl & E2). rewrite E1 in Elink. injection Elink as <- <-.
      split; [lia|]. eexists. split; [exact E2|]. cbn [bits]. lia.
  - destruct Hp as [E1 H1]. rewrite E1 in Elink. injection Elink as <- _ _. lia.
  - destruct Hp as (e & E1 & Hb & Hor). rewrite E1 in Elink. injection Elink as ->. cbn [bits] in *.
    destruct Hor as [|(c' & off' & e2 & Ee & Hc' & Hrc & E2 & Hlt)]; [lia|]. injection Ee as <- <-.
    split; [lia|]. exists e2. split; [exact E2|]. split; [lia|done].
Qed.

Lemma refilled_low l l' n :
  reg_ok (rg l) -> refilled l l' -> 0 <= n <= bits_ (rg l) -> hold (rg l') `mod` 2 ^ n = hold (rg l) `mod` 2 ^ n.
Proof.
  intros Hr H Hn. pose proof (rf_ok _ _ H) as Hr'. pose proof (rf_held _ _ H) as Hp. apply prefix_length in Hp.
  pose proof (length_held _ Hr). pose proof (length_held _ Hr').
  rewrite !hold_stream, (rf_stream _ _ H) by (done || lia). done.
Qed.
Lemma refilled_bits l l' : reg_ok (rg l) -> refilled l l' -> bits_ (rg l) <= bits_ (rg l').
Proof.
  intros Hr H. pose proof (rf_held _ _ H) as Hp. apply prefix_length in Hp.
  pose proof (length_held _ Hr). pose proof (length_held _ (rf_ok _ _ H)). lia.
Qed.

Lemma wp_subcode_loop fuel c off Q E l :
  st l = s0 -> reg_ok (rg l) -> 15 <= bits_ (rg l) + 8 * Z.of_nat fuel ->
  tab_at s0 t (hold (rg l) `mod` 2 ^ root) = Some (mkCode c root off) -> 0 < c < 16 -> root <= bits_ (rg l) ->
  (forall l', refilled l l' -> next (rg l') = [] -> decode ls (held (rg l')) = More -> E (ExLeave Z_OK) l') ->
  (forall this l', refilled l l' -> needed l l' ->
     tab_at s0 t (off + (hold (rg l') / 2 ^ root) `mod` 2 ^ c) = Some this -> root + bits this <= bits_ (rg l') -> Q this l') ->
  wp (subcode_loop fuel t (mkCode c root off)) Q E l.
Proof.
  revert l. induction fuel as [|fuel IH]; intros l Hst Hr Hf Elink Hc Hroot He Hq; cbn [subcode_loop bits op val]; wp_step;
    (apply wp_bits; [destruct Hreads; lia|]); wp_step; wp_step; wp_step; rewrite Hst;
    rewrite shiftr_div, mod_div_pow by (destruct Hreads; lia);
    destruct (second_entry (rg l) c off Hr Elink Hc Hroot) as (Hrc & this & Et & Hb15 & Hmore); (apply (wp_need _ this); [done|]);
    destruct (Z.leb_spec (root + bits this) (bits_ (rg l))) as [Hle|Hgt].
  1,3: wp_step; apply Hq; auto; [by apply refilled_refl|by left].
  { lia. }
  specialize (Hmore Hgt). wp_step. apply wp_pullbyte; [done|lia|intros; apply He; auto; by apply refilled_refl|].
  intros l1 H1 Hb1 _ (b & rest & Hnx & ->). pose proof H1 as [Hst1 _ _ _ Hok1 _ _].
  apply IH; [by rewrite <- Hst|done|lia| |done|lia|..].
  - rewrite (refilled_low _ _ root Hr H1); [done|]. destruct Hreads; lia.
  - intros l' H2 Hnil Hd. apply He; auto. by eapply refilled_trans.
  - intros this' l' H2 Hn2 Et' Hle'. apply Hq; auto; [by eapply refilled_trans|].
    eapply needed_trans; [|apply needed_pull; eauto; lia|done]. done.
Qed.

(** ** Both levels *)

(** The registers after a code was read: as before, but for the bit buffer and the input. *)
Record same_but_stream (l l' : loc) : Prop := {
  sb_st : st l' = st l;
  sb_out : out l' = out l /\ l_adler l' = l_adler l /\ l_total l' = l_total l;
  sb_put : put (rg l') = put (rg l) /\ left (rg l') = left (rg l);
  sb_ok : reg_ok (rg l')
}.
Lemma refilled_same l l' : refilled l l' -> same_but_stream l l'.
Proof. intros [H1 H2 H3 _ H4 _ _]. by split. Qed.
Lemma same_dropped l l' n :
  same_but_stream l l' -> 0 <= n <= bits_ (rg l') -> same_but_stream l (with_rg (dropped n (rg l')) l').
Proof.
  intros [H1 H2 H3 H4] Hn. split; cbn [with_rg st rg out l_adler l_total dropped set_acc put left]; auto.
  by apply dropped_ok.
Qed.

(** What reading a code gives. *)
Definition code_read (l : loc) (this : code) (l' : loc) : Prop :=
  same_but_stream l l' /\
  ((exists s, means type s (op this) (val this) /\ bits_ (rg l') < 8 /\ bits_ (rg l') + 8 * Z.of_nat (length (next (rg l'))) < bits_ (rg l) + 8 * Z.of_nat (length (next (rg l))) /\
      forall F, decode ls (stream (rg l) ++ F) = Got s (stream (rg l') ++ F)) \/
   (this = invalid /\ bits_ (rg l') + 8 * Z.of_nat (length (next (rg l'))) <= bits_ (rg l) + 8 * Z.of_nat (length (next (rg l))) /\
      forall F, decode ls (stream (rg l) ++ F) = Bad)).

Lemma got_longer p bs s rest :
  p `prefix_of` bs -> decode ls p = More -> decode ls bs = Got s rest -> Z.of_nat (length p) < code_length ls s.
Proof.
  destruct acc_range as (Hacc & Hr & Hbig). intros Hp Hm Hg. pose proof (got_starts ls _ _ _ Hg) as Hs.
  destruct (Z.lt_ge_cases (Z.of_nat (length p)) (code_length ls s)) as [|Hge]; [done|]. exfalso.
  rewrite (decode_got type ls Hacc Hr Hbig p s) in Hm; [done|]. destruct Hs as [Hc Hs]. split; [done|].
  destruct (prefix_weak_total (codeword ls s) p bs Hs Hp) as [H|H]; [done|].
  apply prefix_length in H as Hl. rewrite length_codeword in Hl. unfold has_code in Hc.
  assert (p = codeword ls s) as ->; [|done]. destruct H as [k Hk]. rewrite Hk in *. rewrite <- (length_codeword ls s), Hk, length_app in Hl.
  pose proof (length_codeword ls s) as Hlc. rewrite Hk, length_app in Hlc. destruct k; [by rewrite app_nil_r|cbn in *; lia].
Qed.

Lemma more_stream l l' : refilled l l' -> next (rg l') = [] -> decode ls (held (rg l')) = More -> decode ls (stream (rg l)) = More.
Proof. intros H Hn Hd. rewrite <- (rf_stream _ _ H). unfold stream. rewrite Hn. cbn. by rewrite app_nil_r. Qed.

(** Dropping the bits of the code that was found. *)
Lemma code_read_got l l1 s rest o v b :
  reg_ok (rg l) -> bits_ (rg l) < 8 \/ decode ls (held (rg l)) = More ->
  refilled l l1 -> needed l l1 -> decode ls (held (rg l1)) = Got s rest -> means type s o v ->
  code_read l (mkCode o b v) (with_rg (dropped (code_length ls s) (rg l1)) l1).
Proof.
  intros Hr Hfit Href Hneed Hgot Hm. destruct acc_range as (Hacc & Hrg & Hbig).
  pose proof (reads_partial _ _ _ _ (held (rg l1)) Hreads) as Hp. rewrite Hgot in Hp. destruct Hp as (_ & Hcl & Hle & ->).
  pose proof (rf_ok _ _ Href) as Hr1. rewrite length_held in Hle by done.
  destruct (dropped_ok (code_length ls s) (rg l1) Hr1 ltac:(lia)) as (Hok & Hstr & Hheld).
  split; [apply same_dropped; [by apply refilled_same|lia]|]. left. exists s. split; [done|]. cbn [with_rg rg]. split; [|split].
  - cbn [dropped set_acc bits_]. destruct Hneed as [->|(p & Hp & Hlen & Hd)].
    + destruct Hfit as [|Hd]; [lia|congruence].
    + pose proof (got_longer _ _ _ _ Hp Hd Hgot). lia.
  - pose proof (length_stream _ Hr). pose proof (length_stream _ Hok) as H2. rewrite Hstr, length_drop, (rf_stream _ _ Href) in H2.
    pose proof (length_stream _ Hr1) as H3. rewrite (rf_stream _ _ Href) in H3. lia.
  - intros F. rewrite <- (rf_stream _ _ Href). unfold stream at 1. rewrite <- app_assoc.
    rewrite (decode_app type ls Hacc Hrg Hbig _ _ _ _ Hgot). f_equal. unfold stream. rewrite Hheld, <- app_assoc. done.
Qed.

Context (link : code -> bool).
Context (Hlink : forall c off, 0 < c < 16 -> link (mkCode c root off) = true).
Context (Hleaf : forall s o v b, means type s o v -> link (mkCode o b v) = false) (Hinv : link invalid = false).

Lemma wp_read_sub c off Q E l l1 :
  st l = s0 -> reg_ok (rg l) -> bits_ (rg l) < 8 \/ decode ls (held (rg l)) = More ->
  refilled l l1 -> needed l l1 -> tab_at s0 t (hold (rg l1) `mod` 2 ^ root) = Some (mkCode c root off) -> 0 < c < 16 -> root <= bits_ (rg l1) ->
  (forall l', refilled l l' -> next (rg l') = [] -> decode ls (stream (rg l)) = More -> E (ExLeave Z_OK) l') ->
  (forall this l', code_read l this l' -> Q this l') ->
  wp (sub <- subcode_loop PULLS t (mkCode c root off); DROPBITS root;; ret sub)%inflate
    (fun this l' => wp (DROPBITS (bits this);; ret this)%inflate Q E l') E l1.
Proof.
  intros Hst Hr Hfit Href Hneed Et Hc Hroot He Hq. pose proof (rf_ok _ _ Href) as Hr1.
  wp_step. apply wp_subcode_loop; auto; [by rewrite (rf_st _ _ Href)|unfold PULLS; pose proof (ro_bits _ Hr1); lia|..].
  { intros l' H2 Hnil Hd. apply He; [by eapply refilled_trans|done|]. eapply more_stream; [|done..]. by eapply refilled_trans. }
  intros this l2 H2 Hn2 Et2 Hle2. assert (H02 : refilled l l2) by (by eapply refilled_trans).
  assert (Hn02 : needed l l2) by (by eapply needed_trans). pose proof (rf_ok _ _ H02) as Hr2.
  assert (Elink2 : tab_at s0 t (hold (rg l2) `mod` 2 ^ root) = Some (mkCode c root off)).
  { rewrite (refilled_low _ _ root Hr1 H2); [done|]. destruct Hreads; lia. }
  pose proof (reads_partial _ _ _ _ (held (rg l2)) Hreads) as Hp. rewrite lsb_held, length_held, Elink2 in Hp by done.
  destruct (decode ls (held (rg l2))) as [s rest| |] eqn:Ed.
  - destruct Hp as ((o & v & Hm & Hf) & Hcl & Hle & _). destruct (Z.leb_spec (code_length ls s) root) as [Hlr|Hlr].
    { rewrite Elink2 in Hf. injection Hf as Ho _ _. subst o. apply means_not_link in Hm. lia. }
    destruct Hf as (c' & off' & E1 & Hc' & Hl & E2). rewrite Elink2 in E1. injection E1 as <- <-. rewrite Et2 in E2. injection E2 as ->. cbn [bits] in *.
    wp_step. apply wp_dropbits; [done|destruct Hreads; lia|]. wp_step. wp_step.
    destruct (dropped_ok root (rg l2) Hr2) as (Hok & _); [destruct Hreads; lia|].
    apply wp_dropbits; [done|cbn; lia|]. wp_step. apply Hq.
    cbn [bits]. pose proof (code_read_got l l2 s rest o v (code_length ls s - root) Hr Hfit H02 Hn02 Ed Hm) as Hcr.
    cbn [with_rg rg]. rewrite dropped_dropped by (destruct Hreads; lia). replace (root + (code_length ls s - root)) with (code_length ls s) by lia.
    exact Hcr.
  - destruct Hp as [E1 _]. injection E1 as Ho _ _. lia.
  - destruct Hp as (e & E1 & Hb & Hor). injection E1 as <-. cbn [bits] in *. pose proof (refilled_bits _ _ Hr1 H2).
    destruct Hor as [|(c' & off' & e2 & Ee & _ & _ & E2 & Hlt)]; [lia|]. injection Ee as <- <-. rewrite Et2 in E2. injection E2 as ->. lia.
Qed.

Lemma wp_read_code Q E l :
  st l = s0 -> reg_ok (rg l) -> bits_ (rg l) < 8 \/ decode ls (held (rg l)) = More ->
  (forall l', refilled l l' -> next (rg l') = [] -> decode ls (stream (rg l)) = More -> E (ExLeave Z_OK) l') ->
  (forall this l', code_read l this l' -> Q this l') ->
  wp (read_code link t root) Q E l.
Proof.
  intros Hst Hr Hfit He Hq. unfold read_code. wp_step. apply wp_code_loop; auto; [unfold PULLS; pose proof (ro_bits _ Hr); lia|..].
  { intros l' H1 Hnil Hd. apply He; auto. by eapply more_stream. }
  intros this l1 H1 Hn1 Et Hle. pose proof (rf_ok _ _ H1) as Hr1. wp_step.
  pose proof (reads_partial _ _ _ _ (held (rg l1)) Hreads) as Hp. rewrite lsb_held, length_held, Et in Hp by done.
  destruct (decode ls (held (rg l1))) as [s rest| |] eqn:Ed.
  - destruct Hp as ((o & v & Hm & Hf) & Hcl & Hlen & _). destruct (Z.leb_spec (code_length ls s) root) as [Hlr|Hlr].
    + rewrite Et in Hf. injection Hf as ->. rewrite (Hleaf s) by done. wp_step. wp_step. cbn [bits] in *.
      apply wp_dropbits; [done|lia|]. wp_step. apply Hq. by eapply code_read_got.
    + destruct Hf as (c & off & E1 & Hc & Hl & E2). rewrite Et in E1. injection E1 as ->. cbn [bits] in *. rewrite Hlink by lia.
      apply (wp_read_sub c off Q E l l1); auto; lia.
  - destruct Hp as [E1 Hlen]. injection E1 as ->. rewrite Hinv. wp_step. wp_step. cbn [bits invalid] in *.
    apply wp_dropbits; [done|lia|]. wp_step. apply Hq. split; [apply same_dropped; [by apply refilled_same|lia]|].
    right. split; [done|]. split.
    { pose proof (length_stream _ Hr) as L0. pose proof (length_stream _ Hr1) as L1. rewrite (rf_stream _ _ H1) in L1. cbn. lia. }
    intros F. destruct acc_range as (Hacc & Hrg & Hbig). rewrite <- (rf_stream _ _ H1). unfold stream.
    rewrite <- app_assoc. by apply decode_app_bad.
  - destruct Hp as (e & E1 & Hb & Hor). injection E1 as <-. destruct Hor as [|(c & off & e2 & Ee & Hc & Hrc & E2 & Hlt)]; [lia|].
    subst this. cbn [bits] in *. rewrite Hlink by lia. apply (wp_read_sub c off Q E l l1); auto; lia.
Qed.
End code.
