(* ===== verification/InflateSim.v ===== *)
(** * What the state of the decompressor stands for

    The check value against RFC 1950, the invariant of the loop of [zlib_inflate], and the
    window between calls. *)

From Stdlib Require Import ZArith Lia Bool.
From stdpp Require Import base numbers list option.
From S2P Require Import Prelude Deflate InfTrees Canon InfTreesTheorems DeflateProofs InflateState Inflate InflateTables InflateMonad InflateCodes.
Open Scope Z_scope.

(** ** The check value

    The sums of [zlib_adler32], reduced only once in [NMAX] bytes, are those of RFC 1950. *)

Definition reduced (s : Z * Z) : Z * Z := (s.1 `mod` BASE, s.2 `mod` BASE).
(** The bounds of the sums after [k] bytes. *)
Definition sums_below (k : Z) (s : Z * Z) : Prop :=
  0 <= s.1 <= 65520 + 255 * k /\ 0 <= s.2 /\ 2 * s.2 <= 131040 * (k + 1) + 255 * (k * (k + 1)).

Lemma do1_step k s b :
  is_u8 b -> 0 <= k < 5552 -> sums_below k s ->
  sums_below (k + 1) (adler_do1 s b) /\ reduced (adler_do1 s b) = adler_step (reduced s) b.
Proof.
  unfold is_u8, sums_below, reduced, adler_do1, adler_step, BASE. destruct s as [x y]. cbn [fst snd]. intros Hb Hk (Hx & Hy & Hy2).
  rewrite (u32_id (x + b)) by (unfold is_u32; lia). rewrite u32_id by (unfold is_u32; nia).
  split; [nia|]. f_equal; [by rewrite Zplus_mod_idemp_l|].
  rewrite (Z.add_mod y), (Z.add_mod (y `mod` _)), !Z.mod_mod by done. by rewrite (Zplus_mod_idemp_l x b).
Qed.
Lemma do1_steps l k s :
  Forall is_u8 l -> 0 <= k -> k + Z.of_nat (length l) <= 5552 -> sums_below k s ->
  reduced (fold_left adler_do1 l s) = fold_left adler_step l (reduced s).
Proof.
  revert k s. induction l as [|b l IH]; intros k s Hl Hk Hle Hs; [done|]. apply Forall_cons_1 in Hl as [Hb Hl].
  cbn [fold_left length] in *. destruct (do1_step k s b Hb ltac:(lia) Hs) as [Hs' <-]. apply (IH (k + 1)); auto; lia.
Qed.

(** Sums that are reduced. *)
Definition small_sums (s : Z * Z) : Prop := 0 <= s.1 < BASE /\ 0 <= s.2 < BASE.
Lemma small_reduced s : small_sums (reduced s).
Proof. unfold small_sums, reduced. cbn. split; apply Z.mod_pos_bound; done. Qed.
Lemma reduced_small s : small_sums s -> reduced s = s.
Proof. intros [H1 H2]. unfold reduced. rewrite !Z.mod_small by done. by destruct s. Qed.
Lemma steps_small l s : small_sums s -> small_sums (fold_left adler_step l s).
Proof.
  revert s. induction l as [|b l IH]; intros s Hs; [done|]. cbn [fold_left]. apply IH. unfold small_sums, adler_step. cbn.
  split; apply Z.mod_pos_bound; done.
Qed.

Lemma adler_loop_ok fuel s l :
  (length l <= fuel)%nat -> Forall is_u8 l -> small_sums s -> adler_loop fuel s l = fold_left adler_step l s.
Proof.
  revert s l. induction fuel as [|fuel IH]; intros s l Hf Hl Hs.
  { destruct l; [done|cbn in Hf; lia]. }
  destruct l as [|b l]; [done|]. cbn [adler_loop]. set (buf := b :: l) in *.
  assert (Hn : (1 <= NMAX)%nat) by (unfold NMAX; lia). assert (Hlen : (length (drop NMAX buf) <= fuel)%nat).
  { rewrite length_drop. subst buf. cbn [length] in *. lia. }
  change ((fold_left adler_do1 (take NMAX buf) s).1 `mod` BASE, (fold_left adler_do1 (take NMAX buf) s).2 `mod` BASE)
    with (reduced (fold_left adler_do1 (take NMAX buf) s)).
  rewrite (do1_steps _ 0); [|by apply Forall_take|lia|rewrite length_take; unfold NMAX; lia|].
  2:{ destruct Hs as [H1 H2]. unfold sums_below, BASE in *. lia. }
  rewrite reduced_small by done. rewrite IH; [|done|by apply Forall_drop|by apply steps_small].
  rewrite <- fold_left_app, take_drop. done.
Qed.

Lemma adler32_parts a :
  let s := fold_left adler_step a (1, 0) in small_sums s /\ Z.land (adler32 a) 65535 = s.1 /\ Z.land (Z.shiftr (adler32 a) 16) 65535 = s.2.
Proof.
  intros s. assert (Hs : small_sums s) by (apply steps_small; done). split; [done|]. unfold adler32. fold s.
  destruct Hs as [H1 H2]. unfold BASE in *. rewrite !(land_mask_mod _ 16), shiftr_div by (done || lia). change (2 ^ 16) with 65536. zlia.
Qed.

(** [zlib_adler32] continues a check value: from that of some bytes it computes that of these
    and the given ones, for inputs of any length. *)
Lemma zlib_adler32_app a b : Forall is_u8 b -> zlib_adler32 (adler32 a) (Some b) = adler32 (a ++ b).
Proof.
  intros Hb. destruct (adler32_parts a) as (Hs & E1 & E2). unfold zlib_adler32. rewrite E1, E2.
  rewrite <- surjective_pairing, adler_loop_ok by done. unfold adler32. rewrite fold_left_app.
  set (s := fold_left adler_step b _). assert (H : small_sums s) by (by apply steps_small). destruct H as [H1 H2]. unfold BASE in *.
  rewrite Z.lor_comm, shiftl_mul by lia. rewrite lor_low_high; [|lia|change (2 ^ 16) with 65536; lia]. change (2 ^ 16) with 65536. lia.
Qed.

(** ** The value in the stream *)

Lemma land_byte v i : 0 <= i -> Z.land v (255 * 2 ^ i) = ((v / 2 ^ i) `mod` 256) * 2 ^ i.
Proof.
  intros Hi. rewrite <- !shiftl_mul, <- shiftr_div by lia. change 256 with (2 ^ 8). rewrite <- (land_mask_mod _ 8 255) by done.
  apply Z.bits_inj'. intros k Hk. rewrite Z.land_spec, !Z.shiftl_spec, Z.land_spec by lia.
  destruct (Z.ltb_spec k i); [rewrite (Z.testbit_neg_r 255) by lia; by rewrite !andb_false_r|].
  rewrite Z.shiftr_spec by lia. do 2 f_equal. lia.
Qed.
Lemma reverse_ok v : 0 <= v < 2 ^ 32 -> REVERSE v = reverse32 v.
Proof.
  intros Hv. unfold REVERSE, reverse32. rewrite !shiftr_div, !shiftl_mul, !land_255 by lia.
  change 65280 with (255 * 2 ^ 8). rewrite !land_byte by lia. rewrite Z.div_div by lia.
  change (2 ^ 8 * 2 ^ 8) with 65536. change (2 ^ 24) with 16777216. change (2 ^ 8) with 256.
  pose proof (Z.mod_pos_bound (v / 16777216) 256). pose proof (Z.mod_pos_bound (v / 65536) 256).
  pose proof (Z.mod_pos_bound (v / 256) 256). pose proof (Z.mod_pos_bound v 256). rewrite u32_id by (unfold is_u32; lia). lia.
Qed.

(** ** What a state of the decompressor stands for

    The invariant of the loop of [zlib_inflate]: for every mode, what the specification gives
    for the bits that are there followed by any others.  The history is all of the output of
    the stream, of this call and of earlier ones; the window holds the end of what earlier
    calls wrote. *)

(** ** The window *)

(** The place in the window of the byte [k] before the end. *)
Definition win_place (w : window_state) (k : Z) : Z := if k <=? write w then write w - k else write w - k + wsize w.
Record win_fits (w : window_state) : Prop := {
  wf_bits : wbits w = 15;
  wf_size : wsize w = 32768 \/ wsize w = 0;
  wf_len : Z.of_nat (length (window w)) = wsize w;
  wf_write : 0 <= write w /\ (write w < wsize w \/ write w = 0);
  wf_have : 0 <= whave w <= wsize w;
  wf_linear : whave w < wsize w -> write w = whave w
}.
(** The window holds the end of [h]; there is none only when all output is in one buffer. *)
Record win_holds (w : window_state) (h : list Z) : Prop := {
  wh_have : whave w = Z.min (Z.of_nat (length h)) (wsize w);
  wh_none : wsize w = 0 -> h = [];
  wh_byte : forall k, 1 <= k <= whave w -> rd (window w) (win_place w k) = h !! (length h - Z.to_nat k)%nat
}.

(** ** The output buffer *)

(** What it holds, and its size. *)
Record outbuf := mkBuf { filled :> list Z; capacity : Z }.

Section sim.
(** Whether there is a wrapper, the history and the output buffer at the start of the call,
    and what the specification gives for the input of the call with more bytes after it. *)
Context (zlib : bool) (h0 : list Z) (p0 : outbuf) (R : list Z -> verdict * list Z).

Abbreviation res := (result zlib 15).
Abbreviation fin := (fin zlib 15).

(** ** What does not depend on the mode *)

(** The modes in which the check value is that of the output before the mark. *)
Definition summed (m : inflate_mode) : bool :=
  match m with HEAD | DICTID | DICT | DONE | BAD => false | _ => true end.
Definition unsummed (l : loc) : Z := out l - left (rg l).
Record frame (l : loc) (h : list Z) : Prop := {
  fr_regs : reg_ok (rg l);
  fr_put : exists new, put (rg l) = p0 ++ new /\ h = h0 ++ new /\ 0 <= unsummed l <= Z.of_nat (length new) /\
             (before_check (mode (st l)) = true -> unsummed l = Z.of_nat (length new));
  fr_bytes : Forall is_u8 h;
  fr_fits : win_fits (win (st l));
  fr_holds : before_check (mode (st l)) = true -> win_holds (win (st l)) h0;
  fr_wrap : wrap (st l) = c_bool zlib;
  fr_dict : havedict (st l) = 0;
  fr_last : last (st l) = 0 \/ last (st l) = 1;
  fr_lens : length (lens (tb (st l))) = 320%nat;
  fr_work : length (work (tb (st l))) = 288%nat;
  fr_codes : length (codes (tb (st l))) = 2048%nat;
  fr_sum : zlib = true -> summed (mode (st l)) = true ->
             check (st l) = adler32 (take (length h - Z.to_nat (unsummed l)) h);
  fr_total : l_total l = u32 (Z.of_nat (length h) - unsummed l);
  fr_room : left (rg l) + Z.of_nat (length (put (rg l))) = capacity p0
}.

(** ** What is to come *)

Definition ahead (l : loc) (F : list Z) : list bool := stream (rg l) ++ bits_of_bytes F.
Definition islast (s : inflate_state) : bool := negb (last s =? 0).
Definition tables_read (s : inflate_state) (lits dists : list Z) : Prop :=
  reads LENS lits (tab_at s (lencode (tabs s))) (lenbits (tabs s)) /\
  reads DISTS dists (tab_at s (distcode (tabs s))) (distbits (tabs s)).
(** After the codes of a block, after an item, and after a distance. *)
Definition go_codes (s : inflate_state) (h : list Z) (r : read (list Z * list Z)) : verdict * list Z :=
  fin h (after r (fun '(lits, dists) bs => Go (mkConf (islast s) (Codes lits dists) bs h))).
Definition go_item (s : inflate_state) (lits dists h : list Z) (r : read item) : verdict * list Z :=
  fin h (after r (step_item (islast s) lits dists h)).

Definition counts_ok (t : table_state) : Prop := 4 <= ncode t <= 19 /\ 257 <= nlen t <= 286 /\ 1 <= ndist t <= 30.
Definition total_codes (t : table_state) : nat := Z.to_nat (nlen t + ndist t).
(** The lengths of the code length code read so far. *)
Record lenlens_ok (t : table_state) (cl : list Z) : Prop := {
  ll_have : 0 <= have t <= 19;
  ll_length : length cl = 19%nat;
  ll_range : Forall (fun l => 0 <= l <= 7) cl;
  ll_read : forall j, j ∈ take (Z.to_nat (have t)) length_order -> lens t !! j = cl !! j;
  ll_zero : forall j, j ∈ drop (Z.to_nat (have t)) length_order -> cl !! j = Some 0
}.
(** The lengths of the other codes read so far. *)
Record codelens_ok (s : inflate_state) (cl acc : list Z) : Prop := {
  cl_have : have (tb s) = Z.of_nat (length acc);
  cl_total : (length acc <= total_codes (tb s))%nat;
  cl_range : Forall (fun l => 0 <= l <= 15) acc;
  cl_lens : take (length acc) (lens (tb s)) = acc;
  cl_flat : Forall (fun l => l <= lenbits (tabs s)) cl;
  cl_reads : reads CODES cl (tab_at s (lencode (tabs s))) (lenbits (tabs s))
}.

Definition pending (m : inflate_mode) (l : loc) (h : list Z) : Prop :=
  let s := st l in
  let r := rg l in
  let c := cp s in
  let b := bits_ r in
  match m with
  | HEAD => (b = 0 \/ (zlib = true /\ b = 8)) /\ h = [] /\ last s = 0 /\
      forall F, R F = res (mkConf false (if zlib then WrapHeader else Header) (ahead l F) h)
  | DICTID => b `mod` 8 = 0 /\ b < 32 /\ forall F, R F = fin h (after (getbits 32 (ahead l F)) (fun _ _ => Stop Dictionary))
  | DICT => b = 0 /\ forall F, R F = (Dictionary, h)
  | TYPE | TYPEDO => b < 8 /\ forall F, R F = res (mkConf (islast s) Header (ahead l F) h)
  | STORED => (b < 8 \/ (b `mod` 8 = 0 /\ b < 32)) /\ forall F, R F = fin h (step_stored (islast s) h (ahead l F))
  | COPY => b = 0 /\ 0 <= length_ c < 65536 /\
      forall F, R F = res (mkConf (islast s) (if length_ c =? 0 then Header else Stored (length_ c)) (ahead l F) h)
  | TABLE => b < 14 /\ forall F, R F = go_codes s h (read_dynamic (ahead l F))
  | LENLENS => b < 8 /\ counts_ok (tb s) /\ have (tb s) <= ncode (tb s) /\ exists cl, lenlens_ok (tb s) cl /\
      forall F, R F = go_codes s h (rbind
        (read_code_lengths (drop (Z.to_nat (have (tb s))) (take (Z.to_nat (ncode (tb s))) length_order)) cl (ahead l F))
        (read_codes (Z.to_nat (nlen (tb s))) (Z.to_nat (ndist (tb s)))))
  | CODELENS => counts_ok (tb s) /\ exists cl acc fuel, codelens_ok s cl acc /\
      (b < 8 \/ (next_lengths cl (total_codes (tb s)) acc (held r) = More /\ (length acc < total_codes (tb s))%nat)) /\
      (total_codes (tb s) <= length acc + fuel)%nat /\
      forall F, R F = go_codes s h (rbind (read_lengths fuel cl (total_codes (tb s)) acc (ahead l F)) (make_codes (Z.to_nat (nlen (tb s)))))
  | LEN => exists lits dists, tables_read s lits dists /\ (b < 8 \/ decode lits (held r) = More) /\
      forall F, R F = res (mkConf (islast s) (Codes lits dists) (ahead l F) h)
  | LENEXT => exists lits dists e, tables_read s lits dists /\ b < 8 /\ extra c = Z.of_nat e /\ (e <= 5)%nat /\ 3 <= length_ c /\ length_ c + 2 ^ extra c <= 259 /\
      forall F, R F = go_item s lits dists h (rbind (get_extra e (length_ c) (ahead l F)) (read_dist dists))
  | DIST => exists lits dists, tables_read s lits dists /\ (b < 8 \/ decode dists (held r) = More) /\ 3 <= length_ c <= 258 /\
      forall F, R F = go_item s lits dists h (read_dist dists (length_ c) (ahead l F))
  | DISTEXT => exists lits dists e, tables_read s lits dists /\ (b < 8 \/ b < extra c) /\ 3 <= length_ c <= 258 /\
      extra c = Z.of_nat e /\ (e <= 13)%nat /\ 1 <= offset c /\ offset c + 2 ^ extra c <= 32769 /\
      forall F, R F = go_item s lits dists h (rbind (get_extra e (offset c) (ahead l F)) (fun d bs => Got (Match (length_ c) d) bs))
  | MATCH => exists lits dists, tables_read s lits dists /\ b < 8 /\ 1 <= length_ c <= 258 /\
      1 <= offset c <= 32768 /\ offset c <= Z.of_nat (length h) /\
      forall F, R F = res (mkConf (islast s) (Codes lits dists) (ahead l F) (copy_match (Z.to_nat (length_ c)) (Z.to_nat (offset c)) h))
  | LIT => exists lits dists, tables_read s lits dists /\ b < 8 /\ 0 <= length_ c < 256 /\
      forall F, R F = res (mkConf (islast s) (Codes lits dists) (ahead l F) (h ++ [length_ c]))
  | CHECK => b `mod` 8 = 0 /\ b < 32 /\ (zlib = false -> b = 0) /\ forall F, R F = fin h (step_end zlib h (ahead l F))
  | DONE => b = 0 /\ forall F, R F = (Complete (ahead l F), h)
  | BAD => forall F, R F = (Invalid, h)
  | _ => False
  end.

Record sim (l : loc) (h : list Z) : Prop := { sim_frame : frame l h; sim_pending : pending (mode (st l)) l h }.
Lemma sim_intro m l h : mode (st l) = m -> frame l h -> pending m l h -> sim l h.
Proof. intros <- H1 H2. by split. Qed.
Lemma sim_elim m l h : mode (st l) = m -> sim l h -> frame l h /\ pending m l h.
Proof. intros <- [H1 H2]. done. Qed.

(** ** Progress *)

Definition rank (m : inflate_mode) : Z :=
  match m with BAD | DONE => 0 | CHECK => 1 | TYPE | TYPEDO => 2 | _ => 3 end.
Definition work_left (l : loc) : Z :=
  4 * (Z.of_nat (length (stream (rg l))) + left (rg l)) + rank (mode (st l)).

(** ** The ways out *)

Definition starved (l : loc) (h : list Z) : Prop := next (rg l) = [] /\ R [] = (Starved, h).
Definition left_with (flush r : Z) (l : loc) (h : list Z) : Prop :=
  (r = Z_OK /\ before_check (mode (st l)) = true \/ r = Z_OK /\ mode (st l) = CHECK /\ starved l h) /\
     (left (rg l) = 0 \/ starved l h \/ (flush = Z_BLOCK /\ mode (st l) = TYPE)) \/
  r = Z_STREAM_END /\ mode (st l) = DONE \/
  r = Z_DATA_ERROR /\ mode (st l) = BAD.
Definition exits (flush : Z) (x : exit) (l : loc) : Prop :=
  exists h, sim l h /\
  match x with
  | ExLeave r => left_with flush r l h
  | ExReturn r => r = Z_NEED_DICT /\ mode (st l) = DICT
  end.
(** On to the next round, with less than [n] to do. *)
Definition on (n : Z) (l : loc) : Prop := exists h, sim l h /\ work_left l < n.

(** ** Steps that keep the frame *)

Lemma frame_same l l' h : same_but_stream l l' -> frame l h -> frame l' h.
Proof.
  intros [Hst (Ho & Ha & Ht) (Hp & Hl) Hr] [F1 F2 F3 F4 F5 F6 F7 F8 F9 F10 F11 F12 F13 F14].
  split; unfold unsummed in *; rewrite ?Hst, ?Ho, ?Ht, ?Hp, ?Hl; auto.
Qed.
Lemma frame_refilled l l' h : refilled l l' -> frame l h -> frame l' h.
Proof. intros H. by apply frame_same, refilled_same. Qed.
Lemma frame_dropped l h n : 0 <= n <= bits_ (rg l) -> frame l h -> frame (with_rg (dropped n (rg l)) l) h.
Proof. intros Hn H. apply (frame_same l); [|done]. apply same_dropped; [|done]. apply refilled_same, refilled_refl, H. Qed.
Lemma frame_initbits l h : frame l h -> frame (with_rg (set_acc 0 0 (rg l)) l) h.
Proof.
  intros H. apply (frame_same l); [|done]. split; auto. destruct (fr_regs _ _ H). by split.
Qed.

(** The fields that the frame speaks of. *)
Record keeps (s s' : inflate_state) : Prop := {
  kp_win : win s' = win s;
  kp_wrap : wrap s' = wrap s /\ havedict s' = havedict s;
  kp_last : last s' = last s \/ last s' = 0 \/ last s' = 1;
  kp_check : check s' = check s;
  kp_tb : length (lens (tb s')) = length (lens (tb s)) /\ length (work (tb s')) = length (work (tb s)) /\
          length (codes (tb s')) = length (codes (tb s));
  kp_before : before_check (mode s') = true -> before_check (mode s) = true;
  kp_summed : zlib = true -> summed (mode s') = true -> summed (mode s) = true
}.
Lemma frame_st l s h : keeps (st l) s -> frame l h -> frame (with_st s l) h.
Proof.
  intros [K1 [K2 K3] K4 K5 (K6 & K7 & K8) K9 K10] [F1 (new & P1 & P2 & P3 & P4) F3 F4 F5 F6 F7 F8 F9 F10 F11 F12 F13 F14].
  split; unfold unsummed in *; cbn [with_st st rg out l_total] in *; rewrite ?K1, ?K2, ?K3, ?K5, ?K6, ?K7, ?K8; auto.
  - exists new. repeat (split; [done|]). auto.
  - destruct K4 as [->|]; auto.
Qed.
Lemma keeps_mode s m :
  (before_check m = true -> before_check (mode s) = true) -> (zlib = true -> summed m = true -> summed (mode s) = true) -> keeps s (set_mode m s).
Proof. intros H1 H2. split; cbn; auto. Qed.
Lemma frame_mode m l h m' :
  mode (st l) = m -> (before_check m' = true -> before_check m = true) -> (zlib = true -> summed m' = true -> summed m = true) ->
  frame l h -> frame (with_st (set_mode m' (st l)) l) h.
Proof. intros <- H1 H2. by apply frame_st, keeps_mode. Qed.
Lemma keeps_trans s1 s2 s3 : keeps s1 s2 -> keeps s2 s3 -> keeps s1 s3.
Proof.
  intros [K1 [K2 K3] K4 K5 (K6 & K7 & K8) K9 K10] [L1 [L2 L3] L4 L5 (L6 & L7 & L8) L9 L10].
  split; auto; [congruence|split; congruence| |congruence|repeat split; congruence].
  destruct L4 as [->|]; auto.
Qed.

(** ** Bits that are there *)

Lemma ahead_refilled l l' F : refilled l l' -> ahead l' F = ahead l F.
Proof. intros H. unfold ahead. by rewrite (rf_stream _ _ H). Qed.
Lemma getbits_ahead n l F :
  reg_ok (rg l) -> 0 <= n <= bits_ (rg l) ->
  getbits (Z.to_nat n) (ahead l F) = Got (hold (rg l) `mod` 2 ^ n) (ahead (with_rg (dropped n (rg l)) l) F).
Proof.
  intros Hr Hn. pose proof (length_stream _ Hr) as Hl. unfold ahead. cbn [with_rg rg].
  destruct (dropped_ok n (rg l) Hr Hn) as (_ & -> & _). apply getbits_app. rewrite getbits_ok by lia.
  rewrite Z2Nat.id, <- hold_stream by (done || lia). done.
Qed.
Lemma ahead_nil l : next (rg l) = [] -> ahead l [] = held (rg l).
Proof. intros Hn. unfold ahead, stream. rewrite Hn. cbn. by rewrite !app_nil_r. Qed.
Lemma getbits_starved n l : reg_ok (rg l) -> next (rg l) = [] -> bits_ (rg l) < n -> getbits (Z.to_nat n) (ahead l []) = More.
Proof.
  intros Hr Hn Hlt. rewrite ahead_nil by done. apply getbits_more. pose proof (length_held _ Hr). pose proof (ro_bits _ Hr). lia.
Qed.

(** ** The work that is left *)

Lemma work_refilled l l' : refilled l l' -> work_left l' = work_left l.
Proof.
  intros H. unfold work_left. destruct H as [-> _ [_ ->] -> _ _ _]. done.
Qed.
Lemma work_dropped l n : reg_ok (rg l) -> 0 <= n <= bits_ (rg l) -> work_left (with_rg (dropped n (rg l)) l) = work_left l - 4 * n.
Proof.
  intros Hr Hn. unfold work_left. cbn [with_rg rg st]. pose proof (length_stream _ Hr). destruct (dropped_ok n (rg l) Hr Hn) as (Hok & _ & _).
  pose proof (length_stream _ Hok) as H2. rewrite H2, H. cbn [dropped set_acc bits_ next left]. lia.
Qed.
Lemma work_mode l s : work_left (with_st s l) = work_left l - rank (mode (st l)) + rank (mode s).
Proof. unfold work_left. cbn. lia. Qed.
Lemma work_initbits l : reg_ok (rg l) -> work_left (with_rg (set_acc 0 0 (rg l)) l) = work_left l - 4 * bits_ (rg l).
Proof.
  intros Hr. unfold work_left. cbn [with_rg rg st]. pose proof (length_stream _ Hr) as ->.
  assert (Hok : reg_ok (set_acc 0 0 (rg l))) by (destruct Hr; by split). pose proof (length_stream _ Hok) as ->. cbn. lia.
Qed.

(** ** Output *)

Lemma frame_wrote l h r bytes :
  frame l h -> before_check (mode (st l)) = true -> Forall is_u8 bytes -> reg_ok r ->
  put r = put (rg l) ++ bytes -> left r = left (rg l) - Z.of_nat (length bytes) -> frame (with_rg r l) (h ++ bytes).
Proof.
  intros [F1 (new & P1 & P2 & P3 & P4) F3 F4 F5 F6 F7 F8 F9 F10 F11 F12 F13 F14] Hb Hu Hr Ep El.
  assert (Eu : unsummed (with_rg r l) = unsummed l + Z.of_nat (length bytes)) by (unfold unsummed; cbn; lia).
  assert (Hle : unsummed l <= Z.of_nat (length h)) by (subst h; rewrite length_app; lia).
  split; cbn [with_rg st rg out l_total]; rewrite ?Eu; auto.
  - exists (new ++ bytes). rewrite Ep, P1, P2, <- !app_assoc, length_app. split; [done|]. split; [done|]. split; [lia|].
    intros H. specialize (P4 H). lia.
  - by apply Forall_app.
  - intros Hz Hs. rewrite (F12 Hz Hs), length_app. f_equal.
    replace (length h + length bytes - Z.to_nat (unsummed l + Z.of_nat (length bytes)))%nat with (length h - Z.to_nat (unsummed l))%nat by lia.
    rewrite take_app_le by lia. done.
  - rewrite F13, length_app. f_equal. lia.
  - rewrite Ep, El, length_app. lia.
Qed.

(** ** An error *)

Lemma on_bad n l h : frame l h -> (forall F, R F = (Invalid, h)) -> work_left l - rank (mode (st l)) < n ->
  on n (with_st (set_mode BAD (st l)) l).
Proof.
  intros Hf HR Hw. exists h. split; [|rewrite work_mode; cbn [set_mode mode rank]; lia].
  split; [|exact HR]. apply frame_st; [|done]. by apply keeps_mode.
Qed.
End sim.

Ltac keeps_tac := split; cbn; auto.

(** ** The window between calls

    [zlib_updatewindow] keeps the end of the history in the window, in a circle. *)

Lemma blit_ok dst pos src :
  0 <= pos -> pos + Z.of_nat (length src) <= Z.of_nat (length dst) ->
  exists dst', blit dst pos src = Some dst' /\ length dst' = length dst /\
    forall i, rd dst' i = if (pos <=? i) && (i <? pos + Z.of_nat (length src)) then src !! Z.to_nat (i - pos) else rd dst i.
Proof.
  intros Hp Hl. unfold blit. rewrite (proj2 (Z.leb_le _ _)), (proj2 (Z.leb_le _ _)) by lia. cbn [andb]. eexists. split; [done|]. split.
  { rewrite !length_app, length_take, length_drop. lia. }
  intros i. unfold rd. destruct (Z.leb_spec 0 i) as [H0|H0]; [|by rewrite (proj2 (Z.leb_gt pos i)) by lia].
  destruct (Z.leb_spec pos i) as [H1|H1]; cbn [andb].
  - rewrite lookup_app_r by (rewrite length_take; lia). rewrite length_take. destruct (Z.ltb_spec i (pos + Z.of_nat (length src))) as [H2|H2].
    + rewrite lookup_app_l by lia. f_equal. lia.
    + rewrite lookup_app_r by lia. rewrite lookup_drop. f_equal. lia.
  - rewrite lookup_app_l by (rewrite length_take; lia). rewrite lookup_take_lt by lia. done.
Qed.
Lemma written_ok buf back n :
  0 <= n <= back -> back <= Z.of_nat (length buf) ->
  exists src, written buf back n = Some src /\ Z.of_nat (length src) = n /\
    forall i, 0 <= i < n -> src !! Z.to_nat i = buf !! Z.to_nat (Z.of_nat (length buf) - back + i).
Proof.
  intros Hn Hb. unfold written. rewrite !(proj2 (Z.leb_le _ _)) by lia. cbn [andb]. eexists. split; [done|].
  split; [rewrite length_take, length_drop; lia|]. intros i Hi. rewrite lookup_take_lt, lookup_drop by lia. f_equal. lia.
Qed.

(** The place of a byte, around the circle. *)
Lemma win_place_mod w k : 0 <= write w < wsize w -> 1 <= k <= wsize w -> win_place w k = (write w - k) `mod` wsize w.
Proof.
  intros Hw Hk. unfold win_place. destruct (Z.leb_spec k (write w)).
  - by rewrite Z.mod_small by lia.
  - apply (Z.mod_unique _ _ (-1)); lia.
Qed.

(** What the window holds after an update: the last [copy] bytes of [buf], and before them
    what it held. *)
Record updated (w : window_state) (buf : list Z) (copy : Z) (w' : window_state) : Prop := {
  up_fits : win_fits w';
  up_size : wsize w' = wsize w;
  up_have : wsize w <> 0 -> whave w' = Z.min (whave w + copy) (wsize w);
  up_byte : wsize w <> 0 -> forall k, 1 <= k <= wsize w ->
    rd (window w') (win_place w' k) =
    if k <=? copy then buf !! Z.to_nat (Z.of_nat (length buf) - k) else rd (window w) (win_place w (k - copy))
}.

(** More than the window holds. *)
Lemma update_full w buf copy :
  win_fits w -> 0 <= copy <= Z.of_nat (length buf) -> wsize w <= copy ->
  exists w', zlib_updatewindow w buf copy = Some w' /\ updated w buf copy w'.
Proof.
  intros [W1 W2 W3 W4 W5 W6] Hc Hle. unfold zlib_updatewindow. rewrite (proj2 (Z.leb_le _ _)) by done.
  destruct (written_ok buf (wsize w) (wsize w)) as (src & -> & Hs & Hb); [lia|lia|]. rewrite bind_some.
  destruct (blit_ok (window w) 0 src) as (win' & -> & Hl & Hr); [lia|lia|]. rewrite bind_some. eexists. split; [done|]. split; cbn; auto.
  - split; cbn; auto; lia.
  - lia.
  - intros Hne k Hk. rewrite win_place_mod by (cbn; lia). cbn. rewrite (proj2 (Z.leb_le k copy)) by lia.
    replace ((0 - k) `mod` wsize w) with (wsize w - k) by (apply (Z.mod_unique _ _ (-1)); lia).
    rewrite Hr, (proj2 (Z.leb_le 0 _)), (proj2 (Z.ltb_lt _ _)) by lia. cbn [andb]. rewrite Z.sub_0_r, Hb by lia. f_equal. lia.
Qed.

(** Around the end of the window, or not. *)
Lemma update_part w buf copy :
  win_fits w -> 0 <= copy <= Z.of_nat (length buf) -> copy < wsize w ->
  exists w', zlib_updatewindow w buf copy = Some w' /\ updated w buf copy w'.
Proof.
  intros [W1 W2 W3 W4 W5 W6] Hc Hlt. unfold zlib_updatewindow. rewrite (proj2 (Z.leb_gt _ _)) by done. cbv zeta.
  set (dist := if copy <? wsize w - write w then copy else wsize w - write w).
  assert (Hd : 0 <= dist <= copy /\ write w + dist <= wsize w /\ (dist < copy -> dist = wsize w - write w)) by (unfold dist; split_bool; lia).
  clearbody dist. destruct (written_ok buf copy dist) as (src & -> & Hs & Hb); [lia|lia|]. rewrite bind_some.
  destruct (blit_ok (window w) (write w) src) as (win1 & -> & Hl1 & Hr1); [lia|lia|]. rewrite bind_some.
  destruct (Z.eqb_spec (copy - dist) 0) as [E|E]; cbn [negb].
  - assert (dist = copy) as -> by lia. eexists. split; [done|]. set (w' := mkWindow _ _ _ _ _).
    assert (Hw' : write w' = if write w + copy =? wsize w then 0 else write w + copy) by done.
    split; cbn [w' wsize whave window]; auto.
    + split; cbn; auto; [lia|split_bool; lia|split_bool; lia|split_bool; lia].
    + intros _. split_bool; lia.
    + intros _ k Hk. assert (Hp : win_place w' k = if k <=? write w + copy then write w + copy - k else write w + copy - k + wsize w).
      { unfold win_place. rewrite Hw'. cbn [w' wsize]. destruct (Z.eqb_spec (write w + copy) (wsize w)); split_bool; lia. }
      rewrite Hp, Hr1. unfold win_place. destruct (Z.leb_spec k (write w + copy)) as [H1|H1]; destruct (Z.leb_spec k copy) as [H2|H2];
        [rewrite (proj2 (Z.leb_le (write w) _)), (proj2 (Z.ltb_lt _ _)) by lia; cbn [andb]; rewrite Hb by lia; f_equal; lia|
         rewrite (proj2 (Z.leb_gt (write w) _)) by lia; cbn [andb]; f_equal; split_bool; lia|lia|].
      rewrite (proj2 (Z.ltb_ge _ (write w + Z.of_nat (length src)))) by lia. rewrite andb_false_r. f_equal. split_bool; lia.
  - destruct (written_ok buf (copy - dist) (copy - dist)) as (src2 & -> & Hs2 & Hb2); [lia|lia|]. rewrite bind_some.
    destruct (blit_ok win1 0 src2) as (win2 & -> & Hl2 & Hr2); [lia|lia|]. rewrite bind_some. eexists. split; [done|]. set (w' := mkWindow _ _ _ _ _).
    split; cbn [w' wsize whave window]; auto.
    + split; cbn; auto; lia.
    + intros _. lia.
    + intros _ k Hk. rewrite Hr2. unfold win_place. cbn [w' wsize write]. rewrite Hr1.
      destruct (Z.leb_spec k (copy - dist)) as [H1|H1].
      * rewrite (proj2 (Z.leb_le 0 _)), (proj2 (Z.ltb_lt _ _)), (proj2 (Z.leb_le k copy)) by lia. cbn [andb]. rewrite Hb2 by lia. f_equal. lia.
      * rewrite (proj2 (Z.ltb_ge _ (0 + Z.of_nat (length src2)))), andb_false_r by lia. destruct (Z.leb_spec k copy) as [H2|H2].
        -- rewrite (proj2 (Z.leb_le (write w) _)), (proj2 (Z.ltb_lt _ _)) by lia. cbn [andb]. rewrite Hb by lia. f_equal. lia.
        -- rewrite (proj2 (Z.leb_gt (write w) _)) by lia. cbn [andb]. rewrite (proj2 (Z.leb_le (k - copy) (write w))) by lia. f_equal. lia.
Qed.

Lemma update_ok w buf copy :
  win_fits w -> 0 <= copy <= Z.of_nat (length buf) -> exists w', zlib_updatewindow w buf copy = Some w' /\ updated w buf copy w'.
Proof. intros Hw Hc. destruct (Z.le_gt_cases (wsize w) copy); [by apply update_full|by apply update_part]. Qed.

(** With all of the new output, the window holds the end of the history again. *)
Lemma updated_holds w w' p0 h0 new :
  wsize w <> 0 -> win_fits w -> win_holds w h0 -> updated w (p0 ++ new) (Z.of_nat (length new)) w' -> win_holds w' (h0 ++ new).
Proof.
  intros Hne Hfit [Hhave _ Hbyte] [U1 U2 U3 U4]. specialize (U3 Hne). specialize (U4 Hne). pose proof (wf_have _ Hfit). split.
  - rewrite U3, U2, Hhave, length_app. lia.
  - rewrite U2. lia.
  - intros k Hk. rewrite U4 by lia. rewrite !length_app. destruct (Z.leb_spec k (Z.of_nat (length new))).
    + rewrite !lookup_app_r by lia. f_equal. lia.
    + rewrite Hbyte by lia. rewrite lookup_app_l by lia. f_equal. lia.
Qed.
