(* ===== verification/InflateBlocks.v ===== *)
(** * The wrapper, block headers and stored blocks *)

From Stdlib Require Import ZArith Lia Bool.
From stdpp Require Import base numbers list option.
From S2P Require Import Prelude Deflate InfTrees Canon InfTreesTheorems DeflateProofs InflateState Inflate InflateTables InflateMonad InflateCodes InflateSim.
Open Scope Z_scope.

Section blocks.
Context (zlib : bool) (h0 : list Z) (p0 : outbuf) (R : list Z -> verdict * list Z) (flush : Z).

Abbreviation frame := (frame zlib h0 p0).
Abbreviation pending := (pending zlib R).
Abbreviation sim := (sim zlib h0 p0 R).
Abbreviation on := (on zlib h0 p0 R).
Abbreviation exits := (exits zlib h0 p0 R flush).

Lemma exit_starved m l l' h :
  mode (st l) = m -> before_check m = true \/ m = CHECK -> frame l h -> refilled l l' -> next (rg l') = [] ->
  pending m l' h -> R [] = (Starved, h) -> exits (ExLeave Z_OK) l'.
Proof.
  intros Em Hm Hf H1 Hn Hp HR. rewrite <- (rf_st _ _ H1) in Em. exists h.
  split; [apply (sim_intro _ _ _ _ m); [done|by eapply frame_refilled|done]|].
  assert (Hst : starved R l' h) by done. left. rewrite Em. split; [|by auto]. destruct Hm; auto.
Qed.

(** ** Block headers *)

Lemma align_ahead l F : reg_ok (rg l) -> align (ahead l F) = ahead (with_rg (dropped (bits_ (rg l) `mod` 8) (rg l)) l) F.
Proof.
  intros Hr. unfold ahead. cbn [with_rg rg]. rewrite align_dropped by done. unfold align. rewrite length_app, length_bits_of_bytes.
  replace ((length (stream (rg l)) + 8 * length F) `mod` 8)%nat with (length (stream (rg l)) `mod` 8)%nat.
  - rewrite drop_app_le; [done|]. apply Nat.Div0.mod_le.
  - rewrite (Nat.mul_comm 8), Nat.Div0.mod_add. done.
Qed.

(** The type of a block, from the bits. *)
Lemma block_bits v : 0 <= v -> (v / 2) `mod` 4 = (v `mod` 8) / 2 /\ (if Z.odd (v `mod` 8) then v `mod` 2 = 1 else v `mod` 2 = 0).
Proof.
  intros Hv. split; [zlia|]. rewrite Zodd_mod. destruct (Z.eqb_spec ((v `mod` 8) `mod` 2) 1); zlia.
Qed.

Lemma typedo_block m l l1 h n :
  m = TYPE \/ m = TYPEDO -> mode (st l) = m -> frame l h -> work_left l <= n -> refilled l l1 -> 3 <= bits_ (rg l1) < 11 ->
  (forall F, R F = fin zlib 15 h (step zlib 15 (mkConf false Header (ahead l F) h))) ->
  wp (b <- BITS 1; upd (set_last b);; DROPBITS 1;;
      t <- BITS 2;
      (if t =? 0 then goto_mode STORED
       else if t =? 1 then upd zlib_fixedtables;; goto_mode LEN
       else if t =? 2 then goto_mode TABLE
       else goto_mode BAD);;
      DROPBITS 2)%inflate (fun _ => on n) exits l1.
Proof.
  intros Hm Em Hf Hw H1 Hb HR. pose proof (rf_ok _ _ H1) as Hr1. pose proof (frame_refilled _ _ _ _ _ _ H1 Hf) as Hf1.
  assert (Hmm : summed m = true /\ before_check m = true /\ rank m = 2) by (destruct Hm as [-> | ->]; done). destruct Hmm as (Hsm & Hbm & Hrk).
  rewrite <- (rf_st _ _ H1) in Em. set (v := hold (rg l1)) in *. pose proof (ro_hold _ Hr1) as Hh. fold v in Hh.
  destruct (block_bits v ltac:(lia)) as [Ev Elast]. set (b := v `mod` 2) in *.
  assert (HRv : forall F, R F = fin zlib 15 h (
    let bs := ahead (with_rg (dropped 3 (rg l1)) l1) F in
    if (v / 2) `mod` 4 =? 0 then step_stored (negb (b =? 0)) h bs
    else if (v / 2) `mod` 4 =? 1 then Go (mkConf (negb (b =? 0)) (Codes fixed_lits fixed_dists) bs h)
    else if (v / 2) `mod` 4 =? 2 then after (read_dynamic bs) (fun '(lits, dists) bs => Go (mkConf (negb (b =? 0)) (Codes lits dists) bs h))
    else Stop Invalid)).
  { intros F. rewrite HR. unfold step. cbn [c_phase c_last c_bits c_out]. rewrite <- (ahead_refilled _ _ _ H1).
    change 3%nat with (Z.to_nat 3). rewrite getbits_ahead by (done || lia). cbn [after]. fold v. change (2 ^ 3) with 8. rewrite <- Ev.
    replace (Z.odd (v `mod` 8)) with (negb (b =? 0)); [done|]. destruct (Z.odd (v `mod` 8)); rewrite Elast; done. }
  assert (Hnext : forall s m', keeps zlib (st l1) s -> mode s = m' -> rank m' <= 3 -> pending m' (with_st s (with_rg (dropped 3 (rg l1)) l1)) h ->
    on n (with_st s (with_rg (dropped 3 (rg l1)) l1))).
  { intros s m' Hk Hm' Hr' Hp. exists h. split.
    - apply (sim_intro _ _ _ _ m'); auto. apply frame_st; [done|]. apply frame_dropped; [lia|done].
    - rewrite work_mode, work_dropped by (done || lia). cbn [with_rg st]. rewrite Em, Hrk, Hm', (work_refilled _ _ H1). lia. }
  wp_step. apply wp_bits; [lia|]. wp_step. wp_step. wp_step. apply wp_dropbits; [done|cbn; lia|].
  wp_step. apply wp_bits; [lia|]. cbn [with_rg with_st rg dropped set_acc hold]. change (2 ^ 1) with 2. change (2 ^ 2) with 4. fold v b. 
  assert (Hb01 : b = 0 \/ b = 1) by (unfold b; zlia).
  wp_step. destruct ((v / 2) `mod` 4 =? 0) eqn:Et0; [|destruct ((v / 2) `mod` 4 =? 1) eqn:Et1; [|destruct ((v / 2) `mod` 4 =? 2) eqn:Et2]].
  all: destruct (dropped_ok 1 (rg l1) Hr1 ltac:(lia)) as (Hok & _); repeat wp_step; (apply wp_dropbits; [done|cbn; lia|]);
    cbn [with_rg with_st rg]; rewrite dropped_dropped by lia.
  - apply (Hnext _ STORED); [split; cbn; rewrite ?Em; auto|done|cbn; lia|]. cbn. split; [lia|]. intros F. by rewrite HRv.
  - apply (Hnext _ LEN); [split; cbn; rewrite ?Em; auto|done|cbn; lia|]. cbn. exists fixed_lits, fixed_dists.
    split; [split; [exact lenfix_reads|exact distfix_reads]|]. split; [lia|]. intros F. by rewrite HRv.
  - apply (Hnext _ TABLE); [split; cbn; rewrite ?Em; auto|done|cbn; lia|]. cbn. split; [lia|]. intros F. by rewrite HRv.
  - apply (Hnext _ BAD); [split; cbn; rewrite ?Em; auto|done|cbn; lia|]. cbn. intros F. by rewrite HRv.
Qed.

Lemma wp_typedo m l h n :
  mode (st l) = m -> m = TYPE \/ m = TYPEDO -> sim l h -> work_left l <= n -> wp do_TYPEDO (fun _ => on n) exits l.
Proof.
  intros Em Hm Hs Hw. apply (sim_elim _ _ _ _ m) in Hs as [Hf Hp]; [|done].
  assert (Hp' : forall l, pending m l h <-> bits_ (rg l) < 8 /\ forall F, R F = result zlib 15 (mkConf (islast (st l)) Header (ahead l F) h)).
  { destruct Hm as [-> | ->]; done. }
  assert (Hbc : before_check m = true /\ summed m = true /\ rank m = 2) by (destruct Hm as [-> | ->]; done).
  destruct Hbc as (Hbc & Hsum & Hrk). apply Hp' in Hp as [Hb HR]. pose proof (fr_regs _ _ _ _ _ Hf) as Hr. pose proof (ro_bits _ Hr).
  unfold do_TYPEDO. wp_step. wp_step. destruct (Z.eqb_spec (last (st l)) 0) as [E0|E0]; cbn [negb].
  - assert (HR' : forall F, R F = fin zlib 15 h (step zlib 15 (mkConf false Header (ahead l F) h))).
    { intros F. rewrite HR, result_step. unfold islast. by rewrite E0. }
    wp_step. apply wp_needbits; [done|lia|lia|..].
    { intros l' H1 Hnil Hlt. apply (exit_starved m l l' h); auto.
      - apply Hp'. split; [lia|]. intros F. rewrite (ahead_refilled _ _ _ H1), (rf_st _ _ H1). apply HR.
      - rewrite HR', <- (ahead_refilled _ _ _ H1). unfold step. cbn [c_phase c_last c_bits c_out].
        change 3%nat with (Z.to_nat 3). rewrite getbits_starved by (done || apply H1). done. }
    intros l1 H1 Hge Hor. apply (typedo_block m l l1 h); auto.
    destruct Hor as [->|]; lia.
  - wp_step. apply wp_bytebits; [done|]. wp_step. exists h. pose proof (work_dropped l (bits_ (rg l) `mod` 8) Hr ltac:(zlia)) as Hwd.
    split; [|rewrite work_mode, Hwd; cbn [with_rg st set_mode mode rank]; rewrite Em, Hrk; zlia].
    apply (sim_intro _ _ _ _ CHECK); [done|..].
    + apply (frame_mode _ _ _ m); auto. apply frame_dropped; [zlia|done].
    + cbn. split; [zlia|]. split; [zlia|]. split; [zlia|]. intros F. rewrite HR, result_step. unfold step, islast.
      cbn [c_phase c_last c_bits c_out]. apply Z.eqb_neq in E0. rewrite E0, align_ahead by done. done.
Qed.
Lemma wp_type l h n : mode (st l) = TYPE -> sim l h -> work_left l <= n -> wp (do_TYPE flush) (fun _ => on n) exits l.
Proof.
  intros Em Hs Hw. unfold do_TYPE. destruct (Z.eqb_spec flush Z_BLOCK) as [Ef|].
  - wp_step. exists h. split; [done|]. left. rewrite Em. split; [by left|]. right. right. done.
  - apply (wp_typedo TYPE l h); auto.
Qed.

(** ** Stored blocks *)

Lemma ahead_aligned l F : bits_ (rg l) = 0 -> ahead l F = bits_of_bytes (next (rg l)) ++ bits_of_bytes F.
Proof. intros Hb. unfold ahead, stream, held. by rewrite Hb. Qed.

Lemma frame_copied l h n :
  frame l h -> before_check (mode (st l)) = true -> 0 <= n <= left (rg l) -> n <= Z.of_nat (length (next (rg l))) ->
  frame (with_rg (mkRegs (drop (Z.to_nat n) (next (rg l))) (put (rg l) ++ take (Z.to_nat n) (next (rg l))) (left (rg l) - n)
    (hold (rg l)) (bits_ (rg l))) l) (h ++ take (Z.to_nat n) (next (rg l))).
Proof.
  intros Hf Hb Hn Hl. destruct (fr_regs _ _ _ _ _ Hf) as [Hbits Hh Hnx Hlf].
  apply frame_wrote; cbn [put left]; auto.
  - by apply Forall_take.
  - split; cbn; auto; [by apply Forall_drop|lia].
  - rewrite length_take_le by lia. lia.
Qed.

Lemma wp_copy l h n : mode (st l) = COPY -> sim l h -> work_left l <= n -> wp do_COPY (fun _ => on n) exits l.
Proof.
  intros Em Hs Hw. pose proof Hs as Hs0. apply (sim_elim _ _ _ _ COPY) in Hs0 as [Hf (Hb & Hlen & HR)]; [|done].
  pose proof (fr_regs _ _ _ _ _ Hf) as Hr. pose proof Hr as [_ Hh Hnx Hl]. unfold do_COPY. wp_step. wp_step.
  set (len := length_ (cp (st l))) in *. destruct (Z.eqb_spec len 0) as [E0|E0].
  { wp_step. exists h. split; [|rewrite work_mode, Em; cbn [set_mode mode rank]; lia].
    apply (sim_intro _ _ _ _ TYPE); [done|by apply (frame_mode _ _ _ COPY)|]. split; [cbn; lia|exact HR]. }
  set (copy := if _ <? _ then left (rg l) else _).
  assert (Hc : 0 <= copy <= left (rg l) /\ copy <= len /\ copy <= Z.of_nat (length (next (rg l))) /\
    (copy = 0 -> left (rg l) = 0 \/ next (rg l) = [])).
  { unfold copy. destruct (Z.ltb_spec (Z.of_nat (length (next (rg l)))) len); split_bool; repeat split; try lia; intros Hc; rewrite Hc in *;
      try (by left; lia); right; apply length_zero_iff_nil; lia. }
  destruct Hc as (Hc1 & Hc2 & Hc3 & Hc4). destruct (Z.eqb_spec copy 0) as [Ec|Ec].
  { wp_step. exists h. split; [done|]. left. rewrite Em. split; [by left|].
    destruct (Hc4 Ec) as [|Hnil]; [by left|]. right. left. split; [done|]. rewrite HR, result_step. unfold step.
    cbn [c_phase c_bits]. unfold ahead, stream, held. rewrite Hnil, Hb. done. }
  wp_step. wp_step. unfold upd_cp. wp_step. cbn [with_rg st cp]. exists (h ++ take (Z.to_nat copy) (next (rg l))). 
  pose proof (frame_copied l h copy Hf ltac:(by rewrite Em) Hc1 Hc3) as Hf1. set (l1 := with_rg _ l) in *.
  assert (Hr1 : reg_ok (rg l1)) by apply Hf1. split.
  - apply (sim_intro _ _ _ _ COPY); [done|apply frame_st; [split; cbn; rewrite ?Em; auto|done]|]. split; [done|]. cbn [with_st st set_cp cp set_length length_]. split; [lia|].
    intros F. rewrite HR, !ahead_aligned by done. cbn [with_st with_rg rg next l1].
    rewrite <- (take_drop (Z.to_nat copy) (next (rg l))) at 1. rewrite bits_of_bytes_app, <- !app_assoc.
    replace (Stored len) with (if len =? 0 then Header else Stored len) by (split_bool; done).
    rewrite result_stored by (try apply Forall_take; try rewrite length_take_le; try done; lia). rewrite length_take_le by lia.
    rewrite Z2Nat.id by lia. done.
  - rewrite work_mode. cbn [with_st set_cp with_rg st mode l1]. rewrite Em. unfold work_left in *. cbn [st with_rg l1].
    rewrite (length_stream _ Hr1), (length_stream _ Hr), Em in *. cbn in *. rewrite length_drop. lia.
Qed.

Lemma lxor_ones n x : 0 <= n -> 0 <= x < 2 ^ n -> Z.lxor x (Z.ones n) = Z.ones n - x.
Proof.
  intros Hn Hx. assert (Hb : forall i, n <= i -> Z.testbit x i = false).
  { intros i Hi. destruct (Z.eq_dec x 0) as [->|]; [apply Z.bits_0|]. apply Z.bits_above_log2; [lia|].
    assert (Z.log2 x < n) by (apply Z.log2_lt_pow2; lia). lia. }
  rewrite Z.sub_nocarry_ldiff.
  - apply Z.bits_inj'. intros i Hi. rewrite Z.lxor_spec, Z.ldiff_spec, !Z.testbit_ones by lia.
    destruct (Z.ltb_spec i n); [|rewrite Hb by lia]; destruct (Z.leb_spec 0 i); try lia; cbn; by destruct (Z.testbit x i).
  - apply Z.bits_inj'. intros i Hi. rewrite Z.ldiff_spec, Z.testbit_ones, Z.bits_0 by lia.
    destruct (Z.ltb_spec i n); [|by rewrite Hb by lia]. destruct (Z.leb_spec 0 i); [|lia]. by destruct (Z.testbit x i).
Qed.
Lemma stored_check v : 0 <= v < 2 ^ 32 ->
  (Z.land v 65535 =? Z.lxor (Z.shiftr v 16) 65535) = (v `mod` 65536 =? 65535 - v / 65536) /\ Z.land v 65535 = v `mod` 65536.
Proof.
  intros Hv. rewrite (land_mask_mod v 16), shiftr_div by (done || lia). change (2 ^ 16) with 65536.
  change 65535 with (Z.ones 16) at 1. rewrite lxor_ones; [done|lia|]. change (2 ^ 16) with 65536. zlia.
Qed.

(** The bits above a byte boundary are gone. *)
Lemma ahead_align l F : reg_ok (rg l) -> bits_ (rg l) `mod` 8 = 0 -> align (ahead l F) = ahead l F.
Proof.
  intros Hr Hb. rewrite align_ahead, Hb by done. unfold ahead. cbn [with_rg rg].
  destruct (dropped_ok 0 (rg l) Hr) as (_ & -> & _); [destruct Hr; lia|done].
Qed.

Lemma wp_stored l h n : mode (st l) = STORED -> sim l h -> work_left l <= n -> wp do_STORED (fun _ => on n) exits l.
Proof.
  intros Em Hs Hw. apply (sim_elim _ _ _ _ STORED) in Hs as [Hf [Hb HR]]; [|done].
  pose proof (fr_regs _ _ _ _ _ Hf) as Hr. pose proof (ro_bits _ Hr). unfold do_STORED. wp_step. apply wp_bytebits; [done|].
  pose proof (frame_dropped _ _ _ l h (bits_ (rg l) `mod` 8) ltac:(zlia) Hf) as Hf1.
  pose proof (work_dropped l (bits_ (rg l) `mod` 8) Hr ltac:(zlia)) as Hw1.
  assert (HR1 : forall F, R F = fin zlib 15 h (after (getbits 32 (ahead (with_rg (dropped (bits_ (rg l) `mod` 8) (rg l)) l) F)) (fun v bs =>
    if v `mod` 65536 =? 65535 - v / 65536
    then Go (mkConf (islast (st l)) (if v `mod` 65536 =? 0 then Header else Stored (v `mod` 65536)) bs h)
    else Stop Invalid))).
  { intros F. rewrite HR. unfold step_stored. by rewrite align_ahead. }
  assert (Hb1 : (bits_ (rg l) - bits_ (rg l) `mod` 8) `mod` 8 = 0 /\ bits_ (rg l) - bits_ (rg l) `mod` 8 < 32) by zlia.
  set (l1 := with_rg _ l) in *. assert (Hr1 : reg_ok (rg l1)) by apply Hf1. clear Hb HR Hf.
  change (bits_ (rg l) - bits_ (rg l) `mod` 8) with (bits_ (rg l1)) in Hb1. 
  wp_step. apply wp_needbits; [done|lia|right; apply Hb1|..].
  { intros l2 H2 Hnil Hlt. pose proof (rf_align _ _ H2) as Hal. apply (exit_starved STORED l1 l2 h Em); auto.
    - split; [right; lia|]. intros F. unfold step_stored. rewrite ahead_align by (apply H2 || lia).
      rewrite HR1, (ahead_refilled _ _ _ H2), (rf_st _ _ H2). done.
    - rewrite HR1, <- (ahead_refilled _ _ _ H2). change 32%nat with (Z.to_nat 32). rewrite getbits_starved by (done || apply H2). done. }
  intros l2 H2 Hge _. pose proof (rf_ok _ _ H2) as Hr2. assert (E32 : bits_ (rg l2) = 32) by (destruct Hr2; lia).
  pose proof (ro_hold _ Hr2) as Hh. rewrite E32 in Hh. pose proof (frame_refilled _ _ _ _ _ _ H2 Hf1) as Hf2.
  destruct (stored_check (hold (rg l2)) Hh) as [Ec El]. wp_step. wp_step. rewrite Ec, El. set (v := hold (rg l2)) in *.
  assert (HR2 : forall F, R F = fin zlib 15 h (if v `mod` 65536 =? 65535 - v / 65536
    then Go (mkConf (islast (st l)) (if v `mod` 65536 =? 0 then Header else Stored (v `mod` 65536)) (ahead (with_rg (dropped 32 (rg l2)) l2) F) h)
    else Stop Invalid)).
  { intros F. rewrite HR1, <- (ahead_refilled _ _ _ H2). change 32%nat with (Z.to_nat 32). rewrite getbits_ahead by (done || lia).
    fold v. rewrite (Z.mod_small v) by done. done. }
  assert (Em2 : mode (st l2) = STORED) by (rewrite (rf_st _ _ H2); done).
  destruct (v `mod` 65536 =? 65535 - v / 65536) eqn:Eok; cbn [negb].
  - unfold upd_cp. wp_step. wp_step. wp_step. unfold INITBITS. wp_step. wp_step. wp_step. apply (wp_copy _ h); [done|..].
    + cbn [with_rg with_st rg st]. rewrite initbits_dropped, E32 by done. apply (sim_intro _ _ _ _ COPY); [done|..].
      * apply (frame_st _ _ _ (with_rg (dropped 32 (rg l2)) l2)); [split; cbn; rewrite ?Em2; auto|]. apply frame_dropped; [lia|done].
      * split; [cbn; lia|]. split; [cbn; zlia|]. intros F. rewrite HR2. replace (islast (st l)) with (islast (st l2)) by (by rewrite (rf_st _ _ H2)). done.
    + pose proof (work_initbits l2 Hr2) as Hwi. rewrite (work_refilled _ _ H2), Hw1, E32 in Hwi. unfold work_left at 1 in Hwi. unfold work_left at 1. cbn in Hwi |- *.
      rewrite Em2 in Hwi. cbn [rank] in Hwi. zlia.
  - wp_step. apply (on_bad _ _ _ _ _ _ h); auto. rewrite Em2, (work_refilled _ _ H2), Hw1. cbn [rank]. zlia.
Qed.

(** ** The wrapper *)

Lemma wp_dict l h n : mode (st l) = DICT -> sim l h -> wp (do_DICT flush) (fun _ => on n) exits l.
Proof.
  intros Em Hs. unfold do_DICT. wp_step. wp_step. rewrite (fr_dict _ _ _ _ _ (sim_frame _ _ _ _ _ _ Hs)). cbn [Z.eqb].
  wp_step. exists h. done.
Qed.

Lemma wp_dictid l h n : mode (st l) = DICTID -> sim l h -> wp (do_DICTID flush) (fun _ => on n) exits l.
Proof.
  intros Em Hs. apply (sim_elim _ _ _ _ DICTID) in Hs as [Hf (Hal & Hb & HR)]; [|done].
  pose proof (fr_regs _ _ _ _ _ Hf) as Hr. unfold do_DICTID. wp_step. apply wp_needbits; [done|lia|by right|..].
  { intros l1 H1 Hnil Hlt. pose proof (rf_align _ _ H1). apply (exit_starved DICTID l l1 h); auto.
    - split; [lia|]. split; [done|]. intros F. by rewrite (ahead_refilled _ _ _ H1).
    - rewrite HR, <- (ahead_refilled _ _ _ H1). change 32%nat with (Z.to_nat 32). rewrite getbits_starved by (done || apply H1). done. }
  intros l1 H1 Hge _. pose proof (frame_refilled _ _ _ _ _ _ H1 Hf) as Hf1. pose proof (rf_ok _ _ H1) as Hr1.
  wp_step. wp_step. unfold set_adler. wp_step. wp_step. unfold INITBITS. wp_step. wp_step. wp_step. wp_step.
  apply (wp_dict _ h); [done|]. apply (sim_intro _ _ _ _ DICT); [done|..].
  - assert (Em1 : mode (st l1) = DICTID) by (rewrite (rf_st _ _ H1); done).
    pose proof (frame_initbits _ _ _ _ _ Hf1) as [F1 F2 F3 F4 F5 F6 F7 F8 F9 F10 F11 F12 F13 F14].
    split; auto; cbn in *; try (rewrite Em1 in *; auto). done.
  - split; [done|]. intros F. rewrite HR, <- (ahead_refilled _ _ _ H1). change 32%nat with (Z.to_nat 32).
    rewrite getbits_ahead by (done || lia). done.
Qed.


Lemma header_sum v : 0 <= v < 65536 -> u32 (Z.shiftl (v `mod` 256) 8 + Z.shiftr v 8) = v `mod` 256 * 256 + v / 256.
Proof.
  intros Hv. rewrite shiftl_mul, shiftr_div by lia. change (2 ^ 8) with 256. apply u32_id. unfold is_u32. zlia.
Qed.
Lemma header_dict v : 0 <= v -> (Z.land (v / 16) 512 =? 0) = negb (Z.odd (v / 256 / 32)).
Proof.
  intros Hv. change 512 with (2 ^ 9). rewrite land_pow2 by lia. change 16 with (2 ^ 4). rewrite Z.div_pow2_bits by lia.
  rewrite Z.div_div by lia. change (256 * 32) with (2 ^ 13). rewrite <- Z.bit0_odd, Z.div_pow2_bits by lia.
  change (9 + 4) with (0 + 13). by destruct (Z.testbit v (0 + 13)).
Qed.

(** The wrapper is right: on to the first block or to a dictionary. *)
Lemma frame_headed l m v1 v2 :
  mode (st l) = HEAD -> frame l [] -> before_check m = true ->
  frame (mkLoc (set_mode m (set_check 1 (set_dmax v1 (st l)))) (set_acc 0 0 (rg l)) (out l) v2 (l_total l)) [].
Proof.
  intros Em Hf Hm. pose proof (frame_initbits _ _ _ _ _ Hf) as [F1 F2 F3 F4 F5 F6 F7 F8 F9 F10 F11 F12 F13 F14].
  split; auto; cbn in *; try (rewrite Em in *; auto).
  - destruct F2 as (new & P1 & P2 & P3 & P4). exists new. auto.
Qed.

(** A zlib header was accepted. *)
Lemma head_done l d n :
  mode (st l) = HEAD -> frame l [] -> bits_ (rg l) = 16 -> last (st l) = 0 -> work_left l <= n ->
  (forall F, R F = fin zlib 15 [] (
    if Z.odd (hold (rg l) / 256 / 32) then after (getbits 32 (ahead (with_rg (dropped 16 (rg l)) l) F)) (fun _ _ => Stop Dictionary)
    else Go (mkConf false Header (ahead (with_rg (dropped 16 (rg l)) l) F) []))) ->
  let s := set_check (zlib_adler32 0 None) (set_dmax d (st l)) in
  on n (with_rg (set_acc 0 0 (dropped 4 (rg l)))
    (with_st (set_mode (if negb (Z.odd (hold (rg l) / 256 / 32)) then TYPE else DICTID) s)
      (mkLoc s (dropped 4 (rg l)) (out l) (zlib_adler32 0 None) (l_total l)))).
Proof.
  intros Em Hf E16 Hlast Hw HR s. pose proof (fr_regs _ _ _ _ _ Hf) as Hr.
  assert (Hinit : set_acc 0 0 (dropped 4 (rg l)) = dropped 16 (rg l)) by (rewrite <- E16, <- initbits_dropped by done; done).
  assert (Hwi : work_left (with_rg (set_acc 0 0 (rg l)) l) <= n - 64) by (rewrite work_initbits, E16 by done; lia).
  unfold work_left in Hwi. cbn [with_rg st rg] in Hwi. rewrite Em in Hwi. cbn [rank] in Hwi.
  exists []. split; [|unfold work_left; cbn [rg st set_mode mode];
    change (set_acc 0 0 (dropped 4 (rg l))) with (set_acc 0 0 (rg l)); change (left (set_acc 0 0 (rg l))) with (left (rg l)) in Hwi;
    destruct (negb (Z.odd (hold (rg l) / 256 / 32))); cbn [with_rg with_st st rg set_mode mode rank set_acc left] in *; lia].
  destruct (Z.odd (hold (rg l) / 256 / 32)); cbn [negb].
  - apply (sim_intro _ _ _ _ DICTID); [done|apply (frame_headed l); auto|]. split; [done|]. split; [done|].
    intros F. rewrite HR. unfold ahead. cbn [rg with_rg]. by rewrite Hinit.
  - apply (sim_intro _ _ _ _ TYPE); [done|apply (frame_headed l); auto|]. split; [done|].
    intros F. rewrite HR. unfold ahead, islast. cbn [rg with_rg with_st st set_mode set_check set_dmax last s]. rewrite Hinit, Hlast. done.
Qed.

Lemma wp_head l h n : mode (st l) = HEAD -> sim l h -> work_left l <= n -> wp do_HEAD (fun _ => on n) exits l.
Proof.
  intros Em Hs Hw. apply (sim_elim _ _ _ _ HEAD) in Hs as [Hf (Hb & -> & Hlast & HR)]; [|done].
  pose proof (fr_regs _ _ _ _ _ Hf) as Hr. unfold do_HEAD. wp_step. wp_step. rewrite (fr_wrap _ _ _ _ _ Hf). 
  replace (c_bool zlib =? 0) with (negb zlib) by (by destruct zlib).
  destruct (negb zlib) eqn:Ez; [apply negb_true_iff in Ez|apply negb_false_iff in Ez].
  { wp_step. exists []. split; [|rewrite work_mode, Em; cbn; lia]. apply (sim_intro _ _ _ _ TYPEDO); [done|..].
    - apply (frame_mode _ _ _ HEAD); auto. congruence.
    - split; [cbn; destruct Hb as [|[? _]]; [lia|congruence]|]. intros F. rewrite HR. unfold islast. cbn [with_st st set_mode last]. rewrite Hlast.
      replace (if zlib then WrapHeader else Header) with Header by (by rewrite Ez). done. }
  assert (HR' : forall F, R F = fin zlib 15 [] (step_header 15 (ahead l F) [])).
  { intros F. rewrite HR, result_step. replace (if zlib then WrapHeader else Header) with WrapHeader by (by rewrite Ez). done. }
  wp_step. apply wp_needbits; [done|lia|lia|..].
  { intros l1 H1 Hnil Hlt. pose proof (rf_align _ _ H1). pose proof (ro_bits _ (rf_ok _ _ H1)). apply (exit_starved HEAD l l1 []); auto.
    - split; [rewrite Ez; zlia|]. split; [done|]. split; [by rewrite (rf_st _ _ H1)|]. intros F. rewrite (ahead_refilled _ _ _ H1). apply HR.
    - rewrite HR', <- (ahead_refilled _ _ _ H1). unfold step_header. change 16%nat with (Z.to_nat 16).
      rewrite getbits_starved by (done || apply H1). done. }
  intros l1 H1 Hge Hor. assert (E16 : bits_ (rg l1) = 16).
  { pose proof (rf_align _ _ H1). pose proof (refilled_bits _ _ Hr H1). destruct Hor as [->|]; zlia. }
  pose proof (frame_refilled _ _ _ _ _ _ H1 Hf) as Hf1. pose proof (rf_ok _ _ H1) as Hr1. pose proof (ro_hold _ Hr1) as Hh. rewrite E16 in Hh.
  change (2 ^ 16) with 65536 in Hh. set (v := hold (rg l1)) in *. assert (Em1 : mode (st l1) = HEAD) by (rewrite (rf_st _ _ H1); done).
  assert (HR1 : forall F, R F = fin zlib 15 [] (
    if negb ((v `mod` 256 * 256 + v / 256) `mod` 31 =? 0) then Stop Invalid
    else if negb (v `mod` 256 `mod` 16 =? 8) then Stop Invalid
    else if 15 <? v `mod` 256 / 16 + 8 then Stop Invalid
    else if Z.odd (v / 256 / 32) then after (getbits 32 (ahead (with_rg (dropped 16 (rg l1)) l1) F)) (fun _ _ => Stop Dictionary)
    else Go (mkConf false Header (ahead (with_rg (dropped 16 (rg l1)) l1) F) []))).
  { intros F. rewrite HR', <- (ahead_refilled _ _ _ H1). unfold step_header. change 16%nat with (Z.to_nat 16).
    rewrite getbits_ahead by (done || lia). cbn [after]. fold v. change (2 ^ 16) with 65536. rewrite (Z.mod_small v) by done. done. }
  clear HR HR'. wp_step. apply wp_bits; [lia|]. wp_step. wp_step. fold v. change (2 ^ 8) with 256. rewrite header_sum by done.
  assert (Hbad : forall l2, frame l2 [] -> mode (st l2) = HEAD -> (forall F, R F = (Invalid, [])) -> work_left l2 <= work_left l1 ->
    on n (with_st (set_mode BAD (st l2)) l2)).
  { intros l2 Hf2 Em2 HRb Hw2. rewrite (work_refilled _ _ H1) in Hw2. apply (on_bad _ _ _ _ _ _ []); auto. rewrite Em2. cbn [rank]. lia. }
  destruct (negb ((v `mod` 256 * 256 + v / 256) `mod` 31 =? 0)) eqn:E1; [wp_step; apply Hbad; auto; lia|].
  wp_step. apply wp_bits; [lia|]. fold v. change (2 ^ 4) with 16. replace (v `mod` 256 `mod` 16) with (v `mod` 16) in HR1 by zlia.
  change Z_DEFLATED with 8. destruct (negb (v `mod` 16 =? 8)) eqn:E2; [wp_step; apply Hbad; auto; lia|].
  wp_step. apply wp_dropbits; [done|lia|]. wp_step. apply wp_bits; [lia|]. cbn [with_rg rg dropped set_acc hold st]. fold v. change (2 ^ 4) with 16.
  replace (v `mod` 256 / 16) with ((v / 16) `mod` 16) in HR1 by zlia. rewrite (wf_bits _ (fr_fits _ _ _ _ _ Hf1)).
  destruct (15 <? (v / 16) `mod` 16 + 8) eqn:E3.
  { wp_step. apply (Hbad (with_rg (dropped 4 (rg l1)) l1)); auto; [apply frame_dropped; [lia|done]|]. rewrite work_dropped by (done || lia). lia. }
  wp_step. wp_step. unfold set_adler. wp_step. wp_step. cbn [with_st with_rg st rg]. wp_step. wp_step. wp_step. wp_step.
  unfold INITBITS. wp_step. cbn [with_st with_rg st rg l_adler l_total out dropped set_acc hold]. fold v. rewrite header_dict by lia.
  apply (head_done l1); auto; [by rewrite (rf_st _ _ H1)|]. rewrite (work_refilled _ _ H1). done.
Qed.

(** ** The end of the stream *)

(** The output that is not yet in the check value. *)
Lemma written_unsummed l h : frame l h ->
  written (put (rg l)) (unsummed l) (unsummed l) = Some (drop (length h - Z.to_nat (unsummed l)) h) /\
  0 <= unsummed l <= Z.of_nat (length h).
Proof.
  intros Hf. destruct (fr_put _ _ _ _ _ Hf) as (new & P1 & P2 & P3 & _). unfold written. rewrite P1, P2, !length_app.
  split; [|lia]. rewrite (proj2 (Z.leb_le 0 _)), Z.leb_refl, (proj2 (Z.leb_le _ _)) by lia. cbn [andb]. f_equal.
  rewrite !drop_app_ge by lia. rewrite take_ge; [f_equal; lia|]. rewrite length_drop. lia.
Qed.
Lemma frame_closed l h s v1 :
  frame l h -> win s = win (st l) -> wrap s = wrap (st l) -> havedict s = havedict (st l) -> last s = last (st l) -> tb s = tb (st l) ->
  mode s = DONE \/ mode s = BAD ->
  frame (mkLoc s (rg l) (left (rg l)) v1 (u32 (l_total l + unsummed l))) h.
Proof.
  intros [F1 (new & P1 & P2 & P3 & P4) F3 F4 F5 F6 F7 F8 F9 F10 F11 F12 F13 F14] E1 E2 E3 E4 E5 Em.
  assert (Eb : before_check (mode s) = false /\ summed (mode s) = false) by (destruct Em as [-> | ->]; done). destruct Eb as [Eb Es].
  split; unfold unsummed in *; cbn [st rg out l_total] in *; rewrite ?E1, ?E2, ?E3, ?E4, ?E5, ?Eb, ?Es; auto; try congruence.
  - exists new. rewrite Z.sub_diag. split; [done|]. split; [done|]. split; [lia|done].
  - rewrite F13, u32_add_l. f_equal. lia.
Qed.

(** The check value covers the whole output: it is compared with the trailer. *)
Lemma wp_compared l h n s a :
  mode (st l) = CHECK -> frame l h -> bits_ (rg l) = 32 -> work_left l <= n -> zlib = true ->
  (forall F, R F = fin zlib 15 h (if reverse32 (hold (rg l)) =? adler32 h then Stop (Complete (ahead (with_rg (dropped 32 (rg l)) l) F)) else Stop Invalid)) ->
  win s = win (st l) -> wrap s = wrap (st l) -> havedict s = havedict (st l) -> last s = last (st l) -> tb s = tb (st l) -> check s = adler32 h ->
  wp (modify (fun l => mkLoc (st l) (rg l) (left (rg l)) (l_adler l) (l_total l));;
      l <- get;
      if negb (REVERSE (hold (rg l)) =? check (st l)) then ret true else INITBITS;; ret false)%inflate
    (fun bad => wp (if bad : bool then goto_mode BAD else (goto_mode DONE;; do_DONE)%inflate) (fun _ => on n) exits) exits
    (mkLoc s (rg l) (out l) a (u32 (l_total l + unsummed l))).
Proof.
  intros Em Hf E32 Hw Ez HR K1 K2 K3 K4 K5 K6. pose proof (fr_regs _ _ _ _ _ Hf) as Hr. pose proof (ro_hold _ Hr) as Hh. rewrite E32 in Hh.
  wp_step. wp_step. wp_step. wp_step. cbn [st rg l_adler l_total]. rewrite K6, reverse_ok by done.
  destruct (reverse32 (hold (rg l)) =? adler32 h); cbn [negb].
  - wp_step. unfold INITBITS. wp_step. wp_step. unfold do_DONE. wp_step. wp_step. wp_step.
    exists h. split; [|right; left; done]. apply (sim_intro _ _ _ _ DONE); [done|..].
    + apply (frame_initbits _ _ _ (mkLoc (set_mode DONE s) (rg l) (left (rg l)) a (u32 (l_total l + unsummed l)))). apply frame_closed; auto.
    + split; [done|]. intros F. rewrite HR. unfold ahead. cbn [rg with_rg with_st]. rewrite initbits_dropped, E32 by done. done.
  - wp_step. wp_step. exists h. split.
    + apply (sim_intro _ _ _ _ BAD); [done|apply (frame_closed l h (set_mode BAD s) a); auto|]. done.
    + unfold work_left in Hw |- *. cbn [st rg set_mode with_st mode rank]. rewrite Em in *. cbn [rank] in *. lia.
Qed.

Lemma wp_check l h n : mode (st l) = CHECK -> sim l h -> work_left l <= n -> wp do_CHECK (fun _ => on n) exits l.
Proof.
  intros Em Hs Hw. apply (sim_elim _ _ _ _ CHECK) in Hs as [Hf (Hal & Hb & Hraw & HR)]; [|done].
  pose proof (fr_regs _ _ _ _ _ Hf) as Hr. unfold do_CHECK. wp_step. wp_step. rewrite (fr_wrap _ _ _ _ _ Hf).
  wp_step. replace (c_bool zlib =? 0) with (negb zlib) by (by destruct zlib).
  destruct (negb zlib) eqn:Ez; [apply negb_true_iff in Ez|apply negb_false_iff in Ez].
  { wp_step. unfold do_DONE. wp_step. wp_step. wp_step. exists h. split; [|right; left; done].
    apply (sim_intro _ _ _ _ DONE); [done|by apply (frame_mode _ _ _ CHECK)|]. split; [by apply Hraw|].
    intros F. rewrite HR. unfold step_end. by rewrite Ez. }
  assert (HR' : forall F, R F = fin zlib 15 h (after (getbits 32 (ahead l F)) (fun v bs => if reverse32 v =? adler32 h then Stop (Complete bs) else Stop Invalid))).
  { intros F. rewrite HR. unfold step_end. by rewrite Ez. }
  unfold check_trailer. wp_step. apply wp_needbits; [done|lia|by right|..].
  { intros l1 H1 Hnil Hlt. pose proof (rf_align _ _ H1). apply (exit_starved CHECK l l1 h); auto.
    - split; [lia|]. split; [done|]. split; [congruence|]. intros F. by rewrite (ahead_refilled _ _ _ H1).
    - rewrite HR', <- (ahead_refilled _ _ _ H1). change 32%nat with (Z.to_nat 32). rewrite getbits_starved by (done || apply H1). done. }
  intros l1 H1 Hge _. pose proof (frame_refilled _ _ _ _ _ _ H1 Hf) as Hf1. pose proof (rf_ok _ _ H1) as Hr1.
  assert (E32 : bits_ (rg l1) = 32) by (destruct Hr1; lia). pose proof (ro_hold _ Hr1) as Hh. rewrite E32 in Hh.
  assert (Em1 : mode (st l1) = CHECK) by (rewrite (rf_st _ _ H1); done).
  wp_step. wp_step. wp_step. destruct (written_unsummed l1 h Hf1) as [Ewr Hun]. unfold unsummed in Ewr at 1 2.
  eapply wp_need; [exact Ewr|]. wp_step. wp_step. change (out l1 - left (rg l1)) with (unsummed l1).
  pose proof (fr_sum _ _ _ _ _ Hf1 Ez ltac:(by rewrite Em1)) as Hsum.
  set (buf := drop (length h - Z.to_nat (unsummed l1)) h) in *.
  assert (Hsum' : zlib_adler32 (check (st l1)) (Some buf) = adler32 h).
  { rewrite Hsum, zlib_adler32_app by (apply Forall_drop, Hf1). unfold buf. by rewrite take_drop. }
  assert (HR1 : forall F, R F = fin zlib 15 h (if reverse32 (hold (rg l1)) =? adler32 h then Stop (Complete (ahead (with_rg (dropped 32 (rg l1)) l1) F)) else Stop Invalid)).
  { intros F. rewrite HR', <- (ahead_refilled _ _ _ H1). change 32%nat with (Z.to_nat 32). rewrite getbits_ahead by (done || lia).
    cbn [after]. rewrite (Z.mod_small (hold (rg l1))) by done. done. }
  rewrite <- (work_refilled _ _ H1) in Hw.
  wp_step. destruct (Z.eqb_spec (unsummed l1) 0) as [E0|E0].
  - wp_step. apply (wp_compared l1 h); auto. cbn [set_total check]. rewrite Hsum, E0, Nat.sub_0_r, take_ge by lia. done.
  - unfold set_adler. wp_step. apply (wp_compared l1 h); auto.
Qed.
End blocks.
