(* ===== verification/InflateMatch.v ===== *)
(** * Copying earlier output

    A pointer into the output or into the window that is at a distance from the end of the
    history stays there while bytes are copied through it, so that copying is [copy_match]. *)

From Stdlib Require Import ZArith Lia Bool.
From stdpp Require Import base numbers list option.
From S2P Require Import Prelude Deflate InfTrees Canon InfTreesTheorems DeflateProofs InflateState InflateFast Inflate InflateTables InflateMonad InflateCodes InflateSim InflateBlocks.
Open Scope Z_scope.

(** ** Pointers *)

(** What [f] points to, for the next [room] bytes, is [d] before the end of [h], when
    [put] is the output. *)
Definition points (w : window_state) (put h : list Z) (f : source) (d room : Z) : Prop :=
  match f with
  | Out i => i = Z.of_nat (length put) - d /\ exists p0 h0 new, put = p0 ++ new /\ h = h0 ++ new /\ d <= Z.of_nat (length new)
  | Win i => room <= d <= Z.of_nat (length h) /\
      forall j, 0 <= j < room -> rd (window w) (i + j) = h !! Z.to_nat (Z.of_nat (length h) - d + j)
  end.
(** The byte there. *)
Definition pointed (w : window_state) (put : list Z) (f : source) : option Z :=
  match f with Win i => rd (window w) i | Out i => rd put i end.

Lemma points_step w put h f d room :
  points w put h f d room -> 1 <= d -> 1 <= room ->
  exists b, pointed w put f = Some b /\ h !! (length h - Z.to_nat d)%nat = Some b /\
    points w (put ++ [b]) (h ++ [b]) (advance_src 1 f) d (room - 1).
Proof.
  destruct f as [i|i]; cbn [points pointed advance_src].
  - intros [Hd Hw] H1 Hr. assert (Hlt : (length h - Z.to_nat d < length h)%nat) by lia.
    destruct (lookup_lt_is_Some_2 h _ Hlt) as [b Eb]. exists b. split; [|split; [done|]].
    + specialize (Hw 0 ltac:(lia)). rewrite !Z.add_0_r in Hw. rewrite Hw, <- Eb. f_equal. lia.
    + rewrite length_app. cbn [length]. split; [lia|]. intros j Hj. replace (i + 1 + j) with (i + (j + 1)) by lia.
      rewrite Hw by lia. rewrite lookup_app_l by lia. f_equal. lia.
  - intros (-> & p0 & h0 & new & -> & -> & Hd) H1 _. rewrite !length_app.
    assert (Hlt : (length new - Z.to_nat d < length new)%nat) by lia. destruct (lookup_lt_is_Some_2 new _ Hlt) as [b Eb]. exists b.
    split; [|split].
    + unfold rd. rewrite (proj2 (Z.leb_le _ _)) by lia. rewrite lookup_app_r by lia. rewrite <- Eb. f_equal. lia.
    + rewrite lookup_app_r by lia. rewrite <- Eb. f_equal. lia.
    + split; [rewrite !length_app; cbn [length]; lia|]. exists p0, h0, (new ++ [b]). rewrite !app_assoc. rewrite length_app. cbn. split; [done|]. split; [done|]. lia.
Qed.
Lemma points_less w put h f d r r' : points w put h f d r -> r' <= r -> points w put h f d r'.
Proof. destruct f; cbn; [|done]. intros [H1 H2] Hr. split; [lia|]. intros j Hj. apply H2. lia. Qed.

(** Into the window. *)
Definition win_room (w : window_state) (k : Z) : Z := if k <=? write w then k else k - write w.
Lemma points_window w put h0 new d :
  win_fits w -> win_holds w h0 -> 1 <= d - Z.of_nat (length new) <= whave w ->
  let k := d - Z.of_nat (length new) in
  points w put (h0 ++ new) (Win (win_place w k)) d (win_room w k) /\ 1 <= win_room w k <= k.
Proof.
  intros [_ _ _ Hw Hh _] [Hhave _ Hb] Hk k. assert (Hr : 1 <= win_room w k <= k) by (unfold win_room; split_bool; lia).
  split; [|done]. cbn [points]. rewrite length_app. split; [lia|]. intros j Hj. specialize (Hb (k - j) ltac:(lia)).
  replace (win_place w k + j) with (win_place w (k - j)).
  - rewrite Hb, lookup_app_l by lia. f_equal. lia.
  - unfold win_place, win_room in *. destruct (Z.leb_spec k (write w)); split_bool; lia.
Qed.
(** Into the output. *)
Lemma points_output w p0 h0 new d room :
  d <= Z.of_nat (length new) -> points w (p0 ++ new) (h0 ++ new) (Out (Z.of_nat (length (p0 ++ new)) - d)) d room.
Proof. intros Hd. split; [done|]. exists p0, h0, new. done. Qed.

(** ** The copying loop *)

Definition put_bytes (bytes : list Z) (r : regs) : regs := mkRegs (next r) (put r ++ bytes) (left r) (hold r) (bits_ r).
Lemma wp_copy_bytes n f d h (Q : unit -> loc -> Prop) E l :
  points (win (st l)) (put (rg l)) h f d (Z.of_nat n) -> 1 <= d ->
  (forall bytes, copy_match n (Z.to_nat d) h = h ++ bytes -> Q tt (with_rg (put_bytes bytes (rg l)) l)) ->
  wp (copy_bytes n f) Q E l.
Proof.
  revert f h l. induction n as [|n IH]; intros f h l Hp Hd HQ; cbn [copy_bytes].
  { wp_step. specialize (HQ [] ltac:(by rewrite app_nil_r)). unfold put_bytes in HQ. rewrite app_nil_r in HQ. by destruct l as [s [] ? ? ?]. }
  destruct (points_step _ _ _ _ _ _ Hp Hd ltac:(lia)) as (b & Eb & Hb & Hp'). wp_step. wp_step. wp_step.
  apply (wp_need _ b); [by destruct f|]. wp_step. wp_step. apply (IH _ (h ++ [b])); [|done|].
  - eapply points_less; [exact Hp'|lia].
  - intros bytes Ebs. specialize (HQ (b :: bytes)). cbn [copy_match] in HQ. rewrite Hb in HQ. cbn [default] in HQ.
    rewrite <- app_assoc in Ebs. specialize (HQ Ebs). unfold put_bytes in *. cbn. rewrite <- app_assoc. exact HQ.
Qed.

Section items.
Context (zlib : bool) (h0 : list Z) (p0 : outbuf) (R : list Z -> verdict * list Z) (flush : Z).

Abbreviation frame := (frame zlib h0 p0).
Abbreviation pending := (pending zlib R).
Abbreviation sim := (sim zlib h0 p0 R).
Abbreviation on := (on zlib h0 p0 R).
Abbreviation exits := (exits zlib h0 p0 R flush).

(** The pointer from which [do_MATCH] copies, and how far it goes. *)
Lemma match_source l h :
  frame l h -> before_check (mode (st l)) = true ->
  let w := win (st l) in
  let d := offset (cp (st l)) in
  1 <= d <= 32768 -> d <= Z.of_nat (length h) ->
  let '(from, room) :=
    if out l - left (rg l) <? d
    then (Win (win_place w (d - (out l - left (rg l)))), win_room w (d - (out l - left (rg l))))
    else (Out (Z.of_nat (length (put (rg l))) - d), length_ (cp (st l))) in
  points w (put (rg l)) h from d room /\ (out l - left (rg l) < d -> 1 <= room).
Proof.
  intros Hf Hb w d Hd Hle. destruct (fr_put _ _ _ _ _ Hf) as (new & P1 & P2 & _ & P4). specialize (P4 Hb). unfold unsummed in P4.
  pose proof (fr_fits _ _ _ _ _ Hf) as Hfit. pose proof (fr_holds _ _ _ _ _ Hf Hb) as Hh.
  destruct (Z.ltb_spec (out l - left (rg l)) d) as [Hlt|Hge].
  - rewrite P4 in *. subst h. rewrite length_app in Hle.
    assert (Hk : 1 <= d - Z.of_nat (length new) <= whave w).
    { destruct Hh as [Ew Hnone _]. fold w in Ew. destruct Hfit as [_ [Hs|Hs] _ _ _ _]; fold w in Hs; [lia|].
      specialize (Hnone Hs). subst h0. cbn in Hle. lia. }
    destruct (points_window w (put (rg l)) h0 new d Hfit Hh Hk) as [Hp Hr]. split; [exact Hp|lia].
  - split; [|lia]. rewrite P1, P2. apply points_output. lia.
Qed.

Lemma wp_match l h n : mode (st l) = MATCH -> sim l h -> work_left l <= n -> wp do_MATCH (fun _ => on n) exits l.
Proof.
  intros Em Hs Hw. pose proof Hs as Hs0. apply (sim_elim _ _ _ _ MATCH) in Hs0 as [Hf (lits & dists & Ht & Hb & Hlen & Hoff & Hle & HR)]; [|done].
  pose proof (fr_regs _ _ _ _ _ Hf) as Hr. unfold do_MATCH. wp_step. wp_step. destruct (Z.eqb_spec (left (rg l)) 0) as [E0|E0].
  { wp_step. exists h. split; [done|]. left. rewrite Em. split; [by left|]. by left. }
  pose proof (match_source l h Hf ltac:(by rewrite Em) Hoff Hle) as Hsrc. cbv zeta.
  set (w := win (st l)) in *. set (d := offset (cp (st l))) in *. set (len := length_ (cp (st l))) in *.
  set (pair := if out l - left (rg l) <? d then _ else _).
  assert (Hpair : exists from copy, pair = (from, copy) /\ points w (put (rg l)) h from d copy /\ 1 <= copy <= len).
  { unfold pair. destruct (Z.ltb_spec (out l - left (rg l)) d) as [Hlt|Hge].
    2:{ do 2 eexists. split; [done|]. destruct Hsrc as [Hp _]. split; [exact Hp|lia]. }
    destruct Hsrc as [Hp Hroom]. specialize (Hroom Hlt). unfold win_place, win_room in *. set (k := d - (out l - left (rg l))) in *.
    destruct (Z.leb_spec k (write w)) as [Hk|Hk]; [rewrite (proj2 (Z.ltb_ge _ _)) by lia|rewrite (proj2 (Z.ltb_lt _ _)) by lia].
    - do 2 eexists. split; [done|]. split; [|split_bool; lia]. eapply points_less; [exact Hp|split_bool; lia].
    - do 2 eexists. split; [done|]. split; [|split_bool; lia].
      replace (wsize w - (k - write w)) with (write w - k + wsize w) by lia. eapply points_less; [exact Hp|split_bool; lia]. }
  destruct Hpair as (from & copy0 & -> & Hp & Hc0). set (copy := if left (rg l) <? copy0 then left (rg l) else copy0).
  assert (Hc : 1 <= copy <= copy0 /\ copy <= left (rg l)) by (pose proof (ro_left _ Hr); unfold copy; split_bool; lia). clearbody copy.
  unfold upd_cp. wp_step. wp_step. wp_step. wp_step. wp_step. rewrite (proj2 (Z.eqb_neq copy 0)) by lia.
  apply (wp_copy_bytes _ _ d h); [cbn; rewrite Z2Nat.id by lia; eapply points_less; [exact Hp|lia]|lia|].
  intros bytes Ebs. pose proof (copy_match_extends (Z.to_nat copy) (Z.to_nat d) h) as (bytes' & E' & Hbl). rewrite E' in Ebs. apply app_inv_head in Ebs. subst bytes'.
  assert (Hu : Forall is_u8 bytes).
  { pose proof (copy_match_bytes (Z.to_nat copy) (Z.to_nat d) h (fr_bytes _ _ _ _ _ Hf)) as Hu. rewrite E' in Hu. by apply Forall_app in Hu as [_ Hu]. }
  cbn [with_rg with_st rg st]. set (r := put_bytes bytes (take_left copy (rg l))).
  assert (Hr' : reg_ok r) by (destruct Hr; split; cbn; auto; lia).
  assert (Hf' : frame (with_rg r l) (h ++ bytes)) by (apply frame_wrote; auto; [by rewrite Em|cbn; lia]).
  assert (HR' : forall F, R F = result zlib 15 (mkConf (islast (st l)) (Codes lits dists) (ahead (with_rg r l) F)
    (copy_match (Z.to_nat (len - copy)) (Z.to_nat d) (h ++ bytes)))).
  { intros F. rewrite HR, <- E', <- copy_match_add. do 3 f_equal. lia. }
  assert (Hw' : work_left (with_rg r l) <= work_left l - 4).
  { unfold work_left. cbn [with_rg rg st]. change (stream r) with (stream (rg l)). cbn. lia. }
  destruct (Z.eqb_spec (len - copy) 0) as [El|El].
  - wp_step. exists (h ++ bytes). split.
    + apply (sim_intro _ _ _ _ LEN); [done|apply (frame_st _ _ _ (with_rg r l)); [split; cbn; rewrite ?Em; auto|done]|].
      exists lits, dists. split; [exact Ht|]. split; [by left|]. intros F. rewrite HR', El. done.
    + change (work_left (with_st (set_mode LEN (set_cp (set_length (len - copy) (cp (st l))) (st l))) (with_rg r l)) < n).
      rewrite work_mode. cbn. rewrite Em. cbn. lia.
  - wp_step. exists (h ++ bytes). split.
    + apply (sim_intro _ _ _ _ MATCH); [done|apply (frame_st _ _ _ (with_rg r l)); [split; cbn; rewrite ?Em; auto|done]|].
      exists lits, dists. split; [exact Ht|]. split; [done|]. cbn [with_st with_rg st cp set_cp set_length length_ offset rg].
      split; [lia|]. fold d. split; [done|]. split; [rewrite length_app; lia|]. exact HR'.
    + change (work_left (with_st (set_cp (set_length (len - copy) (cp (st l))) (st l)) (with_rg r l)) < n).
      rewrite work_mode. cbn. rewrite Em. cbn. lia.
Qed.

Lemma wp_lit l h n : mode (st l) = LIT -> sim l h -> work_left l <= n -> wp do_LIT (fun _ => on n) exits l.
Proof.
  intros Em Hs Hw. pose proof Hs as Hs0. apply (sim_elim _ _ _ _ LIT) in Hs0 as [Hf (lits & dists & Ht & Hb & Hlen & HR)]; [|done].
  pose proof (fr_regs _ _ _ _ _ Hf) as Hr. unfold do_LIT. wp_step. wp_step. destruct (Z.eqb_spec (left (rg l)) 0) as [E0|E0].
  { wp_step. exists h. split; [done|]. left. rewrite Em. split; [by left|]. by left. }
  wp_step. wp_step. wp_step. rewrite u8_id by done. set (b := length_ (cp (st l))) in *. set (r := take_left 1 (put_byte b (rg l))).
  assert (Hr' : reg_ok r) by (destruct Hr; split; cbn; auto; lia).
  assert (Hf' : frame (with_rg r l) (h ++ [b])) by (apply frame_wrote; auto; by rewrite Em).
  exists (h ++ [b]). split.
  - apply (sim_intro _ _ _ _ LEN); [done|apply (frame_mode _ _ _ LIT); auto|]. exists lits, dists. split; [exact Ht|]. split; [by left|]. exact HR.
  - rewrite work_mode. cbn [with_rg st]. rewrite Em. unfold work_left in *. cbn [with_rg rg st]. change (stream r) with (stream (rg l)).
    rewrite Em in *. cbn in *. lia.
Qed.

(** ** Extra bits *)

(** A base with [e] extra bits that are there. *)
Lemma get_extra_ahead e b l F :
  reg_ok (rg l) -> Z.of_nat e <= bits_ (rg l) ->
  get_extra e b (ahead l F) = Got (b + hold (rg l) `mod` 2 ^ Z.of_nat e) (ahead (with_rg (dropped (Z.of_nat e) (rg l)) l) F).
Proof.
  intros Hr He. unfold get_extra. rewrite <- (Nat2Z.id e) at 1. rewrite getbits_ahead by (done || lia). done.
Qed.
Lemma get_extra_starved e b l :
  reg_ok (rg l) -> next (rg l) = [] -> bits_ (rg l) < Z.of_nat e -> get_extra e b (ahead l []) = More.
Proof. intros Hr Hn Hlt. unfold get_extra. rewrite <- (Nat2Z.id e), getbits_starved by done. done. Qed.

(** Reading them, when there are any. *)
Lemma wp_extra e (f : Z -> copy_state -> copy_state) l (Q : unit -> loc -> Prop) (E : exit -> loc -> Prop) :
  reg_ok (rg l) -> (e <= 13)%nat -> (bits_ (rg l) < 8 \/ bits_ (rg l) < Z.of_nat e) ->
  (forall c, f 0 c = c) ->
  (forall l1, refilled l l1 -> next (rg l1) = [] -> bits_ (rg l1) < Z.of_nat e -> E (ExLeave Z_OK) l1) ->
  (forall l1, refilled l l1 -> Z.of_nat e <= bits_ (rg l1) < Z.of_nat e + 8 ->
     Q tt (with_st (set_cp (f (hold (rg l1) `mod` 2 ^ Z.of_nat e) (cp (st l))) (st l)) (with_rg (dropped (Z.of_nat e) (rg l1)) l1))) ->
  wp (if Z.of_nat e =? 0 then ret tt
      else NEEDBITS (Z.of_nat e);; b <- BITS (Z.of_nat e); upd_cp (f b);; DROPBITS (Z.of_nat e))%inflate Q E l.
Proof.
  intros Hr He Hb Hf HE HQ. destruct (Z.eqb_spec (Z.of_nat e) 0) as [E0|E0].
  - wp_step. specialize (HQ l (refilled_refl _ Hr)). pose proof (ro_bits _ Hr). rewrite E0 in *. specialize (HQ ltac:(lia)).
    rewrite Z.mod_1_r, Hf in HQ. unfold dropped in HQ. rewrite Z.div_1_r, Z.sub_0_r in HQ.
    destruct l as [[] [] ? ? ?]. exact HQ.
  - wp_step. apply wp_needbits; [done|lia|lia|auto|]. intros l1 H1 Hge Hor.
    wp_step. apply wp_bits; [lia|]. unfold upd_cp. wp_step. wp_step. apply wp_dropbits; [apply H1|cbn; lia|].
    cbn [with_st rg st]. rewrite (rf_st _ _ H1). apply HQ; [done|]. destruct Hor as [->|]; lia.
Qed.

(** What the window and the output hold is enough for any distance. *)
Lemma reach l h d : frame l h -> before_check (mode (st l)) = true -> d <= 32768 ->
  (whave (win (st l)) + out l - left (rg l) <? d) = (Z.of_nat (length h) <? d).
Proof.
  intros Hf Hb Hd. destruct (fr_put _ _ _ _ _ Hf) as (new & P1 & P2 & _ & P4). specialize (P4 Hb). unfold unsummed in P4.
  destruct (fr_holds _ _ _ _ _ Hf Hb) as [Eh Hn _]. destruct (fr_fits _ _ _ _ _ Hf) as [_ Hs _ _ _ _].
  assert (El : Z.of_nat (length h) = Z.of_nat (length h0) + Z.of_nat (length new)) by (subst h; rewrite length_app; lia).
  assert (Hz : wsize (win (st l)) = 0 -> length h0 = 0%nat) by (intros E; by rewrite Hn).
  destruct Hs as [Hs|Hs]; [|specialize (Hz Hs)]; split_bool; lia.
Qed.

Lemma wp_distext l h n : mode (st l) = DISTEXT -> sim l h -> work_left l <= n -> wp do_DISTEXT (fun _ => on n) exits l.
Proof.
  intros Em Hs Hw. apply (sim_elim _ _ _ _ DISTEXT) in Hs as [Hf (lits & dists & e & Ht & Hb & Hlen & Ee & He & Ho & Hoff & HR)]; [|done].
  pose proof (fr_regs _ _ _ _ _ Hf) as Hr. rewrite Ee in *. unfold do_DISTEXT. wp_step. wp_step. rewrite Ee. wp_step.
  apply (wp_extra e (fun b c => set_offset (offset c + b) c)); auto.
  { intros []. cbn. unfold set_offset. cbn. by rewrite Z.add_0_r. }
  { intros l1 H1 Hnil Hlt. apply (exit_starved _ _ _ _ _ DISTEXT l l1 h); auto.
    - exists lits, dists, e. rewrite (rf_st _ _ H1), Ee. repeat (split; [done|]). split; [lia|]. repeat (split; [done|]).
      intros F. rewrite (ahead_refilled _ _ _ H1). apply HR.
    - rewrite HR, <- (ahead_refilled _ _ _ H1), get_extra_starved by (done || apply H1). done. }
  intros l1 H1 Hb1. wp_step. wp_step. cbn [with_st with_rg st rg set_cp win cp set_offset offset out dropped set_acc left].
  pose proof (rf_ok _ _ H1) as Hr1. set (d := offset (cp (st l)) + hold (rg l1) `mod` 2 ^ Z.of_nat e) in *.
  pose proof (Z.mod_pos_bound (hold (rg l1)) (2 ^ Z.of_nat e) ltac:(lia)) as Hmod.
  assert (Hd : 1 <= d <= 32768) by lia. pose proof (frame_refilled _ _ _ _ _ _ H1 Hf) as Hf1.
  assert (Em1 : mode (st l1) = DISTEXT) by (rewrite (rf_st _ _ H1); done).
  pose proof (reach l1 h d Hf1 ltac:(by rewrite Em1) ltac:(lia)) as Hreach. rewrite (rf_st _ _ H1) in Hreach. rewrite Hreach.
  assert (HR1 : forall F, R F = fin zlib 15 h (step_match (islast (st l)) lits dists h (length_ (cp (st l))) d (ahead (with_rg (dropped (Z.of_nat e) (rg l1)) l1) F))).
  { intros F. rewrite HR, <- (ahead_refilled _ _ _ H1), get_extra_ahead by (done || lia). done. }
  set (s2 := set_cp (mkCopy (length_ (cp (st l))) d (extra (cp (st l)))) (st l)).
  assert (Hf2 : frame (with_st s2 (with_rg (dropped (Z.of_nat e) (rg l1)) l1)) h).
  { apply frame_st; [split; cbn; rewrite ?(rf_st _ _ H1); auto|]. apply frame_dropped; [lia|done]. }
  pose proof (work_dropped l1 (Z.of_nat e) Hr1 ltac:(lia)) as Hwd. rewrite (work_refilled _ _ H1) in Hwd.
  unfold step_match in HR1. destruct (Z.of_nat (length h) <? d) eqn:El.
  - wp_step. apply (on_bad _ _ _ _ _ _ h); auto. rewrite work_mode, Hwd. cbn. rewrite Em1, Em. cbn. lia.
  - apply Z.ltb_ge in El. wp_step. wp_step. apply (wp_match _ h); [done|..].
    + apply (sim_intro _ _ _ _ MATCH); [done|apply (frame_mode _ _ _ DISTEXT); auto|]. exists lits, dists. split; [exact Ht|].
      split; [cbn; lia|]. cbn. split; [lia|]. split; [lia|]. split; [lia|]. exact HR1.
    + rewrite !work_mode, Hwd. cbn. rewrite Em1, Em. cbn. lia.
Qed.

(** ** Distances and lengths *)

Lemma dist_base_range s e b : dist_base !! s = Some (e, b) -> (e <= 13)%nat /\ 1 <= b /\ b + 2 ^ Z.of_nat e <= 32769.
Proof.
  intros E. assert (Hall : Forall (fun x => (x.1 <= 13)%nat /\ 1 <= x.2 /\ x.2 + 2 ^ Z.of_nat x.1 <= 32769) dist_base)
    by (repeat constructor; cbn; lia). by apply (Forall_lookup_1 _ _ _ _ Hall) in E.
Qed.
Lemma length_base_range s e b : length_base !! s = Some (e, b) -> (e <= 5)%nat /\ 3 <= b /\ b + 2 ^ Z.of_nat e <= 259.
Proof.
  intros E. assert (Hall : Forall (fun x => (x.1 <= 5)%nat /\ 3 <= x.2 /\ x.2 + 2 ^ Z.of_nat x.1 <= 259) length_base)
    by (repeat constructor; cbn; lia). by apply (Forall_lookup_1 _ _ _ _ Hall) in E.
Qed.
(** Operations with extra bits. *)
Lemma extra_op e : (e <= 13)%nat -> Z.land (16 + Z.of_nat e) 64 = 0 /\ Z.land (16 + Z.of_nat e) 32 = 0 /\ Z.land (16 + Z.of_nat e) 15 = Z.of_nat e.
Proof. intros He. do 14 (destruct e as [|e]; [done|]). lia. Qed.

Lemma dist_links c off root : 0 < c < 16 -> dist_link (mkCode c root off) = true.
Proof.
  intros Hc. unfold dist_link. cbn. apply Z.eqb_eq. replace c with (Z.of_nat (Z.to_nat c)) by lia.
  assert (Hn : (Z.to_nat c < 16)%nat) by lia. revert Hn. generalize (Z.to_nat c). intros k Hk. do 16 (destruct k as [|k]; [done|]). lia.
Qed.
Lemma dist_leaf s o v b : means DISTS s o v -> dist_link (mkCode o b v) = false.
Proof. intros H. apply means_not_link in H as [[_ H]|[_ H]]; [done|]. by apply Z.eqb_neq. Qed.
Lemma len_links c off root : 0 < c < 16 -> len_link (mkCode c root off) = true.
Proof. intros Hc. unfold len_link. cbn [op]. rewrite (proj2 (Z.eqb_neq c 0)) by lia. by apply (dist_links c off root). Qed.
Lemma len_leaf s o v b : means LENS s o v -> len_link (mkCode o b v) = false.
Proof.
  intros H. unfold len_link. cbn [op]. apply means_not_link in H as [[-> _]|[_ H]]; [done|]. apply Z.eqb_neq in H. rewrite H. by rewrite andb_false_r.
Qed.

Lemma wp_dist l h n : mode (st l) = DIST -> sim l h -> work_left l <= n -> wp do_DIST (fun _ => on n) exits l.
Proof.
  intros Em Hs Hw. apply (sim_elim _ _ _ _ DIST) in Hs as [Hf (lits & dists & Ht & Hb & Hlen & HR)]; [|done].
  pose proof (fr_regs _ _ _ _ _ Hf) as Hr. unfold do_DIST. wp_step. wp_step. wp_step. destruct Ht as [Htl Htd].
  apply (wp_read_code DISTS dists _ _ (st l) Htd); [intros; by apply dist_links|apply dist_leaf|done|done|done|done|..].
  { intros l1 H1 Hnil Hmore. apply (exit_starved _ _ _ _ _ DIST l l1 h); auto.
    - exists lits, dists. rewrite (rf_st _ _ H1). split; [done|]. split.
      { right. rewrite <- (rf_stream _ _ H1) in Hmore. unfold stream in Hmore. rewrite Hnil in Hmore. cbn in Hmore. by rewrite app_nil_r in Hmore. }
      split; [done|]. intros F. rewrite (ahead_refilled _ _ _ H1). apply HR.
    - rewrite HR. unfold ahead. cbn. rewrite app_nil_r. unfold read_dist. rewrite Hmore. done. }
  intros this l1 [Hsame Hread]. pose proof (frame_same _ _ _ _ _ _ Hsame Hf) as Hf1.
  assert (Em1 : mode (st l1) = DIST) by (rewrite (sb_st _ _ Hsame); done). pose proof (sb_ok _ _ Hsame) as Hr1.
  assert (Hbad : invalid_op (op this) -> (forall F, R F = (Invalid, h)) -> work_left l1 <= work_left l ->
    wp (if negb (Z.land (op this) 64 =? 0) then goto_mode BAD
        else upd_cp (fun c => set_extra (Z.land (op this) 15) (set_offset (val this) c));; goto_mode DISTEXT;; do_DISTEXT)%inflate (fun _ => on n) exits l1).
  { intros (_ & _ & _ & H64) HRb Hwb. apply Z.eqb_neq in H64. rewrite H64. cbn [negb]. wp_step. apply (on_bad _ _ _ _ _ _ h); auto. rewrite Em1. cbn. lia. }
  assert (Hw1 : bits_ (rg l1) + 8 * Z.of_nat (length (next (rg l1))) <= bits_ (rg l) + 8 * Z.of_nat (length (next (rg l))) -> work_left l1 <= work_left l).
  { intros Hle. unfold work_left. rewrite !length_stream by done. rewrite (sb_st _ _ Hsame). destruct (sb_put _ _ Hsame) as [_ ->]. lia. }
  destruct Hread as [(s & Hm & Hb1 & Hlt & Hd)|(-> & Hle & Hd)].
  2:{ apply Hbad; [done|intros F; rewrite HR; unfold read_dist, ahead; by rewrite Hd|by apply Hw1]. }
  cbn [means] in Hm. destruct (dist_base !! s) as [[e b]|] eqn:Es.
  2:{ apply Hbad; [done|intros F; rewrite HR; unfold read_dist; unfold ahead; rewrite Hd; cbn [rbind]; by rewrite Es|apply Hw1; lia]. }
  destruct Hm as [Eop Eval]. destruct (dist_base_range _ _ _ Es) as (He & Hb0 & Hbe). destruct (extra_op e He) as (E64 & _ & E15).
  rewrite Eop, E64, E15, Eval. cbn [negb Z.eqb]. unfold upd_cp. wp_step. wp_step. wp_step. wp_step. apply (wp_distext _ h); [done|..].
  - apply (sim_intro _ _ _ _ DISTEXT); [done|..].
    + apply frame_st; [split; cbn; rewrite ?Em1; auto|]. apply frame_st; [split; cbn; rewrite ?Em1; auto|done].
    + exists lits, dists, e. cbn. rewrite (sb_st _ _ Hsame). split; [done|]. split; [by left|]. split; [done|]. split; [done|]. split; [done|].
      split; [lia|]. split; [lia|]. intros F. rewrite HR. unfold read_dist, ahead at 1. rewrite Hd. cbn [rbind]. rewrite Es. done.
  - rewrite !work_mode. cbn. rewrite Em1. cbn. specialize (Hw1 ltac:(lia)). lia.
Qed.

Lemma wp_lenext l h n : mode (st l) = LENEXT -> sim l h -> work_left l <= n -> wp do_LENEXT (fun _ => on n) exits l.
Proof.
  intros Em Hs Hw. apply (sim_elim _ _ _ _ LENEXT) in Hs as [Hf (lits & dists & e & Ht & Hb & Ee & He & Hl3 & Hlen & HR)]; [|done].
  pose proof (fr_regs _ _ _ _ _ Hf) as Hr. rewrite Ee in *. unfold do_LENEXT. wp_step. wp_step. rewrite Ee. wp_step.
  apply (wp_extra e (fun b c => set_length (length_ c + b) c)); [done|lia|by left|..].
  { intros []. cbn. unfold set_length. cbn. by rewrite Z.add_0_r. }
  { intros l1 H1 Hnil Hlt. apply (exit_starved _ _ _ _ _ LENEXT l l1 h); auto.
    - exists lits, dists, e. rewrite (rf_st _ _ H1), Ee. split; [done|]. split; [lia|]. repeat (split; [done|]).
      intros F. rewrite (ahead_refilled _ _ _ H1). apply HR.
    - rewrite HR, <- (ahead_refilled _ _ _ H1), get_extra_starved by (done || apply H1). done. }
  intros l1 H1 Hb1. pose proof (rf_ok _ _ H1) as Hr1. pose proof (Z.mod_pos_bound (hold (rg l1)) (2 ^ Z.of_nat e) ltac:(lia)) as Hmod.
  pose proof (frame_refilled _ _ _ _ _ _ H1 Hf) as Hf1. assert (Em1 : mode (st l1) = LENEXT) by (rewrite (rf_st _ _ H1); done).
  wp_step. wp_step. apply (wp_dist _ h); [done|..].
  - apply (sim_intro _ _ _ _ DIST); [done|..].
    + apply frame_st; [split; cbn; rewrite ?Em; auto|]. apply frame_st; [split; cbn; rewrite ?(rf_st _ _ H1); auto|]. apply frame_dropped; [lia|done].
    + exists lits, dists. split; [exact Ht|]. split; [left; cbn; lia|]. cbn [with_st st set_mode set_cp cp set_length length_].
      split; [lia|]. intros F. rewrite HR, <- (ahead_refilled _ _ _ H1), get_extra_ahead by (done || lia). done.
  - rewrite !work_mode, work_dropped, (work_refilled _ _ H1) by (done || lia). cbn. rewrite Em, Em1. cbn. lia.
Qed.

(** ** Literals and lengths *)

(** What comes after a code for a literal or a length. *)
Definition after_len (this : code) : M unit :=
  (if op this =? 0 then goto_mode LIT
   else if negb (Z.land (op this) 32 =? 0) then goto_mode TYPE
   else if negb (Z.land (op this) 64 =? 0) then goto_mode BAD
   else upd_cp (set_extra (Z.land (op this) 15));; goto_mode LENEXT;; do_LENEXT)%inflate.

Lemma wp_after_len l h n lits dists s this :
  mode (st l) = LEN -> frame l h -> tables_read (st l) lits dists -> bits_ (rg l) < 8 -> length_ (cp (st l)) = val this ->
  means LENS s (op this) (val this) -> work_left l + 4 <= n ->
  (forall F, R F = go_item zlib (st l) lits dists h (
    if (s <? 256)%nat then Got (Literal (Z.of_nat s)) (ahead l F)
    else if (s =? 256)%nat then Got EndOfBlock (ahead l F)
    else match length_base !! (s - 257)%nat with
         | None => Bad
         | Some (e, b) => rbind (get_extra e b (ahead l F)) (fun len bs => read_dist dists len bs)
         end)) ->
  wp (after_len this) (fun _ => on n) exits l.
Proof.
  intros Em Hf Ht Hb Hval Hm Hw HR. unfold after_len. cbn [means] in Hm.
  destruct (s <? 256)%nat eqn:Es; [|destruct (s =? 256)%nat eqn:Es2; [|destruct (length_base !! (s - 257)%nat) as [[e b]|] eqn:El]].
  - destruct Hm as [-> Ev]. apply Nat.ltb_lt in Es. cbn [Z.eqb]. wp_step. exists h. split; [|rewrite work_mode, Em; cbn; lia].
    apply (sim_intro _ _ _ _ LIT); [done|by apply (frame_mode _ _ _ LEN)|]. exists lits, dists. split; [exact Ht|]. split; [done|].
    cbn [with_st st set_mode cp]. rewrite Hval, Ev. split; [lia|]. exact HR.
  - rewrite Hm. change (96 =? 0) with false. change (Z.land 96 32 =? 0) with false. cbn [negb]. wp_step. exists h. split; [|rewrite work_mode, Em; cbn; lia].
    apply (sim_intro _ _ _ _ TYPE); [done|by apply (frame_mode _ _ _ LEN)|]. split; [done|]. exact HR.
  - destruct Hm as [Eop Ev]. destruct (length_base_range _ _ _ El) as (He & Hb3 & Hbe). destruct (extra_op e ltac:(lia)) as (E64 & E32 & E15).
    rewrite Eop, E64, E32, E15. rewrite (proj2 (Z.eqb_neq (16 + Z.of_nat e) 0)) by lia. cbn [negb Z.eqb]. unfold upd_cp. wp_step. wp_step. wp_step. wp_step.
    apply (wp_lenext _ h); [done|..].
    + apply (sim_intro _ _ _ _ LENEXT); [done|..].
      * apply frame_st; [split; cbn; rewrite ?Em; auto|]. apply frame_st; [split; cbn; rewrite ?Em; auto|done].
      * exists lits, dists, e. split; [exact Ht|]. split; [done|]. cbn [with_st st set_mode set_cp cp set_extra extra length_]. rewrite Hval, Ev.
        repeat (split; [done|]). exact HR.
    + rewrite !work_mode. cbn. rewrite Em. cbn. lia.
  - destruct Hm as (Ho & _ & H32 & H64). rewrite (proj2 (Z.eqb_neq (op this) 0)) by (intros E; by rewrite E in H64).
    rewrite H32. apply Z.eqb_neq in H64. rewrite H64. cbn [negb Z.eqb]. wp_step. apply (on_bad _ _ _ _ _ _ h); auto. rewrite Em. cbn. lia.
Qed.

Lemma wp_len_slow l h n :
  mode (st l) = LEN -> sim l h -> work_left l <= n ->
  wp (this <- read_code len_link (lencode (tabs (st l))) (lenbits (tabs (st l))); upd_cp (set_length (val this));; after_len this)%inflate
    (fun _ => on n) exits l.
Proof.
  intros Em Hs Hw. apply (sim_elim _ _ _ _ LEN) in Hs as [Hf (lits & dists & Ht & Hb & HR)]; [|done].
  pose proof (fr_regs _ _ _ _ _ Hf) as Hr. wp_step. pose proof Ht as [Htl Htd].
  apply (wp_read_code LENS lits _ _ (st l) Htl); [intros; by apply len_links|apply len_leaf|done|done|done|done|..].
  { intros l1 H1 Hnil Hmore. apply (exit_starved _ _ _ _ _ LEN l l1 h); auto.
    - exists lits, dists. rewrite (rf_st _ _ H1). split; [done|]. split.
      { right. rewrite <- (rf_stream _ _ H1) in Hmore. unfold stream in Hmore. rewrite Hnil in Hmore. cbn in Hmore. by rewrite app_nil_r in Hmore. }
      intros F. rewrite (ahead_refilled _ _ _ H1). apply HR.
    - rewrite HR, result_step. unfold step, ahead. cbn. rewrite app_nil_r. unfold read_item. rewrite Hmore. done. }
  intros this l1 [Hsame Hread]. pose proof (frame_same _ _ _ _ _ _ Hsame Hf) as Hf1.
  assert (Em1 : mode (st l1) = LEN) by (rewrite (sb_st _ _ Hsame); done). pose proof (sb_ok _ _ Hsame) as Hr1.
  assert (Hwl : work_left l1 = work_left l - 4 * (bits_ (rg l) + 8 * Z.of_nat (length (next (rg l)))) + 4 * (bits_ (rg l1) + 8 * Z.of_nat (length (next (rg l1))))).
  { unfold work_left. rewrite !length_stream by done. rewrite (sb_st _ _ Hsame). destruct (sb_put _ _ Hsame) as [_ ->]. lia. }
  assert (HR1 : forall F, R F = go_item zlib (st l) lits dists h (read_item lits dists (ahead l F))) by (intros F; by rewrite HR, result_step).
  unfold upd_cp. wp_step. wp_step. assert (Hf2 : frame (with_st (set_cp (set_length (val this) (cp (st l1))) (st l1)) l1) h).
  { apply frame_st; [split; cbn; rewrite ?Em1; auto|done]. }
  destruct Hread as [(s & Hm & Hb1 & Hlt & Hd)|(-> & Hle & Hd)].
  - apply (wp_after_len _ h n lits dists s); auto.
    + cbn. rewrite (sb_st _ _ Hsame). exact Ht.
    + rewrite work_mode. cbn. rewrite Em1. cbn. lia.
    + intros F. rewrite HR1. unfold read_item, ahead. rewrite Hd. cbn [rbind with_st st rg]. rewrite (sb_st _ _ Hsame). done.
  - unfold after_len. change (wp (goto_mode BAD) (fun _ => on n) exits (with_st (set_cp (set_length (val InfTreesProofs.invalid) (cp (st l1))) (st l1)) l1)). wp_step. apply (on_bad _ _ _ _ _ _ h); auto; [|rewrite work_mode; cbn; rewrite Em1; cbn; lia].
    intros F. rewrite HR1. unfold read_item, ahead. by rewrite Hd.
Qed.
End items.
