(* ===== verification/InflateFastCopy.v ===== *)
(** * Copying in the fast decoder

    However [inflate_fast] copies a string - byte by byte, in threes, in 16-bit units or as a
    repeated pattern, from the window, around its end and on into the output - it appends what
    [copy_match] appends. *)

From Stdlib Require Import ZArith Lia Bool.
From stdpp Require Import base numbers list option.
From S2P Require Import Prelude Deflate DeflateProofs InfTrees Canon InflateState InfTreesTheorems InflateFast InflateSim InflateMatch.
Open Scope Z_scope.

(** Bytes were written. *)
Definition wrote (bytes : list Z) (f : fregs) : fregs :=
  mkF (ip f) (fput f ++ bytes) (fleft f - Z.of_nat (length bytes)) (fhold f) (fbits f).
Lemma wrote_nil f : wrote [] f = f.
Proof. unfold wrote. rewrite app_nil_r, Z.sub_0_r. by destruct f. Qed.
Lemma wrote_wrote a b f : wrote b (wrote a f) = wrote (a ++ b) f.
Proof. unfold wrote. cbn. rewrite length_app, <- app_assoc. f_equal. lia. Qed.
Lemma emit_wrote b f : emit b f = wrote [b] f.
Proof. done. Qed.

(** A copy of [n] bytes from the distance [d] takes [f] to [f']. *)
Definition copies (n d : Z) (h : list Z) (f f' : fregs) : Prop :=
  exists bytes, copy_match (Z.to_nat n) (Z.to_nat d) h = h ++ bytes /\ Z.of_nat (length bytes) = n /\ f' = wrote bytes f.

Lemma copies_0 d h f : copies 0 d h f f.
Proof. exists []. rewrite app_nil_r. split; [done|]. split; [done|]. by rewrite wrote_nil. Qed.
Lemma copies_intro n d h bytes f :
  0 <= n -> copy_match (Z.to_nat n) (Z.to_nat d) h = h ++ bytes -> copies n d h f (wrote bytes f).
Proof.
  intros Hn E. exists bytes. split; [done|]. split; [|done].
  destruct (copy_match_extends (Z.to_nat n) (Z.to_nat d) h) as (b' & E' & Hl). rewrite E in E'. apply app_inv_head in E'. subst b'. lia.
Qed.
Lemma copies_trans n m d h f f1 f2 bytes :
  0 <= n -> 0 <= m -> copies n d h f f1 -> f1 = wrote bytes f -> copies m d (h ++ bytes) f1 f2 -> copies (n + m) d h f f2.
Proof.
  intros Hn Hm (b1 & E1 & L1 & ->) Eb (b2 & E2 & L2 & ->). exists (b1 ++ b2).
  assert (b1 = bytes) as ->. { injection Eb as Eb _. by apply app_inv_head in Eb. }
  rewrite Z2Nat.inj_add, copy_match_add, E1, E2 by lia. rewrite app_assoc, length_app. split; [done|]. split; [lia|]. by rewrite wrote_wrote.
Qed.

Section copying.
Context (w : window_state) (base : Z) (prev : option Z).
Abbreviation pup := (pup w).
Abbreviation pup_n := (pup_n w).

(** ** Byte by byte *)

Lemma pup_ok src d h f room :
  points w (fput f) h src d room -> 1 <= d -> 1 <= room ->
  exists b, pup (src, f) = Some (advance_src 1 src, wrote [b] f) /\ h !! (length h - Z.to_nat d)%nat = Some b /\
    copies 1 d h f (wrote [b] f) /\ points w (fput f ++ [b]) (h ++ [b]) (advance_src 1 src) d (room - 1).
Proof.
  intros Hp Hd Hr. destruct (points_step _ _ _ _ _ _ Hp Hd Hr) as (b & E & Eb & Hp'). exists b. split; [|split; [done|split; [|done]]].
  - unfold InflateFast.pup. cbn [fst snd]. replace (src_byte w src f) with (Some b) by (by destruct src). done.
  - apply copies_intro; [lia|]. change (Z.to_nat 1) with 1%nat. cbn [copy_match]. by rewrite Eb.
Qed.

Lemma pup_n_ok n src d h f :
  points w (fput f) h src d (Z.of_nat n) -> 1 <= d ->
  exists bytes, pup_n n (src, f) = Some (advance_src (Z.of_nat n) src, wrote bytes f) /\ copies (Z.of_nat n) d h f (wrote bytes f).
Proof.
  revert src h f. induction n as [|n IH]; intros src h f Hp Hd.
  { exists []. rewrite wrote_nil. split; [|apply copies_0]. cbn. do 2 f_equal. destruct src; cbn; f_equal; lia. }
  destruct (pup_ok src d h f _ Hp Hd ltac:(lia)) as (b & E & _ & Hc & Hp').
  destruct (IH (advance_src 1 src) (h ++ [b]) (wrote [b] f)) as (bytes & E2 & Hc2); [eapply points_less; [exact Hp'|lia]|done|].
  exists (b :: bytes). rewrite wrote_wrote in *. cbn [InflateFast.pup_n]. rewrite E. cbn [mbind option_bind]. rewrite E2. split.
  - do 2 f_equal. destruct src; cbn [advance_src]; f_equal; lia.
  - replace (Z.of_nat (S n)) with (1 + Z.of_nat n) by lia. eapply copies_trans; [lia|lia|exact Hc|done|].
    exact Hc2.
Qed.
Lemma pup_do_ok n src d h f :
  points w (fput f) h src d n -> 1 <= d -> 1 <= n ->
  exists bytes, pup_do w n (src, f) = Some (advance_src n src, wrote bytes f) /\ copies n d h f (wrote bytes f).
Proof.
  intros Hp Hd Hn. unfold pup_do. rewrite (proj2 (Z.eqb_neq n 0)) by lia.
  pose proof (pup_n_ok (Z.to_nat n) src d h f) as H. rewrite Z2Nat.id in H by lia. auto.
Qed.

Lemma pup_n_add a b fr : pup_n (a + b) fr = (fr' ← pup_n a fr; pup_n b fr').
Proof. revert fr. induction a as [|a IH]; intros fr; [done|]. cbn. destruct (InflateFast.pup w fr); [cbn; apply IH|done]. Qed.
Lemma pup_threes_ok fuel len fr : 0 <= len -> (Z.to_nat len <= fuel)%nat -> pup_threes w fuel len fr = pup_n (Z.to_nat len) fr.
Proof.
  revert len fr. induction fuel as [|fuel IH]; intros len fr Hl Hf; cbn [pup_threes].
  { replace len with 0 by lia. done. }
  destruct (Z.ltb_spec 2 len) as [H2|H2].
  - replace (Z.to_nat len) with (3 + Z.to_nat (len - 3))%nat by lia. rewrite pup_n_add. cbn [InflateFast.pup_n].
    destruct (pup fr) as [f1|]; [|done]. cbn [mbind option_bind]. destruct (pup f1) as [f2|]; [|done]. cbn [mbind option_bind].
    destruct (pup f2) as [f3|]; [|done]. cbn [mbind option_bind]. apply IH; lia.
  - assert (Hc : len = 0 \/ len = 1 \/ len = 2) by lia. destruct Hc as [->|[->| ->]]; cbn; [done|..].
    + change (Z.to_nat 1) with 1%nat. cbn. by destruct (pup fr).
    + change (Z.to_nat 2) with 2%nat. cbn. destruct (pup fr) as [f1|]; [|done]. cbn. by destruct (pup f1).
Qed.
Lemma pup_threes_copies len src d h f :
  points w (fput f) h src d len -> 1 <= d -> 0 <= len ->
  exists src' bytes, pup_threes w (Z.to_nat len) len (src, f) = Some (src', wrote bytes f) /\ copies len d h f (wrote bytes f).
Proof.
  intros Hp Hd Hl. rewrite pup_threes_ok by lia. pose proof (pup_n_ok (Z.to_nat len) src d h f) as H. rewrite Z2Nat.id in H by lia.
  destruct (H Hp Hd) as (bytes & E & Hc). eauto.
Qed.

(** ** From the window *)

Section window.
Context (h0 p0 : list Z) (d : Z) (Hfit : win_fits w) (Hholds : win_holds w h0) (Hd : 1 <= d).

(** Where a copy of [len] bytes has come to: [len'] bytes are left to be copied from [src]. *)
Definition halfway (len : Z) (new : list Z) (f : fregs) (r : option (Z * source * fregs)) : Prop :=
  exists len' src bytes, r = Some (len', src, wrote bytes f) /\ 0 <= len' <= len /\
    copies (len - len') d (h0 ++ new) f (wrote bytes f) /\ points w (fput f ++ bytes) (h0 ++ new ++ bytes) src d len'.

Lemma halfway_start len new f src :
  fput f = p0 ++ new -> 0 <= len -> points w (fput f) (h0 ++ new) src d len -> halfway len new f (Some (len, src, f)).
Proof.
  intros Ep Hl Hp. exists len, src, []. rewrite wrote_nil, !app_nil_r. split; [done|]. split; [lia|].
  split; [rewrite Z.sub_diag; apply copies_0|done].
Qed.

(** Copying all that is there without going around the end of the window. *)
Lemma window_part n k new f :
  fput f = p0 ++ new -> k = d - Z.of_nat (length new) -> 1 <= k <= whave w -> n = win_room w k ->
  exists bytes, pup_do w n (Win (win_place w k), f) = Some (advance_src n (Win (win_place w k)), wrote bytes f) /\
    copies n d (h0 ++ new) f (wrote bytes f) /\ Z.of_nat (length bytes) = n /\ 1 <= n <= k.
Proof.
  intros Ep -> Hk ->. destruct (points_window w (fput f) h0 new d Hfit Hholds Hk) as [Hp Hr].
  destruct (pup_do_ok _ _ _ _ _ Hp Hd ltac:(lia)) as (bytes & E & Hc). exists bytes. split; [done|]. split; [done|].
  destruct Hc as (b & _ & Hl & Eb). injection Eb as Eb _. apply app_inv_head in Eb. subst b. done.
Qed.

(** Then on from the output. *)
Lemma halfway_output n len new f bytes :
  fput f = p0 ++ new -> copies n d (h0 ++ new) f (wrote bytes f) -> Z.of_nat (length bytes) = n -> 0 <= n < len ->
  d <= Z.of_nat (length (new ++ bytes)) ->
  halfway len new f (Some (len - n, Out (Z.of_nat (length (fput (wrote bytes f))) - d), wrote bytes f)).
Proof.
  intros Ep Hc Hl Hn Hle. do 3 eexists. split; [done|]. split; [lia|]. split; [replace (len - (len - n)) with n by lia; exact Hc|].
  cbn [wrote fput]. rewrite Ep, <- app_assoc. by apply points_output.
Qed.

Lemma halfway_trans n len new f bytes r :
  0 <= n -> copies n d (h0 ++ new) f (wrote bytes f) -> halfway len (new ++ bytes) (wrote bytes f) r -> halfway (n + len) new f r.
Proof.
  intros Hn Hc (len' & src & bytes' & -> & Hl & Hc' & Hp). rewrite wrote_wrote in *. exists len', src, (bytes ++ bytes').
  split; [done|]. split; [lia|]. cbn [wrote fput] in Hp. rewrite <- !app_assoc in Hp. split; [|exact Hp].
  replace (n + len - len') with (n + (len - len')) by lia. eapply copies_trans; [lia|lia|exact Hc|done|].
  rewrite app_assoc in Hc'. exact Hc'.
Qed.

(** From the start of the window, after going around its end. *)
Lemma window_start len new f :
  fput f = p0 ++ new -> write w = d - Z.of_nat (length new) -> 1 <= write w <= whave w -> 1 <= len ->
  halfway len new f
    (if write w <? len then '(_, r) ← pup_do w (write w) (Win 0, f); Some (len - write w, Out (Z.of_nat (length (fput r)) - d), r)
     else Some (len, Win 0, f)).
Proof.
  intros Ep Ek Hk Hl. assert (E0 : win_place w (write w) = 0 /\ win_room w (write w) = write w).
  { unfold win_place, win_room. rewrite Z.leb_refl. split; [lia|done]. }
  destruct E0 as [E0 Er]. destruct (Z.ltb_spec (write w) len).
  - destruct (window_part (write w) (write w) new f Ep Ek Hk ltac:(done)) as (bytes & E & Hc & Hb & Hn). rewrite E0 in E. rewrite E.
    cbn [mbind option_bind]. apply halfway_output; auto; [lia|]. rewrite length_app. lia.
  - pose proof (points_window w (fput f) h0 new d Hfit Hholds ltac:(by rewrite <- Ek)) as Hp. rewrite <- Ek in Hp. destruct Hp as [Hp _].
    rewrite E0, Er in Hp. apply halfway_start; [done|lia|]. eapply points_less; [exact Hp|lia].
Qed.

Lemma copy_window_ok k len new f :
  fput f = p0 ++ new -> k = d - Z.of_nat (length new) -> 1 <= k <= whave w -> 1 <= len ->
  exists bytes, copy_window w k len d f = Some (wrote bytes f) /\ copies len d (h0 ++ new) f (wrote bytes f).
Proof.
  intros Ep Ek Hk Hlen. unfold copy_window. set (inner := if write w =? 0 then _ else _).
  assert (Hhalf : halfway len new f inner).
  { pose proof (window_part (win_room w k) k new f Ep Ek Hk eq_refl) as Hpart.
    pose proof (points_window w (fput f) h0 new d Hfit Hholds ltac:(by rewrite <- Ek)) as Hp. rewrite <- Ek in Hp. destruct Hp as [Hp Hroom].
    assert (Hall : len <= win_room w k -> halfway len new f (Some (len, Win (win_place w k), f))).
    { intros Hle. apply halfway_start; [done|lia|]. eapply points_less; [exact Hp|lia]. }
    pose proof (wf_write _ Hfit) as Hw. unfold inner. destruct (Z.eqb_spec (write w) 0) as [E0|E0]; [|destruct (Z.ltb_spec (write w) k) as [Hlt|Hge]].
    - unfold win_place, win_room in *. destruct (Z.leb_spec k (write w)); [lia|]. rewrite E0 in *. replace (wsize w - k) with (0 - k + wsize w) by lia.
      destruct (Z.ltb_spec k len); [|apply Hall; lia]. rewrite !Z.sub_0_r in *. destruct Hpart as (bytes & -> & Hc & Hl & Hn). cbn [mbind option_bind].
      apply halfway_output; auto; [lia|]. rewrite length_app. lia.
    - unfold win_place, win_room in *. destruct (Z.leb_spec k (write w)); [lia|]. replace (wsize w + write w - k) with (write w - k + wsize w) by lia.
      destruct (Z.ltb_spec (k - write w) len) as [Hl1|]; [|apply Hall; lia]. destruct Hpart as (bytes & -> & Hc & Hl & Hn). cbn [mbind option_bind].
      replace len with (k - write w + (len - (k - write w))) at 1 by lia. apply (halfway_trans _ _ _ _ bytes); [lia|exact Hc|].
      apply window_start; [cbn; by rewrite Ep, app_assoc|rewrite length_app; lia|lia|lia].
    - unfold win_place, win_room in *. destruct (Z.leb_spec k (write w)); [|lia].
      destruct (Z.ltb_spec k len); [|apply Hall; lia]. destruct Hpart as (bytes & -> & Hc & Hl & Hn). cbn [mbind option_bind].
      apply halfway_output; auto; [lia|]. rewrite length_app. lia. }
  destruct Hhalf as (len' & src & bytes & -> & Hl' & Hc & Hp). cbn [mbind option_bind].
  destruct (pup_threes_copies len' src d _ (wrote bytes f) Hp Hd ltac:(lia)) as (src' & bytes' & -> & Hc'). cbn [mbind option_bind].
  rewrite wrote_wrote in *. exists (bytes ++ bytes'). split; [done|]. replace len with (len - len' + len') by lia.
  eapply copies_trans; [lia|lia|exact Hc|done|]. rewrite <- app_assoc. exact Hc'.
Qed.
End window.

(** ** From the output *)

(** In units of 16 bits. *)
Lemma pup16_ok i d h f room :
  points w (fput f) h (Out i) d room -> 2 <= d -> pup16 w (Out i, f) = pup_n 2 (Out i, f).
Proof.
  intros (-> & p0 & h0 & new & Ep & -> & Hd) H2. unfold pup16. cbn. destruct (rd (fput f) (Z.of_nat (length (fput f)) - d)) as [b0|] eqn:E0; [|done].
  cbn. replace (rd (fput f ++ [b0]) (Z.of_nat (length (fput f)) - d + 1)) with (rd (fput f) (Z.of_nat (length (fput f)) - d + 1)).
  - destruct (rd (fput f) (Z.of_nat (length (fput f)) - d + 1)); cbn; [|done]. do 3 f_equal. lia.
  - unfold rd. destruct (Z.leb_spec 0 (Z.of_nat (length (fput f)) - d + 1)); [|done]. rewrite lookup_app_l by lia. done.
Qed.
Lemma pup16_n_ok n i d h f :
  points w (fput f) h (Out i) d 0 -> 2 <= d ->
  exists bytes, pup16_n w n (Out i, f) = Some (Out (i + 2 * Z.of_nat n), wrote bytes f) /\ copies (2 * Z.of_nat n) d h f (wrote bytes f).
Proof.
  revert i h f. induction n as [|n IH]; intros i h f Hp Hd.
  { exists []. rewrite wrote_nil. split; [cbn; do 3 f_equal; lia|apply copies_0]. }
  cbn [pup16_n]. rewrite (pup16_ok _ _ _ _ _ Hp Hd).
  destruct (pup_n_ok 2 (Out i) d h f) as (bytes & -> & Hc); [done|lia|]. cbn [mbind option_bind advance_src].
  pose proof Hc as (b & _ & Hl & Eb). injection Eb as Eb _. apply app_inv_head in Eb. subst b.
  destruct (IH (i + Z.of_nat 2) (h ++ bytes) (wrote bytes f)) as (bytes' & -> & Hc'); [|done|].
  { destruct Hp as (-> & p0 & h0 & new & Ep & -> & Hle). cbn [wrote fput]. split; [rewrite length_app; lia|].
    exists p0, h0, (new ++ bytes). rewrite Ep, length_app, !app_assoc. split; [done|]. split; [done|]. lia. }
  rewrite wrote_wrote in *. exists (bytes ++ bytes'). split; [do 3 f_equal; lia|].
  replace (2 * Z.of_nat (S n)) with (Z.of_nat 2 + 2 * Z.of_nat n) by lia. eapply copies_trans; [lia|lia|exact Hc|done|]. exact Hc'.
Qed.

(** As a pattern of two bytes: what a distance of one or two repeats. *)
Definition ends_with (d : Z) (b0 b1 : Z) (h : list Z) : Prop :=
  exists x, h = x ++ [b1] /\ (d = 1 /\ b0 = b1 \/ d = 2 /\ exists y, x = y ++ [b0]).
Lemma ends_next d b0 b1 h : ends_with d b0 b1 h -> copy_match 2 (Z.to_nat d) h = h ++ [b0; b1] /\ ends_with d b0 b1 (h ++ [b0; b1]) /\
  h !! (length h - Z.to_nat d)%nat = Some b0.
Proof.
  assert (Hlast : forall (l : list Z) a, (l ++ [a]) !! (length (l ++ [a]) - 1)%nat = Some a).
  { intros l a. rewrite length_app, lookup_app_r by (cbn; lia). cbn. by replace (length l + 1 - 1 - length l)%nat with 0%nat by lia. }
  assert (Hpre : forall (l : list Z) a b, (l ++ [a; b]) !! (length (l ++ [a; b]) - 2)%nat = Some a).
  { intros l a b. rewrite length_app, lookup_app_r by (cbn; lia). cbn. by replace (length l + 2 - 2 - length l)%nat with 0%nat by lia. }
  intros (x & -> & [[-> ->]|(-> & y & ->)]).
  - change (Z.to_nat 1) with 1%nat. split; [|split; [|by rewrite Hlast]].
    + cbn [copy_match]. rewrite Hlast. cbn [default]. rewrite Hlast. cbn [default]. by rewrite <- !app_assoc.
    + exists (x ++ [b1; b1]). rewrite <- !app_assoc. split; [done|]. by left.
  - change (Z.to_nat 2) with 2%nat. rewrite <- app_assoc. cbn [app]. split; [|split; [|by rewrite Hpre]].
    + cbn [copy_match]. rewrite Hpre. cbn [default id]. replace ((y ++ [b0; b1]) ++ [b0]) with ((y ++ [b0]) ++ [b1; b0]) by (by rewrite <- !app_assoc).
      rewrite Hpre. cbn [default]. by rewrite <- !app_assoc.
    + exists (y ++ [b0; b1; b0]). rewrite <- !app_assoc. split; [done|]. right. split; [done|]. exists (y ++ [b0; b1]). by rewrite <- !app_assoc.
Qed.
Lemma pattern_ok n d b0 b1 h f :
  ends_with d b0 b1 h ->
  exists bytes, pattern_n n b0 b1 f = wrote bytes f /\ copies (2 * Z.of_nat n) d h f (wrote bytes f) /\ ends_with d b0 b1 (h ++ bytes).
Proof.
  revert h f. induction n as [|n IH]; intros h f He.
  { exists []. rewrite wrote_nil, app_nil_r. split; [done|]. split; [apply copies_0|done]. }
  destruct (ends_next _ _ _ _ He) as (Hc & He' & _). cbn [pattern_n]. rewrite !emit_wrote, wrote_wrote. cbn [app].
  destruct (IH (h ++ [b0; b1]) (wrote [b0; b1] f) He') as (bytes & -> & Hc' & He''). rewrite wrote_wrote in *.
  exists ([b0; b1] ++ bytes). split; [done|]. split; [|by rewrite app_assoc].
  replace (2 * Z.of_nat (S n)) with (2 + 2 * Z.of_nat n) by lia.
  eapply copies_trans; [lia|lia|apply copies_intro; [lia|exact Hc]|done|]. exact Hc'.
Qed.

(** The last two bytes; there may be only one, when the distance is one. *)
Lemma pattern_bytes d p0 h0 new f :
  fput f = p0 ++ new -> 1 <= d <= 2 -> d <= Z.of_nat (length new) -> (length (fput f) = 1%nat -> prev <> None) ->
  exists b0 b1, out_byte prev f (Z.of_nat (length (fput f)) - 2) = Some b0 /\ out_byte prev f (Z.of_nat (length (fput f)) - 1) = Some b1 /\
    ends_with d (if d =? 1 then b1 else b0) b1 (h0 ++ new).
Proof.
  intros Ep Hd Hl Hone. destruct new as [|b1 new _] using rev_ind; [cbn in Hl; lia|]. rewrite length_app in Hl. cbn [length] in Hl. unfold out_byte, rd. rewrite Ep, !length_app in *. cbn [length] in *.
  assert (E1 : (p0 ++ new ++ [b1]) !! Z.to_nat (Z.of_nat (length p0 + (length new + 1)) - 1) = Some b1).
  { rewrite app_assoc. apply list_lookup_middle. rewrite length_app. lia. }
  rewrite E1, (proj2 (Z.eqb_neq (Z.of_nat (length p0 + (length new + 1)) - 1) (-1))), (proj2 (Z.leb_le 0 (Z.of_nat (length p0 + (length new + 1)) - 1))) by lia.
  destruct (Z.eqb_spec d 1) as [->|].
  - assert (H2 : is_Some (if Z.of_nat (length p0 + (length new + 1)) - 2 =? -1 then prev
      else if 0 <=? Z.of_nat (length p0 + (length new + 1)) - 2 then (p0 ++ new ++ [b1]) !! Z.to_nat (Z.of_nat (length p0 + (length new + 1)) - 2) else None)).
    { destruct (Z.eqb_spec (Z.of_nat (length p0 + (length new + 1)) - 2) (-1)); [destruct prev; [eauto|exfalso; apply Hone; [lia|done]]|]. rewrite (proj2 (Z.leb_le _ _)) by lia.
      apply lookup_lt_is_Some_2. rewrite !length_app. cbn. lia. }
    destruct H2 as [b0 E0]. exists b0, b1. split; [done|]. split; [done|]. exists (h0 ++ new). rewrite app_assoc. split; [done|]. by left.
  - destruct new as [|b0 new _] using rev_ind; [cbn in Hl; lia|]. rewrite length_app. cbn [length]. exists b0, b1.
    rewrite (proj2 (Z.eqb_neq _ (-1))), (proj2 (Z.leb_le 0 _)) by lia. split; [|split; [done|]].
    + rewrite <- app_assoc. cbn [app]. rewrite app_assoc. apply list_lookup_middle. rewrite length_app. lia.
    + exists (h0 ++ new ++ [b0]). rewrite <- !app_assoc. split; [done|]. right. split; [lia|]. exists (h0 ++ new). by rewrite app_assoc.
Qed.

(** The middle part: pairs of bytes. *)
Lemma copy_pairs n d p0 h0 new f :
  fput f = p0 ++ new -> 1 <= d <= Z.of_nat (length new) -> (length (fput f) = 1%nat -> prev <> None) ->
  let i := Z.of_nat (length (fput f)) - d in
  exists src bytes,
    (if 2 <? d then pup16_n w n (Out i, f)
     else
       b0 ← out_byte prev f (Z.of_nat (length (fput f)) - 2);
       b1 ← out_byte prev f (Z.of_nat (length (fput f)) - 1);
       let b0 := if d =? 1 then b1 else b0 in
       Some (Out i, pattern_n n b0 b1 f)) = Some (src, wrote bytes f) /\
    copies (2 * Z.of_nat n) d (h0 ++ new) f (wrote bytes f) /\
    exists b, src_byte w src (wrote bytes f) = Some b /\ (h0 ++ new ++ bytes) !! (length (h0 ++ new ++ bytes) - Z.to_nat d)%nat = Some b.
Proof.
  intros Ep Hd Hone i. pose proof (points_output w p0 h0 new d 0 ltac:(lia)) as Hp. rewrite <- Ep in Hp. fold i in Hp.
  destruct (Z.ltb_spec 2 d) as [H2|H2].
  - destruct (pup16_n_ok n i d _ f Hp ltac:(lia)) as (bytes & E & Hc). exists (Out (i + 2 * Z.of_nat n)), bytes. split; [done|]. split; [done|].
    pose proof Hc as (b & _ & Hl & Eb). injection Eb as Eb _. apply app_inv_head in Eb. subst b.
    pose proof (points_output w p0 h0 (new ++ bytes) d 1 ltac:(rewrite length_app; lia)) as Hp'.
    destruct (points_step _ _ _ _ _ _ Hp' ltac:(lia) ltac:(lia)) as (b & Eb & Hb & _). exists b. split; [|done].
    cbn in Eb |- *. rewrite app_assoc, <- Ep in Eb. rewrite <- Eb. f_equal. rewrite length_app. lia.
  - destruct (pattern_bytes d p0 h0 new f Ep ltac:(lia) ltac:(lia) Hone) as (b0 & b1 & E0 & E1 & He).
    rewrite E0, E1. cbn [mbind option_bind]. set (b := if d =? 1 then b1 else b0) in *.
    destruct (pattern_ok n d b b1 _ f He) as (bytes & -> & Hc & He'). exists (Out i), bytes. split; [done|]. split; [done|].
    exists b. destruct (ends_next _ _ _ _ He) as (_ & _ & Hb). destruct (ends_next _ _ _ _ He') as (_ & _ & Hb').
    rewrite <- app_assoc in Hb'. split; [|done].
    destruct (points_step _ _ _ _ _ _ (points_output w p0 h0 new d 1 ltac:(lia)) ltac:(lia) ltac:(lia)) as (b' & Eb & Hb2 & _).
    rewrite Hb in Hb2. injection Hb2 as <-. cbn in Eb |- *. rewrite <- Ep in Eb. fold i in Eb. unfold rd in *.
    destruct (0 <=? i); [|done]. by apply lookup_app_l_Some.
Qed.

Lemma copy_output_ok len d p0 h0 new f :
  before_ok base prev -> fput f = p0 ++ new -> 1 <= d <= Z.of_nat (length new) -> 3 <= len ->
  exists bytes, copy_output w base prev len d f = Some (wrote bytes f) /\ copies len d (h0 ++ new) f (wrote bytes f).
Proof.
  intros Hprev Ep Hd Hlen. unfold copy_output.
  assert (Hfirst : exists len1 bytes, (if Z.even (base + Z.of_nat (length (fput f)) - 1)
      then '(src, r) ← pup (Out (Z.of_nat (length (fput f)) - d), f); Some (len - 1, src, r)
      else Some (len, Out (Z.of_nat (length (fput f)) - d), f)) = Some (len1, Out (Z.of_nat (length (fput (wrote bytes f))) - d), wrote bytes f) /\
    copies (len - len1) d (h0 ++ new) f (wrote bytes f) /\ len - 1 <= len1 <= len /\ Z.even (base + Z.of_nat (length (fput (wrote bytes f)))) = true).
  { destruct (Z.even _) eqn:Eeven.
    - pose proof (points_output w p0 h0 new d 1 ltac:(lia)) as Hp. rewrite <- Ep in Hp.
      destruct (pup_ok _ _ _ _ _ Hp ltac:(lia) ltac:(lia)) as (b & -> & _ & Hc & _). exists (len - 1), [b]. cbn [mbind option_bind].
      split; [|split; [by replace (len - (len - 1)) with 1 by lia|split; [lia|]]]; cbn [advance_src wrote fput]; rewrite length_app; cbn [length].
      + do 4 f_equal. lia.
      + rewrite <- Eeven, Z.even_sub, Nat2Z.inj_add, Z.add_assoc, (Z.even_add _ 1). done.
    - exists len, []. rewrite wrote_nil, Z.sub_diag. split; [done|]. split; [apply copies_0|split; [lia|]]. rewrite Z.even_sub in Eeven. by destruct (Z.even (base + _)). }
  destruct Hfirst as (len1 & bytes & -> & Hc & Hl1 & Heven). rewrite bind_some. cbv beta iota zeta. 
  rewrite shiftr_div, land_1 by lia. change (2 ^ 1) with 2. rewrite (proj2 (Z.eqb_neq (len1 / 2) 0)) by zlia.
  pose proof Hc as (b & _ & Hl & Eb). injection Eb as Eb _. apply app_inv_head in Eb. subst b.
  set (f1 := wrote bytes f) in *. assert (Ep1 : fput f1 = p0 ++ new ++ bytes) by (cbn; by rewrite Ep, app_assoc).
  assert (Hone : length (fput f1) = 1%nat -> prev <> None).
  { intros E1. rewrite E1, Z.even_add in Heven. destruct Hprev as [Hb|]; [|done]. by rewrite Hb in Heven. }
  destruct (copy_pairs (Z.to_nat (len1 / 2)) d p0 h0 (new ++ bytes) f1 Ep1 ltac:(rewrite length_app; lia) Hone) as (src & bytes' & E & Hc' & b & Eb & Hb).
  rewrite Z2Nat.id in Hc' by zlia. cbv zeta in E. rewrite E, bind_some. cbv beta iota. unfold f1 in *. rewrite wrote_wrote in *.
  assert (Hc2 : copies (len - len1 + 2 * (len1 / 2)) d (h0 ++ new) f (wrote (bytes ++ bytes') f)).
  { eapply copies_trans; [lia|zlia|exact Hc|done|]. by rewrite <- app_assoc. }
  destruct (Z.eqb_spec (len1 `mod` 2) 0) as [Eodd|Eodd].
  - exists (bytes ++ bytes'). split; [done|]. replace len with (len - len1 + 2 * (len1 / 2)) by zlia. done.
  - unfold InflateFast.pup. cbn [fst snd]. rewrite Eb, bind_some, bind_some. rewrite emit_wrote, wrote_wrote. eexists. split; [done|].
    replace len with (len - len1 + 2 * (len1 / 2) + 1) by zlia. eapply copies_trans; [zlia|lia|exact Hc2|done|].
    rewrite <- (wrote_wrote _ [b]). apply copies_intro; [lia|]. change (Z.to_nat 1) with 1%nat. cbn [copy_match].
    replace (h0 ++ (new ++ bytes) ++ bytes') with ((h0 ++ new) ++ bytes ++ bytes') in Hb by (by rewrite <- !app_assoc). by rewrite Hb.
Qed.
End copying.
