(* ===== verification/InflateFastProofs.v ===== *)
(** * The fast decoder

    With enough input and space, a round of [inflate_fast] reads the next item of the block
    as the specification does; its bit buffer holds what it has taken from the input, so that
    whole bytes can be given back at the end. *)

From Stdlib Require Import ZArith Lia Bool.
From stdpp Require Import base numbers list option.
From S2P Require Import Prelude Deflate InfTrees Canon InfTreesProofs InfTreesTheorems DeflateProofs InflateState InflateFast Inflate InflateTables InflateMonad InflateCodes InflateSim InflateMatch InflateFastCopy.
Open Scope Z_scope.

Section fast.
Context (inp : list Z) (s : inflate_state) (base : Z) (prev : option Z) (start : Z).
Context (Hprev : before_ok base prev).

Abbreviation w := (win s).
Abbreviation tab := (tab_at s).
Abbreviation lcode := (lencode (tabs s)).
Abbreviation dcode := (distcode (tabs s)).
Abbreviation lmask := (Z.shiftl 1 (lenbits (tabs s)) - 1).
Abbreviation dmask := (Z.shiftl 1 (distbits (tabs s)) - 1).
Abbreviation dolen := (dolen inp w tab lcode dcode dmask start base prev).
Abbreviation dodist := (dodist inp w tab dcode start base prev).
Abbreviation fast_body := (fast_body inp w tab lcode dcode lmask dmask start base prev).

(** ** Bits *)

(** The registers as those of [zlib_inflate], and their stream. *)
Definition as_regs (f : fregs) : regs := mkRegs (drop (Z.to_nat (ip f)) inp) (fput f) (fleft f) (fhold f) (fbits f).
Definition fstream (f : fregs) : list bool := stream (as_regs f).
Record fok (f : fregs) : Prop := { fo_ip : 0 <= ip f <= Z.of_nat (length inp); fo_regs : reg_ok (as_regs f) }.
(** More of the input in the bit buffer. *)
Record fills (f f' : fregs) : Prop := {
  fl_ok : fok f';
  fl_stream : fstream f' = fstream f;
  fl_out : fput f' = fput f /\ fleft f' = fleft f;
  fl_bits : fbits f <= fbits f'
}.
Lemma fills_refl f : fok f -> fills f f.
Proof. intros H. split; auto. lia. Qed.
Lemma fills_trans f1 f2 f3 : fills f1 f2 -> fills f2 f3 -> fills f1 f3.
Proof. intros [_ H2 [H3 H4] H5] [G1 G2 [G3 G4] G5]. split; [done|congruence|split; congruence|lia]. Qed.

Lemma pup_in_ok f :
  fok f -> fbits f <= 24 -> fbits f < Z.of_nat (length (fstream f)) ->
  exists f', pup_in inp f = Some f' /\ fills f f' /\ fbits f' = fbits f + 8.
Proof.
  intros [Hip Hr] H24 Hlt. unfold fstream in Hlt. rewrite length_stream in Hlt by done. cbn in Hlt. rewrite length_drop in Hlt.
  assert (Hb : is_Some (inp !! Z.to_nat (ip f))) by (apply lookup_lt_is_Some_2; lia). destruct Hb as [b Eb].
  assert (En : next (as_regs f) = b :: drop (Z.to_nat (ip f + 1)) inp).
  { cbn. rewrite Z2Nat.inj_add, Nat.add_comm by lia. by apply drop_S. }
  unfold pup_in, rd. rewrite (proj2 (Z.leb_le _ _)), Eb by lia. cbn [mbind option_bind]. eexists. split; [done|].
  destruct (pull_ok b _ (as_regs f) Hr En H24) as (Hok & Hs & _). split; [|done]. split; cbn; auto; [|lia].
  split; [cbn; lia|exact Hok].
Qed.

Lemma refill_ok f :
  fok f -> 23 <= Z.of_nat (length (fstream f)) -> exists f', refill inp f = Some f' /\ fills f f' /\ 15 <= fbits f'.
Proof.
  intros Hok Hl. unfold refill. destruct (Z.ltb_spec (fbits f) 15) as [Hlt|Hge].
  2:{ exists f. split; [done|]. split; [by apply fills_refl|lia]. }
  destruct (pup_in_ok f Hok ltac:(lia) ltac:(lia)) as (f1 & -> & H1 & Hb1). rewrite bind_some.
  destruct (pup_in_ok f1 (fl_ok _ _ H1) ltac:(lia)) as (f2 & -> & H2 & Hb2); [rewrite (fl_stream _ _ H1); lia|].
  exists f2. split; [done|]. split; [by eapply fills_trans|]. pose proof (ro_bits _ (fo_regs _ Hok)) as Hb. cbn in Hb. lia.
Qed.

Lemma drop_bits_ok n f : fok f -> 0 <= n <= fbits f -> fok (drop_bits n f) /\ as_regs (drop_bits n f) = dropped n (as_regs f).
Proof.
  intros [Hip Hr] Hn. pose proof (ro_bits _ Hr) as Hb. cbn in Hb.
  assert (E : as_regs (drop_bits n f) = dropped n (as_regs f)).
  { unfold as_regs, drop_bits, dropped, set_acc. cbn. rewrite shiftr_div, u32_id by (unfold is_u32; lia). done. }
  split; [|done]. split; [done|]. rewrite E. by apply dropped_ok.
Qed.
Lemma drop_bits_stream n f : fok f -> 0 <= n <= fbits f -> fstream (drop_bits n f) = drop (Z.to_nat n) (fstream f).
Proof. intros H Hn. unfold fstream. destruct (drop_bits_ok n f H Hn) as [_ ->]. apply dropped_ok; [apply H|done]. Qed.
Lemma drop_bits_drop a b f : fok f -> 0 <= a -> 0 <= b -> a + b <= fbits f -> drop_bits b (drop_bits a f) = drop_bits (a + b) f.
Proof.
  intros [_ Hr] Ha Hb Hab. pose proof (ro_bits _ Hr) as Hf. cbn in Hf. unfold drop_bits. cbn.
  rewrite Z.shiftr_shiftr, !(u32_id (fbits f - _)) by (unfold is_u32; lia). rewrite u32_id by (unfold is_u32; lia). f_equal. lia.
Qed.
Lemma drop_bits_0 f : fok f -> drop_bits 0 f = f.
Proof.
  intros [_ Hr]. pose proof (ro_bits _ Hr) as Hf. cbn in Hf. unfold drop_bits. rewrite Z.sub_0_r, u32_id by (unfold is_u32; lia). by destruct f.
Qed.
Lemma mask_low n x : 0 <= n -> Z.land x (Z.shiftl 1 n - 1) = x `mod` 2 ^ n.
Proof. intros Hn. apply land_mask_mod; [done|]. rewrite Z.ones_equiv, shiftl_mul by lia. lia. Qed.
Lemma fhold_stream n f : fok f -> 0 <= n <= fbits f -> fhold f `mod` 2 ^ n = lsb (fstream f) `mod` 2 ^ n.
Proof. intros [_ Hr] Hn. apply (hold_stream n (as_regs f)); done. Qed.

(** ** Codes *)

(** With 15 bits in the bit buffer, a code is complete. *)
Lemma fast_code type ls t root f :
  reads type ls (tab t) root -> fok f -> 15 <= fbits f ->
  match decode ls (fstream f) with
  | Got c rest => exists o v, means type c o v /\ 1 <= code_length ls c <= 15 /\ rest = fstream (drop_bits (code_length ls c) f) /\
      (tab t (fhold f `mod` 2 ^ root) = Some (mkCode o (code_length ls c) v) \/
       exists n off, 0 < n < 15 /\ root < code_length ls c /\ tab t (fhold f `mod` 2 ^ root) = Some (mkCode n root off) /\
         tab t (off + (fhold f / 2 ^ root) `mod` 2 ^ n) = Some (mkCode o (code_length ls c - root) v))
  | Bad => tab t (fhold f `mod` 2 ^ root) = Some invalid
  | More => False
  end.
Proof.
  intros Hreads Hok H15. pose proof (fo_regs _ Hok) as Hr. pose proof (length_held _ Hr) as Hlen. cbn in Hlen.
  pose proof (reads_partial _ _ _ _ (held (as_regs f)) Hreads) as Hp. rewrite lsb_held, Hlen in Hp by done.
  destruct (acc_range _ _ _ _ _ Hreads) as (Hacc & Hrg & Hbig).
  change (decode ls (fstream f)) with (decode ls (held (as_regs f) ++ bits_of_bytes (next (as_regs f)))).
  destruct (decode ls (held (as_regs f))) as [c rest| |] eqn:Ed.
  - rewrite (decode_app type ls Hacc Hrg Hbig _ _ _ _ Ed). destruct Hp as ((o & v & Hm & Hf) & Hcl & Hle & ->).
    exists o, v. split; [done|]. split; [done|]. split.
    + rewrite drop_bits_stream by (done || lia). unfold fstream, stream. rewrite drop_app_le; [done|]. lia.
    + destruct (Z.leb_spec (code_length ls c) root) as [|Hgt]; [by left|]. right. destruct Hf as (n & off & E1 & Hn & Hl & E2).
      exists n, off. split; [destruct Hreads; lia|]. done.
  - rewrite (decode_app_bad _ _ _ Ed). apply Hp.
  - destruct Hp as (e & _ & Hb & [Hlt|(n & off & e2 & _ & _ & _ & _ & Hlt)]); lia.
Qed.

(** Entries that are not links. *)
Definition flat (o : Z) : Prop := o = 0 \/ Z.land o 16 <> 0 \/ Z.land o 64 <> 0.
Lemma means_flat type c o v : means type c o v -> flat o.
Proof.
  intros H. assert (Hext : forall e : nat, (e <= 13)%nat -> flat (16 + Z.of_nat e)).
  { intros e He. right. left. do 14 (destruct e as [|e]; [done|]). lia. }
  assert (Hinv : invalid_op o -> flat o) by (intros (_ & _ & _ & H64); right; by right). destruct type; cbn [means] in H.
  - destruct H as [-> _]. by left.
  - destruct (c <? 256)%nat; [destruct H as [-> _]; by left|]. destruct (c =? 256)%nat; [subst o; right; by right|].
    destruct (length_base !! _) as [[e b]|] eqn:E; [|auto]. destruct H as [-> _]. apply length_base_range in E as (? & _). apply Hext. lia.
  - destruct (dist_base !! c) as [[e b]|] eqn:E; [|auto]. destruct H as [-> _]. apply dist_base_range in E as (? & _). by apply Hext.
Qed.
Lemma flat_test o : flat o -> o <> 0 -> Z.land o 16 = 0 -> (Z.land o 64 =? 0) = false.
Proof. intros [|[|H]] H0 H16; [done|done|]. by apply Z.eqb_neq. Qed.

Lemma dolen_flat fuel o b v f :
  flat o -> fok f -> 0 <= b <= fbits f -> dolen fuel (mkCode o b v) f = dolen 0 (mkCode o 0 v) (drop_bits b f).
Proof.
  intros Ho Hok Hb. destruct (drop_bits_ok b f Hok Hb) as [Hok' _]. 
  assert (E : drop_bits (bits (mkCode o 0 v)) (drop_bits b f) = drop_bits (bits (mkCode o b v)) f) by (cbn; by apply drop_bits_0).
  destruct fuel; cbn [InflateFast.dolen op val]; rewrite E; destruct (Z.eqb_spec o 0) as [->|H0]; try done;
    destruct (Z.eqb_spec (Z.land o 16) 0) as [H16|H16]; cbn [negb]; try done; by rewrite (flat_test o).
Qed.
Lemma dodist_flat fuel len o b v f :
  flat o -> o <> 0 -> fok f -> 0 <= b <= fbits f -> dodist fuel len (mkCode o b v) f = dodist 0 len (mkCode o 0 v) (drop_bits b f).
Proof.
  intros Ho H0 Hok Hb. destruct (drop_bits_ok b f Hok Hb) as [Hok' _].
  assert (E : drop_bits (bits (mkCode o 0 v)) (drop_bits b f) = drop_bits (bits (mkCode o b v)) f) by (cbn; by apply drop_bits_0).
  destruct fuel; cbn [InflateFast.dodist op val]; rewrite E;
    destruct (Z.eqb_spec (Z.land o 16) 0) as [H16|H16]; cbn [negb]; try done; by rewrite (flat_test o).
Qed.
Lemma link_test n : 0 < n < 15 -> (n =? 0) = false /\ Z.land n 16 = 0 /\ Z.land n 64 = 0.
Proof.
  intros Hn. replace n with (Z.of_nat (Z.to_nat n)) by lia. assert (Hk : (0 < Z.to_nat n < 15)%nat) by lia. revert Hk. generalize (Z.to_nat n).
  intros k Hk. do 15 (destruct k as [|k]; [first [lia|done]|]). lia.
Qed.

Lemma dolen_link n root off f : 0 < n < 15 ->
  dolen 1 (mkCode n root off) f = (this ← tab lcode (off + low_of n (drop_bits root f)); dolen 0 this (drop_bits root f)).
Proof. intros Hn. destruct (link_test n Hn) as (E0 & E16 & E64). cbn [InflateFast.dolen op bits val]. by rewrite E0, E16, E64. Qed.
Lemma dodist_link len n root off f : 0 < n < 15 ->
  dodist 1 len (mkCode n root off) f = (this ← tab dcode (off + low_of n (drop_bits root f)); dodist 0 len this (drop_bits root f)).
Proof. intros Hn. destruct (link_test n Hn) as (E0 & E16 & E64). cbn [InflateFast.dodist op bits val]. by rewrite E16, E64. Qed.

(** Looking a code up, through a link or not. *)
Lemma dolen_code lits f :
  reads LENS lits (tab lcode) (lenbits (tabs s)) -> fok f -> 15 <= fbits f ->
  match decode lits (fstream f) with
  | Got c rest => exists o v, means LENS c o v /\ 1 <= code_length lits c <= 15 /\ rest = fstream (drop_bits (code_length lits c) f) /\
      (this ← tab lcode (Z.land (fhold f) lmask); dolen 1 this f) = dolen 0 (mkCode o 0 v) (drop_bits (code_length lits c) f)
  | Bad => (this ← tab lcode (Z.land (fhold f) lmask); dolen 1 this f) = Some (Ended BAD, drop_bits 1 f)
  | More => False
  end.
Proof.
  intros Hreads Hok H15. pose proof (fast_code _ _ _ _ f Hreads Hok H15) as H. assert (Hroot := rd_root _ _ _ _ Hreads). rewrite mask_low by lia.
  destruct (decode lits (fstream f)) as [c rest| |]; [|by rewrite H|done].
  destruct H as (o & v & Hm & Hcl & -> & Hor). exists o, v. split; [done|]. split; [done|]. split; [done|]. pose proof (means_flat _ _ _ _ Hm) as Hflat.
  destruct Hor as [->|(n & off & Hn & Hgt & -> & E2)]; rewrite bind_some; [apply dolen_flat; auto; lia|].
  rewrite dolen_link by done. unfold low_of. rewrite mask_low by lia. cbn [drop_bits fhold]. rewrite shiftr_div, E2, bind_some by lia.
  fold (drop_bits (lenbits (tabs s)) f).
  destruct (drop_bits_ok (lenbits (tabs s)) f Hok ltac:(lia)) as [Hok' _].
  rewrite dolen_flat; [|done|done|]. 2:{ cbn. pose proof (ro_bits _ (fo_regs _ Hok)) as Hb. cbn in Hb. rewrite u32_id by (unfold is_u32; lia). lia. }
  rewrite drop_bits_drop by (done || lia). do 2 f_equal. lia.
Qed.
Lemma dodist_code dists len f :
  reads DISTS dists (tab dcode) (distbits (tabs s)) -> fok f -> 15 <= fbits f ->
  match decode dists (fstream f) with
  | Got c rest => exists o v, means DISTS c o v /\ 1 <= code_length dists c <= 15 /\ rest = fstream (drop_bits (code_length dists c) f) /\
      (this ← tab dcode (Z.land (fhold f) dmask); dodist 1 len this f) = dodist 0 len (mkCode o 0 v) (drop_bits (code_length dists c) f)
  | Bad => (this ← tab dcode (Z.land (fhold f) dmask); dodist 1 len this f) = Some (Ended BAD, drop_bits 1 f)
  | More => False
  end.
Proof.
  intros Hreads Hok H15. pose proof (fast_code _ _ _ _ f Hreads Hok H15) as H. assert (Hroot := rd_root _ _ _ _ Hreads). rewrite mask_low by lia.
  destruct (decode dists (fstream f)) as [c rest| |]; [|by rewrite H|done].
  destruct H as (o & v & Hm & Hcl & -> & Hor). exists o, v. split; [done|]. split; [done|]. split; [done|]. pose proof (means_flat _ _ _ _ Hm) as Hflat.
  assert (H0 : o <> 0) by (apply means_not_link in Hm as [[_ ?]|[? _]]; [done|lia]).
  destruct Hor as [->|(n & off & Hn & Hgt & -> & E2)]; rewrite bind_some; [apply dodist_flat; auto; lia|].
  rewrite dodist_link by done. unfold low_of. rewrite mask_low by lia. cbn [drop_bits fhold]. rewrite shiftr_div, E2, bind_some by lia.
  fold (drop_bits (distbits (tabs s)) f). destruct (drop_bits_ok (distbits (tabs s)) f Hok ltac:(lia)) as [Hok' _].
  rewrite dodist_flat; [|done|done|done|]. 2:{ cbn. pose proof (ro_bits _ (fo_regs _ Hok)) as Hb. cbn in Hb. rewrite u32_id by (unfold is_u32; lia). lia. }
  rewrite drop_bits_drop by (done || lia). do 2 f_equal. lia.
Qed.

(** ** Items *)

Context (h0 p0 : list Z) (Hfit : win_fits w) (Hholds : win_holds w h0).
(** The output is the end of the history. *)
Definition outputs (f : fregs) (h : list Z) : Prop :=
  exists new, fput f = p0 ++ new /\ h = h0 ++ new /\ start - fleft f = Z.of_nat (length new).

(** From [f], with what has been written and the rest of the stream. *)
Record reaches (f f' : fregs) (rest : list bool) (bytes : list Z) : Prop := {
  rc_ok : fok f';
  rc_stream : fstream f' = rest;
  rc_suffix : fstream f' `suffix_of` fstream f;
  rc_put : fput f' = fput f ++ bytes;
  rc_left : fleft f' = fleft f - Z.of_nat (length bytes)
}.
(** What a round does, for the item that the specification reads. *)
Definition does (f : fregs) (h : list Z) (r : read item) (res : option (fexit * fregs)) : Prop :=
  match r with
  | Got (Literal b) rest => exists f', res = Some (Continue, f') /\ reaches f f' rest [b]
  | Got EndOfBlock rest => exists f', res = Some (Ended TYPE, f') /\ reaches f f' rest []
  | Got (Match len d) rest =>
      if Z.of_nat (length h) <? d then exists f', res = Some (Ended BAD, f') /\ reaches f f' rest []
      else exists f' bytes, res = Some (Continue, f') /\ reaches f f' rest bytes /\
             copy_match (Z.to_nat len) (Z.to_nat d) h = h ++ bytes /\ Z.of_nat (length bytes) = len
  | Bad => exists f' rest, res = Some (Ended BAD, f') /\ reaches f f' rest []
  | More => False
  end.

Lemma reaches_from f f1 f' rest bytes :
  fput f1 = fput f -> fleft f1 = fleft f -> fstream f1 `suffix_of` fstream f -> reaches f1 f' rest bytes -> reaches f f' rest bytes.
Proof. intros E1 E2 Hs [H1 H2 H3 H4 H5]. split; [done|done|by etrans|congruence|congruence]. Qed.
Lemma does_from f f1 h r res :
  fput f1 = fput f -> fleft f1 = fleft f -> fstream f1 `suffix_of` fstream f -> does f1 h r res -> does f h r res.
Proof.
  intros E1 E2 Hs. pose proof (fun f' rest bytes => reaches_from f f1 f' rest bytes E1 E2 Hs) as Hf. unfold does.
  destruct r as [[b|len d|] rest| |]; [| |..].
  - intros (f' & ? & ?). eauto.
  - destruct (_ <? d); [intros (f' & ? & ?); eauto|]. intros (f' & bytes & ? & ? & ?). eauto 6.
  - intros (f' & ? & ?). eauto.
  - intros (f' & rest & ? & ?). eauto.
  - done.
Qed.
Lemma reaches_self f : fok f -> reaches f f (fstream f) [].
Proof. intros H. split; auto; [by rewrite app_nil_r|cbn; lia]. Qed.

Lemma copy_string_ok len d f h :
  fok f -> outputs f h -> 3 <= len <= 258 -> len <= fleft f -> 1 <= d <= 32768 -> does f h (Got (Match len d) (fstream f)) (copy_string w start base prev len d f).
Proof.
  intros Hok (new & Ep & -> & En) Hlen Hleft Hd. unfold copy_string, does. rewrite En.
  assert (Hgood : forall bytes, copies len d (h0 ++ new) f (wrote bytes f) -> reaches f (wrote bytes f) (fstream f) bytes /\
    copy_match (Z.to_nat len) (Z.to_nat d) (h0 ++ new) = (h0 ++ new) ++ bytes /\ Z.of_nat (length bytes) = len).
  { intros bytes (b & E & Hl & Eb). injection Eb as Eb _. apply app_inv_head in Eb. subst b. split; [|done].
    assert (Hreg : fok (wrote bytes f)) by (destruct Hok as [? []]; split; [done|split; cbn in *; auto; lia]). split; done. }
  destruct (Z.ltb_spec (Z.of_nat (length new)) d) as [Hlt|Hge].
  - assert (Ereach : (whave w <? d - Z.of_nat (length new)) = (Z.of_nat (length (h0 ++ new)) <? d)).
    { rewrite length_app. destruct Hholds as [Eh Hnone _]. destruct Hfit as [_ Hs _ _ _ _].
      assert (Hz : wsize w = 0 -> length h0 = 0%nat) by (intros E; by rewrite Hnone).
      destruct Hs as [Hs|Hs]; [|specialize (Hz Hs)]; split_bool; lia. }
    rewrite Ereach. destruct (Z.ltb_spec (Z.of_nat (length (h0 ++ new))) d).
    + exists f. split; [done|]. by apply reaches_self.
    + apply Z.ltb_ge in Ereach.
      destruct (copy_window_ok w h0 p0 d Hfit Hholds ltac:(lia) _ len new f Ep eq_refl ltac:(lia) ltac:(lia)) as (bytes & -> & Hc).
      rewrite bind_some. destruct (Hgood bytes Hc) as (H1 & H2 & H3). eauto 6.
  - rewrite (proj2 (Z.ltb_ge _ _)) by (rewrite length_app; lia).
    destruct (copy_output_ok w base prev len d p0 h0 new f Hprev Ep ltac:(lia) ltac:(lia)) as (bytes & -> & Hc).
    rewrite bind_some. destruct (Hgood bytes Hc) as (H1 & H2 & H3). eauto 6.
Qed.

Lemma outputs_same f f1 h : fput f1 = fput f -> fleft f1 = fleft f -> outputs f h -> outputs f1 h.
Proof. unfold outputs. by intros -> ->. Qed.
Lemma drop_bits_suffix n f : fok f -> 0 <= n <= fbits f -> fstream (drop_bits n f) `suffix_of` fstream f.
Proof. intros Hok Hn. rewrite drop_bits_stream by done. apply suffix_drop. Qed.
Lemma fills_suffix f f1 : fills f f1 -> fstream f1 `suffix_of` fstream f.
Proof. intros H. by rewrite (fl_stream _ _ H). Qed.

(** Bits beyond a code. *)
Lemma pull_one e f :
  fok f -> 0 <= e <= 8 -> e <= Z.of_nat (length (fstream f)) ->
  exists f', (if fbits f <? e then pup_in inp f else Some f) = Some f' /\ fills f f' /\ e <= fbits f'.
Proof.
  intros Hok He Hl. pose proof (ro_bits _ (fo_regs _ Hok)) as Hb. cbn in Hb. destruct (Z.ltb_spec (fbits f) e).
  - destruct (pup_in_ok f Hok ltac:(lia) ltac:(lia)) as (f' & -> & Hf & Eb). exists f'. split; [done|]. split; [done|lia].
  - exists f. split; [done|]. split; [by apply fills_refl|done].
Qed.
Lemma pull_two e f :
  fok f -> 0 <= e <= 13 -> e <= Z.of_nat (length (fstream f)) ->
  exists f', (if fbits f <? e then r ← pup_in inp f; if fbits r <? e then pup_in inp r else Some r else Some f) = Some f' /\ fills f f' /\ e <= fbits f'.
Proof.
  intros Hok He Hl. pose proof (ro_bits _ (fo_regs _ Hok)) as Hb. cbn in Hb. destruct (Z.ltb_spec (fbits f) e).
  - destruct (pup_in_ok f Hok ltac:(lia) ltac:(lia)) as (f1 & -> & Hf & Eb). rewrite bind_some. destruct (Z.ltb_spec (fbits f1) e).
    + destruct (pup_in_ok f1 (fl_ok _ _ Hf) ltac:(lia)) as (f2 & -> & Hf2 & Eb2); [rewrite (fl_stream _ _ Hf); lia|].
      exists f2. split; [done|]. split; [by eapply fills_trans|lia].
    + exists f1. done.
  - exists f. split; [done|]. split; [by apply fills_refl|done].
Qed.
Lemma extra_fast e b f :
  fok f -> Z.of_nat e <= fbits f ->
  get_extra e b (fstream f) = Got (b + low_of (Z.of_nat e) f) (fstream (drop_bits (Z.of_nat e) f)).
Proof.
  intros Hok He. unfold get_extra, low_of. rewrite mask_low, fhold_stream, drop_bits_stream, Nat2Z.id by (done || lia).
  pose proof (length_stream _ (fo_regs _ Hok)) as Hl. cbn in Hl. rewrite getbits_ok by (unfold fstream; lia). done.
Qed.
Lemma extra_op16 e : (e <= 13)%nat -> (Z.land (16 + Z.of_nat e) 16 =? 0) = false.
Proof. intros He. do 14 (destruct e as [|e]; [done|]). lia. Qed.

Lemma dodist_leaf len d e f h :
  fok f -> outputs f h -> 3 <= len <= 258 -> len <= fleft f -> (e <= 13)%nat -> 1 <= d -> d + 2 ^ Z.of_nat e <= 32769 -> 13 <= Z.of_nat (length (fstream f)) ->
  does f h (rbind (get_extra e d (fstream f)) (fun x bs => Got (Match len x) bs)) (dodist 0 len (mkCode (16 + Z.of_nat e) 0 d) f).
Proof.
  intros Hok Hout Hlen Hleft He Hd Hde Hl. cbn [InflateFast.dodist op bits val]. rewrite drop_bits_0, extra_op16 by done.
  destruct (extra_op e He) as (_ & _ & E15). rewrite E15. cbn [negb].
  destruct (pull_two (Z.of_nat e) f Hok ltac:(lia) ltac:(lia)) as (f1 & -> & Hf1 & Hb1). rewrite bind_some.
  rewrite <- (fl_stream _ _ Hf1), extra_fast by (apply Hf1 || done). cbn [rbind].
  destruct (drop_bits_ok (Z.of_nat e) f1 (fl_ok _ _ Hf1) ltac:(lia)) as [Hok2 _]. destruct (fl_out _ _ Hf1) as [Ep El].
  apply (does_from _ (drop_bits (Z.of_nat e) f1)); [done|done|rewrite <- (fl_stream _ _ Hf1); apply drop_bits_suffix; [apply Hf1|lia]|].
  unfold low_of. rewrite mask_low by lia. pose proof (Z.mod_pos_bound (fhold f1) (2 ^ Z.of_nat e) ltac:(lia)).
  apply copy_string_ok; [done|by apply (outputs_same f)|done|cbn; lia|lia].
Qed.

Lemma dodist_ok dists len f h :
  reads DISTS dists (tab dcode) (distbits (tabs s)) -> fok f -> 15 <= fbits f -> 28 <= Z.of_nat (length (fstream f)) ->
  outputs f h -> 3 <= len <= 258 -> len <= fleft f ->
  does f h (read_dist dists len (fstream f)) (this ← tab dcode (Z.land (fhold f) dmask); dodist 1 len this f).
Proof.
  intros Hreads Hok H15 H28 Hout Hlen Hleft. pose proof (dodist_code dists len f Hreads Hok H15) as H. unfold read_dist.
  destruct (decode dists (fstream f)) as [c rest| |]; cbn [rbind]; [|rewrite H|done].
  2:{ destruct (drop_bits_ok 1 f Hok ltac:(lia)) as [Hok1 _]. do 2 eexists. split; [done|].
      apply (reaches_from _ (drop_bits 1 f)); [done|done|apply drop_bits_suffix; [done|lia]|by apply reaches_self]. }
  destruct H as (o & v & Hm & Hcl & -> & ->). set (f1 := drop_bits (code_length dists c) f).
  destruct (drop_bits_ok (code_length dists c) f Hok ltac:(lia)) as [Hok1 _]. fold f1 in Hok1.
  assert (Hs1 : fstream f1 `suffix_of` fstream f) by (apply drop_bits_suffix; [done|lia]).
  apply (does_from _ f1); [done|done|done|]. cbn [means] in Hm. destruct (dist_base !! c) as [[e b]|] eqn:Ec.
  - destruct Hm as [-> ->]. destruct (dist_base_range _ _ _ Ec) as (He & Hb & Hbe). apply dodist_leaf; auto.
    unfold f1. rewrite drop_bits_stream, length_drop by (done || lia). lia.
  - destruct Hm as (_ & H16 & _ & H64). cbn [InflateFast.dodist op bits val]. rewrite drop_bits_0, H16 by done. cbn [negb Z.eqb].
    apply Z.eqb_neq in H64. rewrite H64. do 2 eexists. split; [done|]. by apply reaches_self.
Qed.

(** After the code for a literal or a length. *)
Lemma dolen_leaf dists c o v f h :
  reads DISTS dists (tab dcode) (distbits (tabs s)) -> means LENS c o v -> fok f -> 33 <= Z.of_nat (length (fstream f)) ->
  outputs f h -> 258 <= fleft f ->
  does f h (if (c <? 256)%nat then Got (Literal (Z.of_nat c)) (fstream f)
            else if (c =? 256)%nat then Got EndOfBlock (fstream f)
            else match length_base !! (c - 257)%nat with
                 | None => Bad
                 | Some (e, b) => rbind (get_extra e b (fstream f)) (fun len bs => read_dist dists len bs)
                 end) (dolen 0 (mkCode o 0 v) f).
Proof.
  intros Hdists Hm Hok H33 Hout Hleft. cbn [means] in Hm. cbn [InflateFast.dolen op bits val]. rewrite drop_bits_0 by done.
  destruct (c <? 256)%nat eqn:Ec; [|destruct (c =? 256)%nat eqn:Ec2; [|destruct (length_base !! (c - 257)%nat) as [[e b]|] eqn:El]].
  - destruct Hm as [-> ->]. apply Nat.ltb_lt in Ec. cbn [Z.eqb]. rewrite u8_id by (unfold is_u8; lia). eexists. split; [done|].
    assert (fok (emit (Z.of_nat c) f)) by (destruct Hok as [? []]; split; [done|split; cbn in *; auto; lia]). split; done.
  - subst o. change (96 =? 0) with false. change (Z.land 96 16 =? 0) with true. change (Z.land 96 64 =? 0) with false. change (Z.land 96 32 =? 0) with false.
    cbn [negb]. eexists. split; [done|]. by apply reaches_self.
  - destruct Hm as [-> ->]. destruct (length_base_range _ _ _ El) as (He & Hb3 & Hbe). destruct (extra_op e ltac:(lia)) as (_ & _ & E15).
    rewrite (proj2 (Z.eqb_neq (16 + Z.of_nat e) 0)), extra_op16, E15 by lia. cbn [negb].
    assert (Hx : exists f1, fills f f1 /\ Z.of_nat e <= fbits f1 /\
      (if Z.of_nat e =? 0 then Some (b, f) else r ← (if fbits f <? Z.of_nat e then pup_in inp f else Some f); Some (b + low_of (Z.of_nat e) r, drop_bits (Z.of_nat e) r)) =
      Some (b + low_of (Z.of_nat e) f1, drop_bits (Z.of_nat e) f1)).
    { destruct (pull_one (Z.of_nat e) f Hok ltac:(lia) ltac:(lia)) as (f1 & E1 & Hf1 & Hb1). destruct (Z.eqb_spec (Z.of_nat e) 0) as [E0|].
      - rewrite E0 in *. exists f. split; [by apply fills_refl|]. pose proof (ro_bits _ (fo_regs _ Hok)) as Hb. cbn in Hb. split; [lia|].
        unfold low_of. rewrite mask_low, drop_bits_0, Z.mod_1_r, Z.add_0_r by (done || lia). done.
      - exists f1. rewrite E1, bind_some. done. }
    destruct Hx as (f1 & Hf1 & Hb1 & ->). rewrite bind_some. cbv beta iota. pose proof (fl_ok _ _ Hf1) as Hok1. destruct (fl_out _ _ Hf1) as [Ep Ef].
    rewrite <- (fl_stream _ _ Hf1), extra_fast by done. cbn [rbind]. destruct (drop_bits_ok (Z.of_nat e) f1 Hok1 ltac:(lia)) as [Hok2 _].
    assert (Hs2 : fstream (drop_bits (Z.of_nat e) f1) `suffix_of` fstream f) by (rewrite <- (fl_stream _ _ Hf1); apply drop_bits_suffix; [done|lia]).
    assert (Hl2 : 28 <= Z.of_nat (length (fstream (drop_bits (Z.of_nat e) f1)))).
    { rewrite drop_bits_stream, length_drop, (fl_stream _ _ Hf1) by (done || lia). lia. }
    set (f2 := drop_bits (Z.of_nat e) f1) in *. destruct (refill_ok f2 Hok2 ltac:(lia)) as (f3 & -> & Hf3 & H15). rewrite bind_some.
    destruct (fl_out _ _ Hf3) as [Ep3 Ef3]. rewrite <- (fl_stream _ _ Hf3). apply (does_from _ f3).
    + rewrite Ep3. exact Ep.
    + rewrite Ef3. exact Ef.
    + rewrite (fl_stream _ _ Hf3). done.
    + unfold low_of. rewrite mask_low by lia. pose proof (Z.mod_pos_bound (fhold f1) (2 ^ Z.of_nat e) ltac:(lia)).
      apply dodist_ok; auto; [apply Hf3|by rewrite (fl_stream _ _ Hf3)| |lia|rewrite Ef3; cbn; lia].
      apply (outputs_same f); [rewrite Ep3; exact Ep|rewrite Ef3; exact Ef|done].
  - destruct Hm as (_ & H16 & H32 & H64). rewrite (proj2 (Z.eqb_neq o 0)) by (intros E; by rewrite E in H64).
    rewrite H16, H32. apply Z.eqb_neq in H64. rewrite H64. cbn [negb Z.eqb]. do 2 eexists. split; [done|]. by apply reaches_self.
Qed.

Lemma does_suffix f h r e f' : does f h r (Some (e, f')) -> fstream f' `suffix_of` fstream f.
Proof.
  unfold does. destruct r as [[b|len d|] rest| |].
  - intros (f1 & E & H). injection E as -> <-. apply H.
  - destruct (_ <? d); [intros (f1 & E & H)|intros (f1 & bytes & E & H & _)]; injection E as -> <-; apply H.
  - intros (f1 & E & H). injection E as -> <-. apply H.
  - intros (f1 & rest & E & H). injection E as -> <-. apply H.
  - done.
Qed.

Context (lits dists : list Z).
Context (Hlits : reads LENS lits (tab lcode) (lenbits (tabs s))) (Hdists : reads DISTS dists (tab dcode) (distbits (tabs s))).

(** A round: the item is read, and more bits are taken than those that were not yet a code. *)
Lemma fast_body_ok f h :
  fok f -> 48 <= Z.of_nat (length (fstream f)) -> outputs f h -> 258 <= fleft f ->
  does f h (read_item lits dists (fstream f)) (fast_body f) /\
  forall e f' p, fast_body f = Some (e, f') -> p `prefix_of` fstream f -> decode lits p = More -> p <> [] ->
    (length (fstream f') + length p < length (fstream f))%nat.
Proof.
  intros Hok H48 Hout Hleft. unfold InflateFast.fast_body. destruct (refill_ok f Hok ltac:(lia)) as (f1 & -> & Hf1 & H15). rewrite bind_some.
  pose proof (fl_ok _ _ Hf1) as Hok1. destruct (fl_out _ _ Hf1) as [Ep Ef]. destruct (acc_range _ _ _ _ _ Hlits) as (Hacc & Hrg & Hbig).
  pose proof (dolen_code lits f1 Hlits Hok1 H15) as H. rewrite (fl_stream _ _ Hf1) in H. unfold read_item.
  destruct (decode lits (fstream f)) as [c rest| |] eqn:Ed; cbn [rbind]; [|rewrite H|done].
  2:{ split.
      - destruct (drop_bits_ok 1 f1 Hok1 ltac:(lia)) as [Hok2 _]. do 2 eexists. split; [done|].
        apply (reaches_from _ (drop_bits 1 f1)); [done|done|rewrite <- (fl_stream _ _ Hf1); apply drop_bits_suffix; [done|lia]|by apply reaches_self].
      - intros e f' p _ _ Hm Hne. by apply (more_not_bad _ _ Hacc Hrg Hbig p (fstream f)) in Hm. }
  destruct H as (o & v & Hm & Hcl & -> & ->). set (f2 := drop_bits (code_length lits c) f1) in *.
  destruct (drop_bits_ok (code_length lits c) f1 Hok1 ltac:(lia)) as [Hok2 _]. fold f2 in Hok2.
  assert (Hs2 : fstream f2 `suffix_of` fstream f) by (rewrite <- (fl_stream _ _ Hf1); apply drop_bits_suffix; [done|lia]).
  assert (El : length (fstream f2) = (length (fstream f) - Z.to_nat (code_length lits c))%nat).
  { unfold f2. rewrite drop_bits_stream, length_drop, (fl_stream _ _ Hf1) by (done || lia). done. }
  pose proof (dolen_leaf dists c o v f2 h Hdists Hm Hok2 ltac:(lia) (outputs_same f f2 h Ep Ef Hout) ltac:(cbn; lia)) as Hdoes.
  split; [by apply (does_from _ f2)|]. intros e f' p E Hp Hmore Hne. rewrite E in Hdoes. apply does_suffix, suffix_length in Hdoes.
  pose proof (got_longer _ _ _ _ _ Hlits _ _ _ _ Hp Hmore Ed). lia.
Qed.

(** ** The loop *)

Context (zlib last : bool).
Abbreviation res := (result zlib 15).

(** What is to come after a round. *)
Definition resumes (e : fexit) (bs : list bool) (h : list Z) : verdict * list Z :=
  match e with
  | Continue => res (mkConf last (Codes lits dists) bs h)
  | Ended TYPE => res (mkConf last Header bs h)
  | Ended _ => (Invalid, h)
  end.
Record progress (f : fregs) (h : list Z) (e : fexit) (f' : fregs) (h' : list Z) : Prop := {
  pg_ok : fok f';
  pg_out : outputs f' h';
  pg_bytes : Forall is_u8 h';
  pg_suffix : fstream f' `suffix_of` fstream f;
  pg_left : fleft f' <= fleft f;
  pg_exit : (e = Continue \/ e = Ended TYPE) /\ (length (fstream f') < length (fstream f))%nat \/ e = Ended BAD;
  pg_used : forall p, p `prefix_of` fstream f -> decode lits p = More -> p <> [] -> (length (fstream f') + length p < length (fstream f))%nat;
  pg_res : forall F, res (mkConf last (Codes lits dists) (fstream f ++ F) h) = resumes e (fstream f' ++ F) h'
}.

Lemma outputs_wrote f f' h rest bytes : outputs f h -> reaches f f' rest bytes -> outputs f' (h ++ bytes).
Proof.
  intros (new & Ep & -> & En) [_ _ _ Ep' El']. exists (new ++ bytes). rewrite Ep', Ep, length_app, !app_assoc. split; [done|]. split; [done|]. lia.
Qed.

Lemma fast_round f h :
  fok f -> 48 <= Z.of_nat (length (fstream f)) -> outputs f h -> 258 <= fleft f -> Forall is_u8 h ->
  exists e f' h', fast_body f = Some (e, f') /\ progress f h e f' h'.
Proof.
  intros Hok H48 Hout Hleft Hu. destruct (fast_body_ok f h Hok H48 Hout Hleft) as [Hdoes Hused].
  destruct (acc_range _ _ _ _ _ Hlits) as (Hacc & Hrg & Hbig). destruct (acc_range _ _ _ _ _ Hdists) as (Hacc2 & Hrg2 & Hbig2).
  assert (Hres : forall F, res (mkConf last (Codes lits dists) (fstream f ++ F) h) =
    fin zlib 15 h (after (read_item lits dists (fstream f ++ F)) (step_item last lits dists h))) by (intros F; by rewrite result_step).
  pose proof (fun F => read_item_app lits dists Hacc Hrg Hbig Hacc2 Hrg2 Hbig2 (fstream f) F) as Happ.
  pose proof (takes_read_item lits dists (fstream f)) as Htakes. pose proof (read_item_small lits dists (fstream f)) as Hsmall.
  destruct (read_item lits dists (fstream f)) as [[b|len d|] rest| |]; cbn [does takes] in Hdoes, Htakes.
  - destruct Hdoes as (f' & E & H). pose proof H as [H1 H2 H3 H4 H5]. exists Continue, f', (h ++ [b]). split; [done|].
    split; [done|by eapply outputs_wrote| |done|lia|left; split; [by left|rewrite H2; lia]|intros p; by apply (Hused _ f' p E)|].
    + apply Forall_app. split; [done|]. by constructor.
    + intros F. rewrite Hres, Happ, H2. done.
  - destruct (Z.of_nat (length h) <? d) eqn:El.
    + destruct Hdoes as (f' & E & H). pose proof H as [H1 H2 H3 H4 H5]. exists (Ended BAD), f', h. split; [done|].
      split; [done| |done|done|cbn in H5; lia|by right|intros p; by apply (Hused _ f' p E)|].
      * pose proof (outputs_wrote _ _ _ _ _ Hout H) as Ho. by rewrite app_nil_r in Ho.
      * intros F. rewrite Hres, Happ. cbn. unfold step_match. by rewrite El.
    + destruct Hdoes as (f' & bytes & E & H & Ec & Hlen). pose proof H as [H1 H2 H3 H4 H5]. exists Continue, f', (h ++ bytes). split; [done|].
      split; [done|by eapply outputs_wrote| |done|lia|left; split; [by left|rewrite H2; lia]|intros p; by apply (Hused _ f' p E)|].
      * rewrite <- Ec. by apply copy_match_bytes.
      * intros F. rewrite Hres, Happ. cbn. unfold step_match. rewrite El, H2, Ec. done.
  - destruct Hdoes as (f' & E & H). pose proof H as [H1 H2 H3 H4 H5]. exists (Ended TYPE), f', h. split; [done|].
    split; [done| |done|done|cbn in H5; lia|left; split; [by right|rewrite H2; lia]|intros p; by apply (Hused _ f' p E)|].
    + pose proof (outputs_wrote _ _ _ _ _ Hout H) as Ho. by rewrite app_nil_r in Ho.
    + intros F. rewrite Hres, Happ, H2. done.
  - destruct Hdoes as (f' & rest & E & H). pose proof H as [H1 H2 H3 H4 H5]. exists (Ended BAD), f', h. split; [done|].
    split; [done| |done|done|cbn in H5; lia|by right|intros p; by apply (Hused _ f' p E)|].
    + pose proof (outputs_wrote _ _ _ _ _ Hout H) as Ho. by rewrite app_nil_r in Ho.
    + intros F. rewrite Hres, Happ. done.
  - done.
Qed.

Lemma fast_loop_ok fuel f h :
  (length (fstream f) < fuel)%nat -> fok f -> 48 <= Z.of_nat (length (fstream f)) -> outputs f h -> 258 <= fleft f -> Forall is_u8 h ->
  exists e f' h', fast_loop inp w tab lcode dcode lmask dmask start base prev fuel f = Some (e, f') /\ progress f h e f' h'.
Proof.
  revert f h. induction fuel as [|fuel IH]; intros f h Hf Hok H48 Hout Hleft Hu; [lia|]. cbn [fast_loop].
  destruct (fast_round f h Hok H48 Hout Hleft Hu) as (e & f1 & h1 & -> & Hp). rewrite bind_some. cbv beta iota.
  destruct e as [|m]; [|by do 3 eexists]. destruct (enough inp f1) eqn:En; [|by do 3 eexists].
  pose proof Hp as [P1 P2 P3 P4 P5 P6 P7 P8]. destruct P6 as [[_ Hlt]|]; [|done].
  apply andb_prop in En as [Hi Hl]. apply Z.ltb_lt in Hi, Hl.
  assert (H48' : 48 <= Z.of_nat (length (fstream f1))).
  { unfold fstream. rewrite length_stream by apply P1. cbn. rewrite length_drop. pose proof (ro_bits _ (fo_regs _ P1)) as Hb. cbn in Hb.
    pose proof (fo_ip _ P1). lia. }
  destruct (IH f1 h1 ltac:(lia) P1 H48' P2 ltac:(lia) P3) as (e' & f2 & h2 & -> & [Q1 Q2 Q3 Q4 Q5 Q6 Q7 Q8]).
  exists e', f2, h2. split; [done|]. apply suffix_length in Q4 as Hle. split; auto; [by etrans|lia| | |].
  - destruct Q6 as [[? ?]|?]; [left; split; [done|lia]|by right].
  - intros p Hpre Hm Hne. specialize (P7 p Hpre Hm Hne). lia.
  - intros F. rewrite P8. cbn [resumes]. apply Q8.
Qed.

(** ** Giving bytes back *)

Lemma suffix_same (a b l : list bool) : a `suffix_of` l -> b `suffix_of` l -> length a = length b -> a = b.
Proof. intros [k1 ->] [k2 E] Hl. by apply app_inj_2 in E as [_ ->]. Qed.
Lemma bits_suffix n l : bits_of_bytes (drop n l) `suffix_of` bits_of_bytes l.
Proof. exists (bits_of_bytes (take n l)). by rewrite <- bits_of_bytes_app, take_drop. Qed.

Lemma unread_ok f f0 :
  fok f -> ip f0 = 0 -> fok f0 -> fstream f `suffix_of` fstream f0 ->
  fbits f0 < 8 \/ (length (fstream f) + Z.to_nat (fbits f0) < length (fstream f0))%nat ->
  let u := unread f in
  0 <= ip u /\ reg_ok (as_regs u) /\ stream (as_regs u) = fstream f /\ fbits u < 8 /\ fput u = fput f /\ fleft u = fleft f.
Proof.
  intros [Hip Hr] E0 [_ Hr0] Hsuf Hor. pose proof (ro_bits _ Hr) as Hb. pose proof (ro_hold _ Hr) as Hh. pose proof (ro_bits _ Hr0) as Hb0. cbn in Hb, Hh, Hb0.
  pose proof (suffix_length _ _ Hsuf) as Hle. pose proof (length_stream _ Hr) as Hl. pose proof (length_stream _ Hr0) as Hl0.
  unfold fstream in Hle, Hor. cbn [as_regs next bits_] in Hl, Hl0. rewrite length_drop in Hl, Hl0. rewrite E0 in Hl0. cbn [Z.to_nat] in Hl0.
  unfold unread. rewrite (shiftr_div _ 3) by lia. change (2 ^ 3) with 8. set (len := fbits f / 8). rewrite (shiftl_mul len) by lia. change (2 ^ 3) with 8.
  assert (Hlen : 0 <= len <= ip f) by (unfold len; zlia). set (b := fbits f - len * 8). assert (Hb8 : 0 <= b < 8) by (unfold b, len; zlia).
  cbv zeta. rewrite mask_low by lia.
  cbn [ip fput fleft fbits]. split; [lia|].
  assert (Hok : reg_ok (as_regs (mkF (ip f - len) (fput f) (fleft f) (fhold f `mod` 2 ^ b) b))).
  { pose proof Hr as [_ _ Hnx Hlf]. pose proof Hr0 as [_ _ Hnx0 _]. cbn in Hnx0. rewrite E0 in Hnx0. cbn in Hnx0.
    split; cbn; [lia|apply Z.mod_pos_bound; lia|by apply Forall_drop|done]. }
  split; [done|]. split; [|split; [lia|done]].
  assert (Hdrop : drop (Z.to_nat b) (fstream f) = bits_of_bytes (drop (Z.to_nat (ip f - len)) inp)).
  { apply (suffix_same _ _ (fstream f0)).
    - transitivity (fstream f); [apply suffix_drop|exact Hsuf].
    - transitivity (bits_of_bytes inp); [apply bits_suffix|]. unfold fstream, stream. cbn [as_regs next]. rewrite E0. by eexists.
    - rewrite length_drop, length_bits_of_bytes, length_drop. unfold fstream. lia. }
  unfold stream. cbn [as_regs next ip]. rewrite <- Hdrop. rewrite <- (take_drop (Z.to_nat b) (fstream f)) at 2. f_equal.
  apply lsb_inj.
  - unfold held. cbn [bits_ as_regs fbits]. rewrite length_to_lsb, length_take_le; [done|]. unfold fstream. lia.
  - rewrite lsb_held by done. cbn [as_regs hold fhold]. rewrite lsb_take, Z2Nat.id by lia. apply (hold_stream b (as_regs f) Hr). cbn. unfold b. lia.
Qed.
End fast.
