(* ===== verification/InflateDynamic.v ===== *)
(** * Blocks with codes

    Literals and lengths, by either decoder, and the codes of a dynamic block. *)

From Stdlib Require Import ZArith Lia Bool.
From stdpp Require Import base numbers list option.
From S2P Require Import Prelude Deflate InfTrees Canon InfTreesProofs InfTreesTheorems DeflateProofs InflateState InflateFast Inflate InflateTables InflateMonad InflateCodes InflateSim InflateBlocks InflateMatch InflateFastCopy InflateFastProofs.
Open Scope Z_scope.

Section dynamic.
Context (zlib : bool) (h0 : list Z) (p0 : outbuf) (R : list Z -> verdict * list Z) (flush base : Z) (prev : option Z).
Context (Hprev : before_ok base prev).

Abbreviation frame := (frame zlib h0 p0).
Abbreviation pending := (pending zlib R).
Abbreviation sim := (sim zlib h0 p0 R).
Abbreviation on := (on zlib h0 p0 R).
Abbreviation exits := (exits zlib h0 p0 R flush).

(** ** The fast decoder *)

Lemma frame_outputs l h r new :
  frame l h -> before_check (mode (st l)) = true -> reg_ok r -> put r = p0 ++ new -> out l - left r = Z.of_nat (length new) ->
  Forall is_u8 (h0 ++ new) -> frame (with_rg r l) (h0 ++ new).
Proof.
  intros [F1 (old & P1 & P2 & P3 & P4) F3 F4 F5 F6 F7 F8 F9 F10 F11 F12 F13 F14] Hb Hr Ep El Hu. specialize (P4 Hb).
  assert (Eu : unsummed (with_rg r l) = Z.of_nat (length new)) by exact El. subst h. rewrite length_app in F12, F13.
  split; cbn [with_rg st rg out l_total]; auto.
  - exists new. rewrite Eu. split; [done|]. split; [done|]. split; [lia|done].
  - intros Hz Hs. rewrite (F12 Hz Hs), Eu, P4, length_app, !Nat2Z.id, !Nat.add_sub, !take_app_length. done.
  - rewrite F13, Eu, P4, length_app. f_equal. lia.
  - rewrite Ep. unfold unsummed in P4. rewrite P1 in F14. rewrite !length_app in *. lia.
Qed.

Lemma fast_call l h lits dists :
  mode (st l) = LEN -> frame l h -> tables_read (st l) lits dists -> bits_ (rg l) < 8 \/ decode lits (held (rg l)) = More ->
  6 <= Z.of_nat (length (next (rg l))) -> 258 <= left (rg l) ->
  exists e r h', inflate_fast (tab_at (st l)) base prev (out l) (st l) (rg l) =
      Some (match e with Ended m => set_mode m (st l) | Continue => st l end, r) /\
    frame (with_rg r l) h' /\ bits_ r < 8 /\ left r <= left (rg l) /\
    ((e = Continue \/ e = Ended TYPE) /\ (length (stream r) < length (stream (rg l)))%nat \/
     e = Ended BAD /\ (length (stream r) <= length (stream (rg l)))%nat) /\
    forall F, result zlib 15 (mkConf (islast (st l)) (Codes lits dists) (stream (rg l) ++ F) h) = resumes lits dists zlib (islast (st l)) e (stream r ++ F) h'.
Proof.
  intros Em Hf [Htl Htd] Hb H6 H258. pose proof (fr_regs _ _ _ _ _ Hf) as Hr. pose proof (fr_put _ _ _ _ _ Hf) as (new & P1 & P2 & _ & P4).
  assert (Hbc : before_check (mode (st l)) = true) by (by rewrite Em). specialize (P4 Hbc).
  set (f0 := mkF 0 (put (rg l)) (left (rg l)) (hold (rg l)) (bits_ (rg l))).
  assert (Er : as_regs (next (rg l)) f0 = rg l) by (unfold as_regs, f0; cbn; by destruct (rg l)).
  assert (Hok0 : fok (next (rg l)) f0) by (split; [cbn; lia|by rewrite Er]).
  assert (Es : fstream (next (rg l)) f0 = stream (rg l)) by (unfold fstream; by rewrite Er).
  pose proof (length_stream _ Hr) as Hlen. pose proof (ro_bits _ Hr) as Hbits.
  destruct (fast_loop_ok (next (rg l)) (st l) base prev (out l) Hprev h0 p0 (fr_fits _ _ _ _ _ Hf) (fr_holds _ _ _ _ _ Hf Hbc)
    lits dists Htl Htd zlib (islast (st l)) (fast_fuel (rg l)) f0 h) as (e & f1 & h1 & E & [G1 G2 G3 G4 G5 G6 G7 G8]).
  { rewrite Es. unfold fast_fuel. lia. }
  { done. }
  { rewrite Es. lia. }
  { exists new. done. }
  { done. }
  { apply (fr_bytes _ _ _ _ _ Hf). }
  assert (Hused : fbits f0 < 8 \/ (length (fstream (next (rg l)) f1) + Z.to_nat (fbits f0) < length (fstream (next (rg l)) f0))%nat).
  { destruct (Z.lt_ge_cases (bits_ (rg l)) 8) as [|Hge]; [by left|]. right. destruct Hb as [|Hmore]; [lia|].
    pose proof (length_held _ Hr) as Hh. specialize (G7 (held (rg l))). rewrite Es in *. cbn [fbits f0]. rewrite <- Hh, Nat2Z.id. apply G7; [by apply prefix_app_r|done|].
    intros Hnil. rewrite Hnil in Hh. cbn in Hh. lia. }
  destruct (unread_ok (next (rg l)) f1 f0 G1 eq_refl Hok0 G4 Hused) as (U1 & U2 & U3 & U4 & U5 & U6).
  exists e, (as_regs (next (rg l)) (unread f1)), h1. split.
  { unfold inflate_fast. fold f0. rewrite E, bind_some. cbv beta iota zeta. rewrite (proj2 (Z.ltb_ge _ _)) by lia. done. }
  destruct G2 as (new1 & Q1 & -> & Q3). split; [apply (frame_outputs l h); auto; cbn; by rewrite ?U5, ?U6|].
  split; [exact U4|]. split; [exact G5|]. rewrite Es in *. rewrite U3. split; [|done].
  destruct G6 as [|]; [by left|right]. split; [done|]. by apply suffix_length.
Qed.

Lemma wp_fast l h n :
  mode (st l) = LEN -> sim l h -> work_left l <= n -> 6 <= Z.of_nat (length (next (rg l))) -> 258 <= left (rg l) ->
  wp (do_fast base prev) (fun _ => on n) exits l.
Proof.
  intros Em Hs Hw H6 H258. apply (sim_elim _ _ _ _ LEN) in Hs as [Hf (lits & dists & Ht & Hb & HR)]; [|done].
  destruct (fast_call l h lits dists Em Hf Ht Hb H6 H258) as (e & r & h1 & E & Hf1 & Hb1 & Hl1 & Hexit & Hres).
  unfold do_fast. wp_step. wp_step. wp_step. eapply wp_need; [exact E|]. wp_step. cbn [fst snd].
  assert (HR1 : forall F, R F = resumes lits dists zlib (islast (st l)) e (ahead (with_rg r l) F) h1) by (intros F; rewrite HR; apply Hres).
  exists h1. destruct Hexit as [[[->| ->] Hlt]|[-> Hle]].
  - split; [|unfold work_left in *; cbn [with_rg with_st st rg]; rewrite Em in *; lia].
    apply (sim_intro _ _ _ _ LEN); [done|done|]. exists lits, dists. split; [done|]. split; [by left|]. done.
  - split; [|unfold work_left in *; cbn [with_rg with_st st rg set_mode mode rank]; rewrite Em in *; cbn [rank] in *; lia].
    apply (sim_intro _ _ _ _ TYPE); [done|apply (frame_mode _ _ _ LEN (with_rg r l) h1 TYPE Em); auto|]. split; [done|]. done.
  - split; [|unfold work_left in *; cbn [with_rg with_st st rg set_mode mode rank]; rewrite Em in *; cbn [rank] in *; lia].
    apply (sim_intro _ _ _ _ BAD); [done|apply (frame_mode _ _ _ LEN (with_rg r l) h1 BAD Em); auto|]. done.
Qed.

Lemma wp_len l h n : mode (st l) = LEN -> sim l h -> work_left l <= n -> wp (do_LEN base prev) (fun _ => on n) exits l.
Proof.
  intros Em Hs Hw. unfold do_LEN. wp_step. wp_step.
  destruct (Z.leb_spec 6 (Z.of_nat (length (next (rg l))))); [destruct (Z.leb_spec 258 (left (rg l)))|]; cbn [andb].
  - by apply (wp_fast l h).
  - by apply (wp_len_slow _ _ _ _ _ l h).
  - by apply (wp_len_slow _ _ _ _ _ l h).
Qed.

(** ** The code length code *)

Lemma wp_length_code cl t root (Q : code -> loc -> Prop) (E : exit -> loc -> Prop) l :
  reads CODES cl (tab_at (st l) t) root -> Forall (fun x => x <= root) cl -> reg_ok (rg l) ->
  (forall l', refilled l l' -> next (rg l') = [] -> decode_length cl (held (rg l')) = More -> E (ExLeave Z_OK) l') ->
  (forall this s c l', refilled l l' -> l' = l \/ bits_ (rg l') < c + 8 -> 1 <= c <= 15 -> c <= bits_ (rg l') ->
     (forall F, decode_length cl (held (rg l') ++ F) = Got s (drop (Z.to_nat c) (held (rg l')) ++ F)) ->
     val this = Z.of_nat s -> bits this = c -> Q this l') ->
  wp (code_loop PULLS t root) Q E l.
Proof.
  intros Hreads Hflat Hr He Hq. destruct (acc_range _ _ _ _ _ Hreads) as (Hacc & Hrg & Hbig).
  apply (wp_code_loop CODES cl t root (st l) Hreads); auto; [pose proof (ro_bits _ Hr); unfold PULLS; lia|..].
  { intros l1 H1 Hnil Hm. apply He; auto. by apply (decode_length_more CODES). }
  intros this l1 H1 Hneed Et Hle. pose proof (rf_ok _ _ H1) as Hr1. pose proof (length_held _ Hr1) as Hh.
  pose proof (reads_flat _ _ _ _ (held (rg l1)) Hreads Hflat) as H. rewrite lsb_held, Hh, Et in H by done.
  assert (Hfit : forall c s, decode cl (held (rg l1)) = Got s (drop (Z.to_nat c) (held (rg l1))) -> c = code_length cl s -> l1 = l \/ bits_ (rg l1) < c + 8).
  { intros c s Ed ->. destruct Hneed as [|(p & Hp & Hlp & Hdp)]; [by left|]. right.
    pose proof (got_longer _ _ _ _ _ Hreads _ _ _ _ Hp Hdp Ed). lia. }
  destruct (decode cl (held (rg l1))) as [s rest| |] eqn:Ed.
  - destruct H as (o & v & [-> ->] & Ee & Hc & Hcl & ->). injection Ee as ->. assert (Hnu : ~ unused cl).
    { intros Hu. pose proof (got_starts cl _ _ _ Ed) as [Hhas _]. destruct (code_length_in _ _ Hhas) as [Hin _]. unfold unused in Hu. rewrite list.Forall_forall in Hu.
      apply Hu in Hin. lia. }
    eapply (Hq _ s (code_length cl s)); auto; [by eapply Hfit|]. intros F. unfold decode_length. rewrite decide_False by done.
    by apply (decode_app CODES).
  - destruct H as [Ee Hne]. injection Ee as ->. assert (Hu : unused cl).
    { pose proof Hacc as Hacc2. destruct Hacc2 as [|[Hc|[? _]]]; [done| |done]. exfalso. pose proof (decode_cases cl (held (rg l1)) CODES Hacc Hrg Hbig) as Hd. rewrite Ed in Hd.
      pose proof (complete_begins cl (length cl)) as Hb. unfold InfTreesSort.ls in Hb. rewrite firstn_all in Hb.
      destruct (Hb (le_n _) Hbig Hrg (lsb (held (rg l1))) Hc) as [s' Hs']. destruct Hd as [Hno _]. by apply (Hno s'). }
    eapply (Hq _ 0%nat 1); auto; [|lia|].
    + destruct Hneed as [|(p & _ & Hlp & Hdp)]; [by left|]. right. destruct p as [|b p]; [cbn in Hlp; lia|].
      by apply (more_not_bad CODES cl Hacc Hrg Hbig (b :: p) (held (rg l1))) in Hdp.
    + intros F. unfold decode_length. rewrite decide_True by done. rewrite (getbits_app 1 _ F (lsb (held (rg l1)) `mod` 2) (drop 1 (held (rg l1)))); [done|].
      by rewrite getbits_ok.
  - destruct H as (e & Ee & _ & Hlt). injection Ee as <-. lia.
Qed.

(** The lengths that have been read are at the start of [lens]. *)
Definition lens_are (t : table_state) (acc : list Z) : Prop :=
  have t = Z.of_nat (length acc) /\ take (length acc) (lens t) = acc.
Definition pushed (n : Z) (lens' : list Z) (t : table_state) : table_state := set_have (have t + n) (set_lens lens' t).

Lemma wp_push_len v (Q : unit -> loc -> Prop) E l acc :
  lens_are (tb (st l)) acc -> (length acc < length (lens (tb (st l))))%nat -> is_u16 v ->
  (forall lens', length lens' = length (lens (tb (st l))) -> lens_are (pushed 1 lens' (tb (st l))) (acc ++ [v]) ->
     Q tt (with_st (set_tb (pushed 1 lens' (tb (st l))) (st l)) l)) ->
  wp (push_len (have (tb (st l))) v) Q E l.
Proof.
  intros [Hh Ht] Hlt Hv HQ. unfold push_len. wp_step. wp_step. wp_step. set (t := tb (st l)) in *. rewrite u16_id by done.
  apply (wp_need _ (<[length acc := v]> (lens t))).
  { unfold wr. rewrite (proj2 (Z.leb_le _ _)), (proj2 (Z.ltb_lt _ _)), Hh, Nat2Z.id by lia. done. }
  unfold upd_tb. wp_step. apply HQ; [by rewrite length_insert|]. split; cbn.
  - rewrite length_app, Hh. cbn. lia.
  - rewrite length_app. cbn. rewrite Nat.add_1_r, (take_S_r _ _ v) by (apply list_lookup_insert_eq; lia).
    rewrite take_insert_ge by lia. by rewrite Ht.
Qed.
Lemma wp_fill_lens n v (Q : unit -> loc -> Prop) E l acc :
  lens_are (tb (st l)) acc -> (length acc + n <= length (lens (tb (st l))))%nat -> is_u16 v ->
  (forall lens', length lens' = length (lens (tb (st l))) -> lens_are (pushed (Z.of_nat n) lens' (tb (st l))) (acc ++ replicate n v) ->
     Q tt (with_st (set_tb (pushed (Z.of_nat n) lens' (tb (st l))) (st l)) l)) ->
  wp (fill_lens n v) Q E l.
Proof.
  revert l acc. induction n as [|n IH]; intros l acc Hl Hle Hv HQ; cbn [fill_lens].
  { wp_step. specialize (HQ (lens (tb (st l))) eq_refl). rewrite app_nil_r in HQ. unfold pushed, lens_are in HQ. cbn in HQ. rewrite Z.add_0_r in HQ.
    specialize (HQ Hl). destruct l as [[? ? ? ? ? ? ? ? ? ? ? ? []] ? ? ? ?]. exact HQ. }
  wp_step. wp_step. wp_step. apply (wp_push_len v _ _ l acc); [done|lia|done|]. intros lens1 El1 Hl1.
  apply (IH _ (acc ++ [v])); [exact Hl1|cbn; rewrite length_app, El1; cbn; lia|done|]. intros lens2 El2 Hl2.
  specialize (HQ lens2). cbn in El2. rewrite El1 in El2. unfold pushed in *. cbn in Hl2 |- *. rewrite <- app_assoc in Hl2. cbn in Hl2.
  replace (have (tb (st l)) + 1 + Z.of_nat n) with (have (tb (st l)) + Z.of_nat (S n)) in * by lia. exact (HQ El2 Hl2).
Qed.


Lemma wp_repeat this s c acc (Q : option (Z * Z) -> loc -> Prop) (E : exit -> loc -> Prop) l :
  reg_ok (rg l) -> 1 <= c <= 15 -> val this = Z.of_nat s -> bits this = c -> (16 <= s)%nat -> lens_are (tb (st l)) acc ->
  (forall l', refilled l l' -> next (rg l') = [] -> bits_ (rg l') < c + Z.of_nat (xbits s) -> E (ExLeave Z_OK) l') ->
  (forall l', refilled l l' -> c + Z.of_nat (xbits s) <= bits_ (rg l') -> l' = l \/ bits_ (rg l') < c + Z.of_nat (xbits s) + 8 ->
     match repeated acc s ((hold (rg l') / 2 ^ c) `mod` 2 ^ Z.of_nat (xbits s)) with
     | None => Q None (with_rg (dropped c (rg l')) l')
     | Some r => Q (Some r) (with_rg (dropped (c + Z.of_nat (xbits s)) (rg l')) l')
     end) ->
  wp (repeat_code this) Q E l.
Proof.
  intros Hr Hc Ev <- Hs [Hh Ht] HE HQ. unfold repeat_code. rewrite Ev. unfold xbits, repeated in *. rewrite (proj2 (Nat.ltb_ge s 16)) in * by done.
  destruct (Nat.eqb_spec s 16) as [->|H16]; [|rewrite (proj2 (Z.eqb_neq (Z.of_nat s) 16)) by lia; destruct (Nat.eqb_spec s 17) as [->|H17];
    [|rewrite (proj2 (Z.eqb_neq (Z.of_nat s) 17)) by lia]].
  - change (Z.of_nat 16 =? 16) with true. cbv iota. wp_step. apply wp_needbits; [done|lia|lia|done|]. intros l1 H1 Hge Hor. specialize (HQ l1 H1 Hge Hor).
    pose proof (rf_ok _ _ H1) as Hr1. wp_step. apply wp_dropbits; [done|lia|]. wp_step. wp_step. cbn [with_rg st].
    rewrite (rf_st _ _ H1). rewrite Hh. destruct acc as [|a acc].
    { exact HQ. }
    rewrite (proj2 (Z.eqb_neq _ 0)) by (cbn [length]; lia). destruct ((a :: acc) !! pred (length (a :: acc))) as [v|] eqn:El.
    2:{ apply lookup_ge_None in El. cbn in El. lia. }
    cbn [mbind option_bind] in HQ. wp_step. apply (wp_need _ v).
    { unfold rd. rewrite (proj2 (Z.leb_le _ _)) by (cbn [length]; lia).
      replace (Z.to_nat (Z.of_nat (length (a :: acc)) - 1)) with (pred (length (a :: acc))) by (cbn [length]; lia).
      assert (El2 : take (length (a :: acc)) (lens (tb (st l))) !! pred (length (a :: acc)) = Some v) by (by rewrite Ht).
      by apply lookup_take_Some in El2 as [El2 _]. }
    wp_step. apply wp_bits; [lia|]. wp_step. apply wp_dropbits; [apply dropped_ok; [done|lia]|cbn; lia|]. wp_step.
    cbn [with_rg rg]. rewrite dropped_dropped by lia. exact HQ.
  - change (Z.of_nat 17 =? 17) with true. cbv iota. wp_step. apply wp_needbits; [done|lia|lia|done|]. intros l1 H1 Hge Hor. specialize (HQ l1 H1 Hge Hor).
    pose proof (rf_ok _ _ H1) as Hr1. wp_step. apply wp_dropbits; [done|lia|]. 
    wp_step. apply wp_bits; [lia|]. wp_step. apply wp_dropbits; [apply dropped_ok; [done|lia]|cbn; lia|]. wp_step.
    cbn [with_rg rg]. rewrite dropped_dropped by lia. exact HQ.
  - wp_step. apply wp_needbits; [done|lia|lia|done|]. intros l1 H1 Hge Hor. specialize (HQ l1 H1 Hge Hor).
    pose proof (rf_ok _ _ H1) as Hr1. wp_step. apply wp_dropbits; [done|lia|].
    wp_step. apply wp_bits; [lia|]. wp_step. apply wp_dropbits; [apply dropped_ok; [done|lia]|cbn; lia|]. wp_step.
    cbn [with_rg rg]. rewrite dropped_dropped by lia. exact HQ.
Qed.

(** ** The lengths of the other codes *)

Section lengths.
Context (cl acc : list Z) (total s : nat) (c : Z) (l1 : loc).
Context (Hr1 : reg_ok (rg l1)) (Hc : 1 <= c <= bits_ (rg l1)).
Context (Hdec : forall F, decode_length cl (held (rg l1) ++ F) = Got s (drop (Z.to_nat c) (held (rg l1)) ++ F)).
Abbreviation k := (Z.of_nat (xbits s)).

(** With the extra bits of the symbol there, the next lengths are known. *)
Lemma next_ahead l2 F :
  refilled l1 l2 -> c + k <= bits_ (rg l2) ->
  next_lengths cl total acc (ahead l1 F) =
  lengths_after total acc s ((hold (rg l2) / 2 ^ c) `mod` 2 ^ k) (ahead (with_rg (dropped (c + k) (rg l2)) l2) F).
Proof.
  intros H2 Hge. rewrite next_lengths_eq. unfold ahead at 1. unfold stream. rewrite <- app_assoc, Hdec. cbn [rbind].
  pose proof (rf_ok _ _ H2) as Hr2. destruct (dropped_ok c (rg l2) Hr2 ltac:(lia)) as (Hok & Hstr & _).
  replace (drop (Z.to_nat c) (held (rg l1)) ++ bits_of_bytes (next (rg l1)) ++ bits_of_bytes F)
    with (ahead (with_rg (dropped c (rg l2)) l2) F).
  - rewrite <- (Nat2Z.id (xbits s)) at 1. rewrite getbits_ahead by (done || cbn; lia). cbn [rbind with_rg rg]. rewrite dropped_dropped by lia. done.
  - unfold ahead. cbn [with_rg rg]. rewrite Hstr, (rf_stream _ _ H2). unfold stream. pose proof (length_held _ Hr1).
    rewrite drop_app_le by lia. by rewrite <- app_assoc.
Qed.
(** Without them, not. *)
Lemma next_held l2 :
  refilled l1 l2 ->
  (next_lengths cl total acc (held (rg l2)) = More <-> bits_ (rg l2) < c + k).
Proof.
  intros H2. destruct (rf_held _ _ H2) as [G EG]. rewrite next_lengths_eq, EG, Hdec. cbn [rbind].
  pose proof (length_held _ Hr1). pose proof (length_held _ (rf_ok _ _ H2)) as Hl2. rewrite EG, length_app in Hl2.
  assert (El : length (drop (Z.to_nat c) (held (rg l1)) ++ G) = Z.to_nat (bits_ (rg l2) - c)) by (rewrite length_app, length_drop; lia).
  destruct (Z.lt_ge_cases (bits_ (rg l2)) (c + k)) as [Hlt|Hge].
  - rewrite getbits_more by lia. done.
  - rewrite getbits_ok by lia. cbn [rbind]. split; [|lia]. intros Hm. by apply lengths_after_not_more in Hm.
Qed.
End lengths.

Lemma codelens_starved l l' h cl acc fuel :
  mode (st l) = CODELENS -> frame l h -> counts_ok (tb (st l)) -> codelens_ok (st l) cl acc ->
  (length acc < total_codes (tb (st l)))%nat -> (total_codes (tb (st l)) <= length acc + fuel)%nat ->
  (forall F, R F = go_codes zlib (st l) h (rbind (read_lengths fuel cl (total_codes (tb (st l))) acc (ahead l F)) (make_codes (Z.to_nat (nlen (tb (st l))))))) ->
  refilled l l' -> next (rg l') = [] -> next_lengths cl (total_codes (tb (st l))) acc (held (rg l')) = More -> exits (ExLeave Z_OK) l'.
Proof.
  intros Em Hf Hco Hcl Hlt Hfuel HR H1 Hnil Hm. apply (exit_starved _ _ _ _ _ CODELENS l l' h); auto.
  - unfold InflateSim.pending. rewrite (rf_st _ _ H1). split; [done|]. exists cl, acc, fuel. split; [done|]. split; [by right|]. split; [done|].
    intros F. rewrite (ahead_refilled _ _ _ H1). apply HR.
  - rewrite HR, <- (ahead_refilled _ _ _ H1), ahead_nil by done. destruct fuel as [|fuel]; [lia|]. cbn [read_lengths].
    rewrite (proj2 (Nat.ltb_lt _ _)) by done. rewrite Hm. done.
Qed.

(** At the head of the loop, and after it. *)
Record at_lengths (l : loc) (h cl acc : list Z) (fuel : nat) : Prop := {
  al_mode : mode (st l) = CODELENS;
  al_frame : frame l h;
  al_counts : counts_ok (tb (st l));
  al_ok : codelens_ok (st l) cl acc;
  al_bits : bits_ (rg l) < 8 \/ (next_lengths cl (total_codes (tb (st l))) acc (held (rg l)) = More /\ (length acc < total_codes (tb (st l)))%nat);
  al_fuel : (total_codes (tb (st l)) <= length acc + fuel)%nat;
  al_res : forall F, R F = go_codes zlib (st l) h
    (rbind (read_lengths fuel cl (total_codes (tb (st l))) acc (ahead l F)) (make_codes (Z.to_nat (nlen (tb (st l))))))
}.
Record lengths_done (l : loc) (h acc : list Z) : Prop := {
  ld_mode : mode (st l) = CODELENS;
  ld_frame : frame l h;
  ld_counts : counts_ok (tb (st l));
  ld_lens : lens_are (tb (st l)) acc;
  ld_length : length acc = total_codes (tb (st l));
  ld_range : Forall (fun x => 0 <= x <= 15) acc;
  ld_bits : bits_ (rg l) < 8;
  ld_res : forall F, R F = go_codes zlib (st l) h (make_codes (Z.to_nat (nlen (tb (st l)))) acc (ahead l F))
}.
Definition lengths_read (n : Z) (l : loc) : Prop :=
  mode (st l) = BAD /\ on n l \/ exists h acc, lengths_done l h acc /\ work_left l <= n.

Lemma lengths_stop l h cl acc fuel :
  at_lengths l h cl acc fuel -> (total_codes (tb (st l)) <= length acc)%nat -> lengths_done l h acc.
Proof.
  intros [A1 A2 A3 [C1 C2 C3 C4 C5 C6] A5 A6 A7] Hle. split; auto; [done|lia|destruct A5 as [|[_ ?]]; [done|lia]|].
  intros F. rewrite A7. destruct fuel; cbn [read_lengths]; [done|]. rewrite (proj2 (Nat.ltb_ge _ _)) by lia. done.
Qed.

(** The state after [m] more lengths. *)
Lemma lengths_step l l2 h cl acc fuel s c v m x lens' :
  at_lengths l h cl acc (S fuel) -> refilled l l2 -> reg_ok (rg l2) ->
  let k := Z.of_nat (xbits s) in
  1 <= c -> c + k <= bits_ (rg l2) < c + k + 8 -> 0 <= v <= 15 -> (length acc + m <= total_codes (tb (st l)))%nat ->
  (forall F, next_lengths cl (total_codes (tb (st l))) acc (ahead l F) = lengths_after (total_codes (tb (st l))) acc s x (ahead (with_rg (dropped (c + k) (rg l2)) l2) F)) ->
  (forall bs, lengths_after (total_codes (tb (st l))) acc s x bs = Got (acc ++ replicate m v) bs) -> (1 <= m)%nat -> (length acc < total_codes (tb (st l)))%nat ->
  length lens' = length (lens (tb (st l))) -> lens_are (pushed (Z.of_nat m) lens' (tb (st l))) (acc ++ replicate m v) ->
  at_lengths (with_st (set_tb (pushed (Z.of_nat m) lens' (tb (st l))) (st l)) (with_rg (dropped (c + k) (rg l2)) l2)) h cl (acc ++ replicate m v) fuel.
Proof.
  intros [A1 A2 A3 [C1 C2 C3 C4 C5 C6] A5 A6 A7] H2 Hr2 k Hc Hb Hv Hle Hnext Hafter Hm Hlt El' [Hh Ht]. split; auto.
  - apply frame_st; [split; cbn; rewrite ?(rf_st _ _ H2), ?El'; auto|]. apply frame_dropped; [unfold k in *; lia|]. by eapply frame_refilled.
  - split; auto; [by rewrite length_app, length_replicate|].
    apply Forall_app. split; [done|]. by apply Forall_replicate.
  - left. cbn. lia.
  - change (total_codes _) with (total_codes (tb (st l))). rewrite length_app, length_replicate. lia.
  - intros F. rewrite A7. cbn [read_lengths]. rewrite (proj2 (Nat.ltb_lt _ _)) by done. rewrite Hnext, Hafter. done.
Qed.

(** No more bits than needed were taken. *)
Lemma lengths_fit l l1 l2 h cl acc fuel s c :
  at_lengths l h cl acc fuel -> reg_ok (rg l1) -> 1 <= c <= bits_ (rg l1) ->
  (forall F, decode_length cl (held (rg l1) ++ F) = Got s (drop (Z.to_nat c) (held (rg l1)) ++ F)) ->
  l1 = l \/ bits_ (rg l1) < c + 8 -> c + Z.of_nat (xbits s) <= bits_ (rg l2) ->
  l2 = l1 \/ bits_ (rg l2) < c + Z.of_nat (xbits s) + 8 -> bits_ (rg l2) < c + Z.of_nat (xbits s) + 8.
Proof.
  intros Hal Hr1 Hc Hdec H1 Hge H2. destruct H2 as [->|]; [|done]. destruct H1 as [->|]; [|lia].
  destruct (al_bits _ _ _ _ _ Hal) as [|[Hm _]]; [lia|].
  apply (next_held cl acc _ s c l Hr1 Hc Hdec l (refilled_refl l Hr1)) in Hm. lia.
Qed.

(** A symbol was read: what the loop does with it, before it goes on with [K]. *)
Section symbol.
Context (l l1 : loc) (h cl acc : list Z) (k s : nat) (n c : Z) (this : code) (K : M unit).
Context (Hal : at_lengths l h cl acc (S k)) (Hlt : (length acc < total_codes (tb (st l)))%nat) (Hw : work_left l <= n).
Context (H1 : refilled l l1) (Hor1 : l1 = l \/ bits_ (rg l1) < c + 8) (Hc : 1 <= c <= 15) (Hcb : c <= bits_ (rg l1)).
Context (Hdec : forall F, decode_length cl (held (rg l1) ++ F) = Got s (drop (Z.to_nat c) (held (rg l1)) ++ F)).
Context (Ev : val this = Z.of_nat s) (Eb : bits this = c).
Context (HK : forall l' acc', at_lengths l' h cl acc' k -> (length acc < length acc')%nat -> total_codes (tb (st l')) = total_codes (tb (st l)) ->
  work_left l' <= n -> wp K (fun _ => lengths_read n) exits l').
Abbreviation total := (total_codes (tb (st l))).
Abbreviation x2 l2 := ((hold (rg l2) / 2 ^ c) `mod` 2 ^ Z.of_nat (xbits s)).

Lemma symbol_next l2 F :
  refilled l1 l2 -> c + Z.of_nat (xbits s) <= bits_ (rg l2) ->
  next_lengths cl total acc (ahead l F) = lengths_after total acc s (x2 l2) (ahead (with_rg (dropped (c + Z.of_nat (xbits s)) (rg l2)) l2) F).
Proof. intros H2 Hge. rewrite <- (ahead_refilled _ _ _ H1). apply next_ahead; auto; [by apply H1|lia]. Qed.

(** [m] lengths [v] are entered. *)
Lemma symbol_step l2 v m lens' :
  refilled l1 l2 -> c + Z.of_nat (xbits s) <= bits_ (rg l2) < c + Z.of_nat (xbits s) + 8 -> 0 <= v <= 15 -> (1 <= m)%nat -> (length acc + m <= total)%nat ->
  (forall bs, lengths_after total acc s (x2 l2) bs = Got (acc ++ replicate m v) bs) ->
  length lens' = length (lens (tb (st l))) -> lens_are (pushed (Z.of_nat m) lens' (tb (st l))) (acc ++ replicate m v) ->
  wp K (fun _ => lengths_read n) exits
    (with_st (set_tb (pushed (Z.of_nat m) lens' (tb (st l))) (st l)) (with_rg (dropped (c + Z.of_nat (xbits s)) (rg l2)) l2)).
Proof.
  intros H2 Hb Hv Hm Hle Hgot El' Hl'. pose proof (rf_ok _ _ H2) as Hr2. pose proof (refilled_trans _ _ _ H1 H2) as H02.
  apply (HK _ (acc ++ replicate m v)).
  - apply (lengths_step l l2 h cl acc k s c v m (x2 l2) lens'); auto; [lia|]. intros F. apply symbol_next; [done|lia].
  - rewrite length_app, length_replicate. lia.
  - done.
  - rewrite work_mode, work_dropped, (work_refilled _ _ H02) by (done || lia). cbn. rewrite (rf_st _ _ H02). lia.
Qed.

(** A length. *)
Lemma wp_plain_length :
  (s < 16)%nat ->
  wp (NEEDBITS (bits this);; DROPBITS (bits this);; push_len (have (tb (st l))) (val this);; K)%inflate (fun _ => lengths_read n) exits l1.
Proof.
  intros Hs. assert (Ex : xbits s = 0%nat) by (unfold xbits; by rewrite (proj2 (Nat.ltb_lt s 16)) by lia).
  pose proof (rf_ok _ _ H1) as Hr1. rewrite Eb, Ev. wp_step. apply wp_needbits; [done|lia|lia| |].
  { intros l2 H2 _ Hlt2. pose proof (refilled_bits _ _ Hr1 H2). lia. }
  intros l2 H2 Hge2 Hor2. pose proof (rf_ok _ _ H2) as Hr2. pose proof (refilled_trans _ _ _ H1 H2) as H02.
  assert (Hfit : bits_ (rg l2) < c + Z.of_nat (xbits s) + 8).
  { apply (lengths_fit l l1 l2 h cl acc (S k) s c Hal Hr1 ltac:(lia) Hdec Hor1); rewrite Ex, Z.add_0_r; done. }
  pose proof (symbol_step l2 (Z.of_nat s) 1) as Hstep. rewrite Ex, Z.add_0_r in Hstep, Hfit.
  wp_step. apply wp_dropbits; [done|lia|]. wp_step. set (l3 := with_rg (dropped c (rg l2)) l2).
  replace (have (tb (st l))) with (have (tb (st l3))) by (cbn; by rewrite (rf_st _ _ H02)).
  pose proof (al_ok _ _ _ _ _ Hal) as [C1 C2 C3 C4 C5 C6].
  apply (wp_push_len _ _ _ l3 acc); cbn [l3 with_rg st]; rewrite ?(rf_st _ _ H02); [done| |unfold is_u16; lia|].
  { rewrite (fr_lens _ _ _ _ _ (al_frame _ _ _ _ _ Hal)). pose proof (al_counts _ _ _ _ _ Hal) as Hco. unfold counts_ok, total_codes in *. lia. }
  intros lens' El' Hl'. apply Hstep; auto; [lia|lia|]. intros bs. unfold lengths_after. by rewrite (proj2 (Nat.ltb_lt s 16)) by lia.
Qed.

(** An error. *)
Lemma symbol_bad l2 j :
  refilled l1 l2 -> c + Z.of_nat (xbits s) <= bits_ (rg l2) -> 0 <= j <= bits_ (rg l2) -> (forall bs, lengths_after total acc s (x2 l2) bs = Bad) ->
  wp (goto_mode BAD) (fun _ => lengths_read n) exits (with_rg (dropped j (rg l2)) l2).
Proof.
  intros H2 Hge Hj Hb. pose proof (rf_ok _ _ H2) as Hr2. pose proof (refilled_trans _ _ _ H1 H2) as H02.
  wp_step. left. split; [done|]. apply (on_bad _ _ _ _ _ _ h).
  - apply frame_dropped; [done|]. eapply frame_refilled; [done|]. apply (al_frame _ _ _ _ _ Hal).
  - intros F. rewrite (al_res _ _ _ _ _ Hal). cbn [read_lengths]. rewrite (proj2 (Nat.ltb_lt _ _)) by done. rewrite (symbol_next l2), Hb by done. done.
  - rewrite work_dropped, (work_refilled _ _ H02) by done. cbn [with_rg st]. rewrite (rf_st _ _ H02), (al_mode _ _ _ _ _ Hal). cbn [rank]. lia.
Qed.

(** A repeat code. *)
Lemma wp_repeat_lengths :
  (16 <= s)%nat ->
  (forall l', refilled l l' -> next (rg l') = [] -> next_lengths cl total acc (held (rg l')) = More -> exits (ExLeave Z_OK) l') ->
  wp (r <- repeat_code this;
      match r with
      | None => goto_mode BAD
      | Some (len, copy) =>
          if nlen (tb (st l)) + ndist (tb (st l)) <? have (tb (st l)) + copy then goto_mode BAD
          else fill_lens (Z.to_nat copy) len;; K
      end)%inflate (fun _ => lengths_read n) exits l1.
Proof.
  intros Hs Hstarved. pose proof (rf_ok _ _ H1) as Hr1. pose proof (al_ok _ _ _ _ _ Hal) as [C1 C2 C3 C4 C5 C6].
  pose proof (al_counts _ _ _ _ _ Hal) as Hco. unfold counts_ok in Hco.
  wp_step. apply (wp_repeat this s c acc); auto; [by rewrite (rf_st _ _ H1)|..].
  { intros l2 H2 Hnil Hlt2. apply Hstarved; [by eapply refilled_trans|done|]. apply (next_held cl acc _ s c l1); auto; lia. }
  intros l2 H2 Hge2 Hor2. pose proof (refilled_trans _ _ _ H1 H2) as H02.
  assert (Hfit : bits_ (rg l2) < c + Z.of_nat (xbits s) + 8) by (by apply (lengths_fit l l1 l2 h cl acc (S k) s c Hal Hr1 ltac:(lia) Hdec Hor1)).
  pose proof (fun bs => lengths_after_repeated total acc s (x2 l2) bs ltac:(lia)) as Hafter.
  assert (Hx : 0 <= x2 l2) by (apply Z.mod_pos_bound; lia).
  pose proof (repeated_range acc s (x2 l2) C3 Hx) as Hrange. destruct (repeated acc s (x2 l2)) as [[v m]|]; [|apply symbol_bad; auto; lia].
  destruct Hrange as [Hv Hm]. unfold repeat_length in Hafter.
  destruct (Z.ltb_spec (nlen (tb (st l)) + ndist (tb (st l))) (have (tb (st l)) + m)) as [Hover|Hfits].
  { apply symbol_bad; auto; [lia|]. intros bs. rewrite Hafter, (proj2 (Nat.ltb_lt _ _)) by (unfold total_codes; lia). done. }
  wp_step. apply (wp_fill_lens _ _ _ _ _ acc); cbn [with_rg st]; rewrite ?(rf_st _ _ H02); [done| |unfold is_u16; lia|].
  { rewrite (fr_lens _ _ _ _ _ (al_frame _ _ _ _ _ Hal)). unfold total_codes in *. lia. }
  intros lens' El' Hl'. apply (symbol_step l2 v (Z.to_nat m)); auto; [lia|unfold total_codes in *; lia|].
  intros bs. rewrite Hafter, (proj2 (Nat.ltb_ge _ _)) by (unfold total_codes; lia). done.
Qed.
End symbol.

Lemma wp_codelens_loop fuel l h cl acc k n :
  at_lengths l h cl acc k -> (total_codes (tb (st l)) <= length acc + fuel)%nat -> work_left l <= n ->
  wp (codelens_loop fuel) (fun _ => lengths_read n) exits l.
Proof.
  revert l acc k. induction fuel as [|fuel IH]; intros l acc k Hal Hfuel Hw; cbn [codelens_loop]; wp_step; wp_step;
    pose proof (al_counts _ _ _ _ _ Hal) as Hco; pose proof (al_ok _ _ _ _ _ Hal) as [C1 C2 C3 C4 C5 C6]; unfold counts_ok in Hco;
    destruct (Z.ltb_spec (have (tb (st l))) (nlen (tb (st l)) + ndist (tb (st l)))) as [Hlt|Hge].
  1: unfold total_codes in *; lia.
  1,3: wp_step; right; exists h, acc; split; [eapply lengths_stop; [exact Hal|unfold total_codes; lia]|done].
  assert (Hlt' : (length acc < total_codes (tb (st l)))%nat) by (unfold total_codes; lia).
  destruct k as [|k]; [pose proof (al_fuel _ _ _ _ _ Hal); lia|].
  assert (Hstarved : forall l', refilled l l' -> next (rg l') = [] -> next_lengths cl (total_codes (tb (st l))) acc (held (rg l')) = More -> exits (ExLeave Z_OK) l').
  { intros l' H1 Hnil Hm. destruct Hal as [B1 B2 B3 B4 B5 B6 B7].
    exact (codelens_starved l l' h cl acc (S k) B1 B2 B3 B4 Hlt' B6 B7 H1 Hnil Hm). }
  assert (HK : forall l' acc', at_lengths l' h cl acc' k -> (length acc < length acc')%nat -> total_codes (tb (st l')) = total_codes (tb (st l)) ->
    work_left l' <= n -> wp (codelens_loop fuel) (fun _ => lengths_read n) exits l').
  { intros l' acc' Hal' Hl' Et Hw'. apply (IH l' acc' k); [done|lia|done]. }
  wp_step. apply (wp_length_code cl); auto; [by apply (fr_regs _ _ _ _ _ (al_frame _ _ _ _ _ Hal))|..].
  { intros l' H1 Hnil Hm. apply Hstarved; auto. rewrite next_lengths_eq, Hm. done. }
  intros this s c l1 H1 Hor1 Hc Hcb Hdec Ev Eb. rewrite Ev. destruct (Z.ltb_spec (Z.of_nat s) 16).
  - rewrite <- Ev. apply (wp_plain_length l l1 h cl acc k s n c); auto. lia.
  - apply (wp_repeat_lengths l l1 h cl acc k s n c); auto. lia.
Qed.

(** ** The tables of a block *)

Lemma wp_table_call type off n (Q : option Z -> loc -> Prop) (E : exit -> loc -> Prop) l :
  let t := tb (st l) in
  let ls := take n (drop (Z.to_nat off) (lens t)) in
  length (work t) = 288%nat -> length (codes t) = 2048%nat -> (Z.to_nat off + n <= length (lens t))%nat -> (n <= max_codes type)%nat ->
  Forall (fun x => 0 <= x <= 15) ls -> 0 <= tnext t -> tnext t + space type <= 2048 ->
  (~ acceptable type ls -> Q None l) ->
  (forall tab nx b wk, acceptable type ls -> decodes type ls tab (tnext t) b nx -> length tab = 2048%nat -> length wk = 288%nat ->
     nx <= tnext t + space type -> (forall a, a < tnext t -> rd tab a = rd (codes t) a) -> b = root_bits type \/ Forall (fun x => x <= b) ls ->
     Q (Some b) (with_st (set_tb (set_built nx wk tab t) (st l)) l)) ->
  wp (table_call type off (Z.of_nat n) (root_bits type)) Q E l.
Proof.
  intros t ls Hwk Hcd Hle Hmax Hr Hnx Hsp Hno Hyes. unfold table_call. wp_step. wp_step. wp_step. fold t.
  assert (Hm : (max_codes type <= 288)%nat) by (destruct type; cbn; lia).
  destruct (inflate_table_ok (drop (Z.to_nat off) (lens t)) n ltac:(rewrite length_drop; lia) ltac:(lia) Hr type (codes t) (tnext t) (work t)) as (r & Er & Hmade); try lia.
  apply (wp_need _ r); [done|]. destruct r as [tab nx b wk|e].
  - destruct Hmade as (M1 & M2 & M3 & M4 & M5 & M6 & M7). unfold upd_tb. wp_step. wp_step. wp_step. apply Hyes; auto; lia.
  - wp_step. apply Hno. apply Hmade.
Qed.
Lemma acceptable_codes type ls : code_acceptable (bool_decide (type = CODES)) ls <-> acceptable type ls.
Proof. unfold code_acceptable, acceptable. destruct type; cbn; naive_solver. Qed.

Lemma wp_build_codes l h acc n :
  lengths_done l h acc -> work_left l <= n -> wp (build_codes base prev) (fun _ => on n) exits l.
Proof.
  intros [Em Hf Hco [Hhave Htake] Hlen Hrange Hb HR] Hw. unfold counts_ok, total_codes in *. destruct Hco as (_ & Hnl & Hnd).
  set (t := tb (st l)) in *. set (lits := take (Z.to_nat (nlen t)) acc). set (dists := drop (Z.to_nat (nlen t)) acc).
  assert (Elits : take (Z.to_nat (nlen t)) (lens t) = lits) by (unfold lits; rewrite <- Htake, take_take; f_equal; lia).
  assert (Edists : take (Z.to_nat (ndist t)) (drop (Z.to_nat (nlen t)) (lens t)) = dists).
  { rewrite take_drop_commute. unfold dists. f_equal. transitivity (take (length acc) (lens t)); [f_equal; lia|done]. }
  assert (Hlr : Forall (fun x => 0 <= x <= 15) lits) by (by apply Forall_take).
  assert (Hdr : Forall (fun x => 0 <= x <= 15) dists) by (by apply Forall_drop).
  pose proof (fr_lens _ _ _ _ _ Hf) as Hl320. fold t in Hl320.
  assert (Hbad : forall s, keeps zlib (st l) s -> mode s = CODELENS -> ~ (acceptable LENS lits /\ acceptable DISTS dists) -> on n (with_st (set_mode BAD s) (with_st s l))).
  { intros s Hk Ems Hno. apply (on_bad _ _ _ _ _ (with_st s l) h); [by apply frame_st| |rewrite work_mode, Em; cbn [with_st st]; rewrite Ems; cbn [rank]; lia].
    intros F. rewrite HR. unfold make_codes. fold lits dists. rewrite decide_False; [done|].
    by rewrite (acceptable_codes LENS), (acceptable_codes DISTS). }
  unfold build_codes, upd_tb. wp_step. wp_step. wp_step. wp_step. wp_step. wp_step. wp_step.
  cbn [with_st st set_tb set_tabs tb set_built nlen]. fold t.
  rewrite <- (Z2Nat.id (nlen t)) at 1 by lia. change 9 with (root_bits LENS) at 2.
  apply wp_table_call; cbn [with_st st set_tb set_tabs tb set_built lens work codes tnext Z.to_nat]; fold t; auto.
  { apply (fr_work _ _ _ _ _ Hf). }
  { apply (fr_codes _ _ _ _ _ Hf). }
  { lia. }
  { cbn. lia. }
  { rewrite drop_0, Elits. done. }
  { lia. }
  { by vm_compute. }
  { rewrite drop_0, Elits. intros Hno. wp_step. eapply Hbad; [split; cbn; rewrite ?Em; auto|done|tauto]. }
  rewrite drop_0, Elits. intros tab nx b wk Hacc Hdec Htab Hwk Hnx Hsame _.
  wp_step. wp_step. wp_step. cbn [with_st st set_tb set_tabs tb set_built ndist tnext tabs lencode].
  rewrite <- (Z2Nat.id (ndist t)) by lia. change 6 with (root_bits DISTS) at 2. pose proof (dec_root _ _ _ _ _ _ Hdec) as [Hb1 Hb2].
  assert (Hsp : space LENS = 864 /\ space DISTS = 608) by (by vm_compute). destruct Hsp as [Hsp1 Hsp2]. 
  apply wp_table_call; cbn [with_st st set_tb set_tabs tb set_built lens work codes tnext]; fold t; rewrite ?Edists; auto.
  { lia. }
  { cbn. lia. }
  { lia. }
  { lia. }
  { intros Hno. wp_step. eapply Hbad; [split; cbn; rewrite ?Em, ?Hwk, ?Htab, ?(fr_work _ _ _ _ _ Hf), ?(fr_codes _ _ _ _ _ Hf); auto|done|tauto]. }
  intros tab2 nx2 b2 wk2 Hacc2 Hdec2 Htab2 Hwk2 Hnx2 Hsame2 _. wp_step. wp_step. wp_step. wp_step.
  apply (wp_len _ h); [done|..].
  - apply (sim_intro _ _ _ _ LEN); [done|..].
    + apply (frame_st _ _ _ l); [|done]. split; cbn; rewrite ?Em, ?Hwk2, ?Htab2, ?(fr_work _ _ _ _ _ Hf), ?(fr_codes _ _ _ _ _ Hf); auto.
    + exists lits, dists. split; [split|].
      * apply (decodes_reads LENS lits tab2 0 b nx); auto; [unfold lits; rewrite length_take; cbn; lia|by apply (decodes_kept _ _ tab)].
      * apply (decodes_reads DISTS dists tab2 nx b2 nx2); auto. unfold dists. rewrite length_drop. cbn. lia.
      * split; [by left|]. intros F. rewrite HR. unfold make_codes. fold lits dists.
        rewrite decide_True; [done|]. by rewrite (acceptable_codes LENS), (acceptable_codes DISTS).
  - unfold work_left in *. cbn [with_st st rg set_mode mode rank]. rewrite Em in Hw. exact Hw.
Qed.

Lemma wp_codelens l h n : mode (st l) = CODELENS -> sim l h -> work_left l <= n -> wp (do_CODELENS base prev) (fun _ => on n) exits l.
Proof.
  intros Em Hs Hw. apply (sim_elim _ _ _ _ CODELENS) in Hs as [Hf (Hco & cl & acc & fuel & Hok & Hb & Hfuel & HR)]; [|done].
  unfold do_CODELENS. wp_step. wp_step. wp_step.
  eapply wp_conseq; [apply (wp_codelens_loop _ l h cl acc fuel n); [done|fold (total_codes (tb (st l))); lia|done]| |done].
  intros [] l1 [[Em1 Hon]|(h1 & acc1 & Hd & Hw1)]; wp_step; wp_step.
  - rewrite Em1, bool_decide_eq_true_2 by done. wp_step. exact Hon.
  - rewrite (ld_mode _ _ _ Hd), bool_decide_eq_false_2 by done. by apply (wp_build_codes l1 h1 acc1).
Qed.

(** ** The lengths of the code length code *)

Lemma order_nth i j : length_order !! i = Some j -> rd order (Z.of_nat i) = Some (Z.of_nat j) /\ (j < 19)%nat /\ (i < 19)%nat.
Proof.
  intros E. pose proof (lookup_lt_Some _ _ _ E) as Hi. cbn in Hi. unfold rd. rewrite (proj2 (Z.leb_le _ _)), Nat2Z.id by lia.
  do 19 (destruct i as [|i]; [cbn in E; injection E as <-; cbn; split; [done|lia]|]). lia.
Qed.
Lemma order_split i j : length_order !! i = Some j ->
  take (S i) length_order = take i length_order ++ [j] /\ drop i length_order = j :: drop (S i) length_order /\ j ∉ take i length_order /\ j ∉ drop (S i) length_order.
Proof.
  intros E. assert (Hnd : NoDup length_order) by (apply (bool_decide_unpack _); by vm_compute).
  rewrite (take_S_r _ _ _ E), (drop_S _ _ _ E). split; [done|]. split; [done|]. rewrite <- (take_drop_middle _ _ _ E), list.NoDup_app, list.NoDup_cons in Hnd.
  destruct Hnd as (_ & Hd & Hj & _). split; [|done]. intros Hin. apply (Hd j Hin). apply list_elem_of_here.
Qed.

(** A length goes to the next place in the order. *)
Lemma lenlens_push t cl j v lens' :
  lenlens_ok t cl -> length_order !! Z.to_nat (have t) = Some j -> 0 <= v <= 7 -> length (lens t) = 320%nat -> lens' = <[j := v]> (lens t) ->
  lenlens_ok (pushed 1 lens' t) (<[j := v]> cl).
Proof.
  intros [L1 L2 L3 L4 L5] Ej Hv H320 ->. destruct (order_nth _ _ Ej) as (_ & Hj & Hi). destruct (order_split _ _ Ej) as (E1 & E2 & Hn1 & Hn2).
  assert (Eh : Z.to_nat (have (pushed 1 (<[j := v]> (lens t)) t)) = S (Z.to_nat (have t))) by (cbn; lia). split.
  - cbn. lia.
  - by rewrite length_insert.
  - by apply Forall_insert.
  - rewrite Eh, E1. cbn [pushed set_have set_lens lens]. intros i Hin. destruct (decide (i = j)) as [->|Hne].
    + rewrite !list_lookup_insert_eq by lia. done.
    + apply elem_of_app in Hin as [Hin|Hin]; [|by apply list_elem_of_singleton in Hin]. rewrite !list_lookup_insert_ne by done. by apply L4.
  - rewrite Eh. intros i Hin. assert (Hne : i <> j) by (by intros ->). rewrite list_lookup_insert_ne by done. apply L5. rewrite E2. by apply list_elem_of_further.
Qed.
Lemma wp_push_at j v (Q : unit -> loc -> Prop) E l :
  (j < length (lens (tb (st l))))%nat -> is_u16 v ->
  Q tt (with_st (set_tb (pushed 1 (<[j := v]> (lens (tb (st l)))) (tb (st l))) (st l)) l) -> wp (push_len (Z.of_nat j) v) Q E l.
Proof.
  intros Hj Hv HQ. unfold push_len. wp_step. wp_step. wp_step. rewrite u16_id by done. apply (wp_need _ (<[j := v]> (lens (tb (st l))))).
  { unfold wr. rewrite (proj2 (Z.leb_le _ _)), (proj2 (Z.ltb_lt _ _)), Nat2Z.id by lia. done. }
  unfold upd_tb. wp_step. exact HQ.
Qed.

Record at_lenlens (l : loc) (h cl : list Z) : Prop := {
  an_mode : mode (st l) = LENLENS;
  an_frame : frame l h;
  an_bits : bits_ (rg l) < 8;
  an_counts : counts_ok (tb (st l));
  an_ok : lenlens_ok (tb (st l)) cl
}.
Definition lenlens_res (l : loc) (h cl : list Z) (syms : list nat) : Prop :=
  forall F, R F = go_codes zlib (st l) h (rbind (read_code_lengths syms cl (ahead l F)) (read_codes (Z.to_nat (nlen (tb (st l)))) (Z.to_nat (ndist (tb (st l)))))).
Abbreviation syms_left t := (drop (Z.to_nat (have t)) (take (Z.to_nat (ncode t)) length_order)).

Lemma wp_lenlens_loop fuel l h cl n :
  at_lenlens l h cl -> have (tb (st l)) <= ncode (tb (st l)) -> lenlens_res l h cl (syms_left (tb (st l))) ->
  ncode (tb (st l)) - have (tb (st l)) <= Z.of_nat fuel -> work_left l <= n ->
  wp (lenlens_loop fuel) (fun _ l' => exists cl', at_lenlens l' h cl' /\ lenlens_res l' h cl' [] /\ work_left l' <= n) exits l.
Proof.
  revert l cl. induction fuel as [|fuel IH]; intros l cl Hat Hle HR Hfuel Hw; cbn [lenlens_loop]; wp_step; wp_step;
    destruct (Z.ltb_spec (have (tb (st l))) (ncode (tb (st l)))) as [Hlt|Hge]; pose proof Hat as [Em Hf Hb Hco Hok].
  1: lia.
  1,3: wp_step; exists cl; split; [done|]; split; [|done]; intros F; rewrite HR; rewrite drop_ge; [done|rewrite length_take; lia].
  pose proof (fr_regs _ _ _ _ _ Hf) as Hr. pose proof (fr_lens _ _ _ _ _ Hf) as H320. pose proof Hco as (Hnc & _ & _). pose proof (ll_have _ _ Hok) as Hhave.
  assert (Hi : is_Some (length_order !! Z.to_nat (have (tb (st l))))) by (apply lookup_lt_is_Some_2; cbn; lia). destruct Hi as [j Ej].
  destruct (order_nth _ _ Ej) as (Eo & Hj & _). rewrite Z2Nat.id in Eo by lia.
  assert (Esyms : syms_left (tb (st l)) = j :: drop (S (Z.to_nat (have (tb (st l))))) (take (Z.to_nat (ncode (tb (st l)))) length_order)).
  { apply drop_S. rewrite lookup_take_Some. split; [done|lia]. }
  wp_step. apply wp_needbits; [done|lia|lia|..].
  { intros l1 H1 Hnil Hlt1. apply (exit_starved _ _ _ _ _ LENLENS l l1 h); auto.
    - unfold InflateSim.pending. rewrite (rf_st _ _ H1). split; [lia|]. split; [done|]. split; [done|]. exists cl. split; [done|].
      intros F. rewrite (ahead_refilled _ _ _ H1). apply HR.
    - rewrite HR, Esyms, <- (ahead_refilled _ _ _ H1). cbn [read_code_lengths]. change 3%nat with (Z.to_nat 3). rewrite getbits_starved by (done || apply H1). done. }
  intros l1 H1 Hge1 Hor. pose proof (rf_ok _ _ H1) as Hr1. wp_step. apply wp_bits; [lia|]. change (2 ^ 3) with 8.
  wp_step. apply (wp_need _ (Z.of_nat j)); [done|]. wp_step. pose proof (Z.mod_pos_bound (hold (rg l1)) 8 ltac:(lia)) as Hv. set (v := hold (rg l1) `mod` 8) in *.
  apply wp_push_at; rewrite ?(rf_st _ _ H1); [lia|unfold is_u16; lia|]. wp_step. apply wp_dropbits; [done|cbn; lia|].
  pose proof (lenlens_push (tb (st l)) cl j v _ Hok Ej ltac:(lia) H320 eq_refl) as Hok'.
  set (l3 := with_rg _ _). apply (IH l3 (<[j := v]> cl)).
  - split; [done| |cbn; destruct Hor as [->|]; lia|done|exact Hok'].
    apply (frame_st _ _ _ (with_rg (dropped 3 (rg l1)) l1)); [split; cbn; rewrite ?(rf_st _ _ H1), ?length_insert; auto|].
    apply frame_dropped; [lia|]. by eapply frame_refilled.
  - cbn. lia.
  - intros F. rewrite HR, Esyms, <- (ahead_refilled _ _ _ H1). cbn [read_code_lengths]. change 3%nat with (Z.to_nat 3). rewrite getbits_ahead by (done || lia).
    cbn [rbind]. change (2 ^ 3) with 8. fold v. cbn [l3 with_rg with_st st set_tb tb pushed set_have set_lens have ncode nlen ndist].
    replace (Z.to_nat (have (tb (st l)) + 1)) with (S (Z.to_nat (have (tb (st l))))) by lia. done.
  - cbn. lia.
  - change (work_left (with_st (set_tb (pushed 1 (<[j:=v]> (lens (tb (st l)))) (tb (st l))) (st l)) (with_rg (dropped 3 (rg l1)) l1)) <= n).
    rewrite work_mode, work_dropped, (work_refilled _ _ H1) by (done || lia). cbn. rewrite (rf_st _ _ H1). lia.
Qed.

(** The lengths that are not given are zero. *)
Lemma wp_zero_lens fuel l h cl n :
  at_lenlens l h cl -> lenlens_res l h cl [] -> 19 - have (tb (st l)) <= Z.of_nat fuel -> work_left l <= n ->
  wp (zero_lens fuel) (fun _ l' => at_lenlens l' h cl /\ lenlens_res l' h cl [] /\ have (tb (st l')) = 19 /\ work_left l' <= n) exits l.
Proof.
  revert l. induction fuel as [|fuel IH]; intros l Hat HR Hfuel Hw; cbn [zero_lens]; wp_step; wp_step;
    destruct (Z.ltb_spec (have (tb (st l))) 19) as [Hlt|Hge]; pose proof Hat as [Em Hf Hb Hco Hok]; pose proof (ll_have _ _ Hok) as Hhave.
  1: lia.
  1,3: wp_step; split; [done|]; split; [done|]; split; [lia|done].
  pose proof (fr_lens _ _ _ _ _ Hf) as H320.
  assert (Hi : is_Some (length_order !! Z.to_nat (have (tb (st l))))) by (apply lookup_lt_is_Some_2; cbn; lia). destruct Hi as [j Ej].
  destruct (order_nth _ _ Ej) as (Eo & Hj & _). rewrite Z2Nat.id in Eo by lia. destruct (order_split _ _ Ej) as (_ & E2 & _).
  wp_step. apply (wp_need _ (Z.of_nat j)); [done|]. wp_step. apply wp_push_at; [lia|unfold is_u16; lia|].
  pose proof (lenlens_push (tb (st l)) cl j 0 _ Hok Ej ltac:(lia) H320 eq_refl) as Hok'.
  rewrite (list_insert_id cl j) in Hok' by (apply (ll_zero _ _ Hok); rewrite E2; apply list_elem_of_here).
  apply IH; [|exact HR|cbn; lia|by rewrite work_mode; cbn; lia].
  split; [done| |done|done|exact Hok']. apply frame_st; [split; cbn; rewrite ?length_insert; auto|done].
Qed.

Lemma lenlens_all t cl : lenlens_ok t cl -> have t = 19 -> length (lens t) = 320%nat -> take 19 (lens t) = cl.
Proof.
  intros [_ L2 _ L4 _] Eh H320. apply list_eq. intros i. destruct (Nat.lt_ge_cases i 19) as [Hi|Hi].
  - rewrite lookup_take, decide_True by done. apply L4. rewrite Eh. change (Z.to_nat 19) with 19%nat.
    do 19 (destruct i as [|i]; [apply (bool_decide_unpack _); by vm_compute|]). lia.
  - rewrite !lookup_ge_None_2; [done|lia|rewrite length_take; lia].
Qed.

Lemma wp_lenlens l h n : mode (st l) = LENLENS -> sim l h -> work_left l <= n -> wp (do_LENLENS base prev) (fun _ => on n) exits l.
Proof.
  intros Em Hs Hw. apply (sim_elim _ _ _ _ LENLENS) in Hs as [Hf (Hb & Hco & Hle & cl0 & Hok0 & HR0)]; [|done].
  unfold do_LENLENS. wp_step. eapply wp_conseq; [apply (wp_lenlens_loop 19 l h cl0 n); auto; [done|destruct Hok0, Hco; lia]| |done].
  clear l Em Hw Hf Hb Hco Hle Hok0 HR0. intros [] l (cl & Hat & HR & Hw). wp_step.
  eapply wp_conseq; [apply (wp_zero_lens 19 l h cl n); auto; destruct Hat as [_ _ _ _ [? _ _ _ _]]; lia| |done].
  clear l Hat HR Hw. intros [] l ([Em Hf Hb Hco Hok] & HR & H19 & Hw).
  pose proof (lenlens_all _ _ Hok H19 (fr_lens _ _ _ _ _ Hf)) as Ecl. pose proof (ll_range _ _ Hok) as Hr7.
  assert (Hr15 : Forall (fun x => 0 <= x <= 15) cl) by (eapply List.Forall_impl; [|exact Hr7]; cbn; lia).
  set (t := tb (st l)) in *. unfold upd_tb. wp_step. wp_step. wp_step. wp_step. wp_step.
  change 7 with (root_bits CODES) at 2. change 19 with (Z.of_nat 19) at 1.
  apply wp_table_call; cbn [with_st st set_tb set_tabs tb set_built lens work codes tnext Z.to_nat]; fold t; rewrite ?drop_0, ?Ecl; auto.
  { apply (fr_work _ _ _ _ _ Hf). }
  { apply (fr_codes _ _ _ _ _ Hf). }
  { unfold t. rewrite (fr_lens _ _ _ _ _ Hf). lia. }
  { lia. }
  { by vm_compute. }
  { intros Hno. wp_step. eapply (on_bad _ _ _ _ _ (with_st _ l) h).
    - apply frame_st; [split; cbn; rewrite ?Em; auto|done].
    - intros F. rewrite HR. cbn [read_code_lengths rbind]. unfold read_codes. rewrite decide_False; [done|]. by rewrite (acceptable_codes CODES).
    - rewrite work_mode. cbn. rewrite Em. cbn. lia. }
  intros tab nx b wk Hacc Hdec Htab Hwk Hnx _ Hroot. wp_step. wp_step. wp_step. wp_step. wp_step. wp_step.
  apply (wp_codelens _ h); [done|..].
  - apply (sim_intro _ _ _ _ CODELENS); [done|..].
    + apply (frame_st _ _ _ l); [|done]. split; cbn; rewrite ?Em, ?Hwk, ?Htab, ?(fr_work _ _ _ _ _ Hf), ?(fr_codes _ _ _ _ _ Hf); auto.
    + split; [done|]. exists cl, [], (total_codes t). split; [|split; [by left|split; [done|]]].
      * split; auto; cbn; try lia; [destruct Hroot as [->|]; [|done]|].
        -- eapply List.Forall_impl; [|exact Hr7]. cbn. lia.
        -- apply (decodes_reads CODES cl tab 0 b nx); auto. rewrite (ll_length _ _ Hok). done.
      * intros F. rewrite HR. cbn [read_code_lengths rbind]. unfold read_codes. rewrite decide_True by (by rewrite (acceptable_codes CODES)).
        fold t. replace (Z.to_nat (nlen t) + Z.to_nat (ndist t))%nat with (total_codes t); [done|].
        destruct Hco as (_ & ? & ?). apply Z2Nat.inj_add; lia.
  - unfold work_left in *. cbn [with_st st rg set_mode mode rank]. rewrite Em in Hw. exact Hw.
Qed.

(** ** The counts *)

Lemma wp_table l h n : mode (st l) = TABLE -> sim l h -> work_left l <= n -> wp (do_TABLE base prev) (fun _ => on n) exits l.
Proof.
  intros Em Hs Hw. apply (sim_elim _ _ _ _ TABLE) in Hs as [Hf (Hb & HR)]; [|done]. pose proof (fr_regs _ _ _ _ _ Hf) as Hr.
  unfold do_TABLE. wp_step. apply wp_needbits; [done|lia|lia|..].
  { intros l1 H1 Hnil Hlt. apply (exit_starved _ _ _ _ _ TABLE l l1 h); auto.
    - unfold InflateSim.pending. rewrite (rf_st _ _ H1). split; [lia|]. intros F. rewrite (ahead_refilled _ _ _ H1). apply HR.
    - rewrite HR, <- (ahead_refilled _ _ _ H1). unfold read_dynamic. change 14%nat with (Z.to_nat 14). rewrite getbits_starved by (done || apply H1). done. }
  intros l1 H1 Hge Hor. pose proof (rf_ok _ _ H1) as Hr1. set (v := hold (rg l1)). pose proof (ro_hold _ Hr1) as Hv. fold v in Hv.
  assert (Em1 : mode (st l1) = TABLE) by (rewrite (rf_st _ _ H1); done).
  wp_step. apply wp_bits; [lia|]. wp_step. apply wp_dropbits; [done|lia|]. destruct (dropped_ok 5 (rg l1) Hr1 ltac:(lia)) as [Hr2 _].
  wp_step. apply wp_bits; [lia|]. wp_step. apply wp_dropbits; [done|cbn; lia|]. destruct (dropped_ok 10 (rg l1) Hr1 ltac:(lia)) as [Hr3 _].
  cbn [with_rg rg]. rewrite dropped_dropped by lia. change (5 + 5) with 10.
  wp_step. apply wp_bits; [lia|]. wp_step. apply wp_dropbits; [done|cbn; lia|]. cbn [with_rg rg]. rewrite dropped_dropped by lia. change (10 + 4) with 14.
  cbn [dropped set_acc hold]. fold v. change (2 ^ 5) with 32. change (2 ^ 4) with 16. change (2 ^ 10) with 1024.
  set (nl := v `mod` 32 + 257). set (nd := (v / 32) `mod` 32 + 1). set (nc := (v / 1024) `mod` 16 + 4).
  assert (Hn : 257 <= nl <= 288 /\ 1 <= nd <= 32 /\ 4 <= nc <= 19) by (unfold nl, nd, nc; zlia).
  assert (HR1 : forall F, R F = go_codes zlib (st l) h (if (286 <? nl) || (30 <? nd) then Bad
    else rbind (read_code_lengths (take (Z.to_nat nc) length_order) (replicate 19 0) (ahead (with_rg (dropped 14 (rg l1)) l1) F)) (read_codes (Z.to_nat nl) (Z.to_nat nd)))).
  { intros F. rewrite HR, <- (ahead_refilled _ _ _ H1). unfold read_dynamic. pose proof (getbits_ahead 14 l1 F Hr1 ltac:(lia)) as Hg.
    change (Z.to_nat 14) with 14%nat in Hg. rewrite Hg. cbn [rbind]. cbv zeta. fold v. change (2 ^ 14) with 16384.
    replace (v `mod` 16384 `mod` 32 + 257) with nl by (unfold nl; zlia). replace ((v `mod` 16384 / 32) `mod` 32 + 1) with nd by (unfold nd; zlia).
    replace (v `mod` 16384 / 1024 + 4) with nc by (unfold nc; zlia).
    replace ((286 <? Z.to_nat nl)%nat || (30 <? Z.to_nat nd)%nat) with ((286 <? nl) || (30 <? nd)); [done|].
    f_equal; [destruct (Z.ltb_spec 286 nl), (Nat.ltb_spec 286 (Z.to_nat nl))|destruct (Z.ltb_spec 30 nd), (Nat.ltb_spec 30 (Z.to_nat nd))]; done || lia. }
  assert (Hf1 : frame (with_rg (dropped 14 (rg l1)) l1) h) by (apply frame_dropped; [lia|]; by eapply frame_refilled).
  assert (Hw1 : work_left (with_rg (dropped 14 (rg l1)) l1) = work_left l - 56) by (rewrite work_dropped, (work_refilled _ _ H1) by (done || lia); lia).
  unfold upd_tb. wp_step. wp_step. destruct ((286 <? nl) || (30 <? nd)) eqn:Eb.
  - wp_step. eapply (on_bad _ _ _ _ _ (with_st _ (with_rg (dropped 14 (rg l1)) l1)) h).
    + apply frame_st; [split; cbn; rewrite ?Em1; auto|done].
    + intros F. rewrite HR1. done.
    + rewrite work_mode, Hw1. cbn. rewrite Em1. cbn. lia.
  - apply orb_false_elim in Eb as [Eb1 Eb2]. apply Z.ltb_ge in Eb1, Eb2. wp_step. wp_step. wp_step. wp_step. apply (wp_lenlens _ h); [done|..].
    + apply (sim_intro _ _ _ _ LENLENS); [done|..].
      * apply (frame_st _ _ _ (with_rg (dropped 14 (rg l1)) l1)); [|done]. split; cbn; rewrite ?Em1; auto.
      * split; [cbn [with_st with_rg rg dropped set_acc bits_]; destruct Hor as [->|]; lia|].
        unfold counts_ok. cbn [with_st st set_mode set_tb tb set_have set_counts ncode nlen ndist have]. split; [lia|]. split; [lia|]. exists (replicate 19 0). split.
        -- split; cbn [with_st st set_tb tb set_have have]; [lia|done|by apply Forall_replicate| |].
           ++ intros j Hj. by apply not_elem_of_nil in Hj.
           ++ intros j Hj. apply lookup_replicate_2. rewrite drop_0 in Hj. apply list_elem_of_lookup in Hj as [i Hi]. apply (order_nth i j Hi).
        -- intros F. rewrite HR1. cbn [with_st with_rg st set_mode set_tb tb set_have set_counts have ncode nlen ndist]. rewrite drop_0.
           rewrite <- (rf_st _ _ H1). done.
    + unfold work_left at 1 in Hw1. unfold work_left at 1. cbn [with_st with_rg st rg set_mode mode rank] in *. rewrite Em1 in Hw1. cbn [rank] in Hw1. lia.
Qed.
End dynamic.
