(* ===== verification/InflateInput.v ===== *)
(** * The input of a call and what is to come

    Whatever the loop of a call does, what it leaves of its input is an end of it, and it does
    not touch the window.  What is to come depends on the bits that are not yet used only. *)

From Stdlib Require Import ZArith Lia Bool.
From stdpp Require Import base numbers list option.
From S2P Require Import Prelude Deflate InfTrees Canon DeflateProofs InflateState InflateFast Inflate InflateMonad InflateSim.
Open Scope Z_scope.

Definition kept (l l' : loc) : Prop := next (rg l') `suffix_of` next (rg l) /\ win (st l') = win (st l).
#[export] Instance kept_preorder : PreOrder kept.
Proof. split; [by split|]. intros l1 l2 l3 [H1 H2] [H3 H4]. split; [by etrans|congruence]. Qed.

Definition shrinks {A} (m : M A) : Prop := forall l,
  match m l with
  | Val _ l' | Leave _ l' | Return _ l' => kept l l'
  | Fault => True
  end.

Lemma shrinks_bind {A B} (m : M A) (f : A -> M B) : shrinks m -> (forall a, shrinks (f a)) -> shrinks (bind m f).
Proof.
  intros Hm Hf l. specialize (Hm l). unfold bind. destruct (m l) as [a l1|r l1|r l1|]; auto.
  specialize (Hf a l1). destruct (f a l1); auto; by etrans.
Qed.
Lemma shrinks_ret {A} (a : A) : shrinks (ret a).
Proof. intros l. cbn. done || reflexivity. Qed.
Lemma shrinks_get : shrinks get.
Proof. intros l. cbn. done || reflexivity. Qed.
Lemma shrinks_fault {A} : shrinks (fault : M A).
Proof. intros l. cbn. done || reflexivity. Qed.
Lemma shrinks_leave {A} r : shrinks (leave r : M A).
Proof. intros l. cbn. done || reflexivity. Qed.
Lemma shrinks_return {A} r : shrinks (return_ r : M A).
Proof. intros l. cbn. done || reflexivity. Qed.
Lemma shrinks_need {A} (o : option A) : shrinks (need o).
Proof. intros l. unfold need. by destruct o; try reflexivity. Qed.
Lemma shrinks_modify f : (forall l, kept l (f l)) -> shrinks (modify f).
Proof. intros H l. apply H. Qed.
Lemma shrinks_upd f : (forall s, win (f s) = win s) -> shrinks (upd f).
Proof. intros H l. split; [cbn; reflexivity|apply H]. Qed.
Lemma shrinks_upd_rg f : (forall r, next (f r) `suffix_of` next r) -> shrinks (upd_rg f).
Proof. intros H l. split; [apply H|done]. Qed.
Lemma shrinks_goto m : shrinks (goto_mode m).
Proof. intros l. cbn. done || reflexivity. Qed.
Lemma shrinks_pullbyte : shrinks PULLBYTE.
Proof. intros l. unfold PULLBYTE. destruct (next (rg l)) as [|b rest] eqn:E; [reflexivity|]. split; [|done]. cbn. rewrite E. by exists [b]. Qed.

Create HintDb shrinks.
#[export] Hint Resolve @shrinks_ret shrinks_get @shrinks_fault @shrinks_leave @shrinks_return @shrinks_need shrinks_goto shrinks_pullbyte : shrinks.
Ltac shrink :=
  repeat lazymatch goal with
  | |- forall _, _ => intros ?
  | |- shrinks (bind _ _) => apply shrinks_bind
  | |- shrinks (match ?x with _ => _ end) => destruct x
  | |- shrinks (let _ := _ in _) => cbv zeta
  | |- shrinks (upd_rg _) => apply shrinks_upd_rg; intros ?; cbn; reflexivity
  | |- shrinks (modify _) => apply shrinks_modify; intros ?; split; cbn; reflexivity
  | |- shrinks (upd _) => apply shrinks_upd; intros ?; reflexivity
  | |- _ => solve [auto with shrinks]
  end.

Lemma shrinks_needbits n : shrinks (NEEDBITS n).
Proof. unfold NEEDBITS. generalize 4%nat. induction n0 as [|fuel IH]; cbn [needbits_loop]; shrink. Qed.
Lemma shrinks_bits n : shrinks (BITS n).
Proof. unfold BITS. shrink. Qed.
Lemma shrinks_dropbits n : shrinks (DROPBITS n).
Proof. unfold DROPBITS. shrink. Qed.
Lemma shrinks_bytebits : shrinks BYTEBITS.
Proof. unfold BYTEBITS. shrink. Qed.
Lemma shrinks_initbits : shrinks INITBITS.
Proof. unfold INITBITS. shrink. Qed.
Lemma shrinks_upd_cp f : shrinks (upd_cp f).
Proof. intros l. cbn. done || reflexivity. Qed.
Lemma shrinks_upd_tb f : shrinks (upd_tb f).
Proof. intros l. cbn. done || reflexivity. Qed.
Lemma shrinks_set_adler v : shrinks (set_adler v).
Proof. unfold set_adler. shrink. Qed.
#[export] Hint Resolve shrinks_needbits shrinks_bits shrinks_dropbits shrinks_bytebits shrinks_initbits shrinks_upd_cp shrinks_upd_tb shrinks_set_adler : shrinks.

Lemma shrinks_code_loop fuel t n : shrinks (code_loop fuel t n).
Proof. induction fuel as [|fuel IH]; cbn [code_loop]; shrink. Qed.
Lemma shrinks_subcode_loop fuel t this : shrinks (subcode_loop fuel t this).
Proof. induction fuel as [|fuel IH]; cbn [subcode_loop]; shrink. Qed.
#[export] Hint Resolve shrinks_code_loop shrinks_subcode_loop : shrinks.
Lemma shrinks_read_code link t n : shrinks (read_code link t n).
Proof. unfold read_code. shrink. Qed.
Lemma shrinks_copy_bytes n f : shrinks (copy_bytes n f).
Proof. revert f. induction n as [|n IH]; intros f; cbn [copy_bytes]; shrink. Qed.
#[export] Hint Resolve shrinks_read_code shrinks_copy_bytes : shrinks.
Lemma shrinks_match : shrinks do_MATCH.
Proof. unfold do_MATCH. shrink. Qed.
Lemma shrinks_lit : shrinks do_LIT.
Proof. unfold do_LIT. shrink. Qed.
#[export] Hint Resolve shrinks_match shrinks_lit : shrinks.
Lemma shrinks_distext : shrinks do_DISTEXT.
Proof. unfold do_DISTEXT. shrink. Qed.
#[export] Hint Resolve shrinks_distext : shrinks.
Lemma shrinks_dist : shrinks do_DIST.
Proof. unfold do_DIST. shrink. Qed.
#[export] Hint Resolve shrinks_dist : shrinks.
Lemma shrinks_lenext : shrinks do_LENEXT.
Proof. unfold do_LENEXT. shrink. Qed.
#[export] Hint Resolve shrinks_lenext : shrinks.

Section call.
Context (base : Z) (prev : option Z).

Lemma shrinks_fast : shrinks (do_fast base prev).
Proof.
  intros l. unfold do_fast, bind, get, need, modify.
  destruct (inflate_fast (tab_at (st l)) base prev (out l) (st l) (rg l)) as [[s r]|] eqn:E; [|done]. cbn.
  unfold inflate_fast in E. destruct (fast_loop _ _ _ _ _ _ _ _ _ _ _ _) as [[e f]|]; [|done]. cbn [mbind option_bind] in E.
  destruct (ip (unread f) <? 0); [done|]. injection E as <- <-. split; cbn; [apply suffix_drop|]. by destruct e.
Qed.
Hint Resolve shrinks_fast : shrinks.
Lemma shrinks_len : shrinks (do_LEN base prev).
Proof. unfold do_LEN. shrink. Qed.
Hint Resolve shrinks_len : shrinks.
Lemma shrinks_push_len i v : shrinks (push_len i v).
Proof. unfold push_len. shrink. Qed.
Hint Resolve shrinks_push_len : shrinks.
Lemma shrinks_fill_lens n v : shrinks (fill_lens n v).
Proof. induction n as [|n IH]; cbn [fill_lens]; shrink. Qed.
Lemma shrinks_table_call type off n b : shrinks (table_call type off n b).
Proof. unfold table_call. shrink. Qed.
Hint Resolve shrinks_fill_lens shrinks_table_call : shrinks.
Lemma shrinks_build_codes : shrinks (build_codes base prev).
Proof. unfold build_codes. shrink. Qed.
Lemma shrinks_repeat_code this : shrinks (repeat_code this).
Proof. unfold repeat_code. shrink. Qed.
Hint Resolve shrinks_build_codes shrinks_repeat_code : shrinks.
Lemma shrinks_codelens_loop fuel : shrinks (codelens_loop fuel).
Proof. induction fuel as [|fuel IH]; cbn [codelens_loop]; shrink. Qed.
Hint Resolve shrinks_codelens_loop : shrinks.
Lemma shrinks_codelens : shrinks (do_CODELENS base prev).
Proof. unfold do_CODELENS. shrink. Qed.
Hint Resolve shrinks_codelens : shrinks.
Lemma shrinks_lenlens_loop fuel : shrinks (lenlens_loop fuel).
Proof. induction fuel as [|fuel IH]; cbn [lenlens_loop]; shrink. Qed.
Lemma shrinks_zero_lens fuel : shrinks (zero_lens fuel).
Proof. induction fuel as [|fuel IH]; cbn [zero_lens]; shrink. Qed.
Hint Resolve shrinks_lenlens_loop shrinks_zero_lens : shrinks.
Lemma shrinks_lenlens : shrinks (do_LENLENS base prev).
Proof. unfold do_LENLENS. shrink. Qed.
Hint Resolve shrinks_lenlens : shrinks.
Lemma shrinks_table : shrinks (do_TABLE base prev).
Proof. unfold do_TABLE. shrink. Qed.
Lemma shrinks_copy : shrinks do_COPY.
Proof.
  unfold do_COPY. apply shrinks_bind; [shrink|]. intros l. cbv zeta. repeat case_match; try solve [shrink].
  all: apply shrinks_bind; [apply shrinks_upd_rg; intros r; cbn; apply suffix_drop|shrink].
Qed.
Hint Resolve shrinks_table shrinks_copy : shrinks.
Lemma shrinks_stored : shrinks do_STORED.
Proof. unfold do_STORED. shrink. Qed.
Lemma shrinks_typedo : shrinks do_TYPEDO.
Proof. unfold do_TYPEDO. shrink. Qed.
Hint Resolve shrinks_stored shrinks_typedo : shrinks.
Lemma shrinks_type flush : shrinks (do_TYPE flush).
Proof. unfold do_TYPE. shrink. Qed.
Hint Resolve shrinks_type : shrinks.
Lemma shrinks_dict flush : shrinks (do_DICT flush).
Proof. unfold do_DICT. shrink. Qed.
Hint Resolve shrinks_dict : shrinks.
Lemma shrinks_dictid flush : shrinks (do_DICTID flush).
Proof. unfold do_DICTID. shrink. Qed.
Lemma shrinks_head : shrinks do_HEAD.
Proof. unfold do_HEAD. shrink. Qed.
Lemma shrinks_check : shrinks do_CHECK.
Proof. unfold do_CHECK, check_trailer, do_DONE. shrink. Qed.
Hint Resolve shrinks_dictid shrinks_head shrinks_check : shrinks.
Lemma shrinks_switch flush : shrinks (switch base prev flush).
Proof. unfold switch, do_DONE. shrink. Qed.
Hint Resolve shrinks_switch : shrinks.
Lemma shrinks_loop fuel flush : shrinks (inflate_loop base prev fuel flush).
Proof. induction fuel as [|fuel IH]; cbn [inflate_loop]; shrink. Qed.
End call.

(** ** What the clauses of the modes have in common

    What is to come depends on the bits that are not yet used only, begins with what was
    written, and ends within those bits. *)

(** ** The bits that are not yet used *)

(** [t = ?f a], with the function of [a] that [t] is. *)
Ltac as_function a :=
  lazymatch goal with
  | |- ?t = _ => let p := eval pattern a in t in lazymatch p with ?g _ => exact (eq_refl (g a)) end
  end.

(** What is to come depends on the input only through the bits that are not yet used. *)
Lemma pending_fun zlib R m l h :
  pending zlib R m l h ->
  exists f, (forall F, R F = f (ahead l F)) /\
    forall l' R', st l' = st l -> bits_ (rg l') = bits_ (rg l) -> hold (rg l') = hold (rg l) ->
      (forall F, R' F = f (ahead l' F)) -> pending zlib R' m l' h.
Proof.
  assert (Hheld : forall l', bits_ (rg l') = bits_ (rg l) -> hold (rg l') = hold (rg l) -> held (rg l') = held (rg l)).
  { intros l' E1 E2. unfold held. by rewrite E1, E2. }
  unfold pending. destruct m; try done.
  1: intros (H1 & H2 & H3 & HR).
  2: intros (H1 & H2 & HR).
  3: intros (H1 & HR).
  4: intros (H1 & HR).
  5: intros (H1 & HR).
  6: intros (H1 & HR).
  7: intros (H1 & H2 & HR).
  8: intros (H1 & HR).
  9: intros (H1 & H2 & H3 & cl & H4 & HR).
  10: intros (H1 & cl & acc & fuel & H2 & H3 & H4 & HR).
  11: intros (lits & dists & H1 & H2 & HR).
  12: intros (lits & dists & e & H1 & H2 & H3 & H4 & H5 & H6 & HR).
  13: intros (lits & dists & H1 & H2 & H3 & HR).
  14: intros (lits & dists & e & H1 & H2 & H3 & H4 & H5 & H6 & H7 & HR).
  15: intros (lits & dists & H1 & H2 & H3 & H4 & H5 & HR).
  16: intros (lits & dists & H1 & H2 & H3 & HR).
  17: intros (H1 & H2 & H3 & HR).
  18: intros (H1 & HR).
  19: intros HR.
  all: eexists; split; [intros F; rewrite HR; as_function (ahead l F)|].
  all: intros l' R' E1 E2 E3 HR'; cbv beta in HR'; rewrite ?E1, ?E2, ?(Hheld l' E2 E3); eauto 20.
Qed.

(** ** What was written is the start of what is to come *)

Lemma fin_prefix zlib wb out bs o : grows out bs o -> out `prefix_of` (fin zlib wb out o).2.
Proof. intros H. by apply (fin_bounded zlib wb) in H as [H _]. Qed.
Lemma res_prefix zlib wb c h : h `prefix_of` c_out c -> h `prefix_of` (result zlib wb c).2.
Proof. intros H. destruct (result_bounded zlib wb c) as [H1 _]. by etrans. Qed.
Lemma after_prefix {A} zlib wb h (r : read A) k :
  (forall a bs, match k a bs with Go c => h `prefix_of` c_out c | Stop _ => True end) -> h `prefix_of` (fin zlib wb h (after r k)).2.
Proof.
  intros H. destruct r as [a bs| |]; cbn [after]; [|done|done]. specialize (H a bs). destruct (k a bs); cbn [fin]; [by apply res_prefix|done].
Qed.
Lemma item_prefix last lits dists h i bs : match step_item last lits dists h i bs with Go c => h `prefix_of` c_out c | Stop _ => True end.
Proof.
  destruct i as [b|len dist|]; cbn [step_item]; [by exists [b]| |reflexivity]. unfold step_match. destruct (_ <? _); [done|]. cbn.
  destruct (copy_match_extends (Z.to_nat len) (Z.to_nat dist) h) as (bytes & -> & _). by exists bytes.
Qed.

(** What is to come, from the clause of a mode. *)
Ltac open_pending :=
  let H := fresh "H" in intros H;
  repeat lazymatch type of H with _ /\ _ => destruct H as [_ H] | ex _ => destruct H as [? H] end;
  rewrite H; clear H.

Lemma pending_prefix zlib R m l h F : pending zlib R m l h -> h `prefix_of` (R F).2.
Proof.
  unfold pending, go_codes, go_item. destruct m; try done.
  all: open_pending.
  all: try done.
  all: try (by apply res_prefix).
  all: try (apply after_prefix; intros a bs; try destruct a; first [done|reflexivity|apply item_prefix]).
  - eapply fin_prefix, grows_stored.
  - apply res_prefix. cbn. destruct (copy_match_extends (Z.to_nat (length_ (cp (st l)))) (Z.to_nat (offset (cp (st l)))) h) as (bytes & -> & _). by exists bytes.
  - apply res_prefix. by exists [length_ (cp (st l))].
  - unfold step_end. destruct zlib; [|done]. apply after_prefix. intros a bs. destruct (_ =? _); done.
Qed.

(** What follows the stream has not been used yet. *)
Lemma pending_leaves zlib R m l h F : pending zlib R m l h -> leaves (ahead l F) (R F).
Proof.
  unfold pending, go_codes, go_item. destruct m; try done.
  all: open_pending.
  all: try done.
  all: try apply result_leaves.
  all: try (apply fin_leaves, spares_after; [|intros a bs; try destruct a; try apply spares_item; cbn; lia || done]).
  - apply (takes_le 32); [lia|]. apply takes_getbits.
  - apply fin_leaves, spares_stored.
  - eapply takes_le; [|apply takes_read_dynamic]. lia.
  - apply (takes_bind 0 0); [apply takes_code_lengths|]. intros cl' rest _. apply takes_read_codes.
  - apply (takes_bind 0 0); [apply takes_read_lengths|]. intros ls rest _. apply takes_make_codes.
  - eapply takes_le; [|eapply (takes_bind _ 1); [apply takes_get_extra|intros; apply takes_read_dist]]. lia.
  - eapply takes_le; [|apply takes_read_dist]. lia.
  - eapply takes_le; [|eapply (takes_bind _ 0); [apply takes_get_extra|intros; cbn; lia]]. lia.
  - apply fin_leaves, spares_end.
  - unfold leaves. cbn. lia.
Qed.
