(* ===== verification/InflateCall.v ===== *)
(** * A call of the decompressor

    The loop of [zlib_inflate] returns, and what it returns with says how far the stream has
    come; the state that it leaves behind is one from which the next call can go on. *)

From Stdlib Require Import ZArith Lia Bool.
From stdpp Require Import base numbers list option.
From S2P Require Import Prelude Deflate InfTrees Canon InfTreesTheorems DeflateProofs InflateState InflateFast Inflate InflateTables InflateMonad InflateCodes InflateSim InflateBlocks InflateMatch InflateDynamic InflateInput.
Open Scope Z_scope.

(** ** The loop *)

Section loop.
Context (zlib : bool) (h0 : list Z) (p0 : outbuf) (R : list Z -> verdict * list Z) (flush base : Z) (prev : option Z).
Context (Hprev : before_ok base prev).

Lemma wp_switch l h n :
  sim zlib h0 p0 R l h -> work_left l <= n ->
  wp (switch base prev flush) (fun _ => on zlib h0 p0 R n) (exits zlib h0 p0 R flush) l.
Proof.
  intros Hs Hw. unfold switch. wp_step. wp_step. pose proof (sim_pending _ _ _ _ _ _ Hs) as Hp. destruct (mode (st l)) eqn:Em; cbn [pending] in Hp; try done.
  - by apply (wp_head _ _ _ _ _ l h).
  - by apply (wp_dictid _ _ _ _ _ l h).
  - by apply (wp_dict _ _ _ _ _ l h).
  - by apply (wp_type _ _ _ _ _ l h).
  - apply (wp_typedo _ _ _ _ _ TYPEDO l h); auto.
  - by apply (wp_stored _ _ _ _ _ l h).
  - by apply (wp_copy _ _ _ _ _ l h).
  - by apply (wp_table _ _ _ _ _ _ _ Hprev l h).
  - by apply (wp_lenlens _ _ _ _ _ _ _ Hprev l h).
  - by apply (wp_codelens _ _ _ _ _ _ _ Hprev l h).
  - by apply (wp_len _ _ _ _ _ _ _ Hprev l h).
  - by apply (wp_lenext _ _ _ _ _ l h).
  - by apply (wp_dist _ _ _ _ _ l h).
  - by apply (wp_distext _ _ _ _ _ l h).
  - by apply (wp_match _ _ _ _ _ l h).
  - by apply (wp_lit _ _ _ _ _ l h).
  - by apply (wp_check _ _ _ _ _ l h).
  - unfold do_DONE. wp_step. exists h. split; [done|]. right. left. done.
  - wp_step. exists h. split; [done|]. right. right. done.
Qed.

Lemma wp_loop fuel l h :
  sim zlib h0 p0 R l h -> work_left l < Z.of_nat fuel ->
  wp (inflate_loop base prev fuel flush) (fun _ _ => False) (exits zlib h0 p0 R flush) l.
Proof.
  revert l h. induction fuel as [|fuel IH]; intros l h Hs Hw.
  { exfalso. unfold work_left in Hw. pose proof (ro_left _ (fr_regs _ _ _ _ _ (sim_frame _ _ _ _ _ _ Hs))).
    assert (0 <= rank (mode (st l))) by (destruct (mode (st l)); cbn; lia). lia. }
  cbn [inflate_loop]. wp_step. eapply wp_conseq; [by apply (wp_switch l h (work_left l))| |done].
  intros [] l1 (h1 & Hs1 & Hw1). apply (IH l1 h1); [done|lia].
Qed.

Lemma fuel_enough l : reg_ok (rg l) -> work_left l < Z.of_nat (inflate_fuel (rg l)).
Proof.
  intros Hr. unfold work_left, inflate_fuel. rewrite length_stream by done. pose proof (ro_bits _ Hr). pose proof (ro_left _ Hr).
  assert (rank (mode (st l)) <= 3) by (destruct (mode (st l)); cbn; lia). lia.
Qed.
End loop.

(** ** Between calls *)

(** What the state that a call finds stands for: the history [h], and for the bytes that come
    what the specification gives, [S]. *)
Definition at_rest (strm : z_stream) : loc :=
  mkLoc (state strm) (mkRegs [] [] 0 (s_hold (state strm)) (s_bits (state strm))) 0 (adler strm) (total_out strm).
Definition ready (zlib : bool) (h : list Z) (S : list Z -> verdict * list Z) (strm : z_stream) : Prop :=
  sim zlib h (mkBuf [] 0) S (at_rest strm) h.

Lemma load_ready zlib h S strm :
  ready zlib h S strm -> Forall is_u8 (next_in strm) -> 0 <= avail_out strm ->
  sim zlib h (mkBuf (next_out strm) (avail_out strm + Z.of_nat (length (next_out strm)))) (fun F => S (next_in strm ++ F)) (load strm) h.
Proof.
  intros [[F1 F2 F3 F4 F5 F6 F7 F8 F9 F10 F11 F12 F13 F14] Hp] Hin Hav. unfold load.
  set (s := if bool_decide (mode (state strm) = TYPE) then set_mode TYPEDO (state strm) else state strm).
  assert (Es : s = state strm /\ mode (state strm) <> TYPE \/ s = set_mode TYPEDO (state strm) /\ mode (state strm) = TYPE).
  { unfold s. case_bool_decide; auto. }
  assert (Hfr : forall m, summed m = summed (mode (state strm)) -> before_check m = before_check (mode (state strm)) -> forall s, s = set_mode m (state strm) ->
    frame zlib h (mkBuf (next_out strm) (avail_out strm + Z.of_nat (length (next_out strm))))
      (mkLoc s (mkRegs (next_in strm) (next_out strm) (avail_out strm) (s_hold s) (s_bits s)) (avail_out strm) (adler strm) (total_out strm)) h).
  { intros m E1 E2 s' ->. unfold unsummed in *. cbn in *. destruct F1 as [G1 G2 _ _]. split; unfold unsummed; cbn; rewrite ?E1, ?E2, ?Z.sub_diag; auto.
    - by split.
    - exists []. rewrite !app_nil_r. repeat split; cbn; lia. }
  assert (Ha : forall F : list Z, ahead (at_rest strm) (next_in strm ++ F) =
    ahead (mkLoc s (mkRegs (next_in strm) (next_out strm) (avail_out strm) (s_hold s) (s_bits s)) (avail_out strm) (adler strm) (total_out strm)) F).
  { intros F. unfold ahead, stream. cbn. rewrite app_nil_r, bits_of_bytes_app, app_assoc. unfold held. cbn. by destruct Es as [[-> _]|[-> _]]. }
  destruct (pending_fun _ _ _ _ _ Hp) as (f & HS & Hf). destruct Es as [[-> Hm]|[-> Hm]].
  - split.
    + apply (Hfr (mode (state strm))); auto. by destruct (state strm).
    + apply Hf; auto. intros F. rewrite HS. f_equal. apply Ha.
  - split.
    + apply (Hfr TYPEDO); auto; by rewrite Hm.
    + cbn in Hm. cbn [st set_mode mode]. unfold at_rest in Hp. cbn [st] in Hp. rewrite Hm in Hp. destruct Hp as [Hb HS'].
      split; [done|]. intros F. rewrite HS'. f_equal. f_equal. apply Ha.
Qed.

(** ** Leaving *)

(** The window that a call leaves. *)
Lemma leave_window zlib h0 p0 l h :
  frame zlib h0 p0 l h ->
  exists w', (if negb (wsize (win (st l)) =? 0) || (before_check (mode (st l)) && negb (out l =? left (rg l)))
              then zlib_updatewindow (win (st l)) (put (rg l)) (out l - left (rg l)) else Some (win (st l))) = Some w' /\
    win_fits w' /\ wsize w' = wsize (win (st l)) /\
    (wsize (win (st l)) <> 0 -> before_check (mode (st l)) = true -> win_holds w' h).
Proof.
  intros Hf. destruct (fr_put _ _ _ _ _ Hf) as (new & P1 & P2 & P3 & P4). pose proof (fr_fits _ _ _ _ _ Hf) as Hfit.
  destruct (update_ok (win (st l)) (put (rg l)) (out l - left (rg l))) as (w' & E & Hu); [done|unfold unsummed in P3; rewrite P1, length_app; lia|].
  destruct (_ || _) eqn:Ec.
  - exists w'. split; [done|]. split; [apply (up_fits _ _ _ _ Hu)|]. split; [apply (up_size _ _ _ _ Hu)|].
    intros Hne Hb. specialize (P4 Hb). unfold unsummed in P4. rewrite P4, P1 in Hu. rewrite P2.
    by apply (updated_holds (win (st l)) w' p0); [| |apply (fr_holds _ _ _ _ _ Hf)|].
  - exists (win (st l)). split; [done|]. split; [done|]. split; [done|]. intros Hne. apply orb_false_iff in Ec as [Ec _].
    apply negb_false_iff, Z.eqb_eq in Ec. done.
Qed.

(** The check value that a call leaves. *)
Lemma leave_check zlib h0 p0 l h :
  frame zlib h0 p0 l h -> zlib = true -> summed (mode (st l)) = true ->
  (if negb (wrap (st l) =? 0) && negb (unsummed l =? 0)
   then zlib_adler32 (check (st l)) (Some (drop (length h - Z.to_nat (unsummed l)) h)) else check (st l)) = adler32 h.
Proof.
  intros Hf -> Hs. destruct (written_unsummed _ _ _ _ _ Hf) as [_ Hle]. rewrite (fr_wrap _ _ _ _ _ Hf), (fr_sum _ _ _ _ _ Hf eq_refl Hs). cbn [c_bool Z.eqb negb andb].
  destruct (Z.eqb_spec (unsummed l) 0) as [E|E]; cbn [negb].
  - rewrite E, Nat.sub_0_r, firstn_all. done.
  - rewrite zlib_adler32_app, take_drop; [done|]. apply Forall_drop, (fr_bytes _ _ _ _ _ Hf).
Qed.

(** [ret] is [Z_OK] only when there was progress. *)
Definition final_ret (strm : z_stream) (flush ret : Z) (l : loc) : Z :=
  if ((Z.of_nat (length (next_in strm)) - Z.of_nat (length (next (rg l))) =? 0) && (out l - left (rg l) =? 0) || (flush =? Z_FINISH)) && (ret =? Z_OK)
  then Z_BUF_ERROR else ret.

(** The stream has the registers, and the state of the window is of the same size. *)
Record placed (l : loc) (strm : z_stream) : Prop := {
  pl_next : next_in strm = next (rg l);
  pl_put : next_out strm = put (rg l) /\ avail_out strm = left (rg l);
  pl_size : wsize (win (state strm)) = wsize (win (st l))
}.
Record unloaded (zlib : bool) (S : list Z -> verdict * list Z) (l : loc) (h : list Z) (strm : z_stream) : Prop := {
  un_placed : placed l strm;
  un_bits : s_bits (state strm) = bits_ (rg l);
  un_pending : pending zlib S (mode (st l)) (at_rest strm) h;
  un_ready : wsize (win (st l)) <> 0 -> ready zlib h S strm
}.

Lemma leave_ok zlib h0 p0 R strm flush ret l h :
  sim zlib h0 p0 R l h -> flush <> Z_PACKET_FLUSH ->
  exists S strm', inf_leave strm flush ret l = Some (final_ret strm flush ret l, strm') /\
    (forall F, R F = S (next (rg l) ++ F)) /\ unloaded zlib S l h strm'.
Proof.
  intros [Hf Hp] Hfl. destruct (leave_window _ _ _ _ _ Hf) as (w' & Ew & Hfit & Hsize & Hholds).
  destruct (written_unsummed _ _ _ _ _ Hf) as [Ewr Hle]. pose proof (leave_check _ _ _ _ _ Hf) as Hck.
  destruct (pending_fun _ _ _ _ _ Hp) as (f & HR & Hpf). exists (fun G => f (held (rg l) ++ bits_of_bytes G)).
  unfold inf_leave. cbn [set_hold win mode wrap check total last]. rewrite Ew, bind_some. unfold unsummed in Ewr, Hck. rewrite Ewr, bind_some. cbv beta zeta.
  rewrite (proj2 (Z.eqb_neq flush Z_PACKET_FLUSH) Hfl). cbn [andb]. eexists. split; [done|]. split.
  { intros F. rewrite HR. unfold ahead, stream. by rewrite bits_of_bytes_app, app_assoc. }
  assert (Hpend : forall w ck tot a t, pending zlib (fun G => f (held (rg l) ++ bits_of_bytes G)) (mode (st l))
     (mkLoc (set_check ck (set_total tot (set_win w (set_hold (hold (rg l)) (bits_ (rg l)) (st l))))) (mkRegs [] [] 0 (hold (rg l)) (bits_ (rg l))) 0 a t) h).
  { intros w ck tot a t.
    pose proof (Hpf (mkLoc (st l) (mkRegs [] [] 0 (hold (rg l)) (bits_ (rg l))) 0 a t) (fun G => f (held (rg l) ++ bits_of_bytes G)) eq_refl eq_refl eq_refl) as H.
    unfold ahead, stream, held in H. cbn in H. rewrite app_nil_r in H. specialize (H (fun _ => eq_refl)). destruct (mode (st l)); try exact H.
    destruct H as (H1 & cl & acc & fuel & [C1 C2 C3 C4 C5 C6] & Hrest). split; [done|]. exists cl, acc, fuel. split; [by split|exact Hrest]. }
  split; [done|done|apply Hpend|]. intros Hne. split; [|apply Hpend].
  destruct Hf as [F1 (new & P1 & P2 & P3 & P4) F3 F4 F5 F6 F7 F8 F9 F10 F11 F12 F13 F14]. destruct F1 as [G1 G2 G3 G4].
  split; unfold unsummed in *; cbn; rewrite ?Nat.sub_0_r, ?firstn_all; auto.
  - by split.
  - exists []. rewrite app_nil_r. repeat split; cbn; lia.
  - rewrite Z.sub_0_r, F13, u32_add_l. f_equal. lia.
Qed.

(** ** A call *)

(** The stream after a call that wrote [new]. *)
Record moved (strm strm' : z_stream) (new : list Z) : Prop := {
  mv_out : next_out strm' = next_out strm ++ new;
  mv_room : avail_out strm' = avail_out strm - Z.of_nat (length new);
  mv_fits : 0 <= avail_out strm';
  mv_in : next_in strm' `suffix_of` next_in strm;
  mv_size : wsize (win (state strm')) = wsize (win (state strm))
}.

(** What a result says of the stream: [S] is what is to come, and [h] all of the output. *)
Definition tells (ret : Z) (strm' : z_stream) (S : list Z -> verdict * list Z) (h : list Z) : Prop :=
  ret = Z_STREAM_END /\ (forall F, S F = (Complete (bits_of_bytes F), h)) \/
  ret = Z_DATA_ERROR /\ (forall F, S F = (Invalid, h)) \/
  ret = Z_NEED_DICT /\ (forall F, S F = (Dictionary, h)) \/
  (ret = Z_OK \/ ret = Z_BUF_ERROR) /\ (avail_out strm' = 0 \/ next_in strm' = [] /\ S [] = (Starved, h)).

Record called (zlib : bool) (h : list Z) (S : list Z -> verdict * list Z) (strm : z_stream) (flush ret : Z)
    (strm' : z_stream) (new : list Z) (S' : list Z -> verdict * list Z) : Prop := {
  cd_moved : moved strm strm' new;
  cd_bytes : Forall is_u8 (h ++ new);
  cd_rest : forall F, S (next_in strm ++ F) = S' (next_in strm' ++ F);
  cd_tells : tells ret strm' S' (h ++ new);
  cd_progress : ret = Z_OK -> flush <> Z_FINISH /\ (length (next_in strm') < length (next_in strm) \/ new <> [])%nat;
  cd_prefix : forall F, h ++ new `prefix_of` (S' F).2;
  cd_stuck : ret = Z_BUF_ERROR -> flush = Z_FINISH \/ next_in strm' = next_in strm /\ (new = [] \/ next_in strm = []);
  cd_ready : ret <> Z_NEED_DICT -> wsize (win (state strm)) <> 0 -> ready zlib (h ++ new) S' strm'
}.

(** Where the buffers are at the end of the loop. *)
Lemma loop_moved zlib h0 strm l h :
  frame zlib h0 (mkBuf (next_out strm) (avail_out strm + Z.of_nat (length (next_out strm)))) l h -> kept (load strm) l ->
  exists new, h = h0 ++ new /\ (0 <= unsummed l <= Z.of_nat (length new) /\ (before_check (mode (st l)) = true -> unsummed l = Z.of_nat (length new))) /\
    forall strm', placed l strm' -> moved strm strm' new.
Proof.
  intros Hf [Hk Hw]. destruct (fr_put _ _ _ _ _ Hf) as (new & P1 & P2 & P3). pose proof (fr_room _ _ _ _ _ Hf) as Hroom.
  exists new. split; [done|]. split; [done|]. intros strm' [U1 [U2 U3] U4]. cbn in Hroom, P1. rewrite P1, length_app in Hroom. split.
  - congruence.
  - lia.
  - pose proof (ro_left _ (fr_regs _ _ _ _ _ Hf)). lia.
  - rewrite U1. exact Hk.
  - rewrite U4, Hw. cbn. by case_bool_decide.
Qed.

(** [exits] of a [goto inf_leave] as a result. *)
Lemma left_tells zlib h0 p0 R strm flush r l h S strm' :
  sim zlib h0 p0 R l h -> flush <> Z_BLOCK -> left_with R flush r l h -> (forall F, R F = S (next (rg l) ++ F)) -> unloaded zlib S l h strm' ->
  tells (final_ret strm flush r l) strm' S h.
Proof.
  intros Hs Hfl Hl HS [[U1 [U2 U3] U4] Ub Hp _]. unfold final_ret. destruct Hl as [[Hr Hw]|[[-> Em]|[-> Em]]].
  - assert (r = Z_OK) as -> by (destruct Hr as [[-> _]|[-> _]]; done). right. right. right. split; [case_match; auto|].
    rewrite U1, U3. destruct Hw as [H|[[H1 H2]|[H _]]]; [by left|right|done]. split; [done|]. rewrite <- H2, HS, H1. done.
  - left. rewrite andb_false_r. split; [done|]. rewrite Em in Hp. destruct Hp as [Hb HS']. intros F. rewrite HS'. unfold ahead, stream, held. cbn in Hb |- *.
    by rewrite Hb.
  - right. left. rewrite andb_false_r. split; [done|]. rewrite Em in Hp. apply Hp.
Qed.
Lemma final_progress strm flush r l :
  final_ret strm flush r l = Z_OK -> next (rg l) `suffix_of` next_in strm ->
  flush <> Z_FINISH /\ ((length (next (rg l)) < length (next_in strm))%nat \/ out l - left (rg l) <> 0).
Proof.
  unfold final_ret. intros H Hs. apply suffix_length in Hs. destruct (r =? Z_OK) eqn:Er; [|rewrite andb_false_r in H; apply Z.eqb_neq in Er; done].
  rewrite andb_true_r in H. destruct (_ || _) eqn:E; [done|]. apply orb_false_iff in E as [E1 E2]. apply Z.eqb_neq in E2. split; [done|].
  apply andb_false_iff in E1 as [E1|E1]; apply Z.eqb_neq in E1; [left; lia|by right].
Qed.
Lemma final_stuck strm flush r l :
  final_ret strm flush r l = Z_BUF_ERROR -> r <> Z_BUF_ERROR -> next (rg l) `suffix_of` next_in strm ->
  r = Z_OK /\ (flush = Z_FINISH \/ next (rg l) = next_in strm /\ out l - left (rg l) = 0).
Proof.
  unfold final_ret. intros H Hne [k Hk]. destruct (r =? Z_OK) eqn:Er; [|by rewrite andb_false_r in H].
  apply Z.eqb_eq in Er. split; [done|]. rewrite andb_true_r in H. destruct (_ || _) eqn:E; [|done]. apply orb_true_iff in E as [E|E]; [|left; by apply Z.eqb_eq].
  apply andb_true_iff in E as [E1%Z.eqb_eq E2%Z.eqb_eq]. right. split; [|done]. rewrite Hk, length_app in E1. destruct k; [done|]. cbn in E1. lia.
Qed.

(** A call does not move the output buffer. *)
Lemma inflate_place strm flush ret strm' :
  zlib_inflate strm flush = Some (ret, strm') -> out_addr strm' = out_addr strm /\ out_prev strm' = out_prev strm.
Proof.
  unfold zlib_inflate. destruct (inflate_loop _ _ _ _ _) as [|r l|r l|]; [done| |by intros [= _ <-]|done]. unfold inf_leave.
  destruct (if _ || _ then zlib_updatewindow _ _ _ else _); [|done]. rewrite bind_some. destruct (written _ _ _); [|done]. rewrite bind_some.
  destruct (_ && _ && _ && _); [destruct (zlib_inflateSyncPacket _)|]; by intros [= _ <-].
Qed.

Theorem call_ok zlib h S strm flush :
  ready zlib h S strm -> Forall is_u8 (next_in strm) -> 0 <= avail_out strm -> before_ok (out_addr strm) (out_prev strm) -> flush <> Z_PACKET_FLUSH -> flush <> Z_BLOCK ->
  exists ret strm' new S', zlib_inflate strm flush = Some (ret, strm') /\ called zlib h S strm flush ret strm' new S'.
Proof.
  intros Hrd Hin Hav Hbefore Hf1 Hf2. pose proof (load_ready _ _ _ _ Hrd Hin Hav) as Hs. unfold zlib_inflate.
  pose proof (wp_loop _ _ _ _ flush (out_addr strm) (out_prev strm) Hbefore _ _ _ Hs (fuel_enough _ (fr_regs _ _ _ _ _ (sim_frame _ _ _ _ _ _ Hs)))) as Hwp.
  pose proof (shrinks_loop (out_addr strm) (out_prev strm) (inflate_fuel (rg (load strm))) flush (load strm)) as Hk.
  unfold wp in Hwp. destruct (inflate_loop _ _ _ _ _) as [?|r l|r l|]; [done| | |done]; destruct Hwp as (h' & Hs' & Hx);
    destruct (loop_moved _ _ _ _ _ (sim_frame _ _ _ _ _ _ Hs') Hk) as (new & -> & [Hun Hex] & Hmv);
    pose proof (fr_bytes _ _ _ _ _ (sim_frame _ _ _ _ _ _ Hs')) as Hby.
  - destruct (leave_ok _ _ _ _ strm flush r l _ Hs' Hf1) as (S' & strm' & -> & HS & Hu). eexists _, _, new, S'. split; [done|].
    pose proof (un_placed _ _ _ _ _ Hu) as Hpl. split; [by apply Hmv|done| | | | | |].
    + intros F. by rewrite HS, (pl_next _ _ Hpl).
    + eapply left_tells; done.
    + intros E. rewrite (pl_next _ _ Hpl). destruct (final_progress _ _ _ _ E (proj1 Hk)) as [? [?|Hne]]; split; auto.
      right. intros ->. unfold unsummed in Hun. cbn in Hun. lia.
    + intros F. eapply pending_prefix, (un_pending _ _ _ _ _ Hu).
    + intros E. rewrite (pl_next _ _ Hpl). destruct (final_stuck _ _ _ _ E) as [-> [?|[En E0]]]; auto; [by destruct Hx as [[[[-> _]|[-> _]] _]|[[-> _]|[-> _]]]|apply Hk|].
      right. split; [done|]. destruct Hx as [[[[_ Hb]|(_ & _ & Hst & _)] _]|[[Hz _]|[Hz _]]]; [|right; congruence|done|done].
      left. specialize (Hex Hb). unfold unsummed in Hex. destruct new; [done|]. cbn in Hex. lia.
    + intros _ Hne. apply (un_ready _ _ _ _ _ Hu). rewrite <- (pl_size _ _ Hpl), (mv_size _ _ _ (Hmv _ Hpl)). done.
  - destruct Hx as [-> Em]. apply (sim_elim _ _ _ _ DICT) in Hs' as [_ [_ HR]]; [|done].
    eexists _, _, new, (fun _ => (Dictionary, h ++ new)). split; [done|]. split; [apply Hmv|done|done| |done|done|done|done]; [by split|].
    right. right. left. done.
Qed.
