(* ===== verification/InflateTheorems.v ===== *)
(** * What the decompressor guarantees

    A stream that is given to [zlib_inflate] in pieces, with any output buffers, comes out as
    the specification says. *)

From Stdlib Require Import ZArith Lia Bool.
From stdpp Require Import base numbers list option.
From S2P Require Import Prelude Deflate InfTrees Canon InfTreesTheorems DeflateProofs InflateState InflateFast Inflate InflateMonad InflateSim InflateInput InflateCall.
Open Scope Z_scope.

(** ** The first call *)

(** The arrays of struct inflate_workspace; what they hold does not matter. *)
Record workspace_ok (s : inflate_state) : Prop := {
  ws_lens : length (lens (tb s)) = 320%nat;
  ws_work : length (work (tb s)) = 288%nat;
  ws_codes : length (codes (tb s)) = 2048%nat;
  ws_window : Z.of_nat (length (window (win s))) = 32768
}.
(** The argument of [zlib_inflateInit2]: negative without the wrapper. *)
Definition window_bits (zlib : bool) : Z := if zlib then 15 else -15.

Lemma init_ready zlib strm :
  workspace_ok (state strm) ->
  exists s, zlib_inflateInit2 strm (window_bits zlib) =
      (Z_OK, mkStream (next_in strm) 0 (next_out strm) (avail_out strm) 0 (out_addr strm) (out_prev strm) (data_type strm) 1 s) /\
    wsize (win s) = 32768 /\ forall strm', state strm' = s -> total_out strm' = 0 -> ready zlib [] (inflated zlib 15) strm'.
Proof.
  intros [W1 W2 W3 W4].
  assert (Hfit : win_fits (mkWindow 15 (Z.shiftl 1 15) 0 0 (window (win (state strm))))).
  { change (Z.shiftl 1 15) with 32768. split; cbn -[Z.of_nat]; auto; lia. }
  assert (Hh : win_holds (mkWindow 15 (Z.shiftl 1 15) 0 0 (window (win (state strm)))) []) by (split; cbn; auto; lia).
  unfold zlib_inflateInit2, window_bits. destruct zlib; cbn -[Z.of_nat]; (eexists; split; [done|]; split; [done|]); intros strm' Es Et.
  all: unfold ready, at_rest; rewrite Es, Et; split; [|split; [by left|]; by split].
  all: split; first [exact Hfit|intros _; exact Hh|cbn -[Z.of_nat]; auto; try done].
  all: exists []; unfold unsummed; repeat split; cbn; lia.
Qed.

(** ** Streams in pieces *)

(** One call of a client: more input, and an output buffer. *)
Record round := mkRound { r_input : list Z; r_room : Z; r_addr : Z; r_prev : option Z }.
Definition round_ok (r : round) : Prop := Forall is_u8 (r_input r) /\ 0 <= r_room r /\ before_ok (r_addr r) (r_prev r).
Definition offer (r : round) (strm : z_stream) : z_stream :=
  mkStream (next_in strm ++ r_input r) (total_in strm) [] (r_room r) (total_out strm) (r_addr r) (r_prev r)
    (data_type strm) (adler strm) (state strm).
Definition inputs (rounds : list round) : list Z := mjoin (r_input <$> rounds).

(** The calls of a client that goes on as long as the decompressor asks for input or space:
    the last result, the stream, all of the output and the rounds that were not needed.
    [None] stands for an access outside of an object, also outside of the output buffers. *)
Fixpoint inflate_rounds (flush ret : Z) (rounds : list round) (strm : z_stream) (sofar : list Z) : option (Z * z_stream * list Z * list round) :=
  match rounds with
  | [] => Some (ret, strm, sofar, [])
  | r :: rounds =>
      '(ret, strm) ← zlib_inflate (offer r strm) flush;
      if r_room r <? Z.of_nat (length (next_out strm)) then None
      else if (ret =? Z_OK) || (ret =? Z_BUF_ERROR) then inflate_rounds flush ret rounds strm (sofar ++ next_out strm)
      else Some (ret, strm, sofar ++ next_out strm, rounds)
  end.

(** What the client knows at the end, of a stream that starts with [input]. *)
Definition concludes (zlib : bool) (input : list Z) (ret : Z) (strm : z_stream) (output : list Z) (rest : list round) : Prop :=
  ret = Z_STREAM_END /\ inflated zlib 15 input = (Complete (bits_of_bytes (next_in strm ++ inputs rest)), output) \/
  ret = Z_DATA_ERROR /\ inflated zlib 15 input = (Invalid, output) \/
  ret = Z_NEED_DICT /\ inflated zlib 15 input = (Dictionary, output) \/
  (ret = Z_OK \/ ret = Z_BUF_ERROR) /\ rest = [] /\ (forall more, output `prefix_of` (inflated zlib 15 (input ++ more)).2) /\
    (avail_out strm = 0 \/ next_in strm = [] /\ inflated zlib 15 input = (Starved, output)).

Lemma offer_ready zlib h S r strm : ready zlib h S strm -> ready zlib h S (offer r strm).
Proof. intros H. exact H. Qed.
Lemma ready_prefix zlib h S strm F : ready zlib h S strm -> h `prefix_of` (S F).2.
Proof. intros [_ H]. by eapply pending_prefix. Qed.
Lemma moved_bytes strm strm' new : moved strm strm' new -> Forall is_u8 (next_in strm) -> Forall is_u8 (next_in strm').
Proof. intros H. destruct (mv_in _ _ _ H) as [k ->]. by intros [_ H']%Forall_app. Qed.

Lemma rounds_ok zlib flush rounds past h S ret strm :
  flush <> Z_PACKET_FLUSH -> flush <> Z_BLOCK -> wsize (win (state strm)) <> 0 ->
  ready zlib h S strm -> Forall is_u8 (next_in strm) -> Forall round_ok rounds ->
  (forall F, inflated zlib 15 (past ++ F) = S (next_in strm ++ F)) ->
  (ret = Z_OK \/ ret = Z_BUF_ERROR) /\ (avail_out strm = 0 \/ next_in strm = [] /\ S [] = (Starved, h)) ->
  exists ret' strm' output rest, inflate_rounds flush ret rounds strm h = Some (ret', strm', output, rest) /\
    concludes zlib (past ++ inputs rounds) ret' strm' output rest.
Proof.
  intros Hf1 Hf2. revert past h S ret strm. induction rounds as [|r rounds IH]; intros past h S ret strm Hw Hrd Hin Hok HS Hret; cbn [inflate_rounds].
  { eexists _, _, _, _. split; [done|]. right. right. right. destruct Hret as [Hr Hx]. split; [done|]. split; [done|].
    cbn [inputs mjoin fmap list_fmap]. rewrite app_nil_r. split.
    - intros F. rewrite HS. by eapply ready_prefix.
    - destruct Hx as [Hx|[Hn Hx]]; [by left|right]. split; [done|]. rewrite <- (app_nil_r past), HS, Hn. done. }
  apply Forall_cons_1 in Hok as [(Hri & Hrr & Hrb) Hok].
  destruct (call_ok zlib h S (offer r strm) flush (offer_ready _ _ _ _ _ Hrd)) as (ret1 & strm1 & new & S1 & -> & Hc); [by apply Forall_app|done|done|done|done|].
  rewrite bind_some. cbv beta iota. pose proof (cd_moved _ _ _ _ _ _ _ _ _ Hc) as Hm. pose proof (mv_out _ _ _ Hm) as Eo. cbn in Eo. pose proof (mv_room _ _ _ Hm) as Er.
  pose proof (mv_fits _ _ _ Hm). cbn in Er. rewrite Eo, (proj2 (Z.ltb_ge _ _)) by lia.
  assert (HS1 : forall F, inflated zlib 15 ((past ++ r_input r) ++ F) = S1 (next_in strm1 ++ F)).
  { intros F. rewrite <- (cd_rest _ _ _ _ _ _ _ _ _ Hc F). cbn [offer next_in]. rewrite <- !app_assoc. apply HS. }
  change (inputs (r :: rounds)) with (r_input r ++ inputs rounds). rewrite app_assoc.
  destruct (cd_tells _ _ _ _ _ _ _ _ _ Hc) as [[-> HT]|[[-> HT]|[[-> HT]|[Hr1 Hx]]]].
  1-3: eexists _, _, _, _; split; [done|]; unfold concludes; rewrite HS1, HT; auto 10.
  replace ((ret1 =? Z_OK) || (ret1 =? Z_BUF_ERROR)) with true by (by destruct Hr1 as [-> | ->]).
  apply (IH (past ++ r_input r) (h ++ new) S1 ret1 strm1); auto.
  - rewrite (mv_size _ _ _ Hm). done.
  - apply (cd_ready _ _ _ _ _ _ _ _ _ Hc); [by destruct Hr1 as [-> | ->]|done].
  - eapply moved_bytes; [done|]. by apply Forall_app.
Qed.

Lemma rounds_start zlib strm rounds flush :
  workspace_ok (state strm) -> next_in strm = [] -> Forall round_ok rounds -> flush <> Z_PACKET_FLUSH -> flush <> Z_BLOCK ->
  exists s, zlib_inflateInit2 strm (window_bits zlib) = (Z_OK, s) /\
  exists ret' strm' output rest, inflate_rounds flush Z_OK rounds s [] = Some (ret', strm', output, rest) /\
    concludes zlib (inputs rounds) ret' strm' output rest.
Proof.
  intros Hws Hin Hok Hf1 Hf2. destruct (init_ready zlib strm Hws) as (s & -> & Hsz & Hrd). rewrite Hin. eexists. split; [done|].
  apply (rounds_ok zlib flush rounds [] [] (inflated zlib 15)); cbn; auto.
  - by rewrite Hsz.
  - split; [by left|]. right. split; [done|]. by destruct zlib.
Qed.

(** C1: whatever pieces a stream is given in, with a window of 32K, raw or with a zlib
    header, with every flush mode but Z_PACKET_FLUSH and Z_BLOCK, and whatever the sizes and
    addresses of the output buffers, [zlib_inflate] never reads outside of its tables, its
    window, its input and its output, never writes more than there is room for, and returns.
    One access is an exception: the byte before an output buffer at an odd address may be
    read, and [round_ok] asks that it can be (see [odd_buffer_reads_before]).  When it reports
    the end of the stream, an error in it or a preset dictionary, then so does the
    specification, with exactly the output of all calls, and the input that is left is what
    follows the stream.  When it asks for more, then all of its output is the start of that
    of every continuation of the stream, and it has either filled the output buffer or used
    all of the input and written all that it determines. *)
Theorem inflate_correct zlib strm rounds flush :
  workspace_ok (state strm) -> next_in strm = [] -> Forall round_ok rounds -> flush <> Z_PACKET_FLUSH -> flush <> Z_BLOCK ->
  let init := zlib_inflateInit2 strm (window_bits zlib) in
  exists ret' strm' output rest, inflate_rounds flush init.1 rounds init.2 [] = Some (ret', strm', output, rest) /\
    concludes zlib (inputs rounds) ret' strm' output rest.
Proof.
  intros Hws Hin Hok Hf1 Hf2. destruct (rounds_start zlib strm rounds flush Hws Hin Hok Hf1 Hf2) as (s & -> & H). exact H.
Qed.

(** A workspace, and the stream of "a man, a plan, a canal" and so on, a byte at a time into
    buffers of seven bytes. *)
Definition blank_state : inflate_state :=
  mkState HEAD 0 0 0 0 0 0 (mkWindow 0 0 0 0 (replicate (Z.to_nat 32768) 0)) 0 0 (mkCopy 0 0 0) (mkTables Lenfix Lenfix 0 0)
    (mkBuild 0 0 0 0 0 (replicate 320 0) (replicate 288 0) (replicate (Z.to_nat 2048) (mkCode 0 0 0))).
Definition blank_stream : z_stream := mkStream [] 0 [] 0 0 0 None 0 0 blank_state.
Lemma blank_workspace : workspace_ok blank_state.
Proof. split; cbn [blank_state lens work codes window tb win]; rewrite length_replicate; lia. Qed.
Definition panama : list Z :=
  [120; 218; 75; 84; 200; 77; 204; 211; 81; 72; 84; 40; 200; 129; 208; 104; 220; 228; 196; 188; 196; 28; 43; 133; 2; 32; 149; 155; 8; 0;
   61; 134; 14; 75].
Definition panama_text : list Z :=
  [97; 32; 109; 97; 110; 44; 32; 97; 32; 112; 108; 97; 110; 44; 32; 97; 32; 109; 97; 110; 44; 32; 97; 32; 112; 108; 97; 110; 44; 32; 97; 32;
   99; 97; 110; 97; 108; 58; 32; 112; 97; 110; 97; 109; 97].
Definition panama_rounds : list round := (fun b => mkRound [b] 7 1001 (Some 0)) <$> panama.

Lemma panama_run : let init := zlib_inflateInit2 blank_stream (window_bits true) in
  (fun x => (x.1.1.1, next_in x.1.1.2, x.1.2, x.2)) <$> inflate_rounds Z_NO_FLUSH init.1 panama_rounds init.2 []
    = Some (Z_STREAM_END, [], panama_text, []).
Proof. vm_compute. reflexivity. Qed.
Lemma panama_rounds_ok : Forall round_ok panama_rounds.
Proof.
  unfold panama_rounds. apply Forall_fmap. assert (Hb : Forall is_u8 panama) by (apply (bool_decide_unpack _); vm_compute; exact I).
  eapply Forall_impl; [|exact Hb]. intros b Hu. split; [by apply Forall_singleton|]. split; [cbn; lia|by right].
Qed.
(** What a run that ends tells. *)
Lemma concludes_end zlib input x rest output :
  (exists ret' strm' output rest, x = Some (ret', strm', output, rest) /\ concludes zlib input ret' strm' output rest) ->
  (fun x => (x.1.1.1, next_in x.1.1.2, x.1.2, x.2)) <$> x = Some (Z_STREAM_END, rest, output, []) ->
  inflated zlib 15 input = (Complete (bits_of_bytes rest), output).
Proof.
  intros (ret' & strm' & output' & rest' & -> & Hc) H. injection H as -> En -> ->.
  destruct Hc as [[_ Hc]|[[Hc _]|[[Hc _]|[[Hc|Hc] _]]]]; try discriminate. rewrite En in Hc. cbn [inputs mjoin fmap list_fmap] in Hc. by rewrite app_nil_r in Hc.
Qed.
(** Running the model decides what a stream decompresses to. *)
Lemma inflated_by_run zlib input output rest :
  Forall is_u8 input ->
  (let init := zlib_inflateInit2 blank_stream (window_bits zlib) in
   (fun x => (x.1.1.1, next_in x.1.1.2, x.1.2, x.2)) <$> inflate_rounds Z_NO_FLUSH init.1 [mkRound input 100000 0 None] init.2 []
     = Some (Z_STREAM_END, rest, output, [])) ->
  inflated zlib 15 input = (Complete (bits_of_bytes rest), output).
Proof.
  intros Hu. destruct (rounds_start zlib blank_stream [mkRound input 100000 0 None] Z_NO_FLUSH blank_workspace eq_refl) as (s & -> & H); [|done|done|].
  { apply Forall_singleton. split; [done|]. split; [cbn; lia|by left]. }
  intros Hrun. pose proof (concludes_end _ _ _ _ _ H Hrun) as Hc. unfold inputs in Hc. cbn in Hc. by rewrite app_nil_r in Hc.
Qed.

Lemma inflate_correct_witness : inflated true 15 panama = (Complete (bits_of_bytes []), panama_text).
Proof.
  exact (concludes_end true (inputs panama_rounds) _ [] panama_text
    (inflate_correct true blank_stream panama_rounds Z_NO_FLUSH blank_workspace eq_refl panama_rounds_ok ltac:(discriminate) ltac:(discriminate)) panama_run).
Defined.

(** a match of distance one after a single byte makes [inflate_fast] read two bytes at the
    byte before the output, which lies before an output buffer at an odd address: nothing
    goes wrong when that byte can be read, and it is an access outside of the buffer when it
    cannot.  The stream is that of 300 times the letter "a". *)
Definition letters : list Z := [120; 1; 75; 28; 5; 68; 3; 0; 216; 168; 113; 173].
Example odd_buffer_reads_before :
  let init := zlib_inflateInit2 blank_stream (window_bits true) in
  let run addr prev := inflate_rounds Z_NO_FLUSH init.1 [mkRound letters 1000 addr prev] init.2 [] in
  run 1001 None = None /\
  (fun x => (x.1.1.1, x.1.2)) <$> run 1001 (Some 7) = Some (Z_STREAM_END, replicate 300 97) /\
  (fun x => (x.1.1.1, x.1.2)) <$> run 1000 None = Some (Z_STREAM_END, replicate 300 97).
Proof. vm_compute. split_and!; reflexivity. Qed.
