(* ===== verification/Result.v ===== *)
(** * Results of code that may fail

    [Fault] is an access outside the object a pointer points into, [Stuck] a loop that ran
    out of fuel, [Panic] a call of [panic] or a store outside a local array. *)

From stdpp Require Import base option.

Inductive res (A : Type) := Ok (a : A) | Fault | Stuck | Panic.
Arguments Ok {A} a.
Arguments Fault {A}.
Arguments Stuck {A}.
Arguments Panic {A}.
Definition rbind {A B} (x : res A) (f : A -> res B) : res B :=
  match x with Ok a => f a | Fault => Fault | Stuck => Stuck | Panic => Panic end.
Notation "'let*' x := a 'in' b" := (rbind a (fun x => b))
  (at level 200, x pattern, a at level 100, b at level 200, right associativity).
Definition of_option {A} (o : option A) : res A := match o with Some a => Ok a | None => Fault end.
