(* ===== verification/Vsnprintf.v ===== *)
(** * Formatted output: format_decode, pointer and vsnprintf of lib/vsprintf.c

    The configuration of the kernel: 32 bits, no kallsyms.  The arguments of a call are
    the 32-bit words of its [va_list]; a pointer argument is an address, and the memory
    it leads to is a [world].  Neither the buffer nor the integers that [%n] stores overlap
    the objects that are read.  A [%n] stores in the memory the buffer is part of, and what
    it stores is listed besides.

    [Fault] is an access outside the object a pointer argument leads to, a missing
    argument, or a text so long that [str - buf] is not an [int]; [Panic] is a store
    outside a local array; [Stuck] is a loop out of fuel. *)

From Stdlib Require Import ZArith Lia Bool.
From stdpp Require Import base numbers list strings.
From S2P Require Import Prelude Kstrtox Vsprintf Result.
Open Scope Z_scope.

(** ** Memory and arguments *)

Record world := mkWorld {
  rd : Z -> list Z;                             (* the bytes from an address to the end of its object *)
  va_format_at : Z -> option (list Z * list Z); (* a [struct va_format]: its format and its arguments *)
  kptr_restrict : Z;
  in_interrupt : bool;                          (* [in_irq() || in_serving_softirq() || in_nmi()] *)
  cap_syslog : bool                             (* [has_capability_noaudit(current, CAP_SYSLOG)] *)
}.

(** The stores of [%n]: address and value. *)
Notation stores := (list (Z * Z)).

(** A word stored at an address, the lowest byte first. *)
Definition store_int (m : Z -> Z) (a v : Z) : Z -> Z :=
  fun k => if (a <=? k) && (k <? a + 4) then u8 (Z.shiftr v (8 * (k - a))) else m k.

Definition chars (s : string) : list Z := map (fun a => Z.of_N (Ascii.N_of_ascii a)) (String.list_ascii_of_string s).

Definition stuck_of {A} (x : option A) : res A := match x with Some a => Ok a | None => Stuck end.

(** [va_arg] of a type of one word. *)
Definition va_arg (args : list Z) : res (Z * list Z) := match args with a :: args => Ok (a, args) | [] => Fault end.

(** The first [n] bytes at an address. *)
Definition read (W : world) (p : Z) (n : nat) : res (list Z) :=
  if (n <=? length (rd W p))%nat then Ok (take n (rd W p)) else Fault.
Definition read32 (W : world) (p : Z) : res Z :=
  let* l := read W p 4 in Ok (le32 (ch l 0) (ch l 1) (ch l 2) (ch l 3)).

(** ** Characters (include/linux/ctype.h, lib/ctype.c) *)

Definition isdigit (c : Z) : bool := (48 <=? c) && (c <=? 57).
Definition isupper (c : Z) : bool := (65 <=? c) && (c <=? 90) || (192 <=? c) && (c <=? 222) && negb (c =? 215).
Definition islower (c : Z) : bool := (97 <=? c) && (c <=? 122) || (223 <=? c) && (c <=? 255) && negb (c =? 247).
Definition isalnum (c : Z) : bool := isdigit c || isupper c || islower c.
Definition toupper (c : Z) : Z := if islower c then u8 (c - 32) else c.

Definition hex_asc (d : Z) : Z := nth (Z.to_nat d) (chars "0123456789abcdef") 0.
Definition hex_byte_pack (b : Z) : list Z := [hex_asc (Z.shiftr (Z.land b 0xf0) 4); hex_asc (Z.land b 0x0f)].

(** ** Setters of [struct printf_spec] *)

Definition set_type t sp := mkSpec t (flags sp) (base sp) (qualifier sp) (field_width sp) (precision sp).
Definition set_flags f sp := mkSpec (type sp) f (base sp) (qualifier sp) (field_width sp) (precision sp).
Definition or_flags f sp := set_flags (Z.lor (flags sp) f) sp.
Definition set_base b sp := mkSpec (type sp) (flags sp) b (qualifier sp) (field_width sp) (precision sp).
Definition set_qualifier q sp := mkSpec (type sp) (flags sp) (base sp) q (field_width sp) (precision sp).
Definition set_field_width w sp := mkSpec (type sp) (flags sp) (base sp) (qualifier sp) w (precision sp).
Definition set_precision p sp := mkSpec (type sp) (flags sp) (base sp) (qualifier sp) (field_width sp) p.

(** ** format_decode

    Each function returns the format from where the next call goes on. *)

(** The value read, an [int], and the rest. *)
Fixpoint skip_atoi (i : Z) (s : list Z) : Z * list Z :=
  match s with
  | c :: s' => if isdigit c then skip_atoi (s32 (i * 10 + c - 48)) s' else (i, s)
  | [] => (i, [])
  end.

Definition flag_char (c : Z) : option Z :=
  if c =? 45 then Some LEFT
  else if c =? 43 then Some PLUS
  else if c =? 32 then Some SPACE
  else if c =? 35 then Some SPECIAL
  else if c =? 48 then Some ZEROPAD
  else None.

Fixpoint decode_flags (fmt : list Z) (sp : printf_spec) : list Z * printf_spec :=
  match fmt with
  | c :: fmt' => match flag_char c with Some f => decode_flags fmt' (or_flags f sp) | None => (fmt, sp) end
  | [] => ([], sp)
  end.

(** The type of an integer conversion. *)
Definition number_type (sp : printf_spec) : format_type :=
  let signed := has (flags sp) SIGN in
  if qualifier sp =? 76 then FORMAT_TYPE_LONG_LONG
  else if qualifier sp =? 108 then if signed then FORMAT_TYPE_LONG else FORMAT_TYPE_ULONG
  else if tolower_ (qualifier sp) =? 122 then FORMAT_TYPE_SIZE_T
  else if qualifier sp =? 116 then FORMAT_TYPE_PTRDIFF
  else if qualifier sp =? 72 then if signed then FORMAT_TYPE_BYTE else FORMAT_TYPE_UBYTE
  else if qualifier sp =? 104 then if signed then FORMAT_TYPE_SHORT else FORMAT_TYPE_USHORT
  else if signed then FORMAT_TYPE_INT else FORMAT_TYPE_UINT.

Definition decode_conversion (fmt : list Z) (sp : printf_spec) : list Z * printf_spec :=
  let sp := set_base 10 sp in
  let number sp := (drop 1 fmt, set_type (number_type sp) sp) in
  let c := ch fmt 0 in
  if c =? 99 then (drop 1 fmt, set_type FORMAT_TYPE_CHAR sp)
  else if c =? 115 then (drop 1 fmt, set_type FORMAT_TYPE_STR sp)
  else if c =? 112 then (fmt, set_type FORMAT_TYPE_PTR sp)
  else if c =? 110 then (drop 1 fmt, set_type FORMAT_TYPE_NRCHARS sp)
  else if c =? 37 then (drop 1 fmt, set_type FORMAT_TYPE_PERCENT_CHAR sp)
  else if c =? 111 then number (set_base 8 sp)
  else if c =? 120 then number (set_base 16 (or_flags SMALL sp))
  else if c =? 88 then number (set_base 16 sp)
  else if (c =? 100) || (c =? 105) then number (or_flags SIGN sp)
  else if c =? 117 then number sp
  else (fmt, set_type FORMAT_TYPE_INVALID sp).

(** From the label [qualifier] on. *)
Definition decode_qualifier (fmt : list Z) (sp : printf_spec) : list Z * printf_spec :=
  let sp := set_qualifier (u8 (-1)) sp in
  let c := ch fmt 0 in
  if (c =? 104) || (tolower_ c =? 108) || (tolower_ c =? 122) || (c =? 116) then
    let fmt := drop 1 fmt in
    if c =? ch fmt 0 then
      if c =? 108 then decode_conversion (drop 1 fmt) (set_qualifier 76 sp)
      else if c =? 104 then decode_conversion (drop 1 fmt) (set_qualifier 72 sp)
      else decode_conversion fmt (set_qualifier c sp)
    else decode_conversion fmt (set_qualifier c sp)
  else decode_conversion fmt sp.

(** From the label [precision] on. *)
Definition decode_precision (fmt : list Z) (sp : printf_spec) : list Z * printf_spec :=
  let sp := set_precision (-1) sp in
  if ch fmt 0 =? 46 then
    let fmt := drop 1 fmt in
    if isdigit (ch fmt 0) then
      let '(i, fmt) := skip_atoi 0 fmt in
      let p := s16 i in
      decode_qualifier fmt (set_precision (if p <? 0 then 0 else p) sp)
    else if ch fmt 0 =? 42 then (drop 1 fmt, set_type FORMAT_TYPE_PRECISION sp)
    else decode_qualifier fmt sp
  else decode_qualifier fmt sp.

(** The characters before the next [%]. *)
Fixpoint literal (fmt : list Z) : list Z * list Z :=
  match fmt with
  | c :: fmt' => if c =? 37 then ([], fmt) else let '(l, r) := literal fmt' in (c :: l, r)
  | [] => ([], [])
  end.

(** No conversion was interrupted. *)
Definition decode_start (fmt : list Z) (sp : printf_spec) : list Z * printf_spec :=
  let sp := set_type FORMAT_TYPE_NONE sp in
  let '(l, rest) := literal fmt in
  match l, rest with
  | [], _ :: fmt =>
      let '(fmt, sp) := decode_flags fmt (set_flags 0 sp) in
      let sp := set_field_width (-1) sp in
      if isdigit (ch fmt 0) then
        let '(i, fmt) := skip_atoi 0 fmt in decode_precision fmt (set_field_width (s16 i) sp)
      else if ch fmt 0 =? 42 then (drop 1 fmt, set_type FORMAT_TYPE_WIDTH sp)
      else decode_precision fmt sp
  | _, _ => (rest, sp)
  end.

Definition format_decode (fmt : list Z) (sp : printf_spec) : list Z * printf_spec :=
  match type sp with
  | FORMAT_TYPE_WIDTH =>
      let sp := if field_width sp <? 0 then or_flags LEFT (set_field_width (s16 (- field_width sp)) sp) else sp in
      decode_precision fmt (set_type FORMAT_TYPE_NONE sp)
  | FORMAT_TYPE_PRECISION =>
      let sp := if precision sp <? 0 then set_precision 0 sp else sp in
      decode_qualifier fmt (set_type FORMAT_TYPE_NONE sp)
  | _ => decode_start fmt sp
  end.

(** ** string *)

Definition PAGE_SIZE : Z := 4096.

(** [count] is a [size_t]. *)
Fixpoint strnlen (s : list Z) (count : Z) : res Z :=
  if count =? 0 then Ok 0
  else
    match s with
    | [] => Fault
    | c :: s => if c =? 0 then Ok 0 else let* n := strnlen s (count - 1) in Ok (n + 1)
    end.

(** [while (len < spec.field_width--) put ' ']: the output and the final width. *)
Fixpoint space_loop (fuel : nat) (e : Z) (o : out) (len w : Z) : option (out * Z) :=
  if len <? w then
    match fuel with O => None | S fuel => space_loop fuel e (put e o 32) len (s16 (w - 1)) end
  else Some (o, s16 (w - 1)).
Definition spaces (e : Z) (o : out) (len w : Z) : option (out * Z) := space_loop (Z.to_nat (w - len)) e o len w.

(** [string] on the bytes at [s], which is not in the first page. *)
Definition string_of (e : Z) (o : out) (s : list Z) (sp : printf_spec) : res out :=
  let* len := strnlen s (u32 (precision sp)) in
  let* (o, w) := stuck_of (if has (flags sp) LEFT then Some (o, field_width sp) else spaces e o len (field_width sp)) in
  let o := put_list e o (take (Z.to_nat len) s) in
  let* (o, _) := stuck_of (spaces e o len w) in
  Ok o.

Definition null_text : list Z := chars "(null)" ++ [0].

Definition string (W : world) (e : Z) (o : out) (s : Z) (sp : printf_spec) : res out :=
  string_of e o (if s <? PAGE_SIZE then null_text else rd W s) sp.

(** ** Extended pointers *)

(** The text a local array of [n] bytes holds. *)
Definition local (n : Z) (l : list Z) : res (list Z) := if Z.of_nat (length l) <=? n then Ok l else Panic.

(** Without kallsyms. *)
Definition symbol_string (e : Z) (o : out) (ptr : Z) (sp : printf_spec) : res out :=
  let sp := or_flags (Z.lor (Z.lor SPECIAL SMALL) ZEROPAD) (set_field_width 8 sp) in
  stuck_of (number e o ptr (set_base 16 sp)).

Definition netdev_feature_string (W : world) (e : Z) (o : out) (addr : Z) (sp : printf_spec) : res out :=
  let sp := or_flags (Z.lor (Z.lor SPECIAL SMALL) ZEROPAD) sp in
  let sp := if field_width sp =? -1 then set_field_width (2 + 2 * 8) sp else sp in
  let* l := read W addr 8 in
  let num := le32 (ch l 0) (ch l 1) (ch l 2) (ch l 3) + 4294967296 * le32 (ch l 4) (ch l 5) (ch l 6) (ch l 7) in
  stuck_of (number e o num (set_base 16 sp)).

(** *** struct resource *)

Definition IORESOURCE_IO : Z := 0x100.
Definition IORESOURCE_MEM : Z := 0x200.
Definition IORESOURCE_IRQ : Z := 0x400.
Definition IORESOURCE_DMA : Z := 0x800.
Definition IORESOURCE_BUS : Z := 0x1000.
Definition IORESOURCE_PREFETCH : Z := 0x2000.
Definition IORESOURCE_MEM_64 : Z := 0x100000.
Definition IORESOURCE_WINDOW : Z := 0x200000.
Definition IORESOURCE_DISABLED : Z := 0x10000000.

Definition hex_spec fl w := mkSpec FORMAT_TYPE_NONE fl 16 0 w (-1).
Definition io_spec := hex_spec (Z.lor (Z.lor SPECIAL SMALL) ZEROPAD) 6.
Definition mem_spec := hex_spec (Z.lor (Z.lor SPECIAL SMALL) ZEROPAD) 10.
Definition bus_spec := hex_spec (Z.lor SMALL ZEROPAD) 2.
Definition dec_spec := mkSpec FORMAT_TYPE_NONE 0 10 0 0 (-1).
Definition str_spec := mkSpec FORMAT_TYPE_NONE LEFT 0 0 (-1) 10.
Definition flag_spec := hex_spec (Z.lor SPECIAL SMALL) 0.

Definition RSRC_BUF_SIZE : Z := 2 * 4 + 4.
Definition FLAG_BUF_SIZE : Z := 2 * 4.
Definition sizeof (s : list Z) : Z := Z.of_nat (length s) + 1.
Definition DECODED_BUF_SIZE : Z := sizeof (chars "[mem - 64bit pref window disabled]").
Definition RAW_BUF_SIZE : Z := sizeof (chars "[mem - flags 0x]").
Definition SYM_SIZE : Z := Z.max (2 * RSRC_BUF_SIZE + DECODED_BUF_SIZE) (2 * RSRC_BUF_SIZE + FLAG_BUF_SIZE + RAW_BUF_SIZE).

(** [*p++ = c] in the array [sym]. *)
Definition sym_put (p : out) (c : Z) : res out := if pos p <? SYM_SIZE then Ok (put SYM_SIZE p c) else Panic.
Definition sym_string (p : out) (s : list Z) : res out := string_of SYM_SIZE p (s ++ [0]) str_spec.
Definition sym_number (p : out) (num : Z) (sp : printf_spec) : res out := stuck_of (number SYM_SIZE p num sp).

(** The name of the kind, the specification of its numbers and whether it is decoded. *)
Definition resource_kind (flags : Z) (decode : bool) : list Z * printf_spec * bool :=
  if has flags IORESOURCE_IO then (chars "io  ", io_spec, decode)
  else if has flags IORESOURCE_MEM then (chars "mem ", mem_spec, decode)
  else if has flags IORESOURCE_IRQ then (chars "irq ", dec_spec, decode)
  else if has flags IORESOURCE_DMA then (chars "dma ", dec_spec, decode)
  else if has flags IORESOURCE_BUS then (chars "bus ", bus_spec, decode)
  else (chars "??? ", mem_spec, false).

Definition sym_flag (flags f : Z) (s : list Z) (p : out) : res out := if has flags f then sym_string p s else Ok p.

(** What is stored in [sym], without the terminator. *)
Definition resource_sym (start end_ flags : Z) (decode : bool) : res out :=
  let* p := sym_put (mkOut (fun _ => 0) 0) 91 in
  let '(name, specp, decode) := resource_kind flags decode in
  let* p := sym_string p name in
  let* p := sym_number p start specp in
  let* p := (if negb (start =? end_) then let* p := sym_put p 45 in sym_number p end_ specp else Ok p) in
  let* p :=
    (if decode then
       let* p := sym_flag flags IORESOURCE_MEM_64 (chars " 64bit") p in
       let* p := sym_flag flags IORESOURCE_PREFETCH (chars " pref") p in
       let* p := sym_flag flags IORESOURCE_WINDOW (chars " window") p in
       sym_flag flags IORESOURCE_DISABLED (chars " disabled") p
     else
       let* p := sym_string p (chars " flags ") in
       sym_number p flags flag_spec) in
  sym_put p 93.

Definition resource_string (W : world) (e : Z) (o : out) (res : Z) (sp : printf_spec) (fmt : list Z) : Result.res out :=
  let* l := read W res 16 in
  let start := le32 (ch l 0) (ch l 1) (ch l 2) (ch l 3) in
  let end_ := le32 (ch l 4) (ch l 5) (ch l 6) (ch l 7) in
  let flags := le32 (ch l 12) (ch l 13) (ch l 14) (ch l 15) in
  let* p := resource_sym start end_ flags (ch fmt 0 =? 82) in
  let* p := sym_put p 0 in
  string_of e o (map (omem p) (seqZ 0 SYM_SIZE)) sp.

(** *** Addresses *)

(** [*buf++ = c], whatever [end] is. *)
Definition store (o : out) (c : Z) : out := mkOut (fun k => if k =? pos o then c else omem o k) (pos o + 1).

(** [n] bytes are left to print; [end - 1] is an address. *)
Fixpoint hex_loop (n : nat) (addr : list Z) (e : Z) (o : out) (separator : Z) : res out :=
  match n with
  | O => Ok o
  | S n =>
      if pos o <? u32 (e - 1) then
        match addr with
        | [] => Fault
        | b :: addr =>
            let o := fold_left store (hex_byte_pack b) o in
            let o := if (pos o <? e) && negb (separator =? 0) && negb (n =? 0)%nat then store o separator else o in
            hex_loop n addr e o separator
        end
      else Ok o
  end.

Definition hex_string (W : world) (e : Z) (o : out) (addr : Z) (sp : printf_spec) (fmt : list Z) : res out :=
  if field_width sp =? 0 then Ok o
  else if addr <=? 16 then string W e o 0 sp
  else
    let separator := if ch fmt 1 =? 67 then 58 else if ch fmt 1 =? 68 then 45 else if ch fmt 1 =? 78 then 0 else 32 in
    let len := if 0 <? field_width sp then Z.min (field_width sp) 64 else 1 in
    hex_loop (Z.to_nat len) (rd W addr) e o separator.

(** The six bytes [l], in the order they are printed. *)
Fixpoint mac_loop (l : list Z) (colons : bool) (separator : Z) : list Z :=
  match l with
  | [] => []
  | b :: l => hex_byte_pack b ++ (if colons && negb (bool_decide (l = [])) then [separator] else []) ++ mac_loop l colons separator
  end.

Definition mac_address_string (W : world) (e : Z) (o : out) (addr : Z) (sp : printf_spec) (fmt : list Z) : res out :=
  let separator := if ch fmt 1 =? 70 then 45 else 58 in
  let reversed := ch fmt 1 =? 82 in
  let* l := read W addr 6 in
  let* mac_addr := local (sizeof (chars "xx:xx:xx:xx:xx:xx"))
    (mac_loop (if reversed then rev l else l) (ch fmt 0 =? 77) separator ++ [0]) in
  string_of e o mac_addr sp.

(** The quads that are left. *)
Fixpoint ip4_loop (l : list Z) (leading_zeros : bool) : res (list Z) :=
  match l with
  | [] => Ok []
  | b :: l =>
      let* temp := stuck_of (put_dec_trunc8 b) in
      let* temp := local 3 temp in
      let zeros := if leading_zeros then
          (if (length temp <? 3)%nat then [48] else []) ++ (if (length temp <? 2)%nat then [48] else [])
        else [] in
      let* rest := ip4_loop l leading_zeros in
      Ok (zeros ++ rev temp ++ (if bool_decide (l = []) then [] else [46]) ++ rest)
  end.

(** The text without its terminator. *)
Definition ip4_string (addr : list Z) (fmt : list Z) : res (list Z) :=
  let backwards := (ch fmt 2 =? 104) || (ch fmt 2 =? 108) in
  ip4_loop (if backwards then rev addr else addr) (ch fmt 0 =? 105).

Definition ip4_addr_string (W : world) (e : Z) (o : out) (addr : Z) (sp : printf_spec) (fmt : list Z) : res out :=
  let* l := read W addr 4 in
  let* t := ip4_string l fmt in
  let* ip4_addr := local (sizeof (chars "255.255.255.255")) (t ++ [0]) in
  string_of e o ip4_addr sp.

(** The words of an address of 16 bytes, in network byte order. *)
Definition s6_addr16 (a : list Z) (i : Z) : Z := 256 * ch a (Z.to_nat (2 * i)) + ch a (Z.to_nat (2 * i + 1)).
Definition s6_addr32 (a : list Z) (i : Z) : Z := 65536 * s6_addr16 a (2 * i) + s6_addr16 a (2 * i + 1).
Definition ipv6_addr_v4mapped (a : list Z) : bool :=
  Z.lor (Z.lor (s6_addr32 a 0) (s6_addr32 a 1)) (Z.lxor (s6_addr32 a 2) 0x0000ffff) =? 0.
Definition ipv6_addr_is_isatap (a : list Z) : bool := Z.lor (s6_addr32 a 2) 0x02000000 =? 0x02005EFE.

(** [zerolength[i]] for the [n] words from [i] on. *)
Fixpoint zerolength (n : nat) (a : list Z) (i : Z) : Z :=
  match n with
  | O => 0
  | S n => if negb (s6_addr16 a i =? 0) then 0 else 1 + zerolength n a (i + 1)
  end.

(** The longest run so far and its position, before word [i]. *)
Fixpoint longest_run (n : nat) (a : list Z) (i longest colonpos : Z) : Z * Z :=
  match n with
  | O => (longest, colonpos)
  | S m =>
      let z := zerolength n a i in
      if longest <? z then longest_run m a (i + 1) z i else longest_run m a (i + 1) longest colonpos
  end.

(** [hex u16 without leading 0s] *)
Definition hex_u16 (word : Z) : list Z :=
  let hi := u8 (Z.shiftr word 8) in
  let lo := u8 (Z.land word 0xff) in
  if negb (hi =? 0) then
    (if 0x0f <? hi then hex_byte_pack hi else [hex_asc (Z.land hi 0x0f)]) ++ hex_byte_pack lo
  else if 0x0f <? lo then hex_byte_pack lo
  else [hex_asc (Z.land lo 0x0f)].

(** The words from [i] on, and the final [needcolon]. *)
Fixpoint emit_words (fuel : nat) (a : list Z) (i range longest colonpos : Z) (needcolon : bool) : res (list Z * bool) :=
  if i <? range then
    match fuel with
    | O => Stuck
    | S fuel =>
        if i =? colonpos then
          let* (t, nc) := emit_words fuel a (i + (longest - 1) + 1) range longest colonpos false in
          Ok ((if needcolon || (i =? 0) then [58] else []) ++ [58] ++ t, nc)
        else
          let* (t, nc) := emit_words fuel a (i + 1) range longest colonpos true in
          Ok ((if needcolon then [58] else []) ++ hex_u16 (s6_addr16 a i) ++ t, nc)
    end
  else Ok ([], needcolon).

(** The text without its terminator. *)
Definition ip6_compressed_string (a : list Z) : res (list Z) :=
  let useIPv4 := ipv6_addr_v4mapped a || ipv6_addr_is_isatap a in
  let range := if useIPv4 then 6 else 8 in
  let '(longest, colonpos) := longest_run (Z.to_nat range) a 0 1 (-1) in
  let colonpos := if longest =? 1 then -1 else colonpos in
  let* (t, needcolon) := emit_words 8 a 0 range longest colonpos false in
  if useIPv4 then
    let* q := ip4_string (drop 12 a) (chars "I4") in
    Ok (t ++ (if needcolon then [58] else []) ++ q)
  else Ok t.

(** The words that are left, as pairs of bytes. *)
Fixpoint ip6_loop (l : list Z) (colons : bool) : list Z :=
  match l with
  | hi :: lo :: l => hex_byte_pack hi ++ hex_byte_pack lo ++ (if colons && negb (bool_decide (l = [])) then [58] else []) ++ ip6_loop l colons
  | _ => []
  end.
Definition ip6_string (a : list Z) (fmt : list Z) : list Z := ip6_loop a (ch fmt 0 =? 73).

Definition ip6_addr_string (W : world) (e : Z) (o : out) (addr : Z) (sp : printf_spec) (fmt : list Z) : res out :=
  let* l := read W addr 16 in
  let* t := (if (ch fmt 0 =? 73) && (ch fmt 2 =? 99) then ip6_compressed_string l else Ok (ip6_string l fmt)) in
  let* ip6_addr := local (sizeof (chars "xxxx:xxxx:xxxx:xxxx:xxxx:xxxx:255.255.255.255")) (t ++ [0]) in
  string_of e o ip6_addr sp.

Definition uuid_be : list nat := [0; 1; 2; 3; 4; 5; 6; 7; 8; 9; 10; 11; 12; 13; 14; 15]%nat.
Definition uuid_le : list nat := [3; 2; 1; 0; 5; 4; 7; 6; 8; 9; 10; 11; 12; 13; 14; 15]%nat.

(** The bytes from position [i] on. *)
Fixpoint uuid_loop (index : list nat) (i : Z) (addr : list Z) : list Z :=
  match index with
  | [] => []
  | k :: index => hex_byte_pack (ch addr k) ++ (if (i =? 3) || (i =? 5) || (i =? 7) || (i =? 9) then [45] else []) ++ uuid_loop index (i + 1) addr
  end.

Definition uuid_string (W : world) (e : Z) (o : out) (addr : Z) (sp : printf_spec) (fmt : list Z) : res out :=
  let c := ch fmt 1 in
  let index := if (c =? 76) || (c =? 108) then uuid_le else uuid_be in
  let uc := (c =? 76) || (c =? 66) in
  let* l := read W addr 16 in
  let t := uuid_loop index 0 l in
  let* uuid := local (sizeof (chars "xxxxxxxx-xxxx-xxxx-xxxx-xxxxxxxxxxxx")) ((if uc then map toupper t else t) ++ [0]) in
  string_of e o uuid sp.

(** ** pointer *)

(** What [vsnprintf] returns: the count, the memory, and what [%n] stored in it. *)
Notation printed := (Z * (Z -> Z) * stores)%type.

Section pointer.
Context (W : world).
(** [vsnprintf] itself, for the format a [%pV] refers to: buffer, size, format,
    arguments and memory. *)
Context (nested : Z -> Z -> list Z -> list Z -> (Z -> Z) -> res printed).

Definition va_format_string (e : Z) (o : out) (ptr : Z) : res (out * stores) :=
  let* (fmt, va) := of_option (va_format_at W ptr) in
  let* (n, m, st) := nested (pos o) (if pos o <? e then e - pos o else 0) fmt va (omem o) in
  Ok (mkOut m (pos o + n), st).

(** What is left when no extension applies. *)
Definition plain_pointer (e : Z) (o : out) (ptr default_width : Z) (sp : printf_spec) : res out :=
  let sp := or_flags SMALL sp in
  let sp := if field_width sp =? -1 then or_flags ZEROPAD (set_field_width default_width sp) else sp in
  stuck_of (number e o ptr (set_base 16 sp)).

Definition kernel_pointer (e : Z) (o : out) (ptr default_width : Z) (sp : printf_spec) : res out :=
  if negb (kptr_restrict W =? 0) && in_interrupt W then
    let sp := if field_width sp =? -1 then set_field_width default_width sp else sp in
    string_of e o (chars "pK-error" ++ [0]) sp
  else
    let ptr := if negb ((kptr_restrict W =? 0) || (kptr_restrict W =? 1) && cap_syslog W) then 0 else ptr in
    plain_pointer e o ptr default_width sp.

Definition plain (x : res out) : res (out * stores) := let* o := x in Ok (o, []).

Definition pointer (fmt : list Z) (e : Z) (o : out) (ptr : Z) (sp : printf_spec) : res (out * stores) :=
  let default_width := 2 * 4 + (if has (flags sp) SPECIAL then 2 else 0) in
  let c := ch fmt 0 in
  if (ptr =? 0) && negb (c =? 75) then
    let sp := if field_width sp =? -1 then set_field_width default_width sp else sp in
    plain (string_of e o null_text sp)
  else if (c =? 70) || (c =? 102) || (c =? 83) || (c =? 115) || (c =? 66) then plain (symbol_string e o ptr sp)
  else if (c =? 82) || (c =? 114) then plain (resource_string W e o ptr sp fmt)
  else if c =? 104 then plain (hex_string W e o ptr sp fmt)
  else if (c =? 77) || (c =? 109) then plain (mac_address_string W e o ptr sp fmt)
  else if ((c =? 73) || (c =? 105)) && (ch fmt 1 =? 54) then plain (ip6_addr_string W e o ptr sp fmt)
  else if ((c =? 73) || (c =? 105)) && (ch fmt 1 =? 52) then plain (ip4_addr_string W e o ptr sp fmt)
  else if c =? 85 then plain (uuid_string W e o ptr sp fmt)
  else if c =? 86 then va_format_string e o ptr
  else if c =? 75 then plain (kernel_pointer e o ptr default_width sp)
  else if (c =? 78) && (ch fmt 1 =? 70) then plain (netdev_feature_string W e o ptr sp)
  else plain (plain_pointer e o ptr default_width sp).

(** ** vsnprintf *)

(** [memcpy] of the literal text, as far as it fits. *)
Definition copy_literal (e : Z) (o : out) (l : list Z) : out :=
  let n := Z.of_nat (length l) in
  if pos o <? e then
    let copy := if e - pos o <? n then e - pos o else n in
    mkOut (fun k => if (pos o <=? k) && (k <? pos o + copy) then nth (Z.to_nat (k - pos o)) l 0 else omem o k) (pos o + n)
  else mkOut (omem o) (pos o + n).

(** [%c] *)
Definition print_char (e : Z) (o : out) (c : Z) (sp : printf_spec) : res out :=
  let* (o, w) := stuck_of (if has (flags sp) LEFT then Some (o, field_width sp) else pad e o 1 (field_width sp) 32) in
  let o := put e o (u8 c) in
  let* (o, _) := stuck_of (pad e o 1 w 32) in
  Ok o.

(** The number an integer conversion prints, as an [unsigned long long]. *)
Definition va_number (t : format_type) (args : list Z) : res (Z * list Z) :=
  let* (a, args) := va_arg args in
  match t with
  | FORMAT_TYPE_LONG_LONG => let* (b, args) := va_arg args in Ok (u64 (a + 4294967296 * b), args)
  | FORMAT_TYPE_ULONG | FORMAT_TYPE_SIZE_T => Ok (a, args)
  | FORMAT_TYPE_LONG | FORMAT_TYPE_PTRDIFF => Ok (u64 (s32 a), args)
  | FORMAT_TYPE_UBYTE => Ok (u8 a, args)
  | FORMAT_TYPE_BYTE => Ok (u64 (s8 a), args)
  | FORMAT_TYPE_USHORT => Ok (u16 a, args)
  | FORMAT_TYPE_SHORT => Ok (u64 (s16 a), args)
  | FORMAT_TYPE_INT => Ok (u64 (s32 a), args)
  | _ => Ok (a, args)
  end.

Fixpoint skip_alnum (fmt : list Z) : list Z :=
  match fmt with c :: fmt' => if isalnum c then skip_alnum fmt' else fmt | [] => [] end.

(** One round of the loop. *)
Record printing := mkP { p_fmt : list Z; p_spec : printf_spec; p_out : out; p_args : list Z; p_stores : stores }.

Definition print_step (buf e : Z) (s : printing) : res printing :=
  let '(fmt, sp) := format_decode (p_fmt s) (p_spec s) in
  let o := p_out s in
  let goes o args := Ok (mkP fmt sp o args (p_stores s)) in
  match type sp with
  | FORMAT_TYPE_NONE => goes (copy_literal e o (take (length (p_fmt s) - length fmt) (p_fmt s))) (p_args s)
  | FORMAT_TYPE_WIDTH =>
      let* (a, args) := va_arg (p_args s) in Ok (mkP fmt (set_field_width (s16 (s32 a)) sp) o args (p_stores s))
  | FORMAT_TYPE_PRECISION =>
      let* (a, args) := va_arg (p_args s) in Ok (mkP fmt (set_precision (s16 (s32 a)) sp) o args (p_stores s))
  | FORMAT_TYPE_CHAR =>
      let* (a, args) := va_arg (p_args s) in
      let* o := print_char e o a sp in
      goes o args
  | FORMAT_TYPE_STR =>
      let* (a, args) := va_arg (p_args s) in
      let* o := string W e o a sp in
      goes o args
  | FORMAT_TYPE_PTR =>
      let* (a, args) := va_arg (p_args s) in
      let* (o, st) := pointer (drop 1 fmt) e o a sp in
      Ok (mkP (skip_alnum fmt) sp o args (p_stores s ++ st))
  | FORMAT_TYPE_PERCENT_CHAR | FORMAT_TYPE_INVALID => goes (put e o 37) (p_args s)
  | FORMAT_TYPE_NRCHARS =>
      let* (a, args) := va_arg (p_args s) in
      let v := s32 (pos o - buf) in
      Ok (mkP fmt sp (mkOut (store_int (omem o) a v) (pos o)) args (p_stores s ++ [(a, v)]))
  | t =>
      let* (num, args) := va_number t (p_args s) in
      let* o := stuck_of (number e o num sp) in
      goes o args
  end.

(** [while ( *fmt)] *)
Fixpoint print_loop (fuel : nat) (buf e : Z) (s : printing) : res printing :=
  if bool_decide (p_fmt s = []) then Ok s
  else match fuel with O => Stuck | S fuel => let* s := print_step buf e s in print_loop fuel buf e s end.

(** A round takes a character of the format, or is the end of a conversion with a [*]. *)
Definition print_fuel (fmt : list Z) : nat := 2 * length fmt + 1.

Definition zero_spec : printf_spec := mkSpec FORMAT_TYPE_NONE 0 0 0 0 0.

Definition vsnprintf_with (buf size : Z) (fmt args : list Z) (m : Z -> Z) : res printed :=
  if s32 size <? 0 then Ok (0, m, [])
  else
    let e := u32 (buf + size) in
    let '(e, size) := if e <? buf then (4294967295, 4294967295 - buf) else (e, size) in
    let* s := print_loop (print_fuel fmt) buf e (mkP fmt zero_spec (mkOut m buf) args []) in
    let o := p_out s in
    let m := omem o in
    let m := if 0 <? size then
        let z := if pos o <? e then pos o else e - 1 in fun k => if k =? z then 0 else m k
      else m in
    if (pos o - buf <? 2147483648) && (pos o <? 4294967296) then Ok (pos o - buf, m, p_stores s) else Fault.
End pointer.

(** [depth] bounds how deep the formats of [%pV] are nested. *)
Fixpoint vsnprintf (depth : nat) (W : world) (buf size : Z) (fmt args : list Z) (m : Z -> Z) : res printed :=
  vsnprintf_with W
    (fun buf size fmt args m => match depth with O => Stuck | S depth => vsnprintf depth W buf size fmt args m end)
    buf size fmt args m.

Definition vscnprintf (depth : nat) (W : world) (buf size : Z) (fmt args : list Z) (m : Z -> Z) : res printed :=
  let* (i, m, st) := vsnprintf depth W buf size fmt args m in
  if u32 i <? size then Ok (i, m, st)
  else if negb (size =? 0) then Ok (s32 (size - 1), m, st)
  else Ok (0, m, st).

Definition snprintf := vsnprintf.
Definition scnprintf := vscnprintf.
Definition INT_MAX : Z := 2147483647.
Definition vsprintf (depth : nat) (W : world) (buf : Z) (fmt args : list Z) (m : Z -> Z) : res printed :=
  vsnprintf depth W buf INT_MAX fmt args m.
Definition sprintf := vsprintf.
