(* ===== verification/VsnprintfText.v ===== *)
(** * The text of numbers, strings and resources

    What the operations of [vsnprintf] store, as functions of the specification and the
    argument: the operations store that text with guarded stores. *)

From Stdlib Require Import ZArith Lia Bool.
From stdpp Require Import base numbers list strings.
From S2P Require Import Prelude Kstrtox Vsprintf Result Vsnprintf.
Open Scope Z_scope.

(** ** Numbers

    The digits [number] stores are those of repeated division by the radix, so that what
    it prints is a function of its arguments. *)

(** The digits of [v] in radix [b], least significant first. *)
Fixpoint le_digits (fuel : nat) (b v : Z) : list Z :=
  match fuel with
  | O => []
  | S fuel => if v <? b then [v] else v `mod` b :: le_digits fuel b (v `div` b)
  end.

(** 22 digits are enough for 64 bits in radix 8. *)
Definition numeral_text (b lc v : Z) : list Z := rev (map (fun d => digit_char_of d lc) (le_digits 22 b v)).

Lemma le_digits_range fuel b v : 2 <= b -> 0 <= v -> Forall (fun d => 0 <= d < b) (le_digits fuel b v).
Proof.
  intros Hb. revert v. induction fuel as [|fuel IH]; intros v Hv; cbn [le_digits]; [constructor|]. destruct (Z.ltb_spec v b); [repeat constructor; lia|].
  constructor; [apply Z.mod_pos_bound; lia|]. apply IH, Z.div_pos; lia.
Qed.

Lemma le_digits_length fuel b v k : 2 <= b -> 0 <= v < b ^ Z.of_nat k -> (1 <= k)%nat -> (length (le_digits fuel b v) <= k)%nat.
Proof.
  intros Hb. revert fuel v. induction k as [|k IH]; intros fuel v Hv Hk; [lia|]. destruct fuel as [|fuel]; cbn [le_digits]; [cbn; lia|].
  destruct (Z.ltb_spec v b); [cbn; lia|]. destruct k as [|k]; [change (Z.of_nat 1) with 1 in Hv; lia|].
  cbn [length]. enough (length (le_digits fuel b (v `div` b)) <= S k)%nat by lia. apply IH; [|lia].
  split; [apply Z.div_pos; lia|]. apply Z.div_lt_upper_bound; [lia|]. rewrite <- Z.pow_succ_r by lia. rewrite Nat2Z.inj_succ in Hv. lia.
Qed.

Lemma radix_loop_exact fuel num k lc :
  3 <= k <= 4 -> 0 < num < 2 ^ (k * Z.of_nat fuel) ->
  radix_loop fuel num (2 ^ k - 1) k lc = Some (map (fun d => digit_char_of d lc) (le_digits fuel (2 ^ k) num)).
Proof.
  intros Hk. assert (H2k : 8 <= 2 ^ k <= 16) by (assert (k = 3 \/ k = 4) as [->| ->] by lia; zcalc; lia).
  revert num. induction fuel as [|fuel IH]; intros num Hn; [rewrite Z.mul_0_r, Z.pow_0_r in Hn; lia|].
  cbn [radix_loop le_digits]. rewrite radix_digit, shiftr_div by lia. destruct (Z.ltb_spec num (2 ^ k)).
  - by rewrite Z.div_small, Z.mod_small by lia.
  - pose proof (Z.div_le_lower_bound num (2 ^ k) 1 ltac:(lia) ltac:(lia)) as Hd. rewrite (proj2 (Z.eqb_neq _ _)) by lia.
    rewrite IH; [done|]. split; [lia|]. apply Z.div_lt_upper_bound; [lia|]. rewrite <- Z.pow_add_r by lia.
    replace (k + k * Z.of_nat fuel) with (k * Z.of_nat (S fuel)) by lia. lia.
Qed.

Lemma dec_char d lc : 0 <= d < 10 -> lc = 0 \/ lc = 32 -> digit_char_of d lc = d + 48.
Proof.
  intros Hd Hl. assert (d = 0 \/ d = 1 \/ d = 2 \/ d = 3 \/ d = 4 \/ d = 5 \/ d = 6 \/ d = 7 \/ d = 8 \/ d = 9) as Hc by lia.
  destruct Hl as [->| ->]; repeat (destruct Hc as [->|Hc]; [done|]); by subst d.
Qed.

(** There is one decimal text. *)
Lemma decimal_exact fuel n l : decimal n l -> 0 <= n < 10 ^ Z.of_nat fuel -> (1 <= fuel)%nat -> l = map (fun d => d + 48) (le_digits fuel 10 n).
Proof.
  revert n l. induction fuel as [|fuel IH]; intros n l (Hd & Hv & H0 & Hn) Hr Hf; [lia|]. cbn [le_digits].
  destruct l as [|c l]; [cbn in Hv; subst n; by specialize (H0 eq_refl)|]. rewrite le_value_cons in Hv.
  apply Forall_cons in Hd as [Hc Hd]. pose proof (le_value_nonneg l Hd) as Hpos.
  assert (Htail : forall l' c', l = l' ++ [c'] -> le_value l = 0 -> c' = 48).
  { intros l' c' -> E. rewrite le_value_app in E. apply Forall_app in Hd as [Hd1 [Hd2 _]%Forall_cons]. pose proof (le_value_nonneg _ Hd1).
    assert (0 < 10 ^ Z.of_nat (length l')) by (apply Z.pow_pos_nonneg; lia). cbn in E. nia. }
  destruct (Z.ltb_spec n 10) as [Hlt|Hge].
  - assert (Hl0 : le_value l = 0) by lia. destruct l as [|c' l]; [cbn; f_equal; lia|]. exfalso.
    destruct (Z.eq_dec n 0) as [->|Hne]; [by specialize (H0 eq_refl)|]. destruct (Hn Hne) as (l' & x & E & Hx).
    destruct l' as [|y l']; cbn in E; [by injection E|]. injection E as -> E. by apply Hx, (Htail l').
  - cbn [map]. f_equal; [zlia|]. assert (En : n `div` 10 = le_value l) by zlia. apply IH.
    + rewrite En. split; [done|]. split; [done|]. split; [lia|]. intros Hne. destruct (Hn ltac:(lia)) as (l' & x & E & Hx).
      destruct l' as [|y l']; cbn in E; injection E as -> E; [subst l; cbn in En; zlia|]. by exists l', x.
    + rewrite Nat2Z.inj_succ, Z.pow_succ_r in Hr by lia. split; [zlia|]. apply Z.div_lt_upper_bound; lia.
    + destruct fuel; [|lia]. change (10 ^ Z.of_nat 1) with 10 in Hr. lia.
Qed.

Lemma digits_of_exact num b lc :
  b = 8 \/ b = 10 \/ b = 16 -> lc = 0 \/ lc = 32 -> 0 <= num < 18446744073709551616 ->
  digits_of num b lc = Some (map (fun d => digit_char_of d lc) (le_digits 22 b num)).
Proof.
  intros Hb Hl Hn. unfold digits_of. destruct (Z.ltb_spec num b) as [Hlt|Hge].
  { cbn [le_digits]. by rewrite (proj2 (Z.ltb_lt _ _)). }
  destruct Hb as [->|[->| ->]]; cbn [negb Z.eqb Pos.eqb].
  - pose proof (radix_loop_exact 22 num 3 lc) as H. change (3 * Z.of_nat 22) with 66 in H. zcalc_in H. zcalc. apply H; lia.
  - destruct (put_dec_spec num Hn) as (l & -> & Hd). f_equal. rewrite (decimal_exact 22 num l Hd); [|zcalc; lia|lia].
    apply map_ext_in. intros d Hin. symmetry. apply dec_char; [|done].
    assert (Hall : Forall (fun d => 0 <= d < 10) (le_digits 22 10 num)).
    { clear - Hn. generalize 22%nat. revert num Hn. intros num Hn fuel. assert (H : 0 <= num) by lia. clear Hn. revert num H.
      induction fuel as [|fuel IH]; intros num H; cbn [le_digits]; [constructor|]. destruct (Z.ltb_spec num 10); constructor; try lia; [constructor|zlia|].
      apply IH. zlia. }
    rewrite list.Forall_forall in Hall. apply Hall. by apply list_elem_of_In.
  - pose proof (radix_loop_exact 22 num 4 lc) as H. change (4 * Z.of_nat 22) with 88 in H. zcalc_in H. zcalc. apply H; lia.
Qed.

(** What [number] prints. *)
Definition number_layout (num : Z) (sp : printf_spec) : list Z :=
  layout (signed_text (flags sp) num).1 (prefix_text (flags sp) (base sp) num)
    (numeral_text (base sp) (Z.land (flags sp) SMALL) (signed_text (flags sp) num).2) (flags sp) (field_width sp) (precision sp).

Lemma signed_range fl num : 0 <= num < 18446744073709551616 -> 0 <= (signed_text fl num).2 < 18446744073709551616.
Proof. intros H. by destruct (sign_of_spec fl num 0 H ltac:(lia)) as (sign & _ & _ & Hr). Qed.

Lemma number_exact e o num sp :
  base sp = 8 \/ base sp = 10 \/ base sp = 16 -> 0 <= num < 18446744073709551616 ->
  -10000 <= field_width sp <= 10000 -> -10000 <= precision sp <= 10000 ->
  number e o num sp = Some (put_list e o (number_layout num sp)).
Proof.
  intros Hb Hn Hw Hp. destruct (number_text e o num sp Hb Hn Hw Hp) as (tmp & E & _ & ->).
  rewrite digits_of_exact in E by (done || apply locase_cases || by apply signed_range). apply (inj Some) in E. subst tmp. reflexivity.
Qed.

(** The length of the text is the field width or the length of sign, prefix and digits. *)
Lemma layout_length sgn pfx D fl w prec :
  Z.of_nat (length (layout sgn pfx D fl w prec)) =
  Z.max w (Z.of_nat (length sgn + length pfx) + Z.max prec (Z.of_nat (length D))).
Proof.
  unfold layout. cbv zeta. destruct (has fl LEFT); [|destruct (has fl ZEROPAD)]; rewrite !length_app, !List.repeat_length; lia.
Qed.

Lemma numeral_length b lc v k : 2 <= b -> 0 <= v < b ^ Z.of_nat k -> (1 <= k)%nat -> (length (numeral_text b lc v) <= k)%nat.
Proof. intros. unfold numeral_text. rewrite length_rev, length_map. by apply le_digits_length. Qed.

(** A field width or a precision in everyday use; conversions with them do not wrap. *)
Definition modest (z : Z) : Prop := -10000 <= z <= 10000.

(** ** Strings and characters *)

(** [t] in a field of [w] characters. *)
Definition fill (left : bool) (w : Z) (t : list Z) : list Z :=
  let blanks := repeat 32 (Z.to_nat (w - Z.of_nat (length t))) in
  if left then t ++ blanks else blanks ++ t.

Lemma spaces_exact e o len w : 0 <= len -> -32767 <= w <= 32767 ->
  spaces e o len w = Some (put_list e o (repeat 32 (Z.to_nat (w - len))), if len <? w then len - 1 else w - 1).
Proof.
  intros Hl. unfold spaces. remember (Z.to_nat (w - len)) as fuel eqn:Ef. revert o w Ef.
  induction fuel as [|fuel IH]; intros o w Ef Hw; cbn [space_loop]; destruct (Z.ltb_spec len w); try lia; rewrite s16_id by lia; [done|].
  rewrite IH by lia. cbn [repeat]. do 2 f_equal. destruct (Z.ltb_spec len (w - 1)); lia.
Qed.

Lemma string_of_exact e o s sp len :
  modest (field_width sp) -> strnlen s (u32 (precision sp)) = Ok len -> 0 <= len <= Z.of_nat (length s) -> 
  string_of e o s sp = Ok (put_list e o (fill (has (flags sp) LEFT) (field_width sp) (take (Z.to_nat len) s))).
Proof.
  intros Hw E Hl. unfold modest in Hw. unfold string_of, fill. rewrite E. cbn [rbind].
  assert (Hlen : Z.of_nat (length (take (Z.to_nat len) s)) = len) by (rewrite length_take; lia). rewrite Hlen.
  destruct (has (flags sp) LEFT); cbn [stuck_of rbind].
  - rewrite spaces_exact by lia. cbn [stuck_of rbind]. by rewrite put_list_app.
  - rewrite spaces_exact by lia. cbn [stuck_of rbind]. rewrite spaces_exact by (destruct (Z.ltb_spec len (field_width sp)); lia).
    cbn [stuck_of rbind]. rewrite put_list_app.
    replace (Z.to_nat ((if len <? field_width sp then _ else _) - len)) with 0%nat by (destruct (Z.ltb_spec len (field_width sp)); lia). done.
Qed.

(** The characters before the terminator, at most [count]. *)
Lemma strnlen_text t s count : Forall (fun c => c <> 0) t -> 0 <= count ->
  strnlen (t ++ 0 :: s) count = Ok (Z.min count (Z.of_nat (length t))).
Proof.
  intros Ht. revert count. induction Ht as [|c t Hc _ IH]; intros count Hn; cbn [app strnlen length].
  - destruct (Z.eqb_spec count 0); cbn; f_equal; lia.
  - destruct (Z.eqb_spec count 0); [f_equal; lia|]. rewrite (proj2 (Z.eqb_neq c 0)), IH by lia. cbn. f_equal. lia.
Qed.

(** The text [%s] prints of [t]. *)
Definition cut (prec : Z) (t : list Z) : list Z := if prec <? 0 then t else take (Z.to_nat prec) t.
Definition string_text (sp : printf_spec) (t : list Z) : list Z := fill (has (flags sp) LEFT) (field_width sp) (cut (precision sp) t).

(** A precision is not negative, or -1 when there is none. *)
Definition spec_modest (sp : printf_spec) : Prop := modest (field_width sp) /\ -1 <= precision sp <= 10000.

Lemma string_of_text e o t s sp :
  spec_modest sp -> Forall (fun c => c <> 0) t -> Z.of_nat (length t) < 4294967295 ->
  string_of e o (t ++ 0 :: s) sp = Ok (put_list e o (string_text sp t)).
Proof.
  intros [Hw Hp] Ht Hlen. pose proof (u32_range (precision sp)) as Hu. unfold is_u32 in Hu.
  erewrite string_of_exact; [|done|apply strnlen_text; [done|lia]|rewrite length_app; lia].
  unfold string_text. do 3 f_equal. unfold cut. destruct (Z.ltb_spec (precision sp) 0).
  - replace (precision sp) with (-1) by lia. change (u32 (-1)) with 4294967295. rewrite Z.min_r, Nat2Z.id by lia. by rewrite take_app_length.
  - rewrite u32_id by (unfold is_u32; lia). rewrite take_app_le by lia.
    destruct (Z.le_gt_cases (precision sp) (Z.of_nat (length t))); [by rewrite Z.min_l|]. rewrite Z.min_r, !take_ge by lia. done.
Qed.

Lemma print_char_text e o c sp : modest (field_width sp) ->
  print_char e o c sp = Ok (put_list e o (fill (has (flags sp) LEFT) (field_width sp) [u8 c])).
Proof.
  intros Hw. unfold modest in Hw. unfold print_char, fill. cbn [length]. change (Z.of_nat 1) with 1. destruct (has (flags sp) LEFT); cbn [stuck_of rbind].
  - destruct (pad_spec e (put e o (u8 c)) 1 (field_width sp) 32 ltac:(lia) ltac:(lia)) as (w & -> & _). cbn. done.
  - destruct (pad_spec e o 1 (field_width sp) 32 ltac:(lia) ltac:(lia)) as (w & -> & Hw'). cbn [stuck_of rbind].
    destruct (pad_spec e (put e (put_list e o (repeat 32 (Z.to_nat (field_width sp - 1)))) (u8 c)) 1 w 32 ltac:(lia) ltac:(lia)) as (w2 & -> & _).
    cbn [stuck_of rbind]. rewrite put_list_app. replace (Z.to_nat (w - 1)) with 0%nat by lia. done.
Qed.

Lemma copy_literal_text e o l : 
  pos (copy_literal e o l) = pos (put_list e o l) /\ forall k, omem (copy_literal e o l) k = omem (put_list e o l) k.
Proof.
  destruct (put_list_mem e o l) as [E1 E2]. rewrite E1. unfold copy_literal. destruct (Z.ltb_spec (pos o) e); (split; [done|]); intros k; rewrite E2; cbn [omem].
  - destruct (Z.leb_spec (pos o) k); [|done]. cbn [andb].
    destruct (Z.ltb_spec (e - pos o) (Z.of_nat (length l))), (Z.ltb_spec k (Z.min e (pos o + Z.of_nat (length l))));
      rewrite ?(proj2 (Z.ltb_lt _ _)), ?(proj2 (Z.ltb_ge _ _)) by lia; done.
  - destruct (Z.leb_spec (pos o) k); [|done]. by rewrite (proj2 (Z.ltb_ge k _)) by lia.
Qed.

(** ** Resources *)

Definition resource_flags (flags : Z) : list Z :=
  (if has flags IORESOURCE_MEM_64 then chars " 64bit" else []) ++ (if has flags IORESOURCE_PREFETCH then chars " pref" else []) ++
  (if has flags IORESOURCE_WINDOW then chars " window" else []) ++ (if has flags IORESOURCE_DISABLED then chars " disabled" else []).

(** [[mem 0x00000000-0x0000ffff 64bit pref]] *)
Definition resource_text (start end_ flags : Z) (decode : bool) : list Z :=
  let '(name, specp, decode) := resource_kind flags decode in
  [91] ++ name ++ number_layout start specp ++ (if start =? end_ then [] else 45 :: number_layout end_ specp) ++
  (if decode then resource_flags flags else chars " flags " ++ number_layout flags flag_spec) ++ [93].

Lemma sym_put_text p c : pos p < SYM_SIZE -> sym_put p c = Ok (put_list SYM_SIZE p [c]).
Proof. intros H. unfold sym_put. by rewrite (proj2 (Z.ltb_lt _ _)). Qed.

Lemma sym_string_text p s : Forall (fun c => c <> 0) s -> (length s <= 10)%nat -> sym_string p s = Ok (put_list SYM_SIZE p s).
Proof.
  intros Hs Hl. unfold sym_string. rewrite string_of_text; [|split; cbn; unfold modest; lia|done|lia].
  unfold string_text, fill, cut. cbn [field_width precision str_spec flags]. rewrite (proj2 (Z.ltb_ge 10 0)), take_ge by lia.
  replace (Z.to_nat (-1 - Z.of_nat (length s))) with 0%nat by lia. by rewrite app_nil_r.
Qed.

(** The specifications of the numbers in a resource. *)
Definition resource_spec (sp : printf_spec) : Prop := sp = io_spec \/ sp = mem_spec \/ sp = dec_spec \/ sp = bus_spec \/ sp = flag_spec.

Lemma sym_number_text p num sp : resource_spec sp -> is_u32 num ->
  sym_number p num sp = Ok (put_list SYM_SIZE p (number_layout num sp)) /\ (length (number_layout num sp) <= 10)%nat.
Proof.
  intros Hsp Hn. unfold is_u32 in Hn. split.
  - unfold sym_number. rewrite number_exact; [done|..]; destruct Hsp as [->|[->|[->|[->| ->]]]]; cbn; lia.
  - apply Nat2Z.inj_le. unfold number_layout. rewrite layout_length.
    assert (Hs : signed_text (flags sp) num = ([], num) /\ precision sp = -1 /\ field_width sp <= 10 /\
      (base sp = 16 /\ (length (prefix_text (flags sp) (base sp) num) <= 2)%nat \/ base sp = 10 /\ prefix_text (flags sp) (base sp) num = [])).
    { destruct Hsp as [->|[->|[->|[->| ->]]]]; (split_and!; [reflexivity|reflexivity|cbn; lia|]);
        first [left; split; [reflexivity|apply Nat.leb_le; reflexivity]|right; split; reflexivity]. }
    destruct Hs as (-> & -> & Hw & [[-> Hp]|[-> ->]]); cbn [fst snd length].
    + pose proof (numeral_length 16 (Z.land (flags sp) SMALL) num 8 ltac:(lia) ltac:(zcalc; lia) ltac:(lia)). lia.
    + pose proof (numeral_length 10 (Z.land (flags sp) SMALL) num 10 ltac:(lia) ltac:(zcalc; lia) ltac:(lia)). lia.
Qed.

Lemma resource_kind_ok flags decode : let '(name, specp, _) := resource_kind flags decode in
  length name = 4%nat /\ Forall (fun c => c <> 0) name /\ resource_spec specp.
Proof.
  unfold resource_kind, resource_spec.
  repeat (destruct (has flags _); [split_and!; [reflexivity|repeat constructor; discriminate|tauto]|]).
  split_and!; [reflexivity|repeat constructor; discriminate|tauto].
Qed.

Lemma sym_flag_text flags f s p : Forall (fun c => c <> 0) s -> (length s <= 10)%nat ->
  sym_flag flags f s p = Ok (put_list SYM_SIZE p (if has flags f then s else [])).
Proof. intros Hs Hl. unfold sym_flag. destruct (has flags f); [by apply sym_string_text|done]. Qed.

Lemma put_list_pos e o l : pos (put_list e o l) = pos o + Z.of_nat (length l).
Proof. apply put_list_mem. Qed.

Ltac sym_names := repeat constructor; discriminate.
Lemma resource_flags_length flags : (length (resource_flags flags) <= 27)%nat.
Proof.
  unfold resource_flags. rewrite !length_app. destruct (has flags IORESOURCE_MEM_64), (has flags IORESOURCE_PREFETCH), (has flags IORESOURCE_WINDOW), (has flags IORESOURCE_DISABLED);
    apply Nat.leb_le; reflexivity.
Qed.
Lemma resource_flags_sym flags p :
  (let* p := sym_flag flags IORESOURCE_MEM_64 (chars " 64bit") p in
   let* p := sym_flag flags IORESOURCE_PREFETCH (chars " pref") p in
   let* p := sym_flag flags IORESOURCE_WINDOW (chars " window") p in
   sym_flag flags IORESOURCE_DISABLED (chars " disabled") p) = Ok (put_list SYM_SIZE p (resource_flags flags)).
Proof.
  unfold resource_flags. do 4 (rewrite sym_flag_text by (sym_names || (apply Nat.leb_le; reflexivity)); cbn [rbind]). by rewrite !put_list_app.
Qed.

(** The text fits its array, with room for the terminator. *)
Lemma resource_sym_text start end_ flags decode :
  is_u32 start -> is_u32 end_ -> is_u32 flags ->
  resource_sym start end_ flags decode = Ok (put_list SYM_SIZE (mkOut (fun _ => 0) 0) (resource_text start end_ flags decode)) /\
  (length (resource_text start end_ flags decode) <= 54)%nat.
Proof.
  intros Hs He Hf. unfold resource_sym, resource_text. rewrite sym_put_text by done. cbn [rbind].
  pose proof (resource_kind_ok flags decode) as Hk. destruct (resource_kind flags decode) as [[name specp] dec]. destruct Hk as (Hn & Hz & Hsp).
  rewrite sym_string_text by (done || lia). cbn [rbind]. destruct (sym_number_text (put_list SYM_SIZE (put_list SYM_SIZE (mkOut (fun _ => 0) 0) [91]) name) start specp Hsp Hs) as [-> Hl1].
  cbn [rbind]. set (p1 := put_list SYM_SIZE _ (number_layout start specp)).
  set (second := if start =? end_ then [] else 45 :: number_layout end_ specp).
  assert (E2 : (if negb (start =? end_) then let* p := sym_put p1 45 in sym_number p end_ specp else Ok p1) = Ok (put_list SYM_SIZE p1 second) /\ (length second <= 11)%nat).
  { unfold second. destruct (start =? end_); cbn [negb]; [split; [done|cbn; lia]|].
    rewrite sym_put_text by (unfold p1; rewrite !put_list_pos, Hn; cbn; change SYM_SIZE with 59; lia). cbn [rbind].
    destruct (sym_number_text (put_list SYM_SIZE p1 [45]) end_ specp Hsp He) as [-> Hl2]. split; [done|cbn; lia]. }
  destruct E2 as [-> Hl2]. cbn [rbind]. set (p2 := put_list SYM_SIZE p1 second).
  set (tail := if dec then resource_flags flags else chars " flags " ++ number_layout flags flag_spec).
  assert (E3 : (if dec then
      let* p := sym_flag flags IORESOURCE_MEM_64 (chars " 64bit") p2 in let* p := sym_flag flags IORESOURCE_PREFETCH (chars " pref") p in
      let* p := sym_flag flags IORESOURCE_WINDOW (chars " window") p in sym_flag flags IORESOURCE_DISABLED (chars " disabled") p
    else let* p := sym_string p2 (chars " flags ") in sym_number p flags flag_spec) = Ok (put_list SYM_SIZE p2 tail) /\ (length tail <= 27)%nat).
  { unfold tail. destruct dec; [split; [apply resource_flags_sym|apply resource_flags_length]|].
    rewrite sym_string_text by (sym_names || (apply Nat.leb_le; reflexivity)). cbn [rbind].
    destruct (sym_number_text (put_list SYM_SIZE p2 (chars " flags ")) flags flag_spec ltac:(unfold resource_spec; tauto) Hf) as [-> Hl3].
    rewrite put_list_app, length_app. split; [done|]. change (length (chars " flags ")) with 7%nat. lia. }
  destruct E3 as [-> Hl3]. cbn [rbind]. rewrite sym_put_text.
  - rewrite !put_list_app. split; [done|]. rewrite !length_app, Hn. cbn [length]. lia.
  - unfold p2, p1. rewrite !put_list_pos, Hn. cbn [pos length]. change SYM_SIZE with 59. lia.
Qed.
