(* ===== verification/VsnprintfSafety.v ===== *)
(** * Formatted output stays in its buffer

    Whatever the format and the arguments: every operation of [vsnprintf] ends, stores
    only between the position it starts at and the end of the buffer, and stays inside
    its local arrays.  The one exception is [%n], which stores an integer where its
    argument points to. *)

From Stdlib Require Import ZArith Lia Bool.
From stdpp Require Import base numbers list strings.
From S2P Require Import Prelude Kstrtox Vsprintf VsnprintfText Result Vsnprintf.
Open Scope Z_scope.

(** ** Guarded stores *)

(** From [o] to [o'] only bytes from the position on and below [e] are stored. *)
Definition wrote (e : Z) (o o' : out) : Prop :=
  pos o <= pos o' /\ forall k, k < pos o \/ e <= k -> omem o' k = omem o k.

(** The bytes that [%n] stored. *)
Definition n_stored (st : stores) (k : Z) : Prop := exists a v, (a, v) ∈ st /\ a <= k < a + 4.

(** The same but for these bytes. *)
Definition wrote_but (st : stores) (e : Z) (o o' : out) : Prop :=
  pos o <= pos o' /\ forall k, k < pos o \/ e <= k -> ~ n_stored st k -> omem o' k = omem o k.

(** The arguments of a call and of the formats nested in it. *)
Inductive passed (W : world) (args : list Z) : Z -> Prop :=
| passed_here a : a ∈ args -> passed W args a
| passed_nested p fmt va a : p ∈ args -> va_format_at W p = Some (fmt, va) -> passed W va a -> passed W args a.

(** An operation that ends, in its local arrays. *)
Definition safe (e : Z) (o : out) (r : res out) : Prop :=
  match r with Ok o' => wrote e o o' | Fault => True | Stuck | Panic => False end.

(** The end of a buffer that is not the empty one at address 0. *)
Definition end_ok (e : Z) : Prop := 0 < e < 4294967296.

Definition is_s16 (z : Z) : Prop := -32768 <= z < 32768.

Create HintDb printing.

Lemma s16_range z : is_s16 (s16 z).
Proof. unfold is_s16, s16, u16. destruct (Z.ltb_spec (z `mod` 65536) 32768); zlia. Qed.
Lemma wrote_refl e o : wrote e o o.
Proof. by split. Qed.
Lemma wrote_trans e o1 o2 o3 : wrote e o1 o2 -> wrote e o2 o3 -> wrote e o1 o3.
Proof. intros [P1 M1] [P2 M2]. split; [lia|]. intros k Hk. rewrite M2 by lia. apply M1. lia. Qed.
Lemma wrote_put e o c : wrote e o (put e o c).
Proof. split; [cbn; lia|]. intros k Hk. cbn. destruct (Z.ltb_spec (pos o) e); [|done]. by rewrite (proj2 (Z.eqb_neq _ _)) by lia. Qed.
Lemma wrote_put_list e o l : wrote e o (put_list e o l).
Proof. revert o. induction l as [|c l IH]; intros o; [apply wrote_refl|]. eapply wrote_trans; [apply wrote_put|apply IH]. Qed.
Lemma wrote_store e o c : pos o < e -> wrote e o (store o c).
Proof. intros H. split; [cbn; lia|]. intros k Hk. cbn. by rewrite (proj2 (Z.eqb_neq _ _)) by lia. Qed.
#[export] Hint Resolve s16_range wrote_refl wrote_put wrote_put_list : printing.
#[export] Hint Resolve wrote_trans : printing.

Lemma n_stored_app st st' k : n_stored (st ++ st') k <-> n_stored st k \/ n_stored st' k.
Proof. unfold n_stored. setoid_rewrite elem_of_app. naive_solver. Qed.
Lemma wrote_but_nil e o o' : wrote e o o' -> wrote_but [] e o o'.
Proof. intros [Hp Hm]. split; [done|]. intros k Hk _. by apply Hm. Qed.
Lemma wrote_but_trans st st' e o1 o2 o3 : wrote_but st e o1 o2 -> wrote_but st' e o2 o3 -> wrote_but (st ++ st') e o1 o3.
Proof.
  intros [P1 M1] [P2 M2]. split; [lia|]. intros k Hk Hc. rewrite n_stored_app in Hc. rewrite M2; [apply M1; [done|tauto]|lia|tauto].
Qed.
Lemma wrote_but_store_int e o a v : wrote_but [(a, v)] e o (mkOut (store_int (omem o) a v) (pos o)).
Proof.
  split; [done|]. intros k _ Hc. cbn. unfold store_int. destruct (Z.leb_spec a k), (Z.ltb_spec k (a + 4)); try done.
  destruct Hc. exists a, v. split; [by apply list_elem_of_singleton|lia].
Qed.

Lemma safe_bind e o x f : safe e o x -> (forall o', wrote e o o' -> safe e o' (f o')) -> safe e o (rbind x f).
Proof.
  destruct x as [o'| | |]; cbn; try done. intros H Hf. specialize (Hf o' H). destruct (f o'); cbn in *; try done. by eapply wrote_trans.
Qed.
Lemma safe_after e o o' r : wrote e o o' -> safe e o' r -> safe e o r.
Proof. destruct r; cbn; try done. apply wrote_trans. Qed.

(** ** Loops *)

Lemma pad_wrote e o low w c : 0 <= low -> is_s16 w -> exists o' w', pad e o low w c = Some (o', w') /\ wrote e o o' /\ is_s16 w'.
Proof.
  intros Hl Hw. destruct (Z.eq_dec w (-32768)) as [->|Hne].
  - unfold pad, pad_fuel. cbn [Z.eqb Pos.eqb]. change (Z.to_nat 32768) with (S (Z.to_nat 32767)). cbn [pad_loop].
    change (s16 (-32768 - 1)) with 32767. destruct (Z.leb_spec low 32767).
    + destruct (pad_loop_spec (Z.to_nat 32767) e (put e o c) low 32767 c ltac:(lia) ltac:(lia) ltac:(lia)) as (w' & -> & Hw').
      eexists _, w'. split; [done|]. split; [eauto with printing|unfold is_s16; lia].
    + eexists _, _. split; [done|]. split; [auto with printing|unfold is_s16; lia].
  - unfold is_s16 in Hw. destruct (pad_spec e o low w c Hl ltac:(lia)) as (w' & -> & Hw').
    eexists _, w'. split; [done|]. split; [auto with printing|].
    unfold is_s16. destruct Hw' as [[-> ?]|[-> ?]]; [lia|]. lia.
Qed.

Lemma spaces_wrote e o len w : 0 <= len -> is_s16 w -> exists o' w', spaces e o len w = Some (o', w') /\ wrote e o o' /\ is_s16 w'.
Proof.
  intros Hl Hw. unfold spaces. remember (Z.to_nat (w - len)) as fuel eqn:Ef. assert (Hf : w - len <= Z.of_nat fuel) by lia. clear Ef.
  revert o w Hw Hf. induction fuel as [|fuel IH]; intros o w Hw Hf; cbn [space_loop]; (destruct (Z.ltb_spec len w); [|eauto 6 with printing]); [lia|].
  rewrite s16_id by (unfold is_s16 in Hw; lia).
  destruct (IH (put e o 32) (w - 1)) as (o' & w' & -> & Ho & Hw'); [unfold is_s16 in *; lia|lia|]. eauto 8 with printing.
Qed.

(** ** number and string *)

Definition radix (b : Z) : Prop := b = 8 \/ b = 10 \/ b = 16.
Definition is_u64 (z : Z) : Prop := 0 <= z < 18446744073709551616.

Lemma sign_of_range fl num w : is_u64 num -> is_s16 w ->
  is_u64 (sign_of fl num w).1.2 /\ is_s16 (sign_of fl num w).2.
Proof.
  intros Hn Hw. unfold sign_of. assert (Hu : is_u64 (u64 (- s64 num))) by (unfold is_u64, u64; apply Z.mod_pos_bound; lia).
  destruct (has fl SIGN); [|done]. destruct (s64 num <? 0); [split; [done|apply s16_range]|].
  destruct (has fl PLUS); [split; [done|apply s16_range]|]. destruct (has fl SPACE); [split; [done|apply s16_range]|done].
Qed.

Lemma number_wrote e o num sp :
  radix (base sp) -> is_u64 num -> is_s16 (field_width sp) -> is_s16 (precision sp) -> exists o', number e o num sp = Some o' /\ wrote e o o'.
Proof.
  intros Hb Hn Hw Hp. unfold number. set (fl := if has (flags sp) LEFT then _ else _).
  destruct (sign_of_range fl num (field_width sp) Hn Hw) as [Hn' Hw']. destruct (sign_of fl num (field_width sp)) as [[sign num'] w1]. cbn [fst snd] in Hn', Hw'.
  set (w2 := if has (flags sp) SPECIAL && _ then _ else _).
  destruct (digits_of_spec num' (base sp) _ Hb (locase_cases (flags sp)) Hn') as (tmp & -> & _ & Hlen). cbn [mbind option_bind].
  set (prec := if precision sp <? _ then _ else _). assert (Hprec : is_s16 prec) by (unfold prec; destruct (_ <? _); auto with printing).
  assert (H1 : exists o1 w1, (if negb (has fl (ZEROPAD + LEFT)) then pad e o 0 (s16 (w2 - prec)) 32 else Some (o, s16 (w2 - prec))) = Some (o1, w1) /\ wrote e o o1 /\ is_s16 w1).
  { destruct (negb (has fl (ZEROPAD + LEFT))); [apply pad_wrote; [lia|auto with printing]|eauto 6 with printing]. }
  destruct H1 as (o1 & w3 & -> & Ho1 & Hw3). cbn [mbind option_bind]. set (o2 := match sign with Some c => put e o1 c | None => o1 end).
  assert (Ho2 : wrote e o o2) by (unfold o2; destruct sign; eauto with printing).
  set (o3 := if has (flags sp) SPECIAL && _ then _ else _).
  assert (Ho3 : wrote e o o3).
  { unfold o3. destruct (has (flags sp) SPECIAL && negb (base sp =? 10)); [|done]. destruct (_ || _), (base sp =? 16); eauto with printing. }
  assert (H4 : exists o4 w4, (if negb (has fl LEFT) then pad e o3 0 w3 (if has fl ZEROPAD then 48 else 32) else Some (o3, w3)) = Some (o4, w4) /\ wrote e o3 o4 /\ is_s16 w4).
  { destruct (negb (has fl LEFT)); [apply pad_wrote; [lia|done]|eauto 6 with printing]. }
  destruct H4 as (o4 & w4 & -> & Ho4 & Hw4). cbn [mbind option_bind].
  destruct (pad_wrote e o4 (Z.of_nat (length tmp)) prec 48 ltac:(lia) Hprec) as (o5 & w5 & -> & Ho5 & _). cbn [mbind option_bind].
  destruct (pad_wrote e (put_list e o5 (rev tmp)) 0 w4 32 ltac:(lia) Hw4) as (o6 & w6 & -> & Ho6 & _). cbn [mbind option_bind].
  exists o6. split; [done|]. eauto 8 with printing.
Qed.

Lemma number_safe e o num sp :
  radix (base sp) -> is_u64 num -> is_s16 (field_width sp) -> is_s16 (precision sp) -> safe e o (stuck_of (number e o num sp)).
Proof. intros Hb Hn Hw Hp. by destruct (number_wrote e o num sp Hb Hn Hw Hp) as (o' & -> & H). Qed.

Lemma strnlen_range s count : 0 <= count -> match strnlen s count with Ok n => 0 <= n | Fault => True | _ => False end.
Proof.
  revert count. induction s as [|c s IH]; intros count Hc; cbn [strnlen]; destruct (Z.eqb_spec count 0); try done; [].
  destruct (c =? 0); [done|]. specialize (IH (count - 1) ltac:(lia)). destruct (strnlen s (count - 1)); cbn; try done. lia.
Qed.

Lemma string_of_safe e o s sp : is_s16 (field_width sp) -> safe e o (string_of e o s sp).
Proof.
  intros Hw. unfold string_of. pose proof (strnlen_range s (u32 (precision sp)) ltac:(apply u32_range)) as Hl.
  destruct (strnlen _ _) as [len| | |]; cbn [rbind]; try done.
  assert (H1 : exists o1 w1, (if has (flags sp) LEFT then Some (o, field_width sp) else spaces e o len (field_width sp)) = Some (o1, w1) /\ wrote e o o1 /\ is_s16 w1).
  { destruct (has _ _); [eauto 6 with printing|by apply spaces_wrote]. }
  destruct H1 as (o1 & w1 & -> & Ho1 & Hw1). cbn [stuck_of rbind].
  destruct (spaces_wrote e (put_list e o1 (take (Z.to_nat len) s)) len w1 Hl Hw1) as (o2 & w2 & -> & Ho2 & _). cbn. eauto with printing.
Qed.

Lemma print_char_safe e o c sp : is_s16 (field_width sp) -> safe e o (print_char e o c sp).
Proof.
  intros Hw. unfold print_char.
  assert (H1 : exists o1 w1, (if has (flags sp) LEFT then Some (o, field_width sp) else pad e o 1 (field_width sp) 32) = Some (o1, w1) /\ wrote e o o1 /\ is_s16 w1).
  { destruct (has _ _); [eauto 6 with printing|by apply pad_wrote]. }
  destruct H1 as (o1 & w1 & -> & Ho1 & Hw1). cbn [stuck_of rbind].
  destruct (pad_wrote e (put e o1 (u8 c)) 1 w1 32 ltac:(lia) Hw1) as (o2 & w2 & -> & Ho2 & _). cbn. eauto with printing.
Qed.

Lemma copy_literal_wrote e o l : wrote e o (copy_literal e o l).
Proof.
  unfold copy_literal. destruct (Z.ltb_spec (pos o) e); (split; cbn; [lia|]); intros k Hk; [|done].
  destruct (Z.leb_spec (pos o) k); [|done]. rewrite (proj2 (Z.ltb_ge _ _)); [done|]. destruct (Z.ltb_spec (e - pos o) (Z.of_nat (length l))); lia.
Qed.

(** ** Extended pointers *)

(** The bytes of memory, and arguments of one word each. *)
Record world_ok (W : world) : Prop := {
  wo_bytes : forall p, Forall is_u8 (rd W p);
  wo_args : forall p fmt va, va_format_at W p = Some (fmt, va) -> Forall is_u32 va
}.

(** The fields a format sets. *)
Record spec_ok (sp : printf_spec) : Prop := { so_width : is_s16 (field_width sp); so_prec : is_s16 (precision sp) }.

Lemma ch_u8 l i : Forall is_u8 l -> is_u8 (ch l i).
Proof. intros H. unfold ch. revert i. induction H as [|c l Hc _ IH]; intros [|i]; cbn; try (unfold is_u8; lia); [done|apply IH]. Qed.

Section pointers.
Context (W : world) (HW : world_ok W).

Lemma safe_read e o p n f : (forall l, length l = n -> Forall is_u8 l -> safe e o (f l)) -> safe e o (let* l := read W p n in f l).
Proof using HW.
  intros H. unfold read. destruct (Nat.leb_spec n (length (rd W p))); [|done]. apply H; [rewrite length_take; lia|].
  apply Forall_take, HW.
Qed.

(** A text that fits its local array is printed by [string]. *)
Lemma safe_local e o n l sp : Z.of_nat (length l) <= n -> spec_ok sp -> safe e o (let* l := local n l in string_of e o l sp).
Proof. intros Hl [Hw _]. unfold local. rewrite (proj2 (Z.leb_le _ _)) by done. by apply string_of_safe. Qed.

Lemma le32_u8 l a b c d : Forall is_u8 l -> is_u32 (le32 (ch l a) (ch l b) (ch l c) (ch l d)).
Proof.
  intros Hl. pose proof (ch_u8 l a Hl). pose proof (ch_u8 l b Hl). pose proof (ch_u8 l c Hl). pose proof (ch_u8 l d Hl).
  unfold is_u8, is_u32, le32 in *. lia.
Qed.

Lemma symbol_string_safe e o ptr sp : is_u32 ptr -> spec_ok sp -> safe e o (symbol_string e o ptr sp).
Proof.
  intros Hp [_ Hs]. apply number_safe; cbn; [unfold radix; lia|unfold is_u64, is_u32 in *; lia|unfold is_s16; lia|done].
Qed.

Lemma netdev_feature_string_safe e o addr sp : spec_ok sp -> safe e o (netdev_feature_string W e o addr sp).
Proof using HW.
  intros [Hw Hs]. unfold netdev_feature_string. apply safe_read. intros l _ Hl.
  pose proof (le32_u8 l 0 1 2 3 Hl). pose proof (le32_u8 l 4 5 6 7 Hl). unfold is_u32 in *.
  apply number_safe; cbn; [unfold radix; lia|unfold is_u64; lia|destruct (_ =? -1); [unfold is_s16; cbn; lia|done]|by destruct (_ =? -1)].
Qed.

Lemma mac_address_string_safe e o addr sp fmt : spec_ok sp -> safe e o (mac_address_string W e o addr sp fmt).
Proof using HW.
  intros Hs. unfold mac_address_string. apply safe_read. intros l Hl _. apply safe_local; [|done].
  assert (Hlen : length (if ch fmt 1 =? 82 then rev l else l) = 6%nat) by (destruct (_ =? 82); rewrite ?length_rev; done).
  revert Hlen. generalize (if ch fmt 1 =? 82 then rev l else l). intros l' Hl'.
  do 7 (destruct l' as [|? l']; try discriminate Hl'). destruct (ch fmt 0 =? 77); vm_compute; discriminate.
Qed.

Lemma uuid_string_safe e o addr sp fmt : spec_ok sp -> safe e o (uuid_string W e o addr sp fmt).
Proof using HW.
  intros Hs. unfold uuid_string. apply safe_read. intros l Hl _. apply safe_local; [|done].
  destruct (_ || _), (_ || _); rewrite length_app, ?length_map; vm_compute; discriminate.
Qed.

(** *** IP addresses *)

Lemma ip4_loop_length l z : Forall is_u8 l -> exists t, ip4_loop l z = Ok t /\ (l <> [] -> (length t < 4 * length l)%nat) /\ (l = [] -> t = []).
Proof.
  induction 1 as [|b l Hb _ IH]; cbn [ip4_loop]; [by eexists|]. unfold is_u8 in Hb.
  destruct (put_dec_trunc8_spec b ltac:(lia)) as (d & -> & Hd). pose proof (decimal_length b d 3 Hd ltac:(lia) ltac:(zcalc; lia)) as Hlen.
  cbn [stuck_of rbind]. unfold local. rewrite (proj2 (Z.leb_le _ _)) by lia. cbn [rbind]. destruct IH as (t & -> & H1 & H2). cbn [rbind].
  eexists. split; [reflexivity|]. split; [intros _|done]. set (zeros := if z then _ else _). rewrite !length_app, length_rev.
  assert (Hz : (length zeros + length d <= 3)%nat).
  { assert (Hl3 : (length d <= 3)%nat) by lia. assert (Hl1 : d <> []).
    { intros ->. destruct Hd as (_ & Hv & H0 & _). cbn in Hv. by specialize (H0 (eq_sym Hv)). }
    clear -Hl3 Hl1. unfold zeros. destruct z; [|cbn; lia]. destruct d as [|? [|? [|? d]]]; [done|cbn; lia..|cbn in *; lia]. }
  clearbody zeros. case_bool_decide as E; cbn [length] in *; [rewrite (H2 E); cbn; lia|specialize (H1 E); lia].
Qed.

Lemma ip4_string_length l fmt : Forall is_u8 l -> length l = 4%nat -> exists t, ip4_string l fmt = Ok t /\ (length t <= 15)%nat.
Proof.
  intros Hl Hlen. unfold ip4_string. edestruct (ip4_loop_length (if (ch fmt 2 =? 104) || (ch fmt 2 =? 108) then rev l else l)) as (t & -> & H & _).
  { destruct (_ || _); [by apply Forall_rev|done]. }
  exists t. split; [done|]. assert (length (if (ch fmt 2 =? 104) || (ch fmt 2 =? 108) then rev l else l) = 4%nat) as E by (destruct (_ || _); rewrite ?length_rev; done).
  rewrite E in H. enough (length t < 4 * 4)%nat by lia. apply H. intros E'. by rewrite E' in E.
Qed.

Lemma ip4_addr_string_safe e o addr sp fmt : spec_ok sp -> safe e o (ip4_addr_string W e o addr sp fmt).
Proof using HW.
  intros Hs. unfold ip4_addr_string. apply safe_read. intros l Hl Hb. destruct (ip4_string_length l fmt Hb Hl) as (t & -> & Ht). cbn [rbind].
  apply safe_local; [|done]. rewrite length_app. change (sizeof (chars "255.255.255.255")) with 16. cbn. lia.
Qed.

Lemma hex_u16_length w : (1 <= length (hex_u16 w) <= 4)%nat.
Proof. unfold hex_u16. destruct (negb _); [destruct (_ <? _); cbn; lia|]. destruct (_ <? _); cbn; lia. Qed.

(** At most five characters for a word, its colon included. *)
Lemma emit_words_length fuel a i range longest colonpos nc :
  0 <= i -> 1 <= longest -> colonpos = -1 \/ 2 <= longest -> range - i <= Z.of_nat fuel ->
  exists t nc', emit_words fuel a i range longest colonpos nc = Ok (t, nc') /\
    Z.of_nat (length t) <= Z.max 0 (5 * (range - i) - c_bool (negb nc)).
Proof.
  revert i nc. induction fuel as [|fuel IH]; intros i nc Hi Hl Hc Hf; cbn [emit_words]; (destruct (Z.ltb_spec i range); [|eexists _, _; split; [done|cbn; lia]]); [lia|].
  destruct (Z.eqb_spec i colonpos) as [E|E].
  - destruct (IH (i + (longest - 1) + 1) false) as (t & nc' & -> & Ht); [lia..|]. cbn [rbind]. eexists _, _. split; [done|].
    rewrite !length_app. cbn [negb c_bool length] in *. assert (Z.of_nat (length (if nc || (i =? 0) then [58] else [])) <= 1) by (destruct (_ || _); cbn; lia).
    assert (c_bool (negb nc) <= 1) by (destruct nc; cbn; lia). lia.
  - destruct (IH (i + 1) true) as (t & nc' & -> & Ht); [lia..|]. cbn [rbind]. eexists _, _. split; [done|].
    rewrite !length_app. cbn [negb c_bool length] in *. pose proof (hex_u16_length (s6_addr16 a i)). destruct nc; cbn [length c_bool negb]; lia.
Qed.

Lemma longest_run_range n a i longest colonpos : 1 <= longest ->
  1 <= (longest_run n a i longest colonpos).1.
Proof.
  revert i longest colonpos. induction n as [|n IH]; intros i longest colonpos Hl; cbn [longest_run]; [done|].
  destruct (Z.ltb_spec longest (zerolength (S n) a i)); apply IH; lia.
Qed.

Lemma ip6_compressed_length a : Forall is_u8 a -> length a = 16%nat -> exists t, ip6_compressed_string a = Ok t /\ (length t <= 45)%nat.
Proof.
  intros Ha Hl. unfold ip6_compressed_string. set (v4 := ipv6_addr_v4mapped a || ipv6_addr_is_isatap a). set (range := if v4 then 6 else 8).
  pose proof (longest_run_range (Z.to_nat range) a 0 1 (-1) ltac:(lia)) as Hlong. destruct (longest_run _ a 0 1 (-1)) as [longest colonpos]. cbn [fst] in Hlong.
  destruct (emit_words_length 8 a 0 range longest (if longest =? 1 then -1 else colonpos) false) as (t & nc & -> & Ht).
  { lia. } { done. } { destruct (Z.eqb_spec longest 1); lia. } { unfold range. destruct v4; cbn; lia. }
  cbn [rbind negb c_bool] in *. unfold range in Ht. destruct v4; [|eexists; split; [done|lia]].
  destruct (ip4_string_length (drop 12 a) (chars "I4")) as (q & -> & Hq); [by apply Forall_drop|by rewrite length_drop, Hl|].
  cbn [rbind]. eexists. split; [done|]. rewrite !length_app. assert (Z.of_nat (length (if nc then [58] else [])) <= 1) by (destruct nc; cbn; lia). lia.
Qed.

Lemma ip6_addr_string_safe e o addr sp fmt : spec_ok sp -> safe e o (ip6_addr_string W e o addr sp fmt).
Proof using HW.
  intros Hs. unfold ip6_addr_string. apply safe_read. intros l Hl Hb.
  assert (Ht : exists t, (if (ch fmt 0 =? 73) && (ch fmt 2 =? 99) then ip6_compressed_string l else Ok (ip6_string l fmt)) = Ok t /\ (length t <= 45)%nat).
  { destruct (_ && _); [by apply ip6_compressed_length|]. eexists. split; [done|]. unfold ip6_string.
    do 17 (destruct l as [|? l]; try discriminate Hl). destruct (_ =? 73); cbn; lia. }
  destruct Ht as (t & -> & Ht). cbn [rbind]. apply safe_local; [|done]. rewrite length_app.
  change (sizeof _) with 46. cbn [length]. lia.
Qed.

Lemma hex_loop_safe n l e o sep : end_ok e -> safe e o (hex_loop n l e o sep).
Proof.
  intros He. revert l o. induction n as [|n IH]; intros l o; cbn [hex_loop]; [apply wrote_refl|]. rewrite u32_id by (unfold end_ok, is_u32 in *; lia). destruct (Z.ltb_spec (pos o) (e - 1)); [|apply wrote_refl].
  destruct l as [|b l]; [done|]. eapply safe_after; [|apply IH].
  assert (H1 : wrote e o (fold_left store (hex_byte_pack b) o)).
  { cbn [hex_byte_pack fold_left]. eapply wrote_trans; apply wrote_store; cbn; lia. }
  destruct (Z.ltb_spec (pos (fold_left store (hex_byte_pack b) o)) e); cbn [andb]; [|done]. destruct (_ && _); [|done].
  eapply wrote_trans; [exact H1|]. by apply wrote_store.
Qed.

Lemma hex_string_safe e o addr sp fmt : end_ok e -> spec_ok sp -> safe e o (hex_string W e o addr sp fmt).
Proof.
  intros He Hs. unfold hex_string. destruct (_ =? 0); [apply wrote_refl|]. destruct (_ <=? 16); [apply string_of_safe, Hs|by apply hex_loop_safe].
Qed.

Lemma resource_string_safe e o res sp fmt : spec_ok sp -> safe e o (resource_string W e o res sp fmt).
Proof using HW.
  intros Hs. unfold resource_string. apply safe_read. intros l _ Hl. cbv zeta.
  destruct (resource_sym_text _ _ _ (ch fmt 0 =? 82) (le32_u8 l 0 1 2 3 Hl) (le32_u8 l 4 5 6 7 Hl) (le32_u8 l 12 13 14 15 Hl)) as [-> Hlen].
  cbn [rbind]. rewrite sym_put_text; [apply string_of_safe, Hs|]. rewrite put_list_pos. change SYM_SIZE with 59. cbn [pos]. lia.
Qed.

(** *** pointer *)

(** Every [%n] stores where an argument [P] holds of points to. *)
Definition safe_stores (P : Z -> Prop) (e : Z) (o : out) (r : res (out * stores)) : Prop :=
  match r with Ok (o', st) => wrote_but st e o o' /\ Forall (fun x => P x.1) st | Fault => True | Stuck | Panic => False end.
Lemma safe_plain P e o r : safe e o r -> safe_stores P e o (plain r).
Proof. destruct r; try done. intros H. split; [by apply wrote_but_nil|by apply Forall_nil]. Qed.

(** A call that stores only in its buffer, and with [%n]. *)
Definition printed_ok (P : Z -> Prop) (buf size : Z) (m : Z -> Z) (r : res printed) : Prop :=
  match r with
  | Ok (n, m', st) => 0 <= n /\ (forall k, k < buf \/ buf + size <= k -> ~ n_stored st k -> m' k = m k) /\ Forall (fun x => P x.1) st
  | Fault => True
  | Stuck | Panic => False
  end.

Lemma plain_pointer_safe e o ptr w sp : is_u32 ptr -> is_s16 w -> spec_ok sp -> safe e o (plain_pointer e o ptr w sp).
Proof.
  intros Hp Hw [H1 H2]. unfold plain_pointer. apply number_safe; cbn; [unfold radix; lia|unfold is_u64, is_u32 in *; lia|..]; by destruct (_ =? -1).
Qed.

Lemma spec_ok_width sp w : spec_ok sp -> is_s16 w -> spec_ok (if field_width sp =? -1 then set_field_width w sp else sp).
Proof. intros [H1 H2] Hw. by destruct (_ =? -1). Qed.

Lemma kernel_pointer_safe e o ptr w sp : is_u32 ptr -> is_s16 w -> spec_ok sp -> safe e o (kernel_pointer W e o ptr w sp).
Proof.
  intros Hp Hw Hs. unfold kernel_pointer. destruct (_ && _); [by apply string_of_safe, spec_ok_width|].
  apply plain_pointer_safe; [destruct (negb _); [unfold is_u32; lia|done]|done..].
Qed.

Section nested.
Context (nested : Z -> Z -> list Z -> list Z -> (Z -> Z) -> res printed).

Lemma va_format_string_safe P e o ptr : end_ok e -> 0 <= pos o ->
  (forall fmt va, va_format_at W ptr = Some (fmt, va) -> forall size, is_u32 size -> 0 < pos o + size -> printed_ok P (pos o) size (omem o) (nested (pos o) size fmt va (omem o))) ->
  safe_stores P e o (va_format_string W nested e o ptr).
Proof.
  intros He Hp H. unfold va_format_string. destruct (va_format_at W ptr) as [[fmt va]|]; [|done]. cbn [of_option rbind].
  assert (Hsz : is_u32 (if pos o <? e then e - pos o else 0)) by (unfold end_ok, is_u32 in *; destruct (Z.ltb_spec (pos o) e); lia).
  specialize (H fmt va eq_refl _ Hsz ltac:(unfold end_ok in He; destruct (Z.ltb_spec (pos o) e); lia)). destruct (nested _ _ _ _ _) as [[[n m] st]| | |]; cbn in *; try done.
  destruct H as (H1 & H2 & H3). split; [|done]. split; [cbn; lia|]. intros k Hk Hc. cbn. apply H2; [|done]. destruct (Z.ltb_spec (pos o) e); lia.
Qed.

Lemma pointer_safe P fmt e o ptr sp : end_ok e -> 0 <= pos o -> is_u32 ptr -> spec_ok sp ->
  (forall fmt va, va_format_at W ptr = Some (fmt, va) -> forall size, is_u32 size -> 0 < pos o + size -> printed_ok P (pos o) size (omem o) (nested (pos o) size fmt va (omem o))) ->
  safe_stores P e o (pointer W nested fmt e o ptr sp).
Proof using HW.
  intros He Ho Hp Hs Hn. unfold pointer. set (w := 2 * 4 + _). assert (Hw : is_s16 w) by (unfold w, is_s16; destruct (has _ _); lia).
  repeat match goal with |- safe_stores _ _ _ (if ?b then _ else _) => destruct b end; try apply safe_plain;
    auto using symbol_string_safe, resource_string_safe, hex_string_safe, mac_address_string_safe, ip6_addr_string_safe, ip4_addr_string_safe,
      uuid_string_safe, va_format_string_safe, kernel_pointer_safe, netdev_feature_string_safe, plain_pointer_safe.
  by apply string_of_safe, spec_ok_width.
Qed.

End nested.
End pointers.

(** ** format_decode *)

(** The argument of a [*] is still to be taken into account. *)
Definition awaits (sp : printf_spec) : bool :=
  match type sp with FORMAT_TYPE_WIDTH | FORMAT_TYPE_PRECISION => true | _ => false end.

Lemma number_type_awaits sp sp' : awaits (set_type (number_type sp) sp') = false.
Proof. unfold number_type, awaits. cbn [type set_type]. repeat (destruct (_ =? _); [try done; by destruct (has _ _)|]). by destruct (has _ _). Qed.

Lemma decode_conversion_ok fmt sp : spec_ok sp ->
  let '(fmt', sp') := decode_conversion fmt sp in
  spec_ok sp' /\ radix (base sp') /\ awaits sp' = false /\ (length fmt' <= length fmt)%nat.
Proof.
  intros [H1 H2]. assert (Hd : (length (drop 1 fmt) <= length fmt)%nat) by (rewrite length_drop; lia).
  pose proof number_type_awaits as Hn. unfold decode_conversion.
  repeat match goal with |- let '(_, _) := (if ?b then _ else _) in _ => destruct b end;
    (split_and!; [by split|unfold radix; cbn; lia|done || by apply Hn|lia]).
Qed.

Lemma decode_qualifier_ok fmt sp : spec_ok sp ->
  let '(fmt', sp') := decode_qualifier fmt sp in
  spec_ok sp' /\ radix (base sp') /\ awaits sp' = false /\ (length fmt' <= length fmt)%nat.
Proof.
  intros [H1 H2]. unfold decode_qualifier.
  assert (Hc : forall n q, let '(fmt', sp') := decode_conversion (drop n fmt) (set_qualifier q sp) in
    spec_ok sp' /\ radix (base sp') /\ awaits sp' = false /\ (length fmt' <= length fmt)%nat).
  { intros n q. pose proof (decode_conversion_ok (drop n fmt) (set_qualifier q sp) ltac:(by split)) as H. destruct (decode_conversion _ _).
    rewrite length_drop in H. destruct H as (Ha & Hb & Hc & Hd). split_and!; try done. lia. }
  repeat match goal with |- let '(_, _) := (if ?b then _ else _) in _ => destruct b end; rewrite ?drop_drop; try apply Hc.
  apply (Hc 0%nat).
Qed.

Lemma skip_atoi_length i s : (length (skip_atoi i s).2 <= length s)%nat.
Proof. revert i. induction s as [|c s IH]; intros i; cbn [skip_atoi]; [done|]. destruct (isdigit c); [|done]. specialize (IH (s32 (i * 10 + c - 48))). cbn. lia. Qed.

Lemma drop1_length (l : list Z) c : ch l 0 = c -> c <> 0 -> (length (drop 1 l) + 1 = length l)%nat.
Proof. destruct l; [by intros <-|]. intros _ _. rewrite length_drop. cbn. lia. Qed.

Lemma decode_precision_ok fmt sp : spec_ok sp -> awaits sp = false ->
  let '(fmt', sp') := decode_precision fmt sp in
  spec_ok sp' /\ (awaits sp' = false -> radix (base sp')) /\ (length fmt' + (if awaits sp' then 2 else 0) <= length fmt)%nat.
Proof.
  intros [H1 H2] Ha. unfold decode_precision.
  assert (Hq : forall f p, (length f <= length fmt)%nat -> is_s16 p ->
    let '(fmt', sp') := decode_qualifier f (set_precision p sp) in
    spec_ok sp' /\ (awaits sp' = false -> radix (base sp')) /\ (length fmt' + (if awaits sp' then 2 else 0) <= length fmt)%nat).
  { intros f p Hf Hp. pose proof (decode_qualifier_ok f (set_precision p sp) ltac:(by split)) as H. destruct (decode_qualifier _ _) as [f' sp'].
    destruct H as (B1 & B2 & B3 & B4). split_and!; try done. rewrite B3. lia. }
  assert (Hm : is_s16 (-1)) by (unfold is_s16; lia).
  destruct (Z.eqb_spec (ch fmt 0) 46) as [E|E]; [|by apply Hq]. pose proof (drop1_length fmt 46 E ltac:(lia)) as Hd.
  destruct (isdigit (ch (drop 1 fmt) 0)).
  - pose proof (skip_atoi_length 0 (drop 1 fmt)) as Hl. destruct (skip_atoi 0 (drop 1 fmt)) as [i f]. cbn [snd] in Hl.
    apply (Hq f (if s16 i <? 0 then 0 else s16 i)); [lia|]. destruct (_ <? _); [unfold is_s16; lia|apply s16_range].
  - destruct (Z.eqb_spec (ch (drop 1 fmt) 0) 42) as [E2|E2]; [|apply Hq; [lia|done]].
    pose proof (drop1_length (drop 1 fmt) 42 E2 ltac:(lia)). split_and!; [by split|done|cbn [awaits set_type type]; lia].
Qed.

Lemma literal_length fmt : (length (literal fmt).1 + length (literal fmt).2 = length fmt)%nat.
Proof. induction fmt as [|c fmt IH]; cbn [literal]; [done|]. destruct (c =? 37); [done|]. destruct (literal fmt). cbn in *. lia. Qed.

Lemma decode_flags_ok fmt sp : spec_ok sp ->
  spec_ok (decode_flags fmt sp).2 /\ awaits (decode_flags fmt sp).2 = awaits sp /\ (length (decode_flags fmt sp).1 <= length fmt)%nat.
Proof.
  revert sp. induction fmt as [|c fmt IH]; intros sp Hs; cbn [decode_flags]; [done|]. destruct (flag_char c) as [f|]; [|done].
  destruct (IH (or_flags f sp)) as (B1 & B2 & B3); [by destruct Hs|]. split_and!; [done|by rewrite B2|cbn; lia].
Qed.

(** What is left to do: two rounds for a character, one for a conversion that awaits its
    argument. *)
Definition left_over (fmt : list Z) (sp : printf_spec) : nat := 2 * length fmt + (if awaits sp then 1 else 0).

Lemma decode_start_ok fmt sp : spec_ok sp -> fmt <> [] ->
  let '(fmt', sp') := decode_start fmt sp in
  spec_ok sp' /\ (type sp' <> FORMAT_TYPE_NONE -> awaits sp' = false -> radix (base sp')) /\ (length fmt' < length fmt)%nat.
Proof.
  intros [H1 H2] Hne. unfold decode_start. cbv zeta. pose proof (literal_length fmt) as Hl. destruct (literal fmt) as [l rest]. cbn [fst snd] in Hl.
  destruct l as [|c l]; [|split_and!; [by split|done|cbn in Hl; lia]]. destruct rest as [|c rest]; [destruct fmt; done|]. cbn [length] in Hl.
  destruct (decode_flags_ok rest (set_flags 0 (set_type FORMAT_TYPE_NONE sp)) ltac:(by split)) as ([_ B2] & B3 & B4).
  destruct (decode_flags rest _) as [f sp1]. cbn [fst snd] in *.
  assert (Hp : forall f' w, (length f' <= length f)%nat -> is_s16 w -> let '(fmt', sp') := decode_precision f' (set_field_width w sp1) in
    spec_ok sp' /\ (type sp' <> FORMAT_TYPE_NONE -> awaits sp' = false -> radix (base sp')) /\ (length fmt' < length fmt)%nat).
  { intros f' w Hf Hw. pose proof (decode_precision_ok f' (set_field_width w sp1) ltac:(by split) B3) as H. destruct (decode_precision _ _).
    destruct H as (D1 & D2 & D3). split_and!; [done|auto|lia]. }
  destruct (isdigit (ch f 0)).
  - pose proof (skip_atoi_length 0 f). destruct (skip_atoi 0 f) as [i f']. apply Hp; [done|apply s16_range].
  - destruct (ch f 0 =? 42); [|apply Hp; [done|unfold is_s16; lia]].
    split_and!; [split; [unfold is_s16; cbn; lia|done]|done|rewrite length_drop; lia].
Qed.

Lemma format_decode_ok fmt sp : spec_ok sp -> fmt <> [] ->
  let '(fmt', sp') := format_decode fmt sp in
  spec_ok sp' /\ (type sp' <> FORMAT_TYPE_NONE -> awaits sp' = false -> radix (base sp')) /\ (left_over fmt' sp' < left_over fmt sp)%nat.
Proof.
  intros Hs Hne. unfold format_decode, left_over. pose proof (decode_start_ok fmt sp Hs Hne) as Hd. destruct Hs as [H1 H2].
  destruct (type sp) eqn:Et; unfold awaits at 3; rewrite Et;
    try (destruct (decode_start fmt sp) as [f' sp']; destruct Hd as (D1 & D2 & D3); split_and!; [done|done|destruct (awaits sp'); lia]).
  - set (sp1 := if field_width sp <? 0 then _ else sp).
    assert (Hs1 : spec_ok sp1) by (unfold sp1; destruct (_ <? _); split; cbn; auto using s16_range).
    pose proof (decode_precision_ok fmt (set_type FORMAT_TYPE_NONE sp1) ltac:(by destruct Hs1) eq_refl) as H. destruct (decode_precision _ _) as [f' sp'].
    destruct H as (D1 & D2 & D3). split_and!; [done|auto|destruct (awaits sp'); lia].
  - set (sp1 := if precision sp <? 0 then _ else sp).
    assert (Hs1 : spec_ok sp1) by (unfold sp1; destruct (_ <? _); split; cbn; auto; unfold is_s16; lia).
    pose proof (decode_qualifier_ok fmt (set_type FORMAT_TYPE_NONE sp1) ltac:(by destruct Hs1)) as H. destruct (decode_qualifier _ _) as [f' sp'].
    destruct H as (D1 & D2 & D3 & D4). split_and!; [done|auto|rewrite D3; lia].
Qed.

(** ** vsnprintf *)

Section printing.
Context (W : world) (HW : world_ok W) (nested : Z -> Z -> list Z -> list Z -> (Z -> Z) -> res printed) (P : Z -> Prop).

(** A word for which [P] holds, and where it points to a nested format, one that prints into
    its buffer. *)
Definition arg_ok (a : Z) : Prop :=
  is_u32 a /\ P a /\ forall fmt va, va_format_at W a = Some (fmt, va) ->
    forall buf size m, 0 <= buf -> is_u32 size -> 0 < buf + size -> printed_ok P buf size m (nested buf size fmt va m).

Lemma va_number_ok t args : Forall arg_ok args ->
  match va_number t args with Ok (n, args') => is_u64 n /\ Forall arg_ok args' | Fault => True | _ => False end.
Proof.
  intros H. unfold va_number. destruct H as [|a args [Ha _] H]; [done|]. cbn [va_arg rbind]. unfold is_u32 in Ha.
  assert (Hu : forall z, is_u64 (u64 z)) by (intros z; unfold is_u64, u64; apply Z.mod_pos_bound; lia).
  assert (Ha' : is_u64 a /\ is_u64 (u8 a) /\ is_u64 (u16 a)).
  { pose proof (u8_range a). pose proof (u16_range a). unfold is_u64, is_u8, is_u16 in *. lia. }
  destruct Ha' as (A1 & A2 & A3). destruct t; try (split; auto); [].
  destruct H as [|b args _ H]; [done|]. cbn. auto.
Qed.

(** The state between two rounds. *)
Record printing_ok (s : printing) : Prop := {
  po_spec : spec_ok (p_spec s);
  po_args : Forall arg_ok (p_args s);
  po_pos : 0 <= pos (p_out s)
}.

(** What is written on the way from [s] to [s']. *)
Definition stored (e : Z) (s s' : printing) : Prop :=
  exists st, p_stores s' = p_stores s ++ st /\ wrote_but st e (p_out s) (p_out s') /\ Forall (fun x => P x.1) st.

Lemma stored_plain e s s' : wrote e (p_out s) (p_out s') -> p_stores s' = p_stores s -> stored e s s'.
Proof. intros H E. exists []. rewrite app_nil_r. split_and!; [done|by apply wrote_but_nil|by apply Forall_nil]. Qed.
Lemma stored_trans e s1 s2 s3 : stored e s1 s2 -> stored e s2 s3 -> stored e s1 s3.
Proof.
  intros (st & E & Hw & Ha) (st' & E' & Hw' & Ha'). exists (st ++ st'). rewrite E', E, app_assoc.
  split_and!; [done|by eapply wrote_but_trans|by apply Forall_app].
Qed.

Definition step_ok (e : Z) (s : printing) (r : res printing) : Prop :=
  match r with
  | Ok s' => printing_ok s' /\ stored e s s' /\ (left_over (p_fmt s') (p_spec s') < left_over (p_fmt s) (p_spec s))%nat
  | Fault => True
  | Stuck | Panic => False
  end.

Lemma skip_alnum_length fmt : (length (skip_alnum fmt) <= length fmt)%nat.
Proof. induction fmt as [|c fmt IH]; cbn [skip_alnum]; [done|]. destruct (isalnum c); cbn; lia. Qed.

Lemma print_step_ok buf e s : end_ok e -> printing_ok s -> p_fmt s <> [] -> step_ok e s (print_step W nested buf e s).
Proof using HW.
  intros He [Hs Ha Hp] Hne. unfold print_step. pose proof (format_decode_ok (p_fmt s) (p_spec s) Hs Hne) as Hd.
  destruct (format_decode (p_fmt s) (p_spec s)) as [fmt sp]. destruct Hd as (D1 & D2 & D3).
  assert (Hgo : forall o args, wrote e (p_out s) o -> Forall arg_ok args -> step_ok e s (Ok (mkP fmt sp o args (p_stores s)))).
  { intros o args Ho Hargs. split; [|split; [by apply stored_plain|done]]. split; [done|done|]. destruct Ho. cbn. lia. }
  assert (Hout : forall r args, safe e (p_out s) r -> Forall arg_ok args -> step_ok e s (let* o := r in Ok (mkP fmt sp o args (p_stores s)))).
  { intros r args Hr Hargs. destruct r; cbn [rbind]; try done. by apply Hgo. }
  assert (Harg : forall f, (forall a args, arg_ok a -> Forall arg_ok args -> step_ok e s (f (a, args))) -> step_ok e s (rbind (va_arg (p_args s)) f)).
  { intros f Hf. destruct Ha as [|a args Ha1 Ha2]; [done|]. by apply Hf. }
  assert (Hnum : type sp <> FORMAT_TYPE_NONE -> awaits sp = false ->
    step_ok e s (let* (num, args) := va_number (type sp) (p_args s) in let* o := stuck_of (number e (p_out s) num sp) in Ok (mkP fmt sp o args (p_stores s)))).
  { intros T1 T2. pose proof (va_number_ok (type sp) (p_args s) Ha) as Hn. destruct (va_number _ _) as [[num args]| | |]; cbn [rbind]; try done.
    apply Hout; [|apply Hn]. apply number_safe; [by apply D2|apply Hn|apply D1|apply D1]. }
  destruct (type sp) eqn:Et; try (apply Hnum; [done|by unfold awaits; rewrite Et]).
  - apply Hgo; [apply copy_literal_wrote|done].
  - apply Harg. intros a args A1 A2. cbn. split; [split; [split; [apply s16_range|apply D1]|done|done]|]. split; [by apply stored_plain, eq_refl; apply wrote_refl|]. exact D3.
  - apply Harg. intros a args A1 A2. cbn. split; [split; [split; [apply D1|apply s16_range]|done|done]|]. split; [by apply stored_plain, eq_refl; apply wrote_refl|]. exact D3.
  - apply Harg. intros a args A1 A2. apply Hout; [apply print_char_safe, D1|done].
  - apply Harg. intros a args A1 A2. apply Hout; [apply string_of_safe, D1|done].
  - apply Harg. intros a args (A1 & _ & A3) A2.
    pose proof (pointer_safe W HW nested P (drop 1 fmt) e (p_out s) a sp He Hp A1 D1 ltac:(intros; by apply (A3 fmt0 va))) as Hptr.
    destruct (pointer _ _ _ _ _ _ _) as [[o st]| | |]; cbn [rbind] in *; try done. destruct Hptr as [Hw Hst].
    split; [split; [done|done|]|split; [by exists st|]].
    + destruct Hw. cbn. lia.
    + cbn. pose proof (skip_alnum_length fmt). unfold left_over in *. lia.
  - apply Hgo; [apply wrote_put|done].
  - apply Hgo; [apply wrote_put|done].
  - apply Harg. intros a args (_ & A1 & _) A2. split; [by split|]. split; [|done]. eexists. split; [reflexivity|].
    split; [apply wrote_but_store_int|by apply Forall_singleton].
Qed.

Lemma print_loop_ok fuel buf e s : end_ok e -> printing_ok s -> (left_over (p_fmt s) (p_spec s) <= fuel)%nat ->
  match print_loop W nested fuel buf e s with
  | Ok s' => stored e s s'
  | Fault => True
  | Stuck | Panic => False
  end.
Proof using HW.
  intros He. revert s. induction fuel as [|fuel IH]; intros s Hs Hf; cbn [print_loop]; (case_bool_decide as E; [by apply stored_plain, eq_refl; apply wrote_refl|]).
  { unfold left_over in Hf. destruct (p_fmt s); [done|]. cbn in Hf. lia. }
  pose proof (print_step_ok buf e s He Hs E) as H. destruct (print_step _ _ _ _ _) as [s'| | |]; cbn [rbind]; try done. destruct H as (B1 & B2 & B3).
  specialize (IH s' B1 ltac:(lia)). destruct (print_loop _ _ _ _ _ _); try done. by eapply stored_trans.
Qed.

(** The end of the buffer, and the terminator. *)
Definition printed_safe (buf size : Z) (m : Z -> Z) (r : res printed) : Prop :=
  match r with
  | Ok (n, m', st) =>
      0 <= n /\ (forall k, k < buf \/ buf + size <= k -> ~ n_stored st k -> m' k = m k) /\ Forall (fun x => P x.1) st /\
      (0 < size < 2147483648 -> buf + size < 4294967296 -> m' (buf + Z.min n (size - 1)) = 0)
  | Fault => True
  | Stuck | Panic => False
  end.

Lemma printing_start fmt m buf args : 0 <= buf -> Forall arg_ok args -> printing_ok (mkP fmt zero_spec (mkOut m buf) args []).
Proof. intros Hb Ha. split; [split; unfold is_s16; cbn; lia|done|done]. Qed.

Lemma vsnprintf_with_safe buf size fmt args m : 0 <= buf -> is_u32 size -> 0 < buf + size -> Forall arg_ok args ->
  printed_safe buf size m (vsnprintf_with W nested buf size fmt args m).
Proof using HW.
  intros Hb Hsz Hpos Ha. unfold is_u32 in Hsz. unfold vsnprintf_with. destruct (Z.ltb_spec (s32 size) 0) as [Hneg|Hnn].
  { cbn. split; [lia|]. split; [done|]. split; [by apply Forall_nil|]. intros Hr _. unfold s32, u32 in Hneg. rewrite Z.mod_small in Hneg by lia.
    destruct (Z.ltb_spec size 2147483648); lia. }
  pose proof (u32_range (buf + size)) as Hu. unfold is_u32 in Hu.
  set (bounds := if u32 (buf + size) <? buf then _ else _).
  assert (He : end_ok bounds.1 /\ bounds.1 <= buf + size /\ bounds.2 = bounds.1 - buf /\ (buf + size < 4294967296 -> bounds.2 = size)).
  { unfold bounds, end_ok. destruct (Z.ltb_spec (u32 (buf + size)) buf) as [Hlt|Hge]; cbn.
    - destruct (Z.le_gt_cases 4294967296 (buf + size)); [lia|]. rewrite u32_id in Hlt by (unfold is_u32; lia). lia.
    - destruct (Z.le_gt_cases 4294967296 (buf + size)); [unfold u32 in *; zlia|]. rewrite u32_id by (unfold is_u32; lia). lia. }
  destruct bounds as [e size']. cbn [fst snd] in He. destruct He as (He1 & He2 & -> & He3).
  pose proof (print_loop_ok (print_fuel fmt) buf e _ He1 (printing_start fmt m buf args Hb Ha)) as Hl. cbn [p_out] in Hl.
  destruct (print_loop _ _ _ _ _ _) as [s| | |]; cbn [rbind]; try (by apply Hl; unfold print_fuel, left_over; cbn; lia).
  destruct Hl as (st & Est & [Hp Hm] & Hst); [unfold print_fuel, left_over; cbn; lia|]. cbn [pos omem p_out p_stores app] in Est, Hp, Hm.
  destruct (_ && _); [|done]. cbn [printed_safe]. rewrite Est. split; [lia|]. split; [|split; [done|]].
  - intros k Hk Hc. destruct (Z.ltb_spec 0 (e - buf)); [|apply Hm; [lia|done]].
    rewrite (proj2 (Z.eqb_neq k _)); [apply Hm; [lia|done]|]. destruct (Z.ltb_spec (pos (p_out s)) e); lia.
  - intros Hr Hend. specialize (He3 Hend). rewrite (proj2 (Z.ltb_lt 0 (e - buf))) by lia.
    rewrite (proj2 (Z.eqb_eq _ _)); [done|]. destruct (Z.ltb_spec (pos (p_out s)) e); lia.
Qed.
End printing.

(** Nested formats are at most [depth] deep under the arguments. *)
Fixpoint nesting (W : world) (depth : nat) (args : list Z) : Prop :=
  forall p fmt va, p ∈ args -> va_format_at W p = Some (fmt, va) ->
    match depth with O => False | S depth => nesting W depth va end.

Lemma printed_safe_ok (P Q : Z -> Prop) buf size m r : (forall a, P a -> Q a) -> printed_safe P buf size m r -> printed_ok Q buf size m r.
Proof.
  intros HPQ. destruct r as [[[n m'] st]| | |]; cbn; try done. intros (H1 & H2 & H3 & _). split_and!; [done|done|].
  eapply Forall_impl; [exact H3|]. intros x. apply HPQ.
Qed.

Lemma vsnprintf_stays depth W buf size fmt args m :
  world_ok W -> nesting W depth args -> Forall is_u32 args -> 0 <= buf -> is_u32 size -> 0 < buf + size ->
  printed_safe (passed W args) buf size m (vsnprintf depth W buf size fmt args m).
Proof.
  intros HW. revert buf size fmt args m. induction depth as [|depth IH]; intros buf size fmt args m Hn Ha Hb Hsz Hpos; cbn [vsnprintf];
    apply vsnprintf_with_safe; auto; rewrite list.Forall_forall in Ha |- *; (intros p Hp; split; [by apply Ha|split; [by apply passed_here|]]); intros f va E; specialize (Hn p f va Hp E); [done|].
  intros buf' size' m' Hb' Hsz' Hpos'. eapply printed_safe_ok, IH; auto; [|by apply (wo_args W HW p f)]. intros a. by apply passed_nested with p f.
Qed.
