(* ===== verification/VsnprintfSpec.v ===== *)
(** * Formats and what they print

    The formats of [vsnprintf] as data: literal text and directives with flags, field
    width, precision, qualifier and conversion.  [renders] says what a format prints of
    its arguments.  It is the kernel's dialect, not C99: a precision without digits is no
    precision, a negative one is zero, the qualifier [z] is unsigned, [t] is extended to
    64 bits with its sign, zero has a digit also with precision zero and an [0x] with [#],
    zeros fill the field also where a precision is given, and a [#o] adds its zero to those
    of the precision.  [VsnprintfTheorems] states where the integers agree with C99. *)

From Stdlib Require Import ZArith Lia Bool.
From stdpp Require Import base numbers list strings.
From S2P Require Import Prelude Kstrtox Vsprintf VsnprintfText Result Vsnprintf.
Open Scope Z_scope.

(** ** Formats *)

(** A field width or precision: its digits, or the next argument. *)
Inductive param := Digits (ds : list Z) | Star.

Record directive := mkDir {
  d_flags : list Z;
  d_width : option param;
  d_prec : option param;
  d_qual : list Z;
  d_conv : Z;
  d_ext : list Z        (* what follows a [p] *)
}.
Inductive item := Lit (l : list Z) | Dir (d : directive).

Definition param_text (p : param) : list Z := match p with Digits ds => ds | Star => [42] end.
Definition width_text (p : option param) : list Z := match p with Some p => param_text p | None => [] end.
Definition prec_text (p : option param) : list Z := match p with Some p => 46 :: param_text p | None => [] end.
Definition directive_text (d : directive) : list Z :=
  37 :: d_flags d ++ width_text (d_width d) ++ prec_text (d_prec d) ++ d_qual d ++ d_conv d :: d_ext d.
Definition item_text (i : item) : list Z := match i with Lit l => l | Dir d => directive_text d end.
Definition format_text (F : list item) : list Z := concat (map item_text F).

Definition decimal_value (ds : list Z) : Z := fold_left (fun v c => v * 10 + (c - 48)) ds 0.

Record digits_ok (ds : list Z) : Prop := {
  dg_digits : Forall (fun c => 48 <= c <= 57) ds;
  dg_value : decimal_value ds <= 10000
}.

Definition qualifiers : list (list Z) := map chars ["";"h";"hh";"l";"ll";"L";"z";"Z";"t"]%string.
Definition conversions : list Z := chars "cspdiuoxX%".

Record directive_ok (d : directive) : Prop := {
  do_flags : Forall (fun c => c ∈ chars "-+ #0") (d_flags d);
  do_width : match d_width d with Some (Digits ds) => digits_ok ds /\ exists c r, ds = c :: r /\ c <> 48 | _ => True end;
  do_prec : match d_prec d with Some (Digits ds) => digits_ok ds | _ => True end;
  do_qual : d_qual d ∈ qualifiers;
  do_conv : d_conv d ∈ conversions;
  do_ext : if d_conv d =? 112 then Forall (fun c => isalnum c = true) (d_ext d) else d_ext d = []
}.

(** Literal text is not split, and does not look like the end of a [%p]. *)
Fixpoint format_ok (F : list item) : Prop :=
  match F with
  | [] => True
  | Lit l :: F => l <> [] /\ Forall (fun c => c <> 37) l /\ match F with Lit _ :: _ => False | _ => format_ok F end
  | Dir d :: F => directive_ok d /\ (d_conv d = 112 -> isalnum (ch (format_text F) 0) = false) /\ format_ok F
  end.

(** ** Field widths, precisions and integers *)

(** The number, if there is one, and the arguments left; an argument is in the range of
    everyday use. *)
Definition param_value (p : option param) (args : list Z) : option (option Z * list Z) :=
  match p with
  | None | Some (Digits []) => Some (None, args)
  | Some (Digits ds) => Some (Some (decimal_value ds), args)
  | Some Star =>
      match args with a :: args => if (-10000 <=? s32 a) && (s32 a <=? 10000) then Some (Some (s32 a), args) else None | [] => None end
  end.

Definition flag_bits (l : list Z) : Z :=
  fold_left Z.lor (map (fun c => if c =? 45 then LEFT else if c =? 43 then PLUS else if c =? 32 then SPACE else if c =? 35 then SPECIAL else ZEROPAD) l) 0.

(** The specification of a directive. *)
Definition directive_spec (d : directive) (args : list Z) : option (printf_spec * list Z) :=
  '(w, args) ← param_value (d_width d) args;
  '(p, args) ← param_value (d_prec d) args;
  let left := match w with Some w => if w <? 0 then LEFT else 0 | None => 0 end in
  Some (mkSpec FORMAT_TYPE_NONE (Z.lor (flag_bits (d_flags d)) left) 10 255
          (match w with Some w => Z.abs w | None => -1 end) (match p with Some p => Z.max p 0 | None => -1 end), args).

(** The value of an integer argument. *)
Definition int_arg (qual : list Z) (signed : bool) (args : list Z) : option (Z * list Z) :=
  match args with
  | [] => None
  | a :: args =>
      if bool_decide (qual = chars "ll") || bool_decide (qual = chars "L") then
        match args with
        | [] => None
        | b :: args => let v := a + 4294967296 * b in Some (if signed then s64 v else v, args)
        end
      else if bool_decide (qual = chars "z") || bool_decide (qual = chars "Z") then Some (a, args)
      else if bool_decide (qual = chars "t") then Some (if signed then s32 a else u64 (s32 a), args)
      else if bool_decide (qual = chars "hh") then Some (if signed then s8 a else u8 a, args)
      else if bool_decide (qual = chars "h") then Some (if signed then s16 a else u16 a, args)
      else Some (if signed then s32 a else a, args)
  end.

(** Sign, radix prefix and digits, in their field. *)
Definition int_text (sp : printf_spec) (signed : bool) (b : Z) (small : bool) (v : Z) : list Z :=
  let fl := flags sp in
  let lc := if small then 32 else 0 in
  let sgn := if signed then if v <? 0 then [45] else if has fl PLUS then [43] else if has fl SPACE then [32] else [] else [] in
  let pfx := if has fl SPECIAL then if b =? 16 then [48; Z.lor 88 lc] else if (b =? 8) && negb (v =? 0) then [48] else [] else [] in
  layout sgn pfx (numeral_text b lc (Z.abs v)) fl (field_width sp) (precision sp).

(** ** Pointers *)

Definition hex2 (b : Z) : list Z := map (fun d => digit_char_of d 32) [b `div` 16; b `mod` 16].

Fixpoint join (sep : list Z) (ls : list (list Z)) : list Z :=
  match ls with
  | [] => []
  | [l] => l
  | l :: ls => l ++ sep ++ join sep ls
  end.

(** [00:11:22:33:44:55] *)
Definition mac_text (ext : list Z) (l : list Z) : list Z :=
  let sep := if ch ext 1 =? 70 then 45 else 58 in
  join (if ch ext 0 =? 77 then [sep] else []) (map hex2 (if ch ext 1 =? 82 then rev l else l)).

(** [1.2.3.4], or [001.002.003.004] *)
Definition quad_text (zeros : bool) (b : Z) : list Z :=
  let t := numeral_text 10 0 b in if zeros then repeat 48 (3 - length t) ++ t else t.
Definition ip4_text (zeros : bool) (l : list Z) : list Z := join [46] (map (quad_text zeros) l).

(** The 16-bit words of an address. *)
Fixpoint words (l : list Z) : list Z := match l with hi :: lo :: l => (256 * hi + lo) :: words l | _ => [] end.

(** [0001:0203:0405:...] *)
Definition ip6_text (colons : bool) (l : list Z) : list Z :=
  join (if colons then [58] else []) (map (fun w => hex2 (w `div` 256) ++ hex2 (w `mod` 256)) (words l)).

(** The first of the longest runs of at least two zero words: position and length. *)
Fixpoint zeros_of (ws : list Z) : nat := match ws with w :: ws => if w =? 0 then S (zeros_of ws) else 0 | [] => 0 end.
Fixpoint best_run (ws : list Z) : nat * nat :=
  match ws with
  | [] => (0, 1)%nat
  | _ :: ws' =>
      let '(i, n) := best_run ws' in
      if (n <=? zeros_of ws)%nat && (2 <=? zeros_of ws)%nat then (0%nat, zeros_of ws) else (S i, n)
  end.

(** A word of an address without leading zeros; the run of zeros is written [::]. *)
Definition ip6c_text (l : list Z) : list Z :=
  let v4 := bool_decide (take 12 l = replicate 10 0 ++ [255; 255]) || (bool_decide (drop 9 (take 12 l) = [0; 0x5e; 0xfe]) && bool_decide (ch l 8 ∈ [0; 2])) in
  let ws := take (if v4 then 6 else 8) (words l) in
  let tail := if v4 then [ip4_text false (drop 12 l)] else [] in
  let hex w := numeral_text 16 32 w in
  let '(i, n) := best_run ws in
  if (2 <=? n)%nat then join [58] (map hex (take i ws)) ++ [58; 58] ++ join [58] (map hex (drop (i + n) ws) ++ tail)
  else join [58] (map hex ws ++ tail).

(** [33221100-5544-7766-8899-aabbccddeeff] *)
Definition uuid_text (ext : list Z) (l : list Z) : list Z :=
  let c := ch ext 1 in
  let order x := if (c =? 76) || (c =? 108) then rev x else x in
  let hex x := concat (map hex2 x) in
  let t := join [45] [hex (order (take 4 l)); hex (order (take 2 (drop 4 l))); hex (order (take 2 (drop 6 l))); hex (take 2 (drop 8 l)); hex (drop 10 l)] in
  if (c =? 76) || (c =? 66) then map (fun x => if (97 <=? x) && (x <=? 122) then x - 32 else x) t else t.

Definition or_width (sp : printf_spec) (w : Z) : printf_spec := if field_width sp =? -1 then set_field_width w sp else sp.

(** The address in hexadecimal. *)
Definition address_text (sp : printf_spec) (w p : Z) : list Z :=
  int_text (if field_width sp =? -1 then or_flags ZEROPAD (set_field_width w sp) else sp) false 16 true p.

Definition bytes (W : world) (p : Z) (n : nat) : option (list Z) :=
  if (n <=? length (rd W p))%nat then Some (take n (rd W p)) else None.
Definition word_at (l : list Z) (i : nat) : Z := le32 (ch l i) (ch l (i + 1)) (ch l (i + 2)) (ch l (i + 3)).

(** What [%p] prints with the letters [ext]; [%ph] depends on the room left, [%pV] is a
    format of its own. *)
Definition pointer_text (W : world) (ext : list Z) (sp : printf_spec) (p : Z) : option (list Z) :=
  let w := if has (flags sp) SPECIAL then 10 else 8 in
  let c := ch ext 0 in
  let hex := or_flags (Z.lor SPECIAL ZEROPAD) in
  if (p =? 0) && negb (c =? 75) then Some (string_text (or_width sp w) (chars "(null)"))
  else if bool_decide (c ∈ chars "FfSsB") then Some (int_text (hex (set_field_width 8 sp)) false 16 true p)
  else if bool_decide (c ∈ chars "Rr") then
    l ← bytes W p 16; Some (string_text sp (resource_text (word_at l 0) (word_at l 4) (word_at l 12) (c =? 82)))
  else if bool_decide (c ∈ chars "hV") then None
  else if bool_decide (c ∈ chars "Mm") then l ← bytes W p 6; Some (string_text sp (mac_text ext l))
  else if bool_decide (c ∈ chars "Ii") && (ch ext 1 =? 54) then
    l ← bytes W p 16; Some (string_text sp (if (c =? 73) && (ch ext 2 =? 99) then ip6c_text l else ip6_text (c =? 73) l))
  else if bool_decide (c ∈ chars "Ii") && (ch ext 1 =? 52) then
    l ← bytes W p 4; Some (string_text sp (ip4_text (c =? 105) (if bool_decide (ch ext 2 ∈ chars "hl") then rev l else l)))
  else if c =? 85 then l ← bytes W p 16; Some (string_text sp (uuid_text ext l))
  else if c =? 75 then
    if negb (kptr_restrict W =? 0) && in_interrupt W then Some (string_text (or_width sp w) (chars "pK-error"))
    else
      let hidden := if kptr_restrict W =? 0 then false else if kptr_restrict W =? 1 then negb (cap_syslog W) else true in
      Some (address_text sp w (if hidden then 0 else p))
  else if (c =? 78) && (ch ext 1 =? 70) then
    l ← bytes W p 8; Some (int_text (hex (or_width sp 18)) false 16 true (word_at l 0 + 4294967296 * word_at l 4))
  else Some (address_text sp w p).

(** ** What a format prints *)

(** The string at an address. *)
Definition string_at (W : world) (p : Z) (t : list Z) : Prop :=
  Forall (fun c => c <> 0) t /\ (Z.of_nat (length t) < 4294967295) /\
  if p <? PAGE_SIZE then t = chars "(null)" else exists r, rd W p = t ++ 0 :: r.

(** One conversion: its text and the arguments left. *)
Inductive converts (W : world) (d : directive) (sp : printf_spec) : list Z -> list Z -> list Z -> Prop :=
  | conv_percent args : d_conv d = 37 -> converts W d sp args [37] args
  | conv_char a args : d_conv d = 99 -> converts W d sp (a :: args) (fill (has (flags sp) LEFT) (field_width sp) [u8 a]) args
  | conv_string a args t : d_conv d = 115 -> string_at W a t -> converts W d sp (a :: args) (string_text sp t) args
  | conv_int signed b small args v rest :
      (d_conv d, signed, b, small) ∈ [(100, true, 10, false); (105, true, 10, false); (117, false, 10, false); (111, false, 8, false); (120, false, 16, true); (88, false, 16, false)] ->
      int_arg (d_qual d) signed args = Some (v, rest) -> converts W d sp args (int_text sp signed b small v) rest
  | conv_pointer a args t : d_conv d = 112 -> pointer_text W (d_ext d) sp a = Some t -> converts W d sp (a :: args) t args.

(** [renders W depth F args T]: the format prints [T] of the arguments. *)
Inductive renders (W : world) : nat -> list item -> list Z -> list Z -> Prop :=
  | renders_end depth args : renders W depth [] args []
  | renders_lit depth l F args T : renders W depth F args T -> renders W depth (Lit l :: F) args (l ++ T)
  | renders_dir depth d F args sp args1 t args2 T :
      directive_spec d args = Some (sp, args1) -> spec_modest sp -> converts W d sp args1 t args2 -> renders W depth F args2 T ->
      renders W depth (Dir d :: F) args (t ++ T)
  | renders_nested depth d F args sp p args2 G va t T :
      directive_spec d args = Some (sp, p :: args2) -> spec_modest sp -> d_conv d = 112 -> ch (d_ext d) 0 = 86 -> p <> 0 ->
      va_format_at W p = Some (format_text G, va) -> format_ok G -> Forall is_u32 va -> renders W depth G va t -> renders W (S depth) F args2 T ->
      renders W (S depth) (Dir d :: F) args (t ++ T).
