(* ===== verification/VsnprintfDecode.v ===== *)
(** * Decoding directives

    [format_decode] reads the text of a directive: flags, field width, precision,
    qualifier and conversion, in one round or, where a [*] takes an argument, in several;
    and the conversions of integers print their text. *)

From Stdlib Require Import ZArith Lia Bool.
From stdpp Require Import base numbers list strings sets.
From S2P Require Import Prelude Kstrtox Vsprintf Result Vsnprintf VsnprintfText VsnprintfSafety VsnprintfSpec.
Open Scope Z_scope.

(** ** The parts of a directive *)

Lemma decimal_value_mono ds v : Forall (fun c => 48 <= c <= 57) ds -> 0 <= v -> v <= fold_left (fun v c => v * 10 + (c - 48)) ds v.
Proof. intros H. revert v. induction H as [|c ds Hc _ IH]; intros v Hv; cbn [fold_left]; [lia|]. specialize (IH (v * 10 + (c - 48)) ltac:(lia)). lia. Qed.

Lemma isdigit_true c : 48 <= c <= 57 -> isdigit c = true.
Proof. intros H. unfold isdigit. by rewrite (proj2 (Z.leb_le 48 c)), (proj2 (Z.leb_le c 57)) by lia. Qed.

Lemma skip_atoi_from ds rest v :
  Forall (fun c => 48 <= c <= 57) ds -> fold_left (fun v c => v * 10 + (c - 48)) ds v <= 10000 -> 0 <= v -> isdigit (ch rest 0) = false ->
  skip_atoi v (ds ++ rest) = (fold_left (fun v c => v * 10 + (c - 48)) ds v, rest).
Proof.
  intros Hd Hv H0 Hr. revert v Hv H0. induction Hd as [|c ds Hc Hd IH]; intros v Hv H0; cbn [app skip_atoi fold_left] in *.
  - destruct rest as [|c rest]; [done|]. cbn [skip_atoi]. cbn in Hr. by rewrite Hr.
  - rewrite isdigit_true by done. pose proof (decimal_value_mono ds (v * 10 + (c - 48)) Hd ltac:(lia)).
    replace (s32 (v * 10 + c - 48)) with (v * 10 + (c - 48)); [apply IH; lia|].
    unfold s32, u32. rewrite Z.mod_small by lia. rewrite (proj2 (Z.ltb_lt _ _)) by lia. lia.
Qed.

Lemma skip_atoi_digits ds rest : digits_ok ds -> isdigit (ch rest 0) = false -> skip_atoi 0 (ds ++ rest) = (decimal_value ds, rest).
Proof. intros [Hd Hv] Hr. by apply skip_atoi_from. Qed.

Definition is_flag (c : Z) : bool := match flag_char c with Some _ => true | None => false end.

Lemma decode_flags_text fl rest sp : Forall (fun c => c ∈ chars "-+ #0") fl -> is_flag (ch rest 0) = false ->
  decode_flags (fl ++ rest) sp =
  (rest, set_flags (fold_left Z.lor (map (fun c => if c =? 45 then LEFT else if c =? 43 then PLUS else if c =? 32 then SPACE else if c =? 35 then SPECIAL else ZEROPAD) fl) (flags sp)) sp).
Proof.
  intros Hf Hr. revert sp. induction Hf as [|c fl Hc _ IH]; intros sp; cbn [app map fold_left].
  - destruct rest as [|c rest]; cbn [decode_flags]; [by destruct sp|]. unfold is_flag in Hr. cbn in Hr. destruct (flag_char c); [done|by destruct sp].
  - cbn [decode_flags]. assert (Hcases : c = 45 \/ c = 43 \/ c = 32 \/ c = 35 \/ c = 48).
    { cbn in Hc. set_unfold in Hc. tauto. }
    destruct Hcases as [->|[->|[->|[->| ->]]]]; cbn; rewrite IH; reflexivity.
Qed.

(** What may follow flags, field width and precision. *)
Record plain_head (l : list Z) : Prop := {
  ph_digit : isdigit (ch l 0) = false;
  ph_flag : is_flag (ch l 0) = false;
  ph_dot : ch l 0 <> 46;
  ph_star : ch l 0 <> 42;
  ph_some : l <> []
}.

Lemma conversion_head d rest : directive_ok d -> plain_head (d_qual d ++ d_conv d :: rest).
Proof.
  intros Hd. pose proof (do_qual d Hd) as Hq. pose proof (do_conv d Hd) as Hc. cbn in Hq, Hc. set_unfold in Hq. set_unfold in Hc.
  destruct_or! Hq; rewrite Hq; try (by split); cbn [app]. destruct_or! Hc; rewrite Hc; by split.
Qed.

(** ** The rounds of a directive *)

Lemma decode_precision_text d rest sp : directive_ok d -> plain_head rest ->
  decode_precision (prec_text (d_prec d) ++ rest) sp =
  match d_prec d with
  | Some Star => (rest, set_type FORMAT_TYPE_PRECISION (set_precision (-1) sp))
  | Some (Digits (c :: ds)) => decode_qualifier rest (set_precision (decimal_value (c :: ds)) (set_precision (-1) sp))
  | _ => decode_qualifier rest (set_precision (-1) sp)
  end.
Proof.
  intros Hd [P1 P2 P3 P4 P5]. pose proof (do_prec d Hd) as Hp. unfold decode_precision. destruct (d_prec d) as [[ds|]|]; cbn [prec_text param_text app].
  - change (ch (46 :: ds ++ rest) 0 =? 46) with true. change (drop 1 (46 :: ds ++ rest)) with (ds ++ rest). destruct ds as [|c ds].
    + cbn [app]. rewrite P1, (proj2 (Z.eqb_neq _ _)) by done. done.
    + destruct Hp as [Hd1 Hd2]. change (ch ((c :: ds) ++ rest) 0) with c. rewrite isdigit_true by (by apply Forall_cons in Hd1 as [? _]).
      rewrite skip_atoi_digits by done.
      pose proof (decimal_value_mono (c :: ds) 0 Hd1 ltac:(lia)) as Hm. unfold decimal_value in Hd2 |- *. rewrite s16_id by lia. by rewrite (proj2 (Z.ltb_ge _ _)) by lia.
  - done.
  - by rewrite (proj2 (Z.eqb_neq _ _)).
Qed.

Lemma decode_start_text d rest sp :
  directive_ok d -> isdigit (ch rest 0) = false -> is_flag (ch rest 0) = false -> ch rest 0 <> 42 ->
  decode_start (37 :: d_flags d ++ width_text (d_width d) ++ rest) sp =
  let sp1 := mkSpec FORMAT_TYPE_NONE (flag_bits (d_flags d)) (base sp) (qualifier sp) (-1) (precision sp) in
  match d_width d with
  | Some Star => (rest, set_type FORMAT_TYPE_WIDTH sp1)
  | Some (Digits ds) => decode_precision rest (set_field_width (decimal_value ds) sp1)
  | None => decode_precision rest sp1
  end.
Proof.
  intros Hd P1 P2 P4. pose proof (do_width d Hd) as Hw. unfold decode_start. change (literal (37 :: ?x)) with (@nil Z, 37 :: x). cbv iota beta zeta.
  rewrite decode_flags_text; [|apply Hd|].
  - destruct (d_width d) as [[ds|]|]; cbn [width_text param_text app].
    + destruct Hw as [Hok (c & r & -> & Hc)]. pose proof Hok as [Hd1 Hd2]. change (ch ((c :: r) ++ rest) 0) with c. rewrite isdigit_true by (by apply Forall_cons in Hd1 as [? _]).
      rewrite skip_atoi_digits by done. pose proof (decimal_value_mono (c :: r) 0 Hd1 ltac:(lia)) as Hm. rewrite s16_id by (unfold decimal_value in *; lia). done.
    + done.
    + by rewrite P1, (proj2 (Z.eqb_neq _ _)).
  - destruct (d_width d) as [[ds|]|]; cbn [width_text param_text app]; [|done..].
    destruct Hw as [[Hd1 _] (c & r & -> & Hc)]. apply Forall_cons in Hd1 as [Hc1 _]. change (ch ((c :: r) ++ rest) 0) with c. unfold is_flag, flag_char.
    by rewrite !(proj2 (Z.eqb_neq c _)) by lia.
Qed.

Section rounds.
Context (W : world) (nested : Z -> Z -> list Z -> list Z -> (Z -> Z) -> res printed) (buf e : Z).

(** [n] rounds lead from [s] to [s']. *)
Definition rounds (n : nat) (s s' : printing) : Prop := forall fuel, print_loop W nested (n + fuel) buf e s = print_loop W nested fuel buf e s'.

Lemma rounds_refl s : rounds 0 s s.
Proof. done. Qed.
Lemma rounds_trans n1 n2 s1 s2 s3 : rounds n1 s1 s2 -> rounds n2 s2 s3 -> rounds (n1 + n2) s1 s3.
Proof. intros H1 H2 fuel. rewrite <- Nat.add_assoc, H1. apply H2. Qed.
Lemma rounds_step s s' : p_fmt s <> [] -> print_step W nested buf e s = Ok s' -> rounds 1 s s'.
Proof. intros Hf Hs fuel. cbn [Nat.add print_loop]. rewrite bool_decide_eq_false_2, Hs by done. done. Qed.

(** The specification was read, up to the qualifier. *)
Definition decoded (d : directive) (rest : list Z) (sp : printf_spec) (s : printing) : Prop :=
  p_fmt s <> [] /\ exists b q, format_decode (p_fmt s) (p_spec s) =
    decode_qualifier (d_qual d ++ d_conv d :: rest) (mkSpec FORMAT_TYPE_NONE (flags sp) b q (field_width sp) (precision sp)).

(** From the precision on; [sp] has no precision yet. *)
Lemma decode_rounds_precision d rest s sp w fl args1 p :
  directive_ok d -> param_value (d_prec d) (p_args s) = Some (p, args1) -> p_fmt s <> [] ->
  format_decode (p_fmt s) (p_spec s) = decode_precision (prec_text (d_prec d) ++ d_qual d ++ d_conv d :: rest) sp ->
  type sp = FORMAT_TYPE_NONE -> flags sp = fl -> field_width sp = w ->
  exists n s', rounds n s s' /\ (n <= length (prec_text (d_prec d)))%nat /\ p_out s' = p_out s /\ p_args s' = args1 /\ p_stores s' = p_stores s /\
    decoded d rest (mkSpec FORMAT_TYPE_NONE fl 10 255 w (match p with Some p => Z.max p 0 | None => -1 end)) s'.
Proof.
  intros Hd Hp Hne E Et <- <-. set (X := d_qual d ++ d_conv d :: rest) in *. pose proof (conversion_head d rest Hd) as HX. fold X in HX.
  rewrite decode_precision_text in E by done. pose proof (do_prec d Hd) as Hdp. destruct (d_prec d) as [[[|c ds]|]|]; cbn [param_value] in Hp.
  - injection Hp as <- <-. exists 0%nat, s. split; [apply rounds_refl|]. split; [lia|]. do 3 (split; [done|]). split; [done|]. exists (base sp), (qualifier sp). rewrite E. unfold set_precision. by rewrite Et.
  - injection Hp as <- <-. exists 0%nat, s. split; [apply rounds_refl|]. split; [lia|]. do 3 (split; [done|]). split; [done|]. exists (base sp), (qualifier sp). rewrite E.
    destruct Hdp as [Hd1 Hd2]. pose proof (decimal_value_mono (c :: ds) 0 Hd1 ltac:(lia)) as Hm. cbn [flags field_width precision]. rewrite Z.max_l by (unfold decimal_value; lia).
    unfold set_precision. cbn. by rewrite Et.
  - destruct (p_args s) as [|a args] eqn:Ea; [done|]. destruct ((-10000 <=? s32 a) && (s32 a <=? 10000)) eqn:Em; [|done]. injection Hp as <- <-.
    apply andb_true_iff in Em as [M1%Z.leb_le M2%Z.leb_le].
    set (sp1 := set_precision (s16 (s32 a)) (set_type FORMAT_TYPE_PRECISION (set_precision (-1) sp))).
    exists 1%nat, (mkP X sp1 (p_out s) args (p_stores s)). split.
    { apply rounds_step; [done|]. unfold print_step. rewrite E. cbn [type set_type]. rewrite Ea. done. }
    split; [cbn; lia|]. do 3 (split; [done|]). split; [apply HX|]. exists (base sp), (qualifier sp). cbn [p_fmt p_spec]. unfold format_decode, sp1, set_precision, set_type.
    cbn [type flags base qualifier field_width precision]. rewrite s16_id by lia. f_equal. destruct (Z.ltb_spec (s32 a) 0); unfold set_type; cbn; f_equal; lia.
  - injection Hp as <- <-. exists 0%nat, s. split; [apply rounds_refl|]. split; [lia|]. do 3 (split; [done|]). split; [done|]. exists (base sp), (qualifier sp). rewrite E. unfold set_precision. by rewrite Et.
Qed.

Lemma directive_rounds d rest s sp args1 :
  directive_ok d -> directive_spec d (p_args s) = Some (sp, args1) -> awaits (p_spec s) = false ->
  p_fmt s = 37 :: d_flags d ++ width_text (d_width d) ++ prec_text (d_prec d) ++ d_qual d ++ d_conv d :: rest ->
  exists n s', rounds n s s' /\ (n <= length (width_text (d_width d)) + length (prec_text (d_prec d)))%nat /\ p_out s' = p_out s /\ p_args s' = args1 /\ p_stores s' = p_stores s /\
    decoded d rest sp s'.
Proof.
  intros Hd Hsp Ha Ef. unfold directive_spec in Hsp. set (X := d_qual d ++ d_conv d :: rest) in *. pose proof (conversion_head d rest Hd) as HX. fold X in HX.
  assert (HY : isdigit (ch (prec_text (d_prec d) ++ X) 0) = false /\ is_flag (ch (prec_text (d_prec d) ++ X) 0) = false /\ ch (prec_text (d_prec d) ++ X) 0 <> 42 /\ prec_text (d_prec d) ++ X <> []).
  { destruct HX as [P1 P2 P3 P4 P5]. destruct (d_prec d) as [[ds|]|]; by cbn. }
  destruct HY as (Y1 & Y2 & Y3 & Y4).
  assert (Edec : format_decode (p_fmt s) (p_spec s) = decode_start (p_fmt s) (p_spec s)).
  { unfold format_decode. unfold awaits in Ha. by destruct (type (p_spec s)). }
  rewrite Ef, decode_start_text in Edec by done. rewrite <- Ef in Edec. cbv zeta in Edec. pose proof (do_width d Hd) as Hw.
  assert (Hne : p_fmt s <> []) by (by rewrite Ef).
  destruct (d_width d) as [[ds|]|]; cbn [param_value] in Hsp.
  - destruct Hw as [[Hd1 Hd2] (c & r & -> & Hc)]. pose proof (decimal_value_mono (c :: r) 0 Hd1 ltac:(lia)) as Hm. fold (decimal_value (c :: r)) in Hm.
    cbn [mbind option_bind] in Hsp. destruct (param_value (d_prec d) (p_args s)) as [[p args2]|] eqn:Ep; [|done]. cbn [mbind option_bind] in Hsp. injection Hsp as <- <-.
    destruct (decode_rounds_precision d rest s _ (decimal_value (c :: r)) (flag_bits (d_flags d)) args2 p Hd Ep Hne Edec eq_refl eq_refl eq_refl) as (n & s' & R1 & R2 & R3 & R4 & R5 & R6).
    exists n, s'. split; [done|]. split; [lia|]. do 3 (split; [done|]). rewrite (proj2 (Z.ltb_ge (decimal_value (c :: r)) 0)) by lia. rewrite Z.lor_0_r, Z.abs_eq by lia. done.
  - destruct (p_args s) as [|a args] eqn:Ea; [done|]. destruct ((-10000 <=? s32 a) && (s32 a <=? 10000)) eqn:Em; [|done].
    apply andb_true_iff in Em as [M1%Z.leb_le M2%Z.leb_le]. cbn [mbind option_bind] in Hsp.
    destruct (param_value (d_prec d) args) as [[p args2]|] eqn:Ep; [|done]. cbn [mbind option_bind] in Hsp. injection Hsp as <- <-.
    set (sp0 := mkSpec FORMAT_TYPE_NONE _ _ _ _ _) in Edec.
    set (s1 := mkP (prec_text (d_prec d) ++ X) (set_field_width (s16 (s32 a)) (set_type FORMAT_TYPE_WIDTH sp0)) (p_out s) args (p_stores s)).
    assert (R0 : rounds 1 s s1) by (apply rounds_step; [done|]; unfold print_step; rewrite Edec; cbn [type set_type]; rewrite Ea; done).
    set (sp2 := set_type FORMAT_TYPE_NONE (if field_width (p_spec s1) <? 0 then or_flags LEFT (set_field_width (s16 (- field_width (p_spec s1))) (p_spec s1)) else p_spec s1)).
    edestruct (decode_rounds_precision d rest s1 sp2 (Z.abs (s32 a)) (Z.lor (flag_bits (d_flags d)) (if s32 a <? 0 then LEFT else 0)) args2 p Hd Ep)
      as (n & s' & R1 & R2 & R3 & R4 & R5 & R6); [done|reflexivity|done|..].
    + unfold sp2, s1, sp0, or_flags, set_flags, set_field_width, set_type. cbn [p_spec type flags base qualifier field_width precision]. rewrite s16_id by lia. destruct (Z.ltb_spec (s32 a) 0); cbn; [done|by rewrite Z.lor_0_r].
    + unfold sp2, s1, sp0, or_flags, set_flags, set_field_width, set_type. cbn [p_spec type flags base qualifier field_width precision]. rewrite s16_id by lia. destruct (Z.ltb_spec (s32 a) 0); cbn; [rewrite s16_id by lia|]; lia.
    + exists (1 + n)%nat, s'. split; [by eapply rounds_trans|]. split; [cbn; lia|]. do 3 (split; [done|]). done.
  - cbn [mbind option_bind] in Hsp. destruct (param_value (d_prec d) (p_args s)) as [[p args2]|] eqn:Ep; [|done]. cbn [mbind option_bind] in Hsp. injection Hsp as <- <-.
    destruct (decode_rounds_precision d rest s _ (-1) (flag_bits (d_flags d)) args2 p Hd Ep Hne Edec eq_refl eq_refl eq_refl) as (n & s' & R1 & R2 & R3 & R4 & R5 & R6).
    exists n, s'. split; [done|]. split; [lia|]. do 3 (split; [done|]). by rewrite Z.lor_0_r.
Qed.
End rounds.

(** ** Conversions print their text

    The last round of a directive: [decode_qualifier] finds the conversion, and the
    operation it stands for stores the text of the specification. *)

(** ** Flags *)

Lemma has_lor f g x : has (Z.lor f g) x = has f x || has g x.
Proof.
  unfold has. rewrite Z.land_lor_distr_l. destruct (Z.eqb_spec (Z.land f x) 0) as [E1|E1], (Z.eqb_spec (Z.land g x) 0) as [E2|E2]; cbn [negb orb].
  - by rewrite E1, E2.
  - rewrite (proj2 (Z.eqb_neq _ _)); [done|]. by rewrite Z.lor_eq_0_iff; intros [? ?].
  - rewrite (proj2 (Z.eqb_neq _ _)); [done|]. by rewrite Z.lor_eq_0_iff; intros [? ?].
  - rewrite (proj2 (Z.eqb_neq _ _)); [done|]. by rewrite Z.lor_eq_0_iff; intros [? ?].
Qed.

(** Flags a format can ask for: the ones of conversions are not set. *)
Definition quiet (fl : Z) : Prop := has fl SIGN = false /\ Z.land fl SMALL = 0.

Lemma quiet_lor f g : quiet f -> quiet g -> quiet (Z.lor f g).
Proof. intros [F1 F2] [G1 G2]. split; [by rewrite has_lor, F1, G1|]. by rewrite Z.land_lor_distr_l, F2, G2. Qed.

Lemma flag_bits_quiet l : quiet (flag_bits l).
Proof.
  unfold flag_bits. set (f := fun c => _). enough (H : forall z, quiet z -> quiet (fold_left Z.lor (map f l) z)) by by apply H.
  induction l as [|c l IH]; intros z Hz; cbn [map fold_left]; [done|]. apply IH, quiet_lor; [done|]. unfold f. repeat (destruct (c =? _); [done|]). done.
Qed.

Lemma directive_spec_quiet d args sp args1 : directive_spec d args = Some (sp, args1) -> quiet (flags sp).
Proof.
  unfold directive_spec. destruct (param_value (d_width d) args) as [[w args']|]; [|done]. cbn [mbind option_bind].
  destruct (param_value (d_prec d) args') as [[p args'']|]; [|done]. cbn [mbind option_bind]. intros [= <- <-]. cbn [flags].
  apply quiet_lor; [apply flag_bits_quiet|]. destruct w as [w|]; [by destruct (w <? 0)|done].
Qed.

(** [fl'] is [fl] with the flags of a conversion. *)
Record sees (fl' fl : Z) (signed small : bool) : Prop := {
  se_left : has fl' LEFT = has fl LEFT;
  se_zero : has fl' ZEROPAD = has fl ZEROPAD;
  se_plus : has fl' PLUS = has fl PLUS;
  se_space : has fl' SPACE = has fl SPACE;
  se_special : has fl' SPECIAL = has fl SPECIAL;
  se_sign : has fl' SIGN = signed;
  se_small : Z.land fl' SMALL = if small then 32 else 0
}.

Lemma number_layout_int sp' sp signed b small v :
  sees (flags sp') (flags sp) signed small -> base sp' = b -> b = 8 \/ b = 10 \/ b = 16 ->
  field_width sp' = field_width sp -> precision sp' = precision sp ->
  (if signed then -9223372036854775808 <= v < 9223372036854775808 else 0 <= v < 18446744073709551616) ->
  number_layout (u64 v) sp' = int_text sp signed b small v.
Proof.
  intros [S1 S2 S3 S4 S5 S6 S7] Eb Hb Ew Ep Hv. unfold number_layout, int_text. cbv zeta. rewrite Eb, Ew, Ep, S7.
  assert (Hs : signed_text (flags sp') (u64 v) =
    (if signed then if v <? 0 then [45] else if has (flags sp) PLUS then [43] else if has (flags sp) SPACE then [32] else [] else [], Z.abs v)).
  { unfold signed_text. rewrite S6, S3, S4. destruct signed.
    - assert (Es : s64 (u64 v) = v) by (unfold s64, u64; rewrite Z.mod_mod by lia; destruct (Z.ltb_spec (v `mod` 18446744073709551616) 9223372036854775808); zlia).
      rewrite Es. destruct (Z.ltb_spec v 0); [f_equal; lia|]. replace (u64 v) with v by (unfold u64; rewrite Z.mod_small; lia).
      rewrite Z.abs_eq by lia. destruct (has (flags sp) PLUS); [done|]. by destruct (has (flags sp) SPACE).
    - unfold u64. rewrite Z.mod_small, Z.abs_eq by lia. done. }
  rewrite Hs. cbn [fst snd].
  assert (Hp : prefix_text (flags sp') b (u64 v) = if has (flags sp) SPECIAL then if b =? 16 then [48; Z.lor 88 (if small then 32 else 0)] else if (b =? 8) && negb (v =? 0) then [48] else [] else []).
  { unfold prefix_text. rewrite S5, S7. replace (u64 v =? 0) with (v =? 0); [done|]. unfold u64. destruct (Z.eqb_spec v 0) as [->|Hne]; [done|].
    symmetry. apply Z.eqb_neq. destruct signed; zlia. }
  rewrite Hp. unfold layout. by rewrite S1, S2.
Qed.

Lemma sees_lor fl (signed small : bool) : quiet fl ->
  sees (Z.lor fl (Z.lor (if signed then SIGN else 0) (if small then SMALL else 0))) fl signed small.
Proof.
  intros [Q1 Q2]. split; rewrite ?has_lor, ?Z.land_lor_distr_l, ?Q1, ?Q2; destruct signed, small; cbn; rewrite ?orb_false_r; done.
Qed.

(** ** The conversion of a directive *)

Lemma conversion_cases c : c ∈ conversions ->
  c = 99 \/ c = 115 \/ c = 112 \/ c = 100 \/ c = 105 \/ c = 117 \/ c = 111 \/ c = 120 \/ c = 88 \/ c = 37.
Proof. intros H. vm_compute in H. set_unfold in H. tauto. Qed.

Lemma qualifier_cases q : q ∈ qualifiers ->
  q = [] \/ q = [104] \/ q = [104; 104] \/ q = [108] \/ q = [108; 108] \/ q = [76] \/ q = [122] \/ q = [90] \/ q = [116].
Proof. intros H. vm_compute in H. set_unfold in H. tauto. Qed.

(** The field [qualifier]. *)
Definition qualifier_code (q : list Z) : Z :=
  match q with [] => 255 | [c] => c | 108 :: _ => 76 | _ => 72 end.

Lemma decode_qualifier_text d rest sp : directive_ok d ->
  decode_qualifier (d_qual d ++ d_conv d :: rest) sp = decode_conversion (d_conv d :: rest) (set_qualifier (qualifier_code (d_qual d)) sp).
Proof.
  intros Hd. pose proof (conversion_cases _ (do_conv d Hd)) as Hc. pose proof (qualifier_cases _ (do_qual d Hd)) as Hq. clear Hd.
  destruct_or! Hq; rewrite Hq; destruct_or! Hc; rewrite Hc; reflexivity.
Qed.

(** The integer conversions: signed or not, radix and case. *)
Definition int_conversion (c : Z) (signed : bool) (b : Z) (small : bool) : Prop :=
  (c, signed, b, small) ∈ [(100, true, 10, false); (105, true, 10, false); (117, false, 10, false); (111, false, 8, false); (120, false, 16, true); (88, false, 16, false)].

Lemma int_conversion_radix c signed b small : int_conversion c signed b small -> b = 8 \/ b = 10 \/ b = 16.
Proof. intros H. unfold int_conversion in H. set_unfold in H. naive_solver. Qed.

Lemma decode_int c signed b small rest sp : int_conversion c signed b small ->
  exists sp', decode_conversion (c :: rest) sp = (rest, set_type (number_type sp') sp') /\
    flags sp' = Z.lor (flags sp) (Z.lor (if signed then SIGN else 0) (if small then SMALL else 0)) /\
    base sp' = b /\ qualifier sp' = qualifier sp /\ field_width sp' = field_width sp /\ precision sp' = precision sp.
Proof.
  intros H. unfold int_conversion in H. set_unfold in H.
  destruct_or! H; injection H as -> -> -> ->; eexists; (split; [reflexivity|]); cbn; rewrite ?Z.lor_0_r; done.
Qed.

(** Decide the comparisons of constants in a hypothesis. *)
Ltac decide_consts H :=
  repeat match type of H with context [@bool_decide ?P ?dec] => let v := eval vm_compute in (@bool_decide P dec) in change (@bool_decide P dec) with v in H end.

Lemma u64_small z : 0 <= z < 18446744073709551616 -> u64 z = z.
Proof. apply Z.mod_small. Qed.
Lemma u64_s64 z : u64 (s64 z) = u64 z.
Proof. unfold s64, u64. destruct (_ <? _); [apply Z.mod_mod; lia|]. rewrite Zminus_mod_idemp_l. zlia. Qed.
Lemma s64_bounds z : -9223372036854775808 <= s64 z < 9223372036854775808.
Proof. unfold s64, u64. destruct (Z.ltb_spec (z `mod` 18446744073709551616) 9223372036854775808); zlia. Qed.
Lemma s32_bounds z : -2147483648 <= s32 z < 2147483648.
Proof. unfold s32, u32. destruct (Z.ltb_spec (z `mod` 4294967296) 2147483648); zlia. Qed.
Lemma s8_bounds z : -128 <= s8 z < 128.
Proof. unfold s8, u8. destruct (Z.ltb_spec (z `mod` 256) 128); zlia. Qed.

Lemma int_arg_number d signed sp args v rest : directive_ok d -> Forall is_u32 args ->
  qualifier sp = qualifier_code (d_qual d) -> has (flags sp) SIGN = signed -> int_arg (d_qual d) signed args = Some (v, rest) ->
  va_number (number_type sp) args = Ok (u64 v, rest) /\ (if signed then -9223372036854775808 <= v < 9223372036854775808 else 0 <= v < 18446744073709551616).
Proof.
  intros Hd Ha Eq Es Hi. pose proof (qualifier_cases _ (do_qual d Hd)) as Hq. unfold va_number, number_type. rewrite Eq, Es. clear Eq Es Hd.
  destruct Ha as [|a args Ha Hargs]; [done|]. unfold is_u32 in Ha. cbn [va_arg rbind].
  pose proof (u64_small a ltac:(lia)) as U1. pose proof (s32_bounds a) as U2. pose proof (u8_range a) as U3. pose proof (u16_range a) as U4.
  pose proof (s16_range a) as U5. pose proof (s8_bounds a) as U6. unfold is_u8, is_u16, is_s16 in *.
  pose proof (u64_small (u8 a) ltac:(lia)) as U7. pose proof (u64_small (u16 a) ltac:(lia)) as U8.
  unfold int_arg in Hi. destruct_or! Hq; rewrite Hq in Hi |- *; clear Hq; decide_consts Hi; destruct signed; cbn [qualifier_code Z.eqb Pos.eqb orb] in *;
    try (injection Hi as <- <-; rewrite ?U1, ?U7, ?U8; split; [done|lia]);
    try (destruct Hargs as [|b args Hb _]; [done|]; injection Hi as <- <-; unfold is_u32 in Hb; cbn [va_arg rbind];
         rewrite ?u64_s64; split; [done|pose proof (s64_bounds (a + 4294967296 * b)); lia]).
  injection Hi as <- <-. assert (Hu : 0 <= u64 (s32 a) < 18446744073709551616) by (apply Z.mod_pos_bound; lia).
  change (tolower_ 116 =? 122) with false. cbv iota. by rewrite (u64_small _ Hu).
Qed.
