(* ===== verification/VsnprintfPointer.v ===== *)
(** * Extended pointers print their text

    MAC and IP addresses, UUIDs, resources and plain addresses: the text the local array
    of each function holds is that of the specification. *)

From Stdlib Require Import ZArith Lia Bool.
From stdpp Require Import base numbers list strings sets.
From S2P Require Import Prelude Kstrtox Vsprintf Result Vsnprintf VsnprintfText VsnprintfSafety VsnprintfSpec VsnprintfDecode.
Open Scope Z_scope.

(** ** Letters after [%p] *)

Lemma not_alnum x k : isalnum x = false -> isalnum k = true -> (x =? k) = false.
Proof. intros Hx Hk. apply Z.eqb_neq. intros ->. congruence. Qed.

(** Only the letters and digits after [%p] matter. *)
Lemma pointer_letters W nested ext rest e o p sp : isalnum (ch rest 0) = false ->
  pointer W nested (ext ++ rest) e o p sp = pointer W nested ext e o p sp.
Proof.
  intros Hr. destruct ext as [|a [|b [|c ext]]]; [| | |reflexivity].
  - unfold pointer. cbn [app]. rewrite !(not_alnum (ch rest 0) _ Hr) by reflexivity. reflexivity.
  - destruct rest as [|x rest]; [reflexivity|]. cbn in Hr. unfold pointer, hex_string, mac_address_string, uuid_string.
    change (ch ([a] ++ x :: rest) 0) with a. change (ch ([a] ++ x :: rest) 1) with x. change (ch [a] 0) with a. change (ch [a] 1) with 0.
    rewrite !(not_alnum x _ Hr) by reflexivity. rewrite !andb_false_r. reflexivity.
  - destruct rest as [|x rest]; [reflexivity|]. cbn in Hr. unfold pointer, ip6_addr_string, ip4_addr_string, ip4_string.
    change (ch ([a; b] ++ x :: rest) 0) with a. change (ch ([a; b] ++ x :: rest) 1) with b. change (ch ([a; b] ++ x :: rest) 2) with x.
    rewrite !(not_alnum x _ Hr) by reflexivity. reflexivity.
Qed.

Lemma skip_alnum_text l rest : Forall (fun c => isalnum c = true) l -> isalnum (ch rest 0) = false -> skip_alnum (l ++ rest) = rest.
Proof.
  intros Hl Hr. induction Hl as [|c l Hc _ IH]; cbn [app skip_alnum].
  - destruct rest as [|c rest]; [done|]. cbn in Hr |- *. by rewrite Hr.
  - by rewrite Hc.
Qed.

(** ** Hexadecimal bytes *)

Lemma hex_byte_pack_text b : is_u8 b -> hex_byte_pack b = hex2 b.
Proof.
  intros Hb. assert (H : forallb (fun b => bool_decide (hex_byte_pack b = hex2 b)) (seqZ 0 256) = true) by (vm_compute; reflexivity).
  rewrite forallb_forall in H. eapply bool_decide_eq_true_1, H. apply list_elem_of_In, elem_of_seqZ. unfold is_u8 in Hb. lia.
Qed.

(** Characters of the basic set, none of them the terminator. *)
Definition visible (t : list Z) : Prop := Forall (fun c => 0 < c < 128) t.

Lemma visible_text t : visible t -> Forall (fun c => c <> 0) t.
Proof. intros H. eapply Forall_impl; [exact H|]. cbn. lia. Qed.
Lemma visible_app t1 t2 : visible t1 -> visible t2 -> visible (t1 ++ t2).
Proof. intros. by apply Forall_app. Qed.
Lemma digit_visible d lc : 0 <= d < 16 -> lc = 0 \/ lc = 32 -> 0 < digit_char_of d lc < 128.
Proof.
  intros Hd Hl. assert (H : forallb (fun d => (0 <? digit_char_of d lc) && (digit_char_of d lc <? 128)) (seqZ 0 16) = true) by (destruct Hl as [->| ->]; reflexivity).
  rewrite forallb_forall in H. specialize (H d). rewrite andb_true_iff, !Z.ltb_lt in H. apply H, list_elem_of_In, elem_of_seqZ. lia.
Qed.
Lemma hex2_visible b : is_u8 b -> visible (hex2 b).
Proof. intros Hb. unfold is_u8 in Hb. unfold hex2, visible. cbn [map]. repeat constructor; apply digit_visible; auto; zlia. Qed.
Lemma join_visible sep ls : visible sep -> Forall visible ls -> visible (join sep ls).
Proof.
  intros Hs H. induction H as [|l ls Hl Hls IH]; cbn [join]; [constructor|]. destruct ls as [|l' ls]; [done|].
  apply Forall_app. split; [done|]. apply Forall_app. split; [done|apply IH].
Qed.
Lemma join_map sep f (ls : list Z) a : ls <> [] -> join sep (map f (a :: ls)) = f a ++ sep ++ join sep (map f ls).
Proof. by destruct ls. Qed.

(** ** The local arrays *)

Section local.
Context (W : world) (HW : world_ok W).

Lemma bytes_read p n l : bytes W p n = Some l -> read W p n = Ok l /\ length l = n /\ Forall is_u8 l.
Proof using HW.
  unfold bytes, read. destruct (Nat.leb_spec n (length (rd W p))); [|done]. intros [= <-]. split; [done|]. split; [rewrite length_take; lia|apply Forall_take, HW].
Qed.

Lemma local_text e o n t sp : spec_modest sp -> visible t -> Z.of_nat (length t) < n -> n < 4294967295 ->
  (let* l := local n (t ++ [0]) in string_of e o l sp) = Ok (put_list e o (string_text sp t)).
Proof.
  intros Hs Ht Hl Hn. unfold local. rewrite (proj2 (Z.leb_le _ _)) by (rewrite length_app; cbn; lia). cbn [rbind]. apply string_of_text; [done|by apply visible_text|lia].
Qed.

Lemma mac_loop_text l colons sep : Forall is_u8 l -> mac_loop l colons sep = join (if colons then [sep] else []) (map hex2 l).
Proof.
  induction 1 as [|b l Hb Hl IH]; [done|]. cbn [mac_loop]. rewrite hex_byte_pack_text, IH by done. case_bool_decide as E; [subst l|rewrite join_map by done].
  - rewrite andb_false_r. cbn [map join app]. by rewrite app_nil_r.
  - by rewrite andb_true_r.
Qed.

Lemma map_hex2_visible l : Forall is_u8 l -> Forall visible (map hex2 l).
Proof. intros Hl. apply Forall_fmap. eapply Forall_impl; [exact Hl|]. apply hex2_visible. Qed.

Lemma mac_text_ok e o p sp ext l : spec_modest sp -> bytes W p 6 = Some l ->
  mac_address_string W e o p sp ext = Ok (put_list e o (string_text sp (mac_text ext l))).
Proof using HW.
  intros Hs (E & Hl & Hb)%bytes_read. unfold mac_address_string. rewrite E. cbn [rbind].
  assert (Hr : Forall is_u8 (if ch ext 1 =? 82 then rev l else l)) by (destruct (_ =? 82); [by apply Forall_rev|done]).
  rewrite mac_loop_text by done. unfold mac_text. apply local_text; [done| | |done].
  - apply join_visible; [|by apply map_hex2_visible]. destruct (_ =? 77), (ch ext 1 =? 70); repeat constructor.
  - assert (Hlen : length (if ch ext 1 =? 82 then rev l else l) = 6%nat) by (destruct (_ =? 82); rewrite ?length_rev; done).
    revert Hlen. generalize (if ch ext 1 =? 82 then rev l else l). intros l' Hl'.
    do 7 (destruct l' as [|? l']; try discriminate Hl'). destruct (ch ext 0 =? 77); vm_compute; reflexivity.
Qed.

(** *** UUIDs *)

Lemma concat_visible ls : Forall visible ls -> visible (concat ls).
Proof. induction 1; cbn [concat]; [constructor|by apply visible_app]. Qed.

Lemma toupper_text c : 0 < c < 128 -> toupper c = if (97 <=? c) && (c <=? 122) then c - 32 else c.
Proof.
  intros Hc. unfold toupper, islower. rewrite (proj2 (Z.leb_gt 223 c)) by lia. rewrite orb_false_r. destruct (_ && _) eqn:E; [|done]. apply u8_id. unfold is_u8. lia.
Qed.

Lemma uuid_text_ok e o p sp ext l : spec_modest sp -> bytes W p 16 = Some l ->
  uuid_string W e o p sp ext = Ok (put_list e o (string_text sp (uuid_text ext l))).
Proof using HW.
  intros Hs (E & Hl & Hb)%bytes_read. unfold uuid_string. rewrite E. cbn [rbind].
  do 16 (destruct l as [|? l]; [discriminate Hl|]). destruct l; [|discriminate Hl]. clear E Hl.
  repeat (apply Forall_cons in Hb as [? Hb]). clear Hb.
  unfold uuid_text. cbn [take drop firstn skipn]. generalize ((ch ext 1 =? 76) || (ch ext 1 =? 66)) as uc. generalize ((ch ext 1 =? 76) || (ch ext 1 =? 108)) as le. intros le uc.
  set (l := [z; z0; z1; z2; z3; z4; z5; z6; z7; z8; z9; z10; z11; z12; z13; z14]).
  set (t := join [45] _). assert (Ht : uuid_loop (if le then uuid_le else uuid_be) 0 l = t).
  { unfold t, l. destruct le; cbn [uuid_loop uuid_le uuid_be ch nth Z.eqb Pos.eqb Z.add orb Pos.add Pos.succ]; rewrite !hex_byte_pack_text by done; reflexivity. }
  assert (Hv : visible t).
  { unfold t. apply join_visible; [repeat constructor; lia|]. destruct le; cbn [rev app];
      repeat (apply Forall_cons; split; [apply concat_visible, map_hex2_visible; repeat (apply Forall_cons; split; [done|]); by apply Forall_nil|]); by apply Forall_nil. }
  assert (Hlen : length t = 36%nat) by (unfold t; destruct le; reflexivity).
  rewrite Ht. replace (map toupper t) with (map (fun x => if (97 <=? x) && (x <=? 122) then x - 32 else x) t).
  - apply local_text; [done| |destruct uc; rewrite ?length_map, Hlen; done|done]. destruct uc; [|done]. apply Forall_fmap. eapply Forall_impl; [exact Hv|].
    cbn. intros x Hx. destruct (Z.leb_spec 97 x); cbn [andb]; [destruct (x <=? 122); lia|done].
  - apply map_ext_in. intros x Hx. symmetry. apply toupper_text. unfold visible in Hv. rewrite list.Forall_forall in Hv. by apply Hv, list_elem_of_In.
Qed.

(** *** IPv4 *)

(** The digits of a quad, with its leading zeros. *)
Lemma quad_digits b z : is_u8 b ->
  exists d, put_dec_trunc8 b = Some d /\ (length d <= 3)%nat /\ visible (quad_text z b) /\
    (if z then (if (length d <? 3)%nat then [48] else []) ++ (if (length d <? 2)%nat then [48] else []) else []) ++ rev d = quad_text z b.
Proof.
  intros Hb. assert (H : forallb (fun b => match put_dec_trunc8 b with
    | Some d => (length d <=? 3)%nat && forallb (fun c => (0 <? c) && (c <? 128)) (quad_text z b) &&
        bool_decide ((if z then (if (length d <? 3)%nat then [48] else []) ++ (if (length d <? 2)%nat then [48] else []) else []) ++ rev d = quad_text z b)
    | None => false end) (seqZ 0 256) = true) by (destruct z; vm_compute; reflexivity).
  rewrite forallb_forall in H. specialize (H b ltac:(apply list_elem_of_In, elem_of_seqZ; unfold is_u8 in Hb; lia)).
  destruct (put_dec_trunc8 b) as [d|]; [|done]. exists d. apply andb_true_iff in H as [[H1%Nat.leb_le H2]%andb_true_iff H3%bool_decide_eq_true_1].
  split_and!; try done. unfold visible. rewrite forallb_forall in H2. apply list.Forall_forall. intros c Hc%list_elem_of_In. specialize (H2 c Hc).
  rewrite andb_true_iff, !Z.ltb_lt in H2. done.
Qed.

Lemma ip4_loop_text l z : Forall is_u8 l -> ip4_loop l z = Ok (ip4_text z l) /\ visible (ip4_text z l).
Proof.
  unfold ip4_text. induction 1 as [|b l Hb Hl [IH1 IH2]]; [by split; [|constructor]|]. cbn [ip4_loop].
  destruct (quad_digits b z Hb) as (d & -> & Hd & Hv & Hq). cbn [stuck_of rbind]. unfold local. rewrite (proj2 (Z.leb_le _ _)) by lia. cbn [rbind].
  rewrite IH1. cbn [rbind]. rewrite app_assoc, Hq. case_bool_decide as E; [subst l; cbn [map join]; by rewrite app_nil_r|].
  rewrite join_map by done. split; [done|]. apply visible_app; [done|]. apply visible_app; [repeat constructor; lia|done].
Qed.

Lemma ip4_string_text l ext : Forall is_u8 l ->
  ip4_string l ext = Ok (ip4_text (ch ext 0 =? 105) (if bool_decide (ch ext 2 ∈ chars "hl") then rev l else l)) /\
  visible (ip4_text (ch ext 0 =? 105) (if bool_decide (ch ext 2 ∈ chars "hl") then rev l else l)).
Proof.
  intros Hl. unfold ip4_string. assert (E : (ch ext 2 =? 104) || (ch ext 2 =? 108) = bool_decide (ch ext 2 ∈ chars "hl")).
  { apply eq_bool_prop_intro. rewrite bool_decide_spec, Is_true_true, orb_true_iff, !Z.eqb_eq. change (chars "hl") with [104; 108]. set_unfold. tauto. }
  rewrite E. apply ip4_loop_text. case_bool_decide; [by apply Forall_rev|done].
Qed.

Lemma ip4_text_ok e o p sp ext l : spec_modest sp -> bytes W p 4 = Some l ->
  ip4_addr_string W e o p sp ext = Ok (put_list e o (string_text sp (ip4_text (ch ext 0 =? 105) (if bool_decide (ch ext 2 ∈ chars "hl") then rev l else l)))).
Proof using HW.
  intros Hs (E & Hl & Hb)%bytes_read. unfold ip4_addr_string. rewrite E. cbn [rbind].
  destruct (ip4_string_length l ext Hb Hl) as (t & Et & Ht). destruct (ip4_string_text l ext Hb) as [Et' Hv]. rewrite Et' in Et |- *.
  injection Et as Et. cbn [rbind]. apply local_text; [done|done| |done]. rewrite Et. change (sizeof _) with 16. lia.
Qed.

(** *** IPv6 *)

Lemma word_hi hi lo : is_u8 lo -> (256 * hi + lo) `div` 256 = hi.
Proof. unfold is_u8. intros. zlia. Qed.
Lemma word_lo hi lo : is_u8 lo -> (256 * hi + lo) `mod` 256 = lo.
Proof. unfold is_u8. intros. zlia. Qed.

Lemma ip6_loop_text n l colons : length l = (2 * n)%nat -> Forall is_u8 l ->
  ip6_loop l colons = ip6_text colons l /\ visible (ip6_text colons l) /\ (length (ip6_text colons l) <= 5 * n)%nat.
Proof.
  unfold ip6_text. revert l. induction n as [|n IH]; intros l Hl Hb.
  { destruct l; [|discriminate]. split_and!; [done|constructor|done]. }
  destruct l as [|hi [|lo l]]; [cbn in Hl; lia..|]. apply Forall_cons in Hb as [Hhi Hb]. apply Forall_cons in Hb as [Hlo Hb]. cbn [ip6_loop words map].
  destruct (IH l) as (E & Hv & Hlen); [cbn in Hl; lia|done|]. rewrite E, !hex_byte_pack_text, word_hi, word_lo by done.
  assert (H2 : visible (hex2 hi ++ hex2 lo)) by (apply visible_app; by apply hex2_visible).
  case_bool_decide as El.
  - subst l. cbn [words map join]. rewrite andb_false_r, !app_nil_r. split_and!; [done|done|cbn; lia].
  - assert (Hw : words l <> []) by (destruct l as [|? [|? ?]]; [done|cbn in Hl; lia|done]).
    destruct (words l) as [|w ws] eqn:Ew; [done|]. cbn [map] in *. change (join ?s (?a :: ?b :: ?r)) with (a ++ s ++ join s (b :: r)).
    rewrite andb_true_r, <- !app_assoc. split_and!; [done| |].
    + rewrite app_assoc. apply visible_app; [done|]. apply visible_app; [destruct colons; repeat constructor; lia|done].
    + rewrite !length_app. assert (length (if colons then [58%Z] else []) <= 1)%nat by (destruct colons; cbn; lia). change (length (hex2 hi)) with 2%nat. change (length (hex2 lo)) with 2%nat. lia.
Qed.
End local.

(** ** The compressed text of an IPv6 address

    [ip6_compressed_string] writes the first of the longest runs of zero words as [::]
    and the last words of a mapped address as an IPv4 address. *)

(** ** Words *)

(** The words of an address from word [i] on. *)
Fixpoint words_from (a : list Z) (i : Z) (ws : list Z) : Prop :=
  match ws with [] => True | w :: ws => s6_addr16 a i = w /\ words_from a (i + 1) ws end.

Definition is_word (w : Z) : Prop := 0 <= w < 65536.

(** The value of hexadecimal digits. *)
Definition hex4 (d3 d2 d1 d0 : Z) : Z := d0 + 16 * d1 + 256 * d2 + 4096 * d3.
Definition is_hex (d : Z) : Prop := 0 <= d < 16.

Lemma word_hex w : is_word w -> exists d3 d2 d1 d0, w = hex4 d3 d2 d1 d0 /\ is_hex d3 /\ is_hex d2 /\ is_hex d1 /\ is_hex d0.
Proof.
  unfold is_word, is_hex, hex4. intros Hw. exists (w `div` 4096), (w `div` 256 `mod` 16), (w `div` 16 `mod` 16), (w `mod` 16).
  pose proof (Z.div_mod w 16 ltac:(lia)). pose proof (Z.div_mod (w `div` 16) 16 ltac:(lia)). pose proof (Z.div_mod (w `div` 16 `div` 16) 16 ltac:(lia)).
  rewrite !Z.div_div in * by lia. change (16 * 16) with 256 in *. change (256 * 16) with 4096 in *.
  repeat split; try (apply Z.mod_pos_bound; lia); try lia; [apply Z.div_pos; lia|apply Z.div_lt_upper_bound; lia].
Qed.

Section hex.
Context (d3 d2 d1 d0 : Z) (H3 : is_hex d3) (H2 : is_hex d2) (H1 : is_hex d1) (H0 : is_hex d0).
Abbreviation w := (hex4 d3 d2 d1 d0).

Lemma hex4_div16 : w `div` 16 = hex4 0 d3 d2 d1.
Proof using All. unfold hex4, is_hex in *. symmetry. apply (Z.div_unique _ _ _ d0); lia. Qed.
Lemma hex4_mod16 : w `mod` 16 = d0.
Proof using All. unfold hex4, is_hex in *. symmetry. apply (Z.mod_unique _ _ (d1 + 16 * d2 + 256 * d3)); lia. Qed.
End hex.

Lemma hex_asc_text d : 0 <= d < 16 -> hex_asc (Z.land d 0x0f) = digit_char_of d 32.
Proof.
  intros Hd. assert (H : forallb (fun d => hex_asc (Z.land d 0x0f) =? digit_char_of d 32) (seqZ 0 16) = true) by reflexivity.
  rewrite forallb_forall in H. apply Z.eqb_eq, H, list_elem_of_In, elem_of_seqZ. lia.
Qed.

Lemma hex_u16_text w : is_word w -> hex_u16 w = numeral_text 16 32 w /\ visible (numeral_text 16 32 w).
Proof.
  intros (d3 & d2 & d1 & d0 & -> & H3 & H2 & H1 & H0)%word_hex. assert (Z0 : is_hex 0) by (unfold is_hex; lia).
  set (dc := fun d => digit_char_of d 32). assert (Hd : forall d, is_hex d -> 0 < dc d < 128) by (intros; apply digit_visible; auto).
  assert (Hn : numeral_text 16 32 (hex4 d3 d2 d1 d0) =
    if hex4 d3 d2 d1 d0 <? 16 then [dc d0] else if hex4 0 d3 d2 d1 <? 16 then [dc d1; dc d0] else if hex4 0 0 d3 d2 <? 16 then [dc d2; dc d1; dc d0] else [dc d3; dc d2; dc d1; dc d0]).
  { unfold numeral_text. change 22%nat with (S (S (S (S 18)))). cbn [le_digits]. rewrite !hex4_div16, !hex4_mod16 by done.
    assert (E3 : (hex4 0 0 0 d3 <? 16) = true) by (apply Z.ltb_lt; unfold hex4, is_hex in *; lia). rewrite E3.
    unfold hex4, is_hex in *. repeat match goal with |- context [?x <? 16] => destruct (Z.ltb_spec x 16) end; try lia; cbn [map rev app]; unfold dc; congr_lia. }
  rewrite Hn. split.
  - assert (Ehi : u8 (Z.shiftr (hex4 d3 d2 d1 d0) 8) = d2 + 16 * d3).
    { rewrite shiftr_div by lia. change (2 ^ 8) with (16 * 16). rewrite <- Z.div_div, !hex4_div16 by (done || lia). unfold hex4, is_hex in *. rewrite u8_id by (unfold is_u8; lia). lia. }
    assert (Elo : u8 (Z.land (hex4 d3 d2 d1 d0) 0xff) = d0 + 16 * d1).
    { change 0xff with (Z.ones 8). rewrite Z.land_ones by lia. unfold u8. rewrite Z.mod_mod by lia. symmetry. apply (Z.mod_unique _ _ (d2 + 16 * d3)); unfold hex4, is_hex in *; lia. }
    assert (Hp : forall a b, is_hex a -> is_hex b -> hex_byte_pack (b + 16 * a) = [dc a; dc b]).
    { intros a b Ha Hb. unfold is_hex in *. rewrite hex_byte_pack_text by (unfold is_u8; lia). unfold hex2, dc. cbn [map].
      rewrite <- (Z.div_unique (b + 16 * a) 16 a b), <- (Z.mod_unique (b + 16 * a) 16 a b) by lia. done. }
    unfold hex_u16. rewrite Ehi, Elo, !Hp by done. unfold hex4, is_hex in *.
    repeat match goal with
    | |- context [?x =? 0] => destruct (Z.eqb_spec x 0)
    | |- context [?x <? ?y] => destruct (Z.ltb_spec x y)
    end; try lia; cbn [negb app]; rewrite ?hex_asc_text by lia; unfold dc; congr_lia.
  - repeat match goal with |- context [?x <? ?y] => destruct (x <? y) end; repeat constructor; by apply Hd.
Qed.

(** ** The run of zeros *)

Lemma zerolength_text a ws i : words_from a i ws -> zerolength (length ws) a i = Z.of_nat (zeros_of ws).
Proof.
  revert i. induction ws as [|w ws IH]; intros i Hw; [done|]. destruct Hw as [Ew Hw]. cbn [length zerolength zeros_of]. rewrite Ew.
  destruct (w =? 0); cbn [negb]; [|done]. rewrite (IH _ Hw). lia.
Qed.

Lemma longest_run_text a ws i longest colonpos : words_from a i ws -> 1 <= longest ->
  longest_run (length ws) a i longest colonpos =
  let '(k, n) := best_run ws in if longest <? Z.of_nat n then (Z.of_nat n, i + Z.of_nat k) else (longest, colonpos).
Proof.
  revert i longest colonpos. induction ws as [|w ws IH]; intros i longest colonpos Hw Hl.
  { cbn. by rewrite (proj2 (Z.ltb_ge _ _)) by lia. }
  pose proof (zerolength_text a (w :: ws) i Hw) as Hz. cbn [length longest_run best_run] in *. rewrite Hz. set (z := zeros_of (w :: ws)). destruct Hw as [_ Hw].
  destruct (Z.ltb_spec longest (Z.of_nat z)); rewrite IH by (done || lia); destruct (best_run ws) as [k n];
    destruct (Nat.leb_spec n z), (Nat.leb_spec 2 z); cbn [andb]; repeat match goal with |- context [?x <? ?y] => destruct (Z.ltb_spec x y) end; try lia; f_equal; lia.
Qed.

Lemma best_run_bounds ws : let '(k, n) := best_run ws in (1 <= n)%nat /\ (2 <= n -> k + n <= length ws)%nat.
Proof.
  induction ws as [|w ws IH]; [cbn; lia|]. cbn [best_run]. destruct (best_run ws) as [k n]. assert (Hz : forall l, (zeros_of l <= length l)%nat).
  { intros l. induction l as [|x l IHl]; cbn; [lia|]. destruct (x =? 0); lia. }
  destruct (_ && _) eqn:E; [|cbn; lia]. apply andb_true_iff in E as [_ E%Nat.leb_le]. specialize (Hz (w :: ws)). lia.
Qed.

(** ** The text *)

Lemma join_snoc sep ls (q : list Z) : join sep (ls ++ [q]) = match ls with [] => q | _ => join sep ls ++ sep ++ q end.
Proof.
  induction ls as [|l ls IH]; [done|]. destruct ls as [|l' ls]; [done|]. change ((l :: l' :: ls) ++ [q]) with (l :: l' :: (ls ++ [q])).
  change (join sep (l :: l' :: (ls ++ [q]))) with (l ++ sep ++ join sep ((l' :: ls) ++ [q])). rewrite IH.
  change (join sep (l :: l' :: ls)) with (l ++ sep ++ join sep (l' :: ls)). by rewrite <- !app_assoc.
Qed.

Definition colon (b : bool) : list Z := if b then [58] else [].

(** Words without a run ahead. *)
Lemma emit_plain fuel a ws i range longest colonpos nc :
  words_from a i ws -> Forall is_word ws -> range = i + Z.of_nat (length ws) -> (length ws <= fuel)%nat -> colonpos < i ->
  emit_words fuel a i range longest colonpos nc =
  Ok (match ws with [] => [] | _ => colon nc ++ join [58] (map (numeral_text 16 32) ws) end, match ws with [] => nc | _ => true end).
Proof.
  revert fuel i nc. induction ws as [|w ws IH]; intros fuel i nc Hw Hf -> Hl Hc.
  { destruct fuel; cbn [emit_words]; by rewrite (proj2 (Z.ltb_ge _ _)) by (cbn; lia). }
  destruct fuel as [|fuel]; [cbn in Hl; lia|]. destruct Hw as [Ew Hw]. apply Forall_cons in Hf as [Hwd Hf]. cbn [length] in *. cbn [emit_words].
  rewrite (proj2 (Z.ltb_lt _ _)), (proj2 (Z.eqb_neq i colonpos)) by lia. rewrite (IH fuel (i + 1) true Hw Hf) by lia. cbn [rbind].
  rewrite Ew. destruct (hex_u16_text w Hwd) as [-> _]. destruct ws as [|w' ws]; [by rewrite app_nil_r|]. done.
Qed.

(** Words up to the run and after it. *)
Lemma emit_run fuel a ws i range longest k nc :
  words_from a i ws -> Forall is_word ws -> range = i + Z.of_nat (length ws) -> (length ws <= fuel)%nat -> 2 <= longest ->
  Z.of_nat k + longest <= Z.of_nat (length ws) -> 0 <= i -> (nc = true \/ i = 0) ->
  let after := drop (k + Z.to_nat longest) ws in
  emit_words fuel a i range longest (i + Z.of_nat k) nc =
  Ok ((match k with O => [] | _ => colon nc end) ++ join [58] (map (numeral_text 16 32) (take k ws)) ++ [58; 58] ++ join [58] (map (numeral_text 16 32) after), negb (bool_decide (after = []))).
Proof.
  revert fuel i ws nc. induction k as [|k IH]; intros fuel i ws nc Hw Hf -> Hl Hlong Hk Hi Hnc; cbv zeta.
  - destruct fuel as [|fuel]; [lia|]. cbn [emit_words]. rewrite (proj2 (Z.ltb_lt _ _)) by lia. replace (i + Z.of_nat 0) with i by lia. rewrite Z.eqb_refl. cbn [Nat.add take map join app].
    assert (Hd : forall m ws i, words_from a i ws -> words_from a (i + Z.of_nat m) (drop m ws)).
    { clear. induction m as [|m IH]; intros ws i H; [by rewrite Z.add_0_r, drop_0|]. destruct ws as [|w ws]; [done|]. destruct H as [_ H].
      cbn [drop skipn]. replace (i + Z.of_nat (S m)) with (i + 1 + Z.of_nat m) by lia. by apply IH. }
    rewrite (emit_plain fuel a (drop (Z.to_nat longest) ws)).
    + cbn [rbind]. assert (Ec : nc || (i =? 0) = true) by (destruct Hnc as [->| ->]; [done|by rewrite orb_true_r]). rewrite Ec.
      destruct (drop (Z.to_nat longest) ws); [|by rewrite bool_decide_eq_false_2]. by rewrite bool_decide_eq_true_2.
    + replace (i + (longest - 1) + 1) with (i + Z.of_nat (Z.to_nat longest)) by lia. by apply Hd.
    + by apply Forall_drop.
    + rewrite length_drop. lia.
    + rewrite length_drop. lia.
    + lia.
  - destruct ws as [|w ws]; [cbn in Hk; lia|]. destruct fuel as [|fuel]; [cbn in Hl; lia|]. destruct Hw as [Ew Hw]. apply Forall_cons in Hf as [Hwd Hf].
    cbn [length] in *. cbn [emit_words]. rewrite (proj2 (Z.ltb_lt _ _)), (proj2 (Z.eqb_neq i _)) by lia.
    replace (i + Z.of_nat (S k)) with (i + 1 + Z.of_nat k) by lia. rewrite (IH fuel (i + 1) ws true) by (done || lia || by left). cbn [rbind].
    rewrite Ew. destruct (hex_u16_text w Hwd) as [-> _]. cbn [Nat.add drop skipn take firstn map]. f_equal. f_equal. change (if nc then [58] else []) with (colon nc). f_equal.
    destruct k as [|k]; [done|]. destruct ws as [|w' ws]; [cbn in Hk; lia|]. cbn [take firstn map].
    change (join [58] (?x :: ?y :: ?r)) with (x ++ [58] ++ join [58] (y :: r)). by rewrite <- !app_assoc.
Qed.

(** ** Mapped addresses *)

Lemma lor_bit25 w : is_u32 w -> Z.lor w 0x02000000 = if Z.testbit w 25 then w else w + 0x02000000.
Proof.
  intros Hw. change 0x02000000 with (2 ^ 25). destruct (Z.testbit w 25) eqn:E.
  - apply Z.bits_inj'. intros n Hn. rewrite Z.lor_spec, Z.pow2_bits_eqb by lia. destruct (Z.eqb_spec 25 n) as [<-|]; [by rewrite E|by rewrite orb_false_r].
  - pose proof (Z.add_lor_land w (2 ^ 25)) as H. replace (Z.land w (2 ^ 25)) with 0 in H; [lia|]. symmetry. apply Z.bits_inj'. intros n Hn.
    rewrite Z.land_spec, Z.pow2_bits_eqb, Z.bits_0 by lia. destruct (Z.eqb_spec 25 n) as [<-|]; [by rewrite E|by rewrite andb_false_r].
Qed.

Section address.
Context (b0 b1 b2 b3 b4 b5 b6 b7 b8 b9 b10 b11 b12 b13 b14 b15 : Z).
Abbreviation a := [b0; b1; b2; b3; b4; b5; b6; b7; b8; b9; b10; b11; b12; b13; b14; b15].
Context (Ha : Forall is_u8 a).

Lemma addr32_text :
  s6_addr32 a 0 = 65536 * (256 * b0 + b1) + (256 * b2 + b3) /\ s6_addr32 a 1 = 65536 * (256 * b4 + b5) + (256 * b6 + b7) /\
  s6_addr32 a 2 = 65536 * (256 * b8 + b9) + (256 * b10 + b11).
Proof. done. Qed.

Lemma v4mapped_text : ipv6_addr_v4mapped a = bool_decide (take 12 a = replicate 10 0 ++ [255; 255]).
Proof using Ha.
  repeat (apply Forall_cons in Ha as [? Ha]). unfold is_u8 in *. unfold ipv6_addr_v4mapped. destruct addr32_text as (-> & -> & ->).
  apply eq_bool_prop_intro. rewrite bool_decide_spec, Is_true_true, Z.eqb_eq, !Z.lor_eq_0_iff, Z.lxor_eq_0_iff.
  cbn [take firstn replicate app]. split; [intros [[E1 E2] E3]; congr_lia|]. intros [= -> -> -> -> -> -> -> -> -> -> -> ->]. done.
Qed.

Lemma isatap_text : ipv6_addr_is_isatap a = bool_decide (drop 9 (take 12 a) = [0; 0x5e; 0xfe]) && bool_decide (ch a 8 ∈ [0; 2]).
Proof using Ha.
  repeat (apply Forall_cons in Ha as [? Ha]). unfold is_u8 in *. unfold ipv6_addr_is_isatap. destruct addr32_text as (_ & _ & ->).
  rewrite lor_bit25 by (unfold is_u32; lia). set (w := 65536 * _ + _). cbn [take drop firstn skipn].
  apply eq_bool_prop_intro. rewrite Is_true_true, Z.eqb_eq, andb_True, !bool_decide_spec. change (ch a 8) with b8. split.
  - intros E. assert (w = 0x02005EFE \/ w = 0x5EFE) as Hw by (destruct (Z.testbit w 25); lia). unfold w in Hw. split; [congr_lia|]. set_unfold. lia.
  - intros [[= E9 E10 E11] E8]. set_unfold in E8. unfold w. rewrite E9, E10, E11. destruct E8 as [->|[->|[]]]; done.
Qed.

Lemma address_words v4 : let ws := take (if v4 : bool then 6%nat else 8%nat) (words a) in
  words_from a 0 ws /\ Forall is_word ws /\ length ws = if v4 then 6%nat else 8%nat.
Proof using Ha.
  repeat (apply Forall_cons in Ha as [? Ha]). unfold is_u8 in *.
  destruct v4; cbn [words take firstn]; (split; [repeat split|]); (split; [|done]); repeat (apply Forall_cons; split; [unfold is_word; lia|]); by apply Forall_nil.
Qed.
End address.

(** ** The whole text *)

Lemma numerals_visible ws : Forall is_word ws -> Forall visible (map (numeral_text 16 32) ws).
Proof. intros H. apply Forall_fmap. eapply Forall_impl; [exact H|]. intros w Hw. by apply hex_u16_text. Qed.

(** The words, with the run of zeros left out. *)
Lemma emit_text a ws range : words_from a 0 ws -> Forall is_word ws -> range = Z.of_nat (length ws) -> (0 < length ws <= 8)%nat ->
  let '(longest, colonpos) := longest_run (Z.to_nat range) a 0 1 (-1) in
  let '(k, n) := best_run ws in
  let hex := map (numeral_text 16 32) in
  emit_words 8 a 0 range longest (if longest =? 1 then -1 else colonpos) false =
  Ok (if (2 <=? n)%nat then (join [58] (hex (take k ws)) ++ [58; 58] ++ join [58] (hex (drop (k + n) ws)), negb (bool_decide (drop (k + n) ws = [])))
      else (join [58] (hex ws), true)).
Proof.
  intros Hw Hf -> Hl. rewrite Nat2Z.id, (longest_run_text a ws 0 1 (-1)) by (done || lia). pose proof (best_run_bounds ws) as Hb.
  destruct (best_run ws) as [k n]. destruct Hb as [Hn1 Hn2]. destruct (Nat.leb_spec 2 n) as [H2|H2].
  - rewrite (proj2 (Z.ltb_lt 1 _)), (proj2 (Z.eqb_neq _ 1)) by lia.
    rewrite (emit_run 8 a ws 0 _ (Z.of_nat n) k false) by (done || lia || by right). cbv zeta. rewrite Nat2Z.id. by destruct k.
  - rewrite (proj2 (Z.ltb_ge 1 _)) by lia. cbn [Z.eqb Pos.eqb]. rewrite (emit_plain 8 a ws) by (done || lia). destruct ws; [cbn in Hl; lia|done].
Qed.

Lemma ip6_compressed_text a : Forall is_u8 a -> length a = 16%nat -> ip6_compressed_string a = Ok (ip6c_text a) /\ visible (ip6c_text a).
Proof.
  intros Ha Hl. do 16 (destruct a as [|? a]; [discriminate Hl|]). destruct a; [|discriminate Hl]. clear Hl.
  unfold ip6_compressed_string, ip6c_text. rewrite v4mapped_text, isatap_text by done. set (a := [_; _; _; _; _; _; _; _; _; _; _; _; _; _; _; _]) in *.
  set (v4 := _ || _). pose proof (address_words _ _ _ _ _ _ _ _ _ _ _ _ _ _ _ _ Ha v4) as Hws. fold a in Hws. cbv zeta in Hws.
  set (ws := take _ (words a)) in *. destruct Hws as (Hw & Hf & Hlen).
  pose proof (emit_text a ws (if v4 then 6 else 8) Hw Hf ltac:(rewrite Hlen; by destruct v4) ltac:(rewrite Hlen; destruct v4; lia)) as He.
  destruct (longest_run _ a 0 1 (-1)) as [longest colonpos]. destruct (best_run ws) as [k n]. cbv zeta in He. rewrite He. clear He.
  destruct (ip4_loop_text (drop 12 a) false) as [E4 V4]; [by apply Forall_drop|].
  assert (Hq : ip4_string (drop 12 a) (chars "I4") = Ok (ip4_text false (drop 12 a))) by exact E4. rewrite Hq.
  set (hex := map (numeral_text 16 32)). change (map (fun w => numeral_text 16 32 w)) with hex.
  assert (Hc : visible [58]) by (repeat constructor).
  assert (Htail : forall l, Forall is_word l -> let tail := if v4 then [ip4_text false (drop 12 a)] else [] in
    join [58] (hex l ++ tail) = join [58] (hex l) ++ (if v4 then (if bool_decide (l = []) then [] else [58]) ++ ip4_text false (drop 12 a) else []) /\ visible (join [58] (hex l ++ tail))).
  { intros l Hwl tail. split.
    - unfold tail. destruct v4; [|by rewrite !app_nil_r]. rewrite join_snoc. destruct l; [done|]. by rewrite bool_decide_eq_false_2.
    - apply join_visible; [done|]. apply Forall_app. split; [by apply numerals_visible|]. unfold tail. destruct v4; [by apply Forall_singleton|by apply Forall_nil]. }
  destruct (Nat.leb_spec 2 n); cbn [rbind].
  - destruct (Htail (drop (k + n) ws)) as [E V]; [by apply Forall_drop|]. split.
    + rewrite E, !app_assoc. destruct v4; [|by rewrite app_nil_r]. cbn [rbind]. case_bool_decide; cbn [negb]; by rewrite <- ?app_assoc.
    + apply visible_app; [apply join_visible; [done|by apply numerals_visible, Forall_take]|]. by apply (visible_app [58; 58]); [repeat constructor|].
  - destruct (Htail ws Hf) as [E V]. split; [|done]. rewrite E. destruct v4; [|by rewrite app_nil_r]. cbn [rbind]. by rewrite bool_decide_eq_false_2 by (intros ->; discriminate Hlen).
Qed.

Lemma ip6_text_ok W e o p sp ext l : world_ok W -> spec_modest sp -> bytes W p 16 = Some l ->
  ip6_addr_string W e o p sp ext =
  Ok (put_list e o (string_text sp (if (ch ext 0 =? 73) && (ch ext 2 =? 99) then ip6c_text l else ip6_text (ch ext 0 =? 73) l))).
Proof.
  intros HW Hs (E & Hl & Hb)%bytes_read; [|done]. unfold ip6_addr_string. rewrite E. cbn [rbind]. destruct (_ && _).
  - destruct (ip6_compressed_length l Hb Hl) as (t & Et & Ht). destruct (ip6_compressed_text l Hb Hl) as [Et' Hv]. rewrite Et' in Et |- *. injection Et as Et.
    cbn [rbind]. apply local_text; [done|done| |done]. rewrite Et. change (sizeof _) with 46. lia.
  - unfold ip6_string. destruct (ip6_loop_text 8 l (ch ext 0 =? 73) Hl Hb) as (-> & Hv & Hlen). cbn [rbind]. apply local_text; [done|done| |done].
    change (sizeof _) with 46. lia.
Qed.

(** ** Resources, numbers and addresses after [%p] *)

(** ** Visible text *)

Lemma numeral_visible b lc v : 2 <= b <= 16 -> 0 <= v -> lc = 0 \/ lc = 32 -> visible (numeral_text b lc v).
Proof.
  intros Hb Hv Hl. unfold numeral_text. apply Forall_rev, Forall_fmap. eapply Forall_impl; [apply le_digits_range; [lia|exact Hv]|].
  cbn. intros d Hd. apply digit_visible; [lia|done].
Qed.
Lemma repeat_visible c n : 0 < c < 128 -> visible (repeat c n).
Proof. intros Hc. induction n; by constructor. Qed.

#[export] Hint Resolve visible_app repeat_visible : printing.
Lemma layout_visible sgn pfx D fl w prec : visible sgn -> visible pfx -> visible D -> visible (layout sgn pfx D fl w prec).
Proof.
  intros Hs Hp HD. unfold layout. cbv zeta. assert (H48 : 0 < 48 < 128) by lia. assert (H32 : 0 < 32 < 128) by lia.
  destruct (has fl LEFT); [|destruct (has fl ZEROPAD)]; auto 8 with printing.
Qed.
Lemma number_layout_visible num sp : radix (base sp) -> is_u64 num -> visible (number_layout num sp).
Proof.
  intros Hb Hn. unfold number_layout. apply layout_visible.
  - unfold signed_text. repeat destruct (has _ _); try destruct (_ <? _); repeat constructor.
  - unfold prefix_text. destruct (has _ _); [|constructor]. destruct (locase_cases (flags sp)) as [E|E]; rewrite E; (destruct (_ =? 16); [repeat constructor|]); destruct (_ && _); repeat constructor.
  - apply numeral_visible; [unfold radix in Hb; lia|apply signed_range, Hn|apply locase_cases].
Qed.

(** ** Resources *)

Lemma resource_visible start end_ flags decode : is_u32 start -> is_u32 end_ -> is_u32 flags -> visible (resource_text start end_ flags decode).
Proof.
  intros Hs He Hf. unfold resource_text.
  assert (Hk : let '(name, specp, _) := resource_kind flags decode in visible name /\ resource_spec specp).
  { unfold resource_kind, resource_spec. repeat (destruct (has flags _); [split; [repeat constructor|tauto]|]). split; [repeat constructor|tauto]. }
  destruct (resource_kind flags decode) as [[name specp] dec]. destruct Hk as [Hn Hsp].
  assert (Hnum : forall sp num, resource_spec sp -> is_u32 num -> visible (number_layout num sp)).
  { intros sp num H Hnum. apply number_layout_visible; [|unfold is_u64, is_u32 in *; lia]. unfold radix. destruct H as [->|[->|[->|[->| ->]]]]; cbn; lia. }
  assert (Hflag : resource_spec flag_spec) by (unfold resource_spec; tauto).
  apply visible_app; [repeat constructor|]. apply visible_app; [done|]. apply visible_app; [by apply Hnum|]. apply visible_app.
  { destruct (start =? end_); [constructor|]. apply (visible_app [45]); [repeat constructor|by apply Hnum]. }
  apply visible_app; [|repeat constructor]. destruct dec.
  - unfold resource_flags. repeat apply visible_app; destruct (has flags _); repeat constructor.
  - apply visible_app; [repeat constructor|by apply Hnum].
Qed.

(** The bytes of the array [sym]. *)
Lemma sym_bytes t : (length t < 59)%nat ->
  map (omem (put_list SYM_SIZE (mkOut (fun _ => 0) 0) (t ++ [0]))) (seqZ 0 SYM_SIZE) = t ++ 0 :: replicate (58 - length t) 0.
Proof.
  intros Ht. change SYM_SIZE with 59. destruct (put_list_mem 59 (mkOut (fun _ => 0) 0) (t ++ [0])) as [_ Hm]. cbn [pos omem] in Hm. apply list_eq. intros i.
  change (map ?f ?l) with (f <$> l). rewrite list_lookup_fmap. destruct (Nat.lt_ge_cases i 59) as [Hi|Hi].
  - rewrite lookup_seqZ_lt by lia. cbn [fmap option_fmap option_map]. rewrite Hm, length_app. cbn [length].
    rewrite (proj2 (Z.leb_le 0 _)) by lia. cbn [andb]. replace (Z.to_nat (0 + Z.of_nat i - 0)) with i by lia.
    destruct (Nat.lt_trichotomy i (length t)) as [Hlt|[->|Hgt]].
    + rewrite (proj2 (Z.ltb_lt _ _)) by lia. rewrite lookup_app_l, app_nth1 by done. destruct (lookup_lt_is_Some_2 t i Hlt) as [x Ex]. rewrite Ex. f_equal. by apply nth_lookup_Some.
    + rewrite (proj2 (Z.ltb_lt _ _)) by lia. rewrite list_lookup_middle by done. rewrite app_nth2, Nat.sub_diag by lia. done.
    + rewrite (proj2 (Z.ltb_ge _ _)) by lia. rewrite lookup_app_r by lia. destruct (i - length t)%nat as [|j] eqn:Ej; [lia|]. change (Some 0 = replicate (58 - length t) 0 !! j). by rewrite lookup_replicate_2 by lia.
  - rewrite lookup_seqZ_ge by lia. cbn. symmetry. apply lookup_ge_None. rewrite length_app. cbn [length]. rewrite length_replicate. lia.
Qed.

Lemma resource_text_ok W e o p sp ext l : world_ok W -> spec_modest sp -> bytes W p 16 = Some l ->
  resource_string W e o p sp ext = Ok (put_list e o (string_text sp (resource_text (word_at l 0) (word_at l 4) (word_at l 12) (ch ext 0 =? 82)))).
Proof.
  intros HW Hs (E & _ & Hb)%bytes_read; [|done]. unfold resource_string. rewrite E. cbn [rbind]. cbv zeta.
  change (le32 (ch l 0) (ch l 1) (ch l 2) (ch l 3)) with (word_at l 0). change (le32 (ch l 4) (ch l 5) (ch l 6) (ch l 7)) with (word_at l 4).
  change (le32 (ch l 12) (ch l 13) (ch l 14) (ch l 15)) with (word_at l 12).
  pose proof (le32_u8 l 0 1 2 3 Hb) as H0. pose proof (le32_u8 l 4 5 6 7 Hb) as H4. pose proof (le32_u8 l 12 13 14 15 Hb) as H12.
  destruct (resource_sym_text (word_at l 0) (word_at l 4) (word_at l 12) (ch ext 0 =? 82) H0 H4 H12) as [-> Hlen]. cbn [rbind].
  rewrite sym_put_text by (rewrite put_list_pos; change SYM_SIZE with 59; cbn [pos]; lia). cbn [rbind]. rewrite <- put_list_app, sym_bytes by lia.
  apply string_of_text; [done|by apply visible_text, resource_visible|lia].
Qed.

(** ** Numbers *)

Lemma number_int e o sp' sp signed b small v :
  sees (flags sp') (flags sp) signed small -> base sp' = b -> b = 8 \/ b = 10 \/ b = 16 ->
  field_width sp' = field_width sp -> precision sp' = precision sp -> spec_modest sp ->
  (if signed then -9223372036854775808 <= v < 9223372036854775808 else 0 <= v < 18446744073709551616) ->
  stuck_of (number e o (u64 v) sp') = Ok (put_list e o (int_text sp signed b small v)).
Proof.
  intros Hf Hb Hr Ew Ep [Hw Hp] Hv. unfold modest in Hw. rewrite number_exact; [|by rewrite Hb|apply Z.mod_pos_bound; lia|lia..].
  cbn [stuck_of]. by rewrite (number_layout_int sp' sp signed b small).
Qed.

(** Unsigned numbers in lower case hexadecimal. *)
Lemma number_hex e o sp' sp v :
  sees (flags sp') (flags sp) false true -> base sp' = 16 -> field_width sp' = field_width sp -> precision sp' = precision sp -> spec_modest sp -> is_u64 v ->
  stuck_of (number e o v sp') = Ok (put_list e o (int_text sp false 16 true v)).
Proof.
  intros Hf Hb Ew Ep Hs Hv. rewrite <- (number_int e o sp' sp false 16 true v) by auto. by rewrite u64_small.
Qed.

Lemma sees_hex fl : quiet fl -> sees (Z.lor fl (Z.lor (Z.lor SPECIAL SMALL) ZEROPAD)) (Z.lor fl (Z.lor SPECIAL ZEROPAD)) false true.
Proof. intros [Q1 Q2]. split; rewrite ?has_lor, ?Z.land_lor_distr_l, ?Q1, ?Q2; cbn; rewrite ?orb_false_r; done. Qed.

Section addresses.
Context (W : world) (HW : world_ok W) (e : Z) (o : out) (sp : printf_spec) (Hs : spec_modest sp) (Hq : quiet (flags sp)).

Lemma symbol_text_ok p : is_u32 p -> symbol_string e o p sp = Ok (put_list e o (int_text (or_flags (Z.lor SPECIAL ZEROPAD) (set_field_width 8 sp)) false 16 true p)).
Proof using Hs Hq.
  intros Hp. destruct Hs as [_ Hs2]. apply number_hex; try done; [by apply sees_hex|unfold is_u64, is_u32 in *; lia].
Qed.

Lemma or_width_modest w : modest w -> spec_modest (or_width sp w).
Proof using Hs. intros Hw. destruct Hs as [H1 H2]. unfold or_width. by destruct (_ =? -1). Qed.

Lemma netdev_text_ok p l : bytes W p 8 = Some l ->
  netdev_feature_string W e o p sp = Ok (put_list e o (int_text (or_flags (Z.lor SPECIAL ZEROPAD) (or_width sp 18)) false 16 true (word_at l 0 + 4294967296 * word_at l 4))).
Proof using HW Hs Hq.
  intros (E & _ & Hb)%bytes_read; [|done]. unfold netdev_feature_string. rewrite E. cbn [rbind].
  pose proof (le32_u8 l 0 1 2 3 Hb) as H0. pose proof (le32_u8 l 4 5 6 7 Hb) as H4. unfold is_u32 in H0, H4.
  apply number_hex; unfold or_width; cbn [field_width or_flags set_flags]; try (by destruct (_ =? -1)).
  - destruct (_ =? -1); by apply sees_hex.
  - destruct (or_width_modest 18 ltac:(unfold modest; lia)) as [M1 M2]. by split.
  - unfold is_u64. change (word_at l 0) with (le32 (ch l 0) (ch l 1) (ch l 2) (ch l 3)). change (word_at l 4) with (le32 (ch l 4) (ch l 5) (ch l 6) (ch l 7)). lia.
Qed.

Lemma plain_pointer_text p w : is_u32 p -> modest w -> plain_pointer e o p w sp = Ok (put_list e o (address_text sp w p)).
Proof using Hs Hq.
  intros Hp Hw. destruct Hs as [H1 H2]. destruct Hq as [Q1 Q2]. unfold plain_pointer, address_text. cbn [field_width or_flags set_flags].
  apply number_hex; try (by destruct (_ =? -1)); [|unfold is_u64, is_u32 in *; lia].
  destruct (_ =? -1); cbn [flags set_base set_flags or_flags set_field_width]; split; rewrite ?has_lor, ?Z.land_lor_distr_l, ?Q1, ?Q2; cbn; rewrite ?orb_false_r; done.
Qed.

(** A constant text in a field that is at least as wide as an address. *)
Lemma constant_text t w : modest w -> visible t -> Z.of_nat (length t) < 4294967295 ->
  string_of e o (t ++ [0]) (if field_width sp =? -1 then set_field_width w sp else sp) = Ok (put_list e o (string_text (or_width sp w) t)).
Proof using Hs. intros Hw Ht Hl. fold (or_width sp w). apply string_of_text; [by apply or_width_modest|by apply visible_text|done]. Qed.

Lemma kernel_pointer_text p w : is_u32 p -> modest w ->
  kernel_pointer W e o p w sp = Ok (put_list e o (
    if negb (kptr_restrict W =? 0) && in_interrupt W then string_text (or_width sp w) (chars "pK-error")
    else address_text sp w (if (if kptr_restrict W =? 0 then false else if kptr_restrict W =? 1 then negb (cap_syslog W) else true) then 0 else p))).
Proof using Hs Hq.
  intros Hp Hw. unfold kernel_pointer. destruct (_ && in_interrupt W); [apply constant_text; [done|repeat constructor|done]|].
  assert (E : negb ((kptr_restrict W =? 0) || (kptr_restrict W =? 1) && cap_syslog W) = if kptr_restrict W =? 0 then false else if kptr_restrict W =? 1 then negb (cap_syslog W) else true).
  { by destruct (kptr_restrict W =? 0), (kptr_restrict W =? 1). }
  rewrite E. apply plain_pointer_text; [|done]. destruct (if kptr_restrict W =? 0 then _ else _); [unfold is_u32; lia|done].
Qed.

(** ** pointer *)

Lemma letters (c : Z) l : bool_decide (c ∈ l) = existsb (Z.eqb c) l.
Proof. apply eq_bool_prop_intro. rewrite bool_decide_spec, Is_true_true, existsb_exists. setoid_rewrite <- list_elem_of_In. setoid_rewrite Z.eqb_eq. naive_solver. Qed.

Lemma pointer_text_ok nested ext p t : is_u32 p -> pointer_text W ext sp p = Some t -> pointer W nested ext e o p sp = Ok (put_list e o t, []).
Proof using HW Hs Hq.
  intros Hp. unfold pointer_text, pointer. rewrite !letters.
  change (chars "FfSsB") with [70; 102; 83; 115; 66]. change (chars "Rr") with [82; 114]. change (chars "hV") with [104; 86]. change (chars "Mm") with [77; 109]. change (chars "Ii") with [73; 105].
  cbn [existsb]. rewrite !orb_false_r, !orb_assoc. set (w := if has (flags sp) SPECIAL then 10 else 8).
  assert (Ew : 2 * 4 + (if has (flags sp) SPECIAL then 2 else 0) = w) by (unfold w; by destruct (has _ _)). rewrite Ew.
  assert (Hw : modest w) by (unfold modest, w; destruct (has _ _); lia). set (c := ch ext 0).
  rewrite <- (letters (ch ext 2)). assert (Hread : forall n f (x : res out), (forall l, bytes W p n = Some l -> x = Ok (put_list e o (f l))) ->
    (l ← bytes W p n; Some (f l)) = Some t -> plain x = Ok (put_list e o t, [])).
  { intros n f x Hx. destruct (bytes W p n) as [l|]; [|done]. cbn [mbind option_bind]. intros [= <-]. by rewrite (Hx l). }
  destruct ((p =? 0) && _); [intros [= <-]; unfold null_text; by rewrite constant_text by (first [done|repeat constructor])|].
  destruct (_ || (c =? 66)); [intros [= <-]; by rewrite symbol_text_ok|].
  destruct (_ || (c =? 114)); [apply Hread; intros l Hl; by apply resource_text_ok|].
  destruct (c =? 104); [done|]. destruct (c =? 86); [done|]. cbn [orb].
  destruct (_ || (c =? 109)); [apply Hread; intros l Hl; by apply mac_text_ok|].
  destruct (_ && (ch ext 1 =? 54)); [apply Hread; intros l Hl; by apply ip6_text_ok|].
  destruct (_ && (ch ext 1 =? 52)); [apply Hread; intros l Hl; by apply ip4_text_ok|].
  destruct (c =? 85); [apply Hread; intros l Hl; by apply uuid_text_ok|].
  destruct (c =? 75); [intros E; rewrite kernel_pointer_text by done; destruct (_ && in_interrupt W); by injection E as <-|].
  destruct (_ && (ch ext 1 =? 70)); [apply Hread; intros l Hl; by apply netdev_text_ok|].
  intros [= <-]. by rewrite plain_pointer_text.
Qed.
End addresses.
