(* ===== verification/VsnprintfRender.v ===== *)
(** * Formats print what they render

    The rounds of [vsnprintf] over a format: each directive stores its text, and nested
    formats store theirs in the same buffer. *)

From Stdlib Require Import ZArith Lia Bool.
From stdpp Require Import base numbers list strings sets.
From S2P Require Import Prelude Kstrtox Vsprintf VsnprintfText Result Vsnprintf VsnprintfSafety VsnprintfSpec VsnprintfDecode VsnprintfPointer.
Open Scope Z_scope.

(** ** One conversion *)

Section convert.
Context (W : world) (HW : world_ok W) (nested : Z -> Z -> list Z -> list Z -> (Z -> Z) -> res printed) (buf e : Z).

(** The state after a directive that stored [t]. *)
Definition stored (s : printing) (rest t args : list Z) (s' : printing) : Prop :=
  p_fmt s' = rest /\ awaits (p_spec s') = false /\ p_args s' = args /\ p_out s' = put_list e (p_out s) t /\ p_stores s' = p_stores s.

Lemma ext_nil d : directive_ok d -> d_conv d <> 112 -> d_ext d = [].
Proof. intros Hd Hc. pose proof (do_ext d Hd) as H. by rewrite (proj2 (Z.eqb_neq _ _)) in H. Qed.

(** [%p] and the letters after it. *)
Lemma pointer_round d rest s sp p args :
  directive_ok d -> decoded d (d_ext d ++ rest) sp s -> d_conv d = 112 -> isalnum (ch rest 0) = false -> p_args s = p :: args ->
  exists b q, let sp' := mkSpec FORMAT_TYPE_PTR (flags sp) b q (field_width sp) (precision sp) in
  print_step W nested buf e s = let* (o, st) := pointer W nested (d_ext d) e (p_out s) p sp' in Ok (mkP rest sp' o args (p_stores s ++ st)).
Proof.
  intros Hd (Hne & b & q & E) Hc Hr Ea. exists 10, (qualifier_code (d_qual d)). unfold print_step. rewrite E, decode_qualifier_text, Hc by done.
  change (decode_conversion (112 :: d_ext d ++ rest) ?s) with (112 :: d_ext d ++ rest, set_type FORMAT_TYPE_PTR (set_base 10 s)).
  unfold set_type, set_base, set_qualifier. cbn [type flags base qualifier field_width precision]. rewrite Ea. cbn [va_arg rbind].
  change (drop 1 (112 :: d_ext d ++ rest)) with (d_ext d ++ rest). rewrite pointer_letters by done.
  assert (Hx : skip_alnum (112 :: d_ext d ++ rest) = rest).
  { apply (skip_alnum_text (112 :: d_ext d)); [|done]. constructor; [done|]. pose proof (do_ext d Hd) as H. by rewrite Hc in H. }
  by rewrite Hx.
Qed.

(** Any other conversion. *)
Lemma conversion_decoded d rest s sp : directive_ok d -> decoded d (d_ext d ++ rest) sp s -> d_conv d <> 112 ->
  exists b, format_decode (p_fmt s) (p_spec s) =
    decode_conversion (d_conv d :: rest) (mkSpec FORMAT_TYPE_NONE (flags sp) b (qualifier_code (d_qual d)) (field_width sp) (precision sp)).
Proof.
  intros Hd (Hne & b & q & E) Hc. exists b. rewrite E, decode_qualifier_text, (ext_nil d Hd Hc) by done. done.
Qed.

Lemma string_text_ok o a t sp : spec_modest sp -> string_at W a t -> string W e o a sp = Ok (put_list e o (string_text sp t)).
Proof.
  intros Hs (Ht & Hl & Ha). unfold string. destruct (a <? PAGE_SIZE); [subst t; by apply string_of_text|]. destruct Ha as [r ->]. by apply string_of_text.
Qed.

Lemma pointer_text_same ext sp ty b q p :
  pointer_text W ext (mkSpec ty (flags sp) b q (field_width sp) (precision sp)) p = pointer_text W ext sp p.
Proof. destruct sp as [ty' fl b' q' w pr]. unfold pointer_text, address_text, or_width. cbn [flags field_width precision]. destruct (w =? -1); reflexivity. Qed.

Lemma number_type_cases sp :
  match number_type sp with
  | FORMAT_TYPE_LONG_LONG | FORMAT_TYPE_ULONG | FORMAT_TYPE_LONG | FORMAT_TYPE_UBYTE | FORMAT_TYPE_BYTE | FORMAT_TYPE_USHORT
  | FORMAT_TYPE_SHORT | FORMAT_TYPE_UINT | FORMAT_TYPE_INT | FORMAT_TYPE_SIZE_T | FORMAT_TYPE_PTRDIFF => True
  | _ => False
  end.
Proof. unfold number_type. repeat (destruct (_ =? _); [try done; by destruct (has _ _)|]). by destruct (has _ _). Qed.

Lemma convert_round d rest s sp t args2 :
  directive_ok d -> decoded d (d_ext d ++ rest) sp s -> spec_modest sp -> quiet (flags sp) -> Forall is_u32 (p_args s) ->
  (d_conv d = 112 -> isalnum (ch rest 0) = false) -> converts W d sp (p_args s) t args2 ->
  exists s', print_step W nested buf e s = Ok s' /\ stored s rest t args2 s'.
Proof using HW.
  intros Hd Hdec Hs Hq Ha Hr Hc. inversion Hc as [args Ec Eargs Et Erest|a args Ec Eargs Et Erest|a args tx Ec Hstr Eargs Et Erest|signed b small args v rest' Hi Harg Eargs Et Erest|a args tx Ec Hp Eargs Et Erest]; subst.
  - destruct (conversion_decoded d rest s sp Hd Hdec) as (b & E); [lia|]. rewrite Ec in E. unfold print_step. rewrite E. cbn. eexists. split; [reflexivity|by split_and!].
  - destruct (conversion_decoded d rest s sp Hd Hdec) as (b & E); [lia|]. rewrite Ec in E. unfold print_step. rewrite E. cbn [decode_conversion ch nth Z.eqb Pos.eqb type set_type].
    rewrite <- Eargs. cbn [va_arg rbind]. rewrite print_char_text by apply Hs. eexists. split; [reflexivity|by split_and!].
  - destruct (conversion_decoded d rest s sp Hd Hdec) as (b & E); [lia|]. rewrite Ec in E. unfold print_step. rewrite E. cbn [decode_conversion ch nth Z.eqb Pos.eqb type set_type].
    rewrite <- Eargs. cbn [va_arg rbind]. rewrite (string_text_ok _ a tx) by done. eexists. split; [reflexivity|by split_and!].
  - assert (Hn : d_conv d <> 112) by (intros E; rewrite E in Hi; set_unfold in Hi; naive_solver).
    destruct (conversion_decoded d rest s sp Hd Hdec Hn) as (b' & E). destruct (decode_int _ _ _ _ rest (mkSpec FORMAT_TYPE_NONE (flags sp) b' (qualifier_code (d_qual d)) (field_width sp) (precision sp)) Hi) as (sp1 & E1 & F1 & F2 & F3 & F4 & F5).
    unfold print_step. rewrite E, E1. cbn [flags qualifier field_width precision] in *.
    assert (Hsees : sees (flags sp1) (flags sp) signed small) by (rewrite F1; by apply sees_lor).
    destruct (int_arg_number d signed sp1 (p_args s) v args2 Hd Ha F3 (se_sign _ _ _ _ Hsees) Harg) as [Hv Hrange].
    assert (Hnum : stuck_of (number e (p_out s) (u64 v) (set_type (number_type sp1) sp1)) = Ok (put_list e (p_out s) (int_text sp signed b small v))).
    { apply number_int; try done. by apply (int_conversion_radix _ _ _ _ Hi). }
    pose proof (number_type_awaits sp1 sp1) as Haw. pose proof (number_type_cases sp1) as Hcases.
    exists (mkP rest (set_type (number_type sp1) sp1) (put_list e (p_out s) (int_text sp signed b small v)) args2 (p_stores s)). split; [|by split_and!].
    cbn [type set_type]. destruct (number_type sp1); try done; rewrite Hv; cbn [rbind]; by rewrite Hnum.
  - destruct (pointer_round d rest s sp a args2 Hd Hdec Ec (Hr Ec) (eq_sym Eargs)) as (b & q & E). cbv zeta in E. rewrite E.
    rewrite (pointer_text_ok W HW e (p_out s) (mkSpec FORMAT_TYPE_PTR (flags sp) b q (field_width sp) (precision sp)) Hs Hq nested (d_ext d) a t); [|by rewrite <- Eargs in Ha; apply Forall_cons in Ha as [? _]|by rewrite pointer_text_same].
    cbn [rbind]. eexists. split; [reflexivity|]. split_and!; try done. cbn [p_stores]. by rewrite app_nil_r.
Qed.
End convert.

(** ** Outputs up to a terminator *)

(** The memory of [o] is that of [o'] but for the place a terminator may be at. *)
Definition near (buf e : Z) (o o' : out) : Prop :=
  pos o = pos o' /\ forall k, (k = Z.min (pos o) (e - 1) /\ buf <= k) \/ omem o k = omem o' k.

Lemma near_refl buf e o : near buf e o o.
Proof. split; auto. Qed.
Lemma near_trans buf e o1 o2 o3 : near buf e o1 o2 -> near buf e o2 o3 -> near buf e o1 o3.
Proof. intros [P1 M1] [P2 M2]. split; [lia|]. intros k. rewrite P1 in *. destruct (M1 k) as [|E1]; [by left|]. destruct (M2 k) as [|E2]; [by left|right; congruence]. Qed.
Lemma near_put_list buf e o o' l : near buf e o o' -> near buf e (put_list e o l) (put_list e o' l).
Proof.
  intros [P M]. destruct (put_list_mem e o l) as [P1 M1], (put_list_mem e o' l) as [P2 M2]. split; [lia|]. intros k. rewrite P1, M1, M2, <- P.
  destruct ((pos o <=? k) && (k <? Z.min e (pos o + Z.of_nat (length l)))) eqn:E; [by right|]. destruct (M k) as [[-> Hb]|]; [|by right]. left.
  apply andb_false_iff in E. rewrite Z.leb_gt, Z.ltb_ge in E. lia.
Qed.
Lemma near_same buf e o o' : pos o = pos o' -> (forall k, omem o k = omem o' k) -> near buf e o o'.
Proof. intros P M. split; auto. Qed.

(** ** Formats *)

Definition deeper (W : world) (depth : nat) (buf size : Z) (fmt args : list Z) (m : Z -> Z) : res printed :=
  match depth with O => Stuck | S depth => vsnprintf depth W buf size fmt args m end.

(** What printing the format [F] comes to, in a buffer of any size. *)
Definition prints (W : world) (depth : nat) (F : list item) (args T : list Z) : Prop :=
  forall buf e s, p_fmt s = format_text F -> p_args s = args -> awaits (p_spec s) = false ->
    is_u32 e -> 0 <= buf <= pos (p_out s) -> e - buf < 2147483648 -> pos (p_out s) + Z.of_nat (length T) < 4294967296 -> Z.of_nat (length T) < 2147483648 ->
    exists n s', rounds W (deeper W depth) buf e n s s' /\ (n <= length (format_text F))%nat /\ p_fmt s' = [] /\
      near buf e (p_out s') (put_list e (p_out s) T) /\ p_stores s' = p_stores s.

(** A call prints the text, cut to the buffer, and a terminator. *)
Definition call_prints (W : world) (depth : nat) (fmt args T : list Z) : Prop :=
  forall buf size m, 0 <= buf -> 0 <= size < 2147483648 -> buf + size < 4294967296 ->
    buf + Z.of_nat (length T) < 4294967296 -> Z.of_nat (length T) < 2147483648 ->
    exists m', vsnprintf depth W buf size fmt args m = Ok (Z.of_nat (length T), m', []) /\
      forall k, m' k = if (0 <? size) && (k =? buf + Z.min (Z.of_nat (length T)) (size - 1)) then 0
                       else omem (put_list (buf + size) (mkOut m buf) T) k.

Lemma prints_call W depth F args T : prints W depth F args T -> call_prints W depth (format_text F) args T.
Proof.
  intros H buf size m Hb Hsz Hend HT1 HT2.
  assert (E : vsnprintf depth W buf size (format_text F) args m = vsnprintf_with W (deeper W depth) buf size (format_text F) args m) by (by destruct depth).
  rewrite E. unfold vsnprintf_with. rewrite u32_id by (unfold is_u32; lia). rewrite (proj2 (Z.ltb_ge (buf + size) buf)) by lia.
  assert (Es : s32 size = size) by (unfold s32, u32; rewrite Z.mod_small by lia; by rewrite (proj2 (Z.ltb_lt size _)) by lia).
  rewrite Es, (proj2 (Z.ltb_ge size 0)) by lia.
  destruct (H buf (buf + size) (mkP (format_text F) zero_spec (mkOut m buf) args [])) as (n & s' & R & Hn & Hf & [P M] & Hst); try done; cbn [p_out pos] in *; try lia.
  { unfold is_u32. lia. }
  assert (Hl : print_loop W (deeper W depth) (print_fuel (format_text F)) buf (buf + size) (mkP (format_text F) zero_spec (mkOut m buf) args []) = Ok s').
  { unfold print_fuel. replace (2 * length (format_text F) + 1)%nat with (n + (2 * length (format_text F) + 1 - n))%nat by lia. rewrite R.
    destruct (2 * length (format_text F) + 1 - n)%nat; cbn [print_loop]; by rewrite bool_decide_eq_true_2. }
  rewrite Hl. cbn [rbind]. rewrite Hst. rewrite P, put_list_pos in *. cbn [pos] in *.
  rewrite (proj2 (Z.ltb_lt (buf + Z.of_nat (length T) - buf) _)), (proj2 (Z.ltb_lt (buf + Z.of_nat (length T)) 4294967296)) by lia. cbn [andb].
  eexists. split; [do 3 f_equal; lia|]. intros k. destruct (Z.ltb_spec 0 size); cbn [andb].
  - assert (Ez : (if buf + Z.of_nat (length T) <? buf + size then buf + Z.of_nat (length T) else buf + size - 1) = buf + Z.min (Z.of_nat (length T)) (size - 1))
      by (destruct (Z.ltb_spec (buf + Z.of_nat (length T)) (buf + size)); lia).
    rewrite Ez. destruct (Z.eqb_spec k (buf + Z.min (Z.of_nat (length T)) (size - 1))); [done|]. destruct (M k) as [[-> _]|]; [lia|done].
  - destruct (M k) as [[-> ?]|]; [lia|done].
Qed.

Lemma param_value_args p args v rest : Forall is_u32 args -> param_value p args = Some (v, rest) -> Forall is_u32 rest.
Proof.
  intros Ha. destruct p as [[[|c ds]|]|]; cbn [param_value]; try (by intros [= <- <-]). destruct Ha as [|a args Ha Hargs]; [done|]. destruct (_ && _); [|done]. by intros [= <- <-].
Qed.
Lemma directive_spec_args d args sp rest : Forall is_u32 args -> directive_spec d args = Some (sp, rest) -> Forall is_u32 rest.
Proof.
  intros Ha. unfold directive_spec. destruct (param_value (d_width d) args) as [[w a1]|] eqn:E1; [|done]. cbn [mbind option_bind].
  destruct (param_value (d_prec d) a1) as [[p a2]|] eqn:E2; [|done]. cbn [mbind option_bind]. intros [= <- <-]. eapply param_value_args; [|exact E2]. by eapply param_value_args.
Qed.
Lemma converts_args W d sp args t rest : Forall is_u32 args -> converts W d sp args t rest -> Forall is_u32 rest.
Proof.
  intros Ha Hc. inversion Hc as [a0|a args0|a args0 tx|signed b small args0 v r Hi Harg|a args0 tx]; subst; try (by apply Forall_cons in Ha as [_ Ha]); [done|].
  unfold int_arg in Harg. destruct Ha as [|a args Ha Hargs]; [done|].
  destruct (_ || _); [destruct Hargs as [|b' args _ Hargs]; [done|]; by injection Harg as <- <-|].
  destruct (_ || _); [by injection Harg as <- <-|]. repeat (case_bool_decide; [by injection Harg as <- <-|]). by injection Harg as <- <-.
Qed.

Lemma literal_text l rest : Forall (fun c => c <> 37) l -> (rest = [] \/ exists r, rest = 37 :: r) -> literal (l ++ rest) = (l, rest).
Proof.
  intros Hl Hr. induction Hl as [|c l Hc _ IH]; cbn [app literal]; [destruct Hr as [->|[r ->]]; done|]. by rewrite (proj2 (Z.eqb_neq _ _)), IH.
Qed.

Lemma format_head F : (match F with Lit _ :: _ => False | _ => True end) -> format_text F = [] \/ exists r, format_text F = 37 :: r.
Proof. destruct F as [|[l|d] F]; [by left|done|]. intros _. right. by eexists. Qed.

Lemma format_cons i F : format_text (i :: F) = item_text i ++ format_text F.
Proof. done. Qed.

Lemma directive_split d rest :
  directive_text d ++ rest = 37 :: d_flags d ++ width_text (d_width d) ++ prec_text (d_prec d) ++ d_qual d ++ d_conv d :: d_ext d ++ rest.
Proof. unfold directive_text. cbn [app]. by rewrite <- !app_assoc. Qed.
Lemma directive_length d : (length (width_text (d_width d)) + length (prec_text (d_prec d)) + 1 <= length (directive_text d))%nat.
Proof. unfold directive_text. cbn [length]. rewrite !length_app. lia. Qed.

(** One item, then the others. *)
Lemma prints_item W depth i F args t args2 T :
  (forall buf e s, p_fmt s = item_text i ++ format_text F -> p_args s = args -> awaits (p_spec s) = false ->
    is_u32 e -> 0 <= buf <= pos (p_out s) -> e - buf < 2147483648 -> pos (p_out s) + Z.of_nat (length t) < 4294967296 -> Z.of_nat (length t) < 2147483648 ->
    exists n s', rounds W (deeper W depth) buf e n s s' /\ (n <= length (item_text i))%nat /\ p_fmt s' = format_text F /\ awaits (p_spec s') = false /\
      p_args s' = args2 /\ near buf e (p_out s') (put_list e (p_out s) t) /\ p_stores s' = p_stores s) ->
  prints W depth F args2 T -> prints W depth (i :: F) args (t ++ T).
Proof.
  intros Hi HF buf e s Ef Ea Haw He Hb Hsz HT1 HT2. rewrite length_app in HT1, HT2. rewrite format_cons in *.
  destruct (Hi buf e s) as (n1 & s1 & R1 & N1 & F1 & W1 & A1 & M1 & S1); try done; [lia|lia|].
  assert (P1 : pos (p_out s1) = pos (p_out s) + Z.of_nat (length t)) by (destruct M1 as [-> _]; apply put_list_pos).
  destruct (HF buf e s1) as (n2 & s2 & R2 & N2 & F2 & M2 & S2); try done; [lia..|].
  exists (n1 + n2)%nat, s2. split; [by eapply rounds_trans|]. split; [rewrite length_app; lia|]. split; [done|]. split; [|congruence].
  rewrite put_list_app. eapply near_trans; [exact M2|]. by apply near_put_list.
Qed.

Lemma prints_lit W depth l F args T : format_ok (Lit l :: F) -> prints W depth F args T -> prints W depth (Lit l :: F) args (l ++ T).
Proof.
  intros (Hl & Hp & HF) H. apply (prints_item W depth (Lit l) F args l args); [|done]. intros buf e s Ef Ea Haw He Hb Hsz HT1 HT2. cbn [item_text] in *.
  assert (Hd : format_decode (p_fmt s) (p_spec s) = (format_text F, set_type FORMAT_TYPE_NONE (p_spec s))).
  { assert (E : format_decode (p_fmt s) (p_spec s) = decode_start (p_fmt s) (p_spec s)) by (unfold format_decode; unfold awaits in Haw; by destruct (type (p_spec s))).
    rewrite E, Ef. unfold decode_start. rewrite literal_text; [|done|apply format_head; by destruct F as [|[]]]. by destruct l. }
  destruct (copy_literal_text e (p_out s) l) as [P M].
  exists 1%nat, (mkP (format_text F) (set_type FORMAT_TYPE_NONE (p_spec s)) (copy_literal e (p_out s) l) args (p_stores s)). split.
  { apply rounds_step; [rewrite Ef; by destruct l|]. unfold print_step. rewrite Hd. cbn [type set_type]. rewrite Ef, length_app, Nat.add_sub, take_app_length, Ea. done. }
  split; [destruct l; [done|cbn; lia]|]. do 3 (split; [done|]). split; [by apply near_same|done].
Qed.

Lemma prints_dir W depth d F args sp args1 t args2 T :
  world_ok W -> format_ok (Dir d :: F) -> Forall is_u32 args -> directive_spec d args = Some (sp, args1) -> spec_modest sp ->
  converts W d sp args1 t args2 -> prints W depth F args2 T -> prints W depth (Dir d :: F) args (t ++ T).
Proof.
  intros HW (Hd & Hal & HF) Hargs Hsp Hs Hc. apply prints_item. intros buf e s Ef Ea Haw He Hb Hsz HT1 HT2. cbn [item_text] in *. rewrite directive_split in Ef.
  pose proof (directive_spec_args _ _ _ _ Hargs Hsp) as Hargs1. pose proof (directive_spec_quiet _ _ _ _ Hsp) as Hq. subst args.
  destruct (directive_rounds W (deeper W depth) buf e d (d_ext d ++ format_text F) s sp args1 Hd Hsp Haw Ef) as (n & s1 & R & N & O1 & A1 & S1 & D1).
  rewrite <- A1 in Hargs1, Hc. destruct (convert_round W HW (deeper W depth) buf e d (format_text F) s1 sp t args2 Hd D1 Hs Hq Hargs1 Hal Hc) as (s2 & E2 & F2 & W2 & A2 & O2 & S2).
  exists (n + 1)%nat, s2. split; [eapply rounds_trans; [exact R|]; apply rounds_step; [apply D1|exact E2]|].
  split; [pose proof (directive_length d); lia|]. do 3 (split; [done|]). split; [|congruence]. rewrite O2, O1. apply near_refl.
Qed.

(** A nested format stores its text where the outer one goes on. *)
Lemma nested_near buf e o t m' : 0 <= buf <= pos o ->
  (let size := if pos o <? e then e - pos o else 0 in
   forall k, m' k = if (0 <? size) && (k =? pos o + Z.min (Z.of_nat (length t)) (size - 1)) then 0
                    else omem (put_list (pos o + size) (mkOut (omem o) (pos o)) t) k) ->
  near buf e (mkOut m' (pos o + Z.of_nat (length t))) (put_list e o t).
Proof.
  intros Hb Hm. destruct (put_list_mem e o t) as [P M]. split; [by rewrite P|]. intros k. cbn [pos omem]. rewrite M, Hm. clear Hm M P.
  destruct (put_list_mem (pos o + (if pos o <? e then e - pos o else 0)) (mkOut (omem o) (pos o)) t) as [_ M']. rewrite M'. cbn [pos omem].
  destruct (Z.ltb_spec (pos o) e).
  - rewrite (proj2 (Z.ltb_lt 0 (e - pos o))) by lia. cbn [andb]. destruct (Z.eqb_spec k (pos o + Z.min (Z.of_nat (length t)) (e - pos o - 1))); [left; lia|right].
    by replace (pos o + (e - pos o)) with e by lia.
  - cbn [Z.ltb Z.compare andb]. right. destruct (Z.leb_spec (pos o) k); [|done]. cbn [andb]. by rewrite !(proj2 (Z.ltb_ge k _)) by lia.
Qed.

Lemma prints_nested W depth d F args sp p args2 G va t T :
  world_ok W -> format_ok (Dir d :: F) -> Forall is_u32 args -> directive_spec d args = Some (sp, p :: args2) -> spec_modest sp -> d_conv d = 112 -> ch (d_ext d) 0 = 86 -> p <> 0 ->
  va_format_at W p = Some (format_text G, va) -> prints W depth G va t -> prints W (S depth) F args2 T -> prints W (S depth) (Dir d :: F) args (t ++ T).
Proof.
  intros HW (Hd & Hal & HF) Hargs Hsp Hs Hc Hx Hp Hva HG. apply prints_item. intros buf e s Ef Ea Haw He Hb Hsz HT1 HT2. cbn [item_text] in *. rewrite directive_split in Ef. subst args.
  destruct (directive_rounds W (deeper W (S depth)) buf e d (d_ext d ++ format_text F) s sp _ Hd Hsp Haw Ef) as (n & s1 & R & N & O1 & A1 & S1 & D1).
  destruct (pointer_round W (deeper W (S depth)) buf e d (format_text F) s1 sp p args2 Hd D1 Hc (Hal Hc) A1) as (b & q & E). cbv zeta in E.
  set (sp' := mkSpec _ _ _ _ _ _) in E. set (size := if pos (p_out s) <? e then e - pos (p_out s) else 0).
  assert (Hsize : 0 <= size < 2147483648 /\ pos (p_out s) + size < 4294967296) by (unfold size, is_u32 in *; destruct (Z.ltb_spec (pos (p_out s)) e); lia).
  destruct (prints_call W depth G va t HG (pos (p_out s)) size (omem (p_out s))) as (m' & Em & Hm); [lia..|].
  assert (Eptr : pointer W (deeper W (S depth)) (d_ext d) e (p_out s1) p sp' = Ok (mkOut m' (pos (p_out s) + Z.of_nat (length t)), [])).
  { unfold pointer. rewrite Hx, (proj2 (Z.eqb_neq p 0)) by done. cbn [andb orb Z.eqb Pos.eqb]. unfold va_format_string. rewrite Hva, O1. cbn [of_option rbind].
    fold size. cbn [deeper]. rewrite Em. done. }
  exists (n + 1)%nat, (mkP (format_text F) sp' (mkOut m' (pos (p_out s) + Z.of_nat (length t))) args2 (p_stores s1 ++ [])).
  split; [eapply rounds_trans; [exact R|]; apply rounds_step; [apply D1|]; rewrite E, Eptr; done|].
  split; [pose proof (directive_length d); lia|]. do 3 (split; [done|]). split; [by apply nested_near|]. cbn [p_stores]. rewrite app_nil_r. done.
Qed.

Lemma renders_prints W depth F args T : world_ok W -> renders W depth F args T -> format_ok F -> Forall is_u32 args -> prints W depth F args T.
Proof.
  intros HW H. induction H as [depth args|depth l F args T H IH|depth d F args sp args1 t args2 T Hsp Hs Hc H IH|depth d F args sp p args2 G va t T Hsp Hs Hc Hx Hp Hva HG Hva32 H1 IH1 H2 IH2]; intros HF Ha.
  - intros buf e s Ef Ea Haw He Hb Hsz HT1 HT2. exists 0%nat, s. split; [apply rounds_refl|]. split; [lia|]. split; [done|]. split; [apply near_refl|done].
  - apply prints_lit; [done|]. destruct HF as (_ & _ & HF). apply IH; [|done]. by destruct F as [|[]].
  - pose proof HF as (_ & _ & HF'). eapply prints_dir; eauto. apply IH; [done|]. eapply converts_args; [|exact Hc]. by eapply directive_spec_args.
  - pose proof HF as (_ & _ & HF'). eapply prints_nested; eauto. apply IH2; [done|]. pose proof (directive_spec_args _ _ _ _ Ha Hsp) as Hargs. by apply Forall_cons in Hargs as [_ ?].
Qed.

(** The call, with the memory it leaves. *)
Lemma vsnprintf_renders depth W buf size F args T m :
  world_ok W -> format_ok F -> Forall is_u32 args -> renders W depth F args T ->
  0 <= buf -> 0 <= size < 2147483648 -> buf + size < 4294967296 ->
  buf + Z.of_nat (length T) < 4294967296 -> Z.of_nat (length T) < 2147483648 ->
  exists m', vsnprintf depth W buf size (format_text F) args m = Ok (Z.of_nat (length T), m', []) /\
    forall k, m' k =
      let shown := Z.min (Z.of_nat (length T)) (size - 1) in
      if (buf <=? k) && (k <? buf + shown) then nth (Z.to_nat (k - buf)) T 0
      else if (0 <? size) && (k =? buf + shown) then 0 else m k.
Proof.
  intros HW HF Ha HR Hb Hsz Hend HT1 HT2. destruct (prints_call W depth F args T (renders_prints W depth F args T HW HR HF Ha) buf size m Hb Hsz Hend HT1 HT2) as (m' & E & Hm).
  exists m'. split; [done|]. intros k. rewrite Hm. cbv zeta. destruct (put_list_mem (buf + size) (mkOut m buf) T) as [_ ->]. cbn [pos omem].
  repeat match goal with
  | |- context [?x <=? ?y] => destruct (Z.leb_spec x y)
  | |- context [?x <? ?y] => destruct (Z.ltb_spec x y)
  | |- context [?x =? ?y] => destruct (Z.eqb_spec x y)
  end; cbn [andb]; done || lia.
Qed.
