(* ===== verification/VsnprintfTheorems.v ===== *)
(** * Theorems about formatted output

    What [vsnprintf] prints and where it stores, and where its integers are those of C99. *)

From Stdlib Require Import ZArith Lia Bool.
From stdpp Require Import base numbers list strings sets.
From S2P Require Import Prelude Kstrtox Vsprintf VsnprintfText Result Vsnprintf VsnprintfSafety VsnprintfSpec VsnprintfDecode VsnprintfRender.
Open Scope Z_scope.



(** [vscnprintf] returns the place of the terminator. *)
Theorem vscnprintf_counts depth W buf size fmt args m i m' st :
  world_ok W -> nesting W depth args -> Forall is_u32 args -> 0 <= buf -> 0 < size < 2147483648 -> buf + size < 4294967296 ->
  vscnprintf depth W buf size fmt args m = Ok (i, m', st) -> 0 <= i < size /\ m' (buf + i) = 0.
Proof.
  intros HW Hn Ha Hb Hsz Hend. unfold vscnprintf.
  pose proof (vsnprintf_stays depth W buf size fmt args m HW Hn Ha Hb ltac:(unfold is_u32; lia) ltac:(lia)) as H.
  destruct (vsnprintf _ _ _ _ _ _ _) as [[[n m1] st1]| | |] eqn:E; cbn in *; try done. destruct H as (H1 & _ & _ & H3). specialize (H3 Hsz Hend).
  assert (Hn2 : n < 4294967296).
  { destruct depth; cbn [vsnprintf] in E; unfold vsnprintf_with in E; (destruct (s32 size <? 0); [injection E as <- <- <-; lia|]); destruct (if _ <? buf then _ else _);
      (destruct (print_loop _ _ _ _ _ _); cbn [rbind] in E; try discriminate E); (destruct (_ && _) eqn:Ec; [|discriminate E]); apply andb_true_iff in Ec as [Ec _]; apply Z.ltb_lt in Ec; injection E as <- <- <-; lia. }
  rewrite u32_id by (unfold is_u32; lia). destruct (Z.ltb_spec n size).
  - intros [= <- <- <-]. rewrite Z.min_l in H3 by lia. done.
  - rewrite (proj2 (Z.eqb_neq size 0)) by lia. cbn [negb]. assert (Es : s32 (size - 1) = size - 1) by (unfold s32, u32; rewrite Z.mod_small by lia; by rewrite (proj2 (Z.ltb_lt _ _)) by lia).
    rewrite Es. intros [= <- <- <-]. rewrite Z.min_r in H3 by lia. split; [lia|done].
Qed.

(** ** An example *)

Definition demo_world : world :=
  mkWorld (fun p => if p =? 8192 then chars "eth0" ++ [0] else if p =? 12288 then [0x20; 0x01; 0x0d; 0xb8; 0; 0; 0; 0; 0; 0; 0; 0; 0; 0; 0; 1] else [])
    (fun p => if p =? 16384 then Some (chars "<%u>", [7]) else None) 0 false false.


Ltac by_decision := apply (bool_decide_eq_true_1 _); vm_compute; reflexivity.




Lemma modest_spec sp : (-10000 <=? field_width sp) && (field_width sp <=? 10000) && (-1 <=? precision sp) && (precision sp <=? 10000) = true -> spec_modest sp.
Proof. rewrite !andb_true_iff, !Z.leb_le. unfold spec_modest, modest. lia. Qed.








(** ** Where the dialect differs from C99 and from the comments *)

(** The count, the first [n] bytes of the buffer and the stores of [%n]. *)
Definition outcome (n : Z) (r : res printed) : option (Z * list Z * stores) :=
  match r with Ok (c, m, st) => Some (c, map m (seqZ 65536 n), st) | _ => None end.
Definition demo_print (size : Z) (fmt : String.string) (args : list Z) (n : Z) : option (Z * list Z * stores) :=
  outcome n (vsnprintf 1 demo_world 65536 size (chars fmt) args (fun _ => 170)).

(** [-1] of type [ssize_t] is printed as an unsigned number. *)
Example zd_is_unsigned : demo_print 16 "%zd" [u32 (-1)] 11 = Some (10, chars "4294967295" ++ [0], []).
Proof. vm_compute. reflexivity. Qed.

(** In general: a negative [ssize_t] is printed with 2^32 added. *)
Theorem zd_adds W depth v : -2147483648 <= v < 0 ->
  renders W depth [Dir (mkDir [] None None (chars "z") 100 [])] [u32 v] (numeral_text 10 0 (v + 4294967296)).
Proof.
  intros Hv. replace (numeral_text 10 0 (v + 4294967296)) with (int_text (mkSpec FORMAT_TYPE_NONE 0 10 255 (-1) (-1)) true 10 false (u32 v) ++ []).
  - eapply renders_dir; [reflexivity|by apply modest_spec| |constructor]. apply (conv_int _ _ _ true 10 false _ (u32 v)); [by_decision|reflexivity].
  - assert (E : u32 v = v + 4294967296) by (unfold u32; symmetry; apply (Z.mod_unique _ _ (-1)); lia). rewrite app_nil_r, E.
    unfold int_text. cbn [flags field_width precision]. rewrite (proj2 (Z.ltb_ge _ 0)), Z.abs_eq by lia. unfold layout. change (has 0 LEFT) with false. change (has 0 ZEROPAD) with false.
    change (has 0 PLUS) with false. change (has 0 SPACE) with false. change (has 0 SPECIAL) with false. cbn [length Nat.add app].
    replace (Z.to_nat (-1 - _)) with 0%nat by lia. replace (Z.to_nat (-1 - _)) with 0%nat by lia. done.
Qed.

(** [%ph] counts only what fits: 9 of 47 characters. *)
Example ph_counts_what_fits : demo_print 9 "%16ph" [12288] 9 = Some (9, chars "20 01 0d" ++ [0], []).
Proof. vm_compute. reflexivity. Qed.

(** Asked for the length of [%ph] with no buffer, it stores at address 0: [end - 1] is the
    highest address. *)
Example ph_stores_without_buffer :
  match vsnprintf 1 demo_world 0 0 (chars "%4ph") [12288] (fun _ => 170) with
  | Ok (n, m, _) => (n, map m (seqZ 0 4)) = (8, chars "2001")
  | _ => False
  end.
Proof. vm_compute. reflexivity. Qed.

(** [%n] is not ignored: the count is stored. *)
Example n_is_stored :
  match vsnprintf 1 demo_world 65536 16 (chars "abc%n") [20480] (fun _ => 170) with
  | Ok (n, m, _) => (n, map m (seqZ 20480 5)) = (3, [3; 0; 0; 0; 170])
  | _ => False
  end.
Proof. vm_compute. reflexivity. Qed.

(** A precision without digits is not zero, a negative one is. *)
Example empty_precision : demo_print 16 "%.s" [8192] 5 = Some (4, chars "eth0" ++ [0], []).
Proof. vm_compute. reflexivity. Qed.
Example negative_precision : demo_print 16 "%.*s" [u32 (-1); 8192] 1 = Some (0, [0], []).
Proof. vm_compute. reflexivity. Qed.

(** *** Integers as C99 prints them

    The text C99 asks for: no digits for zero with precision zero, [0x] only before a number
    that is not zero, a [0] before an octal number only when there is none, and no padding
    with zeros where a precision is given. *)

Definition c99_place (sgn pfx D : list Z) (sp : printf_spec) : list Z :=
  let extra := Z.to_nat (field_width sp - Z.of_nat (length sgn + length pfx + length D)) in
  if has (flags sp) LEFT then sgn ++ pfx ++ D ++ repeat 32 extra
  else if has (flags sp) ZEROPAD && (precision sp <? 0) then sgn ++ pfx ++ repeat 48 extra ++ D
  else repeat 32 extra ++ sgn ++ pfx ++ D.

Definition c99_int_text (sp : printf_spec) (signed : bool) (b : Z) (small : bool) (v : Z) : list Z :=
  let fl := flags sp in
  let lc := if small then 32 else 0 in
  let sgn := if signed then if v <? 0 then [45] else if has fl PLUS then [43] else if has fl SPACE then [32] else [] else [] in
  let D := if (v =? 0) && (precision sp =? 0) then [] else numeral_text b lc (Z.abs v) in
  let D := repeat 48 (Z.to_nat (precision sp - Z.of_nat (length D))) ++ D in
  let D := if has fl SPECIAL && (b =? 8) && negb (ch D 0 =? 48) then 48 :: D else D in
  let pfx := if has fl SPECIAL && (b =? 16) && negb (v =? 0) then [48; Z.lor 88 lc] else [] in
  c99_place sgn pfx D sp.

(** The cases in which [number] differs. *)
Definition zero_differs (sp : printf_spec) (b v : Z) : bool := (v =? 0) && ((precision sp =? 0) || has (flags sp) SPECIAL && (b =? 16)).
Definition padding_differs (sp : printf_spec) : bool := has (flags sp) ZEROPAD && negb (has (flags sp) LEFT) && (0 <=? precision sp).
Definition octal_differs (sp : printf_spec) (lc b v : Z) : bool :=
  has (flags sp) SPECIAL && (b =? 8) && negb (v =? 0) && (Z.of_nat (length (numeral_text b lc (Z.abs v))) <? precision sp).

Lemma le_digits_last fuel b v : 2 <= b -> 0 < v < b ^ Z.of_nat fuel -> exists l d, le_digits fuel b v = l ++ [d] /\ 0 < d < b.
Proof.
  intros Hb. revert v. induction fuel as [|fuel IH]; intros v Hv; [cbn in Hv; lia|]. cbn [le_digits]. destruct (Z.ltb_spec v b).
  - exists [], v. split; [done|lia].
  - destruct (IH (v `div` b)) as (l & d & E & Hd).
    { split; [apply Z.div_str_pos; lia|]. apply Z.div_lt_upper_bound; [lia|]. rewrite <- Z.pow_succ_r, <- Nat2Z.inj_succ by lia. lia. }
    exists (v `mod` b :: l), d. rewrite E. done.
Qed.

(** A number that is not zero does not begin with a zero. *)
Lemma octal_head lc v : lc = 0 \/ lc = 32 -> 0 < v < 2 ^ 64 -> ch (numeral_text 8 lc v) 0 <> 48.
Proof.
  intros Hl Hv. destruct (le_digits_last 22 8 v ltac:(lia) ltac:(change (8 ^ Z.of_nat 22) with (2 ^ 66); lia)) as (l & d & E & Hd).
  unfold numeral_text. rewrite E, map_app, rev_app_distr. cbn [map rev app ch nth]. intros Hc.
  pose proof (digit_char_of_val d lc ltac:(lia) Hl) as Hx. rewrite Hc in Hx. injection Hx as <-. lia.
Qed.

Lemma repeat_snoc (n : nat) (c : Z) (l : list Z) : repeat c n ++ c :: l = c :: repeat c n ++ l.
Proof. induction n as [|n IH]; cbn; [done|]. by rewrite IH. Qed.

Lemma layout_place sgn pfx N sp : padding_differs sp = false ->
  layout sgn pfx N (flags sp) (field_width sp) (precision sp) =
  c99_place sgn pfx (repeat 48 (Z.to_nat (precision sp - Z.of_nat (length N))) ++ N) sp.
Proof.
  intros Hp. unfold layout, c99_place, padding_differs in *. rewrite length_app, List.repeat_length.
  replace (Z.of_nat (_ + (_ + length N))) with (Z.of_nat (length sgn + length pfx) + Z.max (precision sp) (Z.of_nat (length N))) by lia. cbv zeta.
  destruct (has _ LEFT); [by rewrite !app_assoc|]. destruct (has _ ZEROPAD); cbn [andb negb] in *; [|done].
  apply Z.leb_gt in Hp. by rewrite (proj2 (Z.ltb_lt _ 0)).
Qed.

Lemma place_octal sgn N sp : c99_place sgn [48] N sp = c99_place sgn [] (48 :: N) sp.
Proof.
  unfold c99_place. cbn [length app]. rewrite <- plus_n_Sm, Nat.add_0_r, plus_Sn_m, plus_n_Sm, repeat_snoc. done.
Qed.

(** Outside these cases the text of an integer is that of C99. *)
Theorem int_text_c99 sp signed b (small : bool) v : b ∈ [8; 10; 16] -> Z.abs v < 2 ^ 64 ->
  zero_differs sp b v = false -> padding_differs sp = false -> octal_differs sp (if small then 32 else 0) b v = false ->
  int_text sp signed b small v = c99_int_text sp signed b small v.
Proof.
  intros Hb Hv Hz Hp Ho. unfold int_text, c99_int_text. set (lc := if small then 32 else 0) in *.
  assert (Hlc : lc = 0 \/ lc = 32) by (unfold lc; destruct small; auto). unfold zero_differs in Hz. unfold octal_differs in Ho.
  set (sgn := if signed then _ else _). clearbody sgn lc. rewrite layout_place by done.
  assert (ED : (v =? 0) && (precision sp =? 0) = false) by (destruct (v =? 0), (precision sp =? 0); done). rewrite ED.
  set (N := numeral_text b lc (Z.abs v)) in *. destruct (has (flags sp) SPECIAL) eqn:Es; cbn [andb]; [|done].
  apply list_elem_of_In in Hb as [<-|[<-|[<-|[]]]]; cbn [Z.eqb Pos.eqb andb] in *; [|done|].
  - destruct (Z.eqb_spec v 0) as [->|Hne]; cbn [negb andb] in *.
    + assert (EN : N = [48]) by (unfold N; by destruct Hlc as [-> | ->]).
      rewrite EN. destruct (Z.to_nat _); done.
    + apply Z.ltb_ge in Ho. replace (Z.to_nat (precision sp - Z.of_nat (length N))) with 0%nat by lia. cbn [repeat app].
      pose proof (octal_head lc (Z.abs v) Hlc ltac:(lia)) as Hh. fold N in Hh. apply Z.eqb_neq in Hh. rewrite Hh. apply place_octal.
  - rewrite orb_true_r, andb_true_r in Hz. by rewrite Hz.
Qed.

(** The arguments differ for a negative [ssize_t] and a negative [ptrdiff_t] printed as an
    unsigned number only. *)
Definition c99_int_arg (qual : list Z) (signed : bool) (args : list Z) : option (Z * list Z) :=
  match args with
  | a :: args' =>
      if bool_decide (qual = chars "z") || bool_decide (qual = chars "Z") || bool_decide (qual = chars "t") then Some (if signed then s32 a else a, args')
      else int_arg qual signed args
  | [] => None
  end.

Theorem int_arg_c99 qual signed a args : is_u32 a -> a < 2147483648 \/ qual ∉ map chars ["z"; "Z"; "t"]%string ->
  int_arg qual signed (a :: args) = c99_int_arg qual signed (a :: args).
Proof.
  intros Ha Hq. unfold c99_int_arg. destruct (_ || _ || _) eqn:E; [|done].
  assert (Hin : qual ∈ map chars ["z"; "Z"; "t"]%string).
  { rewrite !orb_true_iff, !bool_decide_eq_true in E. cbn [map]. set_solver. }
  destruct Hq as [Hq|Hq]; [|done]. assert (Es : s32 a = a).
  { unfold s32. rewrite u32_id by done. by rewrite (proj2 (Z.ltb_lt _ _)). }
  assert (Eu : u64 a = a) by (unfold u64; apply Z.mod_small; unfold is_u32 in Ha; lia).
  unfold int_arg. apply list_elem_of_In in Hin. rewrite Es.
  destruct Hin as [<-|[<-|[<-|[]]]]; cbn; rewrite ?Eu; by destruct signed.
Qed.

(** Each of the cases. *)
Example hex_of_zero : demo_print 16 "%#x" [0] 4 = Some (3, chars "0x0" ++ [0], []).
Proof. vm_compute. reflexivity. Qed.
Example zero_without_digits : demo_print 16 "%.0d" [0] 2 = Some (1, chars "0" ++ [0], []).
Proof. vm_compute. reflexivity. Qed.
Example zeros_and_precision : demo_print 16 "%08.3d" [5] 9 = Some (8, chars "00000005" ++ [0], []).
Proof. vm_compute. reflexivity. Qed.
Example octal_and_precision : demo_print 16 "%#.3o" [8] 5 = Some (4, chars "0010" ++ [0], []).
Proof. vm_compute. reflexivity. Qed.
Example ptrdiff_is_widened : demo_print 32 "%tx" [u32 (-1)] 17 = Some (16, chars "ffffffffffffffff" ++ [0], []).
Proof. vm_compute. reflexivity. Qed.
