(* ===== verification/Vsscanf.v ===== *)
(** * Formatted input: vsscanf of lib/vsprintf.c

    The input and the format are C strings without their terminators; reading past the
    last character gives the terminator.  The arguments are the pointers the call stores
    to; a store is an address and the bytes written from it.  [Fault] is a missing
    argument. *)

From Stdlib Require Import ZArith Lia Bool.
From stdpp Require Import base numbers list strings.
From S2P Require Import Prelude Kstrtox Vsprintf Result Vsnprintf.
Open Scope Z_scope.

(** ** White space (lib/ctype.c, lib/string.c) *)

Definition isspace (c : Z) : bool := (9 <=? c) && (c <=? 13) || (c =? 32) || (c =? 160).

Fixpoint skip_spaces (str : list Z) : list Z :=
  match str with c :: str' => if isspace c then skip_spaces str' else str | [] => [] end.

(** ** Stores *)

Notation writes := (list (Z * list Z)).

(** The bytes of an integer in memory. *)
Fixpoint le_bytes (n : nat) (v : Z) : list Z :=
  match n with O => [] | S n => v `mod` 256 :: le_bytes n (v `div` 256) end.

Record scanning := mkS { s_fmt : list Z; s_str : list Z; s_args : list Z; s_num : Z; s_writes : writes }.

(** A round of the loop goes on, or leaves it. *)
Inductive round := Continue (s : scanning) | Break (s : scanning).

(** ** The parts of a conversion *)

(** [%*]: both strings move to the next white space, the format also to a [%]. *)
Fixpoint skip_conversion (fmt : list Z) : list Z :=
  match fmt with c :: fmt' => if negb (isspace c) && negb (c =? 37) then skip_conversion fmt' else fmt | [] => [] end.
Fixpoint skip_word (str : list Z) : list Z :=
  match str with c :: str' => if negb (isspace c) then skip_word str' else str | [] => [] end.

(** The field width is an [s16]. *)
Definition scan_width (fmt : list Z) : Z * list Z :=
  if isdigit (ch fmt 0) then let '(w, fmt) := skip_atoi 0 fmt in (s16 w, fmt) else (-1, fmt).

Definition scan_qualifier (fmt : list Z) : Z * list Z :=
  let c := ch fmt 0 in
  if (c =? 104) || (tolower_ c =? 108) || (tolower_ c =? 122) then
    let fmt := drop 1 fmt in
    if c =? ch fmt 0 then
      if c =? 104 then (72, drop 1 fmt) else if c =? 108 then (76, drop 1 fmt) else (c, fmt)
    else (c, fmt)
  else (255, fmt).

(** The loop of [%c] stores a character, then more while the width and the input last:
    what is stored and what is left. *)
Fixpoint scan_chars (str : list Z) (field_width : Z) : list Z * list Z :=
  match str with
  | [] => ([], [])
  | c :: str =>
      let field_width := s16 (field_width - 1) in
      if (0 <? field_width) && negb (ch str 0 =? 0) then
        let '(l, str) := scan_chars str field_width in (c :: l, str)
      else ([c], str)
  end.

(** The loop of [%s]. *)
Fixpoint scan_word (str : list Z) (field_width : Z) : list Z * list Z :=
  match str with
  | c :: str' =>
      if negb (isspace c) && negb (field_width =? 0) then
        let '(l, str) := scan_word str' (s16 (field_width - 1)) in (c :: l, str)
      else ([], str)
  | [] => ([], [])
  end.

(** Radix and sign of an integer conversion. *)
Definition scan_radix (c : Z) : option (Z * bool) :=
  if c =? 111 then Some (8, false)
  else if (c =? 120) || (c =? 88) then Some (16, false)
  else if c =? 105 then Some (0, true)
  else if c =? 100 then Some (10, true)
  else if c =? 117 then Some (10, false)
  else None.

(** Is there a number at all? *)
Definition starts_number (str : list Z) (base : Z) (is_sign : bool) : bool :=
  let digit := if is_sign && (ch str 0 =? 45) then ch str 1 else ch str 0 in
  negb ((digit =? 0)
        || (base =? 16) && negb (isxdigit digit)
        || (base =? 10) && negb (isdigit digit)
        || (base =? 8) && (negb (isdigit digit) || (55 <? digit))
        || (base =? 0) && negb (isdigit digit)).

(** The bytes stored and [next]. *)
Definition scan_number (qualifier : Z) (is_sign : bool) (str : list Z) (base : Z) : list Z * list Z :=
  let bytes n '(v, next) := (le_bytes n v, next) in
  if qualifier =? 72 then if is_sign then bytes 1%nat (simple_strtol str base) else bytes 1%nat (simple_strtoul str base)
  else if qualifier =? 104 then if is_sign then bytes 2%nat (simple_strtol str base) else bytes 2%nat (simple_strtoul str base)
  else if qualifier =? 108 then if is_sign then bytes 4%nat (simple_strtol str base) else bytes 4%nat (simple_strtoul str base)
  else if qualifier =? 76 then if is_sign then bytes 8%nat (simple_strtoll str base) else bytes 8%nat (simple_strtoull str base)
  else if (qualifier =? 90) || (qualifier =? 122) then bytes 4%nat (simple_strtoul str base)
  else if is_sign then bytes 4%nat (simple_strtol str base) else bytes 4%nat (simple_strtoul str base).

(** ** The loop *)

(** The conversion after its qualifier. *)
Definition scan_conversion (field_width qualifier : Z) (s : scanning) : res round :=
  let '(mkS fmt str args num w) := s in
  let c := ch fmt 0 in
  let fmt := drop 1 fmt in
  if c =? 99 then
    let* (p, args) := va_arg args in
    let '(l, str) := scan_chars str (if field_width =? -1 then 1 else field_width) in
    Ok (Continue (mkS fmt str args (num + 1) (w ++ [(p, l)])))
  else if c =? 115 then
    let* (p, args) := va_arg args in
    let '(l, str) := scan_word (skip_spaces str) (if field_width =? -1 then 32767 else field_width) in
    Ok (Continue (mkS fmt str args (num + 1) (w ++ [(p, l ++ [0])])))
  else if c =? 37 then
    Ok ((if ch str 0 =? 37 then Continue else Break) (mkS fmt (drop 1 str) args num w))
  else
    match scan_radix c with
    | None => Ok (Break (mkS fmt str args num w))
    | Some (base, is_sign) =>
        let str := skip_spaces str in
        if starts_number str base is_sign then
          let* (p, args) := va_arg args in
          let '(l, next) := scan_number qualifier is_sign str base in
          Ok (Continue (mkS fmt next args (num + 1) (w ++ [(p, l)])))
        else Ok (Break (mkS fmt str args num w))
    end.

(** What follows the white space; [buf_len] is the length of the whole input. *)
Definition scan_item (buf_len : Z) (s : scanning) : res round :=
  let '(mkS fmt str args num w) := s in
  if negb (ch fmt 0 =? 37) && negb (ch fmt 0 =? 0) then
    Ok ((if ch fmt 0 =? ch str 0 then Continue else Break) (mkS (drop 1 fmt) (drop 1 str) args num w))
  else if ch fmt 0 =? 0 then Ok (Break s)
  else
    let fmt := drop 1 fmt in
    if ch fmt 0 =? 42 then
      if ch str 0 =? 0 then Ok (Break (mkS fmt str args num w))
      else Ok (Continue (mkS (skip_conversion fmt) (skip_word str) args num w))
    else
      let '(field_width, fmt) := scan_width fmt in
      let '(qualifier, fmt) := scan_qualifier fmt in
      if ch fmt 0 =? 0 then Ok (Break (mkS fmt str args num w))
      else if ch fmt 0 =? 110 then
        let* (p, args) := va_arg args in
        Ok (Continue (mkS (drop 1 fmt) str args num (w ++ [(p, le_bytes 4 (buf_len - Z.of_nat (length str)))])))
      else if ch str 0 =? 0 then Ok (Break (mkS fmt str args num w))
      else scan_conversion field_width qualifier (mkS fmt str args num w).

(** A round of the loop. *)
Definition scan_step (buf_len : Z) (s : scanning) : res round :=
  let '(mkS fmt str args num w) := s in
  if isspace (ch fmt 0) then scan_item buf_len (mkS (skip_spaces (drop 1 fmt)) (skip_spaces str) args num w)
  else scan_item buf_len s.

Fixpoint scan_loop (fuel : nat) (buf_len : Z) (s : scanning) : res scanning :=
  match fuel with
  | O => Stuck
  | S fuel =>
      if ch (s_fmt s) 0 =? 0 then Ok s
      else let* r := scan_step buf_len s in match r with Continue s => scan_loop fuel buf_len s | Break s => Ok s end
  end.

(** Every round consumes a character of the format. *)
Definition vsscanf (buf fmt args : list Z) : res (Z * writes) :=
  let* s := scan_loop (S (length fmt)) (Z.of_nat (length buf)) (mkS fmt buf args 0 []) in
  Ok (s_num s, s_writes s).
Definition sscanf := vsscanf.
