(* ===== verification/VsscanfProofs.v ===== *)
(** * Lemmas about formatted input

    Every round of the loop of [vsscanf] shortens the format and stores at most once; and
    the text of plain integer conversions is read back as it was printed. *)

From Stdlib Require Import ZArith Lia Bool.
From stdpp Require Import base numbers list strings sets.
From S2P Require Import Prelude Kstrtox Vsprintf Result Vsnprintf VsnprintfText VsnprintfSafety VsnprintfSpec VsnprintfDecode Vsscanf.
Open Scope Z_scope.

(** ** Progress of the loop *)

Definition percents (fmt : list Z) : nat := length (List.filter (Z.eqb 37) fmt).

Lemma percents_app l1 l2 : percents (l1 ++ l2) = (percents l1 + percents l2)%nat.
Proof. unfold percents. by rewrite List.filter_app, length_app. Qed.

(** [r] is an end of [l]. *)
Definition tail_of (r l : list Z) : Prop := exists d, l = d ++ r.

Lemma tail_refl l : tail_of l l.
Proof. by exists []. Qed.
Lemma tail_trans r l k : tail_of r l -> tail_of l k -> tail_of r k.
Proof. intros [d ->] [e ->]. exists (e ++ d). by rewrite app_assoc. Qed.
Lemma tail_drop n l : tail_of (drop n l) l.
Proof. exists (take n l). by rewrite take_drop. Qed.
Lemma tail_cons c r l : tail_of r l -> tail_of r (c :: l).
Proof. intros [d ->]. by exists (c :: d). Qed.
Lemma tail_length r l : tail_of r l -> (length r <= length l)%nat.
Proof. intros [d ->]. rewrite length_app. lia. Qed.
Lemma tail_percents r l : tail_of r l -> (percents r <= percents l)%nat.
Proof. intros [d ->]. rewrite percents_app. lia. Qed.
#[export] Hint Resolve tail_refl tail_drop tail_cons : scan.

Lemma tail_skip_spaces l : tail_of (skip_spaces l) l.
Proof. induction l as [|c l IH]; cbn; [auto with scan|]. destruct (isspace c); auto with scan. Qed.
Lemma tail_skip_conversion l : tail_of (skip_conversion l) l.
Proof. induction l as [|c l IH]; cbn; [auto with scan|]. destruct (_ && _); auto with scan. Qed.
Lemma tail_skip_word l : tail_of (skip_word l) l.
Proof. induction l as [|c l IH]; cbn; [auto with scan|]. destruct (negb _); auto with scan. Qed.
Lemma tail_skip_atoi i l : tail_of (skip_atoi i l).2 l.
Proof. revert i. induction l as [|c l IH]; intros i; cbn; [auto with scan|]. destruct (isdigit c); cbn; auto with scan. Qed.
Lemma tail_scan_width l : tail_of (scan_width l).2 l.
Proof. unfold scan_width. destruct (isdigit _); [|auto with scan]. pose proof (tail_skip_atoi 0 l). by destruct (skip_atoi 0 l). Qed.
Lemma tail_scan_qualifier l : tail_of (scan_qualifier l).2 l.
Proof.
  unfold scan_qualifier. cbv zeta. destruct (_ || _); [|auto with scan].
  repeat (destruct (_ =? _); cbn [snd]); rewrite ?drop_drop; auto with scan.
Qed.

(** What is stored of a word and what is left. *)
Lemma scan_chars_split l w : l = (scan_chars l w).1 ++ (scan_chars l w).2.
Proof.
  revert w. induction l as [|c l IH]; intros w; cbn; [done|]. destruct (_ && _); [|done].
  specialize (IH (s16 (w - 1))). destruct (scan_chars l _) as [x y]. cbn in *. by rewrite <- IH.
Qed.
Lemma scan_chars_some l w : l <> [] -> (1 <= length (scan_chars l w).1)%nat.
Proof. destruct l as [|c l]; intros H; [done|]. cbn [scan_chars]. destruct (_ && _); [|cbn; lia]. destruct (scan_chars l _). cbn. lia. Qed.
Lemma scan_word_split l w : l = (scan_word l w).1 ++ (scan_word l w).2.
Proof.
  revert w. induction l as [|c l IH]; intros w; cbn; [done|]. destruct (_ && _); [|done].
  specialize (IH (s16 (w - 1))). destruct (scan_word l _) as [x y]. cbn in *. by rewrite <- IH.
Qed.

Lemma le_bytes_length n v : length (le_bytes n v) = n.
Proof. revert v. induction n as [|n IH]; intros v; cbn; [done|]. by rewrite IH. Qed.

Lemma tail_strtoull l b : tail_of (simple_strtoull l b).2 l.
Proof.
  unfold simple_strtoull, parse_integer_fixup_radix. cbv zeta.
  set (b' := if b =? 0 then _ else b). destruct (_ && _ && _); destruct (parse_integer _ _) as [x y]; cbn [snd]; rewrite ?drop_drop; auto with scan.
Qed.
Lemma tail_strtoul l b : tail_of (simple_strtoul l b).2 l.
Proof. unfold simple_strtoul. pose proof (tail_strtoull l b). by destruct (simple_strtoull l b). Qed.
Lemma tail_strtol l b : tail_of (simple_strtol l b).2 l.
Proof.
  unfold simple_strtol. pose proof (tail_strtoul l b). pose proof (tail_trans _ _ _ (tail_strtoul (drop 1 l) b) (tail_drop 1 l)).
  destruct (ch l 0 =? 45); [by destruct (simple_strtoul (drop 1 l) b)|by destruct (simple_strtoul l b)].
Qed.
Lemma tail_strtoll l b : tail_of (simple_strtoll l b).2 l.
Proof.
  unfold simple_strtoll. pose proof (tail_strtoull l b). pose proof (tail_trans _ _ _ (tail_strtoull (drop 1 l) b) (tail_drop 1 l)).
  destruct (ch l 0 =? 45); [by destruct (simple_strtoull (drop 1 l) b)|by destruct (simple_strtoull l b)].
Qed.

(** An integer is one to eight bytes. *)
Lemma scan_number_split q sg l b :
  (1 <= length (scan_number q sg l b).1 <= 8)%nat /\ tail_of (scan_number q sg l b).2 l.
Proof.
  pose proof (tail_strtol l b) as T1. pose proof (tail_strtoul l b) as T2. pose proof (tail_strtoll l b) as T3. pose proof (tail_strtoull l b) as T4.
  unfold scan_number. cbv zeta. destruct (simple_strtol l b), (simple_strtoul l b), (simple_strtoll l b), (simple_strtoull l b).
  repeat (destruct (_ =? _)); destruct sg; cbn [fst snd orb]; rewrite ?le_bytes_length; split; done || lia.
Qed.

(** One round: at most one store, to the next argument; the format gets shorter. *)
Record advances (s s' : scanning) : Prop := {
  ad_fmt : tail_of (s_fmt s') (s_fmt s);
  ad_str : tail_of (s_str s') (s_str s);
  ad_new : exists l, s_writes s' = s_writes s ++ l /\ s_args s = l.*1 ++ s_args s' /\
             (length l + percents (s_fmt s') <= percents (s_fmt s))%nat /\ s_num s <= s_num s' <= s_num s + Z.of_nat (length l) /\
             Forall (fun x => 1 <= Z.of_nat (length x.2) <= Z.max 8 (Z.of_nat (length (s_str s)) + 1)) l
}.

Lemma advances_plain s fmt str :
  tail_of fmt (s_fmt s) -> tail_of str (s_str s) -> advances s (mkS fmt str (s_args s) (s_num s) (s_writes s)).
Proof.
  intros Hf Hs. split; [done..|]. exists []. cbn. rewrite app_nil_r. pose proof (tail_percents _ _ Hf). split_and!; done || lia.
Qed.

Lemma advances_write s f fmt str p args num l :
  s_fmt s = 37 :: f -> s_args s = p :: args -> tail_of fmt f -> tail_of str (s_str s) ->
  1 <= Z.of_nat (length l) <= Z.max 8 (Z.of_nat (length (s_str s)) + 1) -> s_num s <= num <= s_num s + 1 ->
  advances s (mkS fmt str args num (s_writes s ++ [(p, l)])).
Proof.
  intros Ef Ea Hf Hs Hl Hn. split; cbn [s_fmt s_num s_writes s_args s_str]; [rewrite Ef; auto with scan|done|]. exists [(p, l)]. pose proof (tail_percents _ _ Hf) as Hp.
  rewrite Ef. change (percents (37 :: f)) with (S (percents f)). cbn [length fmap list_fmap fst app s_fmt s_num s_writes s_args]. split_and!; try (done || lia). apply Forall_singleton. exact Hl.
Qed.

Lemma advances_trans s1 s2 s3 : advances s1 s2 -> advances s2 s3 -> advances s1 s3.
Proof.
  intros [F1 S1 (l1 & W1 & A1 & P1 & N1 & B1)] [F2 S2 (l2 & W2 & A2 & P2 & N2 & B2)]. split; [by eapply tail_trans..|].
  exists (l1 ++ l2). rewrite W2, W1, A1, A2, fmap_app, !app_assoc, length_app. pose proof (tail_length _ _ S1).
  split_and!; try (done || lia). apply Forall_app. split; [done|]. eapply Forall_impl; [exact B2|]. cbn. lia.
Qed.

(** A round from [s]; a missing argument is the only failure. *)
Definition round_ok (s : scanning) (r : res round) : Prop :=
  match r with
  | Ok (Continue s') => advances s s' /\ (length (s_fmt s') < length (s_fmt s))%nat
  | Ok (Break s') => advances s s'
  | Fault => s_args s = [] /\ (1 <= percents (s_fmt s))%nat
  | Stuck | Panic => False
  end.

(** A conversion that stores through the next argument. *)
Lemma round_write s f fmt str n (l : list Z) :
  s_fmt s = 37 :: f -> tail_of fmt f -> tail_of str (s_str s) ->
  1 <= Z.of_nat (length l) <= Z.max 8 (Z.of_nat (length (s_str s)) + 1) -> 0 <= n <= 1 ->
  round_ok s (let* (p, args) := va_arg (s_args s) in Ok (Continue (mkS fmt str args (s_num s + n) (s_writes s ++ [(p, l)])))).
Proof.
  intros Ef Hf Hs Hl Hn. destruct (s_args s) as [|p args] eqn:Ea; cbn [va_arg rbind round_ok s_fmt].
  - rewrite Ea, Ef. split; [done|]. change (percents (37 :: f)) with (S (percents f)). lia.
  - split; [by apply (advances_write s f); try done; lia|]. pose proof (tail_length _ _ Hf). rewrite Ef. cbn [length]. lia.
Qed.

Lemma round_conversion s f fmt w q :
  s_fmt s = 37 :: f -> tail_of fmt f -> s_str s <> [] ->
  round_ok s (scan_conversion w q (mkS fmt (s_str s) (s_args s) (s_num s) (s_writes s))).
Proof.
  intros Ef Hf Hs. unfold scan_conversion. cbv zeta. pose proof (tail_trans _ _ _ (tail_drop 1 fmt) Hf) as Hf1.
  assert (Hf2 : tail_of (drop 1 fmt) (s_fmt s)) by (rewrite Ef; auto with scan).
  assert (Hlen : (length (drop 1 fmt) < length (s_fmt s))%nat) by (pose proof (tail_length _ _ Hf1); rewrite Ef; cbn [length]; lia).
  pose proof (tail_skip_spaces (s_str s)) as Hsp. destruct (_ =? 99); [|destruct (_ =? 115); [|destruct (_ =? 37)]].
  - set (w' := if w =? -1 then _ else _). pose proof (scan_chars_split (s_str s) w') as E.
    assert (Hne : (1 <= length (scan_chars (s_str s) w').1)%nat) by by apply scan_chars_some.
    destruct (scan_chars (s_str s) w') as [l str]. cbn [fst snd] in *. apply (round_write s f _ _ 1); try (done || lia); [by exists l|].
    rewrite E, length_app. lia.
  - set (w' := if w =? -1 then _ else _). pose proof (scan_word_split (skip_spaces (s_str s)) w') as E. pose proof (tail_length _ _ Hsp) as Hl.
    destruct (scan_word _ w') as [l str]. cbn [fst snd] in *. apply (round_write s f _ _ 1); try (done || lia).
    + eapply tail_trans; [|exact Hsp]. by exists l.
    + rewrite E, length_app in Hl. rewrite length_app. cbn [length]. lia.
  - destruct (_ =? 37); cbn [round_ok s_fmt]; [split; [|done]|]; apply advances_plain; auto with scan.
  - destruct (scan_radix _) as [[b sg]|]; [|cbn [round_ok]; by apply advances_plain; [|apply tail_refl]].
    destruct (starts_number _ _ _); [|cbn [round_ok]; by apply advances_plain].
    destruct (scan_number_split q sg (skip_spaces (s_str s)) b) as [Hl Ht]. destruct (scan_number q sg _ b) as [l str]. cbn [fst snd] in *.
    apply (round_write s f _ _ 1); try (done || lia). by eapply tail_trans.
Qed.

Lemma ch_some l : ch l 0 <> 0 -> l = ch l 0 :: drop 1 l.
Proof. destruct l; cbn; [done|]. by rewrite drop_0. Qed.

Lemma round_item L s : round_ok s (scan_item L s).
Proof.
  destruct s as [fmt str args num w]. cbn [scan_item]. destruct (Z.eqb_spec (ch fmt 0) 37) as [E|E]; cbn [negb andb].
  - rewrite E. cbn [Z.eqb Pos.eqb]. pose proof (ch_some fmt ltac:(lia)) as Ef. rewrite E in Ef. set (f := drop 1 fmt) in *. clearbody f. subst fmt.
    set (s := mkS (37 :: f) str args num w). destruct (ch f 0 =? 42).
    { destruct (ch str 0 =? 0); cbn [round_ok]; [apply (advances_plain s); cbn; auto with scan|].
      pose proof (tail_skip_conversion f) as Hc. split; [apply (advances_plain s); cbn; [auto with scan|apply tail_skip_word]|].
      apply tail_length in Hc. cbn. lia. }
    pose proof (tail_scan_width f) as T1. destruct (scan_width f) as [fw f1]. pose proof (tail_scan_qualifier f1) as T2. destruct (scan_qualifier f1) as [q f2].
    cbn [snd] in *. pose proof (tail_trans _ _ _ T2 T1) as T3. destruct (ch f2 0 =? 0); [apply (advances_plain s); cbn; auto with scan|].
    destruct (ch f2 0 =? 110).
    { pose proof (round_write s f (drop 1 f2) str 0 (le_bytes 4 (L - Z.of_nat (length str))) eq_refl) as H. cbn [s_args s_num s_writes s_str s] in H. rewrite Z.add_0_r in H.
      apply H; try (auto with scan || lia); [by eapply tail_trans; [apply tail_drop|]|]. rewrite le_bytes_length. lia. }
    destruct (Z.eqb_spec (ch str 0) 0) as [E0|E0]; [apply (advances_plain s); cbn; auto with scan|].
    apply (round_conversion s f); [done|done|]. cbn. by intros ->.
  - destruct (Z.eqb_spec (ch fmt 0) 0) as [E0|E0]; cbn [negb]; [apply (advances_plain (mkS fmt str args num w)); apply tail_refl|].
    pose proof (advances_plain (mkS fmt str args num w) (drop 1 fmt) (drop 1 str) (tail_drop _ _) (tail_drop _ _)) as H. cbn [s_args s_num s_writes] in H.
    destruct (_ =? _); cbn [round_ok s_fmt]; [|done]. split; [done|]. rewrite (ch_some fmt E0) at 2. cbn. lia.
Qed.

Lemma scan_step_round L s : ch (s_fmt s) 0 <> 0 -> round_ok s (scan_step L s).
Proof.
  destruct s as [fmt str args num w]. cbn [s_fmt scan_step]. intros Hc. destruct (isspace (ch fmt 0)); [|apply round_item].
  set (s1 := mkS (skip_spaces (drop 1 fmt)) (skip_spaces str) args num w). pose proof (round_item L s1) as H.
  pose proof (tail_trans _ _ _ (tail_skip_spaces (drop 1 fmt)) (tail_drop 1 fmt)) as T.
  assert (Ha : advances (mkS fmt str args num w) s1) by (apply (advances_plain (mkS fmt str args num w)); [done|apply tail_skip_spaces]).
  pose proof (tail_length _ _ T) as Hl. pose proof (tail_percents _ _ T) as Hp. cbn [s_fmt s_args s1] in *.
  destruct (scan_item L s1) as [[s2|s2]| | |]; cbn [round_ok s_fmt s_args s1] in *; try done.
  - destruct H as [H1 H2]. split; [by eapply advances_trans|lia].
  - by eapply advances_trans.
  - split; [tauto|lia].
Qed.

Lemma scan_loop_ok fuel L s : (length (s_fmt s) < fuel)%nat ->
  match scan_loop fuel L s with
  | Ok s' => advances s s'
  | Fault => (length (s_args s) < percents (s_fmt s))%nat
  | Stuck | Panic => False
  end.
Proof.
  revert s. induction fuel as [|fuel IH]; intros s Hf; [lia|]. cbn [scan_loop]. destruct (Z.eqb_spec (ch (s_fmt s) 0) 0) as [E|E].
  { pose proof (advances_plain s (s_fmt s) (s_str s) (tail_refl _) (tail_refl _)). by destruct s. }
  pose proof (scan_step_round L s E) as H. destruct (scan_step L s) as [[s1|s1]| | |]; cbn [rbind round_ok] in *; try done.
  - destruct H as [H1 H2]. specialize (IH s1 ltac:(lia)). destruct (scan_loop fuel L s1); try done; [by eapply advances_trans|].
    destruct (ad_new _ _ H1) as (l & _ & -> & P & _). rewrite length_app, length_fmap. lia.
  - destruct H as [-> H2]. cbn. lia.
Qed.

(** ** Reading back what was printed

    Formats of literal text and plain integer conversions, where no digit follows a
    number: the text printed from the arguments, scanned with the same format, gives the
    bytes of the arguments. *)

(** ** The formats *)

(** The integer sizes both functions know. *)
Definition scan_qualifiers : list (list Z) := map chars ["";"h";"hh";"l";"ll";"L";"z";"Z"]%string.
Definition int_size (q : list Z) : nat :=
  if bool_decide (q = chars "hh") then 1 else if bool_decide (q = chars "h") then 2
  else if bool_decide (q = chars "ll") || bool_decide (q = chars "L") then 8 else 4.

(** A directive without flags, width and precision. *)
Definition int_field (d : directive) : Prop :=
  exists q c, d = mkDir [] None None q c [] /\ q ∈ scan_qualifiers /\ c ∈ chars "diuoxX".

(** What follows a number does not continue it. *)
Definition number_ends (F : list item) : Prop :=
  match F with
  | [] => True
  | Lit l :: _ => isalnum (ch l 0) = false
  | Dir _ :: _ => False
  end.

Fixpoint scannable (F : list item) : Prop :=
  match F with
  | [] => True
  | Lit l :: F => cstring l /\ scannable F
  | Dir d :: F => int_field d /\ number_ends F /\ scannable F
  end.

(** The bytes of the arguments a format prints. *)
Fixpoint arguments (F : list item) (args : list Z) : option (list (list Z)) :=
  match F with
  | [] => Some []
  | Lit _ :: F => arguments F args
  | Dir d :: F =>
      let n := int_size (d_qual d) in
      if (n =? 8)%nat then
        match args with a :: b :: args => cons (le_bytes n (a + 4294967296 * b)) <$> arguments F args | _ => None end
      else match args with a :: args => cons (le_bytes n a) <$> arguments F args | [] => None end
  end.

(** ** Bytes *)

Lemma le_bytes_mod n v w : v `mod` 256 ^ Z.of_nat n = w `mod` 256 ^ Z.of_nat n -> le_bytes n v = le_bytes n w.
Proof.
  revert v w. induction n as [|n IH]; intros v w H; [done|]. cbn [le_bytes]. rewrite Nat2Z.inj_succ, Z.pow_succ_r in H by lia.
  set (M := 256 ^ Z.of_nat n) in *. assert (HM : 0 < M) by (apply Z.pow_pos_nonneg; lia).
  rewrite !Z.rem_mul_r in H by lia. pose proof (Z.mod_pos_bound v 256 ltac:(lia)). pose proof (Z.mod_pos_bound w 256 ltac:(lia)).
  assert (E : v `mod` 256 = w `mod` 256) by lia. f_equal; [done|]. apply IH. fold M. lia.
Qed.

Lemma le_bytes_u32 n v : (n <= 4)%nat -> le_bytes n (u32 v) = le_bytes n v.
Proof.
  intros Hn. apply le_bytes_mod. unfold u32. assert (n = 0 \/ n = 1 \/ n = 2 \/ n = 3 \/ n = 4)%nat as Hc by lia.
  destruct_or! Hc; subst n; zcalc; zlia.
Qed.
Lemma le_bytes_s32 n v : (n <= 4)%nat -> le_bytes n (s32 v) = le_bytes n v.
Proof. intros Hn. rewrite <- (le_bytes_u32 n (s32 v)), <- (le_bytes_u32 n v) by done. f_equal. unfold s32, u32. destruct (_ <? _); zlia. Qed.
Lemma le_bytes_neg n v : (n <= 4)%nat -> le_bytes n (s32 (- u32 v)) = le_bytes n (- v).
Proof.
  intros Hn. rewrite le_bytes_s32, <- (le_bytes_u32 n (- u32 v)), <- (le_bytes_u32 n (- v)) by done. f_equal. unfold u32. zlia.
Qed.
Lemma le_bytes_s64 v : le_bytes 8 (s64 v) = le_bytes 8 v.
Proof. apply le_bytes_mod. change (256 ^ Z.of_nat 8) with 18446744073709551616. apply u64_s64. Qed.
Lemma le_bytes_s8 v : le_bytes 1 (s8 v) = le_bytes 1 v.
Proof. apply le_bytes_mod. change (256 ^ Z.of_nat 1) with 256. unfold s8, u8. destruct (_ <? _); zlia. Qed.
Lemma le_bytes_s16 v : le_bytes 2 (s16 v) = le_bytes 2 v.
Proof. apply le_bytes_mod. change (256 ^ Z.of_nat 2) with 65536. unfold s16, u16. destruct (_ <? _); zlia. Qed.
Lemma le_bytes_u8 v : le_bytes 1 (u8 v) = le_bytes 1 v.
Proof. apply le_bytes_mod, Z.mod_mod. lia. Qed.
Lemma le_bytes_u16 v : le_bytes 2 (u16 v) = le_bytes 2 v.
Proof. apply le_bytes_mod, Z.mod_mod. lia. Qed.

(** ** Numerals in a text *)

Lemma numeral_text_numeral b lc v : b = 8 \/ b = 10 \/ b = 16 -> lc = 0 \/ lc = 32 -> 0 <= v < 18446744073709551616 ->
  numeral b v (numeral_text b lc v).
Proof.
  intros Hb Hl Hv. destruct (digits_of_spec v b lc Hb Hl Hv) as (l & E & Hn & _).
  rewrite digits_of_exact in E by done. apply (inj Some) in E. subst l. exact Hn.
Qed.

Lemma numeral_text_head b lc v : b = 8 \/ b = 10 \/ b = 16 -> lc = 0 \/ lc = 32 -> 0 <= v < 18446744073709551616 ->
  exists d r, numeral_text b lc v = digit_char_of d lc :: r /\ 0 <= d < b.
Proof.
  intros Hb Hl Hv. destruct (numeral_text_numeral b lc v Hb Hl Hv) as (ds & E & _ & _ & H0 & Hn).
  pose proof (le_digits_range 22 b v ltac:(lia) ltac:(lia)) as Hr. apply Forall_rev in Hr. unfold numeral_text in *. rewrite <- map_rev in *.
  destruct (rev (le_digits 22 b v)) as [|d r].
  - destruct ds; [|done]. destruct (Z.eq_dec v 0) as [->|Hne]; [by specialize (H0 eq_refl)|]. by destruct (Hn Hne) as (? & ? & ? & _).
  - apply Forall_cons in Hr as [Hd _]. by eexists _, _.
Qed.

(** Text that does not continue a number. *)
Definition stops (T : list Z) : Prop :=
  match T with [] => True | c :: _ => digit_val c = None /\ tolower_ c <> 120 end.

Lemma stops_alnum c : 1 <= c < 256 -> isalnum c = false -> digit_val c = None /\ tolower_ c <> 120.
Proof.
  intros Hc Ha. assert (Hall : Forall (fun c => isalnum c = false -> digit_val c = None /\ tolower_ c <> 120) (seqZ 1 255)) by (apply (bool_decide_eq_true_1 _); vm_compute; reflexivity).
  rewrite list.Forall_forall in Hall. apply Hall; [apply elem_of_seqZ; lia|done].
Qed.

Lemma span_digits_stops base D ds T :
  digit_val <$> D = Some <$> ds -> Forall (fun d => 0 <= d < base) ds -> stops T -> span_digits base (D ++ T) = (ds, T).
Proof.
  intros E Hd HT. revert ds E Hd. induction D as [|c D IH]; intros [|d ds]; cbn; try done.
  - destruct T as [|c T]; [done|]. destruct HT as [HT _]. cbn. by rewrite HT.
  - intros [= Ed ED] Hd. apply Forall_cons in Hd as [Hd Hds]. by rewrite Ed, (proj2 (Z.ltb_lt d base)), (IH ds) by (done || lia).
Qed.

(** The radix of the format, or the one [%i] finds. *)
Lemma fixup_numeral b base v D T :
  2 <= b <= 16 -> numeral b v D -> base = b \/ base = 0 /\ b = 10 -> stops T ->
  exists b', parse_integer_fixup_radix (D ++ T) base = (D ++ T, b') /\ 2 <= b' <= 16 /\ numeral b' v D.
Proof.
  intros Hb HD Hbase HT. assert (Hne : D <> []).
  { destruct HD as (ds & E & _ & _ & H0 & Hn). intros ->. destruct ds; [|done]. destruct (Z.eq_dec v 0) as [Ev|Ev]; [by specialize (H0 Ev)|by destruct (Hn Ev) as (? & ? & ? & _)]. }
  assert (E0 : ch (D ++ T) 0 = ch D 0) by by destruct D. unfold parse_integer_fixup_radix. rewrite E0. destruct (Z.eqb_spec (ch D 0) 48) as [E|E].
  - destruct (numeral_no_prefix _ _ _ HD E) as [-> ->]. assert (Ex : tolower_ (ch ([48] ++ T) 1) =? 120 = false).
    { destruct T as [|c T]; [done|]. cbn. apply Z.eqb_neq, HT. }
    rewrite Ex, andb_false_r. cbn [andb]. eexists. split; [reflexivity|].
    assert (Hz : forall k, 2 <= k <= 16 -> numeral k 0 [48]).
    { intros k Hk. exists [0]. split_and!; try done. apply Forall_singleton. lia. }
    destruct Hbase as [->|[-> ->]]; [rewrite (proj2 (Z.eqb_neq b 0)) by lia|]; split; cbn; try lia; apply Hz; lia.
  - exists b. rewrite andb_false_r. destruct Hbase as [->|[-> ->]]; [rewrite (proj2 (Z.eqb_neq b 0)) by lia|]; done.
Qed.

Lemma strtoull_numeral b base v D T :
  2 <= b <= 16 -> v < 18446744073709551616 -> numeral b v D -> base = b \/ base = 0 /\ b = 10 -> stops T -> Z.of_nat (length (D ++ T)) < 2147483648 ->
  simple_strtoull (D ++ T) base = (v, T).
Proof.
  intros Hb Hv HD Hbase HT Hl. unfold simple_strtoull. destruct (fixup_numeral b base v D T Hb HD Hbase HT) as (b' & -> & Hb' & ds & E & Hd & He & _).
  destruct (parse_integer_spec (D ++ T) b' ds T Hb' Hl (span_digits_stops _ _ _ _ E Hd HT)) as (-> & Hlen & Hpos). rewrite He in *.
  rewrite (proj2 (Z.leb_gt _ _)) by lia. pose proof (strip_overflow_bit (Z.of_nat (length ds)) false Hlen) as Hs. cbn beta iota in Hs. rewrite Hs, Nat2Z.id.
  apply (f_equal length) in E. rewrite !length_fmap in E. rewrite <- E, drop_app_length, u64_small by lia. done.
Qed.

(** ** One number *)

(** A plain directive prints a sign and digits. *)
Definition plain_text (signed : bool) (b : Z) (small : bool) (v : Z) : list Z :=
  (if signed && (v <? 0) then [45] else []) ++ numeral_text b (if small then 32 else 0) (Z.abs v).

Lemma int_text_plain sp signed b small v : flags sp = 0 -> field_width sp = -1 -> precision sp = -1 ->
  int_text sp signed b small v = plain_text signed b small v.
Proof.
  intros Ef Ew Ep. unfold int_text, plain_text, layout. cbv zeta. rewrite Ef, Ew, Ep.
  change (has 0 LEFT) with false. change (has 0 ZEROPAD) with false. change (has 0 PLUS) with false. change (has 0 SPACE) with false. change (has 0 SPECIAL) with false.
  cbv iota. replace (Z.to_nat (-1 - _)) with 0%nat by lia. replace (Z.to_nat (-1 - _)) with 0%nat by lia.
  by destruct signed, (v <? 0).
Qed.

(** The digits begin with a digit of the radix. *)
Lemma digit_starts d lc b : b = 8 \/ b = 10 \/ b = 16 -> lc = 0 \/ lc = 32 -> 0 <= d < b ->
  let c := digit_char_of d lc in
  isspace c = false /\ c <> 45 /\ c <> 0 /\ (b <> 16 -> isdigit c = true) /\ isxdigit c = true /\ (b = 8 -> c <= 55).
Proof.
  intros Hb Hl Hd. cbv zeta.
  assert (Hall : Forall (fun d => Forall (fun lc =>
    isspace (digit_char_of d lc) = false /\ digit_char_of d lc <> 45 /\ digit_char_of d lc <> 0 /\ (d < 10 -> isdigit (digit_char_of d lc) = true) /\
    isxdigit (digit_char_of d lc) = true /\ (d < 8 -> digit_char_of d lc <= 55)) [0; 32]) (seqZ 0 16)) by (apply (bool_decide_eq_true_1 _); vm_compute; reflexivity).
  rewrite list.Forall_forall in Hall. specialize (Hall d ltac:(apply elem_of_seqZ; lia)). rewrite list.Forall_forall in Hall.
  destruct (Hall lc) as (H1 & H2 & H3 & H4 & H5 & H6); [destruct Hl as [->| ->]; set_solver|].
  split_and!; try done; intros; [apply H4; lia|apply H6; lia].
Qed.

(** The number is found at the start of the text. *)
Lemma plain_starts signed b base small v T :
  b = 8 \/ b = 10 \/ b = 16 -> base = b \/ base = 0 /\ b = 10 -> Z.abs v < 18446744073709551616 ->
  skip_spaces (plain_text signed b small v ++ T) = plain_text signed b small v ++ T /\
  starts_number (plain_text signed b small v ++ T) base signed = true /\
  ch (plain_text signed b small v ++ T) 0 <> 0 /\
  ch (plain_text signed b small v ++ T) 0 =? 45 = signed && (v <? 0).
Proof.
  intros Hb Hbase Hv. assert (Hl : (if small then 32 else 0) = 0 \/ (if small then 32 else 0) = 32) by (destruct small; auto).
  unfold plain_text. set (lc := if small then 32 else 0) in *. clearbody lc.
  destruct (numeral_text_head b lc (Z.abs v) Hb Hl ltac:(lia)) as (d & r & -> & Hd).
  destruct (digit_starts d lc b Hb Hl Hd) as (C1 & C2 & C3 & C4 & C5 & C6). set (c := digit_char_of d lc) in *. clearbody c.
  assert (Hdigit : negb ((c =? 0) || (base =? 16) && negb (isxdigit c) || (base =? 10) && negb (isdigit c)
    || (base =? 8) && (negb (isdigit c) || (55 <? c)) || (base =? 0) && negb (isdigit c)) = true).
  { rewrite C5, (proj2 (Z.eqb_neq c 0) C3). destruct Hbase as [->|[-> ->]]; [|by rewrite C4]. destruct Hb as [->|[->| ->]]; [|by rewrite C4|done].
    rewrite C4, (proj2 (Z.ltb_ge 55 c)) by (done || by apply C6). done. }
  apply Z.eqb_neq in C2. destruct (signed && (v <? 0)) eqn:E; cbn [app skip_spaces].
  - apply andb_true_iff in E as [-> _]. done.
  - rewrite C1. unfold starts_number. cbn [ch nth]. rewrite C2, andb_false_r. done.
Qed.

Lemma scan_qualifier_cases q : q ∈ scan_qualifiers ->
  q = [] \/ q = [104] \/ q = [104; 104] \/ q = [108] \/ q = [108; 108] \/ q = [76] \/ q = [122] \/ q = [90].
Proof. intros H. vm_compute in H. set_unfold in H. tauto. Qed.

(** What [scan_number] makes of a numeral, and of a numeral after a minus sign. *)
Lemma scan_positive q signed str T v base : q ∈ scan_qualifiers -> 0 <= v ->
  ch str 0 =? 45 = false -> simple_strtoull str base = (v, T) ->
  scan_number (qualifier_code q) signed str base = (le_bytes (int_size q) v, T).
Proof.
  intros Hq Hv Hc E. unfold scan_number, simple_strtol, simple_strtoll, simple_strtoul. rewrite Hc, E. clear E.
  apply scan_qualifier_cases in Hq. destruct_or! Hq; subst q; destruct signed; cbn [qualifier_code Z.eqb Pos.eqb orb];
    rewrite ?le_bytes_s64, ?le_bytes_s32, ?le_bytes_u32 by lia; reflexivity.
Qed.

Lemma scan_negative q str T v base : q ∈ scan_qualifiers -> q <> [122] -> q <> [90] ->
  simple_strtoull str base = (v, T) ->
  scan_number (qualifier_code q) true (45 :: str) base = (le_bytes (int_size q) (- v), T).
Proof.
  intros Hq Hz1 Hz2 E. unfold scan_number, simple_strtol, simple_strtoll, simple_strtoul. cbn [ch nth drop Z.eqb Pos.eqb]. rewrite drop_0, E. clear E.
  apply scan_qualifier_cases in Hq. destruct_or! Hq; subst q; try done; cbn [qualifier_code Z.eqb Pos.eqb orb];
    rewrite ?le_bytes_s64, ?le_bytes_neg by lia; reflexivity.
Qed.

(** The value an argument is printed as has its bytes. *)
Lemma int_arg_bytes q signed args v rest : q ∈ scan_qualifiers -> Forall is_u32 args -> int_arg q signed args = Some (v, rest) ->
  Z.abs v < 18446744073709551616 /\ (signed = false -> 0 <= v) /\ (q = [122] \/ q = [90] -> 0 <= v) /\ Forall is_u32 rest.
Proof.
  intros Hq Ha Hi. destruct Ha as [|a args Ha Hargs]; [done|]. unfold is_u32 in Ha.
  pose proof (s32_bounds a). pose proof (u8_range a). pose proof (u16_range a). pose proof (s16_range a). pose proof (s8_bounds a). unfold is_u8, is_u16, is_s16 in *.
  apply scan_qualifier_cases in Hq. unfold int_arg in Hi.
  destruct_or! Hq; subst q; decide_consts Hi; cbn [orb] in Hi;
    try (destruct Hargs as [|b args Hb Hargs]; [done|]; unfold is_u32 in Hb; pose proof (s64_bounds (a + 4294967296 * b)));
    injection Hi as <- <-; destruct signed; split_and!; done || lia || (intros [?|?]; done || lia).
Qed.

Lemma arguments_dir d F args bs signed : d_qual d ∈ scan_qualifiers -> Forall is_u32 args -> arguments (Dir d :: F) args = Some bs ->
  exists v rest bs', int_arg (d_qual d) signed args = Some (v, rest) /\ bs = le_bytes (int_size (d_qual d)) v :: bs' /\ arguments F rest = Some bs'.
Proof.
  intros Hq%scan_qualifier_cases Ha H. cbn [arguments] in H. cbv zeta in H. unfold int_arg.
  destruct_or! Hq; rewrite Hq in *; clear Hq;
    repeat match goal with |- context [@bool_decide ?P ?dec] => let v := eval vm_compute in (@bool_decide P dec) in change (@bool_decide P dec) with v end;
    match type of H with context [int_size ?q] => let n := eval vm_compute in (int_size q) in change (int_size q) with n in H |- * end;
    cbn [Nat.eqb] in H; destruct args as [|x args]; try done; try (destruct args as [|y args]; [done|]);
    destruct (arguments F _) as [bs'|] eqn:EF; try done; injection H as <-; eexists _, _, bs';
    (split; [cbn [orb]; reflexivity|]); (split; [|done]); apply (f_equal (fun l => l :: bs')); destruct signed; symmetry;
    first [reflexivity | apply le_bytes_s32; lia | apply le_bytes_s64 | apply le_bytes_s8 | apply le_bytes_s16 | apply le_bytes_u8 | apply le_bytes_u16].
Qed.

(** ** The whole text *)

(** A text a format prints, and the bytes it stands for. *)
Inductive readable : list item -> list Z -> list (list Z) -> Prop :=
  | readable_end : readable [] [] []
  | readable_lit l F T bs : readable F T bs -> readable (Lit l :: F) (l ++ T) bs
  | readable_dir q c signed b small v F T bs :
      q ∈ scan_qualifiers -> int_conversion c signed b small ->
      Z.abs v < 18446744073709551616 -> (signed = false -> 0 <= v) -> (q = [122] \/ q = [90] -> 0 <= v) -> readable F T bs ->
      readable (Dir (mkDir [] None None q c []) :: F) (plain_text signed b small v ++ T) (le_bytes (int_size q) v :: bs).

Lemma int_field_conversion c : c ∈ chars "diuoxX" -> exists signed b small, int_conversion c signed b small.
Proof. intros H. vm_compute in H. unfold int_conversion. set_unfold in H. destruct_or! H; subst c; do 3 eexists; repeat first [apply list_elem_of_here | apply list_elem_of_further]. Qed.

Lemma plain_length signed b small v : b = 8 \/ b = 10 \/ b = 16 -> Z.abs v < 18446744073709551616 -> (length (plain_text signed b small v) <= 23)%nat.
Proof.
  intros Hb Hv. unfold plain_text. rewrite length_app. pose proof (numeral_length b (if small then 32 else 0) (Z.abs v) 22 ltac:(lia)) as H.
  assert (Hp : 18446744073709551616 <= b ^ Z.of_nat 22) by (destruct Hb as [->|[->| ->]]; zcalc; lia). specialize (H ltac:(lia) ltac:(lia)).
  destruct (_ && _); cbn [length]; lia.
Qed.

Lemma renders_readable W depth F args bs :
  scannable F -> Forall is_u32 args -> arguments F args = Some bs ->
  exists T, renders W depth F args T /\ readable F T bs /\ (length T <= 23 * length (format_text F))%nat.
Proof.
  revert args bs. induction F as [|[l|d] F IH]; intros args bs HF Ha Hb.
  - injection Hb as <-. exists []. split_and!; [constructor..|cbn; lia].
  - destruct HF as [_ HF]. destruct (IH args bs HF Ha Hb) as (T & H1 & H2 & H3). exists (l ++ T). split_and!; [by constructor..|].
    change (format_text (Lit l :: F)) with (l ++ format_text F). rewrite !length_app. lia.
  - destruct HF as ((q & c & -> & Hq & Hc) & _ & HF). destruct (int_field_conversion c Hc) as (signed & b & small & Hi). pose proof (int_conversion_radix _ _ _ _ Hi) as Hr.
    destruct (arguments_dir (mkDir [] None None q c []) F args bs signed Hq Ha Hb) as (v & rest & bs' & Ev & -> & Hb'). cbn [d_qual] in *.
    destruct (int_arg_bytes _ _ _ _ _ Hq Ha Ev) as (V1 & V2 & V3 & V4). destruct (IH rest bs' HF V4 Hb') as (T & H1 & H2 & H3).
    exists (plain_text signed b small v ++ T). split_and!.
    + eapply renders_dir; [reflexivity| |rewrite <- (int_text_plain (mkSpec FORMAT_TYPE_NONE 0 10 255 (-1) (-1))) by done; by eapply conv_int|done].
      unfold spec_modest, modest. cbn. lia.
    + by econstructor.
    + pose proof (plain_length signed b small v Hr V1). change (format_text (Dir ?d :: F)) with (directive_text d ++ format_text F). rewrite !length_app. cbn [directive_text length]. lia.
Qed.

(** The parts of a directive, as the loop finds them. *)
Lemma scan_header q c f : q ∈ scan_qualifiers -> c ∈ chars "diuoxX" ->
  ch (q ++ c :: f) 0 =? 42 = false /\ scan_width (q ++ c :: f) = (-1, q ++ c :: f) /\ scan_qualifier (q ++ c :: f) = (qualifier_code q, c :: f).
Proof.
  intros Hq%scan_qualifier_cases Hc. vm_compute in Hc. set_unfold in Hc.
  destruct_or! Hq; subst q; destruct_or! Hc; subst c; split_and!; reflexivity.
Qed.

Lemma scan_conversion_int fw q f str args num w c signed b small : int_conversion c signed b small ->
  exists base, (base = b \/ base = 0 /\ b = 10) /\
    scan_conversion fw q (mkS (c :: f) str args num w) =
    let str := skip_spaces str in
    if starts_number str base signed then
      let* (p, args) := va_arg args in
      let '(l, next) := scan_number q signed str base in
      Ok (Continue (mkS f next args (num + 1) (w ++ [(p, l)])))
    else Ok (Break (mkS f str args num w)).
Proof.
  intros H. unfold int_conversion in H. set_unfold in H. destruct_or! H; injection H as -> -> -> ->;
    [exists 10|exists 0|exists 10|exists 8|exists 16|exists 16]; (split; [auto|reflexivity]).
Qed.

Lemma int_conversion_char c signed b small : int_conversion c signed b small -> c ∈ chars "diuoxX" /\ c <> 0 /\ c <> 110.
Proof.
  intros H. unfold int_conversion in H. set_unfold in H.
  destruct_or! H; injection H as -> _ _ _; (split; [apply (bool_decide_eq_true_1 _); vm_compute; reflexivity|lia]).
Qed.

Lemma scan_plain q signed b base small v T :
  q ∈ scan_qualifiers -> b = 8 \/ b = 10 \/ b = 16 -> base = b \/ base = 0 /\ b = 10 -> Z.abs v < 18446744073709551616 ->
  (signed = false -> 0 <= v) -> (q = [122] \/ q = [90] -> 0 <= v) ->
  stops T -> Z.of_nat (length (plain_text signed b small v ++ T)) < 2147483648 ->
  scan_number (qualifier_code q) signed (plain_text signed b small v ++ T) base = (le_bytes (int_size q) v, T).
Proof.
  intros Hq Hb Hbase Hv Hs Hz HT Hl. destruct (plain_starts signed b base small v T Hb Hbase Hv) as (_ & _ & _ & Hc).
  assert (Hlc : (if small then 32 else 0) = 0 \/ (if small then 32 else 0) = 32) by (destruct small; auto).
  pose proof (numeral_text_numeral b (if small then 32 else 0) (Z.abs v) Hb Hlc ltac:(lia)) as HD.
  pose proof (strtoull_numeral b base (Z.abs v) _ T ltac:(lia) Hv HD Hbase HT) as E. unfold plain_text in *.
  set (D := numeral_text b _ _) in *. clearbody D. destruct (signed && (v <? 0)) eqn:En; cbn [app length] in *.
  - apply andb_true_iff in En as [-> En%Z.ltb_lt]. rewrite (scan_negative q (D ++ T) T (Z.abs v)); [do 2 f_equal; lia|done| | |apply E; lia]; intros ->; [specialize (Hz (or_introl eq_refl))|specialize (Hz (or_intror eq_refl))]; lia.
  - assert (Hp : 0 <= v) by (destruct signed; [apply Z.ltb_ge in En; lia|auto]). rewrite Z.abs_eq in E by lia. apply scan_positive; auto.
Qed.

(** One round reads one field. *)
Lemma scan_field L q c signed b small v f T p ptrs num w :
  q ∈ scan_qualifiers -> int_conversion c signed b small -> Z.abs v < 18446744073709551616 ->
  (signed = false -> 0 <= v) -> (q = [122] \/ q = [90] -> 0 <= v) ->
  stops T -> Z.of_nat (length (plain_text signed b small v ++ T)) < 2147483648 ->
  scan_item L (mkS (37 :: q ++ c :: f) (plain_text signed b small v ++ T) (p :: ptrs) num w) =
    Ok (Continue (mkS f T ptrs (num + 1) (w ++ [(p, le_bytes (int_size q) v)]))).
Proof.
  intros Hq Hi Hv Hs Hz HT Hl. pose proof (int_conversion_radix _ _ _ _ Hi) as Hb. destruct (int_conversion_char _ _ _ _ Hi) as (Hc & Hc0 & Hcn).
  destruct (scan_header q c f Hq Hc) as (E1 & E2 & E3). destruct (scan_conversion_int (-1) (qualifier_code q) f (plain_text signed b small v ++ T) (p :: ptrs) num w _ _ _ _ Hi) as (base & Hbase & E4).
  destruct (plain_starts signed b base small v T Hb Hbase Hv) as (P1 & P2 & P3 & _).
  unfold scan_item. cbn [ch nth Z.eqb Pos.eqb negb andb drop]. rewrite drop_0. fold (ch (q ++ c :: f) 0). rewrite E1, E2, E3. cbn [ch nth].
  rewrite (proj2 (Z.eqb_neq c 0) Hc0), (proj2 (Z.eqb_neq c 110) Hcn). fold (ch (plain_text signed b small v ++ T) 0). rewrite (proj2 (Z.eqb_neq _ 0) P3), E4.
  cbv zeta. rewrite P1, P2. cbn [va_arg rbind]. by rewrite scan_plain.
Qed.

(** ** The loop *)

Definition finishes (L : Z) (s s' : scanning) : Prop :=
  forall fuel, (length (s_fmt s) < fuel)%nat -> scan_loop fuel L s = Ok s'.

Lemma skip_spaces_app l r : skip_spaces (l ++ r) = match skip_spaces l with [] => skip_spaces r | l' => l' ++ r end.
Proof. induction l as [|c l IH]; [done|]. cbn. by destruct (isspace c). Qed.

Lemma skip_spaces_head l c r : skip_spaces l = c :: r -> isspace c = false /\ tail_of (c :: r) l.
Proof.
  induction l as [|x l IH]; cbn; [done|]. destruct (isspace x) eqn:E.
  - intros H. destruct (IH H) as [H1 H2]. split; [done|]. by apply tail_cons.
  - intros [= -> ->]. split; [done|apply tail_refl].
Qed.

Lemma scan_same L c f T args num w : c <> 37 -> c <> 0 ->
  scan_item L (mkS (c :: f) (c :: T) args num w) = Ok (Continue (mkS f T args num w)).
Proof.
  intros H1 H2. unfold scan_item. cbn [ch nth drop]. rewrite (proj2 (Z.eqb_neq c 37) H1), (proj2 (Z.eqb_neq c 0) H2), Z.eqb_refl, !drop_0. done.
Qed.

(** Literal text is matched by itself. *)
Lemma scan_literal L l f T args num w s' :
  cstring l -> Forall (fun c => c <> 37) l -> skip_spaces f = f -> skip_spaces T = T -> (f = [] \/ exists f', f = 37 :: f') ->
  finishes L (mkS f T args num w) s' -> finishes L (mkS (l ++ f) (l ++ T) args num w) s'.
Proof.
  intros Hc Hp Hf HT Hf' Hend. remember (length l) as n eqn:En. assert (Hn : (length l <= n)%nat) by lia. clear En. revert l Hc Hp Hn.
  induction n as [|n IH]; intros l Hc Hp Hn; (destruct l as [|c l]; [done|]); [cbn in Hn; lia|]. cbn [length] in Hn.
  apply Forall_cons in Hc as [Hc Hcl]. apply Forall_cons in Hp as [Hp Hpl]. intros fuel Hfuel. cbn [s_fmt app length] in Hfuel.
  destruct fuel as [|fuel]; [lia|]. cbn [scan_loop s_fmt app ch nth]. rewrite (proj2 (Z.eqb_neq c 0)) by lia. cbn [scan_step ch nth].
  destruct (isspace c) eqn:Esp; cbn [drop]; [|rewrite scan_same by lia; cbn [rbind]; apply (IH l); done || (cbn [s_fmt]; lia)].
  cbn [skip_spaces]. rewrite drop_0, Esp, !skip_spaces_app. destruct (skip_spaces l) as [|x r] eqn:El.
  - rewrite Hf, HT. specialize (Hend (S fuel)). cbn [s_fmt scan_loop] in Hend. rewrite length_app in Hfuel. destruct Hf' as [->|[f' ->]].
    + cbn. apply Hend. cbn. lia.
    + apply Hend. lia.
  - destruct (skip_spaces_head _ _ _ El) as [_ [d Ed]]. subst l. unfold cstring in Hcl. apply Forall_app in Hcl as [_ [Hx Hr]%Forall_cons]. apply Forall_app in Hpl as [_ [Hxp Hrp]%Forall_cons].
    cbn [app]. rewrite scan_same by lia. cbn [rbind]. rewrite length_app in Hn. cbn [length] in Hn. apply (IH r); try (done || lia).
    cbn [s_fmt]. rewrite !length_app in Hfuel. cbn [length] in Hfuel. rewrite length_app. lia.
Qed.

(** What follows a number in a text that can be read. *)
Lemma readable_stops F T bs : readable F T bs -> format_ok F -> scannable F -> number_ends F -> stops T.
Proof.
  intros H Hf Hs He. destruct H as [|l F T bs H|]; [done| |done]. destruct Hf as (Hl & _). destruct Hs as (Hc & _). cbn in He.
  destruct l as [|c l]; [done|]. apply Forall_cons in Hc as [Hc _]. by apply stops_alnum.
Qed.

(** A text that can be read starts with white space only where its format does. *)
Lemma readable_starts F T bs : readable F T bs -> match F with Lit _ :: _ => False | _ => True end ->
  skip_spaces (format_text F) = format_text F /\ skip_spaces T = T /\ (format_text F = [] \/ exists f, format_text F = 37 :: f).
Proof.
  intros H HF. destruct H as [| |q c signed b small v F T bs Hq Hi Hv]; [by auto|done|].
  split; [done|]. split; [|by right; eexists]. by eapply plain_starts; [by eapply int_conversion_radix|left|].
Qed.

(** Reading a text back gives the bytes that were printed. *)
Lemma scan_readable L F T bs : readable F T bs -> format_ok F -> scannable F -> Z.of_nat (length T) < 2147483648 ->
  forall ptrs num w, (length bs <= length ptrs)%nat ->
  exists s', finishes L (mkS (format_text F) T ptrs num w) s' /\ s_num s' = num + Z.of_nat (length bs) /\ s_writes s' = w ++ zip ptrs bs.
Proof.
  induction 1 as [|l F T bs H IH|q c signed b small v F T bs Hq Hi Hv V1 V2 H IH]; intros Hf Hs HL ptrs num w Hp.
  - exists (mkS [] [] ptrs num w). split; [intros [|fuel] Hfuel; [cbn in Hfuel; lia|done]|]. cbn. rewrite zip_with_nil_r, app_nil_r. by rewrite Z.add_0_r.
  - destruct Hf as (_ & Hl & Hf). destruct Hs as [Hc Hs]. rewrite length_app in HL.
    assert (HF : match F with Lit _ :: _ => False | _ => True end /\ format_ok F) by by destruct F as [|[]].
    destruct (IH (proj2 HF) Hs ltac:(lia) ptrs num w Hp) as (s' & E & H1). exists s'. split; [|done].
    destruct (readable_starts F T bs H (proj1 HF)) as (R1 & R2 & R3). by apply scan_literal.
  - destruct Hf as (_ & _ & Hf). destruct Hs as (_ & Hends & Hs). destruct ptrs as [|p ptrs]; [cbn in Hp; lia|]. cbn [length] in Hp.
    pose proof (readable_stops _ _ _ H Hf Hs Hends) as HT. pose proof HL as HL'. rewrite length_app in HL'.
    destruct (IH Hf Hs ltac:(lia) ptrs (num + 1) (w ++ [(p, le_bytes (int_size q) v)]) ltac:(lia)) as (s' & E & E1 & E2). exists s'. split; [|split].
    + assert (Et : format_text (Dir (mkDir [] None None q c []) :: F) = 37 :: q ++ c :: format_text F) by (change (37 :: (q ++ [c]) ++ format_text F = 37 :: q ++ c :: format_text F); by rewrite <- app_assoc).
      rewrite Et. intros [|fuel] Hfuel; [cbn in Hfuel; lia|]. cbn [scan_loop s_fmt ch nth Z.eqb Pos.eqb scan_step]. change (isspace 37) with false. cbv iota.
      rewrite (scan_field L q c signed b small v) by done. cbn [rbind]. apply E. cbn [s_fmt length] in *. rewrite length_app in Hfuel. cbn [length] in Hfuel. lia.
    + rewrite E1. cbn [length]. lia.
    + rewrite E2. cbn. by rewrite <- app_assoc.
Qed.
