(* ===== verification/VsscanfTheorems.v ===== *)
(** * Theorems about formatted input *)

From Stdlib Require Import ZArith Lia Bool.
From stdpp Require Import base numbers list strings sets.
From S2P Require Import Prelude Kstrtox Vsprintf VsnprintfText Result Vsnprintf VsnprintfSafety VsnprintfSpec VsnprintfDecode VsnprintfRender Vsscanf VsscanfProofs.
Open Scope Z_scope.

(** The string of a text in memory. *)
Lemma text_in_memory m' buf T :
  (forall k, buf <= k < buf + Z.of_nat (length T) -> m' k = nth (Z.to_nat (k - buf)) T 0) -> map m' (seqZ buf (Z.of_nat (length T))) = T.
Proof.
  intros H. apply (nth_ext _ _ 0 0); rewrite length_map, length_seqZ, Nat2Z.id; [done|]. intros i Hi.
  rewrite (nth_indep _ 0 (m' 0)) by (rewrite length_map, length_seqZ; lia). rewrite map_nth.
  assert (E : nth i (seqZ buf (Z.of_nat (length T))) 0 = buf + Z.of_nat i) by (apply nth_lookup_Some, lookup_seqZ; lia).
  rewrite E, H by lia. f_equal. lia.
Qed.

(** C10: What [vsnprintf] prints, [vsscanf] reads back: for a format of literal text and
    plain integer conversions of any size and radix, where no letter or digit follows a
    number, printing the arguments and scanning the buffer with the same format stores
    the bytes of every argument to its pointer and counts them all, unless the buffer was
    too small for the text. *)
Theorem sscanf_reads_back depth W buf size F args bs ptrs m :
  world_ok W -> format_ok F -> scannable F -> Forall is_u32 args -> arguments F args = Some bs -> (length bs <= length ptrs)%nat ->
  0 <= buf -> 0 <= size < 2147483648 -> buf + size < 4294967296 ->
  let longest := 23 * Z.of_nat (length (format_text F)) in longest < 2147483648 -> buf + longest < 4294967296 ->
  exists n m', vsnprintf depth W buf size (format_text F) args m = Ok (n, m', []) /\
    (n < size -> m' (buf + n) = 0 /\ vsscanf (map m' (seqZ buf n)) (format_text F) ptrs = Ok (Z.of_nat (length bs), zip ptrs bs)).
Proof.
  intros HW HF HS Ha Hbs Hp Hb Hsz Hend longest Hl1 Hl2. subst longest. destruct (renders_readable W depth F args bs HS Ha Hbs) as (T & HR & Hread & HT).
  destruct (vsnprintf_renders depth W buf size F args T m) as (m' & E & Hm); try (done || lia). exists (Z.of_nat (length T)), m'. split; [done|]. intros Hfit. cbv zeta in Hm. split.
  { rewrite Hm, Z.min_l by lia. rewrite (proj2 (Z.ltb_ge _ _)), (proj2 (Z.ltb_lt 0 size)), Z.eqb_refl, andb_false_r by lia. done. }
  rewrite text_in_memory.
  - unfold vsscanf. destruct (scan_readable (Z.of_nat (length T)) F T bs Hread HF HS ltac:(lia) ptrs 0 [] Hp) as (s' & E1 & E2 & E3).
    rewrite (E1 (S (length (format_text F)))) by (cbn; lia). cbn [rbind]. by rewrite E2, E3.
  - intros k Hk. rewrite Hm, Z.min_l by lia. by rewrite (proj2 (Z.leb_le _ _)), (proj2 (Z.ltb_lt _ _)) by lia.
Qed.

(** C23: Whatever the input and the format, a call of [vsscanf] with a pointer for each [%]
    of the format ends.  Its stores go to the first of the pointers, each to one, in their
    order; a store is at most eight bytes or the input with a terminator.  It counts no
    more conversions than it stored. *)
Theorem vsscanf_safe buf fmt args :
  (percents fmt <= length args)%nat ->
  exists n w, vsscanf buf fmt args = Ok (n, w) /\ 0 <= n <= Z.of_nat (length w) /\ w.*1 = take (length w) args /\
    Forall (fun x => 1 <= Z.of_nat (length x.2) <= Z.max 8 (Z.of_nat (length buf) + 1)) w.
Proof.
  intros Hp. unfold vsscanf. pose proof (scan_loop_ok (S (length fmt)) (Z.of_nat (length buf)) (mkS fmt buf args 0 []) ltac:(cbn; lia)) as H.
  destruct (scan_loop _ _ _) as [s'| | |]; cbn [rbind s_args s_fmt] in *; try done; [|lia]. destruct H as [_ _ (l & W & A & P & N & B)]. cbn in W, A, N, B.
  exists (s_num s'), (s_writes s'). rewrite W, A. split_and!; try (done || lia). by rewrite <- (length_fmap fst l), take_app_length.
Qed.

(** ** An example *)

(** [%hhd:%u 0x%llx, %zd] *)
Definition scan_demo : list item :=
  [Dir (mkDir [] None None (chars "hh") 100 []); Lit (chars ":"); Dir (mkDir [] None None [] 117 []); Lit (chars " 0x");
   Dir (mkDir [] None None (chars "ll") 120 []); Lit (chars ", "); Dir (mkDir [] None None (chars "z") 100 [])].
Definition scan_demo_args : list Z := [u32 (-5); 4000000000; 255; 1; 17].
Definition scan_demo_world : world := mkWorld (fun _ => []) (fun _ => None) 0 false false.

Lemma scan_demo_world_ok : world_ok scan_demo_world.
Proof. split; [intros p; constructor|done]. Qed.

Lemma scan_demo_ok : format_ok scan_demo /\ scannable scan_demo.
Proof.
  assert (Hd : forall q c, q ∈ scan_qualifiers -> c ∈ chars "diuoxX" -> directive_ok (mkDir [] None None q c [])).
  { intros q c Hq Hc. assert (Hc' : c ∈ conversions /\ c <> 112) by (vm_compute in Hc; set_unfold in Hc; destruct_or! Hc; subst c; (split; [apply (bool_decide_eq_true_1 _); vm_compute; reflexivity|done])).
    split; cbn [d_flags d_width d_prec d_qual d_conv d_ext]; try done; [|tauto|by rewrite (proj2 (Z.eqb_neq c 112)) by tauto].
    apply scan_qualifier_cases in Hq. destruct_or! Hq; subst q; apply (bool_decide_eq_true_1 _); vm_compute; reflexivity. }
  assert (Hf : forall q c, q ∈ scan_qualifiers -> c ∈ chars "diuoxX" -> int_field (mkDir [] None None q c [])) by (intros q c Hq Hc; by exists q, c).
  split; cbn [scan_demo format_ok scannable]; split_and!; try (apply Hd || apply Hf); try done; apply (bool_decide_eq_true_1 _); vm_compute; reflexivity.
Qed.

Lemma sscanf_reads_back_witness :
  exists n m', vsnprintf 0 scan_demo_world 65536 64 (chars "%hhd:%u 0x%llx, %zd") scan_demo_args (fun _ => 170) = Ok (n, m', []) /\
    (n < 64 -> m' (65536 + n) = 0 /\ vsscanf (map m' (seqZ 65536 n)) (chars "%hhd:%u 0x%llx, %zd") [100; 200; 300; 400] =
      Ok (4, [(100, [251]); (200, [0; 40; 107; 238]); (300, [255; 0; 0; 0; 1; 0; 0; 0]); (400, [17; 0; 0; 0])])).
Proof.
  apply (sscanf_reads_back 0 scan_demo_world 65536 64 scan_demo scan_demo_args [[251]; [0; 40; 107; 238]; [255; 0; 0; 0; 1; 0; 0; 0]; [17; 0; 0; 0]] [100; 200; 300; 400] (fun _ => 170));
    [apply scan_demo_world_ok|apply scan_demo_ok|apply scan_demo_ok| |vm_compute; reflexivity|vm_compute; lia|lia|lia|lia|vm_compute; reflexivity|vm_compute; reflexivity].
  repeat (apply Forall_cons; split; [unfold is_u32; vm_compute; split; [discriminate|reflexivity]|]). apply Forall_nil. exact I.
Defined.

(** Printed text that does fit. *)
Example scan_demo_fits :
  match vsnprintf 0 scan_demo_world 65536 64 (chars "%hhd:%u 0x%llx, %zd") scan_demo_args (fun _ => 170) with
  | Ok (n, m', _) => (n, map m' (seqZ 65536 n)) = (29, chars "-5:4000000000 0x1000000ff, 17")
  | _ => False
  end.
Proof. vm_compute. reflexivity. Qed.

Lemma vsscanf_safe_witness :
  exists n w, vsscanf (chars "12 abcdefgh 7x") (chars "%hd %40000s%n%*d %c%y") [100; 200; 300; 400; 500; 600] = Ok (n, w) /\
    0 <= n <= Z.of_nat (length w) /\ w.*1 = take (length w) [100; 200; 300; 400; 500; 600] /\
    Forall (fun x => 1 <= Z.of_nat (length x.2) <= Z.max 8 (Z.of_nat (length (chars "12 abcdefgh 7x")) + 1)) w.
Proof. apply (vsscanf_safe (chars "12 abcdefgh 7x") (chars "%hd %40000s%n%*d %c%y") [100; 200; 300; 400; 500; 600]). vm_compute. lia. Defined.

(** ** Where the dialect differs from C99 *)

(** The width of a number is ignored. *)
Example number_width_ignored : vsscanf (chars "1234") (chars "%2d%2d") [100; 200] = Ok (1, [(100, [210; 4; 0; 0])]).
Proof. vm_compute. reflexivity. Qed.

(** [%*d] skips to the next white space, over the comma. *)
Example skip_takes_the_comma : vsscanf (chars "1,2") (chars "%*d,%d") [100] = Ok (0, []).
Proof. vm_compute. reflexivity. Qed.

(** Blank input matches [%s]. *)
Example blank_is_a_string : vsscanf (chars "  ") (chars "%s") [100] = Ok (1, [(100, [0])]).
Proof. vm_compute. reflexivity. Qed.
