(* ===== verification/Gunzip.v ===== *)
(** * Unpacking gzip files

    A model of lib/decompress_inflate.c and of lib/zlib_inflate/infutil.c.  The callbacks of
    [gunzip] act on a state of their own, and may fail in their own ways. *)

From Stdlib Require Import ZArith Lia Bool.
From stdpp Require Import base numbers list option strings.
From S2P Require Import Prelude InflateState Inflate Result.
Open Scope Z_scope.

Definition GZIP_IOBUF_SIZE : Z := 16384.
Definition MAX_WBITS : Z := 15.

(** What [malloc] answers for the buffers, the stream and the workspace; what the memory for
    the last two holds; and the address of the output buffer, with the byte before it. *)
Record heap := mkHeap {
  m_out : bool; m_zbuf : bool; m_strm : bool; m_work : bool; m_junk : z_stream; m_addr : Z; m_prev : option Z
}.

Section gunzip.
Context {A : Type}.
(** The bytes that [fill] has put into the buffer, or that it failed. *)
Definition fill_fn : Type := A -> Z -> res (option (list Z) * A).
Definition flush_fn : Type := A -> list Z -> res (Z * A).
Definition error_fn : Type := A -> string -> A.

Definition nofill : fill_fn := fun a _ => Ok (None, a).

(** [do { if (strm->avail_in == 0) ...; --strm->avail_in; } while ( *strm->next_in++);] *)
Fixpoint skip_name (l : list Z) : option (list Z) :=
  match l with [] => None | b :: l => if b =? 0 then Some l else skip_name l end.

(** The part of the stream that [gunzip] itself sets. *)
Definition set_in (l : list Z) (s : z_stream) : z_stream :=
  mkStream l (total_in s) (next_out s) (avail_out s) (total_out s) (out_addr s) (out_prev s) (data_type s) (adler s) (state s).
Definition set_out (n : Z) (s : z_stream) : z_stream :=
  mkStream (next_in s) (total_in s) [] n (total_out s) (out_addr s) (out_prev s) (data_type s) (adler s) (state s).
(** [wsize = 0; window = NULL;] *)
Definition no_window (s : z_stream) : z_stream :=
  let w := win (state s) in
  mkStream (next_in s) (total_in s) (next_out s) (avail_out s) (total_out s) (out_addr s) (out_prev s) (data_type s) (adler s)
    (set_win (mkWindow (wbits w) 0 (whave w) (write w) []) (state s)).

Section loop.
Context (fill : fill_fn) (flush : option flush_fn) (error : error_fn) (out_len : Z).

(** [while (rc == Z_OK)]: the result, the length of the data in [zbuf], and the stream. *)
Fixpoint gunzip_loop (fuel : nat) (rc len : Z) (strm : z_stream) (a : A) : res (Z * Z * z_stream * A) :=
  if negb (rc =? Z_OK) then Ok (rc, len, strm, a)
  else
    match fuel with
    | O => Stuck
    | S fuel =>
        let* (got, a) :=
          match next_in strm with
          | [] =>
              let* (data, a) := fill a GZIP_IOBUF_SIZE in
              Ok ((fun data => (Z.of_nat (length data), set_in data strm)) <$> data, a)
          | _ => Ok (Some (len, strm), a)
          end in
        match got with
        | None => Ok (-1, len, strm, error a "read error"%string)
        | Some (len, strm) =>
            let* (rc, strm) := of_option (zlib_inflate strm Z_NO_FLUSH) in
            let* (ok, strm, a) :=
              match flush, next_out strm with
              | Some flush, _ :: _ =>
                  let l := Z.of_nat (length (next_out strm)) in
                  let* (r, a) := flush a (next_out strm) in
                  if negb (l =? r) then Ok (false, strm, error a "write error"%string)
                  else Ok (true, set_out out_len strm, a)
              | _, _ => Ok (true, strm, a)
              end in
            if negb ok then Ok (-1, len, strm, a)
            else if rc =? Z_STREAM_END then Ok (0, len, strm, a)
            else if negb (rc =? Z_OK) then gunzip_loop fuel (-1) len strm (error a "uncompression error"%string)
            else gunzip_loop fuel rc len strm a
        end
    end.
End loop.

(** The result, what is stored at [pos], the output in a buffer of the caller, and the state
    of the callbacks.  [out_buf] tells whether it is not NULL. *)
Definition gunzip (fuel : nat) (m : heap) (buf : option (list Z)) (fill : option fill_fn) (flush : option flush_fn)
    (out_buf : bool) (error : error_fn) (a : A) : res (Z * option Z * list Z * A) :=
  let '(out_len, out_buf) := match flush with Some _ => (32768, m_out m) | None => (2147483647, out_buf) end in
  if negb out_buf then Ok (-1, None, [], error a "Out of memory while allocating output buffer"%string)
  else if negb (match buf with Some _ => true | None => m_zbuf m end) then
    Ok (-1, None, [], error a "Out of memory while allocating input buffer"%string)
  else if negb (m_strm m) then Ok (-1, None, [], error a "Out of memory while allocating z_stream"%string)
  else if negb (m_work m) then Ok (-1, None, [], error a "Out of memory while allocating workspace"%string)
  else
    let fill := match fill with Some fill => fill | None => nofill end in
    let* (zbuf, a) :=
      match buf with
      | Some ((_ :: _) as buf) => Ok (Some buf, a)
      | _ => fill a GZIP_IOBUF_SIZE
      end in
    let zbuf := match zbuf with Some data => data | None => [] end in
    let len := Z.of_nat (length zbuf) in
    if (len <? 10) || negb (bool_decide (take 3 zbuf = [31; 139; 8])) then Ok (-1, Some 0, [], error a "Not a gzip file"%string)
    else
      let data := drop 10 zbuf in
      match (if Z.land (nth 3 zbuf 0) 8 =? 0 then Some data else skip_name data) with
      | None => Ok (-1, None, [], error a "header error"%string)
      | Some data =>
          let j := m_junk m in
          let strm := mkStream data (total_in j) [] out_len (total_out j) (m_addr m) (m_prev m) (data_type j) (adler j) (state j) in
          let '(rc, strm) := zlib_inflateInit2 strm (- MAX_WBITS) in
          let strm := match flush with Some _ => strm | None => no_window strm end in
          let* (rc, len, strm, a) := gunzip_loop fill flush error out_len fuel rc len strm a in
          Ok (rc, Some (len - Z.of_nat (length (next_in strm)) + 8), match flush with Some _ => [] | None => next_out strm end, a)
      end.
End gunzip.

(** Every byte gives at most 2064 bytes, and every round takes input or gives output. *)
Definition gunzip_fuel (n : nat) : nat := S (2065 * n).

(** ** Blobs *)

(** [rc], and the output buffer of size [sz]. *)
Definition zlib_inflate_blob (m : heap) (sz : Z) (buf : list Z) : res (Z * list Z) :=
  if negb (m_strm m) then Ok (- ENOMEM, [])
  else if negb (m_work m) then Ok (- ENOMEM, [])
  else
    let j := m_junk m in
    let strm := mkStream buf (total_in j) [] sz (total_out j) (m_addr m) (m_prev m) (data_type j) (adler j) (state j) in
    let '(rc, strm) := zlib_inflateInit2 strm (- MAX_WBITS) in
    if rc =? Z_OK then
      let* (rc, strm) := of_option (zlib_inflate strm Z_FINISH) in
      if rc =? Z_STREAM_END then Ok (sz - avail_out strm, next_out strm) else Ok (- EINVAL, next_out strm)
    else Ok (- EINVAL, []).
