(* ===== verification/GunzipProofs.v ===== *)
(** * What unpacking a gzip file delivers

    The pieces that [gunzip] flushes are the output of the specification, for any callbacks,
    and it stops. *)

From Stdlib Require Import ZArith Lia Bool.
From stdpp Require Import base numbers list option strings.
From S2P Require Import Prelude Deflate InfTreesTheorems Canon DeflateProofs InflateState Inflate InflateMonad InflateSim InflateInput InflateCall InflateTheorems Result Gunzip.
Open Scope Z_scope.

(** ** Pieces *)

(** Pieces flushed one after the other; with each, what [pos] is to be when its flush fails. *)
Section deliver.
Context {A : Type} (flush : @flush_fn A) (error : @error_fn A).
Fixpoint deliver (cs : list (list Z * Z)) (a : A) : res (option Z * A) :=
  match cs with
  | [] => Ok (None, a)
  | (c, p) :: cs =>
      let* (r, a) := flush a c in
      if negb (Z.of_nat (length c) =? r) then Ok (Some p, error a "write error"%string) else deliver cs a
  end.
(** The result, the position and the state after the pieces: [rc], [p] and [msg] are for the
    case that all went out. *)
Definition deliver_all (cs : list (list Z * Z)) (rc p : Z) (msg : option string) (a : A) : res (Z * Z * A) :=
  let* (stopped, a) := deliver cs a in
  match stopped with
  | Some p => Ok (-1, p, a)
  | None => Ok (rc, p, match msg with Some m => error a m | None => a end)
  end.
Definition loop_end (x : Z * Z * z_stream * A) : Z * Z * A :=
  let '(rc, len, strm, a) := x in (rc, len - Z.of_nat (length (next_in strm)), a).
Definition rmap {B C} (f : B -> C) (r : res B) : res C := let* x := r in Ok (f x).
Lemma rmap_bind {B C D} (f : C -> D) (r : res B) (k : B -> res C) : rmap f (let* x := r in k x) = (let* x := r in rmap f (k x)).
Proof. by destruct r. Qed.
End deliver.

Definition pieces (cs : list (list Z * Z)) : list Z := concat (cs.*1).
(** How the pieces and the result come from the verdict on the data [input], after the output
    [h]: the length of what follows the stream is in bits. *)
Definition unpacks (v : verdict * list Z) (input h : list Z) (cs : list (list Z * Z)) (rc left : Z) (msg : option string) : Prop :=
  rc = 0 /\ msg = None /\ (exists rest, v = (Complete (bits_of_bytes rest), h ++ pieces cs) /\ left = Z.of_nat (length rest) /\ rest `suffix_of` input) \/
  rc = -1 /\ is_Some msg /\ h ++ pieces cs `prefix_of` v.2 /\ (forall rest, v.1 = Complete rest -> (length rest <= 32)%nat).

(** The state of the stream at the head of the loop. *)
Record filled_in (h : list Z) (S : list Z -> verdict * list Z) (strm : z_stream) : Prop := {
  fi_ready : ready false h S strm;
  fi_bytes : Forall is_u8 (next_in strm);
  fi_out : next_out strm = [] /\ avail_out strm = 32768;
  fi_window : wsize (win (state strm)) <> 0;
  fi_before : before_ok (out_addr strm) (out_prev strm)
}.
Lemma filled_next h S strm ret strm' new S' :
  filled_in h S strm -> zlib_inflate strm Z_NO_FLUSH = Some (ret, strm') -> called false h S strm Z_NO_FLUSH ret strm' new S' -> ret <> Z_NEED_DICT ->
  filled_in (h ++ new) S' (set_out 32768 strm').
Proof.
  intros [F1 F2 [F3 F4] F5 F6] E Hc Hne. pose proof (cd_moved _ _ _ _ _ _ _ _ _ Hc) as Hm. split; auto.
  - exact (cd_ready _ _ _ _ _ _ _ _ _ Hc Hne F5).
  - by apply (moved_bytes strm strm' new).
  - cbn. by rewrite (mv_size _ _ _ Hm).
  - cbn. destruct (inflate_place _ _ _ _ E) as [-> ->]. done.
Qed.
(** Input that is used up leaves at most the bits that are held. *)
Lemma used_up zlib h S strm rest : ready zlib h S strm -> (S []).1 = Complete rest -> (length rest <= 32)%nat.
Proof.
  intros [Hf Hp] E. pose proof (pending_leaves _ _ _ _ _ [] Hp) as H. unfold leaves in H. rewrite E in H.
  pose proof (fr_regs _ _ _ _ _ Hf) as Hr. rewrite ahead_nil in H by done. pose proof (length_held _ Hr). pose proof (ro_bits _ Hr). lia.
Qed.

Section loop.
Context {A : Type} (flush : @flush_fn A) (error : @error_fn A).
Abbreviation loop := (gunzip_loop nofill (Some flush) error 32768).

Definition and_then (cs : list (list Z * Z)) (k : A -> res (Z * Z * A)) (a : A) : res (Z * Z * A) :=
  let* (stopped, a) := deliver flush error cs a in
  match stopped with Some p => Ok (-1, p, a) | None => k a end.
Lemma and_then_app cs cs' k a : and_then (cs ++ cs') k a = and_then cs (and_then cs' k) a.
Proof.
  revert a. induction cs as [|[c p] cs IH]; intros a; [done|]. unfold and_then. cbn [app deliver].
  destruct (flush a c) as [[r a']| | |]; cbn [rbind]; try done. destruct (negb _); [done|]. apply IH.
Qed.
Lemma and_then_ext cs k k' a : (forall a, k a = k' a) -> and_then cs k a = and_then cs k' a.
Proof. intros H. unfold and_then. destruct (deliver _ _ _ _) as [[[p|] a']| | |]; cbn [rbind]; auto. Qed.
Lemma deliver_all_then cs rc p msg a : deliver_all flush error cs rc p msg a = and_then cs (fun a => Ok (rc, p, match msg with Some m => error a m | None => a end)) a.
Proof. done. Qed.

(** The rest of a round, after the output has gone. *)
Definition round_rest (fuel : nat) (ret len : Z) (strm : z_stream) (a : A) : res (Z * Z * z_stream * A) :=
  if ret =? Z_STREAM_END then Ok (0, len, strm, a)
  else if negb (ret =? Z_OK) then loop fuel (-1) len strm (error a "uncompression error"%string)
  else loop fuel ret len strm a.
Definition piece (new : list Z) (p : Z) : list (list Z * Z) := match new with [] => [] | _ => [(new, p)] end.
Lemma pieces_piece new p cs : pieces (piece new p ++ cs) = new ++ pieces cs.
Proof. by destruct new. Qed.

(** No piece is larger than the output buffer. *)
Definition small (cs : list (list Z * Z)) : Prop := Forall (fun c => Z.of_nat (length c.1) <= 32768) cs.
Lemma small_piece new p : Z.of_nat (length new) <= 32768 -> small (piece new p).
Proof. intros H. destruct new; repeat constructor. done. Qed.

Lemma round_step fuel len strm a ret strm' new :
  next_in strm <> [] -> zlib_inflate strm Z_NO_FLUSH = Some (ret, strm') -> next_out strm' = new -> avail_out strm' = 32768 - Z.of_nat (length new) ->
  rmap loop_end (loop (S fuel) Z_OK len strm a) =
  and_then (piece new (len - Z.of_nat (length (next_in strm')))) (fun a => rmap loop_end (round_rest fuel ret len (set_out 32768 strm') a)) a.
Proof.
  intros Hin E En Ea. cbn [gunzip_loop negb Z.eqb]. destruct (next_in strm) as [|b rest]; [done|]. cbn [rbind]. rewrite E. cbn [of_option rbind].
  rewrite En. destruct new as [|b' new].
  - assert (Eq : set_out 32768 strm' = strm') by (destruct strm'; cbn in *; subst; done).
    unfold and_then. cbn [piece deliver rbind negb]. rewrite Eq. done.
  - unfold and_then. cbn [piece deliver]. destruct (flush a (b' :: new)) as [[r a']| | |]; cbn [rbind]; try done.
    destruct (negb (Z.of_nat (length (b' :: new)) =? r)); cbn [rbind negb]; done.
Qed.

(** What a round gives for the rest of the data. *)
Lemma round_call h S strm :
  filled_in h S strm -> next_in strm <> [] ->
  exists ret strm' new S', zlib_inflate strm Z_NO_FLUSH = Some (ret, strm') /\ called false h S strm Z_NO_FLUSH ret strm' new S' /\
    next_out strm' = new /\ avail_out strm' = 32768 - Z.of_nat (length new) /\ S (next_in strm) = S' (next_in strm') /\ ret <> Z_BUF_ERROR.
Proof.
  intros [F1 F2 [F3 F4] F5 F6] Hne. destruct (call_ok false h S strm Z_NO_FLUSH F1 F2) as (ret & strm' & new & S' & E & Hc); [lia|done|done|done|].
  pose proof (cd_moved _ _ _ _ _ _ _ _ _ Hc) as Hm. exists ret, strm', new, S'. split; [done|]. split; [done|].
  split; [rewrite (mv_out _ _ _ Hm), F3; done|]. split; [rewrite (mv_room _ _ _ Hm), F4; done|].
  split; [pose proof (cd_rest _ _ _ _ _ _ _ _ _ Hc []) as H; by rewrite !app_nil_r in H|].
  intros ->. destruct (cd_stuck _ _ _ _ _ _ _ _ _ Hc eq_refl) as [?|[En [->|?]]]; [done| |done].
  destruct (cd_tells _ _ _ _ _ _ _ _ _ Hc) as [[? _]|[[? _]|[[? _]|[_ [H|[H _]]]]]]; try done; [|congruence].
  rewrite (mv_room _ _ _ Hm), F4 in H. done.
Qed.

Lemma loop_unpacks fuel len h S strm :
  filled_in h S strm -> Z.of_nat (length (S (next_in strm)).2) - Z.of_nat (length h) + Z.of_nat (length (next_in strm)) < Z.of_nat fuel ->
  exists cs rc left msg, (forall a, rmap loop_end (loop fuel Z_OK len strm a) = deliver_all flush error cs rc (len - left) msg a) /\
    unpacks (S (next_in strm)) (next_in strm) h cs rc left msg /\ small cs.
Proof.
  revert len h S strm. induction fuel as [|fuel IH]; intros len h S strm Hfi Hfuel.
  { pose proof (ready_prefix _ _ _ _ (next_in strm) (fi_ready _ _ _ Hfi)) as [k Hk]. rewrite Hk, length_app in Hfuel. lia. }
  destruct (decide (next_in strm = [])) as [En|Hne].
  { exists [], (-1), 0, (Some "read error"%string). split.
    - intros a. cbn [gunzip_loop negb Z.eqb]. rewrite En. cbn. by rewrite En.
    - split; [|constructor]. right. split; [done|]. split; [eauto|]. cbn [pieces fmap list_fmap concat]. rewrite app_nil_r. split; [eapply ready_prefix, Hfi|].
      intros rest. rewrite En. eapply used_up, Hfi. }
  destruct (round_call h S strm Hfi Hne) as (ret & strm' & new & S' & E & Hc & Eo & Ea & ES & Hnb). rewrite ES in *.
  set (p := len - Z.of_nat (length (next_in strm'))).
  assert (Hsm : small (piece new p)) by (apply small_piece; pose proof (mv_fits _ _ _ (cd_moved _ _ _ _ _ _ _ _ _ Hc)); lia).
  assert (Hstep := fun a => round_step fuel len strm a ret strm' new Hne E Eo Ea). pose proof (mv_in _ _ _ (cd_moved _ _ _ _ _ _ _ _ _ Hc)) as Hsuf.
  destruct (cd_tells _ _ _ _ _ _ _ _ _ Hc) as [[-> HT]|[[-> HT]|[[-> HT]|[[-> | ->] Hx]]]]; [..|done].
  - exists (piece new p), 0, (Z.of_nat (length (next_in strm'))), None. split; [intros a; rewrite Hstep; done|]. split; [|done]. left. split; [done|]. split; [done|].
    exists (next_in strm'). rewrite HT, <- (app_nil_r (piece new p)), pieces_piece. cbn. by rewrite app_nil_r.
  - exists (piece new p), (-1), (Z.of_nat (length (next_in strm'))), (Some "uncompression error"%string). split; [intros a; rewrite Hstep; by destruct fuel|].
    split; [|done]. right. split; [done|]. split; [eauto|]. rewrite HT, <- (app_nil_r (piece new p)), pieces_piece. cbn. by rewrite app_nil_r.
  - exists (piece new p), (-1), (Z.of_nat (length (next_in strm'))), (Some "uncompression error"%string). split; [intros a; rewrite Hstep; by destruct fuel|].
    split; [|done]. right. split; [done|]. split; [eauto|]. rewrite HT, <- (app_nil_r (piece new p)), pieces_piece. cbn. by rewrite app_nil_r.
  - pose proof (filled_next _ _ _ _ _ _ _ Hfi E Hc ltac:(done)) as Hfi'. destruct (IH len (h ++ new) S' (set_out 32768 strm') Hfi') as (cs & rc & left & msg & Hl & Hu & Hs).
    { cbn [set_out next_in]. pose proof (ready_prefix _ _ _ _ (next_in strm') (fi_ready _ _ _ Hfi')) as [k Hk]. cbn [set_out next_in] in Hk.
      rewrite length_app. rewrite Hk, !length_app in *. apply suffix_length in Hsuf.
      destruct (cd_progress _ _ _ _ _ _ _ _ _ Hc eq_refl) as [_ [?|Hn]]; [lia|]. destruct new; [done|]. cbn in *. lia. }
    exists (piece new p ++ cs), rc, left, msg. split.
    + intros a. rewrite Hstep, deliver_all_then, and_then_app. apply and_then_ext. intros a'. apply Hl.
    + split; [|by apply Forall_app]. unfold unpacks in *. rewrite pieces_piece, app_assoc. cbn [set_out next_in] in Hu. destruct Hu as [(H1 & H2 & rest & H3 & H4 & H5)|Hu]; [left|by right].
      split; [done|]. split; [done|]. exists rest. split; [done|]. split; [done|]. by etrans.
Qed.
End loop.

(** ** The header *)

(** Ten bytes, of which the fourth tells whether there is a name. *)
Definition gz_header (hd : list Z) : Prop :=
  exists flg six name, hd = 31 :: 139 :: 8 :: flg :: six ++ name /\ length six = 6%nat /\
    (if Z.land flg 8 =? 0 then name = [] else exists n, name = n ++ [0] /\ Forall (fun b => b <> 0) n).

Lemma skip_name_app n l : Forall (fun b => b <> 0) n -> skip_name (n ++ 0 :: l) = Some l.
Proof. induction n as [|b n IH]; [done|]. intros [Hb Hn]%Forall_cons_1. cbn. rewrite (proj2 (Z.eqb_neq _ _)) by done. by apply IH. Qed.
Lemma skip_name_some l rest : skip_name l = Some rest -> exists n, l = n ++ 0 :: rest /\ Forall (fun b => b <> 0) n.
Proof.
  induction l as [|b l IH]; [done|]. cbn. destruct (Z.eqb_spec b 0) as [->|Hb].
  - intros E. injection E as ->. by exists [].
  - intros (n & -> & Hn)%IH. exists (b :: n). split; [done|]. by constructor.
Qed.

(** The data of a gzip file, as [gunzip] finds it. *)
Definition gz_data (buf : list Z) : option (list Z) :=
  if Z.land (nth 3 buf 0) 8 =? 0 then Some (drop 10 buf) else skip_name (drop 10 buf).
Lemma gz_data_header hd data : gz_header hd -> (10 <= length (hd ++ data))%nat /\ take 3 (hd ++ data) = [31; 139; 8] /\ gz_data (hd ++ data) = Some data.
Proof.
  intros (flg & six & name & -> & Hs & Hn). do 6 (destruct six as [|? six]; [done|]). destruct six; [|done]. split; [cbn; lia|]. split; [done|].
  unfold gz_data. cbn. destruct (Z.land flg 8 =? 0).
  - subst name. by rewrite drop_0.
  - destruct Hn as (n & -> & Hn). rewrite drop_0, <- app_assoc. by apply skip_name_app.
Qed.
Lemma gz_data_some buf data :
  (10 <= length buf)%nat -> take 3 buf = [31; 139; 8] -> gz_data buf = Some data -> exists hd, gz_header hd /\ buf = hd ++ data.
Proof.
  intros Hl Ht Hd. do 10 (destruct buf as [|? buf]; [cbn in Hl; lia|]). injection Ht as -> -> ->. unfold gz_data in Hd. cbn in Hd.
  destruct (Z.land z2 8 =? 0) eqn:Ef.
  - injection Hd as <-. eexists (31 :: 139 :: 8 :: z2 :: [z3; z4; z5; z6; z7; z8] ++ []). split; [|cbn; by rewrite drop_0].
    exists z2, [z3; z4; z5; z6; z7; z8], []. by rewrite Ef.
  - rewrite drop_0 in Hd. apply skip_name_some in Hd as (n & -> & Hn).
    eexists (31 :: 139 :: 8 :: z2 :: [z3; z4; z5; z6; z7; z8] ++ n ++ [0]). split; [|cbn; by rewrite <- app_assoc].
    exists z2, [z3; z4; z5; z6; z7; z8], (n ++ [0]). rewrite Ef. eauto.
Qed.

Lemma gz_split buf : (exists hd data, buf = hd ++ data /\ gz_header hd) \/ (forall hd data, buf = hd ++ data -> ~ gz_header hd).
Proof.
  destruct (decide (10 <= length buf)%nat) as [Hl|Hl]; [destruct (decide (take 3 buf = [31; 139; 8])) as [Ht|Ht]; [destruct (gz_data buf) as [data|] eqn:Ed|]|].
  1: left; destruct (gz_data_some buf data Hl Ht Ed) as (hd & Hhd & E); by exists hd, data.
  all: right; intros hd data -> Hhd; destruct (gz_data_header hd data Hhd) as (H1 & H2 & H3); congruence || done.
Qed.

(** ** The whole function *)

(** The workspace is large enough, and the output buffer is at an even address, as [malloc]
    gives it, or behind a byte that can be read. *)
Record heap_ok (m : heap) : Prop := {
  ho_work : workspace_ok (state (m_junk m));
  ho_out : before_ok (m_addr m) (m_prev m)
}.
Definition all_there (m : heap) : bool := m_out m && m_strm m && m_work m.

Section whole.
Context {A : Type} (flush : @flush_fn A) (error : @error_fn A) (m : heap).
Abbreviation unzip := (fun fuel buf => gunzip fuel m (Some buf) None (Some flush) false error).

Definition with_pos (r : res (Z * Z * A)) : res (Z * option Z * list Z * A) :=
  let* (rc, p, a) := r in Ok (rc, Some (p + 8), [], a).

Lemma gunzip_unpacks fuel hd data :
  heap_ok m -> all_there m = true -> gz_header hd -> Forall is_u8 data -> (gunzip_fuel (length data) <= fuel)%nat ->
  exists cs rc left msg,
    (forall a, unzip fuel (hd ++ data) a = with_pos (deliver_all flush error cs rc (Z.of_nat (length (hd ++ data)) - left) msg a)) /\
    unpacks (inflated false 15 data) data [] cs rc left msg /\ small cs.
Proof.
  intros Hh Hm Hhd Hd Hfuel. destruct (gz_data_header hd data Hhd) as (Hl & Ht & Ed). apply andb_true_iff in Hm as [[Hm1 Hm2]%andb_true_iff Hm3].
  set (j := m_junk m).
  set (strm := mkStream data (total_in j) [] 32768 (total_out j) (m_addr m) (m_prev m) (data_type j) (adler j) (state j)).
  destruct (init_ready false strm (ho_work m Hh)) as (s & Ei & Hsz & Hrd). set (strm1 := mkStream _ _ _ _ _ _ _ _ _ s) in Ei.
  assert (Hfi : filled_in [] (inflated false 15) strm1) by (split; [by apply Hrd|done|done|cbn; by rewrite Hsz|apply Hh]).
  destruct (loop_unpacks flush error fuel (Z.of_nat (length (hd ++ data))) [] _ strm1 Hfi) as (cs & rc & left & msg & Hloop & Hu).
  { cbn [strm1 strm next_in]. pose proof (inflated_bounded false 15 data). unfold gunzip_fuel in Hfuel. cbn [length]. lia. }
  exists cs, rc, left, msg. split; [|exact Hu]. intros a. rewrite <- Hloop. unfold gunzip. rewrite Hm1, Hm2, Hm3. cbn [negb].
  destruct (hd ++ data) as [|b rest] eqn:Eb; [cbn in Hl; lia|]. cbn [rbind]. rewrite <- Eb in *.
  rewrite (proj2 (Z.ltb_ge _ _)), bool_decide_eq_true_2 by (done || lia). cbn [orb negb]. fold (gz_data (hd ++ data)). rewrite Ed.
  fold j strm. change (- MAX_WBITS) with (window_bits false). rewrite Ei. unfold rmap, with_pos.
  destruct (gunzip_loop _ _ _ _ _ _ _ _) as [[[[rc' len'] strm'] a']| | |]; done.
Qed.

(** The output is bounded by the input. *)
Lemma unpacks_bounded data cs rc left msg : unpacks (inflated false 15 data) data [] cs rc left msg -> (length (pieces cs) <= 2064 * length data)%nat.
Proof.
  intros Hu. pose proof (inflated_bounded false 15 data) as Hb. destruct Hu as [(_ & _ & rest & E & _)|(_ & _ & Hp & _)].
  - by rewrite E in Hb.
  - apply prefix_length in Hp. cbn [app] in Hp. lia.
Qed.

(** Without memory or a header there is no output. *)
Lemma gunzip_fails fuel buf :
  all_there m = false \/ (forall hd data, buf = hd ++ data -> ~ gz_header hd) ->
  exists pos msg, forall a, unzip fuel buf a = Ok (-1, pos, [], error a msg).
Proof.
  intros Hno. unfold gunzip. destruct (m_out m) eqn:E1; cbn [negb]; [|eauto]. destruct (m_strm m) eqn:E2; cbn [negb]; [|eauto].
  destruct (m_work m) eqn:E3; cbn [negb]; [|eauto]. destruct Hno as [Hno|Hno]; [unfold all_there in Hno; by rewrite E1, E2, E3 in Hno|].
  destruct buf as [|b rest] eqn:Eb; [cbn; eauto|]. cbn [rbind]. rewrite <- Eb in *. clear Eb.
  destruct (Z.ltb_spec (Z.of_nat (length buf)) 10) as [|Hl]; [cbn; eauto|]. case_bool_decide as Ht; cbn [orb negb]; [|eauto].
  fold (gz_data buf). destruct (gz_data buf) as [data|] eqn:Ed; [|eauto].
  destruct (gz_data_some buf data ltac:(lia) Ht Ed) as (hd & Hhd & ->). by destruct (Hno hd data eq_refl).
Qed.
End whole.

(** ** Into memory *)

(** Without a window, as long as there is no history. *)
Lemma ready_no_window zlib S strm :
  ready zlib [] S strm -> before_check (mode (state strm)) = true -> wsize (win (state strm)) <> 0 -> ready zlib [] S (no_window strm).
Proof.
  intros [[F1 F2 F3 F4 F5 F6 F7 F8 F9 F10 F11 F12 F13 F14] Hp] Hb Hne. specialize (F5 Hb). destruct F4 as [W1 W2 W3 W4 W5 W6]. destruct F5 as [V1 V2 V3]. cbn -[Z.of_nat] in *.
  assert (E0 : whave (win (state strm)) = 0) by lia. assert (E1 : write (win (state strm)) = 0) by (rewrite W6; lia).
  split; [|].
  - split; cbn -[Z.of_nat]; auto; (split; cbn -[Z.of_nat]; rewrite ?E0, ?E1; auto; lia).
  - destruct (pending_fun _ _ _ _ _ Hp) as (f & HS & _). cbn in *. destruct (mode (state strm)); try exact Hp.
    destruct Hp as (H1 & cl & acc & fuel & [C1 C2 C3 C4 C5 C6] & Hrest). split; [done|]. exists cl, acc, fuel. split; [by split|exact Hrest].
Qed.

(** One call with room for all of the output: [v] is the verdict on all of the input. *)
Definition tells_all (v : verdict * list Z) (ret : Z) (strm' : z_stream) : Prop :=
  ret = Z_STREAM_END /\ v = (Complete (bits_of_bytes (next_in strm')), next_out strm') \/
  ret = Z_DATA_ERROR /\ v = (Invalid, next_out strm') \/
  ret = Z_NEED_DICT /\ v = (Dictionary, next_out strm') \/
  (ret = Z_OK \/ ret = Z_BUF_ERROR) /\ next_in strm' = [] /\ v = (Starved, next_out strm').
Lemma one_call zlib S strm flush :
  ready zlib [] S strm -> Forall is_u8 (next_in strm) -> next_out strm = [] -> 0 <= avail_out strm -> before_ok (out_addr strm) (out_prev strm) ->
  flush <> Z_PACKET_FLUSH -> flush <> Z_BLOCK ->
  exists ret strm', zlib_inflate strm flush = Some (ret, strm') /\
    0 <= avail_out strm' /\ avail_out strm' = avail_out strm - Z.of_nat (length (next_out strm')) /\
    (tells_all (S (next_in strm)) ret strm' \/ (ret = Z_OK \/ ret = Z_BUF_ERROR) /\ avail_out strm <= Z.of_nat (length (S (next_in strm)).2)).
Proof.
  intros Hrd Hin Ho Hr Hbefore H1 H2. destruct (call_ok zlib [] S strm flush Hrd Hin Hr Hbefore H1 H2) as (ret & strm' & new & S' & E & Hc).
  pose proof (cd_moved _ _ _ _ _ _ _ _ _ Hc) as Hm.
  assert (next_out strm' = new) as Eo by (rewrite (mv_out _ _ _ Hm), Ho; done). subst new.
  exists ret, strm'. split; [done|]. split; [apply (mv_fits _ _ _ Hm)|]. split; [apply (mv_room _ _ _ Hm)|].
  pose proof (cd_rest _ _ _ _ _ _ _ _ _ Hc []) as ES. rewrite !app_nil_r in ES. rewrite ES. unfold tells_all.
  destruct (cd_tells _ _ _ _ _ _ _ _ _ Hc) as [[-> HT]|[[-> HT]|[[-> HT]|[Hret [Hx|[Hn HT]]]]]]; cbn [app] in *; rewrite ?HT; auto 10.
  - right. split; [done|]. rewrite (mv_room _ _ _ Hm) in Hx. pose proof (cd_prefix _ _ _ _ _ _ _ _ _ Hc (next_in strm')) as Hp%prefix_length.
    cbn [app] in Hp. lia.
  - left. rewrite Hn, HT. auto 10.
Qed.

Lemma blob_stream m sz buf :
  heap_ok m -> exists strm, zlib_inflateInit2 (mkStream buf (total_in (m_junk m)) [] sz (total_out (m_junk m)) (m_addr m) (m_prev m)
      (data_type (m_junk m)) (adler (m_junk m)) (state (m_junk m))) (- MAX_WBITS) = (Z_OK, strm) /\
    ready false [] (inflated false 15) strm /\ next_in strm = buf /\ next_out strm = [] /\ avail_out strm = sz /\
    before_check (mode (state strm)) = true /\ wsize (win (state strm)) <> 0 /\ before_ok (out_addr strm) (out_prev strm).
Proof.
  intros Hh. match goal with |- exists _, zlib_inflateInit2 ?s _ = _ /\ _ => destruct (init_ready false s (ho_work m Hh)) as (st & Ei & Hsz & Hrd) end.
  change (- MAX_WBITS) with (window_bits false). eexists. split; [exact Ei|]. split; [by apply Hrd|]. split; [done|]. split; [done|]. split; [done|].
  split; [|split; [cbn; by rewrite Hsz|apply Hh]]. cbn in Ei. injection Ei as <-. done.
Qed.

Lemma gunzip_in_memory {A} (error : @error_fn A) m fuel hd data :
  heap_ok m -> m_strm m && m_work m = true -> gz_header hd -> Forall is_u8 data ->
  Z.of_nat (length (inflated false 15 data).2) < 2147483647 -> (2 <= fuel)%nat ->
  exists rc left out msg,
    (forall a, gunzip fuel m (Some (hd ++ data)) None None true error a =
       Ok (rc, Some (Z.of_nat (length (hd ++ data)) - left + 8), out, match msg with Some x => error a x | None => a end)) /\
    (rc = 0 /\ msg = None /\ (exists rest, inflated false 15 data = (Complete (bits_of_bytes rest), out) /\ left = Z.of_nat (length rest)) \/
     rc = -1 /\ is_Some msg /\ (forall rest out, inflated false 15 data <> (Complete rest, out))).
Proof.
  intros Hh [Hm2 Hm3]%andb_true_iff Hhd Hd Hsize Hfuel. destruct (gz_data_header hd data Hhd) as (Hl & Ht & Ed).
  destruct (blob_stream m 2147483647 data Hh) as (strm & Ei & Hrd & E1 & E2 & E3 & Hb & Hne & Hbefore). pose proof (ready_no_window _ _ _ Hrd Hb Hne) as Hrd'.
  remember (Z.of_nat (length (hd ++ data))) as len eqn:El.
  assert (Hg : forall a, gunzip fuel m (Some (hd ++ data)) None None true error a =
    (let* (rc, len, strm, a) := gunzip_loop nofill None error 2147483647 fuel Z_OK len (no_window strm) a in
     Ok (rc, Some (len - Z.of_nat (length (next_in strm)) + 8), next_out strm, a))).
  { intros a. unfold gunzip. rewrite Hm2, Hm3. cbn [negb]. destruct (hd ++ data) as [|b rest] eqn:Eb; [cbn in Hl; lia|]. cbn [rbind]. rewrite <- Eb in *. rewrite El in *.
    rewrite (proj2 (Z.ltb_ge _ _)), bool_decide_eq_true_2 by (done || lia). cbn [orb negb]. fold (gz_data (hd ++ data)). rewrite Ed, Ei. done. }
  destruct fuel as [|[|fuel]]; [lia|lia|]. destruct data as [|b data'] eqn:Edat.
  { exists (-1), 0, [], (Some "read error"%string). split; [|right; split; [done|]; split; [eauto|discriminate]].
    intros a. rewrite Hg. cbn [gunzip_loop negb Z.eqb no_window next_in]. rewrite E1. cbn [rbind]. cbn. by rewrite E1, E2. }
  rewrite <- Edat in *.
  destruct (one_call false _ (no_window strm) Z_NO_FLUSH Hrd') as (ret & strm' & Ec & H0 & Ha & HT); [cbn; by rewrite E1|done|cbn; by rewrite E3|done|done|done|].
  cbn [no_window next_in avail_out] in Ha, HT. rewrite E1, E3 in *.
  assert (Hround : forall a, gunzip_loop nofill None error 2147483647 (S (S fuel)) Z_OK len (no_window strm) a =
    (if ret =? Z_STREAM_END then Ok (0, len, strm', a)
     else if negb (ret =? Z_OK) then Ok (-1, len, strm', error a "uncompression error"%string)
     else gunzip_loop nofill None error 2147483647 (S fuel) ret len strm' a)).
  { intros a. cbn [gunzip_loop negb Z.eqb]. cbn [no_window next_in]. rewrite E1, Edat. cbn [rbind]. rewrite Ec. cbn [of_option rbind negb]. done. }
  destruct HT as [[[-> HT]|[[-> HT]|[[-> HT]|[Hret [Hn HT]]]]]|[_ Hfull]]; [| | | |lia].
  - exists 0, (Z.of_nat (length (next_in strm'))), (next_out strm'), None. split; [intros a; by rewrite Hg, Hround|]. left. split; [done|]. split; [done|]. eauto.
  - eexists (-1), _, (next_out strm'), (Some _). split; [intros a; by rewrite Hg, Hround|]. right. split; [done|]. split; [eauto|]. congruence.
  - eexists (-1), _, (next_out strm'), (Some _). split; [intros a; by rewrite Hg, Hround|]. right. split; [done|]. split; [eauto|]. congruence.
  - eexists (-1), 0, (next_out strm'), (Some (if ret =? Z_OK then "read error"%string else "uncompression error"%string)).
    split; [|right; split; [done|]; split; [eauto|]; congruence].
    intros a. rewrite Hg, Hround. destruct Hret as [-> | ->]; cbn [Z.eqb Pos.eqb negb gunzip_loop Z_OK Z_BUF_ERROR Z_STREAM_END]; cbn; rewrite Hn; cbn; by rewrite ?Hn.
Qed.
