(* ===== verification/GunzipTheorems.v ===== *)
(** * What unpacking guarantees

    The correctness of [gunzip], with and without a callback for the output, and of
    [zlib_inflate_blob]. *)

From Stdlib Require Import ZArith Lia Bool.
From stdpp Require Import base numbers list option strings.
From S2P Require Import Prelude Deflate InfTreesTheorems Canon DeflateProofs InflateState Inflate InflateSim InflateCall InflateTheorems Result Gunzip GunzipProofs.
Open Scope Z_scope.

(** C7: [gunzip] with a callback that takes the output, called with all of the data, for any
    callbacks.  It never accesses anything outside of its objects, and it returns, unless a
    callback does not.  On a gzip file it hands out pieces of at most 32 KiB, one after the
    other, and stops at the first that is not taken, with "write error".  If all are taken and
    it returns 0, then the data are a complete stream, the pieces are what the specification
    gives for it, no error is reported, and [pos] is eight bytes after the end of the stream.
    Otherwise it returns -1 after exactly one call of [error], and the pieces are the start of
    what the specification gives; this happens for a complete stream only if less than five
    bytes follow it, so that the trailer is cut.  Data without a header of a gzip file, or a
    lack of memory, give -1 and one call of [error] without any output. *)
Theorem gunzip_correct {A} (flush : @flush_fn A) (error : @error_fn A) m buf :
  heap_ok m -> Forall is_u8 buf ->
  (exists hd data cs rc left msg, buf = hd ++ data /\ gz_header hd /\ all_there m = true /\
    (forall a, gunzip (gunzip_fuel (length buf)) m (Some buf) None (Some flush) false error a =
       with_pos (deliver_all flush error cs rc (Z.of_nat (length buf) - left) msg a)) /\
    unpacks (inflated false 15 data) data [] cs rc left msg /\ small cs) \/
  (all_there m = false \/ (forall hd data, buf = hd ++ data -> ~ gz_header hd)) /\
  exists pos msg, forall a, gunzip (gunzip_fuel (length buf)) m (Some buf) None (Some flush) false error a = Ok (-1, pos, [], error a msg).
Proof.
  intros Hh Hb. destruct (all_there m) eqn:Ha; [destruct (gz_split buf) as [(hd & data & -> & Hhd)|Hno]|].
  - left. apply Forall_app in Hb as [_ Hb].
    destruct (gunzip_unpacks flush error m (gunzip_fuel (length (hd ++ data))) hd data) as (cs & rc & left & msg & H); try done.
    { rewrite length_app. unfold gunzip_fuel. lia. }
    by exists hd, data, cs, rc, left, msg.
  - right. split; [by right|]. apply gunzip_fails. by right.
  - right. split; [by left|]. apply gunzip_fails. by left.
Qed.

(** The stream of [panama] without its wrapper in a gzip file, with the output collected. *)
Definition panama_gz : list Z := [31; 139; 8; 0; 0; 0; 0; 0; 2; 3] ++ take 28 (drop 2 panama) ++ [1; 2; 3; 4; 45; 0; 0; 0].
Definition collect : @flush_fn (list Z * list string) := fun a c => Ok (Z.of_nat (length c), (a.1 ++ c, a.2)).
Definition complain : @error_fn (list Z * list string) := fun a x => (a.1, a.2 ++ [x]).
Definition good_heap : heap := mkHeap true true true true blank_stream 4096 None.
Lemma good_heap_ok : heap_ok good_heap.
Proof. split; [exact blank_workspace|by left]. Qed.
Lemma panama_gz_bytes : Forall is_u8 panama_gz.
Proof. apply (bool_decide_unpack _). vm_compute. exact I. Qed.
Lemma panama_gunzip :
  gunzip (gunzip_fuel (length panama_gz)) good_heap (Some panama_gz) None (Some collect) false complain ([], []) = Ok (0, Some 46, [], (panama_text, [])).
Proof. vm_compute. reflexivity. Qed.
(** From a run, what the result says of the data. *)
Lemma gunzip_ran m buf p out :
  (exists hd data cs rc left msg, buf = hd ++ data /\ gz_header hd /\ all_there m = true /\
    (forall a, gunzip (gunzip_fuel (length buf)) m (Some buf) None (Some collect) false complain a =
       with_pos (deliver_all collect complain cs rc (Z.of_nat (length buf) - left) msg a)) /\
    unpacks (inflated false 15 data) data [] cs rc left msg /\ small cs) \/
  (all_there m = false \/ (forall hd data, buf = hd ++ data -> ~ gz_header hd)) /\
  (exists pos msg, forall a, gunzip (gunzip_fuel (length buf)) m (Some buf) None (Some collect) false complain a = Ok (-1, pos, [], complain a msg)) ->
  gunzip (gunzip_fuel (length buf)) m (Some buf) None (Some collect) false complain ([], []) = Ok (0, p, [], (out, [])) ->
  exists hd data rest, buf = hd ++ data /\ inflated false 15 data = (Complete (bits_of_bytes rest), out).
Proof.
  assert (Hd : forall cs a, deliver collect complain cs a = Ok (None, (a.1 ++ pieces cs, a.2))).
  { intros cs. induction cs as [|[c q] cs IH]; intros [a1 a2]; cbn [deliver].
    - cbn. by rewrite app_nil_r.
    - cbn [collect rbind fst snd]. rewrite Z.eqb_refl. cbn [negb]. rewrite IH. cbn [fst snd]. by rewrite <- app_assoc. }
  intros [(hd & data & cs & rc & left & msg & -> & _ & _ & Hg & Hu & _)|(_ & pos & msg & Hg)] Hrun; rewrite Hg in Hrun; [|done].
  unfold with_pos, deliver_all in Hrun. rewrite Hd in Hrun. cbn in Hrun. injection Hrun as -> _ Hout.
  destruct Hu as [(_ & -> & rest & E & _)|[? _]]; [|done]. cbn in Hout, E. exists hd, data, rest. split; [done|]. injection Hout as <-. done.
Qed.
Lemma gunzip_correct_witness : exists hd data rest, panama_gz = hd ++ data /\ inflated false 15 data = (Complete (bits_of_bytes rest), panama_text).
Proof.
  exact (gunzip_ran good_heap panama_gz (Some 46) panama_text
    (gunzip_correct collect complain good_heap panama_gz good_heap_ok panama_gz_bytes) panama_gunzip).
Defined.


