(* ===== verification/Initramfs.v ===== *)
(** * Unpacking the initial root file system: init/initramfs.c

    The cpio reader as the state machine it is: static variables in one record, one
    definition per action, driven by [write_buffer] over whatever pieces of the
    archive arrive.  The file system is a parameter, a record of the system calls the
    reader makes.  [Fault] is an access outside the object a
    pointer points into, [Stuck] a loop that ran out of fuel. *)

From Stdlib Require Import ZArith Lia Bool.
From stdpp Require Import base numbers list strings.
From S2P Require Import Prelude Kstrtox Result Gunzip.
Open Scope Z_scope.

Definition path : Type := list Z.

(** ** System calls *)

(** The calls whose result the reader looks at answer it; the others only change the
    file system. *)
Record vfs (W : Type) := mkVfs {
  sys_newlstat : path -> W -> option Z;
  sys_rmdir : path -> W -> W;
  sys_unlink : path -> W -> W;
  sys_link : path -> path -> W -> Z * W;
  sys_open : path -> Z -> Z -> W -> Z * W;
  sys_fchown : Z -> Z -> Z -> W -> W;
  sys_fchmod : Z -> Z -> W -> W;
  sys_ftruncate : Z -> Z -> W -> W;
  sys_write : Z -> list Z -> W -> W;
  sys_close : Z -> W -> W;
  sys_mkdir : path -> Z -> W -> W;
  sys_chown : path -> Z -> Z -> W -> W;
  sys_chmod : path -> Z -> W -> W;
  sys_mknod : path -> Z -> Z -> W -> W;
  sys_symlink : path -> path -> W -> W;
  sys_lchown : path -> Z -> Z -> W -> W;
  do_utimes : path -> Z -> W -> W;
  sys_getdents64 : Z -> W -> list path * W;
  free_initrd_mem : W -> W
}.
Arguments sys_newlstat {W}.
Arguments sys_rmdir {W}.
Arguments sys_unlink {W}.
Arguments sys_link {W}.
Arguments sys_open {W}.
Arguments sys_fchown {W}.
Arguments sys_fchmod {W}.
Arguments sys_ftruncate {W}.
Arguments sys_write {W}.
Arguments sys_close {W}.
Arguments sys_mkdir {W}.
Arguments sys_chown {W}.
Arguments sys_chmod {W}.
Arguments sys_mknod {W}.
Arguments sys_symlink {W}.
Arguments sys_lchown {W}.
Arguments do_utimes {W}.
Arguments sys_getdents64 {W}.
Arguments free_initrd_mem {W}.

Definition O_RDONLY : Z := 0.
Definition O_WRONLY : Z := 1.
Definition O_CREAT : Z := 64.
Definition O_TRUNC : Z := 512.
Definition PATH_MAX : Z := 4096.

Definition S_IFMT : Z := 0xF000.
Definition fmt (mode : Z) : Z := Z.land mode S_IFMT.
Definition S_ISLNK (mode : Z) : bool := fmt mode =? 0xA000.
Definition S_ISREG (mode : Z) : bool := fmt mode =? 0x8000.
Definition S_ISDIR (mode : Z) : bool := fmt mode =? 0x4000.
Definition S_ISCHR (mode : Z) : bool := fmt mode =? 0x2000.
Definition S_ISBLK (mode : Z) : bool := fmt mode =? 0x6000.
Definition S_ISFIFO (mode : Z) : bool := fmt mode =? 0x1000.
Definition S_ISSOCK (mode : Z) : bool := fmt mode =? 0xC000.

(** include/linux/kdev_t.h *)
Definition MKDEV (ma mi : Z) : Z := Z.lor (u32 (Z.shiftl ma 20)) mi.
Definition new_encode_dev (dev : Z) : Z :=
  let major := Z.shiftr dev 20 in
  let minor := Z.land dev 0xfffff in
  Z.lor (Z.lor (Z.land minor 0xff) (u32 (Z.shiftl major 8))) (u32 (Z.shiftl (Z.ldiff minor 0xff) 12)).

Definition N_ALIGN (len : Z) : Z := u32 (Z.land (u32 (len + 1)) (Z.lnot 3) + 2).

(** ** Data *)

Record hash_entry := mkHash { h_ino : Z; h_minor : Z; h_major : Z; h_mode : Z; h_name : path }.

(** The fields of the header last parsed. *)
Record cpio := mkCpio {
  ino : Z; mode : Z; uid : Z; gid : Z; nlink : Z; mtime : Z; body_len : Z;
  major : Z; minor : Z; rdev : Z; name_len : Z
}.

Inductive state := Start | Collect | GotHeader | SkipIt | GotName | CopyFile | GotSymlink | Reset.
#[export] Instance state_eq_dec : EqDecision state.
Proof. solve_decision. Defined.
Inductive bufname := HeaderBuf | SymlinkBuf | NameBuf.
(** Pointers: into the piece of archive being read, or into one of the buffers. *)
Inductive place := Dangling | InInput (off : Z) | InBuf (b : bufname) (off : Z).

(** The static variables.  [input] is the object [victim] points into. *)
Record fsm (W : Type) := mkFsm {
  message : option string;
  head : Z -> list hash_entry;
  dir_list : list (path * Z);
  hdr : cpio;
  st : state;
  next_state : state;
  input : list Z;
  victim : Z;
  count : Z;
  this_header : Z;
  next_header : Z;
  collected : place;
  collect : place;
  remains : Z;
  bufs : bufname -> list Z;
  wfd : Z;
  vcollected : path;
  my_inptr : Z;
  world : W
}.
Arguments message {W}.
Arguments head {W}.
Arguments dir_list {W}.
Arguments hdr {W}.
Arguments st {W}.
Arguments next_state {W}.
Arguments input {W}.
Arguments victim {W}.
Arguments count {W}.
Arguments this_header {W}.
Arguments next_header {W}.
Arguments collected {W}.
Arguments collect {W}.
Arguments remains {W}.
Arguments bufs {W}.
Arguments wfd {W}.
Arguments vcollected {W}.
Arguments my_inptr {W}.
Arguments world {W}.
Arguments mkFsm {W}.

Definition upd_buf (bs : bufname -> list Z) (b : bufname) (l : list Z) : bufname -> list Z := fun b' =>
  match b, b' with
  | HeaderBuf, HeaderBuf | SymlinkBuf, SymlinkBuf | NameBuf, NameBuf => l
  | _, _ => bs b'
  end.

(** Stores to the static variables. *)
Section stores.
Context {W : Type}.
Implicit Types f : fsm W.
Definition set_message f (x : option string) : fsm W :=
  mkFsm x (head f) (dir_list f) (hdr f) (st f) (next_state f) (input f) (victim f) (count f) (this_header
    f) (next_header f) (collected f) (collect f) (remains f) (bufs f) (wfd f) (vcollected f) (my_inptr f)
    (world f).
Definition set_head f (x : Z -> list hash_entry) : fsm W :=
  mkFsm (message f) x (dir_list f) (hdr f) (st f) (next_state f) (input f) (victim f) (count f)
    (this_header f) (next_header f) (collected f) (collect f) (remains f) (bufs f) (wfd f) (vcollected f)
    (my_inptr f) (world f).
Definition set_dir_list f (x : list (path * Z)) : fsm W :=
  mkFsm (message f) (head f) x (hdr f) (st f) (next_state f) (input f) (victim f) (count f) (this_header
    f) (next_header f) (collected f) (collect f) (remains f) (bufs f) (wfd f) (vcollected f) (my_inptr f)
    (world f).
Definition set_hdr f (x : cpio) : fsm W :=
  mkFsm (message f) (head f) (dir_list f) x (st f) (next_state f) (input f) (victim f) (count f)
    (this_header f) (next_header f) (collected f) (collect f) (remains f) (bufs f) (wfd f) (vcollected f)
    (my_inptr f) (world f).
Definition set_st f (x : state) : fsm W :=
  mkFsm (message f) (head f) (dir_list f) (hdr f) x (next_state f) (input f) (victim f) (count f)
    (this_header f) (next_header f) (collected f) (collect f) (remains f) (bufs f) (wfd f) (vcollected f)
    (my_inptr f) (world f).
Definition set_next_state f (x : state) : fsm W :=
  mkFsm (message f) (head f) (dir_list f) (hdr f) (st f) x (input f) (victim f) (count f) (this_header f)
    (next_header f) (collected f) (collect f) (remains f) (bufs f) (wfd f) (vcollected f) (my_inptr f)
    (world f).
Definition set_input f (x : list Z) : fsm W :=
  mkFsm (message f) (head f) (dir_list f) (hdr f) (st f) (next_state f) x (victim f) (count f)
    (this_header f) (next_header f) (collected f) (collect f) (remains f) (bufs f) (wfd f) (vcollected f)
    (my_inptr f) (world f).
Definition set_victim f (x : Z) : fsm W :=
  mkFsm (message f) (head f) (dir_list f) (hdr f) (st f) (next_state f) (input f) x (count f) (this_header
    f) (next_header f) (collected f) (collect f) (remains f) (bufs f) (wfd f) (vcollected f) (my_inptr f)
    (world f).
Definition set_count f (x : Z) : fsm W :=
  mkFsm (message f) (head f) (dir_list f) (hdr f) (st f) (next_state f) (input f) (victim f) x
    (this_header f) (next_header f) (collected f) (collect f) (remains f) (bufs f) (wfd f) (vcollected f)
    (my_inptr f) (world f).
Definition set_this_header f (x : Z) : fsm W :=
  mkFsm (message f) (head f) (dir_list f) (hdr f) (st f) (next_state f) (input f) (victim f) (count f) x
    (next_header f) (collected f) (collect f) (remains f) (bufs f) (wfd f) (vcollected f) (my_inptr f)
    (world f).
Definition set_next_header f (x : Z) : fsm W :=
  mkFsm (message f) (head f) (dir_list f) (hdr f) (st f) (next_state f) (input f) (victim f) (count f)
    (this_header f) x (collected f) (collect f) (remains f) (bufs f) (wfd f) (vcollected f) (my_inptr f)
    (world f).
Definition set_collected f (x : place) : fsm W :=
  mkFsm (message f) (head f) (dir_list f) (hdr f) (st f) (next_state f) (input f) (victim f) (count f)
    (this_header f) (next_header f) x (collect f) (remains f) (bufs f) (wfd f) (vcollected f) (my_inptr f)
    (world f).
Definition set_collect f (x : place) : fsm W :=
  mkFsm (message f) (head f) (dir_list f) (hdr f) (st f) (next_state f) (input f) (victim f) (count f)
    (this_header f) (next_header f) (collected f) x (remains f) (bufs f) (wfd f) (vcollected f) (my_inptr f)
    (world f).
Definition set_remains f (x : Z) : fsm W :=
  mkFsm (message f) (head f) (dir_list f) (hdr f) (st f) (next_state f) (input f) (victim f) (count f)
    (this_header f) (next_header f) (collected f) (collect f) x (bufs f) (wfd f) (vcollected f) (my_inptr f)
    (world f).
Definition set_bufs f (x : bufname -> list Z) : fsm W :=
  mkFsm (message f) (head f) (dir_list f) (hdr f) (st f) (next_state f) (input f) (victim f) (count f)
    (this_header f) (next_header f) (collected f) (collect f) (remains f) x (wfd f) (vcollected f) (my_inptr
    f) (world f).
Definition set_wfd f (x : Z) : fsm W :=
  mkFsm (message f) (head f) (dir_list f) (hdr f) (st f) (next_state f) (input f) (victim f) (count f)
    (this_header f) (next_header f) (collected f) (collect f) (remains f) (bufs f) x (vcollected f)
    (my_inptr f) (world f).
Definition set_vcollected f (x : path) : fsm W :=
  mkFsm (message f) (head f) (dir_list f) (hdr f) (st f) (next_state f) (input f) (victim f) (count f)
    (this_header f) (next_header f) (collected f) (collect f) (remains f) (bufs f) (wfd f) x (my_inptr f)
    (world f).
Definition set_my_inptr f (x : Z) : fsm W :=
  mkFsm (message f) (head f) (dir_list f) (hdr f) (st f) (next_state f) (input f) (victim f) (count f)
    (this_header f) (next_header f) (collected f) (collect f) (remains f) (bufs f) (wfd f) (vcollected f) x
    (world f).
Definition set_world f (x : W) : fsm W :=
  mkFsm (message f) (head f) (dir_list f) (hdr f) (st f) (next_state f) (input f) (victim f) (count f)
    (this_header f) (next_header f) (collected f) (collect f) (remains f) (bufs f) (wfd f) (vcollected f)
    (my_inptr f) x.
End stores.

Section reader.
Context {W : Type} (V : vfs W).
Implicit Types f : fsm W.

Definition error f (x : string) : fsm W :=
  match message f with None => set_message f (Some x) | Some _ => f end.

(** A change of the file system. *)
Definition sys f (op : W -> W) : fsm W := set_world f (op (world f)).

(** ** Memory *)

(** The bytes from a pointer to the end of its object. *)
Definition from_off (l : list Z) (off : Z) : option (list Z) :=
  if (0 <=? off) && (off <=? Z.of_nat (length l)) then Some (drop (Z.to_nat off) l) else None.
Definition mem_at f (p : place) : option (list Z) :=
  match p with
  | Dangling => None
  | InInput off => from_off (input f) off
  | InBuf b off => from_off (bufs f b) off
  end.
(** [n] bytes at a pointer. *)
Definition bytes_at f (p : place) (n : Z) : option (list Z) :=
  l ← mem_at f p;
  if (0 <=? n) && (n <=? Z.of_nat (length l)) then Some (take (Z.to_nat n) l) else None.

(** The string at a pointer: up to a NUL inside the object. *)
Fixpoint cstr (l : list Z) : option path :=
  match l with
  | [] => None
  | c :: l' => if c =? 0 then Some [] else s ← cstr l'; Some (c :: s)
  end.
Definition string_at f (p : place) : res path := of_option (l ← mem_at f p; cstr l).

Definition splice (l : list Z) (off : Z) (x : list Z) : option (list Z) :=
  if (0 <=? off) && (off + Z.of_nat (length x) <=? Z.of_nat (length l))
  then Some (take (Z.to_nat off) l ++ x ++ drop (Z.to_nat off + length x) l) else None.
(** Store bytes through a pointer. *)
Definition store_at f (p : place) (x : list Z) : res (fsm W) :=
  match p with
  | Dangling => Fault
  | InInput off => let* l := of_option (splice (input f) off x) in Ok (set_input f l)
  | InBuf b off => let* l := of_option (splice (bufs f b) off x) in Ok (set_bufs f (upd_buf (bufs f) b l))
  end.
Definition advance (p : place) (n : Z) : place :=
  match p with
  | Dangling => Dangling
  | InInput off => InInput (off + n)
  | InBuf b off => InBuf b (off + n)
  end.

(** ** The link table *)

Definition hash (major minor ino : Z) : Z :=
  let tmp := u32 (ino + minor + major * 8) in
  let tmp := u32 (tmp + Z.shiftr tmp 5) in
  Z.land tmp 31.

Definition same_link (major minor ino mode : Z) (q : hash_entry) : bool :=
  (h_ino q =? ino) && (h_minor q =? minor) && (h_major q =? major) &&
  (Z.land (Z.lxor (h_mode q) mode) S_IFMT =? 0).

(** [strcpy] into the entry's name, of [N_ALIGN(PATH_MAX)] bytes. *)
Definition find_link f (major minor ino mode : Z) (name : path) : res (option path * fsm W) :=
  let b := hash major minor ino in
  match List.find (same_link major minor ino mode) (head f b) with
  | Some q => Ok (Some (h_name q), f)
  | None =>
      if Z.of_nat (length name) <? N_ALIGN PATH_MAX then
        let q := mkHash ino minor major mode name in
        Ok (None, set_head f (fun b' => if b' =? b then head f b ++ [q] else head f b'))
      else Fault
  end.

Definition free_hash f : fsm W := set_head f (fun _ => []).

(** ** Directory times *)

Definition do_utime f (filename : path) (mtime : Z) : fsm W := sys f (do_utimes V filename mtime).
Definition dir_add f (name : path) (mtime : Z) : fsm W := set_dir_list f ((name, mtime) :: dir_list f).
Definition dir_utime f : fsm W :=
  set_dir_list (fold_left (fun f de => do_utime f de.1 de.2) (dir_list f) f) [].

(** ** Header *)

Definition field (s : list Z) (i : nat) : Z := (simple_strtoul (to_nul (take 8 (drop (6 + 8 * i) s))) 16).1.

Definition parse_header f (s : list Z) : res (fsm W) :=
  if (length s <? 102)%nat then Fault
  else Ok (set_hdr f (mkCpio (field s 0) (u16 (field s 1)) (field s 2) (field s 3) (field s 4) (s32 (field s 5))
         (field s 6) (field s 7) (field s 8) (new_encode_dev (MKDEV (field s 9) (field s 10))) (field s 11))).

(** ** The state machine *)

Definition eat f (n : Z) : fsm W :=
  set_count (set_this_header (set_victim f (victim f + n)) (s64 (this_header f + n))) (u32 (count f - n)).

Definition start_collect f (b : bufname) (size : Z) (next : state) : fsm W :=
  set_st (set_next_state (set_remains (set_collect (set_collected f (InBuf b 0)) (InBuf b 0)) (s32 size)) next)
    Collect.
Definition read_into f (b : bufname) (size : Z) (next : state) : fsm W :=
  if size <=? count f then set_st (eat (set_collected f (InInput (victim f))) size) next
  else start_collect f b size next.

Definition do_start f : res (bool * fsm W) := Ok (false, read_into f HeaderBuf 110 GotHeader).

Definition do_collect f : res (bool * fsm W) :=
  let n := u32 (remains f) in
  let n := if count f <? n then count f else n in
  let* x := of_option (bytes_at f (InInput (victim f)) n) in
  let* f := store_at f (collect f) x in
  let f := eat f n in
  let f := set_collect f (advance (collect f) n) in
  let f := set_remains f (s32 (remains f - n)) in
  if negb (remains f =? 0) then Ok (true, f) else Ok (false, set_st f (next_state f)).

(** "070707" and "070701" *)
Definition old_magic : list Z := [48; 55; 48; 55; 48; 55].
Definition newc_magic : list Z := [48; 55; 48; 55; 48; 49].

Definition do_header f : res (bool * fsm W) :=
  let* magic := of_option (bytes_at f (collected f) 6) in
  if bool_decide (magic = old_magic) then
    Ok (true, error f "incorrect cpio method used: use -H newc option")
  else if negb (bool_decide (magic = newc_magic)) then Ok (true, error f "no cpio magic")
  else
    let* s := of_option (mem_at f (collected f)) in
    let* f := parse_header f s in
    let h := hdr f in
    let f := set_next_header f (s64 (this_header f + N_ALIGN (name_len h) + body_len h)) in
    let f := set_next_header f (s64 (Z.land (next_header f + 3) (Z.lnot 3))) in
    let f := set_st f SkipIt in
    if (name_len h =? 0) || (PATH_MAX <? name_len h) then Ok (false, f)
    else if S_ISLNK (mode h) then
      if PATH_MAX <? body_len h then Ok (false, f)
      else Ok (false, start_collect f SymlinkBuf (u32 (N_ALIGN (name_len h) + body_len h)) GotSymlink)
    else if S_ISREG (mode h) || (body_len h =? 0) then
      Ok (false, read_into f NameBuf (N_ALIGN (name_len h)) GotName)
    else Ok (false, f).

Definition do_skip f : res (bool * fsm W) :=
  if s64 (this_header f + count f) <? next_header f then Ok (true, eat f (count f))
  else
    let f := eat f (u32 (next_header f - this_header f)) in
    Ok (false, set_st f (next_state f)).

(** [while(count && *victim == '\0') eat(1)] *)
Fixpoint eat_zeros (fuel : nat) f : res (fsm W) :=
  if count f =? 0 then Ok f
  else
    let* x := of_option (bytes_at f (InInput (victim f)) 1) in
    if bool_decide (x = [0]) then
      match fuel with O => Stuck | S fuel => eat_zeros fuel (eat f 1) end
    else Ok f.
Definition do_reset f : res (bool * fsm W) :=
  let* f := eat_zeros (Z.to_nat (count f)) f in
  if negb (count f =? 0) && negb (Z.land (this_header f) 3 =? 0)
  then Ok (true, error f "broken padding") else Ok (true, f).

(** -1, 0 or 1 *)
Definition maybe_link f : res (Z * fsm W) :=
  let h := hdr f in
  if 2 <=? nlink h then
    let* name := string_at f (collected f) in
    let* (old, f) := find_link f (major h) (minor h) (ino h) (mode h) name in
    match old with
    | Some old =>
        let '(r, w) := sys_link V old name (world f) in
        Ok (if r <? 0 then -1 else 1, set_world f w)
    | None => Ok (0, f)
    end
  else Ok (0, f).

Definition clean_path f (p : path) (m : Z) : fsm W :=
  match sys_newlstat V p (world f) with
  | None => f
  | Some st_mode =>
      if negb (Z.land (Z.lxor st_mode m) S_IFMT =? 0) then
        if S_ISDIR st_mode then sys f (sys_rmdir V p) else sys f (sys_unlink V p)
      else f
  end.

(** "TRAILER!!!" *)
Definition trailer_name : path := [84; 82; 65; 73; 76; 69; 82; 33; 33; 33].

Definition do_name f : res (bool * fsm W) :=
  let f := set_next_state (set_st f SkipIt) Reset in
  let* name := string_at f (collected f) in
  let h := hdr f in
  if bool_decide (name = trailer_name) then Ok (false, free_hash f)
  else
    let f := clean_path f name (mode h) in
    if S_ISREG (mode h) then
      let* (ml, f) := maybe_link f in
      if 0 <=? ml then
        let openflags := Z.lor O_WRONLY O_CREAT in
        let openflags := if negb (ml =? 1) then Z.lor openflags O_TRUNC else openflags in
        let '(fd, w) := sys_open V name openflags (mode h) (world f) in
        let f := set_wfd (set_world f w) fd in
        if 0 <=? fd then
          let f := sys f (sys_fchown V fd (uid h) (gid h)) in
          let f := sys f (sys_fchmod V fd (mode h)) in
          let f := if negb (body_len h =? 0) then sys f (sys_ftruncate V fd (body_len h)) else f in
          Ok (false, set_st (set_vcollected f name) CopyFile)
        else Ok (false, f)
      else Ok (false, f)
    else if S_ISDIR (mode h) then
      let f := sys f (sys_mkdir V name (mode h)) in
      let f := sys f (sys_chown V name (uid h) (gid h)) in
      let f := sys f (sys_chmod V name (mode h)) in
      Ok (false, dir_add f name (mtime h))
    else if S_ISBLK (mode h) || S_ISCHR (mode h) || S_ISFIFO (mode h) || S_ISSOCK (mode h) then
      let* (ml, f) := maybe_link f in
      if ml =? 0 then
        let f := sys f (sys_mknod V name (mode h) (rdev h)) in
        let f := sys f (sys_chown V name (uid h) (gid h)) in
        let f := sys f (sys_chmod V name (mode h)) in
        Ok (false, do_utime f name (mtime h))
      else Ok (false, f)
    else Ok (false, f).

Definition set_body_len f (n : Z) : fsm W :=
  let h := hdr f in
  set_hdr f (mkCpio (ino h) (mode h) (uid h) (gid h) (nlink h) (mtime h) n (major h) (minor h) (rdev h)
    (name_len h)).

Definition do_copy f : res (bool * fsm W) :=
  let h := hdr f in
  if body_len h <=? count f then
    let* x := of_option (bytes_at f (InInput (victim f)) (body_len h)) in
    let f := sys f (sys_write V (wfd f) x) in
    let f := sys f (sys_close V (wfd f)) in
    let f := do_utime f (vcollected f) (mtime h) in
    let f := eat f (body_len h) in
    Ok (false, set_st f SkipIt)
  else
    let* x := of_option (bytes_at f (InInput (victim f)) (count f)) in
    let f := sys f (sys_write V (wfd f) x) in
    let f := set_body_len f (u32 (body_len h - count f)) in
    Ok (true, eat f (count f)).

Definition do_symlink f : res (bool * fsm W) :=
  let h := hdr f in
  let* f := store_at f (advance (collected f) (u32 (N_ALIGN (name_len h) + body_len h))) [0] in
  let* name := string_at f (collected f) in
  let f := clean_path f name 0 in
  let* target := string_at f (advance (collected f) (N_ALIGN (name_len h))) in
  let f := sys f (sys_symlink V target name) in
  let f := sys f (sys_lchown V name (uid h) (gid h)) in
  let f := do_utime f name (mtime h) in
  Ok (false, set_next_state (set_st f SkipIt) Reset).

Definition actions (s : state) : fsm W -> res (bool * fsm W) :=
  match s with
  | Start => do_start
  | Collect => do_collect
  | GotHeader => do_header
  | SkipIt => do_skip
  | GotName => do_name
  | CopyFile => do_copy
  | GotSymlink => do_symlink
  | Reset => do_reset
  end.

(** [while (!actions[state]()) ;] *)
Fixpoint run_actions (fuel : nat) f : res (fsm W) :=
  match fuel with
  | O => Stuck
  | S fuel =>
      let* (stop, f) := actions (st f) f in
      if stop then Ok f else run_actions fuel f
  end.

(** Between two returns that consume nothing there are at most seven actions. *)
Definition action_fuel (len : Z) : nat := 8 * Z.to_nat len + 8.

(** [buf] is at offset [off] of the current input. *)
Definition write_buffer f (off len : Z) : res (Z * fsm W) :=
  let f := set_victim (set_count f len) off in
  let* f := run_actions (action_fuel len) f in
  Ok (u32 (len - count f), f).

Definition byte_at (l : list Z) (off : Z) : res Z :=
  if off <? 0 then Fault else of_option (l !! Z.to_nat off).

(** The loop condition calls [write_buffer] before it looks at [message]. *)
Fixpoint flush_loop (fuel : nat) f (off len : Z) : res (fsm W) :=
  match fuel with
  | O => Stuck
  | S fuel =>
      let* (written, f) := write_buffer f off len in
      if (written <? len) && bool_decide (message f = None) then
        let* c := byte_at (input f) (off + written) in
        if c =? 48 then flush_loop fuel (set_st f Start) (off + written) (len - written)
        else if c =? 0 then flush_loop fuel (set_st f Reset) (off + written) (len - written)
        else flush_loop fuel (error f "junk in compressed archive") off len
      else Ok f
  end.

(** Reading goes on in another object; pointers into the old one are not followed. *)
Definition switch_input f (l : list Z) : fsm W :=
  set_input (set_collected f (match collected f with InInput _ => Dangling | p => p end)) l.

Definition flush_buffer f (bufv : list Z) : res (Z * fsm W) :=
  if bool_decide (message f <> None) then Ok (-1, f)
  else
    let len := Z.of_nat (length bufv) in
    let* f := flush_loop (length bufv + 2) (switch_input f bufv) 0 len in
    Ok (len, f).

(** ** Decompression (lib/decompress.c) *)

(** A decompressor, called with the data, callbacks to get more and to take the output, an
    output buffer and a callback for errors, answers its return code and the input consumed. *)
Definition decompress_fn : Type :=
  option (list Z) -> option (@fill_fn (fsm W)) -> option (@flush_fn (fsm W)) -> bool -> @error_fn (fsm W) ->
  fsm W -> res (Z * option Z * list Z * fsm W).
(** What [malloc] answers and where, when [gunzip] is called. *)
Context (mem : fsm W -> heap).
Definition gunzip : decompress_fn := fun buf fill flush out_buf error f =>
  Gunzip.gunzip (gunzip_fuel (match buf with Some buf => length buf | None => O end)) (mem f) buf fill flush out_buf error f.

(** The configuration has gzip only. *)
Definition compressed_formats : list (list Z * string * option decompress_fn) :=
  [([31; 139], "gzip"%string, Some gunzip); ([31; 158], "gzip"%string, Some gunzip);
   ([66; 90], "bzip2"%string, None); ([93; 0], "lzma"%string, None);
   ([253; 55], "xz"%string, None); ([137; 76], "lzo"%string, None)].

(** [None]: the name is not assigned. *)
Definition decompress_method (inbuf : list Z) : option (option string) * option decompress_fn :=
  if (length inbuf <? 2)%nat then (None, None)
  else
    match List.find (fun cf => bool_decide (take 2 inbuf = cf.1.1)) compressed_formats with
    | Some (_, name, d) => (Some (Some name), d)
    | None => (Some None, None)
    end.

(** [res = decompress(buf, len, NULL, flush_buffer, NULL, &my_inptr, error)] *)
Definition decompress (d : decompress_fn) f (buf : list Z) : res (Z * fsm W) :=
  let* (rc, pos, _, f) := d (Some buf) None (Some flush_buffer) false error f in
  Ok (rc, match pos with Some p => set_my_inptr f (u32 p) | None => f end).

Definition not_configured (name : string) : string :=
  String.substring 0 63 ("compression method " +:+ name +:+ " not configured").

(** One round of the loop of [unpack_to_rootfs] on compressed data. *)
Definition unpack_compressed f (off len : Z) : res (fsm W) :=
  let buf := input f in
  let saved_offset := this_header f in
  let f := set_this_header f 0 in
  let rest := take (Z.to_nat len) (drop (Z.to_nat off) buf) in
  let* f :=
    match decompress_method rest with
    | (_, Some d) =>
        let* (rc, f) := decompress d f rest in
        Ok (if negb (rc =? 0) then error f "decompressor failed" else f)
    | (None, None) => Fault
    | (Some (Some name), None) =>
        Ok (match message f with None => set_message f (Some (not_configured name)) | Some _ => f end)
    | (Some None, None) => Ok (error f "junk in compressed archive")
    end in
  let f := match st f with Reset => f | _ => error f "junk in compressed archive" end in
  Ok (switch_input (set_this_header f (s64 (saved_offset + my_inptr f))) buf).

Fixpoint unpack_loop (fuel : nat) f (off len : Z) : res (fsm W) :=
  if bool_decide (message f <> None) || (len =? 0) then Ok f
  else
    match fuel with
    | O => Stuck
    | S fuel =>
        let* c := byte_at (input f) off in
        if (c =? 48) && (Z.land (this_header f) 3 =? 0) then
          let* (written, f) := write_buffer (set_st f Start) off len in
          unpack_loop fuel f (off + written) (u32 (len - written))
        else if c =? 0 then unpack_loop fuel (set_this_header f (s64 (this_header f + 1))) (off + 1) (len - 1)
        else
          let* f := unpack_compressed f off len in
          unpack_loop fuel f (off + my_inptr f) (u32 (len - my_inptr f))
    end.

(** [junk] are the contents of the three buffers as allocated. *)
Definition unpack_to_rootfs (junk : bufname -> list Z) f (buf : list Z) : res (option string * fsm W) :=
  let f := switch_input (set_bufs f junk) buf in
  let f := set_message (set_this_header (set_st f Start) 0) None in
  let* f := unpack_loop (length buf) f 0 (Z.of_nat (length buf)) in
  let f := dir_utime f in
  Ok (message f, f).

(** ** The initcall *)

(** [do_retain_initrd], and the result. *)
Definition retain_initrd_param (str : path) (do_retain_initrd : bool) : bool * Z :=
  match str with [] => (true, 1) | _ => (do_retain_initrd, 0) end.

(** The init ramdisk is the memory between [initrd_start] and [initrd_end], or [None]
    when these are zero. *)
Definition free_initrd f (do_retain_initrd : bool) : fsm W * option (list Z) :=
  (if do_retain_initrd then f else sys f (free_initrd_mem V), None).

Definition clean_entry f (d_name : path) : fsm W :=
  match sys_newlstat V d_name (world f) with
  | None => f
  | Some st_mode => if S_ISDIR st_mode then sys f (sys_rmdir V d_name) else sys f (sys_unlink V d_name)
  end.
Fixpoint clean_batches (fuel : nat) f (fd : Z) : res (fsm W) :=
  let '(names, w) := sys_getdents64 V fd (world f) in
  let f := set_world f w in
  match names with
  | [] => Ok f
  | _ => match fuel with O => Stuck | S fuel => clean_batches fuel (fold_left clean_entry names f) fd end
  end.
(** "/" and "/initrd.image" *)
Definition root_path : path := [47].
Definition initrd_image : path := [47; 105; 110; 105; 116; 114; 100; 46; 105; 109; 97; 103; 101].
Definition clean_rootfs (fuel : nat) f : res (fsm W) :=
  let '(fd, w) := sys_open V root_path O_RDONLY 0 (world f) in
  let f := set_world f w in
  if fd <? 0 then Ok f
  else let* f := clean_batches fuel f fd in Ok (sys f (sys_close V fd)).

Definition populate_rootfs (fuel : nat) (junk : bufname -> list Z) f (initramfs : list Z)
  (initrd : option (list Z)) (retain : bool) : res (fsm W * option (list Z)) :=
  let* (err, f) := unpack_to_rootfs junk f initramfs in
  if bool_decide (err <> None) then Panic
  else
    match initrd with
    | None => Ok (f, initrd)
    | Some image =>
        let* (err, f) := unpack_to_rootfs junk f image in
        if bool_decide (err = None) then Ok (free_initrd f retain)
        else
          let* f := clean_rootfs fuel f in
          let* (_, f) := unpack_to_rootfs junk f initramfs in
          let '(fd, w) := sys_open V initrd_image (Z.lor O_WRONLY O_CREAT) 448 (world f) in
          let f := set_world f w in
          if 0 <=? fd then
            Ok (free_initrd (sys (sys f (sys_write V fd image)) (sys_close V fd)) retain)
          else Ok (f, initrd)
    end.
End reader.
