(* ===== verification/InitramfsSpec.v ===== *)
(** * Archives and what unpacking them means

    The "newc" cpio format as an encoder, and the effect of an entry on the file
    system as one function per kind of entry, without any buffering or state machine.
    The correctness of the reader in [Initramfs] is stated against both. *)

From Stdlib Require Import ZArith Lia Bool.
From stdpp Require Import base numbers list strings.
From S2P Require Import Prelude Kstrtox Vsprintf Result Initramfs.
Open Scope Z_scope.

(** ** The format *)

Record entry := mkEntry {
  e_ino : Z; e_mode : Z; e_uid : Z; e_gid : Z; e_nlink : Z; e_mtime : Z;
  e_major : Z; e_minor : Z; e_rmajor : Z; e_rminor : Z; e_check : Z;
  e_name : path; e_body : list Z
}.

(** Eight hexadecimal digits. *)
Definition hex8 (v : Z) : list Z :=
  [digit_char_of (v `div` 268435456 `mod` 16) 0; digit_char_of (v `div` 16777216 `mod` 16) 0;
   digit_char_of (v `div` 1048576 `mod` 16) 0; digit_char_of (v `div` 65536 `mod` 16) 0;
   digit_char_of (v `div` 4096 `mod` 16) 0; digit_char_of (v `div` 256 `mod` 16) 0;
   digit_char_of (v `div` 16 `mod` 16) 0; digit_char_of (v `mod` 16) 0].

Abbreviation zlen l := (Z.of_nat (length l)).

Definition header_bytes (e : entry) : list Z :=
  newc_magic ++ hex8 (e_ino e) ++ hex8 (e_mode e) ++ hex8 (e_uid e) ++ hex8 (e_gid e) ++
  hex8 (e_nlink e) ++ hex8 (e_mtime e) ++ hex8 (zlen (e_body e)) ++ hex8 (e_major e) ++
  hex8 (e_minor e) ++ hex8 (e_rmajor e) ++ hex8 (e_rminor e) ++ hex8 (zlen (e_name e) + 1) ++
  hex8 (e_check e).

(** Name with its NUL, and contents, each padded so that what follows is aligned. *)
Definition name_field (e : entry) : list Z :=
  e_name e ++ repeat 0 (Z.to_nat (N_ALIGN (zlen (e_name e) + 1) - zlen (e_name e))).
Definition body_pad (e : entry) : list Z := repeat 0 (Z.to_nat ((- zlen (e_body e)) `mod` 4)).
Definition encode (e : entry) : list Z := header_bytes e ++ name_field e ++ e_body e ++ body_pad e.

(** An archive, with [z] zero bytes behind it. *)
Definition archive (z : nat) (es : list entry) : list Z := concat (encode <$> es) ++ repeat 0 z.

(** Entries the format can express and the reader installs.  The end marker is an
    entry like any other. *)
Record entry_ok (e : entry) : Prop := mkEntryOk {
  ok_fields : Forall is_u32 [e_ino e; e_uid e; e_gid e; e_nlink e; e_mtime e; e_major e; e_minor e;
    e_rmajor e; e_rminor e; zlen (e_body e)];
  ok_mode : is_u16 (e_mode e);
  ok_name : cstring (e_name e);
  ok_length : zlen (e_name e) + 1 <= PATH_MAX;
  ok_link : S_ISLNK (e_mode e) = true -> zlen (e_body e) <= PATH_MAX;
  ok_body : S_ISLNK (e_mode e) = false -> S_ISREG (e_mode e) = false -> e_body e = [];
  ok_trailer : e_name e = trailer_name -> S_ISLNK (e_mode e) = false /\ e_body e = []
}.

(** The header as the reader sees it. *)
Definition hdr_of (e : entry) : cpio :=
  mkCpio (e_ino e) (e_mode e) (e_uid e) (e_gid e) (e_nlink e) (s32 (e_mtime e)) (zlen (e_body e))
    (e_major e) (e_minor e) (new_encode_dev (MKDEV (e_rmajor e) (e_rminor e))) (zlen (e_name e) + 1).

(** ** The effect of an entry *)

Section effects.
Context {W : Type} (V : vfs W).

(** The file system, the names seen of files with several links, and the directories
    whose times are to be set at the end. *)
Record target := mkTarget { t_world : W; t_links : list hash_entry; t_dirs : list (path * Z) }.
Definition on_world (t : target) (op : W -> W) : target := mkTarget (op (t_world t)) (t_links t) (t_dirs t).

Definition same_file (e : entry) : hash_entry -> bool := same_link (e_major e) (e_minor e) (e_ino e) (e_mode e).

(** Make way: something of another type with that name is removed. *)
Definition make_way (name : path) (m : Z) (w : W) : W :=
  match sys_newlstat V name w with
  | None => w
  | Some sm => if fmt (Z.lxor sm m) =? 0 then w
               else if S_ISDIR sm then sys_rmdir V name w else sys_unlink V name w
  end.

(** A further name of a known file becomes a link: 1, or -1 when that fails. *)
Definition try_link (e : entry) (t : target) : Z * target :=
  if e_nlink e <? 2 then (0, t)
  else
    match List.find (same_file e) (t_links t) with
    | Some q => let '(r, w) := sys_link V (h_name q) (e_name e) (t_world t) in
                (if r <? 0 then -1 else 1, mkTarget w (t_links t) (t_dirs t))
    | None => (0, mkTarget (t_world t)
                    (t_links t ++ [mkHash (e_ino e) (e_minor e) (e_major e) (e_mode e) (e_name e)]) (t_dirs t))
    end.

Definition fill_file (e : entry) (fd : Z) (b : list Z) (w : W) : W :=
  do_utimes V (e_name e) (s32 (e_mtime e)) (sys_close V fd (sys_write V fd b w)).
Definition open_file (e : entry) (ml : Z) (w : W) : Z * W :=
  let '(fd, w) := sys_open V (e_name e) (if ml =? 1 then 65 else 577) (e_mode e) w in
  if fd <? 0 then (fd, w)
  else
    let w := sys_fchmod V fd (e_mode e) (sys_fchown V fd (e_uid e) (e_gid e) w) in
    (fd, match e_body e with [] => w | _ => sys_ftruncate V fd (zlen (e_body e)) w end).

Definition install_file (e : entry) (t : target) : target :=
  let '(ml, t) := try_link e t in
  if ml <? 0 then t
  else
    let '(fd, w) := open_file e ml (t_world t) in
    mkTarget (if fd <? 0 then w else fill_file e fd (e_body e) w) (t_links t) (t_dirs t).

Definition install_dir (e : entry) (t : target) : target :=
  mkTarget (sys_chmod V (e_name e) (e_mode e) (sys_chown V (e_name e) (e_uid e) (e_gid e)
             (sys_mkdir V (e_name e) (e_mode e) (t_world t))))
    (t_links t) ((e_name e, s32 (e_mtime e)) :: t_dirs t).

Definition install_node (e : entry) (t : target) : target :=
  let '(ml, t) := try_link e t in
  if negb (ml =? 0) then t
  else on_world t (fun w => do_utimes V (e_name e) (s32 (e_mtime e)) (sys_chmod V (e_name e) (e_mode e)
    (sys_chown V (e_name e) (e_uid e) (e_gid e)
      (sys_mknod V (e_name e) (e_mode e) (new_encode_dev (MKDEV (e_rmajor e) (e_rminor e))) w)))).

Definition install_symlink (e : entry) (t : target) : target :=
  on_world t (fun w => do_utimes V (e_name e) (s32 (e_mtime e)) (sys_lchown V (e_name e) (e_uid e) (e_gid e)
    (sys_symlink V (to_nul (e_body e)) (e_name e) (make_way (e_name e) 0 w)))).

Definition install (t : target) (e : entry) : target :=
  if bool_decide (e_name e = trailer_name) then mkTarget (t_world t) [] (t_dirs t)
  else if S_ISLNK (e_mode e) then install_symlink e t
  else
    let t := on_world t (make_way (e_name e) (e_mode e)) in
    if S_ISREG (e_mode e) then install_file e t
    else if S_ISDIR (e_mode e) then install_dir e t
    else if S_ISBLK (e_mode e) || S_ISCHR (e_mode e) || S_ISFIFO (e_mode e) || S_ISSOCK (e_mode e)
    then install_node e t else t.

Definition install_all (es : list entry) (t : target) : target := fold_left install es t.

(** Last, the times of the directories, the most recent one first. *)
Definition set_dir_times (t : target) : W :=
  fold_left (fun w d => do_utimes V d.1 d.2 w) (t_dirs t) (t_world t).
End effects.
Arguments target W : clear implicits.
Arguments mkTarget {W}.

(** ** Sizes *)

Lemma land_lnot_3 x : Z.land x (Z.lnot 3) = x - x `mod` 4.
Proof. rewrite <- Z.ldiff_land, <- land_3.
  rewrite (Z.sub_nocarry_ldiff x (Z.land x 3)).
  - apply Z.bits_inj'. intros i Hi. rewrite !Z.ldiff_spec, Z.land_spec. by destruct (Z.testbit x i), (Z.testbit 3 i).
  - apply Z.bits_inj'. intros i Hi. rewrite Z.ldiff_spec, Z.land_spec, Z.bits_0.
    by destruct (Z.testbit x i), (Z.testbit 3 i).
Qed.

Lemma N_ALIGN_spec n : 1 <= n <= 4096 ->
  n <= N_ALIGN n <= n + 3 /\ N_ALIGN n `mod` 4 = 2.
Proof.
  intros Hn. unfold N_ALIGN. rewrite (u32_id (n + 1)), land_lnot_3 by (unfold is_u32; lia).
  rewrite u32_id by (unfold is_u32; zlia). zlia.
Qed.

Lemma name_field_length e : entry_ok e -> zlen (name_field e) = N_ALIGN (zlen (e_name e) + 1).
Proof.
  intros He. pose proof (ok_length _ He) as H. unfold PATH_MAX in H.
  destruct (N_ALIGN_spec (zlen (e_name e) + 1) ltac:(lia)) as [H1 _].
  unfold name_field. rewrite length_app, repeat_length. lia.
Qed.

Lemma header_length e : zlen (header_bytes e) = 110.
Proof. done. Qed.

(** ** Headers *)

Lemma hexdigit_val d : 0 <= d < 16 -> digit_val (digit_char_of d 0) = Some d.
Proof. intros H. apply digit_char_of_val; auto. Qed.
Lemma hexdigit_char d : 0 <= d < 16 -> 48 <= digit_char_of d 0 < 256 /\ tolower_ (digit_char_of d 0) <> 120.
Proof.
  intros Hd.
  assert (Ht : Forall (fun d => 48 <= digit_char_of d 0 < 256 /\ tolower_ (digit_char_of d 0) <> 120) (seqZ 0 16))
    by (apply (bool_decide_unpack _); vm_compute; exact I).
  rewrite Forall_forall in Ht. apply Ht, elem_of_seqZ. lia.
Qed.

Lemma to_nul_cstring s : cstring s -> to_nul s = s.
Proof. induction 1 as [|c s Hc _ IH]; [done|]. cbn. rewrite (proj2 (Z.eqb_neq c 0)), IH by lia. done. Qed.

(** Reading back a field. *)
Lemma hex8_value v : is_u32 v -> (simple_strtoul (to_nul (hex8 v)) 16).1 = v.
Proof.
  intros Hv. unfold is_u32 in Hv. set (ds := [v `div` 268435456 `mod` 16; v `div` 16777216 `mod` 16;
    v `div` 1048576 `mod` 16; v `div` 65536 `mod` 16; v `div` 4096 `mod` 16; v `div` 256 `mod` 16;
    v `div` 16 `mod` 16; v `mod` 16]).
  assert (Hds : Forall (fun d => 0 <= d < 16) ds).
  { subst ds. repeat (apply Forall_cons; split; [zlia|]). constructor. }
  assert (Hmap : hex8 v = (fun d => digit_char_of d 0) <$> ds) by done.
  assert (Hc : cstring (hex8 v)).
  { rewrite Hmap. apply Forall_fmap. eapply Forall_impl; [exact Hds|]. intros d Hd.
    destruct (hexdigit_char d Hd). cbn. lia. }
  assert (Hspan : span_digits 16 (hex8 v) = (ds, [])).
  { apply span_digits_all; [|done]. rewrite Hmap, <- list_fmap_compose. clear -Hds.
    induction Hds as [|d ds Hd _ IH]; [done|]. cbn [fmap list_fmap]. f_equal; [by apply hexdigit_val|exact IH]. }
  rewrite to_nul_cstring by done. unfold simple_strtoul, simple_strtoull.
  assert (Hfix : parse_integer_fixup_radix (hex8 v) 16 = (hex8 v, 16)).
  { unfold parse_integer_fixup_radix. cbn [Z.eqb Pos.eqb andb].
    destruct (hexdigit_char (v `div` 16777216 `mod` 16) ltac:(zlia)) as [_ Hx].
    change (ch (hex8 v) 1) with (digit_char_of (v `div` 16777216 `mod` 16) 0).
    by rewrite (proj2 (Z.eqb_neq _ _) Hx), andb_false_r. }
  rewrite Hfix. destruct (parse_integer_spec (hex8 v) 16 ds [] ltac:(lia) ltac:(cbn; lia) Hspan) as (-> & _ & _).
  cbn [fst]. assert (He : eval 16 ds = v) by (subst ds; unfold eval, eval_from; cbn [fold_left]; zlia).
  rewrite He. unfold u64. rewrite Z.mod_small by lia. by apply u32_id.
Qed.

Lemma header_field e x i v :
  is_u32 v -> take 8 (drop (6 + 8 * i) (header_bytes e ++ x)) = hex8 v -> field (header_bytes e ++ x) i = v.
Proof. intros Hv E. unfold field. rewrite E. by apply hex8_value. Qed.

Lemma parse_header_spec {W} (f : fsm W) e x :
  entry_ok e -> parse_header f (header_bytes e ++ x) = Ok (set_hdr f (hdr_of e)).
Proof.
  intros He. unfold parse_header.
  replace (length (header_bytes e ++ x) <? 102)%nat with false
    by (symmetry; apply Nat.ltb_ge; rewrite length_app; change (length (header_bytes e)) with 110%nat; lia).
  pose proof (ok_fields _ He) as Hf. rewrite !Forall_cons in Hf.
  destruct Hf as (F1 & F2 & F3 & F4 & F5 & F6 & F7 & F8 & F9 & F10 & _).
  pose proof (ok_mode _ He) as Hm. pose proof (ok_length _ He) as Hl. unfold PATH_MAX in Hl.
  assert (Hm' : is_u32 (e_mode e)) by (unfold is_u16, is_u32 in *; lia).
  assert (Hl' : is_u32 (zlen (e_name e) + 1)) by (unfold is_u32; lia).
  rewrite (header_field e x 0 (e_ino e)), (header_field e x 1 (e_mode e)), (header_field e x 2 (e_uid e)),
    (header_field e x 3 (e_gid e)), (header_field e x 4 (e_nlink e)), (header_field e x 5 (e_mtime e)),
    (header_field e x 6 (zlen (e_body e))), (header_field e x 7 (e_major e)), (header_field e x 8 (e_minor e)),
    (header_field e x 9 (e_rmajor e)), (header_field e x 10 (e_rminor e)),
    (header_field e x 11 (zlen (e_name e) + 1)) by (done || reflexivity).
  by rewrite (u16_id (e_mode e)).
Qed.
