(* ===== verification/InitramfsProofs.v ===== *)
(** * The archive reader is correct however its input is cut

    An invariant relates the state machine of [Initramfs], at any moment, to the part
    of the archive still to come and to the entries still to be installed.  Every
    action preserves it, so that feeding an archive in any pieces has the effect
    [InitramfsSpec] defines. *)

From Stdlib Require Import ZArith Lia Bool.
From stdpp Require Import base numbers list strings.
From S2P Require Import Prelude Kstrtox Result GunzipProofs Initramfs InitramfsSpec.
Open Scope Z_scope.

(** ** Cutting streams *)

Lemma split_long (inp later a r : list Z) :
  inp ++ later = a ++ r -> zlen a <= zlen inp -> exists inp', inp = a ++ inp' /\ r = inp' ++ later.
Proof.
  intros E Hl. exists (drop (length a) inp).
  assert (Ha : take (length a) inp = a).
  { apply (f_equal (take (length a))) in E. rewrite take_app_length in E. rewrite take_app_le in E by lia. done. }
  split; [rewrite <- Ha at 1; symmetry; apply take_drop|].
  rewrite <- (take_drop (length a) inp), Ha, <- app_assoc in E. by apply app_inv_head in E.
Qed.
Lemma split_short (inp later a r : list Z) :
  inp ++ later = a ++ r -> zlen inp <= zlen a ->
  inp = take (length inp) a /\ later = drop (length inp) a ++ r.
Proof.
  intros E Hl. symmetry in E. destruct (split_long a r inp later E Hl) as (a' & -> & ->).
  by rewrite take_app_length, drop_app_length.
Qed.

Lemma take_add {A} (l : list A) i j : take (i + j) l = take i l ++ take j (drop i l).
Proof. symmetry. apply take_take_drop. Qed.

(** ** Positions *)

Section positions.
Context {W : Type}.
Implicit Types f : fsm W.

Record at_input f (inp : list Z) : Prop := mkAt {
  at_victim : 0 <= victim f;
  at_end : victim f + zlen inp = zlen (input f);
  at_rest : drop (Z.to_nat (victim f)) (input f) = inp;
  at_count : count f = zlen inp
}.
Record in_bounds f (T : list Z) : Prop := mkBounds {
  bd_pos : 0 <= this_header f;
  bd_end : this_header f + zlen T <= 72057594037927936;
  bd_len : zlen T < 2147483648
}.

Lemma eat_spec f a inp T :
  at_input f (a ++ inp) -> in_bounds f (a ++ T) -> zlen (a ++ inp) < 2147483648 ->
  at_input (eat f (zlen a)) inp /\ this_header (eat f (zlen a)) = this_header f + zlen a /\
  in_bounds (eat f (zlen a)) T.
Proof.
  intros [H1 H2 H3 H4] [B1 B2 B3] Hl. rewrite !length_app in *.
  assert (Ht : s64 (this_header f + zlen a) = this_header f + zlen a) by (apply s64_id; lia).
  split_and!; [split| |split]; cbn; rewrite ?Ht; try lia.
  - replace (Z.to_nat (victim f + zlen a)) with (Z.to_nat (victim f) + length a)%nat by lia.
    rewrite <- drop_drop, H3. apply drop_app_length.
  - rewrite H4, u32_id by (unfold is_u32; lia). lia.
Qed.

Lemma input_at f inp : at_input f inp -> mem_at f (InInput (victim f)) = Some inp.
Proof.
  intros [H1 H2 H3 H4]. cbn. unfold from_off.
  by rewrite (proj2 (Z.leb_le 0 (victim f))), (proj2 (Z.leb_le (victim f) _)), H3 by lia.
Qed.
Lemma input_bytes f a inp : at_input f (a ++ inp) -> bytes_at f (InInput (victim f)) (zlen a) = Some a.
Proof.
  intros H. unfold bytes_at. rewrite (input_at _ _ H). cbn [mbind option_bind]. rewrite length_app.
  rewrite (proj2 (Z.leb_le 0 _)), (proj2 (Z.leb_le (zlen a) _)), Nat2Z.id by lia. cbn [andb].
  by rewrite take_app_length.
Qed.

(** ** Collecting into a buffer *)

Record collecting f (b : bufname) (C : list Z) (j : Z) (nxt : state) : Prop := mkCollecting {
  co_st : st f = Collect;
  co_next : next_state f = nxt;
  co_collected : collected f = InBuf b 0;
  co_collect : collect f = InBuf b j;
  co_remains : remains f = zlen C - j;
  co_j : 0 <= j < zlen C;
  co_fits : zlen C <= zlen (bufs f b) /\ zlen C < 2147483648;
  co_done : take (Z.to_nat j) (bufs f b) = take (Z.to_nat j) C
}.

(** What collecting leaves alone. *)
Record same_but f f' (b : bufname) : Prop := mkSame {
  sm_message : message f' = message f; sm_world : world f' = world f;
  sm_dirs : dir_list f' = dir_list f; sm_head : head f' = head f;
  sm_hdr : hdr f' = hdr f; sm_next_header : next_header f' = next_header f;
  sm_input : input f' = input f; sm_bufs : forall b', length (bufs f' b') = length (bufs f b')
}.

Lemma upd_buf_eq bs b l : upd_buf bs b l b = l.
Proof. by destruct b. Qed.
Lemma upd_buf_length bs b l b' : length l = length (bs b) -> length (upd_buf bs b l b') = length (bs b').
Proof. by destruct b, b'. Qed.

Lemma splice_spec l off x :
  0 <= off -> off + zlen x <= zlen l -> exists l', splice l off x = Some l' /\ length l' = length l /\
    take (Z.to_nat off + length x) l' = take (Z.to_nat off) l ++ x.
Proof.
  intros H0 H1. unfold splice. rewrite (proj2 (Z.leb_le 0 off)), (proj2 (Z.leb_le _ _)) by lia. cbn [andb].
  eexists. split; [reflexivity|]. split.
  - rewrite !length_app, length_take, length_drop. lia.
  - rewrite app_assoc. rewrite take_app_le by (rewrite length_app, length_take; lia).
    apply take_ge. rewrite length_app, length_take. lia.
Qed.

(** Storing [x], the next bytes of [C], through [collect]. *)
Lemma collect_store f b C j nxt x :
  collecting f b C j nxt -> x = take (length x) (drop (Z.to_nat j) C) -> j + zlen x <= zlen C ->
  exists l, store_at f (collect f) x = Ok (set_bufs f (upd_buf (bufs f) b l)) /\ length l = length (bufs f b) /\
    take (Z.to_nat (j + zlen x)) l = take (Z.to_nat (j + zlen x)) C.
Proof.
  intros [C1 C2 C3 C4 C5 C6 [C7 _] C8] Hx Hl. rewrite C4. cbn [store_at].
  destruct (splice_spec (bufs f b) j x ltac:(lia) ltac:(lia)) as (l & -> & L1 & L2).
  exists l. cbn. split_and!; [done|done|].
  replace (Z.to_nat (j + zlen x)) with (Z.to_nat j + length x)%nat by lia.
  rewrite L2, C8, take_add. by rewrite <- Hx.
Qed.

Lemma do_collect_spec f b C j nxt inp later T :
  collecting f b C j nxt -> at_input f inp -> inp ++ later = drop (Z.to_nat j) C ++ T ->
  in_bounds f (inp ++ later) ->
  exists stop f' eaten inp', do_collect f = Ok (stop, f') /\ inp = eaten ++ inp' /\ at_input f' inp' /\
    in_bounds f' (inp' ++ later) /\ this_header f' = this_header f + zlen eaten /\ victim f' = victim f + zlen eaten /\
    same_but f f' b /\
    (stop = true -> inp' = [] /\ later = drop (Z.to_nat (j + zlen eaten)) C ++ T /\
       collecting f' b C (j + zlen eaten) nxt) /\
    (stop = false -> zlen eaten = zlen C - j /\ inp' ++ later = T /\ st f' = nxt /\ next_state f' = nxt /\
       collected f' = InBuf b 0 /\ take (length C) (bufs f' b) = C).
Proof.
  intros Hc Hat E Hbd. pose proof Hc as [C1 C2 C3 C4 C5 C6 [C7 C7'] C8].
  set (D := drop (Z.to_nat j) C) in *. assert (HD : zlen D = zlen C - j) by (subst D; rewrite length_drop; lia).
  assert (Hn : exists eaten inp', inp = eaten ++ inp' /\ eaten = take (length eaten) D /\
    (if count f <? u32 (remains f) then count f else u32 (remains f)) = zlen eaten /\
    inp' ++ later = drop (length eaten) D ++ T /\ (zlen eaten = zlen D \/ zlen eaten < zlen D /\ inp' = [])).
  { rewrite (at_count _ _ Hat), C5, u32_id by (unfold is_u32; lia). destruct (Z.ltb_spec (zlen inp) (zlen C - j)).
    - destruct (split_short inp later D T E ltac:(lia)) as [E1 E2]. exists inp, [].
      rewrite app_nil_r. split_and!; try done. right. split; [lia|done].
    - destruct (split_long inp later D T E ltac:(lia)) as (inp' & -> & E2). exists D, inp'.
      rewrite firstn_all, drop_ge by lia. split_and!; try done; first [by left|lia]. }
  destruct Hn as (eaten & inp' & -> & Het & Hn & Hrest & Hcase).
  assert (Hle : zlen eaten <= zlen D) by lia.
  unfold do_collect. rewrite Hn, (input_bytes f eaten inp' Hat). cbn [of_option rbind].
  destruct (collect_store f b C j nxt eaten Hc Het ltac:(lia)) as (l & -> & L1 & L2). cbn [rbind].
  set (g := set_bufs f (upd_buf (bufs f) b l)).
  rewrite <- app_assoc in Hbd.
  assert (Hlen : zlen (eaten ++ inp') < 2147483648).
  { pose proof (bd_len _ _ Hbd) as H. rewrite app_assoc, length_app in H. lia. }
  destruct (eat_spec g eaten inp' (inp' ++ later)) as (A1 & A2 & A3);
    [by destruct Hat; split|by destruct Hbd; split|done|].
  assert (Hrem : s32 (remains (eat g (zlen eaten)) - zlen eaten) = zlen D - zlen eaten).
  { cbn. rewrite C5. unfold s32. rewrite u32_id by (unfold is_u32; lia).
    rewrite (proj2 (Z.ltb_lt _ _)) by lia. lia. }
  cbv zeta. cbn [remains set_remains set_collect].  rewrite Hrem.
  assert (Hs : forall f', message f' = message f -> world f' = world f -> dir_list f' = dir_list f ->
    head f' = head f -> hdr f' = hdr f -> next_header f' = next_header f -> input f' = input f ->
    bufs f' = upd_buf (bufs f) b l -> same_but f f' b).
  { intros f'. intros. split; try done. intros b'. rewrite H6. by apply upd_buf_length. }
  destruct (Z.eqb_spec (zlen D - zlen eaten) 0); cbn [negb]; eexists _, _, eaten, inp'; (split; [reflexivity|]);
    split_and!; try done; try (by destruct A1; split); try (by destruct A3; split); try by apply Hs.
  - intros _. split_and!; try done; try lia.
    + rewrite Hrest, drop_ge by lia. done.
    + cbn. rewrite upd_buf_eq. replace (length C) with (Z.to_nat (j + zlen eaten)) by lia. rewrite L2.
      apply take_ge. lia.
  - intros _. assert (inp' = []) as -> by (destruct Hcase as [|[]]; [lia|done]).
    split_and!; [done| |].
    + cbn in Hrest. rewrite Hrest. subst D. rewrite drop_drop. do 2 f_equal. lia.
    + split; cbn; try done; try lia.
      * by rewrite C4.
      * rewrite upd_buf_eq. lia.
      * by rewrite upd_buf_eq.
Qed.
End positions.

(** ** The invariant *)

Definition links_ok (h : Z -> list hash_entry) (l : list hash_entry) : Prop :=
  forall ma mi i m, List.find (same_link ma mi i m) (h (hash ma mi i)) = List.find (same_link ma mi i m) l.

Lemma find_app {A} (p : A -> bool) l1 l2 :
  List.find p (l1 ++ l2) = match List.find p l1 with Some x => Some x | None => List.find p l2 end.
Proof. induction l1 as [|x l IH]; cbn; [done|]. by destruct (p x). Qed.

Lemma same_link_hash ma mi i m q :
  same_link ma mi i m q = true -> hash ma mi i = hash (h_major q) (h_minor q) (h_ino q).
Proof.
  unfold same_link. intros H. apply andb_true_iff in H as [H _]. apply andb_true_iff in H as [H ->%Z.eqb_eq].
  by apply andb_true_iff in H as [->%Z.eqb_eq ->%Z.eqb_eq].
Qed.

(** The hash table behaves as one list of the links recorded. *)
Lemma links_ok_add h l q :
  links_ok h l ->
  let b := hash (h_major q) (h_minor q) (h_ino q) in
  links_ok (fun b' => if b' =? b then h b ++ [q] else h b') (l ++ [q]).
Proof.
  intros Hl b ma mi i m. cbv beta. rewrite find_app, <- Hl.
  destruct (Z.eqb_spec (hash ma mi i) b) as [E|E].
  - by rewrite find_app, E.
  - destruct (List.find _ (h (hash ma mi i))); [done|]. cbn.
    destruct (same_link ma mi i m q) eqn:Es; [|done]. by apply same_link_hash in Es.
Qed.

Section correctness.
Context {W : Type} (V : vfs W).
Context (write_app : forall fd a b w, sys_write V fd (a ++ b) w = sys_write V fd b (sys_write V fd a w)).
Context (fin : target W).
Implicit Types f : fsm W.

Record synced f (t : target W) : Prop := mkSynced {
  sy_message : message f = None;
  sy_world : world f = t_world t;
  sy_dirs : dir_list f = t_dirs t;
  sy_links : links_ok (head f) (t_links t);
  sy_header : zlen (bufs f HeaderBuf) = 110;
  sy_symlink : zlen (bufs f SymlinkBuf) = 8195;
  sy_name : zlen (bufs f NameBuf) = 4098
}.

(** What is left to do when the entries [es] are still to be installed. *)
Definition finish (es : list entry) (t : target W) : target W := install_all V es t.
Record pending f (es : list entry) (t : target W) : Prop := mkPending {
  pe_synced : synced f t;
  pe_finish : finish es t = fin;
  pe_ok : Forall entry_ok es
}.

(** The reader, and the bytes of the archive it has not seen. *)
Inductive inv : fsm W -> list Z -> Prop :=
| inv_start f e es t z :
    pending f (e :: es) t -> st f = Start -> this_header f `mod` 4 = 0 -> inv f (archive z (e :: es))
| inv_reset f es t z :
    pending f es t -> st f = Reset -> (es <> [] -> this_header f `mod` 4 = 0) -> inv f (archive z es)
| inv_hdr_buf f e es t j z :
    pending f (e :: es) t -> collecting f HeaderBuf (header_bytes e) j GotHeader ->
    (this_header f - j) `mod` 4 = 0 ->
    inv f (drop (Z.to_nat j) (header_bytes e) ++ name_field e ++ e_body e ++ body_pad e ++ archive z es)
| inv_got_header f e es t x z :
    pending f (e :: es) t -> st f = GotHeader -> mem_at f (collected f) = Some (header_bytes e ++ x) ->
    this_header f `mod` 4 = 2 ->
    inv f (name_field e ++ e_body e ++ body_pad e ++ archive z es)
| inv_name_buf f e es t j z :
    pending f (e :: es) t -> S_ISLNK (e_mode e) = false -> hdr f = hdr_of e ->
    collecting f NameBuf (name_field e) j GotName ->
    next_header f = this_header f + (zlen (name_field e) - j) + zlen (e_body e ++ body_pad e) ->
    next_header f `mod` 4 = 0 ->
    inv f (drop (Z.to_nat j) (name_field e) ++ e_body e ++ body_pad e ++ archive z es)
| inv_got_name f e es t x z :
    pending f (e :: es) t -> S_ISLNK (e_mode e) = false -> hdr f = hdr_of e ->
    st f = GotName -> mem_at f (collected f) = Some (name_field e ++ x) ->
    next_header f = this_header f + zlen (e_body e ++ body_pad e) -> next_header f `mod` 4 = 0 ->
    inv f (e_body e ++ body_pad e ++ archive z es)
| inv_sym_buf f e es t j z :
    pending f (e :: es) t -> S_ISLNK (e_mode e) = true -> hdr f = hdr_of e ->
    collecting f SymlinkBuf (name_field e ++ e_body e) j GotSymlink ->
    next_header f = this_header f + (zlen (name_field e ++ e_body e) - j) + zlen (body_pad e) ->
    next_header f `mod` 4 = 0 ->
    inv f (drop (Z.to_nat j) (name_field e ++ e_body e) ++ body_pad e ++ archive z es)
| inv_got_symlink f e es t z :
    pending f (e :: es) t -> S_ISLNK (e_mode e) = true -> hdr f = hdr_of e ->
    st f = GotSymlink -> collected f = InBuf SymlinkBuf 0 ->
    take (length (name_field e ++ e_body e)) (bufs f SymlinkBuf) = name_field e ++ e_body e ->
    next_header f = this_header f + zlen (body_pad e) -> next_header f `mod` 4 = 0 ->
    inv f (body_pad e ++ archive z es)
| inv_copy f e es t b p z :
    synced f t -> finish es (on_world t (fill_file V e (wfd f) b)) = fin -> Forall entry_ok es ->
    st f = CopyFile -> next_state f = Reset -> body_len (hdr f) = zlen b ->
    mtime (hdr f) = s32 (e_mtime e) -> vcollected f = e_name e ->
    next_header f = this_header f + zlen (b ++ p) -> next_header f `mod` 4 = 0 ->
    inv f (b ++ p ++ archive z es)
| inv_skip f es t x z :
    pending f es t -> st f = SkipIt -> next_state f = Reset ->
    next_header f = this_header f + zlen x -> next_header f `mod` 4 = 0 ->
    inv f (x ++ archive z es).

(** Progress of the reader over one action. *)
Definition rank (s : state) : nat :=
  match s with
  | Reset => 0 | SkipIt => 1 | CopyFile => 2 | GotName | GotSymlink => 3 | Collect => 4 | GotHeader => 5
  | Start => 6
  end.
(** The states an action may stop in; all but one of them wait for more input. *)
Definition pauses (s : state) (later : list Z) : Prop :=
  (s = Collect \/ s = CopyFile \/ s = SkipIt) /\ later <> [] \/ s = Reset.

Definition stepped f (inp later : list Z) (r : res (bool * fsm W)) : Prop :=
  exists stop f' eaten inp', r = Ok (stop, f') /\ inp = eaten ++ inp' /\ at_input f' inp' /\
    in_bounds f' (inp' ++ later) /\ input f' = input f /\ victim f' = victim f + zlen eaten /\
    inv f' (inp' ++ later) /\
    (stop = true -> pauses (st f') later /\ (inp' = [] \/ st f' = Reset /\ exists x, inp' = 48 :: x)) /\
    (stop = false -> eaten <> [] \/ (rank (st f') < rank (st f))%nat) /\
    (st f = Start \/ st f = Collect -> inp <> [] -> eaten <> [] \/ stop = false /\ st f' = Collect).

Lemma synced_same f f' t :
  message f' = message f -> world f' = world f -> dir_list f' = dir_list f -> head f' = head f ->
  (forall b, length (bufs f' b) = length (bufs f b)) -> synced f t -> synced f' t.
Proof. intros E1 E2 E3 E4 E5 []. split; rewrite ?E1, ?E2, ?E3, ?E4, ?E5; done. Qed.
Lemma pending_same f f' es t :
  message f' = message f -> world f' = world f -> dir_list f' = dir_list f -> head f' = head f ->
  (forall b, length (bufs f' b) = length (bufs f b)) -> pending f es t -> pending f' es t.
Proof. intros E1 E2 E3 E4 E5 [P1 P2 P3]. split; [by eapply synced_same|done|done]. Qed.
Lemma pending_same_but f f' b es t : same_but f f' b -> pending f es t -> pending f' es t.
Proof. intros [] H. by eapply pending_same. Qed.
Lemma pending_head f e es t : pending f (e :: es) t -> entry_ok e /\ Forall entry_ok es.
Proof. intros H. by apply Forall_cons, (pe_ok _ _ _ H). Qed.

(** Start and the header. *)

Lemma archive_cons z e es :
  archive z (e :: es) = header_bytes e ++ name_field e ++ e_body e ++ body_pad e ++ archive z es.
Proof. unfold archive, encode. cbn. by rewrite <- !app_assoc. Qed.

Lemma bounds_len f inp later : in_bounds f (inp ++ later) -> zlen inp < 2147483648.
Proof. intros [_ _ H]. rewrite length_app in H. lia. Qed.

(** [read_into] with enough input, and without. *)
Lemma read_into_long f b C nxt inp later :
  at_input f (C ++ inp) -> in_bounds f (C ++ inp ++ later) ->
  exists f', read_into f b (zlen C) nxt = f' /\ st f' = nxt /\ at_input f' inp /\ in_bounds f' (inp ++ later) /\
    this_header f' = this_header f + zlen C /\ victim f' = victim f + zlen C /\
    mem_at f' (collected f') = Some (C ++ inp) /\ hdr f' = hdr f /\ next_header f' = next_header f /\
    input f' = input f /\ forall es t, pending f es t -> pending f' es t.
Proof.
  intros Hat Hbd. unfold read_into.
  rewrite (at_count _ _ Hat), (proj2 (Z.leb_le (zlen C) _)) by (rewrite length_app; lia).
  destruct (eat_spec (set_collected f (InInput (victim f))) C inp (inp ++ later)) as (A1 & A2 & A3);
    [by destruct Hat; split|by destruct Hbd; split| |].
  { rewrite app_assoc in Hbd. by eapply bounds_len. }
  eexists. split; [reflexivity|]. split_and!; try done; [by destruct A1; split|by destruct A3; split| |].
  - exact (input_at _ _ Hat).
  - intros es t Hp. by eapply pending_same; [..|exact Hp].
Qed.

Lemma collecting_init f b C nxt :
  0 < zlen C < 2147483648 -> zlen C <= zlen (bufs f b) -> collecting (start_collect f b (zlen C) nxt) b C 0 nxt.
Proof.
  intros H0 H1. split; try done; cbn; try lia. unfold s32. rewrite u32_id by (unfold is_u32; lia).
  rewrite (proj2 (Z.ltb_lt _ _)) by lia. lia.
Qed.

Lemma step_start z f e es t inp later :
  pending f (e :: es) t -> st f = Start -> this_header f `mod` 4 = 0 ->
  at_input f inp -> inp ++ later = archive z (e :: es) -> in_bounds f (inp ++ later) ->
  stepped f inp later (do_start f).
Proof.
  intros Hp Hst Hm Hat E Hbd. rewrite archive_cons in E. unfold do_start.
  change 110 with (zlen (header_bytes e)). destruct (Z.le_gt_cases (zlen (header_bytes e)) (zlen inp)).
  - destruct (split_long _ _ _ _ E ltac:(lia)) as (inp' & -> & E'). rewrite <- app_assoc in Hbd.
    destruct (read_into_long f HeaderBuf (header_bytes e) GotHeader inp' later Hat Hbd)
      as (f' & -> & Hst' & A1 & A2 & A3 & A4 & A5 & _ & _ & A6 & A7).
    exists false, f', (header_bytes e), inp'. split_and!; try done; [|by left|by left].
    rewrite <- E'. apply (inv_got_header _ e es t inp'); [auto|done|done|].
    rewrite A3. change (zlen (header_bytes e)) with 110. zlia.
  - unfold read_into. rewrite (at_count _ _ Hat), (proj2 (Z.leb_gt _ _)) by lia.
    eexists false, _, [], inp. split; [reflexivity|].
    split_and!; try done; try (by destruct Hat; split); try (by destruct Hbd; split).
    + cbn. lia.
    + rewrite E. apply (inv_hdr_buf _ e es t 0); [by eapply pending_same; [..|exact Hp]| |by rewrite Z.sub_0_r].
      pose proof (sy_header _ _ (pe_synced _ _ _ Hp)). apply collecting_init; [done|].
      change (zlen (header_bytes e)) with 110. lia.
    + intros _. right. rewrite Hst. cbn. lia.
    + intros _ _. by right.
Qed.

(** Where the next header starts. *)
Lemma next_header_spec f e T :
  entry_ok e -> in_bounds f (name_field e ++ e_body e ++ body_pad e ++ T) -> this_header f `mod` 4 = 2 ->
  let n := s64 (this_header f + N_ALIGN (zlen (e_name e) + 1) + zlen (e_body e)) in
  s64 (Z.land (n + 3) (Z.lnot 3)) = this_header f + zlen (name_field e) + zlen (e_body e ++ body_pad e) /\
  s64 (Z.land (n + 3) (Z.lnot 3)) `mod` 4 = 0.
Proof.
  intros He [B1 B2 B3] Hm n. pose proof (name_field_length e He) as Hn. pose proof (ok_length _ He) as Hl.
  unfold PATH_MAX in Hl. destruct (N_ALIGN_spec (zlen (e_name e) + 1) ltac:(lia)) as [_ Hal].
  assert (Hpad : zlen (body_pad e) = (- zlen (e_body e)) `mod` 4).
  { unfold body_pad. rewrite repeat_length. zlia. }
  rewrite !length_app in *.
  assert (En : n = this_header f + zlen (name_field e) + zlen (e_body e)).
  { unfold n. rewrite <- Hn. apply s64_id. lia. }
  rewrite En, land_lnot_3. rewrite !s64_id by zlia. zlia.
Qed.

(** The header of [e] was read, and [g] is the state with its fields. *)
Section header_read.
Context (z : nat) (f g : fsm W) (e : entry) (es : list entry) (t : target W) (inp later : list Z).
Context (Hst : st f = GotHeader) (Hat : at_input g inp) (Hbd : in_bounds g (inp ++ later)) (Hp : pending g (e :: es) t).
Context (E : inp ++ later = name_field e ++ e_body e ++ body_pad e ++ archive z es).
Context (Hi : input g = input f) (Hv : victim g = victim f) (Hh : hdr g = hdr_of e) (Hn : 0 < zlen (name_field e) <= 4098).
Context (N1 : next_header g = this_header g + zlen (name_field e) + zlen (e_body e ++ body_pad e)) (N2 : next_header g `mod` 4 = 0).

(** A link: its name and its target are collected. *)
Lemma step_to_link :
  S_ISLNK (e_mode e) = true -> zlen (e_body e) <= 4096 ->
  stepped f inp later (Ok (false, start_collect g SymlinkBuf (u32 (zlen (name_field e) + zlen (e_body e))) GotSymlink)).
Proof using All.
  intros Elnk Hb. assert (Hc : u32 (zlen (name_field e) + zlen (e_body e)) = zlen (name_field e ++ e_body e)).
  { rewrite u32_id by (unfold is_u32; lia). rewrite length_app. lia. }
  rewrite Hc. eexists false, _, [], inp. split; [reflexivity|].
  split_and!; try done; try (by destruct Hat; split); try (by destruct Hbd; split).
  - cbn. lia.
  - rewrite E, (app_assoc (name_field e)). apply (inv_sym_buf _ e es t 0); try done.
    + by eapply pending_same; [..|exact Hp].
    + pose proof (sy_symlink _ _ (pe_synced _ _ _ Hp)). apply collecting_init; rewrite length_app; lia.
    + cbn. rewrite N1, !length_app. lia.
  - intros _. right. rewrite Hst. cbn. lia.
  - rewrite Hst. by intros [|].
Qed.

(** Anything else: its name is read, at once or in pieces. *)
Lemma step_to_name : S_ISLNK (e_mode e) = false -> stepped f inp later (Ok (false, read_into g NameBuf (zlen (name_field e)) GotName)).
Proof using All.
  intros Elnk. destruct (Z.le_gt_cases (zlen (name_field e)) (zlen inp)).
  - destruct (split_long _ _ _ _ E ltac:(lia)) as (inp' & Einp & E'). rewrite Einp in Hat, Hbd |- *. rewrite <- app_assoc in Hbd.
    destruct (read_into_long g NameBuf (name_field e) GotName inp' later Hat Hbd)
      as (f' & -> & Hst' & A1 & A2 & A3 & A4 & A5 & A6 & A7 & A8 & A9).
    exists false, f', (name_field e), inp'.
    assert (Hne : name_field e <> []) by (intros E0; rewrite E0 in Hn; cbn in Hn; lia).
    split_and!; try done; try congruence; [|by left|by left]. rewrite <- E'.
    apply (inv_got_name _ e es t inp'); try done; try congruence; auto.
  - unfold read_into. rewrite (at_count _ _ Hat), (proj2 (Z.leb_gt _ _)) by lia.
    eexists false, _, [], inp. split; [reflexivity|].
    split_and!; try done; try (by destruct Hat; split); try (by destruct Hbd; split).
    + cbn. lia.
    + rewrite E. apply (inv_name_buf _ e es t 0); try done.
      * by eapply pending_same; [..|exact Hp].
      * pose proof (sy_name _ _ (pe_synced _ _ _ Hp)). apply collecting_init; lia.
      * cbn. rewrite N1. lia.
    + intros _. right. rewrite Hst. cbn. lia.
    + rewrite Hst. by intros [|].
Qed.
End header_read.

Lemma step_header z f e es t x inp later :
  pending f (e :: es) t -> st f = GotHeader -> mem_at f (collected f) = Some (header_bytes e ++ x) ->
  this_header f `mod` 4 = 2 -> at_input f inp ->
  inp ++ later = name_field e ++ e_body e ++ body_pad e ++ archive z es -> in_bounds f (inp ++ later) ->
  stepped f inp later (do_header f).
Proof.
  intros Hp Hst Hmem Hm Hat E Hbd. destruct (pending_head _ _ _ _ Hp) as [He Hes].
  unfold do_header. assert (Hmag : bytes_at f (collected f) 6 = Some newc_magic).
  { unfold bytes_at. rewrite Hmem. cbn [mbind option_bind]. rewrite length_app, Nat2Z.inj_add, header_length.
    rewrite (proj2 (Z.leb_le 6 _)) by lia. done. }
  rewrite Hmag, Hmem. cbn [of_option rbind]. rewrite bool_decide_eq_false_2, bool_decide_eq_true_2 by done.
  cbn [negb]. rewrite parse_header_spec by done. cbn [rbind].
  rewrite E in Hbd. destruct (next_header_spec f e _ He Hbd Hm) as [N1 N2]. rewrite <- E in Hbd. cbv zeta in N1, N2.
  pose proof (ok_length _ He) as Hl. pose proof (name_field_length e He) as Hn. unfold PATH_MAX in *.
  destruct (N_ALIGN_spec (zlen (e_name e) + 1) ltac:(lia)) as [Hal Hal4].
  assert (Hmax : N_ALIGN (zlen (e_name e) + 1) <= 4098) by zlia.
  cbv zeta. cbn [hdr set_hdr hdr_of name_len body_len mode set_next_header next_header this_header set_st].
  set (g := set_st (set_next_header (set_next_header (set_hdr f (hdr_of e)) _) _) SkipIt).
  assert (Hgat : at_input g inp) by (by destruct Hat; split).
  assert (Hgbd : in_bounds g (inp ++ later)) by (by destruct Hbd; split).
  assert (Hgp : pending g (e :: es) t) by (by eapply pending_same; [..|exact Hp]).
  rewrite (proj2 (Z.eqb_neq (zlen (e_name e) + 1) 0)), (proj2 (Z.ltb_ge 4096 _)) by lia. cbn [orb].
  destruct (S_ISLNK (e_mode e)) eqn:Elnk.
  { pose proof (ok_link _ He Elnk) as Hb. unfold PATH_MAX in Hb. rewrite (proj2 (Z.ltb_ge 4096 _)), <- Hn by lia. apply (step_to_link z f g e es t); auto; lia. }
  assert (Hreg : S_ISREG (e_mode e) || (zlen (e_body e) =? 0) = true).
  { destruct (S_ISREG (e_mode e)) eqn:Er; [done|]. by rewrite (ok_body _ He Elnk Er). }
  rewrite Hreg, <- Hn. apply (step_to_name z f g e es t); auto; lia.
Qed.

(** Collecting. *)

Lemma step_collect f b C j nxt T inp later :
  collecting f b C j nxt -> at_input f inp -> inp ++ later = drop (Z.to_nat j) C ++ T ->
  in_bounds f (inp ++ later) ->
  (forall f' n, same_but f f' b -> collecting f' b C (j + n) nxt -> this_header f' = this_header f + n ->
     inv f' (drop (Z.to_nat (j + n)) C ++ T)) ->
  (forall f', same_but f f' b -> st f' = nxt -> collected f' = InBuf b 0 -> take (length C) (bufs f' b) = C ->
     this_header f' = this_header f + (zlen C - j) -> inv f' T) ->
  stepped f inp later (do_collect f).
Proof.
  intros Hc Hat E Hbd Hmore Hdone.
  destruct (do_collect_spec f b C j nxt inp later T Hc Hat E Hbd)
    as (stop & f' & eaten & inp' & Er & -> & A1 & A2 & A3 & A4 & A5 & Hstop & Hgo).
  pose proof (co_j _ _ _ _ _ Hc) as Hj.
  exists stop, f', eaten, inp'. split_and!; try done; [by apply sm_input with b| | | |].
  - destruct stop.
    + destruct Hstop as (-> & -> & Hc'); [done|]. by apply Hmore.
    + destruct Hgo as (G1 & -> & G3 & G4 & G5 & G6); [done|]. apply Hdone; try done. lia.
  - intros ->. destruct Hstop as (-> & -> & Hc'); [done|]. split; [|by left]. left.
    split; [left; apply (co_st _ _ _ _ _ Hc')|]. intros [E0 _]%app_eq_nil. apply (f_equal length) in E0.
    rewrite length_drop in E0. cbn in E0. pose proof (co_j _ _ _ _ _ Hc'). lia.
  - intros ->. destruct Hgo as (G1 & _); [done|]. left. intros ->. cbn in G1. lia.
  - intros _ Hne. left. intros ->. destruct stop.
    + by destruct Hstop as (-> & _ & _).
    + destruct Hgo as (G1 & _); [done|]. cbn in G1. lia.
Qed.

Lemma collected_mem f b C :
  collected f = InBuf b 0 -> take (length C) (bufs f b) = C ->
  mem_at f (collected f) = Some (C ++ drop (length C) (bufs f b)).
Proof.
  intros -> E. cbn. unfold from_off. rewrite (proj2 (Z.leb_le 0 0)), (proj2 (Z.leb_le 0 _)) by lia. cbn.
  rewrite drop_0. f_equal. rewrite <- (take_drop (length C) (bufs f b)) at 1. by rewrite E.
Qed.

Lemma step_hdr_buf z f e es t j inp later :
  pending f (e :: es) t -> collecting f HeaderBuf (header_bytes e) j GotHeader -> (this_header f - j) `mod` 4 = 0 ->
  at_input f inp ->
  inp ++ later = drop (Z.to_nat j) (header_bytes e) ++ name_field e ++ e_body e ++ body_pad e ++ archive z es ->
  in_bounds f (inp ++ later) -> stepped f inp later (do_collect f).
Proof.
  intros Hp Hc Hm Hat E Hbd. eapply step_collect; try done.
  - intros f' n Hs Hc' Ht. apply (inv_hdr_buf f' e es t); [by eapply pending_same_but|done|].
    rewrite Ht. by replace (this_header f + n - (j + n)) with (this_header f - j) by lia.
  - intros f' Hs Hst Hcd Htk Ht. eapply (inv_got_header f' e es t); [by eapply pending_same_but|done| |].
    + by apply collected_mem.
    + rewrite Ht. change (zlen (header_bytes e)) with 110. zlia.
Qed.

Lemma step_name_buf z f e es t j inp later :
  pending f (e :: es) t -> S_ISLNK (e_mode e) = false -> hdr f = hdr_of e ->
  collecting f NameBuf (name_field e) j GotName ->
  next_header f = this_header f + (zlen (name_field e) - j) + zlen (e_body e ++ body_pad e) ->
  next_header f `mod` 4 = 0 -> at_input f inp ->
  inp ++ later = drop (Z.to_nat j) (name_field e) ++ e_body e ++ body_pad e ++ archive z es ->
  in_bounds f (inp ++ later) -> stepped f inp later (do_collect f).
Proof.
  intros Hp Hk Hh Hc Hn Hm Hat E Hbd. eapply step_collect; try done.
  - intros f' n Hs Hc' Ht. apply (inv_name_buf f' e es t); try done; [by eapply pending_same_but|..];
      destruct Hs as [_ _ _ _ S1 S2 _ _]; rewrite ?S1, ?S2; try done. lia.
  - intros f' Hs Hst Hcd Htk Ht. eapply (inv_got_name f' e es t); try done; [by eapply pending_same_but|..];
      destruct Hs as [_ _ _ _ S1 S2 _ _]; rewrite ?S1, ?S2; try done; [by apply collected_mem|lia].
Qed.

Lemma step_sym_buf z f e es t j inp later :
  pending f (e :: es) t -> S_ISLNK (e_mode e) = true -> hdr f = hdr_of e ->
  collecting f SymlinkBuf (name_field e ++ e_body e) j GotSymlink ->
  next_header f = this_header f + (zlen (name_field e ++ e_body e) - j) + zlen (body_pad e) ->
  next_header f `mod` 4 = 0 -> at_input f inp ->
  inp ++ later = drop (Z.to_nat j) (name_field e ++ e_body e) ++ body_pad e ++ archive z es ->
  in_bounds f (inp ++ later) -> stepped f inp later (do_collect f).
Proof.
  intros Hp Hk Hh Hc Hn Hm Hat E Hbd. eapply step_collect; try done.
  - intros f' n Hs Hc' Ht. apply (inv_sym_buf f' e es t); try done; [by eapply pending_same_but|..];
      destruct Hs as [_ _ _ _ S1 S2 _ _]; rewrite ?S1, ?S2; try done. lia.
  - intros f' Hs Hst Hcd Htk Ht. eapply (inv_got_symlink f' e es t); try done; [by eapply pending_same_but|..];
      destruct Hs as [_ _ _ _ S1 S2 _ _]; rewrite ?S1, ?S2; try done. lia.
Qed.

(** Skipping. *)

Lemma step_skip z f es t x inp later :
  pending f es t -> st f = SkipIt -> next_state f = Reset -> next_header f = this_header f + zlen x ->
  next_header f `mod` 4 = 0 -> at_input f inp -> inp ++ later = x ++ archive z es ->
  in_bounds f (inp ++ later) -> stepped f inp later (do_skip f).
Proof.
  intros Hp Hst Hnx Hn Hm Hat E Hbd. unfold do_skip. rewrite (at_count _ _ Hat), Hn.
  pose proof (bounds_len _ _ _ Hbd) as Hlen. pose proof Hbd as [B1 B2 B3]. rewrite length_app in B2, B3.
  rewrite s64_id by lia. assert (Hx : zlen x < 2147483648).
  { apply (f_equal length) in E. rewrite !length_app in E. lia. }
  destruct (Z.ltb_spec (this_header f + zlen inp) (this_header f + zlen x)).
  - destruct (split_short _ _ _ _ E ltac:(lia)) as [E1 E2].
    destruct (eat_spec f inp [] later) as (A1 & A2 & A3); rewrite ?app_nil_r; try done.
    eexists true, _, inp, []. rewrite app_nil_r. split_and!; try done.
    + cbn [app]. rewrite E2. apply (inv_skip _ es t (drop (length inp) x)); try done.
      * by eapply pending_same; [..|exact Hp].
      * rewrite A2, length_drop. change (next_header (eat f (zlen inp))) with (next_header f). lia.
    + intros _. split; [|by left]. left. split; [by right; right|]. rewrite E2. intros [E0 _]%app_eq_nil.
      apply (f_equal length) in E0. rewrite length_drop in E0. cbn in E0. lia.
    + rewrite Hst. by intros [|].
  - destruct (split_long _ _ _ _ E ltac:(lia)) as (inp' & -> & E2).
    replace (this_header f + zlen x - this_header f) with (zlen x) by lia.
    rewrite u32_id by (unfold is_u32; lia). rewrite <- app_assoc in Hbd.
    destruct (eat_spec f x inp' (inp' ++ later)) as (A1 & A2 & A3); try done.
    eexists false, _, x, inp'. split; [reflexivity|].
    split_and!; try done; [by destruct A1; split|by destruct A3; split| | |].
    + rewrite <- E2. apply (inv_reset _ es t); [by eapply pending_same; [..|exact Hp]|done|].
      intros _. change (this_header (eat f (zlen x)) `mod` 4 = 0). rewrite A2. by rewrite <- Hn.
    + intros _. right. rewrite Hst. cbn. rewrite Hnx. cbn. lia.
    + rewrite Hst. by intros [|].
Qed.

(** Between entries. *)

Lemma repeat_split (a b : list Z) n : a ++ b = repeat 0 n -> a = repeat 0 (length a) /\ b = repeat 0 (length b).
Proof.
  revert n. induction a as [|c a IH]; intros n; cbn.
  - intros ->. by rewrite repeat_length.
  - destruct n as [|n]; [done|]. cbn. intros [= -> E]. destruct (IH n E) as [-> Hb]. split; [|done].
    by rewrite repeat_length.
Qed.

Lemma eat_zeros_spec n f later :
  at_input f (repeat 0 n) -> in_bounds f (repeat 0 n ++ later) ->
  exists f', eat_zeros n f = Ok f' /\ at_input f' [] /\ in_bounds f' later /\ input f' = input f /\
    victim f' = victim f + Z.of_nat n /\ st f' = st f /\ (forall es t, pending f es t -> pending f' es t).
Proof.
  revert f. induction n as [|n IH]; intros f Hat Hbd; cbn [eat_zeros].
  - rewrite (at_count _ _ Hat). cbn. exists f. split_and!; try done. cbn. lia.
  - rewrite (at_count _ _ Hat), repeat_length, (proj2 (Z.eqb_neq _ 0)) by lia.
    change (repeat 0 (S n)) with ([0] ++ repeat 0 n) in Hat, Hbd.
    change 1 with (zlen [0]). rewrite (input_bytes f [0] _ Hat). cbn [of_option rbind].
    rewrite bool_decide_eq_true_2 by done. pose proof (bounds_len _ _ _ Hbd) as Hlen.
    destruct (eat_spec f [0] (repeat 0 n) (repeat 0 n ++ later) Hat Hbd Hlen) as (A1 & A2 & A3).
    destruct (IH (eat f (zlen [0])) A1 A3) as (f' & -> & B1 & B2 & B3 & B4 & B5 & B6).
    exists f'. split_and!; try done; [rewrite B4; cbn; lia|].
    intros es t Hp. apply B6. by eapply pending_same; [..|exact Hp].
Qed.

Lemma archive_starts z e es : exists x, archive z (e :: es) = 48 :: x.
Proof. rewrite archive_cons. by eexists. Qed.

Lemma step_reset z f es t inp later :
  pending f es t -> st f = Reset -> (es <> [] -> this_header f `mod` 4 = 0) -> at_input f inp ->
  inp ++ later = archive z es -> in_bounds f (inp ++ later) -> stepped f inp later (do_reset f).
Proof.
  intros Hp Hst Hm Hat E Hbd. unfold do_reset. destruct es as [|e es].
  - unfold archive in E. cbn in E. destruct (repeat_split _ _ _ E) as [E1 E2].
    rewrite (at_count _ _ Hat), Nat2Z.id. rewrite E1 in Hat, Hbd.
    destruct (eat_zeros_spec _ _ _ Hat Hbd) as (f' & -> & A1 & A2 & A3 & A4 & A5 & A6). cbn [rbind].
    rewrite (at_count _ _ A1). cbn. exists true, f', inp, []. rewrite app_nil_r. split_and!; try done.
    + cbn [app]. rewrite E2. apply (inv_reset f' [] t (length later)); [auto|congruence|done].
    + intros _. split; [|by left]. right. congruence.
    + rewrite Hst. by intros [|].
  - destruct (archive_starts z e es) as [x Hx]. specialize (Hm ltac:(done)).
    assert (Hz : eat_zeros (Z.to_nat (count f)) f = Ok f).
    { destruct inp as [|c inp].
      - pose proof (at_count _ _ Hat) as Hc. cbn in Hc.
        destruct (Z.to_nat (count f)); cbn [eat_zeros]; by rewrite Hc.
      - rewrite Hx in E. injection E as -> _. destruct (Z.to_nat (count f)) eqn:Ec; cbn [eat_zeros];
          rewrite (at_count _ _ Hat), (proj2 (Z.eqb_neq _ 0)) by (cbn; lia);
          change 1 with (zlen [48]); rewrite (input_bytes f [48] inp Hat); done. }
    rewrite Hz. cbn [rbind]. rewrite land_3, Hm. cbn [Z.eqb negb]. rewrite andb_false_r.
    exists true, f, [], inp. split_and!; try done; [cbn; lia| | |].
    + rewrite E. by apply (inv_reset f (e :: es) t).
    + intros _. split; [by right|]. destruct inp as [|c inp]; [by left|].
      right. split; [done|]. rewrite Hx in E. injection E as -> _. by exists inp.
    + rewrite Hst. by intros [|].
Qed.

(** File contents. *)

Lemma fill_file_app e fd a b w : fill_file V e fd (a ++ b) w = fill_file V e fd b (sys_write V fd a w).
Proof. unfold fill_file. by rewrite write_app. Qed.

Lemma step_copy z f e es t b p inp later :
  synced f t -> finish es (on_world t (fill_file V e (wfd f) b)) = fin -> Forall entry_ok es ->
  st f = CopyFile -> next_state f = Reset -> body_len (hdr f) = zlen b -> mtime (hdr f) = s32 (e_mtime e) ->
  vcollected f = e_name e -> next_header f = this_header f + zlen (b ++ p) -> next_header f `mod` 4 = 0 ->
  at_input f inp -> inp ++ later = b ++ p ++ archive z es -> in_bounds f (inp ++ later) ->
  stepped f inp later (do_copy V f).
Proof.
  intros Hs Hf Hok Hst Hnx Hbl Hmt Hv Hn Hm Hat E Hbd. unfold do_copy. rewrite Hbl, (at_count _ _ Hat).
  pose proof (bounds_len _ _ _ Hbd) as Hlen. rewrite length_app in Hn.
  destruct (Z.leb_spec (zlen b) (zlen inp)).
  - destruct (split_long _ _ _ _ E ltac:(lia)) as (inp' & -> & E2). rewrite <- app_assoc in Hbd.
    rewrite (input_bytes f b inp' Hat). cbn [of_option rbind].
    set (g := do_utime V _ _ _).
    destruct (eat_spec g b inp' (inp' ++ later)) as (A1 & A2 & A3);
      [by destruct Hat; split|by destruct Hbd; split|done|].
    eexists false, _, b, inp'. split; [reflexivity|].
    split_and!; try done; [by destruct A1; split|by destruct A3; split| | |].
    + rewrite <- E2. apply (inv_skip _ es (on_world t (fill_file V e (wfd f) b)) p); try done.
      * split; [|done|done]. destruct Hs as [S1 S2 S3 S4 S5 S6 S7]. split; try done.
        cbn. unfold fill_file. by rewrite S2, Hv, Hmt.
      * change (next_header f = this_header (eat g (zlen b)) + zlen p). rewrite A2.
        change (this_header g) with (this_header f). lia.
    + intros _. right. rewrite Hst. cbn. lia.
    + rewrite Hst. by intros [|].
  - destruct (split_short _ _ _ _ E ltac:(lia)) as [E1 E2].
    assert (Hb : inp ++ drop (length inp) b = b) by (rewrite E1 at 1; apply take_drop).
    rewrite <- (app_nil_r inp) in Hat. rewrite (input_bytes f inp [] Hat). cbn [of_option rbind].
    set (g := set_body_len _ _). rewrite <- (app_nil_r inp) in Hlen.
    destruct (eat_spec g inp [] later) as (A1 & A2 & A3); [by destruct Hat; split|by destruct Hbd; split|done|].
    change (count g) with (count f). rewrite (at_count _ _ Hat), app_nil_r.
    eexists true, _, inp, []. rewrite app_nil_r. split; [reflexivity|].
    split_and!; try done.
    + cbn [app]. rewrite E2.
      apply (inv_copy _ e es (on_world t (sys_write V (wfd f) inp)) (drop (length inp) b) p); try done.
      * destruct Hs as [S1 S2 S3 S4 S5 S6 S7]. split; try done. cbn. by rewrite S2.
      * rewrite <- Hf. unfold finish, on_world. cbn [t_world t_links t_dirs].
        replace (wfd (eat _ _)) with (wfd f) by done. rewrite <- fill_file_app. by rewrite Hb.
      * cbn. rewrite length_drop, (at_count _ _ Hat), app_nil_r.
        rewrite u32_id; [lia|]. apply (f_equal length) in E. rewrite !length_app in E.
        pose proof (bd_len _ _ Hbd) as H1. rewrite length_app in H1. unfold is_u32. lia.
      * change (next_header (eat _ _)) with (next_header f).
        replace (this_header (eat g _)) with (this_header f + zlen inp) by (symmetry; exact A2).
        rewrite Hn, length_app, length_drop. lia.
    + intros _. split; [|by left]. left. split; [right; by left|]. rewrite E2. intros [E0 _]%app_eq_nil.
      apply (f_equal length) in E0. rewrite length_drop in E0. cbn in E0. lia.
    + rewrite Hst. by intros [|].
Qed.

(** Names. *)

Lemma cstr_nul s x : cstr (s ++ 0 :: x) = Some (to_nul s).
Proof. induction s as [|c s IH]; cbn; [done|]. destruct (c =? 0); [done|]. by rewrite IH. Qed.

Lemma name_field_split e : entry_ok e -> exists k, name_field e = e_name e ++ 0 :: repeat 0 k.
Proof.
  intros He. pose proof (ok_length _ He) as H. unfold PATH_MAX in H.
  destruct (N_ALIGN_spec (zlen (e_name e) + 1) ltac:(lia)) as [H1 _]. unfold name_field.
  exists (Z.to_nat (N_ALIGN (zlen (e_name e) + 1) - zlen (e_name e) - 1)). f_equal.
  by replace (Z.to_nat (N_ALIGN (zlen (e_name e) + 1) - zlen (e_name e)))
    with (S (Z.to_nat (N_ALIGN (zlen (e_name e) + 1) - zlen (e_name e) - 1))) by lia.
Qed.

Lemma cstr_name e x : entry_ok e -> cstr (name_field e ++ x) = Some (e_name e).
Proof.
  intros He. destruct (name_field_split e He) as [k ->]. rewrite <- app_assoc. cbn [app].
  rewrite cstr_nul. f_equal. apply to_nul_cstring, (ok_name _ He).
Qed.

Lemma clean_path_eq f p m : clean_path V f p m = set_world f (make_way V p m (world f)).
Proof.
  destruct f. unfold clean_path, make_way, sys, set_world. cbn. destruct (sys_newlstat V p _) as [sm|]; [|done].
  fold (fmt (Z.lxor sm m)). destruct (_ =? 0); cbn; [done|]. by destruct (S_ISDIR sm).
Qed.

Lemma maybe_link_spec f e t :
  entry_ok e -> synced f t -> hdr f = hdr_of e -> string_at f (collected f) = Ok (e_name e) ->
  exists ml h w l, maybe_link V f = Ok (ml, set_world (set_head f h) w) /\
    try_link V e t = (ml, mkTarget w l (t_dirs t)) /\ links_ok h l.
Proof.
  intros He [S1 S2 S3 S4 _ _ _] Hh Hn. unfold maybe_link, try_link. rewrite Hh. cbn [hdr_of nlink major minor ino mode].
  assert (Heta : set_world (set_head f (head f)) (world f) = f) by by destruct f.
  destruct (Z.leb_spec 2 (e_nlink e)).
  - rewrite (proj2 (Z.ltb_ge _ _)) by lia. rewrite Hn. cbn [rbind]. unfold find_link, same_file. rewrite S4.
    destruct (List.find _ (t_links t)) as [q|].
    + cbn [rbind]. rewrite S2. destruct (sys_link V (h_name q) (e_name e) (t_world t)) as [r w].
      exists (if r <? 0 then -1 else 1), (head f), w, (t_links t). split_and!; [by destruct f|done|done].
    + pose proof (ok_length _ He) as Hl. unfold PATH_MAX in *. change (N_ALIGN 4096) with 4098.
      rewrite (proj2 (Z.ltb_lt _ _)) by lia. cbn [rbind]. do 3 eexists. exists (t_links t ++ [mkHash (e_ino e) (e_minor e) (e_major e) (e_mode e) (e_name e)]).
      split_and!; [rewrite <- Heta at 2; reflexivity|by rewrite S2|].
      apply (links_ok_add (head f) (t_links t) (mkHash (e_ino e) (e_minor e) (e_major e) (e_mode e) (e_name e)) S4).
  - rewrite (proj2 (Z.ltb_lt _ _)) by lia. exists 0, (head f), (world f), (t_links t).
    split_and!; [by rewrite Heta|rewrite S2; by destruct t|done].
Qed.

(** The reader just after a name: what matters for the entries to come. *)
Definition after_name f f' : Prop :=
  input f' = input f /\ victim f' = victim f /\ count f' = count f /\ this_header f' = this_header f /\
  next_header f' = next_header f /\ next_state f' = Reset /\ bufs f' = bufs f /\ message f' = message f /\
  hdr f' = hdr f.

Lemma after_at f f' inp : after_name f f' -> at_input f inp -> at_input f' inp.
Proof. intros (E1 & E2 & E3 & _) [H1 H2 H3 H4]. split; rewrite ?E1, ?E2, ?E3; done. Qed.
Lemma after_bounds f f' T : after_name f f' -> in_bounds f T -> in_bounds f' T.
Proof. intros (_ & _ & _ & E & _) [H1 H2 H3]. split; rewrite ?E; done. Qed.
Lemma after_synced f f' t t' :
  after_name f f' -> synced f t -> world f' = t_world t' -> dir_list f' = t_dirs t' ->
  links_ok (head f') (t_links t') -> synced f' t'.
Proof. intros (_ & _ & _ & _ & _ & _ & E & Em & _) [] H1 H2 H3. split; rewrite ?E, ?Em; done. Qed.

(** The branch for regular files. *)
Lemma name_file f g e t ml h w l :
  synced g t -> hdr f = hdr_of e -> after_name f g -> st g = SkipIt ->
  maybe_link V g = Ok (ml, set_world (set_head g h) w) -> try_link V e t = (ml, mkTarget w l (t_dirs t)) ->
  links_ok h l ->
  exists f',
    (let* (ml, f) := maybe_link V g in
     if 0 <=? ml then
       let openflags := Z.lor O_WRONLY O_CREAT in
       let openflags := if negb (ml =? 1) then Z.lor openflags O_TRUNC else openflags in
       let '(fd, w) := sys_open V (e_name e) openflags (e_mode e) (world f) in
       let f := set_wfd (set_world f w) fd in
       if 0 <=? fd then
         let f := sys f (sys_fchown V fd (e_uid e) (e_gid e)) in
         let f := sys f (sys_fchmod V fd (e_mode e)) in
         let f := if negb (zlen (e_body e) =? 0) then sys f (sys_ftruncate V fd (zlen (e_body e))) else f in
         Ok (false, set_st (set_vcollected f (e_name e)) CopyFile)
       else Ok (false, f)
     else Ok (false, f)) = Ok (false, f') /\ after_name f f' /\
    ((st f' = SkipIt /\ synced f' (install_file V e t)) \/
     (st f' = CopyFile /\ vcollected f' = e_name e /\
      exists t', synced f' t' /\ install_file V e t = on_world t' (fill_file V e (wfd f') (e_body e)))).
Proof.
  intros Hs Hh Ha Hst Em Et Hl. rewrite Em. cbn [rbind]. unfold install_file. rewrite Et. cbv zeta.
  destruct Hs as [S1 S2 S3 S4 S5 S6 S7].
  destruct (Z.leb_spec 0 ml), (Z.ltb_spec ml 0); try lia.
  2: { eexists. split; [reflexivity|]. split; [done|]. left. split; [done|]. by split. }
  unfold open_file. cbn [world set_world set_head t_world].
  replace (if negb (ml =? 1) then Z.lor (Z.lor O_WRONLY O_CREAT) O_TRUNC else Z.lor O_WRONLY O_CREAT)
    with (if ml =? 1 then 65 else 577) by (by destruct (ml =? 1)).
  destruct (sys_open V (e_name e) _ (e_mode e) w) as [fd w'].
  destruct (Z.leb_spec 0 fd), (Z.ltb_spec fd 0); try lia.
  2: { eexists. split; [reflexivity|]. split; [done|]. left. rewrite (proj2 (Z.ltb_lt fd 0)) by lia.
       split; [done|]. by split. }
  rewrite (proj2 (Z.ltb_ge fd 0)) by lia.
  eexists. split; [reflexivity|]. destruct (e_body e) as [|c b]; cbn [length Z.of_nat Z.eqb negb].
  - split; [done|]. right. split; [done|]. split; [done|]. eexists (mkTarget _ l (t_dirs t)). by split.
  - split; [done|]. right. split; [done|]. split; [done|]. eexists (mkTarget _ l (t_dirs t)). by split.
Qed.

(** [do_name] either installs the entry and skips its contents, or opens the file. *)
Lemma do_name_spec f e t x :
  entry_ok e -> synced f t -> hdr f = hdr_of e -> S_ISLNK (e_mode e) = false ->
  mem_at f (collected f) = Some (name_field e ++ x) ->
  exists f', do_name V f = Ok (false, f') /\ after_name f f' /\
    ((st f' = SkipIt /\ synced f' (install V t e)) \/
     (st f' = CopyFile /\ vcollected f' = e_name e /\
      exists t', synced f' t' /\ install V t e = on_world t' (fill_file V e (wfd f') (e_body e)))).
Proof.
  intros He Hs Hh Hk Hmem. unfold do_name.
  set (g := set_next_state (set_st f SkipIt) Reset).
  assert (Hname : string_at g (collected g) = Ok (e_name e)).
  { unfold string_at. change (mem_at g (collected g)) with (mem_at f (collected f)). rewrite Hmem. cbn.
    by rewrite cstr_name. }
  rewrite Hname. cbn [rbind]. change (hdr g) with (hdr f). rewrite Hh. unfold install.
  destruct (bool_decide (e_name e = trailer_name)).
  { eexists. split; [reflexivity|]. split; [by repeat split|]. left. split; [done|].
    destruct Hs. by split. }
  rewrite Hk, clean_path_eq. set (g1 := set_world g _). set (t1 := on_world t (make_way V (e_name e) (e_mode e))).
  assert (Hg1 : synced g1 t1) by (destruct Hs as [S1 S2 S3 S4 S5 S6 S7]; split; try done; cbn; by rewrite S2).
  cbn [hdr_of mode].
  assert (Hml : exists ml h w l, maybe_link V g1 = Ok (ml, set_world (set_head g1 h) w) /\
    try_link V e t1 = (ml, mkTarget w l (t_dirs t1)) /\ links_ok h l) by by apply maybe_link_spec.
  destruct Hml as (ml & h & w & l & Em & Et & Hl).
  assert (Hafter : forall g2, after_name g1 g2 -> after_name f g2) by done.
  destruct (S_ISREG (e_mode e)); [by apply (name_file f g1 e t1 ml h w l)|].
  destruct (S_ISDIR (e_mode e)).
  { eexists. split; [reflexivity|]. split; [by repeat split|]. left. split; [done|].
    destruct Hg1 as [S1 S2 S3 S4 S5 S6 S7]. split; try done; cbn in *; congruence. }
  destruct (_ || _); [|eexists; split; [reflexivity|]; split; [by repeat split|]; by left].
  rewrite Em. cbn [rbind]. unfold install_node. rewrite Et.
  destruct (ml =? 0); cbn [negb]; eexists; (split; [reflexivity|]); (split; [by repeat split|]); left;
    (split; [done|]); destruct Hg1 as [S1 S2 S3 S4 S5 S6 S7]; by split.
Qed.

Lemma finish_cons e es t : finish (e :: es) t = finish es (install V t e).
Proof. done. Qed.

Lemma step_name z f e es t x inp later :
  pending f (e :: es) t -> S_ISLNK (e_mode e) = false -> hdr f = hdr_of e -> st f = GotName ->
  mem_at f (collected f) = Some (name_field e ++ x) ->
  next_header f = this_header f + zlen (e_body e ++ body_pad e) -> next_header f `mod` 4 = 0 ->
  at_input f inp -> inp ++ later = e_body e ++ body_pad e ++ archive z es -> in_bounds f (inp ++ later) ->
  stepped f inp later (do_name V f).
Proof.
  intros Hp Hk Hh Hst Hmem Hn Hm Hat E Hbd. destruct (pending_head _ _ _ _ Hp) as [He Hes].
  destruct Hp as [Hs Hf Hok]. rewrite finish_cons in Hf.
  destruct (do_name_spec f e t x He Hs Hh Hk Hmem) as (f' & Er & Ha & Hcase).
  exists false, f', [], inp. pose proof Ha as (A1 & A2 & A3 & A4 & A5 & A6 & A7 & A8 & A9).
  split_and!; try done; [by eapply after_at|by eapply after_bounds|rewrite A2; cbn; lia| | |].
  - rewrite E. destruct Hcase as [[Hst' Hs']|(Hst' & Hv & t' & Hs' & Hi)].
    + rewrite app_assoc. apply (inv_skip f' es (install V t e)); try done; [by rewrite A5, A4|by rewrite A5].
    + apply (inv_copy f' e es t'); try done; rewrite ?A9, ?Hh, ?A5, ?A4; try done. by rewrite <- Hi.
  - intros _. right. rewrite Hst. destruct Hcase as [[-> _]|[-> _]]; cbn; lia.
  - rewrite Hst. by intros [|].
Qed.

(** Symbolic links. *)

Lemma store_nul f C :
  zlen (bufs f SymlinkBuf) = 8195 -> zlen C <= 8194 -> take (length C) (bufs f SymlinkBuf) = C ->
  exists l y, store_at f (InBuf SymlinkBuf (zlen C)) [0] = Ok (set_bufs f (upd_buf (bufs f) SymlinkBuf l)) /\
    length l = length (bufs f SymlinkBuf) /\ l = C ++ 0 :: y.
Proof.
  intros Hl Hc Ht. cbn [store_at].
  destruct (splice_spec (bufs f SymlinkBuf) (zlen C) [0] ltac:(lia) ltac:(cbn; lia)) as (l & -> & L1 & L2).
  exists l, (drop (length C + 1) l). cbn. split_and!; [done|done|].
  rewrite Nat2Z.id in L2. cbn in L2. rewrite Ht in L2. rewrite <- (take_drop (length C + 1) l) at 1.
  rewrite L2. by rewrite <- app_assoc.
Qed.

Lemma step_symlink z f e es t inp later :
  pending f (e :: es) t -> S_ISLNK (e_mode e) = true -> hdr f = hdr_of e -> st f = GotSymlink ->
  collected f = InBuf SymlinkBuf 0 ->
  take (length (name_field e ++ e_body e)) (bufs f SymlinkBuf) = name_field e ++ e_body e ->
  next_header f = this_header f + zlen (body_pad e) -> next_header f `mod` 4 = 0 ->
  at_input f inp -> inp ++ later = body_pad e ++ archive z es -> in_bounds f (inp ++ later) ->
  stepped f inp later (do_symlink V f).
Proof.
  intros Hp Hk Hh Hst Hcol Htake Hn Hm Hat E Hbd. destruct (pending_head _ _ _ _ Hp) as [He Hes].
  destruct Hp as [Hs Hf Hok]. rewrite finish_cons in Hf. unfold do_symlink.
  rewrite Hh, Hcol. cbn [hdr_of name_len body_len advance uid gid mtime]. rewrite !Z.add_0_l.
  pose proof (ok_length _ He) as Hl. pose proof (ok_link _ He Hk) as Hb. pose proof (name_field_length e He) as Hnl.
  unfold PATH_MAX in *. destruct (N_ALIGN_spec (zlen (e_name e) + 1) ltac:(lia)) as [Hal Hal4].
  assert (Hmax : N_ALIGN (zlen (e_name e) + 1) <= 4098) by zlia.
  assert (Ec : u32 (N_ALIGN (zlen (e_name e) + 1) + zlen (e_body e)) = zlen (name_field e ++ e_body e)).
  { rewrite u32_id by (unfold is_u32; lia). rewrite length_app. lia. }
  rewrite Ec. destruct (store_nul f (name_field e ++ e_body e) (sy_symlink _ _ Hs) ltac:(rewrite length_app; lia) Htake)
    as (l & y & -> & Hll & El). cbn [rbind].
  set (g := set_bufs f (upd_buf (bufs f) SymlinkBuf l)).
  change (collected g) with (collected f). rewrite Hcol.
  assert (Hbuf : forall w off, 0 <= off <= zlen l ->
    mem_at (set_world g w) (InBuf SymlinkBuf off) = Some (drop (Z.to_nat off) l)).
  { intros w off Ho. cbn. unfold from_off. by rewrite (proj2 (Z.leb_le 0 off)), (proj2 (Z.leb_le off _)) by lia. }
  assert (Hname : string_at g (InBuf SymlinkBuf 0) = Ok (e_name e)).
  { unfold string_at. change (mem_at g) with (mem_at (set_world g (world g))). rewrite Hbuf by lia.
    cbn [mbind option_bind]. change (Z.to_nat 0) with 0%nat. rewrite drop_0, El, <- app_assoc, cstr_name; done. }
  rewrite Hname. cbn [rbind]. rewrite clean_path_eq. change (collected (set_world _ _)) with (collected f).
  rewrite Hcol. cbn [advance]. rewrite Z.add_0_l, <- Hnl.
  assert (Htgt : string_at (set_world g (make_way V (e_name e) 0 (world g))) (InBuf SymlinkBuf (zlen (name_field e))) =
    Ok (to_nul (e_body e))).
  { unfold string_at. rewrite Hbuf by (rewrite El, !length_app; lia). cbn [mbind option_bind].
    rewrite Nat2Z.id, El, <- app_assoc, drop_app_length. by rewrite cstr_nul. }
  rewrite Htgt. cbn [rbind]. eexists false, _, [], inp. split; [reflexivity|].
  split_and!; try done; try (by destruct Hat; split); try (by destruct Hbd; split).
  - cbn. lia.
  - rewrite E. apply (inv_skip _ es (install V t e)); try done. split; try done.
    assert (Hnt : e_name e <> trailer_name) by (intros Et; destruct (ok_trailer _ He Et); congruence).
    unfold install. rewrite bool_decide_eq_false_2, Hk by done.
    destruct Hs as [S1 S2 S3 S4 S5 S6 S7]. split; try done; cbn; [by rewrite S2|lia].
  - intros _. right. rewrite Hst. cbn. lia.
  - rewrite Hst. by intros [|].
Qed.

(** ** Every action *)

Lemma step_inv f T inp later :
  inv f T -> at_input f inp -> inp ++ later = T -> in_bounds f (inp ++ later) ->
  stepped f inp later (actions V (st f) f).
Proof.
  intros Hi Hat E Hbd. destruct Hi.
  - rewrite H0. by eapply step_start.
  - rewrite H0. by eapply step_reset.
  - rewrite (co_st _ _ _ _ _ H0). by eapply step_hdr_buf.
  - rewrite H0. by eapply step_header.
  - rewrite (co_st _ _ _ _ _ H2). by eapply step_name_buf.
  - rewrite H2. by eapply step_name.
  - rewrite (co_st _ _ _ _ _ H2). by eapply step_sym_buf.
  - rewrite H2. by eapply step_symlink.
  - rewrite H2. by eapply step_copy.
  - rewrite H0. by eapply step_skip.
Qed.

(** Where a call of [write_buffer] leaves the reader: at the end of the piece, or
    before an entry. *)
Definition paused f (inp later : list Z) (f' : fsm W) : Prop :=
  exists eaten inp', inp = eaten ++ inp' /\ at_input f' inp' /\ in_bounds f' (inp' ++ later) /\
    input f' = input f /\ victim f' = victim f + zlen eaten /\ inv f' (inp' ++ later) /\ pauses (st f') later /\
    (inp' = [] \/ st f' = Reset /\ exists x, inp' = 48 :: x) /\
    (st f = Start \/ st f = Collect -> inp <> [] -> eaten <> []).

Lemma run_spec fuel f inp later :
  inv f (inp ++ later) -> at_input f inp -> in_bounds f (inp ++ later) ->
  (8 * length inp + rank (st f) < fuel)%nat ->
  exists f', run_actions V fuel f = Ok f' /\ paused f inp later f'.
Proof.
  revert f inp. induction fuel as [|fuel IH]; intros f inp Hi Hat Hbd Hfuel; [lia|]. cbn [run_actions].
  destruct (step_inv f _ inp later Hi Hat eq_refl Hbd)
    as (stop & f1 & eaten & inp1 & -> & -> & A1 & A2 & A3 & A4 & A5 & Hstop & Hgo & Hprog). cbn [rbind].
  destruct stop.
  - exists f1. split; [done|]. exists eaten, inp1. destruct Hstop as [P1 P2]; [done|].
    split_and!; try done. intros Hst Hne. by destruct (Hprog Hst Hne) as [|[]].
  - destruct (IH f1 inp1) as (f' & -> & e2 & inp2 & -> & B1 & B2 & B3 & B4 & B5 & B6 & B7 & B8); try done.
    { rewrite length_app in Hfuel. destruct Hgo as [Hne|Hr]; [done| |lia].
      destruct eaten; [done|]. cbn in Hfuel. assert (rank (st f1) <= 6)%nat by (destruct (st f1); cbn; lia). lia. }
    exists f'. split; [done|]. exists (eaten ++ e2), inp2. rewrite <- app_assoc. split_and!; try done.
    + congruence.
    + rewrite B4, A4, length_app. lia.
    + intros Hst Hne H0. apply app_eq_nil in H0 as [-> ->]. cbn in *.
      destruct (Hprog Hst Hne) as [|[_ Hc]]; [done|]. by apply B8; [right|..].
Qed.

Lemma pending_view f off len es t : pending f es t -> pending (set_victim (set_count f len) off) es t.
Proof. intros H. by eapply pending_same; [..|exact H]. Qed.
Lemma pending_switch f l es t : pending f es t -> pending (switch_input f l) es t.
Proof. intros H. by eapply pending_same; [..|exact H]. Qed.
Lemma collecting_switch f l b C j nxt : collecting f b C j nxt -> collecting (switch_input f l) b C j nxt.
Proof. intros [C1 C2 C3 C4 C5 C6 C7 C8]. split; try done. cbn. by rewrite C3. Qed.
Lemma collecting_view f off len b C j nxt :
  collecting f b C j nxt -> collecting (set_victim (set_count f len) off) b C j nxt.
Proof. by intros []. Qed.

(** The invariant does not depend on the place of the input, nor, between two calls,
    on the input. *)
Lemma inv_view f T off len : inv f T -> inv (set_victim (set_count f len) off) T.
Proof.
  destruct 1.
  - eapply inv_start; try done. by apply pending_view.
  - eapply inv_reset; try done. by apply pending_view.
  - eapply inv_hdr_buf; try done; [by apply pending_view|by apply collecting_view].
  - eapply inv_got_header; try done. by apply pending_view.
  - eapply inv_name_buf; try done; [by apply pending_view|by apply collecting_view].
  - eapply inv_got_name; try done. by apply pending_view.
  - eapply inv_sym_buf; try done; [by apply pending_view|by apply collecting_view].
  - eapply inv_got_symlink; try done. by apply pending_view.
  - eapply inv_copy; try done. by destruct H.
  - eapply inv_skip; try done. by apply pending_view.
Qed.

Lemma inv_switch f T l : inv f T -> pauses (st f) T \/ st f = Start -> inv (switch_input f l) T.
Proof.
  intros Hi Hst. destruct Hi.
  - eapply inv_start; try done. by apply pending_switch.
  - eapply inv_reset; try done. by apply pending_switch.
  - eapply inv_hdr_buf; try done; [by apply pending_switch|by apply collecting_switch].
  - rewrite H0 in Hst. by destruct Hst as [[[[|[|]] _]|]|].
  - eapply inv_name_buf; try done; [by apply pending_switch|by apply collecting_switch].
  - rewrite H2 in Hst. by destruct Hst as [[[[|[|]] _]|]|].
  - eapply inv_sym_buf; try done; [by apply pending_switch|by apply collecting_switch].
  - rewrite H2 in Hst. by destruct Hst as [[[[|[|]] _]|]|].
  - eapply inv_copy; try done. by destruct H.
  - eapply inv_skip; try done. by apply pending_switch.
Qed.

Lemma write_buffer_spec f off inp later :
  inv f (inp ++ later) -> at_input (set_victim (set_count f (zlen inp)) off) inp -> in_bounds f (inp ++ later) ->
  exists f' eaten inp', write_buffer V f off (zlen inp) = Ok (zlen eaten, f') /\
    inp = eaten ++ inp' /\ at_input f' inp' /\ in_bounds f' (inp' ++ later) /\
    input f' = input f /\ victim f' = off + zlen eaten /\ inv f' (inp' ++ later) /\ pauses (st f') later /\
    (inp' = [] \/ st f' = Reset /\ exists x, inp' = 48 :: x) /\ (st f = Start -> inp <> [] -> eaten <> []).
Proof.
  intros Hi Hat Hbd. unfold write_buffer. pose proof (bounds_len _ _ _ Hbd) as Hlen.
  set (g := set_victim (set_count f (zlen inp)) off) in *.
  destruct (run_spec (action_fuel (zlen inp)) g inp later)
    as (f' & -> & eaten & inp' & E & A1 & A2 & A3 & A4 & A5 & A6 & A7 & A8).
  - by apply inv_view.
  - done.
  - by destruct Hbd; split.
  - unfold action_fuel. change (st g) with (st f). assert (rank (st f) <= 6)%nat by (destruct (st f); cbn; lia).
    rewrite Nat2Z.id. lia.
  - cbn [rbind]. exists f', eaten, inp'. split_and!; try done.
    + do 2 f_equal. rewrite (at_count _ _ A1), E, length_app. rewrite u32_id; [lia|].
      unfold is_u32. rewrite E, length_app in Hlen. lia.
    + intros Hst. by apply A8; left.
Qed.

Lemma inv_message f T : inv f T -> message f = None.
Proof.
  destruct 1; match goal with
  | H : pending _ _ _ |- _ => exact (sy_message _ _ (pe_synced _ _ _ H))
  | H : synced _ _ |- _ => exact (sy_message _ _ H)
  end.
Qed.

(** A reader between entries that sees a digit has an entry to read. *)
Lemma reset_to_start f x :
  inv f (48 :: x) -> st f = Reset -> inv (set_st f Start) (48 :: x).
Proof.
  intros Hi Hst. remember (48 :: x) as T eqn:ET. destruct Hi; try congruence.
  - destruct es as [|e es]; [by destruct z|]. rewrite ET. rewrite <- ET.
    eapply inv_start; [by eapply pending_same; [..|exact H]|done|]. by apply H1.
  - by rewrite (co_st _ _ _ _ _ H0) in Hst.
  - by rewrite (co_st _ _ _ _ _ H2) in Hst.
  - by rewrite (co_st _ _ _ _ _ H2) in Hst.
Qed.

Lemma flush_loop_spec fuel f off inp later :
  inv f (inp ++ later) -> at_input (set_victim (set_count f (zlen inp)) off) inp -> in_bounds f (inp ++ later) ->
  0 <= off -> (length inp + (if bool_decide (st f = Start) then 0 else 1) < fuel)%nat ->
  exists f', flush_loop V fuel f off (zlen inp) = Ok f' /\ inv f' later /\ pauses (st f') later /\ in_bounds f' later.
Proof.
  revert f off inp. induction fuel as [|fuel IH]; intros f off inp Hi Hat Hbd Hoff Hfuel; [lia|].
  cbn [flush_loop].
  destruct (write_buffer_spec f off inp later Hi Hat Hbd)
    as (f1 & eaten & inp1 & -> & -> & A1 & A2 & A3 & A4 & A5 & A6 & A7 & A8). cbn [rbind].
  destruct A7 as [->|[Hr [x ->]]].
  - rewrite app_nil_r in *. rewrite Z.ltb_irrefl. cbn [andb]. by exists f1.
  - rewrite (inv_message _ _ A5), length_app, (proj2 (Z.ltb_lt _ _)) by (cbn; lia). cbn [andb bool_decide].
    rewrite bool_decide_eq_true_2 by done.
    assert (Hb : byte_at (input f1) (off + zlen eaten) = Ok 48).
    { unfold byte_at. rewrite (proj2 (Z.ltb_ge _ 0)) by lia. rewrite <- A4.
      pose proof (at_rest _ _ A1) as Hd. rewrite <- (Nat.add_0_r (Z.to_nat (victim f1))), <- lookup_drop, Hd. done. }
    rewrite Hb. cbn [rbind Z.eqb Pos.eqb].
    replace (Z.of_nat (length eaten + length (48 :: x)) - zlen eaten) with (zlen (48 :: x)) by lia.
    destruct (IH (set_st f1 Start) (off + zlen eaten) (48 :: x)) as (f' & E & H); try done; [..|by exists f'].
    + by apply reset_to_start.
    + destruct A1 as [D1 D2 D3 D4]. split; cbn; rewrite <- ?A4; done.
    + by destruct A2; split.
    + lia.
    + rewrite bool_decide_eq_true_2 by done. rewrite length_app in Hfuel.
      destruct (bool_decide (st f = Start)) eqn:Eb; [|cbn in *; lia].
      apply bool_decide_eq_true in Eb. assert (eaten <> []) by (apply A8; [done|]; by destruct eaten).
      destruct eaten; [done|]. cbn in *. lia.
Qed.

Lemma deliver_spec cs f :
  inv f (pieces cs) -> pauses (st f) (pieces cs) \/ st f = Start -> in_bounds f (pieces cs) ->
  exists f', deliver (flush_buffer V) error cs f = Ok (None, f') /\ inv f' [] /\ (st f' = Reset \/ st f' = Start).
Proof.
  revert f. induction cs as [|[c p] cs IH]; intros f Hi Hst Hbd; cbn [deliver].
  { exists f. split_and!; try done. destruct Hst as [[[_ H]|]|]; [done|by left|by right]. }
  unfold flush_buffer. rewrite bool_decide_eq_false_2 by (rewrite (inv_message _ _ Hi); auto). change (pieces ((c, p) :: cs)) with (c ++ pieces cs) in *.
  destruct (flush_loop_spec (length c + 2) (switch_input f c) 0 c (pieces cs)) as (f1 & -> & A1 & A2 & A3).
  - by apply inv_switch.
  - split; cbn; try done; lia.
  - by destruct Hbd; split.
  - lia.
  - destruct (bool_decide _); lia.
  - cbn [rbind]. rewrite Z.eqb_refl. apply IH; [done|by left|done].
Qed.
End correctness.
