(* ===== verification/InitramfsTermination.v ===== *)
(** * The archive reader always stops

    For any bytes whatever, well-formed archive or not, the loops of init/initramfs.c
    end: an action that does not stop the reader either consumes input or moves the
    state machine down a fixed order of states. *)

From Stdlib Require Import ZArith Lia Bool.
From stdpp Require Import base numbers list strings.
From S2P Require Import Prelude Kstrtox Deflate Result Gunzip GunzipProofs Initramfs InitramfsSpec InitramfsProofs.
Open Scope Z_scope.

(** A computation that returns, unless it leaves an object. *)
Definition returns {A} (r : res A) (Q : A -> Prop) : Prop := r = Fault \/ exists a, r = Ok a /\ Q a.

Lemma returns_bind {A B} (x : res A) (k : A -> res B) P Q :
  returns x P -> (forall a, P a -> returns (k a) Q) -> returns (rbind x k) Q.
Proof. intros [->|(a & -> & Ha)] Hk; [by left|by apply Hk]. Qed.
Lemma returns_ok {A} (a : A) (Q : A -> Prop) : Q a -> returns (Ok a) Q.
Proof. right. by exists a. Qed.
Lemma returns_option {A} (o : option A) (Q : A -> Prop) : (forall a, o = Some a -> Q a) -> returns (of_option o) Q.
Proof. destruct o as [a|]; [|by left]. intros H. right. exists a. auto. Qed.
Lemma returns_weaken {A} (r : res A) (P Q : A -> Prop) : returns r P -> (forall a, P a -> Q a) -> returns r Q.
Proof. intros [->|(a & -> & Ha)] H; [by left|right; eauto]. Qed.

Definition in_buffer (p : place) : Prop := match p with InBuf _ _ => True | _ => False end.
Definition settled (s : state) : Prop := s = Start \/ s = Reset \/ s = GotHeader.

Section termination.
Context {W : Type} (V : vfs W) (mem : fsm W -> heap).
Implicit Types f : fsm W.

(** What each state promises about the variables the next actions use. *)
Definition state_ok f : Prop :=
  match st f with
  | Start | GotHeader | Reset => settled (next_state f)
  | Collect => 1 <= remains f < 2147483648 /\ in_buffer (collect f) /\
      (next_state f = GotHeader \/
       next_state f = GotName /\ this_header f + remains f + body_len (hdr f) <= next_header f \/
       next_state f = GotSymlink /\ in_buffer (collected f) /\ this_header f + remains f <= next_header f)
  | SkipIt => settled (next_state f) /\ this_header f <= next_header f /\
      (next_state f = Reset \/ this_header f < next_header f)
  | CopyFile => next_state f = Reset /\ this_header f + body_len (hdr f) <= next_header f
  | GotName => this_header f + body_len (hdr f) <= next_header f
  | GotSymlink => in_buffer (collected f) /\ this_header f <= next_header f
  end.
Record term_ok f : Prop := mkTerm {
  tm_state : state_ok f;
  tm_body : is_u32 (body_len (hdr f))
}.

(** The states that consume at least one byte of these. *)
Definition hungry f (inp : list Z) : Prop :=
  inp <> [] /\ (st f = Start \/ st f = Collect \/ st f = Reset /\ exists r, inp = 0 :: r).

(** One action: what it consumes, and that it gets closer to the end. *)
Definition advanced f (inp later : list Z) (r : bool * fsm W) : Prop :=
  let '(stop, f') := r in exists eaten inp', inp = eaten ++ inp' /\ at_input f' inp' /\
    in_bounds f' (inp' ++ later) /\ this_header f' = this_header f + zlen eaten /\
    input f' = input f /\ term_ok f' /\ (message f <> None -> message f' <> None) /\
    (stop = true -> message f' <> None \/ inp' = [] \/ st f' = Reset) /\
    (stop = false -> eaten <> [] \/ (rank (st f') < rank (st f))%nat) /\
    (hungry f inp -> eaten <> [] \/ stop = false /\ st f' = Collect).

(** [eat] of a prefix of the input. *)
Lemma eat_prefix f n inp later :
  at_input f inp -> in_bounds f (inp ++ later) -> 0 <= n <= zlen inp ->
  exists eaten inp', inp = eaten ++ inp' /\ zlen eaten = n /\ at_input (eat f n) inp' /\
    in_bounds (eat f n) (inp' ++ later) /\ this_header (eat f n) = this_header f + n.
Proof.
  intros Hat Hbd Hn. pose proof (take_drop (Z.to_nat n) inp) as E.
  assert (Ha : zlen (take (Z.to_nat n) inp) = n) by (rewrite length_take; lia).
  revert E Ha. generalize (take (Z.to_nat n) inp) (drop (Z.to_nat n) inp). intros a r <- <-.
  exists a, r. rewrite <- app_assoc in Hbd.
  destruct (eat_spec f a r (r ++ later) Hat Hbd) as (A1 & A2 & A3); [|done].
  rewrite app_assoc in Hbd. by eapply bounds_len.
Qed.

Lemma at_same f f' inp :
  input f' = input f -> victim f' = victim f -> count f' = count f -> at_input f inp -> at_input f' inp.
Proof. intros E1 E2 E3 [H1 H2 H3 H4]. split; rewrite ?E1, ?E2, ?E3; done. Qed.
Lemma bounds_same f f' T : this_header f' = this_header f -> in_bounds f T -> in_bounds f' T.
Proof. intros E [H1 H2 H3]. split; rewrite ?E; done. Qed.

(** The rest of an action that consumes [n] bytes. *)
Lemma advanced_eat f g n inp later (k : fsm W -> fsm W) stop :
  at_input f inp -> in_bounds f (inp ++ later) -> 0 <= n <= zlen inp ->
  (forall h, input (k h) = input h /\ victim (k h) = victim h /\ count (k h) = count h /\ this_header (k h) = this_header h) ->
  input g = input f -> victim g = victim f -> count g = count f -> this_header g = this_header f ->
  (message f <> None -> message (k (eat g n)) <> None) ->
  (this_header (eat g n) = this_header f + n -> term_ok (k (eat g n))) ->
  (stop = true -> message (k (eat g n)) <> None \/ n = zlen inp \/ st (k (eat g n)) = Reset) ->
  (stop = false -> 0 < n \/ (rank (st (k (eat g n))) < rank (st f))%nat) ->
  (hungry f inp -> 0 < n \/ stop = false /\ st (k (eat g n)) = Collect) ->
  advanced f inp later (stop, k (eat g n)).
Proof.
  intros Hat Hbd Hn Hk G1 G2 G3 G4 Hm Ht H1 H2 H3.
  destruct (eat_prefix g n inp later) as (eaten & inp' & -> & He & A1 & A2 & A3);
    [by eapply at_same|by eapply bounds_same|done|].
  destruct (Hk (eat g n)) as (K1 & K2 & K3 & K4). rewrite G4 in A3.
  assert (Hne : 0 < n -> eaten <> []) by (intros ? ->; cbn in He; lia).
  exists eaten, inp'. rewrite He. split_and!; try done.
  - by eapply at_same.
  - by eapply bounds_same.
  - by rewrite K4.
  - by rewrite K1.
  - by apply Ht.
  - intros Hs. destruct (H1 Hs) as [?|[Hl|?]]; auto. right; left. rewrite length_app in Hl.
    apply nil_length_inv. lia.
  - intros Hs. destruct (H2 Hs); auto.
  - intros Hs. destruct (H3 Hs); auto.
Qed.

(** An action that consumes nothing. *)
Lemma advanced_stay f f' inp later stop :
  at_input f inp -> in_bounds f (inp ++ later) -> this_header f' = this_header f -> input f' = input f ->
  victim f' = victim f -> count f' = count f -> (message f <> None -> message f' <> None) -> term_ok f' ->
  (stop = true -> message f' <> None \/ inp = [] \/ st f' = Reset) ->
  (stop = false -> (rank (st f') < rank (st f))%nat) ->
  (hungry f inp -> stop = false /\ st f' = Collect) ->
  advanced f inp later (stop, f').
Proof.
  intros Hat Hbd E1 E2 E3 E4 Hm Ht H1 H2 H3. exists [], inp.
  split_and!; try done; [by eapply at_same|by eapply bounds_same|cbn; lia|auto|auto].
Qed.

Lemma s32_id n : 0 <= n < 2147483648 -> s32 n = n.
Proof. intros H. unfold s32. rewrite u32_id by (unfold is_u32; lia). rewrite (proj2 (Z.ltb_lt _ _)) by lia. lia. Qed.

(** [read_into] after stores [g] to other variables of [f]. *)
Lemma read_into_advanced f g b size nxt inp later :
  at_input f inp -> in_bounds f (inp ++ later) -> 1 <= size < 2147483648 -> (4 < rank (st f))%nat ->
  input g = input f -> victim g = victim f -> count g = count f -> this_header g = this_header f ->
  message g = message f ->
  (forall f', this_header f' = this_header f + size -> hdr f' = hdr g -> next_header f' = next_header g ->
     next_state f' = next_state g -> st f' = nxt -> term_ok f') ->
  (forall f', this_header f' = this_header f -> hdr f' = hdr g -> next_header f' = next_header g ->
     next_state f' = nxt -> st f' = Collect -> remains f' = size -> in_buffer (collect f') -> term_ok f') ->
  advanced f inp later (false, read_into g b size nxt).
Proof.
  intros Hat Hbd Hs Hr G1 G2 G3 G4 G5 Hlong Hshort. unfold read_into.
  rewrite G3, (at_count _ _ Hat). destruct (Z.leb_spec size (zlen inp)).
  - apply (advanced_eat f (set_collected g (InInput (victim g))) size inp later (fun h => set_st h nxt)); try done.
    + lia.
    + change (message f <> None -> message g <> None). by rewrite G5.
    + intros E. by apply Hlong.
    + intros _. left. lia.
    + intros _. left. lia.
  - apply advanced_stay; try done; [change (message f <> None -> message g <> None); by rewrite G5|].
    apply Hshort; try done. cbn. apply s32_id. lia.
Qed.

(** ** The actions *)

Lemma start_advances f inp later :
  st f = Start -> term_ok f -> at_input f inp -> in_bounds f (inp ++ later) ->
  returns (do_start f) (advanced f inp later).
Proof.
  intros Hst [Hok Hb] Hat Hbd. unfold state_ok in Hok. rewrite Hst in Hok. apply returns_ok.
  apply read_into_advanced; try done; try lia; [rewrite Hst; cbn; lia| |];
    intros f' E1 E2 E3 E4 E5; [|intros E6 E7]; (split; [unfold state_ok; rewrite E5|by rewrite E2]).
  - by rewrite E4.
  - rewrite E4, E6. split_and!; auto; lia.
Qed.

Lemma store_returns f p x : in_buffer p -> returns (store_at f p x) (fun g => exists bs, g = set_bufs f bs).
Proof.
  destruct p as [|?|b off]; try done. intros _. apply (returns_bind _ _ (fun _ => True)); [by apply returns_option|].
  intros l _. apply returns_ok. by eexists.
Qed.

Lemma collect_advances f inp later :
  st f = Collect -> term_ok f -> at_input f inp -> in_bounds f (inp ++ later) ->
  returns (do_collect f) (advanced f inp later).
Proof.
  intros Hst [Hok Hb] Hat Hbd. unfold state_ok in Hok. rewrite Hst in Hok.
  destruct Hok as (Hrem & Hbuf & Hnext). pose proof (bounds_len _ _ _ Hbd) as Hlen. pose proof (at_count _ _ Hat) as Hc.
  unfold do_collect. rewrite (u32_id (remains f)) by (unfold is_u32; lia). rewrite Hc.
  set (n := if zlen inp <? remains f then zlen inp else remains f).
  assert (Hn : n = Z.min (zlen inp) (remains f)) by (subst n; destruct (Z.ltb_spec (zlen inp) (remains f)); lia).
  clearbody n. apply (returns_bind _ _ (fun _ => True)); [by apply returns_option|]. intros x _.
  apply (returns_bind _ _ _ _ (store_returns f _ x Hbuf)). intros g (bs & ->). cbv zeta.
  cbn [remains set_collect set_remains eat set_bufs set_count set_this_header set_victim].
  rewrite s32_id by lia. destruct (Z.eqb_spec (remains f - n) 0) as [E|E]; apply returns_ok; cbn [negb].
  - apply (advanced_eat f (set_bufs f bs) n inp later (fun h => set_st (set_remains (set_collect h (advance
      (collect h) n)) (remains f - n)) (next_state f))); try done.
    + lia.
    + intros E1. split; [|done]. unfold state_ok. cbn [st set_st].
      destruct Hnext as [E2|[(E2 & Hle)|(E2 & Hin & Hle)]]; rewrite E2.
      * right. right. exact E2.
      * change (this_header (eat (set_bufs f bs) n) + body_len (hdr f) <= next_header f). lia.
      * split; [done|]. change (this_header (eat (set_bufs f bs) n) <= next_header f). lia.
    + intros _. left. lia.
    + intros _. left. lia.
  - apply (advanced_eat f (set_bufs f bs) n inp later (fun h => (set_remains (set_collect h (advance
      (collect h) n)) (remains f - n)))); try done.
    + lia.
    + intros E1. split; [|done]. unfold state_ok. cbn [st set_remains set_collect eat set_count set_this_header set_victim set_bufs].
      rewrite Hst. split; [|split].
      * change (1 <= remains f - n < 2147483648). lia.
      * cbn. by destruct (collect f).
      * change (next_state f = GotHeader \/
          next_state f = GotName /\ this_header (eat (set_bufs f bs) n) + (remains f - n) + body_len (hdr f) <= next_header f \/
          next_state f = GotSymlink /\ in_buffer (collected f) /\
          this_header (eat (set_bufs f bs) n) + (remains f - n) <= next_header f).
        destruct Hnext as [E2|[(E2 & Hle)|(E2 & Hin & Hle)]]; rewrite E2; [by left|right; left|right; right];
          split_and!; try done; lia.
    + intros _. right. left. lia.
    + intros (Hne & _). left. destruct inp; [done|]. cbn [length] in Hn. lia.
Qed.

Lemma N_ALIGN_range n : is_u32 n -> 2 <= N_ALIGN n < 4294967296.
Proof.
  intros Hn. unfold N_ALIGN. pose proof (u32_range (n + 1)) as Hr. unfold is_u32 in *. rewrite land_lnot_3.
  rewrite u32_id; unfold is_u32; zlia.
Qed.
Lemma align_up_range x : 0 <= x < 1152921504606846976 -> x <= s64 (Z.land (x + 3) (Z.lnot 3)) <= x + 3.
Proof. intros Hx. rewrite land_lnot_3, s64_id; zlia. Qed.
Lemma field_range s i : is_u32 (field s i).
Proof. unfold field, simple_strtoul. destruct (simple_strtoull _ _). apply u32_range. Qed.

(** An action that stops with a message. *)
Lemma advanced_error f inp later x :
  (rank (st f) = 5 \/ rank (st f) = 0)%nat -> term_ok f -> at_input f inp -> in_bounds f (inp ++ later) ->
  ~ hungry f inp -> advanced f inp later (true, error f x).
Proof.
  intros Hr Ht Hat Hbd Hh. unfold error.
  destruct (message f) eqn:E; apply advanced_stay; try done; try (by destruct Ht; split);
    intros _; left; cbn; congruence.
Qed.

(** [do_header] once the header is parsed. *)
Definition after_header (g : fsm W) : res (bool * fsm W) :=
  let h := hdr g in
  if (name_len h =? 0) || (PATH_MAX <? name_len h) then Ok (false, g)
  else if S_ISLNK (mode h) then
    if PATH_MAX <? body_len h then Ok (false, g)
    else Ok (false, start_collect g SymlinkBuf (u32 (N_ALIGN (name_len h) + body_len h)) GotSymlink)
  else if S_ISREG (mode h) || (body_len h =? 0) then Ok (false, read_into g NameBuf (N_ALIGN (name_len h)) GotName)
  else Ok (false, g).

Lemma after_header_advances f g inp later :
  st f = GotHeader -> settled (next_state f) -> at_input f inp -> in_bounds f (inp ++ later) ->
  st g = SkipIt -> next_state g = next_state f -> this_header g = this_header f -> input g = input f ->
  victim g = victim f -> count g = count f -> message g = message f -> is_u32 (body_len (hdr g)) -> is_u32 (name_len (hdr g)) ->
  this_header f + N_ALIGN (name_len (hdr g)) + body_len (hdr g) <= next_header g ->
  returns (after_header g) (advanced f inp later).
Proof.
  intros Hst Hs Hat Hbd G1 G2 G3 G4 G5 G6 G7 Hbl Hnl Hle. pose proof (N_ALIGN_range _ Hnl) as Hal.
  assert (Hh : ~ hungry f inp) by (intros (_ & Hh); rewrite Hst in Hh; naive_solver).
  unfold is_u32 in Hbl. assert (Hskip : returns (Ok (false, g)) (advanced f inp later)).
  { apply returns_ok. apply advanced_stay; try done; [by rewrite G7| |intros _; rewrite Hst, G1; cbn; lia].
    split; [|done]. unfold state_ok. rewrite G1, G2, G3. split_and!; [done|lia|right; lia]. }
  unfold after_header. set (h := hdr g) in *. destruct ((name_len h =? 0) || (PATH_MAX <? name_len h)) eqn:E1; [exact Hskip|].
  apply orb_false_iff in E1 as [E1 E2]. apply Z.ltb_ge in E2. unfold PATH_MAX in E2.
  destruct (N_ALIGN_spec (name_len h)) as [Hal2 _].
  { apply Z.eqb_neq in E1. unfold is_u32 in Hnl. lia. }
  destruct (S_ISLNK (mode h)).
  - destruct (PATH_MAX <? body_len h) eqn:E3; [exact Hskip|]. apply Z.ltb_ge in E3. unfold PATH_MAX in E3. apply returns_ok.
    apply advanced_stay; try done; [by rewrite <- G7| |intros _; rewrite Hst; cbn; lia].
    assert (Es : s32 (u32 (N_ALIGN (name_len h) + body_len h)) = N_ALIGN (name_len h) + body_len h).
    { rewrite u32_id by (unfold is_u32; lia). apply s32_id. lia. }
    split; [|done]. unfold state_ok, start_collect. cbn [st set_st remains set_next_state set_remains next_state
      this_header set_collect set_collected collected collect next_header]. rewrite Es, G3.
    split; [lia|]. split; [done|]. right. right. split_and!; try done. lia.
  - destruct (S_ISREG (mode h) || _); [|exact Hskip]. apply returns_ok.
    apply read_into_advanced; try done; [lia|rewrite Hst; cbn; lia| |];
      intros f' F1 F2 F3 F4 F5; [|intros F6 F7]; (split; [unfold state_ok; rewrite F5|by rewrite F2]);
      rewrite F1, ?F2, F3; fold h; [lia|]. rewrite F4, F6. split_and!; try done; try lia. right. left. split; [done|lia].
Qed.

Lemma header_advances f inp later :
  st f = GotHeader -> term_ok f -> at_input f inp -> in_bounds f (inp ++ later) ->
  returns (do_header f) (advanced f inp later).
Proof.
  intros Hst Ht Hat Hbd. pose proof Ht as [Hok Hb]. unfold state_ok in Hok. rewrite Hst in Hok.
  assert (Herr : forall x, returns (Ok (true, error f x)) (advanced f inp later)).
  { intros x. apply returns_ok. apply advanced_error; try done; [rewrite Hst; by left|].
    intros (_ & Hh). rewrite Hst in Hh. naive_solver. }
  unfold do_header. apply (returns_bind _ _ (fun _ => True)); [by apply returns_option|]. intros magic _.
  case_bool_decide; [apply Herr|]. case_bool_decide; [|apply Herr]. cbn [negb].
  apply (returns_bind _ _ (fun _ => True)); [by apply returns_option|]. intros s _.
  apply (returns_bind _ _ (fun g => exists h, g = set_hdr f h /\ is_u32 (body_len h) /\ is_u32 (name_len h))).
  { unfold parse_header. destruct (length s <? 102)%nat; [by left|]. apply returns_ok.
    eexists. split; [reflexivity|]. split; apply field_range. }
  intros g (h & -> & Hbl & Hnl). pose proof (N_ALIGN_range _ Hnl) as Hal. pose proof Hbd as [B1 B2 B3].
  cbv zeta. set (g := set_st _ SkipIt). change (returns (after_header g) (advanced f inp later)).
  apply after_header_advances; try done. unfold is_u32 in Hbl. subst g.
  cbn [this_header set_st set_hdr next_header set_next_header hdr].
  set (nx := this_header f + N_ALIGN (name_len h) + body_len h). rewrite (s64_id nx) by (subst nx; lia).
  apply align_up_range. subst nx. lia.
Qed.

Lemma skip_advances f inp later :
  st f = SkipIt -> term_ok f -> at_input f inp -> in_bounds f (inp ++ later) ->
  returns (do_skip f) (advanced f inp later).
Proof.
  intros Hst [Hok Hb] Hat Hbd. unfold state_ok in Hok. rewrite Hst in Hok. destruct Hok as (Hs & Hle & Hlt).
  assert (Hh : ~ hungry f inp) by (intros (_ & Hh); rewrite Hst in Hh; naive_solver).
  pose proof (bounds_len _ _ _ Hbd) as Hlen. pose proof Hbd as [B1 B2 B3]. rewrite length_app in B2, B3.
  unfold do_skip. rewrite (at_count _ _ Hat), s64_id by lia.
  destruct (Z.ltb_spec (this_header f + zlen inp) (next_header f)); apply returns_ok.
  - apply (advanced_eat f f (zlen inp) inp later (fun h => h)); try done; [lia| |by auto].
    intros E. split; [|done]. unfold state_ok. cbn [st eat set_count set_this_header set_victim]. rewrite Hst, E.
    cbn. split_and!; [done|lia|right; lia].
  - rewrite u32_id by (unfold is_u32; lia).
    apply (advanced_eat f f (next_header f - this_header f) inp later (fun h => set_st h (next_state f))); try done.
    + lia.
    + intros _. split; [|done]. unfold state_ok. cbn. destruct Hs as [E|[E|E]]; rewrite E; unfold settled; auto.
    + intros _. destruct Hlt as [E|?]; [right|left; lia]. cbn. rewrite Hst, E. cbn. lia.
Qed.

Lemma eat_zeros_advances n f inp later :
  st f = Reset -> term_ok f -> at_input f inp -> in_bounds f (inp ++ later) -> (length inp <= n)%nat ->
  returns (eat_zeros n f) (fun f' => exists eaten inp', inp = eaten ++ inp' /\ at_input f' inp' /\
    in_bounds f' (inp' ++ later) /\ this_header f' = this_header f + zlen eaten /\ input f' = input f /\
    message f' = message f /\ term_ok f' /\ st f' = Reset /\ (forall r, inp = 0 :: r -> eaten <> [])).
Proof.
  revert f inp. induction n as [|n IH]; intros f inp Hst Ht Hat Hbd Hn; (destruct inp as [|c inp]; [|cbn in Hn; try lia]);
    cbn [eat_zeros]; rewrite (at_count _ _ Hat); cbn [length Z.of_nat Z.eqb].
  1, 2: apply returns_ok; exists [], []; split_and!; try done; cbn; lia.
  change (c :: inp) with ([c] ++ inp) in Hat. change 1 with (zlen [c]). rewrite (input_bytes f [c] _ Hat). cbn [of_option rbind].
  case_bool_decide as Hc.
  2: { apply returns_ok. exists [], (c :: inp). split_and!; try done; [cbn; lia|]. intros r [= -> ->]. done. }
  destruct (eat_prefix f 1 (c :: inp) later Hat Hbd) as (e & inp' & E & He & A1 & A2 & A3); [cbn; lia|].
  destruct e as [|c' [|]]; try (cbn in He; lia). injection E as <- <-. destruct Ht as [Hok Hbl].
  change (zlen [c]) with 1. eapply returns_weaken; [apply (IH (eat f 1) inp); try done; [|lia]|].
  { split; [|done]. unfold state_ok in *. cbn. by rewrite Hst in *. }
  cbn beta. intros f' (e2 & r & -> & C1 & C2 & C3 & C4 & Cm & C5 & C6 & _). exists (c :: e2), r. split_and!; try done.
  rewrite C3, A3. cbn. lia.
Qed.

Lemma reset_advances f inp later :
  st f = Reset -> term_ok f -> at_input f inp -> in_bounds f (inp ++ later) ->
  returns (do_reset f) (advanced f inp later).
Proof.
  intros Hst Ht Hat Hbd. unfold do_reset. rewrite (at_count _ _ Hat), Nat2Z.id.
  eapply returns_bind; [by apply (eat_zeros_advances _ f inp later)|]. cbn beta.
  intros f' (eaten & inp' & -> & A1 & A2 & A3 & A4 & Am & A5 & A6 & A7).
  assert (H : forall f2, at_input f2 inp' -> in_bounds f2 (inp' ++ later) -> this_header f2 = this_header f' ->
    input f2 = input f' -> (message f <> None -> message f2 <> None) -> term_ok f2 -> st f2 = Reset -> advanced f (eaten ++ inp') later (true, f2)).
  { intros f2 B1 B2 B3 B4 Bm B5 B6. exists eaten, inp'. split_and!; try done; try congruence; auto.
    intros (Hne & [E|[E|(_ & r & E)]]); rewrite ?Hst in E; try done. left. by eapply A7. }
  destruct (_ && _); apply returns_ok; [|apply H; try done; by rewrite Am]. unfold error.
  destruct (message f') eqn:E; [apply H; try done; by rewrite E|]. apply H; try done; [by destruct A1|by destruct A2|by destruct A5].
Qed.

Lemma copy_advances f inp later :
  st f = CopyFile -> term_ok f -> at_input f inp -> in_bounds f (inp ++ later) ->
  returns (do_copy V f) (advanced f inp later).
Proof.
  intros Hst [Hok Hb] Hat Hbd. unfold state_ok in Hok. rewrite Hst in Hok. destruct Hok as (Hs & Hle).
  assert (Hh : ~ hungry f inp) by (intros (_ & Hh); rewrite Hst in Hh; naive_solver).
  pose proof (bounds_len _ _ _ Hbd) as Hlen. unfold is_u32 in Hb.
  unfold do_copy. rewrite (at_count _ _ Hat). destruct (Z.leb_spec (body_len (hdr f)) (zlen inp)).
  all: apply (returns_bind _ _ (fun _ => True)); [by apply returns_option|]; intros x _; apply returns_ok.
  - match goal with |- advanced _ _ _ (_, set_st (eat ?g _) _) =>
      apply (advanced_eat f g (body_len (hdr f)) inp later (fun h => set_st h SkipIt)); try done; [lia|..] end.
    + intros E. split; [|done]. unfold state_ok. cbn [st set_st]. split; [right; left; exact Hs|]. split; [|by left].
      change (this_header (eat f (body_len (hdr f))) <= next_header f).
      change (this_header (eat f (body_len (hdr f))) = this_header f + body_len (hdr f)) in E. lia.
    + intros _. right. rewrite Hst. cbn. lia.
  - cbv zeta. cbn [count sys set_world set_body_len set_hdr]. rewrite (at_count _ _ Hat).
    match goal with |- advanced _ _ _ (_, eat ?g _) =>
      apply (advanced_eat f g (zlen inp) inp later (fun h => h)); try done; [lia| |by auto] end.
    intros E. change (this_header (eat f (zlen inp)) = this_header f + zlen inp) in E.
    assert (Eu : u32 (body_len (hdr f) - zlen inp) = body_len (hdr f) - zlen inp) by (apply u32_id; unfold is_u32; lia).
    split; [unfold state_ok|]; cbn [st hdr eat set_count set_this_header set_victim set_body_len set_hdr body_len sys set_world];
      rewrite Eu; [rewrite Hst; split; [exact Hs|]|unfold is_u32; lia].
    change (this_header (eat f (zlen inp)) + (body_len (hdr f) - zlen inp) <= next_header f). lia.
Qed.

Lemma symlink_advances f inp later :
  st f = GotSymlink -> term_ok f -> at_input f inp -> in_bounds f (inp ++ later) ->
  returns (do_symlink V f) (advanced f inp later).
Proof.
  intros Hst [Hok Hb] Hat Hbd. unfold state_ok in Hok. rewrite Hst in Hok. destruct Hok as (Hin & Hle).
  unfold do_symlink. eapply returns_bind; [apply store_returns; by destruct (collected f)|].
  intros g (bs & ->). apply (returns_bind _ _ (fun _ => True)); [by apply returns_option|]. intros name _.
  rewrite clean_path_eq. apply (returns_bind _ _ (fun _ => True)); [by apply returns_option|]. intros target _.
  apply returns_ok. apply advanced_stay; try done.
  - split; [|done]. cbn. split_and!; [right; by left|done|by left].
  - intros _. rewrite Hst. cbn. lia.
  - intros (_ & Hh). rewrite Hst in Hh. naive_solver.
Qed.

Lemma maybe_link_returns f g :
  after_name f g -> returns (maybe_link V g) (fun r => after_name f r.2 /\ st r.2 = st g).
Proof.
  intros H. unfold maybe_link. destruct (2 <=? nlink (hdr g)); [|by apply returns_ok].
  apply (returns_bind _ _ (fun _ => True)); [by apply returns_option|]. intros name _.
  apply (returns_bind _ _ (fun r => exists h, r.2 = set_head g h)).
  { unfold find_link. destruct (List.find _ _); [|destruct (_ <? _); [|by left]]; apply returns_ok; cbn.
    - exists (head g). by destruct g.
    - by eexists. }
  intros [[old|] g'] (h & E); cbn [snd] in E; subst g'; [|by apply returns_ok].
  destruct (sys_link V old name _) as [r w]. by apply returns_ok.
Qed.

Local Ltac skipped := apply returns_ok; split; [done|]; split; [done|by left].
Lemma do_name_returns f :
  returns (do_name V f) (fun r => r.1 = false /\ after_name f r.2 /\ (st r.2 = SkipIt \/ st r.2 = CopyFile)).
Proof.
  unfold do_name. apply (returns_bind _ _ (fun _ => True)); [by apply returns_option|]. intros name _.
  case_bool_decide; [skipped|]. rewrite clean_path_eq.
  set (g := set_world _ _). assert (Hg : after_name f g) by done. assert (Hst : st g = SkipIt) by done. clearbody g.
  destruct (S_ISREG _); [|destruct (S_ISDIR _); [skipped|destruct (_ || _ || _ || _);
    [|skipped]]];
  (eapply returns_bind; [by apply (maybe_link_returns f g)|]; intros [ml g2] (H2 & Hst2); cbn [snd] in *;
   rewrite Hst in Hst2).
  - destruct (0 <=? ml); [|skipped]. destruct (sys_open V _ _ _ _) as [fd w].
    destruct (0 <=? fd); [|skipped]. apply returns_ok. split; [done|].
    destruct (negb _); (split; [done|by right]).
  - destruct (ml =? 0); skipped.
Qed.

Lemma name_advances f inp later :
  st f = GotName -> term_ok f -> at_input f inp -> in_bounds f (inp ++ later) ->
  returns (do_name V f) (advanced f inp later).
Proof.
  intros Hst [Hok Hb] Hat Hbd. unfold state_ok in Hok. rewrite Hst in Hok.
  eapply returns_weaken; [apply do_name_returns|]. intros [stop f'] (E0 & Ha & Hst').
  cbn [fst snd] in *. subst stop. destruct Ha as (E1 & E2 & E3 & E4 & E5 & E6 & E7 & E8 & E9). unfold is_u32 in Hb. apply advanced_stay; try done.
  - by rewrite E8.
  - split; [|by rewrite E9]. unfold state_ok. destruct Hst' as [->| ->]; rewrite E4, E5, E6, ?E9.
    + split_and!; [right; by left|lia|by left].
    + done.
  - intros _. rewrite Hst. destruct Hst' as [->| ->]; cbn; lia.
  - intros (_ & Hh). rewrite Hst in Hh. naive_solver.
Qed.

Lemma action_advances f inp later :
  term_ok f -> at_input f inp -> in_bounds f (inp ++ later) ->
  returns (actions V (st f) f) (advanced f inp later).
Proof.
  intros. destruct (st f) eqn:E; cbn [actions]; [apply start_advances|apply collect_advances|apply header_advances
    |apply skip_advances|apply name_advances|apply copy_advances|apply symlink_advances|apply reset_advances]; done.
Qed.

(** ** The loops *)

Definition ended f (inp later : list Z) (f' : fsm W) : Prop :=
  exists eaten inp', inp = eaten ++ inp' /\ at_input f' inp' /\ in_bounds f' (inp' ++ later) /\
    this_header f' = this_header f + zlen eaten /\ input f' = input f /\ term_ok f' /\
    (message f <> None -> message f' <> None) /\ (message f' <> None \/ inp' = [] \/ st f' = Reset) /\
    (hungry f inp -> eaten <> []).

Lemma run_returns fuel f inp later :
  term_ok f -> at_input f inp -> in_bounds f (inp ++ later) -> (8 * length inp + rank (st f) < fuel)%nat ->
  returns (run_actions V fuel f) (ended f inp later).
Proof.
  revert f inp. induction fuel as [|fuel IH]; intros f inp Ht Hat Hbd Hfuel; [lia|]. cbn [run_actions].
  eapply returns_bind; [by apply (action_advances f inp later)|]. intros [stop f1].
  intros (eaten & inp1 & -> & A1 & A2 & A3 & A4 & A5 & Am & Hstop & Hgo & Hprog). destruct stop.
  - apply returns_ok. exists eaten, inp1. split_and!; auto. intros Hh. by destruct (Hprog Hh) as [|[]].
  - eapply returns_weaken; [apply (IH f1 inp1); try done|].
    { rewrite length_app in Hfuel. destruct Hgo as [Hne|Hr]; [done| |lia].
      destruct eaten; [done|]. cbn in Hfuel. assert (rank (st f1) <= 6)%nat by (destruct (st f1); cbn; lia). lia. }
    intros f' (e2 & inp2 & -> & B1 & B2 & B3 & B4 & B5 & Bm & B6 & B7). exists (eaten ++ e2), inp2.
    rewrite <- app_assoc. split_and!; auto; [rewrite B3, A3, length_app; lia|congruence|].
    intros Hh Hnil. apply app_eq_nil in Hnil as [-> ->]. cbn in *. destruct (Hprog Hh) as [|[_ Hc]]; [done|].
    apply B7; [|done]. split; [apply Hh|]. right. by left.
Qed.

(** [buf] at offset [off]. *)
Definition view f (off : Z) (inp : list Z) : fsm W := set_victim (set_count f (zlen inp)) off.

Lemma write_buffer_returns f off inp later :
  term_ok f -> at_input (view f off inp) inp -> in_bounds f (inp ++ later) ->
  returns (write_buffer V f off (zlen inp)) (fun r => exists eaten inp', r.1 = zlen eaten /\ inp = eaten ++ inp' /\
    at_input (view r.2 (off + zlen eaten) inp') inp' /\ in_bounds r.2 (inp' ++ later) /\
    this_header r.2 = this_header f + zlen eaten /\ input r.2 = input f /\ term_ok r.2 /\
    (message f <> None -> message r.2 <> None) /\ (message r.2 <> None \/ inp' = [] \/ st r.2 = Reset) /\
    (hungry f inp -> eaten <> [])).
Proof.
  intros Ht Hat Hbd. unfold write_buffer. pose proof (bounds_len _ _ _ Hbd) as Hlen. fold (view f off inp).
  eapply returns_bind; [apply (run_returns _ _ inp later)|].
  - by destruct Ht; split.
  - done.
  - by destruct Hbd; split.
  - unfold action_fuel. change (st (view f off inp)) with (st f).
    assert (rank (st f) <= 6)%nat by (destruct (st f); cbn; lia). rewrite Nat2Z.id. lia.
  - intros f' (eaten & inp' & -> & A1 & A2 & A3 & A4 & A5 & Am & A6 & A7). apply returns_ok. exists eaten, inp'.
    cbn [fst snd]. rewrite length_app in *. split_and!; auto.
    + rewrite (at_count _ _ A1). rewrite u32_id; [lia|]. unfold is_u32. lia.
    + assert (victim f' = off + zlen eaten) as Ev.
      { pose proof (at_end _ _ A1) as E1. pose proof (at_end _ _ Hat) as E2. rewrite A4 in E1. cbn in E2.
        rewrite length_app in E2. change (input (view f off (eaten ++ inp'))) with (input f) in E1. lia. }
      destruct A1 as [D1 D2 D3 D4]. split; cbn; rewrite <- ?Ev; done.
Qed.

Lemma byte_at_head f off c inp : at_input (view f off (c :: inp)) (c :: inp) -> byte_at (input f) off = Ok c.
Proof.
  intros [H1 H2 H3 H4]. cbn in H1, H3. unfold byte_at. rewrite (proj2 (Z.ltb_ge _ 0)) by lia.
  by rewrite <- (Nat.add_0_r (Z.to_nat off)), <- lookup_drop, H3.
Qed.

Lemma term_rest f s : term_ok f -> st f = Start \/ st f = Reset -> s = Start \/ s = Reset -> term_ok (set_st f s).
Proof. intros [H1 H2] Hst Hs. split; [|done]. unfold state_ok in *. by destruct Hst as [E|E], Hs as [->| ->]; rewrite E in H1. Qed.

Lemma flush_loop_returns fuel f off inp :
  term_ok f -> at_input (view f off inp) inp -> 0 <= this_header f -> zlen inp < 2147483648 ->
  this_header f + (if bool_decide (message f = None) then 2 else 1) * zlen inp <= 72057594037927936 ->
  (message f <> None /\ 1 <= fuel \/ hungry f inp /\ length inp + 1 <= fuel \/ length inp + 2 <= fuel)%nat ->
  returns (flush_loop V fuel f off (zlen inp)) (fun f' => term_ok f' /\ (message f <> None -> message f' <> None) /\
    (message f' = None -> this_header f' = this_header f + zlen inp)).
Proof.
  revert f off inp. induction fuel as [|fuel IH]; intros f off inp Ht Hat H0 Hlen Hbd Hfuel; [lia|].
  cbn [flush_loop]. eapply returns_bind; [apply (write_buffer_returns f off inp []); try done|].
  { rewrite app_nil_r. split; try done. case_bool_decide; lia. }
  intros [written f1] (eaten & inp1 & E & -> & A1 & A2 & A3 & A4 & A5 & Am & Hend & Hprog). cbn [fst snd] in *. subst written.
  rewrite length_app in *. destruct (bool_decide (message f1 = None)) eqn:Em.
  2: { rewrite andb_false_r. apply bool_decide_eq_false in Em. apply returns_ok. by split_and!. }
  apply bool_decide_eq_true in Em. rewrite andb_true_r.
  assert (Hm : message f = None) by (destruct (message f); [by destruct Am|done]).
  rewrite bool_decide_eq_true_2 in Hbd by done.
  destruct inp1 as [|c inp1].
  { rewrite (proj2 (Z.ltb_ge _ _)) by (cbn; lia). apply returns_ok. split_and!; [done|done|]. intros _. cbn. lia. }
  rewrite (proj2 (Z.ltb_lt _ _)) by (cbn; lia). rewrite (byte_at_head _ _ _ _ A1). cbn [rbind].
  destruct Hend as [?|[?|Hst]]; try done.
  replace (Z.of_nat (length eaten + length (c :: inp1)) - zlen eaten) with (zlen (c :: inp1)) by lia.
  assert (Hgo : forall s, s = Start \/ s = Reset -> hungry (set_st f1 s) (c :: inp1) ->
    returns (flush_loop V fuel (set_st f1 s) (off + zlen eaten) (zlen (c :: inp1)))
      (fun f' => term_ok f' /\ (message f <> None -> message f' <> None) /\
         (message f' = None -> this_header f' = this_header f + Z.of_nat (length eaten + length (c :: inp1))))).
  { intros s Hs Hh. eapply returns_weaken; [apply (IH (set_st f1 s))|].
    - apply term_rest; auto.
    - by destruct A1; split.
    - cbn. lia.
    - lia.
    - cbn [message set_st]. rewrite bool_decide_eq_true_2 by done. cbn [this_header set_st]. lia.
    - right. left. split; [done|]. destruct Hfuel as [[? _]|[[Hf Hle]|Hle]]; [done|..|lia].
      apply Hprog in Hf. destruct eaten; [done|]. cbn [length] in *. lia.
    - intros f' (B1 & _ & B2). split_and!; [done|done|]. intros Hn. rewrite (B2 Hn). cbn [this_header set_st]. lia. }
  destruct (Z.eqb_spec c 48); [apply Hgo; [by left|]; split; [done|by left]|].
  destruct (Z.eqb_spec c 0) as [->|]; [apply Hgo; [by right|]; split; [done|right; right; split; [done|by eexists]]|].
  unfold error. rewrite Em. set (g := set_message f1 _). rewrite <- length_app.
  eapply returns_weaken; [apply (IH g off (eaten ++ c :: inp1))|]; rewrite ?length_app; try done.
  - by destruct A5; split.
  - destruct Hat; split; cbn in *; rewrite ?A4; done.
  - cbn. lia.
  - rewrite bool_decide_eq_false_2 by done. change (this_header g) with (this_header f1). lia.
  - left. split; [done|]. destruct Hfuel as [[? _]|[[Hf Hle]|Hle]]; [done|cbn in Hle; lia|lia].
  - intros f' (B1 & B2 & _). split_and!; [done|done|]. intros Hn. by destruct B2.
Qed.

Lemma term_switch f l : term_ok f -> term_ok (switch_input f l).
Proof.
  intros [H1 H2]. split; [|done]. unfold state_ok in *. cbn. destruct (st f); try done.
  - destruct H1 as (A1 & A2 & A3). split; [done|]. split; [done|].
    destruct A3 as [?|[?|(? & Hc & ?)]]; [by left|by right; left|right; right]. by destruct (collected f).
  - destruct H1 as (Hc & ?). by destruct (collected f).
Qed.

Lemma flush_buffer_returns f c :
  term_ok f -> message f = None -> 0 <= this_header f -> zlen c < 2147483648 ->
  this_header f + 2 * zlen c <= 72057594037927936 ->
  returns (flush_buffer V f c) (fun r => r.1 = zlen c /\ term_ok r.2 /\
    (message r.2 = None -> this_header r.2 = this_header f + zlen c)).
Proof.
  intros Ht Hm H0 Hlen Hle. unfold flush_buffer. rewrite bool_decide_eq_false_2 by (rewrite Hm; auto).
  eapply returns_bind; [apply flush_loop_returns|].
  - by apply term_switch.
  - by split.
  - done.
  - done.
  - cbn. rewrite Hm, bool_decide_eq_true_2 by done. done.
  - right. by right.
  - intros g (A & _ & B). by apply returns_ok.
Qed.

Lemma deliver_returns cs f :
  term_ok f -> small cs ->
  (message f = None -> 0 <= this_header f /\ this_header f + 2 * zlen (pieces cs) <= 72057594037927936) ->
  returns (deliver (flush_buffer V) error cs f) (fun r => term_ok r.2).
Proof.
  revert f. induction cs as [|[c p] cs IH]; intros f Ht Hs Hbd; cbn [deliver]; [by apply returns_ok|].
  change (pieces ((c, p) :: cs)) with (c ++ pieces cs) in *. rewrite length_app in *. apply Forall_cons_1 in Hs as [Hc Hs]. cbn in Hc.
  destruct (message f) as [m|] eqn:Hm.
  - unfold flush_buffer, error. rewrite bool_decide_eq_true_2 by (by rewrite Hm). cbn [rbind].
    rewrite (proj2 (Z.eqb_neq _ _)), Hm by lia. by apply returns_ok.
  - destruct (Hbd eq_refl) as [H0 Hle].
    eapply returns_bind; [apply (flush_buffer_returns f c); try done; lia|].
    intros [r g] (E & Hg & Hth). cbn [fst snd] in *. rewrite E, Z.eqb_refl. apply IH; [done|done|].
    intros Hn. rewrite (Hth Hn). lia.
Qed.

Lemma decompress_method_some buf d : (decompress_method mem buf).2 = Some d -> d = gunzip mem.
Proof.
  unfold decompress_method, compressed_formats. destruct (_ <? _)%nat; [done|]. cbn [List.find].
  repeat (destruct (bool_decide _); [cbn; congruence|]). done.
Qed.

Lemma error_message f x : message (error f x) <> None.
Proof. unfold error. destruct (message f) eqn:E; cbn; congruence. Qed.

Lemma term_error f x : term_ok f -> term_ok (error f x).
Proof. intros [H1 H2]. unfold error. by destruct (message f). Qed.

(** The memory that [gunzip] gets is large enough. *)
Definition heaps_ok : Prop := forall f, heap_ok (mem f).

(** Eight bytes for the trailer are counted even if they are not there. *)
Lemma decompress_returns f buf :
  heaps_ok -> Forall is_u8 buf -> zlen buf < 2147483648 -> term_ok f -> this_header f = 0 ->
  returns (decompress V (gunzip mem) f buf) (fun r => term_ok r.2 /\ (r.1 = 0 -> 10 <= my_inptr r.2 <= zlen buf + 8)).
Proof.
  intros Hh Hu Hlen Ht H0. unfold decompress, gunzip.
  assert (Hno : (all_there (mem f) = false \/ (forall hd data, buf = hd ++ data -> ~ gz_header hd)) \/
    all_there (mem f) = true /\ exists hd data, buf = hd ++ data /\ gz_header hd).
  { destruct (all_there (mem f)); [|by auto]. destruct (gz_split buf); auto. }
  destruct Hno as [Hno|(Hm & hd & data & -> & Hhd)].
  { destruct (gunzip_fails (flush_buffer V) error (mem f) (gunzip_fuel (length buf)) buf Hno) as (pos & msg & ->). cbn [rbind].
    apply returns_ok. cbn [fst snd]. split; [|done]. pose proof (term_error f msg Ht) as [T1 T2]. by destruct pos. }
  apply Forall_app in Hu as [_ Hu].
  destruct (gunzip_unpacks (flush_buffer V) error (mem f) (gunzip_fuel (length (hd ++ data))) hd data) as (cs & rc & left & msg & -> & Hun & Hs); try done.
  { rewrite length_app. unfold gunzip_fuel. lia. }
  unfold with_pos, deliver_all. pose proof (unpacks_bounded _ _ _ _ _ Hun) as Hb. rewrite length_app in *.
  assert (Hd : returns (deliver (flush_buffer V) error cs f) (fun r => term_ok r.2)) by (apply deliver_returns; try done; intros _; rewrite H0; lia).
  destruct Hd as [->|([stopped g] & -> & Hg)]; [by left|]. cbn [rbind snd] in *. destruct stopped as [p|]; cbn [rbind]; apply returns_ok; cbn [fst snd].
  { split; [by destruct Hg|done]. }
  split; [destruct msg; [destruct (term_error g s Hg)|destruct Hg]; by split|].
  intros ->. destruct Hun as [(_ & _ & rest & _ & -> & Hsuf)|[? _]]; [|done]. apply suffix_length in Hsuf.
  destruct (gz_data_header hd [] Hhd) as (Hl & _). rewrite app_nil_r in Hl. cbn. rewrite u32_id by (unfold is_u32; lia). lia.
Qed.

Lemma unpack_compressed_returns f off inp :
  heaps_ok -> Forall is_u8 inp -> term_ok f -> st f = Start \/ st f = Reset -> at_input (view f off inp) inp ->
  0 <= this_header f -> this_header f + zlen inp < 2147483648 ->
  returns (unpack_compressed V mem f off (zlen inp)) (fun g => message g = None ->
    term_ok g /\ st g = Reset /\ input g = input f /\ 10 <= my_inptr g <= zlen inp + 8 /\
    this_header g = this_header f + my_inptr g).
Proof.
  intros Hz Hu Ht Hst Hat H0 Hle. unfold unpack_compressed. cbv zeta. rewrite Nat2Z.id.
  pose proof (at_rest _ _ Hat) as E. cbn in E. rewrite E, firstn_all.
  apply (returns_bind _ _ (fun g => message g = None -> term_ok g /\ 10 <= my_inptr g <= zlen inp + 8)).
  - destruct (decompress_method mem inp) as [name [d|]] eqn:Ed.
    + assert (d = gunzip mem) as -> by (apply (decompress_method_some inp); by rewrite Ed).
      match goal with |- returns _ ?Q => assert (Hd : returns (let* (rc, f) := decompress V (gunzip mem) (set_this_header f 0) inp in
        Ok (if negb (rc =? 0) then error f "decompressor failed" else f)) Q); [|by destruct name as [[|]|]] end.
      eapply returns_bind; [apply decompress_returns; try done; [lia|]|].
      * destruct Ht as [H1 H2]. split; [|done]. unfold state_ok in *. by destruct Hst as [Es|Es]; cbn; rewrite Es in *.
      * intros [rc g] (Hg & Hn). cbn [fst snd] in *. apply returns_ok. destruct (Z.eqb_spec rc 0); cbn [negb]; [auto|].
        intros Hm. by destruct (error_message g "decompressor failed").
    + destruct name as [[name|]|]; [..|by left]; apply returns_ok; intros Hm; exfalso; revert Hm;
        [cbn; destruct (message f) eqn:Em; cbn; congruence|apply error_message].
  - intros g Hg. apply returns_ok. destruct (st g) eqn:Es; cbn; intros Hm; try by apply error_message in Hm.
    destruct (Hg Hm) as [[T1 T2] Hn]. rewrite s64_id by lia. split_and!; try done; try lia.
    split; [|done]. unfold state_ok in *. cbn. by rewrite Es in *.
Qed.

Lemma view_later f g off eaten inp :
  input g = input f -> at_input (view f off (eaten ++ inp)) (eaten ++ inp) -> at_input (view g (off + zlen eaten) inp) inp.
Proof.
  intros E [H1 H2 H3 H4]. cbn in H1, H2, H3. rewrite length_app in H2. split; cbn; rewrite ?E; try lia.
  rewrite Z2Nat.inj_add, <- drop_drop, H3, Nat2Z.id by lia. apply drop_app_length.
Qed.

(** Past the end of the image there is nothing to read. *)
Lemma unpack_loop_over f g fuel off inp :
  at_input (view f off inp) inp -> input g = input f -> message g = None -> zlen inp < my_inptr g <= zlen inp + 8 -> zlen inp < 2147483648 -> fuel <> O ->
  unpack_loop V mem fuel g (off + my_inptr g) (u32 (zlen inp - my_inptr g)) = Fault.
Proof.
  intros [H1 H2 H3 H4] Ei Em Hn Hl Hf. destruct fuel as [|fuel]; [done|]. cbn [unpack_loop]. rewrite Em, bool_decide_eq_false_2 by auto.
  rewrite (proj2 (Z.eqb_neq (u32 _) 0)) by (unfold u32; zlia). cbn [orb]. cbn in H1, H2.
  assert (Hb : byte_at (input g) (off + my_inptr g) = Fault).
  { unfold byte_at. rewrite Ei, (proj2 (Z.ltb_ge _ 0)), lookup_ge_None_2 by lia. done. }
  by rewrite Hb.
Qed.

Lemma unpack_loop_returns fuel f off inp :
  heaps_ok -> Forall is_u8 inp -> (length inp <= fuel)%nat ->
  (message f = None -> inp <> [] -> term_ok f /\ (st f = Start \/ st f = Reset) /\ at_input (view f off inp) inp /\
     0 <= this_header f /\ this_header f + zlen inp < 2147483648) ->
  returns (unpack_loop V mem fuel f off (zlen inp)) (fun _ => True).
Proof.
  intros Hz. revert f off inp. induction fuel as [|fuel IH]; intros f off inp Hu Hf Hpre;
    (destruct inp as [|c inp]; [cbn [unpack_loop length Z.of_nat Z.eqb]; rewrite orb_true_r; by apply returns_ok|]); [cbn in Hf; lia|].
  cbn [unpack_loop]. case_bool_decide as Hm; [by apply returns_ok|].
  assert (Hn : message f = None) by (destruct (message f); [by destruct Hm|done]).
  destruct (Hpre Hn ltac:(done)) as (Ht & Hst & Hat & H0 & Hle). cbn [orb].
  rewrite (proj2 (Z.eqb_neq _ 0)) by (cbn; lia). rewrite (byte_at_head _ _ _ _ Hat). cbn [rbind].
  destruct (_ && _).
  - eapply returns_bind; [apply (write_buffer_returns (set_st f Start) off (c :: inp) []);
      [by apply term_rest; auto|by destruct Hat|rewrite app_nil_r; split; cbn in *; lia]|].
    intros [written g] (eaten & inp' & E & E2 & A1 & A2 & A3 & A4 & A5 & _ & A6 & A7). cbn [fst snd] in *.
    rewrite E2 in *. rewrite length_app in *. rewrite E. rewrite u32_id by (unfold is_u32; lia).
    replace (Z.of_nat (length eaten + length inp') - zlen eaten) with (zlen inp') by lia. apply IH.
    + by apply Forall_app in Hu as [_ Hu].
    + assert (eaten <> []). { apply A7. split; [by rewrite <- E2|by left]. }
      destruct eaten; [done|]. cbn in Hf. lia.
    + intros Hg Hne. destruct A6 as [?|[?|?]]; try done. split_and!; auto; [cbn in A3; lia|cbn in A3; lia].
  - destruct (Z.eqb_spec c 0).
    + replace (zlen (c :: inp) - 1) with (zlen inp) by (cbn; lia). apply IH; [by apply Forall_cons_1 in Hu as [_ Hu]|cbn in Hf; lia|].
      intros _ _. split_and!.
      * destruct Ht as [T1 T2]. split; [|done]. unfold state_ok in *. by destruct Hst as [Es|Es]; cbn; rewrite Es in *.
      * done.
      * by apply (view_later f _ off [c] inp).
      * cbn in *. rewrite s64_id; lia.
      * cbn in *. rewrite s64_id; lia.
    + eapply returns_bind; [by apply (unpack_compressed_returns f off (c :: inp))|]. intros g Hg.
      destruct (message g) as [m|] eqn:Em.
      { destruct fuel; cbn [unpack_loop]; rewrite bool_decide_eq_true_2 by (by rewrite Em); by apply returns_ok. }
      destruct (Hg Em) as (G1 & G2 & G3 & G4 & G5). destruct (Z.lt_ge_cases (zlen (c :: inp)) (my_inptr g)) as [Hover|Hin].
      { left. apply (unpack_loop_over f g); try done; try lia. }
      rewrite u32_id by (unfold is_u32; lia).
      rewrite <- (take_drop (Z.to_nat (my_inptr g)) (c :: inp)) in Hat.
      assert (Hl : zlen (take (Z.to_nat (my_inptr g)) (c :: inp)) = my_inptr g) by (rewrite length_take; lia).
      assert (Hd : zlen (drop (Z.to_nat (my_inptr g)) (c :: inp)) = zlen (c :: inp) - my_inptr g) by (rewrite length_drop; lia).
      rewrite <- Hd. apply IH; [by apply Forall_drop|lia|]. intros _ _. split_and!; auto; [|lia|lia].
      rewrite <- Hl at 1. by apply (view_later f).
Qed.
End termination.
