(* ===== verification/InitramfsTheorems.v ===== *)
(** * What unpacking an initramfs guarantees

    The correctness of [unpack_to_rootfs] on well-formed archives, plain or compressed
    and cut anywhere, its termination on any bytes, the initcall that unpacks both images,
    and two places where init/initramfs.c falls short. *)

From Stdlib Require Import ZArith Lia Bool.
From stdpp Require Import base numbers list strings.
From S2P Require Import Prelude Kstrtox Deflate Canon InflateTheorems Result Gunzip GunzipProofs Initramfs InitramfsSpec InitramfsProofs InitramfsTermination.
Open Scope Z_scope.

(** ** The whole archive *)

(** Buffers of the sizes [unpack_to_rootfs] allocates. *)
Definition bufs_ok (junk : bufname -> list Z) : Prop :=
  zlen (junk HeaderBuf) = 110 /\ zlen (junk SymlinkBuf) = 8195 /\ zlen (junk NameBuf) = 4098.

(** [buf] is a gzip file: a header, a stream that decompresses to the archive, and what
    follows the stream. *)
Definition gzipped (z : nat) (es : list entry) (buf trailer : list Z) : Prop :=
  exists hd data, buf = hd ++ data ++ trailer /\ gz_header hd /\ Forall is_u8 (data ++ trailer) /\
    inflated false 15 (data ++ trailer) = (Complete (bits_of_bytes trailer), archive z es).
(** The image [buf] holds the archive, as it is or gzipped, with a trailer of eight bytes. *)
Definition carries (z : nat) (es : list entry) (buf : list Z) : Prop :=
  buf = archive z es \/ exists trailer, length trailer = 8%nat /\ gzipped z es buf trailer.
(** All the memory that is asked for is there. *)
Definition allocates {W} (mem : fsm W -> heap) : Prop := forall f, heap_ok (mem f) /\ all_there (mem f) = true.

Section unpacking.
Context {W : Type} (V : vfs W) (mem : fsm W -> heap).
Context (write_app : forall fd a b w, sys_write V fd (a ++ b) w = sys_write V fd b (sys_write V fd a w)).
Implicit Types f : fsm W.

(** The state after everything was read. *)
Definition arrived f (t : target W) : Prop :=
  world f = t_world t /\ dir_list f = t_dirs t /\ links_ok (head f) (t_links t).
Lemma inv_done fin f : inv V fin f [] -> st f = Reset \/ st f = Start ->
  message f = None /\ st f = Reset /\ arrived f fin.
Proof.
  intros Hi Hst. split; [by eapply inv_message|]. remember [] as T eqn:ET.
  destruct Hi; try (destruct Hst; congruence); try (rewrite (co_st _ _ _ _ _ H0) in Hst; by destruct Hst);
    try (rewrite (co_st _ _ _ _ _ H2) in Hst; by destruct Hst).
  - destruct (archive_starts z e es) as [x Hx]. congruence.
  - destruct es as [|e es]; [|destruct (archive_starts z e es) as [x Hx]; congruence].
    split; [done|]. destruct H as [[S1 S2 S3 S4 _ _ _] <- _]. done.
Qed.

(** A reader about to start stands before an entry. *)
Lemma inv_at_start fin f T : inv V fin f T -> st f = Start -> this_header f `mod` 4 = 0 /\ exists x, T = 48 :: x.
Proof.
  intros Hi Hst. destruct Hi; try congruence; try (by rewrite (co_st _ _ _ _ _ H0) in Hst);
    try (by rewrite (co_st _ _ _ _ _ H2) in Hst).
  split; [done|]. destruct (archive_starts z e es) as [x ->]. by exists x.
Qed.

(** Rounds of the plain reader. *)
Lemma unpack_loop_spec fin fuel f off inp :
  inv V fin (set_st f Start) inp -> at_input (set_victim (set_count f (zlen inp)) off) inp -> in_bounds f inp ->
  0 <= off -> (length inp <= fuel)%nat ->
  exists f', unpack_loop V mem fuel f off (zlen inp) = Ok f' /\ inv V fin f' [] /\ st f' = Reset.
Proof.
  revert f off inp. induction fuel as [|fuel IH]; intros f off inp Hi Hat Hbd Hoff Hfuel;
    destruct (inv_at_start _ _ _ Hi eq_refl) as [Hal [x ->]]; [cbn in Hfuel; lia|]. cbn [unpack_loop].
  rewrite bool_decide_eq_false_2 by (change (message f) with (message (set_st f Start));
    rewrite (inv_message _ _ _ _ Hi); auto).
  rewrite (proj2 (Z.eqb_neq (zlen (48 :: x)) 0)) by (cbn; lia). cbn [orb].
  assert (Hb : byte_at (input f) off = Ok 48).
  { unfold byte_at. rewrite (proj2 (Z.ltb_ge _ 0)) by lia. pose proof (at_rest _ _ Hat) as Hd. cbn in Hd.
    by rewrite <- (Nat.add_0_r (Z.to_nat off)), <- lookup_drop, Hd. }
  rewrite Hb. cbn [rbind]. rewrite land_3. change (this_header (set_st f Start)) with (this_header f) in Hal.
  rewrite Hal. cbn [Z.eqb Pos.eqb andb].
  destruct (write_buffer_spec V write_app fin (set_st f Start) off (48 :: x) [])
    as (f1 & eaten & inp1 & -> & E & A1 & A2 & A3 & A4 & A5 & A6 & A7 & A8); rewrite ?app_nil_r; try done.
  { by destruct Hat; split. }
  { by destruct Hbd; split. }
  rewrite app_nil_r in *. cbn [rbind]. rewrite E, length_app.
  replace (u32 (Z.of_nat (length eaten + length inp1) - zlen eaten)) with (zlen inp1).
  2: { pose proof (bd_len _ _ Hbd) as Hl. rewrite E, length_app in Hl. rewrite u32_id; unfold is_u32; lia. }
  assert (Hne : eaten <> []) by by apply A8.
  destruct A7 as [->|[Hr [y ->]]].
  - exists f1. split; [|split; [done|by destruct A6 as [[_ ?]|]]]. destruct fuel; cbn [unpack_loop]; by rewrite orb_true_r.
  - destruct (IH f1 (off + zlen eaten) (48 :: y)) as (f' & -> & H); [..|by exists f'].
    + by apply reset_to_start.
    + destruct A1 as [D1 D2 D3 D4]. split; cbn; rewrite <- ?A4; done.
    + done.
    + lia.
    + apply (f_equal length) in E. rewrite length_app in E. destruct eaten; [done|]. cbn in *. lia.
Qed.

(** Before the first byte. *)
Definition fresh f : Prop := links_ok (head f) [] /\ dir_list f = [].

Lemma inv_init z e es f junk :
  fresh f -> bufs_ok junk -> Forall entry_ok (e :: es) -> bufs f = junk -> message f = None -> this_header f = 0 ->
  st f = Start ->
  inv V (finish V (e :: es) (mkTarget (world f) [] [])) f (archive z (e :: es)).
Proof.
  intros [Hh Hd] (B1 & B2 & B3) Hok Hb Hm Ht Hst. eapply (inv_start V _ f e es (mkTarget (world f) [] [])); [|done|by rewrite Ht].
  split; [|done|done]. split; rewrite ?Hb; try done.
Qed.

Lemma dir_utime_world f : world (dir_utime V f) = fold_left (fun w d => do_utimes V d.1 d.2 w) (dir_list f) (world f) /\
  message (dir_utime V f) = message f.
Proof.
  unfold dir_utime. cbn. generalize (dir_list f) as l. intros l. revert f. induction l as [|d l IH]; intros f; [done|].
  cbn. destruct (IH (do_utime V f d.1 d.2)) as [-> ->]. done.
Qed.

(** The decompressor delivers the archive, in pieces, and counts eight bytes after it. *)
Lemma gunzip_delivers f z es buf trailer :
  allocates mem -> gzipped z es buf trailer -> (5 <= length trailer)%nat ->
  exists cs, pieces cs = archive z es /\ forall g, mem g = mem f ->
    gunzip mem (Some buf) None (Some (flush_buffer V)) false error g =
    (let* (stopped, g) := deliver (flush_buffer V) error cs g in
     match stopped with Some p => Ok (-1, Some (p + 8), [], g) | None => Ok (0, Some (zlen buf - zlen trailer + 8), [], g) end).
Proof.
  intros Hm (hd & data & -> & Hhd & Hu & Hinf) Hlen. destruct (Hm f) as [Hh Ha].
  destruct (gunzip_unpacks (flush_buffer V) error (mem f) (gunzip_fuel (length (hd ++ data ++ trailer))) hd (data ++ trailer)) as (cs & rc & left & msg & Hg & Hun & _); try done.
  { rewrite (length_app hd). unfold gunzip_fuel. lia. }
  rewrite Hinf in Hun. destruct Hun as [(-> & -> & rest & E & -> & _)|(_ & _ & _ & Hc)].
  - injection E as Er Ea. exists cs. split; [done|]. intros g Eg. unfold gunzip. rewrite Eg, Hg. unfold with_pos, deliver_all.
    apply (f_equal (@length bool)) in Er. rewrite !length_bits_of_bytes in Er. replace (length rest) with (length trailer) by lia.
    destruct (deliver _ _ _ _) as [[[p|] g']| | |]; done.
  - specialize (Hc _ eq_refl). rewrite length_bits_of_bytes in Hc. lia.
Qed.

(** One round of the loop on a gzipped archive. *)
Lemma unpack_gzip_round fin f z es buf trailer :
  allocates mem -> gzipped z es buf trailer -> (5 <= length trailer <= 8)%nat ->
  zlen buf < 2147483648 -> zlen (archive z es) < 2147483648 ->
  input f = buf -> st f = Start -> this_header f = 0 -> inv V fin f (archive z es) ->
  exists g, unpack_compressed V mem f 0 (zlen buf) = Ok g /\ message g = None /\ arrived g fin /\ input g = buf /\
    my_inptr g = zlen buf - zlen trailer + 8.
Proof.
  intros Hm Hz Htl Hlen Hlen' Hin Hst Ht Hi. destruct (gunzip_delivers f z es buf trailer Hm Hz ltac:(lia)) as (cs & Hc & Hg).
  assert (Hmag : take 2 buf = [31; 139] /\ (2 <= length buf)%nat /\ (length trailer <= length buf)%nat).
  { destruct Hz as (hd & data & -> & (flg & six & name & -> & _) & _). cbn. rewrite !length_app. split; [done|]. lia. }
  destruct Hmag as (Hmag & Hl2 & Htb). unfold unpack_compressed. rewrite Hin. cbn [Z.to_nat]. rewrite drop_0, Nat2Z.id, firstn_all, Ht.
  assert (Hd : decompress_method mem buf = (Some (Some "gzip"%string), Some (gunzip mem))).
  { unfold decompress_method. rewrite (proj2 (Nat.ltb_ge _ _)), Hmag by done. done. }
  assert (Hf : set_this_header f 0 = f) by (destruct f; cbn in *; by subst). rewrite Hd, Hf. unfold decompress. rewrite Hg by done.
  destruct (deliver_spec V write_app fin cs f) as (f1 & -> & A1 & A2); [by rewrite Hc|by right|rewrite Hc; split; lia|].
  destruct (inv_done _ _ A1 A2) as (D1 & D2 & D3). cbn [rbind]. rewrite u32_id by (unfold is_u32; lia). cbn [rbind negb Z.eqb st set_my_inptr]. rewrite D2.
  eexists. split; [done|]. done.
Qed.
Lemma gzip_starts z es buf trailer : gzipped z es buf trailer -> byte_at buf 0 = Ok 31 /\ zlen buf <> 0.
Proof. intros (hd & data & -> & (flg & six & name & -> & _) & _). split; [done|]. cbn. lia. Qed.
Lemma unpack_gzip fin fuel f z es buf trailer :
  allocates mem -> gzipped z es buf trailer -> length trailer = 8%nat ->
  zlen buf < 2147483648 -> zlen (archive z es) < 2147483648 ->
  input f = buf -> st f = Start -> this_header f = 0 -> inv V fin f (archive z es) ->
  exists f', unpack_loop V mem (S fuel) f 0 (zlen buf) = Ok f' /\ message f' = None /\ arrived f' fin.
Proof.
  intros Hm Hz Htl Hlen Hlen' Hin Hst Ht Hi. destruct (gzip_starts _ _ _ _ Hz) as [Hb Hne].
  destruct (unpack_gzip_round fin f z es buf trailer) as (g & Eg & G1 & G2 & G3 & G4); try done; [lia|].
  cbn [unpack_loop]. rewrite bool_decide_eq_false_2, (proj2 (Z.eqb_neq _ 0)) by (rewrite ?(inv_message _ _ _ _ Hi); auto). cbn [orb].
  rewrite Hin, Hb. cbn [rbind Z.eqb Pos.eqb andb]. rewrite Eg. cbn [rbind].
  assert (Hend : u32 (zlen buf - my_inptr g) = 0) by (rewrite G4, Htl; replace (_ - _) with 0 by lia; done).
  rewrite Hend. exists g. split; [destruct fuel; cbn [unpack_loop]; by rewrite orb_true_r|]. done.
Qed.
Lemma dir_utime_head f : head (dir_utime V f) = head f.
Proof.
  unfold dir_utime. cbn. generalize (dir_list f) as l. intros l. revert f. induction l as [|d l IH]; intros f; [done|].
  cbn. by rewrite IH.
Qed.

(** Unpacking a well-formed image: the calls made, and the links remembered after it. *)
Lemma unpack_installs junk f z es buf :
  allocates mem -> fresh f -> bufs_ok junk -> es <> [] -> Forall entry_ok es -> carries z es buf ->
  zlen buf < 2147483648 -> zlen (archive z es) < 2147483648 ->
  let t := install_all V es (mkTarget (world f) [] []) in
  exists f', unpack_to_rootfs V mem junk f buf = Ok (None, f') /\ world f' = set_dir_times V t /\
    links_ok (head f') (t_links t) /\ dir_list f' = [].
Proof.
  intros Ha Hf Hj Hne Hok Hc Hl Hl' t. destruct es as [|e es]; [done|]. unfold unpack_to_rootfs.
  set (g := set_message _ None). assert (Hi : inv V t g (archive z (e :: es))) by by apply (inv_init z e es g junk).
  assert (Hrun : exists f', unpack_loop V mem (length buf) g 0 (zlen buf) = Ok f' /\ message f' = None /\ arrived f' t).
  { destruct Hc as [->|(trailer & Htl & Hz)].
    - destruct (unpack_loop_spec _ (length (archive z (e :: es))) g 0 _ Hi) as (f' & E & H1 & H2);
        [by split; cbn|split; [done|change (this_header g) with 0; lia|lia]|lia|lia|].
      exists f'. split; [done|]. destruct (inv_done _ f' H1 (or_introl H2)) as (D1 & _ & D3). done.
    - destruct buf as [|b0 buf']; [by destruct (gzip_starts _ _ _ _ Hz)|]. by eapply unpack_gzip. }
  destruct Hrun as (f' & -> & Hm & Hw & Hd & Hh). cbn [rbind]. destruct (dir_utime_world f') as [E1 E2].
  exists (dir_utime V f'). rewrite E2, Hm, E1, dir_utime_head, Hw, Hd. done.
Qed.

(** Delivering it in any pieces. *)
Lemma deliver_installs junk f z es cs :
  fresh f -> bufs_ok junk -> es <> [] -> Forall entry_ok es -> zlen (archive z es) < 2147483648 -> pieces cs = archive z es ->
  exists f', deliver (flush_buffer V) error cs (set_message (set_this_header (set_st (switch_input (set_bufs f junk) []) Start) 0) None)
      = Ok (None, f') /\ message f' = None /\
    world (dir_utime V f') = set_dir_times V (install_all V es (mkTarget (world f) [] [])).
Proof.
  intros Hf Hj Hne Hok Hl Hcs. destruct es as [|e es]; [done|]. set (g := set_message _ None).
  set (t := install_all V (e :: es) (mkTarget (world f) [] [])).
  assert (Hi : inv V t g (pieces cs)) by (rewrite Hcs; by apply (inv_init z e es g junk)).
  destruct (deliver_spec V write_app t cs g) as (f' & -> & A1 & A2); [done|by right|rewrite Hcs; by split; [change (this_header g) with 0; lia..]|].
  destruct (inv_done _ _ A1 A2) as (D1 & _ & (D2 & D3 & _)). exists f'. split_and!; try done.
  by rewrite (proj1 (dir_utime_world f')), D2, D3.
Qed.

(** A trailer clears the table of links. *)
Lemma trailer_links es e t : e_name e = trailer_name -> t_links (install_all V (es ++ [e]) t) = [].
Proof. intros E. unfold install_all. rewrite fold_left_app. cbn. unfold install. by rewrite bool_decide_eq_true_2. Qed.
End unpacking.

(** ** A file system that records its calls *)

Inductive call :=
| CWrite (fd : Z) (data : list Z)
| COther (name : string) (p : path) (args : list Z).

(** The most recent call first; consecutive writes to a file are one. *)
Definition record_write (fd : Z) (data : list Z) (w : list call) : list call :=
  match data with
  | [] => w
  | _ => match w with
         | CWrite fd' d :: w' => if fd =? fd' then CWrite fd (d ++ data) :: w' else CWrite fd data :: w
         | _ => CWrite fd data :: w
         end
  end.

Definition recorder : vfs (list call) := {|
  sys_newlstat := fun _ _ => None;
  sys_rmdir := fun p w => COther "rmdir" p [] :: w;
  sys_unlink := fun p w => COther "unlink" p [] :: w;
  sys_link := fun o n w => (0, COther "link" (o ++ [0] ++ n) [] :: w);
  sys_open := fun p fl m w => (3, COther "open" p [fl; m] :: w);
  sys_fchown := fun fd u g w => COther "fchown" [] [fd; u; g] :: w;
  sys_fchmod := fun fd m w => COther "fchmod" [] [fd; m] :: w;
  sys_ftruncate := fun fd n w => COther "ftruncate" [] [fd; n] :: w;
  sys_write := record_write;
  sys_close := fun fd w => COther "close" [] [fd] :: w;
  sys_mkdir := fun p m w => COther "mkdir" p [m] :: w;
  sys_chown := fun p u g w => COther "chown" p [u; g] :: w;
  sys_chmod := fun p m w => COther "chmod" p [m] :: w;
  sys_mknod := fun p m d w => COther "mknod" p [m; d] :: w;
  sys_symlink := fun o n w => COther "symlink" (o ++ [0] ++ n) [] :: w;
  sys_lchown := fun p u g w => COther "lchown" p [u; g] :: w;
  do_utimes := fun p t w => COther "utimes" p [t] :: w;
  sys_getdents64 := fun fd w => ([], w);
  free_initrd_mem := fun w => COther "free_initrd_mem" [] [] :: w
|}.

Lemma recorder_app fd a b w : record_write fd (a ++ b) w = record_write fd b (record_write fd a w).
Proof.
  destruct a as [|c a]; [done|]. destruct b as [|d b]; [by rewrite app_nil_r|].
  cbn [record_write app]. destruct w as [|[fd' x|] w]; cbn; rewrite ?Z.eqb_refl; try done.
  destruct (Z.eqb_spec fd fd') as [->|]; cbn; rewrite ?Z.eqb_refl; [|done]. by rewrite <- app_assoc.
Qed.

Definition blank_bufs : bufname -> list Z := fun b =>
  repeat 0 (match b with HeaderBuf => 110 | SymlinkBuf => Z.to_nat 8195 | NameBuf => Z.to_nat 4098 end)%nat.
Definition blank : fsm (list call) :=
  mkFsm None (fun _ => []) [] (mkCpio 0 0 0 0 0 0 0 0 0 0 0) Start Start [] 0 0 0 0 Dangling Dangling 0
    blank_bufs 0 [] 0 [].
Lemma blank_bufs_ok : bufs_ok blank_bufs.
Proof. unfold bufs_ok, blank_bufs. rewrite !List.repeat_length. lia. Qed.

(** A directory, a file in it, a second name of the file, a symbolic link, the end. *)
Definition demo_entry (ino mode nlink : Z) (name body : list Z) : entry :=
  mkEntry ino mode 0 0 nlink 1000 8 1 0 0 0 name body.
Definition demo_archive : list entry :=
  [demo_entry 1 0x41ed 2 [100] []; demo_entry 2 0x81a4 2 [100; 47; 97] [104; 105; 33; 10; 33];
   demo_entry 2 0x81a4 2 [100; 47; 98] []; demo_entry 3 0xa1ff 1 [108] [97]; demo_entry 0 0 1 trailer_name []].

Lemma demo_archive_ok : Forall entry_ok demo_archive.
Proof.
  unfold demo_archive. rewrite !Forall_cons, Forall_nil. split_and!; try done; split; cbn;
    rewrite ?Forall_cons, ?Forall_nil; unfold cstring, trailer_name; rewrite ?Forall_cons, ?Forall_nil;
    unfold is_u32, is_u16, PATH_MAX; try done; lia.
Qed.

(** The reader as [unpack_to_rootfs] starts it. *)
Definition reader_start {W} (junk : bufname -> list Z) (f : fsm W) (buf : list Z) : fsm W :=
  set_message (set_this_header (set_st (switch_input (set_bufs f junk) buf) Start) 0) None.

(** C4: unpacking a well-formed archive of the "070701" kind installs its entries, in
    order, and then sets the times of the directories, for every file system whose writes
    can be split.  The image may be the archive itself or a gzip file of it with its trailer
    of eight bytes; no access leaves its buffer and no error is reported.  However the
    archive is cut into pieces for [flush_buffer], inside headers, names, link targets or
    contents, the effect is the same.  What an entry does is [install]: of the entries with
    the device, inode number and file type of an earlier one those of regular files and of
    nodes become hard links to it, and symbolic links are always made anew. *)
Theorem unpack_to_rootfs_correct {W} (V : vfs W) mem junk f z es buf :
  (forall fd a b w, sys_write V fd (a ++ b) w = sys_write V fd b (sys_write V fd a w)) ->
  allocates mem -> fresh f -> bufs_ok junk -> es <> [] -> Forall entry_ok es -> carries z es buf ->
  zlen buf < 2147483648 -> zlen (archive z es) < 2147483648 ->
  (exists f', unpack_to_rootfs V mem junk f buf = Ok (None, f') /\
    world f' = set_dir_times V (install_all V es (mkTarget (world f) [] []))) /\
  (forall cs, pieces cs = archive z es ->
    exists f', deliver (flush_buffer V) error cs (reader_start junk f []) = Ok (None, f') /\ message f' = None /\
    world (dir_utime V f') = set_dir_times V (install_all V es (mkTarget (world f) [] []))).
Proof.
  intros Hw Ha Hf Hj Hne Hok Hc Hl Hl'. split.
  - destruct (unpack_installs V mem Hw junk f z es buf) as (f' & E & H & _); try done. by exists f'.
  - intros cs Hcs. by apply (deliver_installs V Hw junk f z es).
Qed.

(** The demonstration archive as a gzip file named "a.cpio". *)
Definition demo_gz : list Z :=
  [31; 139; 8; 8; 0; 0; 0; 0; 2; 3; 97; 46; 99; 112; 105; 111; 0; 51; 48; 55; 48; 55; 48; 52; 128; 0; 48; 109; 98;
   232; 234; 98; 128; 29; 24; 129; 73; 99; 87; 11; 52; 113; 11; 100; 253; 56; 245; 1; 65; 10; 131; 1; 178; 125; 96;
   113; 11; 67; 71; 19; 34; 237; 51; 37; 210; 62; 184; 121; 41; 250; 137; 12; 12; 12; 25; 153; 138; 92; 138; 64;
   154; 34; 187; 13; 72; 183; 59; 9; 221; 78; 99; 16; 225; 104; 232; 230; 134; 67; 175; 33; 154; 157; 134; 164;
   134; 111; 14; 67; 34; 186; 157; 132; 128; 33; 153; 254; 116; 130; 49; 66; 130; 28; 61; 125; 92; 131; 20; 21; 65;
   65; 140; 21; 0; 0; 122; 23; 132; 19; 100; 2; 0; 0].
Lemma demo_gz_bytes : Forall is_u8 demo_gz.
Proof. apply (bool_decide_unpack _). vm_compute. exact I. Qed.
Lemma demo_gzipped : gzipped 20 demo_archive demo_gz (drop 134 demo_gz).
Proof.
  exists (take 17 demo_gz), (take 117 (drop 17 demo_gz)). split; [reflexivity|]. split.
  { exists 8, [0; 0; 0; 0; 2; 3], [97; 46; 99; 112; 105; 111; 0]. split; [reflexivity|]. split; [reflexivity|].
    exists [97; 46; 99; 112; 105; 111]. split; [reflexivity|]. repeat constructor; discriminate. }
  pose proof (Forall_drop _ 17 _ demo_gz_bytes) as Hb. change (drop 17 demo_gz) with (take 117 (drop 17 demo_gz) ++ drop 134 demo_gz) in Hb.
  split; [exact Hb|]. apply inflated_by_run; [exact Hb|]. vm_compute. reflexivity.
Qed.
Definition demo_heap : heap := mkHeap true true true true blank_stream 4096 None.
Lemma demo_heap_ok : heap_ok demo_heap.
Proof. split; [exact blank_workspace|by left]. Qed.
Definition demo_mem : fsm (list call) -> heap := fun _ => demo_heap.
Lemma demo_allocates : allocates demo_mem.
Proof. intros f. split; [exact demo_heap_ok|reflexivity]. Qed.
Lemma demo_carries : carries 20 demo_archive demo_gz.
Proof. right. exists (drop 134 demo_gz). split; [reflexivity|exact demo_gzipped]. Qed.

(** Pieces of 100 bytes. *)
Fixpoint cut (n : nat) (l : list Z) : list (list Z * Z) :=
  match n with O => [(l, 0)] | S n => (take 100 l, 0) :: cut n (drop 100 l) end.
Lemma unpack_to_rootfs_correct_witness :
  (exists f', unpack_to_rootfs recorder demo_mem blank_bufs blank demo_gz = Ok (None, f') /\
    world f' = set_dir_times recorder (install_all recorder demo_archive (mkTarget [] [] []))) /\
  exists f', deliver (flush_buffer recorder) error (cut 5 (archive 20 demo_archive)) (reader_start blank_bufs blank [])
      = Ok (None, f') /\ message f' = None /\
    world (dir_utime recorder f') = set_dir_times recorder (install_all recorder demo_archive (mkTarget [] [] [])).
Proof.
  assert (H := unpack_to_rootfs_correct recorder demo_mem blank_bufs blank 20 demo_archive demo_gz).
  destruct H as [H1 H2].
  - exact recorder_app.
  - exact demo_allocates.
  - by split.
  - exact blank_bufs_ok.
  - discriminate.
  - exact demo_archive_ok.
  - exact demo_carries.
  - vm_compute. reflexivity.
  - vm_compute. reflexivity.
  - split; [exact H1|]. apply H2. vm_compute. reflexivity.
Defined.

(** Everything a well-formed archive installs, directory times included. *)
Definition unpacked {W} (V : vfs W) (es : list entry) (w : W) : W :=
  set_dir_times V (install_all V es (mkTarget w [] [])).
Definition closed_archive (es : list entry) : Prop :=
  Forall entry_ok es /\ exists es' e, es = es' ++ [e] /\ e_name e = trailer_name.
Definition image_of (es : list entry) (buf : list Z) : Prop :=
  closed_archive es /\ zlen buf < 2147483648 /\
  exists z, carries z es buf /\ zlen (archive z es) < 2147483648.

Lemma unpack_image {W} (V : vfs W) mem junk f es buf :
  (forall fd a b w, sys_write V fd (a ++ b) w = sys_write V fd b (sys_write V fd a w)) ->
  allocates mem -> fresh f -> bufs_ok junk -> image_of es buf ->
  exists f', unpack_to_rootfs V mem junk f buf = Ok (None, f') /\ world f' = unpacked V es (world f) /\ fresh f'.
Proof.
  intros Hw Ha Hf Hj ((Hok & es' & e & -> & He) & Hl & z & Hc & Hl').
  destruct (unpack_installs V mem Hw junk f z (es' ++ [e]) buf) as (f' & E & Hwo & Hh & Hd); try done; [by destruct es'|].
  exists f'. split_and!; try done. by rewrite trailer_links in Hh.
Qed.

Lemma demo_image buf : carries 20 demo_archive buf -> zlen buf < 2147483648 -> image_of demo_archive buf.
Proof.
  intros Hc Hl. split; [split; [exact demo_archive_ok|]|split; [done|]].
  - exists (take 4 demo_archive), (demo_entry 0 0 1 trailer_name []). done.
  - exists 20%nat. split; [done|vm_compute; reflexivity].
Qed.

(** ** A ramdisk that is not an archive *)

(** Zeros, as many as there are, and then two bytes that begin neither an archive where
    one can begin nor a gzip file: a disk image, or a file of another compression. *)
Definition not_archive (image : list Z) : Prop :=
  exists k c d rest, image = repeat 0 k ++ c :: d :: rest /\ c <> 0 /\ (c <> 48 \/ (Z.of_nat k) `mod` 4 <> 0) /\
    [c; d] <> [31; 139] /\ [c; d] <> [31; 158].

Section fallback.
Context {W : Type} (V : vfs W) (mem : fsm W -> heap).
Implicit Types f : fsm W.

Lemma junk_refused f fuel off c d rest :
  message f = None -> byte_at (input f) off = Ok c -> c <> 0 -> (c <> 48 \/ this_header f `mod` 4 <> 0) ->
  drop (Z.to_nat off) (input f) = c :: d :: rest -> [c; d] <> [31; 139] -> [c; d] <> [31; 158] ->
  exists f', unpack_loop V mem (S fuel) f off (zlen (c :: d :: rest)) = Ok f' /\ message f' <> None /\
    world f' = world f /\ head f' = head f /\ dir_list f' = dir_list f.
Proof.
  intros Hm Hb H0 Hs Hd G1 G2. cbn [unpack_loop]. rewrite Hm, bool_decide_eq_false_2 by auto. cbn [orb].
  rewrite (proj2 (Z.eqb_neq (zlen _) 0)), Hb by (cbn; lia). cbn [rbind]. rewrite land_3.
  replace ((c =? 48) && (this_header f `mod` 4 =? 0)) with false
    by (destruct Hs as [Hs|Hs]; rewrite (proj2 (Z.eqb_neq _ _) Hs); by destruct (c =? 48)).
  rewrite (proj2 (Z.eqb_neq c 0)) by done.
  assert (Hu : exists g, unpack_compressed V mem f off (zlen (c :: d :: rest)) = Ok g /\ message g <> None /\
    world g = world f /\ head g = head f /\ dir_list g = dir_list f).
  { unfold unpack_compressed. rewrite Hd, Nat2Z.id, firstn_all. unfold decompress_method. cbn [length Nat.ltb Nat.leb take].
    unfold compressed_formats. cbn [List.find fst]. rewrite (bool_decide_eq_false_2 _ G1), (bool_decide_eq_false_2 _ G2).
    repeat (case_bool_decide; [cbn; rewrite Hm; cbn; eexists; (split; [reflexivity|]); cbn; by destruct (st f)|]).
    cbn. eexists. split; [reflexivity|]. unfold error; cbn. rewrite Hm. cbn. by destruct (st f). }
  destruct Hu as (g & -> & Hg & H). cbn [rbind]. exists g. split; [|done].
  destruct fuel; cbn [unpack_loop]; by rewrite bool_decide_eq_true_2.
Qed.

Lemma zeros_skipped k f fuel off rest :
  message f = None -> 0 <= off -> 0 <= this_header f -> this_header f + Z.of_nat k < 2147483648 ->
  drop (Z.to_nat off) (input f) = repeat 0 k ++ rest ->
  unpack_loop V mem (k + fuel) f off (zlen (repeat 0 k ++ rest)) =
  unpack_loop V mem fuel (set_this_header f (this_header f + Z.of_nat k)) (off + Z.of_nat k) (zlen rest).
Proof.
  revert f off. induction k as [|k IH]; intros f off Hm Ho Ht Hk Hd.
  { cbn. rewrite !Z.add_0_r. by destruct f. }
  cbn [repeat app Nat.add] in *. cbn [unpack_loop]. rewrite Hm, bool_decide_eq_false_2 by auto. cbn [orb].
  rewrite (proj2 (Z.eqb_neq (zlen _) 0)) by (cbn; lia).
  assert (Hb : byte_at (input f) off = Ok 0).
  { unfold byte_at. rewrite (proj2 (Z.ltb_ge _ 0)) by lia. by rewrite <- (Nat.add_0_r (Z.to_nat off)), <- lookup_drop, Hd. }
  rewrite Hb. cbn [rbind Z.eqb andb]. rewrite s64_id by lia.
  replace (zlen (0 :: repeat 0 k ++ rest) - 1) with (zlen (repeat 0 k ++ rest)) by (cbn; lia).
  rewrite IH; cbn; try done; try lia.
  - f_equal; [by destruct f; cbn; f_equal; lia|lia].
  - replace (Z.to_nat (off + 1)) with (Z.to_nat off + 1)%nat by lia. by rewrite <- drop_drop, Hd.
Qed.

Lemma unpack_refuses junk f image :
  fresh f -> not_archive image -> zlen image < 2147483648 ->
  exists err f', unpack_to_rootfs V mem junk f image = Ok (Some err, f') /\ world f' = world f /\ fresh f'.
Proof.
  intros [F1 F2] (k & c & d & rest & E & H0 & Hs & G1 & G2) Hl. unfold unpack_to_rootfs. set (g := set_message _ None).
  assert (Hlen : length image = (k + S (S (length rest)))%nat) by (rewrite E, length_app, List.repeat_length; done).
  assert (Hloop : unpack_loop V mem (length image) g 0 (zlen image) =
    unpack_loop V mem (S (S (length rest))) (set_this_header g (this_header g + Z.of_nat k)) (0 + Z.of_nat k) (zlen (c :: d :: rest))).
  { rewrite <- (zeros_skipped k), Hlen, <- E by (done || cbn; lia). by rewrite Hlen. }
  rewrite Hloop.
  destruct (junk_refused (set_this_header g (this_header g + Z.of_nat k)) (S (length rest)) (0 + Z.of_nat k) c d rest)
    as (f' & -> & Hm & Hw & Hh & Hd); try done.
  - cbn [input set_this_header set_my_inptr]. unfold byte_at. rewrite Z.add_0_l, (proj2 (Z.ltb_ge _ 0)), Nat2Z.id by lia.
    change (input _) with image. rewrite E.
    by rewrite lookup_app_r, List.repeat_length, Nat.sub_diag by (rewrite List.repeat_length; lia).
  - rewrite Z.add_0_l, Nat2Z.id. change (input _) with image. rewrite E. rewrite <- (List.repeat_length 0 k) at 1. apply drop_app_length.
  - cbn [rbind]. destruct (dir_utime_world V f') as [W1 W2]. rewrite W2.
    destruct (message f') as [err|] eqn:Em; [|done]. exists err, (dir_utime V f'). split; [done|].
    rewrite W1, Hd, Hw. change (dir_list (set_this_header g _)) with (dir_list f). rewrite F2. split; [done|].
    split; [|done]. rewrite dir_utime_head, Hh. exact F1.
Qed.

(** ** Emptying the root directory *)

(** Every entry listed is removed, until a listing is empty: [n] listings before it. *)
Definition remove_entry (name : path) (w : W) : W :=
  match sys_newlstat V name w with
  | None => w
  | Some m => if S_ISDIR m then sys_rmdir V name w else sys_unlink V name w
  end.
Inductive emptied (fd : Z) : nat -> W -> W -> Prop :=
| emptied_end w w' : sys_getdents64 V fd w = ([], w') -> emptied fd 0 w w'
| emptied_more n w names w1 w' : sys_getdents64 V fd w = (names, w1) -> names <> [] ->
    emptied fd n (fold_left (fun w name => remove_entry name w) names w1) w' -> emptied fd (S n) w w'.
Definition cleaned (fuel : nat) (w w' : W) : Prop :=
  let '(fd, w1) := sys_open V root_path O_RDONLY 0 w in
  if fd <? 0 then w' = w1 else exists n w2, (n <= fuel)%nat /\ emptied fd n w1 w2 /\ w' = sys_close V fd w2.

Lemma clean_entries names f :
  exists w, fold_left (clean_entry V) names f = set_world f w /\ w = fold_left (fun w name => remove_entry name w) names (world f).
Proof.
  revert f. induction names as [|name names IH]; intros f; cbn; [exists (world f); by destruct f|].
  destruct (IH (clean_entry V f name)) as (w & -> & ->). exists (fold_left (fun w name => remove_entry name w) names (remove_entry name (world f))).
  unfold clean_entry, remove_entry, sys. destruct (sys_newlstat V name (world f)) as [m|]; [destruct (S_ISDIR m)|]; by destruct f.
Qed.
Lemma clean_batches_empties fd n fuel f w' : emptied fd n (world f) w' -> (n <= fuel)%nat -> clean_batches V fuel f fd = Ok (set_world f w').
Proof.
  intros H. remember (world f) as w eqn:Ew. revert fuel f Ew.
  induction H as [w w' E|n w names w1 w' E Hn _ IH]; intros fuel f -> Hle; destruct fuel as [|fuel]; cbn [clean_batches]; rewrite ?E; try done; [lia|].
  destruct (clean_entries names (set_world f w1)) as (w2 & -> & Ew2). destruct names; [done|].
  rewrite (IH fuel) by (done || lia). by destruct f.
Qed.
Lemma clean_rootfs_cleans fuel f w' : cleaned fuel (world f) w' -> clean_rootfs V fuel f = Ok (set_world f w').
Proof.
  unfold cleaned, clean_rootfs. destruct (sys_open V root_path O_RDONLY 0 (world f)) as [fd w1].
  destruct (fd <? 0); [by intros ->|]. intros (n & w2 & Hn & He & ->).
  rewrite (clean_batches_empties fd n fuel (set_world f w1) w2) by done. by destruct f.
Qed.
End fallback.

(** ** The initcall *)

(** What booting with the built-in archive [es0] and the ramdisk does to the file system,
    and the ramdisk that is left: none is given; it is an archive; or it is something else,
    which is stored in a file of the emptied and refilled root. *)
Definition release {W} (V : vfs W) (retain : bool) (w : W) : W := if retain then w else free_initrd_mem V w.
Inductive boots {W} (V : vfs W) (fuel : nat) (retain : bool) (es0 : list entry) : option (list Z) -> W -> W -> option (list Z) -> Prop :=
| boots_alone w : boots V fuel retain es0 None w (unpacked V es0 w) None
| boots_initramfs w es1 image : image_of es1 image ->
    boots V fuel retain es0 (Some image) w (release V retain (unpacked V es1 (unpacked V es0 w))) None
| boots_initrd w image w1 fd w2 : not_archive image -> zlen image < 2147483648 -> cleaned V fuel (unpacked V es0 w) w1 ->
    sys_open V initrd_image 65 448 (unpacked V es0 w1) = (fd, w2) -> 0 <= fd ->
    boots V fuel retain es0 (Some image) w (release V retain (sys_close V fd (sys_write V fd image w2))) None
| boots_unsaved w image w1 fd w2 : not_archive image -> zlen image < 2147483648 -> cleaned V fuel (unpacked V es0 w) w1 ->
    sys_open V initrd_image 65 448 (unpacked V es0 w1) = (fd, w2) -> fd < 0 ->
    boots V fuel retain es0 (Some image) w w2 (Some image).

Lemma fallback_stores {W} (V : vfs W) mem fuel junk f es0 image0 image retain w1 fd w2 :
  (forall fd a b w, sys_write V fd (a ++ b) w = sys_write V fd b (sys_write V fd a w)) ->
  allocates mem -> fresh f -> bufs_ok junk -> image_of es0 image0 ->
  not_archive image -> zlen image < 2147483648 -> cleaned V fuel (unpacked V es0 (world f)) w1 ->
  sys_open V initrd_image 65 448 (unpacked V es0 w1) = (fd, w2) ->
  exists f', world f' = w2 /\ populate_rootfs V mem fuel junk f image0 (Some image) retain =
    if 0 <=? fd then Ok (free_initrd V (sys (sys f' (sys_write V fd image)) (sys_close V fd)) retain) else Ok (f', Some image).
Proof.
  intros Hw Ha Hf Hj H0 Hn Hl Hc Ho. unfold populate_rootfs.
  destruct (unpack_image V mem junk f es0 image0) as (f1 & -> & E1 & F1); try done. cbn [rbind].
  rewrite bool_decide_eq_false_2 by auto.
  destruct (unpack_refuses V mem junk f1 image) as (err & f2 & -> & E2 & F2); try done. cbn [rbind].
  rewrite bool_decide_eq_false_2 by done. rewrite (clean_rootfs_cleans V fuel f2 w1) by (by rewrite E2, E1). cbn [rbind].
  destruct (unpack_image V mem junk (set_world f2 w1) es0 image0) as (f3 & -> & E3 & F3); try done. cbn [rbind].
  change (Z.lor O_WRONLY O_CREAT) with 65. rewrite E3. change (world (set_world f2 w1)) with w1. rewrite Ho.
  by exists (set_world f3 w2).
Qed.

(** C39: the initcall.  With a well-formed built-in archive that ends in its trailer,
    [populate_rootfs] unpacks it and, when there is an init ramdisk that holds such an
    archive too, that one over it, and gives the ramdisk's memory back unless the command
    line retains it.  A ramdisk that begins neither as an archive nor as a gzip file makes
    it empty the root directory, unpack the built-in archive again and store the ramdisk as
    /initrd.image; when that file cannot be opened the ramdisk is kept. *)
Theorem populate_rootfs_correct {W} (V : vfs W) mem fuel junk f es0 image0 initrd retain w' left :
  (forall fd a b w, sys_write V fd (a ++ b) w = sys_write V fd b (sys_write V fd a w)) ->
  allocates mem -> fresh f -> bufs_ok junk -> image_of es0 image0 ->
  boots V fuel retain es0 initrd (world f) w' left ->
  exists f', populate_rootfs V mem fuel junk f image0 initrd retain = Ok (f', left) /\ world f' = w'.
Proof.
  intros Hw Ha Hf Hj H0 H1. remember (world f) as w eqn:Ew.
  destruct H1 as [w|w es1 image Hi|w image w1 fd w2 Hn Hl Hc Ho Hfd|w image w1 fd w2 Hn Hl Hc Ho Hfd]; subst w.
  - unfold populate_rootfs. destruct (unpack_image V mem junk f es0 image0) as (f1 & -> & E1 & F1); try done. cbn [rbind].
    rewrite bool_decide_eq_false_2 by auto. by exists f1.
  - unfold populate_rootfs. destruct (unpack_image V mem junk f es0 image0) as (f1 & -> & E1 & F1); try done. cbn [rbind].
    rewrite bool_decide_eq_false_2 by auto.
    destruct (unpack_image V mem junk f1 es1 image) as (f2 & -> & E2 & F2); try done. cbn [rbind].
    rewrite bool_decide_eq_true_2 by done. eexists. split; [reflexivity|]. rewrite <- E1.
    destruct retain; cbn; by rewrite E2.
  - destruct (fallback_stores V mem fuel junk f es0 image0 image retain w1 fd w2) as (f' & <- & ->); try done.
    rewrite (proj2 (Z.leb_le 0 fd)) by done. eexists. split; [reflexivity|]. by destruct retain.
  - destruct (fallback_stores V mem fuel junk f es0 image0 image retain w1 fd w2) as (f' & <- & ->); try done.
    rewrite (proj2 (Z.leb_gt 0 fd)) by done. by exists f'.
Qed.

(** An archive over an archive, and a disk image with an empty first sector. *)
Definition disk_image : list Z := repeat 0 512 ++ [83; 239; 1; 0].
Lemma populate_rootfs_correct_witness :
  (exists f', populate_rootfs recorder demo_mem 0 blank_bufs blank demo_gz (Some (archive 20 demo_archive)) false
      = Ok (f', None) /\
    world f' = COther "free_initrd_mem" [] [] :: unpacked recorder demo_archive (unpacked recorder demo_archive [])) /\
  exists f' w, populate_rootfs recorder demo_mem 0 blank_bufs blank demo_gz (Some disk_image) false = Ok (f', None) /\
    world f' = COther "free_initrd_mem" [] [] :: COther "close" [] [3] :: CWrite 3 disk_image ::
      COther "open" initrd_image [65; 448] :: w.
Proof.
  split.
  - apply (populate_rootfs_correct recorder demo_mem 0 blank_bufs blank demo_archive demo_gz
      (Some (archive 20 demo_archive)) false).
    + exact recorder_app.
    + exact demo_allocates.
    + by split.
    + exact blank_bufs_ok.
    + apply demo_image; [exact demo_carries|vm_compute; reflexivity].
    + apply (boots_initramfs recorder 0 false demo_archive [] demo_archive).
      apply demo_image; [by left|vm_compute; reflexivity].
  - enough (H : exists f', populate_rootfs recorder demo_mem 0 blank_bufs blank demo_gz (Some disk_image) false = Ok (f', None) /\
      world f' = COther "free_initrd_mem" [] [] :: COther "close" [] [3] :: CWrite 3 disk_image ::
        COther "open" initrd_image [65; 448] :: unpacked recorder demo_archive (COther "close" [] [3] ::
        COther "open" root_path [O_RDONLY; 0] :: unpacked recorder demo_archive []))
      by (destruct H as [f' H]; exists f'; eexists; exact H).
    apply (populate_rootfs_correct recorder demo_mem 0 blank_bufs blank demo_archive demo_gz (Some disk_image) false).
    + exact recorder_app.
    + exact demo_allocates.
    + by split.
    + exact blank_bufs_ok.
    + apply demo_image; [exact demo_carries|vm_compute; reflexivity].
    + set (w1 := COther "close" [] [3] :: COther "open" root_path [O_RDONLY; 0] :: unpacked recorder demo_archive []).
      apply (boots_initrd recorder 0 false demo_archive [] disk_image w1 3
        (COther "open" initrd_image [65; 448] :: unpacked recorder demo_archive w1)).
      * exists 512%nat, 83, 239, [1; 0]. split_and!; try discriminate; [reflexivity|left; discriminate].
      * vm_compute. reflexivity.
      * exists 0%nat. eexists. split; [lia|]. split; [by constructor|reflexivity].
      * reflexivity.
      * lia.
Defined.

(** unpacking terminates on every image, well-formed or not: whatever bytes the
    image or the decompressed data hold, the loops of the reader and of the decompressor
    end, in an answer or at an access outside an object, also when there is no memory
    for the decompressor. *)
Theorem unpack_to_rootfs_terminates {W} (V : vfs W) mem junk f buf :
  heaps_ok mem -> Forall is_u8 buf -> settled (next_state f) -> is_u32 (body_len (hdr f)) -> zlen buf < 2147483648 ->
  unpack_to_rootfs V mem junk f buf = Fault \/
  exists m f', unpack_to_rootfs V mem junk f buf = Ok (m, f').
Proof.
  intros Hz Hu Hs Hb Hl.
  assert (H : returns (unpack_to_rootfs V mem junk f buf) (fun _ => True)).
  { unfold unpack_to_rootfs. eapply returns_bind; [apply unpack_loop_returns; [done|done|lia|]|].
    - intros _ _. split_and!; [by split|by left|by split|cbn; lia|cbn; lia].
    - intros g _. by apply returns_ok. }
  destruct H as [->|([m f'] & -> & _)]; [by left|right; by exists m, f'].
Qed.

(** A gzipped image in which one bit of the compressed data is wrong. *)
Definition garbage_gz : list Z := <[40%nat := 1]> demo_gz.
Lemma unpack_to_rootfs_terminates_witness :
  unpack_to_rootfs recorder demo_mem blank_bufs blank garbage_gz = Fault \/
  exists m f', unpack_to_rootfs recorder demo_mem blank_bufs blank garbage_gz = Ok (m, f').
Proof.
  apply (unpack_to_rootfs_terminates recorder demo_mem blank_bufs blank garbage_gz).
  - intros f. exact demo_heap_ok.
  - apply Forall_insert; [exact demo_gz_bytes|]. split; [discriminate|reflexivity].
  - by left.
  - vm_compute. split; [discriminate|reflexivity].
  - vm_compute. reflexivity.
Defined.

(** An archive whose first entry, a directory with contents, the reader skips. *)
Definition skipping_archive : list entry :=
  [demo_entry 1 0x41ed 2 [100] [1; 2; 3; 4]; demo_entry 2 0x81a4 1 [97] [104; 105]; demo_entry 0 0 1 trailer_name []].

(** What is left after the archive was delivered: the message and the calls made. *)
Definition outcome (r : res (option Z * fsm (list call))) : option (option string * list call) :=
  match r with Ok (_, f) => Some (message f, world f) | _ => None end.

(** an entry that the header alone makes the reader skip leaves [next_state] at
    what the previous collection set it to.  The same archive then unpacks when it
    arrives in one piece, and after ten bytes and the rest nothing of it is
    unpacked, without an error. *)
Theorem skipped_entry_depends_on_pieces :
  let a := archive 20 skipping_archive in
  (exists w, outcome (deliver (flush_buffer recorder) error [(a, 0)] blank) = Some (None, w) /\
     exists w', w = COther "utimes" [97] [1000] :: COther "close" [] [3] :: CWrite 3 [104; 105] :: w') /\
  outcome (deliver (flush_buffer recorder) error [(take 10 a, 0); (drop 10 a, 0)] blank) = Some (None, []).
Proof.
  cbv zeta. split.
  - eexists. split; [vm_compute; reflexivity|]. eexists. reflexivity.
  - vm_compute. reflexivity.
Qed.

(** a single byte at the end of an image, neither a zero nor the start of an
    aligned entry, makes [unpack_to_rootfs] test [compress_name], which
    [decompress_method] does not assign for less than two bytes. *)
Theorem short_tail_reads_unassigned {W} (V : vfs W) mem junk f c :
  c <> 0 -> c <> 48 -> unpack_to_rootfs V mem junk f [c] = Fault.
Proof.
  intros H0 H1. unfold unpack_to_rootfs. cbn [length unpack_loop]. set (g := set_message _ None).
  change (byte_at (input g) 0) with (Ok c). rewrite bool_decide_eq_false_2 by auto. cbn [orb rbind].
  change (Z.of_nat 1 =? 0) with false.
  rewrite (proj2 (Z.eqb_neq c 48)), (proj2 (Z.eqb_neq c 0)) by done. done.
Qed.

Lemma short_tail_reads_unassigned_witness :
  unpack_to_rootfs recorder demo_mem blank_bufs blank [10] = Fault.
Proof. apply (short_tail_reads_unassigned recorder demo_mem blank_bufs blank 10); discriminate. Defined.

(** a gzipped image whose trailer is cut by one to three bytes is unpacked, and then the
    reader goes on behind its end: [gunzip] counts a trailer of eight bytes as read without
    looking whether it is there, and the unsigned length that is left wraps around. *)
Theorem cut_trailer_overruns {W} (V : vfs W) mem junk f z es buf trailer :
  (forall fd a b w, sys_write V fd (a ++ b) w = sys_write V fd b (sys_write V fd a w)) ->
  allocates mem -> fresh f -> bufs_ok junk -> es <> [] -> Forall entry_ok es -> gzipped z es buf trailer ->
  (5 <= length trailer <= 7)%nat -> zlen buf < 2147483648 -> zlen (archive z es) < 2147483648 ->
  unpack_to_rootfs V mem junk f buf = Fault.
Proof.
  intros Hw Ha Hf Hj Hne Hok Hz Htl Hl Hl'. destruct es as [|e es]; [done|]. destruct (gzip_starts _ _ _ _ Hz) as [Hb Hn0]. unfold unpack_to_rootfs.
  set (g := set_message _ None). set (t := install_all V (e :: es) (mkTarget (world f) [] [])).
  assert (Hi : inv V t g (archive z (e :: es))) by by apply (inv_init V z e es g junk).
  destruct (unpack_gzip_round V mem Hw t g z (e :: es) buf trailer) as (g1 & Eg & G1 & G2 & G3 & G4); try done; [lia|].
  assert (Hrun : unpack_loop V mem (length buf) g 0 (zlen buf) = Fault); [|by rewrite Hrun].
  destruct buf as [|b [|b1 rest]]; [done| |].
  { destruct Hz as (hd & data & E & (flg & six & name & -> & _) & _). done. }
  set (buf := b :: b1 :: rest) in *. change (length buf) with (S (S (length rest))). cbn [unpack_loop].
  rewrite bool_decide_eq_false_2, (proj2 (Z.eqb_neq _ 0)) by (rewrite ?(inv_message _ _ _ _ Hi); auto; cbn; lia). cbn [orb].
  change (input g) with buf. rewrite Hb. cbn [rbind Z.eqb Pos.eqb andb]. change (Z.of_nat (S (S (length rest)))) with (zlen buf). rewrite Eg. cbn [rbind].
  apply (unpack_loop_over V mem g g1 (S (length rest)) 0 buf); try done. rewrite G4. lia.
Qed.

(** ** Where the code and the description of the format differ *)

Definition second_symlink : list entry :=
  [demo_entry 3 0xa1ff 2 [108] [97]; demo_entry 3 0xa1ff 2 [109] [97]; demo_entry 0 0 1 trailer_name []].
Definition file_and_fifo : list entry :=
  [demo_entry 3 0x81a4 2 [97] []; demo_entry 3 0x11a4 2 [98] []; demo_entry 0 0 1 trailer_name []].
Definition calls_of (r : res (option string * fsm (list call))) : option (option string * list string) :=
  match r with
  | Ok (e, f) => Some (e, (fun c => match c with CWrite _ _ => "write"%string | COther n _ _ => n end) <$> reverse (world f))
  | _ => None
  end.

(** the second name of a symbolic link with two links is a second symbolic link. *)
Example symlinks_are_not_linked :
  calls_of (unpack_to_rootfs recorder demo_mem blank_bufs blank (archive 0 second_symlink)) =
  Some (None, ["symlink"; "lchown"; "utimes"; "symlink"; "lchown"; "utimes"]%string).
Proof. vm_compute. reflexivity. Qed.

(** two entries of one device and inode number that differ in their file type are two files. *)
Example links_compare_types :
  calls_of (unpack_to_rootfs recorder demo_mem blank_bufs blank (archive 0 file_and_fifo)) =
  Some (None, ["open"; "fchown"; "fchmod"; "close"; "utimes"; "mknod"; "chown"; "chmod"; "utimes"]%string).
Proof. vm_compute. reflexivity. Qed.

(** an archive of the "070702" kind is refused. *)
Example crc_archive_refused :
  calls_of (unpack_to_rootfs recorder demo_mem blank_bufs blank (<[5%nat := 50]> (archive 0 demo_archive))) =
  Some (Some "no cpio magic"%string, []).
Proof. vm_compute. reflexivity. Qed.

(** a name as long as its buffer and without a NUL is read beyond the buffer: [do_name]
    does not look whether the name that the header announced ends. *)
Example unterminated_name_overruns :
  unpack_to_rootfs recorder demo_mem blank_bufs blank
    (header_bytes (demo_entry 3 0x81a4 1 (repeat 97 4095) []) ++ repeat 97 4098) = Fault.
Proof. vm_compute. reflexivity. Qed.
